(* ===== verification/_CoqProject ===== *)
-Q . S2P
Prelude.v
ByteStr.v
BTree.v
IpAddr.v
IpText.v
Float64.v
Url.v
Destination.v
Policy.v
Dns.v
Budget.v
HashChain.v
AuditTrail.v
Gateway.v
Transport.v
PinnedTransport.v
Executor.v
Stream.v
HttpSyntax.v
Vault.v
SecretVault.v
Http1.v
Http1Facts.v
Http1Codec.v
Http1CodecFacts.v
Tls.v
GatedCodec.v
Redirect.v
CookieJar.v
CookieJarFacts.v
Session.v
SessionFacts.v
Planner.v
PlannerFacts.v
Workflow.v
WorkflowOrder.v
WorkflowGraph.v
WorkflowFacts.v
Validation.v
ValidationFacts.v
Knowledge.v
KnowledgeFacts.v
LocalExecutor.v
Channel.v
ChannelFacts.v
Adapter.v
AdapterFacts.v
Replay.v
ReplayFacts.v
ReplayAgreement.v
Coverage.v
CoverageFacts.v
Scheduler.v
SchedulerFacts.v
Disk.v
Dedup.v
DedupFacts.v
DedupRestart.v
