(* ===== verification/Prelude.v ===== *)
(** * NXBounty: verification of the deny-by-default request pipeline

    NXBounty decides whether a security test may send a request, carries the
    request out under that decision and records what happened. This library is a
    shallow embedding of the crates that carry a request from its policy to the
    answer, with the theorems that make each of them, and their composition,
    correct. File and function names below are those of [src/crates].

    ** The program and its model

    A request passes these parts, each of which hands the next an object that
    names what was decided before (decision, ticket, permit, receipt, grant,
    lease); the receiving part checks the object again.

    - Foundations. [ByteStr], [IpAddr], [IpText], [Float64], [BTree] and
      [HttpSyntax] model what the sources use of the Rust standard library and
      the helper functions the crates repeat; [Url] is the interface of the url
      crate. [HashChain] is the audit chain that every crate instantiates with an
      event type of its own ([nxb-audit] and the audit modules of the others).
    - [Policy] ([nxb-policy]): [TargetPolicy::compile], [CompiledPolicy::narrow],
      [allows_host], [allows_request]. [Destination] ([nxb-destination]):
      [assess_destination]. [Dns] ([nxb-dns]): [DnsPinSet]. [Budget]
      ([nxb-budget]): [RequestBudget] over binary64.
    - [Gateway] ([nxb-gateway], events in [AuditTrail]): [ScopeGateway::authorize]
      composes the four and audits each decision.
    - [Transport] ([nxb-transport]): [TicketAuthority]. [PinnedTransport]
      ([nxb-pinned-transport]): gateway and authority together.
    - [Executor] ([nxb-executor]): [PermitExecutor] runs a backend for a permit.
      [Stream] ([nxb-stream]): [BoundedByteStream], opened from permit and receipt.
    - [Http1], [Http1Codec] ([nxb-http1]: [parser.rs], [codec.rs], [audit.rs]): the
      response parser, the request serialiser and the exchange loop over a stream;
      [Http1Facts] and [Http1CodecFacts] hold their theorems.
    - [Tls] ([nxb-tls]): [TlsPeerVerifier] checks an observed handshake against the
      stream's grant, [LibraryVerifiedTlsBinder] binds a session verified by a
      library. [GatedCodec] ([nxb-http1], [gated_codec.rs]): the public codec, which
      wraps the one of [Http1Codec] and needs a TLS grant for HTTPS.
    - [Vault], [SecretVault] ([nxb-vault]): the secret vault, its leases and the
      header batches it gives to the codec.
    - [Redirect] ([nxb-redirect]): [RedirectCoordinator] sends each redirect through
      the pinned transport again.
    - [CookieJar] ([nxb-cookie-jar]), theorems in [CookieJarFacts]: the [Set-Cookie]
      parser and the jar's transactions over the vault.
    - [Session] ([nxb-session]), theorems in [SessionFacts]: [SessionBroker]
      composes vault, jar and codec into an authenticated exchange.
    - [LocalExecutor] ([nxb-local-executor]): [LocalExecutionPipeline] consumes a
      ticket, executes its permit and gives the request slot back. [Channel]
      ([nxb-channel-contracts]), theorems in [ChannelFacts]: typed requests and
      responses over a channel opened from stream and TLS bindings.

    Above the pipeline:

    - [Planner] ([nxb-planner]), theorems in [PlannerFacts]: request plans, the
      [WorkQueue] that leases them to workers, the life cycle of a run
      ([RunMachine]) and the [ProbeCapability] of a module.
    - [Workflow] ([nxb-workflow-graph]): the [CapabilityGraph] and its search for
      risk chains (theorems in [WorkflowGraph]), [WorkflowDefinition] with
      [topological_sort] ([WorkflowOrder]), the [WorkflowEngine], the
      [OracleCoordinator] and the [RunCertificationAuthority] ([WorkflowFacts]).
    - [Validation] ([nxb-active-validation]), theorems in [ValidationFacts]: the
      [SafeMutationEngine], which spends a capability of [Planner] on each marker,
      the [OwnershipLedger] of created objects and the [DifferentialOracle].
    - [Knowledge] ([nxb-knowledge-reporting]), theorems in [KnowledgeFacts]: the
      [ApplicationKnowledgeGraph], the [EvidenceStore], [FindingDeduplicator] and
      [FindingRegistry], [ReportBuilder] with its Markdown and [ExportManifest].
    - [Adapter] ([nxb-adapter-boundary]), theorems in [AdapterFacts]: manifests,
      grants, fixtures, the supervised [AdapterSession] and its conformance
      certificate. [Replay] ([nxb-replay-lab]), theorems in [ReplayFacts] and
      [ReplayAgreement]: bundles bound to such a certificate, the [ReplayEngine]
      with fault plans and checkpoints, the drift comparator and the
      [ReproducibilityAuthority].
    - [Coverage] and [Scheduler] ([nxb-passive-analyzers], modules
      [coverage_saturation] and [adaptive_scheduler]), theorems in [CoverageFacts]
      and [SchedulerFacts]: the [CoverageTracker] with its budgets and saturation
      windows, and the [AdaptiveRuleScheduler] that leases work by score.
    - [Disk] and [Dedup] ([nxb-passive-analyzers], module [exact_dedup]), theorems
      in [DedupFacts] and [DedupRestart]: [Disk] is a directory with the outcomes of
      the calls to come, any of which may fail and leave a file half written;
      [Dedup] is the [DiskBackedExactDedupIndex] with its runs and its manifest.
      The fuel of [search_run] is one more than the entries of the run, which each
      step makes fewer, that of [dedup_flush] the size of the hot set, of which
      each run takes at least one.


    Conventions. A struct is a [Record] with a prefix per type, an enum an
    [Inductive]; [Result] and [Option] are [Result] and [option]; a method on
    [&mut self] takes the state last and returns the result with the new state.
    A call that may panic or whose loop is bounded returns [Run]: [Panic] stands
    for an abort, an index out of range or an exhausted bound. Unsigned integers
    are [N] and signed ones [Z] at their width: [saturating_add], [checked_sub]
    and the wrap-around are written out. A string or byte vector is the list of
    its bytes; a [BTreeMap] a [gmap] iterated in key order ([BTree]).

    Code that is not in the repository is a parameter, a type class with the laws
    the sources rely on: [UrlLib] and [UrlJoinLib] (url), [Sha256Lib] (sha2),
    [JsonLib] and [PrettyJsonLib] (serde_json), [HttpDateLib] (httpdate). The traits [PermitBackend]
    and [ByteStreamBackend] of the source are type classes, and theorems hold for
    every backend. Each class has a concrete instance with which the witnesses
    are evaluated.

    ** What the theorems show

    - Authorisation. A gateway decision allows exactly what policy, destination,
      DNS pin, redirect depth and budget allow; narrowing never broadens; an
      address is public exactly when no special range contains it; a pinned name
      never changes its addresses; budgets are respected over any sequence.
    - Capabilities. A ticket, a secret lease and a codec are used once; a permit,
      along any run, leads back to an earlier call that passed every check for its
      host, name and port, with its address pinned, and to the audited Allow; slots
      are conserved; revoked contexts, secrets and sessions stay silent.
    - Streams and HTTP. A stream keeps its limits for every backend; the parser
      is total, its verdicts final, what it accepts is line for line in the bytes
      and framed without ambiguity, chunked coding round-trips; a
      request cannot inject lines; the TLS verifier accepts exactly the trusted
      handshakes, its grants open channels and secrets travel only over channels
      opened with one; an exchange returns for every peer and records
      exactly what it wrote and read; audit events do not depend on secrets.
    - Sessions. Secrets reach only the identity, host and scheme they are bound
      to; cookies never widen a session; a cookie transaction is atomic; redirect
      chains are bounded and loop-free, and a redirect is followed only when it was
      authorised as a request of its own.
    - Audit. A chain verifies exactly when it was built by appends, and anchor and
      tail determine it when the hash has no collision on the two chains.
    - Planning. The scheduler's counters are the running work and stay within
      their limits along any history, work is leased once, in order of priority
      and with the host interval kept; a capability stays within its budgets and
      bindings; a run follows its life cycle and resumes only with its token;
      plans are well formed.
    - Workflows. The topological sort finds an order exactly when there is one;
      the search finds a shortest chain of nodes; the engine runs the steps that
      compensate no other in dependency order, each once, and completes only when
      all of them succeeded, and leases compensation steps only after a failure or
      a cancellation; a certificate needs a completed run and a quorum of different
      oracles.
    - Validation. Markers are inert and bounded and no more than the capability
      pays for; the ledger implements the cleanup life cycle of each object; the
      oracle confirms exactly the repeated, sufficient differences.
    - Reporting. Evidence is redacted and content addressed; findings follow their
      life cycle in at most four steps; clusters summarise their findings; a
      report holds exactly the reportable findings; a manifest is tamper evident.
    - Channels. A typed request from the checked constructors keeps its limits, no
      text of its head can end a line, and it carries sensitive headers only over a
      TLS session that agrees with its stream; its target reads back; its
      fingerprint identifies it (multipart bodies apart); the local pipeline leaks no slot.
    - Adapters and replays. A session stays within its limits on messages, bytes,
      time, memory and emitted observations along any history, and a certificate is
      earned; a replay follows its bundle and plan, a resumed one
      continues exactly like the original, drift is classified by what the observations say, and
      a certificate of reproducibility needs, and independent replays of the same
      steps reach, a quorum of agreeing receipts.
    - Passive analysis. Coverage receipts account for every pair, finding and
      resource of any history, a run is stopped as saturated exactly when it is,
      and can be marked completed exactly when everything is recorded and nothing
      waits; the scheduler loses no work and does none twice, reserves
      exactly what is open, and leases the best current item. The deduplication
      index answers like a set whatever calls of the disk fail, and on a working
      disk it is found again when it is opened anew.
    - Error behaviour the code does not intend is proved as well: a tiny rate
      panics the budget, [issue] accepts a host that is not in normal form, a
      failed exchange leaves the codec reusable, an expired cookie blocks its
      session, a failed logout forgets the cookies, an expired lease blocks its
      workflow, a failed workflow can be reopened, a risk chain may name a
      compensating edge, a response to HEAD may carry both framing headers, a sample passed twice is confirmed, a promotion names any
      endpoint, the origin of a finding can forge another one in a report, parts of
      a multipart body are hashed ambiguously, a copied grant opens a second session
      and a created replay cannot be stopped.

    Bounds. The parser loops have as fuel the number of bytes of their input plus
    one, and each iteration consumes a byte; the exchange loops have the
    operation budget of the stream plus two, and each iteration consumes an
    operation; the topological sort takes as many rounds as there are steps, and
    the search for a risk chain at most [(1 + edges) ^ depth]. The theorems of
    totality show that the fuel is never exhausted.
    Theorems over traces of operations ask that the 64-bit identifier counters
    have not saturated.

    ** Not modelled

    Reading TOML ([nxb-policy]) and serde's JSON are third-party parsers. Erasing
    memory on drop and redacting [Debug] output are not observable in the model.
    The other crates above the pipeline (analysis, evidence sealing, run
    control and governance) are not modelled yet; crates that start processes or
    read files ([nxb-vault-provider-process], [nxb-live-adapter], the binaries of
    [nxb-core]) are mostly input and output.
*)

From Stdlib Require Export Ascii String NArith ZArith Lia.
From stdpp Require Export base tactics decidable option list numbers strings pretty
  fin_maps gmap sets sorting.

(** ** Notations of the development *)

Declare Scope rust_scope.
Delimit Scope rust_scope with rust.
Open Scope rust_scope.

(** A Rust [String], [&str], [Vec<u8>] or [&[u8]] is the list of its bytes. *)
Abbreviation byte := ascii.
Abbreviation str := (list ascii).

(** A string literal of the source denotes its bytes. *)
Coercion list_ascii_of_string : string >-> list.

(** [Result<A, E>] of the source. *)
Inductive Result (A E : Type) : Type :=
  | Ok (a : A)
  | Err (e : E).
Arguments Ok {A E} a.
Arguments Err {A E} e.

(** A call that may panic: [Done] returns, [Panic] aborts with the message. *)
Inductive Run (A : Type) : Type :=
  | Done (a : A)
  | Panic (message : str).
Arguments Done {A} a.
Arguments Panic {A} message.

(** The [?] operator. *)
Notation "'let?' x ':=' e 'in' k" :=
  (match e with Ok x => k | Err err => Err err end)
  (at level 10, x pattern, e at level 100, k at level 200)
  : rust_scope.

(** Sequencing of calls that may panic. *)
Notation "'let!' x ':=' e 'in' k" :=
  (match e with Done x => k | Panic msg => Panic msg end)
  (at level 10, x pattern, e at level 100, k at level 200)
  : rust_scope.

Definition is_ok {A E} (r : Result A E) : bool :=
  match r with Ok _ => true | Err _ => false end.

Definition map_err {A E F} (f : E -> F) (r : Result A E) : Result A F :=
  match r with Ok a => Ok a | Err e => Err (f e) end.

(** [iter.map(f).collect::<Result<Vec<_>, _>>()]: the first error wins. *)
Fixpoint collect_results {A B E} (f : A -> Result B E) (l : list A) : Result (list B) E :=
  match l with
  | [] => Ok []
  | x :: rest =>
      let? y := f x in
      let? ys := collect_results f rest in
      Ok (y :: ys)
  end.

(** ** Machine integers *)

Definition u8_max : N := 255.
Definition u16_max : N := 65535.
Definition u32_max : N := 4294967295.
Definition u64_max : N := 18446744073709551615.
Definition u128_max : N := 340282366920938463463374607431768211455.

(** [u64::saturating_add] and [u64::checked_add]. *)
Definition saturating_add (a b : N) : N := N.min (a + b) u64_max.
Definition checked_add (a b : N) : option N :=
  if (a + b <=? u64_max)%N then Some (a + b)%N else None.

(** [u8::saturating_add]. *)
Definition u8_saturating_add (a b : N) : N := N.min (a + b) u8_max.

(** [i64::saturating_add]. *)
Definition i64_min : Z := -9223372036854775808.
Definition i64_max : Z := 9223372036854775807.
Definition i64_saturating_add (a b : Z) : Z := Z.max i64_min (Z.min (a + b) i64_max).

(** [slice.len() as u64]; a Rust slice is shorter than [isize::MAX] bytes, so
    the conversion never truncates. *)
Definition len {A} (l : list A) : N := N.of_nat (length l).

(** ** Ordered sets *)

(** What [BTreeSet] and [BTreeMap] need of [Ord]. *)
Class Ord (A : Type) : Type := {
  ord_leb : A -> A -> bool;
  ord_leb_total : forall x y, ord_leb x y = true \/ ord_leb y x = true;
  ord_leb_trans : forall x y z, ord_leb x y = true -> ord_leb y z = true -> ord_leb x z = true;
  ord_leb_antisymm : forall x y, ord_leb x y = true -> ord_leb y x = true -> x = y
}.

Definition ord_le {A} `{Ord A} (x y : A) : Prop := ord_leb x y = true.

#[export] Instance ord_le_dec {A} `{Ord A} (x y : A) : Decision (ord_le x y).
Proof. unfold ord_le. apply _. Defined.

#[export] Instance ord_le_total {A} `{Ord A} : Total (ord_le (A := A)).
Proof. intros x y. unfold ord_le. apply ord_leb_total. Qed.

(** A [BTreeSet] is a [gset]; iterating it visits the elements in order. *)
Definition btree_iter {A} `{Countable A} `{Ord A} (s : gset A) : list A :=
  merge_sort ord_le (elements s).

Lemma elem_of_btree_iter {A} `{Countable A} `{Ord A} (s : gset A) x :
  x ∈ btree_iter s <-> x ∈ s.
Proof.
  unfold btree_iter. rewrite (merge_sort_Permutation ord_le (elements s)).
  apply elem_of_elements.
Qed.

Lemma btree_iter_sorted {A} `{Countable A} `{Ord A} (s : gset A) :
  Sorted ord_le (btree_iter s).
Proof. apply Sorted_merge_sort, _. Qed.

(** Lexicographic order of byte strings, the order of [str]. *)
Fixpoint str_leb (x y : str) : bool :=
  match x, y with
  | [], _ => true
  | _ :: _, [] => false
  | a :: x', b :: y' =>
      match N.compare (N_of_ascii a) (N_of_ascii b) with
      | Lt => true
      | Gt => false
      | Eq => str_leb x' y'
      end
  end.

Lemma N_of_ascii_inj a b : N_of_ascii a = N_of_ascii b -> a = b.
Proof.
  intros H. rewrite <- (ascii_N_embedding a), <- (ascii_N_embedding b). by f_equal.
Qed.

Ltac cmp_bytes :=
  repeat match goal with
  | |- context [N.compare ?a ?b] => destruct (N.compare_spec a b)
  | H : context [N.compare ?a ?b] |- _ => destruct (N.compare_spec a b)
  end.

#[export] Instance str_ord : Ord str.
Proof.
  refine {| ord_leb := str_leb |}.
  - induction x as [|a x IH]; intros [|b y]; simpl; auto.
    cmp_bytes; auto; lia.
  - induction x as [|a x IH]; intros [|b y] [|c z]; simpl; try done.
    cmp_bytes; try done; try lia. by apply IH.
  - induction x as [|a x IH]; intros [|b y]; simpl; try done.
    cmp_bytes; try done; try lia.
    intros. f_equal; [by apply N_of_ascii_inj | by apply IH].
Defined.

(** ** Tactics *)

(** Case analysis on the scrutinee of the first conditional of a hypothesis,
    closing the branches whose results differ. *)
Ltac step_in H :=
  match type of H with
  | context [match ?e with _ => _ end] =>
      lazymatch e with
      | context [match _ with _ => _ end] => fail
      | _ => destruct e eqn:?
      end
  end; try discriminate H.

(** Every early return of a fallible body that returned [Ok]. *)
Ltac inv_ok H := repeat step_in H; simplify_eq.

(** The same on the goal. *)
Ltac step_goal :=
  match goal with
  | |- context [match ?e with _ => _ end] =>
      lazymatch e with
      | context [match _ with _ => _ end] => fail
      | _ => destruct e eqn:?
      end
  end.

(** Boolean connectives of hypotheses, turned into propositions. *)
Ltac bools :=
  repeat match goal with
  | H : (_ && _) = true |- _ => apply andb_true_iff in H; destruct H
  | H : (_ || _) = false |- _ => apply orb_false_iff in H; destruct H
  | H : negb _ = true |- _ => apply negb_true_iff in H
  | H : negb _ = false |- _ => apply negb_false_iff in H
  | H : (_ <=? _)%N = true |- _ => apply N.leb_le in H
  | H : (_ <=? _)%N = false |- _ => apply N.leb_gt in H
  | H : (_ <? _)%N = true |- _ => apply N.ltb_lt in H
  | H : (_ <? _)%N = false |- _ => apply N.ltb_ge in H
  | H : (_ =? _)%N = true |- _ => apply N.eqb_eq in H
  | H : (_ =? _)%N = false |- _ => apply N.eqb_neq in H
  | H : (_ <=? _)%Z = true |- _ => apply Z.leb_le in H
  | H : (_ <=? _)%Z = false |- _ => apply Z.leb_gt in H
  | H : bool_decide _ = true |- _ => apply bool_decide_eq_true in H
  | H : bool_decide _ = false |- _ => apply bool_decide_eq_false in H
  end.

Create HintDb rust discriminated.

(** ** Shared lemmas *)

(** When a guarded body returns [Ok]. *)
Lemma guard_ok {A E} (b : bool) (e : E) (k : Result A E) x :
  (if b then Err e else k) = Ok x <-> b = false /\ k = Ok x.
Proof. destruct b; naive_solver. Qed.

Lemma seq_ok {A E} (r : Result unit E) (k : Result A E) x :
  (let? _ := r in k) = Ok x <-> r = Ok tt /\ k = Ok x.
Proof. destruct r as [[]|]; naive_solver. Qed.

Lemma collect_results_ok {A B E} (f : A -> Result B E) l ys :
  collect_results f l = Ok ys <-> Forall2 (fun x y => f x = Ok y) l ys.
Proof.
  revert ys. induction l as [|x l IH]; intros ys; simpl; split; intros H.
  - simplify_eq. constructor.
  - by inversion H.
  - inv_ok H. constructor; [done|]. by apply IH.
  - inversion H as [|? y ? ys' Hx Hl]; subst. rewrite Hx. apply IH in Hl. by rewrite Hl.
Qed.

Lemma find_none_elem {A} (p : A -> bool) (l : list A) :
  List.find p l = None <-> forall x, x ∈ l -> p x = false.
Proof.
  induction l as [|y l IH]; simpl; split.
  - intros _ x Hx. set_solver.
  - done.
  - destruct (p y) eqn:E; [done|]. intros H x [->|Hx]%elem_of_cons; [done|]. by apply IH.
  - intros H. rewrite (H y ltac:(set_solver)). apply IH. intros. apply H. set_solver.
Qed.

Lemma existsb_elem {A} (p : A -> bool) (l : list A) :
  existsb p l = true <-> exists x, x ∈ l /\ p x = true.
Proof.
  rewrite existsb_exists. split; intros (x & Hx & Hp); exists x; split; auto;
    by apply list_elem_of_In.
Qed.

Lemma forallb_elem {A} (p : A -> bool) (l : list A) :
  forallb p l = true <-> forall x, x ∈ l -> p x = true.
Proof.
  rewrite forallb_forall. split; intros H x Hx; apply H; by apply list_elem_of_In.
Qed.

Lemma saturating_add_le a b : (saturating_add a b <= u64_max)%N.
Proof. unfold saturating_add. lia. Qed.

Lemma saturating_add_exact a b m :
  (saturating_add a b <= m)%N -> (m < u64_max)%N -> saturating_add a b = (a + b)%N.
Proof. unfold saturating_add. generalize u64_max. intros. lia. Qed.

Lemma saturating_add_small a b m :
  (a + b <= m)%N -> (m <= u64_max)%N -> saturating_add a b = (a + b)%N.
Proof. unfold saturating_add. generalize u64_max. intros. lia. Qed.

(** A counter that is not saturated after an increment was incremented. *)
Lemma saturating_succ_exact n : (saturating_add n 1 < u64_max)%N -> saturating_add n 1 = (n + 1)%N.
Proof. unfold saturating_add. generalize u64_max. intros. lia. Qed.

Lemma checked_add_some a b c :
  checked_add a b = Some c <-> c = (a + b)%N /\ (a + b <= u64_max)%N.
Proof. unfold checked_add. destruct (N.leb_spec (a + b) u64_max); naive_solver lia. Qed.

Lemma len_app {A} (l k : list A) : len (l ++ k) = (len l + len k)%N.
Proof. unfold len. rewrite length_app. lia. Qed.

Lemma len_nil {A} : len (@nil A) = 0%N.
Proof. done. Qed.

Lemma len_cons {A} (x : A) l : len (x :: l) = (1 + len l)%N.
Proof. unfold len. simpl. lia. Qed.

#[export] Hint Resolve saturating_add_le : rust.

(** The result of a call decides the pair of the result and the new state. *)
Lemma pair_of_fst {A B} (p : A * B) a : fst p = a -> p = (a, snd p).
Proof. by destruct p as [? ?]; intros <-. Qed.
