(* ===== verification/ByteStr.v ===== *)
(** * Byte strings: the [str], [char] and [u8] methods the sources call

    The standard-library functions on ASCII bytes and UTF-8 strings used by the
    crates, on the bytes of the string, and the identifier and host-name
    predicates every crate repeats in the same words: [is_valid_identifier],
    [normalize_identifier], [normalize_host], [is_lower_hex_sha256] and
    [to_lower_hex]. *)

From S2P Require Import Prelude.

(** ** [u8] predicates *)

Definition in_range (lo hi : N) (c : byte) : bool :=
  (lo <=? N_of_ascii c)%N && (N_of_ascii c <=? hi)%N.

Definition is_ascii_digit : byte -> bool := in_range 48 57.
Definition is_ascii_uppercase : byte -> bool := in_range 65 90.
Definition is_ascii_lowercase : byte -> bool := in_range 97 122.
Definition is_ascii_alphabetic (c : byte) : bool := is_ascii_uppercase c || is_ascii_lowercase c.
Definition is_ascii_alphanumeric (c : byte) : bool := is_ascii_alphabetic c || is_ascii_digit c.
Definition is_ascii_hexdigit (c : byte) : bool :=
  is_ascii_digit c || in_range 65 70 c || in_range 97 102 c.
Definition is_ascii_control (c : byte) : bool :=
  (N_of_ascii c <? 32)%N || (N_of_ascii c =? 127)%N.
Definition is_byte (n : N) (c : byte) : bool := (N_of_ascii c =? n)%N.

Definition lower_byte (c : byte) : byte :=
  if is_ascii_uppercase c then ascii_of_N (N_of_ascii c + 32) else c.
Definition upper_byte (c : byte) : byte :=
  if is_ascii_lowercase c then ascii_of_N (N_of_ascii c - 32) else c.

Definition to_ascii_lowercase (s : str) : str := map lower_byte s.
Definition to_ascii_uppercase (s : str) : str := map upper_byte s.
Definition eq_ignore_ascii_case (a b : str) : bool :=
  bool_decide (to_ascii_lowercase a = to_ascii_lowercase b).

(** ** [str::trim]: Unicode White_Space, by its UTF-8 encodings *)

Definition ws1 (a : byte) : bool := in_range 9 13 a || is_byte 32 a.
Definition ws2 (a b : byte) : bool := is_byte 194 a && (is_byte 133 b || is_byte 160 b).
Definition ws3 (a b c : byte) : bool :=
  (is_byte 225 a && is_byte 154 b && is_byte 128 c)
  || (is_byte 226 a && is_byte 128 b
      && (in_range 128 138 c || is_byte 168 c || is_byte 169 c || is_byte 175 c))
  || (is_byte 226 a && is_byte 129 b && is_byte 159 c)
  || (is_byte 227 a && is_byte 128 b && is_byte 128 c).

(** Drops the leading white-space characters. *)
Fixpoint trim_start (s : str) : str :=
  match s with
  | [] => []
  | a :: r1 =>
      if ws1 a then trim_start r1
      else match r1 with
           | [] => s
           | b :: r2 =>
               if ws2 a b then trim_start r2
               else match r2 with
                    | [] => s
                    | c :: r3 => if ws3 a b c then trim_start r3 else s
                    end
           end
  end.

(** The same from the end: on the reversed bytes, a character's last byte comes
    first. *)
Fixpoint trim_end_rev (s : str) : str :=
  match s with
  | [] => []
  | a :: r1 =>
      if ws1 a then trim_end_rev r1
      else match r1 with
           | [] => s
           | b :: r2 =>
               if ws2 b a then trim_end_rev r2
               else match r2 with
                    | [] => s
                    | c :: r3 => if ws3 c b a then trim_end_rev r3 else s
                    end
           end
  end.

Definition trim_end (s : str) : str := reverse (trim_end_rev (reverse s)).
Definition trim (s : str) : str := trim_end (trim_start s).

(** ** Prefixes, suffixes, searching and splitting *)

Fixpoint drop_while (p : byte -> bool) (s : str) : str :=
  match s with
  | [] => []
  | c :: rest => if p c then drop_while p rest else s
  end.

(** [s.trim_end_matches(c)] and [s.trim_matches(..)] for one-byte patterns. *)
Definition trim_end_matches (p : byte -> bool) (s : str) : str :=
  reverse (drop_while p (reverse s)).
Definition trim_matches (p : byte -> bool) (s : str) : str :=
  trim_end_matches p (drop_while p s).

Fixpoint starts_with (s prefix : str) {struct prefix} : bool :=
  match prefix, s with
  | [], _ => true
  | _ :: _, [] => false
  | p :: prefix', c :: s' => bool_decide (p = c) && starts_with s' prefix'
  end.

Definition ends_with (s suffix : str) : bool := starts_with (reverse s) (reverse suffix).

(** [str::strip_prefix] and [str::strip_suffix]. *)
Definition strip_prefix (s prefix : str) : option str :=
  if starts_with s prefix then Some (drop (length prefix) s) else None.
Definition strip_suffix (s suffix : str) : option str :=
  if ends_with s suffix then Some (take (length s - length suffix) s) else None.

Definition contains_byte (n : N) (s : str) : bool := existsb (is_byte n) s.

Fixpoint contains_str (s needle : str) : bool :=
  starts_with s needle
  || match s with
     | [] => false
     | _ :: s' => contains_str s' needle
     end.

(** [s.split(c)]: never empty, and the pieces of [""] are [[""]]. *)
Fixpoint split_byte (n : N) (s : str) : list str :=
  match s with
  | [] => [[]]
  | c :: rest =>
      if is_byte n c then [] :: split_byte n rest
      else match split_byte n rest with
           | piece :: pieces => (c :: piece) :: pieces
           | [] => [[c]]
           end
  end.

Fixpoint join (sep : str) (l : list str) : str :=
  match l with
  | [] => []
  | [x] => x
  | x :: rest => x ++ sep ++ join sep rest
  end.

(** ** Formatting *)

(** [value.to_string()] of an unsigned integer. *)
Definition decimal (n : N) : str := pretty n.
(** The same for a signed integer. *)
Definition decimal_z (n : Z) : str :=
  if (n <? 0)%Z then ("-" : str) ++ decimal (Z.to_N (- n)) else decimal (Z.to_N n).

(** [format!("{value:020}")]. *)
Definition zero_pad (width : nat) (s : str) : str :=
  replicate (width - length s) "0"%char ++ s.
Definition decimal020 (n : N) : str := zero_pad 20 (decimal n).

Definition hex_digit (n : N) : byte :=
  if (n <? 10)%N then ascii_of_N (48 + n) else ascii_of_N (87 + n).

(** [to_lower_hex]. *)
Definition to_lower_hex (bytes : str) : str :=
  flat_map (fun b => [hex_digit (N.shiftr (N_of_ascii b) 4);
                      hex_digit (N.land (N_of_ascii b) 15)]) bytes.

(** ** The predicates the crates share *)

(** [byte.is_ascii_alphanumeric() || matches!(byte, b'-' | b'_' | b'.' | b':')] *)
Definition is_identifier_byte (c : byte) : bool :=
  is_ascii_alphanumeric c || is_byte 45 c || is_byte 95 c || is_byte 46 c || is_byte 58 c.

Definition is_valid_identifier (value : str) : bool :=
  let value := trim value in
  negb (bool_decide (value = [])) && (len value <=? 128)%N && forallb is_identifier_byte value.

Definition normalize_identifier (value : str) : str := to_ascii_lowercase (trim value).

Definition normalize_host (value : str) : str :=
  to_ascii_lowercase (trim_end_matches (is_byte 46) (trim value)).

(** One label of a DNS name, as the [split('.').all(..)] of the sources has it. *)
Definition is_valid_label (label : str) : bool :=
  negb (bool_decide (label = []))
  && (len label <=? 63)%N
  && negb (starts_with label "-")
  && negb (ends_with label "-")
  && forallb (fun c => is_ascii_alphanumeric c || is_byte 45 c) label.

Definition is_lower_hex_sha256 (value : str) : bool :=
  (len value =? 64)%N && forallb (fun c => is_ascii_digit c || in_range 97 102 c) value.

(** ** Case analysis on a byte *)

Ltac byte_cases c := destruct c as [[] [] [] [] [] [] [] []]; vm_compute; try done.

(** A printable, non-space ASCII byte: never part of a white-space character. *)
Definition is_graphic (c : byte) : bool := in_range 33 126 c.

Lemma graphic_not_ws1 c : is_graphic c = true -> ws1 c = false.
Proof. byte_cases c. Qed.

Lemma graphic_not_lead c : is_graphic c = true -> (N_of_ascii c < 128)%N.
Proof. byte_cases c. Qed.

Lemma identifier_byte_graphic c : is_identifier_byte c = true -> is_graphic c = true.
Proof. byte_cases c. Qed.

Lemma identifier_byte_lower c : is_identifier_byte (lower_byte c) = is_identifier_byte c.
Proof. byte_cases c. Qed.

Lemma lower_byte_idemp c : lower_byte (lower_byte c) = lower_byte c.
Proof. byte_cases c. Qed.

Lemma lower_byte_ws1 c : ws1 (lower_byte c) = ws1 c.
Proof. byte_cases c. Qed.

(** Lower-casing fixes every byte outside the upper-case letters. *)
Lemma lower_byte_is_byte n c :
  (n < 65 \/ 122 < n)%N -> is_byte n (lower_byte c) = is_byte n c.
Proof.
  intros Hn. unfold lower_byte, is_byte.
  destruct (is_ascii_uppercase c) eqn:E; [|done].
  unfold is_ascii_uppercase, in_range in E. bools.
  rewrite N_ascii_embedding by lia.
  destruct (N.eqb_spec (N_of_ascii c + 32) n), (N.eqb_spec (N_of_ascii c) n); lia || done.
Qed.

Lemma lower_byte_high lo hi c :
  (122 < lo)%N -> in_range lo hi (lower_byte c) = in_range lo hi c.
Proof.
  intros Hn. unfold lower_byte, in_range.
  destruct (is_ascii_uppercase c) eqn:E; [|done].
  unfold is_ascii_uppercase, in_range in E. bools.
  rewrite N_ascii_embedding by lia.
  destruct (N.leb_spec lo (N_of_ascii c + 32)), (N.leb_spec lo (N_of_ascii c)); lia || done.
Qed.

Lemma lower_ws2 a b : ws2 (lower_byte a) (lower_byte b) = ws2 a b.
Proof. unfold ws2. rewrite !lower_byte_is_byte by lia. done. Qed.

Lemma lower_ws3 a b c : ws3 (lower_byte a) (lower_byte b) (lower_byte c) = ws3 a b c.
Proof. unfold ws3. rewrite !lower_byte_is_byte, lower_byte_high by lia. done. Qed.

(** ** Trimming *)

(** Induction on a string by one, two or three bytes at a time. *)
Lemma str_ind3 (P : str -> Prop) :
  P [] -> (forall a, P [a]) -> (forall a b, P [a; b]) ->
  (forall a b c r, P (b :: c :: r) -> P (c :: r) -> P r -> P (a :: b :: c :: r)) ->
  forall s, P s.
Proof.
  intros H0 H1 H2 H3.
  assert (forall n s, length s <= n -> P s) as Hn.
  { induction n as [|n IH]; intros [|a [|b [|c r]]] Hl; simpl in *; auto; try lia.
    apply H3; apply IH; simpl; lia. }
  intros s. apply (Hn (length s)). done.
Qed.

Lemma trim_start_suffix s : exists p, s = p ++ trim_start s.
Proof.
  induction s as [|a|a b|a b c r IHb IHc IHr] using str_ind3.
  - by exists [].
  - simpl. destruct (ws1 a); [by exists [a] | by exists []].
  - simpl. destruct (ws1 a), (ws1 b), (ws2 a b);
      solve [by exists [a; b] | by exists [a] | by exists []].
  - change (trim_start (a :: b :: c :: r)) with
      (if ws1 a then trim_start (b :: c :: r)
       else if ws2 a b then trim_start (c :: r)
       else if ws3 a b c then trim_start r else a :: b :: c :: r).
    destruct IHb as [pb Hb], IHc as [pc Hc], IHr as [pr Hr].
    destruct (ws1 a); [exists (a :: pb); cbn [app]; by f_equal|].
    destruct (ws2 a b); [exists (a :: b :: pc); cbn [app]; by rewrite <- Hc|].
    destruct (ws3 a b c); [exists (a :: b :: c :: pr); cbn [app]; by rewrite <- Hr|].
    by exists [].
Qed.

(** Nothing to drop at the head of the string. *)
Definition no_head_ws (s : str) : Prop :=
  match s with
  | [] => True
  | a :: r1 =>
      ws1 a = false /\
      match r1 with
      | [] => True
      | b :: r2 => ws2 a b = false /\
          match r2 with [] => True | c :: _ => ws3 a b c = false end
      end
  end.

Lemma trim_start_id s : no_head_ws s -> trim_start s = s.
Proof.
  destruct s as [|a [|b [|c r]]]; simpl; try done.
  - by intros [-> _].
  - by intros (-> & -> & _).
  - by intros (-> & -> & ->).
Qed.

Lemma trim_start_no_head_ws s : no_head_ws (trim_start s).
Proof.
  induction s as [|a|a b|a b c r IHb IHc IHr] using str_ind3.
  - done.
  - simpl. by destruct (ws1 a) eqn:?.
  - simpl. destruct (ws1 a) eqn:?, (ws1 b) eqn:?, (ws2 a b) eqn:?; simpl; auto.
  - change (trim_start (a :: b :: c :: r)) with
      (if ws1 a then trim_start (b :: c :: r)
       else if ws2 a b then trim_start (c :: r)
       else if ws3 a b c then trim_start r else a :: b :: c :: r).
    destruct (ws1 a) eqn:?; [done|].
    destruct (ws2 a b) eqn:?; [done|].
    destruct (ws3 a b c) eqn:?; [done|].
    by simpl.
Qed.

Lemma no_head_ws_prefix s t : no_head_ws (s ++ t) -> no_head_ws s.
Proof. destruct s as [|a [|b [|c r]]]; simpl; intuition. Qed.

Lemma lower_no_head_ws s : no_head_ws (to_ascii_lowercase s) <-> no_head_ws s.
Proof.
  destruct s as [|a [|b [|c r]]]; simpl;
    rewrite ?lower_byte_ws1, ?lower_ws2, ?lower_ws3; done.
Qed.

(** The mirror of [no_head_ws] on the reversed bytes. *)
Definition no_last_ws_rev (s : str) : Prop :=
  match s with
  | [] => True
  | a :: r1 =>
      ws1 a = false /\
      match r1 with
      | [] => True
      | b :: r2 => ws2 b a = false /\
          match r2 with [] => True | c :: _ => ws3 c b a = false end
      end
  end.

Lemma trim_end_rev_id s : no_last_ws_rev s -> trim_end_rev s = s.
Proof.
  destruct s as [|a [|b [|c r]]]; simpl; try done.
  - by intros [-> _].
  - by intros (-> & -> & _).
  - by intros (-> & -> & ->).
Qed.

Lemma trim_end_rev_spec s :
  no_last_ws_rev (trim_end_rev s) /\ exists p, s = p ++ trim_end_rev s.
Proof.
  induction s as [|a|a b|a b c r IHb IHc IHr] using str_ind3.
  - split; [done|by exists []].
  - simpl. destruct (ws1 a) eqn:?; (split; [done|]); [by exists [a] | by exists []].
  - simpl. destruct (ws1 a) eqn:?, (ws1 b) eqn:?, (ws2 b a) eqn:?; simpl; (split; [done|]);
      solve [by exists [a; b] | by exists [a] | by exists []].
  - change (trim_end_rev (a :: b :: c :: r)) with
      (if ws1 a then trim_end_rev (b :: c :: r)
       else if ws2 b a then trim_end_rev (c :: r)
       else if ws3 c b a then trim_end_rev r else a :: b :: c :: r).
    destruct IHb as [Nb [pb Hb]], IHc as [Nc [pc Hc]], IHr as [Nr [pr Hr]].
    destruct (ws1 a) eqn:?; [split; [done|]; exists (a :: pb); cbn [app]; by f_equal|].
    destruct (ws2 b a) eqn:?; [split; [done|]; exists (a :: b :: pc); cbn [app]; by rewrite <- Hc|].
    destruct (ws3 c b a) eqn:?;
      [split; [done|]; exists (a :: b :: c :: pr); cbn [app]; by rewrite <- Hr|].
    split; [by simpl | by exists []].
Qed.

Lemma lower_no_last_ws_rev s : no_last_ws_rev (to_ascii_lowercase s) <-> no_last_ws_rev s.
Proof.
  destruct s as [|a [|b [|c r]]]; simpl;
    rewrite ?lower_byte_ws1, ?lower_ws2, ?lower_ws3; done.
Qed.

(** A string with no white-space character at either end is its own trimming. *)
Lemma trim_id s : no_head_ws s -> no_last_ws_rev (reverse s) -> trim s = s.
Proof.
  intros Hh Hl. unfold trim, trim_end. rewrite trim_start_id by done.
  rewrite trim_end_rev_id by done. apply reverse_involutive.
Qed.

Lemma trim_ends s : no_head_ws (trim s) /\ no_last_ws_rev (reverse (trim s)).
Proof.
  unfold trim, trim_end. rewrite reverse_involutive.
  destruct (trim_end_rev_spec (reverse (trim_start s))) as [Hn [p Hp]].
  split; [|done].
  apply (no_head_ws_prefix _ (reverse p)). rewrite <- reverse_app, <- Hp, reverse_involutive.
  apply trim_start_no_head_ws.
Qed.

Lemma trim_idemp s : trim (trim s) = trim s.
Proof. destruct (trim_ends s). by apply trim_id. Qed.

Lemma reverse_map {A B} (f : A -> B) (s : list A) : reverse (map f s) = map f (reverse s).
Proof. unfold reverse. rewrite <- !rev_alt. symmetry. apply map_rev. Qed.

Lemma trim_lower_trim s :
  trim (to_ascii_lowercase (trim s)) = to_ascii_lowercase (trim s).
Proof.
  destruct (trim_ends s) as [Hh Hl]. apply trim_id; [by apply lower_no_head_ws|].
  unfold to_ascii_lowercase. rewrite reverse_map. by apply lower_no_last_ws_rev.
Qed.

Lemma to_ascii_lowercase_idemp s :
  to_ascii_lowercase (to_ascii_lowercase s) = to_ascii_lowercase s.
Proof.
  unfold to_ascii_lowercase. rewrite map_map. apply map_ext. apply lower_byte_idemp.
Qed.

Lemma normalize_identifier_idemp s :
  normalize_identifier (normalize_identifier s) = normalize_identifier s.
Proof.
  unfold normalize_identifier. by rewrite trim_lower_trim, to_ascii_lowercase_idemp.
Qed.

Lemma graphic_no_head_ws s : forallb is_graphic s = true -> no_head_ws s.
Proof.
  assert (forall a b, is_graphic a = true -> ws2 a b = false) as H2.
  { intros a b Ha%graphic_not_lead. unfold ws2, is_byte.
    by rewrite (proj2 (N.eqb_neq _ _)) by lia. }
  assert (forall a b c, is_graphic a = true -> ws3 a b c = false) as H3.
  { intros a b c Ha%graphic_not_lead. unfold ws3, is_byte.
    by rewrite !(proj2 (N.eqb_neq (N_of_ascii a) _)) by lia. }
  destruct s as [|a [|b [|c r]]]; simpl; intros; bools; auto using graphic_not_ws1.
Qed.

Lemma forallb_reverse {A} (p : A -> bool) s : forallb p (reverse s) = forallb p s.
Proof.
  apply Bool.eq_iff_eq_true. rewrite !forallb_elem.
  by setoid_rewrite elem_of_reverse.
Qed.

Lemma graphic_no_last_ws s : forallb is_graphic s = true -> no_last_ws_rev s.
Proof.
  assert (forall a b, is_graphic a = true -> ws2 b a = false) as H2.
  { intros a b Ha%graphic_not_lead. unfold ws2, is_byte.
    rewrite !(proj2 (N.eqb_neq (N_of_ascii a) _)) by lia. by rewrite andb_false_r. }
  assert (forall a b c, is_graphic a = true -> ws3 c b a = false) as H3.
  { intros a b c Ha%graphic_not_lead. unfold ws3, is_byte, in_range.
    rewrite !(proj2 (N.eqb_neq (N_of_ascii a) _)), (proj2 (N.leb_gt _ _)) by lia.
    by rewrite ?andb_false_r. }
  destruct s as [|a [|b [|c r]]]; simpl; intros; bools; auto using graphic_not_ws1.
Qed.

Lemma trim_graphic s : forallb is_graphic s = true -> trim s = s.
Proof.
  intros H. apply trim_id; [by apply graphic_no_head_ws|].
  apply graphic_no_last_ws. by rewrite forallb_reverse.
Qed.

(** ** Suffixes and splitting *)

Lemma starts_with_spec s p : starts_with s p = true <-> exists r, s = p ++ r.
Proof.
  revert s. induction p as [|a p IH]; intros s; simpl.
  - split; [by exists s | done].
  - destruct s as [|c s]; [split; [done | intros [r H]; discriminate H]|].
    rewrite andb_true_iff, bool_decide_eq_true, IH.
    split; [intros [-> [r ->]]; by exists r | intros [r [= -> ->]]; split; eauto].
Qed.

Lemma ends_with_spec s t : ends_with s t = true <-> exists p, s = p ++ t.
Proof.
  unfold ends_with. rewrite starts_with_spec. split.
  - intros [r Hr]. exists (reverse r).
    by rewrite <- (reverse_involutive s), Hr, reverse_app, reverse_involutive.
  - intros [p ->]. exists (reverse p). apply reverse_app.
Qed.

Lemma strip_prefix_spec s p r : strip_prefix s p = Some r <-> s = p ++ r.
Proof.
  unfold strip_prefix. destruct (starts_with s p) eqn:E.
  - apply starts_with_spec in E as [q ->]. rewrite drop_app_length.
    split; [by intros [= ->] | by intros ->%app_inv_head].
  - split; [done|]. intros ->. apply not_true_iff_false in E. destruct E. apply starts_with_spec. eauto.
Qed.

Lemma strip_suffix_spec s t p : strip_suffix s t = Some p <-> s = p ++ t.
Proof.
  unfold strip_suffix. destruct (ends_with s t) eqn:E.
  - apply ends_with_spec in E as [q ->]. rewrite length_app, Nat.add_sub, take_app_length.
    split; [by intros [= ->] | by intros ->%app_inv_tail].
  - split; [done|]. intros ->. apply not_true_iff_false in E. destruct E. apply ends_with_spec. eauto.
Qed.

Lemma split_byte_nonempty n s : split_byte n s <> [].
Proof. destruct s as [|c s]; simpl; [done|]. repeat step_goal; done. Qed.

(** The pieces, joined by the separator, are the string. *)
Lemma join_split_byte n c s :
  N_of_ascii c = n -> join [c] (split_byte n s) = s.
Proof.
  intros Hc. induction s as [|a s IH]; simpl; [done|].
  pose proof (split_byte_nonempty n s) as Hne. unfold is_byte.
  destruct (N.eqb_spec (N_of_ascii a) n) as [Ha|Ha].
  - assert (a = c) as -> by (apply N_of_ascii_inj; congruence).
    destruct (split_byte n s) as [|p ps] eqn:E; [done|].
    change (join [c] ([] :: p :: ps)) with ([] ++ [c] ++ join [c] (p :: ps)).
    by rewrite IH.
  - destruct (split_byte n s) as [|p [|q ps]] eqn:E; [done| |].
    + simpl in *. by rewrite IH.
    + change (join [c] ((a :: p) :: q :: ps)) with (a :: join [c] (p :: q :: ps)). by rewrite IH.
Qed.

Lemma forallb_split_byte p n s :
  (forall c, is_byte n c = true -> p c = true) ->
  forallb (forallb p) (split_byte n s) = true -> forallb p s = true.
Proof.
  intros Hn. induction s as [|a s IH]; simpl; [done|].
  destruct (is_byte n a) eqn:Ea; simpl.
  - intros H. rewrite Hn by done. by apply IH.
  - pose proof (split_byte_nonempty n s) as Hne.
    destruct (split_byte n s) as [|q qs]; [done|]. simpl.
    intros H. bools. rewrite H. simpl. apply IH. simpl. by rewrite H0, H1.
Qed.

(** Splitting sees a trailing separator as an empty last piece. *)
Lemma split_byte_snoc n c s :
  is_byte n c = true -> exists x l, split_byte n (s ++ [c]) = x :: l ++ [[]].
Proof.
  intros Hc. induction s as [|a s (x & l & IH)]; simpl.
  - rewrite Hc. by exists [], [].
  - rewrite IH. destruct (is_byte n a); [by exists [], (x :: l) | by exists (a :: x), l].
Qed.

(** ** Host names *)

Lemma label_byte_graphic c :
  is_ascii_alphanumeric c || is_byte 45 c = true -> is_graphic c = true.
Proof. byte_cases c. Qed.

Lemma valid_labels_graphic h :
  forallb is_valid_label (split_byte 46 h) = true -> forallb is_graphic h = true.
Proof.
  intros H. apply (forallb_split_byte _ 46); [intros c; byte_cases c|].
  apply forallb_elem. intros label Hl. rewrite forallb_elem in H.
  specialize (H label Hl). unfold is_valid_label in H. bools.
  apply forallb_elem. intros c Hc. apply label_byte_graphic.
  match goal with HF : forallb _ label = true |- _ => rewrite forallb_elem in HF; by apply HF end.
Qed.

Lemma drop_while_head p c s : p c = false -> drop_while p (c :: s) = c :: s.
Proof. simpl. by intros ->. Qed.

(** A name of valid labels ends in no dot, so only its letter case can change. *)
Lemma normalize_host_valid h :
  forallb is_valid_label (split_byte 46 h) = true -> normalize_host h = to_ascii_lowercase h.
Proof.
  intros H. unfold normalize_host. rewrite trim_graphic by (by apply valid_labels_graphic).
  unfold trim_end_matches. destruct (reverse h) as [|c r] eqn:Hr.
  - simpl. by rewrite <- (reverse_involutive h), Hr.
  - destruct (is_byte 46 c) eqn:Hc.
    + exfalso. assert (h = reverse r ++ [c]) as Hh.
      { by rewrite <- (reverse_involutive h), Hr, reverse_cons. }
      destruct (split_byte_snoc 46 c (reverse r) Hc) as (x & l & Hs).
      rewrite <- Hh in Hs. rewrite Hs in H. rewrite forallb_elem in H.
      specialize (H [] ltac:(set_solver)). done.
    + rewrite drop_while_head by done. by rewrite <- Hr, reverse_involutive.
Qed.

Lemma normalize_host_fixpoint h :
  forallb is_valid_label (split_byte 46 h) = true ->
  to_ascii_lowercase h = h -> normalize_host h = h.
Proof. intros H Hl. by rewrite normalize_host_valid. Qed.

Lemma normalize_host_lower s : to_ascii_lowercase (normalize_host s) = normalize_host s.
Proof. apply to_ascii_lowercase_idemp. Qed.

(** ** Numbers *)

(** The value of a string of decimal digits. *)
Definition digit_value (c : byte) : N := N_of_ascii c - 48.
Definition decimal_value (s : str) : N :=
  fold_left (fun acc c => acc * 10 + digit_value c)%N s 0%N.

Lemma decimal_value_snoc s c : decimal_value (s ++ [c]) = (decimal_value s * 10 + digit_value c)%N.
Proof. unfold decimal_value. by rewrite fold_left_app. Qed.

Lemma decimal_value_zeros k s : decimal_value (replicate k "0"%char ++ s) = decimal_value s.
Proof. induction k as [|k IH]; simpl; [done|]. exact IH. Qed.

Lemma list_ascii_app s t :
  list_ascii_of_string (s +:+ t) = (s : str) ++ (t : str).
Proof. induction s as [|a s IH]; simpl; [done|]. by rewrite IH. Qed.

Lemma pretty_N_char_digit x :
  (x < 10)%N -> is_ascii_digit (pretty_N_char x) = true /\ digit_value (pretty_N_char x) = x.
Proof.
  intros H. assert (x = 0 \/ x = 1 \/ x = 2 \/ x = 3 \/ x = 4 \/ x = 5 \/ x = 6 \/ x = 7 \/ x = 8 \/ x = 9)%N as Hx by lia.
  repeat (destruct Hx as [->|Hx]; [done|]). by subst.
Qed.

Lemma pretty_N_go_spec x : forall s : string, exists d : str,
  (pretty_N_go x s : str) = d ++ s /\ decimal_value d = x /\ forallb is_ascii_digit d = true.
Proof.
  induction (N.lt_wf_0 x) as [x _ IH]. intros s.
  destruct (decide (x = 0%N)) as [->|Hx].
  - exists []. by rewrite pretty_N_go_0.
  - rewrite pretty_N_go_step by lia.
    destruct (pretty_N_char_digit (x `mod` 10)) as [Hd Hv]; [apply N.mod_lt; lia|].
    destruct (IH (x `div` 10)%N ltac:(apply N.div_lt; lia)
                (String (pretty_N_char (x `mod` 10)) s)) as (d & H1 & H2 & H3).
    exists (d ++ [pretty_N_char (x `mod` 10)]). rewrite H1. split; [|split].
    + simpl. by rewrite <- (assoc_L (++)).
    + rewrite decimal_value_snoc, H2, Hv. pose proof (N.div_mod x 10). lia.
    + rewrite forallb_app, H3. simpl. by rewrite Hd.
Qed.

Lemma decimal_spec n : decimal_value (decimal n) = n /\ forallb is_ascii_digit (decimal n) = true.
Proof.
  unfold decimal, pretty, pretty_N. case_decide as H; [by subst|].
  destruct (pretty_N_go_spec n "") as (d & H1 & H2 & H3). rewrite H1. simpl.
  by rewrite app_nil_r.
Qed.

Lemma decimal020_value n : decimal_value (decimal020 n) = n.
Proof. unfold decimal020, zero_pad. rewrite decimal_value_zeros. apply decimal_spec. Qed.

#[export] Instance decimal_inj : Inj (=) (=) decimal.
Proof.
  intros a b H. rewrite <- (proj1 (decimal_spec a)), <- (proj1 (decimal_spec b)). by rewrite H.
Qed.

#[export] Instance decimal020_inj : Inj (=) (=) decimal020.
Proof. intros a b H. by rewrite <- (decimal020_value a), <- (decimal020_value b), H. Qed.

(** ** Hexadecimal digests *)

Lemma hex_digit_lower n :
  (n < 16)%N -> is_ascii_digit (hex_digit n) || in_range 97 102 (hex_digit n) = true.
Proof.
  intros H. unfold hex_digit. destruct (N.ltb_spec n 10);
    unfold is_ascii_digit, in_range; rewrite N_ascii_embedding by lia.
  - by rewrite !(proj2 (N.leb_le _ _)) by lia.
  - rewrite (proj2 (N.leb_gt (87 + n) 57)), !(proj2 (N.leb_le _ _)) by lia. done.
Qed.

Lemma hex_digit_inj a b : (a < 16)%N -> (b < 16)%N -> hex_digit a = hex_digit b -> a = b.
Proof.
  intros Ha Hb H. apply (f_equal N_of_ascii) in H. revert H. unfold hex_digit.
  destruct (N.ltb_spec a 10), (N.ltb_spec b 10); rewrite !N_ascii_embedding; lia.
Qed.

Lemma nibbles c :
  (N.shiftr (N_of_ascii c) 4 < 16)%N /\ (N.land (N_of_ascii c) 15 < 16)%N.
Proof. split; byte_cases c. Qed.

Lemma nibbles_inj a b :
  N.shiftr (N_of_ascii a) 4 = N.shiftr (N_of_ascii b) 4 ->
  N.land (N_of_ascii a) 15 = N.land (N_of_ascii b) 15 -> a = b.
Proof.
  intros Hs Hl. apply N_of_ascii_inj.
  change 15%N with (N.ones 4) in Hl. rewrite !N.land_ones, !N.shiftr_div_pow2 in *.
  rewrite (N.div_mod (N_of_ascii a) (2 ^ 4)), (N.div_mod (N_of_ascii b) (2 ^ 4)) by done.
  by rewrite Hs, Hl.
Qed.

#[export] Instance to_lower_hex_inj : Inj (=) (=) to_lower_hex.
Proof.
  intros x. induction x as [|a x IH]; intros [|b y] H; try done.
  cbn in H. injection H as H1 H2 H3.
  destruct (nibbles a), (nibbles b).
  f_equal; [apply nibbles_inj; by apply hex_digit_inj | by apply IH].
Qed.

(** A 32-byte digest prints as a lower-case SHA-256 value. *)
Lemma to_lower_hex_sha256 d : length d = 32 -> is_lower_hex_sha256 (to_lower_hex d) = true.
Proof.
  intros Hd. unfold is_lower_hex_sha256. apply andb_true_iff. split.
  - apply N.eqb_eq. unfold len.
    assert (length (to_lower_hex d) = 2 * length d) as ->.
    { clear. unfold to_lower_hex. induction d; simpl in *; lia. }
    by rewrite Hd.
  - clear Hd. induction d as [|a d IH]; [done|].
    destruct (nibbles a) as [H1 H2]. cbn.
    by rewrite !hex_digit_lower by done.
Qed.

Lemma forallb_map {A B} (p : B -> bool) (f : A -> B) l :
  forallb p (map f l) = forallb (fun x => p (f x)) l.
Proof. induction l as [|x l IH]; simpl; [done|]. by rewrite IH. Qed.

Lemma forallb_ext' {A} (p q : A -> bool) l : (forall x, p x = q x) -> forallb p l = forallb q l.
Proof. intros H. induction l as [|x l IH]; simpl; [done|]. by rewrite H, IH. Qed.

Lemma is_valid_identifier_normalized v :
  is_valid_identifier v = true -> is_valid_identifier (normalize_identifier v) = true.
Proof.
  unfold is_valid_identifier, normalize_identifier. rewrite trim_lower_trim.
  unfold to_ascii_lowercase, len. rewrite length_map, forallb_map.
  rewrite (forallb_ext' (fun x => is_identifier_byte (lower_byte x)) is_identifier_byte) by apply identifier_byte_lower.
  by destruct (trim v).
Qed.

(** ** Lists of lines *)

Lemma forallb_join p sep l :
  forallb p sep = true -> forallb (forallb p) l = true -> forallb p (join sep l) = true.
Proof.
  intros Hs. induction l as [|x [|y l] IH]; [done| |]; intros Hl.
  - simpl in *. by bools.
  - change (join sep (x :: y :: l)) with (x ++ sep ++ join sep (y :: l)).
    cbn [forallb] in Hl. bools. rewrite !forallb_app, H, Hs. simpl. apply IH. cbn [forallb].
    by rewrite H0, H1.
Qed.

Lemma split_byte_piece n x s :
  forallb (fun c => negb (is_byte n c)) x = true ->
  split_byte n (x ++ s) = match split_byte n s with p :: ps => (x ++ p) :: ps | [] => [x] end.
Proof.
  induction x as [|c x IH]; simpl; intros H.
  - pose proof (split_byte_nonempty n s). by destruct (split_byte n s).
  - bools. rewrite H, IH by done. pose proof (split_byte_nonempty n s). by destruct (split_byte n s).
Qed.

(** Splitting undoes joining when no piece holds the separator. *)
Lemma split_byte_join n c l :
  N_of_ascii c = n -> l <> [] ->
  Forall (fun x => forallb (fun c => negb (is_byte n c)) x = true) l ->
  split_byte n (join [c] l) = l.
Proof.
  intros Hc Hne Hl. assert (is_byte n c = true) as Hb by (unfold is_byte; by apply N.eqb_eq).
  clear Hc. induction Hl as [|x l Hx Hl IH]; [done|]. destruct l as [|y l].
  - simpl. rewrite <- (app_nil_r x) at 1. rewrite split_byte_piece by done. simpl. by rewrite app_nil_r.
  - change (join [c] (x :: y :: l)) with (x ++ c :: join [c] (y :: l)).
    rewrite split_byte_piece by done. cbn [split_byte]. rewrite Hb, IH by done. by rewrite app_nil_r.
Qed.

Lemma digits_graphic s : forallb is_ascii_digit s = true -> forallb is_graphic s = true.
Proof. rewrite !forallb_elem. intros H c Hc. specialize (H c Hc). revert H. byte_cases c. Qed.

Lemma decimal_graphic n : forallb is_graphic (decimal n) = true.
Proof. apply digits_graphic, decimal_spec. Qed.

Lemma decimal020_graphic n : forallb is_graphic (decimal020 n) = true.
Proof.
  unfold decimal020, zero_pad. rewrite forallb_app, decimal_graphic, andb_true_r.
  apply forallb_elem. by intros c [-> _]%elem_of_replicate.
Qed.

Lemma identifier_graphic v :
  is_valid_identifier v = true -> normalize_identifier v = v -> forallb is_graphic v = true.
Proof.
  intros Hv Hn. rewrite <- Hn. apply is_valid_identifier_normalized in Hv.
  unfold is_valid_identifier, normalize_identifier in *. rewrite trim_lower_trim in Hv. bools.
  rewrite forallb_elem in *. intros c Hc. specialize (H0 c Hc). revert H0. byte_cases c.
Qed.

Lemma graphic_no_newline s :
  forallb is_graphic s = true -> forallb (fun c => negb (is_byte 10 c)) s = true.
Proof. rewrite !forallb_elem. intros H c Hc. specialize (H c Hc). revert H. byte_cases c. Qed.

Lemma is_lower_hex_sha256_graphic s : is_lower_hex_sha256 s = true -> forallb is_graphic s = true.
Proof.
  unfold is_lower_hex_sha256. intros H. bools. rewrite forallb_elem in *. intros c Hc.
  specialize (H0 c Hc). revert H0. byte_cases c.
Qed.

(** ** The width of formatted numbers *)

Lemma pretty_N_go_length k : forall x (s : string),
  (x < 10 ^ N.of_nat k)%N -> length (pretty_N_go x s : str) <= k + length (s : str).
Proof.
  induction k as [|k IH]; intros x s Hx.
  - assert (x = 0%N) as -> by (simpl in Hx; lia). by rewrite pretty_N_go_0.
  - destruct (decide (x = 0%N)) as [->|Hne]; [rewrite pretty_N_go_0; lia|].
    rewrite pretty_N_go_step by lia.
    assert (x / 10 < 10 ^ N.of_nat k)%N as Hd.
    { apply N.Div0.div_lt_upper_bound. rewrite Nat2N.inj_succ, N.pow_succ_r' in Hx. lia. }
    specialize (IH _ (String (pretty_N_char (x `mod` 10)) s) Hd). simpl in IH. lia.
Qed.

Lemma decimal_length k n : 0 < k -> (n < 10 ^ N.of_nat k)%N -> length (decimal n) <= k.
Proof.
  intros Hk Hn. unfold decimal, pretty, pretty_N. case_decide; [simpl; lia|].
  pose proof (pretty_N_go_length k n "" Hn). simpl in *. lia.
Qed.

(** A 64-bit number is formatted to exactly twenty digits. *)
Lemma decimal020_length n : (n <= u64_max)%N -> length (decimal020 n) = 20.
Proof.
  intros Hn. assert (length (decimal n) <= 20) as Hl.
  { apply decimal_length; [lia|]. unfold u64_max in Hn. simpl. lia. }
  unfold decimal020, zero_pad. rewrite length_app, length_replicate. lia.
Qed.

Lemma decimal020_digits n : forallb is_ascii_digit (decimal020 n) = true.
Proof.
  unfold decimal020, zero_pad. rewrite forallb_app, (proj2 (decimal_spec n)), andb_true_r.
  apply forallb_elem. by intros c [-> _]%elem_of_replicate.
Qed.

(** The identifiers the crates allocate are valid identifiers. *)
Lemma prefixed_identifier_valid prefix n :
  forallb is_identifier_byte prefix = true -> prefix <> [] -> length prefix <= 100 ->
  (n <= u64_max)%N -> is_valid_identifier (prefix ++ decimal020 n) = true.
Proof.
  intros Hp Hne Hl Hn.
  assert (forallb is_identifier_byte (prefix ++ decimal020 n) = true) as Hi.
  { rewrite forallb_app, Hp. simpl. pose proof (decimal020_digits n) as Hd. rewrite forallb_elem in *.
    intros c Hc. specialize (Hd c Hc). revert Hd. byte_cases c. }
  assert (trim (prefix ++ decimal020 n) = prefix ++ decimal020 n) as Ht.
  { apply trim_graphic. rewrite forallb_elem in *. intros c Hc. specialize (Hi c Hc). revert Hi. byte_cases c. }
  unfold is_valid_identifier. rewrite Ht, Hi, andb_true_r. apply andb_true_iff. split.
  - by destruct prefix.
  - apply N.leb_le. unfold len. rewrite length_app, decimal020_length by done. lia.
Qed.

#[global] Arguments trim : simpl never.
#[global] Arguments normalize_identifier : simpl never.
#[global] Arguments normalize_host : simpl never.
#[global] Arguments is_valid_identifier : simpl never.
#[global] Arguments is_lower_hex_sha256 : simpl never.
#[global] Arguments decimal020 : simpl never.
#[global] Arguments decimal : simpl never.
#[global] Arguments to_lower_hex : simpl never.
#[global] Arguments contains_byte : simpl never.
#[global] Arguments starts_with : simpl nomatch.
