(* ===== verification/BTree.v ===== *)
(** * BTree: ordered maps ([std::collections::BTreeMap])

    A [BTreeMap] is a [gmap]; iterating it visits the keys in their order. *)

From S2P Require Import Prelude.
Local Open Scope N_scope.

(** The derived order of a struct with two fields. *)
#[export] Instance prod_ord {A B} `{EqDecision A} `{Ord A} `{Ord B} : Ord (A * B).
Proof.
  refine {| ord_leb := fun p q => if bool_decide (p.1 = q.1) then ord_leb p.2 q.2 else ord_leb p.1 q.1 |}.
  - intros [a b] [a' b']. cbn. repeat case_bool_decide; subst; try congruence; apply ord_leb_total.
  - intros [a b] [a' b'] [a'' b'']. cbn. repeat case_bool_decide; subst; try congruence;
      eauto using ord_leb_trans.
    intros L1 L2. by pose proof (ord_leb_antisymm _ _ L1 L2).
  - intros [a b] [a' b']. cbn. repeat case_bool_decide; subst; try congruence.
    + intros L1 L2. f_equal. by apply ord_leb_antisymm.
    + intros L1 L2. by pose proof (ord_leb_antisymm _ _ L1 L2).
Defined.

(** The order of a struct with the fields [f] collects. *)
Definition ord_via {A B} `{Ord B} (f : A -> B) (Hf : forall x y, f x = f y -> x = y) : Ord A.
Proof.
  refine {| ord_leb := fun x y => ord_leb (f x) (f y) |}.
  - intros x y. apply ord_leb_total.
  - intros x y z. apply ord_leb_trans.
  - intros x y L1 L2. apply Hf. by apply ord_leb_antisymm.
Defined.

Section Maps.
Context {K V : Type} `{Countable K} `{Ord K}.

(** [keys()], [iter()] and [values()]. *)
Definition map_keys (m : gmap K V) : list K := btree_iter (dom m).
Definition map_iter (m : gmap K V) : list (K * V) :=
  omap (fun k => option_map (pair k) (m !! k)) (map_keys m).
Definition map_values (m : gmap K V) : list V := (map_iter m).*2.

Lemma elem_of_map_keys (m : gmap K V) k : k ∈ map_keys m <-> is_Some (m !! k).
Proof. unfold map_keys. rewrite elem_of_btree_iter. apply elem_of_dom. Qed.

Lemma elem_of_map_iter (m : gmap K V) k v : (k, v) ∈ map_iter m <-> m !! k = Some v.
Proof.
  unfold map_iter. rewrite list_elem_of_omap. split.
  - intros (k' & _ & Hk). destruct (m !! k') eqn:E; simplify_eq/=. done.
  - intros Hv. exists k. rewrite elem_of_map_keys, Hv. split; [by eauto | done].
Qed.

Lemma elem_of_map_values (m : gmap K V) v : v ∈ map_values m <-> exists k, m !! k = Some v.
Proof.
  unfold map_values. rewrite list_elem_of_fmap. split.
  - intros ([k v'] & -> & Hk). apply elem_of_map_iter in Hk. eauto.
  - intros (k & Hk). exists (k, v). split; [done|]. by apply elem_of_map_iter.
Qed.

Lemma map_keys_NoDup (m : gmap K V) : NoDup (map_keys m).
Proof. unfold map_keys, btree_iter. rewrite merge_sort_Permutation. apply NoDup_elements. Qed.

Lemma map_iter_keys (m : gmap K V) : (map_iter m).*1 = map_keys m.
Proof.
  unfold map_iter. assert (Hall : forall k, k ∈ map_keys m -> is_Some (m !! k)) by (intros k; apply elem_of_map_keys).
  induction (map_keys m) as [|k l IH]; [done|]. cbn.
  destruct (Hall k ltac:(set_solver)) as [v Hv]. rewrite Hv. cbn. f_equal. apply IH. set_solver.
Qed.

Lemma map_iter_NoDup (m : gmap K V) : NoDup (map_iter m).*1.
Proof. rewrite map_iter_keys. apply map_keys_NoDup. Qed.

Lemma map_iter_empty : map_iter (∅ : gmap K V) = [].
Proof. unfold map_iter, map_keys, btree_iter. rewrite dom_empty_L, elements_empty. done. Qed.

Lemma map_iter_length (m : gmap K V) : length (map_iter m) = size m.
Proof.
  rewrite <- (length_fmap fst), map_iter_keys. unfold map_keys, btree_iter.
  rewrite merge_sort_Permutation. by rewrite <- size_dom.
Qed.

Lemma map_values_omap (m : gmap K V) : map_values m = omap (fun k => m !! k) (map_keys m).
Proof.
  unfold map_values, map_iter. induction (map_keys m) as [|k l IH]; [done|]. cbn.
  destruct (m !! k); cbn; by rewrite IH.
Qed.
End Maps.

(** Values found under different keys, with an injective projection. *)
Lemma NoDup_fmap_omap {A B C} (f : B -> C) (g : A -> option B) l :
  NoDup l ->
  (forall x y a b, x ∈ l -> y ∈ l -> g x = Some a -> g y = Some b -> f a = f b -> x = y) ->
  NoDup (f <$> omap g l).
Proof.
  intros Hnd Hinj. induction Hnd as [|x l Hx Hnd IH]; [constructor|]. cbn.
  destruct (g x) as [a|] eqn:Ha; [|apply IH; intros; eapply Hinj; eauto; set_solver].
  cbn. constructor; [|apply IH; intros; eapply Hinj; eauto; set_solver].
  intros (b & Hf & (y & Hy & Hb)%list_elem_of_omap)%list_elem_of_fmap.
  apply Hx. by rewrite (Hinj x y a b ltac:(set_solver) ltac:(set_solver) Ha Hb Hf).
Qed.

(** ** Sums over a map *)

Definition map_sum {K V} `{Countable K} (f : V -> N) (m : gmap K V) : N :=
  map_fold (fun _ v sum => f v + sum) 0 m.

Section Sums.
Context {K V : Type} `{Countable K}.
Implicit Types (f g : V -> N) (m : gmap K V).

Lemma map_sum_empty f : map_sum f (∅ : gmap K V) = 0.
Proof. apply map_fold_empty. Qed.

Lemma map_sum_insert f m k v : m !! k = None -> map_sum f (<[k := v]> m) = f v + map_sum f m.
Proof.
  intros Hk. unfold map_sum.
  rewrite (map_fold_insert_L (fun (_ : K) v sum => f v + sum)) by (done || intros; lia). done.
Qed.

Lemma map_sum_delete f m k v : m !! k = Some v -> map_sum f m = f v + map_sum f (delete k m).
Proof.
  intros Hk. rewrite <- (insert_delete_id m k v Hk) at 1. apply map_sum_insert, lookup_delete_eq.
Qed.

Lemma map_sum_le f g m : (forall v, f v <= g v) -> map_sum f m <= map_sum g m.
Proof.
  intros Hw. induction m as [|k v m Hk IH] using map_ind; [by rewrite !map_sum_empty|].
  rewrite !map_sum_insert by done. specialize (Hw v). lia.
Qed.

Lemma map_sum_ext f g m : (forall v, f v = g v) -> map_sum f m = map_sum g m.
Proof. intros Hw. apply N.le_antisymm; apply map_sum_le; intros v; by rewrite Hw. Qed.

Lemma map_sum_add f g m : map_sum (fun v => f v + g v) m = map_sum f m + map_sum g m.
Proof.
  induction m as [|k v m Hk IH] using map_ind; [by rewrite !map_sum_empty|].
  rewrite !map_sum_insert by done. lia.
Qed.

Lemma map_sum_one m : map_sum (fun _ => 1) m = N.of_nat (size m).
Proof.
  induction m as [|k v m Hk IH] using map_ind; [by rewrite map_sum_empty, map_size_empty|].
  rewrite map_sum_insert, map_size_insert_None by done. lia.
Qed.

Lemma map_sum_elem f m k v : m !! k = Some v -> f v <= map_sum f m.
Proof. intros Hk. rewrite (map_sum_delete f m k v Hk). lia. Qed.
End Sums.
