(* ===== verification/IpAddr.v ===== *)
(** * IP addresses: the parts of [std::net] the sources use

    An [Ipv4Addr] is its 32-bit value and an [Ipv6Addr] its 128-bit value, both
    big-endian, as [u32::from] and [u128::from] give them. *)

From S2P Require Import Prelude ByteStr.
Local Open Scope N_scope.

Inductive IpAddr : Type :=
  | V4 (address : N)
  | V6 (address : N).

#[export] Instance IpAddr_eq_dec : EqDecision IpAddr.
Proof. solve_decision. Defined.

#[export] Instance IpAddr_countable : Countable IpAddr.
Proof.
  apply (inj_countable'
    (fun ip => match ip with V4 a => inl a | V6 a => inr a end)
    (fun s => match s with inl a => V4 a | inr a => V6 a end)).
  by intros [].
Defined.

(** Every value of the Rust types fits its width. *)
Definition ip_in_width (ip : IpAddr) : Prop :=
  match ip with V4 a => a < 2 ^ 32 | V6 a => a < 2 ^ 128 end.

(** [Ord for IpAddr]: IPv4 before IPv6, then by value. *)
Definition ip_leb (x y : IpAddr) : bool :=
  match x, y with
  | V4 a, V4 b => a <=? b
  | V4 _, V6 _ => true
  | V6 _, V4 _ => false
  | V6 a, V6 b => a <=? b
  end.

#[export] Instance ip_ord : Ord IpAddr.
Proof.
  refine {| ord_leb := ip_leb |}.
  - intros [a|a] [b|b]; simpl; auto; rewrite !N.leb_le; lia.
  - intros [a|a] [b|b] [c|c]; simpl; try done; rewrite !N.leb_le; lia.
  - intros [a|a] [b|b]; simpl; try done; rewrite !N.leb_le; intros; f_equal; lia.
Defined.

(** ** [Ipv4Addr] *)

Definition ipv4_new (a b c d : N) : N := a * 2 ^ 24 + b * 2 ^ 16 + c * 2 ^ 8 + d.
Definition ipv4_octet (i : N) (a : N) : N := N.land (N.shiftr a (8 * (3 - i))) 255.

Definition ipv4_is_loopback (a : N) : bool := ipv4_octet 0 a =? 127.
Definition ipv4_is_private (a : N) : bool :=
  (ipv4_octet 0 a =? 10)
  || ((ipv4_octet 0 a =? 172) && (16 <=? ipv4_octet 1 a) && (ipv4_octet 1 a <=? 31))
  || ((ipv4_octet 0 a =? 192) && (ipv4_octet 1 a =? 168)).
Definition ipv4_is_link_local (a : N) : bool :=
  (ipv4_octet 0 a =? 169) && (ipv4_octet 1 a =? 254).
Definition ipv4_is_multicast (a : N) : bool :=
  (224 <=? ipv4_octet 0 a) && (ipv4_octet 0 a <=? 239).
Definition ipv4_broadcast : N := ipv4_new 255 255 255 255.
Definition ipv4_is_broadcast (a : N) : bool := a =? ipv4_broadcast.
Definition ipv4_is_unspecified (a : N) : bool := a =? 0.
Definition ipv4_is_documentation (a : N) : bool :=
  ((ipv4_octet 0 a =? 192) && (ipv4_octet 1 a =? 0) && (ipv4_octet 2 a =? 2))
  || ((ipv4_octet 0 a =? 198) && (ipv4_octet 1 a =? 51) && (ipv4_octet 2 a =? 100))
  || ((ipv4_octet 0 a =? 203) && (ipv4_octet 1 a =? 0) && (ipv4_octet 2 a =? 113)).

(** ** [Ipv6Addr] *)

Definition ipv6_new (a b c d e f g h : N) : N :=
  a * 2 ^ 112 + b * 2 ^ 96 + c * 2 ^ 80 + d * 2 ^ 64
  + e * 2 ^ 48 + f * 2 ^ 32 + g * 2 ^ 16 + h.
Definition ipv6_segment (i : N) (a : N) : N := N.land (N.shiftr a (16 * (7 - i))) 65535.
Definition ipv6_segments (a : N) : list N :=
  map (fun i => ipv6_segment (N.of_nat i) a) (seq 0 8).

Definition ipv6_is_unspecified (a : N) : bool := a =? 0.
Definition ipv6_is_loopback (a : N) : bool := a =? 1.
Definition ipv6_is_multicast (a : N) : bool := N.land (ipv6_segment 0 a) 65280 =? 65280.

(** [to_ipv4_mapped]: [::ffff:a.b.c.d]. *)
Definition ipv6_to_ipv4_mapped (a : N) : option N :=
  if N.shiftr a 32 =? 65535 then Some (N.land a u32_max) else None.

(** ** [Display] *)

Definition ipv4_to_string (a : N) : str :=
  join "." (map (fun i => decimal (ipv4_octet (N.of_nat i) a)) (seq 0 4)).

(** [{:x}] of a 16-bit segment. *)
Definition hex16 (n : N) : str :=
  let digits := [hex_digit (N.land (N.shiftr n 12) 15); hex_digit (N.land (N.shiftr n 8) 15);
                 hex_digit (N.land (N.shiftr n 4) 15)] in
  drop_while (is_byte 48) digits ++ [hex_digit (N.land n 15)].

(** The first longest run of zero segments, as [(start, length)]. *)
Fixpoint longest_zero_run (i : nat) (current longest : nat * nat) (segments : list N)
    : nat * nat :=
  match segments with
  | [] => longest
  | s :: rest =>
      if s =? 0 then
        let current := (if Nat.eqb current.2 0 then i else current.1, S current.2) in
        let longest := if Nat.ltb longest.2 current.2 then current else longest in
        longest_zero_run (S i) current longest rest
      else longest_zero_run (S i) (0%nat, 0%nat) longest rest
  end.

Definition ipv6_to_string (a : N) : str :=
  match ipv6_to_ipv4_mapped a with
  | Some v4 => ("::ffff:" : str) ++ ipv4_to_string v4
  | None =>
      let segments := ipv6_segments a in
      let '(start, run) := longest_zero_run 0 (0%nat, 0%nat) (0%nat, 0%nat) segments in
      if Nat.ltb 1 run then
        join ":" (map hex16 (take start segments)) ++ ("::" : str)
        ++ join ":" (map hex16 (drop (start + run) segments))
      else join ":" (map hex16 segments)
  end.

Definition ip_to_string (ip : IpAddr) : str :=
  match ip with V4 a => ipv4_to_string a | V6 a => ipv6_to_string a end.

Example ip_to_string_examples :
  ip_to_string (V4 (ipv4_new 192 0 2 17)) = ("192.0.2.17" : str)
  /\ ip_to_string (V6 (ipv6_new 0x2606 0x4700 0x4700 0 0 0 0 0x1111)) = ("2606:4700:4700::1111" : str)
  /\ ip_to_string (V6 1) = ("::1" : str)
  /\ ip_to_string (V6 (ipv6_new 0 0 0 0 0 0xffff 0x7f00 1)) = ("::ffff:127.0.0.1" : str).
Proof. vm_compute. done. Qed.

(** ** Masks as intervals *)

(** Keeping the bits above [k] of a [w]-bit value rounds it down to a multiple of
    [2 ^ k]. *)
Lemma land_high_mask w k x :
  k <= w -> x < 2 ^ w -> N.land x (2 ^ w - 2 ^ k) = 2 ^ k * (x / 2 ^ k).
Proof.
  intros Hk Hx.
  assert (2 ^ w - 2 ^ k = N.shiftl (N.ones (w - k)) k) as ->.
  { rewrite N.shiftl_mul_pow2, N.ones_equiv. replace (2 ^ w) with (2 ^ (w - k) * 2 ^ k).
    - by rewrite (N.mul_comm (N.pred _)), N.mul_pred_r, N.mul_comm.
    - rewrite <- N.pow_add_r. f_equal. lia. }
  rewrite N.mul_comm, <- N.shiftl_mul_pow2, <- N.shiftr_div_pow2.
  apply N.bits_inj. intros n. rewrite N.land_spec.
  destruct (N.lt_ge_cases n k) as [Hn|Hn].
  - rewrite !N.shiftl_spec_low by done. apply andb_false_r.
  - rewrite !N.shiftl_spec_high' by done. rewrite N.shiftr_spec'.
    replace (n - k + k) with n by lia.
    destruct (N.lt_ge_cases n w) as [Hw|Hw].
    + rewrite N.ones_spec_low by lia. apply andb_true_r.
    + rewrite N.ones_spec_high by lia.
      destruct (decide (x = 0)) as [->|Hx0]; [by rewrite !N.bits_0|].
      rewrite (N.bits_above_log2 x n); [done|].
      apply N.log2_lt_pow2; [lia|]. eapply N.lt_le_trans; [exact Hx|].
      apply N.pow_le_mono_r; lia.
Qed.

(** Two values agree under the mask exactly when they lie in the same block. *)
Lemma high_mask_block w k x net :
  k <= w -> x < 2 ^ w -> net < 2 ^ w -> net mod 2 ^ k = 0 ->
  N.land x (2 ^ w - 2 ^ k) = N.land net (2 ^ w - 2 ^ k) <-> net <= x < net + 2 ^ k.
Proof.
  intros Hk Hx Hn Hm. rewrite !land_high_mask by done.
  assert (2 ^ k <> 0) as Hp by (apply N.pow_nonzero; lia).
  pose proof (N.div_mod x _ Hp) as Dx. pose proof (N.div_mod net _ Hp) as Dn.
  pose proof (N.mod_lt x _ Hp) as Lx. rewrite Hm in Dn.
  remember (x / 2 ^ k) as q. remember (net / 2 ^ k) as r. remember (x mod 2 ^ k) as m.
  split.
  - intros E. lia.
  - intros. assert (q = r) as ->; [|done].
    destruct (N.lt_trichotomy q r) as [L|[?|L]]; [|done|];
      apply N.le_succ_l, (N.mul_le_mono_l _ _ (2 ^ k)) in L;
      rewrite N.mul_succ_r in L; lia.
Qed.

Lemma high_mask_block_b w k x net :
  k <= w -> x < 2 ^ w -> net < 2 ^ w -> net mod 2 ^ k = 0 ->
  (N.land x (2 ^ w - 2 ^ k) =? N.land net (2 ^ w - 2 ^ k)) = (net <=? x) && (x <? net + 2 ^ k).
Proof.
  intros. apply Bool.eq_iff_eq_true.
  rewrite N.eqb_eq, andb_true_iff, N.leb_le, N.ltb_lt. by apply high_mask_block.
Qed.

Lemma land_low w x : N.land x (2 ^ w - 1) = x mod 2 ^ w.
Proof. rewrite <- N.land_ones, N.ones_equiv. f_equal. lia. Qed.

Lemma ipv4_octet_value i a :
  i <= 3 -> ipv4_octet i a = a / 2 ^ (8 * (3 - i)) mod 256.
Proof.
  intros. unfold ipv4_octet. rewrite N.shiftr_div_pow2.
  change 255 with (2 ^ 8 - 1). by rewrite land_low.
Qed.

Lemma ipv6_segment0_value a : a < 2 ^ 128 -> ipv6_segment 0 a = a / 2 ^ 112.
Proof.
  intros. unfold ipv6_segment. rewrite N.shiftr_div_pow2.
  change 65535 with (2 ^ 16 - 1). rewrite land_low. apply N.mod_small.
  change (16 * (7 - 0)) with 112. apply N.Div0.div_lt_upper_bound.
  change (2 ^ 112 * 2 ^ 16) with (2 ^ 128). done.
Qed.

(** ** The text of an address is one word *)

Lemma hex_digit_graphic n : is_graphic (hex_digit (N.land n 15)) = true.
Proof.
  assert (N.land n 15 < 16) as H.
  { change 15 with (2 ^ 4 - 1). rewrite land_low. apply N.mod_lt. done. }
  pose proof (hex_digit_lower _ H) as Hd. revert Hd. generalize (hex_digit (N.land n 15)).
  intros c. byte_cases c.
Qed.

Lemma drop_while_forallb p q s : forallb q s = true -> forallb q (drop_while p s) = true.
Proof.
  induction s as [|c s IH]; simpl; [done|]. intros H. bools. destruct (p c); [auto|]. simpl.
  by rewrite H, H0.
Qed.

Lemma hex16_graphic n : forallb is_graphic (hex16 n) = true.
Proof.
  unfold hex16. rewrite forallb_app. apply andb_true_iff. split.
  - apply drop_while_forallb. simpl. by rewrite !hex_digit_graphic.
  - simpl. by rewrite hex_digit_graphic.
Qed.

Lemma forallb_hex16 l : forallb (forallb is_graphic) (map hex16 l) = true.
Proof. rewrite forallb_map. apply forallb_elem. intros x _. apply hex16_graphic. Qed.

Lemma ipv4_to_string_graphic a : forallb is_graphic (ipv4_to_string a) = true.
Proof.
  apply forallb_join; [done|]. rewrite forallb_map. apply forallb_elem. intros x _.
  apply decimal_graphic.
Qed.

Lemma ip_to_string_graphic ip : forallb is_graphic (ip_to_string ip) = true.
Proof.
  destruct ip as [a|a]; cbn [ip_to_string]; [apply ipv4_to_string_graphic|].
  unfold ipv6_to_string. destruct (ipv6_to_ipv4_mapped a).
  - rewrite forallb_app. apply andb_true_iff. split; [done|apply ipv4_to_string_graphic].
  - destruct (longest_zero_run _ _ _ _) as [start run]. destruct (Nat.ltb 1 run).
    + rewrite !forallb_app. rewrite !andb_true_iff. split_and!; [|done|];
        apply forallb_join; auto using forallb_hex16.
    + apply forallb_join; auto using forallb_hex16.
Qed.
