(* ===== verification/IpText.v ===== *)
(** * IpText: parsing IP addresses ([std::net], [FromStr for IpAddr])

    The recursive-descent parser of the standard library: dotted quads without
    leading zeros, and IPv6 groups with one [::] and an optional trailing dotted
    quad. A reader returns the value and the rest of the input. *)

From S2P Require Import Prelude ByteStr IpAddr.
Local Open Scope N_scope.

(** [char::to_digit]. *)
Definition to_digit (radix : N) (c : byte) : option N :=
  let n := N_of_ascii c in
  let value :=
    if is_ascii_digit c then n - 48
    else if in_range 97 122 c then n - 87
    else if in_range 65 90 c then n - 55
    else 255 in
  if value <? radix then Some value else None.

(** The loop of [read_number]: the value, the number of digits and the rest. *)
Fixpoint read_digits (radix : N) (max_digits count : nat) (result : N) (s : str)
    : option (N * nat * str) :=
  match s with
  | [] => Some (result, count, [])
  | c :: rest =>
      match to_digit radix c with
      | Some digit =>
          if (max_digits <=? count)%nat then None
          else read_digits radix max_digits (Datatypes.S count) (result * radix + digit) rest
      | None => Some (result, count, s)
      end
  end.

Definition read_number (radix : N) (max_digits : nat) (allow_zero_prefix : bool) (maximum : N) (s : str)
    : option (N * str) :=
  match read_digits radix max_digits 0 0 s with
  | None => None
  | Some (result, count, rest) =>
      if (count =? 0)%nat then None
      else if negb allow_zero_prefix && starts_with s "0" && (1 <? count)%nat then None
      else if result <=? maximum then Some (result, rest) else None
  end.

Definition read_given_char (expected : N) (s : str) : option str :=
  match s with
  | c :: rest => if is_byte expected c then Some rest else None
  | [] => None
  end.

Definition read_separator {A} (separator : N) (index : nat) (inner : str -> option (A * str)) (s : str)
    : option (A * str) :=
  match index with
  | O => inner s
  | _ => match read_given_char separator s with Some rest => inner rest | None => None end
  end.

Fixpoint read_octets (index todo : nat) (s : str) : option (list N * str) :=
  match todo with
  | O => Some ([], s)
  | Datatypes.S todo =>
      match read_separator 46 index (read_number 10 3 false 255) s with
      | None => None
      | Some (octet, rest) =>
          match read_octets (Datatypes.S index) todo rest with
          | None => None
          | Some (octets, rest) => Some (octet :: octets, rest)
          end
      end
  end.

Definition of_groups (base : N) (groups : list N) : N := fold_left (fun acc g => acc * base + g) groups 0.

Definition read_ipv4_addr (s : str) : option (N * str) :=
  match read_octets 0 4 s with
  | Some (octets, rest) => Some (of_groups 256 octets, rest)
  | None => None
  end.

(** [read_groups] with [todo = limit - i] groups left: the groups read, whether
    they end in a dotted quad, and the rest. *)
Fixpoint read_groups (i todo : nat) (s : str) : list N * bool * str :=
  match todo with
  | O => ([], false, s)
  | Datatypes.S todo' =>
      let group tt' :=
        match read_separator 58 i (read_number 16 4 true 65535) s with
        | None => ([], false, s)
        | Some (g, rest) =>
            let '(groups, v4, rest) := read_groups (Datatypes.S i) todo' rest in (g :: groups, v4, rest)
        end in
      if (1 <? todo)%nat then
        match read_separator 58 i read_ipv4_addr s with
        | Some (v4, rest) => ([v4 / 65536; v4 mod 65536], true, rest)
        | None => group tt
        end
      else group tt
  end.

Definition read_ipv6_addr (s : str) : option (N * str) :=
  let '(head, head_ipv4, rest) := read_groups 0 8 s in
  if (length head =? 8)%nat then Some (of_groups 65536 head, rest)
  else if head_ipv4 then None
  else
    match read_given_char 58 rest with
    | None => None
    | Some rest =>
        match read_given_char 58 rest with
        | None => None
        | Some rest =>
            let '(tail, _, rest) := read_groups 0 (8 - (length head + 1)) rest in
            let zeros := replicate (8 - length head - length tail) 0 in
            Some (of_groups 65536 (head ++ zeros ++ tail), rest)
        end
    end.

(** [text.parse::<IpAddr>()]: the whole input must be read. *)
Definition parse_ip_addr (text : str) : option IpAddr :=
  let complete (r : option (IpAddr * str)) :=
    match r with Some (ip, []) => Some ip | _ => None end in
  match read_ipv4_addr text with
  | Some (a, rest) => complete (Some (V4 a, rest))
  | None => complete (match read_ipv6_addr text with Some (a, rest) => Some (V6 a, rest) | None => None end)
  end.

Example parse_v4 : parse_ip_addr "192.0.2.7" = Some (V4 (ipv4_new 192 0 2 7)).
Proof. reflexivity. Qed.
Example parse_leading_zero : parse_ip_addr "192.0.02.7" = None.
Proof. reflexivity. Qed.
Example parse_loopback6 : parse_ip_addr "::1" = Some (V6 1).
Proof. reflexivity. Qed.
Example parse_mapped : parse_ip_addr "::ffff:192.0.2.7" = Some (V6 (65535 * 2 ^ 32 + ipv4_new 192 0 2 7)).
Proof. reflexivity. Qed.
Example parse_host : parse_ip_addr "app.example.com" = None.
Proof. reflexivity. Qed.
