(* ===== verification/Float64.v ===== *)
(** * [f64] and [std::time::Duration]

    [f64] is IEEE 754 binary64 in the executable formalisation of the standard
    library ([spec_float] at precision 53 and exponent bound 1024), with the
    comparison and rounding rules Rust uses. A [Duration] is its number of
    nanoseconds. *)

From Stdlib Require Export SpecFloat.
From S2P Require Import Prelude.
Local Open Scope Z_scope.

Abbreviation f64 := spec_float.

Definition f64_add : f64 -> f64 -> f64 := SFadd 53 1024.
Definition f64_sub : f64 -> f64 -> f64 := SFsub 53 1024.
Definition f64_mul : f64 -> f64 -> f64 := SFmul 53 1024.
Definition f64_div : f64 -> f64 -> f64 := SFdiv 53 1024.

(** [n as f64] of an unsigned integer: rounded to nearest, ties to even. *)
Definition f64_of_N (n : N) : f64 := binary_normalize 53 1024 (Z.of_N n) 0 false.

Definition f64_zero : f64 := S754_zero false.
Definition f64_one : f64 := Eval vm_compute in f64_of_N 1.

Definition is_nan (x : f64) : bool := match x with S754_nan => true | _ => false end.
Definition is_finite (x : f64) : bool :=
  match x with S754_zero _ | S754_finite _ _ _ => true | _ => false end.

(** The comparison operators: every comparison with a NaN is false. *)
Definition f64_lt : f64 -> f64 -> bool := SFltb.
Definition f64_le : f64 -> f64 -> bool := SFleb.
Definition f64_gt (x y : f64) : bool := SFltb y x.

(** [f64::min] and [f64::max] ignore a NaN operand. *)
Definition f64_min (x y : f64) : f64 :=
  if is_nan x then y else if is_nan y then x else if f64_lt y x then y else x.
Definition f64_max (x y : f64) : f64 :=
  if is_nan x then y else if is_nan y then x else if f64_lt x y then y else x.

(** ** [Duration] *)

Abbreviation Duration := N (only parsing).

(** [Duration::MAX]: [u64::MAX] seconds and 999,999,999 nanoseconds. *)
Definition duration_max : Duration := (u64_max * 1000000000 + 999999999)%N.

Definition as_millis (d : Duration) : N := (d / 1000000)%N.

Definition duration_milliseconds_saturated (d : Duration) : N := N.min (as_millis d) u64_max.

(** [as_secs_f64]: [(secs as f64) + (nanos as f64) / 1e9]. *)
Definition as_secs_f64 (d : Duration) : f64 :=
  f64_add (f64_of_N (d / 1000000000))
          (f64_div (f64_of_N (d mod 1000000000)) (f64_of_N 1000000000)).

(** Division rounded to the nearest integer, ties to even. *)
Definition div_round_even (num den : Z) : Z :=
  let q := num / den in
  let r := num mod den in
  if 2 * r <? den then q
  else if den <? 2 * r then q + 1
  else if Z.even q then q else q + 1.

(** [Duration::try_from_secs_f64]: [None] for a negative, non-finite or too large
    value. *)
Definition try_from_secs_f64 (x : f64) : option Duration :=
  match x with
  | S754_zero _ => Some 0%N
  | S754_finite false m e =>
      let scaled := Z.pos m * 10 ^ 9 in
      let nanos := if 0 <=? e then scaled * 2 ^ e else div_round_even scaled (2 ^ (- e)) in
      let seconds_too_large :=
        if 0 <=? e then 2 ^ 64 <=? Z.pos m * 2 ^ e else 2 ^ 64 * 2 ^ (- e) <=? Z.pos m in
      if seconds_too_large then None else Some (Z.to_N nanos)
  | _ => None
  end.

(** [Duration::from_secs_f64] panics where the fallible conversion fails. *)
Definition from_secs_f64 (x : f64) : Run Duration :=
  match try_from_secs_f64 x with
  | Some d => Done d
  | None => Panic "can not convert float seconds to Duration"
  end.

Example half_second : as_secs_f64 500000000 = SFdiv 53 1024 f64_one (f64_of_N 2).
Proof. vm_compute. done. Qed.

Example from_secs_examples :
  from_secs_f64 (SFdiv 53 1024 f64_one (f64_of_N 2)) = Done 500000000%N
  /\ from_secs_f64 (f64_of_N (2 ^ 64)) = Panic "can not convert float seconds to Duration".
Proof. vm_compute. done. Qed.

(** ** Comparison lemmas *)

Lemma SFcompare_refl x : is_nan x = false -> SFcompare x x = Some Eq.
Proof.
  destruct x as [|[]| |[] m e]; simpl; try done; intros _; rewrite Z.compare_refl;
    by rewrite Pos.compare_cont_refl.
Qed.

Lemma SFcompare_flip x y :
  SFcompare y x = match SFcompare x y with Some c => Some (CompOpp c) | None => None end.
Proof.
  destruct x as [|[]| |[] m e], y as [|[]| |[] m' e']; simpl; try done;
    try (rewrite (Z.compare_antisym e e'); destruct (e ?= e'); simpl; try done);
    change (PosDef.Pos.compare_cont Eq) with (Pos.compare_cont Eq);
    rewrite (Pos.compare_cont_antisym m m'); by destruct (Pos.compare_cont Eq m m').
Qed.

Lemma f64_le_refl x : is_nan x = false -> f64_le x x = true.
Proof. intros H. unfold f64_le, SFleb. by rewrite SFcompare_refl. Qed.

Lemma SFcompare_not_nan x y :
  is_nan x = false -> is_nan y = false -> exists c, SFcompare x y = Some c.
Proof. destruct x as [|[]| |[]], y as [|[]| |[]]; simpl; eauto; done. Qed.

(** Without NaN, "not greater" is "at most". *)
Lemma f64_not_gt_le x y :
  is_nan x = false -> is_nan y = false -> f64_gt x y = false -> f64_le x y = true.
Proof.
  intros Hx Hy. unfold f64_gt, f64_le, SFltb, SFleb. rewrite (SFcompare_flip x y).
  destruct (SFcompare_not_nan x y Hx Hy) as [[] ->]; done.
Qed.

Lemma f64_lt_le x y : f64_lt x y = true -> f64_le x y = true.
Proof. unfold f64_lt, f64_le, SFltb, SFleb. by destruct (SFcompare x y) as [[]|]. Qed.

Lemma is_finite_not_nan x : is_finite x = true -> is_nan x = false.
Proof. by destruct x. Qed.

(** The minimum never exceeds its second operand. *)
Lemma f64_min_le_r x y :
  is_nan y = false -> f64_le (f64_min x y) y = true /\ is_nan (f64_min x y) = false.
Proof.
  intros Hy. unfold f64_min. rewrite Hy. destruct (is_nan x) eqn:Hx.
  - split; [by apply f64_le_refl | done].
  - destruct (f64_lt y x) eqn:Hlt.
    + split; [by apply f64_le_refl | done].
    + split; [|done]. apply f64_not_gt_le; done.
Qed.

Lemma f64_le_trans x y z : f64_le x y = true -> f64_le y z = true -> f64_le x z = true.
Proof.
  unfold f64_le, SFleb.
  destruct x as [|[]| |[] m1 e1], y as [|[]| |[] m2 e2], z as [|[]| |[] m3 e3]; simpl; try done;
    change (PosDef.Pos.compare_cont Eq) with (Pos.compare_cont Eq);
    change (Pos.compare_cont Eq) with Pos.compare;
    destruct (Z.compare_spec e1 e2), (Z.compare_spec e2 e3), (Z.compare_spec e1 e3);
    try done; try lia;
    destruct (Pos.compare_spec m1 m2), (Pos.compare_spec m2 m3), (Pos.compare_spec m1 m3);
    simpl; try done; lia.
Qed.

(** ** Rounding never produces a NaN *)

Lemma shr_1_nonneg mrs : 0 <= shr_m mrs -> 0 <= shr_m (shr_1 mrs).
Proof.
  destruct mrs as [m r s]. simpl. destruct m as [|p|p]; simpl; [lia| |lia].
  intros _. destruct p; simpl; lia.
Qed.

Lemma iter_shr_1_nonneg p mrs : 0 <= shr_m mrs -> 0 <= shr_m (SpecFloat.iter_pos shr_1 p mrs).
Proof.
  revert mrs. induction p as [p IH|p IH|]; intros mrs H; simpl; auto using shr_1_nonneg.
Qed.

Lemma shr_fexp_nonneg prec emax m e l : 0 <= m -> 0 <= shr_m (fst (shr_fexp prec emax m e l)).
Proof.
  intros H. unfold shr_fexp, shr.
  assert (0 <= shr_m (shr_record_of_loc m l)) as H'.
  { unfold shr_record_of_loc. destruct l as [|[]]; simpl; lia. }
  destruct (fexp prec emax (Zdigits2 m + e) - e); simpl; auto using iter_shr_1_nonneg.
Qed.

Lemma round_nearest_even_nonneg m l : 0 <= m -> 0 <= round_nearest_even m l.
Proof. intros H. destruct l as [|[]]; simpl; try lia. destruct (Z.even m); simpl; lia. Qed.

Lemma binary_round_aux_not_nan prec emax sx mx ex lx :
  0 <= mx -> is_nan (binary_round_aux prec emax sx mx ex lx) = false.
Proof.
  intros H. unfold binary_round_aux.
  pose proof (shr_fexp_nonneg prec emax mx ex lx H) as H1.
  destruct (shr_fexp prec emax mx ex lx) as [mrs' e']. simpl in H1.
  pose proof (shr_fexp_nonneg prec emax
    (round_nearest_even (shr_m mrs') (loc_of_shr_record mrs')) e' loc_Exact
    (round_nearest_even_nonneg _ _ H1)) as H2.
  destruct (shr_fexp _ _ _ e' loc_Exact) as [mrs'' e'']. simpl in H2.
  destruct (shr_m mrs'') eqn:E; [done | |lia].
  by destruct (e'' <=? emax - prec).
Qed.

Lemma binary_normalize_not_nan prec emax m e s :
  is_nan (binary_normalize prec emax m e s) = false.
Proof.
  destruct m as [|m|m]; simpl; [done| |]; unfold binary_round;
    destruct (shl_align m e _) as [mz ez]; by apply binary_round_aux_not_nan.
Qed.

(** Subtracting a finite number from a number gives no NaN. *)
Lemma f64_sub_not_nan x y :
  is_nan x = false -> is_finite y = true -> is_nan (f64_sub x y) = false.
Proof.
  destruct x as [[]|[]| |], y as [[]| | |]; try done; intros _ _.
  apply binary_normalize_not_nan.
Qed.

Lemma f64_max_ge_r x y :
  is_nan y = false -> f64_le y (f64_max x y) = true.
Proof.
  intros Hy. unfold f64_max. rewrite Hy. destruct (is_nan x) eqn:Hx; [by apply f64_le_refl|].
  destruct (f64_lt x y) eqn:E; [by apply f64_le_refl|]. by apply f64_not_gt_le.
Qed.

Lemma f64_max_finite x y :
  is_finite x = true -> is_finite y = true -> is_finite (f64_max x y) = true.
Proof. intros Hx Hy. unfold f64_max. by repeat case_match. Qed.
