(* ===== verification/Url.v ===== *)
(** * Interface of the [url] crate

    [url::Url] is a third-party type. The sources use the accessors below; what
    they rely on is stated as laws. [PlainUrl] is a concrete implementation used
    to evaluate the model. *)

From S2P Require Import Prelude ByteStr.

Class UrlLib : Type := {
  Url : Type;
  url_username : Url -> str;
  url_password : Url -> option str;
  url_host_str : Url -> option str;
  url_scheme : Url -> str;
  url_port_or_known_default : Url -> option N;
  (** [set_query(None)] and [set_fragment(None)] *)
  url_clear_query : Url -> Url;
  url_clear_fragment : Url -> Url;
  url_to_string : Url -> str
}.

(** Documented behaviour the sources rely on: [http] and [https] have a known
    default port, so one of the two is always available for them. *)
Class UrlLaws (U : UrlLib) : Prop := {
  url_known_port : forall u : Url,
    url_scheme u = ("http" : str) \/ url_scheme u = ("https" : str) ->
    exists p, url_port_or_known_default u = Some p
}.

(** ** A concrete implementation *)

Record PlainUrl : Type := {
  plain_scheme : str;
  plain_username : str;
  plain_password : option str;
  plain_host : option str;
  plain_port : option N;
  plain_path : str;
  plain_query : option str;
  plain_fragment : option str
}.

Definition plain_default_port (scheme : str) : option N :=
  if bool_decide (scheme = ("http" : str)) then Some 80%N
  else if bool_decide (scheme = ("https" : str)) then Some 443%N
  else None.

Definition plain_to_string (u : PlainUrl) : str :=
  plain_scheme u ++ ("://" : str) ++ default [] (plain_host u) ++ plain_path u
  ++ match plain_query u with Some q => ("?" : str) ++ q | None => [] end
  ++ match plain_fragment u with Some f => ("#" : str) ++ f | None => [] end.

Definition plain_url : UrlLib := {|
  Url := PlainUrl;
  url_username := plain_username;
  url_password := plain_password;
  url_host_str := plain_host;
  url_scheme := plain_scheme;
  url_port_or_known_default u :=
    match plain_port u with Some p => Some p | None => plain_default_port (plain_scheme u) end;
  url_clear_query u :=
    {| plain_scheme := plain_scheme u; plain_username := plain_username u;
       plain_password := plain_password u; plain_host := plain_host u;
       plain_port := plain_port u; plain_path := plain_path u;
       plain_query := None; plain_fragment := plain_fragment u |};
  url_clear_fragment u :=
    {| plain_scheme := plain_scheme u; plain_username := plain_username u;
       plain_password := plain_password u; plain_host := plain_host u;
       plain_port := plain_port u; plain_path := plain_path u;
       plain_query := plain_query u; plain_fragment := None |};
  url_to_string := plain_to_string
|}.

Lemma plain_url_laws : UrlLaws plain_url.
Proof.
  constructor. intros u Hs. simpl in *. destruct (plain_port u); [eauto|].
  unfold plain_default_port. destruct Hs as [->| ->]; vm_compute; eauto.
Qed.

Definition plain_https (host path : str) : PlainUrl :=
  {| plain_scheme := "https"; plain_username := []; plain_password := None;
     plain_host := Some host; plain_port := None; plain_path := path;
     plain_query := None; plain_fragment := None |}.
