(* ===== verification/Destination.v ===== *)
(** * Destination classification ([crates/nxb-destination])

    [assess_destination] classifies an address as [Public] or as one of the
    special-purpose classes; only [Public] is allowed. The specification below
    is the list of special-purpose blocks as numeric intervals. *)

From S2P Require Import Prelude ByteStr IpAddr.
Local Open Scope N_scope.

(** ** Model *)

Inductive DestinationClass : Type :=
  | Public | Unspecified | Loopback | Private | SharedAddressSpace | LinkLocal
  | Documentation | Benchmarking | ProtocolAssignment | Multicast | Reserved | Broadcast
  | UniqueLocal | SiteLocal | Orchid | DiscardOnly | Ipv4MappedNonPublic.

#[export] Instance DestinationClass_eq_dec : EqDecision DestinationClass.
Proof. solve_decision. Defined.

Definition class_is_allowed (class : DestinationClass) : bool :=
  match class with Public => true | _ => false end.

Definition class_code (class : DestinationClass) : str :=
  match class with
  | Public => "public"
  | Unspecified => "unspecified"
  | Loopback => "loopback"
  | Private => "private"
  | SharedAddressSpace => "shared_address_space"
  | LinkLocal => "link_local"
  | Documentation => "documentation"
  | Benchmarking => "benchmarking"
  | ProtocolAssignment => "protocol_assignment"
  | Multicast => "multicast"
  | Reserved => "reserved"
  | Broadcast => "broadcast"
  | UniqueLocal => "unique_local"
  | SiteLocal => "site_local"
  | Orchid => "orchid"
  | DiscardOnly => "discard_only"
  | Ipv4MappedNonPublic => "ipv4_mapped_non_public"
  end.

Record DestinationAssessment : Type := {
  assessed_ip : IpAddr;
  assessed_class : DestinationClass
}.

Definition assessment_is_allowed (assessment : DestinationAssessment) : bool :=
  class_is_allowed (assessed_class assessment).

(** [u32::MAX << (32 - prefix_length)]: the shifted-out bits are dropped. *)
Definition in_ipv4_prefix (ip network prefix_length : N) : bool :=
  let mask := if prefix_length =? 0 then 0
              else N.land (N.shiftl u32_max (32 - prefix_length)) u32_max in
  N.land ip mask =? N.land network mask.

Definition in_ipv6_prefix (ip network prefix_length : N) : bool :=
  let mask := if prefix_length =? 0 then 0
              else N.land (N.shiftl u128_max (128 - prefix_length)) u128_max in
  N.land ip mask =? N.land network mask.

Definition classify_ipv4 (ip : N) : DestinationClass :=
  if in_ipv4_prefix ip (ipv4_new 0 0 0 0) 8 then Unspecified
  else if ipv4_is_loopback ip then Loopback
  else if ipv4_is_private ip then Private
  else if in_ipv4_prefix ip (ipv4_new 100 64 0 0) 10 then SharedAddressSpace
  else if ipv4_is_link_local ip then LinkLocal
  else if in_ipv4_prefix ip (ipv4_new 192 0 0 0) 24
          || in_ipv4_prefix ip (ipv4_new 192 88 99 0) 24 then ProtocolAssignment
  else if in_ipv4_prefix ip (ipv4_new 192 0 2 0) 24
          || in_ipv4_prefix ip (ipv4_new 198 51 100 0) 24
          || in_ipv4_prefix ip (ipv4_new 203 0 113 0) 24 then Documentation
  else if in_ipv4_prefix ip (ipv4_new 198 18 0 0) 15 then Benchmarking
  else if ipv4_is_multicast ip then Multicast
  else if ip =? ipv4_broadcast then Broadcast
  else if in_ipv4_prefix ip (ipv4_new 240 0 0 0) 4 then Reserved
  else Public.

Definition classify_ipv6 (ip : N) : DestinationClass :=
  if ipv6_is_unspecified ip then Unspecified
  else if ipv6_is_loopback ip then Loopback
  else match ipv6_to_ipv4_mapped ip with
  | Some mapped =>
      if class_is_allowed (classify_ipv4 mapped) then Public else Ipv4MappedNonPublic
  | None =>
      let first := ipv6_segment 0 ip in
      if N.land first 0xfe00 =? 0xfc00 then UniqueLocal
      else if N.land first 0xffc0 =? 0xfe80 then LinkLocal
      else if N.land first 0xffc0 =? 0xfec0 then SiteLocal
      else if N.land first 0xff00 =? 0xff00 then Multicast
      else if in_ipv6_prefix ip (ipv6_new 0x0100 0 0 0 0 0 0 0) 64 then DiscardOnly
      else if in_ipv6_prefix ip (ipv6_new 0x2001 0x0db8 0 0 0 0 0 0) 32 then Documentation
      else if in_ipv6_prefix ip (ipv6_new 0x2001 0x0002 0 0 0 0 0 0) 48 then Benchmarking
      else if in_ipv6_prefix ip (ipv6_new 0x2001 0x0010 0 0 0 0 0 0) 28
              || in_ipv6_prefix ip (ipv6_new 0x2001 0x0020 0 0 0 0 0 0) 28 then Orchid
      else if in_ipv6_prefix ip (ipv6_new 0x0064 0xff9b 0 0 0 0 0 0) 96
              || in_ipv6_prefix ip (ipv6_new 0x0064 0xff9b 1 0 0 0 0 0) 48
              || in_ipv6_prefix ip (ipv6_new 0x2001 0 0 0 0 0 0 0) 23
              || in_ipv6_prefix ip (ipv6_new 0x2002 0 0 0 0 0 0 0) 16 then ProtocolAssignment
      else if in_ipv6_prefix ip (ipv6_new 0x3ffe 0 0 0 0 0 0 0) 16 then Reserved
      else Public
  end.

Definition assess_destination (ip : IpAddr) : DestinationAssessment :=
  {| assessed_ip := ip;
     assessed_class := match ip with V4 a => classify_ipv4 a | V6 a => classify_ipv6 a end |}.

Definition is_public_destination (ip : IpAddr) : bool :=
  assessment_is_allowed (assess_destination ip).

(** ** Specification: special-purpose address blocks *)

(** A block of [2 ^ bits] addresses from [network] up. *)
Definition in_block (ip : N) (block : N * N) : bool :=
  (fst block <=? ip) && (ip <? fst block + 2 ^ snd block).

(** The special-purpose IPv4 blocks, as (network, host bits). *)
Definition special_ipv4_blocks : list (N * N) :=
  [ (ipv4_new 0 0 0 0, 24);      (* 0.0.0.0/8 "this network" *)
    (ipv4_new 10 0 0 0, 24);     (* 10.0.0.0/8 private use *)
    (ipv4_new 100 64 0 0, 22);   (* 100.64.0.0/10 shared address space *)
    (ipv4_new 127 0 0 0, 24);    (* 127.0.0.0/8 loopback *)
    (ipv4_new 169 254 0 0, 16);  (* 169.254.0.0/16 link local *)
    (ipv4_new 172 16 0 0, 20);   (* 172.16.0.0/12 private use *)
    (ipv4_new 192 0 0 0, 8);     (* 192.0.0.0/24 protocol assignments *)
    (ipv4_new 192 0 2 0, 8);     (* 192.0.2.0/24 documentation *)
    (ipv4_new 192 88 99 0, 8);   (* 192.88.99.0/24 6to4 relay anycast *)
    (ipv4_new 192 168 0 0, 16);  (* 192.168.0.0/16 private use *)
    (ipv4_new 198 18 0 0, 17);   (* 198.18.0.0/15 benchmarking *)
    (ipv4_new 198 51 100 0, 8);  (* 198.51.100.0/24 documentation *)
    (ipv4_new 203 0 113 0, 8);   (* 203.0.113.0/24 documentation *)
    (ipv4_new 224 0 0 0, 28);    (* 224.0.0.0/4 multicast *)
    (ipv4_new 240 0 0 0, 28) ].  (* 240.0.0.0/4 reserved and broadcast *)

(** The special-purpose IPv6 blocks outside the IPv4-mapped range. *)
Definition special_ipv6_blocks : list (N * N) :=
  [ (0, 0);                                        (* :: *)
    (1, 0);                                        (* ::1 *)
    (ipv6_new 0xfc00 0 0 0 0 0 0 0, 121);          (* fc00::/7 unique local *)
    (ipv6_new 0xfe80 0 0 0 0 0 0 0, 118);          (* fe80::/10 link local *)
    (ipv6_new 0xfec0 0 0 0 0 0 0 0, 118);          (* fec0::/10 site local *)
    (ipv6_new 0xff00 0 0 0 0 0 0 0, 120);          (* ff00::/8 multicast *)
    (ipv6_new 0x0100 0 0 0 0 0 0 0, 64);           (* 100::/64 discard only *)
    (ipv6_new 0x2001 0x0db8 0 0 0 0 0 0, 96);      (* 2001:db8::/32 documentation *)
    (ipv6_new 0x2001 0x0002 0 0 0 0 0 0, 80);      (* 2001:2::/48 benchmarking *)
    (ipv6_new 0x2001 0x0010 0 0 0 0 0 0, 100);     (* 2001:10::/28 ORCHID *)
    (ipv6_new 0x2001 0x0020 0 0 0 0 0 0, 100);     (* 2001:20::/28 ORCHIDv2 *)
    (ipv6_new 0x0064 0xff9b 0 0 0 0 0 0, 32);      (* 64:ff9b::/96 NAT64 *)
    (ipv6_new 0x0064 0xff9b 1 0 0 0 0 0, 80);      (* 64:ff9b:1::/48 local NAT64 *)
    (ipv6_new 0x2001 0 0 0 0 0 0 0, 105);          (* 2001::/23 protocol assignments *)
    (ipv6_new 0x2002 0 0 0 0 0 0 0, 112);          (* 2002::/16 6to4 *)
    (ipv6_new 0x3ffe 0 0 0 0 0 0 0, 112) ].        (* 3ffe::/16 6bone *)

Definition is_special_ipv4 (ip : N) : bool := existsb (in_block ip) special_ipv4_blocks.
Definition is_special_ipv6 (ip : N) : bool := existsb (in_block ip) special_ipv6_blocks.

(** What a destination must be to be reachable. *)
Definition public_spec (ip : IpAddr) : bool :=
  match ip with
  | V4 a => negb (is_special_ipv4 a)
  | V6 a =>
      match ipv6_to_ipv4_mapped a with
      | Some mapped => negb (is_special_ipv4 mapped)
      | None => negb (is_special_ipv6 a)
      end
  end.

(** ** Proofs *)

#[local] Ltac Zify.zify_post_hook ::= Z.to_euclidean_division_equations.

Lemma in_ipv4_prefix_block ip net p :
  0 < p <= 32 -> ip < 2 ^ 32 -> net < 2 ^ 32 -> net mod 2 ^ (32 - p) = 0 ->
  in_ipv4_prefix ip net p = in_block ip (net, 32 - p).
Proof.
  intros Hp Hip Hnet Hm. unfold in_ipv4_prefix.
  rewrite (proj2 (N.eqb_neq p 0)) by lia.
  assert (N.land (N.shiftl u32_max (32 - p)) u32_max = 2 ^ 32 - 2 ^ (32 - p)) as ->.
  { change u32_max with (2 ^ 32 - 1) at 2. rewrite land_low.
    change u32_max with (2 ^ 32 - 1). rewrite N.shiftl_mul_pow2.
    assert (2 ^ p * 2 ^ (32 - p) = 2 ^ 32) as E
      by (rewrite <- N.pow_add_r; f_equal; lia).
    assert (0 < 2 ^ (32 - p)) by (apply N.neq_0_lt_0, N.pow_nonzero; lia).
    assert (2 ^ (32 - p) < 2 ^ 32) by (apply N.pow_lt_mono_r; lia).
    remember (2 ^ (32 - p)) as k. symmetry. apply (N.mod_unique _ _ (k - 1)); lia. }
  rewrite high_mask_block_b by (lia || done). done.
Qed.

Lemma in_ipv6_prefix_block ip net p :
  0 < p <= 128 -> ip < 2 ^ 128 -> net < 2 ^ 128 -> net mod 2 ^ (128 - p) = 0 ->
  in_ipv6_prefix ip net p = in_block ip (net, 128 - p).
Proof.
  intros Hp Hip Hnet Hm. unfold in_ipv6_prefix.
  rewrite (proj2 (N.eqb_neq p 0)) by lia.
  assert (N.land (N.shiftl u128_max (128 - p)) u128_max = 2 ^ 128 - 2 ^ (128 - p)) as ->.
  { change u128_max with (2 ^ 128 - 1) at 2. rewrite land_low.
    change u128_max with (2 ^ 128 - 1). rewrite N.shiftl_mul_pow2.
    assert (0 < 2 ^ (128 - p)) by (apply N.neq_0_lt_0, N.pow_nonzero; lia).
    assert (2 ^ (128 - p) < 2 ^ 128) by (apply N.pow_lt_mono_r; lia).
    remember (2 ^ (128 - p)) as k. symmetry. apply (N.mod_unique _ _ (k - 1)); lia. }
  rewrite high_mask_block_b by (lia || done). done.
Qed.

Ltac block_arith :=
  unfold in_block; cbn [fst snd]; apply Bool.eq_iff_eq_true;
  rewrite ?orb_true_iff, ?andb_true_iff, ?N.eqb_eq, ?N.leb_le, ?N.ltb_lt;
  repeat match goal with
  | |- context [ipv4_new ?a ?b ?c ?d] =>
      let v := eval vm_compute in (ipv4_new a b c d) in change (ipv4_new a b c d) with v
  | |- context [2 ^ ?n] => let v := eval vm_compute in (2 ^ n) in change (2 ^ n) with v
  end.

Lemma ipv4_is_loopback_block a :
  a < 2 ^ 32 -> ipv4_is_loopback a = in_block a (ipv4_new 127 0 0 0, 24).
Proof.
  intros. unfold ipv4_is_loopback. rewrite !ipv4_octet_value by lia. block_arith. lia.
Qed.

Lemma ipv4_is_private_blocks a :
  a < 2 ^ 32 ->
  ipv4_is_private a = in_block a (ipv4_new 10 0 0 0, 24)
                      || in_block a (ipv4_new 172 16 0 0, 20)
                      || in_block a (ipv4_new 192 168 0 0, 16).
Proof.
  intros. unfold ipv4_is_private. rewrite !ipv4_octet_value by lia. block_arith. lia.
Qed.

Lemma ipv4_is_link_local_block a :
  a < 2 ^ 32 -> ipv4_is_link_local a = in_block a (ipv4_new 169 254 0 0, 16).
Proof.
  intros. unfold ipv4_is_link_local. rewrite !ipv4_octet_value by lia. block_arith. lia.
Qed.

Lemma ipv4_is_multicast_block a :
  a < 2 ^ 32 -> ipv4_is_multicast a = in_block a (ipv4_new 224 0 0 0, 28).
Proof.
  intros. unfold ipv4_is_multicast. rewrite !ipv4_octet_value by lia. block_arith. lia.
Qed.

Lemma in_block_single a n : in_block a (n, 0) = (a =? n).
Proof. block_arith. lia. Qed.

(** Case analysis on membership in every block of the goal. *)
Ltac case_blocks a :=
  repeat match goal with
  | |- context [in_block a ?b] =>
      let v := eval vm_compute in b in progress change (in_block a b) with (in_block a v)
  end;
  repeat match goal with
  | |- context [in_block a ?b] => destruct (in_block a b) eqn:?; cbn [orb negb]; try done
  end.

(** The classifier allows exactly the addresses outside the special blocks. *)
Lemma classify_ipv4_spec a :
  a < 2 ^ 32 -> class_is_allowed (classify_ipv4 a) = negb (is_special_ipv4 a).
Proof.
  intros Ha. unfold classify_ipv4, is_special_ipv4, special_ipv4_blocks. cbn [existsb].
  rewrite ipv4_is_loopback_block, ipv4_is_private_blocks, ipv4_is_link_local_block,
    ipv4_is_multicast_block by done.
  rewrite !in_ipv4_prefix_block by (done || lia).
  assert ((a =? ipv4_broadcast) = true -> in_block a (4026531840, 28) = true) as Hb.
  { intros ->%N.eqb_eq. done. }
  case_blocks a.
  all: destruct (a =? ipv4_broadcast); try done; try discriminate (Hb eq_refl).
Qed.

(** The four [segments()[0]] masks of the source, as blocks. *)
Lemma segment0_mask_block a k net :
  a < 2 ^ 128 -> k <= 16 -> net < 2 ^ 16 -> net mod 2 ^ k = 0 ->
  (N.land (ipv6_segment 0 a) (2 ^ 16 - 2 ^ k) =? net) = in_block a (net * 2 ^ 112, k + 112).
Proof.
  intros Ha Hk Hn Hm. rewrite ipv6_segment0_value by done.
  assert (a / 2 ^ 112 < 2 ^ 16) as Hs
    by (apply N.Div0.div_lt_upper_bound; by change (2 ^ 112 * 2 ^ 16) with (2 ^ 128)).
  assert (net = N.land net (2 ^ 16 - 2 ^ k)) as Hnet.
  { rewrite land_high_mask by done. pose proof (N.div_mod' net (2 ^ k)). lia. }
  rewrite Hnet at 1. rewrite high_mask_block_b by done.
  unfold in_block. cbn [fst snd]. rewrite N.pow_add_r.
  apply Bool.eq_iff_eq_true. rewrite !andb_true_iff, !N.leb_le, !N.ltb_lt.
  change (2 ^ 112) with 5192296858534827628530496329220096 in *.
  remember (2 ^ k) as p. lia.
Qed.

Lemma classify_ipv6_spec a :
  a < 2 ^ 128 ->
  class_is_allowed (classify_ipv6 a)
  = match ipv6_to_ipv4_mapped a with
    | Some mapped => negb (is_special_ipv4 mapped)
    | None => negb (is_special_ipv6 a)
    end.
Proof.
  intros Ha. unfold classify_ipv6, ipv6_is_unspecified, ipv6_is_loopback.
  destruct (ipv6_to_ipv4_mapped a) as [m|] eqn:Hm.
  - assert (m < 2 ^ 32) as Hm32.
    { unfold ipv6_to_ipv4_mapped in Hm. destruct (_ =? 65535); [|done]. simplify_eq.
      change u32_max with (2 ^ 32 - 1). rewrite land_low. by apply N.mod_lt. }
    destruct (N.eqb_spec a 0) as [->|]; [done|]. destruct (N.eqb_spec a 1) as [->|]; [done|].
    rewrite <- classify_ipv4_spec by done. by destruct (class_is_allowed (classify_ipv4 m)).
  - unfold is_special_ipv6, special_ipv6_blocks. cbn [existsb].
    change 0xfe00 with (2 ^ 16 - 2 ^ 9). change 0xffc0 with (2 ^ 16 - 2 ^ 6).
    change (N.land (ipv6_segment 0 a) 0xff00) with (N.land (ipv6_segment 0 a) (2 ^ 16 - 2 ^ 8)).
    rewrite !segment0_mask_block, !in_ipv6_prefix_block by (done || lia).
    rewrite <- (in_block_single a 0), <- (in_block_single a 1).
    case_blocks a.
Qed.

Lemma is_public_destination_spec ip :
  ip_in_width ip -> is_public_destination ip = public_spec ip.
Proof.
  destruct ip as [a|a]; cbn; intros Ha; [by apply classify_ipv4_spec | by apply classify_ipv6_spec].
Qed.

(** ** Properties *)

(** A destination is allowed exactly when it lies in none of the
    special-purpose blocks; an IPv4-mapped IPv6 address is judged by the IPv4
    address it embeds. *)
Theorem public_destination_spec ip :
  ip_in_width ip -> is_public_destination ip = public_spec ip.
Proof. apply is_public_destination_spec. Qed.

Lemma public_destination_spec_witness :
  is_public_destination (V4 (ipv4_new 8 8 8 8)) = true
  /\ is_public_destination (V6 (ipv6_new 0 0 0 0 0 0xffff 0x7f00 1)) = false.
Proof.
  split.
  - rewrite (public_destination_spec (V4 (ipv4_new 8 8 8 8))); [vm_compute; reflexivity|].
    vm_compute. reflexivity.
  - vm_compute. reflexivity.
Defined.
