(* ===== verification/Policy.v ===== *)
(** * Target policies ([crates/nxb-policy])

    [TargetPolicy::compile] validates an authorization and normalises its scope,
    [CompiledPolicy::narrow] derives a child policy, and [allows_host] and
    [allows_request] decide scope. [DateTime<Utc>] is an instant (an integer
    number of nanoseconds), a [BTreeSet<String>] a [gset] of byte strings. The
    TOML front end ([from_toml]) is third-party parsing and not modelled. *)

From S2P Require Import Prelude ByteStr Float64 IpAddr Destination Url.
Local Open Scope N_scope.

(** ** Data *)

Definition POLICY_SCHEMA_VERSION : N := 1.
Definition MAX_REQUESTS_PER_SECOND : f64 := Eval vm_compute in f64_of_N 5.
Definition MAX_CONCURRENCY : N := 8.
Definition MAX_TOTAL_REQUESTS : N := 100000.
Definition ALLOWED_METHODS : list str :=
  [("GET" : str); ("HEAD" : str); ("OPTIONS" : str); ("POST" : str); ("PUT" : str);
   ("PATCH" : str); ("DELETE" : str)].

Record ProgramPolicy : Type := {
  program_name : str;
  program_platform : str;
  program_policy_url : option str
}.

Record ScopePolicy : Type := {
  scope_include_hosts : gset str;
  scope_exclude_hosts : gset str;
  scope_allowed_schemes : gset str;
  scope_allowed_methods : gset str;
  scope_allow_subdomains : bool
}.

Record AutomationPolicy : Type := {
  active_testing : bool;
  credential_bruteforce : bool;
  destructive_testing : bool;
  oob_callbacks : bool;
  max_requests_per_second : f64;
  max_concurrency : N;
  max_total_requests : N
}.

Record AuthorizationPolicy : Type := {
  confirmed : bool;
  researcher : str;
  policy_snapshot_sha256 : str;
  expires_at : Z
}.

Record TargetPolicy : Type := {
  schema_version : N;
  program : ProgramPolicy;
  scope : ScopePolicy;
  automation : AutomationPolicy;
  authorization : AuthorizationPolicy
}.

Record ChildPolicy : Type := {
  child_include_hosts : option (gset str);
  child_exclude_hosts : gset str;
  child_allowed_schemes : option (gset str);
  child_allowed_methods : option (gset str);
  child_allow_subdomains : option bool;
  child_active_testing : option bool;
  child_oob_callbacks : option bool;
  child_max_requests_per_second : option f64;
  child_max_concurrency : option N;
  child_max_total_requests : option N;
  child_expires_at : option Z
}.

Record CompiledPolicy : Type := {
  inner : TargetPolicy;
  include_hosts : gset str;
  exclude_hosts : gset str;
  allowed_schemes : gset str;
  allowed_methods : gset str
}.

Inductive PolicyError : Type :=
  | Parse (message : str)
  | Invalid (message : str)
  | Broadening (message : str).

(** ** Normalisation *)

Definition normalize_dns_host (field_name host : str) : Result str PolicyError :=
  let normalized := to_ascii_lowercase (trim_end_matches (is_byte 46) (trim host)) in
  if bool_decide (normalized = [])
     || (253 <? len normalized)
     || contains_str normalized "://"
     || contains_byte 47 normalized
     || contains_byte 92 normalized
     || contains_byte 42 normalized
     || contains_byte 58 normalized
  then Err (Invalid (field_name ++ (" contains an invalid DNS host: " : str) ++ host))
  else if forallb is_valid_label (split_byte 46 normalized) then Ok normalized
  else Err (Invalid (field_name ++ (" contains an invalid DNS label in host: " : str) ++ host)).

Definition normalize_host_set (field_name : str) (hosts : gset str)
    : Result (gset str) PolicyError :=
  let? normalized := collect_results (normalize_dns_host field_name) (btree_iter hosts) in
  Ok (list_to_set normalized).

Definition normalize_scheme (scheme : str) : Result str PolicyError :=
  let normalized := to_ascii_lowercase (trim scheme) in
  if bool_decide (normalized <> ("http" : str)) && bool_decide (normalized <> ("https" : str))
  then Err (Invalid (("unsupported scheme: " : str) ++ scheme))
  else Ok normalized.

Definition normalize_schemes (schemes : gset str) : Result (gset str) PolicyError :=
  if bool_decide (schemes = ∅) then Err (Invalid "allowed_schemes must not be empty")
  else
    let? normalized := collect_results normalize_scheme (btree_iter schemes) in
    Ok (list_to_set normalized).

Definition normalize_method (method : str) : Result str PolicyError :=
  let normalized := to_ascii_uppercase (trim method) in
  if bool_decide (normalized ∈ ALLOWED_METHODS) then Ok normalized
  else Err (Invalid (("unsupported HTTP method: " : str) ++ method)).

Definition normalize_methods (methods : gset str) : Result (gset str) PolicyError :=
  if bool_decide (methods = ∅) then Err (Invalid "allowed_methods must not be empty")
  else
    let? normalized := collect_results normalize_method (btree_iter methods) in
    Ok (list_to_set normalized).

Definition require_finite_positive (field : str) (value : f64) : Result unit PolicyError :=
  if negb (is_finite value) || f64_le value f64_zero
  then Err (Invalid (field ++ (" must be finite and greater than zero" : str)))
  else Ok tt.

Definition require_subset (field_name : str) (child parent : gset str) : Result unit PolicyError :=
  match List.find (fun value => bool_decide (value ∉ parent)) (btree_iter child) with
  | Some value =>
      Err (Broadening (("child " : str) ++ field_name ++ (" " : str) ++ value
                       ++ (" is not permitted by the parent" : str)))
  | None => Ok tt
  end.

(** ** [validate_top_level] and [compile] *)

Definition validate_top_level (policy : TargetPolicy) (now : Z) : Result unit PolicyError :=
  if bool_decide (schema_version policy <> POLICY_SCHEMA_VERSION) then
    Err (Invalid (("unsupported schema_version " : str) ++ decimal (schema_version policy)
                  ++ ("; expected 1" : str)))
  else if bool_decide (trim (program_name (program policy)) = [])
          || bool_decide (trim (program_platform (program policy)) = []) then
    Err (Invalid "program name and platform must be non-empty")
  else if bool_decide (scope_include_hosts (scope policy) = ∅) then
    Err (Invalid "at least one include host is required")
  else if negb (confirmed (authorization policy)) then
    Err (Invalid "explicit authorization confirmation is required")
  else if bool_decide (trim (researcher (authorization policy)) = []) then
    Err (Invalid "authorization researcher must be non-empty")
  else if (expires_at (authorization policy) <=? now)%Z then
    Err (Invalid "authorization has expired or is not in the future")
  else if negb (is_lower_hex_sha256 (policy_snapshot_sha256 (authorization policy))) then
    Err (Invalid "policy_snapshot_sha256 must be exactly 64 lowercase hexadecimal characters")
  else if credential_bruteforce (automation policy) then
    Err (Invalid "credential brute force is hard-denied")
  else if destructive_testing (automation policy) then
    Err (Invalid "destructive testing is hard-denied")
  else
    let? _ := require_finite_positive "max_requests_per_second"
                (max_requests_per_second (automation policy)) in
    if f64_gt (max_requests_per_second (automation policy)) MAX_REQUESTS_PER_SECOND then
      Err (Invalid "max_requests_per_second must be at most 5")
    else if (max_concurrency (automation policy) =? 0)
            || (MAX_CONCURRENCY <? max_concurrency (automation policy)) then
      Err (Invalid "max_concurrency must be between 1 and 8")
    else if (max_total_requests (automation policy) =? 0)
            || (MAX_TOTAL_REQUESTS <? max_total_requests (automation policy)) then
      Err (Invalid "max_total_requests must be between 1 and 100000")
    else Ok tt.

Definition compile (self : TargetPolicy) (now : Z) : Result CompiledPolicy PolicyError :=
  let? _ := validate_top_level self now in
  let? include_hosts := normalize_host_set "include_hosts" (scope_include_hosts (scope self)) in
  let? exclude_hosts := normalize_host_set "exclude_hosts" (scope_exclude_hosts (scope self)) in
  let? allowed_schemes := normalize_schemes (scope_allowed_schemes (scope self)) in
  let? allowed_methods := normalize_methods (scope_allowed_methods (scope self)) in
  if existsb (fun host => bool_decide (host ∈ exclude_hosts)) (btree_iter include_hosts) then
    Err (Invalid "a host cannot be present in both include_hosts and exclude_hosts")
  else
    Ok {| inner := self;
          include_hosts := include_hosts;
          exclude_hosts := exclude_hosts;
          allowed_schemes := allowed_schemes;
          allowed_methods := allowed_methods |}.

(** ** Accessors *)

Definition maximum_requests_per_second (self : CompiledPolicy) : f64 :=
  max_requests_per_second (automation (inner self)).
Definition maximum_concurrency (self : CompiledPolicy) : N :=
  max_concurrency (automation (inner self)).
Definition maximum_total_requests (self : CompiledPolicy) : N :=
  max_total_requests (automation (inner self)).
Definition active_testing_enabled (self : CompiledPolicy) : bool :=
  active_testing (automation (inner self)).
Definition oob_callbacks_enabled (self : CompiledPolicy) : bool :=
  oob_callbacks (automation (inner self)).
Definition authorization_expires_at (self : CompiledPolicy) : Z :=
  expires_at (authorization (inner self)).

(** ** Scope decisions *)

(** [candidate.as_bytes()[candidate.len() - host.len() - 1] == b'.'] is evaluated
    only after [candidate.len() > host.len()], so the index is in range. *)
Definition matches_host_set (candidate : str) (hosts : gset str) (allow_subdomains : bool) : bool :=
  existsb (fun host =>
      bool_decide (candidate = host)
      || (allow_subdomains
          && (length host <? length candidate)%nat
          && ends_with candidate host
          && bool_decide (candidate !! (length candidate - length host - 1)%nat
                          = Some "."%char)))
    (btree_iter hosts).

Definition allows_host (self : CompiledPolicy) (candidate : str) : bool :=
  let candidate := to_ascii_lowercase (trim_end_matches (is_byte 46) (trim candidate)) in
  if matches_host_set candidate (exclude_hosts self) true then false
  else matches_host_set candidate (include_hosts self)
         (scope_allow_subdomains (scope (inner self))).

Definition allows_request `{UrlLib} (self : CompiledPolicy) (url : Url) (method : str) : bool :=
  if negb (bool_decide (url_username url = [])) || bool_decide (is_Some (url_password url)) then false
  else match url_host_str url with
  | None => false
  | Some host =>
      bool_decide (url_scheme url ∈ allowed_schemes self)
      && bool_decide (to_ascii_uppercase method ∈ allowed_methods self)
      && allows_host self host
  end.

(** ** [narrow]: the child's restrictions applied to a copy of the parent *)

Definition set_scope (s : ScopePolicy) (p : TargetPolicy) : TargetPolicy :=
  {| schema_version := schema_version p; program := program p; scope := s;
     automation := automation p; authorization := authorization p |}.
Definition set_automation (a : AutomationPolicy) (p : TargetPolicy) : TargetPolicy :=
  {| schema_version := schema_version p; program := program p; scope := scope p;
     automation := a; authorization := authorization p |}.
Definition set_include_hosts (h : gset str) (p : TargetPolicy) : TargetPolicy :=
  set_scope {| scope_include_hosts := h;
               scope_exclude_hosts := scope_exclude_hosts (scope p);
               scope_allowed_schemes := scope_allowed_schemes (scope p);
               scope_allowed_methods := scope_allowed_methods (scope p);
               scope_allow_subdomains := scope_allow_subdomains (scope p) |} p.
Definition extend_exclude_hosts (h : gset str) (p : TargetPolicy) : TargetPolicy :=
  set_scope {| scope_include_hosts := scope_include_hosts (scope p);
               scope_exclude_hosts := scope_exclude_hosts (scope p) ∪ h;
               scope_allowed_schemes := scope_allowed_schemes (scope p);
               scope_allowed_methods := scope_allowed_methods (scope p);
               scope_allow_subdomains := scope_allow_subdomains (scope p) |} p.
Definition set_allowed_schemes (x : gset str) (p : TargetPolicy) : TargetPolicy :=
  set_scope {| scope_include_hosts := scope_include_hosts (scope p);
               scope_exclude_hosts := scope_exclude_hosts (scope p);
               scope_allowed_schemes := x;
               scope_allowed_methods := scope_allowed_methods (scope p);
               scope_allow_subdomains := scope_allow_subdomains (scope p) |} p.
Definition set_allowed_methods (x : gset str) (p : TargetPolicy) : TargetPolicy :=
  set_scope {| scope_include_hosts := scope_include_hosts (scope p);
               scope_exclude_hosts := scope_exclude_hosts (scope p);
               scope_allowed_schemes := scope_allowed_schemes (scope p);
               scope_allowed_methods := x;
               scope_allow_subdomains := scope_allow_subdomains (scope p) |} p.
Definition set_allow_subdomains (x : bool) (p : TargetPolicy) : TargetPolicy :=
  set_scope {| scope_include_hosts := scope_include_hosts (scope p);
               scope_exclude_hosts := scope_exclude_hosts (scope p);
               scope_allowed_schemes := scope_allowed_schemes (scope p);
               scope_allowed_methods := scope_allowed_methods (scope p);
               scope_allow_subdomains := x |} p.
Definition set_active_testing (x : bool) (p : TargetPolicy) : TargetPolicy :=
  let a := automation p in
  set_automation {| active_testing := x; credential_bruteforce := credential_bruteforce a;
                    destructive_testing := destructive_testing a; oob_callbacks := oob_callbacks a;
                    max_requests_per_second := max_requests_per_second a;
                    max_concurrency := max_concurrency a;
                    max_total_requests := max_total_requests a |} p.
Definition set_oob_callbacks (x : bool) (p : TargetPolicy) : TargetPolicy :=
  let a := automation p in
  set_automation {| active_testing := active_testing a;
                    credential_bruteforce := credential_bruteforce a;
                    destructive_testing := destructive_testing a; oob_callbacks := x;
                    max_requests_per_second := max_requests_per_second a;
                    max_concurrency := max_concurrency a;
                    max_total_requests := max_total_requests a |} p.
Definition set_max_requests_per_second (x : f64) (p : TargetPolicy) : TargetPolicy :=
  let a := automation p in
  set_automation {| active_testing := active_testing a;
                    credential_bruteforce := credential_bruteforce a;
                    destructive_testing := destructive_testing a;
                    oob_callbacks := oob_callbacks a;
                    max_requests_per_second := x; max_concurrency := max_concurrency a;
                    max_total_requests := max_total_requests a |} p.
Definition set_max_concurrency (x : N) (p : TargetPolicy) : TargetPolicy :=
  let a := automation p in
  set_automation {| active_testing := active_testing a;
                    credential_bruteforce := credential_bruteforce a;
                    destructive_testing := destructive_testing a;
                    oob_callbacks := oob_callbacks a;
                    max_requests_per_second := max_requests_per_second a; max_concurrency := x;
                    max_total_requests := max_total_requests a |} p.
Definition set_max_total_requests (x : N) (p : TargetPolicy) : TargetPolicy :=
  let a := automation p in
  set_automation {| active_testing := active_testing a;
                    credential_bruteforce := credential_bruteforce a;
                    destructive_testing := destructive_testing a;
                    oob_callbacks := oob_callbacks a;
                    max_requests_per_second := max_requests_per_second a;
                    max_concurrency := max_concurrency a; max_total_requests := x |} p.
Definition set_expires_at (x : Z) (p : TargetPolicy) : TargetPolicy :=
  let a := authorization p in
  {| schema_version := schema_version p; program := program p; scope := scope p;
     automation := automation p;
     authorization := {| confirmed := confirmed a; researcher := researcher a;
                         policy_snapshot_sha256 := policy_snapshot_sha256 a; expires_at := x |} |}.

Definition narrow_include_hosts (self : CompiledPolicy) (child : ChildPolicy)
    (narrowed : TargetPolicy) : Result TargetPolicy PolicyError :=
  match child_include_hosts child with
  | None => Ok narrowed
  | Some hosts =>
      if bool_decide (hosts = ∅) then
        Err (Invalid "child include_hosts must not be empty when supplied")
      else
        let? normalized := normalize_host_set "child include_hosts" hosts in
        match List.find (fun host => negb (allows_host self host)) (btree_iter normalized) with
        | Some host =>
            Err (Broadening (("host " : str) ++ host ++ (" is not permitted by the parent" : str)))
        | None => Ok (set_include_hosts normalized narrowed)
        end
  end.

Definition narrow_exclude_hosts (child : ChildPolicy) (narrowed : TargetPolicy)
    : Result TargetPolicy PolicyError :=
  if bool_decide (child_exclude_hosts child = ∅) then Ok narrowed
  else
    let? exclusions := normalize_host_set "child exclude_hosts" (child_exclude_hosts child) in
    Ok (extend_exclude_hosts exclusions narrowed).

Definition narrow_schemes (self : CompiledPolicy) (child : ChildPolicy)
    (narrowed : TargetPolicy) : Result TargetPolicy PolicyError :=
  match child_allowed_schemes child with
  | None => Ok narrowed
  | Some schemes =>
      let? normalized := normalize_schemes schemes in
      let? _ := require_subset "scheme" normalized (allowed_schemes self) in
      Ok (set_allowed_schemes normalized narrowed)
  end.

Definition narrow_methods (self : CompiledPolicy) (child : ChildPolicy)
    (narrowed : TargetPolicy) : Result TargetPolicy PolicyError :=
  match child_allowed_methods child with
  | None => Ok narrowed
  | Some methods =>
      let? normalized := normalize_methods methods in
      let? _ := require_subset "HTTP method" normalized (allowed_methods self) in
      Ok (set_allowed_methods normalized narrowed)
  end.

Definition narrow_flag (requested : option bool) (parent : bool) (message : str)
    (set : bool -> TargetPolicy -> TargetPolicy) (narrowed : TargetPolicy)
    : Result TargetPolicy PolicyError :=
  match requested with
  | None => Ok narrowed
  | Some value =>
      if value && negb parent then Err (Broadening message) else Ok (set value narrowed)
  end.

Definition narrow_rate (self : CompiledPolicy) (child : ChildPolicy)
    (narrowed : TargetPolicy) : Result TargetPolicy PolicyError :=
  match child_max_requests_per_second child with
  | None => Ok narrowed
  | Some value =>
      let? _ := require_finite_positive "max_requests_per_second" value in
      if f64_gt value (maximum_requests_per_second self) then
        Err (Broadening "child request rate exceeds the parent")
      else Ok (set_max_requests_per_second value narrowed)
  end.

Definition narrow_count (requested : option N) (parent : N) (zero exceeds : str)
    (set : N -> TargetPolicy -> TargetPolicy) (narrowed : TargetPolicy)
    : Result TargetPolicy PolicyError :=
  match requested with
  | None => Ok narrowed
  | Some value =>
      if value =? 0 then Err (Invalid zero)
      else if parent <? value then Err (Broadening exceeds)
      else Ok (set value narrowed)
  end.

Definition narrow_expiry (self : CompiledPolicy) (child : ChildPolicy) (now : Z)
    (narrowed : TargetPolicy) : Result TargetPolicy PolicyError :=
  match child_expires_at child with
  | None => Ok narrowed
  | Some value =>
      if (value <=? now)%Z then
        Err (Invalid "child authorization has expired or is not in the future")
      else if (authorization_expires_at self <? value)%Z then
        Err (Broadening "child authorization outlives the parent")
      else Ok (set_expires_at value narrowed)
  end.

Definition narrow (self : CompiledPolicy) (child : ChildPolicy) (now : Z)
    : Result CompiledPolicy PolicyError :=
  let narrowed := inner self in
  let? narrowed := narrow_include_hosts self child narrowed in
  let? narrowed := narrow_exclude_hosts child narrowed in
  let? narrowed := narrow_schemes self child narrowed in
  let? narrowed := narrow_methods self child narrowed in
  let? narrowed := narrow_flag (child_allow_subdomains child)
      (scope_allow_subdomains (scope (inner self)))
      "child cannot enable subdomains when the parent disables them"
      set_allow_subdomains narrowed in
  let? narrowed := narrow_flag (child_active_testing child) (active_testing_enabled self)
      "child cannot enable active testing" set_active_testing narrowed in
  let? narrowed := narrow_flag (child_oob_callbacks child) (oob_callbacks_enabled self)
      "child cannot enable out-of-band callbacks" set_oob_callbacks narrowed in
  let? narrowed := narrow_rate self child narrowed in
  let? narrowed := narrow_count (child_max_concurrency child) (maximum_concurrency self)
      "child max_concurrency must be greater than zero" "child concurrency exceeds the parent"
      set_max_concurrency narrowed in
  let? narrowed := narrow_count (child_max_total_requests child) (maximum_total_requests self)
      "child max_total_requests must be greater than zero"
      "child request budget exceeds the parent" set_max_total_requests narrowed in
  let? narrowed := narrow_expiry self child now narrowed in
  compile narrowed now.

(** ** The destination guard of the policy crate *)

Definition policy_is_public_destination_v4 (a : N) : bool :=
  negb (ipv4_is_private a) && negb (ipv4_is_loopback a) && negb (ipv4_is_link_local a)
  && negb (ipv4_is_broadcast a) && negb (ipv4_is_documentation a)
  && negb (ipv4_is_unspecified a) && negb (ipv4_is_multicast a).

Definition policy_is_public_destination (ip : IpAddr) : bool :=
  match ip with
  | V4 a => policy_is_public_destination_v4 a
  | V6 a =>
      let first := ipv6_segment 0 a in
      let unique_local := N.land first 0xfe00 =? 0xfc00 in
      let link_local := N.land first 0xffc0 =? 0xfe80 in
      negb (ipv6_is_loopback a) && negb (ipv6_is_unspecified a) && negb (ipv6_is_multicast a)
      && negb unique_local && negb link_local
      && match ipv6_to_ipv4_mapped a with
         | Some v4 => policy_is_public_destination_v4 v4
         | None => true
         end
  end.

(** * Proofs *)

(** ** Host normalisation *)

Lemma normalize_dns_host_ok f x h :
  normalize_dns_host f x = Ok h ->
  h = normalize_host x /\ forallb is_valid_label (split_byte 46 h) = true.
Proof. unfold normalize_dns_host. intros H. inv_ok H. done. Qed.

(** The field name only appears in error messages. *)
Lemma normalize_dns_host_field f g x h :
  normalize_dns_host f x = Ok h -> normalize_dns_host g x = Ok h.
Proof. unfold normalize_dns_host. by repeat step_goal. Qed.

Lemma normalize_dns_host_idemp f x h :
  normalize_dns_host f x = Ok h -> normalize_dns_host f h = Ok h.
Proof.
  intros H. destruct (normalize_dns_host_ok _ _ _ H) as [Hx Hv].
  assert (normalize_host h = h) as Hh.
  { apply normalize_host_fixpoint; [done|]. rewrite Hx. apply normalize_host_lower. }
  unfold normalize_dns_host in *. fold (normalize_host h). fold (normalize_host x) in H.
  rewrite Hh. rewrite <- Hx in H. repeat step_in H; done.
Qed.

Lemma allows_host_normalized self f x h :
  normalize_dns_host f x = Ok h ->
  allows_host self h
  = (negb (matches_host_set h (exclude_hosts self) true)
     && matches_host_set h (include_hosts self) (scope_allow_subdomains (scope (inner self)))).
Proof.
  intros H%normalize_dns_host_idemp. apply normalize_dns_host_ok in H as [Hh _].
  unfold allows_host. fold (normalize_host h). rewrite <- Hh.
  by destruct (matches_host_set h _ true).
Qed.

(** Membership in a collected set. *)
Lemma collected_set {A E} (f : A -> Result str E) (l : list A) (ys : list str) :
  collect_results f l = Ok ys ->
  forall y, y ∈ (list_to_set ys : gset str) <-> exists x, x ∈ l /\ f x = Ok y.
Proof.
  intros H%collect_results_ok y. rewrite elem_of_list_to_set. split.
  - intros Hy. apply list_elem_of_lookup in Hy as [i Hi].
    destruct (Forall2_lookup_r _ _ _ _ _ H Hi) as (x & Hx & Hf).
    exists x. split; [|done]. apply list_elem_of_lookup. eauto.
  - intros (x & Hx & Hf). apply list_elem_of_lookup in Hx as [i Hi].
    destruct (Forall2_lookup_l _ _ _ _ _ H Hi) as (y' & Hy & Hf').
    rewrite Hf in Hf'. simplify_eq. apply list_elem_of_lookup. eauto.
Qed.

Lemma normalize_host_set_spec f hosts s :
  normalize_host_set f hosts = Ok s ->
  forall h, h ∈ s <-> exists x, x ∈ hosts /\ normalize_dns_host f x = Ok h.
Proof.
  unfold normalize_host_set. intros H h. step_in H. simplify_eq.
  rewrite (collected_set _ _ _ Heqr). by setoid_rewrite elem_of_btree_iter.
Qed.

(** Normalising a set of normalised hosts is the identity. *)
Lemma normalize_host_set_idemp f hosts s :
  (forall h, h ∈ hosts -> exists g, normalize_dns_host g h = Ok h) ->
  normalize_host_set f hosts = Ok s -> s = hosts.
Proof.
  intros Hn H. apply set_eq. intros h. rewrite (normalize_host_set_spec _ _ _ H). split.
  - intros (x & Hx & Hf). destruct (Hn x Hx) as [g Hg].
    apply (normalize_dns_host_field _ g) in Hf. congruence.
  - intros Hh. exists h. split; [done|]. destruct (Hn h Hh) as [g Hg].
    by eapply normalize_dns_host_field.
Qed.

(** ** Host matching *)

(** [host] covers [candidate]: equal, or [candidate] is a name below [host]. *)
Definition covers (allow_subdomains : bool) (host candidate : str) : Prop :=
  candidate = host
  \/ (allow_subdomains = true /\ exists labels, candidate = labels ++ ("." : str) ++ host).

Lemma matches_host_set_iff candidate hosts allow :
  matches_host_set candidate hosts allow = true
  <-> exists host, host ∈ hosts /\ covers allow host candidate.
Proof.
  unfold matches_host_set. rewrite existsb_elem. setoid_rewrite elem_of_btree_iter.
  apply exist_proper. intros host. apply and_iff_compat_l. unfold covers.
  rewrite orb_true_iff, !andb_true_iff, !bool_decide_eq_true, Nat.ltb_lt, ends_with_spec.
  apply or_iff_compat_l. split.
  - intros [[[-> Hl] [p ->]] Hdot]. split; [done|].
    rewrite length_app in *. destruct p as [|c p] using rev_ind; [simpl in *; lia|].
    exists p. rewrite length_app in Hdot. simpl in Hdot.
    replace (length p + 1 + length host - length host - 1)%nat with (length p) in Hdot by lia.
    rewrite <- (assoc_L (++)) in Hdot. rewrite lookup_app_r in Hdot by done.
    rewrite Nat.sub_diag in Hdot. simpl in Hdot. simplify_eq.
    by rewrite <- (assoc_L (++)).
  - intros [-> [p ->]]. rewrite !length_app. simpl.
    repeat split; [lia | by exists (p ++ ["."%char]); rewrite <- (assoc_L (++)) |].
    replace (length p + S (length host) - length host - 1)%nat with (length p) by lia.
    rewrite lookup_app_r by done. by rewrite Nat.sub_diag.
Qed.

Lemma covers_trans allow h m c :
  covers allow h m -> covers allow m c -> covers allow h c.
Proof.
  intros [->|[-> [p ->]]] [->|[Ha [q ->]]]; unfold covers; simpl; auto; right; split; try done.
  - by exists q.
  - by exists p.
  - exists (q ++ "."%char :: p). by rewrite <- !(assoc_L (++)).
Qed.

Lemma covers_weaken a b h c : (a = true -> b = true) -> covers a h c -> covers b h c.
Proof. intros Hab [->|[Ha Hp]]; [by left | right; auto]. Qed.

(** ** What compilation establishes *)

Lemma compile_inv t now p :
  compile t now = Ok p ->
  inner p = t
  /\ validate_top_level t now = Ok tt
  /\ normalize_host_set "include_hosts" (scope_include_hosts (scope t)) = Ok (include_hosts p)
  /\ normalize_host_set "exclude_hosts" (scope_exclude_hosts (scope t)) = Ok (exclude_hosts p)
  /\ normalize_schemes (scope_allowed_schemes (scope t)) = Ok (allowed_schemes p)
  /\ normalize_methods (scope_allowed_methods (scope t)) = Ok (allowed_methods p)
  /\ (forall h, h ∈ include_hosts p -> h ∉ exclude_hosts p).
Proof.
  unfold compile. intros H. inv_ok H. simpl. destruct a. repeat split; try done.
  intros h Hi He. match goal with HE : existsb _ _ = false |- _ => rename HE into HX end.
  apply not_true_iff_false in HX. apply HX. apply existsb_elem. exists h.
  rewrite elem_of_btree_iter. split; [done|]. by apply bool_decide_eq_true.
Qed.

Lemma validate_top_level_ok t now :
  validate_top_level t now = Ok tt ->
  confirmed (authorization t) = true
  /\ (now < expires_at (authorization t))%Z
  /\ credential_bruteforce (automation t) = false
  /\ destructive_testing (automation t) = false
  /\ is_finite (max_requests_per_second (automation t)) = true
  /\ f64_lt f64_zero (max_requests_per_second (automation t)) = true
  /\ f64_le (max_requests_per_second (automation t)) MAX_REQUESTS_PER_SECOND = true
  /\ 1 <= max_concurrency (automation t) <= MAX_CONCURRENCY
  /\ 1 <= max_total_requests (automation t) <= MAX_TOTAL_REQUESTS.
Proof.
  unfold validate_top_level, require_finite_positive. intros H. inv_ok H. bools.
  match goal with HF : is_finite ?r = true |- _ => pose proof (is_finite_not_nan r HF) end.
  repeat split; try done; try lia.
  - match goal with HF : f64_le ?r f64_zero = false |- _ => revert HF end.
    unfold f64_lt, f64_le, SFltb, SFleb.
    rewrite (SFcompare_flip (max_requests_per_second (automation t)) f64_zero).
    destruct (SFcompare_not_nan (max_requests_per_second (automation t)) f64_zero) as [[] ->]; done.
  - by apply f64_not_gt_le.
Qed.

(** ** The steps of [narrow] only ever restrict *)

(** Every clause a narrowed policy must satisfy against its parent. *)
Record narrows (self : CompiledPolicy) (t : TargetPolicy) : Prop := {
  narrows_include :
    scope_include_hosts (scope t) = scope_include_hosts (scope (inner self))
    \/ (forall h, h ∈ scope_include_hosts (scope t) ->
          (exists f x, normalize_dns_host f x = Ok h) /\ allows_host self h = true);
  narrows_exclude :
    scope_exclude_hosts (scope (inner self)) ⊆ scope_exclude_hosts (scope t);
  narrows_schemes :
    scope_allowed_schemes (scope t) = scope_allowed_schemes (scope (inner self))
    \/ (scope_allowed_schemes (scope t) ⊆ allowed_schemes self
        /\ exists s, normalize_schemes s = Ok (scope_allowed_schemes (scope t)));
  narrows_methods :
    scope_allowed_methods (scope t) = scope_allowed_methods (scope (inner self))
    \/ (scope_allowed_methods (scope t) ⊆ allowed_methods self
        /\ exists s, normalize_methods s = Ok (scope_allowed_methods (scope t)));
  narrows_subdomains :
    scope_allow_subdomains (scope t) = true ->
    scope_allow_subdomains (scope (inner self)) = true;
  narrows_active :
    active_testing (automation t) = true -> active_testing_enabled self = true;
  narrows_oob :
    oob_callbacks (automation t) = true -> oob_callbacks_enabled self = true;
  narrows_rate :
    f64_le (max_requests_per_second (automation t)) (maximum_requests_per_second self) = true;
  narrows_concurrency : max_concurrency (automation t) <= maximum_concurrency self;
  narrows_total : max_total_requests (automation t) <= maximum_total_requests self;
  narrows_expiry : (expires_at (authorization t) <= authorization_expires_at self)%Z
}.

Section Narrowing.
Context (self : CompiledPolicy) (child : ChildPolicy) (now : Z).
Hypothesis parent_rate : is_nan (maximum_requests_per_second self) = false.

(** One step of [narrow]: whatever it returns still narrows the parent. *)
Definition preserves (f : TargetPolicy -> Result TargetPolicy PolicyError) : Prop :=
  forall t t', narrows self t -> f t = Ok t' -> narrows self t'.

Lemma narrows_refl : narrows self (inner self).
Proof. constructor; auto; try done. by apply f64_le_refl. Qed.

Lemma narrow_include_preserves : preserves (narrow_include_hosts self child).
Proof.
  intros t t' Ht H. unfold narrow_include_hosts in H. inv_ok H; [|done].
  destruct Ht. constructor; cbn; try done. right. intros h Hh.
  rewrite find_none_elem in *. split.
  - match goal with HN : normalize_host_set _ _ = Ok _ |- _ =>
      apply (normalize_host_set_spec _ _ _ HN) in Hh as (x & _ & Hx) end. eauto.
  - apply elem_of_btree_iter in Hh. apply negb_false_iff. auto.
Qed.

Lemma narrow_exclude_preserves : preserves (narrow_exclude_hosts child).
Proof.
  intros t t' Ht H. unfold narrow_exclude_hosts in H. inv_ok H; [done|].
  destruct Ht. constructor; cbn; try done. set_solver.
Qed.

Lemma require_subset_ok f c p : require_subset f c p = Ok tt -> c ⊆ p.
Proof.
  unfold require_subset. intros H. inv_ok H. rewrite find_none_elem in *.
  intros x Hx. apply elem_of_btree_iter in Hx.
  match goal with HF : forall x, _ |- _ => apply HF in Hx end.
  apply bool_decide_eq_false in Hx. by apply dec_stable.
Qed.

Lemma narrow_schemes_preserves : preserves (narrow_schemes self child).
Proof.
  intros t t' Ht H. unfold narrow_schemes in H. inv_ok H; [|done]. destruct a0.
  destruct Ht. constructor; cbn; try done. right. eauto using require_subset_ok.
Qed.

Lemma narrow_methods_preserves : preserves (narrow_methods self child).
Proof.
  intros t t' Ht H. unfold narrow_methods in H. inv_ok H; [|done]. destruct a0.
  destruct Ht. constructor; cbn; try done. right. eauto using require_subset_ok.
Qed.

Lemma narrow_subdomains_preserves message :
  preserves (narrow_flag (child_allow_subdomains child)
               (scope_allow_subdomains (scope (inner self))) message set_allow_subdomains).
Proof.
  intros t t' Ht H. unfold narrow_flag in H. inv_ok H; [|done].
  destruct Ht. constructor; cbn; try done.
  intros ->. by destruct (scope_allow_subdomains (scope (inner self))).
Qed.

Lemma narrow_active_preserves message :
  preserves (narrow_flag (child_active_testing child) (active_testing_enabled self)
               message set_active_testing).
Proof.
  intros t t' Ht H. unfold narrow_flag in H. inv_ok H; [|done].
  destruct Ht. constructor; cbn; try done. intros ->. by destruct (active_testing_enabled self).
Qed.

Lemma narrow_oob_preserves message :
  preserves (narrow_flag (child_oob_callbacks child) (oob_callbacks_enabled self)
               message set_oob_callbacks).
Proof.
  intros t t' Ht H. unfold narrow_flag in H. inv_ok H; [|done].
  destruct Ht. constructor; cbn; try done. intros ->. by destruct (oob_callbacks_enabled self).
Qed.

Lemma narrow_rate_preserves : preserves (narrow_rate self child).
Proof.
  intros t t' Ht H. unfold narrow_rate, require_finite_positive in H. inv_ok H; [|done]. bools.
  destruct Ht. constructor; cbn; try done.
  apply f64_not_gt_le; [by apply is_finite_not_nan | done | done].
Qed.

Lemma narrow_concurrency_preserves zero exceeds :
  preserves (narrow_count (child_max_concurrency child) (maximum_concurrency self)
               zero exceeds set_max_concurrency).
Proof.
  intros t t' Ht H. unfold narrow_count in H. inv_ok H; [|done]. bools.
  destruct Ht. constructor; cbn; done.
Qed.

Lemma narrow_total_preserves zero exceeds :
  preserves (narrow_count (child_max_total_requests child) (maximum_total_requests self)
               zero exceeds set_max_total_requests).
Proof.
  intros t t' Ht H. unfold narrow_count in H. inv_ok H; [|done]. bools.
  destruct Ht. constructor; cbn; done.
Qed.

Lemma narrow_expiry_preserves : preserves (narrow_expiry self child now).
Proof.
  intros t t' Ht H. unfold narrow_expiry in H. inv_ok H; [|done].
  destruct Ht. constructor; cbn; try done. by apply Z.ltb_ge.
Qed.

Lemma narrow_ok n :
  narrow self child now = Ok n ->
  exists t, narrows self t /\ compile t now = Ok n.
Proof.
  unfold narrow. intros H.
  repeat match type of H with
  | match ?e with Ok _ => _ | Err _ => _ end = _ => destruct e eqn:?; [|discriminate H]
  end.
  eexists. split; [|exact H].
  eapply narrow_expiry_preserves; [|eassumption].
  eapply narrow_total_preserves; [|eassumption].
  eapply narrow_concurrency_preserves; [|eassumption].
  eapply narrow_rate_preserves; [|eassumption].
  eapply narrow_oob_preserves; [|eassumption].
  eapply narrow_active_preserves; [|eassumption].
  eapply narrow_subdomains_preserves; [|eassumption].
  eapply narrow_methods_preserves; [|eassumption].
  eapply narrow_schemes_preserves; [|eassumption].
  eapply narrow_exclude_preserves; [|eassumption].
  eapply narrow_include_preserves; [|eassumption].
  apply narrows_refl.
Qed.
End Narrowing.

(** ** Scope inclusion *)

Lemma normalize_scheme_idemp x y : normalize_scheme x = Ok y -> normalize_scheme y = Ok y.
Proof.
  unfold normalize_scheme at 1. intros H. step_in H. simplify_eq.
  apply andb_false_iff in Heqb as [Hb|Hb]; apply bool_decide_eq_false, dec_stable in Hb;
    rewrite Hb; by vm_compute.
Qed.

Lemma normalize_method_idemp x y : normalize_method x = Ok y -> normalize_method y = Ok y.
Proof.
  unfold normalize_method at 1. intros H. step_in H. simplify_eq. bools.
  unfold ALLOWED_METHODS in *. rewrite !elem_of_cons in *.
  repeat (destruct Heqb as [->|Heqb]; [by vm_compute|]). by apply elem_of_nil in Heqb.
Qed.

Lemma normalize_scheme_known x y :
  normalize_scheme x = Ok y -> y = ("http" : str) \/ y = ("https" : str).
Proof.
  unfold normalize_scheme. intros H. inv_ok H.
  match goal with E : _ && _ = false |- _ => apply andb_false_iff in E as [E|E] end;
    bools; match goal with E : ~ _ |- _ => apply dec_stable in E end; auto.
Qed.

Lemma normalize_method_known x y : normalize_method x = Ok y -> y ∈ ALLOWED_METHODS.
Proof. unfold normalize_method. intros H. inv_ok H. by bools. Qed.

Lemma collect_fixpoints {E} (f : str -> Result str E) (s : gset str) ys :
  (forall x, x ∈ s -> f x = Ok x) -> collect_results f (btree_iter s) = Ok ys ->
  (list_to_set ys : gset str) = s.
Proof.
  intros Hf H. apply set_eq. intros y. rewrite (collected_set _ _ _ H).
  setoid_rewrite elem_of_btree_iter. split.
  - intros (x & Hx & Hy). rewrite Hf in Hy by done. by simplify_eq.
  - intros Hy. exists y. auto.
Qed.

Lemma normalize_schemes_spec s out :
  normalize_schemes s = Ok out -> forall x, x ∈ out -> normalize_scheme x = Ok x.
Proof.
  unfold normalize_schemes. intros H x Hx. inv_ok H.
  match goal with HC : collect_results _ _ = _ |- _ =>
    apply (collected_set _ _ _ HC) in Hx as (z & _ & Hz) end.
  by eapply normalize_scheme_idemp.
Qed.

Lemma normalize_methods_spec s out :
  normalize_methods s = Ok out -> forall x, x ∈ out -> normalize_method x = Ok x.
Proof.
  unfold normalize_methods. intros H x Hx. inv_ok H.
  match goal with HC : collect_results _ _ = _ |- _ =>
    apply (collected_set _ _ _ HC) in Hx as (z & _ & Hz) end.
  by eapply normalize_method_idemp.
Qed.

Lemma normalize_schemes_idemp s out out' :
  normalize_schemes s = Ok out -> normalize_schemes out = Ok out' -> out' = out.
Proof.
  intros H H'. unfold normalize_schemes in H'. inv_ok H'.
  eapply collect_fixpoints; [|eassumption]. eauto using normalize_schemes_spec.
Qed.

Lemma normalize_methods_idemp s out out' :
  normalize_methods s = Ok out -> normalize_methods out = Ok out' -> out' = out.
Proof.
  intros H H'. unfold normalize_methods in H'. inv_ok H'.
  eapply collect_fixpoints; [|eassumption]. eauto using normalize_methods_spec.
Qed.

(** The decision in terms of coverage. *)
Lemma allows_host_iff p c :
  allows_host p c = true <->
  (~ exists h, h ∈ exclude_hosts p /\ covers true h (normalize_host c))
  /\ exists h, h ∈ include_hosts p
               /\ covers (scope_allow_subdomains (scope (inner p))) h (normalize_host c).
Proof.
  unfold allows_host. fold (normalize_host c). rewrite <- !matches_host_set_iff.
  destruct (matches_host_set _ (exclude_hosts p) true); naive_solver.
Qed.

Section Inclusion.
Context (self n : CompiledPolicy) (t : TargetPolicy) (at0 now : Z).
Hypothesis Hself : compile (inner self) at0 = Ok self.
Hypothesis Ht : narrows self t.
Hypothesis Hn : compile t now = Ok n.

Lemma exclude_included : exclude_hosts self ⊆ exclude_hosts n.
Proof.
  intros h Hh. pose proof (compile_inv _ _ _ Hself) as (_ & _ & _ & He & _).
  pose proof (compile_inv _ _ _ Hn) as (_ & _ & _ & He' & _).
  rewrite (normalize_host_set_spec _ _ _ He) in Hh. destruct Hh as (x & Hx & Hf).
  apply (normalize_host_set_spec _ _ _ He'). exists x. split; [|done].
  by apply (narrows_exclude _ _ Ht).
Qed.

(** Every host the child includes is one the parent covers. *)
Lemma include_covered h :
  h ∈ include_hosts n ->
  exists p, p ∈ include_hosts self
            /\ covers (scope_allow_subdomains (scope (inner self))) p h.
Proof.
  intros Hh. pose proof (compile_inv _ _ _ Hself) as (_ & _ & Hi & _).
  pose proof (compile_inv _ _ _ Hn) as (_ & _ & Hi' & _).
  destruct (narrows_include _ _ Ht) as [Heq|Hall].
  - rewrite Heq in Hi'. assert (include_hosts n = include_hosts self) as E by congruence.
    rewrite E in Hh. exists h. split; [done|by left].
  - assert (h ∈ scope_include_hosts (scope t)) as Hh'.
    { assert (include_hosts n = scope_include_hosts (scope t)) as E; [|by rewrite <- E].
      eapply normalize_host_set_idemp; [|exact Hi'].
      intros x Hx. destruct (Hall x Hx) as [(f & y & Hy) _].
      eauto using normalize_dns_host_idemp. }
    destruct (Hall h Hh') as [(f & x & Hx) Ha].
    rewrite (allows_host_normalized _ _ _ _ Hx) in Ha. bools.
    by apply matches_host_set_iff.
Qed.

Lemma allows_host_included c : allows_host n c = true -> allows_host self c = true.
Proof.
  rewrite !allows_host_iff. intros [Hex (h & Hh & Hc)]. split.
  - intros (e & He & Hce). apply Hex. exists e. split; [by apply exclude_included|done].
  - destruct (include_covered h Hh) as (p & Hp & Hph). exists p. split; [done|].
    eapply covers_trans; [exact Hph|]. eapply covers_weaken; [|exact Hc].
    rewrite (proj1 (compile_inv _ _ _ Hn)). apply (narrows_subdomains _ _ Ht).
Qed.

Lemma allows_request_included `{UrlLib} url method :
  allows_request n url method = true -> allows_request self url method = true.
Proof.
  pose proof (compile_inv _ _ _ Hself) as (_ & _ & _ & _ & Hs & Hm & _).
  pose proof (compile_inv _ _ _ Hn) as (_ & _ & _ & _ & Hs' & Hm' & _).
  unfold allows_request. repeat step_goal; try done.
  rewrite !andb_true_iff, !bool_decide_eq_true. intros [[HS HM] HH]. repeat split.
  - destruct (narrows_schemes _ _ Ht) as [Heq|[Hsub [s0 Hs0]]].
    + rewrite Heq in Hs'. congruence.
    + apply Hsub. by rewrite <- (normalize_schemes_idemp _ _ _ Hs0 Hs').
  - destruct (narrows_methods _ _ Ht) as [Heq|[Hsub [s0 Hs0]]].
    + rewrite Heq in Hm'. congruence.
    + apply Hsub. by rewrite <- (normalize_methods_idemp _ _ _ Hs0 Hm').
  - by apply allows_host_included.
Qed.
End Inclusion.

(** ** Derived policies *)

(** [n] was obtained from [p] by one successful [narrow]. *)
Definition narrowing (p n : CompiledPolicy) : Prop :=
  exists child now, narrow p child now = Ok n.

(** Only [compile] builds a [CompiledPolicy]: its fields are private. *)
Definition compiled (p : CompiledPolicy) : Prop := exists at0, compile (inner p) at0 = Ok p.

(** [n] grants no more than [p] in any dimension. *)
Record no_broader `{UrlLib} (n p : CompiledPolicy) : Prop := {
  nb_requests : forall url method,
    allows_request n url method = true -> allows_request p url method = true;
  nb_hosts : forall host, allows_host n host = true -> allows_host p host = true;
  nb_rate : f64_le (maximum_requests_per_second n) (maximum_requests_per_second p) = true;
  nb_concurrency : maximum_concurrency n <= maximum_concurrency p;
  nb_total : maximum_total_requests n <= maximum_total_requests p;
  nb_expiry : (authorization_expires_at n <= authorization_expires_at p)%Z;
  nb_active : active_testing_enabled n = true -> active_testing_enabled p = true;
  nb_oob : oob_callbacks_enabled n = true -> oob_callbacks_enabled p = true
}.

Lemma compiled_rate p : compiled p -> is_finite (maximum_requests_per_second p) = true.
Proof.
  intros [at0 H]. apply compile_inv in H as (_ & Hv & _).
  by apply validate_top_level_ok in Hv as (_ & _ & _ & _ & Hf & _).
Qed.

Lemma narrowing_compiled p n : narrowing p n -> compiled p -> compiled n.
Proof.
  intros (child & now & H) Hp.
  destruct (narrow_ok p child now (is_finite_not_nan _ (compiled_rate p Hp)) n H) as (t & _ & Ht).
  exists now. by rewrite (proj1 (compile_inv _ _ _ Ht)).
Qed.

Lemma narrowing_no_broader `{UrlLib} p n : compiled p -> narrowing p n -> no_broader n p.
Proof.
  intros Hp (child & now & H0). pose proof (is_finite_not_nan _ (compiled_rate p Hp)) as Hr.
  destruct (narrow_ok p child now Hr n H0) as (t & Hnar & Ht). destruct Hp as [at0 Hp].
  pose proof (proj1 (compile_inv _ _ _ Ht)) as Hin.
  constructor; unfold maximum_requests_per_second, maximum_concurrency, maximum_total_requests,
    authorization_expires_at, active_testing_enabled, oob_callbacks_enabled; rewrite ?Hin;
    try by destruct Hnar.
  - intros. by eapply allows_request_included.
  - intros. by eapply allows_host_included.
Qed.

#[export] Instance no_broader_trans `{UrlLib} : Transitive no_broader.
Proof.
  intros a b c [] []. constructor; auto; try by etrans.
  by eapply f64_le_trans.
Qed.

Lemma no_broader_refl `{UrlLib} p : compiled p -> no_broader p p.
Proof. intros Hp. constructor; auto; try done. by apply f64_le_refl, is_finite_not_nan, compiled_rate. Qed.

(** ** The two destination guards *)

#[local] Ltac Zify.zify_post_hook ::= Z.to_euclidean_division_equations.

Lemma ipv4_is_documentation_blocks a :
  a < 2 ^ 32 ->
  ipv4_is_documentation a = in_block a (ipv4_new 192 0 2 0, 8)
                            || in_block a (ipv4_new 198 51 100 0, 8)
                            || in_block a (ipv4_new 203 0 113 0, 8).
Proof.
  intros. unfold ipv4_is_documentation. rewrite !ipv4_octet_value by lia. block_arith. lia.
Qed.

Lemma policy_public_v4_spec a :
  a < 2 ^ 32 -> is_special_ipv4 a = false -> policy_is_public_destination_v4 a = true.
Proof.
  intros Ha. unfold policy_is_public_destination_v4, is_special_ipv4, special_ipv4_blocks.
  rewrite ipv4_is_loopback_block, ipv4_is_private_blocks, ipv4_is_link_local_block,
    ipv4_is_multicast_block, ipv4_is_documentation_blocks by done.
  cbn [existsb]. intros. bools.
  assert (ipv4_is_broadcast a = false) as -> by (apply N.eqb_neq; intros ->; done).
  assert (ipv4_is_unspecified a = false) as -> by (apply N.eqb_neq; intros ->; done).
  by repeat match goal with H : in_block _ _ = false |- _ => rewrite H; clear H end.
Qed.

(** Everything the gateway's guard lets through, the policy crate's guard lets
    through as well. *)
Lemma policy_public_weaker ip :
  ip_in_width ip -> is_public_destination ip = true -> policy_is_public_destination ip = true.
Proof.
  intros Hw. rewrite is_public_destination_spec by done.
  destruct ip as [a|a]; cbn in *.
  - intros H%negb_true_iff. by apply policy_public_v4_spec.
  - destruct (ipv6_to_ipv4_mapped a) as [m|] eqn:Hm.
    + unfold ipv6_to_ipv4_mapped in Hm. destruct (N.eqb_spec (N.shiftr a 32) 65535) as [E|]; [|done].
      injection Hm as <-. intros H%negb_true_iff. rewrite N.shiftr_div_pow2 in E.
      rewrite policy_public_v4_spec; [| |done].
      2: { change u32_max with (2 ^ 32 - 1). rewrite land_low. by apply N.mod_lt. }
      unfold ipv6_is_loopback, ipv6_is_unspecified, ipv6_is_multicast.
      rewrite ipv6_segment0_value by done.
      assert (a / 2 ^ 112 = 0) as ->.
      { apply N.div_small. change (2 ^ 112) with 5192296858534827628530496329220096.
        change (2 ^ 32) with 4294967296 in E. lia. }
      change (2 ^ 32) with 4294967296 in E.
      rewrite !(proj2 (N.eqb_neq a _)) by lia. done.
    + intros H%negb_true_iff. unfold is_special_ipv6, special_ipv6_blocks in H. cbn [existsb] in H.
      bools. unfold ipv6_is_loopback, ipv6_is_unspecified, ipv6_is_multicast.
      rewrite <- (in_block_single a 0), <- (in_block_single a 1).
      change 65280 with (2 ^ 16 - 2 ^ 8) at 1. change 0xfe00 with (2 ^ 16 - 2 ^ 9).
      change 0xffc0 with (2 ^ 16 - 2 ^ 6).
      rewrite !segment0_mask_block by (done || lia).
      repeat match goal with
      | |- context [in_block a ?b] =>
          let v := eval vm_compute in b in progress change (in_block a b) with (in_block a v)
      end.
      repeat match goal with
      | H : in_block a ?b = false |- _ =>
          let v := eval vm_compute in b in progress change (in_block a v = false) in H
      end.
      by repeat match goal with H : in_block _ _ = false |- _ => rewrite H; clear H end.
Qed.

(** * Properties *)

(** The policy of the crate's tests, and a child that narrows it. *)
Definition example_policy : TargetPolicy := {|
  schema_version := 1;
  program := {| program_name := "Example Program"; program_platform := "hackerone";
                program_policy_url := Some ("https://hackerone.com/example" : str) |};
  scope := {| scope_include_hosts := {[ ("App.Example.com." : str) ]};
              scope_exclude_hosts := {[ ("status.app.example.com" : str) ]};
              scope_allowed_schemes := {[ ("https" : str) ]};
              scope_allowed_methods := {[ ("GET" : str); ("head" : str) ]};
              scope_allow_subdomains := true |};
  automation := {| active_testing := false; credential_bruteforce := false;
                   destructive_testing := false; oob_callbacks := false;
                   max_requests_per_second := f64_one; max_concurrency := 2;
                   max_total_requests := 1000 |};
  authorization := {| confirmed := true; researcher := "naveax";
                      policy_snapshot_sha256 := replicate 64 "a"%char; expires_at := 604800 |}
|}.

Definition example_child : ChildPolicy := {|
  child_include_hosts := Some {[ ("api.app.example.com" : str) ]};
  child_exclude_hosts := {[ ("old.api.app.example.com" : str) ]};
  child_allowed_schemes := None;
  child_allowed_methods := Some {[ ("GET" : str) ]};
  child_allow_subdomains := None;
  child_active_testing := None;
  child_oob_callbacks := Some false;
  child_max_requests_per_second := Some (f64_div f64_one (f64_of_N 2));
  child_max_concurrency := Some 1;
  child_max_total_requests := Some 100;
  child_expires_at := Some 86400%Z
|}.

Definition ok_or {A E} (d : A) (r : Result A E) : A := match r with Ok a => a | Err _ => d end.

Definition example_compiled : CompiledPolicy :=
  ok_or {| inner := example_policy; include_hosts := ∅; exclude_hosts := ∅;
           allowed_schemes := ∅; allowed_methods := ∅ |} (compile example_policy 0).
Definition example_narrowed : CompiledPolicy :=
  ok_or example_compiled (narrow example_compiled example_child 0).

Lemma example_compiled_ok : compile (inner example_compiled) 0 = Ok example_compiled.
Proof. vm_compute. reflexivity. Qed.

Lemma example_narrow_ok : narrow example_compiled example_child 0 = Ok example_narrowed.
Proof. vm_compute. reflexivity. Qed.

(** A policy derived from a compiled one by any number of successful
    [narrow] calls is no broader than it: every request and host it allows the
    original allows, its rate, concurrency, total budget and expiry are at most
    the original's, and it enables no feature the original has disabled. *)
Theorem narrow_never_broadens `{UrlLib} root p :
  compiled root -> rtc narrowing root p -> no_broader p root.
Proof.
  intros Hroot Hsteps. induction Hsteps as [p|p q r Hstep _ IH].
  - by apply no_broader_refl.
  - transitivity q; [apply IH; by eapply narrowing_compiled | by apply narrowing_no_broader].
Qed.

Lemma narrow_never_broadens_witness :
  no_broader (H := plain_url) example_narrowed example_compiled.
Proof.
  apply (narrow_never_broadens (H := plain_url) example_compiled example_narrowed).
  - exists 0%Z. exact example_compiled_ok.
  - apply rtc_once. exists example_child, 0%Z. exact example_narrow_ok.
Defined.

(** Compilation succeeds only for a confirmed, unexpired authorization with
    brute force and destructive testing off, a finite positive rate of at most
    five requests per second, one to eight concurrent requests and one to a
    hundred thousand requests in total. *)
Theorem compile_enforces_ceilings t now p :
  compile t now = Ok p ->
  confirmed (authorization (inner p)) = true
  /\ (now < authorization_expires_at p)%Z
  /\ credential_bruteforce (automation (inner p)) = false
  /\ destructive_testing (automation (inner p)) = false
  /\ is_finite (maximum_requests_per_second p) = true
  /\ f64_lt f64_zero (maximum_requests_per_second p) = true
  /\ f64_le (maximum_requests_per_second p) MAX_REQUESTS_PER_SECOND = true
  /\ 1 <= maximum_concurrency p <= 8
  /\ 1 <= maximum_total_requests p <= 100000.
Proof.
  intros H. destruct (compile_inv _ _ _ H) as (Hin & Hv & _).
  unfold authorization_expires_at, maximum_requests_per_second, maximum_concurrency,
    maximum_total_requests. rewrite Hin. by apply validate_top_level_ok.
Qed.

Lemma compile_enforces_ceilings_witness :
  compile example_policy 0 = Ok example_compiled
  /\ 1 <= maximum_total_requests example_compiled <= 100000.
Proof.
  split; [vm_compute; reflexivity|].
  apply (compile_enforces_ceilings example_policy 0 example_compiled). vm_compute. reflexivity.
Defined.

(** The host decision, for every candidate: a name is in scope exactly when
    no excluded host equals it or is a parent domain of it, and some included
    host equals it or (when subdomains are allowed) is a parent domain of it.
    Matching happens only at label boundaries, and exclusion always wins. *)
Theorem allows_host_decision p candidate :
  allows_host p candidate = true <->
  (~ exists h, h ∈ exclude_hosts p /\ covers true h (normalize_host candidate))
  /\ exists h, h ∈ include_hosts p
               /\ covers (scope_allow_subdomains (scope (inner p))) h (normalize_host candidate).
Proof. apply allows_host_iff. Qed.

(** An authorised request carries no credentials in its URL, has a host in
    scope, and uses an allowed scheme and an allowed method, all from the
    normalised sets; of a compiled policy these are [http] or [https] and one of
    the seven known methods. *)
Theorem allows_request_sound `{UrlLib} p url method :
  compiled p -> allows_request p url method = true ->
  url_username url = [] /\ url_password url = None
  /\ (exists host, url_host_str url = Some host /\ allows_host p host = true)
  /\ (url_scheme url = ("http" : str) \/ url_scheme url = ("https" : str))
  /\ to_ascii_uppercase method ∈ ALLOWED_METHODS.
Proof.
  intros [at0 Hp] H0. pose proof (compile_inv _ _ _ Hp) as (_ & _ & _ & _ & Hs & Hm & _).
  unfold allows_request in H0. repeat step_in H0. bools.
  repeat split; try done.
  - destruct (url_password url); [|done]. exfalso. naive_solver.
  - eauto.
  - eauto using normalize_scheme_known, normalize_schemes_spec.
  - eauto using normalize_method_known, normalize_methods_spec.
Qed.

Lemma allows_request_sound_witness :
  exists host, url_host_str (UrlLib := plain_url) (plain_https "api.app.example.com" "/v1/me") = Some host
               /\ allows_host example_compiled host = true.
Proof.
  apply (allows_request_sound (H := plain_url) example_compiled
           (plain_https "api.app.example.com" "/v1/me") "get").
  - exists 0%Z. exact example_compiled_ok.
  - vm_compute. reflexivity.
Defined.

(** The destination guard used by the gateway is at least as strict as the
    guard exported by the policy crate: whatever it admits, the other admits. *)
Theorem destination_guard_refines_policy_guard ip :
  ip_in_width ip -> is_public_destination ip = true -> policy_is_public_destination ip = true.
Proof. apply policy_public_weaker. Qed.

Lemma destination_guard_refines_policy_guard_witness :
  policy_is_public_destination (V4 (ipv4_new 8 8 8 8)) = true.
Proof.
  apply (destination_guard_refines_policy_guard (V4 (ipv4_new 8 8 8 8))); vm_compute; reflexivity.
Defined.
