(* ===== verification/Dns.v ===== *)
(** * DNS pinning ([crates/nxb-dns])

    [DnsPinSet::pin_or_validate] pins the first address set observed for a
    (context, host) pair and rejects every later observation that differs;
    [release_context] drops the pins of a context. *)

From S2P Require Import Prelude ByteStr IpAddr.
Local Open Scope N_scope.

(** ** Data *)

Record DnsObservation : Type := {
  obs_context_id : str;
  obs_host : str;
  obs_addresses : gset IpAddr;
  obs_resolver_id : str;
  obs_ttl_seconds : N;
  obs_observed_at_milliseconds : N
}.

Inductive DnsPinStatus : Type := Pinned | Matched.

Record DnsPin : Type := {
  pin_context_id : str;
  pin_host : str;
  pin_addresses : gset IpAddr;
  pin_resolver_id : str;
  first_observed_at_milliseconds : N;
  last_observed_at_milliseconds : N;
  initial_ttl_seconds : N;
  latest_ttl_seconds : N
}.

(** The [BTreeMap] of a [DnsPinSet]. *)
Abbreviation DnsPinSet := (gmap (str * str) DnsPin).

Inductive DnsPinError : Type :=
  | InvalidContextId
  | InvalidResolverId
  | InvalidHost
  | EmptyAddressSet
  | ClockRegression
  | ResolverChanged (expected observed : str)
  | RebindingDetected (host : str) (pinned observed : gset IpAddr).

(** ** Operations *)

Definition dns_new : DnsPinSet := ∅.

Definition is_valid_host (value : str) : bool :=
  let host := normalize_host value in
  if bool_decide (host = []) || (253 <? len host) || contains_byte 58 host || contains_byte 47 host
  then false
  else forallb is_valid_label (split_byte 46 host).

Definition validate_observation (observation : DnsObservation) : Result unit DnsPinError :=
  if negb (is_valid_identifier (obs_context_id observation)) then Err InvalidContextId
  else if negb (is_valid_identifier (obs_resolver_id observation)) then Err InvalidResolverId
  else if negb (is_valid_host (obs_host observation)) then Err InvalidHost
  else if bool_decide (obs_addresses observation = ∅) then Err EmptyAddressSet
  else Ok tt.

(** Returns the status and the pins after the call. *)
Definition pin_or_validate (observation : DnsObservation) (pins : DnsPinSet)
    : Result DnsPinStatus DnsPinError * DnsPinSet :=
  match validate_observation observation with
  | Err error => (Err error, pins)
  | Ok _ =>
      let context_id := normalize_identifier (obs_context_id observation) in
      let resolver_id := normalize_identifier (obs_resolver_id observation) in
      let host := normalize_host (obs_host observation) in
      let key := (context_id, host) in
      match pins !! key with
      | Some pin =>
          if obs_observed_at_milliseconds observation <? last_observed_at_milliseconds pin
          then (Err ClockRegression, pins)
          else if bool_decide (resolver_id <> pin_resolver_id pin)
          then (Err (ResolverChanged (pin_resolver_id pin) resolver_id), pins)
          else if bool_decide (obs_addresses observation <> pin_addresses pin)
          then (Err (RebindingDetected host (pin_addresses pin) (obs_addresses observation)), pins)
          else
            (Ok Matched,
             <[key := {| pin_context_id := pin_context_id pin;
                         pin_host := pin_host pin;
                         pin_addresses := pin_addresses pin;
                         pin_resolver_id := pin_resolver_id pin;
                         first_observed_at_milliseconds := first_observed_at_milliseconds pin;
                         last_observed_at_milliseconds := obs_observed_at_milliseconds observation;
                         initial_ttl_seconds := initial_ttl_seconds pin;
                         latest_ttl_seconds := obs_ttl_seconds observation |}]> pins)
      | None =>
          (Ok Pinned,
           <[key := {| pin_context_id := context_id;
                       pin_host := host;
                       pin_addresses := obs_addresses observation;
                       pin_resolver_id := resolver_id;
                       first_observed_at_milliseconds := obs_observed_at_milliseconds observation;
                       last_observed_at_milliseconds := obs_observed_at_milliseconds observation;
                       initial_ttl_seconds := obs_ttl_seconds observation;
                       latest_ttl_seconds := obs_ttl_seconds observation |}]> pins)
      end
  end.

Definition dns_get (context_id host : str) (pins : DnsPinSet) : option DnsPin :=
  pins !! (normalize_identifier context_id, normalize_host host).

Definition retain_other_contexts (context : str) (pins : DnsPinSet) : DnsPinSet :=
  filter (fun kv => kv.1.1 <> context) pins.

(** [release_context]: the number of released pins and the remaining pins. *)
Definition release_context (context_id : str) (pins : DnsPinSet) : nat * DnsPinSet :=
  let normalized := normalize_identifier context_id in
  let before := size pins in
  let pins := retain_other_contexts normalized pins in
  ((before - size pins)%nat, pins).

(** ** Invariant *)

(** What every stored pin satisfies. *)
Definition pin_ok (key : str * str) (pin : DnsPin) : Prop :=
  pin_context_id pin = key.1 /\ pin_host pin = key.2
  /\ pin_addresses pin <> ∅
  /\ first_observed_at_milliseconds pin <= last_observed_at_milliseconds pin
  /\ normalize_identifier key.1 = key.1
  /\ forallb is_valid_label (split_byte 46 key.2) = true.

Definition pins_ok (pins : DnsPinSet) : Prop := map_Forall pin_ok pins.

Lemma validate_observation_ok o :
  validate_observation o = Ok tt ->
  is_valid_identifier (obs_context_id o) = true
  /\ is_valid_identifier (obs_resolver_id o) = true
  /\ is_valid_host (obs_host o) = true
  /\ obs_addresses o <> ∅.
Proof. unfold validate_observation. intros H. inv_ok H. by bools. Qed.

Lemma is_valid_host_labels h :
  is_valid_host h = true -> forallb is_valid_label (split_byte 46 (normalize_host h)) = true.
Proof. unfold is_valid_host. intros H. by step_in H. Qed.

Lemma pins_ok_new : pins_ok dns_new.
Proof. apply map_Forall_empty. Qed.

Lemma pin_or_validate_ok o pins r pins' :
  pins_ok pins -> pin_or_validate o pins = (r, pins') -> pins_ok pins'.
Proof.
  intros Hok H. unfold pin_or_validate in H.
  destruct (validate_observation o) as [[]|] eqn:Hv; [|by simplify_eq].
  apply validate_observation_ok in Hv as (Hc & Hr & Hh & Ha).
  repeat step_in H; simplify_eq; try done.
  - apply map_Forall_insert_2; [|done].
    destruct (Hok _ _ Heqo0) as (H1 & H2 & H3 & H4 & H5 & H6). bools.
    repeat split; cbn; auto; lia.
  - apply map_Forall_insert_2; [|done]. repeat split; cbn; auto; try done.
    + apply normalize_identifier_idemp.
    + by apply is_valid_host_labels.
Qed.

Lemma release_context_ok c pins : pins_ok pins -> pins_ok (release_context c pins).2.
Proof.
  intros Hok. cbn. unfold retain_other_contexts. intros k p [Hp _]%map_lookup_filter_Some.
  by apply Hok.
Qed.

(** An error leaves every pin as it was. *)
Lemma pin_or_validate_err o pins e pins' :
  pin_or_validate o pins = (Err e, pins') -> pins' = pins.
Proof. unfold pin_or_validate. intros H. repeat step_in H; by simplify_eq. Qed.

(** A successful call leaves the observed key pinned to the observed resolver and
    addresses, and touches no other key. *)
Lemma pin_or_validate_accepts o pins s pins' :
  pin_or_validate o pins = (Ok s, pins') ->
  (exists pin, dns_get (obs_context_id o) (obs_host o) pins' = Some pin
     /\ pin_addresses pin = obs_addresses o
     /\ pin_resolver_id pin = normalize_identifier (obs_resolver_id o)
     /\ last_observed_at_milliseconds pin = obs_observed_at_milliseconds o)
  /\ (forall key, key <> (normalize_identifier (obs_context_id o), normalize_host (obs_host o)) ->
        pins' !! key = pins !! key).
Proof.
  unfold pin_or_validate, dns_get. intros H. repeat step_in H; simplify_eq; bools.
  - split; [|intros; by rewrite lookup_insert_ne].
    rewrite lookup_insert_eq. eexists. split; [done|]. cbn.
    repeat match goal with HX : ~ (_ <> _) |- _ => apply dec_stable in HX end. auto.
  - split; [|intros; by rewrite lookup_insert_ne].
    rewrite lookup_insert_eq. eexists. done.
Qed.

(** ** Sequences of operations *)

Inductive DnsEvent : Type :=
  | Observe (observation : DnsObservation)
  | Release (context_id : str).

Definition dns_apply (e : DnsEvent) (pins : DnsPinSet) : DnsPinSet :=
  match e with
  | Observe o => (pin_or_validate o pins).2
  | Release c => (release_context c pins).2
  end.

Definition dns_run (events : list DnsEvent) (pins : DnsPinSet) : DnsPinSet :=
  fold_left (fun p e => dns_apply e p) events pins.

(** The event does not release context [c]. *)
Definition keeps_context (c : str) (e : DnsEvent) : Prop :=
  match e with Observe _ => True | Release c' => normalize_identifier c' <> c end.

(** What a pin may change while its context lives: only the last observation. *)
Definition pin_evolves (p q : DnsPin) : Prop :=
  pin_addresses q = pin_addresses p /\ pin_resolver_id q = pin_resolver_id p
  /\ first_observed_at_milliseconds q = first_observed_at_milliseconds p
  /\ initial_ttl_seconds q = initial_ttl_seconds p
  /\ last_observed_at_milliseconds p <= last_observed_at_milliseconds q.

#[export] Instance pin_evolves_preorder : PreOrder pin_evolves.
Proof.
  split.
  - intros p. repeat split; done.
  - intros p q r (A1 & A2 & A3 & A4 & A5) (B1 & B2 & B3 & B4 & B5).
    repeat split; try congruence. lia.
Qed.

Lemma pin_evolves_refl p : pin_evolves p p.
Proof. reflexivity. Qed.

Lemma dns_apply_evolves e c h pins pin :
  keeps_context c e -> pins !! (c, h) = Some pin ->
  exists pin', dns_apply e pins !! (c, h) = Some pin' /\ pin_evolves pin pin'.
Proof.
  intros Hk Hp. destruct e as [o|c']; cbn in *.
  - destruct (pin_or_validate o pins) as [r pins'] eqn:H. cbn.
    unfold pin_or_validate in H. repeat step_in H; simplify_eq; eauto using pin_evolves_refl.
    + destruct (decide ((normalize_identifier (obs_context_id o), normalize_host (obs_host o)) = (c, h)))
        as [E|E].
      * rewrite E in *. rewrite lookup_insert_eq. simplify_eq. eexists. split; [done|].
        bools. repeat split; done.
      * rewrite lookup_insert_ne by done. eauto using pin_evolves_refl.
    + rewrite lookup_insert_ne by congruence. eauto using pin_evolves_refl.
  - exists pin. split; [|done]. unfold retain_other_contexts.
    apply map_lookup_filter_Some. split; [done|]. cbn. congruence.
Qed.

Lemma dns_run_evolves events c h pins pin :
  Forall (keeps_context c) events -> pins !! (c, h) = Some pin ->
  exists pin', dns_run events pins !! (c, h) = Some pin' /\ pin_evolves pin pin'.
Proof.
  intros Hev. revert pins pin. induction Hev as [|e events Hk Hev IH]; intros pins pin Hp; cbn.
  - eauto using pin_evolves_refl.
  - destruct (dns_apply_evolves e c h pins pin Hk Hp) as (p1 & H1 & E1).
    destruct (IH _ _ H1) as (p2 & H2 & E2). exists p2. split; [done|]. by etrans.
Qed.

(** ** Properties *)

(** Every stored pin is well formed after any sequence of operations: it is
    stored under its own normalised context and host, the host is a valid DNS
    name, the address set is not empty, and its first observation is not after
    its last. *)
Theorem dns_pins_well_formed events : pins_ok (dns_run events dns_new).
Proof.
  assert (forall pins, pins_ok pins -> pins_ok (dns_run events pins)) as H.
  { induction events as [|[o|c] events IH]; intros pins Hok; cbn; [done| |].
    - apply IH. destruct (pin_or_validate o pins) as [r pins'] eqn:E.
      by eapply pin_or_validate_ok.
    - apply IH. by apply (release_context_ok c). }
  apply H, pins_ok_new.
Qed.

Definition example_observation (ip : N) (at_ms : N) : DnsObservation :=
  {| obs_context_id := "Navigation-1"; obs_host := "app.example.com";
     obs_addresses := {[ V4 ip ]}; obs_resolver_id := "system-resolver";
     obs_ttl_seconds := 60; obs_observed_at_milliseconds := at_ms |}.

(** DNS rebinding is impossible inside a context: if two observations for
    the same context and host are both accepted, whatever happened in between
    short of releasing the context, then they report the same address set and
    the same resolver, and the second is not older than the first. *)
Theorem dns_no_rebinding o1 o2 between pins pins1 pins2 s1 s2 :
  pin_or_validate o1 pins = (Ok s1, pins1) ->
  Forall (keeps_context (normalize_identifier (obs_context_id o1))) between ->
  pin_or_validate o2 (dns_run between pins1) = (Ok s2, pins2) ->
  normalize_identifier (obs_context_id o2) = normalize_identifier (obs_context_id o1) ->
  normalize_host (obs_host o2) = normalize_host (obs_host o1) ->
  obs_addresses o2 = obs_addresses o1
  /\ normalize_identifier (obs_resolver_id o2) = normalize_identifier (obs_resolver_id o1)
  /\ obs_observed_at_milliseconds o1 <= obs_observed_at_milliseconds o2.
Proof.
  intros H1 Hb H2 Hc Hh.
  apply pin_or_validate_accepts in H1 as [(p1 & G1 & A1 & R1 & L1) _].
  unfold dns_get in G1. set (c := normalize_identifier (obs_context_id o1)) in *.
  set (h := normalize_host (obs_host o1)) in *.
  destruct (dns_run_evolves _ _ _ _ _ Hb G1) as (p2 & G2 & E2).
  destruct (dns_apply_evolves (Observe o2) c h _ p2 I G2) as (p3 & G3 & E3).
  pose proof (pin_or_validate_accepts _ _ _ _ H2) as [(p4 & G4 & A4 & R4 & L4) _].
  cbn in G3. rewrite H2 in G3. cbn in G3. unfold dns_get in G4. rewrite Hc, Hh in G4.
  assert (p4 = p3) as -> by congruence.
  destruct (transitivity E2 E3) as (B1 & B2 & _ & _ & B5).
  repeat split; congruence.
Qed.

Definition example_pins : DnsPinSet :=
  (pin_or_validate (example_observation 16843009 10) dns_new).2.
Definition example_between : list DnsEvent :=
  [Release "navigation-2"; Observe (example_observation 134744072 15)].
Definition example_pins' : DnsPinSet :=
  (pin_or_validate (example_observation 16843009 20) (dns_run example_between example_pins)).2.

Lemma dns_no_rebinding_witness :
  obs_addresses (example_observation 16843009 20) = obs_addresses (example_observation 16843009 10).
Proof.
  apply (dns_no_rebinding (example_observation 16843009 10) (example_observation 16843009 20)
    example_between dns_new example_pins example_pins' Pinned Matched).
  - apply pair_of_fst. vm_compute. reflexivity.
  - repeat constructor. vm_compute. discriminate.
  - apply pair_of_fst. vm_compute. reflexivity.
  - reflexivity.
  - reflexivity.
Defined.

(** Releasing a context removes exactly the pins of that context, reports
    their number, and makes the next valid observation for it a fresh pin. *)
Theorem release_context_exact c pins n pins' :
  release_context c pins = (n, pins') ->
  (forall ctx h, pins' !! (ctx, h)
     = if decide (ctx = normalize_identifier c) then None else pins !! (ctx, h))
  /\ n = size (filter (fun kv : (str * str) * DnsPin => kv.1.1 = normalize_identifier c) pins)
  /\ (forall o, validate_observation o = Ok tt ->
        normalize_identifier (obs_context_id o) = normalize_identifier c ->
        (pin_or_validate o pins').1 = Ok Pinned).
Proof.
  intros H. unfold release_context in H. injection H as <- <-. unfold retain_other_contexts.
  assert (forall ctx h, filter (fun kv : (str * str) * DnsPin => kv.1.1 <> normalize_identifier c) pins !! (ctx, h)
     = if decide (ctx = normalize_identifier c) then None else pins !! (ctx, h)) as Hl.
  { intros ctx h. rewrite map_lookup_filter. destruct (pins !! (ctx, h)) as [p|]; cbn; [|by case_decide].
    case_decide as E; cbn in *; repeat case_guard || case_decide; naive_solver. }
  split; [done|split].
  - rewrite <- (map_filter_union_complement (fun kv : (str * str) * DnsPin => kv.1.1 = normalize_identifier c) pins) at 1.
    rewrite map_size_disj_union by apply map_disjoint_filter_complement. lia.
  - intros o Hv Hc. unfold pin_or_validate. rewrite Hv, Hl, Hc, decide_True by done. done.
Qed.

Lemma release_context_exact_witness :
  release_context " NAVIGATION-1 " (dns_run [Observe (example_observation 16843009 10)] dns_new) = (1%nat, ∅)
  /\ (pin_or_validate (example_observation 134744072 20) (∅ : DnsPinSet)).1 = Ok Pinned.
Proof.
  assert (release_context " NAVIGATION-1 " (dns_run [Observe (example_observation 16843009 10)] dns_new) = (1%nat, ∅))
    as H by (vm_compute; reflexivity).
  split; [exact H|].
  apply (release_context_exact _ _ _ _ H); vm_compute; reflexivity.
Defined.
