(* ===== verification/Budget.v ===== *)
(** * Request budgets ([crates/nxb-budget])

    A token bucket with a total budget and a concurrency bound. The token count
    is an [f64]; [try_start] may panic, because [Duration::from_secs_f64] does. *)

From S2P Require Import Prelude Float64.
Local Open Scope N_scope.

(** ** Model *)

Record RequestBudget : Type := {
  remaining : N;
  budget_max_concurrency : N;
  in_flight : N;
  tokens : f64;
  token_capacity : f64;
  refill_per_second : f64;
  last_refill : Duration
}.

Inductive BudgetError : Type :=
  | Exhausted
  | ConcurrencyExceeded
  | RateLimited (retry_after : Duration)
  | InvalidConfiguration (message : str).

Definition budget_new (maximum_total_requests maximum_concurrency : N) (requests_per_second : f64)
    : Result RequestBudget BudgetError :=
  if maximum_total_requests =? 0 then
    Err (InvalidConfiguration "maximum_total_requests must be greater than zero")
  else if maximum_concurrency =? 0 then
    Err (InvalidConfiguration "maximum_concurrency must be greater than zero")
  else if negb (is_finite requests_per_second) || f64_le requests_per_second f64_zero then
    Err (InvalidConfiguration "requests_per_second must be finite and greater than zero")
  else
    let token_capacity := f64_max requests_per_second f64_one in
    Ok {| remaining := maximum_total_requests;
          budget_max_concurrency := maximum_concurrency;
          in_flight := 0;
          tokens := token_capacity;
          token_capacity := token_capacity;
          refill_per_second := requests_per_second;
          last_refill := 0 |}.

Definition refill (elapsed : Duration) (self : RequestBudget) : RequestBudget :=
  if elapsed <=? last_refill self then self
  else
    let delta := elapsed - last_refill self in
    {| remaining := remaining self;
       budget_max_concurrency := budget_max_concurrency self;
       in_flight := in_flight self;
       tokens := f64_min (f64_add (tokens self) (f64_mul (as_secs_f64 delta) (refill_per_second self)))
                         (token_capacity self);
       token_capacity := token_capacity self;
       refill_per_second := refill_per_second self;
       last_refill := elapsed |}.

(** The budget after the call is returned also when the call fails: the refill
    has happened. *)
Definition try_start (elapsed : Duration) (self : RequestBudget)
    : Run (Result unit BudgetError * RequestBudget) :=
  let self := refill elapsed self in
  if remaining self =? 0 then Done (Err Exhausted, self)
  else if budget_max_concurrency self <=? in_flight self then Done (Err ConcurrencyExceeded, self)
  else if f64_lt (tokens self) f64_one then
    let missing := f64_sub f64_one (tokens self) in
    let retry_seconds := f64_div missing (refill_per_second self) in
    let! retry_after := from_secs_f64 retry_seconds in
    Done (Err (RateLimited retry_after), self)
  else
    Done (Ok tt, {| remaining := remaining self - 1;
                    budget_max_concurrency := budget_max_concurrency self;
                    in_flight := in_flight self + 1;
                    tokens := f64_sub (tokens self) f64_one;
                    token_capacity := token_capacity self;
                    refill_per_second := refill_per_second self;
                    last_refill := last_refill self |}).

(** [saturating_sub] is subtraction on [N]. *)
Definition finish (self : RequestBudget) : RequestBudget :=
  {| remaining := remaining self;
     budget_max_concurrency := budget_max_concurrency self;
     in_flight := in_flight self - 1;
     tokens := tokens self;
     token_capacity := token_capacity self;
     refill_per_second := refill_per_second self;
     last_refill := last_refill self |}.

(** ** Invariant *)

Record budget_ok (b : RequestBudget) : Prop := {
  bo_in_flight : in_flight b <= budget_max_concurrency b;
  bo_tokens : is_nan (tokens b) = false;
  bo_capacity : is_finite (token_capacity b) = true;
  bo_capacity_one : f64_le f64_one (token_capacity b) = true;
  bo_refill : is_finite (refill_per_second b) = true
}.

Lemma f64_not_lt_ge x y :
  is_nan x = false -> is_nan y = false -> f64_lt x y = false -> f64_le y x = true.
Proof. intros. by apply f64_not_gt_le. Qed.

Lemma budget_new_ok total conc rate b :
  budget_new total conc rate = Ok b ->
  budget_ok b /\ remaining b = total /\ budget_max_concurrency b = conc /\ in_flight b = 0
  /\ 0 < total /\ 0 < conc /\ is_finite rate = true.
Proof.
  unfold budget_new. intros H. inv_ok H. bools. cbn.
  assert (is_finite (f64_max rate f64_one) = true) by (by apply f64_max_finite).
  repeat split; cbn; auto; try lia.
  - by apply is_finite_not_nan.
  - by apply f64_max_ge_r.
Qed.

Lemma refill_ok d b : budget_ok b -> budget_ok (refill d b).
Proof.
  intros []. unfold refill. case_match; [done|]. constructor; cbn; auto.
  apply f64_min_le_r. by apply is_finite_not_nan.
Qed.

(** A refill touches nothing but the tokens and the clock. *)
Lemma refill_frame d b :
  remaining (refill d b) = remaining b /\ in_flight (refill d b) = in_flight b
  /\ budget_max_concurrency (refill d b) = budget_max_concurrency b.
Proof. unfold refill. by case_match. Qed.

(** A refill that happens leaves at most the capacity. *)
Lemma refill_bounded d b :
  budget_ok b -> last_refill b < d -> f64_le (tokens (refill d b)) (token_capacity b) = true.
Proof.
  intros [] Hd. unfold refill. rewrite (proj2 (N.leb_gt _ _)) by done. cbn.
  apply f64_min_le_r. by apply is_finite_not_nan.
Qed.

Lemma try_start_started d b b' :
  try_start d b = Done (Ok tt, b') ->
  0 < remaining b /\ in_flight b < budget_max_concurrency b
  /\ f64_lt (tokens (refill d b)) f64_one = false
  /\ remaining b' = remaining b - 1 /\ in_flight b' = in_flight b + 1
  /\ budget_max_concurrency b' = budget_max_concurrency b
  /\ tokens b' = f64_sub (tokens (refill d b)) f64_one.
Proof.
  unfold try_start. destruct (refill_frame d b) as (Hr & Hi & Hc). intros H.
  rewrite Hr, Hi, Hc in H. repeat step_in H. simplify_eq. bools. cbn. repeat split; auto; lia.
Qed.

Lemma try_start_refused d b e b' : try_start d b = Done (Err e, b') -> b' = refill d b.
Proof. unfold try_start. intros H. repeat step_in H; by simplify_eq. Qed.

(** The only way a call does not return. *)
Lemma try_start_panic d b msg :
  try_start d b = Panic msg ->
  msg = ("can not convert float seconds to Duration" : str)
  /\ f64_lt (tokens (refill d b)) f64_one = true
  /\ try_from_secs_f64 (f64_div (f64_sub f64_one (tokens (refill d b)))
                               (refill_per_second (refill d b))) = None.
Proof.
  unfold try_start, from_secs_f64. intros H. repeat step_in H; by simplify_eq.
Qed.

Lemma try_start_not_invalid d b m b' : try_start d b <> Done (Err (InvalidConfiguration m), b').
Proof. unfold try_start. intros H. repeat step_in H; by simplify_eq. Qed.

Lemma try_start_ok d b r b' : budget_ok b -> try_start d b = Done (r, b') -> budget_ok b'.
Proof.
  intros Hb H. destruct r as [[]|e].
  - unfold try_start in H. pose proof (refill_ok d b Hb) as []. repeat step_in H. simplify_eq. bools.
    constructor; cbn; auto; [lia|]. by apply f64_sub_not_nan.
  - apply try_start_refused in H as ->. by apply refill_ok.
Qed.

Lemma finish_ok b : budget_ok b -> budget_ok (finish b).
Proof. intros []. constructor; cbn; auto. lia. Qed.

(** ** Traces *)

Inductive BudgetEvent : Type :=
  | Started
  | Refused (error : BudgetError)
  | Finished.

(** One call on the budget that returns. *)
Inductive budget_step : RequestBudget -> BudgetEvent -> RequestBudget -> Prop :=
  | step_started d b b' :
      try_start d b = Done (Ok tt, b') -> budget_step b Started b'
  | step_refused d b b' e :
      try_start d b = Done (Err e, b') -> budget_step b (Refused e) b'
  | step_finished b : budget_step b Finished (finish b).

Inductive budget_trace : RequestBudget -> list BudgetEvent -> RequestBudget -> Prop :=
  | trace_nil b : budget_trace b [] b
  | trace_step b b' b'' e es :
      budget_step b e b' -> budget_trace b' es b'' -> budget_trace b (e :: es) b''.

Definition is_started (e : BudgetEvent) : bool := match e with Started => true | _ => false end.
Definition is_finished (e : BudgetEvent) : bool := match e with Finished => true | _ => false end.
Definition count_events (p : BudgetEvent -> bool) (es : list BudgetEvent) : N :=
  len (List.filter p es).

Lemma budget_trace_accounting b es b' :
  budget_ok b -> budget_trace b es b' ->
  budget_ok b'
  /\ budget_max_concurrency b' = budget_max_concurrency b
  /\ count_events is_started es + remaining b' = remaining b
  /\ in_flight b + count_events is_started es <= in_flight b' + count_events is_finished es.
Proof.
  intros Hb H. induction H as [b|b b1 b2 e es Hs Ht IH].
  - cbn. unfold count_events. cbn. repeat split; auto using Hb; try apply Hb; lia.
  - unfold count_events in *. destruct Hs as [d b b1 H|d b b1 e H|b]; cbn [List.filter is_started is_finished].
    + pose proof (try_start_ok _ _ _ _ Hb H) as Hb1. specialize (IH Hb1) as (I1 & I2 & I3 & I4).
      apply try_start_started in H as (? & ? & _ & ? & ? & ? & _).
      rewrite len_cons. repeat split; try apply I1; try congruence; lia.
    + pose proof (try_start_ok _ _ _ _ Hb H) as Hb1. specialize (IH Hb1) as (I1 & I2 & I3 & I4).
      apply try_start_refused in H as ->. destruct (refill_frame d b) as (Hr & Hi & Hc).
      rewrite Hr, Hi, Hc in *. auto.
    + specialize (IH (finish_ok _ Hb)) as (I1 & I2 & I3 & I4). cbn in *.
      rewrite len_cons. repeat split; try apply I1; auto; lia.
Qed.

(** ** Properties *)

(** Over every sequence of calls on a fresh budget, the successful starts and
    the remaining budget always sum to the configured total, the requests in
    flight never exceed the configured concurrency and are at least the starts
    not yet finished, and the token count is never a NaN (so the rate gate is
    never bypassed by a failed comparison). *)
Theorem budget_accounting total conc rate b es b' :
  budget_new total conc rate = Ok b -> budget_trace b es b' ->
  count_events is_started es + remaining b' = total
  /\ in_flight b' <= conc
  /\ count_events is_started es <= in_flight b' + count_events is_finished es
  /\ is_nan (tokens b') = false.
Proof.
  intros Hn Ht. destruct (budget_new_ok _ _ _ _ Hn) as (Hb & Hr & Hc & Hi & _).
  destruct (budget_trace_accounting _ _ _ Hb Ht) as ([] & H2 & H3 & H4).
  repeat split; [lia | congruence || lia | lia | done].
Qed.

Definition example_budget : RequestBudget :=
  {| remaining := 3; budget_max_concurrency := 2; in_flight := 0; tokens := f64_of_N 2;
     token_capacity := f64_of_N 2; refill_per_second := f64_of_N 2; last_refill := 0 |}.

(** The budget after a call of [try_start] that returns. *)
Definition after_start (d : Duration) (b : RequestBudget) : RequestBudget :=
  match try_start d b with Done (_, b') => b' | Panic _ => b end.

Definition example_started : RequestBudget := after_start 5 (after_start 0 example_budget).

Lemma budget_accounting_witness :
  count_events is_started [Started; Started; Refused ConcurrencyExceeded; Finished]
    + remaining (finish (after_start 6 example_started)) = 3.
Proof.
  apply (budget_accounting 3 2 (f64_of_N 2) example_budget
    [Started; Started; Refused ConcurrencyExceeded; Finished]).
  - vm_compute. reflexivity.
  - apply (trace_step _ (after_start 0 example_budget));
      [apply (step_started 0); vm_compute; reflexivity|].
    apply (trace_step _ example_started); [apply (step_started 5); vm_compute; reflexivity|].
    apply (trace_step _ (after_start 6 example_started));
      [apply (step_refused 6); vm_compute; reflexivity|].
    apply (trace_step _ (finish (after_start 6 example_started))); [apply step_finished|].
    apply trace_nil.
Defined.

(** A rate of [1e-30] requests per second. *)
Definition tiny_rate : f64 := f64_div f64_one (f64_of_N (10 ^ 30)).

(** [try_start] can abort the process: [new] accepts every positive finite
    rate, but for a tiny one the waiting time of the second request does not fit
    a [Duration], and [Duration::from_secs_f64] panics where the code means to
    return [RateLimited]. *)
Theorem try_start_panics_for_tiny_rate :
  match budget_new 100 4 tiny_rate with
  | Ok b =>
      match try_start 0 b with
      | Done (Ok _, b') => try_start 1000000000 b' = Panic "can not convert float seconds to Duration"
      | _ => False
      end
  | Err _ => False
  end.
Proof. vm_compute. reflexivity. Qed.
