(* ===== verification/HashChain.v ===== *)
(** * Tamper-evident hash chains

    The audit trails of [nxb-audit], [nxb-executor], [nxb-stream] and
    [nxb-http1] are the same data structure over different event types: a vector
    of records, each holding its sequence number, the hash of its predecessor,
    its event and the SHA-256 of the JSON of the three. The operations are
    modelled once over the event type and instantiated per crate. The crates
    [sha2] and [serde_json] are parameters. *)

From S2P Require Import Prelude ByteStr.
Local Open Scope N_scope.

(** ** Third-party code *)

(** [sha2::Sha256::digest]. *)
Class Sha256Lib : Type := { sha256 : str -> str }.

(** A SHA-256 digest has 32 bytes. *)
Class Sha256Laws `{Sha256Lib} : Prop := { sha256_length : forall s, len (sha256 s) = 32 }.

(** Two different texts, one of each list, have the same digest. *)
Definition texts_collide `{Sha256Lib} (xs ys : list str) : Prop :=
  exists x y, x ∈ xs /\ y ∈ ys /\ x <> y /\ sha256 x = sha256 y.

(** The struct that is serialised for hashing. *)
Record HashMaterial (Event : Type) : Type := {
  material_sequence : N;
  material_previous_hash : str;
  material_event : Event
}.
Arguments Build_HashMaterial {Event} _ _ _.
Arguments material_sequence {Event} _.
Arguments material_previous_hash {Event} _.
Arguments material_event {Event} _.

(** [serde_json::to_vec]; an error is its message. *)
Class JsonLib (A : Type) : Type := { to_vec : A -> Result str str }.

(** [to_vec] fails only where a [Serialize] implementation reports an error or a
    map key is not a string, neither of which the derived implementations of the
    audit structs do: serialising them succeeds. *)
Class JsonTotal (A : Type) `{JsonLib A} : Prop := {
  to_vec_total : forall a : A, exists bytes, to_vec a = Ok bytes
}.

(** ** Model *)

Record ChainRecord (Event : Type) : Type := {
  sequence : N;
  previous_hash : str;
  event : Event;
  record_hash : str
}.
Arguments Build_ChainRecord {Event} _ _ _ _.
Arguments sequence {Event} _.
Arguments previous_hash {Event} _.
Arguments event {Event} _.
Arguments record_hash {Event} _.

(** The anchor is the hash the first record points to: a constant in
    [nxb-audit] and [nxb-executor], a field in [nxb-stream] and [nxb-http1]. *)
Record HashChain (Event : Type) : Type := {
  genesis_hash : str;
  records : list (ChainRecord Event);
  tail_hash : str
}.
Arguments Build_HashChain {Event} _ _ _.
Arguments genesis_hash {Event} _.
Arguments records {Event} _.
Arguments tail_hash {Event} _.

Inductive ChainError : Type :=
  | InvalidGenesisHash
  | Serialization (message : str)
  | SequenceMismatch (record_index : N)
  | PreviousHashMismatch (record_index : N)
  | RecordHashMismatch (record_index : N)
  | TailHashMismatch.

Definition GENESIS_HASH : str := replicate 64 "0"%char.

Section Chain.
Context {Event : Type} `{Sha256Lib} `{JsonLib (HashMaterial Event)}.

Definition hash_material (sequence : N) (previous_hash : str) (event : Event)
    : Result str ChainError :=
  let? bytes := map_err Serialization
    (to_vec {| material_sequence := sequence;
               material_previous_hash := previous_hash;
               material_event := event |}) in
  Ok (to_lower_hex (sha256 bytes)).

Definition chain_new (genesis : str) : HashChain Event :=
  {| genesis_hash := genesis; records := []; tail_hash := genesis |}.

(** The constructor of the anchored chains. *)
Definition chain_new_anchored (genesis : str) : Result (HashChain Event) ChainError :=
  if negb (is_lower_hex_sha256 genesis) then Err InvalidGenesisHash else Ok (chain_new genesis).

Definition chain_append (event : Event) (chain : HashChain Event)
    : Result (ChainRecord Event) ChainError * HashChain Event :=
  let sequence := len (records chain) + 1 in
  let previous_hash := tail_hash chain in
  match hash_material sequence previous_hash event with
  | Err error => (Err error, chain)
  | Ok record_hash =>
      let record := {| sequence := sequence; previous_hash := previous_hash;
                       event := event; record_hash := record_hash |} in
      (Ok record, {| genesis_hash := genesis_hash chain;
                     records := records chain ++ [record];
                     tail_hash := record_hash |})
  end.

(** The loop of [verify]: returns the last expected hash. *)
Fixpoint verify_records (index : N) (expected_previous : str) (l : list (ChainRecord Event))
    : Result str ChainError :=
  match l with
  | [] => Ok expected_previous
  | record :: rest =>
      if negb (sequence record =? index + 1) then Err (SequenceMismatch index)
      else if bool_decide (previous_hash record <> expected_previous)
      then Err (PreviousHashMismatch index)
      else
        let? expected_hash :=
          hash_material (sequence record) (previous_hash record) (event record) in
        if bool_decide (record_hash record <> expected_hash) then Err (RecordHashMismatch index)
        else verify_records (index + 1) expected_hash rest
  end.

Definition chain_verify (chain : HashChain Event) : Result unit ChainError :=
  let? expected_previous := verify_records 0 (genesis_hash chain) (records chain) in
  if bool_decide (tail_hash chain <> expected_previous) then Err TailHashMismatch else Ok tt.

(** ** What [verify] accepts *)

(** A record that hashes to its own [record_hash]. *)
Definition record_sound (r : ChainRecord Event) : Prop :=
  hash_material (sequence r) (previous_hash r) (event r) = Ok (record_hash r).

(** Hash of the last record, or the anchor. *)
Definition last_hash (anchor : str) (l : list (ChainRecord Event)) : str :=
  match last l with Some r => record_hash r | None => anchor end.

Inductive linked : N -> str -> list (ChainRecord Event) -> Prop :=
  | linked_nil n h : linked n h []
  | linked_cons n h r l :
      sequence r = n + 1 -> previous_hash r = h -> record_sound r ->
      linked (n + 1) (record_hash r) l -> linked n h (r :: l).

Definition chain_ok (c : HashChain Event) : Prop :=
  linked 0 (genesis_hash c) (records c) /\ tail_hash c = last_hash (genesis_hash c) (records c).

Lemma last_hash_cons h r l : last_hash h (r :: l) = last_hash (record_hash r) l.
Proof. unfold last_hash. rewrite last_cons. by destruct (last l). Qed.

Lemma verify_records_spec l : forall n h h',
  verify_records n h l = Ok h' <-> linked n h l /\ h' = last_hash h l.
Proof.
  induction l as [|r l IH]; intros n h h'; simpl; split.
  - intros [= <-]. split; [constructor|done].
  - intros [_ ->]. done.
  - intros Hv. inv_ok Hv. bools. apply dec_stable in Heqb0, Heqb1. subst.
    apply IH in Hv as [Hl ->]. rewrite last_hash_cons. split; [|done].
    by constructor.
  - intros [Hl ->]. inversion Hl as [|? ? ? ? Hs Hp Hr Hl']; subst.
    rewrite Hs, N.eqb_refl. simpl. rewrite bool_decide_eq_false_2 by naive_solver.
    unfold record_sound in Hr. rewrite Hs in Hr. rewrite Hr. rewrite bool_decide_eq_false_2 by naive_solver.
    apply IH. rewrite last_hash_cons. auto.
Qed.

(** [verify] succeeds exactly on well-formed chains. *)
Lemma chain_verify_spec c : chain_verify c = Ok tt <-> chain_ok c.
Proof.
  unfold chain_verify, chain_ok.
  destruct (verify_records 0 (genesis_hash c) (records c)) as [h|e] eqn:E.
  - apply verify_records_spec in E as [Hl ->]. case_bool_decide; naive_solver.
  - split; [done|]. intros [Hl Ht].
    assert (verify_records 0 (genesis_hash c) (records c)
      = Ok (last_hash (genesis_hash c) (records c))) by (by apply verify_records_spec).
    congruence.
Qed.

Lemma linked_snoc n h l r :
  linked n h (l ++ [r]) <->
  linked n h l /\ sequence r = n + len l + 1 /\ previous_hash r = last_hash h l /\ record_sound r.
Proof.
  revert n h. induction l as [|x l IH]; intros n h; simpl.
  - rewrite len_nil, N.add_0_r. split.
    + intros Hl. inversion Hl; subst. split; [constructor|done].
    + intros (_ & ? & ? & ?). constructor; auto. constructor.
  - rewrite last_hash_cons, len_cons. split.
    + intros Hl. inversion Hl as [|? ? ? ? ? ? ? Hl']; subst. apply IH in Hl' as (? & ? & ? & ?).
      repeat split; auto; [by constructor | lia].
    + intros (Hl & Hs & ? & ?). inversion Hl; subst. constructor; auto.
      apply IH. repeat split; auto. lia.
Qed.

Lemma last_hash_snoc h l r : last_hash h (l ++ [r]) = record_hash r.
Proof. unfold last_hash. by rewrite last_snoc. Qed.

Lemma chain_new_ok g : chain_ok (chain_new g).
Proof. split; [constructor|done]. Qed.

(** ** Appending *)

Lemma chain_append_spec e c r c' :
  chain_append e c = (r, c') ->
  match r with
  | Ok rec =>
      records c' = records c ++ [rec] /\ event rec = e /\ sequence rec = len (records c) + 1
      /\ previous_hash rec = tail_hash c /\ tail_hash c' = record_hash rec /\ record_sound rec
      /\ genesis_hash c' = genesis_hash c
  | Err _ => c' = c
  end.
Proof. unfold chain_append, record_sound. intros Ha. repeat step_in Ha; simplify_eq; naive_solver. Qed.

Lemma chain_append_ok e c r c' : chain_ok c -> chain_append e c = (r, c') -> chain_ok c'.
Proof.
  intros Hok Ha. apply chain_append_spec in Ha. destruct r as [rec|err]; [|by subst].
  destruct Hok as [Hl Ht], Ha as (Hr & _ & Hs & Hp & Htl & Hsnd & Hg).
  unfold chain_ok. rewrite Hr, Hg, Htl, last_hash_snoc. split; [|done].
  apply linked_snoc. repeat split; auto; congruence.
Qed.

Lemma chain_append_total `{!JsonTotal (HashMaterial Event)} e c :
  exists rec c', chain_append e c = (Ok rec, c').
Proof.
  unfold chain_append, hash_material. destruct (to_vec_total (Build_HashMaterial (len (records c) + 1) (tail_hash c) e)) as [b ->].
  simpl. eauto.
Qed.

(** With a digest of 32 bytes every hash of a chain is a lower-case SHA-256. *)
Lemma record_sound_hex `{!Sha256Laws} r : record_sound r -> is_lower_hex_sha256 (record_hash r) = true.
Proof.
  unfold record_sound, hash_material. intros Hs. destruct (map_err _ _) as [bytes|]; [|done].
  injection Hs as <-. apply to_lower_hex_sha256. pose proof (sha256_length bytes) as Hl. unfold len in Hl. lia.
Qed.

Lemma appended_hash_hex `{!Sha256Laws} e c r c' :
  chain_append e c = (Ok r, c') -> is_lower_hex_sha256 (record_hash r) = true.
Proof. intros (_ & _ & _ & _ & _ & Hs & _)%chain_append_spec. by apply record_sound_hex. Qed.

Lemma linked_last_hex `{!Sha256Laws} n h l :
  linked n h l -> is_lower_hex_sha256 h = true -> is_lower_hex_sha256 (last_hash h l) = true.
Proof.
  induction 1 as [n h|]; intros Hh; [done|]. rewrite last_hash_cons. eauto using record_sound_hex.
Qed.

Lemma chain_tail_hex `{!Sha256Laws} c :
  chain_ok c -> is_lower_hex_sha256 (genesis_hash c) = true -> is_lower_hex_sha256 (tail_hash c) = true.
Proof. intros [Hl ->] Hg. by eapply linked_last_hex. Qed.

(** Appending a list of events, stopping at the first error. *)
Fixpoint append_all (events : list Event) (c : HashChain Event) : Result (HashChain Event) ChainError :=
  match events with
  | [] => Ok c
  | e :: rest =>
      match chain_append e c with
      | (Ok _, c') => append_all rest c'
      | (Err error, _) => Err error
      end
  end.

Lemma append_all_linked l : forall c,
  linked (len (records c)) (tail_hash c) l ->
  append_all (event <$> l) c
    = Ok {| genesis_hash := genesis_hash c; records := records c ++ l;
            tail_hash := last_hash (tail_hash c) l |}.
Proof.
  induction l as [|r l IH]; intros c Hl; simpl.
  - rewrite app_nil_r. by destruct c.
  - inversion Hl as [|? ? ? ? Hs Hp Hr Hl']; subst. unfold chain_append.
    unfold record_sound in Hr. rewrite <- Hs, <- Hp, Hr. rewrite IH; simpl.
    + rewrite <- app_assoc, last_hash_cons. simpl. by destruct r.
    + rewrite len_app. exact Hl'.
Qed.

Lemma append_all_ok events : forall c c', chain_ok c -> append_all events c = Ok c' -> chain_ok c'.
Proof.
  induction events as [|e events IH]; intros c c' Hok Ha; simpl in Ha; [by simplify_eq|].
  destruct (chain_append e c) as [[r|err] c1] eqn:E; [|done].
  eapply IH; [|done]. by eapply chain_append_ok.
Qed.

(** ** Comparing two accepted chains *)

(** Two different materials with the same hash. *)
Definition collision (r1 r2 : ChainRecord Event) : Prop :=
  record_sound r1 /\ record_sound r2 /\ record_hash r1 = record_hash r2
  /\ (sequence r1, previous_hash r1, event r1) <> (sequence r2, previous_hash r2, event r2).

Lemma record_eq_or_collision `{EqDecision Event} r1 r2 :
  record_sound r1 -> record_sound r2 -> record_hash r1 = record_hash r2 ->
  r1 = r2 \/ collision r1 r2.
Proof.
  intros H1 H2 Hh. unfold collision. destruct r1 as [s1 p1 e1 h1], r2 as [s2 p2 e2 h2]. simpl in *.
  subst. destruct (decide ((s1, p1, e1) = (s2, p2, e2))); [left; congruence|right; auto].
Qed.

(** Where the chains [l1] and [l2] disagree although they end in the same hash. *)
Definition hash_break (anchor : str) (l1 l2 : list (ChainRecord Event)) : Prop :=
  (exists r1 r2, r1 ∈ l1 /\ r2 ∈ l2 /\ collision r1 r2)
  \/ (exists r, (r ∈ l1 \/ r ∈ l2) /\ record_sound r /\ record_hash r = anchor).

Lemma linked_same_tail `{EqDecision Event} anchor l1 l2 :
  linked 0 anchor l1 -> linked 0 anchor l2 ->
  last_hash anchor l1 = last_hash anchor l2 ->
  l1 = l2 \/ hash_break anchor l1 l2.
Proof.
  revert l2. induction l1 as [|r1 l1 IH] using rev_ind; intros l2;
    destruct l2 as [|r2 l2 _] using rev_ind; intros Hl1 Hl2 Ht.
  - by left.
  - right. right. apply linked_snoc in Hl2 as (_ & _ & _ & ?). rewrite last_hash_snoc in Ht.
    exists r2. split; [set_solver|]. auto.
  - right. right. apply linked_snoc in Hl1 as (_ & _ & _ & ?). rewrite last_hash_snoc in Ht.
    exists r1. split; [set_solver|]. auto.
  - apply linked_snoc in Hl1 as (Hl1 & Hs1 & Hp1 & Hr1).
    apply linked_snoc in Hl2 as (Hl2 & Hs2 & Hp2 & Hr2). rewrite !last_hash_snoc in Ht.
    destruct (record_eq_or_collision r1 r2 Hr1 Hr2 Ht) as [<-|Hc].
    + destruct (IH l2 Hl1 Hl2 ltac:(congruence)) as [->|[(x & y & ? & ? & ?)|(x & ? & ?)]].
      * by left.
      * right. left. exists x, y. set_solver.
      * right. right. exists x. set_solver.
    + right. left. exists r1, r2. set_solver.
Qed.

End Chain.

Arguments collision {Event _ _} _ _.
Arguments record_sound {Event _ _} _.
#[export] Hint Resolve chain_new_ok chain_append_ok : rust.

(** ** Concrete parameters for the examples *)

(** A 32-byte checksum in place of the digest. *)
Definition checksum (s : str) : byte :=
  ascii_of_N (fold_left (fun acc c => (acc * 31 + N_of_ascii c + 7) mod 256) s 0).
Definition toy_sha256 : Sha256Lib := {| sha256 s := replicate 32 (checksum s) |}.

Lemma toy_sha256_laws : @Sha256Laws toy_sha256.
Proof. constructor. intros s. reflexivity. Qed.

(** A serializer given by what it prints of the event. *)
Definition toy_json {Event} (show : Event -> str) : JsonLib (HashMaterial Event) :=
  {| to_vec m := Ok (decimal (material_sequence m) ++ ("," : str) ++ material_previous_hash m
                       ++ ("," : str) ++ show (material_event m)) |}.

Lemma toy_json_total {Event} (show : Event -> str) : @JsonTotal _ (toy_json show).
Proof. constructor. intros m. simpl. eauto. Qed.

(** ** Properties *)

(** [verify] accepts a chain exactly when the chain was produced by
    appending events one after the other to the fresh chain of its anchor: no
    sequence gap, broken link, stale record hash or foreign tail is accepted, and
    no chain the program builds is rejected. *)
Theorem verify_accepts_exactly_appended {Event} `{Sha256Lib} `{JsonLib (HashMaterial Event)}
    (c : HashChain Event) :
  chain_verify c = Ok tt <-> exists events, append_all events (chain_new (genesis_hash c)) = Ok c.
Proof.
  rewrite chain_verify_spec. split.
  - intros [Hl Ht]. exists (event <$> records c).
    rewrite (append_all_linked (records c) (chain_new (genesis_hash c)) Hl). simpl.
    destruct c. simpl in *. by subst.
  - intros [events Ha]. by apply (append_all_ok events _ _ (chain_new_ok _) Ha).
Qed.

(** C16: the anchor and the tail hash determine an accepted chain: two accepted
    chains with the same anchor and the same tail hold the same records, unless
    two different records of theirs hash to the same value or a record hashes to
    the anchor. No assumption on the hash or on the serializer is made. *)
Theorem chain_tamper_evident {Event} `{Sha256Lib} `{JsonLib (HashMaterial Event)}
    `{EqDecision Event} (c1 c2 : HashChain Event) :
  chain_verify c1 = Ok tt -> chain_verify c2 = Ok tt ->
  genesis_hash c1 = genesis_hash c2 -> tail_hash c1 = tail_hash c2 ->
  records c1 = records c2
  \/ (exists r1 r2, r1 ∈ records c1 /\ r2 ∈ records c2 /\ collision r1 r2)
  \/ (exists r, (r ∈ records c1 \/ r ∈ records c2)
        /\ record_sound r /\ record_hash r = genesis_hash c1).
Proof.
  rewrite !chain_verify_spec. intros [Hl1 Ht1] [Hl2 Ht2] Hg Ht. rewrite <- Hg in *.
  apply linked_same_tail; congruence.
Qed.

(** A serializer that drops the event: two chains with different events and the
    same tail, where the theorem exhibits the colliding records. *)
Definition lossy_json : JsonLib (HashMaterial N) := toy_json (fun _ => []).
Definition lossy_chain (e : N) : HashChain N :=
  (chain_append (H := toy_sha256) (H0 := lossy_json) e (chain_new GENESIS_HASH)).2.

Lemma chain_tamper_evident_witness :
  records (lossy_chain 1) = records (lossy_chain 2)
  \/ (exists r1 r2, r1 ∈ records (lossy_chain 1) /\ r2 ∈ records (lossy_chain 2)
        /\ @collision _ toy_sha256 lossy_json r1 r2)
  \/ (exists r, (r ∈ records (lossy_chain 1) \/ r ∈ records (lossy_chain 2))
        /\ @record_sound _ toy_sha256 lossy_json r /\ record_hash r = genesis_hash (lossy_chain 1)).
Proof.
  apply (@chain_tamper_evident N toy_sha256 lossy_json N.eq_dec (lossy_chain 1) (lossy_chain 2));
    vm_compute; reflexivity.
Defined.
