(* ===== verification/AuditTrail.v ===== *)
(** * The decision audit trail ([crates/nxb-audit])

    The event types of the gateway's audit chain, and the chain itself as an
    instance of [HashChain]. *)

From S2P Require Import Prelude ByteStr HashChain.
Local Open Scope N_scope.

Record AuditDestination : Type := {
  dest_ip : str;
  dest_class : str;
  dest_allowed : bool
}.

Record AuditDns : Type := {
  dns_context_id : str;
  dns_resolver_id : str;
  dns_ttl_seconds : N;
  dns_pin_status : str
}.

Record AuditEvent : Type := {
  ev_decision_id : str;
  ev_outcome : str;
  ev_reason_code : str;
  ev_reason_details : gmap str str;
  ev_method : str;
  ev_url : str;
  ev_resolved_destinations : list AuditDestination;
  ev_dns : AuditDns;
  ev_redirect_depth : N;
  ev_elapsed_milliseconds : N
}.

#[export] Instance AuditDestination_eq_dec : EqDecision AuditDestination.
Proof. solve_decision. Defined.
#[export] Instance AuditDns_eq_dec : EqDecision AuditDns.
Proof. solve_decision. Defined.
#[export] Instance AuditEvent_eq_dec : EqDecision AuditEvent.
Proof. solve_decision. Defined.

Abbreviation AuditRecord := (ChainRecord AuditEvent).
Abbreviation AuditChain := (HashChain AuditEvent).

Section AuditChain.
Context {S : Sha256Lib} {J : JsonLib (HashMaterial AuditEvent)}.

Definition audit_new : AuditChain := chain_new GENESIS_HASH.
Definition audit_append (event : AuditEvent) (chain : AuditChain)
    : Result AuditRecord ChainError * AuditChain := chain_append event chain.
Definition audit_verify (chain : AuditChain) : Result unit ChainError := chain_verify chain.

(** The chain of one process: well formed and anchored at the genesis hash. *)
Definition audit_ok (chain : AuditChain) : Prop :=
  chain_ok chain /\ genesis_hash chain = GENESIS_HASH.

Lemma audit_new_ok : audit_ok audit_new.
Proof. split; [apply chain_new_ok | done]. Qed.

Lemma audit_append_ok e c r c' : audit_ok c -> audit_append e c = (r, c') -> audit_ok c'.
Proof.
  unfold audit_append. intros [Hok Hg] Ha. split; [by eapply chain_append_ok|].
  apply chain_append_spec in Ha. destruct r; [|by subst].
  destruct Ha as (_ & _ & _ & _ & _ & _ & ->). done.
Qed.

Lemma audit_ok_verify c : audit_ok c -> audit_verify c = Ok tt.
Proof. intros [Hok _]. by apply chain_verify_spec. Qed.
End AuditChain.

#[export] Hint Resolve audit_new_ok audit_append_ok audit_ok_verify : rust.
