(* ===== verification/Gateway.v ===== *)
(** * The scope gateway ([crates/nxb-gateway])

    The gateway composes the policy, the destination guard, the DNS pins, the
    request budget and the audit trail: [authorize] turns a request intent into
    one audited decision. *)

From S2P Require Import Prelude ByteStr IpAddr Destination Float64 Url Policy Dns Budget HashChain AuditTrail.
Local Open Scope N_scope.

(** ** Model *)

Record RequestIntent `{UrlLib} : Type := {
  intent_url : Url;
  intent_method : str;
  resolved_ips : list IpAddr;
  intent_redirect_depth : N;
  intent_dns_context_id : str;
  intent_dns_resolver_id : str;
  intent_dns_ttl_seconds : N
}.

Inductive DecisionOutcome : Type := Allow | Deny.

#[export] Instance DecisionOutcome_eq_dec : EqDecision DecisionOutcome.
Proof. solve_decision. Defined.

Definition outcome_code (outcome : DecisionOutcome) : str :=
  match outcome with Allow => "allow" | Deny => "deny" end.

Inductive DnsObservationErrorKind : Type :=
  | KindInvalidContextId
  | KindInvalidResolverId
  | KindInvalidHost
  | KindEmptyAddressSet
  | KindClockRegression.

Definition kind_code (kind : DnsObservationErrorKind) : str :=
  match kind with
  | KindInvalidContextId => "invalid_context_id"
  | KindInvalidResolverId => "invalid_resolver_id"
  | KindInvalidHost => "invalid_host"
  | KindEmptyAddressSet => "empty_address_set"
  | KindClockRegression => "clock_regression"
  end.

Inductive DecisionReason : Type :=
  | Authorized
  | UrlOrMethodOutOfScope
  | MissingDnsResolution
  | NonPublicDestination (ip : IpAddr) (class : DestinationClass)
  | RedirectLimitExceeded (maximum observed : N)
  | InvalidDnsObservation (kind : DnsObservationErrorKind)
  | DnsResolverChanged (expected observed : str)
  | DnsRebindingDetected (host : str) (pinned observed : gset IpAddr)
  | TotalBudgetExhausted
  | ReasonConcurrencyExceeded
  | ReasonRateLimited (retry_after_milliseconds : N).

Definition reason_code (reason : DecisionReason) : str :=
  match reason with
  | Authorized => "authorized"
  | UrlOrMethodOutOfScope => "url_or_method_out_of_scope"
  | MissingDnsResolution => "missing_dns_resolution"
  | NonPublicDestination _ _ => "non_public_destination"
  | RedirectLimitExceeded _ _ => "redirect_limit_exceeded"
  | InvalidDnsObservation _ => "invalid_dns_observation"
  | DnsResolverChanged _ _ => "dns_resolver_changed"
  | DnsRebindingDetected _ _ _ => "dns_rebinding_detected"
  | TotalBudgetExhausted => "total_budget_exhausted"
  | ReasonConcurrencyExceeded => "concurrency_exceeded"
  | ReasonRateLimited _ => "rate_limited"
  end.

Definition join_ips (values : gset IpAddr) : str :=
  join ("," : str) (map ip_to_string (btree_iter values)).

Definition reason_details (reason : DecisionReason) : gmap str str :=
  match reason with
  | NonPublicDestination ip class =>
      <[("class" : str) := class_code class]> (<[("ip" : str) := ip_to_string ip]> ∅)
  | RedirectLimitExceeded maximum observed =>
      <[("observed" : str) := decimal observed]> (<[("maximum" : str) := decimal maximum]> ∅)
  | InvalidDnsObservation kind => <[("kind" : str) := kind_code kind]> ∅
  | DnsResolverChanged expected observed =>
      <[("observed" : str) := observed]> (<[("expected" : str) := expected]> ∅)
  | DnsRebindingDetected host pinned observed =>
      <[("observed" : str) := join_ips observed]>
        (<[("pinned" : str) := join_ips pinned]> (<[("host" : str) := host]> ∅))
  | ReasonRateLimited retry_after_milliseconds =>
      <[("retry_after_milliseconds" : str) := decimal retry_after_milliseconds]> ∅
  | Authorized | UrlOrMethodOutOfScope | MissingDnsResolution | TotalBudgetExhausted
  | ReasonConcurrencyExceeded => ∅
  end.

Record GatewayDecision : Type := {
  decision_id : str;
  outcome : DecisionOutcome;
  reason : DecisionReason
}.

Record ScopeGateway : Type := {
  policy : CompiledPolicy;
  budget : RequestBudget;
  dns_pins : DnsPinSet;
  audit : AuditChain;
  maximum_redirects : N;
  next_decision_id : N
}.

Inductive GatewayError : Type :=
  | GatewayBudget (error : BudgetError)
  | GatewayAudit (error : ChainError)
  | InvalidRedirectLimit.

Inductive AuditPinStatus : Type :=
  | PinNotEvaluated
  | PinPinned
  | PinMatched
  | PinRejected.

Definition pin_status_code (status : AuditPinStatus) : str :=
  match status with
  | PinNotEvaluated => "not_evaluated"
  | PinPinned => "pinned"
  | PinMatched => "matched"
  | PinRejected => "rejected"
  end.

(** ** Operations *)

Definition gateway_new (policy : CompiledPolicy) (maximum_redirects : N)
    : Result ScopeGateway GatewayError :=
  if maximum_redirects =? 0 then Err InvalidRedirectLimit
  else
    let? budget := map_err GatewayBudget
      (budget_new (maximum_total_requests policy) (Policy.maximum_concurrency policy)
                  (maximum_requests_per_second policy)) in
    Ok {| policy := policy;
          budget := budget;
          dns_pins := dns_new;
          audit := audit_new;
          maximum_redirects := maximum_redirects;
          next_decision_id := 1 |}.

Definition set_budget (b : RequestBudget) (g : ScopeGateway) : ScopeGateway :=
  {| policy := policy g; budget := b; dns_pins := dns_pins g; audit := audit g;
     maximum_redirects := maximum_redirects g; next_decision_id := next_decision_id g |}.
Definition set_pins (p : DnsPinSet) (g : ScopeGateway) : ScopeGateway :=
  {| policy := policy g; budget := budget g; dns_pins := p; audit := audit g;
     maximum_redirects := maximum_redirects g; next_decision_id := next_decision_id g |}.
Definition set_audit (a : AuditChain) (g : ScopeGateway) : ScopeGateway :=
  {| policy := policy g; budget := budget g; dns_pins := dns_pins g; audit := a;
     maximum_redirects := maximum_redirects g; next_decision_id := next_decision_id g |}.
Definition set_next_id (n : N) (g : ScopeGateway) : ScopeGateway :=
  {| policy := policy g; budget := budget g; dns_pins := dns_pins g; audit := audit g;
     maximum_redirects := maximum_redirects g; next_decision_id := n |}.

Definition format_decision_id (value : N) : str := ("decision-" : str) ++ decimal020 value.
#[global] Arguments format_decision_id : simpl never.

Definition allocate_decision_id (self : ScopeGateway) : str * ScopeGateway :=
  let value := next_decision_id self in
  (format_decision_id value, set_next_id (saturating_add value 1) self).

Definition map_dns_error (error : DnsPinError) : DecisionReason :=
  match error with
  | InvalidContextId => InvalidDnsObservation KindInvalidContextId
  | InvalidResolverId => InvalidDnsObservation KindInvalidResolverId
  | InvalidHost => InvalidDnsObservation KindInvalidHost
  | EmptyAddressSet => InvalidDnsObservation KindEmptyAddressSet
  | ClockRegression => InvalidDnsObservation KindClockRegression
  | ResolverChanged expected observed => DnsResolverChanged expected observed
  | RebindingDetected host pinned observed => DnsRebindingDetected host pinned observed
  end.

Definition deny (decision_id : str) (reason : DecisionReason) : GatewayDecision :=
  {| decision_id := decision_id; outcome := Deny; reason := reason |}.

Definition sanitized_dns_identifier (value : str) : str :=
  let value := trim value in
  if bool_decide (value = []) || (128 <? len value)
     || negb (forallb is_identifier_byte value)
  then "[invalid]"
  else to_ascii_lowercase value.

Section Gateway.
Context {U : UrlLib} {S : Sha256Lib} {J : JsonLib (HashMaterial AuditEvent)}.

Definition sanitized_audit_url (url : Url) : str :=
  url_to_string (url_clear_fragment (url_clear_query url)).

Definition audit_event (intent : RequestIntent) (elapsed : Duration)
    (assessments : list DestinationAssessment) (decision : GatewayDecision)
    (pin_status : AuditPinStatus) : AuditEvent :=
  {| ev_decision_id := decision_id decision;
     ev_outcome := outcome_code (outcome decision);
     ev_reason_code := reason_code (reason decision);
     ev_reason_details := reason_details (reason decision);
     ev_method := to_ascii_uppercase (trim (intent_method intent));
     ev_url := sanitized_audit_url (intent_url intent);
     ev_resolved_destinations :=
       map (fun assessment =>
              {| dest_ip := ip_to_string (assessed_ip assessment);
                 dest_class := class_code (assessed_class assessment);
                 dest_allowed := assessment_is_allowed assessment |}) assessments;
     ev_dns := {| dns_context_id := sanitized_dns_identifier (intent_dns_context_id intent);
                  dns_resolver_id := sanitized_dns_identifier (intent_dns_resolver_id intent);
                  dns_ttl_seconds := intent_dns_ttl_seconds intent;
                  dns_pin_status := pin_status_code pin_status |};
     ev_redirect_depth := intent_redirect_depth intent;
     ev_elapsed_milliseconds := duration_milliseconds_saturated elapsed |}.

(** The budget part of [evaluate]. *)
Definition budget_decision (decision_id : str) (result : Result unit BudgetError)
    : Run GatewayDecision :=
  match result with
  | Ok _ => Done {| decision_id := decision_id; outcome := Allow; reason := Authorized |}
  | Err Exhausted => Done (deny decision_id TotalBudgetExhausted)
  | Err ConcurrencyExceeded => Done (deny decision_id ReasonConcurrencyExceeded)
  | Err (RateLimited retry_after) =>
      Done (deny decision_id (ReasonRateLimited (duration_milliseconds_saturated retry_after)))
  | Err (InvalidConfiguration _) => Panic "gateway validates its budget during construction"
  end.

Definition evaluate (intent : RequestIntent) (elapsed : Duration)
    (assessments : list DestinationAssessment) (self : ScopeGateway)
    : Run ((GatewayDecision * AuditPinStatus) * ScopeGateway) :=
  let (decision_id, self) := allocate_decision_id self in
  if maximum_redirects self <? intent_redirect_depth intent then
    Done ((deny decision_id
             (RedirectLimitExceeded (maximum_redirects self) (intent_redirect_depth intent)),
           PinNotEvaluated), self)
  else if negb (allows_request (policy self) (intent_url intent) (intent_method intent)) then
    Done ((deny decision_id UrlOrMethodOutOfScope, PinNotEvaluated), self)
  else if bool_decide (assessments = []) then
    Done ((deny decision_id MissingDnsResolution, PinNotEvaluated), self)
  else match List.find (fun value => negb (assessment_is_allowed value)) assessments with
  | Some assessment =>
      Done ((deny decision_id
               (NonPublicDestination (assessed_ip assessment) (assessed_class assessment)),
             PinNotEvaluated), self)
  | None =>
      match url_host_str (intent_url intent) with
      | None => Panic "an allowed request always has a host"
      | Some host =>
          let observation :=
            {| obs_context_id := intent_dns_context_id intent;
               obs_host := host;
               obs_addresses := list_to_set (resolved_ips intent);
               obs_resolver_id := intent_dns_resolver_id intent;
               obs_ttl_seconds := intent_dns_ttl_seconds intent;
               obs_observed_at_milliseconds := duration_milliseconds_saturated elapsed |} in
          let (pinned, pins) := pin_or_validate observation (dns_pins self) in
          let self := set_pins pins self in
          match pinned with
          | Err error => Done ((deny decision_id (map_dns_error error), PinRejected), self)
          | Ok status =>
              let pin_status := match status with Pinned => PinPinned | Matched => PinMatched end in
              let! (started, budget) := try_start elapsed (budget self) in
              let self := set_budget budget self in
              let! decision := budget_decision decision_id started in
              Done ((decision, pin_status), self)
          end
      end
  end.

Definition authorize (intent : RequestIntent) (elapsed : Duration) (self : ScopeGateway)
    : Run (Result GatewayDecision GatewayError * ScopeGateway) :=
  let assessments := map assess_destination (resolved_ips intent) in
  let! ((decision, pin_status), self) := evaluate intent elapsed assessments self in
  let event := audit_event intent elapsed assessments decision pin_status in
  let (appended, audit) := audit_append event (audit self) in
  let self := set_audit audit self in
  match appended with
  | Err error => Done (Err (GatewayAudit error), self)
  | Ok _ => Done (Ok decision, self)
  end.

Definition complete_request (self : ScopeGateway) : ScopeGateway :=
  set_budget (finish (budget self)) self.

Definition release_dns_context (context_id : str) (self : ScopeGateway) : nat * ScopeGateway :=
  let (released, pins) := release_context context_id (dns_pins self) in
  (released, set_pins pins self).

Definition remaining_requests (self : ScopeGateway) : N := remaining (budget self).
Definition in_flight_requests (self : ScopeGateway) : N := in_flight (budget self).

(** ** One decision *)

Definition intent_observation (intent : RequestIntent) (elapsed : Duration) (host : str)
    : DnsObservation :=
  {| obs_context_id := intent_dns_context_id intent;
     obs_host := host;
     obs_addresses := list_to_set (resolved_ips intent);
     obs_resolver_id := intent_dns_resolver_id intent;
     obs_ttl_seconds := intent_dns_ttl_seconds intent;
     obs_observed_at_milliseconds := duration_milliseconds_saturated elapsed |}.

(** Everything that must hold for a request to be allowed: the conjunction of
    the checks of the five components. *)
Definition permitted (intent : RequestIntent) (elapsed : Duration) (g : ScopeGateway) : Prop :=
  intent_redirect_depth intent <= maximum_redirects g
  /\ allows_request (policy g) (intent_url intent) (intent_method intent) = true
  /\ resolved_ips intent <> []
  /\ Forall (fun ip => is_public_destination ip = true) (resolved_ips intent)
  /\ (exists host s pins, url_host_str (intent_url intent) = Some host
        /\ pin_or_validate (intent_observation intent elapsed host) (dns_pins g) = (Ok s, pins))
  /\ (exists b, try_start elapsed (budget g) = Done (Ok tt, b)).

(** The same without the budget. *)
Definition permitted_but_budget (intent : RequestIntent) (elapsed : Duration) (g : ScopeGateway)
    : Prop :=
  intent_redirect_depth intent <= maximum_redirects g
  /\ allows_request (policy g) (intent_url intent) (intent_method intent) = true
  /\ Forall (fun ip => is_public_destination ip = true) (resolved_ips intent).

(** What a call changes apart from the pins. *)
Definition decision_frame (g g' : ScopeGateway) : Prop :=
  policy g' = policy g /\ maximum_redirects g' = maximum_redirects g
  /\ next_decision_id g' = saturating_add (next_decision_id g) 1.

Definition budget_outcome (elapsed : Duration) (d : GatewayDecision) (g g' : ScopeGateway) : Prop :=
  (outcome d = Allow /\ reason d = Authorized
   /\ try_start elapsed (budget g) = Done (Ok tt, budget g'))
  \/ (outcome d = Deny /\ (budget g' = budget g \/ budget g' = refill elapsed (budget g))).

Lemma assessments_public ips :
  List.find (fun value => negb (assessment_is_allowed value)) (map assess_destination ips) = None
  <-> Forall (fun ip => is_public_destination ip = true) ips.
Proof.
  rewrite find_none_elem, Forall_forall. unfold is_public_destination. split.
  - intros Hf ip Hip. apply negb_false_iff, Hf, list_elem_of_fmap_2, Hip.
  - intros Hf v (ip & -> & Hip)%list_elem_of_fmap. by rewrite Hf.
Qed.

Lemma budget_decision_spec id r d :
  budget_decision id r = Done d ->
  decision_id d = id
  /\ ((outcome d = Allow /\ reason d = Authorized /\ r = Ok tt)
      \/ (outcome d = Deny /\ exists e, r = Err e)).
Proof. intros Hd. destruct r as [[]|[]]; simpl in Hd; simplify_eq; simpl; eauto 7. Qed.

Lemma evaluate_frame intent elapsed g d s g' :
  evaluate intent elapsed (map assess_destination (resolved_ips intent)) g = Done ((d, s), g') ->
  decision_frame g g' /\ audit g' = audit g
  /\ decision_id d = format_decision_id (next_decision_id g)
  /\ budget_outcome elapsed d g g'
  /\ (dns_pins g' = dns_pins g
      \/ exists o, dns_pins g' = (pin_or_validate o (dns_pins g)).2).
Proof.
  unfold evaluate, allocate_decision_id, decision_frame, budget_outcome. intros He.
  repeat step_in He; simplify_eq; simpl in *.
  all: try (repeat split; simpl; auto; fail).
  all: match goal with Hp : pin_or_validate ?o _ = (_, ?g0) |- _ =>
         assert (g0 = (pin_or_validate o (dns_pins g)).2) by (by rewrite Hp) end.
  all: try (apply budget_decision_spec in Heqr2 as [-> [(-> & -> & ->)|[-> [? ->]]]]).
  all: split_and!; eauto using try_start_refused.
Qed.

Lemma evaluate_permitted intent elapsed g d s g' :
  evaluate intent elapsed (map assess_destination (resolved_ips intent)) g = Done ((d, s), g') ->
  outcome d = Allow <-> permitted intent elapsed g.
Proof.
  unfold evaluate, allocate_decision_id, permitted. cbn [maximum_redirects policy set_next_id dns_pins].
  intros He. split.
  - intros Ho. repeat step_in He; simplify_eq; bools; try done. cbn in *.
    all: apply assessments_public in Heqo.
    all: apply budget_decision_spec in Heqr2 as [_ [(_ & _ & ->)|(? & _)]]; [|congruence].
    all: split_and!; eauto 6; by destruct (resolved_ips intent).
  - intros (H1 & H2 & H3 & H4 & (host & st & pins & H5 & H6) & (b & H7)).
    rewrite (proj2 (N.ltb_ge _ _) H1), H2 in He. simpl in He.
    rewrite bool_decide_eq_false_2 in He by (by destruct (resolved_ips intent)).
    rewrite (proj2 (assessments_public _) H4), H5 in He. cbn in He.
    unfold intent_observation in H6. rewrite H6 in He. cbn in He. rewrite H7 in He.
    cbn in He. by simplify_eq.
Qed.

(** The committed record of a decision. *)
Definition decision_recorded (intent : RequestIntent) (elapsed : Duration) (d : GatewayDecision)
    (g g' : ScopeGateway) : Prop :=
  exists record status,
    records (audit g') = records (audit g) ++ [record]
    /\ event record = audit_event intent elapsed
                        (map assess_destination (resolved_ips intent)) d status.

Lemma authorize_inv intent elapsed g r g' :
  authorize intent elapsed g = Done (r, g') ->
  exists d s g1,
    evaluate intent elapsed (map assess_destination (resolved_ips intent)) g = Done ((d, s), g1)
    /\ g' = set_audit (audit g') g1
    /\ match r with
       | Ok d' => d' = d /\ exists rec, audit_append (audit_event intent elapsed
            (map assess_destination (resolved_ips intent)) d s) (audit g1) = (Ok rec, audit g')
       | Err _ => audit g' = audit g1
       end.
Proof.
  unfold authorize. intros Ha. repeat step_in Ha; simplify_eq; cbn; eauto 10.
  do 3 eexists. split_and!; eauto. by apply chain_append_spec in Heqp1.
Qed.

(** An allowed request leaves its host pinned to the addresses it resolved to. *)
Lemma authorize_pins intent elapsed g d g' :
  authorize intent elapsed g = Done (Ok d, g') -> outcome d = Allow ->
  exists host pin, url_host_str (intent_url intent) = Some host
    /\ dns_get (intent_dns_context_id intent) host (dns_pins g') = Some pin
    /\ pin_addresses pin = list_to_set (resolved_ips intent).
Proof.
  intros (d' & s & g1 & He & Hg & <- & _)%authorize_inv Ho. rewrite Hg. cbn [set_audit dns_pins].
  unfold evaluate, allocate_decision_id in He. repeat step_in He; simplify_eq; cbn in *; try done.
  all: match goal with Hp : pin_or_validate _ _ = (Ok _, _) |- _ =>
         apply pin_or_validate_accepts in Hp as ((pin & Hpin & Ha & _) & _) end; eauto.
Qed.

(** ** Invariant *)

Definition record_ids (g : ScopeGateway) : list str :=
  map (fun r => ev_decision_id (event r)) (records (audit g)).

(** The identifiers on record were allocated before the next one, and are
    distinct as long as the counter has not saturated. *)
Definition ids_ok (g : ScopeGateway) : Prop :=
  next_decision_id g <= u64_max
  /\ (next_decision_id g < u64_max ->
      NoDup (record_ids g)
      /\ Forall (fun id => exists k, k < next_decision_id g /\ id = format_decision_id k) (record_ids g)).

Record gateway_ok (g : ScopeGateway) : Prop := {
  go_budget : budget_ok (budget g);
  go_pins : pins_ok (dns_pins g);
  go_audit : audit_ok (audit g);
  go_ids : ids_ok g
}.

Lemma gateway_new_ok p m g :
  gateway_new p m = Ok g ->
  gateway_ok g /\ policy g = p /\ maximum_redirects g = m
  /\ remaining (budget g) = maximum_total_requests p
  /\ budget_max_concurrency (budget g) = Policy.maximum_concurrency p
  /\ in_flight (budget g) = 0.
Proof.
  unfold gateway_new, map_err. intros Hn. inv_ok Hn. cbn.
  match goal with Hb : budget_new _ _ _ = Ok _ |- _ =>
    apply budget_new_ok in Hb as (? & ? & ? & ? & _) end.
  split; [|done]. constructor; cbn; auto using pins_ok_new, audit_new_ok.
  split; cbn; [done|]. intros _. split; constructor.
Qed.

Lemma format_decision_id_inj a b : format_decision_id a = format_decision_id b -> a = b.
Proof. unfold format_decision_id. by intros ?%app_inv_head%(inj decimal020). Qed.

Lemma evaluate_budget_ok intent elapsed g d s g' :
  budget_ok (budget g) ->
  evaluate intent elapsed (map assess_destination (resolved_ips intent)) g = Done ((d, s), g') ->
  budget_ok (budget g').
Proof.
  intros Hb He. apply evaluate_frame in He as (_ & _ & _ & Ho & _).
  destruct Ho as [(_ & _ & Ht)|(_ & [->| ->])]; [|done|by apply refill_ok].
  by eapply try_start_ok.
Qed.

Lemma evaluate_pins_ok intent elapsed g d s g' :
  pins_ok (dns_pins g) ->
  evaluate intent elapsed (map assess_destination (resolved_ips intent)) g = Done ((d, s), g') ->
  pins_ok (dns_pins g').
Proof.
  intros Hp He. apply evaluate_frame in He as (_ & _ & _ & _ & [->|[o ->]]); [done|].
  destruct (pin_or_validate o (dns_pins g)) eqn:E. by eapply pin_or_validate_ok.
Qed.

Lemma ids_ok_extend g g' (rec : AuditRecord) :
  ids_ok g -> next_decision_id g' = saturating_add (next_decision_id g) 1 ->
  (audit g' = audit g
   \/ (records (audit g') = records (audit g) ++ [rec]
       /\ ev_decision_id (event rec) = format_decision_id (next_decision_id g))) ->
  ids_ok g'.
Proof.
  intros [Hle Hids] Hn Ha. unfold ids_ok. rewrite Hn. split; [apply saturating_add_le|].
  intros Hlt. pose proof (saturating_succ_exact _ Hlt) as Hs. rewrite Hs in *.
  destruct Hids as [Hnd Hf]; [lia|].
  assert (Forall (fun id => exists k, k < next_decision_id g + 1 /\ id = format_decision_id k) (record_ids g))
    as Hf' by (eapply Forall_impl; [exact Hf|]; intros ? (k & ? & ?); exists k; split; [lia|done]).
  unfold record_ids in *. destruct Ha as [->|[-> Hid]]; [done|].
  rewrite map_app. simpl. rewrite Hid. split.
  - apply NoDup_app. split_and!; [done| |apply NoDup_singleton].
    intros id Hin ->%list_elem_of_singleton. rewrite Forall_forall in Hf.
    apply Hf in Hin as (k & Hk & Heq%format_decision_id_inj). lia.
  - apply Forall_app. split; [done|]. constructor; [|constructor]. eexists. split; [|done]. lia.
Qed.

Lemma authorize_ok intent elapsed g r g' :
  gateway_ok g -> authorize intent elapsed g = Done (r, g') -> gateway_ok g'.
Proof.
  intros [Hb Hp Ha Hi] Hz. apply authorize_inv in Hz as (d & s & g1 & He & Hg & Hr).
  pose proof (evaluate_frame _ _ _ _ _ _ He) as ((_ & _ & Hn) & Hau & Hid & _ & _).
  assert (budget g' = budget g1 /\ dns_pins g' = dns_pins g1
          /\ next_decision_id g' = next_decision_id g1) as (Eb & Ep & En) by (by rewrite Hg).
  constructor.
  - rewrite Eb. by eapply evaluate_budget_ok.
  - rewrite Ep. by eapply evaluate_pins_ok.
  - destruct r; [|by rewrite Hr, Hau]. destruct Hr as (_ & rec & Hr). rewrite Hau in Hr.
    by eapply audit_append_ok.
  - destruct r as [d'|e].
    + destruct Hr as (-> & rec & Hr). rewrite Hau in Hr.
      apply chain_append_spec in Hr as (Hr & Hev & _).
      eapply (ids_ok_extend g g' rec); [done|congruence|]. right. split; [done|]. by rewrite Hev.
    + apply (ids_ok_extend g g' {| sequence := 0; previous_hash := []; record_hash := [];
          event := audit_event intent elapsed [] d s |}); [done|congruence|]. left. congruence.
Qed.

(** ** Traces *)

Inductive GatewayEvent : Type :=
  | Decided (decision : GatewayDecision)
  | DecisionNotRecorded
  | Completed
  | ContextReleased.

(** One call on the gateway that returns. *)
Inductive gateway_step : ScopeGateway -> GatewayEvent -> ScopeGateway -> Prop :=
  | step_decided intent elapsed d g g' :
      authorize intent elapsed g = Done (Ok d, g') -> gateway_step g (Decided d) g'
  | step_not_recorded intent elapsed e g g' :
      authorize intent elapsed g = Done (Err e, g') -> gateway_step g DecisionNotRecorded g'
  | step_completed g : gateway_step g Completed (complete_request g)
  | step_released c g : gateway_step g ContextReleased (release_dns_context c g).2.

Inductive gateway_trace : ScopeGateway -> list GatewayEvent -> ScopeGateway -> Prop :=
  | gtrace_nil g : gateway_trace g [] g
  | gtrace_step g g' g'' e es :
      gateway_step g e g' -> gateway_trace g' es g'' -> gateway_trace g (e :: es) g''.

Definition is_allowed_event (e : GatewayEvent) : bool :=
  match e with Decided d => bool_decide (outcome d = Allow) | _ => false end.
Definition is_completed_event (e : GatewayEvent) : bool :=
  match e with Completed => true | _ => false end.
Definition count (p : GatewayEvent -> bool) (es : list GatewayEvent) : N := len (List.filter p es).

Lemma gateway_step_ok g e g' : gateway_ok g -> gateway_step g e g' -> gateway_ok g'.
Proof.
  intros Hg Hs. destruct Hs; try (by eapply authorize_ok).
  - destruct Hg as [Hb Hp Ha Hi]. constructor; cbn; auto using finish_ok.
  - destruct Hg as [Hb Hp Ha Hi]. constructor; cbn; auto. by apply (release_context_ok c).
Qed.

Lemma complete_request_ok g : gateway_ok g -> gateway_ok (complete_request g).
Proof. intros Hg. apply (gateway_step_ok g Completed); [done|apply step_completed]. Qed.

Lemma gateway_trace_ok g es g' : gateway_ok g -> gateway_trace g es g' -> gateway_ok g'.
Proof. intros Hg Ht. induction Ht; eauto using gateway_step_ok. Qed.

Lemma budget_outcome_frame elapsed d g g' :
  budget_outcome elapsed d g g' ->
  budget_max_concurrency (budget g') = budget_max_concurrency (budget g)
  /\ (if bool_decide (outcome d = Allow) then 1 else 0) + remaining (budget g') = remaining (budget g)
  /\ in_flight (budget g') = in_flight (budget g) + (if bool_decide (outcome d = Allow) then 1 else 0).
Proof.
  intros [(Ho & _ & Ht)|(Ho & [->| ->])]; rewrite Ho.
  - rewrite bool_decide_eq_true_2 by done. apply try_start_started in Ht as (? & ? & _ & ? & ? & ? & _).
    split_and!; [done|lia|lia].
  - rewrite bool_decide_eq_false_2 by done. split_and!; [done|lia|lia].
  - rewrite bool_decide_eq_false_2 by done. destruct (refill_frame elapsed (budget g)) as (-> & -> & ->).
    split_and!; [done|lia|lia].
Qed.

Lemma authorize_budget intent elapsed g r g' :
  authorize intent elapsed g = Done (r, g') ->
  exists d, budget_outcome elapsed d g g'
    /\ match r with Ok d' => d' = d | Err _ => True end.
Proof.
  intros Hz. apply authorize_inv in Hz as (d & s & g1 & He & Hg & Hr). exists d.
  apply evaluate_frame in He as (_ & _ & _ & Ho & _).
  assert (budget g' = budget g1) as Eb by (by rewrite Hg).
  unfold budget_outcome in *. rewrite Eb. split; [done|]. destruct r; [|done]. by destruct Hr as [-> _].
Qed.

Lemma gateway_trace_accounting g es g' :
  gateway_trace g es g' ->
  budget_max_concurrency (budget g') = budget_max_concurrency (budget g)
  /\ count is_allowed_event es + remaining (budget g') <= remaining (budget g)
  /\ in_flight (budget g) + count is_allowed_event es
     <= in_flight (budget g') + count is_completed_event es.
Proof.
  intros Ht. unfold count. induction Ht as [g|g g1 g2 e es Hs Ht IH]; [cbn [List.filter]; rewrite len_nil; split_and!; [done|lia|lia]|].
  destruct IH as (I1 & I2 & I3). destruct Hs; cbn [List.filter is_allowed_event is_completed_event].
  1,2: apply authorize_budget in H as (d' & (B1 & B2 & B3)%budget_outcome_frame & Hd); try subst d';
       revert B2 B3; case_bool_decide; intros B2 B3; rewrite ?len_cons; split_and!; first [congruence|lia].
  - cbn in *. rewrite len_cons. split_and!; [done|lia|lia].
  - cbn in *. auto.
Qed.

(** ** Panics *)

Lemma authorize_panic intent elapsed g msg :
  authorize intent elapsed g = Panic msg ->
  permitted_but_budget intent elapsed g /\ try_start elapsed (budget g) = Panic msg.
Proof.
  unfold authorize. intros Hz.
  destruct (evaluate _ _ _ _) as [[[d s] g1]|m] eqn:He; [repeat step_in Hz; done|]. simplify_eq.
  unfold evaluate, allocate_decision_id in He. cbn [maximum_redirects policy set_next_id dns_pins] in He.
  repeat step_in He; simplify_eq; bools; cbn in *; try (by destruct s); unfold permitted_but_budget.
  all: try (apply assessments_public in Heqo).
  - exfalso. destruct r0 as [|[]]; simpl in *; simplify_eq. by eapply try_start_not_invalid.
  - auto.
  - exfalso. unfold allows_request in Heqb0. rewrite Heqo0 in Heqb0. by destruct (_ || _).
Qed.

End Gateway.

(** ** Properties *)

Section Properties.
Context {U : UrlLib} {S : Sha256Lib} {J : JsonLib (HashMaterial AuditEvent)}.

(** C1: deny by default, exactly: a returned decision is [Allow] if and only if
    the redirect depth is within the limit, the policy allows the URL and the
    method, the host resolved to at least one address, every resolved address is
    public, the DNS pins accept the observation and the budget admits a request.
    Every other request is denied. *)
Theorem gateway_allows_exactly_permitted intent elapsed g d g' :
  authorize intent elapsed g = Done (Ok d, g') ->
  (outcome d = Allow <-> permitted intent elapsed g).
Proof.
  intros (d' & s & g1 & He & _ & -> & _)%authorize_inv. by eapply evaluate_permitted.
Qed.

(** A returned decision has exactly one new audit record, holding its
    identifier, outcome and reason, and the audit chain still verifies; a
    decision whose record cannot be written is not returned and adds no record. *)
Theorem gateway_decision_is_audited intent elapsed g r g' :
  gateway_ok g -> authorize intent elapsed g = Done (r, g') ->
  audit_verify (audit g') = Ok tt
  /\ match r with
     | Ok d => decision_recorded intent elapsed d g g'
     | Err _ => records (audit g') = records (audit g)
     end.
Proof.
  intros Hg Hz. split; [by eapply audit_ok_verify, go_audit, authorize_ok|].
  apply authorize_inv in Hz as (d & s & g1 & He & _ & Hr).
  apply evaluate_frame in He as (_ & Hau & _).
  destruct r as [d'|e]; [|by rewrite Hr, Hau].
  destruct Hr as (-> & rec & Hr). rewrite Hau in Hr. apply chain_append_spec in Hr as (Hr & Hev & _).
  by exists rec, s.
Qed.

(** Over any sequence of calls on a new gateway, the allowed requests never
    exceed the total of the policy, the requests in flight never exceed its
    concurrency, the allowed requests not yet completed are counted in flight,
    and the audit chain verifies at every point. *)
Theorem gateway_never_exceeds_policy p m g es g' :
  gateway_new p m = Ok g -> gateway_trace g es g' ->
  count is_allowed_event es + remaining_requests g' <= maximum_total_requests p
  /\ in_flight_requests g' <= Policy.maximum_concurrency p
  /\ count is_allowed_event es <= in_flight_requests g' + count is_completed_event es
  /\ audit_verify (audit g') = Ok tt.
Proof.
  intros Hn Ht. apply gateway_new_ok in Hn as (Hok & _ & _ & Hr & Hc & Hi).
  pose proof (gateway_trace_ok _ _ _ Hok Ht) as [[Hf _ _ _ _] _ Ha _].
  apply gateway_trace_accounting in Ht as (T1 & T2 & T3).
  unfold remaining_requests, in_flight_requests. rewrite <- Hr, <- Hc.
  split_and!; [done|congruence|lia|by apply audit_ok_verify].
Qed.

(** Decision identifiers are unique: as long as the 64-bit counter has not
    saturated, no two audit records of a gateway carry the same decision
    identifier, whatever was decided in between. *)
Theorem gateway_decision_ids_unique p m g es g' :
  gateway_new p m = Ok g -> gateway_trace g es g' -> next_decision_id g' < u64_max ->
  NoDup (record_ids g').
Proof.
  intros Hn Ht Hlt. apply gateway_new_ok in Hn as (Hok & _).
  pose proof (gateway_trace_ok _ _ _ Hok Ht) as [_ _ _ [_ Hi]]. by apply Hi.
Qed.

(** [authorize] can abort in one way only: the two internal assertions of the
    gateway (an allowed request has a host; the budget was validated) never fail,
    and the remaining panic is the conversion of a waiting time that does not fit
    a [Duration], for a request that passed every scope and destination check. *)
Theorem gateway_panics_only_on_waiting_time intent elapsed g msg :
  authorize intent elapsed g = Panic msg ->
  msg = ("can not convert float seconds to Duration" : str)
  /\ permitted_but_budget intent elapsed g
  /\ f64_lt (tokens (refill elapsed (budget g))) f64_one = true.
Proof.
  intros [Hp Ht]%authorize_panic. by apply try_start_panic in Ht as (-> & ? & _).
Qed.

End Properties.

(** ** Witnesses *)

Definition show_event (e : AuditEvent) : str := ev_decision_id e ++ ev_outcome e.
Definition toy_audit_json : JsonLib (HashMaterial AuditEvent) := toy_json show_event.

Definition example_intent (host : str) : RequestIntent (H := plain_url) :=
  Build_RequestIntent plain_url (plain_https host "/v1/me") "GET" [V4 (ipv4_new 8 8 8 8)] 0
    "navigation-1" "system-resolver" 60.

Definition example_authorize (host : str) (elapsed : Duration) (g : ScopeGateway)
    : Run (Result GatewayDecision GatewayError * ScopeGateway) :=
  authorize (U := plain_url) (S := toy_sha256) (J := toy_audit_json)
    (example_intent host) elapsed g.

(** The gateway after a call that returned. *)
Definition after_authorize (host : str) (elapsed : Duration) (g : ScopeGateway) : ScopeGateway :=
  match example_authorize host elapsed g with Done (_, g') => g' | Panic _ => g end.

Definition example_budget_of (p : CompiledPolicy) : RequestBudget :=
  ok_or example_budget (budget_new (maximum_total_requests p) (Policy.maximum_concurrency p)
                          (maximum_requests_per_second p)).

Definition example_gateway : ScopeGateway :=
  {| policy := example_compiled; budget := example_budget_of example_compiled; dns_pins := dns_new;
     audit := audit_new; maximum_redirects := 3; next_decision_id := 1 |}.

Lemma example_gateway_new : gateway_new example_compiled 3 = Ok example_gateway.
Proof. reflexivity. Qed.

Definition example_allow : GatewayDecision :=
  {| decision_id := format_decision_id 1; outcome := Allow; reason := Authorized |}.

(** A call that returned, by its result alone. *)
Lemma run_of_fst {A B} (r : Run (A * B)) a d :
  match r with Done (x, _) => Some x | Panic _ => None end = Some a ->
  r = Done (a, match r with Done (_, y) => y | Panic _ => d end).
Proof. destruct r as [[x y]|m]; naive_solver. Qed.

Lemma gateway_allows_exactly_permitted_witness :
  permitted (U := plain_url) (example_intent "api.app.example.com") 0 example_gateway.
Proof.
  apply (gateway_allows_exactly_permitted (U := plain_url) (S := toy_sha256) (J := toy_audit_json)
    (example_intent "api.app.example.com") 0 example_gateway example_allow
    (after_authorize "api.app.example.com" 0 example_gateway)).
  - apply run_of_fst. vm_compute. reflexivity.
  - reflexivity.
Defined.

Definition example_gateway1 : ScopeGateway := after_authorize "api.app.example.com" 0 example_gateway.
Definition example_gateway2 : ScopeGateway := complete_request example_gateway1.
Definition example_gateway3 : ScopeGateway := after_authorize "evil.example.org" 5 example_gateway2.

Definition example_deny : GatewayDecision := deny (format_decision_id 2) UrlOrMethodOutOfScope.

Lemma example_allowed :
  example_authorize "api.app.example.com" 0 example_gateway = Done (Ok example_allow, example_gateway1).
Proof. apply run_of_fst. vm_compute. reflexivity. Qed.

Lemma example_denied :
  example_authorize "evil.example.org" 5 example_gateway2 = Done (Ok example_deny, example_gateway3).
Proof. apply run_of_fst. vm_compute. reflexivity. Qed.

Lemma example_trace :
  gateway_trace (U := plain_url) (S := toy_sha256) (J := toy_audit_json) example_gateway
    [Decided example_allow; Completed; Decided example_deny] example_gateway3.
Proof.
  apply (gtrace_step _ example_gateway1); [apply step_decided with (1 := example_allowed)|].
  apply (gtrace_step _ example_gateway2); [apply step_completed|].
  apply (gtrace_step _ example_gateway3); [apply step_decided with (1 := example_denied)|].
  apply gtrace_nil.
Qed.

Lemma gateway_decision_is_audited_witness :
  decision_recorded (U := plain_url) (example_intent "api.app.example.com") 0 example_allow
    example_gateway example_gateway1.
Proof.
  apply (gateway_decision_is_audited (U := plain_url) (S := toy_sha256) (J := toy_audit_json)
    (example_intent "api.app.example.com") 0 example_gateway (Ok example_allow) example_gateway1).
  - exact (proj1 (gateway_new_ok _ _ _ example_gateway_new)).
  - exact example_allowed.
Defined.

Lemma gateway_never_exceeds_policy_witness :
  count is_allowed_event [Decided example_allow; Completed; Decided example_deny]
    + remaining_requests example_gateway3 <= maximum_total_requests example_compiled.
Proof.
  exact (proj1 (gateway_never_exceeds_policy (U := plain_url) (S := toy_sha256) (J := toy_audit_json)
    example_compiled 3 example_gateway _ example_gateway3 example_gateway_new example_trace)).
Defined.

Lemma gateway_decision_ids_unique_witness : NoDup (record_ids example_gateway3).
Proof.
  apply (gateway_decision_ids_unique (U := plain_url) (S := toy_sha256) (J := toy_audit_json)
    example_compiled 3 example_gateway _ example_gateway3 example_gateway_new example_trace).
  vm_compute. reflexivity.
Defined.

(** A policy that [compile] accepts, with a rate of [1e-30] requests per second. *)
Definition tiny_rate_policy : CompiledPolicy :=
  ok_or example_compiled (compile (set_max_requests_per_second tiny_rate example_policy) 0).

Definition tiny_rate_gateway : ScopeGateway :=
  after_authorize "api.app.example.com" 0
    {| policy := tiny_rate_policy; budget := example_budget_of tiny_rate_policy;
       dns_pins := dns_new; audit := audit_new; maximum_redirects := 3; next_decision_id := 1 |}.

Lemma gateway_panics_only_on_waiting_time_witness :
  permitted_but_budget (U := plain_url) (example_intent "api.app.example.com") 1000000000
    tiny_rate_gateway.
Proof.
  apply (gateway_panics_only_on_waiting_time (U := plain_url) (S := toy_sha256) (J := toy_audit_json)
    (example_intent "api.app.example.com") 1000000000 tiny_rate_gateway
    "can not convert float seconds to Duration").
  vm_compute. reflexivity.
Defined.
