(* ===== verification/Transport.v ===== *)
(** * Connection tickets ([crates/nxb-transport])

    A [TicketAuthority] issues single-use tickets bound to a decision, a DNS
    context, an endpoint and a time window, and turns the first matching use of a
    ticket into a permit. *)

From S2P Require Import Prelude ByteStr IpAddr HashChain.
Local Open Scope N_scope.

(** ** Model *)

Definition MAX_TICKET_TTL_MILLISECONDS : N := 30000.

Inductive TransportScheme : Type := Http | Https.

#[export] Instance TransportScheme_eq_dec : EqDecision TransportScheme.
Proof. solve_decision. Defined.

Definition scheme_code (scheme : TransportScheme) : str :=
  match scheme with Http => "http" | Https => "https" end.
Definition default_port (scheme : TransportScheme) : N :=
  match scheme with Http => 80 | Https => 443 end.

Record TicketBinding : Type := {
  bd_decision_id : str;
  bd_dns_context_id : str;
  bd_host : str;
  bd_scheme : TransportScheme;
  bd_port : N;
  bd_sni : option str;
  bd_http_host : str;
  bd_pinned_addresses : gset IpAddr;
  bd_selected_ip : IpAddr;
  bd_redirect_depth : N
}.

Record TicketIssueRequest : Type := {
  rq_binding : TicketBinding;
  rq_issued_at_milliseconds : N;
  rq_ttl_milliseconds : N;
  rq_audit_anchor : str
}.

Record ConnectionTicket : Type := {
  tk_ticket_id : str;
  tk_decision_id : str;
  tk_dns_context_id : str;
  tk_host : str;
  tk_scheme : TransportScheme;
  tk_port : N;
  tk_sni : option str;
  tk_http_host : str;
  tk_pinned_addresses : gset IpAddr;
  tk_selected_ip : IpAddr;
  tk_redirect_depth : N;
  tk_issued_at_milliseconds : N;
  tk_expires_at_milliseconds : N;
  tk_audit_anchor : str;
  tk_binding_hash : str
}.

Record ConnectionAttempt : Type := {
  at_ticket_id : str;
  at_dns_context_id : str;
  at_scheme : TransportScheme;
  at_remote_ip : IpAddr;
  at_port : N;
  at_sni : option str;
  at_http_host : str;
  at_redirect_depth : N
}.

Record TransportPermit : Type := {
  pm_ticket_id : str;
  pm_decision_id : str;
  pm_dns_context_id : str;
  pm_scheme : TransportScheme;
  pm_remote_ip : IpAddr;
  pm_port : N;
  pm_sni : option str;
  pm_http_host : str;
  pm_redirect_depth : N;
  pm_binding_hash : str
}.

Inductive BindingField : Type :=
  | FieldDnsContextId | FieldScheme | FieldRemoteIp | FieldPort | FieldSni | FieldHttpHost
  | FieldRedirectDepth.

Definition binding_field_code (field : BindingField) : str :=
  match field with
  | FieldDnsContextId => "dns_context_id"
  | FieldScheme => "scheme"
  | FieldRemoteIp => "remote_ip"
  | FieldPort => "port"
  | FieldSni => "sni"
  | FieldHttpHost => "http_host"
  | FieldRedirectDepth => "redirect_depth"
  end.

Inductive TicketUseOutcome : Type :=
  | UseConsumed
  | UnknownTicket
  | AlreadyConsumed
  | UseRevoked
  | Expired
  | UseClockRegression
  | BindingMismatch (field : BindingField).

Definition use_outcome_code (outcome : TicketUseOutcome) : str :=
  match outcome with
  | UseConsumed => "consumed"
  | UnknownTicket => "unknown_ticket"
  | AlreadyConsumed => "already_consumed"
  | UseRevoked => "revoked"
  | Expired => "expired"
  | UseClockRegression => "clock_regression"
  | BindingMismatch _ => "binding_mismatch"
  end.

Record TicketUseResult : Type := {
  use_outcome : TicketUseOutcome;
  use_ticket : option ConnectionTicket;
  use_attempt : ConnectionAttempt;
  use_permit : option TransportPermit
}.

Inductive TicketIssueError : Type :=
  | InvalidDecisionId
  | InvalidDnsContextId
  | IssueInvalidHost
  | InvalidPort
  | EmptyPinnedAddressSet
  | SelectedIpNotPinned
  | InvalidTlsSni
  | UnexpectedTlsSni
  | InvalidHttpHost
  | InvalidTtl
  | ExpiryOverflow
  | InvalidAuditAnchor.

Inductive StoredTicketState : Type := Issued | Consumed | Revoked.

#[export] Instance StoredTicketState_eq_dec : EqDecision StoredTicketState.
Proof. solve_decision. Defined.

Record StoredTicket : Type := {
  st_ticket : ConnectionTicket;
  st_state : StoredTicketState
}.

Record TicketAuthority : Type := {
  tickets : gmap str StoredTicket;
  next_ticket_id : N
}.

(** ** Operations *)

Definition authority_new : TicketAuthority := {| tickets := ∅; next_ticket_id := 1 |}.

Definition normalize_authority (value : str) : str := to_ascii_lowercase (trim value).

Definition transport_is_valid_host (value : str) : bool :=
  let host := normalize_host value in
  if bool_decide (host = []) || (253 <? len host) || contains_byte 58 host
     || contains_byte 47 host || contains_byte 92 host
  then false
  else forallb is_valid_label (split_byte 46 host).

Definition expected_http_host (host : str) (scheme : TransportScheme) (port : N) : str :=
  let host := normalize_host host in
  if port =? default_port scheme then host else host ++ (":" : str) ++ decimal port.

Definition normalize_and_validate_binding (binding : TicketBinding)
    : Result TicketBinding TicketIssueError :=
  if negb (is_valid_identifier (bd_decision_id binding)) then Err InvalidDecisionId
  else if negb (is_valid_identifier (bd_dns_context_id binding)) then Err InvalidDnsContextId
  else
    let decision_id := normalize_identifier (bd_decision_id binding) in
    let dns_context_id := normalize_identifier (bd_dns_context_id binding) in
    let host := normalize_host (bd_host binding) in
    if negb (transport_is_valid_host host) then Err IssueInvalidHost
    else if bd_port binding =? 0 then Err InvalidPort
    else if bool_decide (bd_pinned_addresses binding = ∅) then Err EmptyPinnedAddressSet
    else if negb (bool_decide (bd_selected_ip binding ∈ bd_pinned_addresses binding))
    then Err SelectedIpNotPinned
    else
      let sni := option_map normalize_host (bd_sni binding) in
      let? _ :=
        match bd_scheme binding with
        | Https => if bool_decide (sni <> Some host) then Err InvalidTlsSni else Ok tt
        | Http => if bool_decide (is_Some sni) then Err UnexpectedTlsSni else Ok tt
        end in
      let expected_authority := expected_http_host host (bd_scheme binding) (bd_port binding) in
      let http_host := normalize_authority (bd_http_host binding) in
      if bool_decide (http_host <> expected_authority) then Err InvalidHttpHost
      else Ok {| bd_decision_id := decision_id;
                 bd_dns_context_id := dns_context_id;
                 bd_host := host;
                 bd_scheme := bd_scheme binding;
                 bd_port := bd_port binding;
                 bd_sni := sni;
                 bd_http_host := http_host;
                 bd_pinned_addresses := bd_pinned_addresses binding;
                 bd_selected_ip := bd_selected_ip binding;
                 bd_redirect_depth := bd_redirect_depth binding |}.

(** The text whose hash binds a ticket: its lines, separated by newlines. *)
Definition binding_lines (ticket_id : str) (binding : TicketBinding)
    (issued_at_milliseconds expires_at_milliseconds : N) (audit_anchor : str) : list str :=
  let pinned := join ("," : str) (map ip_to_string (btree_iter (bd_pinned_addresses binding))) in
  [ ("nxb.transport.v1" : str); ticket_id; bd_decision_id binding; bd_dns_context_id binding;
    bd_host binding; scheme_code (bd_scheme binding); decimal (bd_port binding);
    default [] (bd_sni binding); bd_http_host binding; pinned;
    ip_to_string (bd_selected_ip binding); decimal (bd_redirect_depth binding);
    decimal issued_at_milliseconds; decimal expires_at_milliseconds; audit_anchor ].

Definition binding_material (ticket_id : str) (binding : TicketBinding)
    (issued_at_milliseconds expires_at_milliseconds : N) (audit_anchor : str) : str :=
  join [ascii_of_N 10]
    (binding_lines ticket_id binding issued_at_milliseconds expires_at_milliseconds audit_anchor).

Definition binding_hash `{Sha256Lib} (ticket_id : str) (binding : TicketBinding)
    (issued_at_milliseconds expires_at_milliseconds : N) (audit_anchor : str) : str :=
  to_lower_hex (sha256 (binding_material ticket_id binding issued_at_milliseconds
                          expires_at_milliseconds audit_anchor)).

Definition format_ticket_id (value : N) : str := ("ticket-" : str) ++ decimal020 value.
#[global] Arguments format_ticket_id : simpl never.

Definition allocate_ticket_id (self : TicketAuthority) : str * TicketAuthority :=
  let value := next_ticket_id self in
  (format_ticket_id value,
   {| tickets := tickets self; next_ticket_id := saturating_add value 1 |}).

(** The ticket [issue] stores and returns. *)
Definition bound_ticket (ticket_id : str) (binding : TicketBinding)
    (issued_at_milliseconds expires_at_milliseconds : N) (audit_anchor hash : str)
    : ConnectionTicket :=
  {| tk_ticket_id := ticket_id;
     tk_decision_id := bd_decision_id binding;
     tk_dns_context_id := bd_dns_context_id binding;
     tk_host := bd_host binding;
     tk_scheme := bd_scheme binding;
     tk_port := bd_port binding;
     tk_sni := bd_sni binding;
     tk_http_host := bd_http_host binding;
     tk_pinned_addresses := bd_pinned_addresses binding;
     tk_selected_ip := bd_selected_ip binding;
     tk_redirect_depth := bd_redirect_depth binding;
     tk_issued_at_milliseconds := issued_at_milliseconds;
     tk_expires_at_milliseconds := expires_at_milliseconds;
     tk_audit_anchor := audit_anchor;
     tk_binding_hash := hash |}.

Definition issue `{Sha256Lib} (request : TicketIssueRequest) (self : TicketAuthority)
    : Result ConnectionTicket TicketIssueError * TicketAuthority :=
  match normalize_and_validate_binding (rq_binding request) with
  | Err error => (Err error, self)
  | Ok binding =>
      if (rq_ttl_milliseconds request =? 0)
         || (MAX_TICKET_TTL_MILLISECONDS <? rq_ttl_milliseconds request)
      then (Err InvalidTtl, self)
      else if negb (is_lower_hex_sha256 (rq_audit_anchor request)) then (Err InvalidAuditAnchor, self)
      else match checked_add (rq_issued_at_milliseconds request) (rq_ttl_milliseconds request) with
      | None => (Err ExpiryOverflow, self)
      | Some expires_at_milliseconds =>
          let (ticket_id, self) := allocate_ticket_id self in
          let hash := binding_hash ticket_id binding (rq_issued_at_milliseconds request)
                        expires_at_milliseconds (rq_audit_anchor request) in
          let ticket := bound_ticket ticket_id binding (rq_issued_at_milliseconds request)
                          expires_at_milliseconds (rq_audit_anchor request) hash in
          (Ok ticket,
           {| tickets := <[ticket_id := {| st_ticket := ticket; st_state := Issued |}]> (tickets self);
              next_ticket_id := next_ticket_id self |})
      end
  end.

Definition failed_use (outcome : TicketUseOutcome) (ticket : ConnectionTicket)
    (attempt : ConnectionAttempt) : TicketUseResult :=
  {| use_outcome := outcome; use_ticket := Some ticket; use_attempt := attempt;
     use_permit := None |}.

(** The comparisons of an attempt with its ticket, in the order they are made. *)
Definition binding_checks (ticket : ConnectionTicket) (attempt : ConnectionAttempt)
    : list (bool * BindingField) :=
  [ (bool_decide (normalize_identifier (at_dns_context_id attempt) = tk_dns_context_id ticket),
     FieldDnsContextId);
    (bool_decide (at_scheme attempt = tk_scheme ticket), FieldScheme);
    (bool_decide (at_remote_ip attempt = tk_selected_ip ticket), FieldRemoteIp);
    (at_port attempt =? tk_port ticket, FieldPort);
    (bool_decide (option_map normalize_host (at_sni attempt) = tk_sni ticket), FieldSni);
    (bool_decide (normalize_authority (at_http_host attempt) = tk_http_host ticket), FieldHttpHost);
    (at_redirect_depth attempt =? tk_redirect_depth ticket, FieldRedirectDepth) ].

Definition permit_of (ticket : ConnectionTicket) : TransportPermit :=
  {| pm_ticket_id := tk_ticket_id ticket;
     pm_decision_id := tk_decision_id ticket;
     pm_dns_context_id := tk_dns_context_id ticket;
     pm_scheme := tk_scheme ticket;
     pm_remote_ip := tk_selected_ip ticket;
     pm_port := tk_port ticket;
     pm_sni := tk_sni ticket;
     pm_http_host := tk_http_host ticket;
     pm_redirect_depth := tk_redirect_depth ticket;
     pm_binding_hash := tk_binding_hash ticket |}.

Definition consume (attempt : ConnectionAttempt) (now_milliseconds : N) (self : TicketAuthority)
    : TicketUseResult * TicketAuthority :=
  match tickets self !! at_ticket_id attempt with
  | None =>
      ({| use_outcome := UnknownTicket; use_ticket := None; use_attempt := attempt;
          use_permit := None |}, self)
  | Some stored =>
      let ticket := st_ticket stored in
      match st_state stored with
      | Consumed => (failed_use AlreadyConsumed ticket attempt, self)
      | Revoked => (failed_use UseRevoked ticket attempt, self)
      | Issued =>
          let self :=
            {| tickets := <[at_ticket_id attempt := {| st_ticket := ticket; st_state := Consumed |}]>
                            (tickets self);
               next_ticket_id := next_ticket_id self |} in
          if now_milliseconds <? tk_issued_at_milliseconds ticket
          then (failed_use UseClockRegression ticket attempt, self)
          else if tk_expires_at_milliseconds ticket <? now_milliseconds
          then (failed_use Expired ticket attempt, self)
          else match List.find (fun check => negb check.1) (binding_checks ticket attempt) with
          | Some (_, field) => (failed_use (BindingMismatch field) ticket attempt, self)
          | None =>
              ({| use_outcome := UseConsumed; use_ticket := Some ticket; use_attempt := attempt;
                  use_permit := Some (permit_of ticket) |}, self)
          end
      end
  end.

Definition revocable (normalized : str) (stored : StoredTicket) : bool :=
  bool_decide (tk_dns_context_id (st_ticket stored) = normalized)
  && bool_decide (st_state stored = Issued).

Definition revoke_ticket (normalized : str) (stored : StoredTicket) : StoredTicket :=
  if revocable normalized stored
  then {| st_ticket := st_ticket stored; st_state := Revoked |}
  else stored.

(** [revoke_context]: the number of tickets it revoked, and the authority. *)
Definition revoke_context (context_id : str) (self : TicketAuthority) : nat * TicketAuthority :=
  let normalized := normalize_identifier context_id in
  (size (filter (fun kv : str * StoredTicket => revocable normalized kv.2 = true) (tickets self)),
   {| tickets := revoke_ticket normalized <$> tickets self;
      next_ticket_id := next_ticket_id self |}).

Definition ticket (ticket_id : str) (self : TicketAuthority) : option ConnectionTicket :=
  option_map st_ticket (tickets self !! ticket_id).

Definition state_count (state : StoredTicketState) (self : TicketAuthority) : nat :=
  size (filter (fun kv : str * StoredTicket => st_state kv.2 = state) (tickets self)).
Definition issued_count (self : TicketAuthority) : nat := state_count Issued self.
Definition consumed_count (self : TicketAuthority) : nat := state_count Consumed self.

(** ** Bindings *)

(** A binding that passed validation. *)
Record binding_ok (b : TicketBinding) : Prop := {
  bk_decision_id : is_valid_identifier (bd_decision_id b) = true;
  bk_decision_id_norm : normalize_identifier (bd_decision_id b) = bd_decision_id b;
  bk_context : is_valid_identifier (bd_dns_context_id b) = true;
  bk_context_norm : normalize_identifier (bd_dns_context_id b) = bd_dns_context_id b;
  bk_host : transport_is_valid_host (bd_host b) = true;
  bk_port : bd_port b <> 0;
  bk_pinned : bd_selected_ip b ∈ bd_pinned_addresses b;
  bk_sni : bd_sni b = match bd_scheme b with Https => Some (bd_host b) | Http => None end;
  bk_http_host : bd_http_host b = expected_http_host (bd_host b) (bd_scheme b) (bd_port b)
}.

Lemma normalize_and_validate_binding_ok b b' :
  normalize_and_validate_binding b = Ok b' ->
  binding_ok b'
  /\ bd_decision_id b' = normalize_identifier (bd_decision_id b)
  /\ bd_dns_context_id b' = normalize_identifier (bd_dns_context_id b)
  /\ bd_host b' = normalize_host (bd_host b)
  /\ bd_scheme b' = bd_scheme b /\ bd_port b' = bd_port b
  /\ bd_pinned_addresses b' = bd_pinned_addresses b
  /\ bd_selected_ip b' = bd_selected_ip b /\ bd_redirect_depth b' = bd_redirect_depth b.
Proof.
  unfold normalize_and_validate_binding. intros H.
  destruct (bd_scheme b) eqn:Es; inv_ok H; bools; cbn; (split; [|by auto 10]).
  all: repeat match goal with HX : ~ (_ <> _) |- _ => apply dec_stable in HX end.
  all: constructor; cbn; auto using is_valid_identifier_normalized, normalize_identifier_idemp; rewrite ?Es; auto.
  destruct (option_map normalize_host (bd_sni b)); [|done]. exfalso. naive_solver.
Qed.

(** ** Issuing and using a ticket *)

Definition ticket_binding (t : ConnectionTicket) : TicketBinding :=
  {| bd_decision_id := tk_decision_id t; bd_dns_context_id := tk_dns_context_id t;
     bd_host := tk_host t; bd_scheme := tk_scheme t; bd_port := tk_port t; bd_sni := tk_sni t;
     bd_http_host := tk_http_host t; bd_pinned_addresses := tk_pinned_addresses t;
     bd_selected_ip := tk_selected_ip t; bd_redirect_depth := tk_redirect_depth t |}.

Lemma bound_ticket_binding id b i e anchor h : ticket_binding (bound_ticket id b i e anchor h) = b.
Proof. by destruct b. Qed.

(** What every issued ticket satisfies. *)
Record ticket_ok `{Sha256Lib} (t : ConnectionTicket) : Prop := {
  to_id : exists k, tk_ticket_id t = format_ticket_id k;
  to_binding : binding_ok (ticket_binding t);
  to_window : tk_issued_at_milliseconds t < tk_expires_at_milliseconds t;
  to_ttl : tk_expires_at_milliseconds t <= tk_issued_at_milliseconds t + MAX_TICKET_TTL_MILLISECONDS;
  to_expiry : tk_expires_at_milliseconds t <= u64_max;
  to_anchor : is_lower_hex_sha256 (tk_audit_anchor t) = true;
  to_hash : tk_binding_hash t
    = binding_hash (tk_ticket_id t) (ticket_binding t) (tk_issued_at_milliseconds t)
        (tk_expires_at_milliseconds t) (tk_audit_anchor t)
}.

Lemma issue_inv `{Sha256Lib} rq a r a' :
  issue rq a = (r, a') ->
  match r with
  | Err _ => a' = a
  | Ok t =>
      normalize_and_validate_binding (rq_binding rq) = Ok (ticket_binding t)
      /\ ticket_ok t /\ tk_ticket_id t = format_ticket_id (next_ticket_id a)
      /\ tk_audit_anchor t = rq_audit_anchor rq
      /\ tk_issued_at_milliseconds t = rq_issued_at_milliseconds rq
      /\ tk_expires_at_milliseconds t = rq_issued_at_milliseconds rq + rq_ttl_milliseconds rq
      /\ tickets a' = <[tk_ticket_id t := {| st_ticket := t; st_state := Issued |}]> (tickets a)
      /\ next_ticket_id a' = saturating_add (next_ticket_id a) 1
  end.
Proof.
  unfold issue, allocate_ticket_id. intros Hi. repeat step_in Hi; simplify_eq; try done.
  apply checked_add_some in Heqo as [-> Hle]. bools. rewrite bound_ticket_binding.
  split_and!; auto. constructor; rewrite ?bound_ticket_binding; cbn; auto; try lia.
  { by eexists. }
  by apply normalize_and_validate_binding_ok in Heqr0 as [? _].
Qed.

(** An attempt that agrees with the ticket on every bound field. *)
Record attempt_matches (t : ConnectionTicket) (x : ConnectionAttempt) : Prop := {
  am_context : normalize_identifier (at_dns_context_id x) = tk_dns_context_id t;
  am_scheme : at_scheme x = tk_scheme t;
  am_ip : at_remote_ip x = tk_selected_ip t;
  am_port : at_port x = tk_port t;
  am_sni : option_map normalize_host (at_sni x) = tk_sni t;
  am_http_host : normalize_authority (at_http_host x) = tk_http_host t;
  am_redirect : at_redirect_depth x = tk_redirect_depth t
}.

Lemma binding_checks_pass t x :
  List.find (fun check => negb check.1) (binding_checks t x) = None <-> attempt_matches t x.
Proof.
  unfold binding_checks. cbn [List.find fst]. split.
  - intros Hf. repeat step_in Hf. bools. by constructor.
  - intros []. rewrite !bool_decide_eq_true_2, !(proj2 (N.eqb_eq _ _)) by done. done.
Qed.

(** Every use of a ticket, by its outcome. *)
Lemma consume_inv x now a r a' :
  consume x now a = (r, a') ->
  next_ticket_id a' = next_ticket_id a
  /\ ((a' = a /\ use_permit r = None
       /\ (forall st, tickets a !! at_ticket_id x = Some st -> st_state st <> Issued))
      \/ exists t, tickets a !! at_ticket_id x = Some {| st_ticket := t; st_state := Issued |}
         /\ tickets a' = <[at_ticket_id x := {| st_ticket := t; st_state := Consumed |}]> (tickets a)
         /\ (forall p, use_permit r = Some p <->
               p = permit_of t /\ attempt_matches t x
               /\ tk_issued_at_milliseconds t <= now <= tk_expires_at_milliseconds t)).
Proof.
  unfold consume. destruct (tickets a !! at_ticket_id x) as [[t []]|] eqn:El;
    cbn [st_state st_ticket]; intros Hc.
  2-4: simplify_eq; split; [done|]; left; split_and!; [done|done|]; intros st Hst; simplify_eq; done.
  destruct (now <? tk_issued_at_milliseconds t) eqn:E1;
    [|destruct (tk_expires_at_milliseconds t <? now) eqn:E2;
      [|destruct (List.find _ (binding_checks t x)) as [[c f]|] eqn:E3]]; simplify_eq; bools;
    (split; [done|]; right; exists t; split_and!; [done|done|]; intros p; cbn; split).
  all: try (intros ?; done).
  - intros (_ & _ & ?). lia.
  - intros (_ & _ & ?). lia.
  - intros (_ & Hm & _). apply binding_checks_pass in Hm. congruence.
  - intros [= <-]. apply binding_checks_pass in E3. auto with lia.
  - by intros (-> & _).
Qed.

(** ** Sequences of operations *)

Inductive TicketEvent : Type :=
  | TicketIssued (t : ConnectionTicket)
  | TicketRefused (e : TicketIssueError)
  | TicketUsed (r : TicketUseResult)
  | TicketsRevoked (n : nat).

Inductive authority_step `{Sha256Lib} : TicketAuthority -> TicketEvent -> TicketAuthority -> Prop :=
  | step_issued rq t a a' : issue rq a = (Ok t, a') -> authority_step a (TicketIssued t) a'
  | step_refused_issue rq e a a' : issue rq a = (Err e, a') -> authority_step a (TicketRefused e) a'
  | step_used x now r a a' : consume x now a = (r, a') -> authority_step a (TicketUsed r) a'
  | step_revoked c n a a' : revoke_context c a = (n, a') -> authority_step a (TicketsRevoked n) a'.

Inductive authority_trace `{Sha256Lib}
    : TicketAuthority -> list TicketEvent -> TicketAuthority -> Prop :=
  | atrace_nil a : authority_trace a [] a
  | atrace_step a a1 a2 e es :
      authority_step a e a1 -> authority_trace a1 es a2 -> authority_trace a (e :: es) a2.

Definition event_permit (e : TicketEvent) : option TransportPermit :=
  match e with TicketUsed r => use_permit r | _ => None end.
Definition permits (es : list TicketEvent) : list TransportPermit := omap event_permit es.

(** The stored tickets are keyed by their identifiers and well formed, and all
    identifiers lie below the counter until it saturates. *)
Record authority_ok `{Sha256Lib} (a : TicketAuthority) : Prop := {
  ao_tickets : forall id st, tickets a !! id = Some st ->
    tk_ticket_id (st_ticket st) = id /\ ticket_ok (st_ticket st)
    /\ is_valid_identifier id = true;
  ao_next : next_ticket_id a <= u64_max;
  ao_below : next_ticket_id a < u64_max -> forall id st, tickets a !! id = Some st ->
    exists k, k < next_ticket_id a /\ id = format_ticket_id k
}.

Section Tickets.
Context {S : Sha256Lib}.

Lemma authority_new_ok : authority_ok authority_new.
Proof. constructor; cbn; done. Qed.

Lemma format_ticket_id_inj a b : format_ticket_id a = format_ticket_id b -> a = b.
Proof. unfold format_ticket_id. by intros ?%app_inv_head%(inj decimal020). Qed.

Lemma format_ticket_id_valid k : k <= u64_max -> is_valid_identifier (format_ticket_id k) = true.
Proof. intros Hk. apply prefixed_identifier_valid; [done|done|simpl; lia|done]. Qed.

(** A step that keeps the identifiers and the tickets keeps the invariant. *)
Lemma authority_ok_same a a' :
  authority_ok a -> next_ticket_id a' = next_ticket_id a ->
  (forall id st', tickets a' !! id = Some st' ->
     exists st, tickets a !! id = Some st /\ st_ticket st' = st_ticket st) ->
  authority_ok a'.
Proof.
  intros [Ht Hn Hb] En Hs. constructor; rewrite ?En; auto.
  - intros id st' (st & Hst & ->)%Hs. by apply Ht.
  - intros Hlt id st' (st & Hst & _)%Hs. by eapply Hb.
Qed.

Lemma revoke_context_lookup c a n a' id :
  revoke_context c a = (n, a') ->
  tickets a' !! id = revoke_ticket (normalize_identifier c) <$> tickets a !! id.
Proof. unfold revoke_context. intros [= <- <-]. cbn. by rewrite lookup_fmap. Qed.

Lemma revoke_ticket_ticket c st : st_ticket (revoke_ticket c st) = st_ticket st.
Proof. unfold revoke_ticket. by destruct (revocable c st). Qed.

Lemma authority_step_ok a e a' : authority_ok a -> authority_step a e a' -> authority_ok a'.
Proof.
  intros Ha Hs. destruct Hs as [rq t a a' Hi|rq e a a' Hi|x now r a a' Hc|c n a a' Hr].
  - apply issue_inv in Hi as (_ & Hok & Hid & _ & _ & _ & Ht & Hn). destruct Ha as [Hk Hle Hb].
    constructor; rewrite ?Hn; [|apply saturating_add_le|].
    + intros id st. rewrite Ht. intros [[<- <-]|[_ Hst]]%lookup_insert_Some; [|by apply Hk].
      split_and!; [done|done|]. rewrite Hid. by apply format_ticket_id_valid.
    + intros Hlt. pose proof (saturating_succ_exact _ Hlt) as Es. rewrite Es in *.
      intros id st. rewrite Ht. intros [[<- _]|[_ Hst]]%lookup_insert_Some.
      * exists (next_ticket_id a). split; [lia|done].
      * destruct (Hb ltac:(lia) id st Hst) as (k & ? & ?). exists k. split; [lia|done].
  - by apply issue_inv in Hi as ->.
  - apply consume_inv in Hc as [Hn [(-> & _)|(t & El & Ht & _)]]; [done|].
    apply (authority_ok_same a); [done|done|]. intros id st'. rewrite Ht.
    intros [[<- <-]|[_ ?]]%lookup_insert_Some; eauto.
  - apply (authority_ok_same a); [done|by unfold revoke_context in Hr; simplify_eq|].
    intros id st'. rewrite (revoke_context_lookup _ _ _ _ _ Hr). intros (st & -> & ?)%fmap_Some.
    exists st. subst st'. split; [done|apply revoke_ticket_ticket].
Qed.

Lemma authority_step_next a e a' : authority_step a e a' -> authority_ok a -> next_ticket_id a <= next_ticket_id a'.
Proof.
  intros Hs [_ Hn _]. destruct Hs as [rq t a a' Hi|rq e a a' Hi|x now r a a' Hc|c n a a' Hr].
  - apply issue_inv in Hi as (_ & _ & _ & _ & _ & _ & _ & ->). unfold saturating_add. lia.
  - apply issue_inv in Hi as ->. lia.
  - apply consume_inv in Hc as [-> _]. lia.
  - unfold revoke_context in Hr. by simplify_eq.
Qed.

Lemma authority_trace_next a es a' :
  authority_trace a es a' -> authority_ok a -> next_ticket_id a <= next_ticket_id a'.
Proof.
  induction 1 as [|a a1 a2 e es Hs Ht IH]; intros Ha; [lia|].
  pose proof (authority_step_next _ _ _ Hs Ha). specialize (IH (authority_step_ok _ _ _ Ha Hs)). lia.
Qed.

(** A ticket that was used or revoked. *)
Definition spent (a : TicketAuthority) (id : str) : Prop :=
  exists st, tickets a !! id = Some st /\ st_state st <> Issued.

(** One step while the counter is not saturated: a spent ticket stays spent and
    gives no permit, and a permit spends its ticket. *)
Lemma authority_step_spent a e a' :
  authority_ok a -> next_ticket_id a < u64_max -> authority_step a e a' ->
  (forall id, spent a id -> spent a' id)
  /\ (forall p, event_permit e = Some p -> ~ spent a (pm_ticket_id p) /\ spent a' (pm_ticket_id p)).
Proof.
  intros Ha Hlt Hs. unfold spent. destruct Hs as [rq t a a' Hi|rq e a a' Hi|x now r a a' Hc|c n a a' Hr]; cbn.
  - apply issue_inv in Hi as (_ & _ & Hid & _ & _ & _ & Ht & _). split; [|done].
    intros id (st & Hst & ?). exists st. rewrite Ht. split; [|done]. rewrite lookup_insert_ne; [done|].
    intros <-. destruct (ao_below a Ha Hlt _ _ Hst) as (k & Hk & Heq).
    rewrite Hid in Heq. apply format_ticket_id_inj in Heq. lia.
  - apply issue_inv in Hi as ->. done.
  - apply consume_inv in Hc as [_ [(-> & Hp & _)|(t & El & Ht & Hp)]]; [split; [done|congruence]|].
    destruct (ao_tickets a Ha _ _ El) as [Hid _]. cbn in Hid. split.
    + intros id (st & Hst & Hi). rewrite Ht. destruct (decide (id = at_ticket_id x)) as [->|Hne].
      * exists {| st_ticket := t; st_state := Consumed |}. by rewrite lookup_insert_eq.
      * exists st. by rewrite lookup_insert_ne.
    + intros p (-> & _)%Hp. cbn. rewrite Hid, Ht, El, lookup_insert_eq. split.
      * intros (st & ? & ?). by simplify_eq.
      * by eexists.
  - split; [|done]. intros id (st & Hst & Hi). rewrite (revoke_context_lookup _ _ _ _ _ Hr), Hst.
    eexists. split; [done|]. unfold revoke_ticket. by destruct (revocable _ st).
Qed.

Lemma authority_trace_spent a es a' :
  authority_trace a es a' -> authority_ok a -> next_ticket_id a' < u64_max ->
  (forall id, spent a id -> spent a' id)
  /\ NoDup (pm_ticket_id <$> permits es)
  /\ (forall p, p ∈ permits es -> ~ spent a (pm_ticket_id p) /\ spent a' (pm_ticket_id p)).
Proof.
  induction 1 as [a|a a1 a2 e es Hs Ht IH]; intros Ha Hlt.
  - split_and!; [done|constructor|]. intros p Hp. by apply elem_of_nil in Hp.
  - pose proof (authority_step_ok _ _ _ Ha Hs) as Ha1. pose proof (authority_trace_next _ _ _ Ht Ha1).
    pose proof (authority_step_next _ _ _ Hs Ha).
    destruct (IH Ha1 Hlt) as (I1 & I2 & I3).
    destruct (authority_step_spent _ _ _ Ha ltac:(lia) Hs) as (S1 & S2).
    unfold permits in *. cbn [omap list_omap]. destruct (event_permit e) as [p|] eqn:Ep.
    + destruct (S2 p eq_refl) as [Hn1 Hs1]. split_and!; [auto| |].
      * rewrite fmap_cons. constructor; [|done]. intros (q & Hq & [Hn _]%I3)%list_elem_of_fmap.
        apply Hn. by rewrite <- Hq.
      * intros q [->|[Hn Hq]%I3]%elem_of_cons; split; auto.
    + split_and!; [auto|done|]. intros q [Hn Hq]%I3. split; auto.
Qed.

End Tickets.

(** ** Counting the outstanding tickets *)

Definition use_releases_slot (outcome : TicketUseOutcome) : bool :=
  match outcome with
  | Expired | UseClockRegression | BindingMismatch _ => true
  | _ => false
  end.

Abbreviation is_issued := (fun kv : str * StoredTicket => st_state kv.2 = Issued).

Lemma issued_count_issue `{Sha256Lib} rq a t a' :
  authority_ok a -> next_ticket_id a < u64_max -> issue rq a = (Ok t, a') ->
  issued_count a' = Datatypes.S (issued_count a).
Proof.
  intros Ha Hlt (_ & _ & Hid & _ & _ & _ & Ht & _)%issue_inv. unfold issued_count, state_count.
  rewrite Ht, map_filter_insert_True by done. apply map_size_insert_None.
  apply map_lookup_filter_None. left. destruct (tickets a !! tk_ticket_id t) as [st|] eqn:E; [|done].
  destruct (ao_below a Ha Hlt _ _ E) as (k & Hk & Heq). rewrite Hid in Heq.
  apply format_ticket_id_inj in Heq. lia.
Qed.

Lemma issued_count_consume (m : gmap str StoredTicket) id t :
  m !! id = Some {| st_ticket := t; st_state := Issued |} ->
  size (filter is_issued m)
  = Datatypes.S (size (filter is_issued (<[id := {| st_ticket := t; st_state := Consumed |}]> m))).
Proof.
  intros Hl. rewrite map_filter_insert_False by done. rewrite map_filter_delete.
  assert (filter is_issued m !! id = Some {| st_ticket := t; st_state := Issued |}) as Hf
    by (by apply map_lookup_filter_Some).
  rewrite (map_size_delete_Some id (filter is_issued m)) by (by eexists).
  assert (size (filter is_issued m) <> 0%nat); [|lia].
  intros H0%map_size_empty_inv. by rewrite H0, lookup_empty in Hf.
Qed.

(** The slots of a use: an issued ticket turns into a permit or gives its slot
    back, and no other use changes anything. *)
Lemma consume_slots x now a r a' :
  consume x now a = (r, a') ->
  issued_count a
  = (issued_count a' + match use_permit r with Some _ => 1 | None => 0 end
     + (if use_releases_slot (use_outcome r) then 1 else 0))%nat.
Proof.
  unfold consume, issued_count, state_count.
  destruct (tickets a !! at_ticket_id x) as [[t []]|] eqn:El; cbn [st_state st_ticket]; intros Hc.
  2-4: simplify_eq; cbn; lia.
  destruct (now <? tk_issued_at_milliseconds t);
    [|destruct (tk_expires_at_milliseconds t <? now);
      [|destruct (List.find _ (binding_checks t x)) as [[c f]|]]]; simplify_eq;
    rewrite (issued_count_consume _ _ _ El); cbn; lia.
Qed.

Lemma revoke_slots c a n a' :
  revoke_context c a = (n, a') -> issued_count a = (issued_count a' + n)%nat.
Proof.
  unfold revoke_context, issued_count, state_count. intros [= <- <-]. cbn.
  set (rev := fun kv : str * StoredTicket => revocable (normalize_identifier c) kv.2 = true).
  rewrite map_filter_fmap, map_size_fmap.
  rewrite <- (map_filter_union_complement rev (filter is_issued (tickets a))) at 1.
  rewrite map_size_disj_union by apply map_disjoint_filter_complement.
  rewrite !map_filter_filter. rewrite Nat.add_comm. f_equal; f_equal; apply map_filter_ext;
    intros id st _; unfold rev, revoke_ticket, revocable; cbn;
    destruct st as [t []]; cbn; case_bool_decide; cbn; naive_solver.
Qed.

(** ** What the binding hash commits to *)

Lemma host_graphic h :
  transport_is_valid_host h = true -> normalize_host h = h -> forallb is_graphic h = true.
Proof.
  unfold transport_is_valid_host. intros Hv Hn. rewrite Hn in Hv. step_in Hv.
  by apply valid_labels_graphic.
Qed.

Definition ticket_lines (t : ConnectionTicket) : list str :=
  binding_lines (tk_ticket_id t) (ticket_binding t) (tk_issued_at_milliseconds t)
    (tk_expires_at_milliseconds t) (tk_audit_anchor t).

Definition ticket_material (t : ConnectionTicket) : str := join [ascii_of_N 10] (ticket_lines t).

Lemma expected_http_host_graphic h s p :
  normalize_host h = h -> forallb is_graphic h = true ->
  forallb is_graphic (expected_http_host h s p) = true.
Proof.
  intros Hn Hg. unfold expected_http_host. rewrite Hn. destruct (p =? default_port s); [done|].
  rewrite !forallb_app, Hg, decimal_graphic. done.
Qed.

Lemma format_ticket_id_graphic k : forallb is_graphic (format_ticket_id k) = true.
Proof. unfold format_ticket_id. by rewrite forallb_app, decimal020_graphic. Qed.

(** No line of the bound text holds a newline. *)
Lemma ticket_lines_graphic `{Sha256Lib} t :
  ticket_ok t -> normalize_host (tk_host t) = tk_host t ->
  Forall (fun l => forallb (fun c => negb (is_byte 10 c)) l = true) (ticket_lines t).
Proof.
  intros [[k Hid] [D1 D2 C1 C2 Hh _ _ Hs Hhh] _ _ _ Ha _] Hn. cbn in *.
  pose proof (host_graphic _ Hh Hn) as Hg.
  eapply Forall_impl; [|intros l; apply graphic_no_newline]. unfold ticket_lines, binding_lines. cbn.
  repeat apply Forall_cons_2; try apply Forall_nil_2; try reflexivity;
    auto using identifier_graphic, decimal_graphic, ip_to_string_graphic, is_lower_hex_sha256_graphic.
  - rewrite Hid. apply format_ticket_id_graphic.
  - by destruct (tk_scheme t).
  - rewrite Hs. by destruct (tk_scheme t).
  - rewrite Hhh. by apply expected_http_host_graphic.
  - apply forallb_join; [done|]. rewrite forallb_map. apply forallb_elem. intros x _.
    apply ip_to_string_graphic.
Qed.

Lemma ticket_lines_inj `{Sha256Lib} t1 t2 :
  ticket_ok t1 -> ticket_ok t2 ->
  normalize_host (tk_host t1) = tk_host t1 -> normalize_host (tk_host t2) = tk_host t2 ->
  ticket_material t1 = ticket_material t2 -> ticket_lines t1 = ticket_lines t2.
Proof.
  intros O1 O2 N1 N2 Hm. unfold ticket_material in Hm. apply (f_equal (split_byte 10)) in Hm.
  rewrite !split_byte_join in Hm by (reflexivity || discriminate || by apply ticket_lines_graphic).
  exact Hm.
Qed.

(** The fields of a ticket that its hash commits to. *)
Definition same_commitment (t1 t2 : ConnectionTicket) : Prop :=
  tk_ticket_id t1 = tk_ticket_id t2 /\ tk_decision_id t1 = tk_decision_id t2
  /\ tk_dns_context_id t1 = tk_dns_context_id t2 /\ tk_host t1 = tk_host t2
  /\ tk_scheme t1 = tk_scheme t2 /\ tk_port t1 = tk_port t2 /\ tk_sni t1 = tk_sni t2
  /\ tk_http_host t1 = tk_http_host t2
  /\ ip_to_string (tk_selected_ip t1) = ip_to_string (tk_selected_ip t2)
  /\ tk_redirect_depth t1 = tk_redirect_depth t2
  /\ tk_issued_at_milliseconds t1 = tk_issued_at_milliseconds t2
  /\ tk_expires_at_milliseconds t1 = tk_expires_at_milliseconds t2
  /\ tk_audit_anchor t1 = tk_audit_anchor t2.

Lemma same_lines_commitment `{Sha256Lib} t1 t2 :
  ticket_ok t1 -> ticket_ok t2 -> ticket_lines t1 = ticket_lines t2 -> same_commitment t1 t2.
Proof.
  intros [_ [_ _ _ _ _ _ _ S1 _] _ _ _ _ _] [_ [_ _ _ _ _ _ _ S2 _] _ _ _ _ _] Hl.
  unfold ticket_lines, binding_lines in Hl. cbn in *.
  injection Hl as ? ? ? ? Hs Hp _ ? _ ? Hr Hi He ?.
  assert (tk_scheme t1 = tk_scheme t2) as Es by (by destruct (tk_scheme t1), (tk_scheme t2)).
  apply (inj decimal) in Hp, Hr, Hi, He. unfold same_commitment. split_and!; auto.
  rewrite S1, S2, Es. by destruct (tk_scheme t2); f_equal.
Qed.

(** ** Properties *)

(** An issued ticket is bound to what was requested, in normal form: the
    selected address is one of the pinned ones, HTTPS carries an SNI equal to the
    host and HTTP none, the HTTP authority is the host (with the port unless it is
    the default one), the lifetime is positive, at most 30 seconds and does not
    overflow, and the binding hash is the digest of exactly these fields. *)
Theorem issued_ticket_is_bound `{Sha256Lib} rq a t a' :
  issue rq a = (Ok t, a') ->
  ticket_ok t
  /\ tk_decision_id t = normalize_identifier (bd_decision_id (rq_binding rq))
  /\ tk_dns_context_id t = normalize_identifier (bd_dns_context_id (rq_binding rq))
  /\ tk_host t = normalize_host (bd_host (rq_binding rq))
  /\ tk_port t = bd_port (rq_binding rq) /\ tk_scheme t = bd_scheme (rq_binding rq)
  /\ tk_selected_ip t = bd_selected_ip (rq_binding rq)
  /\ tk_pinned_addresses t = bd_pinned_addresses (rq_binding rq)
  /\ tk_audit_anchor t = rq_audit_anchor rq.
Proof.
  intros (Hb & Hok & _ & Ha & _)%issue_inv.
  apply normalize_and_validate_binding_ok in Hb as (_ & ? & ? & ? & ? & ? & ? & ? & _). auto 10.
Qed.

(** A permit is given only for a ticket the authority issued and that was
    still unused, inside its time window, to an attempt that agrees with the
    ticket on the DNS context, scheme, address, port, SNI, HTTP authority and
    redirect depth; the permit repeats the ticket, and its address is a pinned one. *)
Theorem permit_implies_bound_ticket `{Sha256Lib} x now a r a' p :
  authority_ok a -> consume x now a = (r, a') -> use_permit r = Some p ->
  exists t, tickets a !! at_ticket_id x = Some {| st_ticket := t; st_state := Issued |}
    /\ p = permit_of t /\ ticket_ok t /\ attempt_matches t x
    /\ tk_issued_at_milliseconds t <= now <= tk_expires_at_milliseconds t
    /\ pm_ticket_id p = at_ticket_id x /\ pm_remote_ip p ∈ tk_pinned_addresses t.
Proof.
  intros Ha [_ [(_ & Hn & _)|(t & El & _ & Hp)]]%consume_inv Hpm; [congruence|].
  apply Hp in Hpm as (-> & Hm & Hw). destruct (ao_tickets a Ha _ _ El) as (Hid & Hok & _). cbn in *.
  exists t. split_and!; auto; try lia. by destruct Hok as [_ [] _ _ _ _ _].
Qed.

(** C4: tickets are single use: along any sequence of issues, uses and
    revocations on a new authority, no two permits carry the same ticket
    identifier (as long as the 64-bit identifier counter has not saturated). *)
Theorem tickets_are_single_use `{Sha256Lib} es a :
  authority_trace authority_new es a -> next_ticket_id a < u64_max ->
  NoDup (pm_ticket_id <$> permits es).
Proof. intros Ht Hlt. by apply (authority_trace_spent _ _ _ Ht authority_new_ok). Qed.

(** The first use of a ticket burns it, also when it fails: after any use of
    a known ticket, and after any later sequence of operations, no permit is ever
    given for that ticket. *)
Theorem any_use_burns_the_ticket `{Sha256Lib} x now a r a1 es a2 st :
  authority_ok a -> tickets a !! at_ticket_id x = Some st ->
  consume x now a = (r, a1) -> authority_trace a1 es a2 -> next_ticket_id a2 < u64_max ->
  forall p, p ∈ permits es -> pm_ticket_id p <> at_ticket_id x.
Proof.
  intros Ha Hst Hc Ht Hlt p Hp Heq.
  pose proof (authority_step_ok _ _ _ Ha (step_used _ _ _ _ _ Hc)) as Ha1.
  destruct (authority_trace_spent _ _ _ Ht Ha1 Hlt) as (_ & _ & Hs).
  apply (Hs p Hp). rewrite Heq. unfold spent.
  apply consume_inv in Hc as [_ [(-> & _ & Hni)|(t & El & -> & _)]]; [by eauto|].
  rewrite lookup_insert_eq. by eexists.
Qed.

(** Revoking a DNS context kills its outstanding tickets: no ticket of that
    context held before the revocation yields a permit afterwards, whatever else
    the authority does. *)
Theorem revoked_context_gives_no_permit `{Sha256Lib} c a n a1 es a2 id st :
  authority_ok a -> revoke_context c a = (n, a1) ->
  tickets a !! id = Some st -> tk_dns_context_id (st_ticket st) = normalize_identifier c ->
  authority_trace a1 es a2 -> next_ticket_id a2 < u64_max ->
  forall p, p ∈ permits es -> pm_ticket_id p <> id.
Proof.
  intros Ha Hr Hst Hctx Ht Hlt p Hp <-.
  pose proof (authority_step_ok _ _ _ Ha (step_revoked _ _ _ _ Hr)) as Ha1.
  destruct (authority_trace_spent _ _ _ Ht Ha1 Hlt) as (_ & _ & Hs).
  apply (Hs p Hp). exists (revoke_ticket (normalize_identifier c) st).
  rewrite (revoke_context_lookup _ _ _ _ _ Hr), Hst. split; [done|].
  unfold revoke_ticket, revocable. rewrite bool_decide_eq_true_2 by done. simpl.
  case_bool_decide; done.
Qed.

(** The binding hash commits to the ticket: two well-formed tickets with
    canonical host names and the same binding hash agree on every bound field,
    unless the two bound texts are a SHA-256 collision. *)
Theorem binding_hash_commits `{Sha256Lib} t1 t2 :
  ticket_ok t1 -> ticket_ok t2 ->
  normalize_host (tk_host t1) = tk_host t1 -> normalize_host (tk_host t2) = tk_host t2 ->
  tk_binding_hash t1 = tk_binding_hash t2 ->
  same_commitment t1 t2
  \/ (ticket_material t1 <> ticket_material t2
      /\ sha256 (ticket_material t1) = sha256 (ticket_material t2)).
Proof.
  intros O1 O2 N1 N2 Hh. pose proof (to_hash _ O1) as H1. pose proof (to_hash _ O2) as H2.
  rewrite H1, H2 in Hh. unfold binding_hash in Hh. apply (inj to_lower_hex) in Hh.
  destruct (decide (ticket_material t1 = ticket_material t2)) as [He|He]; [left|by right].
  by apply same_lines_commitment, ticket_lines_inj.
Qed.

(** ** Witnesses *)

Definition example_binding : TicketBinding :=
  {| bd_decision_id := "decision-00000000000000000001"; bd_dns_context_id := "Navigation-1";
     bd_host := "App.Example.com."; bd_scheme := Https; bd_port := 443;
     bd_sni := Some ("app.example.com" : str); bd_http_host := "app.example.com";
     bd_pinned_addresses := {[ V4 (ipv4_new 8 8 8 8) ]}; bd_selected_ip := V4 (ipv4_new 8 8 8 8);
     bd_redirect_depth := 0 |}.

Definition example_request : TicketIssueRequest :=
  {| rq_binding := example_binding; rq_issued_at_milliseconds := 100;
     rq_ttl_milliseconds := 5000; rq_audit_anchor := GENESIS_HASH |}.

Definition example_attempt (id : N) : ConnectionAttempt :=
  {| at_ticket_id := format_ticket_id id; at_dns_context_id := "navigation-1"; at_scheme := Https;
     at_remote_ip := V4 (ipv4_new 8 8 8 8); at_port := 443;
     at_sni := Some ("app.example.com" : str); at_http_host := "app.example.com";
     at_redirect_depth := 0 |}.

Definition issue_example (a : TicketAuthority) : Result ConnectionTicket TicketIssueError * TicketAuthority :=
  issue (H := toy_sha256) example_request a.

Definition example_ticket (id : N) : ConnectionTicket :=
  let b := {| bd_decision_id := "decision-00000000000000000001"; bd_dns_context_id := "navigation-1";
     bd_host := "app.example.com"; bd_scheme := Https; bd_port := 443;
     bd_sni := Some ("app.example.com" : str); bd_http_host := "app.example.com";
     bd_pinned_addresses := {[ V4 (ipv4_new 8 8 8 8) ]}; bd_selected_ip := V4 (ipv4_new 8 8 8 8);
     bd_redirect_depth := 0 |} in
  bound_ticket (format_ticket_id id) b 100 5100 GENESIS_HASH
    (binding_hash (H := toy_sha256) (format_ticket_id id) b 100 5100 GENESIS_HASH).

Definition issued_once : TicketAuthority := (issue_example authority_new).2.
Definition used_once : TicketAuthority := (consume (example_attempt 1) 200 issued_once).2.
Definition used_twice : TicketAuthority := (consume (example_attempt 1) 300 used_once).2.

Lemma example_issued : issue_example authority_new = (Ok (example_ticket 1), issued_once).
Proof. apply pair_of_fst. vm_compute. reflexivity. Qed.

Lemma issued_once_ok : authority_ok (H := toy_sha256) issued_once.
Proof.
  apply (authority_step_ok (S := toy_sha256) authority_new (TicketIssued (example_ticket 1)));
    [apply authority_new_ok|]. exact (step_issued _ _ _ _ example_issued).
Qed.

Definition first_use : TicketUseResult :=
  {| use_outcome := UseConsumed; use_ticket := Some (example_ticket 1);
     use_attempt := example_attempt 1; use_permit := Some (permit_of (example_ticket 1)) |}.

Lemma example_used : consume (example_attempt 1) 200 issued_once = (first_use, used_once).
Proof. apply pair_of_fst. vm_compute. reflexivity. Qed.

Definition second_use : TicketUseResult := failed_use AlreadyConsumed (example_ticket 1) (example_attempt 1).

Lemma example_used_twice : consume (example_attempt 1) 300 used_once = (second_use, used_twice).
Proof. apply pair_of_fst. vm_compute. reflexivity. Qed.

Lemma issued_ticket_is_bound_witness : ticket_ok (H := toy_sha256) (example_ticket 1).
Proof.
  exact (proj1 (issued_ticket_is_bound (H := toy_sha256) example_request authority_new
    (example_ticket 1) issued_once example_issued)).
Defined.

Lemma permit_implies_bound_ticket_witness :
  exists t, tickets issued_once !! at_ticket_id (example_attempt 1)
              = Some {| st_ticket := t; st_state := Issued |}
    /\ permit_of (example_ticket 1) = permit_of t /\ ticket_ok (H := toy_sha256) t
    /\ attempt_matches t (example_attempt 1)
    /\ tk_issued_at_milliseconds t <= 200 <= tk_expires_at_milliseconds t
    /\ pm_ticket_id (permit_of (example_ticket 1)) = at_ticket_id (example_attempt 1)
    /\ pm_remote_ip (permit_of (example_ticket 1)) ∈ tk_pinned_addresses t.
Proof.
  exact (permit_implies_bound_ticket (H := toy_sha256) (example_attempt 1) 200 issued_once first_use
    used_once (permit_of (example_ticket 1)) issued_once_ok example_used eq_refl).
Defined.

Lemma example_ticket_trace :
  authority_trace (H := toy_sha256) authority_new
    [TicketIssued (example_ticket 1); TicketUsed first_use; TicketUsed second_use] used_twice.
Proof.
  apply (atrace_step (H := toy_sha256) _ issued_once); [exact (step_issued _ _ _ _ example_issued)|].
  apply (atrace_step _ used_once); [exact (step_used _ _ _ _ _ example_used)|].
  apply (atrace_step _ used_twice); [exact (step_used _ _ _ _ _ example_used_twice)|].
  apply atrace_nil.
Qed.

Lemma tickets_are_single_use_witness :
  NoDup (pm_ticket_id <$>
    permits [TicketIssued (example_ticket 1); TicketUsed first_use; TicketUsed second_use]).
Proof.
  apply (tickets_are_single_use (H := toy_sha256) _ used_twice example_ticket_trace).
  vm_compute. reflexivity.
Defined.

(** A late first use fails and still burns the ticket. *)
Definition late_use : TicketUseResult := failed_use Expired (example_ticket 1) (example_attempt 1).
Definition burnt : TicketAuthority := (consume (example_attempt 1) 9999 issued_once).2.
Definition burnt' : TicketAuthority := (consume (example_attempt 1) 200 burnt).2.

Lemma any_use_burns_the_ticket_witness :
  forall p, p ∈ permits [TicketUsed second_use] -> pm_ticket_id p <> at_ticket_id (example_attempt 1).
Proof.
  apply (any_use_burns_the_ticket (H := toy_sha256) (example_attempt 1) 9999 issued_once late_use burnt
    [TicketUsed second_use] burnt' {| st_ticket := example_ticket 1; st_state := Issued |}).
  - exact issued_once_ok.
  - vm_compute. reflexivity.
  - apply pair_of_fst. vm_compute. reflexivity.
  - apply (atrace_step _ burnt'); [|apply atrace_nil].
    apply (step_used (example_attempt 1) 200). apply pair_of_fst. vm_compute. reflexivity.
  - vm_compute. reflexivity.
Defined.

Definition revoked_once : TicketAuthority := (revoke_context "NAVIGATION-1" issued_once).2.
Definition revoked_use : TicketUseResult := failed_use UseRevoked (example_ticket 1) (example_attempt 1).

Lemma revoked_context_gives_no_permit_witness :
  use_outcome revoked_use = UseRevoked
  /\ forall p, p ∈ permits [TicketUsed revoked_use] -> pm_ticket_id p <> format_ticket_id 1.
Proof.
  split; [vm_compute; reflexivity|].
  apply (revoked_context_gives_no_permit (H := toy_sha256) "NAVIGATION-1" issued_once 1 revoked_once
    [TicketUsed revoked_use] (consume (example_attempt 1) 200 revoked_once).2 (format_ticket_id 1)
    {| st_ticket := example_ticket 1; st_state := Issued |}).
  - exact issued_once_ok.
  - apply pair_of_fst. vm_compute. reflexivity.
  - vm_compute. reflexivity.
  - vm_compute. reflexivity.
  - apply (atrace_step _ (consume (example_attempt 1) 200 revoked_once).2); [|apply atrace_nil].
    apply (step_used (example_attempt 1) 200). apply pair_of_fst. vm_compute. reflexivity.
  - vm_compute. reflexivity.
Defined.

Lemma binding_hash_commits_witness :
  same_commitment (example_ticket 1) (example_ticket 1)
  \/ (ticket_material (example_ticket 1) <> ticket_material (example_ticket 1)
      /\ sha256 (Sha256Lib := toy_sha256) (ticket_material (example_ticket 1))
         = sha256 (Sha256Lib := toy_sha256) (ticket_material (example_ticket 1))).
Proof.
  apply (binding_hash_commits (H := toy_sha256) (example_ticket 1) (example_ticket 1)).
  - exact (proj1 (proj2 (issue_inv (H := toy_sha256) _ _ _ _ example_issued))).
  - exact (proj1 (proj2 (issue_inv (H := toy_sha256) _ _ _ _ example_issued))).
  - vm_compute. reflexivity.
  - vm_compute. reflexivity.
  - reflexivity.
Defined.

(** A host whose normal form is not a fixed point of the normalisation. *)
Definition dotted_request : TicketIssueRequest :=
  {| rq_binding :=
       {| bd_decision_id := "decision-1"; bd_dns_context_id := "navigation-1";
          bd_host := "app.example.com. ."; bd_scheme := Https; bd_port := 443;
          bd_sni := Some ("app.example.com. ." : str); bd_http_host := "app.example.com";
          bd_pinned_addresses := {[ V4 (ipv4_new 8 8 8 8) ]};
          bd_selected_ip := V4 (ipv4_new 8 8 8 8); bd_redirect_depth := 0 |};
     rq_issued_at_milliseconds := 100; rq_ttl_milliseconds := 5000;
     rq_audit_anchor := GENESIS_HASH |}.

(** Host validation looks at the host normalised once more than the host that
    is stored: [issue] accepts a host ending in a dot, a space and a dot, and the
    issued ticket carries a host and an SNI that end in a space, although the HTTP
    authority does not. *)
Theorem issue_accepts_unnormalised_host `{Sha256Lib} :
  match (issue dotted_request authority_new).1 with
  | Ok t => tk_host t = ("app.example.com. " : str) /\ tk_sni t = Some ("app.example.com. " : str)
            /\ tk_http_host t = ("app.example.com" : str) /\ normalize_host (tk_host t) <> tk_host t
  | Err _ => False
  end.
Proof. vm_compute. split_and!; [reflexivity|reflexivity|reflexivity|discriminate]. Qed.
