(* ===== verification/PinnedTransport.v ===== *)
(** * The pinned transport coordinator ([crates/nxb-pinned-transport])

    Couples the gateway and the ticket authority: a connection ticket is issued
    only after an [Allow] decision, and every request slot the decision took is
    given back when its ticket fails or is revoked. *)

From S2P Require Import Prelude ByteStr IpAddr Destination Float64 Url Policy Dns Budget HashChain AuditTrail Gateway Transport.
Local Open Scope N_scope.

(** ** Model *)

Definition DEFAULT_TICKET_TTL_MILLISECONDS : N := 5000.
Definition TRANSPORT_AUDIT_GENESIS_HASH : str := replicate 64 "0"%char.

Record ConnectionAuthorization : Type := {
  ca_decision : GatewayDecision;
  ca_ticket : option ConnectionTicket
}.

Record TransportAuditEvent : Type := {
  te_event_id : str;
  te_action : str;
  te_status : str;
  te_reason : str;
  te_gateway_audit_anchor : str;
  te_ticket_id : option str;
  te_decision_id : option str;
  te_binding_hash : option str;
  te_dns_context_id : str;
  te_host : str;
  te_scheme : str;
  te_selected_ip : str;
  te_port : N;
  te_sni : option str;
  te_http_host : str;
  te_redirect_depth : N;
  te_elapsed_milliseconds : N
}.

(** The hash chain and the counter of event identifiers. *)
Record TransportAuditChain : Type := {
  ta_chain : HashChain TransportAuditEvent;
  ta_next_event_id : N
}.

Inductive PinnedTransportError : Type :=
  | PinnedGateway (error : GatewayError)
  | PinnedTicket (error : TicketIssueError)
  | PinnedAudit (error : ChainError)
  | SelectedIpNotResolved
  | MissingHost
  | MissingPort
  | UnsupportedScheme.

Record PinnedTransportCoordinator : Type := {
  pc_gateway : ScopeGateway;
  pc_tickets : TicketAuthority;
  pc_audit : TransportAuditChain;
  pc_ticket_ttl_milliseconds : N
}.

(** ** Operations *)

Definition transport_audit_new : TransportAuditChain :=
  {| ta_chain := chain_new TRANSPORT_AUDIT_GENESIS_HASH; ta_next_event_id := 1 |}.

Definition format_event_id (value : N) : str := ("transport-event-" : str) ++ decimal020 value.
#[global] Arguments format_event_id : simpl never.

Definition allocate_event_id (self : TransportAuditChain) : str * TransportAuditChain :=
  let value := ta_next_event_id self in
  (format_event_id value,
   {| ta_chain := ta_chain self; ta_next_event_id := saturating_add value 1 |}).

Definition sanitize_host (value : str) : str :=
  let value := normalize_host value in
  if bool_decide (value = []) || (253 <? len value) || contains_byte 47 value
     || contains_byte 92 value || contains_byte 64 value
  then "[invalid]" else value.

Definition sanitize_authority (value : str) : str :=
  let value := to_ascii_lowercase (trim value) in
  if bool_decide (value = []) || (260 <? len value) || contains_byte 47 value
     || contains_byte 92 value || contains_byte 64 value
  then "[invalid]" else value.

(** The function [sanitize_identifier] is that of the gateway. *)
Definition sanitize_identifier (value : str) : str := sanitized_dns_identifier value.

Definition set_gateway (g : ScopeGateway) (c : PinnedTransportCoordinator) : PinnedTransportCoordinator :=
  {| pc_gateway := g; pc_tickets := pc_tickets c; pc_audit := pc_audit c;
     pc_ticket_ttl_milliseconds := pc_ticket_ttl_milliseconds c |}.
Definition set_tickets (t : TicketAuthority) (c : PinnedTransportCoordinator) : PinnedTransportCoordinator :=
  {| pc_gateway := pc_gateway c; pc_tickets := t; pc_audit := pc_audit c;
     pc_ticket_ttl_milliseconds := pc_ticket_ttl_milliseconds c |}.
Definition set_transport_audit (a : TransportAuditChain) (c : PinnedTransportCoordinator) : PinnedTransportCoordinator :=
  {| pc_gateway := pc_gateway c; pc_tickets := pc_tickets c; pc_audit := a;
     pc_ticket_ttl_milliseconds := pc_ticket_ttl_milliseconds c |}.

Definition coordinator_new (gateway : ScopeGateway) : PinnedTransportCoordinator :=
  {| pc_gateway := gateway; pc_tickets := authority_new; pc_audit := transport_audit_new;
     pc_ticket_ttl_milliseconds := DEFAULT_TICKET_TTL_MILLISECONDS |}.

Definition coordinator_complete_request (self : PinnedTransportCoordinator) : PinnedTransportCoordinator :=
  set_gateway (complete_request (pc_gateway self)) self.

Definition release_coordinator_context (context_id : str) (self : PinnedTransportCoordinator)
    : (nat * nat) * PinnedTransportCoordinator :=
  let (revoked, tickets) := revoke_context context_id (pc_tickets self) in
  let gateway := Nat.iter revoked complete_request (pc_gateway self) in
  let (dns_pins, gateway) := release_dns_context context_id gateway in
  ((dns_pins, revoked), set_gateway gateway (set_tickets tickets self)).

Section Coordinator.
Context {U : UrlLib} {S : Sha256Lib} {J : JsonLib (HashMaterial AuditEvent)}
  {JT : JsonLib (HashMaterial TransportAuditEvent)}.

Definition transport_audit_append (event : TransportAuditEvent) (self : TransportAuditChain)
    : Result (ChainRecord TransportAuditEvent) ChainError * TransportAuditChain :=
  let (result, chain) := chain_append event (ta_chain self) in
  (result, {| ta_chain := chain; ta_next_event_id := ta_next_event_id self |}).

Definition transport_audit_verify (self : TransportAuditChain) : Result unit ChainError :=
  chain_verify (ta_chain self).

Definition transport_record_hash (sequence : N) (previous_hash : str) (event : TransportAuditEvent)
    : Result str ChainError := hash_material sequence previous_hash event.

(** Allocating an identifier for an event and appending it, as every caller does. *)
Definition append_event (event : str -> TransportAuditEvent) (self : PinnedTransportCoordinator)
    : Result (ChainRecord TransportAuditEvent) ChainError * PinnedTransportCoordinator :=
  let (event_id, audit) := allocate_event_id (pc_audit self) in
  let (result, audit) := transport_audit_append (event event_id) audit in
  (result, set_transport_audit audit self).

Definition rejected_event (intent : RequestIntent) (selected_ip : IpAddr) (elapsed : Duration)
    (anchor event_id : str) : TransportAuditEvent :=
  {| te_event_id := event_id;
     te_action := "issue";
     te_status := "rejected";
     te_reason := "selected_ip_not_resolved";
     te_gateway_audit_anchor := anchor;
     te_ticket_id := None;
     te_decision_id := None;
     te_binding_hash := None;
     te_dns_context_id := sanitize_identifier (intent_dns_context_id intent);
     te_host := to_ascii_lowercase (default ("[missing]" : str) (url_host_str (intent_url intent)));
     te_scheme := to_ascii_lowercase (url_scheme (intent_url intent));
     te_selected_ip := ip_to_string selected_ip;
     te_port := default 0 (url_port_or_known_default (intent_url intent));
     te_sni := None;
     te_http_host := "[not_issued]";
     te_redirect_depth := intent_redirect_depth intent;
     te_elapsed_milliseconds := duration_milliseconds_saturated elapsed |}.

Definition issue_event (ticket : ConnectionTicket) (gateway_audit_anchor : str) (elapsed : Duration)
    (event_id : str) : TransportAuditEvent :=
  {| te_event_id := event_id;
     te_action := "issue";
     te_status := "issued";
     te_reason := "gateway_authorized";
     te_gateway_audit_anchor := gateway_audit_anchor;
     te_ticket_id := Some (tk_ticket_id ticket);
     te_decision_id := Some (tk_decision_id ticket);
     te_binding_hash := Some (tk_binding_hash ticket);
     te_dns_context_id := tk_dns_context_id ticket;
     te_host := tk_host ticket;
     te_scheme := scheme_code (tk_scheme ticket);
     te_selected_ip := ip_to_string (tk_selected_ip ticket);
     te_port := tk_port ticket;
     te_sni := tk_sni ticket;
     te_http_host := tk_http_host ticket;
     te_redirect_depth := tk_redirect_depth ticket;
     te_elapsed_milliseconds := duration_milliseconds_saturated elapsed |}.

Definition use_event (result : TicketUseResult) (gateway_tail : str) (elapsed : Duration)
    (event_id : str) : TransportAuditEvent :=
  let ticket := use_ticket result in
  let reason := match use_outcome result with
                | BindingMismatch field => ("binding_mismatch:" : str) ++ binding_field_code field
                | other => use_outcome_code other
                end in
  {| te_event_id := event_id;
     te_action := "consume";
     te_status := use_outcome_code (use_outcome result);
     te_reason := reason;
     te_gateway_audit_anchor := default gateway_tail (option_map tk_audit_anchor ticket);
     te_ticket_id := Some (at_ticket_id (use_attempt result));
     te_decision_id := option_map tk_decision_id ticket;
     te_binding_hash := option_map tk_binding_hash ticket;
     te_dns_context_id := default (sanitize_identifier (at_dns_context_id (use_attempt result)))
                            (option_map tk_dns_context_id ticket);
     te_host := default ("[unknown]" : str) (option_map tk_host ticket);
     te_scheme := scheme_code (at_scheme (use_attempt result));
     te_selected_ip := ip_to_string (at_remote_ip (use_attempt result));
     te_port := at_port (use_attempt result);
     te_sni := option_map sanitize_host (at_sni (use_attempt result));
     te_http_host := sanitize_authority (at_http_host (use_attempt result));
     te_redirect_depth := at_redirect_depth (use_attempt result);
     te_elapsed_milliseconds := duration_milliseconds_saturated elapsed |}.

(** The ticket request built from an allowed intent. *)
Definition issue_request (intent : RequestIntent) (selected_ip : IpAddr) (elapsed : Duration)
    (decision_id host : str) (scheme : TransportScheme) (port ttl : N) (audit_anchor : str)
    : TicketIssueRequest :=
  {| rq_binding :=
       {| bd_decision_id := decision_id;
          bd_dns_context_id := intent_dns_context_id intent;
          bd_host := host;
          bd_scheme := scheme;
          bd_port := port;
          bd_sni := match scheme with Http => None | Https => Some host end;
          bd_http_host := expected_http_host host scheme port;
          bd_pinned_addresses := list_to_set (resolved_ips intent);
          bd_selected_ip := selected_ip;
          bd_redirect_depth := intent_redirect_depth intent |};
     rq_issued_at_milliseconds := duration_milliseconds_saturated elapsed;
     rq_ttl_milliseconds := ttl;
     rq_audit_anchor := audit_anchor |}.

Definition transport_scheme (scheme : str) : option TransportScheme :=
  if bool_decide (scheme = ("http" : str)) then Some Http
  else if bool_decide (scheme = ("https" : str)) then Some Https
  else None.

(** The part of [authorize_connection] after an [Allow] decision. *)
Definition issue_for_decision (intent : RequestIntent) (selected_ip : IpAddr) (elapsed : Duration)
    (decision : GatewayDecision) (self : PinnedTransportCoordinator)
    : Result ConnectionAuthorization PinnedTransportError * PinnedTransportCoordinator :=
  match url_host_str (intent_url intent) with
  | None => (Err MissingHost, self)
  | Some host =>
      let host := to_ascii_lowercase host in
      match transport_scheme (url_scheme (intent_url intent)) with
      | None => (Err UnsupportedScheme, coordinator_complete_request self)
      | Some scheme =>
          match url_port_or_known_default (intent_url intent) with
          | None => (Err MissingPort, self)
          | Some port =>
              let audit_anchor := tail_hash (audit (pc_gateway self)) in
              let request := issue_request intent selected_ip elapsed (decision_id decision) host
                               scheme port (pc_ticket_ttl_milliseconds self) audit_anchor in
              let (issued, tickets) := issue request (pc_tickets self) in
              let self := set_tickets tickets self in
              match issued with
              | Err error => (Err (PinnedTicket error), coordinator_complete_request self)
              | Ok ticket =>
                  let (appended, self) := append_event (issue_event ticket audit_anchor elapsed) self in
                  match appended with
                  | Err error => (Err (PinnedAudit error), self)
                  | Ok _ =>
                      (Ok {| ca_decision := decision; ca_ticket := Some ticket |}, self)
                  end
              end
          end
      end
  end.

Definition authorize_connection (intent : RequestIntent) (selected_ip : IpAddr) (elapsed : Duration)
    (self : PinnedTransportCoordinator)
    : Run (Result ConnectionAuthorization PinnedTransportError * PinnedTransportCoordinator) :=
  if negb (bool_decide (selected_ip ∈ resolved_ips intent)) then
    let anchor := tail_hash (audit (pc_gateway self)) in
    let (appended, self) := append_event (rejected_event intent selected_ip elapsed anchor) self in
    match appended with
    | Err error => Done (Err (PinnedAudit error), self)
    | Ok _ => Done (Err SelectedIpNotResolved, self)
    end
  else
    let! (decided, gateway) := authorize intent elapsed (pc_gateway self) in
    let self := set_gateway gateway self in
    match decided with
    | Err error => Done (Err (PinnedGateway error), self)
    | Ok decision =>
        match outcome decision with
        | Deny => Done (Ok {| ca_decision := decision; ca_ticket := None |}, self)
        | Allow => Done (issue_for_decision intent selected_ip elapsed decision self)
        end
    end.

Definition consume_connection_ticket (attempt : ConnectionAttempt) (elapsed : Duration)
    (self : PinnedTransportCoordinator)
    : Result TicketUseResult PinnedTransportError * PinnedTransportCoordinator :=
  let (result, tickets) :=
    consume attempt (duration_milliseconds_saturated elapsed) (pc_tickets self) in
  let self := set_tickets tickets self in
  let (appended, self) :=
    append_event (use_event result (tail_hash (audit (pc_gateway self))) elapsed) self in
  match appended with
  | Err error => (Err (PinnedAudit error), self)
  | Ok _ =>
      (Ok result,
       if use_releases_slot (use_outcome result) then coordinator_complete_request self else self)
  end.

(** ** The transport audit *)

Lemma append_event_spec ev c r c' :
  append_event ev c = (r, c') ->
  pc_gateway c' = pc_gateway c /\ pc_tickets c' = pc_tickets c
  /\ pc_ticket_ttl_milliseconds c' = pc_ticket_ttl_milliseconds c
  /\ (chain_ok (ta_chain (pc_audit c)) -> chain_ok (ta_chain (pc_audit c')))
  /\ match r with
     | Ok rec => records (ta_chain (pc_audit c')) = records (ta_chain (pc_audit c)) ++ [rec]
                 /\ event rec = ev (format_event_id (ta_next_event_id (pc_audit c)))
     | Err _ => records (ta_chain (pc_audit c')) = records (ta_chain (pc_audit c))
     end.
Proof.
  unfold append_event, transport_audit_append, allocate_event_id.
  destruct (chain_append _ _) as [r' ch] eqn:E. intros [= <- <-]. cbn in *. split_and!; auto.
  - intros Hok. by eapply chain_append_ok.
  - apply chain_append_spec in E. destruct r'; [|by subst]. by destruct E as (? & ? & _).
Qed.

(** ** Authorised tickets *)

(** The decision a ticket rests on is on record as allowed, and the address the
    ticket selects is a public one that was resolved and pinned. *)
Definition ticket_authorized (g : ScopeGateway) (t : ConnectionTicket) : Prop :=
  is_public_destination (tk_selected_ip t) = true
  /\ tk_selected_ip t ∈ tk_pinned_addresses t
  /\ exists rec, rec ∈ records (audit g)
       /\ ev_decision_id (event rec) = tk_decision_id t
       /\ ev_outcome (event rec) = ("allow" : str).

Lemma ticket_authorized_mono g g' t :
  (forall rec, rec ∈ records (audit g) -> rec ∈ records (audit g')) ->
  ticket_authorized g t -> ticket_authorized g' t.
Proof. intros Hs (? & ? & rec & ? & ?). split_and!; eauto. Qed.

Lemma lower_digits s : forallb is_ascii_digit s = true -> to_ascii_lowercase s = s.
Proof.
  intros H. unfold to_ascii_lowercase. rewrite <- (map_id s) at 2. apply map_ext_in.
  intros c Hc%list_elem_of_In. rewrite forallb_elem in H. specialize (H c Hc). revert H. byte_cases c.
Qed.

(** Decision identifiers are in normal form. *)
Lemma format_decision_id_normal k : normalize_identifier (format_decision_id k) = format_decision_id k.
Proof.
  unfold normalize_identifier, format_decision_id. rewrite trim_graphic.
  - unfold to_ascii_lowercase. rewrite map_app. f_equal. fold (to_ascii_lowercase (decimal020 k)).
    apply lower_digits. unfold decimal020, zero_pad. rewrite forallb_app.
    rewrite (proj2 (decimal_spec k)), andb_true_r. apply forallb_elem. by intros c [-> _]%elem_of_replicate.
  - rewrite forallb_app. by rewrite decimal020_graphic.
Qed.

(** A returned decision carries the identifier the gateway allocated. *)
Lemma authorize_decision_id intent elapsed g d g' :
  authorize intent elapsed g = Done (Ok d, g') ->
  decision_id d = format_decision_id (next_decision_id g).
Proof.
  intros (d' & s & g1 & He & _ & -> & _)%authorize_inv. by apply evaluate_frame in He as (_ & _ & -> & _).
Qed.

(** After an [Allow]: a ticket is stored and the slot stays taken, or nothing is
    stored and the slot is given back; the slot is lost only when the URL has no
    host or no port. *)
Lemma issue_for_decision_cases intent ip elapsed d c r c' :
  issue_for_decision intent ip elapsed d c = (r, c') ->
  (exists t host scheme port,
     url_host_str (intent_url intent) = Some host
     /\ transport_scheme (url_scheme (intent_url intent)) = Some scheme
     /\ url_port_or_known_default (intent_url intent) = Some port
     /\ issue (issue_request intent ip elapsed (decision_id d) (to_ascii_lowercase host) scheme port
                (pc_ticket_ttl_milliseconds c) (tail_hash (audit (pc_gateway c)))) (pc_tickets c)
        = (Ok t, pc_tickets c')
     /\ pc_gateway c' = pc_gateway c
     /\ (r = Ok {| ca_decision := d; ca_ticket := Some t |} \/ exists e, r = Err (PinnedAudit e)))
  \/ (pc_tickets c' = pc_tickets c /\ pc_gateway c' = complete_request (pc_gateway c)
      /\ exists e, r = Err e)
  \/ (c' = c /\ (exists e, r = Err e)
      /\ (url_host_str (intent_url intent) = None
          \/ (transport_scheme (url_scheme (intent_url intent)) <> None
              /\ url_port_or_known_default (intent_url intent) = None))).
Proof.
  unfold issue_for_decision. intros H. repeat step_in H; simplify_eq.
  all: try match goal with Ha : append_event _ _ = _ |- _ =>
         apply append_event_spec in Ha as (Eg & Et & _); left; do 4 eexists; split_and!; eauto;
         rewrite Et; done end.
  - right. left. match goal with Hi : issue _ _ = _ |- _ => apply issue_inv in Hi as -> end. eauto.
  - right. right. split_and!; eauto.
  - right. left. eauto.
  - right. right. split_and!; eauto.
Qed.

(** ** Traces *)

Inductive CoordinatorEvent : Type :=
  | ConnectionDecided (result : Result ConnectionAuthorization PinnedTransportError)
  | TicketPresented (result : Result TicketUseResult PinnedTransportError)
  | RequestCompleted
  | CoordinatorContextReleased.

Inductive coordinator_step
    : PinnedTransportCoordinator -> CoordinatorEvent -> PinnedTransportCoordinator -> Prop :=
  | cstep_authorize intent ip elapsed c r c' :
      authorize_connection intent ip elapsed c = Done (r, c') ->
      coordinator_step c (ConnectionDecided r) c'
  | cstep_consume attempt elapsed c r c' :
      consume_connection_ticket attempt elapsed c = (r, c') ->
      coordinator_step c (TicketPresented r) c'
  | cstep_complete c :
      coordinator_step c RequestCompleted (coordinator_complete_request c)
  | cstep_release ctx c :
      coordinator_step c CoordinatorContextReleased (release_coordinator_context ctx c).2.

Inductive coordinator_trace
    : PinnedTransportCoordinator -> list CoordinatorEvent -> PinnedTransportCoordinator -> Prop :=
  | ctrace_nil c : coordinator_trace c [] c
  | ctrace_step c c1 c2 e es :
      coordinator_step c e c1 -> coordinator_trace c1 es c2 -> coordinator_trace c (e :: es) c2.

(** What the two halves of [authorize_connection] do. *)
Lemma authorize_connection_cases intent ip elapsed c r c' :
  authorize_connection intent ip elapsed c = Done (r, c') ->
  (pc_gateway c' = pc_gateway c /\ pc_tickets c' = pc_tickets c /\ (exists e, r = Err e))
  \/ exists d g, ip ∈ resolved_ips intent
      /\ (authorize intent elapsed (pc_gateway c) = Done (d, g))
      /\ match d with
         | Err e => r = Err (PinnedGateway e) /\ c' = set_gateway g c
         | Ok d =>
             match outcome d with
             | Deny => r = Ok {| ca_decision := d; ca_ticket := None |} /\ c' = set_gateway g c
             | Allow => issue_for_decision intent ip elapsed d (set_gateway g c) = (r, c')
             end
         end.
Proof.
  unfold authorize_connection. intros H. destruct (bool_decide _) eqn:Eb; cbn [negb] in H.
  - right. destruct (authorize intent elapsed (pc_gateway c)) as [[d g]|m]; [|done]. exists d, g.
    bools. split_and!; [done|done|]. destruct d as [d|e]; [|by simplify_eq].
    destruct (outcome d); by simplify_eq.
  - left. destruct (append_event _ c) as [ar c1] eqn:Ea. apply append_event_spec in Ea as (? & ? & _).
    destruct ar; simplify_eq; eauto.
Qed.

Definition gateway_records_grow (g g' : ScopeGateway) : Prop :=
  forall rec, rec ∈ records (audit g) -> rec ∈ records (audit g').

Lemma authorize_records intent elapsed g r g' :
  authorize intent elapsed g = Done (r, g') -> gateway_records_grow g g'.
Proof.
  intros (d & s & g1 & He & _ & Hr)%authorize_inv rec Hin.
  apply evaluate_frame in He as (_ & Ha & _). destruct r as [d'|e]; [|by rewrite Hr, Ha].
  destruct Hr as (_ & rec' & Hr). apply chain_append_spec in Hr as (-> & _). rewrite Ha. set_solver.
Qed.

Lemma iter_complete_request n g :
  audit (Nat.iter n complete_request g) = audit g
  /\ dns_pins (Nat.iter n complete_request g) = dns_pins g
  /\ in_flight_requests (Nat.iter n complete_request g) = in_flight_requests g - N.of_nat n.
Proof.
  unfold in_flight_requests. induction n as [|n IH]; simpl; [split_and!; auto; lia|].
  destruct IH as (I1 & I2 & I3). split_and!; cbn; auto. rewrite I3. lia.
Qed.

Lemma iter_complete_ok n g : gateway_ok g -> gateway_ok (Nat.iter n complete_request g).
Proof.
  intros Hg. induction n as [|n IH]; cbn; [done|]. by apply complete_request_ok.
Qed.

(** ** Invariant *)

Record coordinator_ok (c : PinnedTransportCoordinator) : Prop := {
  co_gateway : gateway_ok (pc_gateway c);
  co_authority : authority_ok (pc_tickets c);
  co_audit : chain_ok (ta_chain (pc_audit c));
  co_tickets : forall id st, tickets (pc_tickets c) !! id = Some st ->
    ticket_authorized (pc_gateway c) (st_ticket st)
}.

Lemma coordinator_new_ok g : gateway_ok g -> coordinator_ok (coordinator_new g).
Proof.
  intros Hg. constructor; cbn; auto using authority_new_ok, chain_new_ok. intros id st Hst.
  by rewrite lookup_empty in Hst.
Qed.

(** The ticket of an allowed request is authorised. *)
Lemma issued_ticket_authorized intent ip elapsed g d g' host scheme port ttl anchor a t a' :
  ip ∈ resolved_ips intent -> authorize intent elapsed g = Done (Ok d, g') -> outcome d = Allow ->
  issue (issue_request intent ip elapsed (decision_id d) host scheme port ttl anchor) a = (Ok t, a') ->
  ticket_authorized g' t.
Proof.
  intros Hip Hz Ho (Hb & Hok & _)%issue_inv.
  apply normalize_and_validate_binding_ok in Hb as (Hbk & Hd & _ & _ & _ & _ & Hp & Hs & _). cbn in *.
  pose proof (authorize_decision_id _ _ _ _ _ Hz) as Hid. rewrite Hid, format_decision_id_normal, <- Hid in Hd.
  pose proof Hz as (d' & s & g1 & He & _ & -> & rec & Hr)%authorize_inv.
  pose proof (evaluate_permitted _ _ _ _ _ _ He) as Hperm. apply Hperm in Ho as Hpm.
  destruct Hpm as (_ & _ & _ & Hpub & _). rewrite Forall_forall in Hpub.
  unfold ticket_authorized. rewrite Hs, Hp. split_and!.
  - by apply Hpub.
  - set_solver.
  - apply chain_append_spec in Hr as (-> & Hev & _). exists rec. rewrite Hev. cbn. rewrite Ho.
    split_and!; [set_solver|congruence|done].
Qed.

Lemma authorize_connection_ok intent ip elapsed c r c' :
  coordinator_ok c -> authorize_connection intent ip elapsed c = Done (r, c') -> coordinator_ok c'.
Proof.
  intros [Hg Ha Hc Ht] Hz.
  assert (chain_ok (ta_chain (pc_audit c'))) as Hc'.
  { clear - Hz Hc. unfold authorize_connection, issue_for_decision in Hz.
    repeat step_in Hz; simplify_eq; cbn; auto;
      match goal with Hx : append_event _ _ = _ |- _ =>
        apply append_event_spec in Hx as (_ & _ & _ & Hx & _); by apply Hx end. }
  apply authorize_connection_cases in Hz as [(Eg & Et & _)|(d & g & Hip & Hd & Hz)].
  { constructor; rewrite ?Eg, ?Et; auto. }
  pose proof (authorize_ok _ _ _ _ _ Hg Hd) as Hg'.
  assert (forall id st, tickets (pc_tickets c) !! id = Some st -> ticket_authorized g (st_ticket st)) as Ht'.
  { intros id st Hst. eapply ticket_authorized_mono; [|by eapply Ht]. by eapply authorize_records. }
  destruct d as [d|e]; [|by destruct Hz as [_ ->]; constructor].
  destruct (outcome d) eqn:Ho; [|by destruct Hz as [_ ->]; constructor].
  apply issue_for_decision_cases in Hz
    as [(t & h & s & po & _ & _ & _ & Hi & Eg & _)|[(Et & Eg & _)|(-> & _)]].
  - cbn in *. constructor; rewrite ?Eg; auto.
    + by apply (authority_step_ok _ _ _ Ha (step_issued _ _ _ _ Hi)).
    + pose proof (issued_ticket_authorized _ _ _ _ _ _ _ _ _ _ _ _ _ _ Hip Hd Ho Hi) as Hta.
      apply issue_inv in Hi as (_ & _ & _ & _ & _ & _ & Htk & _). intros id st. rewrite Htk.
      intros [[_ <-]|[_ Hst]]%lookup_insert_Some; [done|]. by eapply Ht'.
  - cbn in *. constructor; rewrite ?Eg, ?Et; auto.
    by apply complete_request_ok.
  - by constructor.
Qed.

Lemma coordinator_step_ok c e c' : coordinator_ok c -> coordinator_step c e c' -> coordinator_ok c'.
Proof.
  intros Hok Hs. destruct Hs as [intent ip elapsed c r c' Hz|x elapsed c r c' Hz|c|ctx c].
  - by eapply authorize_connection_ok.
  - destruct Hok as [Hg Ha Hc Ht]. unfold consume_connection_ticket in Hz.
    destruct (consume x _ (pc_tickets c)) as [ur tk] eqn:Ec.
    destruct (append_event _ _) as [ar c1] eqn:Ea. apply append_event_spec in Ea as (Eg & Et & _ & Hch & _).
    cbn in *. pose proof (authority_step_ok _ _ _ Ha (step_used _ _ _ _ _ Ec)) as Ha'.
    assert (forall id st, tickets tk !! id = Some st -> ticket_authorized (pc_gateway c) (st_ticket st)) as Ht'.
    { intros id st Hst. apply consume_inv in Ec as [_ [(-> & _)|(t & El & Htk & _)]]; [by eapply Ht|].
      rewrite Htk in Hst. apply lookup_insert_Some in Hst as [[_ <-]|[_ Hst]]; [|by eapply Ht].
      by apply (Ht _ _ El). }
    assert (coordinator_ok c1) as Hc1 by (constructor; rewrite ?Eg, ?Et; auto).
    destruct ar; [destruct (use_releases_slot _)|]; simplify_eq; auto.
    destruct Hc1. constructor; auto. cbn. by apply complete_request_ok.
  - destruct Hok as [Hg Ha Hc Ht]. constructor; auto. cbn.
    by apply complete_request_ok.
  - destruct Hok as [Hg Ha Hc Ht]. unfold release_coordinator_context.
    destruct (revoke_context ctx (pc_tickets c)) as [n tk] eqn:Er. cbn.
    constructor; cbn; auto.
    + apply (gateway_step_ok _ ContextReleased _ (iter_complete_ok n _ Hg)).
      exact (step_released ctx _).
    + by apply (authority_step_ok _ _ _ Ha (step_revoked _ _ _ _ Er)).
    + intros id st. rewrite (revoke_context_lookup _ _ _ _ _ Er). intros (st0 & Hst & ->)%fmap_Some.
      rewrite revoke_ticket_ticket. eapply ticket_authorized_mono; [|by eapply Ht].
      intros rec Hrec. cbn. by rewrite (proj1 (iter_complete_request n (pc_gateway c))).
Qed.

Lemma coordinator_trace_ok c es c' : coordinator_ok c -> coordinator_trace c es c' -> coordinator_ok c'.
Proof. intros Hok Ht. induction Ht; eauto using coordinator_step_ok. Qed.

(** ** From permits back to decisions *)

Definition event_permit_of (e : CoordinatorEvent) : option TransportPermit :=
  match e with TicketPresented (Ok r) => use_permit r | _ => None end.
Definition trace_permits (es : list CoordinatorEvent) : list TransportPermit := omap event_permit_of es.

(** A permit that rests on a recorded [Allow] decision. *)
Definition permit_authorized (g : ScopeGateway) (p : TransportPermit) : Prop :=
  is_public_destination (pm_remote_ip p) = true
  /\ exists rec, rec ∈ records (audit g)
       /\ ev_decision_id (event rec) = pm_decision_id p
       /\ ev_outcome (event rec) = ("allow" : str).

Lemma coordinator_step_records c e c' :
  coordinator_step c e c' -> gateway_records_grow (pc_gateway c) (pc_gateway c').
Proof.
  intros Hs. destruct Hs as [intent ip elapsed c r c' Hz|x elapsed c r c' Hz|c|ctx c].
  - apply authorize_connection_cases in Hz as [(-> & _)|(d & g & _ & Hd & Hz)]; [by intros ?|].
    apply authorize_records in Hd. destruct d as [d|e]; [|by destruct Hz as [_ ->]].
    destruct (outcome d); [|by destruct Hz as [_ ->]].
    apply issue_for_decision_cases in Hz
      as [(t & h & s & po & _ & _ & _ & _ & -> & _)|[(_ & -> & _)|(-> & _)]]; done.
  - unfold consume_connection_ticket in Hz. destruct (consume x _ (pc_tickets c)) as [ur tk].
    destruct (append_event _ _) as [ar c1] eqn:Ea. apply append_event_spec in Ea as (Eg & _).
    destruct ar; [destruct (use_releases_slot _)|]; injection Hz as _ <-; intros rec; cbn; by rewrite Eg.
  - by intros rec.
  - intros rec. unfold release_coordinator_context. cbn. by rewrite (proj1 (iter_complete_request _ _)).
Qed.

Lemma coordinator_step_permit c e c' p :
  coordinator_ok c -> coordinator_step c e c' -> event_permit_of e = Some p ->
  permit_authorized (pc_gateway c) p.
Proof.
  intros Hok Hs He. destruct Hs as [?|x elapsed c r c' Hz|?|?]; try done. cbn in He.
  unfold consume_connection_ticket in Hz. destruct (consume x _ (pc_tickets c)) as [ur tk] eqn:Ec.
  destruct (append_event _ _) as [ar c1]. destruct ar; [|by simplify_eq]. injection Hz as <- _.
  apply consume_inv in Ec as [_ [(_ & Hn & _)|(t & El & _ & Hp)]]; [congruence|].
  apply Hp in He as (-> & _). by destruct (co_tickets c Hok _ _ El) as (? & _ & ?).
Qed.

Lemma coordinator_trace_permits c es c' :
  coordinator_ok c -> coordinator_trace c es c' ->
  gateway_records_grow (pc_gateway c) (pc_gateway c')
  /\ forall p, p ∈ trace_permits es -> permit_authorized (pc_gateway c') p.
Proof.
  intros Hok Ht. induction Ht as [c|c c1 c2 e es Hs Ht IH].
  - split; [by intros ?|]. intros p Hp. by apply elem_of_nil in Hp.
  - destruct (IH (coordinator_step_ok _ _ _ Hok Hs)) as [Hg Hp]. apply coordinator_step_records in Hs as Hg1.
    split; [intros rec ?; by apply Hg, Hg1|]. intros p. unfold trace_permits. cbn [omap list_omap].
    destruct (event_permit_of e) as [q|] eqn:Eq; [|by apply Hp].
    intros [->|Hin]%elem_of_cons; [|by apply Hp].
    destruct (coordinator_step_permit _ _ _ _ Hok Hs Eq) as (Hpub & rec & Hrec & Hid).
    split; [done|]. exists rec. split; [by apply Hg, Hg1|done].
Qed.

(** The permit [p] is for the host of [intent], as the URL names it, and for the
    resolved address [ip]: scheme, port, server name and authority follow from them. *)
Record permit_names (intent : RequestIntent) (ip : IpAddr) (p : TransportPermit) : Prop := {
  pn_ip : pm_remote_ip p = ip;
  pn_scheme : transport_scheme (url_scheme (intent_url intent)) = Some (pm_scheme p);
  pn_port : url_port_or_known_default (intent_url intent) = Some (pm_port p);
  pn_host : exists host, url_host_str (intent_url intent) = Some host
    /\ let name := normalize_host (to_ascii_lowercase host) in
       pm_sni p = match pm_scheme p with Https => Some name | Http => None end
       /\ pm_http_host p = expected_http_host name (pm_scheme p) (pm_port p);
  pn_depth : pm_redirect_depth p = intent_redirect_depth intent;
  pn_context : pm_dns_context_id p = normalize_identifier (intent_dns_context_id intent)
}.

(** The call that takes the coordinator from [c1] to [c2] decided [intent] and gave
    the ticket of the permit: every check of the gateway passed, the address is one of
    the public addresses that are pinned to the host now, and the decision is on
    record with the URL. *)
Record permit_decided (intent : RequestIntent) (ip : IpAddr) (elapsed : Duration)
    (c1 c2 : PinnedTransportCoordinator) (p : TransportPermit) : Prop := {
  pd_permitted : permitted intent elapsed (pc_gateway c1);
  pd_names : permit_names intent ip p;
  pd_public : is_public_destination ip = true;
  pd_pinned : exists host pin, url_host_str (intent_url intent) = Some host
    /\ dns_get (intent_dns_context_id intent) host (dns_pins (pc_gateway c2)) = Some pin
    /\ ip ∈ pin_addresses pin;
  pd_recorded : exists rec, rec ∈ records (audit (pc_gateway c2))
    /\ ev_decision_id (event rec) = pm_decision_id p /\ ev_outcome (event rec) = ("allow" : str)
    /\ ev_url (event rec) = sanitized_audit_url (intent_url intent)
}.

Lemma issued_ticket_decided intent ip elapsed d g host scheme port c c2 t a' :
  ip ∈ resolved_ips intent -> authorize intent elapsed (pc_gateway c) = Done (Ok d, g) -> outcome d = Allow ->
  url_host_str (intent_url intent) = Some host ->
  transport_scheme (url_scheme (intent_url intent)) = Some scheme ->
  url_port_or_known_default (intent_url intent) = Some port -> pc_gateway c2 = g ->
  issue (issue_request intent ip elapsed (decision_id d) (to_ascii_lowercase host) scheme port
           (pc_ticket_ttl_milliseconds c) (tail_hash (audit g))) (pc_tickets c) = (Ok t, a') ->
  permit_decided intent ip elapsed c c2 (permit_of t).
Proof.
  intros Hip Hz Ho Hh Hs Hp Hg Hi. pose proof (authorize_pins _ _ _ _ _ Hz Ho) as (host' & pin & Hh' & Hpin & Ha).
  destruct (issued_ticket_authorized _ _ _ _ _ _ _ _ _ _ _ _ _ _ Hip Hz Ho Hi) as (Hpub & _ & _).
  apply issue_inv in Hi as (Hb & _).
  apply normalize_and_validate_binding_ok in Hb as (Hbk & Hd & Hc & Hn & Hsc & Hpo & _ & Hsel & Hde). cbn in *.
  pose proof (authorize_decision_id _ _ _ _ _ Hz) as Hid. rewrite Hid, format_decision_id_normal, <- Hid in Hd.
  pose proof Hz as (d' & s & g1 & He & _ & -> & rec & Hr)%authorize_inv.
  pose proof (proj1 (evaluate_permitted _ _ _ _ _ _ He) Ho) as Hperm. rewrite Hsel in Hpub.
  constructor; rewrite ?Hg; auto.
  - constructor; cbn; rewrite ?Hsc, ?Hpo; auto. exists host. split; [done|].
    pose proof (bk_sni _ Hbk) as H1. pose proof (bk_http_host _ Hbk) as H2. cbn in H1, H2.
    rewrite Hsc, Hn in H1. rewrite Hsc, Hpo, Hn in H2. done.
  - exists host', pin. rewrite Ha. set_solver.
  - apply chain_append_spec in Hr as (-> & Hev & _). exists rec. rewrite Hev. cbn. rewrite Ho.
    split_and!; [set_solver|congruence|done..].
Qed.

(** A call of the trace that decided the ticket of a permit; the permit is given later. *)
Definition permit_traced (c0 : PinnedTransportCoordinator) (es : list CoordinatorEvent)
    (c : PinnedTransportCoordinator) (p : TransportPermit) : Prop :=
  exists before intent ip elapsed c1 r c2 after,
    es = before ++ ConnectionDecided r :: after
    /\ coordinator_trace c0 before c1 /\ authorize_connection intent ip elapsed c1 = Done (r, c2)
    /\ coordinator_trace c2 after c /\ permit_decided intent ip elapsed c1 c2 p.

Lemma coordinator_trace_snoc c0 es c e c' :
  coordinator_trace c0 es c -> coordinator_step c e c' -> coordinator_trace c0 (es ++ [e]) c'.
Proof. intros Ht Hs. induction Ht; cbn; eauto using ctrace_step, ctrace_nil. Qed.

Lemma permit_traced_snoc c0 es c e c' p :
  permit_traced c0 es c p -> coordinator_step c e c' -> permit_traced c0 (es ++ [e]) c' p.
Proof.
  intros (before & intent & ip & elapsed & c1 & r & c2 & after & -> & Hb & Ha & Hc & Hd) Hs.
  exists before, intent, ip, elapsed, c1, r, c2, (after ++ [e]). rewrite <- app_assoc. cbn.
  eauto 8 using coordinator_trace_snoc.
Qed.

(** A step stores the tickets that were there before and those it decides. *)
Lemma coordinator_step_tickets c e c' id st :
  coordinator_step c e c' -> tickets (pc_tickets c') !! id = Some st ->
  (exists id' st', tickets (pc_tickets c) !! id' = Some st' /\ st_ticket st' = st_ticket st)
  \/ exists intent ip elapsed r, e = ConnectionDecided r
      /\ authorize_connection intent ip elapsed c = Done (r, c')
      /\ permit_decided intent ip elapsed c c' (permit_of (st_ticket st)).
Proof.
  intros Hs Hst. destruct Hs as [intent ip elapsed c r c' Hz|x elapsed c r c' Hz|c|ctx c].
  - pose proof Hz as [(_ & Et & _)|(d & g & Hip & Hd & Hc)]%authorize_connection_cases; [left; rewrite Et in Hst; eauto|].
    destruct d as [d|e]; [|destruct Hc as [_ ->]; left; eauto].
    destruct (outcome d) eqn:Ho; [|destruct Hc as [_ ->]; left; eauto].
    apply issue_for_decision_cases in Hc
      as [(t & h & s & po & Hh & Hsc & Hpo & Hi & Eg & _)|[(Et & _)|(-> & _)]]; [|left; rewrite Et in Hst; eauto|left; eauto].
    cbn in *. pose proof Hi as (_ & _ & _ & _ & _ & _ & Htk & _)%issue_inv. rewrite Htk in Hst.
    apply lookup_insert_Some in Hst as [[_ <-]|[_ Hst]]; [|left; eauto].
    right. exists intent, ip, elapsed, r. split_and!; auto. by eapply issued_ticket_decided.
  - left. unfold consume_connection_ticket in Hz. destruct (consume x _ (pc_tickets c)) as [ur tk] eqn:Ec.
    destruct (append_event _ _) as [ar c1] eqn:Ea. apply append_event_spec in Ea as (_ & Et & _). cbn in Et.
    assert (tickets tk !! id = Some st) as Hst'
      by (destruct ar; [destruct (use_releases_slot _)|]; injection Hz as _ <-; cbn in Hst; by rewrite Et in Hst).
    apply consume_inv in Ec as [_ [(-> & _)|(t & El & Htk & _)]]; [eauto|].
    rewrite Htk in Hst'. apply lookup_insert_Some in Hst' as [[_ <-]|[_ Hst']]; eauto.
  - left. eauto.
  - left. revert Hst. unfold release_coordinator_context.
    destruct (revoke_context ctx (pc_tickets c)) as [n tk] eqn:Er. cbn.
    rewrite (revoke_context_lookup _ _ _ _ _ Er). intros (st0 & Hst & ->)%fmap_Some.
    exists id, st0. split; [done|]. by rewrite revoke_ticket_ticket.
Qed.

Lemma coordinator_trace_tickets c0 es c :
  tickets (pc_tickets c0) = ∅ -> coordinator_trace c0 es c ->
  (forall id st, tickets (pc_tickets c) !! id = Some st -> permit_traced c0 es c (permit_of (st_ticket st)))
  /\ (forall p, p ∈ trace_permits es -> permit_traced c0 es c p).
Proof.
  intros H0. revert c. induction es as [|e es IH] using rev_ind; intros c Ht.
  { inversion Ht; subst. rewrite H0. split; [intros id st Hst; by rewrite lookup_empty in Hst|].
    intros p Hp. by apply elem_of_nil in Hp. }
  assert (exists c1, coordinator_trace c0 es c1 /\ coordinator_step c1 e c) as (c1 & Ht1 & Hs).
  { clear - Ht. revert c0 Ht. induction es as [|e' es IH]; intros c0 Ht; inversion Ht; subst.
    - match goal with H : coordinator_trace _ [] _ |- _ => inversion H; subst end. eauto using ctrace_nil.
    - match goal with H : coordinator_trace _ (es ++ _) _ |- _ => apply IH in H as (c1' & ? & ?) end.
      eauto using ctrace_step. }
  destruct (IH c1 Ht1) as [Htk Hp]. split.
  - intros id st Hst. apply (coordinator_step_tickets _ _ _ _ _ Hs) in Hst
      as [(id' & st' & Hst & <-)|(intent & ip & elapsed & r & -> & Hz & Hd)].
    + eapply permit_traced_snoc; eauto.
    + exists es, intent, ip, elapsed, c1, r, c, []. split_and!; auto. apply ctrace_nil.
  - intros p Hin. unfold trace_permits in Hin. rewrite omap_app in Hin.
    apply elem_of_app in Hin as [Hin|Hin]; [eapply permit_traced_snoc; eauto|]. cbn in Hin.
    destruct (event_permit_of e) as [q|] eqn:Eq; [|by apply elem_of_nil in Hin].
    apply list_elem_of_singleton in Hin as ->. eapply permit_traced_snoc; [|done].
    destruct Hs as [?|x elapsed c r c' Hz|?|?]; try done. cbn in Eq.
    unfold consume_connection_ticket in Hz. destruct (consume x _ (pc_tickets c)) as [ur tk] eqn:Ec.
    destruct (append_event _ _) as [ar c2]. destruct ar; [|by simplify_eq]. injection Hz as <- _.
    apply consume_inv in Ec as [_ [(_ & Hn & _)|(t & El & _ & Hpt)]]; [congruence|].
    apply Hpt in Eq as (-> & _). exact (Htk _ _ El).
Qed.

(** ** Request slots *)

(** The number of permits whose request is not yet completed. *)
Definition open_after_event (open : N) (e : CoordinatorEvent) : N :=
  match e with
  | RequestCompleted => open - 1
  | _ => match event_permit_of e with Some _ => open + 1 | None => open end
  end.
Definition open_after (open : N) (es : list CoordinatorEvent) : N :=
  fold_left open_after_event es open.

(** The client completes only requests it holds a permit for. *)
Fixpoint disciplined (open : N) (es : list CoordinatorEvent) : Prop :=
  match es with
  | [] => True
  | e :: rest =>
      (match e with RequestCompleted => 0 < open | _ => True end)
      /\ disciplined (open_after_event open e) rest
  end.

(** Every request in flight is an outstanding ticket or an open permit. *)
Definition slots_balanced (c : PinnedTransportCoordinator) (open : N) : Prop :=
  in_flight_requests (pc_gateway c) = N.of_nat (issued_count (pc_tickets c)) + open.

Context `{!UrlLaws U} `{!JsonTotal (HashMaterial AuditEvent)}
  `{!JsonTotal (HashMaterial TransportAuditEvent)}.

Lemma append_event_total ev c : exists rec c', append_event ev c = (Ok rec, c').
Proof.
  unfold append_event, transport_audit_append. destruct (allocate_event_id (pc_audit c)) as [id a].
  destruct (chain_append_total (ev id) (ta_chain a)) as (rec & c' & ->). eauto.
Qed.

Lemma authorize_total intent elapsed g r g' :
  authorize intent elapsed g = Done (r, g') -> exists d, r = Ok d.
Proof.
  unfold authorize. intros H. destruct (evaluate _ _ _ _) as [[[d s] g1]|]; [|done].
  destruct (chain_append_total (audit_event intent elapsed (map assess_destination (resolved_ips intent)) d s)
    (audit g1)) as (rec & c' & Ha). unfold audit_append in H. rewrite Ha in H. simplify_eq. eauto.
Qed.

Lemma transport_scheme_port u scheme :
  transport_scheme (url_scheme u) = Some scheme -> exists p, url_port_or_known_default u = Some p.
Proof.
  unfold transport_scheme. intros H. apply (url_known_port u). repeat step_in H; bools; auto.
Qed.

Lemma authorize_connection_slots intent ip elapsed c r c' open :
  coordinator_ok c -> next_ticket_id (pc_tickets c) < u64_max ->
  authorize_connection intent ip elapsed c = Done (r, c') ->
  slots_balanced c open -> slots_balanced c' open.
Proof.
  unfold slots_balanced. intros Hok Hlt Hz Hb.
  apply authorize_connection_cases in Hz as [(-> & -> & _)|(d & g & Hip & Hd & Hz)]; [done|].
  destruct (authorize_total _ _ _ _ _ Hd) as [d' ->].
  pose proof (authorize_budget _ _ _ _ _ Hd) as (d & (_ & _ & Hfl)%budget_outcome_frame & ->).
  unfold in_flight_requests in *. destruct (outcome d) eqn:Ho.
  - rewrite bool_decide_eq_true_2 in Hfl by done.
    apply issue_for_decision_cases in Hz
      as [(t & h & s & po & _ & _ & _ & Hi & Eg & _)|[(Et & Eg & _)|(_ & _ & Hbad)]]; cbn in *.
    + rewrite Eg, (issued_count_issue _ _ _ _ (co_authority c Hok) Hlt Hi). lia.
    + rewrite Eg, Et. cbn. lia.
    + exfalso. pose proof Hd as (d0 & s & g1 & He & _ & -> & _)%authorize_inv.
      apply (evaluate_permitted _ _ _ _ _ _ He) in Ho as (_ & _ & _ & _ & (h & _ & _ & Hh & _) & _).
      destruct Hbad as [Hn|[Hs Hn]]; [congruence|].
      destruct (transport_scheme _) as [s'|] eqn:Es; [|done].
      destruct (transport_scheme_port _ _ Es). congruence.
  - rewrite bool_decide_eq_false_2 in Hfl by done. destruct Hz as [_ ->]. cbn. lia.
Qed.

Lemma coordinator_step_slots c e c' open :
  coordinator_ok c -> next_ticket_id (pc_tickets c) < u64_max -> coordinator_step c e c' ->
  (match e with RequestCompleted => 0 < open | _ => True end) ->
  slots_balanced c open -> slots_balanced c' (open_after_event open e).
Proof.
  intros Hok Hlt Hs Hd Hb. destruct Hs as [intent ip elapsed c r c' Hz|x elapsed c r c' Hz|c|ctx c].
  - by apply (authorize_connection_slots intent ip elapsed c r).
  - unfold slots_balanced in *. unfold consume_connection_ticket in Hz.
    destruct (consume x _ (pc_tickets c)) as [ur tk] eqn:Ec. apply consume_slots in Ec.
    match type of Hz with context [append_event ?ev ?c0] =>
      destruct (append_event_total ev c0) as (rec & c1 & Ea) end.
    rewrite Ea in Hz. apply append_event_spec in Ea as (Eg & Et & _). cbn in *.
    injection Hz as <- <-. cbn in *. unfold in_flight_requests in *.
    destruct (use_releases_slot _); cbn; rewrite Eg, Et; destruct (use_permit ur); cbn; lia.
  - unfold slots_balanced, in_flight_requests in *. cbn. lia.
  - unfold slots_balanced, release_coordinator_context in *.
    destruct (revoke_context ctx (pc_tickets c)) as [n tk] eqn:Er. apply revoke_slots in Er. cbn.
    destruct (iter_complete_request n (pc_gateway c)) as (_ & _ & Hf).
    unfold in_flight_requests in *. cbn in *. rewrite Hf. lia.
Qed.

Lemma coordinator_step_next c e c' :
  coordinator_ok c -> coordinator_step c e c' ->
  next_ticket_id (pc_tickets c) <= next_ticket_id (pc_tickets c').
Proof.
  intros Hok Hs. destruct Hs as [intent ip elapsed c r c' Hz|x elapsed c r c' Hz|c|ctx c]; [| |cbn; lia|].
  - apply authorize_connection_cases in Hz as [(_ & -> & _)|(d & g & _ & _ & Hz)]; [lia|].
    destruct d as [d|e]; [|destruct Hz as [_ ->]; cbn; lia].
    destruct (outcome d); [|destruct Hz as [_ ->]; cbn; lia].
    apply issue_for_decision_cases in Hz as [(t & h & s & po & _ & _ & _ & Hi & _)|[(-> & _)|(-> & _)]];
      cbn in *; try lia.
    apply (authority_step_next _ _ _ (step_issued _ _ _ _ Hi)), Hok.
  - unfold consume_connection_ticket in Hz. destruct (consume x _ (pc_tickets c)) as [ur tk] eqn:Ec.
    destruct (append_event _ _) as [ar c1] eqn:Ea. apply append_event_spec in Ea as (_ & Et & _). cbn in Et.
    apply consume_inv in Ec as [En _].
    destruct ar; [destruct (use_releases_slot _)|]; injection Hz as _ <-; cbn; rewrite Et; lia.
  - unfold release_coordinator_context. cbn. lia.
Qed.

Lemma coordinator_trace_slots c es c' open :
  coordinator_trace c es c' -> coordinator_ok c -> next_ticket_id (pc_tickets c') < u64_max ->
  disciplined open es -> slots_balanced c open ->
  slots_balanced c' (open_after open es) /\ next_ticket_id (pc_tickets c) <= next_ticket_id (pc_tickets c').
Proof.
  intros Ht. revert open. induction Ht as [c|c c1 c2 e es Hs Ht IH]; intros open Hok Hlt Hd Hb.
  - split; [done|lia].
  - destruct Hd as [Hd1 Hd2]. pose proof (coordinator_step_ok _ _ _ Hok Hs) as Hok1.
    pose proof (coordinator_step_next _ _ _ Hok Hs).
    assert (next_ticket_id (pc_tickets c1) <= next_ticket_id (pc_tickets c2)) as Hle.
    { clear - Ht Hok1. induction Ht as [|c c1 c2 e es Hs Ht IH]; [lia|].
      pose proof (coordinator_step_next _ _ _ Hok1 Hs).
      specialize (IH (coordinator_step_ok _ _ _ Hok1 Hs)). lia. }
    assert (slots_balanced c1 (open_after_event open e)) as Hb1
      by (apply (coordinator_step_slots c); auto; lia).
    destruct (IH _ Hok1 Hlt Hd2 Hb1). split; [done|lia].
Qed.

End Coordinator.

(** ** Properties *)

Section Properties.
Context {U : UrlLib} {S : Sha256Lib} {J : JsonLib (HashMaterial AuditEvent)}
  {JT : JsonLib (HashMaterial TransportAuditEvent)}.

(** A connection ticket is handed out only for an [Allow] decision on exactly
    this request: every check of the gateway passed, the selected address was
    resolved and is public, and the ticket is bound to that decision, that
    address, the resolved address set and the tail of the gateway's audit chain. *)
Theorem connection_ticket_implies_allow intent ip elapsed c auth c' t :
  authorize_connection intent ip elapsed c = Done (Ok auth, c') -> ca_ticket auth = Some t ->
  outcome (ca_decision auth) = Allow /\ permitted intent elapsed (pc_gateway c)
  /\ ip ∈ resolved_ips intent /\ is_public_destination ip = true
  /\ ticket_ok t /\ tk_selected_ip t = ip
  /\ tk_pinned_addresses t = list_to_set (resolved_ips intent)
  /\ tk_decision_id t = decision_id (ca_decision auth)
  /\ tk_dns_context_id t = normalize_identifier (intent_dns_context_id intent)
  /\ tk_audit_anchor t = tail_hash (audit (pc_gateway c')).
Proof.
  intros Hz Hat. apply authorize_connection_cases in Hz as [(_ & _ & e & He)|(d & g & Hip & Hd & Hz)]; [done|].
  destruct d as [d|e]; [|by destruct Hz]. destruct (outcome d) eqn:Ho; [|destruct Hz; by simplify_eq].
  apply issue_for_decision_cases in Hz
    as [(t' & h & s & po & _ & _ & _ & Hi & Eg & Hr)|[(_ & _ & e & ?)|(_ & (e & ?) & _)]]; try done.
  destruct Hr as [[= ->]|[e He]]; [|done]. cbn in *. simplify_eq.
  apply authorize_decision_id in Hd as Hid.
  pose proof Hd as (d' & s' & g1 & He & _ & -> & _)%authorize_inv.
  apply (evaluate_permitted _ _ _ _ _ _ He) in Ho as Hperm.
  apply issue_inv in Hi as (Hb & Hok & _ & Ha & _).
  apply normalize_and_validate_binding_ok in Hb as (_ & Hdi & Hc & _ & _ & _ & Hp & Hs & _). cbn in *.
  rewrite Hid, format_decision_id_normal, <- Hid in Hdi.
  pose proof Hperm as (_ & _ & _ & Hpub & _). rewrite Forall_forall in Hpub.
  split_and!; auto.
Qed.

(** C2: every permit leads back to a recorded decision. Along any sequence of
    operations on a new coordinator, each permit that was given rests on an earlier
    call of the sequence that decided a request: there every check of the gateway
    passed; the permit's address is public and one of those pinned to the host of that
    request then, and its scheme, port, server name and authority are those of the
    request; and the gateway's audit chain records the decision, for that URL, as
    allowed. Both audit chains verify. *)
Theorem permits_trace_back_to_allow p m g es c :
  gateway_new p m = Ok g -> coordinator_trace (coordinator_new g) es c ->
  (forall permit, permit ∈ trace_permits es ->
     permit_traced (coordinator_new g) es c permit /\ permit_authorized (pc_gateway c) permit)
  /\ audit_verify (audit (pc_gateway c)) = Ok tt
  /\ transport_audit_verify (pc_audit c) = Ok tt.
Proof.
  intros Hn Ht. apply gateway_new_ok in Hn as (Hg & _). apply coordinator_new_ok in Hg as Hok.
  destruct (coordinator_trace_ok _ _ _ Hok Ht) as [Hg' _ Hch _].
  split_and!; [|by apply audit_ok_verify, go_audit|by apply chain_verify_spec].
  intros permit Hp. split; [by apply coordinator_trace_tickets|by eapply coordinator_trace_permits].
Qed.

(** Request slots are conserved: as long as the client completes only
    requests it holds a permit for (and serialisation succeeds), the requests in
    flight are at every point exactly the outstanding tickets plus the open
    permits: failed uses, revocations and refused tickets give their slot back,
    and nothing gives one back twice. *)
Theorem request_slots_are_conserved `{!UrlLaws U} `{!JsonTotal (HashMaterial AuditEvent)}
    `{!JsonTotal (HashMaterial TransportAuditEvent)} p m g es c :
  gateway_new p m = Ok g -> coordinator_trace (coordinator_new g) es c -> disciplined 0 es ->
  next_ticket_id (pc_tickets c) < u64_max ->
  in_flight_requests (pc_gateway c) = N.of_nat (issued_count (pc_tickets c)) + open_after 0 es.
Proof.
  intros Hn Ht Hd Hlt. apply gateway_new_ok in Hn as (Hg & _ & _ & _ & _ & Hi).
  apply coordinator_new_ok in Hg as Hok.
  apply (coordinator_trace_slots _ _ _ 0 Ht Hok Hlt Hd). unfold slots_balanced. cbn.
  unfold in_flight_requests. rewrite Hi. done.
Qed.

End Properties.

(** ** Witnesses *)

Definition show_transport_event (e : TransportAuditEvent) : str := te_event_id e ++ te_status e.
Definition toy_transport_json : JsonLib (HashMaterial TransportAuditEvent) :=
  toy_json show_transport_event.

Definition google_dns : IpAddr := V4 (ipv4_new 8 8 8 8).

Definition example_connect (c : PinnedTransportCoordinator)
    : Run (Result ConnectionAuthorization PinnedTransportError * PinnedTransportCoordinator) :=
  authorize_connection (U := plain_url) (S := toy_sha256) (J := toy_audit_json)
    (JT := toy_transport_json) (example_intent "api.app.example.com") google_dns 0 c.

Definition example_present (attempt : ConnectionAttempt) (c : PinnedTransportCoordinator)
    : Result TicketUseResult PinnedTransportError * PinnedTransportCoordinator :=
  consume_connection_ticket (S := toy_sha256) (JT := toy_transport_json) attempt 1000000 c.

Definition coordinator0 : PinnedTransportCoordinator := coordinator_new example_gateway.
Definition coordinator1 : PinnedTransportCoordinator :=
  match example_connect coordinator0 with Done (_, c) => c | Panic _ => coordinator0 end.

Definition connect_ticket : ConnectionTicket :=
  let b := {| bd_decision_id := format_decision_id 1; bd_dns_context_id := "navigation-1";
     bd_host := "api.app.example.com"; bd_scheme := Https; bd_port := 443;
     bd_sni := Some ("api.app.example.com" : str); bd_http_host := "api.app.example.com";
     bd_pinned_addresses := {[ google_dns ]}; bd_selected_ip := google_dns;
     bd_redirect_depth := 0 |} in
  let anchor := tail_hash (audit example_gateway1) in
  bound_ticket (format_ticket_id 1) b 0 5000 anchor
    (binding_hash (H := toy_sha256) (format_ticket_id 1) b 0 5000 anchor).

Definition connect_auth : ConnectionAuthorization :=
  {| ca_decision := example_allow; ca_ticket := Some connect_ticket |}.

Definition connect_attempt : ConnectionAttempt :=
  {| at_ticket_id := format_ticket_id 1; at_dns_context_id := "navigation-1"; at_scheme := Https;
     at_remote_ip := google_dns; at_port := 443; at_sni := Some ("api.app.example.com" : str);
     at_http_host := "api.app.example.com"; at_redirect_depth := 0 |}.

Definition connect_use : TicketUseResult :=
  {| use_outcome := UseConsumed; use_ticket := Some connect_ticket; use_attempt := connect_attempt;
     use_permit := Some (permit_of connect_ticket) |}.

Definition coordinator2 : PinnedTransportCoordinator := (example_present connect_attempt coordinator1).2.
Definition coordinator3 : PinnedTransportCoordinator := coordinator_complete_request coordinator2.

Lemma example_connected : example_connect coordinator0 = Done (Ok connect_auth, coordinator1).
Proof. apply run_of_fst. vm_compute. reflexivity. Qed.

Lemma example_presented : example_present connect_attempt coordinator1 = (Ok connect_use, coordinator2).
Proof. apply pair_of_fst. vm_compute. reflexivity. Qed.

Definition example_events : list CoordinatorEvent :=
  [ConnectionDecided (Ok connect_auth); TicketPresented (Ok connect_use); RequestCompleted].

Lemma example_coordinator_trace :
  coordinator_trace (U := plain_url) (S := toy_sha256) (J := toy_audit_json) (JT := toy_transport_json)
    coordinator0 example_events coordinator3.
Proof.
  apply (ctrace_step _ coordinator1); [exact (cstep_authorize _ _ _ _ _ _ example_connected)|].
  apply (ctrace_step _ coordinator2); [exact (cstep_consume _ _ _ _ _ example_presented)|].
  apply (ctrace_step _ coordinator3); [apply cstep_complete|]. apply ctrace_nil.
Qed.

Lemma connection_ticket_implies_allow_witness :
  outcome (ca_decision connect_auth) = Allow.
Proof.
  exact (proj1 (connection_ticket_implies_allow (U := plain_url) (S := toy_sha256) (J := toy_audit_json)
    (JT := toy_transport_json) (example_intent "api.app.example.com") google_dns 0 coordinator0
    connect_auth coordinator1 connect_ticket example_connected eq_refl)).
Defined.

Lemma permits_trace_back_to_allow_witness :
  permit_traced (U := plain_url) (S := toy_sha256) (J := toy_audit_json) (JT := toy_transport_json)
    coordinator0 example_events coordinator3 (permit_of connect_ticket)
  /\ permit_authorized (pc_gateway coordinator3) (permit_of connect_ticket).
Proof.
  apply (permits_trace_back_to_allow (U := plain_url) (S := toy_sha256) (J := toy_audit_json)
    (JT := toy_transport_json) example_compiled 3 example_gateway example_events coordinator3
    example_gateway_new example_coordinator_trace).
  apply list_elem_of_singleton. reflexivity.
Defined.

Lemma request_slots_are_conserved_witness :
  in_flight_requests (pc_gateway coordinator3)
    = N.of_nat (issued_count (pc_tickets coordinator3)) + open_after 0 example_events.
Proof.
  apply (@request_slots_are_conserved plain_url toy_sha256 toy_audit_json toy_transport_json
    plain_url_laws (toy_json_total _) (toy_json_total _) example_compiled 3 example_gateway
    example_events coordinator3 example_gateway_new example_coordinator_trace).
  - vm_compute. auto.
  - vm_compute. reflexivity.
Defined.
