(* ===== verification/Executor.v ===== *)
(** * The permit executor ([crates/nxb-executor])

    Runs a backend for a transport permit under byte and time limits, classifies
    what the backend reports and records one receipt per execution. The backend
    is a trait of the source, modelled as a type class. *)

From S2P Require Import Prelude ByteStr IpAddr HashChain Transport.
Local Open Scope N_scope.

(** ** Model *)

Definition MAX_CONNECT_TIMEOUT_MILLISECONDS : N := 30000.
Definition MAX_TOTAL_TIMEOUT_MILLISECONDS : N := 120000.
Definition MAX_DIRECTION_BYTES : N := 64 * 1024 * 1024.
Definition EXECUTOR_AUDIT_GENESIS_HASH : str := replicate 64 "0"%char.

Record ExecutionLimits : Type := {
  connect_timeout_milliseconds : N;
  total_timeout_milliseconds : N;
  maximum_read_bytes : N;
  maximum_write_bytes : N
}.

Record ExecutionControl : Type := {
  cancel_requested : bool;
  emergency_stop_requested : bool
}.

Inductive ExecutionState : Type :=
  | Prepared
  | Connecting
  | Connected
  | StateCompleted
  | StateCancelled
  | StateEmergencyStopped
  | TimedOut
  | BudgetRejected
  | BackendFailed
  | PermitRejected.

Definition execution_state_code (state : ExecutionState) : str :=
  match state with
  | Prepared => "prepared"
  | Connecting => "connecting"
  | Connected => "connected"
  | StateCompleted => "completed"
  | StateCancelled => "cancelled"
  | StateEmergencyStopped => "emergency_stopped"
  | TimedOut => "timed_out"
  | BudgetRejected => "budget_rejected"
  | BackendFailed => "backend_failed"
  | PermitRejected => "permit_rejected"
  end.

Inductive ExecutionOutcome : Type :=
  | ExecCompleted
  | ExecCancelled
  | ExecEmergencyStopped
  | ConnectTimeout
  | TotalTimeout
  | ReadBudgetExceeded
  | WriteBudgetExceeded
  | BackendFailure (backend_code : str)
  | PermitIntegrityRejected (reason : str).

Definition execution_outcome_code (outcome : ExecutionOutcome) : str :=
  match outcome with
  | ExecCompleted => "completed"
  | ExecCancelled => "cancelled"
  | ExecEmergencyStopped => "emergency_stopped"
  | ConnectTimeout => "connect_timeout"
  | TotalTimeout => "total_timeout"
  | ReadBudgetExceeded => "read_budget_exceeded"
  | WriteBudgetExceeded => "write_budget_exceeded"
  | BackendFailure _ => "backend_failure"
  | PermitIntegrityRejected _ => "permit_integrity_rejected"
  end.

Definition terminal_state (outcome : ExecutionOutcome) : ExecutionState :=
  match outcome with
  | ExecCompleted => StateCompleted
  | ExecCancelled => StateCancelled
  | ExecEmergencyStopped => StateEmergencyStopped
  | ConnectTimeout | TotalTimeout => TimedOut
  | ReadBudgetExceeded | WriteBudgetExceeded => BudgetRejected
  | BackendFailure _ => BackendFailed
  | PermitIntegrityRejected _ => PermitRejected
  end.

Definition execution_outcome_details (outcome : ExecutionOutcome) : gmap str str :=
  match outcome with
  | BackendFailure backend_code => {[ ("backend_code" : str) := backend_code ]}
  | PermitIntegrityRejected reason => {[ ("reason" : str) := reason ]}
  | _ => ∅
  end.

Record BackendReport : Type := {
  connected_after_milliseconds : option N;
  elapsed_milliseconds : N;
  read_bytes : N;
  written_bytes : N;
  failure_code : option str
}.

Record PermitEndpoint : Type := {
  ep_ticket_id : str;
  ep_decision_id : str;
  ep_dns_context_id : str;
  ep_scheme : TransportScheme;
  ep_remote_ip : IpAddr;
  ep_port : N;
  ep_sni : option str;
  ep_http_host : str;
  ep_redirect_depth : N;
  ep_binding_hash : str
}.

(** The trait [PermitBackend]: a call returns a report and the new backend. *)
Class PermitBackend (B : Type) : Type := {
  backend_execute : PermitEndpoint -> ExecutionLimits -> ExecutionControl -> B -> BackendReport * B
}.

Record ExecutionReceipt : Type := {
  rc_execution_id : str;
  rc_executor_id : str;
  rc_ticket_id : str;
  rc_decision_id : str;
  rc_dns_context_id : str;
  rc_transport_audit_anchor : str;
  rc_binding_hash : str;
  rc_endpoint_fingerprint : str;
  rc_outcome : ExecutionOutcome;
  rc_state_history : list ExecutionState;
  rc_connected_after_milliseconds : option N;
  rc_elapsed_milliseconds : N;
  rc_read_bytes : N;
  rc_written_bytes : N
}.

Record ExecutorAuditEvent : Type := {
  xe_execution_id : str;
  xe_executor_id : str;
  xe_ticket_id : str;
  xe_decision_id : str;
  xe_dns_context_id : str;
  xe_transport_audit_anchor : str;
  xe_binding_hash : str;
  xe_endpoint_fingerprint : str;
  xe_remote_ip : str;
  xe_port : N;
  xe_scheme : str;
  xe_sni : option str;
  xe_http_host : str;
  xe_redirect_depth : N;
  xe_outcome : str;
  xe_outcome_details : gmap str str;
  xe_state_history : list str;
  xe_connected_after_milliseconds : option N;
  xe_elapsed_milliseconds : N;
  xe_read_bytes : N;
  xe_written_bytes : N
}.

Record PermitExecutor (B : Type) : Type := {
  executor_id : str;
  backend : B;
  executor_audit : HashChain ExecutorAuditEvent;
  next_execution_id : N
}.
Arguments Build_PermitExecutor {B} _ _ _ _.
Arguments executor_id {B} _.
Arguments backend {B} _.
Arguments executor_audit {B} _.
Arguments next_execution_id {B} _.

Inductive ExecutorError : Type :=
  | InvalidExecutorId
  | InvalidLimits (message : str)
  | InvalidTransportAuditAnchor
  | ExecutorAudit (error : ChainError).

(** The struct hashed into the endpoint fingerprint. *)
Record FingerprintMaterial : Type := {
  fm_permit_ticket_id : str;
  fm_decision_id : str;
  fm_dns_context_id : str;
  fm_scheme : str;
  fm_remote_ip : IpAddr;
  fm_port : N;
  fm_sni : option str;
  fm_http_host : str;
  fm_redirect_depth : N;
  fm_binding_hash : str;
  fm_transport_audit_anchor : str
}.

(** ** Operations *)

Definition conservative_default : ExecutionLimits :=
  {| connect_timeout_milliseconds := 5000;
     total_timeout_milliseconds := 15000;
     maximum_read_bytes := 2 * 1024 * 1024;
     maximum_write_bytes := 256 * 1024 |}.

Definition limits_validate (self : ExecutionLimits) : Result ExecutionLimits ExecutorError :=
  if (connect_timeout_milliseconds self =? 0)
     || (MAX_CONNECT_TIMEOUT_MILLISECONDS <? connect_timeout_milliseconds self)
  then Err (InvalidLimits "connect timeout is outside the supported range")
  else if (total_timeout_milliseconds self <? connect_timeout_milliseconds self)
          || (MAX_TOTAL_TIMEOUT_MILLISECONDS <? total_timeout_milliseconds self)
  then Err (InvalidLimits "total timeout must cover connect timeout and remain bounded")
  else if (maximum_read_bytes self =? 0) || (MAX_DIRECTION_BYTES <? maximum_read_bytes self)
  then Err (InvalidLimits "read byte budget is outside the supported range")
  else if (maximum_write_bytes self =? 0) || (MAX_DIRECTION_BYTES <? maximum_write_bytes self)
  then Err (InvalidLimits "write byte budget is outside the supported range")
  else Ok self.

Definition empty_report : BackendReport :=
  {| connected_after_milliseconds := None; elapsed_milliseconds := 0; read_bytes := 0;
     written_bytes := 0; failure_code := None |}.

Definition endpoint_from_permit (permit : TransportPermit) : PermitEndpoint :=
  {| ep_ticket_id := pm_ticket_id permit;
     ep_decision_id := pm_decision_id permit;
     ep_dns_context_id := pm_dns_context_id permit;
     ep_scheme := pm_scheme permit;
     ep_remote_ip := pm_remote_ip permit;
     ep_port := pm_port permit;
     ep_sni := pm_sni permit;
     ep_http_host := pm_http_host permit;
     ep_redirect_depth := pm_redirect_depth permit;
     ep_binding_hash := pm_binding_hash permit |}.

Definition validate_permit (permit : TransportPermit) : Result unit str :=
  if negb (is_valid_identifier (pm_ticket_id permit)) then Err ("invalid_ticket_id" : str)
  else if negb (is_valid_identifier (pm_decision_id permit)) then Err ("invalid_decision_id" : str)
  else if negb (is_valid_identifier (pm_dns_context_id permit))
  then Err ("invalid_dns_context_id" : str)
  else if pm_port permit =? 0 then Err ("zero_port" : str)
  else if negb (is_lower_hex_sha256 (pm_binding_hash permit)) then Err ("invalid_binding_hash" : str)
  else if bool_decide (trim (pm_http_host permit) = []) || contains_byte 47 (pm_http_host permit)
          || contains_byte 92 (pm_http_host permit) || contains_byte 64 (pm_http_host permit)
  then Err ("invalid_http_host" : str)
  else match pm_scheme permit with
  | Http => match pm_sni permit with Some _ => Err ("unexpected_http_sni" : str) | None => Ok tt end
  | Https =>
      match pm_sni permit with
      | Some value =>
          if negb (bool_decide (trim value = [])) then Ok tt else Err ("missing_https_sni" : str)
      | None => Err ("missing_https_sni" : str)
      end
  end.

Definition sanitize_backend_code (value : str) : str :=
  let normalized := to_ascii_lowercase (trim value) in
  if is_valid_identifier normalized then normalized else "invalid_backend_code".

Definition classify_report (report : BackendReport) (limits : ExecutionLimits) : ExecutionOutcome :=
  match failure_code report with
  | Some code => BackendFailure (sanitize_backend_code code)
  | None =>
      match connected_after_milliseconds report with
      | None => BackendFailure "backend_did_not_connect"
      | Some connected_after =>
          if connect_timeout_milliseconds limits <? connected_after then ConnectTimeout
          else if total_timeout_milliseconds limits <? elapsed_milliseconds report then TotalTimeout
          else if maximum_read_bytes limits <? read_bytes report then ReadBudgetExceeded
          else if maximum_write_bytes limits <? written_bytes report then WriteBudgetExceeded
          else ExecCompleted
      end
  end.

Definition format_execution_id (value : N) : str := ("execution-" : str) ++ decimal020 value.
#[global] Arguments format_execution_id : simpl never.

Definition fingerprint_material (permit : TransportPermit) (transport_audit_anchor : str)
    : FingerprintMaterial :=
  {| fm_permit_ticket_id := pm_ticket_id permit;
     fm_decision_id := pm_decision_id permit;
     fm_dns_context_id := pm_dns_context_id permit;
     fm_scheme := scheme_code (pm_scheme permit);
     fm_remote_ip := pm_remote_ip permit;
     fm_port := pm_port permit;
     fm_sni := pm_sni permit;
     fm_http_host := pm_http_host permit;
     fm_redirect_depth := pm_redirect_depth permit;
     fm_binding_hash := pm_binding_hash permit;
     fm_transport_audit_anchor := transport_audit_anchor |}.

Section Executor.
Context {S : Sha256Lib} {J : JsonLib (HashMaterial ExecutorAuditEvent)}
  {JF : JsonLib FingerprintMaterial} {B : Type} {PB : PermitBackend B}.

Definition endpoint_fingerprint (permit : TransportPermit) (transport_audit_anchor : str) : Run str :=
  match to_vec (fingerprint_material permit transport_audit_anchor) with
  | Ok bytes => Done (to_lower_hex (sha256 bytes))
  | Err _ => Panic "endpoint fingerprint material is serializable"
  end.

(** The executor's audit chain, an instance of the shared one. *)
Definition executor_audit_new : HashChain ExecutorAuditEvent := chain_new EXECUTOR_AUDIT_GENESIS_HASH.
Definition executor_audit_append (event : ExecutorAuditEvent) (chain : HashChain ExecutorAuditEvent)
    : Result (ChainRecord ExecutorAuditEvent) ChainError * HashChain ExecutorAuditEvent :=
  chain_append event chain.
Definition executor_audit_verify (chain : HashChain ExecutorAuditEvent) : Result unit ChainError :=
  chain_verify chain.
Definition executor_record_hash (sequence : N) (previous_hash : str) (event : ExecutorAuditEvent)
    : Result str ChainError := hash_material sequence previous_hash event.

Definition executor_new (executor_id : str) (backend : B) : Result (PermitExecutor B) ExecutorError :=
  if negb (is_valid_identifier executor_id) then Err InvalidExecutorId
  else Ok {| executor_id := executor_id; backend := backend;
             executor_audit := executor_audit_new; next_execution_id := 1 |}.

Definition receipt_event (permit : TransportPermit) (receipt : ExecutionReceipt) : ExecutorAuditEvent :=
  {| xe_execution_id := rc_execution_id receipt;
     xe_executor_id := rc_executor_id receipt;
     xe_ticket_id := rc_ticket_id receipt;
     xe_decision_id := rc_decision_id receipt;
     xe_dns_context_id := rc_dns_context_id receipt;
     xe_transport_audit_anchor := rc_transport_audit_anchor receipt;
     xe_binding_hash := rc_binding_hash receipt;
     xe_endpoint_fingerprint := rc_endpoint_fingerprint receipt;
     xe_remote_ip := ip_to_string (pm_remote_ip permit);
     xe_port := pm_port permit;
     xe_scheme := scheme_code (pm_scheme permit);
     xe_sni := pm_sni permit;
     xe_http_host := pm_http_host permit;
     xe_redirect_depth := pm_redirect_depth permit;
     xe_outcome := execution_outcome_code (rc_outcome receipt);
     xe_outcome_details := execution_outcome_details (rc_outcome receipt);
     xe_state_history := map execution_state_code (rc_state_history receipt);
     xe_connected_after_milliseconds := rc_connected_after_milliseconds receipt;
     xe_elapsed_milliseconds := rc_elapsed_milliseconds receipt;
     xe_read_bytes := rc_read_bytes receipt;
     xe_written_bytes := rc_written_bytes receipt |}.

(** The four branches of [execute]: the outcome, the report, the states so far
    and the backend. *)
Definition run_permit (permit : TransportPermit) (limits : ExecutionLimits)
    (control : ExecutionControl) (backend : B)
    : ExecutionOutcome * BackendReport * list ExecutionState * B :=
  match validate_permit permit with
  | Err reason => (PermitIntegrityRejected reason, empty_report, [Prepared], backend)
  | Ok _ =>
      if emergency_stop_requested control
      then (ExecEmergencyStopped, empty_report, [Prepared], backend)
      else if cancel_requested control then (ExecCancelled, empty_report, [Prepared], backend)
      else
        let (report, backend) :=
          backend_execute (endpoint_from_permit permit) limits control backend in
        let states := [Prepared; Connecting]
                      ++ match connected_after_milliseconds report with
                         | Some _ => [Connected]
                         | None => []
                         end in
        (classify_report report limits, report, states, backend)
  end.

Definition execute (permit : TransportPermit) (transport_audit_anchor : str)
    (limits : ExecutionLimits) (control : ExecutionControl) (self : PermitExecutor B)
    : Run (Result ExecutionReceipt ExecutorError * PermitExecutor B) :=
  match limits_validate limits with
  | Err error => Done (Err error, self)
  | Ok limits =>
      if negb (is_lower_hex_sha256 transport_audit_anchor)
      then Done (Err InvalidTransportAuditAnchor, self)
      else
        let execution_id := format_execution_id (next_execution_id self) in
        let next := saturating_add (next_execution_id self) 1 in
        let! fingerprint := endpoint_fingerprint permit transport_audit_anchor in
        let '(outcome, report, states, backend) := run_permit permit limits control (backend self) in
        let receipt :=
          {| rc_execution_id := execution_id;
             rc_executor_id := executor_id self;
             rc_ticket_id := pm_ticket_id permit;
             rc_decision_id := pm_decision_id permit;
             rc_dns_context_id := pm_dns_context_id permit;
             rc_transport_audit_anchor := transport_audit_anchor;
             rc_binding_hash := pm_binding_hash permit;
             rc_endpoint_fingerprint := fingerprint;
             rc_outcome := outcome;
             rc_state_history := states ++ [terminal_state outcome];
             rc_connected_after_milliseconds := connected_after_milliseconds report;
             rc_elapsed_milliseconds := elapsed_milliseconds report;
             rc_read_bytes := read_bytes report;
             rc_written_bytes := written_bytes report |} in
        let (appended, audit) :=
          executor_audit_append (receipt_event permit receipt) (executor_audit self) in
        let self := {| executor_id := executor_id self; backend := backend;
                       executor_audit := audit; next_execution_id := next |} in
        match appended with
        | Err error => Done (Err (ExecutorAudit error), self)
        | Ok _ => Done (Ok receipt, self)
        end
  end.

End Executor.

(** ** The synthetic backend *)

Record SyntheticScenario : Type := {
  sc_connected_after_milliseconds : option N;
  sc_elapsed_milliseconds : N;
  sc_read_bytes : N;
  sc_written_bytes : N;
  sc_failure_code : option str
}.

Definition scenario_success (connected_after elapsed read written : N) : SyntheticScenario :=
  {| sc_connected_after_milliseconds := Some connected_after; sc_elapsed_milliseconds := elapsed;
     sc_read_bytes := read; sc_written_bytes := written; sc_failure_code := None |}.

Definition scenario_failure (code : str) (elapsed : N) : SyntheticScenario :=
  {| sc_connected_after_milliseconds := None; sc_elapsed_milliseconds := elapsed;
     sc_read_bytes := 0; sc_written_bytes := 0; sc_failure_code := Some code |}.

(** The observation copies the endpoint with its address and scheme as text. *)
Record SyntheticEndpointObservation : Type := {
  so_endpoint : PermitEndpoint;
  so_scheme : str;
  so_remote_ip : str
}.

Record SyntheticBackend : Type := {
  scenarios : list SyntheticScenario;
  observed_endpoints : list SyntheticEndpointObservation
}.

Definition synthetic_execute (endpoint : PermitEndpoint) (limits : ExecutionLimits)
    (control : ExecutionControl) (self : SyntheticBackend) : BackendReport * SyntheticBackend :=
  let observed :=
    observed_endpoints self ++
      [{| so_endpoint := endpoint; so_scheme := scheme_code (ep_scheme endpoint);
          so_remote_ip := ip_to_string (ep_remote_ip endpoint) |}] in
  let '(scenario, rest) := match scenarios self with
                           | s :: rest => (s, rest)
                           | [] => (scenario_failure "synthetic_scenario_exhausted" 0, [])
                           end in
  ({| connected_after_milliseconds := sc_connected_after_milliseconds scenario;
      elapsed_milliseconds := sc_elapsed_milliseconds scenario;
      read_bytes := sc_read_bytes scenario;
      written_bytes := sc_written_bytes scenario;
      failure_code := sc_failure_code scenario |},
   {| scenarios := rest; observed_endpoints := observed |}).

#[export] Instance synthetic_backend : PermitBackend SyntheticBackend :=
  {| backend_execute := synthetic_execute |}.

(** ** One execution *)

Section Proofs.
Context {S : Sha256Lib} {J : JsonLib (HashMaterial ExecutorAuditEvent)}
  {JF : JsonLib FingerprintMaterial} {B : Type} {PB : PermitBackend B}.

Lemma limits_validate_ok l l' :
  limits_validate l = Ok l' ->
  l' = l
  /\ 0 < connect_timeout_milliseconds l <= MAX_CONNECT_TIMEOUT_MILLISECONDS
  /\ connect_timeout_milliseconds l <= total_timeout_milliseconds l <= MAX_TOTAL_TIMEOUT_MILLISECONDS
  /\ 0 < maximum_read_bytes l <= MAX_DIRECTION_BYTES
  /\ 0 < maximum_write_bytes l <= MAX_DIRECTION_BYTES.
Proof. unfold limits_validate. intros H. inv_ok H. bools. split_and!; auto; lia. Qed.

(** The receipt of a run that returned, and the executor after it. *)
Lemma execute_inv permit anchor limits control x r x' :
  execute permit anchor limits control x = Done (Ok r, x') ->
  limits_validate limits = Ok limits
  /\ is_lower_hex_sha256 anchor = true
  /\ exists report states,
       run_permit permit limits control (backend x) = (rc_outcome r, report, states, backend x')
       /\ rc_state_history r = states ++ [terminal_state (rc_outcome r)]
       /\ rc_connected_after_milliseconds r = connected_after_milliseconds report
       /\ rc_elapsed_milliseconds r = elapsed_milliseconds report
       /\ rc_read_bytes r = read_bytes report /\ rc_written_bytes r = written_bytes report
       /\ exists rec, chain_append (receipt_event permit r) (executor_audit x) = (Ok rec, executor_audit x').
Proof.
  unfold execute, executor_audit_append. intros H. destruct (limits_validate limits) as [l|e] eqn:El; [|by simplify_eq].
  apply limits_validate_ok in El as E'. destruct E' as [-> _].
  repeat step_in H; simplify_eq; bools. cbn. split_and!; auto. do 2 eexists. split_and!; eauto.
Qed.

(** The whole run, by the four branches. *)
Lemma run_permit_cases permit limits control b o report states b' :
  run_permit permit limits control b = (o, report, states, b') ->
  (b' = b /\ report = empty_report /\ states = [Prepared]
   /\ ((exists reason, validate_permit permit = Err reason /\ o = PermitIntegrityRejected reason)
       \/ (validate_permit permit = Ok tt /\ emergency_stop_requested control = true
           /\ o = ExecEmergencyStopped)
       \/ (validate_permit permit = Ok tt /\ emergency_stop_requested control = false
           /\ cancel_requested control = true /\ o = ExecCancelled)))
  \/ (validate_permit permit = Ok tt /\ emergency_stop_requested control = false
      /\ cancel_requested control = false
      /\ backend_execute (endpoint_from_permit permit) limits control b = (report, b')
      /\ o = classify_report report limits
      /\ states = [Prepared; Connecting]
           ++ match connected_after_milliseconds report with Some _ => [Connected] | None => [] end).
Proof.
  unfold run_permit. intros H. destruct (validate_permit permit) as [[]|reason] eqn:Ev.
  - destruct (emergency_stop_requested control); [simplify_eq; left; eauto 10|].
    destruct (cancel_requested control); [simplify_eq; left; eauto 12|].
    destruct (backend_execute _ _ _ _) as [rp bk]. simplify_eq. right. split_and!; auto.
  - simplify_eq. left. eauto 10.
Qed.

Lemma classify_report_spec report limits o :
  classify_report report limits = o ->
  match o with
  | ExecCompleted =>
      failure_code report = None
      /\ (exists t, connected_after_milliseconds report = Some t /\ t <= connect_timeout_milliseconds limits)
      /\ elapsed_milliseconds report <= total_timeout_milliseconds limits
      /\ read_bytes report <= maximum_read_bytes limits
      /\ written_bytes report <= maximum_write_bytes limits
  | BackendFailure _ => True
  | ConnectTimeout | TotalTimeout | ReadBudgetExceeded | WriteBudgetExceeded =>
      exists t, connected_after_milliseconds report = Some t
  | _ => False
  end.
Proof.
  unfold classify_report. intros <-. repeat case_match; try done; simplify_eq; bools; eauto 10.
Qed.

(** ** The states of an execution *)

Inductive execution_step : ExecutionState -> ExecutionState -> Prop :=
  | xs_connecting : execution_step Prepared Connecting
  | xs_rejected : execution_step Prepared PermitRejected
  | xs_stopped : execution_step Prepared StateEmergencyStopped
  | xs_cancelled : execution_step Prepared StateCancelled
  | xs_connected : execution_step Connecting Connected
  | xs_not_connected : execution_step Connecting BackendFailed
  | xs_completed : execution_step Connected StateCompleted
  | xs_timed_out : execution_step Connected TimedOut
  | xs_budget : execution_step Connected BudgetRejected
  | xs_failed : execution_step Connected BackendFailed.

Definition is_terminal (s : ExecutionState) : bool :=
  match s with Prepared | Connecting | Connected => false | _ => true end.

(** A path of the state machine. *)
Inductive execution_path : list ExecutionState -> Prop :=
  | path_terminal s : is_terminal s = true -> execution_path [s]
  | path_step s s' l : execution_step s s' -> execution_path (s' :: l) -> execution_path (s :: s' :: l).

Lemma run_permit_path permit limits control b o report states b' :
  run_permit permit limits control b = (o, report, states, b') ->
  execution_path (states ++ [terminal_state o]).
Proof.
  intros [(_ & _ & -> & [(reason & _ & ->)|[(_ & _ & ->)|(_ & _ & _ & ->)]])|
    (_ & _ & _ & _ & Ho & ->)]%run_permit_cases; cbn; try (repeat constructor; fail).
  symmetry in Ho. apply classify_report_spec in Ho as Hc.
  destruct (connected_after_milliseconds report) as [t|] eqn:Et.
  - destruct o; cbn; try done; repeat constructor.
  - destruct o; cbn; try (repeat constructor; fail); try done; naive_solver.
Qed.

(** The fields of a receipt that repeat the permit. *)
Lemma execute_receipt_fields permit anchor limits control x r x' :
  execute permit anchor limits control x = Done (Ok r, x') ->
  rc_execution_id r = format_execution_id (next_execution_id x)
  /\ rc_executor_id r = executor_id x /\ rc_ticket_id r = pm_ticket_id permit
  /\ rc_decision_id r = pm_decision_id permit /\ rc_dns_context_id r = pm_dns_context_id permit
  /\ rc_binding_hash r = pm_binding_hash permit /\ rc_transport_audit_anchor r = anchor
  /\ endpoint_fingerprint permit anchor = Done (rc_endpoint_fingerprint r).
Proof.
  unfold execute. intros H. destruct (limits_validate limits); [|by simplify_eq].
  repeat step_in H; simplify_eq; bools. cbn. auto 10.
Qed.

(** ** Invariant of the executor *)

(** The recorded executions have identifiers below the counter. *)
Record executor_ok (x : PermitExecutor B) : Prop := {
  xo_audit : chain_ok (executor_audit x);
  xo_next : next_execution_id x <= u64_max;
  xo_ids : next_execution_id x < u64_max ->
    Forall (fun rec => exists k, k < next_execution_id x
                       /\ xe_execution_id (event rec) = format_execution_id k)
           (records (executor_audit x))
}.

Lemma executor_new_ok id (b : B) x : executor_new id b = Ok x -> executor_ok x.
Proof.
  unfold executor_new. intros H. inv_ok H. constructor; cbn; [apply chain_new_ok|done|constructor].
Qed.

Lemma format_execution_id_inj a b : format_execution_id a = format_execution_id b -> a = b.
Proof. unfold format_execution_id. by intros ?%app_inv_head%(inj decimal020). Qed.

Lemma execute_ok permit anchor limits control x r x' :
  executor_ok x -> execute permit anchor limits control x = Done (r, x') -> executor_ok x'.
Proof.
  intros [Ha Hn Hi] H. unfold execute, executor_audit_append in H.
  destruct (limits_validate limits); [|by simplify_eq].
  destruct (negb (is_lower_hex_sha256 anchor)); [by simplify_eq|].
  destruct (endpoint_fingerprint permit anchor); [|done].
  destruct (run_permit permit _ control (backend x)) as [[[o rp] st] b].
  destruct (chain_append _ _) as [ar ch] eqn:Ea.
  assert (x' = {| executor_id := executor_id x; backend := b; executor_audit := ch;
                  next_execution_id := saturating_add (next_execution_id x) 1 |}) as ->
    by (destruct ar; by simplify_eq).
  constructor; cbn; [by eapply chain_append_ok|apply saturating_add_le|].
  intros Hlt. pose proof (saturating_succ_exact _ Hlt) as Es. rewrite Es in *.
  assert (Forall (fun rec => exists k, k < next_execution_id x + 1
            /\ xe_execution_id (event rec) = format_execution_id k) (records (executor_audit x))) as Hf.
  { eapply Forall_impl; [apply Hi; lia|]. intros rec (k & ? & ?). exists k. split; [lia|done]. }
  apply chain_append_spec in Ea. destruct ar as [rec|]; [|by subst].
  destruct Ea as (-> & He & _). apply Forall_app. split; [done|]. constructor; [|constructor].
  exists (next_execution_id x). rewrite He. split; [lia|done].
Qed.

End Proofs.

(** ** Permits of issued tickets *)

Lemma contains_byte_forallb n s :
  contains_byte n s = false <-> forallb (fun c => negb (is_byte n c)) s = true.
Proof.
  unfold contains_byte. induction s as [|c s IH]; simpl; [done|].
  rewrite orb_false_iff, andb_true_iff, negb_true_iff. naive_solver.
Qed.

(** The bytes of a valid host. *)
Definition is_host_byte (c : byte) : bool := is_ascii_alphanumeric c || is_byte 45 c || is_byte 46 c.

Lemma valid_host_bytes h :
  transport_is_valid_host h = true ->
  normalize_host h <> [] /\ forallb is_host_byte (normalize_host h) = true.
Proof.
  unfold transport_is_valid_host. intros H. step_in H. bools. split; [done|].
  apply (forallb_split_byte _ 46); [intros c; byte_cases c|].
  rewrite forallb_elem in *. intros l Hl. specialize (H l Hl). unfold is_valid_label in H. bools.
  rewrite forallb_elem in *. intros c Hc. unfold is_host_byte.
  match goal with HF : forall x, x ∈ l -> _ = true |- _ => by rewrite HF end.
Qed.

Lemma expected_http_host_bytes h s p :
  transport_is_valid_host h = true ->
  expected_http_host h s p <> []
  /\ forallb (fun c => is_host_byte c || is_byte 58 c) (expected_http_host h s p) = true.
Proof.
  intros [Hne Hb]%valid_host_bytes. unfold expected_http_host.
  assert (forallb (fun c => is_host_byte c || is_byte 58 c) (normalize_host h) = true) as Hh.
  { rewrite forallb_elem in *. intros c Hc. by rewrite Hb. }
  destruct (p =? default_port s); [done|]. split.
  - by destruct (normalize_host h).
  - rewrite !forallb_app, Hh. simpl. destruct (decimal_spec p) as [_ Hd].
    rewrite forallb_elem in *. intros c Hc. specialize (Hd c Hc). revert Hd. unfold is_host_byte. byte_cases c.
Qed.

Lemma host_byte_graphic c : is_host_byte c || is_byte 58 c = true -> is_graphic c = true.
Proof. unfold is_host_byte. byte_cases c. Qed.

Lemma host_bytes_no_delimiter n s :
  forallb (fun c => is_host_byte c || is_byte 58 c) s = true -> n = 47 \/ n = 92 \/ n = 64 ->
  contains_byte n s = false.
Proof.
  intros H Hn. apply contains_byte_forallb. rewrite forallb_elem in *. intros c Hc.
  specialize (H c Hc). revert H. unfold is_host_byte. destruct Hn as [->|[->| ->]]; byte_cases c.
Qed.

(** A permit the ticket authority gives passes the executor's own checks. *)
Lemma ticket_permit_valid `{Sha256Laws} t :
  ticket_ok t -> is_valid_identifier (tk_ticket_id t) = true -> validate_permit (permit_of t) = Ok tt.
Proof.
  intros [_ [D1 _ C1 _ Hh Hp _ Hs Hhh] _ _ _ _ Hb] Hid. unfold validate_permit. cbn in *.
  assert (is_lower_hex_sha256 (tk_binding_hash t) = true) as Hx.
  { rewrite Hb. apply to_lower_hex_sha256. pose proof (sha256_length (binding_material (tk_ticket_id t)
      (ticket_binding t) (tk_issued_at_milliseconds t) (tk_expires_at_milliseconds t) (tk_audit_anchor t))).
    unfold len in *. lia. }
  destruct (expected_http_host_bytes _ (tk_scheme t) (tk_port t) Hh) as [Hne Hbytes].
  rewrite <- Hhh in Hne, Hbytes. rewrite Hid, D1, C1, (proj2 (N.eqb_neq _ _) Hp), Hx. simpl.
  assert (trim (tk_http_host t) = tk_http_host t) as ->.
  { apply trim_graphic. rewrite forallb_elem in *. intros c Hc. apply host_byte_graphic, Hbytes, Hc. }
  rewrite bool_decide_eq_false_2 by done. rewrite !host_bytes_no_delimiter by auto. simpl.
  rewrite Hs. destruct (tk_scheme t); [done|]. rewrite bool_decide_eq_false_2; [done|].
  intros Ht. destruct (valid_host_bytes _ Hh) as [Hn _]. unfold normalize_host in Hn. by rewrite Ht in Hn.
Qed.

(** ** Properties *)

Section Properties.
Context {S : Sha256Lib} {J : JsonLib (HashMaterial ExecutorAuditEvent)}
  {JF : JsonLib FingerprintMaterial} {B : Type} {PB : PermitBackend B}.

(** The backend runs exactly once, for exactly the endpoint of the permit,
    when the permit is valid and neither an emergency stop nor a cancellation was
    requested; in every other case the backend is not touched and the receipt
    reports no traffic. An emergency stop wins over a cancellation, and an invalid
    permit over both. *)
Theorem backend_runs_only_for_valid_permit permit anchor limits control x r x' :
  execute permit anchor limits control x = Done (Ok r, x') ->
  (validate_permit permit = Ok tt /\ emergency_stop_requested control = false
   /\ cancel_requested control = false
   /\ exists report,
        backend_execute (endpoint_from_permit permit) limits control (backend x) = (report, backend x')
        /\ rc_outcome r = classify_report report limits
        /\ rc_read_bytes r = read_bytes report /\ rc_written_bytes r = written_bytes report)
  \/ (backend x' = backend x /\ rc_read_bytes r = 0 /\ rc_written_bytes r = 0
      /\ rc_connected_after_milliseconds r = None
      /\ ((exists reason, validate_permit permit = Err reason /\ rc_outcome r = PermitIntegrityRejected reason)
          \/ (emergency_stop_requested control = true /\ rc_outcome r = ExecEmergencyStopped)
          \/ (emergency_stop_requested control = false /\ cancel_requested control = true
              /\ rc_outcome r = ExecCancelled))).
Proof.
  intros (_ & _ & report & states & Hr & _ & Hc & _ & Hrd & Hw & _)%execute_inv.
  apply run_permit_cases in Hr as [(Hb & -> & _ & Ho)|(Hv & Hs & Hcn & Hx & Ho & _)].
  - right. rewrite Hrd, Hw, Hc, Hb. split_and!; auto. naive_solver.
  - left. split_and!; auto. exists report. auto.
Qed.

(** A receipt that says completed is within its limits: the connection was
    made in time, the whole exchange took no longer than allowed, and neither byte
    budget was exceeded; and the limits themselves are within the hard ceilings. *)
Theorem completed_receipt_within_limits permit anchor limits control x r x' :
  execute permit anchor limits control x = Done (Ok r, x') -> rc_outcome r = ExecCompleted ->
  (exists t, rc_connected_after_milliseconds r = Some t /\ t <= connect_timeout_milliseconds limits)
  /\ rc_elapsed_milliseconds r <= total_timeout_milliseconds limits <= MAX_TOTAL_TIMEOUT_MILLISECONDS
  /\ rc_read_bytes r <= maximum_read_bytes limits <= MAX_DIRECTION_BYTES
  /\ rc_written_bytes r <= maximum_write_bytes limits <= MAX_DIRECTION_BYTES
  /\ rc_state_history r = [Prepared; Connecting; Connected; StateCompleted].
Proof.
  intros (Hl & _ & report & states & Hr & Hh & Hc & He & Hrd & Hw & _)%execute_inv Ho.
  apply limits_validate_ok in Hl as (_ & ? & ? & ? & ?).
  apply run_permit_cases in Hr as [(_ & _ & _ & Hx)|(_ & _ & _ & _ & Hcl & Hst)].
  { exfalso. destruct Hx as [(? & _ & ?)|[(_ & _ & ?)|(_ & _ & _ & ?)]]; congruence. }
  rewrite Ho in Hcl. symmetry in Hcl. apply classify_report_spec in Hcl as (_ & (t & Ht & Hle) & ? & ? & ?).
  rewrite Hh, Hst, Ht, Ho, Hc, He, Hrd, Hw, Ht. split_and!; eauto; lia.
Qed.

(** The recorded state history is a path of the execution state machine:
    it starts in [prepared], follows its transitions and ends in its only terminal
    state. *)
Theorem state_history_is_a_path permit anchor limits control x r x' :
  execute permit anchor limits control x = Done (Ok r, x') -> execution_path (rc_state_history r).
Proof.
  intros (_ & _ & report & states & Hr & -> & _)%execute_inv. by eapply run_permit_path.
Qed.

(** Every receipt is on record: a returned receipt is the last record of the
    executor's audit chain, and the chain still verifies. *)
Theorem receipt_is_audited permit anchor limits control x r x' :
  executor_audit_verify (executor_audit x) = Ok tt ->
  execute permit anchor limits control x = Done (Ok r, x') ->
  executor_audit_verify (executor_audit x') = Ok tt
  /\ exists rec, records (executor_audit x') = records (executor_audit x) ++ [rec]
       /\ event rec = receipt_event permit r.
Proof.
  unfold executor_audit_verify. rewrite !chain_verify_spec.
  intros Hok (_ & _ & report & states & _ & _ & _ & _ & _ & _ & rec & Ha)%execute_inv.
  split; [by eapply chain_append_ok|]. apply chain_append_spec in Ha as (? & ? & _). eauto.
Qed.

End Properties.

(** The ticket authority and the executor agree on permits: every permit that
    [consume] gives passes the executor's integrity checks, so an execution of it
    is never rejected for its permit. *)
Theorem issued_permits_pass_executor_checks `{Sha256Laws} x now a r a' p :
  authority_ok a -> consume x now a = (r, a') -> use_permit r = Some p ->
  validate_permit p = Ok tt.
Proof.
  intros Ha [_ [(_ & Hn & _)|(t & El & _ & Hp)]]%consume_inv Hpm; [congruence|].
  apply Hp in Hpm as (-> & _). destruct (ao_tickets a Ha _ _ El) as (Hid & Hok & Hv). cbn in *.
  apply ticket_permit_valid; [done|]. by rewrite Hid.
Qed.

(** ** Witnesses *)

Definition toy_executor_json : JsonLib (HashMaterial ExecutorAuditEvent) :=
  toy_json (fun e => xe_execution_id e ++ xe_outcome e).
Definition toy_fingerprint_json : JsonLib FingerprintMaterial :=
  {| to_vec m := Ok (fm_permit_ticket_id m ++ fm_http_host m) |}.

Definition example_executor : PermitExecutor SyntheticBackend :=
  {| executor_id := "executor-1";
     backend := {| scenarios := [scenario_success 20 300 4096 512]; observed_endpoints := [] |};
     executor_audit := chain_new EXECUTOR_AUDIT_GENESIS_HASH; next_execution_id := 1 |}.

Definition no_control : ExecutionControl :=
  {| cancel_requested := false; emergency_stop_requested := false |}.

Definition example_execute : Run (Result ExecutionReceipt ExecutorError * PermitExecutor SyntheticBackend) :=
  execute (S := toy_sha256) (J := toy_executor_json) (JF := toy_fingerprint_json)
    (permit_of (example_ticket 1)) GENESIS_HASH conservative_default no_control example_executor.

Definition after_execute : PermitExecutor SyntheticBackend :=
  match example_execute with Done (_, x) => x | Panic _ => example_executor end.

Definition example_receipt : ExecutionReceipt :=
  {| rc_execution_id := format_execution_id 1; rc_executor_id := "executor-1";
     rc_ticket_id := format_ticket_id 1; rc_decision_id := "decision-00000000000000000001";
     rc_dns_context_id := "navigation-1"; rc_transport_audit_anchor := GENESIS_HASH;
     rc_binding_hash := tk_binding_hash (example_ticket 1);
     rc_endpoint_fingerprint :=
       to_lower_hex (sha256 (Sha256Lib := toy_sha256)
         (format_ticket_id 1 ++ ("app.example.com" : str)));
     rc_outcome := ExecCompleted;
     rc_state_history := [Prepared; Connecting; Connected; StateCompleted];
     rc_connected_after_milliseconds := Some 20; rc_elapsed_milliseconds := 300;
     rc_read_bytes := 4096; rc_written_bytes := 512 |}.

Lemma example_executed : example_execute = Done (Ok example_receipt, after_execute).
Proof. vm_compute. reflexivity. Qed.

Lemma backend_runs_only_for_valid_permit_witness :
  (validate_permit (permit_of (example_ticket 1)) = Ok tt /\ emergency_stop_requested no_control = false
   /\ cancel_requested no_control = false
   /\ exists report,
        backend_execute (endpoint_from_permit (permit_of (example_ticket 1))) conservative_default
          no_control (backend example_executor) = (report, backend after_execute)
        /\ rc_outcome example_receipt = classify_report report conservative_default
        /\ rc_read_bytes example_receipt = read_bytes report
        /\ rc_written_bytes example_receipt = written_bytes report)
  \/ (backend after_execute = backend example_executor /\ rc_read_bytes example_receipt = 0
      /\ rc_written_bytes example_receipt = 0
      /\ rc_connected_after_milliseconds example_receipt = None
      /\ ((exists reason, validate_permit (permit_of (example_ticket 1)) = Err reason
             /\ rc_outcome example_receipt = PermitIntegrityRejected reason)
          \/ (emergency_stop_requested no_control = true /\ rc_outcome example_receipt = ExecEmergencyStopped)
          \/ (emergency_stop_requested no_control = false /\ cancel_requested no_control = true
              /\ rc_outcome example_receipt = ExecCancelled))).
Proof.
  exact (backend_runs_only_for_valid_permit (S := toy_sha256) (J := toy_executor_json)
    (JF := toy_fingerprint_json) _ _ _ _ _ _ _ example_executed).
Defined.

Lemma completed_receipt_within_limits_witness :
  exists t, rc_connected_after_milliseconds example_receipt = Some t
            /\ t <= connect_timeout_milliseconds conservative_default.
Proof.
  exact (proj1 (completed_receipt_within_limits (S := toy_sha256) (J := toy_executor_json)
    (JF := toy_fingerprint_json) _ _ _ _ _ _ _ example_executed eq_refl)).
Defined.

Lemma state_history_is_a_path_witness : execution_path (rc_state_history example_receipt).
Proof.
  exact (state_history_is_a_path (S := toy_sha256) (J := toy_executor_json)
    (JF := toy_fingerprint_json) _ _ _ _ _ _ _ example_executed).
Defined.

Lemma receipt_is_audited_witness :
  executor_audit_verify (S := toy_sha256) (J := toy_executor_json) (executor_audit after_execute) = Ok tt.
Proof.
  apply (receipt_is_audited (S := toy_sha256) (J := toy_executor_json) (JF := toy_fingerprint_json)
    (permit_of (example_ticket 1)) GENESIS_HASH conservative_default no_control example_executor
    example_receipt after_execute).
  - reflexivity.
  - exact example_executed.
Defined.

Lemma issued_permits_pass_executor_checks_witness :
  validate_permit (permit_of (example_ticket 1)) = Ok tt.
Proof.
  exact (@issued_permits_pass_executor_checks toy_sha256 toy_sha256_laws (example_attempt 1) 200
    issued_once first_use used_once (permit_of (example_ticket 1)) issued_once_ok example_used eq_refl).
Defined.
