(* ===== verification/Stream.v ===== *)
(** * Bounded byte streams ([crates/nxb-stream])

    A stream is opened from a permit, a completed execution receipt and the
    executor's audit chain; every read, write and close is bounded, moves the
    stream's state machine and is recorded in an audit chain anchored at the
    executor's record. The backend is a trait of the source. *)

From S2P Require Import Prelude ByteStr IpAddr HashChain Transport Executor.
Local Open Scope N_scope.

(** ** Model ([model.rs]) *)

Definition MAX_STREAM_DIRECTION_BYTES : N := 64 * 1024 * 1024.
Definition MAX_STREAM_OPERATION_BYTES : N := 4 * 1024 * 1024.
Definition MAX_STREAM_DEADLINE_MILLISECONDS : N := 120000.
Definition MAX_STREAM_OPERATIONS : N := 100000.

Record StreamLimits : Type := {
  sl_maximum_read_bytes : N;
  sl_maximum_write_bytes : N;
  sl_maximum_operation_bytes : N;
  sl_read_deadline_milliseconds : N;
  sl_write_deadline_milliseconds : N;
  sl_total_deadline_milliseconds : N;
  sl_maximum_operations : N
}.

Record StreamControl : Type := {
  sc_cancel_requested : bool;
  sc_emergency_stop_requested : bool
}.

Inductive StreamDirection : Type := Read | Write.

Definition direction_code (direction : StreamDirection) : str :=
  match direction with Read => "read" | Write => "write" end.

Inductive StreamState : Type :=
  | SOpen | SReadClosed | SWriteClosed | SClosed | SCancelled | SEmergencyStopped | STimedOut
  | SBudgetExceeded | SReset | STruncated | SBackendFailed.

#[export] Instance StreamState_eq_dec : EqDecision StreamState.
Proof. solve_decision. Defined.

Definition stream_state_code (state : StreamState) : str :=
  match state with
  | SOpen => "open"
  | SReadClosed => "read_closed"
  | SWriteClosed => "write_closed"
  | SClosed => "closed"
  | SCancelled => "cancelled"
  | SEmergencyStopped => "emergency_stopped"
  | STimedOut => "timed_out"
  | SBudgetExceeded => "budget_exceeded"
  | SReset => "reset"
  | STruncated => "truncated"
  | SBackendFailed => "backend_failed"
  end.

Definition stream_is_terminal (state : StreamState) : bool :=
  match state with
  | SClosed | SCancelled | SEmergencyStopped | STimedOut | SBudgetExceeded | SReset | STruncated
  | SBackendFailed => true
  | _ => false
  end.

Inductive StreamOperationOutcome : Type :=
  | OOpened | OData | OWritten | OPartialWrite | OBackpressure | OEof | OClosed | OCancelled
  | OEmergencyStopped | OReadTimeout | OWriteTimeout | OTotalTimeout | OReadBudgetExceeded
  | OWriteBudgetExceeded | OOperationBudgetExceeded | OReset | OTruncated
  | OBackendFailure (backend_code : str).

Definition stream_outcome_code (outcome : StreamOperationOutcome) : str :=
  match outcome with
  | OOpened => "opened"
  | OData => "data"
  | OWritten => "written"
  | OPartialWrite => "partial_write"
  | OBackpressure => "backpressure"
  | OEof => "eof"
  | OClosed => "closed"
  | OCancelled => "cancelled"
  | OEmergencyStopped => "emergency_stopped"
  | OReadTimeout => "read_timeout"
  | OWriteTimeout => "write_timeout"
  | OTotalTimeout => "total_timeout"
  | OReadBudgetExceeded => "read_budget_exceeded"
  | OWriteBudgetExceeded => "write_budget_exceeded"
  | OOperationBudgetExceeded => "operation_budget_exceeded"
  | OReset => "reset"
  | OTruncated => "truncated"
  | OBackendFailure _ => "backend_failure"
  end.

Definition stream_outcome_details (outcome : StreamOperationOutcome) : gmap str str :=
  match outcome with
  | OBackendFailure backend_code => {[ ("backend_code" : str) := backend_code ]}
  | _ => ∅
  end.

Inductive BackendReadStatus : Type :=
  | ReadData (bytes : str)
  | ReadEof
  | ReadBackpressure
  | ReadTimedOut
  | ReadReset
  | ReadTruncated (bytes : str)
  | ReadFailure (code : str).

Record BackendReadReport : Type := {
  rr_elapsed_milliseconds : N;
  rr_status : BackendReadStatus
}.

Inductive BackendWriteStatus : Type :=
  | WriteWritten (accepted : N)
  | WriteBackpressure
  | WriteTimedOut
  | WriteReset
  | WriteClosedByPeer
  | WriteFailure (code : str).

Record BackendWriteReport : Type := {
  wr_elapsed_milliseconds : N;
  wr_status : BackendWriteStatus
}.

(** The trait [ByteStreamBackend]. *)
Class ByteStreamBackend (B : Type) : Type := {
  backend_read : N -> N -> B -> BackendReadReport * B;
  backend_write : str -> N -> B -> BackendWriteReport * B;
  backend_close : B -> B
}.

Record StreamGrant : Type := {
  gr_stream_id : str;
  gr_execution_id : str;
  gr_executor_id : str;
  gr_ticket_id : str;
  gr_decision_id : str;
  gr_dns_context_id : str;
  gr_binding_hash : str;
  gr_endpoint_fingerprint : str;
  gr_executor_audit_anchor : str;
  gr_remote_ip : str;
  gr_port : N;
  gr_scheme : str;
  gr_sni : option str;
  gr_http_host : str;
  gr_redirect_depth : N
}.

Record StreamOperationReceipt : Type := {
  or_operation_id : str;
  or_stream_id : str;
  or_direction : option StreamDirection;
  or_outcome : StreamOperationOutcome;
  or_requested_bytes : N;
  or_transferred_bytes : N;
  or_payload_sha256 : option str;
  or_elapsed_milliseconds : N;
  or_cumulative_read_bytes : N;
  or_cumulative_written_bytes : N;
  or_state_before : StreamState;
  or_state_after : StreamState
}.

Record StreamReadResult : Type := {
  rd_bytes : str;
  rd_receipt : StreamOperationReceipt
}.

(** [StreamWriteResult] holds only the receipt. *)
Record StreamWriteResult : Type := { wt_receipt : StreamOperationReceipt }.

Record StreamReceipt : Type := {
  srec_stream_id : str;
  srec_execution_id : str;
  srec_executor_id : str;
  srec_ticket_id : str;
  srec_decision_id : str;
  srec_dns_context_id : str;
  srec_binding_hash : str;
  srec_endpoint_fingerprint : str;
  srec_executor_audit_anchor : str;
  srec_stream_audit_tail : str;
  srec_state : StreamState;
  srec_read_bytes : N;
  srec_written_bytes : N;
  srec_elapsed_milliseconds : N;
  srec_operation_count : N
}.

Record StreamAuditEvent : Type := {
  se_operation_id : str;
  se_stream_id : str;
  se_execution_id : str;
  se_executor_id : str;
  se_ticket_id : str;
  se_decision_id : str;
  se_dns_context_id : str;
  se_binding_hash : str;
  se_endpoint_fingerprint : str;
  se_executor_audit_anchor : str;
  se_remote_ip : str;
  se_port : N;
  se_scheme : str;
  se_sni : option str;
  se_http_host : str;
  se_redirect_depth : N;
  se_direction : option str;
  se_outcome : str;
  se_outcome_details : gmap str str;
  se_requested_bytes : N;
  se_transferred_bytes : N;
  se_payload_sha256 : option str;
  se_elapsed_milliseconds : N;
  se_cumulative_read_bytes : N;
  se_cumulative_written_bytes : N;
  se_state_before : str;
  se_state_after : str
}.

(** The chain errors inside are those of [StreamAuditError]. *)
Inductive StreamError : Type :=
  | InvalidOperationSize
  | ReadSideClosed
  | WriteSideClosed
  | TerminalState (state : StreamState)
  | StreamAudit (error : ChainError).

Inductive StreamOpenError : Type :=
  | StreamInvalidLimits (message : str)
  | InvalidExecutorAudit (error : ChainError)
  | MissingExecutorAuditRecord
  | ExecutionNotCompleted
  | StreamBindingMismatch (field : str)
  | InvalidExecutorAuditAnchor.

(** [Display] of the errors, as [open] puts them into a message. *)
Definition stream_audit_error_display (error : ChainError) : str :=
  match error with
  | InvalidGenesisHash => "stream audit genesis is invalid"
  | Serialization message => ("stream audit material could not be serialized: " : str) ++ message
  | SequenceMismatch i => ("stream audit sequence mismatch at record " : str) ++ decimal i
  | PreviousHashMismatch i => ("stream audit previous-hash mismatch at record " : str) ++ decimal i
  | RecordHashMismatch i => ("stream audit record-hash mismatch at record " : str) ++ decimal i
  | TailHashMismatch => "stream audit tail hash does not match the final record"
  end.

Definition stream_state_debug (state : StreamState) : str :=
  match state with
  | SOpen => "Open" | SReadClosed => "ReadClosed" | SWriteClosed => "WriteClosed"
  | SClosed => "Closed" | SCancelled => "Cancelled" | SEmergencyStopped => "EmergencyStopped"
  | STimedOut => "TimedOut" | SBudgetExceeded => "BudgetExceeded" | SReset => "Reset"
  | STruncated => "Truncated" | SBackendFailed => "BackendFailed"
  end.

Definition stream_error_display (error : StreamError) : str :=
  match error with
  | InvalidOperationSize =>
      "stream operation size is zero or exceeds the configured per-operation limit"
  | ReadSideClosed => "stream read side is closed"
  | WriteSideClosed => "stream write side is closed"
  | TerminalState state => ("stream is in terminal state " : str) ++ stream_state_debug state
  | StreamAudit error =>
      ("stream audit record could not be committed: " : str) ++ stream_audit_error_display error
  end.

Definition stream_conservative_default : StreamLimits :=
  {| sl_maximum_read_bytes := 2 * 1024 * 1024;
     sl_maximum_write_bytes := 256 * 1024;
     sl_maximum_operation_bytes := 64 * 1024;
     sl_read_deadline_milliseconds := 5000;
     sl_write_deadline_milliseconds := 5000;
     sl_total_deadline_milliseconds := 30000;
     sl_maximum_operations := 4096 |}.

Definition stream_limits_validate (self : StreamLimits) : Result StreamLimits StreamOpenError :=
  if (sl_maximum_read_bytes self =? 0) || (MAX_STREAM_DIRECTION_BYTES <? sl_maximum_read_bytes self)
  then Err (StreamInvalidLimits "read budget is outside the supported range")
  else if (sl_maximum_write_bytes self =? 0)
          || (MAX_STREAM_DIRECTION_BYTES <? sl_maximum_write_bytes self)
  then Err (StreamInvalidLimits "write budget is outside the supported range")
  else if (sl_maximum_operation_bytes self =? 0)
          || (MAX_STREAM_OPERATION_BYTES <? sl_maximum_operation_bytes self)
          || (N.max (sl_maximum_read_bytes self) (sl_maximum_write_bytes self)
              <? sl_maximum_operation_bytes self)
  then Err (StreamInvalidLimits "operation byte budget is outside the supported range")
  else if (sl_read_deadline_milliseconds self =? 0)
          || (MAX_STREAM_DEADLINE_MILLISECONDS <? sl_read_deadline_milliseconds self)
  then Err (StreamInvalidLimits "read deadline is outside the supported range")
  else if (sl_write_deadline_milliseconds self =? 0)
          || (MAX_STREAM_DEADLINE_MILLISECONDS <? sl_write_deadline_milliseconds self)
  then Err (StreamInvalidLimits "write deadline is outside the supported range")
  else if (sl_total_deadline_milliseconds self
             <? N.max (sl_read_deadline_milliseconds self) (sl_write_deadline_milliseconds self))
          || (MAX_STREAM_DEADLINE_MILLISECONDS <? sl_total_deadline_milliseconds self)
  then Err (StreamInvalidLimits "total deadline must cover operation deadlines and remain bounded")
  else if (sl_maximum_operations self =? 0) || (MAX_STREAM_OPERATIONS <? sl_maximum_operations self)
  then Err (StreamInvalidLimits "operation count is outside the supported range")
  else Ok self.

(** ** Classification of backend reports ([stream/outcome.rs]) *)

Definition close_read_side (state : StreamState) : StreamState :=
  match state with
  | SOpen => SReadClosed
  | SWriteClosed => SClosed
  | other => other
  end.

Definition close_write_side (state : StreamState) : StreamState :=
  match state with
  | SOpen => SWriteClosed
  | SReadClosed => SClosed
  | other => other
  end.

Definition backend_read_overflow (code : str) : str * StreamOperationOutcome * StreamState :=
  ([], OBackendFailure code, SBackendFailed).

(** The function [sanitize_backend_code] is the executor's. *)
Definition classify_read (status : BackendReadStatus) (maximum_bytes : N) (state : StreamState)
    : str * StreamOperationOutcome * StreamState :=
  match status with
  | ReadData bytes =>
      if len bytes <=? maximum_bytes then (bytes, OData, state)
      else backend_read_overflow "backend_read_overflow"
  | ReadEof => ([], OEof, close_read_side state)
  | ReadBackpressure => ([], OBackpressure, state)
  | ReadTimedOut => ([], OReadTimeout, STimedOut)
  | ReadReset => ([], OReset, SReset)
  | ReadTruncated bytes =>
      if len bytes <=? maximum_bytes then (bytes, OTruncated, STruncated)
      else backend_read_overflow "backend_truncated_read_overflow"
  | ReadFailure code => ([], OBackendFailure (sanitize_backend_code code), SBackendFailed)
  end.

Definition classify_write (status : BackendWriteStatus) (requested : N) (state : StreamState)
    : N * StreamOperationOutcome * StreamState :=
  match status with
  | WriteWritten accepted =>
      if accepted <=? requested then
        (accepted, if accepted =? requested then OWritten else OPartialWrite, state)
      else (0, OBackendFailure "backend_write_overflow", SBackendFailed)
  | WriteBackpressure => (0, OBackpressure, state)
  | WriteTimedOut => (0, OWriteTimeout, STimedOut)
  | WriteReset => (0, OReset, SReset)
  | WriteClosedByPeer => (0, OClosed, close_write_side state)
  | WriteFailure code => (0, OBackendFailure (sanitize_backend_code code), SBackendFailed)
  end.

Definition control_outcome (control : StreamControl) : option StreamOperationOutcome :=
  if sc_emergency_stop_requested control then Some OEmergencyStopped
  else if sc_cancel_requested control then Some OCancelled
  else None.

Definition stream_terminal_state (outcome : StreamOperationOutcome) (current : StreamState)
    : StreamState :=
  match outcome with
  | OCancelled => SCancelled
  | OEmergencyStopped => SEmergencyStopped
  | OReadTimeout | OWriteTimeout | OTotalTimeout => STimedOut
  | OReadBudgetExceeded | OWriteBudgetExceeded | OOperationBudgetExceeded => SBudgetExceeded
  | OReset => SReset
  | OTruncated => STruncated
  | OBackendFailure _ => SBackendFailed
  | OEof => close_read_side current
  | OClosed => close_write_side current
  | _ => current
  end.

(** ** Binding a stream to an execution ([stream/binding.rs]) *)

Record GrantMaterial : Type := {
  gm_execution_id : str;
  gm_ticket_id : str;
  gm_binding_hash : str;
  gm_endpoint_fingerprint : str;
  gm_executor_audit_anchor : str
}.

Definition binding_conditions (permit : TransportPermit) (receipt : ExecutionReceipt)
    (e : ExecutorAuditEvent) (expected_fingerprint : str) : list (bool * str) :=
  [ (bool_decide (rc_ticket_id receipt = pm_ticket_id permit)
     && bool_decide (xe_ticket_id e = pm_ticket_id permit), "ticket_id" : str);
    (bool_decide (rc_decision_id receipt = pm_decision_id permit)
     && bool_decide (xe_decision_id e = pm_decision_id permit), "decision_id" : str);
    (bool_decide (rc_dns_context_id receipt = pm_dns_context_id permit)
     && bool_decide (xe_dns_context_id e = pm_dns_context_id permit), "dns_context_id" : str);
    (bool_decide (rc_binding_hash receipt = pm_binding_hash permit)
     && bool_decide (xe_binding_hash e = pm_binding_hash permit), "binding_hash" : str);
    (bool_decide (rc_endpoint_fingerprint receipt = expected_fingerprint)
     && bool_decide (xe_endpoint_fingerprint e = expected_fingerprint),
     "endpoint_fingerprint" : str);
    (bool_decide (xe_execution_id e = rc_execution_id receipt), "execution_id" : str);
    (bool_decide (xe_executor_id e = rc_executor_id receipt), "executor_id" : str);
    (bool_decide (xe_transport_audit_anchor e = rc_transport_audit_anchor receipt),
     "transport_audit_anchor" : str);
    (bool_decide (xe_remote_ip e = ip_to_string (pm_remote_ip permit)), "remote_ip" : str);
    (xe_port e =? pm_port permit, "port" : str);
    (bool_decide (xe_scheme e = scheme_code (pm_scheme permit)), "scheme" : str);
    (bool_decide (xe_sni e = pm_sni permit), "sni" : str);
    (bool_decide (xe_http_host e = pm_http_host permit), "http_host" : str);
    (xe_redirect_depth e =? pm_redirect_depth permit, "redirect_depth" : str);
    (bool_decide (xe_outcome e = execution_outcome_code ExecCompleted), "outcome" : str);
    ((xe_read_bytes e =? rc_read_bytes receipt) && (xe_written_bytes e =? rc_written_bytes receipt),
     "byte_counters" : str) ].

Definition is_completed_outcome (o : ExecutionOutcome) : bool :=
  match o with ExecCompleted => true | _ => false end.
Definition is_completed_state (s : option ExecutionState) : bool :=
  match s with Some StateCompleted => true | _ => false end.

(** ** The stream ([stream/engine.rs]) *)

Record BoundedByteStream (B : Type) : Type := {
  bs_grant : StreamGrant;
  bs_limits : StreamLimits;
  bs_backend : B;
  bs_state : StreamState;
  bs_read_bytes : N;
  bs_written_bytes : N;
  bs_elapsed_milliseconds : N;
  bs_operation_count : N;
  bs_audit : HashChain StreamAuditEvent
}.
Arguments Build_BoundedByteStream {B} _ _ _ _ _ _ _ _ _.
Arguments bs_grant {B} _.
Arguments bs_limits {B} _.
Arguments bs_backend {B} _.
Arguments bs_state {B} _.
Arguments bs_read_bytes {B} _.
Arguments bs_written_bytes {B} _.
Arguments bs_elapsed_milliseconds {B} _.
Arguments bs_operation_count {B} _.
Arguments bs_audit {B} _.

Record OperationMetrics : Type := {
  om_requested_bytes : N;
  om_transferred_bytes : N;
  om_payload_sha256 : option str;
  om_elapsed_milliseconds : N
}.

Definition metrics_default : OperationMetrics :=
  {| om_requested_bytes := 0; om_transferred_bytes := 0; om_payload_sha256 := None;
     om_elapsed_milliseconds := 0 |}.
Definition metrics_requested (requested elapsed : N) : OperationMetrics :=
  {| om_requested_bytes := requested; om_transferred_bytes := 0; om_payload_sha256 := None;
     om_elapsed_milliseconds := elapsed |}.

Definition set_backend {B} (b : B) (s : BoundedByteStream B) : BoundedByteStream B :=
  {| bs_grant := bs_grant s; bs_limits := bs_limits s; bs_backend := b; bs_state := bs_state s;
     bs_read_bytes := bs_read_bytes s; bs_written_bytes := bs_written_bytes s;
     bs_elapsed_milliseconds := bs_elapsed_milliseconds s;
     bs_operation_count := bs_operation_count s; bs_audit := bs_audit s |}.
Definition set_state {B} (state : StreamState) (s : BoundedByteStream B) : BoundedByteStream B :=
  {| bs_grant := bs_grant s; bs_limits := bs_limits s; bs_backend := bs_backend s; bs_state := state;
     bs_read_bytes := bs_read_bytes s; bs_written_bytes := bs_written_bytes s;
     bs_elapsed_milliseconds := bs_elapsed_milliseconds s;
     bs_operation_count := bs_operation_count s; bs_audit := bs_audit s |}.
Definition set_elapsed {B} (elapsed : N) (s : BoundedByteStream B) : BoundedByteStream B :=
  {| bs_grant := bs_grant s; bs_limits := bs_limits s; bs_backend := bs_backend s;
     bs_state := bs_state s; bs_read_bytes := bs_read_bytes s; bs_written_bytes := bs_written_bytes s;
     bs_elapsed_milliseconds := elapsed; bs_operation_count := bs_operation_count s;
     bs_audit := bs_audit s |}.
Definition set_read_bytes {B} (n : N) (s : BoundedByteStream B) : BoundedByteStream B :=
  {| bs_grant := bs_grant s; bs_limits := bs_limits s; bs_backend := bs_backend s;
     bs_state := bs_state s; bs_read_bytes := n; bs_written_bytes := bs_written_bytes s;
     bs_elapsed_milliseconds := bs_elapsed_milliseconds s;
     bs_operation_count := bs_operation_count s; bs_audit := bs_audit s |}.
Definition set_written_bytes {B} (n : N) (s : BoundedByteStream B) : BoundedByteStream B :=
  {| bs_grant := bs_grant s; bs_limits := bs_limits s; bs_backend := bs_backend s;
     bs_state := bs_state s; bs_read_bytes := bs_read_bytes s; bs_written_bytes := n;
     bs_elapsed_milliseconds := bs_elapsed_milliseconds s;
     bs_operation_count := bs_operation_count s; bs_audit := bs_audit s |}.
Definition set_record {B} (count : N) (audit : HashChain StreamAuditEvent) (s : BoundedByteStream B)
    : BoundedByteStream B :=
  {| bs_grant := bs_grant s; bs_limits := bs_limits s; bs_backend := bs_backend s;
     bs_state := bs_state s; bs_read_bytes := bs_read_bytes s; bs_written_bytes := bs_written_bytes s;
     bs_elapsed_milliseconds := bs_elapsed_milliseconds s; bs_operation_count := count;
     bs_audit := audit |}.

Section Stream.
Context {S : Sha256Lib} {J : JsonLib (HashMaterial StreamAuditEvent)}
  {JX : JsonLib (HashMaterial ExecutorAuditEvent)} {JF : JsonLib FingerprintMaterial}
  {JG : JsonLib GrantMaterial} {B : Type} {BB : ByteStreamBackend B}.

Definition stream_audit_append (event : StreamAuditEvent) (chain : HashChain StreamAuditEvent)
    : Result (ChainRecord StreamAuditEvent) ChainError * HashChain StreamAuditEvent :=
  chain_append event chain.
Definition stream_audit_verify (chain : HashChain StreamAuditEvent) : Result unit ChainError :=
  chain_verify chain.
Definition stream_record_hash (sequence : N) (previous_hash : str) (event : StreamAuditEvent)
    : Result str ChainError := hash_material sequence previous_hash event.

Definition stream_audit_new (genesis_anchor : str)
    : Result (HashChain StreamAuditEvent) StreamOpenError :=
  if negb (is_lower_hex_sha256 genesis_anchor) then Err InvalidExecutorAuditAnchor
  else Ok (chain_new genesis_anchor).

Definition payload_hash (bytes : str) : str := to_lower_hex (sha256 bytes).

Definition validate_execution_binding (permit : TransportPermit) (receipt : ExecutionReceipt)
    (record : ChainRecord ExecutorAuditEvent) : Run (Result unit StreamOpenError) :=
  if negb (is_completed_outcome (rc_outcome receipt))
     || negb (is_completed_state (last (rc_state_history receipt)))
  then Done (Err ExecutionNotCompleted)
  else
    let! expected_fingerprint := endpoint_fingerprint permit (rc_transport_audit_anchor receipt) in
    match List.find (fun check => negb check.1)
            (binding_conditions permit receipt (event record) expected_fingerprint) with
    | Some (_, field) => Done (Err (StreamBindingMismatch field))
    | None => Done (Ok tt)
    end.

Definition stream_grant (permit : TransportPermit) (receipt : ExecutionReceipt)
    (executor_audit_anchor : str) : Run StreamGrant :=
  match to_vec {| gm_execution_id := rc_execution_id receipt;
                  gm_ticket_id := pm_ticket_id permit;
                  gm_binding_hash := pm_binding_hash permit;
                  gm_endpoint_fingerprint := rc_endpoint_fingerprint receipt;
                  gm_executor_audit_anchor := executor_audit_anchor |} with
  | Err _ => Panic "stream grant material is serializable"
  | Ok bytes =>
      let digest := to_lower_hex (sha256 bytes) in
      Done {| gr_stream_id := ("stream-" : str) ++ take 32 digest;
              gr_execution_id := rc_execution_id receipt;
              gr_executor_id := rc_executor_id receipt;
              gr_ticket_id := pm_ticket_id permit;
              gr_decision_id := pm_decision_id permit;
              gr_dns_context_id := pm_dns_context_id permit;
              gr_binding_hash := pm_binding_hash permit;
              gr_endpoint_fingerprint := rc_endpoint_fingerprint receipt;
              gr_executor_audit_anchor := executor_audit_anchor;
              gr_remote_ip := ip_to_string (pm_remote_ip permit);
              gr_port := pm_port permit;
              gr_scheme := scheme_code (pm_scheme permit);
              gr_sni := pm_sni permit;
              gr_http_host := pm_http_host permit;
              gr_redirect_depth := pm_redirect_depth permit |}
  end.

Definition stream_event (g : StreamGrant) (operation_id : str) (direction : option StreamDirection)
    (outcome : StreamOperationOutcome) (metrics : OperationMetrics) (read written : N)
    (state_before state_after : StreamState) : StreamAuditEvent :=
  {| se_operation_id := operation_id;
     se_stream_id := gr_stream_id g;
     se_execution_id := gr_execution_id g;
     se_executor_id := gr_executor_id g;
     se_ticket_id := gr_ticket_id g;
     se_decision_id := gr_decision_id g;
     se_dns_context_id := gr_dns_context_id g;
     se_binding_hash := gr_binding_hash g;
     se_endpoint_fingerprint := gr_endpoint_fingerprint g;
     se_executor_audit_anchor := gr_executor_audit_anchor g;
     se_remote_ip := gr_remote_ip g;
     se_port := gr_port g;
     se_scheme := gr_scheme g;
     se_sni := gr_sni g;
     se_http_host := gr_http_host g;
     se_redirect_depth := gr_redirect_depth g;
     se_direction := option_map direction_code direction;
     se_outcome := stream_outcome_code outcome;
     se_outcome_details := stream_outcome_details outcome;
     se_requested_bytes := om_requested_bytes metrics;
     se_transferred_bytes := om_transferred_bytes metrics;
     se_payload_sha256 := om_payload_sha256 metrics;
     se_elapsed_milliseconds := om_elapsed_milliseconds metrics;
     se_cumulative_read_bytes := read;
     se_cumulative_written_bytes := written;
     se_state_before := stream_state_code state_before;
     se_state_after := stream_state_code state_after |}.

Definition record (direction : option StreamDirection) (outcome : StreamOperationOutcome)
    (metrics : OperationMetrics) (state_before state_after : StreamState)
    (self : BoundedByteStream B) : Result StreamOperationReceipt StreamError * BoundedByteStream B :=
  let operation_count := saturating_add (bs_operation_count self) 1 in
  let operation_id :=
    gr_stream_id (bs_grant self) ++ ("-operation-" : str) ++ decimal020 operation_count in
  let receipt :=
    {| or_operation_id := operation_id;
       or_stream_id := gr_stream_id (bs_grant self);
       or_direction := direction;
       or_outcome := outcome;
       or_requested_bytes := om_requested_bytes metrics;
       or_transferred_bytes := om_transferred_bytes metrics;
       or_payload_sha256 := om_payload_sha256 metrics;
       or_elapsed_milliseconds := om_elapsed_milliseconds metrics;
       or_cumulative_read_bytes := bs_read_bytes self;
       or_cumulative_written_bytes := bs_written_bytes self;
       or_state_before := state_before;
       or_state_after := state_after |} in
  let (appended, audit) :=
    stream_audit_append (stream_event (bs_grant self) operation_id direction outcome metrics
                           (bs_read_bytes self) (bs_written_bytes self) state_before state_after)
      (bs_audit self) in
  (match appended with Ok _ => Ok receipt | Err error => Err (StreamAudit error) end,
   set_record operation_count audit self).

Definition stream_open (permit : TransportPermit) (execution_receipt : ExecutionReceipt)
    (executor_audit : HashChain ExecutorAuditEvent) (limits : StreamLimits) (backend : B)
    : Run (Result (BoundedByteStream B) StreamOpenError) :=
  match stream_limits_validate limits with
  | Err error => Done (Err error)
  | Ok limits =>
      match executor_audit_verify executor_audit with
      | Err error => Done (Err (InvalidExecutorAudit error))
      | Ok _ =>
          match List.find (fun record => bool_decide (xe_execution_id (event record)
                                                      = rc_execution_id execution_receipt))
                  (records executor_audit) with
          | None => Done (Err MissingExecutorAuditRecord)
          | Some executor_record =>
              let! bound := validate_execution_binding permit execution_receipt executor_record in
              match bound with
              | Err error => Done (Err error)
              | Ok _ =>
                  let! grant := stream_grant permit execution_receipt (record_hash executor_record) in
                  match stream_audit_new (record_hash executor_record) with
                  | Err error => Done (Err error)
                  | Ok audit =>
                      let stream :=
                        {| bs_grant := grant; bs_limits := limits; bs_backend := backend;
                           bs_state := SOpen; bs_read_bytes := 0; bs_written_bytes := 0;
                           bs_elapsed_milliseconds := 0; bs_operation_count := 0;
                           bs_audit := audit |} in
                      let (recorded, stream) :=
                        record None OOpened metrics_default SOpen SOpen stream in
                      match recorded with
                      | Err error =>
                          Done (Err (StreamBindingMismatch
                            (("initial_stream_audit:" : str) ++ stream_error_display error)))
                      | Ok _ => Done (Ok stream)
                      end
                  end
              end
          end
      end
  end.

Definition validate_operation_size (self : BoundedByteStream B) (requested : N)
    : Result unit StreamError :=
  if (requested =? 0) || (sl_maximum_operation_bytes (bs_limits self) <? requested)
  then Err InvalidOperationSize else Ok tt.

Definition ensure_readable (self : BoundedByteStream B) : Result unit StreamError :=
  match bs_state self with
  | SOpen | SWriteClosed => Ok tt
  | SReadClosed | SClosed => Err ReadSideClosed
  | state => Err (TerminalState state)
  end.

Definition ensure_writable (self : BoundedByteStream B) : Result unit StreamError :=
  match bs_state self with
  | SOpen | SReadClosed => Ok tt
  | SWriteClosed | SClosed => Err WriteSideClosed
  | state => Err (TerminalState state)
  end.

(** The result of a read that delivers [bytes], from its recorded receipt. *)
Definition read_result (bytes : str)
    (recorded : Result StreamOperationReceipt StreamError * BoundedByteStream B)
    : Result StreamReadResult StreamError * BoundedByteStream B :=
  (match recorded.1 with
   | Ok receipt => Ok {| rd_bytes := bytes; rd_receipt := receipt |}
   | Err error => Err error
   end, recorded.2).

Definition write_result (recorded : Result StreamOperationReceipt StreamError * BoundedByteStream B)
    : Result StreamWriteResult StreamError * BoundedByteStream B :=
  (match recorded.1 with
   | Ok receipt => Ok {| wt_receipt := receipt |}
   | Err error => Err error
   end, recorded.2).

Definition finish_read_without_backend (requested : N) (outcome : StreamOperationOutcome)
    (self : BoundedByteStream B) : Result StreamReadResult StreamError * BoundedByteStream B :=
  let before := bs_state self in
  let self := set_state (stream_terminal_state outcome before) self in
  read_result [] (record (Some Read) outcome (metrics_requested requested 0) before (bs_state self) self).

Definition finish_write_without_backend (requested : N) (outcome : StreamOperationOutcome)
    (self : BoundedByteStream B) : Result StreamWriteResult StreamError * BoundedByteStream B :=
  let before := bs_state self in
  let self := set_state (stream_terminal_state outcome before) self in
  write_result
    (record (Some Write) outcome (metrics_requested requested 0) before (bs_state self) self).

Definition read (maximum_bytes : N) (control : StreamControl) (self : BoundedByteStream B)
    : Result StreamReadResult StreamError * BoundedByteStream B :=
  match (let? _ := validate_operation_size self maximum_bytes in ensure_readable self) with
  | Err error => (Err error, self)
  | Ok _ =>
      match control_outcome control with
      | Some outcome => finish_read_without_backend maximum_bytes outcome self
      | None =>
          if sl_maximum_operations (bs_limits self) <=? bs_operation_count self
          then finish_read_without_backend maximum_bytes OOperationBudgetExceeded self
          else if sl_maximum_read_bytes (bs_limits self) - bs_read_bytes self <? maximum_bytes
          then finish_read_without_backend maximum_bytes OReadBudgetExceeded self
          else
            let before := bs_state self in
            let (report, backend) :=
              backend_read maximum_bytes (sl_read_deadline_milliseconds (bs_limits self))
                (bs_backend self) in
            let self := set_backend backend self in
            let elapsed := rr_elapsed_milliseconds report in
            let total_after := saturating_add (bs_elapsed_milliseconds self) elapsed in
            if sl_read_deadline_milliseconds (bs_limits self) <? elapsed then
              let self := set_state STimedOut (set_elapsed total_after self) in
              read_result [] (record (Some Read) OReadTimeout
                                (metrics_requested maximum_bytes elapsed) before (bs_state self) self)
            else if sl_total_deadline_milliseconds (bs_limits self) <? total_after then
              let self := set_state STimedOut (set_elapsed total_after self) in
              read_result [] (record (Some Read) OTotalTimeout
                                (metrics_requested maximum_bytes elapsed) before (bs_state self) self)
            else
              let self := set_elapsed total_after self in
              let '(bytes, outcome, next_state) :=
                classify_read (rr_status report) maximum_bytes (bs_state self) in
              let transferred := len bytes in
              if sl_maximum_read_bytes (bs_limits self)
                   <? saturating_add (bs_read_bytes self) transferred then
                let self := set_state SBudgetExceeded self in
                read_result [] (record (Some Read) OReadBudgetExceeded
                                  (metrics_requested maximum_bytes elapsed) before (bs_state self) self)
              else
                let self := set_state next_state
                              (set_read_bytes (saturating_add (bs_read_bytes self) transferred) self) in
                let metrics :=
                  {| om_requested_bytes := maximum_bytes;
                     om_transferred_bytes := transferred;
                     om_payload_sha256 :=
                       if negb (bool_decide (bytes = [])) then Some (payload_hash bytes) else None;
                     om_elapsed_milliseconds := elapsed |} in
                read_result bytes (record (Some Read) outcome metrics before (bs_state self) self)
      end
  end.

Definition write (bytes : str) (control : StreamControl) (self : BoundedByteStream B)
    : Result StreamWriteResult StreamError * BoundedByteStream B :=
  let requested := len bytes in
  match (let? _ := validate_operation_size self requested in ensure_writable self) with
  | Err error => (Err error, self)
  | Ok _ =>
      match control_outcome control with
      | Some outcome => finish_write_without_backend requested outcome self
      | None =>
          if sl_maximum_operations (bs_limits self) <=? bs_operation_count self
          then finish_write_without_backend requested OOperationBudgetExceeded self
          else if sl_maximum_write_bytes (bs_limits self) - bs_written_bytes self <? requested
          then finish_write_without_backend requested OWriteBudgetExceeded self
          else
            let before := bs_state self in
            let (report, backend) :=
              backend_write bytes (sl_write_deadline_milliseconds (bs_limits self))
                (bs_backend self) in
            let self := set_backend backend self in
            let elapsed := wr_elapsed_milliseconds report in
            let total_after := saturating_add (bs_elapsed_milliseconds self) elapsed in
            if sl_write_deadline_milliseconds (bs_limits self) <? elapsed then
              let self := set_state STimedOut (set_elapsed total_after self) in
              write_result (record (Some Write) OWriteTimeout
                              (metrics_requested requested elapsed) before (bs_state self) self)
            else if sl_total_deadline_milliseconds (bs_limits self) <? total_after then
              let self := set_state STimedOut (set_elapsed total_after self) in
              write_result (record (Some Write) OTotalTimeout
                              (metrics_requested requested elapsed) before (bs_state self) self)
            else
              let self := set_elapsed total_after self in
              let '(accepted, outcome, next_state) :=
                classify_write (wr_status report) requested (bs_state self) in
              if sl_maximum_write_bytes (bs_limits self)
                   <? saturating_add (bs_written_bytes self) accepted then
                let self := set_state SBudgetExceeded self in
                write_result (record (Some Write) OWriteBudgetExceeded
                                (metrics_requested requested elapsed) before (bs_state self) self)
              else
                let self := set_state next_state
                              (set_written_bytes (saturating_add (bs_written_bytes self) accepted) self) in
                let metrics :=
                  {| om_requested_bytes := requested;
                     om_transferred_bytes := accepted;
                     om_payload_sha256 :=
                       if 0 <? accepted then Some (payload_hash (take (N.to_nat accepted) bytes))
                       else None;
                     om_elapsed_milliseconds := elapsed |} in
                write_result (record (Some Write) outcome metrics before (bs_state self) self)
      end
  end.

Definition close (self : BoundedByteStream B)
    : Result StreamOperationReceipt StreamError * BoundedByteStream B :=
  if stream_is_terminal (bs_state self) then (Err (TerminalState (bs_state self)), self)
  else
    let before := bs_state self in
    let self := set_state SClosed (set_backend (backend_close (bs_backend self)) self) in
    record None OClosed metrics_default before (bs_state self) self.

Definition stream_receipt (self : BoundedByteStream B) : StreamReceipt :=
  {| srec_stream_id := gr_stream_id (bs_grant self);
     srec_execution_id := gr_execution_id (bs_grant self);
     srec_executor_id := gr_executor_id (bs_grant self);
     srec_ticket_id := gr_ticket_id (bs_grant self);
     srec_decision_id := gr_decision_id (bs_grant self);
     srec_dns_context_id := gr_dns_context_id (bs_grant self);
     srec_binding_hash := gr_binding_hash (bs_grant self);
     srec_endpoint_fingerprint := gr_endpoint_fingerprint (bs_grant self);
     srec_executor_audit_anchor := gr_executor_audit_anchor (bs_grant self);
     srec_stream_audit_tail := tail_hash (bs_audit self);
     srec_state := bs_state self;
     srec_read_bytes := bs_read_bytes self;
     srec_written_bytes := bs_written_bytes self;
     srec_elapsed_milliseconds := bs_elapsed_milliseconds self;
     srec_operation_count := bs_operation_count self |}.

(** ** One operation *)

Lemma record_inv d o m before after s r s' :
  record d o m before after s = (r, s') ->
  bs_grant s' = bs_grant s /\ bs_limits s' = bs_limits s /\ bs_backend s' = bs_backend s
  /\ bs_state s' = bs_state s /\ bs_read_bytes s' = bs_read_bytes s
  /\ bs_written_bytes s' = bs_written_bytes s
  /\ bs_elapsed_milliseconds s' = bs_elapsed_milliseconds s
  /\ bs_operation_count s' = saturating_add (bs_operation_count s) 1
  /\ (chain_ok (bs_audit s) -> chain_ok (bs_audit s'))
  /\ genesis_hash (bs_audit s') = genesis_hash (bs_audit s)
  /\ match r with
     | Ok receipt =>
         or_outcome receipt = o /\ or_state_before receipt = before /\ or_state_after receipt = after
         /\ or_transferred_bytes receipt = om_transferred_bytes m
         /\ or_cumulative_read_bytes receipt = bs_read_bytes s
         /\ or_cumulative_written_bytes receipt = bs_written_bytes s
         /\ exists rec, records (bs_audit s') = records (bs_audit s) ++ [rec]
              /\ se_outcome (event rec) = stream_outcome_code o
              /\ se_state_before (event rec) = stream_state_code before
              /\ se_state_after (event rec) = stream_state_code after
     | Err _ => records (bs_audit s') = records (bs_audit s)
     end.
Proof.
  unfold record, stream_audit_append. intros H. destruct (chain_append _ _) as [ar ch] eqn:Ea.
  injection H as <- <-. cbn. split_and!; auto.
  - intros Hok. by eapply chain_append_ok.
  - apply chain_append_spec in Ea. destruct ar as [rec|e]; [|by subst]. naive_solver.
  - apply chain_append_spec in Ea. destruct ar as [rec|e]; cbn; [|by subst].
    destruct Ea as (? & He & _). split_and!; auto. exists rec. by rewrite He.
Qed.

(** The state of a stream after a step that started in a non-terminal state. *)
Definition stream_can_move (before after : StreamState) : bool :=
  negb (stream_is_terminal before)
  && (bool_decide (after = before) || stream_is_terminal after
      || (bool_decide (before = SOpen)
          && (bool_decide (after = SReadClosed) || bool_decide (after = SWriteClosed)))).

(** What an operation does to the stream before it is recorded. *)
Record moved (s s1 : BoundedByteStream B) (delivered accepted : N) : Prop := {
  mv_grant : bs_grant s1 = bs_grant s;
  mv_limits : bs_limits s1 = bs_limits s;
  mv_audit : bs_audit s1 = bs_audit s;
  mv_count : bs_operation_count s1 = bs_operation_count s;
  mv_state : stream_can_move (bs_state s) (bs_state s1) = true;
  mv_budget : bs_operation_count s < sl_maximum_operations (bs_limits s)
              \/ stream_is_terminal (bs_state s1) = true;
  mv_read : bs_read_bytes s1 = saturating_add (bs_read_bytes s) delivered
            /\ (delivered = 0 \/ bs_read_bytes s1 <= sl_maximum_read_bytes (bs_limits s));
  mv_written : bs_written_bytes s1 = saturating_add (bs_written_bytes s) accepted
            /\ (accepted = 0 \/ bs_written_bytes s1 <= sl_maximum_write_bytes (bs_limits s));
  mv_elapsed : bs_elapsed_milliseconds s1 = bs_elapsed_milliseconds s
               \/ bs_elapsed_milliseconds s1 <= sl_total_deadline_milliseconds (bs_limits s)
               \/ bs_state s1 = STimedOut
}.

Definition counters_fit (s : BoundedByteStream B) : Prop :=
  bs_read_bytes s <= u64_max /\ bs_written_bytes s <= u64_max.

Lemma saturating_add_0 n : n <= u64_max -> saturating_add n 0 = n.
Proof. unfold saturating_add. lia. Qed.

Lemma ensure_readable_ok s :
  ensure_readable s = Ok tt -> bs_state s = SOpen \/ bs_state s = SWriteClosed.
Proof. unfold ensure_readable. intros H. step_in H; auto. Qed.

Lemma ensure_writable_ok s :
  ensure_writable s = Ok tt -> bs_state s = SOpen \/ bs_state s = SReadClosed.
Proof. unfold ensure_writable. intros H. step_in H; auto. Qed.

Lemma control_outcome_terminal c o st :
  control_outcome c = Some o -> stream_is_terminal (stream_terminal_state o st) = true.
Proof. unfold control_outcome. intros H. repeat step_in H; by simplify_eq. Qed.

Lemma can_move_terminal a b :
  stream_is_terminal a = false -> stream_is_terminal b = true -> stream_can_move a b = true.
Proof. by destruct a, b. Qed.

(** A state change that does nothing else. *)
Lemma moved_state s st :
  counters_fit s -> stream_is_terminal (bs_state s) = false -> stream_is_terminal st = true ->
  moved s (set_state st s) 0 0.
Proof.
  intros [Hr Hw] H1 H2. constructor; cbn; auto using can_move_terminal, saturating_add_0, eq_sym.
Qed.

Lemma classify_read_spec st n state bytes o next :
  classify_read st n state = (bytes, o, next) ->
  len bytes <= n
  /\ (next = state \/ next = close_read_side state \/ stream_is_terminal next = true).
Proof.
  unfold classify_read, backend_read_overflow. intros H.
  repeat step_in H; simplify_eq; bools; rewrite ?len_nil; cbn; split; auto; lia.
Qed.

Lemma classify_write_spec st n state k o next :
  classify_write st n state = (k, o, next) ->
  k <= n /\ (next = state \/ next = close_write_side state \/ stream_is_terminal next = true).
Proof.
  unfold classify_write. intros H. repeat step_in H; simplify_eq; bools; cbn; split; auto; lia.
Qed.

(** The call ended in a record of the move from [s] to [s1]. *)
Definition recorded_move (s : BoundedByteStream B) (delivered accepted : N)
    (rr : Result StreamOperationReceipt StreamError) (s' : BoundedByteStream B) : Prop :=
  exists s1 d o m, moved s s1 delivered accepted
    /\ om_transferred_bytes m = delivered + accepted
    /\ record d o m (bs_state s) (bs_state s1) s1 = (rr, s').

Definition read_recorded (r : Result StreamReadResult StreamError) : Result StreamOperationReceipt StreamError :=
  match r with Ok res => Ok (rd_receipt res) | Err e => Err e end.
Definition write_recorded (r : Result StreamWriteResult StreamError) : Result StreamOperationReceipt StreamError :=
  match r with Ok res => Ok (wt_receipt res) | Err e => Err e end.

Lemma read_result_inv bytes rec r s' :
  read_result bytes rec = (r, s') ->
  rec = (read_recorded r, s') /\ (forall res, r = Ok res -> rd_bytes res = bytes).
Proof.
  unfold read_result. destruct rec as [[x|e] s]; cbn; intros [= <- <-]; cbn; split; auto; naive_solver.
Qed.

Lemma write_result_inv rec r s' : write_result rec = (r, s') -> rec = (write_recorded r, s').
Proof. unfold write_result. destruct rec as [[x|e] s]; cbn; by intros [= <- <-]. Qed.

(** The backend was called and the clock advanced; nothing else changed. *)
Definition same_but_clock (s s0 : BoundedByteStream B) : Prop :=
  bs_grant s0 = bs_grant s /\ bs_limits s0 = bs_limits s /\ bs_audit s0 = bs_audit s
  /\ bs_operation_count s0 = bs_operation_count s /\ bs_read_bytes s0 = bs_read_bytes s
  /\ bs_written_bytes s0 = bs_written_bytes s.

(** Ending an operation in a terminal state, with nothing transferred. *)
Lemma terminal_move s s0 st d o m rr s2 :
  counters_fit s -> stream_is_terminal (bs_state s) = false -> same_but_clock s s0 ->
  stream_is_terminal st = true -> om_transferred_bytes m = 0 ->
  bs_elapsed_milliseconds s0 = bs_elapsed_milliseconds s
  \/ bs_elapsed_milliseconds s0 <= sl_total_deadline_milliseconds (bs_limits s) \/ st = STimedOut ->
  record d o m (bs_state s) (bs_state (set_state st s0)) (set_state st s0) = (rr, s2) ->
  recorded_move s 0 0 rr s2.
Proof.
  intros [Hr Hw] Hnt (E1 & E2 & E3 & E4 & E5 & E6) Ht Hm He Hrec.
  exists (set_state st s0), d, o, m. split_and!; [|lia|done].
  constructor; cbn; auto using can_move_terminal; rewrite ?E5, ?E6; auto using saturating_add_0, eq_sym.
Qed.

(** What a read call shows: the delivered bytes are what the caller gets. *)
Definition read_shows (s : BoundedByteStream B) (n : N) (r : Result StreamReadResult StreamError)
    (s' : BoundedByteStream B) : Prop :=
  exists delivered, recorded_move s delivered 0 (read_recorded r) s' /\ delivered <= n
    /\ (forall res, r = Ok res -> len (rd_bytes res) = delivered).

Lemma terminal_read s n s0 st d o m r s2 :
  counters_fit s -> stream_is_terminal (bs_state s) = false -> same_but_clock s s0 ->
  stream_is_terminal st = true -> om_transferred_bytes m = 0 ->
  bs_elapsed_milliseconds s0 = bs_elapsed_milliseconds s
  \/ bs_elapsed_milliseconds s0 <= sl_total_deadline_milliseconds (bs_limits s) \/ st = STimedOut ->
  read_result [] (record d o m (bs_state s) (bs_state (set_state st s0)) (set_state st s0)) = (r, s2) ->
  read_shows s n r s2.
Proof.
  intros Hf Hnt Hs Ht Hm He [Hr Hb]%read_result_inv. exists 0.
  split_and!; [by eapply terminal_move|lia|]. by intros res ->%Hb.
Qed.

Lemma same_but_clock_refl s : same_but_clock s s.
Proof. done. Qed.

(** A read either refuses without a trace, or makes one recorded move. *)
Lemma read_moves n c s r s' :
  counters_fit s -> read n c s = (r, s') ->
  (s' = s /\ exists e, r = Err e) \/ read_shows s n r s'.
Proof.
  intros Hf H. unfold read in H.
  destruct (let? _ := validate_operation_size s n in ensure_readable s) as [[]|e] eqn:Ev;
    [right|left; simplify_eq; eauto].
  assert (bs_state s = SOpen \/ bs_state s = SWriteClosed) as Hst.
  { destruct (validate_operation_size s n); [|done]. by apply ensure_readable_ok. }
  assert (stream_is_terminal (bs_state s) = false) as Hnt by (by destruct Hst as [-> | ->]).
  destruct (control_outcome c) as [o|] eqn:Ec; [|destruct (_ <=? bs_operation_count s) eqn:Eo;
    [|destruct (_ - bs_read_bytes s <? n) eqn:Eb]];
    try (eapply terminal_read in H; eauto using control_outcome_terminal, same_but_clock_refl; fail).
  destruct (backend_read n _ _) as [report b]. cbn [bs_limits set_backend bs_elapsed_milliseconds] in H.
  destruct (_ <? rr_elapsed_milliseconds report) eqn:E1; [by eapply terminal_read in H; eauto|].
  destruct (_ <? saturating_add (bs_elapsed_milliseconds s) _) eqn:E2;
    [by eapply terminal_read in H; eauto|]. bools.
  cbn [bs_state set_elapsed set_backend bs_limits bs_read_bytes] in H.
  destruct (classify_read _ n (bs_state s)) as [[bytes o] next] eqn:Ecl.
  destruct (_ <? saturating_add (bs_read_bytes s) (len bytes)) eqn:E3;
    [by eapply terminal_read in H; eauto|]. bools.
  apply classify_read_spec in Ecl as [Hlen Hnext]. apply read_result_inv in H as [Hr Hb].
  exists (len bytes). split_and!; [|done|intros res ->%Hb; done].
  eexists _, (Some Read), o, _. split_and!; [|shelve|exact Hr].
  destruct Hf. constructor; cbn; auto using saturating_add_0, eq_sym.
  destruct Hst as [Es|Es], Hnext as [->|[->|Hn]]; rewrite Es in *; try done; by apply can_move_terminal.
  Unshelve. cbn. lia.
Qed.

Definition write_shows (s : BoundedByteStream B) (n : N) (r : Result StreamWriteResult StreamError)
    (s' : BoundedByteStream B) : Prop :=
  exists accepted, recorded_move s 0 accepted (write_recorded r) s' /\ accepted <= n.

Lemma terminal_write s n s0 st d o m r s2 :
  counters_fit s -> stream_is_terminal (bs_state s) = false -> same_but_clock s s0 ->
  stream_is_terminal st = true -> om_transferred_bytes m = 0 ->
  bs_elapsed_milliseconds s0 = bs_elapsed_milliseconds s
  \/ bs_elapsed_milliseconds s0 <= sl_total_deadline_milliseconds (bs_limits s) \/ st = STimedOut ->
  write_result (record d o m (bs_state s) (bs_state (set_state st s0)) (set_state st s0)) = (r, s2) ->
  write_shows s n r s2.
Proof.
  intros Hf Hnt Hs Ht Hm He Hr%write_result_inv. exists 0. split; [by eapply terminal_move|lia].
Qed.

Lemma write_moves bytes c s r s' :
  counters_fit s -> write bytes c s = (r, s') ->
  (s' = s /\ exists e, r = Err e) \/ write_shows s (len bytes) r s'.
Proof.
  intros Hf H. unfold write in H.
  destruct (let? _ := validate_operation_size s (len bytes) in ensure_writable s) as [[]|e] eqn:Ev;
    [right|left; simplify_eq; eauto].
  assert (bs_state s = SOpen \/ bs_state s = SReadClosed) as Hst.
  { destruct (validate_operation_size s (len bytes)); [|done]. by apply ensure_writable_ok. }
  assert (stream_is_terminal (bs_state s) = false) as Hnt by (by destruct Hst as [-> | ->]).
  destruct (control_outcome c) as [o|] eqn:Ec; [|destruct (_ <=? bs_operation_count s) eqn:Eo;
    [|destruct (_ - bs_written_bytes s <? len bytes) eqn:Eb]];
    try (eapply terminal_write in H; eauto using control_outcome_terminal, same_but_clock_refl; fail).
  destruct (backend_write bytes _ _) as [report b]. cbn [bs_limits set_backend bs_elapsed_milliseconds] in H.
  destruct (_ <? wr_elapsed_milliseconds report) eqn:E1; [by eapply terminal_write in H; eauto|].
  destruct (_ <? saturating_add (bs_elapsed_milliseconds s) _) eqn:E2;
    [by eapply terminal_write in H; eauto|]. bools.
  cbn [bs_state set_elapsed set_backend bs_limits bs_written_bytes] in H.
  destruct (classify_write _ (len bytes) (bs_state s)) as [[k o] next] eqn:Ecl.
  destruct (_ <? saturating_add (bs_written_bytes s) k) eqn:E3;
    [by eapply terminal_write in H; eauto|]. bools.
  apply classify_write_spec in Ecl as [Hlen Hnext]. apply write_result_inv in H.
  exists k. split; [|done]. eexists _, (Some Write), o, _. split_and!; [|shelve|exact H].
  destruct Hf. constructor; cbn; auto using saturating_add_0, eq_sym.
  destruct Hst as [Es|Es], Hnext as [->|[->|Hn]]; rewrite Es in *; try done; by apply can_move_terminal.
  Unshelve. cbn. lia.
Qed.

Lemma close_moves s r s' :
  counters_fit s -> close s = (r, s') ->
  (s' = s /\ exists e, r = Err e) \/ recorded_move s 0 0 r s'.
Proof.
  intros [Hr Hw] H. unfold close in H. destruct (stream_is_terminal (bs_state s)) eqn:Et;
    [left; simplify_eq; eauto|right].
  eexists _, _, _, _. split_and!; [|shelve|exact H].
  constructor; cbn; auto using can_move_terminal, saturating_add_0, eq_sym.
  Unshelve. done.
Qed.

(** ** Invariant *)

Record stream_ok (s : BoundedByteStream B) : Prop := {
  so_limits : stream_limits_validate (bs_limits s) = Ok (bs_limits s);
  so_read : bs_read_bytes s <= sl_maximum_read_bytes (bs_limits s);
  so_written : bs_written_bytes s <= sl_maximum_write_bytes (bs_limits s);
  so_count : bs_operation_count s <= sl_maximum_operations (bs_limits s) + 1;
  so_count_open : stream_is_terminal (bs_state s) = false ->
    bs_operation_count s <= sl_maximum_operations (bs_limits s);
  so_elapsed : bs_elapsed_milliseconds s <= sl_total_deadline_milliseconds (bs_limits s)
    \/ bs_state s = STimedOut;
  so_audit : chain_ok (bs_audit s)
}.

Lemma stream_limits_ok l :
  stream_limits_validate l = Ok l ->
  0 < sl_maximum_read_bytes l <= MAX_STREAM_DIRECTION_BYTES
  /\ 0 < sl_maximum_write_bytes l <= MAX_STREAM_DIRECTION_BYTES
  /\ 0 < sl_maximum_operations l <= MAX_STREAM_OPERATIONS
  /\ sl_total_deadline_milliseconds l <= MAX_STREAM_DEADLINE_MILLISECONDS.
Proof. unfold stream_limits_validate. intros H. inv_ok H. bools. split_and!; lia. Qed.

(** The limits lie far below the range of the counters. *)
Lemma stream_limits_below_u64 l :
  stream_limits_validate l = Ok l ->
  sl_maximum_read_bytes l < u64_max /\ sl_maximum_write_bytes l < u64_max
  /\ sl_maximum_operations l + 1 <= u64_max.
Proof.
  intros (L1 & L2 & L3 & _)%stream_limits_ok.
  assert (MAX_STREAM_DIRECTION_BYTES < u64_max) by reflexivity.
  assert (MAX_STREAM_OPERATIONS + 1 < u64_max) by reflexivity.
  revert L1 L2 L3 H H0. generalize MAX_STREAM_DIRECTION_BYTES, MAX_STREAM_OPERATIONS, u64_max. lia.
Qed.

Lemma stream_ok_fits s : stream_ok s -> counters_fit s.
Proof.
  intros [Hl Hr Hw _ _ _ _]. apply stream_limits_below_u64 in Hl as (H1 & H2 & _).
  unfold counters_fit. revert H1 H2. generalize u64_max. lia.
Qed.

Lemma saturating_delivered a k m :
  a <= m -> m < u64_max -> k = 0 \/ saturating_add a k <= m -> saturating_add a k = a + k.
Proof.
  intros Ha Hm [->|Hk]; [|by eapply saturating_add_exact].
  apply (saturating_add_small _ _ m); [lia|]. revert Hm. generalize u64_max. lia.
Qed.

Lemma recorded_move_ok s delivered accepted rr s' :
  stream_ok s -> recorded_move s delivered accepted rr s' ->
  stream_ok s'
  /\ bs_grant s' = bs_grant s /\ bs_limits s' = bs_limits s
  /\ bs_read_bytes s' = bs_read_bytes s + delivered
  /\ bs_written_bytes s' = bs_written_bytes s + accepted
  /\ stream_can_move (bs_state s) (bs_state s') = true.
Proof.
  intros [Hl Hrd Hw Hc Hco He Ha] (s1 & d & o & m & [M1 M2 M3 M4 M5 M6 [M7 M7'] [M8 M8'] M9] & _ & Hr).
  apply stream_limits_below_u64 in Hl as HL. destruct HL as (L1 & L2 & L3).
  apply record_inv in Hr as (R1 & R2 & _ & R3 & R4 & R5 & R6 & R7 & R8 & _).
  assert (stream_is_terminal (bs_state s) = false) as Hnt
    by (unfold stream_can_move in M5; by destruct (stream_is_terminal (bs_state s))).
  specialize (Hco Hnt). rewrite M4 in R7. rewrite M3 in R8. rewrite M7 in M7'. rewrite M8 in M8'.
  rewrite (saturating_add_small _ _ _ (proj1 (N.add_le_mono_r _ _ 1) Hco) L3) in R7.
  pose proof (saturating_delivered _ _ _ Hrd L1 M7') as D1.
  pose proof (saturating_delivered _ _ _ Hw L2 M8') as D2.
  rewrite D1 in M7, M7'. rewrite D2 in M8, M8'.
  clear L1 L2 L3.
  split; [constructor|]; rewrite ?R1, ?R2, ?R3, ?R4, ?R5, ?R6, ?R7, ?M1, ?M2; auto.
  - lia.
  - lia.
  - lia.
  - intros Ht. destruct M6; [lia|congruence].
  - destruct M9 as [->|[?|?]]; auto. destruct He as [?|He]; [auto|].
    rewrite He in Hnt. discriminate.
Qed.

(** ** Opening *)

(** The facts that bind an open stream to an execution. *)
Record opened_from (permit : TransportPermit) (receipt : ExecutionReceipt)
    (executor_audit : HashChain ExecutorAuditEvent) (s : BoundedByteStream B) : Prop := {
  of_audit : executor_audit_verify executor_audit = Ok tt;
  of_completed : rc_outcome receipt = ExecCompleted;
  of_record : exists rec, rec ∈ records executor_audit
    /\ xe_execution_id (event rec) = rc_execution_id receipt
    /\ xe_outcome (event rec) = ("completed" : str)
    /\ xe_binding_hash (event rec) = pm_binding_hash permit
    /\ xe_remote_ip (event rec) = ip_to_string (pm_remote_ip permit)
    /\ xe_sni (event rec) = pm_sni permit
    /\ gr_executor_audit_anchor (bs_grant s) = record_hash rec
    /\ genesis_hash (bs_audit s) = record_hash rec;
  of_receipt : rc_ticket_id receipt = pm_ticket_id permit
    /\ rc_decision_id receipt = pm_decision_id permit
    /\ rc_binding_hash receipt = pm_binding_hash permit;
  of_grant : gr_ticket_id (bs_grant s) = pm_ticket_id permit
    /\ gr_binding_hash (bs_grant s) = pm_binding_hash permit
    /\ gr_http_host (bs_grant s) = pm_http_host permit
    /\ gr_sni (bs_grant s) = pm_sni permit
    /\ gr_port (bs_grant s) = pm_port permit
    /\ gr_execution_id (bs_grant s) = rc_execution_id receipt
}.

Lemma find_some_elem {A} (p : A -> bool) l x : List.find p l = Some x -> x ∈ l /\ p x = true.
Proof. intros [? ?]%find_some. split; [by apply list_elem_of_In|done]. Qed.

Lemma validate_execution_binding_ok permit receipt rec :
  validate_execution_binding permit receipt rec = Done (Ok tt) ->
  rc_outcome receipt = ExecCompleted
  /\ exists fp, endpoint_fingerprint permit (rc_transport_audit_anchor receipt) = Done fp
     /\ List.find (fun check => negb check.1) (binding_conditions permit receipt (event rec) fp) = None.
Proof.
  unfold validate_execution_binding. intros H. repeat step_in H; simplify_eq; bools.
  split; [by destruct (rc_outcome receipt)|eauto].
Qed.

Lemma stream_grant_inv permit receipt anchor g :
  stream_grant permit receipt anchor = Done g ->
  gr_ticket_id g = pm_ticket_id permit /\ gr_binding_hash g = pm_binding_hash permit
  /\ gr_http_host g = pm_http_host permit /\ gr_sni g = pm_sni permit /\ gr_port g = pm_port permit
  /\ gr_execution_id g = rc_execution_id receipt /\ gr_executor_audit_anchor g = anchor.
Proof. unfold stream_grant. intros H. step_in H. by simplify_eq. Qed.

Lemma binding_conditions_inv permit receipt e fp :
  List.find (fun check => negb check.1) (binding_conditions permit receipt e fp) = None ->
  xe_outcome e = ("completed" : str) /\ xe_binding_hash e = pm_binding_hash permit
  /\ xe_remote_ip e = ip_to_string (pm_remote_ip permit) /\ xe_sni e = pm_sni permit
  /\ rc_ticket_id receipt = pm_ticket_id permit /\ rc_decision_id receipt = pm_decision_id permit
  /\ rc_binding_hash receipt = pm_binding_hash permit.
Proof.
  unfold binding_conditions. cbn [List.find fst]. intros H. repeat step_in H. bools. auto 10.
Qed.

Lemma stream_open_inv permit receipt xa limits b s :
  stream_open permit receipt xa limits b = Done (Ok s) ->
  opened_from permit receipt xa s /\ stream_ok s /\ bs_state s = SOpen /\ bs_limits s = limits
  /\ bs_backend s = b /\ bs_read_bytes s = 0 /\ bs_written_bytes s = 0.
Proof.
  unfold stream_open. intros H. destruct (stream_limits_validate limits) as [l|] eqn:El; [|by simplify_eq].
  assert (l = limits) as -> by (unfold stream_limits_validate in El; by inv_ok El).
  destruct (executor_audit_verify xa) as [[]|] eqn:Ex; [|by simplify_eq].
  destruct (List.find _ (records xa)) as [rec|] eqn:Ef; [|by simplify_eq].
  destruct (validate_execution_binding permit receipt rec) as [[[]|]|] eqn:Ev; simplify_eq.
  destruct (stream_grant permit receipt (record_hash rec)) as [g|] eqn:Eg; [|done].
  unfold stream_audit_new in H. destruct (is_lower_hex_sha256 (record_hash rec)) eqn:Eh; cbn in H; [|by simplify_eq].
  destruct (record None OOpened metrics_default SOpen SOpen _) as [rr s1] eqn:Er.
  destruct rr; simplify_eq.
  apply record_inv in Er as (R1 & R2 & R3 & R4 & R5 & R6 & R7 & R8 & R9 & R10 & _). cbn in *.
  apply stream_grant_inv in Eg as (G1 & G2 & G3 & G4 & G5 & G6 & G7).
  apply validate_execution_binding_ok in Ev as (Hc & fp & _ & Hfind).
  apply binding_conditions_inv in Hfind as (? & ? & ? & ? & ? & ? & ?).
  apply find_some_elem in Ef as [Hin Hid]. bools.
  split; [|split; [|by auto]].
  - constructor; rewrite ?R1; auto 10. exists rec. split_and!; auto; congruence.
  - apply stream_limits_ok in El as HL. change (saturating_add 0 1) with 1 in R8.
    constructor; rewrite ?R2, ?R4, ?R5, ?R6, ?R7, ?R8; auto; try lia. by apply R9, chain_new_ok.
Qed.

(** ** Traces *)

Inductive StreamEvent : Type :=
  | StreamRead (r : Result StreamReadResult StreamError)
  | StreamWrite (r : Result StreamWriteResult StreamError)
  | StreamClose (r : Result StreamOperationReceipt StreamError).

Inductive stream_step : BoundedByteStream B -> StreamEvent -> BoundedByteStream B -> Prop :=
  | sstep_read n c s r s' : read n c s = (r, s') -> stream_step s (StreamRead r) s'
  | sstep_write bytes c s r s' : write bytes c s = (r, s') -> stream_step s (StreamWrite r) s'
  | sstep_close s r s' : close s = (r, s') -> stream_step s (StreamClose r) s'.

Inductive stream_trace : BoundedByteStream B -> list StreamEvent -> BoundedByteStream B -> Prop :=
  | strace_nil s : stream_trace s [] s
  | strace_step s s1 s2 e es : stream_step s e s1 -> stream_trace s1 es s2 -> stream_trace s (e :: es) s2.

(** The bytes a caller received from a stream. *)
Definition event_delivered (e : StreamEvent) : N :=
  match e with StreamRead (Ok res) => len (rd_bytes res) | _ => 0 end.
Definition event_written (e : StreamEvent) : N :=
  match e with StreamWrite (Ok res) => or_transferred_bytes (wt_receipt res) | _ => 0 end.
Fixpoint sum_events (f : StreamEvent -> N) (es : list StreamEvent) : N :=
  match es with [] => 0 | e :: rest => f e + sum_events f rest end.

Lemma recorded_transferred s delivered accepted receipt s' :
  recorded_move s delivered accepted (Ok receipt) s' -> or_transferred_bytes receipt = delivered + accepted.
Proof.
  intros (s1 & d & o & m & _ & Hm & Hr). apply record_inv in Hr as (_ & _ & _ & _ & _ & _ & _ & _ & _ & _ & Hr).
  destruct Hr as (_ & _ & _ & -> & _). done.
Qed.

(** One call: nothing changes, or one recorded move. *)
Lemma stream_step_moves s e s' :
  stream_ok s -> stream_step s e s' ->
  (s' = s /\ event_delivered e = 0 /\ event_written e = 0)
  \/ exists delivered accepted rr, recorded_move s delivered accepted rr s'
       /\ event_delivered e <= delivered /\ event_written e <= accepted.
Proof.
  intros Hok Hs. apply stream_ok_fits in Hok as Hf.
  destruct Hs as [n c s r s' H|bytes c s r s' H|s r s' H].
  - apply read_moves in H as [[-> [e ->]]|(d & Hm & _ & Hd)]; [by left| |done]. right.
    exists d, 0, (read_recorded r). split_and!; auto. destruct r as [res|]; cbn; [|lia]. by rewrite (Hd res).
  - apply write_moves in H as [[-> [e ->]]|(k & Hm & _)]; [by left| |done]. right.
    exists 0, k, (write_recorded r). split; [done|]. split; [cbn; lia|].
    destruct r as [res|]; cbn; [|lia]. apply recorded_transferred in Hm. lia.
  - apply close_moves in H as [[-> [e ->]]|Hm]; [by left| |done]. right.
    exists 0, 0, r. split_and!; auto; cbn; lia.
Qed.

Lemma stream_step_ok s e s' :
  stream_ok s -> stream_step s e s' ->
  stream_ok s' /\ bs_limits s' = bs_limits s /\ bs_grant s' = bs_grant s
  /\ bs_read_bytes s + event_delivered e <= bs_read_bytes s'
  /\ bs_written_bytes s + event_written e <= bs_written_bytes s'
  /\ (bs_state s' = bs_state s \/ stream_can_move (bs_state s) (bs_state s') = true).
Proof.
  intros Hok Hs. destruct (stream_step_moves _ _ _ Hok Hs) as [(-> & Hd & Hw)|(d & k & rr & Hm & Hd & Hw)].
  - rewrite Hd, Hw. split_and!; auto; lia.
  - apply (recorded_move_ok _ _ _ _ _ Hok) in Hm as (? & ? & ? & -> & -> & ?). split_and!; auto; lia.
Qed.

Lemma stream_trace_ok s es s' :
  stream_ok s -> stream_trace s es s' ->
  stream_ok s' /\ bs_limits s' = bs_limits s /\ bs_grant s' = bs_grant s
  /\ bs_read_bytes s + sum_events event_delivered es <= bs_read_bytes s'
  /\ bs_written_bytes s + sum_events event_written es <= bs_written_bytes s'.
Proof.
  intros Hok Ht. induction Ht as [s|s s1 s2 e es Hs Ht IH]; [cbn; split_and!; auto; lia|].
  apply (stream_step_ok _ _ _ Hok) in Hs as (Hok1 & L1 & G1 & R1 & W1 & _).
  destruct (IH Hok1) as (? & L2 & G2 & ? & ?). cbn [sum_events]. split_and!; auto; try congruence; lia.
Qed.

(** A terminal stream refuses everything. *)
Lemma terminal_step s e s' :
  stream_is_terminal (bs_state s) = true -> stream_step s e s' ->
  s' = s /\ match e with
            | StreamRead r => exists x, r = Err x
            | StreamWrite r => exists x, r = Err x
            | StreamClose r => exists x, r = Err x
            end.
Proof.
  intros Ht Hs. destruct Hs as [n c s r s' H|bytes c s r s' H|s r s' H].
  - unfold read in H. destruct (validate_operation_size s n); [|by simplify_eq; eauto]. cbn in H.
    unfold ensure_readable in H. destruct (bs_state s); try done; simplify_eq; eauto.
  - unfold write in H. destruct (validate_operation_size s (len bytes)); [|by simplify_eq; eauto]. cbn in H.
    unfold ensure_writable in H. destruct (bs_state s); try done; simplify_eq; eauto.
  - unfold close in H. rewrite Ht in H. simplify_eq. eauto.
Qed.

(** A control request never reaches the backend. *)
Lemma record_backend d o m before after s : bs_backend (record d o m before after s).2 = bs_backend s.
Proof. destruct (record d o m before after s) eqn:E. by apply record_inv in E as (_ & _ & ? & _). Qed.

End Stream.

(** ** The executor's receipt opens a stream *)

Section Composition.
Context {S : Sha256Lib} {SL : Sha256Laws} {J : JsonLib (HashMaterial StreamAuditEvent)}
  {JX : JsonLib (HashMaterial ExecutorAuditEvent)} {JF : JsonLib FingerprintMaterial}
  {JG : JsonLib GrantMaterial} {JT : JsonTotal (HashMaterial StreamAuditEvent)}
  {JGT : JsonTotal GrantMaterial}
  {B : Type} {BB : ByteStreamBackend B} {P : Type} {PB : PermitBackend P}.

(** The first record with a fresh identifier is the one just appended. *)
Lemma find_fresh_execution (l : list (ChainRecord ExecutorAuditEvent)) rec id :
  Forall (fun r => xe_execution_id (event r) <> id) l -> xe_execution_id (event rec) = id ->
  List.find (fun r => bool_decide (xe_execution_id (event r) = id)) (l ++ [rec]) = Some rec.
Proof.
  intros Hl Hid. induction Hl as [|r l Hr Hl IH]; cbn.
  - by rewrite bool_decide_eq_true_2.
  - rewrite bool_decide_eq_false_2 by done. exact IH.
Qed.

(** A completed receipt and its own record meet every binding condition. *)
Lemma receipt_meets_conditions permit r :
  rc_outcome r = ExecCompleted -> rc_ticket_id r = pm_ticket_id permit ->
  rc_decision_id r = pm_decision_id permit -> rc_dns_context_id r = pm_dns_context_id permit ->
  rc_binding_hash r = pm_binding_hash permit ->
  List.find (fun check => negb check.1)
    (binding_conditions permit r (receipt_event permit r) (rc_endpoint_fingerprint r)) = None.
Proof.
  intros Ho H1 H2 H3 H4. apply find_none_elem. intros [b f] Hin. cbn.
  unfold binding_conditions in Hin. cbn [receipt_event xe_ticket_id xe_decision_id xe_dns_context_id
    xe_binding_hash xe_endpoint_fingerprint xe_execution_id xe_executor_id xe_transport_audit_anchor
    xe_remote_ip xe_port xe_scheme xe_sni xe_http_host xe_redirect_depth xe_outcome xe_read_bytes
    xe_written_bytes] in Hin.
  rewrite Ho, H1, H2, H3, H4, !bool_decide_eq_true_2, !N.eqb_refl in Hin by done.
  repeat (apply elem_of_cons in Hin as [[= -> _]|Hin]; [done|]). by apply elem_of_nil in Hin.
Qed.

Lemma stream_open_completed permit r xa limits (b : B) rec :
  stream_limits_validate limits = Ok limits -> executor_audit_verify xa = Ok tt ->
  List.find (fun r0 => bool_decide (xe_execution_id (event r0) = rc_execution_id r)) (records xa) = Some rec ->
  event rec = receipt_event permit r -> record_sound rec ->
  rc_outcome r = ExecCompleted -> last (rc_state_history r) = Some StateCompleted ->
  rc_ticket_id r = pm_ticket_id permit -> rc_decision_id r = pm_decision_id permit ->
  rc_dns_context_id r = pm_dns_context_id permit -> rc_binding_hash r = pm_binding_hash permit ->
  endpoint_fingerprint permit (rc_transport_audit_anchor r) = Done (rc_endpoint_fingerprint r) ->
  exists s, stream_open permit r xa limits b = Done (Ok s).
Proof.
  intros Hl Hv Hf He Hs Ho Hst H1 H2 H3 H4 Hfp. unfold stream_open. rewrite Hl, Hv, Hf.
  unfold validate_execution_binding. rewrite Ho, Hst. cbn [is_completed_outcome is_completed_state negb orb].
  rewrite Hfp, He, (receipt_meets_conditions permit r) by done.
  unfold stream_grant.
  destruct (to_vec_total (A := GrantMaterial) {| gm_execution_id := rc_execution_id r;
    gm_ticket_id := pm_ticket_id permit; gm_binding_hash := pm_binding_hash permit;
    gm_endpoint_fingerprint := rc_endpoint_fingerprint r;
    gm_executor_audit_anchor := record_hash rec |}) as [bytes ->].
  unfold stream_audit_new. rewrite record_sound_hex by done. cbn [negb].
  unfold record, stream_audit_append. cbn [bs_audit bs_operation_count bs_grant bs_read_bytes bs_written_bytes].
  match goal with |- context [chain_append ?ev ?ch] =>
    destruct (chain_append_total ev ch) as (rec' & ch' & ->) end. eauto.
Qed.

End Composition.

(** ** Properties *)

Section Properties.
Context {S : Sha256Lib} {J : JsonLib (HashMaterial StreamAuditEvent)}
  {JX : JsonLib (HashMaterial ExecutorAuditEvent)} {JF : JsonLib FingerprintMaterial}
  {JG : JsonLib GrantMaterial} {B : Type} {BB : ByteStreamBackend B}.


(** A terminal state is final: once a stream is closed, cancelled, stopped,
    timed out, over budget, reset, truncated or failed, every further operation is
    refused and changes nothing, neither the counters nor the backend. *)
Theorem terminal_stream_is_final (s : BoundedByteStream B) es s' :
  stream_is_terminal (bs_state s) = true -> stream_trace s es s' ->
  s' = s /\ Forall (fun e => match e with
                             | StreamRead r => exists x, r = Err x
                             | StreamWrite r => exists x, r = Err x
                             | StreamClose r => exists x, r = Err x
                             end) es.
Proof.
  intros Ht H. induction H as [s|s s1 s2 e es Hs H IH]; [by split|].
  destruct (terminal_step _ _ _ Ht Hs) as [-> He]. destruct (IH Ht) as [-> Hf]. split; [done|]. by constructor.
Qed.

(** A stream opens only on a completed execution of exactly its permit: the
    executor's audit chain verifies and holds a completed record of that
    execution with the permit's binding hash, address and SNI; the grant repeats
    the permit, and the stream's own audit chain is anchored at that record. *)
Theorem stream_open_binds_execution permit receipt xa limits (b : B) s :
  stream_open permit receipt xa limits b = Done (Ok s) -> opened_from permit receipt xa s.
Proof. by intros [H _]%stream_open_inv. Qed.

(** A requested emergency stop or cancellation never reaches the backend:
    a read or a write under such a control leaves the backend as it was, and ends
    the stream if the operation was admissible. *)
Theorem stopped_stream_leaves_backend n bytes control (s : BoundedByteStream B) o :
  control_outcome control = Some o ->
  bs_backend (read n control s).2 = bs_backend s
  /\ bs_backend (write bytes control s).2 = bs_backend s
  /\ (forall r s', read n control s = (Ok r, s') -> stream_is_terminal (bs_state s') = true /\ rd_bytes r = []).
Proof.
  intros Hc. split_and!.
  - unfold read. rewrite Hc. destruct (let? _ := _ in _); [|done].
    exact (record_backend _ _ _ _ _ (set_state _ s)).
  - unfold write. rewrite Hc. destruct (let? _ := _ in _); [|done].
    exact (record_backend _ _ _ _ _ (set_state _ s)).
  - intros r s'. unfold read. rewrite Hc. destruct (let? _ := _ in _); [|done].
    intros [Hr Hb]%read_result_inv. split; [|by apply Hb].
    apply record_inv in Hr as (_ & _ & _ & -> & _). by eapply control_outcome_terminal.
Qed.

End Properties.

(** Executor and stream agree: the receipt of a completed execution, with the
    permit it was run for and the executor's audit chain, always opens a stream
    (for valid stream limits, and as long as the execution counter has not
    saturated). *)
Theorem completed_execution_opens_stream {S : Sha256Lib} {SL : Sha256Laws}
    {J : JsonLib (HashMaterial StreamAuditEvent)} {JX : JsonLib (HashMaterial ExecutorAuditEvent)}
    {JF : JsonLib FingerprintMaterial} {JG : JsonLib GrantMaterial}
    {JT : JsonTotal (HashMaterial StreamAuditEvent)} {JGT : JsonTotal GrantMaterial}
    {B P : Type} {PB : PermitBackend P}
    permit anchor xlimits control (x : PermitExecutor P) r x' limits (b : B) :
  executor_ok x -> next_execution_id x < u64_max ->
  execute permit anchor xlimits control x = Done (Ok r, x') -> rc_outcome r = ExecCompleted ->
  stream_limits_validate limits = Ok limits ->
  exists s, stream_open permit r (executor_audit x') limits b = Done (Ok s).
Proof.
  intros Hok Hlt Hx Ho Hl.
  pose proof (execute_receipt_fields _ _ _ _ _ _ _ Hx) as (F1 & _ & F2 & F3 & F4 & F5 & F6 & F7).
  pose proof (execute_ok _ _ _ _ _ _ _ Hok Hx) as [Ha' _ _].
  apply execute_inv in Hx as (_ & _ & rp & st & _ & Hh & _ & _ & _ & _ & rec & Hap).
  apply chain_append_spec in Hap as (Hr & He & _ & _ & _ & Hs & _).
  apply (stream_open_completed _ _ _ _ _ rec); auto.
  - by apply chain_verify_spec.
  - rewrite Hr. apply find_fresh_execution; [|by rewrite He].
    eapply Forall_impl; [by apply (xo_ids x Hok)|]. cbn. intros r0 (k & Hk & ->).
    rewrite F1. intros ?%format_execution_id_inj. lia.
  - by rewrite Hh, Ho, last_snoc.
  - by rewrite F6.
Qed.

(** ** Witnesses *)

Definition toy_stream_json : JsonLib (HashMaterial StreamAuditEvent) :=
  toy_json (fun e => se_operation_id e ++ se_outcome e).
Definition toy_grant_json : JsonLib GrantMaterial :=
  {| to_vec m := Ok (gm_execution_id m ++ gm_binding_hash m) |}.

(** A backend that plays back read reports and accepts every write. *)
Definition scripted : ByteStreamBackend (list BackendReadReport) :=
  {| backend_read n deadline b :=
       match b with
       | report :: rest => (report, rest)
       | [] => ({| rr_elapsed_milliseconds := 1; rr_status := ReadEof |}, [])
       end;
     backend_write bytes deadline b :=
       ({| wr_elapsed_milliseconds := 1; wr_status := WriteWritten (len bytes) |}, b);
     backend_close b := b |}.

Definition example_script : list BackendReadReport :=
  [{| rr_elapsed_milliseconds := 3; rr_status := ReadData "hello" |}].

Definition example_open : Run (Result (BoundedByteStream (list BackendReadReport)) StreamOpenError) :=
  stream_open (S := toy_sha256) (J := toy_stream_json) (JX := toy_executor_json)
    (JF := toy_fingerprint_json) (JG := toy_grant_json) (permit_of (example_ticket 1)) example_receipt
    (executor_audit after_execute) stream_conservative_default example_script.

Definition closed_stream : BoundedByteStream (list BackendReadReport) :=
  {| bs_grant := {| gr_stream_id := []; gr_execution_id := []; gr_executor_id := [];
       gr_ticket_id := []; gr_decision_id := []; gr_dns_context_id := []; gr_binding_hash := [];
       gr_endpoint_fingerprint := []; gr_executor_audit_anchor := []; gr_remote_ip := [];
       gr_port := 443; gr_scheme := []; gr_sni := None; gr_http_host := []; gr_redirect_depth := 0 |};
     bs_limits := stream_conservative_default; bs_backend := []; bs_state := SClosed;
     bs_read_bytes := 0; bs_written_bytes := 0; bs_elapsed_milliseconds := 0;
     bs_operation_count := 1; bs_audit := chain_new GENESIS_HASH |}.

Definition example_stream : BoundedByteStream (list BackendReadReport) :=
  match example_open with Done (Ok s) => s | _ => closed_stream end.

Lemma example_opened : example_open = Done (Ok example_stream).
Proof. vm_compute. reflexivity. Qed.

Definition no_stream_control : StreamControl :=
  {| sc_cancel_requested := false; sc_emergency_stop_requested := false |}.
Definition stop_control : StreamControl :=
  {| sc_cancel_requested := false; sc_emergency_stop_requested := true |}.

Definition example_read (c : StreamControl) (s : BoundedByteStream (list BackendReadReport))
    : Result StreamReadResult StreamError * BoundedByteStream (list BackendReadReport) :=
  read (S := toy_sha256) (J := toy_stream_json) (BB := scripted) 100 c s.

Definition example_write (s : BoundedByteStream (list BackendReadReport))
    : Result StreamWriteResult StreamError * BoundedByteStream (list BackendReadReport) :=
  write (S := toy_sha256) (J := toy_stream_json) (BB := scripted) "GET" no_stream_control s.

Definition stream1 : BoundedByteStream (list BackendReadReport) := (example_write example_stream).2.
Definition stream2 : BoundedByteStream (list BackendReadReport) := (example_read no_stream_control stream1).2.
Definition stream3 : BoundedByteStream (list BackendReadReport) := (example_read stop_control stream2).2.

Definition example_stream_events : list StreamEvent :=
  [StreamWrite (example_write example_stream).1; StreamRead (example_read no_stream_control stream1).1;
   StreamRead (example_read stop_control stream2).1].

Lemma example_stream_trace :
  stream_trace (S := toy_sha256) (J := toy_stream_json) (BB := scripted)
    example_stream example_stream_events stream3.
Proof.
  apply (strace_step _ stream1); [apply (sstep_write "GET" no_stream_control), surjective_pairing|].
  apply (strace_step _ stream2); [apply (sstep_read 100 no_stream_control), surjective_pairing|].
  apply (strace_step _ stream3); [apply (sstep_read 100 stop_control), surjective_pairing|].
  apply strace_nil.
Qed.


Lemma terminal_stream_is_final_witness :
  (example_read no_stream_control stream3).2 = stream3.
Proof.
  apply (terminal_stream_is_final (S := toy_sha256) (J := toy_stream_json) (BB := scripted) stream3
    [StreamRead (example_read no_stream_control stream3).1]).
  - vm_compute. reflexivity.
  - apply (strace_step _ (example_read no_stream_control stream3).2); [|apply strace_nil].
    apply (sstep_read 100 no_stream_control), surjective_pairing.
Defined.

Lemma stream_open_binds_execution_witness :
  opened_from (S := toy_sha256) (JX := toy_executor_json) (permit_of (example_ticket 1)) example_receipt
    (executor_audit after_execute) example_stream.
Proof.
  exact (stream_open_binds_execution (S := toy_sha256) (J := toy_stream_json) (JX := toy_executor_json)
    (JF := toy_fingerprint_json) (JG := toy_grant_json) (permit_of (example_ticket 1)) example_receipt
    (executor_audit after_execute) stream_conservative_default example_script example_stream example_opened).
Defined.

Lemma stopped_stream_leaves_backend_witness :
  bs_backend (example_read stop_control example_stream).2 = example_script.
Proof.
  exact (proj1 (stopped_stream_leaves_backend (S := toy_sha256) (J := toy_stream_json) (BB := scripted)
    100 "GET" stop_control example_stream OEmergencyStopped eq_refl)).
Defined.

Lemma toy_grant_json_total : @JsonTotal GrantMaterial toy_grant_json.
Proof. constructor. intros m. simpl. eauto. Qed.

Lemma example_executor_ok : executor_ok (S := toy_sha256) (J := toy_executor_json) example_executor.
Proof. by apply (executor_new_ok (S := toy_sha256) (J := toy_executor_json) (executor_id example_executor) (backend example_executor)). Qed.

Lemma completed_execution_opens_stream_witness :
  exists s, stream_open (S := toy_sha256) (J := toy_stream_json) (JX := toy_executor_json)
    (JF := toy_fingerprint_json) (JG := toy_grant_json) (permit_of (example_ticket 1)) example_receipt
    (executor_audit after_execute) stream_conservative_default example_script = Done (Ok s).
Proof.
  apply (@completed_execution_opens_stream toy_sha256 toy_sha256_laws toy_stream_json toy_executor_json
    toy_fingerprint_json toy_grant_json (toy_json_total _) toy_grant_json_total
    (list BackendReadReport) SyntheticBackend synthetic_backend
    (permit_of (example_ticket 1)) GENESIS_HASH conservative_default no_control example_executor
    example_receipt after_execute stream_conservative_default example_script example_executor_ok).
  - vm_compute. reflexivity.
  - exact example_executed.
  - reflexivity.
  - vm_compute. reflexivity.
Defined.
