(* ===== verification/HttpSyntax.v ===== *)
(** * HttpSyntax: bytes, slices and lines of HTTP messages

    What the HTTP crates use of the standard library (slices, search in slices,
    UTF-8 validation, hexadecimal numbers), the byte classes that
    [nxb-http1] and [nxb-vault] share, and the lemmas on CRLF-separated lines. *)

From S2P Require Import Prelude ByteStr.
Local Open Scope N_scope.

(** Sequencing of calls that may panic or fail. *)
Notation "'let!?' x ':=' e 'in' k" :=
  (match e with Done (Ok x) => k | Done (Err err) => Done (Err err) | Panic msg => Panic msg end)
  (at level 10, x pattern, e at level 100, k at level 200)
  : rust_scope.

(** ** Slices and search of the standard library *)

(** [&items[from..to]]; out of range it panics. *)
Definition slice {A} (from to : N) (items : list A) : Run (list A) :=
  if (from <=? to) && (to <=? len items)
  then Done (take (N.to_nat (to - from)) (drop (N.to_nat from) items))
  else Panic "slice index out of range".

(** [items[i]]; out of range it panics. *)
Definition index {A} (i : N) (items : list A) : Run A :=
  match items !! N.to_nat i with
  | Some item => Done item
  | None => Panic "index out of bounds"
  end.

(** [a - b] on [usize], in a build with overflow checks. *)
Definition usize_sub (a b : N) : Run N :=
  if b <=? a then Done (a - b) else Panic "attempt to subtract with overflow".

(** [a.saturating_sub(b)]. *)
Definition saturating_sub (a b : N) : N := a - b.

(** [bytes.windows(w.len()).position(|window| window == w)], for a nonempty [w]. *)
Fixpoint find_window (w bytes : str) : option N :=
  if starts_with bytes w then Some 0
  else match bytes with
       | [] => None
       | _ :: rest => N.succ <$> find_window w rest
       end.

(** [iter().position(p)]. *)
Fixpoint position (p : byte -> bool) (bytes : str) : option N :=
  match bytes with
  | [] => None
  | c :: rest => if p c then Some 0 else N.succ <$> position p rest
  end.

(** [std::str::from_utf8(bytes).is_ok()]: the well-formed byte sequences of
    Unicode, which exclude overlong forms and surrogates. *)
Definition is_continuation (c : byte) : bool := in_range 128 191 c.

Fixpoint from_utf8_ok (bytes : str) : bool :=
  match bytes with
  | [] => true
  | a :: r1 =>
      if in_range 0 127 a then from_utf8_ok r1
      else match r1 with
      | [] => false
      | b :: r2 =>
          if in_range 194 223 a then is_continuation b && from_utf8_ok r2
          else match r2 with
          | [] => false
          | c :: r3 =>
              if in_range 224 239 a then
                (if is_byte 224 a then in_range 160 191 b
                 else if is_byte 237 a then in_range 128 159 b
                 else is_continuation b)
                && is_continuation c && from_utf8_ok r3
              else match r3 with
              | [] => false
              | d :: r4 =>
                  in_range 240 244 a
                  && (if is_byte 240 a then in_range 144 191 b
                      else if is_byte 244 a then in_range 128 143 b
                      else is_continuation b)
                  && is_continuation c && is_continuation d && from_utf8_ok r4
              end
          end
      end
  end.

(** [u64::from_str_radix(text, 16)] on 1 to 16 hexadecimal digits, where it
    cannot overflow. *)
Definition hex_value (c : byte) : N :=
  if is_ascii_digit c then N_of_ascii c - 48 else N_of_ascii (lower_byte c) - 87.
Definition hex_number (text : str) : N :=
  foldl (fun acc c => 16 * acc + hex_value c) 0 text.

(** ** Byte classes *)

(** A byte of a token: of a method or a header name. *)
Definition is_token_byte (c : byte) : bool :=
  is_ascii_alphanumeric c
  || existsb (fun n => is_byte n c) [33; 35; 36; 37; 38; 39; 42; 43; 45; 46; 94; 95; 96; 124; 126].

(** [(b < 0x20 && b != HT) || b == 0x7f]: the control bytes no header value may hold. *)
Definition is_prohibited_control (c : byte) : bool :=
  (in_range 0 31 c && negb (is_byte 9 c)) || is_byte 127 c.

Definition CRLF : str := ["013"%char; "010"%char].
#[global] Arguments CRLF : simpl never.

(** Neither CR nor LF: such bytes cannot end a line. *)
Definition is_line_byte (c : byte) : bool := negb (is_byte 13 c) && negb (is_byte 10 c).

Lemma token_line_byte c : is_token_byte c = true -> is_line_byte c = true.
Proof. byte_cases c. Qed.
Lemma value_line_byte c : is_prohibited_control c = false -> is_line_byte c = true.
Proof. byte_cases c. Qed.
Lemma not_control_line_byte c : is_ascii_control c = false -> is_line_byte c = true.
Proof. byte_cases c. Qed.
Lemma graphic_line_byte c : is_graphic c = true -> is_line_byte c = true.
Proof. byte_cases c. Qed.

(** ** Slices in range *)

Lemma slice_in_range {A} from to (items : list A) :
  from <= to -> to <= len items ->
  slice from to items = Done (take (N.to_nat (to - from)) (drop (N.to_nat from) items)).
Proof.
  intros H1 H2. unfold slice. apply N.leb_le in H1, H2. by rewrite H1, H2.
Qed.

Lemma slice_from {A} from (items : list A) :
  from <= len items -> slice from (len items) items = Done (drop (N.to_nat from) items).
Proof.
  intros H. rewrite slice_in_range by lia. f_equal. apply take_ge.
  rewrite length_drop. unfold len in *. lia.
Qed.

Lemma slice_to {A} to (items : list A) :
  to <= len items -> slice 0 to items = Done (take (N.to_nat to) items).
Proof. intros H. rewrite slice_in_range by lia. by rewrite N.sub_0_r. Qed.

(** A slice of what the list was before it was extended. *)
Lemma slice_app {A} from to (items more : list A) :
  to <= len items -> slice from to (items ++ more) = slice from to items.
Proof.
  intros H. unfold slice. rewrite len_app.
  destruct (from <=? to) eqn:Hle; [|done]. simpl.
  assert ((to <=? len items) = true) as -> by (apply N.leb_le; lia).
  assert ((to <=? len items + len more) = true) as -> by (apply N.leb_le; lia).
  apply N.leb_le in Hle. f_equal. unfold len in H.
  rewrite drop_app_le by lia. by rewrite take_app_le by (rewrite length_drop; lia).
Qed.

Lemma len_take {A} n (l : list A) : len (take (N.to_nat n) l) = N.min n (len l).
Proof. unfold len. rewrite length_take. lia. Qed.

Lemma len_drop {A} n (l : list A) : len (drop (N.to_nat n) l) = len l - n.
Proof. unfold len. rewrite length_drop. lia. Qed.

Lemma slice_done {A} from to (items l : list A) :
  slice from to items = Done l -> from <= to /\ to <= len items /\ len l = to - from.
Proof.
  unfold slice. destruct ((from <=? to) && (to <=? len items)) eqn:H; [|done].
  intros [= <-]. bools. rewrite len_take, len_drop. lia.
Qed.

(** ** Search *)

Lemma position_some p s i : position p s = Some i -> i < len s.
Proof.
  revert i. induction s as [|c s IH]; intros i; [done|]. simpl. rewrite len_cons.
  destruct (p c); [intros [= <-]; lia|].
  destruct (position p s) eqn:E; [|done]. intros [= <-]. specialize (IH _ eq_refl). lia.
Qed.

Lemma find_window_some w s i :
  find_window w s = Some i ->
  i + len w <= len s /\ take (length w) (drop (N.to_nat i) s) = w.
Proof.
  revert i. induction s as [|c s IH]; intros i; simpl.
  - destruct (starts_with [] w) eqn:E; [|done]. intros [= <-].
    apply starts_with_spec in E as [r E]. destruct w; [done|discriminate].
  - destruct (starts_with (c :: s) w) eqn:E.
    + intros [= <-]. apply starts_with_spec in E as [r ->].
      rewrite len_app. split; [lia|]. change (N.to_nat 0) with 0%nat. by rewrite drop_0, take_app_length.
    + destruct (find_window w s) as [j|]; [|done]. intros [= <-].
      destruct (IH j eq_refl) as [H1 H2]. rewrite len_cons. split; [lia|].
      by rewrite N2Nat.inj_succ.
Qed.

Lemma starts_with_app s w t :
  len w <= len s -> starts_with (s ++ t) w = starts_with s w.
Proof.
  revert s. induction w as [|x w IH]; intros s H; [done|].
  destruct s as [|y s]; [rewrite len_cons in H; unfold len in H; simpl in H; lia|].
  simpl. rewrite !len_cons in H. rewrite IH by lia. done.
Qed.

Lemma find_window_app w s t i :
  find_window w s = Some i -> find_window w (s ++ t) = Some i.
Proof.
  revert i. induction s as [|c s IH]; intros i H.
  - apply find_window_some in H as Hs. destruct Hs as [H1 _].
    destruct w; [|rewrite len_cons, len_nil in H1; lia].
    simpl in H. injection H as <-. by destruct t.
  - apply find_window_some in H as Hs. destruct Hs as [H1 _].
    change ((c :: s) ++ t) with (c :: (s ++ t)).
    assert (starts_with (c :: (s ++ t)) w = starts_with (c :: s) w) as Hsw
      by (apply (starts_with_app (c :: s)); lia).
    simpl in H |- *. rewrite Hsw. destruct (starts_with (c :: s) w); [done|].
    destruct (find_window w s) as [j|]; [|done]. by rewrite (IH j eq_refl).
Qed.

(** A window found only after an extension ends in the extension. *)
Lemma find_window_app_none w s t i :
  find_window w s = None -> find_window w (s ++ t) = Some i -> len s < i + len w.
Proof.
  revert i. induction s as [|c s IH]; intros i H Ht.
  - destruct w; [by simpl in H|]. rewrite len_cons, len_nil. lia.
  - simpl in H. destruct (starts_with (c :: s) w) eqn:E; [done|].
    destruct (find_window w s) eqn:F; [done|].
    simpl in Ht. destruct (starts_with (c :: (s ++ t)) w) eqn:G.
    + destruct (N.lt_ge_cases (len (c :: s)) (len w)) as [Hl|Hl].
      * injection Ht as <-. lia.
      * rewrite (starts_with_app (c :: s) w t Hl : starts_with (c :: (s ++ t)) w = _) in G.
        congruence.
    + destruct (find_window w (s ++ t)) as [j|] eqn:K; [|done]. injection Ht as <-.
      specialize (IH j eq_refl eq_refl). rewrite len_cons. lia.
Qed.

(** Bytes that differ from the first byte of the window are skipped. *)
Lemma find_window_skip x w a s :
  Forall (fun c => c <> x) a ->
  find_window (x :: w) (a ++ s) = N.add (len a) <$> find_window (x :: w) s.
Proof.
  induction 1 as [|c a Hc Ha IH].
  - simpl app. change (len (@nil ascii)) with 0. by destruct (find_window (x :: w) s).
  - simpl app. cbn [find_window starts_with].
    rewrite bool_decide_eq_false_2 by done. simpl. rewrite IH.
    destruct (find_window (x :: w) s); [|done]. simpl. f_equal. rewrite len_cons. lia.
Qed.

(** ** Cutting a list at found positions *)

Lemma slice_split {A} from to (items l : list A) :
  slice from to items = Done l ->
  drop (N.to_nat from) items = l ++ drop (N.to_nat to) items.
Proof.
  unfold slice. destruct ((from <=? to) && (to <=? len items)) eqn:H; [|done].
  intros [= <-]. bools.
  rewrite <- (take_drop (N.to_nat (to - from)) (drop (N.to_nat from) items)) at 1.
  f_equal. rewrite drop_drop. f_equal. lia.
Qed.

Lemma find_window_split w s i :
  find_window w s = Some i ->
  s = take (N.to_nat i) s ++ w ++ drop (N.to_nat (i + len w)) s.
Proof.
  intros [H Hw]%find_window_some.
  rewrite <- (take_drop (N.to_nat i) s) at 1. f_equal.
  rewrite <- (take_drop (length w) (drop (N.to_nat i) s)), Hw. f_equal.
  rewrite drop_drop. f_equal. unfold len. lia.
Qed.

Lemma drop_at {A} from (items l s : list A) :
  drop (N.to_nat from) items = l ++ s -> drop (N.to_nat (from + len l)) items = s.
Proof.
  intros H. unfold len. replace (N.to_nat (from + N.of_nat (length l)))
    with (N.to_nat from + length l)%nat by lia.
  by rewrite <- drop_drop, H, drop_app_length.
Qed.

Lemma len_at {A} from (items l s : list A) :
  from <= len items -> drop (N.to_nat from) items = l ++ s -> from + len l + len s = len items.
Proof. intros Hf H. apply (f_equal len) in H. rewrite len_drop, len_app in H. lia. Qed.

Lemma slice_at {A} from to (items l s : list A) :
  from <= len items -> drop (N.to_nat from) items = l ++ s -> to = from + len l ->
  slice from to items = Done l.
Proof.
  intros Hf H ->. pose proof (len_at _ _ _ _ Hf H).
  rewrite slice_in_range by lia. rewrite H. f_equal.
  replace (N.to_nat (from + len l - from)) with (length l) by (unfold len; lia).
  by rewrite take_app_length.
Qed.
