(* ===== verification/Vault.v ===== *)
(** * Vault: secret header leases ([crates/nxb-vault])

    The objects the vault hands to the HTTP codec: a [SecretHeaderLease] that is
    taken at most once, for one authority and scheme, and the
    [SecretHeaderBatch] that writes its headers to the wire and a redacted copy.
    [Zeroizing] erases memory when a value is dropped, which a value in this
    model does not observe: a secret is its bytes. *)

From S2P Require Import Prelude ByteStr HttpSyntax.
Local Open Scope N_scope.

(** ** Data *)

Inductive VaultError : Type :=
  | InvalidIdentifier (name : str)
  | InvalidSecretSize
  | VaultInvalidBinding (message : str)
  | InvalidDelivery (message : str)
  | UnknownSecret
  | SecretExpired
  | VaultAccessDenied
  | InvalidLeaseSize
  | InvalidLeaseDuration
  | UnknownLease
  | LeaseConsumed
  | LeaseExpired
  | LeaseRevoked
  | LeaseContextMismatch
  | HeaderLeaseConsumed
  | HeaderLeaseBindingMismatch
  | HeaderBatchConsumed
  | InvalidHeaderName
  | InvalidHeaderValue
  | InvalidRequestTarget
  | AuditSerialization (message : str)
  | AuditSequenceMismatch (record_index : N)
  | AuditPreviousHashMismatch (record_index : N)
  | AuditRecordHashMismatch (record_index : N)
  | AuditTailMismatch.

Record MaterializedHeader : Type := {
  mh_normalized_name : str;
  mh_wire_name : str;
  mh_value : str
}.

Record SecretHeaderLease : Type := {
  hl_lease_id : str;
  hl_session_id : str;
  hl_authority : str;
  hl_scheme : str;
  hl_expires_at_epoch_seconds : Z;
  hl_fingerprint : str;
  hl_headers : list MaterializedHeader;
  hl_consumed : bool
}.

Record SecretHeaderBatch : Type := {
  hb_lease_fingerprint : str;
  hb_headers : list MaterializedHeader;
  hb_emitted : bool
}.

(** ** Validation *)

Definition vault_normalize_host (host : str) : Result str VaultError :=
  let normalized := to_ascii_lowercase (trim_end_matches (is_byte 46) host) in
  if (len normalized =? 0)
     || (253 <? len normalized)
     || starts_with normalized "."
     || ends_with normalized "."
     || existsb (fun c => negb (is_ascii_alphanumeric c || (is_byte 46 c || is_byte 45 c))) normalized
  then Err (VaultInvalidBinding "host is invalid")
  else Ok normalized.

Definition vault_normalize_scheme (scheme : str) : Result str VaultError :=
  let normalized := to_ascii_lowercase scheme in
  if bool_decide (normalized = "http") || bool_decide (normalized = "https")
  then Ok normalized
  else Err (VaultInvalidBinding "scheme is invalid").

Definition validate_header_name (name : str) : Result unit VaultError :=
  if (len name =? 0) || (256 <? len name) || negb (forallb is_token_byte name)
  then Err InvalidHeaderName else Ok tt.

Definition validate_header_value (value : str) : Result unit VaultError :=
  if existsb is_prohibited_control value then Err InvalidHeaderValue else Ok tt.

(** ** The lease *)

Definition lease_take (headers : list MaterializedHeader) (self : SecretHeaderLease) : SecretHeaderLease :=
  {| hl_lease_id := hl_lease_id self; hl_session_id := hl_session_id self;
     hl_authority := hl_authority self; hl_scheme := hl_scheme self;
     hl_expires_at_epoch_seconds := hl_expires_at_epoch_seconds self;
     hl_fingerprint := hl_fingerprint self;
     hl_headers := headers; hl_consumed := true |}.

(** The lease is marked as consumed before its expiry and binding are looked at. *)
Definition take_for (authority scheme : str) (now_epoch_seconds : Z) (self : SecretHeaderLease)
    : Result SecretHeaderBatch VaultError * SecretHeaderLease :=
  if hl_consumed self then (Err HeaderLeaseConsumed, self)
  else
    let used := lease_take (hl_headers self) self in
    if (hl_expires_at_epoch_seconds self <=? now_epoch_seconds)%Z then (Err LeaseExpired, used)
    else match vault_normalize_host authority with
    | Err e => (Err e, used)
    | Ok host =>
        if negb (bool_decide (host = hl_authority self)) then (Err HeaderLeaseBindingMismatch, used)
        else match vault_normalize_scheme scheme with
        | Err e => (Err e, used)
        | Ok normalized =>
            if negb (bool_decide (normalized = hl_scheme self))
            then (Err HeaderLeaseBindingMismatch, used)
            else (Ok {| hb_lease_fingerprint := hl_fingerprint self;
                        hb_headers := hl_headers self;
                        hb_emitted := false |},
                  lease_take [] self)
        end
    end.

(** ** The batch *)

Definition contains_name (normalized_name : str) (self : SecretHeaderBatch) : bool :=
  existsb (fun header => bool_decide (mh_normalized_name header = normalized_name)) (hb_headers self).

(** One header on the wire, and its redacted copy. *)
Definition wire_line (header : MaterializedHeader) : str :=
  mh_wire_name header ++ (": " : str) ++ mh_value header ++ CRLF.
Definition redacted_line (header : MaterializedHeader) : str :=
  mh_wire_name header ++ (": <redacted:" : str) ++ decimal (len (mh_value header))
    ++ (">" : str) ++ CRLF.

Fixpoint append_headers (headers : list MaterializedHeader) (wire redacted_wire : str)
    : Result unit VaultError * (str * str) :=
  match headers with
  | [] => (Ok tt, (wire, redacted_wire))
  | header :: rest =>
      match validate_header_name (mh_wire_name header) with
      | Err e => (Err e, (wire, redacted_wire))
      | Ok _ =>
          match validate_header_value (mh_value header) with
          | Err e => (Err e, (wire, redacted_wire))
          | Ok _ =>
              append_headers rest (wire ++ wire_line header) (redacted_wire ++ redacted_line header)
          end
      end
  end.

Definition append_http1 (wire redacted_wire : str) (self : SecretHeaderBatch)
    : Result unit VaultError * (str * str) * SecretHeaderBatch :=
  if hb_emitted self then (Err HeaderBatchConsumed, (wire, redacted_wire), self)
  else (append_headers (hb_headers self) wire redacted_wire,
        {| hb_lease_fingerprint := hb_lease_fingerprint self;
           hb_headers := hb_headers self; hb_emitted := true |}).

(** ** What the lease and the batch guarantee *)

(** A header that may go on the wire: a token and a value without line breaks. *)
Definition header_fits (header : MaterializedHeader) : Prop :=
  mh_wire_name header <> [] /\ forallb is_token_byte (mh_wire_name header) = true
  /\ existsb is_prohibited_control (mh_value header) = false.

Lemma append_headers_ok headers wire redacted w r :
  append_headers headers wire redacted = (Ok tt, (w, r)) ->
  Forall header_fits headers
  /\ w = wire ++ concat (wire_line <$> headers)
  /\ r = redacted ++ concat (redacted_line <$> headers).
Proof.
  revert wire redacted. induction headers as [|h hs IH]; intros wire redacted; simpl.
  { intros [= -> ->]. by rewrite !app_nil_r. }
  unfold validate_header_name, validate_header_value.
  destruct (_ || _) eqn:Hn; [done|]. destruct (existsb _ _) eqn:Hv; [done|].
  intros (? & -> & ->)%IH. rewrite !(assoc_L (++)). split_and!; [|done|done].
  constructor; [|done]. bools. split_and!; [|done|done].
  intros E. rewrite E in *. done.
Qed.

(** A lease yields its headers at most once, and only in time and for its own
    authority and scheme. *)
Lemma take_for_ok authority scheme now self batch self' :
  take_for authority scheme now self = (Ok batch, self') ->
  hl_consumed self = false /\ (now < hl_expires_at_epoch_seconds self)%Z
  /\ vault_normalize_host authority = Ok (hl_authority self)
  /\ vault_normalize_scheme scheme = Ok (hl_scheme self)
  /\ hb_headers batch = hl_headers self /\ hb_emitted batch = false
  /\ hl_headers self' = [].
Proof.
  unfold take_for. intros H.
  destruct (hl_consumed self) eqn:Hc; [done|].
  destruct (_ <=? _)%Z eqn:Ht; [done|].
  destruct (vault_normalize_host authority) as [host|] eqn:Hh; [|done].
  destruct (negb _) eqn:Hb; [done|].
  destruct (vault_normalize_scheme scheme) as [sch|] eqn:Hs; [|done].
  destruct (negb (bool_decide (sch = _))) eqn:Hb2; [done|].
  injection H as <- <-. bools. subst. split_and!; simpl; first [done | lia].
Qed.

Lemma take_for_consumes authority scheme now self r self' :
  take_for authority scheme now self = (r, self') -> hl_consumed self' = true.
Proof.
  unfold take_for. intros H.
  destruct (hl_consumed self) eqn:Hc; [by simplify_eq|].
  repeat (case_match; simplify_eq; try done).
Qed.
