(* ===== verification/SecretVault.v ===== *)
(** * SecretVault: the in-memory secret vault ([crates/nxb-vault])

    The store behind the header leases of [Vault]: secrets are inserted with the
    identity, hosts and schemes they are bound to, leased for a short time to one
    access context, and materialised once into HTTP headers; every operation is
    recorded in the vault's hash chain. The theorems say which secrets a
    materialised lease can hold, that a lease materialises at most once, that a
    revoked or purged secret is never materialised again, and that what is
    materialised always fits the HTTP/1 header syntax. *)

From S2P Require Import Prelude ByteStr HashChain HttpSyntax Vault.
Local Open Scope N_scope.

(** ** Data *)

Definition MAX_SECRET_BYTES : N := 64 * 1024.
Definition MAX_SECRET_LEASE_SECONDS : Z := 300.
Definition MAX_SECRET_HANDLES_PER_LEASE : N := 256.

(** [SecretHandle(String)]. *)
Abbreviation SecretHandle := str.

Inductive SecretKind : Type := KCookie | KBearerToken | KApiKey | KCsrfToken.

Definition kind_code (self : SecretKind) : str :=
  match self with
  | KCookie => "cookie" | KBearerToken => "bearer_token"
  | KApiKey => "api_key" | KCsrfToken => "csrf_token"
  end.

Inductive SameSitePolicy : Type := SameSiteStrict | SameSiteLax | SameSiteNone | SameSiteUnspecified.

Record CookieMetadata : Type := {
  ck_name : str;
  ck_domain : str;
  ck_path : str;
  ck_expires_at_epoch_seconds : option Z;
  ck_secure : bool;
  ck_http_only : bool;
  ck_same_site : SameSitePolicy
}.

Record SecretBinding : Type := {
  sb_run_id : str;
  sb_worker_id : str;
  sb_account_id : str;
  sb_tenant_id : str;
  sb_role_id : str;
  sb_allowed_hosts : gset str;
  sb_allowed_schemes : gset str
}.

Record VaultAccessContext : Type := {
  vc_run_id : str;
  vc_worker_id : str;
  vc_account_id : str;
  vc_tenant_id : str;
  vc_role_id : str;
  vc_authority : str;
  vc_scheme : str
}.

#[export] Instance VaultAccessContext_eq_dec : EqDecision VaultAccessContext.
Proof. solve_decision. Defined.

Inductive SecretDelivery : Type :=
  | DeliverCookie (cookie : CookieMetadata)
  | DeliverHeader (name : str) (prefix : str).

Record SecretInput : Type := {
  in_kind : SecretKind;
  in_value : str;
  in_binding : SecretBinding;
  in_delivery : SecretDelivery;
  in_expires_at_epoch_seconds : option Z
}.

Inductive SecretDeliveryMetadata : Type :=
  | CookieDelivery (cookie : CookieMetadata)
  | HeaderDelivery (name : str) (prefix_bytes : N).

Record SecretMetadata : Type := {
  md_handle : SecretHandle;
  md_kind : SecretKind;
  md_binding : SecretBinding;
  md_delivery : SecretDeliveryMetadata;
  md_created_at_epoch_seconds : Z;
  md_expires_at_epoch_seconds : option Z
}.

Record SecretEntry : Type := {
  se_metadata : SecretMetadata;
  se_delivery : SecretDelivery;
  se_value : str
}.

Record LeaseState : Type := {
  ls_handles : list SecretHandle;
  ls_context : VaultAccessContext;
  ls_expires_at_epoch_seconds : Z;
  ls_consumed : bool;
  ls_revoked : bool
}.

Record SecretLease : Type := {
  sl_lease_id : str;
  sl_context : VaultAccessContext;
  sl_expires_at_epoch_seconds : Z;
  sl_consumed : bool
}.

Record VaultAuditEvent : Type := {
  va_action : str;
  va_outcome : str;
  va_vault_id : str;
  va_handle : option str;
  va_lease_id : option str;
  va_session_id : option str;
  va_metadata : gmap str str
}.

Abbreviation VaultAuditChain := (HashChain VaultAuditEvent).

Record InMemorySecretVault : Type := {
  vault_id : str;
  entries : gmap SecretHandle SecretEntry;
  leases : gmap str LeaseState;
  next_secret_id : N;
  next_lease_id : N;
  vault_audit : VaultAuditChain
}.

(** ** Validation *)

(** [expires.is_some_and(|expires| expires <= now)]. *)
Definition expired_at (expires : option Z) (now_epoch_seconds : Z) : bool :=
  match expires with Some e => (e <=? now_epoch_seconds)%Z | None => false end.

Definition vault_identifier_byte (c : byte) : bool :=
  is_ascii_alphanumeric c || is_byte 45 c || is_byte 95 c || is_byte 46 c.

Definition vault_validate_identifier (value name : str) : Result unit VaultError :=
  if (len value =? 0) || (128 <? len value) || negb (forallb vault_identifier_byte value)
  then Err (InvalidIdentifier name) else Ok tt.

Definition validate_request_target (target : str) : Result unit VaultError :=
  if bool_decide (target = "*") then Ok tt
  else if (len target =? 0) || negb (starts_with target "/") || contains_byte 35 target
          || existsb (fun c => is_ascii_control c || is_byte 32 c) target
  then Err InvalidRequestTarget else Ok tt.

Definition is_protocol_managed_header (name : str) : bool :=
  existsb (fun managed => bool_decide (name = list_ascii_of_string managed))
    ["host"; "content-length"; "transfer-encoding"; "connection"; "proxy-connection";
     "expect"; "upgrade"; "trailer"; "te"].

Definition validate_cookie (cookie : CookieMetadata) : Result unit VaultError :=
  if (len (ck_name cookie) =? 0)
     || negb (forallb is_token_byte (ck_name cookie))
     || (len (ck_path cookie) =? 0)
     || negb (starts_with (ck_path cookie) "/")
     || existsb is_ascii_control (ck_path cookie)
  then Err (InvalidDelivery "cookie name or path is invalid")
  else let? _ := vault_normalize_host (ck_domain cookie) in Ok tt.

(** [iter().map(f).collect::<Result<BTreeSet<_>, _>>()]. *)
Definition collect_set (f : str -> Result str VaultError) (s : gset str) : Result (gset str) VaultError :=
  let? l := collect_results f (btree_iter s) in Ok (list_to_set l).

Definition normalized_binding (binding : SecretBinding) : Result SecretBinding VaultError :=
  let? _ := vault_validate_identifier (sb_run_id binding) "run_id" in
  let? _ := vault_validate_identifier (sb_worker_id binding) "worker_id" in
  let? _ := vault_validate_identifier (sb_account_id binding) "account_id" in
  let? _ := vault_validate_identifier (sb_tenant_id binding) "tenant_id" in
  let? _ := vault_validate_identifier (sb_role_id binding) "role_id" in
  if bool_decide (sb_allowed_hosts binding = ∅) || bool_decide (sb_allowed_schemes binding = ∅)
  then Err (VaultInvalidBinding "host and scheme sets must not be empty")
  else
    let? hosts := collect_set vault_normalize_host (sb_allowed_hosts binding) in
    let? schemes := collect_set vault_normalize_scheme (sb_allowed_schemes binding) in
    Ok {| sb_run_id := sb_run_id binding; sb_worker_id := sb_worker_id binding;
          sb_account_id := sb_account_id binding; sb_tenant_id := sb_tenant_id binding;
          sb_role_id := sb_role_id binding;
          sb_allowed_hosts := hosts; sb_allowed_schemes := schemes |}.

Definition normalized_context (context : VaultAccessContext) : Result VaultAccessContext VaultError :=
  let? _ := vault_validate_identifier (vc_run_id context) "run_id" in
  let? _ := vault_validate_identifier (vc_worker_id context) "worker_id" in
  let? _ := vault_validate_identifier (vc_account_id context) "account_id" in
  let? _ := vault_validate_identifier (vc_tenant_id context) "tenant_id" in
  let? _ := vault_validate_identifier (vc_role_id context) "role_id" in
  let? authority := vault_normalize_host (vc_authority context) in
  let? scheme := vault_normalize_scheme (vc_scheme context) in
  Ok {| vc_run_id := vc_run_id context; vc_worker_id := vc_worker_id context;
        vc_account_id := vc_account_id context; vc_tenant_id := vc_tenant_id context;
        vc_role_id := vc_role_id context; vc_authority := authority; vc_scheme := scheme |}.

Definition validate_secret_input (input : SecretInput) (now_epoch_seconds : Z) : Result unit VaultError :=
  if (len (in_value input) =? 0) || (MAX_SECRET_BYTES <? len (in_value input))
  then Err InvalidSecretSize
  else
    let? _ := validate_header_value (in_value input) in
    let? _ := normalized_binding (in_binding input) in
    if expired_at (in_expires_at_epoch_seconds input) now_epoch_seconds
    then Err SecretExpired
    else match in_kind input, in_delivery input with
    | KCookie, DeliverCookie cookie => validate_cookie cookie
    | KCookie, DeliverHeader _ _ =>
        Err (InvalidDelivery "cookie secrets must use cookie delivery")
    | _, DeliverCookie _ =>
        Err (InvalidDelivery "non-cookie secrets must use header delivery")
    | _, DeliverHeader name prefix =>
        let? _ := validate_header_name name in
        if is_protocol_managed_header (to_ascii_lowercase name)
        then Err (InvalidDelivery "framing and authority headers cannot contain secrets")
        else validate_header_value prefix
    end.

(** ** Access checks *)

Definition validate_entry_identity (entry : SecretEntry) (context : VaultAccessContext)
    (now_epoch_seconds : Z) : Result unit VaultError :=
  if expired_at (md_expires_at_epoch_seconds (se_metadata entry)) now_epoch_seconds
  then Err SecretExpired
  else
    let binding := md_binding (se_metadata entry) in
    if bool_decide (sb_run_id binding <> vc_run_id context)
       || bool_decide (sb_worker_id binding <> vc_worker_id context)
       || bool_decide (sb_account_id binding <> vc_account_id context)
       || bool_decide (sb_tenant_id binding <> vc_tenant_id context)
       || bool_decide (sb_role_id binding <> vc_role_id context)
    then Err VaultAccessDenied else Ok tt.

Definition validate_entry_access (entry : SecretEntry) (context : VaultAccessContext)
    (now_epoch_seconds : Z) : Result unit VaultError :=
  let? _ := validate_entry_identity entry context now_epoch_seconds in
  let binding := md_binding (se_metadata entry) in
  if negb (bool_decide (vc_authority context ∈ sb_allowed_hosts binding))
     || negb (bool_decide (vc_scheme context ∈ sb_allowed_schemes binding))
  then Err VaultAccessDenied else Ok tt.

Definition domain_matches (host domain : str) : bool :=
  bool_decide (host = domain)
  || match strip_suffix host domain with Some prefix => ends_with prefix "." | None => false end.

Definition cookie_path_matches (target cookie_path : str) : bool :=
  let request_path := default target (head (split_byte 63 target)) in
  bool_decide (request_path = cookie_path)
  || match strip_prefix request_path cookie_path with
     | Some suffix => ends_with cookie_path "/" || starts_with suffix "/"
     | None => false
     end.

Definition cookie_applies (cookie : CookieMetadata) (context : VaultAccessContext)
    (request_target : str) (now_epoch_seconds : Z) : Result bool VaultError :=
  let? domain := vault_normalize_host (ck_domain cookie) in
  if negb (domain_matches (vc_authority context) domain)
     || negb (cookie_path_matches request_target (ck_path cookie))
     || (ck_secure cookie && bool_decide (vc_scheme context <> "https"))
     || expired_at (ck_expires_at_epoch_seconds cookie) now_epoch_seconds
  then Ok false else Ok true.

(** ** The audit chain *)

(** The chain's errors as the vault reports them. *)
Definition vault_chain_error (e : ChainError) : VaultError :=
  match e with
  | InvalidGenesisHash => AuditTailMismatch
  | Serialization message => AuditSerialization message
  | SequenceMismatch i => AuditSequenceMismatch i
  | PreviousHashMismatch i => AuditPreviousHashMismatch i
  | RecordHashMismatch i => AuditRecordHashMismatch i
  | TailHashMismatch => AuditTailMismatch
  end.

(** What [header_lease_fingerprint] serialises: the lease, the session, the
    context, the expiry and the names and sizes of the headers. *)
Abbreviation FingerprintMaterial := (str * str * VaultAccessContext * Z * list (str * N))%type.

Section Vault.
Context {S : Sha256Lib} {J : JsonLib (HashMaterial VaultAuditEvent)} {JF : JsonLib FingerprintMaterial}.

(** The genesis is the digest of the vault identifier; the constructor of
    [chain_new] does not check it. *)
Definition vault_audit_new (vault_id : str) : VaultAuditChain :=
  chain_new (to_lower_hex (sha256 (("nxb-vault:" : str) ++ vault_id))).

Definition vault_audit_append (event : VaultAuditEvent) (chain : VaultAuditChain)
    : Result unit VaultError * VaultAuditChain :=
  match chain_append event chain with
  | (Ok _, chain') => (Ok tt, chain')
  | (Err e, chain') => (Err (vault_chain_error e), chain')
  end.

Definition vault_audit_verify (chain : VaultAuditChain) : Result unit VaultError :=
  map_err vault_chain_error (chain_verify chain).

(** ** The vault's operations *)

Definition with_audit (chain : VaultAuditChain) (self : InMemorySecretVault) : InMemorySecretVault :=
  {| vault_id := vault_id self; entries := entries self; leases := leases self;
     next_secret_id := next_secret_id self; next_lease_id := next_lease_id self;
     vault_audit := chain |}.
Definition with_entries (map : gmap SecretHandle SecretEntry) (self : InMemorySecretVault)
    : InMemorySecretVault :=
  {| vault_id := vault_id self; entries := map; leases := leases self;
     next_secret_id := next_secret_id self; next_lease_id := next_lease_id self;
     vault_audit := vault_audit self |}.
Definition with_leases (map : gmap str LeaseState) (self : InMemorySecretVault)
    : InMemorySecretVault :=
  {| vault_id := vault_id self; entries := entries self; leases := map;
     next_secret_id := next_secret_id self; next_lease_id := next_lease_id self;
     vault_audit := vault_audit self |}.

(** [self.audit.append(event)] on the vault. *)
Definition record_event (event : VaultAuditEvent) (self : InMemorySecretVault)
    : Result unit VaultError * InMemorySecretVault :=
  let '(r, chain) := vault_audit_append event (vault_audit self) in (r, with_audit chain self).

Definition vault_new (vault_id : str) : Result InMemorySecretVault VaultError :=
  let? _ := vault_validate_identifier vault_id "vault_id" in
  Ok {| vault_id := vault_id; entries := ∅; leases := ∅; next_secret_id := 1; next_lease_id := 1;
        vault_audit := vault_audit_new vault_id |}.

Definition secret_handle_of (vault_id : str) (n : N) : SecretHandle :=
  vault_id ++ ("-secret-" : str) ++ decimal020 n.
Definition lease_id_of (vault_id : str) (n : N) : str :=
  vault_id ++ ("-lease-" : str) ++ decimal020 n.

Definition delivery_metadata (delivery : SecretDelivery) : SecretDeliveryMetadata :=
  match delivery with
  | DeliverCookie cookie => CookieDelivery cookie
  | DeliverHeader name prefix => HeaderDelivery name (len prefix)
  end.

(** The entry stored for an input, under the normalised binding. *)
Definition new_entry (handle : SecretHandle) (binding : SecretBinding) (input : SecretInput)
    (now_epoch_seconds : Z) : SecretEntry :=
  {| se_metadata :=
       {| md_handle := handle; md_kind := in_kind input; md_binding := binding;
          md_delivery := delivery_metadata (in_delivery input);
          md_created_at_epoch_seconds := now_epoch_seconds;
          md_expires_at_epoch_seconds := in_expires_at_epoch_seconds input |};
     se_delivery := in_delivery input; se_value := in_value input |}.

Definition vault_insert (input : SecretInput) (now_epoch_seconds : Z) (self : InMemorySecretVault)
    : Result SecretHandle VaultError * InMemorySecretVault :=
  match validate_secret_input input now_epoch_seconds with
  | Err e => (Err e, self)
  | Ok _ =>
      let handle := secret_handle_of (vault_id self) (next_secret_id self) in
      let counted := {| vault_id := vault_id self; entries := entries self; leases := leases self;
                        next_secret_id := saturating_add (next_secret_id self) 1;
                        next_lease_id := next_lease_id self; vault_audit := vault_audit self |} in
      match normalized_binding (in_binding input) with
      | Err e => (Err e, counted)
      | Ok binding =>
          let entry := new_entry handle binding input now_epoch_seconds in
          let stored := with_entries (<[handle := entry]> (entries self)) counted in
          match record_event
            {| va_action := "secret_inserted"; va_outcome := "stored"; va_vault_id := vault_id self;
               va_handle := Some handle; va_lease_id := None; va_session_id := None;
               va_metadata := {[ ("kind" : str) := kind_code (in_kind input) ]} |} stored with
          | (Err error, stored) => (Err error, with_entries (delete handle (entries stored)) stored)
          | (Ok _, stored) => (Ok handle, stored)
          end
      end
  end.

Definition vault_metadata (handle : SecretHandle) (self : InMemorySecretVault)
    : Result SecretMetadata VaultError :=
  match entries self !! handle with
  | Some entry => Ok (se_metadata entry)
  | None => Err UnknownSecret
  end.

(** The check of one handle when a lease is asked for. *)
Definition leasable (self : InMemorySecretVault) (context : VaultAccessContext)
    (now_epoch_seconds : Z) (handle : SecretHandle) : Result unit VaultError :=
  match entries self !! handle with
  | None => Err UnknownSecret
  | Some entry =>
      match se_delivery entry with
      | DeliverCookie _ => validate_entry_identity entry context now_epoch_seconds
      | DeliverHeader _ _ => validate_entry_access entry context now_epoch_seconds
      end
  end.

Definition vault_lease (handles : list SecretHandle) (context : VaultAccessContext)
    (lease_seconds now_epoch_seconds : Z) (self : InMemorySecretVault)
    : Result SecretLease VaultError * InMemorySecretVault :=
  if (len handles =? 0) || (MAX_SECRET_HANDLES_PER_LEASE <? len handles)
  then (Err InvalidLeaseSize, self)
  else if (lease_seconds <=? 0)%Z || (MAX_SECRET_LEASE_SECONDS <? lease_seconds)%Z
  then (Err InvalidLeaseDuration, self)
  else match normalized_context context with
  | Err e => (Err e, self)
  | Ok context =>
      match collect_results (leasable self context now_epoch_seconds) handles with
      | Err e => (Err e, self)
      | Ok _ =>
          let lease_id := lease_id_of (vault_id self) (next_lease_id self) in
          let expires_at := i64_saturating_add now_epoch_seconds lease_seconds in
          let issued :=
            {| vault_id := vault_id self; entries := entries self;
               leases := <[lease_id := {| ls_handles := handles; ls_context := context;
                                          ls_expires_at_epoch_seconds := expires_at;
                                          ls_consumed := false; ls_revoked := false |}]> (leases self);
               next_secret_id := next_secret_id self;
               next_lease_id := saturating_add (next_lease_id self) 1;
               vault_audit := vault_audit self |} in
          match record_event
            {| va_action := "secret_lease_issued"; va_outcome := "issued"; va_vault_id := vault_id self;
               va_handle := None; va_lease_id := Some lease_id; va_session_id := None;
               va_metadata := list_to_map
                 [("handle_count" : str, decimal (len handles));
                  ("authority" : str, vc_authority context);
                  ("scheme" : str, vc_scheme context);
                  ("expires_at" : str, decimal_z expires_at)] |} issued with
          | (Err e, issued) => (Err e, issued)
          | (Ok _, issued) =>
              (Ok {| sl_lease_id := lease_id; sl_context := context;
                     sl_expires_at_epoch_seconds := expires_at; sl_consumed := false |}, issued)
          end
      end
  end.

(** The loop over the handles of a lease: the headers and the cookie pairs. *)
Fixpoint materialize_handles (self : InMemorySecretVault) (context : VaultAccessContext)
    (request_target : str) (now_epoch_seconds : Z) (handles : list SecretHandle)
    (headers : list MaterializedHeader) (cookie_pairs : list (str * str))
    : Result (list MaterializedHeader * list (str * str)) VaultError :=
  match handles with
  | [] => Ok (headers, cookie_pairs)
  | handle :: rest =>
      match entries self !! handle with
      | None => Err UnknownSecret
      | Some entry =>
          match se_delivery entry with
          | DeliverCookie cookie =>
              let? _ := validate_entry_identity entry context now_epoch_seconds in
              let binding := md_binding (se_metadata entry) in
              let? applies :=
                if bool_decide (vc_authority context ∈ sb_allowed_hosts binding)
                   && bool_decide (vc_scheme context ∈ sb_allowed_schemes binding)
                then cookie_applies cookie context request_target now_epoch_seconds
                else Ok false in
              materialize_handles self context request_target now_epoch_seconds rest headers
                (if applies : bool then cookie_pairs ++ [(ck_name cookie, se_value entry)]
                 else cookie_pairs)
          | DeliverHeader name prefix =>
              let? _ := validate_entry_access entry context now_epoch_seconds in
              let value := prefix ++ se_value entry in
              let? _ := validate_header_value value in
              materialize_handles self context request_target now_epoch_seconds rest
                (headers ++ [{| mh_normalized_name := to_ascii_lowercase name;
                                mh_wire_name := name; mh_value := value |}])
                cookie_pairs
          end
      end
  end.

(** [name=value] pairs joined by [; ]. *)
Definition cookie_pair (pair : str * str) : str := pair.1 ++ ("=" : str) ++ pair.2.
Definition combine_cookies (cookie_pairs : list (str * str)) : str :=
  join "; " (cookie_pair <$> cookie_pairs).

Definition with_cookie_header (headers : list MaterializedHeader) (cookie_pairs : list (str * str))
    : list MaterializedHeader :=
  if bool_decide (cookie_pairs = []) then headers
  else headers ++ [{| mh_normalized_name := "cookie"; mh_wire_name := "Cookie";
                      mh_value := combine_cookies cookie_pairs |}].

Definition header_lease_fingerprint (lease_id session_id : str) (context : VaultAccessContext)
    (expires_at_epoch_seconds : Z) (headers : list MaterializedHeader) : Run str :=
  let names := (fun header => (mh_normalized_name header, len (mh_value header))) <$> headers in
  match to_vec (lease_id, session_id, context, expires_at_epoch_seconds, names) with
  | Ok material => Done (to_lower_hex (sha256 material))
  | Err _ => Panic "vault lease fingerprint material contains only serializable fields"
  end.

Definition consume_lease_state (state : LeaseState) : LeaseState :=
  {| ls_handles := ls_handles state; ls_context := ls_context state;
     ls_expires_at_epoch_seconds := ls_expires_at_epoch_seconds state;
     ls_consumed := true; ls_revoked := ls_revoked state |}.

Definition revoke_lease_state (state : LeaseState) : LeaseState :=
  {| ls_handles := ls_handles state; ls_context := ls_context state;
     ls_expires_at_epoch_seconds := ls_expires_at_epoch_seconds state;
     ls_consumed := ls_consumed state; ls_revoked := true |}.

Definition use_lease (lease : SecretLease) : SecretLease :=
  {| sl_lease_id := sl_lease_id lease; sl_context := sl_context lease;
     sl_expires_at_epoch_seconds := sl_expires_at_epoch_seconds lease; sl_consumed := true |}.

(** The checks of [materialize_http_headers] on the vault's own lease state. *)
Definition lease_state_for (lease : SecretLease) (now_epoch_seconds : Z) (self : InMemorySecretVault)
    : Result LeaseState VaultError :=
  match leases self !! sl_lease_id lease with
  | None => Err UnknownLease
  | Some state =>
      if ls_revoked state then Err LeaseRevoked
      else if ls_consumed state then Err LeaseConsumed
      else if (ls_expires_at_epoch_seconds state <=? now_epoch_seconds)%Z then Err LeaseExpired
      else if bool_decide (ls_context state <> sl_context lease) then Err LeaseContextMismatch
      else Ok state
  end.

(** The result, the caller's lease and the vault; [Panic] is the [expect] of the
    fingerprint. *)
Definition materialize_http_headers (lease : SecretLease) (session_id request_target : str)
    (now_epoch_seconds : Z) (self : InMemorySecretVault)
    : Run (Result SecretHeaderLease VaultError * SecretLease * InMemorySecretVault) :=
  match vault_validate_identifier session_id "session_id" with
  | Err e => Done (Err e, lease, self)
  | Ok _ =>
  match validate_request_target request_target with
  | Err e => Done (Err e, lease, self)
  | Ok _ =>
  if sl_consumed lease then Done (Err LeaseConsumed, lease, self)
  else
  let lease := use_lease lease in
  match lease_state_for lease now_epoch_seconds self with
  | Err e => Done (Err e, lease, self)
  | Ok state =>
  match materialize_handles self (ls_context state) request_target now_epoch_seconds
          (ls_handles state) [] [] with
  | Err e => Done (Err e, lease, self)
  | Ok (headers, cookie_pairs) =>
      let headers := with_cookie_header headers cookie_pairs in
      let used := with_leases (alter consume_lease_state (sl_lease_id lease) (leases self)) self in
      let! fingerprint := header_lease_fingerprint (sl_lease_id lease) session_id (ls_context state)
                            (ls_expires_at_epoch_seconds state) headers in
      match record_event
        {| va_action := "http_headers_materialized"; va_outcome := "materialized";
           va_vault_id := vault_id self; va_handle := None; va_lease_id := Some (sl_lease_id lease);
           va_session_id := Some session_id;
           va_metadata := list_to_map
             [("header_count" : str, decimal (len headers));
              ("authority" : str, vc_authority (ls_context state));
              ("scheme" : str, vc_scheme (ls_context state));
              ("fingerprint" : str, fingerprint)] |} used with
      | (Err e, used) => Done (Err e, lease, used)
      | (Ok _, used) =>
          Done (Ok {| hl_lease_id := sl_lease_id lease; hl_session_id := session_id;
                      hl_authority := vc_authority (ls_context state);
                      hl_scheme := vc_scheme (ls_context state);
                      hl_expires_at_epoch_seconds := ls_expires_at_epoch_seconds state;
                      hl_fingerprint := fingerprint; hl_headers := headers;
                      hl_consumed := false |}, lease, used)
      end
  end end end end.

(** An event without a subject beyond the named secret or lease. *)
Definition vault_event (self : InMemorySecretVault) (action outcome : str)
    (handle lease_id : option str) (metadata : gmap str str) : VaultAuditEvent :=
  {| va_action := action; va_outcome := outcome; va_vault_id := vault_id self;
     va_handle := handle; va_lease_id := lease_id; va_session_id := None; va_metadata := metadata |}.

Definition revoke_secret (handle : SecretHandle) (self : InMemorySecretVault)
    : Result unit VaultError * InMemorySecretVault :=
  match entries self !! handle with
  | None => (Err UnknownSecret, self)
  | Some _ =>
      record_event (vault_event self "secret_revoked" "revoked" (Some handle) None ∅)
        (with_leases
           ((fun state => if bool_decide (handle ∈ ls_handles state)
                          then revoke_lease_state state else state) <$> leases self)
           (with_entries (delete handle (entries self)) self))
  end.

Definition revoke_lease (lease_id : str) (self : InMemorySecretVault)
    : Result unit VaultError * InMemorySecretVault :=
  match leases self !! lease_id with
  | None => (Err UnknownLease, self)
  | Some state =>
      record_event (vault_event self "secret_lease_revoked" "revoked" None (Some lease_id) ∅)
        (with_leases (<[lease_id := revoke_lease_state state]> (leases self)) self)
  end.

Definition emergency_purge (self : InMemorySecretVault) : Result unit VaultError * InMemorySecretVault :=
  record_event
    (vault_event self "emergency_purge" "purged" None None
       (list_to_map [("secret_count" : str, decimal (N.of_nat (size (entries self))));
                     ("lease_count" : str, decimal (N.of_nat (size (leases self))))]))
    (with_leases ∅ (with_entries ∅ self)).

Definition secret_count (self : InMemorySecretVault) : N := N.of_nat (size (entries self)).

(** ** Traces of the vault *)

(** What a client observes of one operation: a stored secret, a materialised
    lease (with the lease state it was made from), or nothing. *)
Inductive VaultEvent : Type :=
  | Inserted (handle : SecretHandle) (input : SecretInput) (now : Z)
  | Materialised (handles : list SecretHandle) (headers : SecretHeaderLease)
  | Quiet.

(** One operation of the vault, with any arguments: the [SecretLease] a client
    presents is arbitrary, not only one the vault issued. *)
Inductive vault_step : InMemorySecretVault -> VaultEvent -> InMemorySecretVault -> Prop :=
  | step_inserted input now v handle v' :
      vault_insert input now v = (Ok handle, v') -> vault_step v (Inserted handle input now) v'
  | step_not_inserted input now v e v' :
      vault_insert input now v = (Err e, v') -> vault_step v Quiet v'
  | step_lease handles context seconds now v r v' :
      vault_lease handles context seconds now v = (r, v') -> vault_step v Quiet v'
  | step_materialised lease session target now v hl lease' v' state :
      materialize_http_headers lease session target now v = Done (Ok hl, lease', v') ->
      leases v !! sl_lease_id lease = Some state ->
      vault_step v (Materialised (ls_handles state) hl) v'
  | step_not_materialised lease session target now v e lease' v' :
      materialize_http_headers lease session target now v = Done (Err e, lease', v') ->
      vault_step v Quiet v'
  | step_revoke_secret handle v r v' :
      revoke_secret handle v = (r, v') -> vault_step v Quiet v'
  | step_revoke_lease lease_id v r v' :
      revoke_lease lease_id v = (r, v') -> vault_step v Quiet v'
  | step_purge v r v' :
      emergency_purge v = (r, v') -> vault_step v Quiet v'.

Inductive vault_trace : InMemorySecretVault -> list VaultEvent -> InMemorySecretVault -> Prop :=
  | trace_nil v : vault_trace v [] v
  | trace_cons v e v1 es v2 :
      vault_step v e v1 -> vault_trace v1 es v2 -> vault_trace v (e :: es) v2.

Lemma trace_snoc v es v1 e v2 :
  vault_trace v es v1 -> vault_step v1 e v2 -> vault_trace v (es ++ [e]) v2.
Proof. induction 1; intros; simpl; econstructor; eauto using vault_trace. Qed.

(** The lease identifiers that were materialised, in order. *)
Definition materialised_ids (es : list VaultEvent) : list str :=
  omap (fun e => match e with Materialised _ hl => Some (hl_lease_id hl) | _ => None end) es.

(** ** What each operation changes *)

Lemma record_event_inv e v r v' :
  record_event e v = (r, v') -> exists chain, v' = with_audit chain v.
Proof. unfold record_event. destruct (vault_audit_append _ _). intros [= _ <-]. eauto. Qed.

Lemma vault_insert_inv input now v r v' :
  vault_insert input now v = (r, v') ->
  vault_id v' = vault_id v /\ leases v' = leases v /\ next_lease_id v' = next_lease_id v
  /\ match r with
     | Ok handle =>
         handle = secret_handle_of (vault_id v) (next_secret_id v)
         /\ next_secret_id v' = saturating_add (next_secret_id v) 1
         /\ validate_secret_input input now = Ok tt
         /\ exists binding, normalized_binding (in_binding input) = Ok binding
         /\ entries v' = <[handle := new_entry handle binding input now]> (entries v)
     | Err _ =>
         (next_secret_id v' = next_secret_id v
          \/ next_secret_id v' = saturating_add (next_secret_id v) 1)
         /\ entries v' ⊆ entries v
     end.
Proof.
  unfold vault_insert. intros H.
  destruct (validate_secret_input input now) as [[]|] eqn:Hv;
    [|by simplify_eq; split_and!; auto].
  destruct (normalized_binding _) as [b|] eqn:Hb; [|by simplify_eq; split_and!; simpl; auto].
  destruct (record_event _ _) as [[u|e] s] eqn:Hr; simplify_eq;
    apply record_event_inv in Hr as [chain ->]; simpl; split_and!; eauto.
  rewrite delete_insert_eq. apply delete_subseteq.
Qed.

Lemma vault_lease_inv handles context seconds now v r v' :
  vault_lease handles context seconds now v = (r, v') ->
  vault_id v' = vault_id v /\ entries v' = entries v /\ next_secret_id v' = next_secret_id v
  /\ ((leases v' = leases v /\ next_lease_id v' = next_lease_id v)
      \/ (exists ctx, normalized_context context = Ok ctx
          /\ leases v' = <[lease_id_of (vault_id v) (next_lease_id v) :=
              {| ls_handles := handles; ls_context := ctx;
                 ls_expires_at_epoch_seconds := i64_saturating_add now seconds;
                 ls_consumed := false; ls_revoked := false |}]> (leases v)
          /\ next_lease_id v' = saturating_add (next_lease_id v) 1)).
Proof.
  unfold vault_lease. intros H.
  destruct (_ || _); [by simplify_eq; split_and!; auto|]. destruct (_ || _); [by simplify_eq; split_and!; auto|].
  destruct (normalized_context context) as [ctx|]; [|by simplify_eq; split_and!; auto].
  destruct (collect_results _ _); [|by simplify_eq; split_and!; auto].
  destruct (record_event _ _) as [[u|e] s] eqn:Hr; simplify_eq;
    apply record_event_inv in Hr as [chain ->]; simpl; split_and!; eauto 10.
Qed.

Lemma lease_state_for_ok lease now v state :
  lease_state_for lease now v = Ok state ->
  leases v !! sl_lease_id lease = Some state /\ ls_revoked state = false
  /\ ls_consumed state = false /\ (now < ls_expires_at_epoch_seconds state)%Z
  /\ ls_context state = sl_context lease.
Proof.
  unfold lease_state_for. intros H. inv_ok H. bools. split_and!; auto; by apply dec_stable.
Qed.

(** A successful materialisation. *)
Lemma materialize_ok lease session target now v hl lease' v' :
  materialize_http_headers lease session target now v = Done (Ok hl, lease', v') ->
  exists state headers pairs,
    lease_state_for lease now v = Ok state
    /\ materialize_handles v (ls_context state) target now (ls_handles state) [] [] = Ok (headers, pairs)
    /\ hl_headers hl = with_cookie_header headers pairs
    /\ hl_lease_id hl = sl_lease_id lease /\ hl_session_id hl = session
    /\ hl_authority hl = vc_authority (ls_context state) /\ hl_scheme hl = vc_scheme (ls_context state)
    /\ hl_expires_at_epoch_seconds hl = ls_expires_at_epoch_seconds state
    /\ hl_consumed hl = false.
Proof.
  unfold materialize_http_headers. intros H.
  destruct (vault_validate_identifier _ _); [|done]. destruct (validate_request_target _); [|done].
  destruct (sl_consumed lease); [done|].
  change (lease_state_for (use_lease lease) now v) with (lease_state_for lease now v) in H.
  destruct (lease_state_for _ _ _) as [state|] eqn:Hs; [|done].
  destruct (materialize_handles _ _ _ _ _ _ _) as [[headers pairs]|] eqn:Hm; [|done].
  destruct (header_lease_fingerprint _ _ _ _ _) as [fp|]; [|done].
  destruct (record_event _ _) as [[u|e] s] eqn:Hr; [|done]. simplify_eq.
  exists state, headers, pairs. simpl. split_and!; auto.
Qed.

(** Any materialisation marks at most its own lease as consumed, and a
    successful one does. *)
Lemma materialize_inv lease session target now v r lease' v' :
  materialize_http_headers lease session target now v = Done (r, lease', v') ->
  vault_id v' = vault_id v /\ entries v' = entries v /\ next_secret_id v' = next_secret_id v
  /\ next_lease_id v' = next_lease_id v
  /\ ((leases v' = leases v /\ is_ok r = false)
      \/ leases v' = alter consume_lease_state (sl_lease_id lease) (leases v)).
Proof.
  unfold materialize_http_headers. intros H.
  destruct (vault_validate_identifier _ _); [|by simplify_eq; split_and!; auto].
  destruct (validate_request_target _); [|by simplify_eq; split_and!; auto].
  destruct (sl_consumed lease); [by simplify_eq; split_and!; auto|].
  destruct (lease_state_for _ _ _) as [state|]; [|by simplify_eq; split_and!; auto].
  destruct (materialize_handles _ _ _ _ _ _ _) as [[headers pairs]|]; [|by simplify_eq; split_and!; auto].
  destruct (header_lease_fingerprint _ _ _ _ _) as [fp|]; [|done].
  destruct (record_event _ _) as [[u|e] s] eqn:Hr; simplify_eq;
    apply record_event_inv in Hr as [chain ->]; simpl; auto 10.
Qed.

Lemma revoke_secret_inv handle v r v' :
  revoke_secret handle v = (r, v') ->
  vault_id v' = vault_id v /\ next_secret_id v' = next_secret_id v
  /\ next_lease_id v' = next_lease_id v
  /\ entries v' = delete handle (entries v)
  /\ exists f, (forall s, ls_consumed (f s) = ls_consumed s /\ ls_context (f s) = ls_context s)
      /\ leases v' = f <$> leases v.
Proof.
  unfold revoke_secret. intros H. destruct (entries v !! handle) eqn:E.
  - apply record_event_inv in H as [chain ->]. simpl. split_and!; auto.
    eexists. split; [|reflexivity]. intros st. simpl. by case_bool_decide.
  - simplify_eq. rewrite delete_id by done. split_and!; auto.
    exists id. split; [done|]. by rewrite map_fmap_id.
Qed.

Lemma revoke_lease_inv lease_id v r v' :
  revoke_lease lease_id v = (r, v') ->
  vault_id v' = vault_id v /\ entries v' = entries v /\ next_secret_id v' = next_secret_id v
  /\ next_lease_id v' = next_lease_id v
  /\ leases v' = alter revoke_lease_state lease_id (leases v).
Proof.
  unfold revoke_lease. intros H. destruct (leases v !! lease_id) as [s|] eqn:E.
  - apply record_event_inv in H as [chain ->]. simpl. split_and!; auto.
    apply map_eq. intros i. destruct (decide (i = lease_id)) as [->|];
      [by rewrite lookup_alter_eq, lookup_insert_eq, E | by rewrite lookup_alter_ne, lookup_insert_ne].
  - simplify_eq. split_and!; auto. apply map_eq. intros i.
    destruct (decide (i = lease_id)) as [->|]; [by rewrite lookup_alter_eq, E | by rewrite lookup_alter_ne].
Qed.

Lemma emergency_purge_inv v r v' :
  emergency_purge v = (r, v') ->
  vault_id v' = vault_id v /\ next_secret_id v' = next_secret_id v
  /\ next_lease_id v' = next_lease_id v /\ entries v' = ∅ /\ leases v' = ∅.
Proof. unfold emergency_purge. intros [chain ->]%record_event_inv. done. Qed.

(** ** Identifiers are fresh until a counter saturates *)

Lemma secret_handle_of_inj vid m n : secret_handle_of vid m = secret_handle_of vid n -> m = n.
Proof.
  unfold secret_handle_of. rewrite !(assoc_L (++)). intros E%app_inv_head.
  by rewrite <- (decimal020_value m), E, decimal020_value.
Qed.

Lemma lease_id_of_inj vid m n : lease_id_of vid m = lease_id_of vid n -> m = n.
Proof.
  unfold lease_id_of. rewrite !(assoc_L (++)). intros E%app_inv_head.
  by rewrite <- (decimal020_value m), E, decimal020_value.
Qed.

(** Counters only grow, and the vault keeps its identifier. *)
Lemma saturating_succ_ge n : n <= u64_max -> n <= saturating_add n 1 <= u64_max.
Proof. unfold saturating_add. lia. Qed.

Definition counters_ok (v : InMemorySecretVault) : Prop :=
  next_secret_id v <= u64_max /\ next_lease_id v <= u64_max.

(** The cases of a step, each with what its operation changes as [Hop]. *)
Ltac view_step Hs Hop :=
  destruct Hs as
    [? ? ? ? ? Hop%vault_insert_inv|? ? ? ? ? Hop%vault_insert_inv|? ? ? ? ? ? ? Hop%vault_lease_inv
    |? ? ? ? ? ? ? ? ? Hop%materialize_inv Hst|? ? ? ? ? ? ? ? Hop%materialize_inv
    |? ? ? ? Hop%revoke_secret_inv|? ? ? ? Hop%revoke_lease_inv|? ? ? Hop%emergency_purge_inv].

Lemma step_counters v e v' :
  vault_step v e v' -> counters_ok v ->
  counters_ok v' /\ vault_id v' = vault_id v
  /\ next_secret_id v <= next_secret_id v' /\ next_lease_id v <= next_lease_id v'.
Proof.
  unfold counters_ok. intros Hs [Hn Hl].
  pose proof (saturating_succ_ge _ Hn). pose proof (saturating_succ_ge _ Hl).
  view_step Hs Hop; naive_solver lia.
Qed.

Lemma trace_counters v es v' :
  vault_trace v es v' -> counters_ok v ->
  counters_ok v' /\ vault_id v' = vault_id v
  /\ next_secret_id v <= next_secret_id v' /\ next_lease_id v <= next_lease_id v'.
Proof.
  induction 1 as [|v e v1 es v2 Hs Ht IH]; intros Hc; [split_and!; auto; lia|].
  destruct (step_counters _ _ _ Hs Hc) as (Hc1 & ? & ? & ?).
  destruct (IH Hc1) as (? & ? & ? & ?). split_and!; auto; [congruence | lia | lia].
Qed.

(** ** Single use *)

(** The identifiers of the leases the vault holds were given out. *)
Definition leases_named (v : InMemorySecretVault) : Prop :=
  forall id s, leases v !! id = Some s ->
    exists n, n < next_lease_id v /\ id = lease_id_of (vault_id v) n.

(** A lease that was given out and can no longer be materialised. *)
Definition lease_spent (id : str) (v : InMemorySecretVault) : Prop :=
  (exists n, n < next_lease_id v /\ id = lease_id_of (vault_id v) n)
  /\ forall s, leases v !! id = Some s -> ls_consumed s = true.

(** What one operation does to the lease table: a lease of the new table is an
    old one, never unconsumed, or the fresh one. *)
Lemma step_leases v e v' id s' :
  vault_step v e v' -> leases v' !! id = Some s' ->
  (exists s, leases v !! id = Some s /\ ls_context s' = ls_context s
     /\ (ls_consumed s = true -> ls_consumed s' = true))
  \/ ((exists context, normalized_context context = Ok (ls_context s'))
      /\ id = lease_id_of (vault_id v) (next_lease_id v)
      /\ next_lease_id v' = saturating_add (next_lease_id v) 1).
Proof.
  intros Hs Hl. view_step Hs Hop.
  - destruct Hop as (_ & Hm & _). rewrite Hm in Hl. eauto.
  - destruct Hop as (_ & Hm & _). rewrite Hm in Hl. eauto.
  - destruct Hop as (_ & _ & _ & [[Hm _]|(ctx & ? & Hm & Hn)]); rewrite Hm in Hl; [by eauto|].
    apply lookup_insert_Some in Hl as [[<- <-]|[_ ?]]; eauto 10.
  - destruct Hop as (_ & _ & _ & _ & [[Hm _]|Hm]); rewrite Hm in Hl; [by eauto|].
    apply lookup_alter_Some in Hl as [(<- & s & ? & ->)|[? ?]]; eauto.
  - destruct Hop as (_ & _ & _ & _ & [[Hm _]|Hm]); rewrite Hm in Hl; [by eauto|].
    apply lookup_alter_Some in Hl as [(<- & s & ? & ->)|[? ?]]; eauto.
  - destruct Hop as (_ & _ & _ & _ & f & Hf & Hm). rewrite Hm, lookup_fmap in Hl.
    destruct (leases v !! id) as [s|]; simplify_eq/=. left. exists s.
    destruct (Hf s) as [-> ->]. auto.
  - destruct Hop as (_ & _ & _ & _ & Hm). rewrite Hm in Hl.
    apply lookup_alter_Some in Hl as [(<- & s & ? & ->)|[? ?]]; eauto.
  - destruct Hop as (_ & _ & _ & _ & Hm). by rewrite Hm, lookup_empty in Hl.
Qed.

(** A secret of the new store is an old one or the one inserted. *)
Lemma step_entries v e v' h entry :
  vault_step v e v' -> entries v' !! h = Some entry ->
  entries v !! h = Some entry
  \/ (exists input now binding,
        e = Inserted h input now /\ h = secret_handle_of (vault_id v) (next_secret_id v)
        /\ next_secret_id v' = saturating_add (next_secret_id v) 1
        /\ validate_secret_input input now = Ok tt
        /\ normalized_binding (in_binding input) = Ok binding
        /\ entry = new_entry h binding input now).
Proof.
  intros Hs Hl. view_step Hs Hop.
  - destruct Hop as (_ & _ & _ & Hh & Hn & Hv & b & Hb & Hm). rewrite Hm in Hl.
    apply lookup_insert_Some in Hl as [[<- <-]|[_ ?]]; eauto 15.
  - destruct Hop as (_ & _ & _ & _ & Hsub). left. by eapply lookup_weaken.
  - destruct Hop as (_ & Hm & _). rewrite Hm in Hl. eauto.
  - destruct Hop as (_ & Hm & _). rewrite Hm in Hl. eauto.
  - destruct Hop as (_ & Hm & _). rewrite Hm in Hl. eauto.
  - destruct Hop as (_ & _ & _ & Hm & _). rewrite Hm in Hl. apply lookup_delete_Some in Hl as [_ ?]. eauto.
  - destruct Hop as (_ & Hm & _). rewrite Hm in Hl. eauto.
  - destruct Hop as (_ & _ & _ & Hm & _). by rewrite Hm, lookup_empty in Hl.
Qed.

(** ** Invariants along a trace *)

Lemma step_leases_named v e v' :
  vault_step v e v' -> counters_ok v -> next_lease_id v' < u64_max ->
  leases_named v -> leases_named v'.
Proof.
  intros Hs Hc Hlt Hn id s Hl. destruct (step_counters _ _ _ Hs Hc) as (_ & Hvid & _ & Hle).
  rewrite Hvid. destruct (step_leases _ _ _ _ _ Hs Hl) as [(s0 & Hl0 & _)|(_ & -> & Hnext)].
  - destruct (Hn _ _ Hl0) as (n & ? & ->). exists n. split; [lia|done].
  - exists (next_lease_id v). rewrite Hnext in *. rewrite saturating_succ_exact by done. split; [lia|done].
Qed.

Lemma step_lease_spent v e v' id :
  vault_step v e v' -> counters_ok v -> next_lease_id v' < u64_max ->
  lease_spent id v -> lease_spent id v'.
Proof.
  intros Hs Hc Hlt [(n & Hn & ->) Hsp]. destruct (step_counters _ _ _ Hs Hc) as (_ & Hvid & _ & Hle).
  split; [exists n; rewrite Hvid; split; [lia|done]|].
  intros s Hl. destruct (step_leases _ _ _ _ _ Hs Hl) as [(s0 & Hl0 & _ & Hk)|(_ & He%lease_id_of_inj & _)];
    [by eauto | lia].
Qed.

(** A materialisation spends an unspent lease. *)
Lemma step_materialised_spends v handles hl v' :
  vault_step v (Materialised handles hl) v' -> leases_named v ->
  ~ lease_spent (hl_lease_id hl) v /\ lease_spent (hl_lease_id hl) v'.
Proof.
  intros Hs Hn. inversion Hs as [| | |lease session target now ? ? lease' ? state Hm Hst| | | |]; subst.
  pose proof (materialize_inv _ _ _ _ _ _ _ _ Hm) as (Hvid & _ & _ & Hnl & [[_ ?]|Hls]); [done|].
  apply materialize_ok in Hm as (st & hs & ps & (Hl & _ & Hc & _)%lease_state_for_ok & _ & _ & Hid & _).
  rewrite Hid. split.
  - intros [_ Hsp]. specialize (Hsp _ Hl). congruence.
  - split; [rewrite Hvid, Hnl; by eapply Hn|]. intros s. rewrite Hls.
    rewrite lookup_alter_eq, Hl. by intros [= <-].
Qed.

Lemma trace_spent v es v' :
  vault_trace v es v' -> counters_ok v -> leases_named v -> next_lease_id v' < u64_max ->
  NoDup (materialised_ids es) /\ forall id, lease_spent id v -> id ∉ materialised_ids es.
Proof.
  induction 1 as [|v e v1 es v2 Hs Ht IH]; intros Hc Hn Hlt.
  { split; [constructor | intros; set_solver]. }
  destruct (step_counters _ _ _ Hs Hc) as (Hc1 & _).
  assert (Hlt1 : next_lease_id v1 < u64_max) by (destruct (trace_counters _ _ _ Ht Hc1) as (_ & _ & _ & ?); lia).
  pose proof (step_leases_named _ _ _ Hs Hc Hlt1 Hn) as Hn1.
  destruct (IH Hc1 Hn1 Hlt) as [Hnd Hno].
  assert (Hkeep : forall id, lease_spent id v -> lease_spent id v1)
    by (intros id; by apply (step_lease_spent _ _ _ id Hs Hc Hlt1)).
  destruct e as [| handles hl |]; simpl; [by eauto 10| |by eauto 10].
  destruct (step_materialised_spends _ _ _ _ Hs Hn) as [Hun Hsp].
  split; [constructor; [by apply Hno | done]|].
  intros id Hid. apply not_elem_of_cons. split; [by intros -> | eauto].
Qed.

(** Every secret of the vault was inserted, with a valid input and under its
    normalised binding. *)
Definition inserted_from (es : list VaultEvent) (h : SecretHandle) (entry : SecretEntry) : Prop :=
  exists input now binding,
    Inserted h input now ∈ es /\ validate_secret_input input now = Ok tt
    /\ normalized_binding (in_binding input) = Ok binding /\ entry = new_entry h binding input now.

Lemma trace_entries v es v' h entry :
  vault_trace v es v' -> entries v' !! h = Some entry ->
  entries v !! h = Some entry \/ inserted_from es h entry.
Proof.
  induction 1 as [|v e v1 es v2 Hs Ht IH]; [by auto|]. intros [Hl|Hi]%IH.
  - destruct (step_entries _ _ _ _ _ Hs Hl) as [?|(input & now & b & -> & _ & _ & ? & ? & ?)]; [by auto|].
    right. exists input, now, b. split; [set_solver|]. auto.
  - right. destruct Hi as (input & now & b & ? & ?). exists input, now, b. split; [set_solver|]. auto.
Qed.

(** A handle that was given out and holds no secret. *)
Definition secret_gone (h : SecretHandle) (v : InMemorySecretVault) : Prop :=
  (exists n, n < next_secret_id v /\ h = secret_handle_of (vault_id v) n) /\ entries v !! h = None.

Lemma step_secret_gone v e v' h :
  vault_step v e v' -> counters_ok v -> secret_gone h v -> secret_gone h v'.
Proof.
  intros Hs Hc [(n & Hn & ->) Hno]. destruct (step_counters _ _ _ Hs Hc) as (_ & Hvid & Hle & _).
  split; [exists n; rewrite Hvid; split; [lia|done]|]. apply eq_None_not_Some. intros [entry Hl].
  destruct (step_entries _ _ _ _ _ Hs Hl) as [?|(? & ? & ? & _ & He%secret_handle_of_inj & _)];
    [congruence | lia].
Qed.

(** ** Which secrets are materialised *)

(** A secret that may be released to a context. *)
Definition released (binding : SecretBinding) (expires : option Z) (context : VaultAccessContext)
    (now : Z) : Prop :=
  sb_run_id binding = vc_run_id context /\ sb_worker_id binding = vc_worker_id context
  /\ sb_account_id binding = vc_account_id context /\ sb_tenant_id binding = vc_tenant_id context
  /\ sb_role_id binding = vc_role_id context
  /\ vc_authority context ∈ sb_allowed_hosts binding /\ vc_scheme context ∈ sb_allowed_schemes binding
  /\ forall e, expires = Some e -> (now < e)%Z.

Definition entry_released (entry : SecretEntry) : VaultAccessContext -> Z -> Prop :=
  released (md_binding (se_metadata entry)) (md_expires_at_epoch_seconds (se_metadata entry)).

Lemma identity_released entry context now :
  validate_entry_identity entry context now = Ok tt ->
  vc_authority context ∈ sb_allowed_hosts (md_binding (se_metadata entry)) ->
  vc_scheme context ∈ sb_allowed_schemes (md_binding (se_metadata entry)) ->
  entry_released entry context now.
Proof.
  unfold validate_entry_identity, entry_released, released. intros H Hh Hs. inv_ok H. bools.
  repeat match goal with H : ~ (_ <> _) |- _ => apply dec_stable in H end. split_and!; auto.
  intros e He. unfold expired_at in *. rewrite He in *. by bools.
Qed.

Lemma access_released entry context now :
  validate_entry_access entry context now = Ok tt -> entry_released entry context now.
Proof.
  unfold validate_entry_access. intros H.
  destruct (validate_entry_identity _ _ _) as [[]|] eqn:E; [|done]. inv_ok H. bools.
  by apply identity_released.
Qed.

(** The provenance of a header and of a cookie pair. *)
Definition header_from (v : InMemorySecretVault) (context : VaultAccessContext) (now : Z)
    (handles : list SecretHandle) (header : MaterializedHeader) : Prop :=
  exists handle entry name prefix,
    handle ∈ handles /\ entries v !! handle = Some entry /\ se_delivery entry = DeliverHeader name prefix
    /\ entry_released entry context now
    /\ header = {| mh_normalized_name := to_ascii_lowercase name; mh_wire_name := name;
                   mh_value := prefix ++ se_value entry |}.

Definition cookie_from (v : InMemorySecretVault) (context : VaultAccessContext) (target : str) (now : Z)
    (handles : list SecretHandle) (pair : str * str) : Prop :=
  exists handle entry cookie,
    handle ∈ handles /\ entries v !! handle = Some entry /\ se_delivery entry = DeliverCookie cookie
    /\ entry_released entry context now
    /\ cookie_applies cookie context target now = Ok true
    /\ pair = (ck_name cookie, se_value entry).

Lemma materialize_handles_from v context target now handles all headers pairs headers' pairs' :
  materialize_handles v context target now handles headers pairs = Ok (headers', pairs') ->
  handles ⊆ all ->
  (forall h, h ∈ headers -> header_from v context now all h) ->
  (forall p, p ∈ pairs -> cookie_from v context target now all p) ->
  (forall h, h ∈ headers' -> header_from v context now all h)
  /\ (forall p, p ∈ pairs' -> cookie_from v context target now all p)
  /\ (forall handle, handle ∈ handles -> is_Some (entries v !! handle)).
Proof.
  revert headers pairs. induction handles as [|handle rest IH]; intros headers pairs H Hall Hh Hp; simpl in H.
  { simplify_eq. split_and!; auto. intros ?. set_solver. }
  destruct (entries v !! handle) as [entry|] eqn:He; [|done].
  assert (Hrest : rest ⊆ all) by set_solver. assert (Hin : handle ∈ all) by set_solver.
  enough (Hgo : (forall h, h ∈ headers' -> header_from v context now all h)
    /\ (forall p, p ∈ pairs' -> cookie_from v context target now all p)
    /\ (forall handle, handle ∈ rest -> is_Some (entries v !! handle))).
  { destruct Hgo as (? & ? & ?). split_and!; auto. intros x [->|Hx]%elem_of_cons; eauto. }
  destruct (se_delivery entry) as [cookie|name prefix] eqn:Hd.
  - destruct (validate_entry_identity entry context now) as [[]|] eqn:Hi; [|done].
    match type of H with
    | context [match ?e with Ok _ => _ | Err _ => _ end] => destruct e as [applies|] eqn:Ha; [|done]
    end.
    apply (IH _ _ H Hrest Hh). intros p. destruct applies; [|by apply Hp].
    intros [?|Hx%list_elem_of_singleton]%elem_of_app; [by apply Hp|]. subst p.
    destruct (_ && _) eqn:Hb; [|done]. bools.
    exists handle, entry, cookie. split_and!; auto. by apply identity_released.
  - destruct (validate_entry_access entry context now) as [[]|] eqn:Hi; [|done].
    destruct (validate_header_value _) as [[]|] eqn:Hv; [|done].
    apply (IH _ _ H Hrest); [|done].
    intros h [?|Hx%list_elem_of_singleton]%elem_of_app; [by apply Hh|]. subst h.
    exists handle, entry, name, prefix. split_and!; auto. by apply access_released.
Qed.

(** ** What is materialised fits on the wire *)

Definition emittable (header : MaterializedHeader) : Prop :=
  validate_header_name (mh_wire_name header) = Ok tt /\ validate_header_value (mh_value header) = Ok tt.

Lemma append_headers_emits headers wire redacted :
  Forall emittable headers ->
  append_headers headers wire redacted
    = (Ok tt, (wire ++ concat (wire_line <$> headers), redacted ++ concat (redacted_line <$> headers))).
Proof.
  intros Hf. revert wire redacted.
  induction Hf as [|h hs [Hn Hv] _ IH]; intros wire redacted; simpl; [by rewrite !app_nil_r|].
  rewrite Hn, Hv, IH. by rewrite !(assoc_L (++)).
Qed.

Lemma header_value_ok value : validate_header_value value = Ok tt <-> existsb is_prohibited_control value = false.
Proof. unfold validate_header_value. destruct (existsb _ _); naive_solver. Qed.

Lemma token_not_prohibited c : is_token_byte c = true -> is_prohibited_control c = false.
Proof. byte_cases c. Qed.

Lemma token_value name : forallb is_token_byte name = true -> existsb is_prohibited_control name = false.
Proof.
  intros H. apply not_true_iff_false. intros (c & Hc & Hp)%existsb_elem.
  rewrite forallb_elem in H. specialize (H c Hc). apply token_not_prohibited in H. congruence.
Qed.

Lemma existsb_join (p : byte -> bool) sep l :
  existsb p sep = false -> Forall (fun s => existsb p s = false) l -> existsb p (join sep l) = false.
Proof.
  intros Hsep Hl. induction Hl as [|x l Hx Hl IH]; [done|]. simpl. destruct l; [done|].
  rewrite !existsb_app, Hx, Hsep. done.
Qed.

(** A valid input makes an emittable header or a harmless cookie pair. *)
Lemma input_value input now :
  validate_secret_input input now = Ok tt -> validate_header_value (in_value input) = Ok tt.
Proof.
  unfold validate_secret_input. intros H. destruct (_ || _); [done|].
  by destruct (validate_header_value _) as [[]|] eqn:E.
Qed.

Lemma input_header input now name prefix :
  validate_secret_input input now = Ok tt -> in_delivery input = DeliverHeader name prefix ->
  validate_header_name name = Ok tt /\ validate_header_value prefix = Ok tt
  /\ is_protocol_managed_header (to_ascii_lowercase name) = false.
Proof.
  unfold validate_secret_input. intros H Hd. rewrite Hd in H.
  destruct (_ || _); [done|]. destruct (validate_header_value (in_value input)) as [[]|]; [|done].
  destruct (normalized_binding _); [|done]. destruct (expired_at _ _); [done|].
  destruct (in_kind input); [done| | |];
    destruct (validate_header_name name) as [[]|] eqn:E; try done;
    destruct (is_protocol_managed_header _); done.
Qed.

Lemma input_cookie input now cookie :
  validate_secret_input input now = Ok tt -> in_delivery input = DeliverCookie cookie ->
  forallb is_token_byte (ck_name cookie) = true.
Proof.
  unfold validate_secret_input. intros H Hd. rewrite Hd in H.
  destruct (_ || _); [done|]. destruct (validate_header_value (in_value input)) as [[]|]; [|done].
  destruct (normalized_binding _); [|done]. destruct (expired_at _ _); [done|].
  destruct (in_kind input); try done. unfold validate_cookie in H. inv_ok H. by bools.
Qed.

(** ** Normalised names are fixed points *)

Lemma trim_dots_id h : ends_with h "." = false -> trim_end_matches (is_byte 46) h = h.
Proof.
  unfold ends_with, trim_end_matches. intros H. rewrite <- (reverse_involutive h) at 2. f_equal.
  destruct (reverse h) as [|c r]; [done|]. simpl in H |- *. rewrite andb_true_r in H. bools.
  destruct (is_byte 46 c) eqn:E; [|done]. destruct H. apply N_of_ascii_inj.
  unfold is_byte in E. by bools.
Qed.

Lemma vault_normalize_host_idemp host h :
  vault_normalize_host host = Ok h -> vault_normalize_host h = Ok h.
Proof.
  unfold vault_normalize_host. intros H. inv_ok H.
  set (h := to_ascii_lowercase _) in *.
  assert (E : to_ascii_lowercase (trim_end_matches (is_byte 46) h) = h); [|by rewrite E, Heqb].
  rewrite trim_dots_id; [apply to_ascii_lowercase_idemp|]. by bools.
Qed.

Lemma vault_normalize_scheme_idemp scheme s :
  vault_normalize_scheme scheme = Ok s -> vault_normalize_scheme s = Ok s.
Proof.
  unfold vault_normalize_scheme. intros H. inv_ok H. by rewrite to_ascii_lowercase_idemp, Heqb.
Qed.

Lemma normalized_context_normal context ctx :
  normalized_context context = Ok ctx ->
  vault_normalize_host (vc_authority ctx) = Ok (vc_authority ctx)
  /\ vault_normalize_scheme (vc_scheme ctx) = Ok (vc_scheme ctx).
Proof.
  unfold normalized_context. intros H. inv_ok H. simpl.
  eauto using vault_normalize_host_idemp, vault_normalize_scheme_idemp.
Qed.

(** The leases of a vault are bound to normalised authorities and schemes. *)
Definition leases_normal (v : InMemorySecretVault) : Prop :=
  forall id s, leases v !! id = Some s ->
    vault_normalize_host (vc_authority (ls_context s)) = Ok (vc_authority (ls_context s))
    /\ vault_normalize_scheme (vc_scheme (ls_context s)) = Ok (vc_scheme (ls_context s)).

Lemma trace_leases_normal v es v' : vault_trace v es v' -> leases_normal v -> leases_normal v'.
Proof.
  induction 1 as [|v e v1 es v2 Hs Ht IH]; [done|]. intros Hn. apply IH. intros id s Hl.
  destruct (step_leases _ _ _ _ _ Hs Hl) as [(s0 & Hl0 & -> & _)|[[context Hc] _]]; [by eapply Hn|].
  by eapply normalized_context_normal.
Qed.

Lemma vault_new_inv vid v0 :
  vault_new vid = Ok v0 ->
  counters_ok v0 /\ leases_named v0 /\ leases_normal v0 /\ entries v0 = ∅ /\ leases v0 = ∅
  /\ vault_id v0 = vid.
Proof.
  unfold vault_new. intros H. inv_ok H. unfold counters_ok, leases_named, leases_normal. simpl.
  split_and!; try done.
Qed.

(** Provenance in terms of the inserted inputs. *)
Lemma entry_input vid v0 es v h entry :
  vault_new vid = Ok v0 -> vault_trace v0 es v -> entries v !! h = Some entry ->
  inserted_from es h entry.
Proof.
  intros (_ & _ & _ & He & _)%vault_new_inv Ht Hl.
  destruct (trace_entries _ _ _ _ _ Ht Hl) as [Hl0|?]; [|done]. by rewrite He, lookup_empty in Hl0.
Qed.

Lemma header_from_emittable vid v0 es v context now handles header :
  vault_new vid = Ok v0 -> vault_trace v0 es v ->
  header_from v context now handles header -> emittable header.
Proof.
  intros Hnew Ht (handle & entry & name & prefix & _ & Hl & Hd & _ & ->).
  destruct (entry_input _ _ _ _ _ _ Hnew Ht Hl) as (input & at_ & b & _ & Hv & _ & ->). simpl in *.
  destruct (input_header _ _ _ _ Hv Hd) as (Hn & Hp%header_value_ok & _).
  apply input_value, header_value_ok in Hv. split; [done|]. apply header_value_ok. simpl.
  by rewrite existsb_app, Hp, Hv.
Qed.

Lemma cookie_header_emittable vid v0 es v context target now handles pairs :
  vault_new vid = Ok v0 -> vault_trace v0 es v ->
  (forall p, p ∈ pairs -> cookie_from v context target now handles p) ->
  validate_header_value (combine_cookies pairs) = Ok tt.
Proof.
  intros Hnew Ht Hp. apply header_value_ok, existsb_join; [done|]. apply Forall_fmap, Forall_forall.
  intros p (handle & entry & cookie & _ & Hl & Hd & _ & _ & ->)%Hp.
  destruct (entry_input _ _ _ _ _ _ Hnew Ht Hl) as (input & at_ & b & _ & Hv & _ & ->).
  simpl in *. unfold cookie_pair. simpl. rewrite !existsb_app. simpl.
  rewrite (token_value _ (input_cookie _ _ _ Hv Hd)). simpl. by apply input_value, header_value_ok in Hv.
Qed.

Lemma with_cookie_header_elem headers pairs h :
  h ∈ with_cookie_header headers pairs ->
  h ∈ headers
  \/ (pairs <> [] /\ h = {| mh_normalized_name := "cookie"; mh_wire_name := "Cookie";
                            mh_value := combine_cookies pairs |}).
Proof.
  unfold with_cookie_header. case_bool_decide; [by left|].
  intros [?|?%list_elem_of_singleton]%elem_of_app; auto.
Qed.

(** ** Revocation *)

Definition entries_named (v : InMemorySecretVault) : Prop :=
  forall h entry, entries v !! h = Some entry ->
    exists n, n < next_secret_id v /\ h = secret_handle_of (vault_id v) n.

Lemma trace_entries_named v es v' :
  vault_trace v es v' -> counters_ok v -> next_secret_id v' < u64_max ->
  entries_named v -> entries_named v'.
Proof.
  induction 1 as [|v e v1 es v2 Hs Ht IH]; [done|]. intros Hc Hlt Hn.
  destruct (step_counters _ _ _ Hs Hc) as (Hc1 & Hvid & Hle & _).
  destruct (trace_counters _ _ _ Ht Hc1) as (_ & _ & Hle' & _).
  apply IH; [done..|]. intros h entry Hl. rewrite Hvid.
  destruct (step_entries _ _ _ _ _ Hs Hl) as [Hl0|(input & now & b & _ & -> & Hnext & _)].
  - destruct (Hn _ _ Hl0) as (n & ? & ->). exists n. split; [lia|done].
  - exists (next_secret_id v). rewrite Hnext in *. rewrite saturating_succ_exact by lia. split; [lia|done].
Qed.

Lemma trace_secret_gone v es v' h handles hl :
  vault_trace v es v' -> counters_ok v -> secret_gone h v ->
  Materialised handles hl ∈ es -> h ∉ handles.
Proof.
  induction 1 as [|v e v1 es v2 Hs Ht IH]; intros Hc Hg Hin; [set_solver|].
  destruct (step_counters _ _ _ Hs Hc) as (Hc1 & _).
  apply elem_of_cons in Hin as [<-|Hin]; [|by eauto using step_secret_gone].
  intros Hh. destruct Hg as [_ Hno].
  inversion Hs as [| | |lease session target now ? ? lease' ? state Hm Hst| | | |]; subst.
  apply materialize_ok in Hm as (st & hs & ps & (Hl & _)%lease_state_for_ok & Hmh & _). simplify_eq.
  apply (materialize_handles_from _ _ _ _ _ (ls_handles st)) in Hmh as (_ & _ & Hsome);
    [|set_solver..]. destruct (Hsome _ Hh). congruence.
Qed.

End Vault.

(** ** A concrete vault *)

Definition toy_lease_json : JsonLib FingerprintMaterial :=
  {| to_vec '(lease_id, session_id, _, expires, _) :=
       Ok (lease_id ++ ("," : str) ++ session_id ++ ("," : str) ++ decimal_z expires) |}.
Definition toy_vault_json : JsonLib (HashMaterial VaultAuditEvent) := toy_json va_action.

Definition sample_binding : SecretBinding :=
  {| sb_run_id := "run-1"; sb_worker_id := "worker-1"; sb_account_id := "account-a";
     sb_tenant_id := "tenant-a"; sb_role_id := "admin";
     sb_allowed_hosts := {[ ("App.Example.com." : str) ]}; sb_allowed_schemes := {[ ("https" : str) ]} |}.
Definition sample_context : VaultAccessContext :=
  {| vc_run_id := "run-1"; vc_worker_id := "worker-1"; vc_account_id := "account-a";
     vc_tenant_id := "tenant-a"; vc_role_id := "admin"; vc_authority := "app.example.com";
     vc_scheme := "https" |}.
Definition sample_bearer : SecretInput :=
  {| in_kind := KBearerToken; in_value := "token-value"; in_binding := sample_binding;
     in_delivery := DeliverHeader "Authorization" "Bearer ";
     in_expires_at_epoch_seconds := Some 10000%Z |}.
Definition sample_cookie : SecretInput :=
  {| in_kind := KCookie; in_value := "session-value"; in_binding := sample_binding;
     in_delivery := DeliverCookie
       {| ck_name := "sid"; ck_domain := "example.com"; ck_path := "/admin";
          ck_expires_at_epoch_seconds := Some 500%Z; ck_secure := true; ck_http_only := true;
          ck_same_site := SameSiteStrict |};
     in_expires_at_epoch_seconds := Some 500%Z |}.

Definition result_of {A E B} (p : Result A E * B) (d : A) : A :=
  match p.1 with Ok a => a | Err _ => d end.

Section Sample.
Local Existing Instances toy_sha256 toy_vault_json toy_lease_json.

Definition sv0 : InMemorySecretVault :=
  {| vault_id := "fixture-vault"; entries := ∅; leases := ∅; next_secret_id := 1; next_lease_id := 1;
     vault_audit := vault_audit_new "fixture-vault" |}.
Definition sv1 : InMemorySecretVault := (vault_insert sample_bearer 100 sv0).2.
Definition sv2 : InMemorySecretVault := (vault_insert sample_cookie 100 sv1).2.
Definition sh1 : SecretHandle := secret_handle_of "fixture-vault" 1.
Definition sh2 : SecretHandle := secret_handle_of "fixture-vault" 2.
Definition sv3 : InMemorySecretVault := (vault_lease [sh1; sh2] sample_context 30 101 sv2).2.
Definition sample_lease : SecretLease :=
  {| sl_lease_id := lease_id_of "fixture-vault" 1; sl_context := sample_context;
     sl_expires_at_epoch_seconds := 131; sl_consumed := false |}.
Definition sample_materialised : Result SecretHeaderLease VaultError * SecretLease * InMemorySecretVault :=
  match materialize_http_headers sample_lease "session-1" "/admin/users?x=1" 102 sv3 with
  | Done r => r
  | Panic _ => (Err UnknownLease, sample_lease, sv3)
  end.
Definition sv4 : InMemorySecretVault := sample_materialised.2.
Definition sample_headers : SecretHeaderLease :=
  match sample_materialised.1.1 with
  | Ok hl => hl
  | Err _ => {| hl_lease_id := []; hl_session_id := []; hl_authority := []; hl_scheme := [];
                hl_expires_at_epoch_seconds := 0; hl_fingerprint := []; hl_headers := [];
                hl_consumed := true |}
  end.

(** The two secrets arrive on the wire. *)
Example sample_wire :
  concat (wire_line <$> hl_headers sample_headers)
  = ("Authorization: Bearer token-value" : str) ++ CRLF ++ ("Cookie: sid=session-value" : str) ++ CRLF.
Proof. vm_compute. reflexivity. Qed.

Lemma sample_trace : vault_trace sv0 [Inserted sh1 sample_bearer 100; Inserted sh2 sample_cookie 100; Quiet] sv3.
Proof.
  apply trace_cons with sv1; [apply step_inserted, pair_of_fst; vm_compute; reflexivity|].
  apply trace_cons with sv2; [apply step_inserted, pair_of_fst; vm_compute; reflexivity|].
  apply trace_cons with sv3; [|constructor].
  apply (step_lease [sh1; sh2] sample_context 30 101 sv2 (vault_lease [sh1; sh2] sample_context 30 101 sv2).1).
  apply pair_of_fst. reflexivity.
Qed.

Lemma sample_materialises :
  materialize_http_headers sample_lease "session-1" "/admin/users?x=1" 102 sv3
  = Done (Ok sample_headers, use_lease sample_lease, sv4).
Proof. vm_compute. reflexivity. Qed.

Lemma sample_vault_new : vault_new "fixture-vault" = Ok sv0.
Proof. reflexivity. Qed.

Lemma sample_trace_use :
  vault_trace sv0 [Inserted sh1 sample_bearer 100; Inserted sh2 sample_cookie 100; Quiet;
                   Materialised [sh1; sh2] sample_headers] sv4.
Proof.
  apply (trace_snoc _ _ _ _ _ sample_trace).
  refine (step_materialised sample_lease "session-1" "/admin/users?x=1" 102 sv3 _ _ _
    {| ls_handles := [sh1; sh2]; ls_context := sample_context; ls_expires_at_epoch_seconds := 131;
       ls_consumed := false; ls_revoked := false |} sample_materialises _).
  vm_compute. reflexivity.
Qed.

End Sample.

(** ** Properties *)

(** C6: a secret is only released to the context it was bound to: every header of
    a materialised lease carries a secret that was inserted earlier in the
    vault's life, whose binding names exactly the run, worker, account, tenant
    and role of the lease's context and allows its host and scheme, and that has
    not expired; the value on the wire is the declared prefix followed by the
    secret, or the list of the cookies that apply to the host, path and scheme. *)
Theorem materialised_secrets_are_bound `{Sha256Lib} `{JsonLib (HashMaterial VaultAuditEvent)}
    `{JsonLib FingerprintMaterial} vid v0 es v lease session target now hl lease' v' :
  vault_new vid = Ok v0 -> vault_trace v0 es v ->
  materialize_http_headers lease session target now v = Done (Ok hl, lease', v') ->
  let context := sl_context lease in
  let bound input := exists handle inserted_at binding,
    Inserted handle input inserted_at ∈ es
    /\ normalized_binding (in_binding input) = Ok binding
    /\ released binding (in_expires_at_epoch_seconds input) context now in
  hl_authority hl = vc_authority context /\ hl_scheme hl = vc_scheme context
  /\ (now < hl_expires_at_epoch_seconds hl)%Z
  /\ forall header, header ∈ hl_headers hl ->
      (exists input name prefix,
         bound input /\ in_delivery input = DeliverHeader name prefix
         /\ is_protocol_managed_header (to_ascii_lowercase name) = false
         /\ header = {| mh_normalized_name := to_ascii_lowercase name; mh_wire_name := name;
                        mh_value := prefix ++ in_value input |})
      \/ (exists pairs,
         pairs <> [] /\ header = {| mh_normalized_name := "cookie"; mh_wire_name := "Cookie";
                                   mh_value := combine_cookies pairs |}
         /\ forall pair, pair ∈ pairs -> exists input cookie,
              bound input /\ in_delivery input = DeliverCookie cookie
              /\ cookie_applies cookie context target now = Ok true
              /\ pair = (ck_name cookie, in_value input)).
Proof.
  intros Hnew Ht (state & headers & pairs & Hs & Hm & Hh & _ & _ & Ha & Hsc & He & _)%materialize_ok.
  apply lease_state_for_ok in Hs as (Hl & _ & _ & Hlt & Hctx). rewrite Hctx in *. rewrite Ha, Hsc, He, Hh.
  intros context bound. split_and!; [done|done|done|].
  apply (materialize_handles_from _ _ _ _ _ (ls_handles state)) in Hm as (Hfrom & Hcook & _);
    [|set_solver..].
  intros header [(handle & entry & name & prefix & _ & Hent & Hd & Hrel & ->)%Hfrom|[Hne ->]]%with_cookie_header_elem.
  - left. destruct (entry_input _ _ _ _ _ _ Hnew Ht Hent) as (input & at_ & b & Hin & Hv & Hb & ->).
    simpl in *. exists input, name, prefix. destruct (input_header _ _ _ _ Hv Hd) as (_ & _ & ?).
    split_and!; auto. exists handle, at_, b. auto.
  - right. exists pairs. split_and!; auto.
    intros pair (handle & entry & cookie & _ & Hent & Hd & Hrel & Happ & ->)%Hcook.
    destruct (entry_input _ _ _ _ _ _ Hnew Ht Hent) as (input & at_ & b & Hin & Hv & Hb & ->).
    simpl in *. exists input, cookie. split_and!; auto. exists handle, at_, b. auto.
Qed.

(** A secret lease materialises at most once: along any sequence of
    operations on a new vault, whatever lease objects the clients present, no two
    materialisations carry the same lease identifier (as long as the 64-bit
    identifier counter has not saturated). *)
Theorem secret_leases_are_single_use `{Sha256Lib} `{JsonLib (HashMaterial VaultAuditEvent)}
    `{JsonLib FingerprintMaterial} vid v0 es v :
  vault_new vid = Ok v0 -> vault_trace v0 es v -> next_lease_id v < u64_max ->
  NoDup (materialised_ids es).
Proof.
  intros (Hc & Hn & _)%vault_new_inv Ht Hlt. by apply (trace_spent _ _ _ Ht Hc Hn Hlt).
Qed.

(** Revocation is final: once a stored secret is revoked, or the vault is
    purged, no lease materialised afterwards draws on it, including leases issued
    before, and its handle is never given to another secret (as long as the
    64-bit identifier counter has not saturated). *)
Theorem revoked_secret_never_materialises `{Sha256Lib} `{JsonLib (HashMaterial VaultAuditEvent)}
    `{JsonLib FingerprintMaterial} vid v0 es v h entry r v1 es' v2 :
  vault_new vid = Ok v0 -> vault_trace v0 es v -> next_secret_id v < u64_max ->
  entries v !! h = Some entry ->
  revoke_secret h v = (r, v1) \/ emergency_purge v = (r, v1) ->
  vault_trace v1 es' v2 ->
  entries v2 !! h = None
  /\ forall handles hl, Materialised handles hl ∈ es' -> h ∉ handles.
Proof.
  intros Hnew Ht Hlt Hent Hrev Ht2. apply vault_new_inv in Hnew as (Hc & _ & _ & He & _).
  destruct (trace_counters _ _ _ Ht Hc) as (Hcv & _).
  destruct (trace_entries_named _ _ _ Ht Hc Hlt) with h entry as (n & Hn & ->); [by unfold entries_named; rewrite He|done|].
  set (h := secret_handle_of _ n) in *.
  assert (vault_step v Quiet v1) as Hs by (destruct Hrev; [by eapply step_revoke_secret | by eapply step_purge]).
  destruct (step_counters _ _ _ Hs Hcv) as (Hc1 & Hvid & Hle & _).
  assert (Hg : secret_gone h v1).
  { split; [exists n; rewrite Hvid; split; [lia|done]|].
    destruct Hrev as [(_ & _ & _ & -> & _)%revoke_secret_inv|(_ & _ & _ & -> & _)%emergency_purge_inv];
      [apply lookup_delete_eq | apply lookup_empty]. }
  split; [|intros handles hl; by eapply trace_secret_gone].
  clear -Ht2 Hg Hc1. induction Ht2 as [|w e w1 es w2 Hs Ht IH]; [by destruct Hg|].
  apply IH; [by apply (step_counters _ _ _ Hs) | by eapply step_secret_gone].
Qed.

(** C38: a materialised lease reaches the wire: presented in time for its own
    authority and scheme it yields its batch, and the batch is written in full,
    each header followed by its redacted copy, without an error. *)
Theorem materialised_lease_reaches_the_wire `{Sha256Lib} `{JsonLib (HashMaterial VaultAuditEvent)}
    `{JsonLib FingerprintMaterial} vid v0 es v lease session target now hl lease' v' later wire redacted :
  vault_new vid = Ok v0 -> vault_trace v0 es v ->
  materialize_http_headers lease session target now v = Done (Ok hl, lease', v') ->
  (later < hl_expires_at_epoch_seconds hl)%Z ->
  exists batch hl' batch',
    take_for (hl_authority hl) (hl_scheme hl) later hl = (Ok batch, hl')
    /\ append_http1 wire redacted batch
       = (Ok tt, (wire ++ concat (wire_line <$> hl_headers hl),
                  redacted ++ concat (redacted_line <$> hl_headers hl)), batch').
Proof.
  intros Hnew Ht (state & headers & pairs & Hs & Hm & Hh & _ & _ & Ha & Hsc & He & Hcons)%materialize_ok Hlater.
  apply lease_state_for_ok in Hs as (Hl & _).
  destruct (trace_leases_normal _ _ _ Ht) with (sl_lease_id lease) state as [Hna Hns];
    [by apply (vault_new_inv _ _ Hnew) | done |].
  unfold take_for. rewrite Hcons, Ha, Hsc, Hna, Hns. rewrite (proj2 (Z.leb_gt _ _)) by lia.
  rewrite !bool_decide_eq_true_2 by done. simpl. do 3 eexists. split; [reflexivity|].
  unfold append_http1. simpl. rewrite append_headers_emits; [reflexivity|].
  apply (materialize_handles_from _ _ _ _ _ (ls_handles state)) in Hm as (Hfrom & Hcook & _);
    [|set_solver..].
  apply Forall_forall. rewrite Hh. intros h [Hf|[_ ->]]%with_cookie_header_elem.
  - by eapply header_from_emittable, Hfrom.
  - split; [done|]. by eapply cookie_header_emittable.
Qed.

(** ** Witnesses *)

Section Witnesses.
Local Existing Instances toy_sha256 toy_vault_json toy_lease_json.

Lemma materialised_secrets_are_bound_witness :
  hl_authority sample_headers = vc_authority sample_context
  /\ exists header, header ∈ hl_headers sample_headers /\ mh_wire_name header = "Cookie".
Proof.
  split.
  - by apply (materialised_secrets_are_bound _ _ _ _ _ _ _ _ _ _ _ sample_vault_new sample_trace
                sample_materialises).
  - exists {| mh_normalized_name := "cookie"; mh_wire_name := "Cookie"; mh_value := "sid=session-value" |}.
    split; [|reflexivity]. apply list_elem_of_lookup_2 with 1%nat. vm_compute. reflexivity.
Defined.

Lemma secret_leases_are_single_use_witness :
  NoDup (materialised_ids [Inserted sh1 sample_bearer 100; Inserted sh2 sample_cookie 100; Quiet;
                           Materialised [sh1; sh2] sample_headers])
  /\ next_lease_id sv4 = 2.
Proof.
  split; [|vm_compute; reflexivity].
  apply (secret_leases_are_single_use _ _ _ _ sample_vault_new sample_trace_use). vm_compute. reflexivity.
Defined.

Lemma revoked_secret_never_materialises_witness :
  entries (revoke_secret sh1 sv3).2 !! sh1 = None /\ is_Some (entries sv3 !! sh1).
Proof.
  assert (Hsome : is_Some (entries sv3 !! sh1)) by (vm_compute; eauto).
  split; [|exact Hsome]. destruct Hsome as [entry He].
  apply (revoked_secret_never_materialises _ _ _ _ sh1 entry (revoke_secret sh1 sv3).1
    (revoke_secret sh1 sv3).2 [] (revoke_secret sh1 sv3).2 sample_vault_new sample_trace);
    [vm_compute; reflexivity | exact He | left; by apply pair_of_fst | constructor].
Defined.

Lemma materialised_lease_reaches_the_wire_witness :
  exists batch hl' batch',
    take_for (hl_authority sample_headers) (hl_scheme sample_headers) 103 sample_headers = (Ok batch, hl')
    /\ append_http1 [] [] batch
       = (Ok tt, ([] ++ concat (wire_line <$> hl_headers sample_headers),
                  [] ++ concat (redacted_line <$> hl_headers sample_headers)), batch').
Proof.
  apply (materialised_lease_reaches_the_wire _ _ _ _ _ _ _ _ _ _ _ 103 [] [] sample_vault_new sample_trace
    sample_materialises). vm_compute. reflexivity.
Defined.

End Witnesses.
