(* ===== verification/Http1.v ===== *)
(** * Http1: the HTTP/1 response parser

    Models [src/crates/nxb-http1/src/model.rs] (limits, messages, errors) and
    [parser.rs]: header blocks, framing and chunked bodies.  The parser runs on
    the bytes received so far, again after every read.  A slice out of range
    and an exhausted loop bound are both [Panic], so that the totality theorem
    excludes them together.  [usize] is 64 bits wide. *)

From S2P Require Import Prelude ByteStr HashChain HttpSyntax Stream Vault.
Local Open Scope N_scope.

(** ** Limits and messages ([model.rs]) *)

Definition MAX_HTTP_HEADER_BYTES : N := 256 * 1024.
Definition MAX_HTTP_HEADERS : N := 512.
Definition MAX_HTTP_BODY_BYTES : N := 64 * 1024 * 1024.
Definition MAX_HTTP_CHUNKS : N := 65536.
Definition MAX_HTTP_TRAILER_BYTES : N := 64 * 1024.
Definition MAX_HTTP_INTERIM_RESPONSES : N := 32.
Definition MAX_HTTP_OPERATION_BYTES : N := 64 * 1024.
Definition MAX_HTTP_BACKPRESSURE_EVENTS : N := 1024.
Definition MAX_HTTP_WIRE_BYTES : N := 96 * 1024 * 1024.

Record Http1Limits : Type := {
  maximum_request_header_bytes : N;
  maximum_response_header_bytes : N;
  maximum_header_count : N;
  maximum_header_name_bytes : N;
  maximum_header_value_bytes : N;
  maximum_request_body_bytes : N;
  maximum_response_body_bytes : N;
  maximum_chunk_bytes : N;
  maximum_chunk_count : N;
  maximum_trailer_bytes : N;
  maximum_trailer_count : N;
  maximum_interim_responses : N;
  io_operation_bytes : N;
  maximum_backpressure_events : N;
  maximum_response_wire_bytes : N
}.

Definition http1_conservative_default : Http1Limits :=
  {| maximum_request_header_bytes := 32 * 1024;
     maximum_response_header_bytes := 64 * 1024;
     maximum_header_count := 128;
     maximum_header_name_bytes := 128;
     maximum_header_value_bytes := 8 * 1024;
     maximum_request_body_bytes := 2 * 1024 * 1024;
     maximum_response_body_bytes := 8 * 1024 * 1024;
     maximum_chunk_bytes := 1024 * 1024;
     maximum_chunk_count := 4096;
     maximum_trailer_bytes := 16 * 1024;
     maximum_trailer_count := 32;
     maximum_interim_responses := 8;
     io_operation_bytes := 16 * 1024;
     maximum_backpressure_events := 32;
     maximum_response_wire_bytes := 16 * 1024 * 1024 |}.

Record Http1Header : Type := { hh_name : str; hh_value : str }.

Record Http1Request : Type := {
  hq_method : str;
  hq_target : str;
  hq_headers : list Http1Header;
  hq_body : str
}.

Inductive Http1Version : Type := Http10 | Http11.

Definition version_code (version : Http1Version) : str :=
  match version with Http10 => "http_1_0" | Http11 => "http_1_1" end.

Inductive Http1Framing : Type :=
  | NoBody
  | ContentLength (length : N)
  | Chunked
  | ConnectionClose.

Definition framing_code (framing : Http1Framing) : str :=
  match framing with
  | NoBody => "no_body"
  | ContentLength _ => "content_length"
  | Chunked => "chunked"
  | ConnectionClose => "connection_close"
  end.

Record Http1Response : Type := {
  hr_version : Http1Version;
  hr_status_code : N;
  hr_reason : str;
  hr_headers : list Http1Header;
  hr_trailers : list Http1Header;
  hr_body : str;
  hr_framing : Http1Framing;
  hr_interim_responses : N
}.

Inductive Http1Error : Type :=
  | Http1InvalidLimits (message : str)
  | InvalidRequest (message : str)
  | InvalidResponse (message : str)
  | TruncatedResponse (message : str)
  | Http1Stream (error : StreamError)
  | Http1StreamState (state : StreamState)
  | StreamOutcome (outcome : StreamOperationOutcome)
  | BackpressureBudgetExceeded
  | ExchangeAlreadyCompleted
  | SecretHeaders (error : VaultError)
  | Http1Audit (error : ChainError)
  | Http1StreamAudit (error : ChainError).

Definition validate_nonzero_cap (value cap : N) (name : str) : Result unit Http1Error :=
  if (value =? 0) || (cap <? value)
  then Err (Http1InvalidLimits (name ++ (" is outside the supported range" : str)))
  else Ok tt.

Definition http1_limits_validate (self : Http1Limits) : Result Http1Limits Http1Error :=
  let? _ := validate_nonzero_cap (maximum_request_header_bytes self) MAX_HTTP_HEADER_BYTES
              "request_header_bytes" in
  let? _ := validate_nonzero_cap (maximum_response_header_bytes self) MAX_HTTP_HEADER_BYTES
              "response_header_bytes" in
  let? _ := validate_nonzero_cap (maximum_header_count self) MAX_HTTP_HEADERS "header_count" in
  let? _ := validate_nonzero_cap (maximum_header_name_bytes self) 1024 "header_name_bytes" in
  let? _ := validate_nonzero_cap (maximum_header_value_bytes self) MAX_HTTP_HEADER_BYTES
              "header_value_bytes" in
  let? _ := validate_nonzero_cap (maximum_request_body_bytes self) MAX_HTTP_BODY_BYTES
              "request_body_bytes" in
  let? _ := validate_nonzero_cap (maximum_response_body_bytes self) MAX_HTTP_BODY_BYTES
              "response_body_bytes" in
  let? _ := validate_nonzero_cap (maximum_chunk_bytes self) (maximum_response_body_bytes self)
              "chunk_bytes" in
  let? _ := validate_nonzero_cap (maximum_chunk_count self) MAX_HTTP_CHUNKS "chunk_count" in
  let? _ := validate_nonzero_cap (maximum_trailer_bytes self) MAX_HTTP_TRAILER_BYTES
              "trailer_bytes" in
  let? _ := validate_nonzero_cap (maximum_trailer_count self) (maximum_header_count self)
              "trailer_count" in
  let? _ := validate_nonzero_cap (maximum_interim_responses self) MAX_HTTP_INTERIM_RESPONSES
              "interim_responses" in
  let? _ := validate_nonzero_cap (io_operation_bytes self) MAX_HTTP_OPERATION_BYTES
              "io_operation_bytes" in
  let? _ := validate_nonzero_cap (maximum_backpressure_events self) MAX_HTTP_BACKPRESSURE_EVENTS
              "backpressure_events" in
  let? _ := validate_nonzero_cap (maximum_response_wire_bytes self) MAX_HTTP_WIRE_BYTES
              "response_wire_bytes" in
  if maximum_response_wire_bytes self <? maximum_response_body_bytes self
  then Err (Http1InvalidLimits "response wire budget must cover response body budget")
  else Ok self.

(** ** Lines and fields ([parser.rs]) *)

Definition find_double_crlf (bytes : str) : option N :=
  (fun i => i + 4) <$> find_window (CRLF ++ CRLF) bytes.

Definition find_crlf (bytes : str) : option N := find_window CRLF bytes.

(** The loop of [validate_crlf_block]; [previous] is [bytes[index - 1]]. *)
Fixpoint validate_crlf_from (previous : option byte) (bytes : str) : Result unit Http1Error :=
  match bytes with
  | [] => Ok tt
  | c :: rest =>
      if is_byte 10 c && negb (from_option (is_byte 13) false previous)
      then Err (InvalidResponse "bare LF is prohibited")
      else if is_byte 13 c && negb (from_option (is_byte 10) false (head rest))
      then Err (InvalidResponse "bare CR is prohibited")
      else validate_crlf_from (Some c) rest
  end.
Definition validate_crlf_block (bytes : str) : Result unit Http1Error := validate_crlf_from None bytes.

Fixpoint split_crlf_loop (fuel : nat) (bytes : str) : Run (list str) :=
  match fuel with
  | O => Panic "loop bound"
  | S fuel' =>
      match find_crlf bytes with
      | Some i =>
          let! line := slice 0 i bytes in
          let! rest := slice (i + 2) (len bytes) bytes in
          let! lines := split_crlf_loop fuel' rest in
          Done (line :: lines)
      | None => Done [bytes]
      end
  end.
Definition split_crlf (bytes : str) : Run (list str) := split_crlf_loop (S (length bytes)) bytes.

Definition is_ows (c : byte) : bool := is_byte 32 c || is_byte 9 c.
Definition trim_ows (value : str) : str := trim_end_matches is_ows (drop_while is_ows value).

Definition validate_field_value (value : str) : Result unit Http1Error :=
  if existsb is_prohibited_control value
  then Err (InvalidResponse "header value contains prohibited control bytes") else Ok tt.

Definition validate_reason_phrase (value : str) : Result unit Http1Error :=
  if existsb is_prohibited_control value
  then Err (InvalidResponse "reason phrase contains prohibited control bytes") else Ok tt.

Definition is_prohibited_trailer (name : str) : bool :=
  existsb (fun n : str => bool_decide (name = n))
    ["content-length" : str; "transfer-encoding" : str; "host" : str; "connection" : str;
     "trailer" : str; "upgrade" : str; "proxy-connection" : str].

Definition parse_status_line (line : str) : Run (Result (Http1Version * N * str) Http1Error) :=
  if contains_byte 9 line then Done (Err (InvalidResponse "status line contains horizontal tab"))
  else match position (is_byte 32) line with
  | None => Done (Err (InvalidResponse "status line is missing status code"))
  | Some first_space =>
      let! version_text := slice 0 first_space line in
      let!? version :=
        Done (if bool_decide (version_text = "HTTP/1.0") then Ok Http10
              else if bool_decide (version_text = "HTTP/1.1") then Ok Http11
              else Err (InvalidResponse "unsupported or malformed HTTP version")) in
      let! remainder := slice (first_space + 1) (len line) line in
      match remainder with
      | a :: b :: c :: more =>
          if negb (is_ascii_digit a && is_ascii_digit b && is_ascii_digit c)
          then Done (Err (InvalidResponse "status code must contain exactly three digits"))
          else if match more with d :: _ => negb (is_byte 32 d) | [] => false end
          then Done (Err (InvalidResponse "status code must be followed by a single space"))
          else
            let status_code := digit_value a * 100 + digit_value b * 10 + digit_value c in
            if negb ((100 <=? status_code) && (status_code <=? 999))
            then Done (Err (InvalidResponse "status code is outside the supported range"))
            else match more with
            | _ :: value =>
                let!? _ := Done (validate_reason_phrase value) in
                Done (Ok (version, status_code, value))
            | [] => Done (Ok (version, status_code, []))
            end
      | _ => Done (Err (InvalidResponse "status code must contain exactly three digits"))
      end
  end.

(** The body of the loop of [parse_header_lines], for one line. *)
Definition parse_header_line (limits : Http1Limits) (trailers : bool) (line : str)
    : Run (Result Http1Header Http1Error) :=
  if len line =? 0 then Done (Err (InvalidResponse "unexpected empty header line"))
  else if from_option is_ows false (head line)
  then Done (Err (InvalidResponse "obsolete folded headers are prohibited"))
  else match position (is_byte 58) line with
  | None => Done (Err (InvalidResponse "header is missing colon"))
  | Some colon =>
      if colon =? 0 then Done (Err (InvalidResponse "header name is empty"))
      else
        let! name := slice 0 colon line in
        if maximum_header_name_bytes limits <? len name
        then Done (Err (InvalidResponse "header name exceeds configured limit"))
        else if negb (forallb is_token_byte name)
        then Done (Err (InvalidResponse
               "header name contains invalid bytes or whitespace before colon"))
        else
          let name := to_ascii_lowercase name in
          if trailers && is_prohibited_trailer name
          then Done (Err (InvalidResponse (("prohibited trailer field: " : str) ++ name)))
          else
            let! after := slice (colon + 1) (len line) line in
            let value := trim_ows after in
            if maximum_header_value_bytes limits <? len value
            then Done (Err (InvalidResponse "header value exceeds configured limit"))
            else
              let!? _ := Done (validate_field_value value) in
              Done (Ok {| hh_name := name; hh_value := value |})
  end.

Fixpoint parse_each_line (limits : Http1Limits) (trailers : bool) (lines : list str)
    : Run (Result (list Http1Header) Http1Error) :=
  match lines with
  | [] => Done (Ok [])
  | line :: rest =>
      let!? header := parse_header_line limits trailers line in
      let!? headers := parse_each_line limits trailers rest in
      Done (Ok (header :: headers))
  end.

Definition parse_header_lines (lines : list str) (limits : Http1Limits) (trailers : bool)
    : Run (Result (list Http1Header) Http1Error) :=
  if (if trailers then maximum_trailer_count limits else maximum_header_count limits) <? len lines
  then Done (Err (InvalidResponse (if trailers then "trailer count exceeds configured limit"
                                   else "header count exceeds configured limit")))
  else parse_each_line limits trailers lines.

(** ** Framing *)

(** The numbers of one [Content-Length] value, a comma-separated list. *)
Definition content_length_component (component : str) : Result N Http1Error :=
  let component := trim_matches is_ows component in
  if (len component =? 0) || negb (forallb is_ascii_digit component)
  then Err (InvalidResponse "Content-Length contains a non-decimal value")
  else if u64_max <? decimal_value component
  then Err (InvalidResponse "Content-Length integer overflow")
  else Ok (decimal_value component).

Definition content_length_values (header : Http1Header) : Result (list N) Http1Error :=
  if from_utf8_ok (hh_value header)
  then collect_results content_length_component (split_byte 44 (hh_value header))
  else Err (InvalidResponse "Content-Length must contain ASCII digits").

Definition has_name (name : str) (header : Http1Header) : bool := bool_decide (hh_name header = name).

Definition parse_content_length (headers : list Http1Header) : Result (option N) Http1Error :=
  let? values :=
    collect_results content_length_values (List.filter (has_name "content-length") headers) in
  match concat values with
  | [] => Ok None
  | first :: rest =>
      if existsb (fun value => negb (value =? first)) (first :: rest)
      then Err (InvalidResponse "conflicting Content-Length values")
      else Ok (Some first)
  end.

Definition transfer_encoding_component (component : str) : Result str Http1Error :=
  let token := to_ascii_lowercase (trim_matches is_ows component) in
  if (len token =? 0) || negb (forallb is_token_byte token)
  then Err (InvalidResponse "Transfer-Encoding contains an invalid token")
  else Ok token.

Definition transfer_encoding_tokens (header : Http1Header) : Result (list str) Http1Error :=
  if from_utf8_ok (hh_value header)
  then collect_results transfer_encoding_component (split_byte 44 (hh_value header))
  else Err (InvalidResponse "Transfer-Encoding must be ASCII").

Definition parse_transfer_encoding (headers : list Http1Header) : Result bool Http1Error :=
  let? tokens :=
    collect_results transfer_encoding_tokens (List.filter (has_name "transfer-encoding") headers) in
  match concat tokens with
  | [] => Ok false
  | [token] =>
      if bool_decide (token = "chunked") then Ok true
      else Err (InvalidResponse "only one final chunked transfer coding is supported")
  | _ => Err (InvalidResponse "only one final chunked transfer coding is supported")
  end.

Definition is_interim (status_code : N) : bool := (100 <=? status_code) && (status_code <? 200).

Definition determine_framing (request_method : str) (version : Http1Version) (status_code : N)
    (headers : list Http1Header) : Result Http1Framing Http1Error :=
  if eq_ignore_ascii_case request_method "HEAD" || is_interim status_code
     || ((status_code =? 204) || (status_code =? 304))
  then Ok NoBody
  else
    let? content_length := parse_content_length headers in
    let? transfer_encoding := parse_transfer_encoding headers in
    if bool_decide (is_Some content_length) && transfer_encoding
    then Err (InvalidResponse "Transfer-Encoding and Content-Length cannot coexist")
    else if transfer_encoding then
      match version with
      | Http11 => Ok Chunked
      | Http10 => Err (InvalidResponse "chunked transfer coding requires HTTP/1.1")
      end
    else match content_length with
    | Some length => Ok (ContentLength length)
    | None => Ok ConnectionClose
    end.

(** ** Chunked bodies *)

Record ParsedBody : Type := {
  pb_body : str;
  pb_trailers : list Http1Header;
  pb_consumed : N
}.

(** After the zero chunk: the trailer block that starts at [cursor]. *)
Definition parse_trailers (bytes : str) (eof : bool) (limits : Http1Limits)
    (cursor : N) (decoded : str) : Run (Result (option ParsedBody) Http1Error) :=
  if saturating_sub (len bytes) cursor <? 2 then
    if eof
    then Done (Err (TruncatedResponse "zero chunk was not followed by a trailer terminator"))
    else Done (Ok None)
  else
    let! terminator := slice cursor (cursor + 2) bytes in
    if bool_decide (terminator = CRLF)
    then Done (Ok (Some {| pb_body := decoded; pb_trailers := []; pb_consumed := cursor + 2 |}))
    else
      let! rest := slice cursor (len bytes) bytes in
      match find_double_crlf rest with
      | None =>
          if maximum_trailer_bytes limits <? saturating_sub (len bytes) cursor
          then Done (Err (InvalidResponse "trailer block exceeds configured limit"))
          else if eof
          then Done (Err (TruncatedResponse "trailer block ended before CRLFCRLF"))
          else Done (Ok None)
      | Some value =>
          let trailer_end := cursor + value in
          let! trailer_block := slice cursor trailer_end bytes in
          if maximum_trailer_bytes limits <? len trailer_block
          then Done (Err (InvalidResponse "trailer block exceeds configured limit"))
          else
            let!? _ := Done (validate_crlf_block trailer_block) in
            let! last := usize_sub (len trailer_block) 4 in
            let! text := slice 0 last trailer_block in
            let! trailer_lines := split_crlf text in
            let!? trailers := parse_header_lines trailer_lines limits true in
            Done (Ok (Some {| pb_body := decoded; pb_trailers := trailers;
                              pb_consumed := trailer_end |}))
      end.

(** The chunk-size line at [cursor]: the cursor after its CRLF, and the size. *)
Definition chunk_size_line (bytes : str) (eof : bool) (cursor : N)
    : Run (Result (option (N * N)) Http1Error) :=
  let! rest := slice cursor (len bytes) bytes in
  match find_crlf rest with
  | None =>
      if 128 <? saturating_sub (len bytes) cursor
      then Done (Err (InvalidResponse "chunk-size line exceeds 128 bytes"))
      else if eof then Done (Err (TruncatedResponse "chunk-size line ended before CRLF"))
      else Done (Ok None)
  | Some value =>
      let line_end := cursor + value in
      let! line := slice cursor line_end bytes in
      if contains_byte 59 line
      then Done (Err (InvalidResponse "chunk extensions are intentionally unsupported"))
      else if (len line =? 0) || (16 <? len line) || negb (forallb is_ascii_hexdigit line)
      then Done (Err (InvalidResponse "chunk size must be 1-16 hexadecimal digits"))
      else if negb (from_utf8_ok line)
      then Done (Err (InvalidResponse "chunk size must be ASCII"))
      else if u64_max <? hex_number line
      then Done (Err (InvalidResponse "chunk size overflow"))
      else Done (Ok (Some (line_end + 2, hex_number line)))
  end.

(** The data of a nonempty chunk at [cursor]: the cursor after its CRLF, and the
    data; [chunks] counts this chunk already. *)
Definition chunk_data (bytes : str) (eof : bool) (limits : Http1Limits)
    (cursor : N) (decoded : str) (chunks chunk_size : N)
    : Run (Result (option (N * str)) Http1Error) :=
  if maximum_chunk_count limits <? chunks
  then Done (Err (InvalidResponse "chunk count exceeds configured limit"))
  else if maximum_chunk_bytes limits <? chunk_size
  then Done (Err (InvalidResponse "chunk size exceeds configured limit"))
  else if maximum_response_body_bytes limits <? saturating_add (len decoded) chunk_size
  then Done (Err (InvalidResponse "decoded chunked body exceeds configured limit"))
  else match checked_add cursor chunk_size with
  | None => Done (Err (InvalidResponse "chunk offset overflow"))
  | Some chunk_end =>
      match checked_add chunk_end 2 with
      | None => Done (Err (InvalidResponse "chunk suffix overflow"))
      | Some suffix_end =>
          if len bytes <? suffix_end then
            if eof
            then Done (Err (TruncatedResponse "chunk data ended before declared size or CRLF"))
            else Done (Ok None)
          else
            let! suffix := slice chunk_end suffix_end bytes in
            if negb (bool_decide (suffix = CRLF))
            then Done (Err (InvalidResponse "chunk data is not followed by CRLF"))
            else
              let! data := slice cursor chunk_end bytes in
              Done (Ok (Some (suffix_end, data)))
      end
  end.

Fixpoint parse_chunks (fuel : nat) (bytes : str) (eof : bool) (limits : Http1Limits)
    (cursor : N) (decoded : str) (chunks : N) : Run (Result (option ParsedBody) Http1Error) :=
  match fuel with
  | O => Panic "loop bound"
  | S fuel' =>
      let!? line := chunk_size_line bytes eof cursor in
      match line with
      | None => Done (Ok None)
      | Some (cursor, chunk_size) =>
          if chunk_size =? 0 then parse_trailers bytes eof limits cursor decoded
          else
            let chunks := saturating_add chunks 1 in
            let!? chunk := chunk_data bytes eof limits cursor decoded chunks chunk_size in
            match chunk with
            | None => Done (Ok None)
            | Some (suffix_end, data) =>
                parse_chunks fuel' bytes eof limits suffix_end (decoded ++ data) chunks
            end
      end
  end.

(** Every round of the loop takes at least the CRLF of a chunk-size line from the
    input, so the length of the input bounds the rounds. *)
Definition parse_chunked (bytes : str) (eof : bool) (limits : Http1Limits)
    : Run (Result (option ParsedBody) Http1Error) :=
  parse_chunks (S (length bytes)) bytes eof limits 0 [] 0.

(** ** Responses *)

Record ParsedResponse : Type := {
  pr_response : Http1Response;
  pr_consumed_wire_bytes : N
}.

Inductive ParseProgress : Type :=
  | Incomplete
  | Complete (parsed : ParsedResponse).

(** The body that starts at [body_start], by framing; [None] is an early return of
    [ParseProgress::Incomplete]. *)
Definition parse_body (bytes : str) (eof : bool) (limits : Http1Limits) (framing : Http1Framing)
    (body_start : N) : Run (Result (option ParsedBody) Http1Error) :=
  match framing with
  | NoBody => Done (Ok (Some {| pb_body := []; pb_trailers := []; pb_consumed := 0 |}))
  | ContentLength length =>
      if maximum_response_body_bytes limits <? length
      then Done (Err (InvalidResponse "Content-Length exceeds configured body limit"))
      else
        let available := saturating_sub (len bytes) body_start in
        if available <? length then
          if eof
          then Done (Err (TruncatedResponse
                 (("Content-Length promised " : str) ++ decimal length
                  ++ (" bytes but only " : str) ++ decimal available ++ (" arrived" : str))))
          else Done (Ok None)
        else
          let! body := slice body_start (body_start + length) bytes in
          Done (Ok (Some {| pb_body := body; pb_trailers := []; pb_consumed := length |}))
  | Chunked =>
      let! rest := slice body_start (len bytes) bytes in
      parse_chunked rest eof limits
  | ConnectionClose =>
      if negb eof then Done (Ok None)
      else
        let! body := slice body_start (len bytes) bytes in
        if maximum_response_body_bytes limits <? len body
        then Done (Err (InvalidResponse "connection-close body exceeds configured limit"))
        else Done (Ok (Some {| pb_body := body; pb_trailers := []; pb_consumed := len body |}))
  end.

(** The header block at [offset]: its end, its status line and its headers. *)
Definition parse_head (bytes : str) (eof : bool) (limits : Http1Limits) (offset : N)
    : Run (Result (option (N * (Http1Version * N * str) * list Http1Header)) Http1Error) :=
  let! rest := slice offset (len bytes) bytes in
  match find_double_crlf rest with
  | None =>
      if maximum_response_header_bytes limits <? saturating_sub (len bytes) offset
      then Done (Err (InvalidResponse "response header block exceeds configured limit"))
      else if eof
      then Done (Err (TruncatedResponse "response header block ended before CRLFCRLF"))
      else Done (Ok None)
  | Some relative_end =>
      match checked_add offset relative_end with
      | None => Done (Err (InvalidResponse "header offset overflow"))
      | Some head_end =>
          let! head := slice offset head_end bytes in
          if maximum_response_header_bytes limits <? len head
          then Done (Err (InvalidResponse "response header block exceeds configured limit"))
          else
            let!? _ := Done (validate_crlf_block head) in
            let! last := usize_sub (len head) 4 in
            let! text := slice 0 last head in
            let! lines := split_crlf text in
            match lines with
            | [] => Done (Err (InvalidResponse "missing status line"))
            | status_line :: header_lines =>
                let!? status := parse_status_line status_line in
                let!? headers := parse_header_lines header_lines limits false in
                Done (Ok (Some (head_end, status, headers)))
            end
      end
  end.

(** The final response whose header block ended at [head_end]. *)
Definition parse_final (bytes : str) (eof : bool) (request_method : str) (limits : Http1Limits)
    (head_end : N) (version : Http1Version) (status_code : N) (reason : str)
    (headers : list Http1Header) (interim_responses : N)
    : Run (Result ParseProgress Http1Error) :=
  let!? framing := Done (determine_framing request_method version status_code headers) in
  let!? parsed := parse_body bytes eof limits framing head_end in
  match parsed with
  | None => Done (Ok Incomplete)
  | Some parsed_body =>
      match checked_add head_end (pb_consumed parsed_body) with
      | None => Done (Err (InvalidResponse "response length overflow"))
      | Some consumed_wire_bytes =>
          Done (Ok (Complete
            {| pr_consumed_wire_bytes := consumed_wire_bytes;
               pr_response :=
                 {| hr_version := version; hr_status_code := status_code;
                    hr_reason := reason; hr_headers := headers;
                    hr_trailers := pb_trailers parsed_body;
                    hr_body := pb_body parsed_body;
                    hr_framing := framing;
                    hr_interim_responses := interim_responses |} |}))
      end
  end.

Fixpoint parse_from (fuel : nat) (bytes : str) (eof : bool) (request_method : str)
    (limits : Http1Limits) (offset interim_responses : N)
    : Run (Result ParseProgress Http1Error) :=
  match fuel with
  | O => Panic "loop bound"
  | S fuel' =>
      let!? parsed_head := parse_head bytes eof limits offset in
      match parsed_head with
      | None => Done (Ok Incomplete)
      | Some (head_end, (version, status_code, reason), headers) =>
          if is_interim status_code then
            if status_code =? 101
            then Done (Err (InvalidResponse "protocol upgrades are not supported"))
            else
              let interim_responses := saturating_add interim_responses 1 in
              if maximum_interim_responses limits <? interim_responses
              then Done (Err (InvalidResponse "interim response count exceeds configured limit"))
              else if len bytes <=? head_end then
                if eof
                then Done (Err (TruncatedResponse "stream ended after interim response"))
                else Done (Ok Incomplete)
              else parse_from fuel' bytes eof request_method limits head_end interim_responses
          else
            parse_final bytes eof request_method limits head_end version status_code reason headers
              interim_responses
      end
  end.

(** Every round takes a header block of at least four bytes from the input. *)
Definition parse_response (bytes : str) (eof : bool) (request_method : str) (limits : Http1Limits)
    : Run (Result ParseProgress Http1Error) :=
  parse_from (S (length bytes)) bytes eof request_method limits 0 0.
