(* ===== verification/Http1Facts.v ===== *)
(** * Http1Facts: what the HTTP/1 parser guarantees

    Theorems on [Http1]: the parser returns on every input, what it accepts is
    line for line in the bytes, framed without ambiguity and within the limits, its verdict does not depend
    on how the bytes were split into reads, and chunked bodies are decoded to
    what was encoded. *)

From S2P Require Import Prelude ByteStr HashChain HttpSyntax Stream Vault Http1.
Local Open Scope N_scope.

(** ** Returning *)

(** The call returns, with a value that satisfies [P]. *)
Definition returns {A} (r : Run A) (P : A -> Prop) : Prop := exists a, r = Done a /\ P a.

Lemma returns_done {A} (a : A) (P : A -> Prop) : P a -> returns (Done a) P.
Proof. intros H. by exists a. Qed.

Lemma returns_weaken {A} (r : Run A) (P Q : A -> Prop) :
  returns r P -> (forall a, P a -> Q a) -> returns r Q.
Proof. intros (a & -> & H) HQ. exists a. auto. Qed.

(** The value of a [Result] satisfies [P], if there is one. *)
Definition on_ok {A E} (P : A -> Prop) (r : Result A E) : Prop :=
  match r with Ok a => P a | Err _ => True end.

Lemma returns_bind {A B E} (r : Run (Result A E)) (k : A -> Run (Result B E)) P Q :
  returns r (on_ok P) -> (forall a, P a -> returns (k a) (on_ok Q)) ->
  returns (let!? a := r in k a) (on_ok Q).
Proof. intros ([a|e] & -> & H) Hk; [by apply Hk | by apply returns_done]. Qed.

Ltac fails := by apply returns_done.

(** ** Header lines *)

Record header_ok (limits : Http1Limits) (trailers : bool) (h : Http1Header) : Prop := {
  header_name_nonempty : hh_name h <> [];
  header_name_bound : len (hh_name h) <= maximum_header_name_bytes limits;
  header_name_token : forallb is_token_byte (hh_name h) = true;
  header_name_lower : to_ascii_lowercase (hh_name h) = hh_name h;
  header_value_bound : len (hh_value h) <= maximum_header_value_bytes limits;
  header_value_clean : existsb is_prohibited_control (hh_value h) = false;
  header_trailer_allowed : trailers = true -> is_prohibited_trailer (hh_name h) = false
}.

Lemma token_byte_lower c : is_token_byte (lower_byte c) = is_token_byte c.
Proof. byte_cases c. Qed.

Lemma token_lower s : forallb is_token_byte (to_ascii_lowercase s) = forallb is_token_byte s.
Proof.
  unfold to_ascii_lowercase. rewrite forallb_map. apply forallb_ext'. apply token_byte_lower.
Qed.

Lemma len_lower s : len (to_ascii_lowercase s) = len s.
Proof. unfold len, to_ascii_lowercase. by rewrite length_map. Qed.

(** [value] has no optional white space at its ends. *)
Definition trimmed (value : str) : Prop :=
  from_option is_ows false (head value) = false /\ from_option is_ows false (last value) = false.

(** [line] is the line of [h]: a name, a colon and the value in optional white
    space.  The name has no colon, so [line] determines [h]. *)
Record header_line (line : str) (h : Http1Header) : Prop := {
  line_fields : exists name before after,
    line = name ++ (":" : str) ++ before ++ hh_value h ++ after
    /\ forallb is_token_byte name = true /\ hh_name h = to_ascii_lowercase name
    /\ forallb is_ows before = true /\ forallb is_ows after = true;
  line_name_nonempty : hh_name h <> [];
  line_value_trimmed : trimmed (hh_value h)
}.

Lemma drop_while_split p s : exists before, s = before ++ drop_while p s /\ forallb p before = true.
Proof.
  induction s as [|c s (before & Hs & Hb)]; [by exists []|]. simpl.
  destruct (p c) eqn:Hc; [|by exists []]. exists (c :: before). simpl. rewrite Hc, <- Hs. done.
Qed.

Lemma drop_while_stops p s : from_option p false (head (drop_while p s)) = false.
Proof. induction s as [|c s IH]; [done|]. simpl. by destruct (p c) eqn:Hc. Qed.

Lemma trim_end_split p s :
  exists after, s = trim_end_matches p s ++ after /\ forallb p after = true.
Proof.
  unfold trim_end_matches. destruct (drop_while_split p (reverse s)) as (a & Hs & Ha).
  exists (reverse a). rewrite <- reverse_app, <- Hs, reverse_involutive. split; [done|].
  apply forallb_elem. intros c Hc%elem_of_reverse.
  rewrite reverse_involutive in Hc. rewrite forallb_elem in Ha. auto.
Qed.

Lemma trim_end_stops p s : from_option p false (last (trim_end_matches p s)) = false.
Proof. unfold trim_end_matches. rewrite last_reverse. apply drop_while_stops. Qed.

Lemma trim_ows_split value :
  trimmed (trim_ows value) /\ exists before after,
    value = before ++ trim_ows value ++ after
    /\ forallb is_ows before = true /\ forallb is_ows after = true.
Proof.
  unfold trim_ows. destruct (drop_while_split is_ows value) as (before & Hv & Hb).
  pose proof (drop_while_stops is_ows value) as Hh. remember (drop_while is_ows value) as mid.
  destruct (trim_end_split is_ows mid) as (after & Hm & Ha). split.
  - split; [|apply trim_end_stops]. rewrite Hm in Hh. by destruct (trim_end_matches is_ows mid).
  - exists before, after. split_and!; [by rewrite <- Hm|done..].
Qed.

(** Where [position] stops. *)
Lemma position_split n s i :
  position (is_byte n) s = Some i ->
  exists c, is_byte n c = true
    /\ s = take (N.to_nat i) s ++ [c] ++ drop (N.to_nat (i + 1)) s.
Proof.
  revert i. induction s as [|d s IH]; intros i; [done|]. simpl position.
  destruct (is_byte n d) eqn:Hd.
  - intros [= <-]. by exists d.
  - destruct (position _ s) as [j|]; [|done]. intros [= <-].
    destruct (IH j eq_refl) as (c & Hc & Hs). exists c. split; [done|].
    rewrite N.add_succ_l, !N2Nat.inj_succ. cbn [take drop app]. f_equal. exact Hs.
Qed.

Lemma is_byte_eq n c d : is_byte n c = true -> is_byte n d = true -> c = d.
Proof.
  unfold is_byte. rewrite !N.eqb_eq. intros H1 H2.
  rewrite <- (ascii_N_embedding c), <- (ascii_N_embedding d). congruence.
Qed.

Lemma parse_header_line_returns limits trailers line :
  returns (parse_header_line limits trailers line)
    (on_ok (fun h => header_ok limits trailers h /\ header_line line h)).
Proof.
  unfold parse_header_line.
  destruct (len line =? 0); [fails|]. destruct (from_option _ _ _); [fails|].
  destruct (position _ line) as [colon|] eqn:Hp; [|fails].
  apply position_split in Hp as Hs. destruct Hs as (c & Hcolon & Hline).
  rewrite (is_byte_eq 58 c ":"%char) in Hline by done.
  apply position_some in Hp. destruct (colon =? 0) eqn:H0; [fails|].
  rewrite slice_to by lia. destruct (_ <? _) eqn:Hn; [fails|].
  destruct (negb _) eqn:Ht; [fails|]. destruct (trailers && _) eqn:Hpr; [fails|].
  rewrite slice_from by lia. destruct (_ <? len (trim_ows _)) eqn:Hv; [fails|].
  unfold validate_field_value. destruct (existsb _ _) eqn:Hc; [fails|].
  apply returns_done. simpl. bools.
  assert (to_ascii_lowercase (take (N.to_nat colon) line) <> []) as Hne.
  { intros E. apply (f_equal len) in E. rewrite len_lower, len_take, len_nil in E. lia. }
  destruct (trim_ows_split (drop (N.to_nat (colon + 1)) line)) as (Htrim & b & a & Hsplit & Hb & Ha).
  split; [|constructor; simpl; [|done..]; rewrite Hsplit in Hline; by eexists _, b, a].
  constructor; simpl; try done.
  - by rewrite len_lower.
  - by rewrite token_lower.
  - by rewrite to_ascii_lowercase_idemp.
  - intros ->. done.
Qed.

Lemma parse_each_line_returns limits trailers lines :
  returns (parse_each_line limits trailers lines)
    (on_ok (fun hs => Forall (header_ok limits trailers) hs /\ Forall2 header_line lines hs)).
Proof.
  induction lines as [|line rest IH]; simpl; [by apply returns_done|].
  eapply returns_bind; [apply parse_header_line_returns|]. intros h [Hh Hline].
  eapply returns_bind; [exact IH|]. intros hs [Hhs Hl].
  apply returns_done. split; by constructor.
Qed.

Definition header_cap (limits : Http1Limits) (trailers : bool) : N :=
  if trailers then maximum_trailer_count limits else maximum_header_count limits.

Lemma parse_header_lines_returns lines limits trailers :
  returns (parse_header_lines lines limits trailers)
    (on_ok (fun hs => Forall (header_ok limits trailers) hs /\ Forall2 header_line lines hs
      /\ len hs <= header_cap limits trailers)).
Proof.
  unfold parse_header_lines. fold (header_cap limits trailers).
  destruct (_ <? _) eqn:Hc; [fails|]. apply N.ltb_ge in Hc.
  eapply returns_weaken; [apply parse_each_line_returns|].
  intros [hs|e]; simpl; [|done]. intros [H H2]. split_and!; [done..|].
  apply Forall2_length in H2. unfold len in *. lia.
Qed.

(** ** Lines *)

(** The bytes of [lines], each with its line end. *)
Definition wire_lines (lines : list str) : str := concat ((fun line => line ++ CRLF) <$> lines).

(** [block] is the given lines and an empty one; no line holds a CR or a LF. *)
Definition block_lines (block : str) (lines : list str) : Prop :=
  block = wire_lines lines ++ CRLF /\ Forall (fun line => forallb is_line_byte line = true) lines.

Definition cut_lines (bytes : str) (lines : list str) : Prop :=
  bytes ++ CRLF = wire_lines lines /\ Forall (fun line => find_crlf line = None) lines.

(** Before the first window there is none. *)
Lemma find_window_before w s i :
  w <> [] -> find_window w s = Some i -> find_window w (take (N.to_nat i) s) = None.
Proof.
  intros Hw Hi. destruct (find_window w (take (N.to_nat i) s)) as [j|] eqn:Hj; [|done].
  pose proof (find_window_app _ _ (drop (N.to_nat i) s) _ Hj) as Hj'.
  rewrite take_drop, Hi in Hj'. injection Hj' as <-.
  apply find_window_some in Hj as [Hj _]. rewrite len_take in Hj.
  destruct w; [done|]. rewrite len_cons in Hj. lia.
Qed.

Lemma split_crlf_loop_returns fuel bytes :
  (length bytes < fuel)%nat -> returns (split_crlf_loop fuel bytes) (cut_lines bytes).
Proof.
  revert bytes. induction fuel as [|fuel IH]; intros bytes Hf; [lia|]. simpl.
  destruct (find_crlf bytes) as [i|] eqn:Hi.
  2: { apply returns_done. split; [by cbn; rewrite app_nil_r|by repeat constructor]. }
  apply find_window_before in Hi as Hfirst; [|done]. apply find_window_split in Hi as Hcut.
  apply find_window_some in Hi as [Hi _]. change (len CRLF) with 2 in Hi, Hcut.
  rewrite slice_to, slice_from by lia.
  destruct (IH (drop (N.to_nat (i + 2)) bytes)) as (lines & -> & Hl & Hno).
  { rewrite length_drop. unfold len in Hi. lia. }
  apply returns_done. split; [|by constructor].
  rewrite Hcut at 1. unfold wire_lines in *. csimpl.
  by rewrite <- Hl, <- !(assoc_L (++)).
Qed.

Lemma split_crlf_returns bytes : returns (split_crlf bytes) (cut_lines bytes).
Proof. apply split_crlf_loop_returns. lia. Qed.

(** In a validated block a line without CRLF has neither byte. *)
Lemma validated_line previous line rest :
  from_option (is_byte 13) false previous = false -> find_crlf line = None ->
  validate_crlf_from previous (line ++ CRLF ++ rest) = Ok tt ->
  forallb is_line_byte line = true /\ validate_crlf_from (Some "010"%char) rest = Ok tt.
Proof.
  revert previous. induction line as [|c line IH]; intros previous Hp Hno Hv; [by split|].
  cbn [app validate_crlf_from] in Hv. rewrite Hp in Hv.
  cbn [find_crlf find_window] in Hno.
  destruct (is_byte 10 c) eqn:H10; [done|]. cbn [andb] in Hv.
  destruct (is_byte 13 c) eqn:H13.
  - exfalso. apply (is_byte_eq 13 c "013"%char) in H13 as ->; [|done].
    destruct line as [|d line]; [done|]. cbn in Hv.
    destruct (is_byte 10 d) eqn:Hd; [|done]. by apply (is_byte_eq 10 d "010"%char) in Hd as ->.
  - cbn [andb] in Hv. destruct (starts_with _ _); [done|].
    destruct (IH (Some c)) as [Hl Hr]; [done| |done|].
    { unfold find_crlf. by destruct (find_window CRLF line). }
    split; [|done]. cbn [forallb]. unfold is_line_byte at 1. by rewrite H13, H10, Hl.
Qed.

Lemma validated_lines previous lines rest :
  from_option (is_byte 13) false previous = false ->
  Forall (fun line => find_crlf line = None) lines ->
  validate_crlf_from previous (wire_lines lines ++ rest) = Ok tt ->
  Forall (fun line => forallb is_line_byte line = true) lines.
Proof.
  intros Hp Hno. revert previous Hp. induction Hno as [|line lines Hl Hno IH]; [constructor|].
  intros previous Hp Hv. unfold wire_lines in Hv. csimpl in Hv.
  rewrite <- !(assoc_L (++)) in Hv. apply validated_line in Hv as [Hline Hv]; [|done..].
  constructor; [done|]. by apply (IH (Some "010"%char)).
Qed.

(** The lines of a validated header or trailer block. *)
Lemma block_cut text lines :
  cut_lines text lines -> validate_crlf_block (text ++ CRLF ++ CRLF) = Ok tt ->
  block_lines (text ++ CRLF ++ CRLF) lines.
Proof.
  intros [Ht Hno] Hv. rewrite (assoc_L (++)), Ht in Hv |- *. split; [done|].
  by eapply (validated_lines None).
Qed.

Lemma find_double_crlf_some bytes i :
  find_double_crlf bytes = Some i -> 4 <= i /\ i <= len bytes.
Proof.
  unfold find_double_crlf. destruct (find_window _ bytes) as [j|] eqn:E; [|done].
  intros [= <-]. apply find_window_some in E as [E _].
  change (len (CRLF ++ CRLF)) with 4 in E. lia.
Qed.

(** What [find_double_crlf] cut off at [cursor] ends in an empty line. *)
Lemma block_at bytes cursor v block :
  cursor + v <= len bytes -> find_double_crlf (drop (N.to_nat cursor) bytes) = Some v ->
  slice cursor (cursor + v) bytes = Done block ->
  block = take (N.to_nat (len block - 4)) block ++ CRLF ++ CRLF.
Proof.
  intros Hb Hv Hs. destruct (slice_done _ _ _ _ Hs) as (_ & _ & Hl). apply slice_split in Hs as Hd.
  unfold find_double_crlf in Hv. destruct (find_window _ _) as [i|] eqn:Hi; [|done].
  simpl in Hv. injection Hv as <-. apply find_window_split in Hi. rewrite Hd in Hi.
  change (len (CRLF ++ CRLF)) with 4 in Hi.
  assert (len block = i + 4) as -> by lia. rewrite N.add_sub.
  rewrite take_app_le in Hi by (unfold len in *; lia).
  rewrite drop_app_ge in Hi by (unfold len in *; lia).
  rewrite (assoc_L (++) (take _ _)) in Hi. apply app_inj_1 in Hi as [Hi _]; [exact Hi|].
  rewrite !length_app, length_take. unfold len in *. simpl. lia.
Qed.

Definition version_text (version : Http1Version) : str :=
  match version with Http10 => "HTTP/1.0" | Http11 => "HTTP/1.1" end.

(** [line] is the status line of the given version, code and reason. *)
Definition is_status_line (line : str) (version : Http1Version) (code : N) (reason : str) : Prop :=
  exists digits tail,
    line = version_text version ++ (" " : str) ++ digits ++ tail
    /\ length digits = 3%nat /\ forallb is_ascii_digit digits = true
    /\ decimal_value digits = code
    /\ (tail = (" " : str) ++ reason \/ (tail = [] /\ reason = [])).

Definition status_ok (r : Http1Version * N * str) : Prop :=
  let '(version, status_code, reason) := r in
  100 <= status_code /\ status_code <= 999 /\ existsb is_prohibited_control reason = false.

Lemma parse_status_line_returns line :
  returns (parse_status_line line)
    (on_ok (fun r => status_ok r /\ is_status_line line r.1.1 r.1.2 r.2)).
Proof.
  unfold parse_status_line. destruct (contains_byte 9 line); [fails|].
  destruct (position _ line) as [i|] eqn:Hp; [|fails].
  apply position_split in Hp as Hs. destruct Hs as (sp & Hsp & Hline).
  rewrite (is_byte_eq 32 sp " "%char) in Hline by done. apply position_some in Hp.
  rewrite slice_to, slice_from by lia.
  destruct (if bool_decide _ then _ else _) as [version|] eqn:Hver; [|fails].
  assert (take (N.to_nat i) line = version_text version) as Hvt.
  { repeat case_bool_decide; simplify_eq; done. }
  rewrite Hvt in Hline.
  destruct (drop _ line) as [|a [|b [|c more]]]; try fails.
  destruct (negb (_ && _)) eqn:Hdig; [fails|]. apply negb_false_iff in Hdig.
  destruct (match more with [] => false | d :: _ => negb (is_byte 32 d) end) eqn:Hd; [fails|].
  destruct (negb (_ && _)) eqn:Hr; [fails|]. bools.
  assert (forall reason tail, (tail = (" " : str) ++ reason \/ (tail = [] /\ reason = [])) ->
    line = version_text version ++ (" " : str) ++ [a; b; c] ++ tail ->
    is_status_line line version (digit_value a * 100 + digit_value b * 10 + digit_value c) reason)
    as Hst.
  { intros reason tail Ht Hl. exists [a; b; c], tail. split_and!; try done.
    - cbn [forallb]. by repeat match goal with Hx : _ = true |- _ => rewrite Hx; clear Hx end.
    - unfold decimal_value. cbn [fold_left]. lia. }
  destruct more as [|d value]; [apply returns_done; split; [done|apply (Hst _ []); auto]|].
  apply negb_false_iff in Hd. apply (is_byte_eq 32 d " "%char) in Hd as ->; [|done].
  unfold validate_reason_phrase. destruct (existsb _ value) eqn:Hv; [fails|].
  apply returns_done. split; [done|]. apply (Hst _ ((" " : str) ++ value)); auto.
Qed.

(** ** Chunked bodies on the wire *)

(** [line] is a chunk-size line for [n]. *)
Record size_line (line : str) (n : N) : Prop := {
  size_nonempty : line <> [];
  size_bound : len line <= 16;
  size_hex : forallb is_ascii_hexdigit line = true;
  size_value : hex_number line = n
}.

(** A chunk: its size line and its data. *)
Definition chunk_wire (c : str * str) : str := c.1 ++ CRLF ++ c.2 ++ CRLF.

Definition chunk_ok (limits : Http1Limits) (c : str * str) : Prop :=
  size_line c.1 (len c.2) /\ 0 < len c.2 /\ len c.2 <= maximum_chunk_bytes limits.

(** The bytes after the line of the zero chunk. *)
Definition trailer_wire (limits : Http1Limits) (tail : str) (trailers : list Http1Header) : Prop :=
  (tail = CRLF /\ trailers = [])
  \/ (exists lines, block_lines tail lines /\ Forall2 header_line lines trailers
      /\ len tail <= maximum_trailer_bytes limits
      /\ Forall (header_ok limits true) trailers /\ len trailers <= maximum_trailer_count limits).

(** [wire] encodes [body] in the given chunks. *)
Record chunked_wire (limits : Http1Limits) (chunks : list (str * str)) (wire body : str)
    (trailers : list Http1Header) : Prop := {
  wire_chunks_ok : Forall (chunk_ok limits) chunks;
  wire_body : body = concat (snd <$> chunks);
  wire_bytes : exists zero tail,
    wire = concat (chunk_wire <$> chunks) ++ zero ++ CRLF ++ tail
    /\ size_line zero 0 /\ trailer_wire limits tail trailers
}.

(** The limits are below the point where the 64-bit counters saturate. *)
Definition limits_fit (limits : Http1Limits) : Prop :=
  maximum_response_body_bytes limits < u64_max
  /\ maximum_chunk_count limits < u64_max
  /\ maximum_interim_responses limits < u64_max.

(** What [parse_chunks] returns from [cursor] on, after [decoded] and [chunks]. *)
Definition chunks_found (limits : Http1Limits) (bytes : str) (cursor : N) (decoded : str)
    (chunks : N) (r : option ParsedBody) : Prop :=
  match r with
  | None => True
  | Some pb =>
      limits_fit limits ->
      exists cs wire rest body,
        drop (N.to_nat cursor) bytes = wire ++ rest
        /\ chunked_wire limits cs wire body (pb_trailers pb)
        /\ pb_body pb = decoded ++ body
        /\ pb_consumed pb = cursor + len wire
        /\ chunks + len cs <= maximum_chunk_count limits
        /\ len (pb_body pb) <= maximum_response_body_bytes limits
  end.

Lemma hex_bound_size line : forallb is_ascii_hexdigit line = true -> hex_number line < 16 ^ len line.
Proof.
  unfold hex_number. induction line as [|c line IH] using rev_ind; intros H; [done|].
  rewrite forallb_app in H. simpl in H. bools. specialize (IH H).
  rewrite foldl_app, len_app. simpl foldl.
  assert (hex_value c < 16) by (revert H0; clear; byte_cases c).
  rewrite N.pow_add_r. change (16 ^ len [c]) with 16. lia.
Qed.

Lemma hexdigit_ascii line : forallb is_ascii_hexdigit line = true -> from_utf8_ok line = true.
Proof.
  induction line as [|c line IH]; [done|]. cbn [forallb from_utf8_ok]. intros H. bools.
  assert (in_range 0 127 c = true) as -> by (revert H; clear; byte_cases c). auto.
Qed.

(** The size line of the zero chunk ends the chunks. *)
Lemma parse_trailers_returns bytes eof limits cursor decoded :
  cursor <= len bytes ->
  returns (parse_trailers bytes eof limits cursor decoded)
    (on_ok (fun r => match r with
      | None => True
      | Some pb => exists tail rest, drop (N.to_nat cursor) bytes = tail ++ rest
          /\ trailer_wire limits tail (pb_trailers pb)
          /\ pb_body pb = decoded /\ pb_consumed pb = cursor + len tail
      end)).
Proof.
  intros Hc. unfold parse_trailers, saturating_sub.
  destruct (_ <? 2) eqn:H2; [destruct eof; fails|]. bools.
  destruct (slice cursor (cursor + 2) bytes) as [t|] eqn:Ht.
  2: { rewrite slice_in_range in Ht by lia. done. }
  apply slice_split in Ht.
  destruct (bool_decide (t = CRLF)) eqn:E; bools.
  { apply returns_done. simpl. exists t, (drop (N.to_nat (cursor + 2)) bytes). subst t.
    split_and!; [done| by left | done | done]. }
  rewrite slice_from by lia.
  destruct (find_double_crlf _) as [v|] eqn:Hv.
  2: { destruct (_ <? _); [fails|]. destruct eof; fails. }
  apply find_double_crlf_some in Hv as Hb. rewrite len_drop in Hb.
  destruct (slice cursor (cursor + v) bytes) as [block|] eqn:Hs.
  2: { rewrite slice_in_range in Hs by lia. done. }
  destruct (slice_done _ _ _ _ Hs) as (_ & _ & Hl).
  destruct (_ <? len block) eqn:Hm; [fails|]. bools.
  apply (block_at _ _ _ _) in Hs as Hblock; [|lia|done].
  destruct (validate_crlf_block block) as [[]|] eqn:Hcr; [|fails].
  unfold usize_sub. assert ((4 <=? len block) = true) as -> by (apply N.leb_le; lia).
  rewrite slice_to by lia.
  destruct (split_crlf_returns (take (N.to_nat (len block - 4)) block)) as (lines & -> & Hcut).
  eapply returns_bind; [apply parse_header_lines_returns|]. intros hs (Hh & Hlines & Hn).
  apply returns_done. simpl. apply slice_split in Hs as Hd.
  exists block, (drop (N.to_nat (cursor + v)) bytes).
  split_and!; [done| |done|lia]. right.
  exists lines. split_and!; [|done..]. rewrite Hblock in Hcr |- *. by apply block_cut.
Qed.

(** One more chunk in front of an encoded body. *)
Lemma chunked_wire_cons limits c cs wire body trailers :
  chunk_ok limits c -> chunked_wire limits cs wire body trailers ->
  chunked_wire limits (c :: cs) (chunk_wire c ++ wire) (c.2 ++ body) trailers.
Proof.
  intros Hc [Hcs -> (zero & tail & -> & Hz & Ht)]. split; [by constructor|done|].
  exists zero, tail. split_and!; [|done..]. csimpl. by rewrite (assoc_L (++) (chunk_wire c)).
Qed.

Lemma chunked_wire_nil limits zero tail trailers :
  size_line zero 0 -> trailer_wire limits tail trailers ->
  chunked_wire limits [] (zero ++ CRLF ++ tail) [] trailers.
Proof. intros Hz Ht. split; [constructor|done|]. by exists zero, tail. Qed.

(** The chunk-size line found at [cursor]. *)
Lemma line_at_cursor bytes cursor v line :
  find_crlf (drop (N.to_nat cursor) bytes) = Some v ->
  slice cursor (cursor + v) bytes = Done line ->
  drop (N.to_nat cursor) bytes = line ++ CRLF ++ drop (N.to_nat (cursor + v + 2)) bytes.
Proof.
  intros Hv Hs. apply find_window_some in Hv as Hb. destruct Hb as [Hb _].
  change (len CRLF) with 2 in Hb. rewrite len_drop in Hb.
  apply find_window_split in Hv. rewrite slice_in_range in Hs by lia.
  injection Hs as <-. rewrite Hv at 1. change (len CRLF) with 2.
  rewrite drop_drop. do 2 f_equal; [f_equal; lia|]. f_equal. f_equal. lia.
Qed.

(** What [chunk_size_line] returns. *)
Lemma chunk_size_line_returns bytes eof cursor :
  cursor <= len bytes ->
  returns (chunk_size_line bytes eof cursor)
    (on_ok (fun r => match r with
      | None => True
      | Some (next, size) => next <= len bytes /\ cursor + 2 < next
          /\ exists line, size_line line size /\ next = cursor + len line + 2
               /\ drop (N.to_nat cursor) bytes = line ++ CRLF ++ drop (N.to_nat next) bytes
      end)).
Proof.
  intros Hc. unfold chunk_size_line. rewrite slice_from by done.
  destruct (find_crlf _) as [v|] eqn:Hv.
  2: { destruct (128 <? _); [fails|]. destruct eof; fails. }
  apply find_window_some in Hv as Hb. destruct Hb as [Hb _].
  change (len CRLF) with 2 in Hb. rewrite len_drop in Hb.
  destruct (slice cursor (cursor + v) bytes) as [line|] eqn:Hs.
  2: { rewrite slice_in_range in Hs by lia. done. }
  destruct (contains_byte 59 line); [fails|].
  destruct (_ || negb _) eqn:Hh; [fails|]. bools.
  destruct (negb (from_utf8_ok line)); [fails|]. destruct (u64_max <? _); [fails|].
  pose proof (line_at_cursor _ _ _ _ Hv Hs) as Hline.
  destruct (slice_done _ _ _ _ Hs) as (_ & _ & Hl).
  apply returns_done. split_and!; [lia|lia|]. exists line.
  split_and!; [|lia|done]. split; [|done..]. intros ->. by rewrite len_nil in *.
Qed.

(** What [chunk_data] returns. *)
Lemma chunk_data_returns bytes eof limits cursor decoded chunks size :
  cursor <= len bytes -> 0 < size ->
  returns (chunk_data bytes eof limits cursor decoded chunks size)
    (on_ok (fun r => match r with
      | None => True
      | Some (next, data) => next <= len bytes /\ cursor < next
          /\ chunks <= maximum_chunk_count limits /\ len data <= maximum_chunk_bytes limits
          /\ saturating_add (len decoded) size <= maximum_response_body_bytes limits
          /\ len data = size /\ next = cursor + size + 2
          /\ drop (N.to_nat cursor) bytes = data ++ CRLF ++ drop (N.to_nat next) bytes
      end)).
Proof.
  intros Hc H0. unfold chunk_data.
  destruct (_ <? chunks) eqn:Hn; [fails|]. destruct (_ <? size) eqn:Hm; [fails|].
  destruct (_ <? saturating_add _ _) eqn:Hb; [fails|]. bools.
  destruct (checked_add cursor size) as [e|] eqn:He; [|fails].
  destruct (checked_add e 2) as [n|] eqn:Hn2; [|fails].
  apply checked_add_some in He as [-> _], Hn2 as [-> _].
  destruct (len bytes <? _) eqn:Hl; [destruct eof; fails|]. bools.
  destruct (slice (cursor + size) (cursor + size + 2) bytes) as [t|] eqn:Ht.
  2: { rewrite slice_in_range in Ht by lia. done. }
  destruct (negb _) eqn:E; [fails|]. bools. subst t.
  destruct (slice cursor (cursor + size) bytes) as [data|] eqn:Hd.
  2: { rewrite slice_in_range in Hd by lia. done. }
  destruct (slice_done _ _ _ _ Hd) as (_ & _ & Hdl).
  apply slice_split in Ht, Hd. apply returns_done.
  split_and!; try lia. by rewrite Hd, Ht.
Qed.

Lemma parse_chunks_returns fuel bytes eof limits cursor decoded chunks :
  cursor <= len bytes -> len bytes - cursor < N.of_nat fuel ->
  (limits_fit limits -> chunks <= maximum_chunk_count limits
    /\ len decoded <= maximum_response_body_bytes limits) ->
  returns (parse_chunks fuel bytes eof limits cursor decoded chunks)
    (on_ok (chunks_found limits bytes cursor decoded chunks)).
Proof.
  revert cursor decoded chunks.
  induction fuel as [|fuel IH]; intros cursor decoded chunks Hc Hf Hin; [lia|].
  cbn [parse_chunks]. eapply returns_bind; [by apply chunk_size_line_returns|].
  intros [[next size]|]; [|intros _; fails]. intros (Hn & Hlt & line & Hline & Hnext & Hd).
  destruct (size =? 0) eqn:Hz; bools.
  { subst size. eapply returns_weaken; [by apply parse_trailers_returns|].
    intros [[pb|]|e]; try done. intros (tail & rest & Ht & Hw & Hbody & Hcons) Hfit.
    exists [], (line ++ CRLF ++ tail), rest, []. rewrite app_nil_r, len_nil, N.add_0_r, Hbody.
    split_and!; [by rewrite Hd, Ht, <- !(assoc_L (++))| by apply chunked_wire_nil |done| |by apply Hin..].
    rewrite Hcons, !len_app. change (len CRLF) with 2. lia. }
  eapply returns_bind; [apply chunk_data_returns; lia|].
  intros [[e data]|]; [|intros _; fails]. intros (He & Hlt2 & Hk & Hcap & Hb & Hsz & He2 & Hd2).
  eapply returns_weaken.
  { apply IH; [done|lia|]. intros Hfit. split; [done|].
    rewrite len_app, Hsz. destruct Hfit as (Hfb & _).
    by rewrite (saturating_add_exact _ _ _ Hb Hfb) in Hb. }
  intros [[pb|]|err]; try done. intros Hpb Hfit.
  destruct (Hpb Hfit) as (cs & wire & rest & body & Hw & Hcw & Hbody & Hcons & Hcnt & Hmax).
  exists ((line, data) :: cs), (chunk_wire (line, data) ++ wire), rest, (data ++ body).
  split_and!.
  - rewrite Hd, Hd2, Hw. unfold chunk_wire. cbn [fst snd]. by rewrite <- !(assoc_L (++)).
  - apply (chunked_wire_cons _ (line, data)); [|done]. split_and!; simpl; [by rewrite Hsz|lia|done].
  - by rewrite Hbody, (assoc_L (++)).
  - rewrite Hcons. unfold chunk_wire. rewrite !len_app. simpl. change (len CRLF) with 2. lia.
  - rewrite len_cons. destruct Hfit as (_ & Hfc & _). 
    rewrite (saturating_add_exact _ _ _ Hk Hfc) in Hcnt. lia.
  - done.
Qed.

(** ** Framing *)

Definition no_header (name : str) (headers : list Http1Header) : Prop :=
  Forall (fun h => hh_name h <> name) headers.

(** The framing follows from the headers without ambiguity. *)
Definition framing_sound (request_method : str) (version : Http1Version) (status_code : N)
    (headers : list Http1Header) (framing : Http1Framing) : Prop :=
  match framing with
  | NoBody =>
      eq_ignore_ascii_case request_method "HEAD" = true
      \/ is_interim status_code = true \/ status_code = 204 \/ status_code = 304
  | ContentLength length =>
      no_header "transfer-encoding" headers
      /\ (exists h, h ∈ headers /\ hh_name h = "content-length")
      /\ length <= u64_max
      /\ forall h component, h ∈ headers -> hh_name h = "content-length" ->
         component ∈ split_byte 44 (hh_value h) ->
         let digits := trim_matches is_ows component in
         digits <> [] /\ forallb is_ascii_digit digits = true /\ decimal_value digits = length
  | Chunked =>
      version = Http11 /\ no_header "content-length" headers
      /\ exists h, List.filter (has_name "transfer-encoding") headers = [h]
         /\ to_ascii_lowercase (trim_matches is_ows (hh_value h)) = "chunked"
  | ConnectionClose =>
      no_header "content-length" headers /\ no_header "transfer-encoding" headers
  end.

Lemma filter_nil_no_header name headers :
  List.filter (has_name name) headers = [] -> no_header name headers.
Proof.
  unfold no_header. induction headers as [|h hs IH]; [constructor|]. simpl.
  unfold has_name at 1. case_bool_decide; [done|]. constructor; auto.
Qed.

Lemma elem_of_named name headers h :
  h ∈ List.filter (has_name name) headers <-> h ∈ headers /\ hh_name h = name.
Proof.
  rewrite !list_elem_of_In, filter_In. unfold has_name. by rewrite bool_decide_eq_true.
Qed.

(** A comma-separated value has at least one component. *)
Lemma collect_split_nonempty {A E} (f : str -> Result A E) n s ys :
  collect_results f (split_byte n s) = Ok ys -> ys <> [].
Proof.
  intros H ->. apply collect_results_ok in H. apply Forall2_nil_inv_r in H.
  by apply split_byte_nonempty in H.
Qed.

Lemma concat_nonempty_nil {A} (ls : list (list A)) :
  Forall (fun l => l <> []) ls -> concat ls = [] -> ls = [].
Proof. destruct 1 as [|[|] ls H]; done. Qed.

Lemma concat_nonempty_one {A} (ls : list (list A)) x :
  Forall (fun l => l <> []) ls -> concat ls = [x] -> ls = [[x]].
Proof.
  destruct 1 as [|[|y l] ls H Hls]; try done. simpl. intros [= -> Hc].
  apply app_nil in Hc as [-> Hc]. by rewrite (concat_nonempty_nil ls).
Qed.

Lemma content_length_values_nonempty h v : content_length_values h = Ok v -> v <> [].
Proof. unfold content_length_values. case_match; [apply collect_split_nonempty|done]. Qed.

Lemma transfer_encoding_tokens_nonempty h v : transfer_encoding_tokens h = Ok v -> v <> [].
Proof. unfold transfer_encoding_tokens. case_match; [apply collect_split_nonempty|done]. Qed.

Lemma Forall2_nonempty {A B E} (f : A -> Result (list B) E) hs vs :
  (forall h v, f h = Ok v -> v <> []) -> Forall2 (fun h v => f h = Ok v) hs vs ->
  Forall (fun v => v <> []) vs.
Proof. intros Hf. induction 1; constructor; eauto. Qed.

Lemma parse_content_length_none headers :
  parse_content_length headers = Ok None -> no_header "content-length" headers.
Proof.
  unfold parse_content_length. destruct (collect_results _ _) as [vs|] eqn:Hc; [|done].
  apply collect_results_ok in Hc. destruct (concat vs) eqn:Hv; [intros _|by case_match].
  apply filter_nil_no_header. apply concat_nonempty_nil in Hv as ->.
  - by apply Forall2_nil_inv_r in Hc.
  - eapply Forall2_nonempty, Hc. apply content_length_values_nonempty.
Qed.

Lemma Forall2_source {A B} (P : A -> B -> Prop) l ys x :
  Forall2 P l ys -> x ∈ l -> exists y, P x y /\ y ∈ ys.
Proof.
  induction 1 as [|x' y' l ys Hp H IH]; intros Hx; [by apply not_elem_of_nil in Hx|].
  apply elem_of_cons in Hx as [->|Hx]; [exists y'; split; [done|left]|].
  destruct (IH Hx) as (y & ? & ?). exists y. split; [done|by right].
Qed.

Lemma elem_of_concat {A} (x : A) l ls : x ∈ l -> l ∈ ls -> x ∈ concat ls.
Proof. rewrite !list_elem_of_In. intros. apply in_concat. eauto. Qed.

Lemma parse_content_length_some headers n :
  parse_content_length headers = Ok (Some n) ->
  n <= u64_max /\ (exists h, h ∈ headers /\ hh_name h = "content-length")
  /\ forall h component, h ∈ headers -> hh_name h = "content-length" ->
     component ∈ split_byte 44 (hh_value h) ->
     content_length_component component = Ok n.
Proof.
  unfold parse_content_length. destruct (collect_results _ _) as [vs|] eqn:Hc; [|done].
  apply collect_results_ok in Hc. destruct (concat vs) as [|first rest] eqn:Hv; [done|].
  destruct (existsb _ _) eqn:Hx; [done|]. intros [= ->].
  assert (forall v, v ∈ concat vs -> v = n) as Hall.
  { intros v Hin. rewrite Hv in Hin.
    destruct (decide (v = n)) as [|Hne]; [done|]. exfalso.
    assert (existsb (fun value => negb (value =? n)) (n :: rest) = true) as Ht; [|congruence].
    apply existsb_elem. exists v. split; [done|]. by apply negb_true_iff, N.eqb_neq. }
  assert (forall h component, h ∈ headers -> hh_name h = "content-length" ->
    component ∈ split_byte 44 (hh_value h) -> content_length_component component = Ok n) as Hcomp.
  { intros h component Hh Hname Hin.
    destruct (Forall2_source _ _ _ h Hc) as (ns & Hns & Hin2); [by apply elem_of_named|].
    unfold content_length_values in Hns. destruct (from_utf8_ok _); [|done].
    apply collect_results_ok in Hns.
    destruct (Forall2_source _ _ _ component Hns Hin) as (m & Hm & Hmin).
    rewrite Hm. f_equal. apply Hall. by eapply elem_of_concat. }
  destruct (List.filter (has_name "content-length") headers) as [|h hs] eqn:Hf.
  { apply Forall2_nil_inv_l in Hc as ->. done. }
  assert (h ∈ headers /\ hh_name h = "content-length") as [Hin Hname]
    by (apply elem_of_named; rewrite Hf; left).
  split_and!; [|by exists h|done].
  destruct (split_byte 44 (hh_value h)) as [|component cs] eqn:Hs; [by apply split_byte_nonempty in Hs|].
  specialize (Hcomp h component Hin Hname). rewrite Hs in Hcomp. specialize (Hcomp ltac:(left)).
  unfold content_length_component in Hcomp. inv_ok Hcomp. by bools.
Qed.

Lemma parse_transfer_encoding_false headers :
  parse_transfer_encoding headers = Ok false -> no_header "transfer-encoding" headers.
Proof.
  unfold parse_transfer_encoding. destruct (collect_results _ _) as [vs|] eqn:Hc; [|done].
  apply collect_results_ok in Hc. destruct (concat vs) as [|t [|t' ts]] eqn:Hv; try done.
  - intros _. apply filter_nil_no_header. apply concat_nonempty_nil in Hv as ->.
    + by apply Forall2_nil_inv_r in Hc.
    + eapply Forall2_nonempty, Hc. apply transfer_encoding_tokens_nonempty.
  - by case_bool_decide.
Qed.

Lemma parse_transfer_encoding_true headers :
  parse_transfer_encoding headers = Ok true ->
  exists h, List.filter (has_name "transfer-encoding") headers = [h]
    /\ to_ascii_lowercase (trim_matches is_ows (hh_value h)) = "chunked".
Proof.
  unfold parse_transfer_encoding. destruct (collect_results _ _) as [vs|] eqn:Hc; [|done].
  apply collect_results_ok in Hc. destruct (concat vs) as [|t [|t' ts]] eqn:Hv; try done.
  case_bool_decide as Ht; [intros _|done].
  apply concat_nonempty_one in Hv as ->.
  2: { eapply Forall2_nonempty, Hc. apply transfer_encoding_tokens_nonempty. }
  apply Forall2_cons_inv_r in Hc as (h & hs & Hh & Hhs & ->).
  apply Forall2_nil_inv_r in Hhs as ->. exists h. split; [done|].
  unfold transfer_encoding_tokens in Hh. destruct (from_utf8_ok _); [|done].
  destruct (split_byte 44 (hh_value h)) as [|c cs] eqn:Hs; [done|]. simpl in Hh.
  destruct (transfer_encoding_component c) as [tok|] eqn:Hcomp; [|done].
  destruct (collect_results _ cs) as [toks|] eqn:Hcs; [|done]. simplify_eq.
  apply collect_results_ok, Forall2_nil_inv_r in Hcs as ->.
  assert (c = hh_value h) as ->.
  { pose proof (join_split_byte 44 ","%char (hh_value h) eq_refl) as Hj. by rewrite Hs in Hj. }
  unfold transfer_encoding_component in Hcomp. by inv_ok Hcomp.
Qed.

Lemma determine_framing_sound request_method version status_code headers framing :
  determine_framing request_method version status_code headers = Ok framing ->
  framing_sound request_method version status_code headers framing.
Proof.
  unfold determine_framing. destruct (_ || _) eqn:Hn.
  { intros [= <-]. simpl.
    apply orb_true_iff in Hn as [[Hn|Hn]%orb_true_iff|[Hn|Hn]%orb_true_iff]; bools; auto. }
  destruct (parse_content_length headers) as [cl|] eqn:Hcl; [|done].
  destruct (parse_transfer_encoding headers) as [te|] eqn:Hte; [|done].
  destruct (_ && te) eqn:Hboth; [done|]. destruct te.
  - rewrite andb_true_r in Hboth. destruct version; [done|]. intros [= <-]. simpl.
    destruct cl as [n|]; [by rewrite bool_decide_eq_true_2 in Hboth|].
    split_and!; [done|by apply parse_content_length_none|by apply parse_transfer_encoding_true].
  - apply parse_transfer_encoding_false in Hte. destruct cl as [n|]; intros [= <-]; simpl.
    + apply parse_content_length_some in Hcl as (Hb & Hex & Hall). split_and!; [done..|].
      intros h component Hh Hname Hin. specialize (Hall h component Hh Hname Hin).
      unfold content_length_component in Hall. inv_ok Hall. bools. split_and!; [|done..].
      intros E. by rewrite E in *.
    + split; [by apply parse_content_length_none|done].
Qed.

(** ** Responses *)

(** The body of a response, against the bytes after its header block. *)
Definition body_matches (limits : Http1Limits) (eof : bool) (framing : Http1Framing)
    (wire rest body : str) (trailers : list Http1Header) : Prop :=
  match framing with
  | NoBody => wire = [] /\ body = [] /\ trailers = []
  | ContentLength length => body = wire /\ len wire = length /\ trailers = []
  | Chunked => exists chunks, chunked_wire limits chunks wire body trailers
      /\ len chunks <= maximum_chunk_count limits
  | ConnectionClose => eof = true /\ body = wire /\ rest = [] /\ trailers = []
  end.

Lemma parse_body_returns bytes eof limits framing start :
  start <= len bytes ->
  returns (parse_body bytes eof limits framing start)
    (on_ok (fun r => match r with
      | None => True
      | Some pb => limits_fit limits -> exists wire rest,
          drop (N.to_nat start) bytes = wire ++ rest /\ pb_consumed pb = len wire
          /\ body_matches limits eof framing wire rest (pb_body pb) (pb_trailers pb)
          /\ len (pb_body pb) <= maximum_response_body_bytes limits
      end)).
Proof.
  intros Hs. unfold parse_body, saturating_sub. destruct framing as [|n| |].
  - apply returns_done. intros _. exists [], (drop (N.to_nat start) bytes).
    split_and!; [done..|]. simpl. rewrite len_nil. lia.
  - destruct (maximum_response_body_bytes limits <? n) eqn:Hm; [fails|].
    destruct (len bytes - start <? n) eqn:Ha; [destruct eof; fails|]. bools.
    destruct (slice start (start + n) bytes) as [body|] eqn:Hb.
    2: { rewrite slice_in_range in Hb by lia. done. }
    destruct (slice_done _ _ _ _ Hb) as (_ & _ & Hl). apply slice_split in Hb.
    apply returns_done. intros _. eexists _, _. split; [exact Hb|]. simpl. split_and!; lia || done.
  - rewrite slice_from by done. eapply returns_weaken.
    { apply parse_chunks_returns; [lia| |]; unfold len; [lia|]. simpl. lia. }
    intros [[pb|]|e]; try done. intros Hpb Hfit.
    destruct (Hpb Hfit) as (cs & wire & rest & body & Hd & Hw & Hbody & Hcons & Hcnt & Hmax).
    exists wire, rest. rewrite drop_0 in Hd. split_and!; [done|lia| |done].
    exists cs. rewrite Hbody. split; [done|lia].
  - destruct eof; [|fails]. simpl. rewrite slice_from by done.
    destruct (_ <? len _) eqn:Hm; [fails|]. bools. apply returns_done. intros _.
    eexists _, []. rewrite app_nil_r. by split_and!.
Qed.

(** [head] is a header block: a status line and one line for each header, in
    order, then an empty line; within the limits. *)
Record head_block (limits : Http1Limits) (head : str) (version : Http1Version) (code : N)
    (reason : str) (headers : list Http1Header) : Prop := {
  head_lines : exists line lines, block_lines head (line :: lines)
    /\ is_status_line line version code reason /\ Forall2 header_line lines headers;
  head_status : status_ok (version, code, reason);
  head_headers : Forall (header_ok limits false) headers;
  head_count : len headers <= maximum_header_count limits;
  head_bound : len head <= maximum_response_header_bytes limits
}.

Lemma parse_head_returns bytes eof limits offset :
  offset <= len bytes ->
  returns (parse_head bytes eof limits offset)
    (on_ok (fun r => match r with
      | None => True
      | Some (head_end, (version, code, reason), headers) =>
          head_end <= len bytes /\ offset < head_end
          /\ exists head, slice offset head_end bytes = Done head
               /\ head_block limits head version code reason headers
      end)).
Proof.
  intros Hc. unfold parse_head. rewrite slice_from by done.
  destruct (find_double_crlf _) as [v|] eqn:Hv.
  2: { destruct (_ <? _); [fails|]. destruct eof; fails. }
  apply find_double_crlf_some in Hv as Hb. rewrite len_drop in Hb.
  destruct (checked_add offset v) as [head_end|] eqn:He; [|fails].
  apply checked_add_some in He as [-> _].
  destruct (slice offset (offset + v) bytes) as [head|] eqn:Hs.
  2: { rewrite slice_in_range in Hs by lia. done. }
  destruct (slice_done _ _ _ _ Hs) as (_ & _ & Hl).
  destruct (_ <? len head) eqn:Hm; [fails|]. bools.
  apply (block_at _ _ _ _) in Hs as Hblock; [|lia|done].
  destruct (validate_crlf_block head) as [[]|] eqn:Hcr; [|fails].
  unfold usize_sub. assert ((4 <=? len head) = true) as -> by (apply N.leb_le; lia).
  rewrite slice_to by lia.
  destruct (split_crlf_returns (take (N.to_nat (len head - 4)) head)) as (lines & -> & Hcut).
  destruct lines as [|status_line header_lines]; [fails|].
  eapply returns_bind; [apply parse_status_line_returns|].
  intros [[version code] reason] [Hok Hst].
  eapply returns_bind; [apply parse_header_lines_returns|]. intros headers (Hh & Hlines & Hn).
  apply returns_done. split_and!; [lia..|]. exists head. split; [done|].
  constructor; try done. exists status_line, header_lines. split_and!; [|done..].
  rewrite Hblock in Hcr |- *. by apply block_cut.
Qed.

(** The header block of an interim response that is passed over. *)
Definition interim_block (limits : Http1Limits) (block : str) : Prop :=
  exists version code reason headers,
    head_block limits block version code reason headers /\ is_interim code = true /\ code <> 101.

(** A response the parser accepted, against the bytes from [offset] on; [before]
    interim responses were passed over already. *)
Record response_sound (limits : Http1Limits) (bytes : str) (eof : bool) (request_method : str)
    (offset before : N) (p : ParsedResponse) : Prop := {
  sound_wire : exists interim head wire rest,
    drop (N.to_nat offset) bytes = concat interim ++ head ++ wire ++ rest
    /\ pr_consumed_wire_bytes p = offset + len (concat interim ++ head ++ wire)
    /\ Forall (interim_block limits) interim
    /\ hr_interim_responses (pr_response p) = before + len interim
    /\ head_block limits head (hr_version (pr_response p)) (hr_status_code (pr_response p))
         (hr_reason (pr_response p)) (hr_headers (pr_response p))
    /\ body_matches limits eof (hr_framing (pr_response p)) wire rest
         (hr_body (pr_response p)) (hr_trailers (pr_response p));
  sound_framing : framing_sound request_method (hr_version (pr_response p))
    (hr_status_code (pr_response p)) (hr_headers (pr_response p)) (hr_framing (pr_response p));
  sound_status : 200 <= hr_status_code (pr_response p) <= 999;
  sound_body : len (hr_body (pr_response p)) <= maximum_response_body_bytes limits;
  sound_interim : hr_interim_responses (pr_response p) <= maximum_interim_responses limits
}.

Definition progress_sound (limits : Http1Limits) (bytes : str) (eof : bool) (request_method : str)
    (offset before : N) (r : ParseProgress) : Prop :=
  match r with
  | Incomplete => True
  | Complete p =>
      limits_fit limits -> response_sound limits bytes eof request_method offset before p
  end.

Lemma parse_final_returns bytes eof request_method limits offset head_end head version status
    reason headers interim :
  head_end <= len bytes -> slice offset head_end bytes = Done head ->
  head_block limits head version status reason headers -> 200 <= status ->
  (limits_fit limits -> interim <= maximum_interim_responses limits) ->
  returns (parse_final bytes eof request_method limits head_end version status reason headers interim)
    (on_ok (progress_sound limits bytes eof request_method offset interim)).
Proof.
  intros He Hs Hblock Hst Hi. unfold parse_final.
  destruct (determine_framing _ _ _ _) as [framing|] eqn:Hf; [|fails].
  apply determine_framing_sound in Hf.
  eapply returns_bind; [by apply parse_body_returns|].
  intros [pb|]; [|intros _; fails]. intros Hpb.
  destruct (checked_add head_end _) as [consumed|] eqn:Hc; [|fails].
  apply checked_add_some in Hc as [-> _]. apply returns_done. intros Hfit.
  destruct (Hpb Hfit) as (wire & rest & Hd & Hcons & Hbody & Hmax).
  destruct (slice_done _ _ _ _ Hs) as (Hle & _ & Hl). apply slice_split in Hs.
  destruct (head_status _ _ _ _ _ _ Hblock) as (_ & Hhi & _).
  constructor; simpl; try done; [|by apply Hi].
  exists [], head, wire, rest. split_and!; [by rewrite Hs, Hd| |constructor|rewrite len_nil; lia|done..].
  rewrite Hcons. simpl. rewrite len_app. lia.
Qed.

(** An interim response in front of an accepted one. *)
Lemma response_sound_after limits bytes eof request_method offset next block before p :
  slice offset next bytes = Done block -> interim_block limits block ->
  response_sound limits bytes eof request_method next (before + 1) p ->
  response_sound limits bytes eof request_method offset before p.
Proof.
  intros Hs Hblock [(interim & head & wire & rest & Hd & Hc & Hi & Hn & Hh & Hb) ? ? ? ?].
  split; try done.
  destruct (slice_done _ _ _ _ Hs) as (Hle & _ & Hl). apply slice_split in Hs.
  exists (block :: interim), head, wire, rest.
  split_and!; [| |by constructor|rewrite len_cons; lia|done..].
  - rewrite Hs, Hd. cbn [concat]. by rewrite <- (assoc_L (++)).
  - rewrite Hc. cbn [concat]. rewrite <- (assoc_L (++)), (len_app block). lia.
Qed.

Lemma parse_from_returns fuel bytes eof request_method limits offset interim :
  offset <= len bytes -> len bytes - offset < N.of_nat fuel ->
  (limits_fit limits -> interim <= maximum_interim_responses limits) ->
  returns (parse_from fuel bytes eof request_method limits offset interim)
    (on_ok (progress_sound limits bytes eof request_method offset interim)).
Proof.
  revert offset interim. induction fuel as [|fuel IH]; intros offset interim Ho Hf Hi; [lia|].
  cbn [parse_from]. eapply returns_bind; [by apply parse_head_returns|].
  intros [[[head_end [[version status] reason]] headers]|]; [|intros _; fails].
  intros (He & Hlt & head & Hs & Hblock).
  destruct (head_status _ _ _ _ _ _ Hblock) as (Hlo & _ & _).
  destruct (is_interim status) eqn:Hint.
  - destruct (status =? 101) eqn:H101; [fails|].
    destruct (_ <? saturating_add _ _) eqn:Hc; [fails|]. bools.
    destruct (len bytes <=? head_end); [destruct eof; fails|].
    eapply returns_weaken; [by apply IH; [done|lia|]|].
    intros [[|p]|e]; try done. intros Hp Hfit. specialize (Hp Hfit).
    destruct Hfit as (_ & _ & Hfi). rewrite (saturating_add_exact _ _ _ Hc Hfi) in Hp.
    eapply response_sound_after; [exact Hs|by exists version, status, reason, headers|exact Hp].
  - eapply parse_final_returns; try done. unfold is_interim in Hint.
    apply andb_false_iff in Hint as [Hint|Hint]; bools; lia.
Qed.

(** ** The verdict does not depend on how the bytes were split into reads *)

(** The verdict [x'] on more bytes agrees with the verdict [x] on fewer: unless [x]
    is still [pending], a value stays the same and an error stays an error. *)
Definition grows {A} (pending : A) (x x' : Run (Result A Http1Error)) : Prop :=
  match x with
  | Done (Ok a) => a = pending \/ x' = Done (Ok a)
  | Done (Err _) => exists e, x' = Done (Err e)
  | Panic _ => True
  end.

Lemma grows_err {A} (p : A) e e' : grows p (Done (Err e)) (Done (Err e')).
Proof. by exists e'. Qed.

Lemma grows_refl {A} (p : A) x : grows p x x.
Proof. destruct x as [[]|]; simpl; eauto. Qed.

Lemma grows_eq {A} (p : A) x x' : x' = x -> grows p x x'.
Proof. intros ->. apply grows_refl. Qed.

(** Sequencing: the rest is looked at only when the first part was decided. *)
Lemma grows_bind {A B} (p : A) (q : B) x x' (k k' : A -> Run (Result B Http1Error)) :
  grows p x x' -> k p = Done (Ok q) ->
  (forall a, x = Done (Ok a) -> grows q (k a) (k' a)) ->
  grows q (let!? a := x in k a) (let!? a := x' in k' a).
Proof.
  intros Hg Hp Hk. destruct x as [[a|e]|m]; simpl in *; [|by destruct Hg as [e' ->]; exists e'|done].
  destruct Hg as [->| ->]; [rewrite Hp; by left|by apply Hk].
Qed.

#[local] Hint Resolve grows_err grows_refl : core.

Lemma drop_more {A} n (l more : list A) :
  n <= len l -> drop (N.to_nat n) (l ++ more) = drop (N.to_nat n) l ++ more.
Proof. intros H. apply drop_app_le. unfold len in H. lia. Qed.

Lemma find_double_crlf_more s more i :
  find_double_crlf s = Some i -> find_double_crlf (s ++ more) = Some i.
Proof.
  unfold find_double_crlf. destruct (find_window _ s) as [j|] eqn:E; [|done].
  intros [= <-]. by rewrite (find_window_app _ _ more _ E).
Qed.

Lemma find_double_crlf_late s more i :
  find_double_crlf s = None -> find_double_crlf (s ++ more) = Some i -> len s < i.
Proof.
  unfold find_double_crlf. destruct (find_window _ s) eqn:E; [done|]. intros _.
  destruct (find_window _ (s ++ more)) as [j|] eqn:F; [|done]. intros [= <-].
  pose proof (find_window_app_none _ _ _ _ E F) as H.
  by change (len (CRLF ++ CRLF)) with 4 in H.
Qed.

(** A block that is too long before its end arrived is too long with it. *)
Lemma late_block_exceeds cap bytes more cursor v block :
  cursor <= len bytes -> cap < len bytes - cursor ->
  find_double_crlf (drop (N.to_nat cursor) bytes) = None ->
  find_double_crlf (drop (N.to_nat cursor) bytes ++ more) = Some v ->
  slice cursor (cursor + v) (bytes ++ more) = Done block ->
  (cap <? len block) = true.
Proof.
  intros Hc Hcap Hn Hv Hs. pose proof (find_double_crlf_late _ _ _ Hn Hv) as Hl.
  rewrite len_drop in Hl. apply slice_done in Hs as (_ & _ & ->). apply N.ltb_lt. lia.
Qed.

(** What is found in the bytes from [cursor] on lies in the longer input too. *)
Lemma block_in_range bytes more cursor v :
  cursor <= len bytes -> find_double_crlf (drop (N.to_nat cursor) bytes ++ more) = Some v ->
  exists block, slice cursor (cursor + v) (bytes ++ more) = Done block.
Proof.
  intros Hc Hv. apply find_double_crlf_some in Hv. rewrite len_app, len_drop in Hv.
  eexists. apply slice_in_range; rewrite ?len_app; lia.
Qed.

Lemma parse_trailers_grows bytes more eof limits cursor decoded :
  cursor <= len bytes ->
  grows None (parse_trailers bytes false limits cursor decoded)
             (parse_trailers (bytes ++ more) eof limits cursor decoded).
Proof.
  intros Hc. unfold parse_trailers, saturating_sub.
  destruct (len bytes - cursor <? 2) eqn:H2; [by left|]. bools.
  assert ((len (bytes ++ more) - cursor <? 2) = false) as ->
    by (apply N.ltb_ge; rewrite len_app; lia).
  rewrite slice_app by lia. destruct (slice cursor _ bytes) as [t|]; [|done].
  destruct (bool_decide (t = CRLF)); [done|].
  rewrite !slice_from, drop_more by (rewrite ?len_app; lia).
  destruct (find_double_crlf (drop _ bytes)) as [v|] eqn:Hv.
  - rewrite (find_double_crlf_more _ more _ Hv).
    apply find_double_crlf_some in Hv. rewrite len_drop in Hv. by rewrite slice_app by lia.
  - destruct (_ <? len bytes - cursor) eqn:Hm; [|by left].
    bools. destruct (find_double_crlf (_ ++ more)) as [v|] eqn:Hv'.
    + destruct (block_in_range _ _ _ _ Hc Hv') as [block Hblock]. rewrite Hblock.
      by rewrite (late_block_exceeds _ _ _ _ _ _ Hc Hm Hv Hv' Hblock).
    + by assert ((maximum_trailer_bytes limits <? len (bytes ++ more) - cursor) = true) as ->
        by (apply N.ltb_lt; rewrite len_app; lia).
Qed.

Lemma chunk_size_line_grows bytes more eof cursor :
  cursor <= len bytes ->
  grows None (chunk_size_line bytes false cursor) (chunk_size_line (bytes ++ more) eof cursor).
Proof.
  intros Hc. unfold chunk_size_line, saturating_sub in *.
  rewrite !slice_from, drop_more in * by (rewrite ?len_app; lia).
  destruct (find_crlf (drop _ bytes)) as [v|] eqn:Hv.
  - rewrite (find_window_app _ _ more _ Hv : find_crlf (_ ++ more) = _).
    apply find_window_some in Hv as [Hb _]. rewrite len_drop in Hb. change (len CRLF) with 2 in Hb.
    by rewrite slice_app by lia.
  - destruct (128 <? len bytes - cursor) eqn:Hm; [|by left].
    bools. destruct (find_crlf (_ ++ more)) as [v|] eqn:Hv'.
    + pose proof (find_window_app_none _ _ _ _ Hv Hv') as Hlate.
      rewrite len_drop in Hlate. change (len CRLF) with 2 in Hlate.
      apply find_window_some in Hv' as [Hb _]. rewrite len_app, len_drop in Hb.
      change (len CRLF) with 2 in Hb.
      destruct (slice cursor (cursor + v) (bytes ++ more)) as [line|] eqn:Hs.
      2: { rewrite slice_in_range in Hs by (rewrite ?len_app; lia). done. }
      apply slice_done in Hs as (_ & _ & Hlen).
      assert ((16 <? len line) = true) as -> by (apply N.ltb_lt; lia).
      rewrite orb_true_r. cbn [orb]. by destruct (contains_byte 59 line).
    + by assert ((128 <? len (bytes ++ more) - cursor) = true) as ->
        by (apply N.ltb_lt; rewrite len_app; lia).
Qed.

Lemma chunk_data_grows bytes more eof limits cursor decoded chunks size :
  grows None (chunk_data bytes false limits cursor decoded chunks size)
             (chunk_data (bytes ++ more) eof limits cursor decoded chunks size).
Proof.
  unfold chunk_data. destruct (_ <? chunks); [done|]. destruct (_ <? size); [done|].
  destruct (_ <? saturating_add _ _); [done|].
  destruct (checked_add cursor size) as [e|]; [|done].
  destruct (checked_add e 2) as [n|] eqn:Hn; [|done]. apply checked_add_some in Hn as [-> _].
  destruct (len bytes <? _) eqn:Hlen; [by left|]. bools.
  assert ((len (bytes ++ more) <? e + 2) = false) as ->
    by (apply N.ltb_ge; rewrite len_app; lia).
  by rewrite !slice_app by lia.
Qed.

Lemma returns_ok {A E} (x : Run (Result A E)) P a : returns x (on_ok P) -> x = Done (Ok a) -> P a.
Proof. intros (r & -> & H) [= ->]. exact H. Qed.

Lemma parse_chunks_grows fuel fuel' bytes more eof limits cursor decoded chunks :
  cursor <= len bytes -> len bytes - cursor < N.of_nat fuel ->
  len (bytes ++ more) - cursor < N.of_nat fuel' ->
  grows None (parse_chunks fuel bytes false limits cursor decoded chunks)
             (parse_chunks fuel' (bytes ++ more) eof limits cursor decoded chunks).
Proof.
  revert fuel' cursor decoded chunks.
  induction fuel as [|fuel IH]; intros fuel' cursor decoded chunks Hc Hf Hf'; [lia|].
  destruct fuel' as [|fuel']; [lia|]. cbn [parse_chunks].
  eapply grows_bind; [by apply chunk_size_line_grows|done|].
  intros line Hline. apply (returns_ok _ _ _ (chunk_size_line_returns _ _ _ Hc)) in Hline.
  destruct line as [[next size]|]; [|done].
  destruct Hline as (Hn & Hlt & _). destruct (size =? 0) eqn:Hz; bools.
  { by apply parse_trailers_grows. }
  eapply grows_bind; [apply chunk_data_grows|done|].
  assert (0 < size) as H0 by lia. intros chunk Hchunk.
  apply (returns_ok _ _ _ (chunk_data_returns _ _ _ _ _ _ _ Hn H0)) in Hchunk.
  destruct chunk as [[e data]|]; [|done]. destruct Hchunk as (He & Hlt2 & _).
  apply IH; rewrite ?len_app in *; lia.
Qed.

Lemma parse_body_grows bytes more eof limits framing start :
  start <= len bytes ->
  grows None (parse_body bytes false limits framing start)
             (parse_body (bytes ++ more) eof limits framing start).
Proof.
  intros Hs. unfold parse_body, saturating_sub. destruct framing as [|n| |]; [done| | |by left].
  - destruct (maximum_response_body_bytes limits <? n); [done|].
    destruct (len bytes - start <? n) eqn:Ha; [by left|]. bools.
    assert ((len (bytes ++ more) - start <? n) = false) as ->
      by (apply N.ltb_ge; rewrite len_app; lia).
    by rewrite slice_app by lia.
  - rewrite !slice_from, drop_more by (rewrite ?len_app; lia).
    apply parse_chunks_grows; unfold len; lia.
Qed.

Lemma parse_head_grows bytes more eof limits offset :
  offset <= len bytes ->
  grows None (parse_head bytes false limits offset) (parse_head (bytes ++ more) eof limits offset).
Proof.
  intros Hc. unfold parse_head, saturating_sub.
  rewrite !slice_from, drop_more by (rewrite ?len_app; lia).
  destruct (find_double_crlf (drop _ bytes)) as [v|] eqn:Hv.
  - rewrite (find_double_crlf_more _ more _ Hv).
    destruct (checked_add offset v) as [e|] eqn:He; [|done]. apply checked_add_some in He as [-> _].
    apply find_double_crlf_some in Hv. rewrite len_drop in Hv. by rewrite slice_app by lia.
  - destruct (_ <? len bytes - offset) eqn:Hm; [|by left].
    bools. destruct (find_double_crlf (_ ++ more)) as [v|] eqn:Hv'.
    + destruct (checked_add offset v) as [e|] eqn:He; [|done]. apply checked_add_some in He as [-> _].
      destruct (block_in_range _ _ _ _ Hc Hv') as [block Hblock]. rewrite Hblock.
      by rewrite (late_block_exceeds _ _ _ _ _ _ Hc Hm Hv Hv' Hblock).
    + by assert ((maximum_response_header_bytes limits <? len (bytes ++ more) - offset) = true) as ->
        by (apply N.ltb_lt; rewrite len_app; lia).
Qed.

Lemma parse_from_grows fuel fuel' bytes more eof request_method limits offset interim :
  offset <= len bytes -> len bytes - offset < N.of_nat fuel ->
  len (bytes ++ more) - offset < N.of_nat fuel' ->
  grows Incomplete (parse_from fuel bytes false request_method limits offset interim)
                   (parse_from fuel' (bytes ++ more) eof request_method limits offset interim).
Proof.
  revert fuel' offset interim.
  induction fuel as [|fuel IH]; intros fuel' offset interim Hc Hf Hf'; [lia|].
  destruct fuel' as [|fuel']; [lia|]. cbn [parse_from].
  eapply grows_bind; [by apply parse_head_grows|done|].
  intros head Hhead. apply (returns_ok _ _ _ (parse_head_returns _ _ _ _ Hc)) in Hhead.
  destruct head as [[[head_end [[version status] reason]] headers]|]; [|done].
  destruct Hhead as (He & Hlt & _). destruct (is_interim status).
  - destruct (status =? 101); [done|]. destruct (_ <? saturating_add _ _); [done|].
    destruct (len bytes <=? head_end) eqn:Hend; [by left|]. bools.
    assert ((len (bytes ++ more) <=? head_end) = false) as ->
      by (apply N.leb_gt; rewrite len_app; lia).
    apply IH; rewrite ?len_app in *; lia.
  - unfold parse_final. destruct (determine_framing _ _ _ _) as [framing|]; [|done].
    eapply grows_bind; [by apply parse_body_grows|done|]. by intros [pb|] _.
Qed.

(** ** Decoding what was encoded *)

Lemma hexdigit_not_cr line :
  forallb is_ascii_hexdigit line = true -> Forall (fun c => c <> "013"%char) line.
Proof.
  intros H. apply Forall_forall. intros c Hc. rewrite forallb_elem in H. specialize (H c Hc).
  by intros ->.
Qed.

Lemma size_line_fits line n : size_line line n -> n <= u64_max.
Proof.
  intros [_ Hb Hh <-]. apply hex_bound_size in Hh.
  assert (16 ^ len line <= 16 ^ 16) by (apply N.pow_le_mono_r; lia).
  change (16 ^ 16) with 18446744073709551616 in *. unfold u64_max. lia.
Qed.

Lemma chunk_size_line_found bytes eof cursor line n s :
  cursor <= len bytes -> size_line line n ->
  drop (N.to_nat cursor) bytes = line ++ CRLF ++ s ->
  chunk_size_line bytes eof cursor = Done (Ok (Some (cursor + len line + 2, n))).
Proof.
  intros Hc Hl Hd. pose proof (size_line_fits _ _ Hl) as Hu. destruct Hl as [Hne Hb Hh Hn].
  unfold chunk_size_line. rewrite slice_from, Hd by done.
  unfold find_crlf, CRLF at 1. rewrite find_window_skip by by apply hexdigit_not_cr.
  change (find_window _ (CRLF ++ s)) with (Some 0). cbn [fmap option_fmap option_map].
  rewrite N.add_0_r, (slice_at _ _ _ _ _ Hc Hd eq_refl).
  assert (contains_byte 59 line = false) as ->.
  { apply not_true_iff_false. intros (c & Hin & Hs)%existsb_elem.
    rewrite forallb_elem in Hh. specialize (Hh c Hin). revert Hh Hs. byte_cases c. }
  assert ((len line =? 0) = false) as ->.
  { destruct line; [done|]. rewrite len_cons. apply N.eqb_neq. lia. }
  assert ((16 <? len line) = false) as -> by by apply N.ltb_ge.
  rewrite Hh, (hexdigit_ascii _ Hh), Hn. simpl.
  assert ((u64_max <? n) = false) as -> by by apply N.ltb_ge.
  done.
Qed.

Lemma chunk_data_found bytes eof limits cursor decoded chunks data s :
  cursor <= len bytes -> len bytes <= u64_max ->
  drop (N.to_nat cursor) bytes = data ++ CRLF ++ s ->
  chunks <= maximum_chunk_count limits -> len data <= maximum_chunk_bytes limits ->
  len decoded + len data <= maximum_response_body_bytes limits ->
  chunk_data bytes eof limits cursor decoded chunks (len data)
  = Done (Ok (Some (cursor + len data + 2, data))).
Proof.
  intros Hc Hu Hd Hk Hm Hb. unfold chunk_data.
  assert ((maximum_chunk_count limits <? chunks) = false) as -> by by apply N.ltb_ge.
  assert ((maximum_chunk_bytes limits <? len data) = false) as -> by by apply N.ltb_ge.
  assert ((maximum_response_body_bytes limits <? saturating_add (len decoded) (len data)) = false)
    as -> by (apply N.ltb_ge; unfold saturating_add; lia).
  pose proof (len_at _ _ _ _ Hc Hd) as Hlen. rewrite len_app in Hlen.
  change (len CRLF) with 2 in Hlen.
  unfold checked_add. assert ((cursor + len data <=? u64_max) = true) as -> by (apply N.leb_le; lia).
  assert ((cursor + len data + 2 <=? u64_max) = true) as -> by (apply N.leb_le; lia).
  assert ((len bytes <? cursor + len data + 2) = false) as -> by (apply N.ltb_ge; lia).
  rewrite (slice_at _ _ _ CRLF s) by first [done | lia | by apply drop_at].
  rewrite bool_decide_eq_true_2 by done. simpl.
  by rewrite (slice_at _ _ _ _ _ Hc Hd eq_refl).
Qed.

Lemma parse_chunks_decodes fuel bytes eof limits cursor decoded n chunks zero s :
  cursor <= len bytes -> len bytes <= u64_max -> len bytes - cursor < N.of_nat fuel ->
  drop (N.to_nat cursor) bytes = concat (chunk_wire <$> chunks) ++ zero ++ CRLF ++ CRLF ++ s ->
  Forall (chunk_ok limits) chunks -> size_line zero 0 ->
  n + len chunks <= maximum_chunk_count limits -> maximum_chunk_count limits <= u64_max ->
  len decoded + len (concat (snd <$> chunks)) <= maximum_response_body_bytes limits ->
  parse_chunks fuel bytes eof limits cursor decoded n
  = Done (Ok (Some {| pb_body := decoded ++ concat (snd <$> chunks); pb_trailers := [];
       pb_consumed := cursor + len (concat (chunk_wire <$> chunks) ++ zero ++ CRLF ++ CRLF) |})).
Proof.
  intros Hc Hu Hf Hd Hcs Hz Hn Hcap Hb. revert cursor decoded n chunks Hc Hf Hd Hcs Hn Hb.
  induction fuel as [|fuel IH]; intros cursor decoded n chunks Hc Hf Hd Hcs Hn Hb; [lia|].
  cbn [parse_chunks]. destruct Hcs as [|[line data] chunks Hck Hcs].
  - cbn [fmap list_fmap concat app] in *.
    rewrite (chunk_size_line_found _ _ _ _ _ _ Hc Hz Hd).
    change (0 =? 0) with true. cbv iota.
    rewrite (assoc_L (++) zero) in Hd. apply drop_at in Hd as Hd2.
    pose proof (len_at _ _ _ _ Hc Hd) as Hlen. rewrite !len_app in Hlen.
    rewrite len_app, N.add_assoc in Hd2. change (len CRLF) with 2 in *.
    unfold parse_trailers, saturating_sub.
    assert ((len bytes - (cursor + len zero + 2) <? 2) = false) as -> by (apply N.ltb_ge; lia).
    rewrite (slice_at _ _ _ CRLF s) by first [done | lia].
    rewrite bool_decide_eq_true_2 by done. rewrite app_nil_r, !len_app.
    change (len CRLF) with 2. do 4 f_equal. lia.
  - destruct Hck as (Hline & H0 & Hm). cbn [fst snd] in *.
    rewrite !fmap_cons in *. cbn [concat snd] in *. unfold chunk_wire at 1 in Hd. cbn [fst snd] in Hd.
    rewrite <- !(assoc_L (++)) in Hd. rewrite len_app in Hb. rewrite len_cons in Hn.
    rewrite (chunk_size_line_found _ _ _ _ _ _ Hc Hline Hd).
    assert ((len data =? 0) = false) as -> by (apply N.eqb_neq; lia).
    rewrite (assoc_L (++) line) in Hd. pose proof (len_at _ _ _ _ Hc Hd) as Hlen.
    apply drop_at in Hd. rewrite !len_app in Hlen. rewrite len_app, N.add_assoc in Hd.
    change (len CRLF) with 2 in *.
    rewrite (saturating_add_small n 1 (maximum_chunk_count limits)) by lia.
    erewrite chunk_data_found; [|lia|done|exact Hd|lia|done|lia].
    rewrite (assoc_L (++) data) in Hd. apply drop_at in Hd.
    rewrite len_app, N.add_assoc in Hd. change (len CRLF) with 2 in Hd.
    rewrite (IH _ (decoded ++ data) (n + 1) chunks); [|rewrite ?len_app; first [done|lia]..].
    rewrite <- (assoc_L (++)). do 4 f_equal. unfold chunk_wire at 2. cbn [fst snd].
    rewrite !len_app. change (len CRLF) with 2. lia.
Qed.

(** ** Theorems *)

Lemma validated_limits_fit limits limits' :
  http1_limits_validate limits = Ok limits' -> limits' = limits /\ limits_fit limits.
Proof.
  unfold http1_limits_validate, validate_nonzero_cap. intros H. inv_ok H. bools.
  split; [done|]. unfold limits_fit.
  unfold MAX_HTTP_BODY_BYTES, MAX_HTTP_CHUNKS, MAX_HTTP_INTERIM_RESPONSES, u64_max in *. lia.
Qed.

(** What the parser says of the bytes received so far. *)
Definition accepts (bytes : str) (eof : bool) (request_method : str) (limits : Http1Limits)
    (p : ParsedResponse) : Prop :=
  parse_response bytes eof request_method limits = Done (Ok (Complete p)).
Definition rejects (bytes : str) (eof : bool) (request_method : str) (limits : Http1Limits) : Prop :=
  exists e, parse_response bytes eof request_method limits = Done (Err e).
Definition waits (bytes : str) (eof : bool) (request_method : str) (limits : Http1Limits) : Prop :=
  parse_response bytes eof request_method limits = Done (Ok Incomplete).

(** The parser returns on every input: for all bytes a server may send, for
    every method and all limits, it accepts, rejects or waits for more; it neither
    indexes out of range nor runs forever. *)
Theorem parse_response_total bytes eof request_method limits :
  (exists p, accepts bytes eof request_method limits p)
  \/ rejects bytes eof request_method limits \/ waits bytes eof request_method limits.
Proof.
  destruct (parse_from_returns (S (length bytes)) bytes eof request_method limits 0 0)
    as (r & Hr & _); [lia|unfold len; lia|lia|].
  unfold accepts, rejects, waits, parse_response. rewrite Hr. destruct r as [[|p]|e]; eauto.
Qed.

(** C36: what the parser accepts is one response, and its fields are what the
    bytes say.  The input is header blocks of interim responses (none of status
    101, as many as counted), the header block, the bytes of the body and a rest.
    Every header block is lines ended by CRLF with no other CR or LF: a status line
    with the version, code and reason, then exactly one line for each header, a
    nonempty token name, a colon and the trimmed value; sizes, counts, names and
    values obey the limits, and so do the lines of the trailers.  The framing
    follows from method, status and headers: a response to [HEAD] and one of status
    204 or 304 has no body, whatever its framing headers say; in any other response
    [Content-Length] and [Transfer-Encoding] are not both present, repeated lengths
    agree and chunked needs HTTP/1.1.  The body is what the framing says. *)
Theorem accepted_response_is_sound bytes eof request_method limits p :
  http1_limits_validate limits = Ok limits ->
  accepts bytes eof request_method limits p ->
  response_sound limits bytes eof request_method 0 0 p
  /\ pr_consumed_wire_bytes p <= len bytes.
Proof.
  intros [_ Hfit]%validated_limits_fit Hp.
  eapply returns_ok in Hp; [|apply parse_from_returns; [lia|unfold len; lia|lia]].
  specialize (Hp Hfit). split; [done|].
  destruct (sound_wire _ _ _ _ _ _ _ Hp) as (interim & head & wire & rest & Hd & -> & _).
  rewrite drop_0 in Hd. rewrite Hd, !len_app. lia.
Qed.

(** A verdict is final: once the parser has accepted a response or found an
    error in the bytes received so far, more bytes, or the end of the stream, do not
    change the response it accepts and do not turn the error into success. *)
Theorem parse_verdict_is_final bytes more eof request_method limits :
  (forall p, accepts bytes false request_method limits p ->
     accepts (bytes ++ more) eof request_method limits p)
  /\ (rejects bytes false request_method limits ->
      rejects (bytes ++ more) eof request_method limits).
Proof.
  pose proof (parse_from_grows (S (length bytes)) (S (length (bytes ++ more))) bytes more eof
    request_method limits 0 0) as H. unfold accepts, rejects, parse_response.
  split; [intros p Hx|intros [e Hx]]; rewrite Hx in H; simpl in H.
  - destruct H as [?|?]; unfold len; try lia; done.
  - apply H; unfold len; lia.
Qed.

(** Chunked bodies are decoded to what was encoded: for any chunks within the
    limits, with any size lines that denote their lengths, and whatever follows, the
    parser returns exactly the concatenated data and consumes exactly the encoding. *)
Theorem chunked_decodes_encoded chunks zero rest eof limits :
  let wire := concat (chunk_wire <$> chunks) ++ zero ++ CRLF ++ CRLF in
  let body := concat (snd <$> chunks) in
  http1_limits_validate limits = Ok limits ->
  len (wire ++ rest) <= u64_max ->
  Forall (chunk_ok limits) chunks -> size_line zero 0 ->
  len chunks <= maximum_chunk_count limits -> len body <= maximum_response_body_bytes limits ->
  parse_chunked (wire ++ rest) eof limits
  = Done (Ok (Some {| pb_body := body; pb_trailers := []; pb_consumed := len wire |})).
Proof.
  intros wire body [_ (_ & Hfit & _)]%validated_limits_fit Hu Hcs Hz Hn Hb.
  unfold parse_chunked. erewrite (parse_chunks_decodes _ _ _ _ 0 [] 0 chunks zero rest);
    try done; rewrite ?drop_0; try (unfold len in *; lia).
  unfold wire. by rewrite <- !(assoc_L (++)).
Qed.

(** ** Examples *)

Definition example_chunks : list (str * str) := [("3" : str, "abc" : str); ("02" : str, "de" : str)].
Definition example_response : str :=
  ("HTTP/1.1 103 Early Hints" : str) ++ CRLF ++ ("Link: </a>" : str) ++ CRLF ++ CRLF
  ++ ("HTTP/1.1 200 OK" : str) ++ CRLF ++ ("Transfer-Encoding: chunked" : str) ++ CRLF ++ CRLF
  ++ concat (chunk_wire <$> example_chunks) ++ ("0" : str) ++ CRLF ++ CRLF.
Definition example_parsed : ParsedResponse :=
  match parse_response example_response false "GET" http1_conservative_default with
  | Done (Ok (Complete p)) => p
  | _ => {| pr_response := {| hr_version := Http10; hr_status_code := 0; hr_reason := [];
             hr_headers := []; hr_trailers := []; hr_body := []; hr_framing := NoBody;
             hr_interim_responses := 0 |}; pr_consumed_wire_bytes := 0 |}
  end.

Lemma accepted_response_is_sound_witness :
  hr_body (pr_response example_parsed) = "abcde"
  /\ hr_framing (pr_response example_parsed) = Chunked
  /\ response_sound http1_conservative_default example_response false "GET" 0 0 example_parsed
  /\ pr_consumed_wire_bytes example_parsed <= len example_response.
Proof.
  split; [by vm_compute|]. split; [by vm_compute|].
  apply accepted_response_is_sound; by vm_compute.
Defined.

(** A response to [HEAD] keeps both framing headers and is accepted, though the
    framing contract calls the pair rejected unconditionally. *)
Definition both_framings : str :=
  ("HTTP/1.1 200 OK" : str) ++ CRLF ++ ("Transfer-Encoding: chunked" : str) ++ CRLF
  ++ ("Content-Length: 5" : str) ++ CRLF ++ CRLF.

Example head_ignores_framing_headers :
  (exists p, accepts both_framings false "HEAD" http1_conservative_default p
     /\ hr_framing (pr_response p) = NoBody
     /\ (hh_name <$> hr_headers (pr_response p)) = ["transfer-encoding" : str; "content-length" : str])
  /\ rejects both_framings false "GET" http1_conservative_default.
Proof. split; eexists; [split_and!|]; by vm_compute. Qed.

Lemma parse_verdict_is_final_witness :
  accepts (example_response ++ ("HTTP/1.1 200" : str)) true "GET" http1_conservative_default
    example_parsed.
Proof. apply (parse_verdict_is_final example_response); by vm_compute. Defined.

Definition example_encoding : str :=
  concat (chunk_wire <$> example_chunks) ++ ("0" : str) ++ CRLF ++ CRLF.

Lemma chunked_decodes_encoded_witness :
  concat (snd <$> example_chunks) = "abcde"
  /\ parse_chunked (example_encoding ++ ("next" : str)) false http1_conservative_default
     = Done (Ok (Some {| pb_body := concat (snd <$> example_chunks); pb_trailers := [];
                         pb_consumed := len example_encoding |})).
Proof.
  split; [done|].
  apply (chunked_decodes_encoded example_chunks "0" "next" false http1_conservative_default);
    [by vm_compute.. | | |by vm_compute|by vm_compute]; repeat constructor; by vm_compute.
Defined.
