(* ===== verification/Http1Codec.v ===== *)
(** * Http1Codec: one HTTP/1 exchange over a bounded stream

    Models [codec.rs] and [audit.rs] of [crates/nxb-http1]: the serialisation of a
    request with public and vault-managed headers, the loops that write it and read
    the response through a [BoundedByteStream], and the exchange with its audit
    record.  The loops are bounded by the operation budget of the stream: an
    exhausted bound is [Panic], which [exchange_returns] excludes. *)

From S2P Require Import Prelude ByteStr HashChain HttpSyntax Stream Vault Http1.
Local Open Scope N_scope.

(** ** Receipts and audit events ([model.rs]) *)

Record Http1ExchangeReceipt : Type := {
  xr_exchange_id : str;
  xr_stream_id : str;
  xr_execution_id : str;
  xr_request_method : str;
  xr_request_target_sha256 : str;
  xr_request_wire_sha256 : str;
  xr_request_body_sha256 : str;
  xr_request_header_count : N;
  xr_request_body_bytes : N;
  xr_response_wire_sha256 : str;
  xr_response_body_sha256 : str;
  xr_response_status : N;
  xr_response_version : str;
  xr_response_framing : str;
  xr_response_header_count : N;
  xr_response_trailer_count : N;
  xr_response_body_bytes : N;
  xr_interim_responses : N;
  xr_stream_audit_before : str;
  xr_stream_audit_after : str;
  xr_http_audit_tail : str
}.

Record Http1Exchange : Type := {
  he_response : Http1Response;
  he_receipt : Http1ExchangeReceipt
}.

Record Http1AuditEvent : Type := {
  ha_exchange_id : str;
  ha_stream_id : str;
  ha_execution_id : str;
  ha_request_method : str;
  ha_request_target_sha256 : str;
  ha_request_wire_sha256 : str;
  ha_request_body_sha256 : str;
  ha_request_header_count : N;
  ha_request_body_bytes : N;
  ha_response_wire_sha256 : str;
  ha_response_body_sha256 : str;
  ha_response_status : N;
  ha_response_version : str;
  ha_response_framing : str;
  ha_response_header_count : N;
  ha_response_trailer_count : N;
  ha_response_body_bytes : N;
  ha_interim_responses : N;
  ha_stream_audit_before : str;
  ha_stream_audit_after : str;
  ha_metadata : gmap str str
}.

(** ** Serialising a request ([codec.rs]) *)

Record SerializedRequest : Type := {
  sr_wire : str;
  sr_redacted_audit_wire : str;
  sr_header_count : N;
  sr_secret_header_count : N;
  sr_secret_lease_fingerprint : option str
}.

Definition append_request_prefix (output : str) (request : Http1Request) (authority : str) : str :=
  output ++ hq_method request ++ (" " : str) ++ hq_target request ++ (" HTTP/1.1" : str) ++ CRLF
    ++ ("Host: " : str) ++ authority ++ CRLF.

Definition append_header (output name value : str) : str :=
  output ++ name ++ (": " : str) ++ value ++ CRLF.

Definition validate_method (method : str) : Result unit Http1Error :=
  if (len method =? 0) || (32 <? len method) || negb (forallb is_token_byte method)
     || negb (forallb (fun c => negb (is_ascii_lowercase c)) method)
     || bool_decide (method = "CONNECT")
  then Err (InvalidRequest "method must be an uppercase token and CONNECT is unsupported")
  else Ok tt.

Definition validate_target (method target : str) : Result unit Http1Error :=
  if (len target =? 0) || (8 * 1024 <? len target)
     || existsb (fun c => is_ascii_control c || is_byte 32 c) target
     || contains_byte 35 target
     || starts_with target "http://" || starts_with target "https://" || starts_with target "//"
  then Err (InvalidRequest "request target must be bounded origin-form without fragment")
  else if bool_decide (target = "*") then
    if negb (bool_decide (method = "OPTIONS"))
    then Err (InvalidRequest "asterisk-form is allowed only for OPTIONS") else Ok tt
  else if negb (starts_with target "/")
  then Err (InvalidRequest "request target must use origin-form")
  else Ok tt.

Definition validate_request_header (header : Http1Header) (limits : Http1Limits)
    : Result str Http1Error :=
  if (len (hh_name header) =? 0) || (maximum_header_name_bytes limits <? len (hh_name header))
     || negb (forallb is_token_byte (hh_name header))
  then Err (InvalidRequest "request header name is invalid")
  else if (maximum_header_value_bytes limits <? len (hh_value header))
          || existsb is_prohibited_control (hh_value header)
  then Err (InvalidRequest "request header value is invalid")
  else Ok (to_ascii_lowercase (hh_name header)).

Definition is_managed_request_header (name : str) : bool :=
  existsb (fun n : str => bool_decide (name = n))
    ["host" : str; "content-length" : str; "transfer-encoding" : str; "connection" : str;
     "proxy-connection" : str; "expect" : str; "upgrade" : str; "trailer" : str; "te" : str].

Definition is_sensitive_request_header (name : str) : bool :=
  existsb (fun n : str => bool_decide (name = n))
    ["authorization" : str; "proxy-authorization" : str; "cookie" : str; "x-api-key" : str;
     "x-csrf-token" : str].

(** The loop over the headers of the caller: their names, and both outputs. *)
Fixpoint append_public (limits : Http1Limits) (headers : list Http1Header)
    (public_names : gset str) (output audit_output : str)
    : Result (gset str * str * str) Http1Error :=
  match headers with
  | [] => Ok (public_names, output, audit_output)
  | header :: rest =>
      let? normalized_name := validate_request_header header limits in
      if is_managed_request_header normalized_name
      then Err (InvalidRequest
             (("caller cannot supply managed header: " : str) ++ normalized_name))
      else if is_sensitive_request_header normalized_name
      then Err (InvalidRequest
             (("caller cannot supply vault-managed header: " : str) ++ normalized_name))
      else append_public limits rest (public_names ∪ {[ normalized_name ]})
             (append_header output normalized_name (hh_value header))
             (append_header audit_output normalized_name (hh_value header))
  end.

(** The headers of the lease, between the public headers and the managed ones;
    the lease is returned as the call leaves it. *)
Definition append_secret (request : Http1Request) (authority scheme : str) (limits : Http1Limits)
    (public_names : gset str) (output audit_output : str) (now_epoch_seconds : Z)
    (lease : SecretHeaderLease)
    : Result (str * str * N * str) Http1Error * SecretHeaderLease :=
  let (taken, lease) := take_for authority scheme now_epoch_seconds lease in
  (match taken with
   | Err error => Err (SecretHeaders error)
   | Ok batch =>
       match List.find (fun name => contains_name name batch) (btree_iter public_names) with
       | Some name =>
           Err (InvalidRequest (("public and secret headers collide: " : str) ++ name))
       | None =>
           let secret_header_count := len (hb_headers batch) in
           if maximum_header_count limits <? len (hq_headers request) + secret_header_count + 3
           then Err (InvalidRequest "request header count exceeds configured limit")
           else
             let '(result, (output, audit_output), _) := append_http1 output audit_output batch in
             match result with
             | Err error => Err (SecretHeaders error)
             | Ok _ => Ok (output, audit_output, secret_header_count, hb_lease_fingerprint batch)
             end
       end
   end, lease).

(** The managed headers, the end of the header block and the body. *)
Definition finish_request (request : Http1Request) (limits : Http1Limits)
    (output audit_output : str) (secret_header_count : N) (fingerprint : option str)
    : Result SerializedRequest Http1Error :=
  let content_length := decimal (len (hq_body request)) in
  let output := append_header output "Content-Length" content_length in
  let audit_output := append_header audit_output "Content-Length" content_length in
  let output := append_header output "Connection" "close" ++ CRLF in
  let audit_output := append_header audit_output "Connection" "close" ++ CRLF in
  if maximum_request_header_bytes limits <? len output
  then Err (InvalidRequest "request header block exceeds configured limit")
  else Ok {| sr_wire := output ++ hq_body request;
             sr_redacted_audit_wire := audit_output ++ hq_body request;
             sr_header_count := len (hq_headers request) + secret_header_count + 3;
             sr_secret_header_count := secret_header_count;
             sr_secret_lease_fingerprint := fingerprint |}.

(** What is checked and written before the lease is touched. *)
Definition start_request (request : Http1Request) (authority : str) (limits : Http1Limits)
    : Result (gset str * str * str) Http1Error :=
  let? _ := validate_method (hq_method request) in
  let? _ := validate_target (hq_method request) (hq_target request) in
  if (len authority =? 0)
     || existsb (fun c => is_ascii_control c || is_byte 32 c
                          || (is_byte 47 c || is_byte 92 c || is_byte 64 c)) authority
  then Err (InvalidRequest "stream authority is malformed")
  else if maximum_request_body_bytes limits <? len (hq_body request)
  then Err (InvalidRequest "request body exceeds configured limit")
  else append_public limits (hq_headers request) ∅
         (append_request_prefix [] request authority) (append_request_prefix [] request authority).

Definition serialize_request (request : Http1Request) (authority scheme : str)
    (limits : Http1Limits) (secret_headers : option (SecretHeaderLease * Z))
    : Result SerializedRequest Http1Error * option SecretHeaderLease :=
  match start_request request authority limits with
  | Err error => (Err error, fst <$> secret_headers)
  | Ok (public_names, output, audit_output) =>
      match secret_headers with
      | Some (lease, now_epoch_seconds) =>
          let (appended, lease) :=
            append_secret request authority scheme limits public_names output audit_output
              now_epoch_seconds lease in
          (let? (output, audit_output, secret_header_count, fingerprint) := appended in
           finish_request request limits output audit_output secret_header_count (Some fingerprint),
           Some lease)
      | None =>
          (if maximum_header_count limits <? len (hq_headers request) + 3
           then Err (InvalidRequest "request header count exceeds configured limit")
           else finish_request request limits output audit_output 0 None, None)
      end
  end.

(** ** The codec *)

Record Http1Codec (B : Type) : Type := {
  hc_stream : BoundedByteStream B;
  hc_limits : Http1Limits;
  hc_audit : HashChain Http1AuditEvent;
  hc_next_exchange_id : N;
  hc_completed : bool
}.
Arguments hc_stream {B} _.
Arguments hc_limits {B} _.
Arguments hc_audit {B} _.
Arguments hc_next_exchange_id {B} _.
Arguments hc_completed {B} _.

Definition set_stream {B} (stream : BoundedByteStream B) (self : Http1Codec B) : Http1Codec B :=
  {| hc_stream := stream; hc_limits := hc_limits self; hc_audit := hc_audit self;
     hc_next_exchange_id := hc_next_exchange_id self; hc_completed := hc_completed self |}.

Definition format_exchange_id (n : N) : str := ("http1-exchange-" : str) ++ decimal020 n.
#[global] Arguments format_exchange_id : simpl never.

Definition exchange_metadata (serialized : SerializedRequest) : gmap str str :=
  let metadata : gmap str str :=
    {[ ("connection_policy" : str) := ("close_after_exchange" : str);
       ("authority_source" : str) := ("stream_grant" : str);
       ("secret_header_count" : str) := decimal (sr_secret_header_count serialized);
       ("secret_wire_audit_policy" : str) := ("length_only_redaction" : str) ]} in
  match sr_secret_lease_fingerprint serialized with
  | Some fingerprint => <[("secret_lease_fingerprint" : str) := fingerprint]> metadata
  | None => metadata
  end.

Section Codec.
Context {S : Sha256Lib} {JS : JsonLib (HashMaterial StreamAuditEvent)}
  {JH : JsonLib (HashMaterial Http1AuditEvent)} {B : Type} {BB : ByteStreamBackend B}.

Definition http1_audit_new (genesis : str) : Result (HashChain Http1AuditEvent) ChainError :=
  chain_new_anchored genesis.
Definition http1_audit_append (event : Http1AuditEvent) (chain : HashChain Http1AuditEvent)
    : Result (ChainRecord Http1AuditEvent) ChainError * HashChain Http1AuditEvent :=
  chain_append event chain.
Definition http1_audit_verify (chain : HashChain Http1AuditEvent) : Result unit ChainError :=
  chain_verify chain.

Definition http1_codec_new (stream : BoundedByteStream B) (limits : Http1Limits)
    : Result (Http1Codec B) Http1Error :=
  let? limits := http1_limits_validate limits in
  let? _ := map_err Http1StreamAudit (stream_audit_verify (bs_audit stream)) in
  let? audit := map_err Http1Audit (http1_audit_new (tail_hash (bs_audit stream))) in
  Ok {| hc_stream := stream; hc_limits := limits; hc_audit := audit;
        hc_next_exchange_id := 1; hc_completed := false |}.

Fixpoint write_loop (fuel : nat) (limits : Http1Limits) (bytes : str) (control : StreamControl)
    (offset backpressure_events : N) (stream : BoundedByteStream B)
    : Run (Result unit Http1Error * BoundedByteStream B) :=
  match fuel with
  | O => Panic "loop bound"
  | Datatypes.S fuel' =>
      if offset <? len bytes then
        let! remaining := usize_sub (len bytes) offset in
        let chunk_len := N.min remaining (io_operation_bytes limits) in
        let! chunk := slice offset (offset + chunk_len) bytes in
        let (result, stream) := write chunk control stream in
        match result with
        | Err error => Done (Err (Http1Stream error), stream)
        | Ok result =>
            let receipt := wt_receipt result in
            match or_outcome receipt with
            | OWritten | OPartialWrite =>
                let transferred := or_transferred_bytes receipt in
                if (transferred =? 0) || (chunk_len <? transferred)
                then Done (Err (InvalidRequest "stream reported an invalid write length"), stream)
                else write_loop fuel' limits bytes control (offset + transferred) 0 stream
            | OBackpressure =>
                let backpressure_events := saturating_add backpressure_events 1 in
                if maximum_backpressure_events limits <? backpressure_events
                then Done (Err BackpressureBudgetExceeded, stream)
                else write_loop fuel' limits bytes control offset backpressure_events stream
            | outcome => Done (Err (StreamOutcome outcome), stream)
            end
        end
      else Done (Ok tt, stream)
  end.

Fixpoint read_loop (fuel : nat) (limits : Http1Limits) (request_method : str)
    (control : StreamControl) (wire : str) (eof : bool) (backpressure_events : N)
    (stream : BoundedByteStream B)
    : Run (Result (Http1Response * str) Http1Error * BoundedByteStream B) :=
  match fuel with
  | O => Panic "loop bound"
  | Datatypes.S fuel' =>
      let! progress := parse_response wire eof request_method limits in
      match progress with
      | Err error => Done (Err error, stream)
      | Ok (Complete parsed) =>
          if negb (pr_consumed_wire_bytes parsed =? len wire)
          then Done (Err (InvalidResponse "bytes remained after the framed response"), stream)
          else Done (Ok (pr_response parsed, wire), stream)
      | Ok Incomplete =>
          if eof
          then Done (Err (TruncatedResponse
                 "stream reached EOF before response framing completed"), stream)
          else
            let (result, stream) := read (io_operation_bytes limits) control stream in
            match result with
            | Err error => Done (Err (Http1Stream error), stream)
            | Ok result =>
                (* the response so far, whether it is complete, and the retries *)
                let continue wire eof backpressure_events :=
                  if maximum_response_wire_bytes limits <? len wire
                  then Done (Err (InvalidResponse "response wire bytes exceed configured limit"),
                             stream)
                  else read_loop fuel' limits request_method control wire eof backpressure_events
                         stream in
                match or_outcome (rd_receipt result) with
                | OData =>
                    if len (rd_bytes result) =? 0
                    then Done (Err (InvalidResponse "stream reported data without bytes"), stream)
                    else continue (wire ++ rd_bytes result) eof 0
                | OBackpressure =>
                    let backpressure_events := saturating_add backpressure_events 1 in
                    if maximum_backpressure_events limits <? backpressure_events
                    then Done (Err BackpressureBudgetExceeded, stream)
                    else continue wire eof backpressure_events
                | OEof => continue wire true backpressure_events
                | OTruncated =>
                    Done (Err (TruncatedResponse "underlying stream reported truncation"), stream)
                | outcome => Done (Err (StreamOutcome outcome), stream)
                end
            end
      end
  end.

(** Every round that goes on makes one recorded operation of the stream, whose
    number the stream limits bound; one more round may find the loop done. *)
Definition loop_fuel (stream : BoundedByteStream B) : nat :=
  N.to_nat (sl_maximum_operations (bs_limits stream)) + 2.

Definition write_all (limits : Http1Limits) (bytes : str) (control : StreamControl)
    (stream : BoundedByteStream B) : Run (Result unit Http1Error * BoundedByteStream B) :=
  write_loop (loop_fuel stream) limits bytes control 0 0 stream.

Definition read_response (limits : Http1Limits) (request_method : str) (control : StreamControl)
    (stream : BoundedByteStream B)
    : Run (Result (Http1Response * str) Http1Error * BoundedByteStream B) :=
  read_loop (loop_fuel stream) limits request_method control [] false 0 stream.

(** The audit event of a finished exchange. *)
Definition exchange_event (request : Http1Request) (serialized : SerializedRequest)
    (response : Http1Response) (response_wire exchange_id stream_audit_before stream_audit_after : str)
    (grant : StreamGrant) : Http1AuditEvent :=
  {| ha_exchange_id := exchange_id;
     ha_stream_id := gr_stream_id grant;
     ha_execution_id := gr_execution_id grant;
     ha_request_method := hq_method request;
     ha_request_target_sha256 := payload_hash (hq_target request);
     ha_request_wire_sha256 := payload_hash (sr_redacted_audit_wire serialized);
     ha_request_body_sha256 := payload_hash (hq_body request);
     ha_request_header_count := sr_header_count serialized;
     ha_request_body_bytes := len (hq_body request);
     ha_response_wire_sha256 := payload_hash response_wire;
     ha_response_body_sha256 := payload_hash (hr_body response);
     ha_response_status := hr_status_code response;
     ha_response_version := version_code (hr_version response);
     ha_response_framing := framing_code (hr_framing response);
     ha_response_header_count := len (hr_headers response);
     ha_response_trailer_count := len (hr_trailers response);
     ha_response_body_bytes := len (hr_body response);
     ha_interim_responses := hr_interim_responses response;
     ha_stream_audit_before := stream_audit_before;
     ha_stream_audit_after := stream_audit_after;
     ha_metadata := exchange_metadata serialized |}.

(** The receipt repeats the event, with the tail of the audit chain. *)
Definition exchange_receipt (event : Http1AuditEvent) (http_audit_tail : str)
    : Http1ExchangeReceipt :=
  {| xr_exchange_id := ha_exchange_id event;
     xr_stream_id := ha_stream_id event;
     xr_execution_id := ha_execution_id event;
     xr_request_method := ha_request_method event;
     xr_request_target_sha256 := ha_request_target_sha256 event;
     xr_request_wire_sha256 := ha_request_wire_sha256 event;
     xr_request_body_sha256 := ha_request_body_sha256 event;
     xr_request_header_count := ha_request_header_count event;
     xr_request_body_bytes := ha_request_body_bytes event;
     xr_response_wire_sha256 := ha_response_wire_sha256 event;
     xr_response_body_sha256 := ha_response_body_sha256 event;
     xr_response_status := ha_response_status event;
     xr_response_version := ha_response_version event;
     xr_response_framing := ha_response_framing event;
     xr_response_header_count := ha_response_header_count event;
     xr_response_trailer_count := ha_response_trailer_count event;
     xr_response_body_bytes := ha_response_body_bytes event;
     xr_interim_responses := ha_interim_responses event;
     xr_stream_audit_before := ha_stream_audit_before event;
     xr_stream_audit_after := ha_stream_audit_after event;
     xr_http_audit_tail := http_audit_tail |}.

(** From the framed response on: the stream is closed and the exchange recorded. *)
Definition finish_exchange (request : Http1Request) (serialized : SerializedRequest)
    (response : Http1Response) (response_wire stream_audit_before : str) (self : Http1Codec B)
    : Result Http1Exchange Http1Error * Http1Codec B :=
  let (closed, stream) :=
    if negb (stream_is_terminal (bs_state (hc_stream self))) then
      let (result, stream) := close (hc_stream self) in
      (match result with Ok _ => Ok tt | Err error => Err error end, stream)
    else (Ok tt, hc_stream self) in
  let self := set_stream stream self in
  match closed with
  | Err error => (Err (Http1Stream error), self)
  | Ok _ =>
      match stream_audit_verify (bs_audit stream) with
      | Err error => (Err (Http1StreamAudit error), self)
      | Ok _ =>
          let event :=
            exchange_event request serialized response response_wire
              (format_exchange_id (hc_next_exchange_id self)) stream_audit_before
              (tail_hash (bs_audit stream)) (bs_grant stream) in
          let (appended, audit) := http1_audit_append event (hc_audit self) in
          let self :=
            {| hc_stream := stream; hc_limits := hc_limits self; hc_audit := audit;
               hc_next_exchange_id := saturating_add (hc_next_exchange_id self) 1;
               hc_completed := true |} in
          match appended with
          | Err error => (Err (Http1Audit error), self)
          | Ok record =>
              (Ok {| he_response := response;
                     he_receipt := exchange_receipt event (record_hash record) |}, self)
          end
      end
  end.

Definition exchange_internal (request : Http1Request) (secret_headers : option SecretHeaderLease)
    (now_epoch_seconds : Z) (control : StreamControl) (self : Http1Codec B)
    : Run (Result Http1Exchange Http1Error * option SecretHeaderLease * Http1Codec B) :=
  if hc_completed self then Done (Err ExchangeAlreadyCompleted, secret_headers, self)
  else if stream_is_terminal (bs_state (hc_stream self))
  then Done (Err (Http1StreamState (bs_state (hc_stream self))), secret_headers, self)
  else
    let authority := gr_http_host (bs_grant (hc_stream self)) in
    let scheme := gr_scheme (bs_grant (hc_stream self)) in
    let (serialized, secret_headers) :=
      serialize_request request authority scheme (hc_limits self)
        ((fun lease => (lease, now_epoch_seconds)) <$> secret_headers) in
    match serialized with
    | Err error => Done (Err error, secret_headers, self)
    | Ok serialized =>
        let stream_audit_before := tail_hash (bs_audit (hc_stream self)) in
        let! (written, stream) :=
          write_all (hc_limits self) (sr_wire serialized) control (hc_stream self) in
        let self := set_stream stream self in
        match written with
        | Err error => Done (Err error, secret_headers, self)
        | Ok _ =>
            let! (received, stream) :=
              read_response (hc_limits self) (hq_method request) control (hc_stream self) in
            let self := set_stream stream self in
            match received with
            | Err error => Done (Err error, secret_headers, self)
            | Ok (response, response_wire) =>
                let (result, self) :=
                  finish_exchange request serialized response response_wire stream_audit_before self in
                Done (result, secret_headers, self)
            end
        end
    end.

Definition exchange (request : Http1Request) (control : StreamControl) (self : Http1Codec B)
    : Run (Result Http1Exchange Http1Error * option SecretHeaderLease * Http1Codec B) :=
  exchange_internal request None 0 control self.

Definition exchange_with_secret_headers (request : Http1Request) (secret_headers : SecretHeaderLease)
    (now_epoch_seconds : Z) (control : StreamControl) (self : Http1Codec B)
    : Run (Result Http1Exchange Http1Error * option SecretHeaderLease * Http1Codec B) :=
  exchange_internal request (Some secret_headers) now_epoch_seconds control self.
End Codec.
