(* ===== verification/Http1CodecFacts.v ===== *)
(** * Http1CodecFacts: what an HTTP/1 exchange guarantees

    Theorems on [Http1Codec]: a serialised request is exactly its lines, so no
    header, target or secret can add one; the audit copy is independent of the
    secret values; an exchange always returns; a finished one is framed, recorded
    and the last of its codec. *)

From S2P Require Import Prelude ByteStr HashChain Transport Executor HttpSyntax Stream Vault Http1 Http1Facts Http1Codec.
Local Open Scope N_scope.

(** ** Lines on the wire *)

(** A line that splitting at CRLF gives back. *)
Definition line_ok (l : str) : Prop := l <> [] /\ Forall (fun c => is_line_byte c = true) l.

Definition lines_wire (ls : list str) : str := concat ((fun l => l ++ CRLF) <$> ls).

Lemma line_byte_not_cr l :
  Forall (fun c => is_line_byte c = true) l -> Forall (fun c => c <> "013"%char) l.
Proof. intros H. eapply Forall_impl; [exact H|]. by intros c Hc ->. Qed.

Lemma lines_wire_cons l ls : lines_wire (l :: ls) = l ++ CRLF ++ lines_wire ls.
Proof. unfold lines_wire. rewrite fmap_cons. cbn [concat]. by rewrite <- (assoc_L (++)). Qed.

Lemma lines_wire_app ls ks : lines_wire (ls ++ ks) = lines_wire ls ++ lines_wire ks.
Proof. unfold lines_wire. by rewrite fmap_app, concat_app. Qed.

Lemma find_crlf_line l t :
  Forall (fun c => is_line_byte c = true) l -> find_crlf (l ++ CRLF ++ t) = Some (len l).
Proof.
  intros H. unfold find_crlf, CRLF at 1.
  rewrite find_window_skip by by apply line_byte_not_cr.
  change (find_window _ (CRLF ++ t)) with (Some 0). simpl. by rewrite N.add_0_r.
Qed.

Lemma find_crlf_none l : Forall (fun c => is_line_byte c = true) l -> find_crlf l = None.
Proof.
  intros H. unfold find_crlf, CRLF. rewrite <- (app_nil_r l).
  by rewrite find_window_skip by by apply line_byte_not_cr.
Qed.

(** Splitting gives back the lines. *)
Lemma split_crlf_loop_lines fuel l ls :
  Forall line_ok (l :: ls) -> (length (lines_wire (l :: ls)) <= fuel + 1)%nat ->
  exists text, lines_wire (l :: ls) = text ++ CRLF /\ split_crlf_loop fuel text = Done (l :: ls).
Proof.
  revert l ls. induction fuel as [|fuel IH]; intros l ls Hall Hf;
    apply Forall_cons in Hall as [[Hne Hl] Hls]; rewrite lines_wire_cons in *.
  { rewrite length_app in Hf. destruct l; simpl in Hf; [done|lia]. }
  destruct ls as [|l2 ls].
  - exists l. split; [done|]. simpl. by rewrite find_crlf_none.
  - destruct (IH l2 ls Hls) as (text & Ht & Hs).
    { rewrite !length_app in Hf. simpl in Hf. lia. }
    exists (l ++ CRLF ++ text). split; [by rewrite Ht, <- !(assoc_L (++))|].
    cbn [split_crlf_loop]. rewrite find_crlf_line by done.
    rewrite (slice_at 0 (len l) _ l (CRLF ++ text)) by first [done | lia].
    rewrite slice_from by (rewrite !len_app; change (len CRLF) with 2; lia).
    rewrite (assoc_L (++) l). replace (len l + 2) with (0 + len (l ++ CRLF))
      by (rewrite len_app; change (len CRLF) with 2; lia).
    by rewrite (drop_at 0 _ (l ++ CRLF) text), Hs.
Qed.

(** The blank line after the lines is the first one. *)
Lemma find_double_crlf_lines l ls body :
  Forall line_ok (l :: ls) ->
  find_double_crlf (lines_wire (l :: ls) ++ CRLF ++ body) = Some (len (lines_wire (l :: ls)) + 2).
Proof.
  revert l. induction ls as [|l2 ls IH]; intros l Hall; apply Forall_cons in Hall as [[_ Hl] Hls];
    unfold find_double_crlf in *; rewrite lines_wire_cons, <- !(assoc_L (++));
    (change (CRLF ++ CRLF) with ("013"%char :: "010"%char :: CRLF) in *);
    rewrite find_window_skip by (by apply line_byte_not_cr).
  - change (lines_wire [] ++ CRLF ++ body) with (CRLF ++ body).
    change (find_window _ (CRLF ++ CRLF ++ body)) with (Some 0).
    cbn [fmap option_fmap option_map]. rewrite !len_app. change (len CRLF) with 2. change (len (lines_wire [])) with 0. f_equal. lia.
  - specialize (IH l2 Hls).
    destruct (find_window _ (lines_wire (l2 :: ls) ++ CRLF ++ body)) as [j|] eqn:Hj; [|done].
    simpl in IH. injection IH as IH.
    assert (find_window ("013"%char :: "010"%char :: CRLF) (CRLF ++ lines_wire (l2 :: ls) ++ CRLF ++ body)
            = Some (2 + j)) as ->.
    { apply Forall_cons in Hls as [[Hne2 Hl2] _]. rewrite lines_wire_cons in Hj |- *.
      destruct l2 as [|c l2]; [done|]. apply Forall_cons in Hl2 as [Hc _].
      change (CRLF ++ ((c :: l2) ++ CRLF ++ lines_wire ls) ++ CRLF ++ body)
        with ("013"%char :: "010"%char :: ((c :: l2) ++ CRLF ++ lines_wire ls) ++ CRLF ++ body).
      cbn [find_window]. rewrite Hj.
      destruct (starts_with _ _) eqn:Hsw.
      - apply starts_with_spec in Hsw as [r Hsw]. simpl in Hsw. injection Hsw as -> _. done.
      - simpl. f_equal. lia. }
    cbn [fmap option_fmap option_map]. f_equal. rewrite !len_app. change (len CRLF) with 2. lia.
Qed.

(** A message of these lines and a body reads back as its lines and the body. *)
Record reads_as (wire : str) (lines : list str) (body : str) : Prop := {
  reads_end : find_double_crlf wire = Some (len wire - len body);
  reads_lines : split_crlf (take (N.to_nat (len wire - len body - 4)) wire) = Done lines;
  reads_body : drop (N.to_nat (len wire - len body)) wire = body
}.

Lemma lines_read_back l ls body :
  Forall line_ok (l :: ls) ->
  reads_as (lines_wire (l :: ls) ++ CRLF ++ body) (l :: ls) body.
Proof.
  intros Hall. assert (len (lines_wire (l :: ls) ++ CRLF ++ body) - len body
    = len (lines_wire (l :: ls)) + 2) as Hlen.
  { rewrite !len_app. change (len CRLF) with 2. lia. }
  split; rewrite ?Hlen.
  - by apply find_double_crlf_lines.
  - destruct (split_crlf_loop_lines (length (lines_wire (l :: ls)) - 1) l ls Hall)
      as (text & Ht & Hs).
    { lia. }
    rewrite Ht. rewrite <- (assoc_L (++)).
    replace (N.to_nat (len (text ++ CRLF) + 2 - 4)) with (length text).
    2: { rewrite len_app. change (len CRLF) with 2. unfold len. lia. }
    rewrite take_app_length. unfold split_crlf. rewrite Ht, length_app in Hs.
    change (length CRLF) with 2%nat in Hs.
    by replace (length text + 2 - 1)%nat with (S (length text)) in Hs by lia.
  - rewrite (assoc_L (++)). replace (len (lines_wire (l :: ls)) + 2)
      with (0 + len (lines_wire (l :: ls) ++ CRLF)) by (rewrite len_app; done).
    by apply drop_at.
Qed.

(** ** The lines of a request *)

Definition request_line (request : Http1Request) : str :=
  hq_method request ++ (" " : str) ++ hq_target request ++ (" HTTP/1.1" : str).
Definition field_line (name value : str) : str := name ++ (": " : str) ++ value.
Definition public_line (h : Http1Header) : str := field_line (to_ascii_lowercase (hh_name h)) (hh_value h).
Definition secret_line (h : MaterializedHeader) : str := field_line (mh_wire_name h) (mh_value h).
Definition redacted_field (h : MaterializedHeader) : str :=
  field_line (mh_wire_name h) (("<redacted:" : str) ++ decimal (len (mh_value h)) ++ (">" : str)).

(** The lines of a request, with the secret headers shown by [secret]. *)
Definition request_lines (request : Http1Request) (authority : str)
    (secrets : list MaterializedHeader) (secret : MaterializedHeader -> str) : list str :=
  [request_line request; ("Host: " : str) ++ authority]
  ++ (public_line <$> hq_headers request) ++ (secret <$> secrets)
  ++ [field_line "Content-Length" (decimal (len (hq_body request)));
      field_line "Connection" "close"].

(** A public header the caller may supply. *)
Record public_ok (limits : Http1Limits) (h : Http1Header) : Prop := {
  public_name : hh_name h <> [] /\ forallb is_token_byte (hh_name h) = true;
  public_value : existsb is_prohibited_control (hh_value h) = false;
  public_bounds : len (hh_name h) <= maximum_header_name_bytes limits
    /\ len (hh_value h) <= maximum_header_value_bytes limits;
  public_unmanaged : is_managed_request_header (to_ascii_lowercase (hh_name h)) = false
    /\ is_sensitive_request_header (to_ascii_lowercase (hh_name h)) = false
}.

Lemma append_header_line output name value :
  append_header output name value = output ++ lines_wire [field_line name value].
Proof.
  unfold append_header, field_line, lines_wire. simpl. by rewrite app_nil_r, <- !(assoc_L (++)).
Qed.

Lemma request_prefix_lines request authority :
  append_request_prefix [] request authority
  = lines_wire [request_line request; ("Host: " : str) ++ authority].
Proof.
  unfold append_request_prefix, request_line. rewrite !lines_wire_cons.
  change (lines_wire []) with (@nil ascii). by rewrite app_nil_r, <- !(assoc_L (++)).
Qed.

Lemma append_public_ok limits headers names output audit names' output' audit' :
  append_public limits headers names output audit = Ok (names', output', audit') ->
  Forall (public_ok limits) headers
  /\ output' = output ++ lines_wire (public_line <$> headers)
  /\ audit' = audit ++ lines_wire (public_line <$> headers)
  /\ names' = names ∪ list_to_set (to_ascii_lowercase ∘ hh_name <$> headers).
Proof.
  revert names output audit. induction headers as [|h hs IH]; intros names output audit; simpl.
  { intros [= <- <- <-]. change (lines_wire []) with (@nil ascii).
    rewrite !app_nil_r. split_and!; [constructor|done|done|set_solver]. }
  unfold validate_request_header. destruct (_ || negb _) eqn:Hn; [done|].
  destruct (_ || existsb _ _) eqn:Hv; [done|].
  destruct (is_managed_request_header _) eqn:Hm; [done|].
  destruct (is_sensitive_request_header _) eqn:Hs; [done|].
  intros (Hall & -> & -> & ->)%IH. bools.
  rewrite !append_header_line, <- !(assoc_L (++)), <- !lines_wire_app.
  split_and!; [|done|done|set_solver]. constructor; [|done].
  split; [|done|done|done]. split; [|done]. intros E. by rewrite E in *.
Qed.

Lemma wire_lines (hs : list MaterializedHeader) :
  concat (wire_line <$> hs) = lines_wire (secret_line <$> hs).
Proof.
  unfold lines_wire. rewrite <- list_fmap_compose. f_equal. apply list_fmap_ext. intros _ h _.
  unfold wire_line, secret_line, field_line, compose. by rewrite <- !(assoc_L (++)).
Qed.

Lemma redacted_lines (hs : list MaterializedHeader) :
  concat (redacted_line <$> hs) = lines_wire (redacted_field <$> hs).
Proof.
  unfold lines_wire. rewrite <- list_fmap_compose. f_equal. apply list_fmap_ext. intros _ h _.
  unfold redacted_line, redacted_field, field_line, compose. by rewrite <- !(assoc_L (++)).
Qed.

(** The secret headers a call serialises. *)
Definition lease_headers (secret_headers : option (SecretHeaderLease * Z)) : list MaterializedHeader :=
  match secret_headers with Some (lease, _) => hl_headers lease | None => [] end.

Record request_shape (request : Http1Request) (authority : str) (limits : Http1Limits) : Prop := {
  shape_method : hq_method request <> [] /\ forallb is_token_byte (hq_method request) = true;
  shape_target : existsb (fun c => is_ascii_control c || is_byte 32 c) (hq_target request) = false;
  shape_authority : existsb is_ascii_control authority = false;
  shape_public : Forall (public_ok limits) (hq_headers request);
  shape_body : len (hq_body request) <= maximum_request_body_bytes limits
}.

Lemma start_request_ok request authority limits names output audit :
  start_request request authority limits = Ok (names, output, audit) ->
  request_shape request authority limits
  /\ output = lines_wire ([request_line request; ("Host: " : str) ++ authority]
                          ++ (public_line <$> hq_headers request))
  /\ audit = output
  /\ names = list_to_set (to_ascii_lowercase ∘ hh_name <$> hq_headers request).
Proof.
  unfold start_request, validate_method, validate_target. intros H.
  destruct (_ || bool_decide _) eqn:Hm; [done|].
  destruct (_ || starts_with _ "//") eqn:Ht; [done|].
  assert (append_public limits (hq_headers request) ∅ (append_request_prefix [] request authority)
            (append_request_prefix [] request authority) = Ok (names, output, audit)
          /\ existsb is_ascii_control authority = false
          /\ len (hq_body request) <= maximum_request_body_bytes limits) as (Hp & Ha & Hb).
  { destruct (if bool_decide _ then _ else _) as [[]|]; [|done].
    destruct ((len authority =? 0) || _) eqn:Ha; [done|].
    destruct (_ <? len (hq_body request)) eqn:Hb; [done|]. bools. split_and!; [done| |done].
    apply not_true_iff_false. intros (c & Hc & Hx)%existsb_elem.
    assert (existsb (fun c => is_ascii_control c || is_byte 32 c
      || (is_byte 47 c || is_byte 92 c || is_byte 64 c)) authority = true) as E; [|congruence].
    apply existsb_elem. exists c. split; [done|]. by rewrite Hx. }
  apply append_public_ok in Hp as (Hpub & -> & -> & ->).
  rewrite request_prefix_lines, <- lines_wire_app, (left_id_L ∅ (∪)).
  split_and!; [|done..]. bools. split; try done. split; [|done]. intros E. by rewrite E in *.
Qed.

Lemma append_secret_ok request authority scheme limits names output audit now lease o a n f lease' :
  append_secret request authority scheme limits names output audit now lease
    = (Ok (o, a, n, f), lease') ->
  Forall header_fits (hl_headers lease)
  /\ o = output ++ lines_wire (secret_line <$> hl_headers lease)
  /\ a = audit ++ lines_wire (redacted_field <$> hl_headers lease)
  /\ n = len (hl_headers lease) /\ f = hl_fingerprint lease /\ hl_consumed lease = false
  /\ (forall h, h ∈ hl_headers lease -> mh_normalized_name h ∉ names)
  /\ (now < hl_expires_at_epoch_seconds lease)%Z
  /\ vault_normalize_host authority = Ok (hl_authority lease)
  /\ vault_normalize_scheme scheme = Ok (hl_scheme lease).
Proof.
  unfold append_secret. intros H. destruct (take_for _ _ _ _) as [taken lease2] eqn:Ht.
  destruct taken as [batch|]; [|done].
  assert (hb_lease_fingerprint batch = hl_fingerprint lease) as Hfp.
  { unfold take_for in Ht. by repeat step_in Ht; simplify_eq. }
  apply take_for_ok in Ht as (Hc & Hexp & Hau & Hsc & Hh & He & _).
  destruct (List.find _ _) eqn:Hf; [done|]. destruct (_ <? _) eqn:Hn; [done|].
  unfold append_http1 in H. rewrite He in H.
  destruct (append_headers _ _ _) as [[[]|] [w r]] eqn:Ha; [|done].
  apply append_headers_ok in Ha as (Hall & -> & ->). simplify_eq.
  rewrite Hh, wire_lines, redacted_lines in *. split_and!; try done.
  intros h Hin Hname. apply elem_of_btree_iter in Hname.
  rewrite find_none_elem in Hf. pose proof (Hf _ Hname) as Hno. unfold contains_name in Hno.
  rewrite Hh in Hno. apply not_true_iff_false in Hno. apply Hno, existsb_elem. exists h.
  split; [done|]. by apply bool_decide_eq_true.
Qed.

(** What a call that succeeds has serialised. *)
Record serialized_as (request : Http1Request) (authority : str) (limits : Http1Limits)
    (secrets : list MaterializedHeader) (fingerprint : option str) (sr : SerializedRequest)
    : Prop := {
  as_shape : request_shape request authority limits;
  as_secrets : Forall header_fits secrets;
  as_wire : sr_wire sr = lines_wire (request_lines request authority secrets secret_line)
              ++ CRLF ++ hq_body request;
  as_audit : sr_redacted_audit_wire sr
    = lines_wire (request_lines request authority secrets redacted_field) ++ CRLF ++ hq_body request;
  as_count : sr_header_count sr = len (hq_headers request) + len secrets + 3;
  as_cap : sr_header_count sr <= maximum_header_count limits;
  as_secret_count : sr_secret_header_count sr = len secrets;
  as_fingerprint : sr_secret_lease_fingerprint sr = fingerprint
}.

Lemma finish_request_ok request authority limits secrets n f sr :
  request_shape request authority limits -> Forall header_fits secrets -> n = len secrets ->
  len (hq_headers request) + n + 3 <= maximum_header_count limits ->
  let head := [request_line request; ("Host: " : str) ++ authority]
              ++ (public_line <$> hq_headers request) in
  finish_request request limits (lines_wire head ++ lines_wire (secret_line <$> secrets))
    (lines_wire head ++ lines_wire (redacted_field <$> secrets)) n f = Ok sr ->
  serialized_as request authority limits secrets f sr.
Proof.
  intros Hs Hf -> Hn head H. unfold finish_request in H. destruct (_ <? len _); [done|].
  injection H as <-. unfold head, request_lines.
  split; simpl; try done; rewrite !append_header_line, <- !lines_wire_app, <- !(assoc_L (++)); done.
Qed.

Lemma serialize_request_ok request authority scheme limits secret_headers sr lease' :
  serialize_request request authority scheme limits secret_headers = (Ok sr, lease') ->
  serialized_as request authority limits (lease_headers secret_headers)
    (hl_fingerprint ∘ fst <$> secret_headers) sr.
Proof.
  unfold serialize_request. destruct (start_request _ _ _) as [[[names output] audit]|] eqn:Hst; [|done].
  apply start_request_ok in Hst as (Hshape & -> & -> & ->).
  destruct secret_headers as [[lease now]|]; simpl.
  - destruct (append_secret _ _ _ _ _ _ _ _ _) as [[[[[o a] n] f]|] lease2] eqn:Ha; [|done].
    assert (len (hq_headers request) + n + 3 <= maximum_header_count limits) as Hcap.
    { unfold append_secret in Ha. repeat step_in Ha; simplify_eq. bools. done. }
    apply append_secret_ok in Ha as (Hfit & -> & -> & -> & -> & _).
    intros [= Hfin <-]. by eapply finish_request_ok.
  - destruct (_ <? _) eqn:Hn; [done|]. bools. intros [= Hfin <-].
    eapply (finish_request_ok _ _ _ [] 0); [done|constructor|done|lia|].
    change (lines_wire (_ <$> [])) with (@nil ascii). rewrite !app_nil_r. exact Hfin.
Qed.

(** ** No line can be added *)

Lemma forall_line_byte (p : byte -> bool) s :
  (forall c, p c = true -> is_line_byte c = true) -> forallb p s = true ->
  Forall (fun c => is_line_byte c = true) s.
Proof. intros Hp H. apply Forall_forall. intros c Hc. rewrite forallb_elem in H. auto. Qed.

Lemma no_bad_byte (p : byte -> bool) s :
  (forall c, p c = false -> is_line_byte c = true) -> existsb p s = false ->
  Forall (fun c => is_line_byte c = true) s.
Proof.
  intros Hp H. apply Forall_forall. intros c Hc. apply Hp.
  destruct (p c) eqn:E; [|done]. exfalso. apply not_true_iff_false in H. apply H.
  apply existsb_elem. eauto.
Qed.

Lemma app_nonempty {A} (l k : list A) : l <> [] -> l ++ k <> [].
Proof. by destruct l. Qed.

Lemma field_line_ok name value :
  name <> [] -> Forall (fun c => is_line_byte c = true) name ->
  Forall (fun c => is_line_byte c = true) value -> line_ok (field_line name value).
Proof.
  intros Hne Hn Hv. split; [by apply app_nonempty|].
  unfold field_line. rewrite !Forall_app. split_and!; [done|by repeat constructor|done].
Qed.

Lemma request_lines_ok request authority limits secrets :
  request_shape request authority limits -> Forall header_fits secrets ->
  Forall line_ok (request_lines request authority secrets secret_line).
Proof.
  intros [[Hm1 Hm2] Ht Ha Hp _] Hs. unfold request_lines. rewrite !Forall_app. split_and!.
  - constructor; [|constructor; [|constructor]].
    + split; [by apply app_nonempty|]. unfold request_line. rewrite !Forall_app.
      split_and!; [by eapply forall_line_byte, Hm2; apply token_line_byte|by repeat constructor| |
                   by repeat constructor].
      eapply no_bad_byte, Ht. intros c Hc. cbv beta in Hc. bools. by apply not_control_line_byte.
    + split; [done|]. rewrite Forall_app. split; [by repeat constructor|].
      eapply no_bad_byte, Ha. apply not_control_line_byte.
  - apply Forall_fmap. eapply Forall_impl; [exact Hp|]. intros h [[Hn1 Hn2] Hv _ _].
    apply field_line_ok.
    + intros E. apply Hn1. by destruct (hh_name h).
    + eapply forall_line_byte; [apply token_line_byte|]. by rewrite token_lower.
    + eapply no_bad_byte, Hv. apply value_line_byte.
  - apply Forall_fmap. eapply Forall_impl; [exact Hs|]. intros h (Hn1 & Hn2 & Hv).
    apply field_line_ok; [done| |].
    + eapply forall_line_byte, Hn2. apply token_line_byte.
    + eapply no_bad_byte, Hv. apply value_line_byte.
  - constructor; [|constructor; [|constructor]]; apply field_line_ok; try done;
      try (by repeat constructor).
    eapply forall_line_byte, decimal_graphic. apply graphic_line_byte.
Qed.

(** C5: a request cannot carry more than it says: the bytes written for a request
    read back, at the first blank line, as exactly its request line, the [Host] of
    the stream grant, one line per header of the caller, one per leased secret and
    the two managed headers, followed by the body and nothing else; no method,
    target, header or secret can smuggle in a line, and no header of the caller is
    one that the codec or the vault manages. *)
Theorem request_cannot_inject_lines request authority scheme limits secret_headers sr lease' :
  serialize_request request authority scheme limits secret_headers = (Ok sr, lease') ->
  let secrets := lease_headers secret_headers in
  reads_as (sr_wire sr) (request_lines request authority secrets secret_line) (hq_body request)
  /\ sr_header_count sr = len (request_lines request authority secrets secret_line) - 1
  /\ sr_header_count sr <= maximum_header_count limits
  /\ Forall (public_ok limits) (hq_headers request).
Proof.
  intros [Hshape Hs Hw _ Hc Hcap _ _]%serialize_request_ok secrets. rewrite Hw.
  split_and!; [|  |done|by destruct Hshape].
  - pose proof (request_lines_ok _ _ _ _ Hshape Hs) as Hl. unfold request_lines in *.
    by apply lines_read_back.
  - rewrite Hc. unfold request_lines. rewrite !len_app, !len_cons, len_nil.
    unfold len. rewrite !length_fmap. fold secrets. lia.
Qed.

(** ** The audit copy *)

(** Two leases that differ at most in the values of their secrets. *)
Definition same_but_values (l1 l2 : SecretHeaderLease) : Prop :=
  hl_fingerprint l1 = hl_fingerprint l2
  /\ Forall2 (fun h1 h2 => mh_wire_name h1 = mh_wire_name h2
                /\ len (mh_value h1) = len (mh_value h2)) (hl_headers l1) (hl_headers l2).

(** The audit trail reveals nothing of a secret but its length: two leases
    with the same header names, value lengths and fingerprint lead to the same audit
    event, whatever the response. *)
Theorem audit_hides_secrets `{Sha256Lib} request authority scheme limits l1 l2 now sr1 sr2 l1' l2' :
  same_but_values l1 l2 ->
  serialize_request request authority scheme limits (Some (l1, now)) = (Ok sr1, l1') ->
  serialize_request request authority scheme limits (Some (l2, now)) = (Ok sr2, l2') ->
  forall response response_wire exchange_id before after grant,
  exchange_event request sr1 response response_wire exchange_id before after grant
  = exchange_event request sr2 response response_wire exchange_id before after grant.
Proof.
  intros [Hf Hv] H1 H2 response response_wire exchange_id before after grant.
  apply serialize_request_ok in H1 as [_ _ _ Ha1 Hc1 _ Hn1 Hf1], H2 as [_ _ _ Ha2 Hc2 _ Hn2 Hf2].
  simpl in *. assert (len (hl_headers l1) = len (hl_headers l2)) as Hlen
    by (unfold len; by rewrite (Forall2_length _ _ _ Hv)).
  assert (sr_redacted_audit_wire sr1 = sr_redacted_audit_wire sr2) as Haud.
  { rewrite Ha1, Ha2. unfold request_lines. do 5 f_equal. clear -Hv.
    induction Hv as [|h1 h2 hs1 hs2 [Hn Hl] _ IH]; [done|].
    rewrite !fmap_cons, IH. f_equal. unfold redacted_field. by rewrite Hn, Hl. }
  unfold exchange_event, exchange_metadata. by rewrite Haud, Hc1, Hc2, Hn1, Hn2, Hf1, Hf2, Hf, Hlen.
Qed.

(** ** The loops *)

Section Codec.
Context {S : Sha256Lib} {JS : JsonLib (HashMaterial StreamAuditEvent)}
  {JH : JsonLib (HashMaterial Http1AuditEvent)} {B : Type} {BB : ByteStreamBackend B}.
Implicit Type s : BoundedByteStream B.

(** The stream after some operations: the same stream, still within its limits. *)
Record follows (s s' : BoundedByteStream B) : Prop := {
  follows_ok : stream_ok s';
  follows_grant : bs_grant s' = bs_grant s;
  follows_limits : bs_limits s' = bs_limits s
}.

Lemma follows_refl s : stream_ok s -> follows s s.
Proof. by split. Qed.

Lemma follows_trans s1 s2 s3 : follows s1 s2 -> follows s2 s3 -> follows s1 s3.
Proof. intros [? ? ?] [? ? ?]. split; congruence. Qed.

(** One recorded operation uses one unit of the operation budget. *)
Lemma recorded_step s delivered accepted rr s' :
  stream_ok s -> recorded_move s delivered accepted rr s' ->
  follows s s' /\ bs_operation_count s' = bs_operation_count s + 1
  /\ bs_read_bytes s' = bs_read_bytes s + delivered
  /\ bs_written_bytes s' = bs_written_bytes s + accepted
  /\ (forall receipt, rr = Ok receipt -> or_transferred_bytes receipt = delivered + accepted).
Proof.
  intros Hok Hm. destruct (recorded_move_ok _ _ _ _ _ Hok Hm) as (Hok' & Hg & Hl & Hr & Hw & Hmove).
  assert (stream_is_terminal (bs_state s) = false) as Hnt
    by (unfold stream_can_move in Hmove; by destruct (stream_is_terminal (bs_state s))).
  pose proof (so_count_open _ Hok Hnt) as Hopen.
  destruct Hm as (s1 & d & o & m & Hmv & Ht & Hrec).
  apply record_inv in Hrec as (_ & _ & _ & _ & _ & _ & _ & Hcnt & _ & _ & Hres).
  rewrite (mv_count _ _ _ _ Hmv) in Hcnt.
  apply so_limits, stream_limits_below_u64 in Hok as (_ & _ & Hu).
  split_and!; [by split| |done|done|].
  - by rewrite Hcnt, (saturating_add_small _ _ (sl_maximum_operations (bs_limits s) + 1)) by lia.
  - intros receipt ->. destruct Hres as (_ & _ & _ & -> & _). done.
Qed.

Lemma write_step bytes c s r s' :
  stream_ok s -> write bytes c s = (r, s') ->
  follows s s' /\ match r with
    | Ok res => bs_operation_count s' = bs_operation_count s + 1
        /\ bs_written_bytes s' = bs_written_bytes s + or_transferred_bytes (wt_receipt res)
        /\ bs_read_bytes s' = bs_read_bytes s
    | Err _ => True
    end.
Proof.
  intros Hok Hw. apply write_moves in Hw as [[-> [e ->]]|(accepted & Hm & _)];
    [by split; [apply follows_refl|]| |by apply stream_ok_fits].
  apply recorded_step in Hm as (Hf & Hc & Hrd & Hwr & Ht); [|done]. split; [done|].
  destruct r as [res|]; [|done]. rewrite (Ht _ eq_refl). split_and!; [done|done|lia].
Qed.

Lemma read_step n c s r s' :
  stream_ok s -> read n c s = (r, s') ->
  follows s s' /\ match r with
    | Ok res => bs_operation_count s' = bs_operation_count s + 1
        /\ bs_read_bytes s' = bs_read_bytes s + len (rd_bytes res)
        /\ bs_written_bytes s' = bs_written_bytes s
    | Err _ => True
    end.
Proof.
  intros Hok Hw. apply read_moves in Hw as [[-> [e ->]]|(delivered & Hm & _ & Hb)];
    [by split; [apply follows_refl|]| |by apply stream_ok_fits].
  apply recorded_step in Hm as (Hf & Hc & Hrd & Hwr & _); [|done]. split; [done|].
  destruct r as [res|]; [|done]. rewrite (Hb _ eq_refl). split_and!; [done|done|lia].
Qed.

Lemma close_step s r s' :
  stream_ok s -> close s = (r, s') -> follows s s'.
Proof.
  intros Hok Hw. apply close_moves in Hw as [[-> _]|Hm]; [by apply follows_refl| |by apply stream_ok_fits].
  by apply recorded_step in Hm as (? & _).
Qed.

(** Enough rounds are left: one more than operations. *)
Definition rounds_left (fuel : nat) (s : BoundedByteStream B) : Prop :=
  sl_maximum_operations (bs_limits s) + 2 <= N.of_nat fuel + bs_operation_count s.

Lemma rounds_left_pos fuel s : stream_ok s -> rounds_left fuel s -> exists n, fuel = Datatypes.S n.
Proof.
  intros Hok H. apply so_count in Hok. unfold rounds_left in H. destruct fuel; [lia|eauto].
Qed.

Lemma rounds_left_step fuel s s' :
  rounds_left (Datatypes.S fuel) s -> follows s s' ->
  bs_operation_count s' = bs_operation_count s + 1 -> rounds_left fuel s'.
Proof. unfold rounds_left. intros H [_ _ ->] ->. lia. Qed.

(** An operation that reports backpressure has taken nothing. *)
Lemma write_backpressure bytes c s res s' :
  write bytes c s = (Ok res, s') -> or_outcome (wt_receipt res) = OBackpressure ->
  or_transferred_bytes (wt_receipt res) = 0.
Proof.
  assert (forall d o m before after s0 s1,
    write_result (record d o m before after s0) = (Ok res, s1) ->
    o = or_outcome (wt_receipt res) /\ or_transferred_bytes (wt_receipt res) = om_transferred_bytes m) as Hrec.
  { intros d o m before after s0 s1 H%write_result_inv. cbn in H.
    apply record_inv in H as (_ & _ & _ & _ & _ & _ & _ & _ & _ & _ & <- & _ & _ & -> & _). done. }
  intros H Ho. unfold write, finish_write_without_backend in H.
  destruct (let? _ := _ in _); [|done].
  destruct (control_outcome c); [by apply Hrec in H as [_ ->]|].
  destruct (_ <=? _); [by apply Hrec in H as [_ ->]|].
  destruct (_ <? _); [by apply Hrec in H as [_ ->]|].
  destruct (backend_write _ _ _) as [report b]. cbn zeta in H.
  destruct (_ <? wr_elapsed_milliseconds _); [by apply Hrec in H as [_ ->]|].
  destruct (_ <? saturating_add _ _); [by apply Hrec in H as [_ ->]|].
  destruct (classify_write _ _ _) as [[k o] next] eqn:Hc.
  destruct (_ <? saturating_add _ _); [by apply Hrec in H as [_ ->]|].
  apply Hrec in H as [-> ->]. simpl. rewrite Ho in Hc.
  unfold classify_write in Hc. by repeat step_in Hc; simplify_eq.
Qed.

(** What the loop leaves, once [n] more bytes than before are written. *)
Definition written_from (s : BoundedByteStream B) (n : N)
    (x : Result unit Http1Error * BoundedByteStream B) : Prop :=
  follows s x.2
  /\ (x.1 = Ok tt -> bs_written_bytes x.2 = bs_written_bytes s + n
      /\ bs_read_bytes x.2 = bs_read_bytes s).

Lemma written_from_step s s1 n m x :
  follows s s1 ->
  bs_written_bytes s1 = bs_written_bytes s + n /\ bs_read_bytes s1 = bs_read_bytes s ->
  written_from s1 m x -> written_from s (n + m) x.
Proof.
  intros Hf [Hw Hr] [Hf2 Hw2]. split; [by eapply follows_trans|].
  intros E. destruct (Hw2 E) as [-> ->]. split; [lia|done].
Qed.

(** Writing returns; when it succeeds, the stream has taken exactly the bytes. *)
Lemma write_loop_returns fuel limits bytes control offset events s :
  stream_ok s -> rounds_left fuel s -> offset <= len bytes ->
  returns (write_loop fuel limits bytes control offset events s) (written_from s (len bytes - offset)).
Proof.
  revert offset events s. induction fuel as [|fuel IH]; intros offset events s Hok Hf Ho.
  { by apply rounds_left_pos in Hf as [? ?]. }
  cbn [write_loop]. destruct (offset <? len bytes) eqn:Hlt.
  2: { apply returns_done. split; [by apply follows_refl|]. bools. simpl. intros _. split; [lia|done]. }
  bools. unfold usize_sub. assert ((offset <=? len bytes) = true) as -> by (apply N.leb_le; lia).
  rewrite slice_in_range by lia.
  destruct (write _ control s) as [r s1] eqn:Hw. apply write_step in Hw as Hstep; [|done].
  destruct Hstep as [Hs1 Hr].
  assert (forall e, returns (Done (Err e, s1)) (written_from s (len bytes - offset))) as Hfail
    by (intros e; by apply returns_done).
  destruct r as [res|e]; [|apply Hfail]. destruct Hr as [Hcnt Hwr].
  pose proof (rounds_left_step _ _ _ Hf Hs1 Hcnt) as Hf1. pose proof (follows_ok _ _ Hs1) as Hok1.
  assert (returns (if (or_transferred_bytes (wt_receipt res) =? 0)
      || (N.min (len bytes - offset) (io_operation_bytes limits) <? or_transferred_bytes (wt_receipt res))
    then Done (Err (InvalidRequest "stream reported an invalid write length"), s1)
    else write_loop fuel limits bytes control (offset + or_transferred_bytes (wt_receipt res)) 0 s1)
    (written_from s (len bytes - offset))) as Hgo.
  { destruct (_ || _) eqn:Ht; [apply Hfail|]. bools.
    replace (len bytes - offset) with (or_transferred_bytes (wt_receipt res)
      + (len bytes - (offset + or_transferred_bytes (wt_receipt res)))) by lia.
    eapply returns_weaken; [apply IH; (done || lia)|]. intros x. by apply written_from_step. }
  destruct (or_outcome (wt_receipt res)) eqn:Hout; try apply Hfail; try exact Hgo.
  destruct (_ <? saturating_add _ _); [apply Hfail|].
  rewrite (write_backpressure _ _ _ _ _ Hw Hout) in Hwr.
  eapply returns_weaken; [by apply IH|]. intros x. rewrite <- (N.add_0_l (len bytes - offset)).
  by apply written_from_step.
Qed.

(** What the loop leaves, when [wire] was received before it. *)
Definition read_from (limits : Http1Limits) (request_method wire : str) (s : BoundedByteStream B)
    (x : Result (Http1Response * str) Http1Error * BoundedByteStream B) : Prop :=
  follows s x.2
  /\ forall response received, x.1 = Ok (response, received) ->
     len received <= maximum_response_wire_bytes limits
     /\ bs_read_bytes x.2 + len wire = bs_read_bytes s + len received
     /\ bs_written_bytes x.2 = bs_written_bytes s
     /\ exists eof p, parse_response received eof request_method limits = Done (Ok (Complete p))
          /\ pr_response p = response /\ pr_consumed_wire_bytes p = len received.

Lemma read_from_step limits request_method wire more s s1 x :
  follows s s1 ->
  bs_read_bytes s1 = bs_read_bytes s + len more /\ bs_written_bytes s1 = bs_written_bytes s ->
  read_from limits request_method (wire ++ more) s1 x -> read_from limits request_method wire s x.
Proof.
  intros Hf [Hr Hwr] [Hf2 H]. split; [by eapply follows_trans|]. intros response received E.
  destruct (H _ _ E) as (Hw & Hb & Hwr2 & Hp). rewrite len_app in Hb.
  split_and!; [done|lia|congruence|done].
Qed.

(** Backpressure and the end of the stream deliver nothing. *)
Lemma read_without_data n c s res s' :
  read n c s = (Ok res, s') ->
  or_outcome (rd_receipt res) = OBackpressure \/ or_outcome (rd_receipt res) = OEof ->
  rd_bytes res = [].
Proof.
  assert (forall bytes d o m before after s0 s1,
    read_result bytes (record d o m before after s0) = (Ok res, s1) ->
    o = or_outcome (rd_receipt res) /\ rd_bytes res = bytes) as Hrec.
  { intros bytes d o m before after s0 s1 [H Hb]%read_result_inv. cbn in H.
    apply record_inv in H as (_ & _ & _ & _ & _ & _ & _ & _ & _ & _ & <- & _). auto. }
  intros H Ho. unfold read, finish_read_without_backend in H.
  destruct (let? _ := _ in _); [|done].
  destruct (control_outcome c); [by apply Hrec in H as [_ ->]|].
  destruct (_ <=? _); [by apply Hrec in H as [_ ->]|].
  destruct (_ <? _); [by apply Hrec in H as [_ ->]|].
  destruct (backend_read _ _ _) as [report b]. cbn zeta in H.
  destruct (_ <? rr_elapsed_milliseconds _); [by apply Hrec in H as [_ ->]|].
  destruct (_ <? saturating_add _ _); [by apply Hrec in H as [_ ->]|].
  destruct (classify_read _ _ _) as [[bytes o] next] eqn:Hc.
  destruct (_ <? saturating_add _ _); [by apply Hrec in H as [_ ->]|].
  apply Hrec in H as [-> ->].
  unfold classify_read, backend_read_overflow in Hc.
  repeat step_in Hc; simplify_eq; try done; destruct Ho; congruence.
Qed.

(** Reading returns; when it succeeds, the bytes received are one framed response
    and nothing else. *)
Lemma read_loop_returns fuel limits request_method control wire eof events s :
  stream_ok s -> rounds_left fuel s -> len wire <= maximum_response_wire_bytes limits ->
  returns (read_loop fuel limits request_method control wire eof events s)
    (read_from limits request_method wire s).
Proof.
  revert wire eof events s. induction fuel as [|fuel IH]; intros wire eof events s Hok Hf Hw.
  { by apply rounds_left_pos in Hf as [? ?]. }
  cbn [read_loop]. pose proof (follows_refl _ Hok) as Hs.
  destruct (parse_from_returns (Datatypes.S (length wire)) wire eof request_method limits 0 0)
    as (r & Hp & _); [lia|unfold len; lia|lia|]. unfold parse_response at 1. rewrite Hp.
  destruct r as [[|p]|e]; [| |by apply returns_done].
  2: { destruct (negb _) eqn:Hc; [by apply returns_done|]. bools. apply returns_done.
       split; [done|]. intros response received [= <- <-]. split_and!; [done..|].
       by exists eof, p. }
  destruct eof; [by apply returns_done|].
  destruct (read _ control s) as [r s1] eqn:Hr. apply read_step in Hr as Hstep; [|done].
  destruct Hstep as [Hs1 Hb].
  assert (forall e, returns (Done (Err e, s1)) (read_from limits request_method wire s)) as Hfail
    by (intros e; by apply returns_done).
  destruct r as [res|e]; [|apply Hfail]. destruct Hb as [Hcnt Hb].
  pose proof (rounds_left_step _ _ _ Hf Hs1 Hcnt) as Hf1. pose proof (follows_ok _ _ Hs1) as Hok1.
  assert (forall eof' events', returns
    (if maximum_response_wire_bytes limits <? len (wire ++ rd_bytes res)
     then Done (Err (InvalidResponse "response wire bytes exceed configured limit"), s1)
     else read_loop fuel limits request_method control (wire ++ rd_bytes res) eof' events' s1)
    (read_from limits request_method wire s)) as Hgo.
  { intros eof' events'. destruct (_ <? len _) eqn:Hlen; [apply Hfail|]. bools.
    eapply returns_weaken; [by apply IH|]. intros x. by apply read_from_step. }
  pose proof (read_without_data _ _ _ _ _ Hr) as Hnil.
  destruct (or_outcome (rd_receipt res)); try apply Hfail.
  - destruct (len (rd_bytes res) =? 0); [apply Hfail|apply Hgo].
  - rewrite Hnil, app_nil_r in Hgo by auto. destruct (_ <? saturating_add _ _); [apply Hfail|apply Hgo].
  - rewrite Hnil, app_nil_r in Hgo by auto. apply Hgo.
Qed.

(** ** The exchange *)

(** A codec as [http1_codec_new] makes it and exchanges leave it. *)
Record codec_ok (c : Http1Codec B) : Prop := {
  co_stream : stream_ok (hc_stream c);
  co_limits : http1_limits_validate (hc_limits c) = Ok (hc_limits c);
  co_audit : chain_ok (hc_audit c)
}.

Lemma http1_codec_new_ok stream limits c :
  stream_ok stream -> http1_codec_new stream limits = Ok c -> codec_ok c.
Proof.
  intros Hs H. unfold http1_codec_new in H. destruct (http1_limits_validate limits) as [l|] eqn:Hl; [|done].
  destruct (map_err _ _); [|done].
  unfold http1_audit_new, chain_new_anchored in H. destruct (negb _) eqn:Hg; [done|]. simpl in H.
  injection H as <-. apply validated_limits_fit in Hl as Hl2. destruct Hl2 as [-> _].
  split; [done|done|]. apply chain_new_ok.
Qed.

(** What an exchange that went on to write has done. *)
Record exchanged (request : Http1Request) (secrets : list MaterializedHeader)
    (fingerprint : option str) (c : Http1Codec B) (x : Http1Exchange) (c' : Http1Codec B)
    : Prop := {
  ex_completed : hc_completed c' = true;
  ex_closed : stream_is_terminal (bs_state (hc_stream c')) = true;
  ex_grant : bs_grant (hc_stream c') = bs_grant (hc_stream c);
  ex_request : exists sr, serialized_as request (gr_http_host (bs_grant (hc_stream c)))
      (hc_limits c) secrets fingerprint sr
    /\ bs_written_bytes (hc_stream c') = bs_written_bytes (hc_stream c) + len (sr_wire sr)
    /\ xr_request_wire_sha256 (he_receipt x) = payload_hash (sr_redacted_audit_wire sr);
  ex_response : exists wire eof p,
    parse_response wire eof (hq_method request) (hc_limits c) = Done (Ok (Complete p))
    /\ pr_response p = he_response x /\ pr_consumed_wire_bytes p = len wire
    /\ len wire <= maximum_response_wire_bytes (hc_limits c)
    /\ bs_read_bytes (hc_stream c') = bs_read_bytes (hc_stream c) + len wire
    /\ xr_response_wire_sha256 (he_receipt x) = payload_hash wire;
  ex_record : exists r, records (hc_audit c') = records (hc_audit c) ++ [r]
    /\ he_receipt x = exchange_receipt (event r) (record_hash r)
    /\ ha_request_method (event r) = hq_method request
    /\ ha_request_target_sha256 (event r) = payload_hash (hq_target request)
    /\ ha_response_status (event r) = hr_status_code (he_response x)
}.

Lemma close_closes s r s' :
  stream_is_terminal (bs_state s) = false -> close s = (r, s') -> bs_state s' = SClosed
  /\ bs_read_bytes s' = bs_read_bytes s /\ bs_written_bytes s' = bs_written_bytes s.
Proof.
  intros Hnt H. unfold close in H. rewrite Hnt in H.
  apply record_inv in H as (_ & _ & _ & -> & -> & -> & _). done.
Qed.

Lemma finish_exchange_spec request sr response wire before c r c' :
  codec_ok c -> finish_exchange request sr response wire before c = (r, c') ->
  (codec_ok c' /\ bs_grant (hc_stream c') = bs_grant (hc_stream c)) /\ forall x, r = Ok x ->
    he_response x = response /\ hc_completed c' = true
    /\ stream_is_terminal (bs_state (hc_stream c')) = true
    /\ bs_grant (hc_stream c') = bs_grant (hc_stream c)
    /\ bs_read_bytes (hc_stream c') = bs_read_bytes (hc_stream c)
    /\ bs_written_bytes (hc_stream c') = bs_written_bytes (hc_stream c)
    /\ xr_response_wire_sha256 (he_receipt x) = payload_hash wire
    /\ xr_request_wire_sha256 (he_receipt x) = payload_hash (sr_redacted_audit_wire sr)
    /\ exists rec, records (hc_audit c') = records (hc_audit c) ++ [rec]
         /\ he_receipt x = exchange_receipt (event rec) (record_hash rec)
         /\ ha_request_method (event rec) = hq_method request
         /\ ha_request_target_sha256 (event rec) = payload_hash (hq_target request)
         /\ ha_response_status (event rec) = hr_status_code response.
Proof.
  intros [Hs Hl Ha] H. unfold finish_exchange in H.
  set (closing := if negb (stream_is_terminal (bs_state (hc_stream c))) then _ else _) in H.
  assert (follows (hc_stream c) closing.2 /\ stream_is_terminal (bs_state closing.2) = true
          /\ bs_read_bytes closing.2 = bs_read_bytes (hc_stream c)
          /\ bs_written_bytes closing.2 = bs_written_bytes (hc_stream c)) as (Hf & Hterm & Hread & Hwr).
  { unfold closing. destruct (stream_is_terminal _) eqn:Hnt; simpl; [by split_and!; [apply follows_refl|..]|].
    destruct (close (hc_stream c)) as [rc s1] eqn:Hc. simpl.
    split; [by eapply close_step|]. apply close_closes in Hc as (-> & -> & ->); done. }
  destruct closing as [closed s1]. simpl in Hf, Hterm, Hread, Hwr. destruct Hf as [Hok Hg _].
  destruct closed as [[]|e]; [|by simplify_eq; split; [split; [by split|]|]].
  destruct (stream_audit_verify _); [|by simplify_eq; split; [split; [by split|]|]]. cbn [set_stream hc_audit hc_limits hc_next_exchange_id] in H.
  destruct (http1_audit_append _ _) as [ar ch] eqn:Happ. unfold http1_audit_append in Happ.
  pose proof (chain_append_ok _ _ _ _ Ha Happ) as Hch. apply chain_append_spec in Happ.
  destruct ar as [rec|e]; injection H as <- <-; [|split; [by split; [split|]|done]].
  split; [by split; [split|]|]. intros x [= <-]. simpl. destruct Happ as (Hrec & Hev & _).
  split_and!; try done. exists rec. rewrite Hev. split_and!; done.
Qed.

Lemma loop_fuel_enough s : rounds_left (loop_fuel s) s.
Proof. unfold rounds_left, loop_fuel. lia. Qed.

(** An exchange returns, keeps the codec well formed, and did what it says. *)
Lemma exchange_returns request secret now control c :
  codec_ok c ->
  returns (exchange_internal request secret now control c)
    (fun '(r, _, c') => (codec_ok c' /\ bs_grant (hc_stream c') = bs_grant (hc_stream c))
       /\ forall x, r = Ok x ->
          exchanged request (from_option hl_headers [] secret) (hl_fingerprint <$> secret) c x c').
Proof.
  intros Hok. unfold exchange_internal.
  destruct (hc_completed c); [by apply returns_done|].
  destruct (stream_is_terminal _) eqn:Hnt; [by apply returns_done|].
  destruct (serialize_request _ _ _ _ _) as [sr lease'] eqn:Hser.
  destruct sr as [sr|e]; [|by apply returns_done].
  apply serialize_request_ok in Hser.
  destruct (write_loop_returns (loop_fuel (hc_stream c)) (hc_limits c) (sr_wire sr) control 0 0
    (hc_stream c) (co_stream _ Hok) (loop_fuel_enough _) ltac:(lia)) as ([w s1] & Hw & Hf1 & Hwr).
  unfold write_all. rewrite Hw. simpl in Hf1, Hwr.
  assert (codec_ok (set_stream s1 c)) as Hok1 by (destruct Hok, Hf1; by split).
  destruct w as [[]|e]; [|apply returns_done; split; [split; [done|apply Hf1]|done]].
  destruct (Hwr eq_refl) as [Hwr1 Hrd1].
  destruct (read_loop_returns (loop_fuel s1) (hc_limits c) (hq_method request) control [] false 0
    s1 (follows_ok _ _ Hf1) (loop_fuel_enough _) ltac:(rewrite len_nil; lia)) as ([r s2] & Hr & Hf2 & Hrd).
  unfold read_response. cbn [hc_stream hc_limits set_stream]. rewrite Hr. simpl in Hf2, Hrd.
  assert (codec_ok (set_stream s2 (set_stream s1 c))) as Hok2 by (destruct Hok1, Hf2; by split).
  destruct r as [[response wire]|e];
    [|apply returns_done; split; [split; [done|]|done]; destruct Hf1, Hf2; simpl in *; congruence].
  destruct (Hrd _ _ eq_refl) as (Hmax & Hread & Hwr2 & eof & p & Hp & Hpr & Hcons).
  destruct (finish_exchange _ _ _ _ _ _) as [res c'] eqn:Hfin.
  apply finish_exchange_spec in Hfin as [[Hok' Hgr] Hres]; [|done].
  apply returns_done. split; [split; [done|]; destruct Hf1, Hf2; simpl in *; congruence|]. intros x Hx.
  destruct (Hres x Hx) as (Hresp & Hc & Ht & Hg & Hb & Hwb & Hh & Hq & rec & Hrecs).
  cbn [hc_stream hc_limits hc_audit set_stream] in *. rewrite len_nil in Hread.
  destruct Hf1 as [_ Hg1 _], Hf2 as [_ Hg2 _]. split; try done.
  - congruence.
  - exists sr. split_and!; [|lia|done]. by destruct secret.
  - exists wire, eof, p. split_and!; try done; [congruence|lia].
  - exists rec. by rewrite Hresp.
Qed.
End Codec.

(** ** Theorems *)

Section Theorems.
Context {S : Sha256Lib} {JS : JsonLib (HashMaterial StreamAuditEvent)}
  {JH : JsonLib (HashMaterial Http1AuditEvent)} {B : Type} {BB : ByteStreamBackend B}.

(** C39: an exchange always returns, whatever the peer sends and however slowly, and
    leaves the codec well formed: the operation budget of the stream bounds both
    loops, and neither they nor the parser abort. *)
Theorem exchange_always_returns request secret now control (c : Http1Codec B) :
  codec_ok c ->
  exists r secret' c', exchange_internal request secret now control c = Done (r, secret', c')
    /\ codec_ok c'.
Proof.
  intros Hok. destruct (exchange_returns request secret now control c Hok)
    as ([[r secret'] c'] & -> & [Hok' _] & _). by exists r, secret', c'.
Qed.

(** A finished exchange is what its receipt says: exactly the serialised request
    was accepted by the stream, the bytes read are exactly one framed response within
    the wire limit, both are hashed into the one new audit record that the receipt
    repeats, the stream is closed, and the codec refuses every further exchange. *)
Theorem finished_exchange_is_recorded request secret now control (c : Http1Codec B) x secret' c' :
  codec_ok c ->
  exchange_internal request secret now control c = Done (Ok x, secret', c') ->
  exchanged request (from_option hl_headers [] secret) (hl_fingerprint <$> secret) c x c'
  /\ forall request2 secret2 now2 control2,
     exchange_internal request2 secret2 now2 control2 c' = Done (Err ExchangeAlreadyCompleted, secret2, c').
Proof.
  intros Hok Hx. destruct (exchange_returns request secret now control c Hok)
    as ([[r secret2] c2] & Hr & _ & Hres). rewrite Hx in Hr. injection Hr as <- <- <-.
  specialize (Hres x eq_refl). split; [done|]. intros. unfold exchange_internal.
  by rewrite (ex_completed _ _ _ _ _ _ Hres).
Qed.
End Theorems.

(** ** Examples *)

Definition toy_http_json : JsonLib (HashMaterial Http1AuditEvent) :=
  toy_json (fun e => ha_exchange_id e ++ ha_request_target_sha256 e).

Definition ok_response (body : str) : str :=
  ("HTTP/1.1 200 OK" : str) ++ CRLF ++ ("Content-Length: " : str) ++ decimal (len body)
  ++ CRLF ++ CRLF ++ body.

Definition example_codec_from (script : list BackendReadReport)
    : Result (Http1Codec (list BackendReadReport)) Http1Error :=
  http1_codec_new (S := toy_sha256) (JS := toy_stream_json)
    (set_backend script example_stream) http1_conservative_default.

Definition example_exchange (request : Http1Request) (c : Http1Codec (list BackendReadReport))
    : Run (Result Http1Exchange Http1Error * option SecretHeaderLease
           * Http1Codec (list BackendReadReport)) :=
  exchange (S := toy_sha256) (JS := toy_stream_json) (JH := toy_http_json) (BB := scripted)
    request no_stream_control c.

Definition get_request (target : str) : Http1Request :=
  {| hq_method := "GET"; hq_target := target;
     hq_headers := [{| hh_name := "Accept"; hh_value := "*/*" |}]; hq_body := [] |}.

Definition answer_script : list BackendReadReport :=
  [{| rr_elapsed_milliseconds := 1; rr_status := ReadData (ok_response "hello") |}].

(** A peer that answers only after 33 reads without data. *)
Definition slow_script : list BackendReadReport :=
  replicate 33 {| rr_elapsed_milliseconds := 1; rr_status := ReadBackpressure |}
  ++ [{| rr_elapsed_milliseconds := 1; rr_status := ReadData (ok_response "answer to /a") |}].

(** A codec can be used again after a failed exchange: the request for [/a] is
    written and its exchange fails because the peer is slow; the codec then accepts a
    second exchange, for [/b], on the same connection, and returns and records the
    answer to [/a] as the response to [/b]. *)
Theorem failed_exchange_allows_another :
  exists c0 c1 c2 x,
    example_codec_from slow_script = Ok c0
    /\ example_exchange (get_request "/a") c0 = Done (Err BackpressureBudgetExceeded, None, c1)
    /\ 0 < bs_written_bytes (hc_stream c1)
    /\ example_exchange (get_request "/b") c1 = Done (Ok x, None, c2)
    /\ hr_body (he_response x) = "answer to /a"
    /\ xr_request_target_sha256 (he_receipt x) = payload_hash (S := toy_sha256) "/b".
Proof.
  assert (match example_codec_from slow_script with
    | Ok c0 =>
        match example_exchange (get_request "/a") c0 with
        | Done (Err BackpressureBudgetExceeded, None, c1) =>
            (0 <? bs_written_bytes (hc_stream c1))
            && match example_exchange (get_request "/b") c1 with
               | Done (Ok x, None, c2) =>
                   bool_decide (hr_body (he_response x) = "answer to /a")
                   && bool_decide (xr_request_target_sha256 (he_receipt x)
                                   = payload_hash (S := toy_sha256) "/b")
               | _ => false
               end
        | _ => false
        end
    | Err _ => false
    end = true) as H by (vm_compute; reflexivity).
  destruct (example_codec_from slow_script) as [c0|]; [|done].
  destruct (example_exchange (get_request "/a") c0) as [[[r1 [|]] c1]|] eqn:E1; try done;
    [by repeat step_in H|]. destruct r1 as [|[]]; try done. apply andb_true_iff in H as [Hw H].
  destruct (example_exchange (get_request "/b") c1) as [[[[x|] [|]] c2]|] eqn:E2; try done.
  bools. exists c0, c1, c2, x. done.
Qed.

(** ** Witnesses *)

Lemma set_backend_ok {S : Sha256Lib} {JS : JsonLib (HashMaterial StreamAuditEvent)} {B}
    (b : B) (s : BoundedByteStream B) : stream_ok s -> stream_ok (set_backend b s).
Proof. intros []. by split. Qed.

Lemma example_stream_ok script :
  stream_ok (S := toy_sha256) (J := toy_stream_json) (set_backend script example_stream).
Proof.
  apply (set_backend_ok (S := toy_sha256) (JS := toy_stream_json)).
  by pose proof (stream_open_inv (S := toy_sha256) (J := toy_stream_json) (JX := toy_executor_json)
    (JF := toy_fingerprint_json) (JG := toy_grant_json) _ _ _ _ _ _ example_opened) as (_ & Hok & _).
Qed.

Definition example_codec : Http1Codec (list BackendReadReport) :=
  match example_codec_from answer_script with
  | Ok c => c
  | Err _ => {| hc_stream := closed_stream; hc_limits := http1_conservative_default;
                hc_audit := chain_new GENESIS_HASH; hc_next_exchange_id := 0; hc_completed := true |}
  end.

Lemma example_codec_ok :
  codec_ok (S := toy_sha256) (JS := toy_stream_json) (JH := toy_http_json) example_codec.
Proof.
  apply (http1_codec_new_ok (S := toy_sha256) (JS := toy_stream_json) (JH := toy_http_json)
    (set_backend answer_script example_stream) http1_conservative_default).
  - apply example_stream_ok.
  - by vm_compute.
Qed.

Lemma exchange_always_returns_witness :
  exists r secret' c', example_exchange (get_request "/a") example_codec = Done (r, secret', c')
    /\ codec_ok (S := toy_sha256) (JS := toy_stream_json) (JH := toy_http_json) c'.
Proof.
  exact (exchange_always_returns (S := toy_sha256) (JS := toy_stream_json) (JH := toy_http_json)
    (BB := scripted) (get_request "/a") None 0 no_stream_control example_codec example_codec_ok).
Defined.

Lemma finished_exchange_is_recorded_witness :
  exists x secret' c', example_exchange (get_request "/a") example_codec = Done (Ok x, secret', c')
    /\ hr_body (he_response x) = "hello"
    /\ exchanged (S := toy_sha256) (get_request "/a") [] None example_codec x c'.
Proof.
  assert (match example_exchange (get_request "/a") example_codec with
    | Done (Ok x, _, _) => bool_decide (hr_body (he_response x) = "hello")
    | _ => false
    end = true) as H by (vm_compute; reflexivity).
  destruct (example_exchange (get_request "/a") example_codec) as [[[[x|] secret'] c']|] eqn:Ex;
    [|discriminate H|discriminate H].
  apply bool_decide_eq_true in H. exists x, secret', c'. split; [reflexivity|]. split; [exact H|].
  exact (proj1 (finished_exchange_is_recorded (S := toy_sha256) (JS := toy_stream_json)
    (JH := toy_http_json) (BB := scripted) (get_request "/a") None 0 no_stream_control
    example_codec x secret' c' example_codec_ok Ex)).
Defined.

Definition example_secret (value : str) : SecretHeaderLease :=
  {| hl_lease_id := "lease-1"; hl_session_id := "session-1"; hl_authority := "app.example.com";
     hl_scheme := "https"; hl_expires_at_epoch_seconds := 100; hl_fingerprint := "fp";
     hl_headers := [{| mh_normalized_name := "authorization"; mh_wire_name := "Authorization";
                       mh_value := value |}];
     hl_consumed := false |}.

Definition example_serialized (value : str) : Result SerializedRequest Http1Error * option SecretHeaderLease :=
  serialize_request (get_request "/a") "app.example.com" "https" http1_conservative_default
    (Some (example_secret value, 5%Z)).

Lemma request_cannot_inject_lines_witness :
  exists sr lease', example_serialized "Bearer abc" = (Ok sr, lease')
    /\ reads_as (sr_wire sr)
         (request_lines (get_request "/a") "app.example.com"
            (hl_headers (example_secret "Bearer abc")) secret_line) [].
Proof.
  destruct (example_serialized "Bearer abc") as [[sr|] lease'] eqn:E; [|by vm_compute in E].
  exists sr, lease'. split; [done|].
  exact (proj1 (request_cannot_inject_lines (get_request "/a") "app.example.com" "https"
    http1_conservative_default (Some (example_secret "Bearer abc", 5%Z)) sr lease' E)).
Defined.

Lemma audit_hides_secrets_witness :
  exists sr1 sr2 l1 l2, example_serialized "Bearer abc" = (Ok sr1, l1)
    /\ example_serialized "Bearer xyz" = (Ok sr2, l2) /\ sr_wire sr1 <> sr_wire sr2
    /\ exchange_event (S := toy_sha256) (get_request "/a") sr1 (pr_response example_parsed) [] [] [] []
         (bs_grant example_stream)
       = exchange_event (S := toy_sha256) (get_request "/a") sr2 (pr_response example_parsed) [] [] [] []
         (bs_grant example_stream).
Proof.
  destruct (example_serialized "Bearer abc") as [[sr1|] l1] eqn:E1; [|by vm_compute in E1].
  destruct (example_serialized "Bearer xyz") as [[sr2|] l2] eqn:E2; [|by vm_compute in E2].
  exists sr1, sr2, l1, l2. split; [done|]. split; [done|]. split.
  - vm_compute in E1. vm_compute in E2. by injection E1 as <- _; injection E2 as <- _.
  - refine (audit_hides_secrets (H := toy_sha256) (get_request "/a") "app.example.com" "https"
      http1_conservative_default (example_secret "Bearer abc") (example_secret "Bearer xyz") 5
      sr1 sr2 l1 l2 _ E1 E2 _ _ _ _ _ _). split; [done|]. by repeat constructor.
Defined.
