(* ===== verification/Tls.v ===== *)
(** * Tls: peer identity of a TLS session ([crates/nxb-tls])

    [TlsPeerVerifier] checks what a TLS backend observed in a handshake against
    the grant of a bounded stream: protocol, limits, certificate chain, name.
    [LibraryVerifiedTlsBinder] binds a session that a TLS library has verified.
    Both record the result in an audit chain and give out a [TlsSessionGrant] that
    names the stream. The theorems compare the verifier with a declarative
    description of trusted chains and covered names. *)

From S2P Require Import Prelude ByteStr HashChain IpAddr IpText Transport Executor Stream HttpSyntax.
Local Open Scope N_scope.

(** ** Data *)

Definition MAX_CERTIFICATE_CHAIN_DEPTH : N := 8.
Definition MAX_CERTIFICATE_BYTES : N := 1024 * 1024.
Definition MAX_CERTIFICATE_CHAIN_BYTES : N := 4 * 1024 * 1024.
Definition MAX_HANDSHAKE_BYTES : N := 2 * 1024 * 1024.
Definition MAX_HANDSHAKE_TIMEOUT_MILLISECONDS : N := 30000.

Inductive TlsProtocolVersion : Type := Tls10 | Tls11 | Tls12 | Tls13 | TlsOther.

Definition protocol_code (self : TlsProtocolVersion) : str :=
  match self with
  | Tls10 => "tls_1_0" | Tls11 => "tls_1_1" | Tls12 => "tls_1_2" | Tls13 => "tls_1_3"
  | TlsOther => "other"
  end.

Record TlsLimits : Type := {
  tl_maximum_chain_depth : N;
  tl_maximum_certificate_bytes : N;
  tl_maximum_chain_bytes : N;
  tl_maximum_handshake_read_bytes : N;
  tl_maximum_handshake_write_bytes : N;
  tl_handshake_timeout_milliseconds : N;
  tl_maximum_dns_sans : N
}.

Definition tls_conservative_default : TlsLimits :=
  {| tl_maximum_chain_depth := 6; tl_maximum_certificate_bytes := 512 * 1024;
     tl_maximum_chain_bytes := 2 * 1024 * 1024; tl_maximum_handshake_read_bytes := 512 * 1024;
     tl_maximum_handshake_write_bytes := 256 * 1024; tl_handshake_timeout_milliseconds := 10000;
     tl_maximum_dns_sans := 128 |}.

Definition tls_limits_validate (self : TlsLimits) : Result unit str :=
  if (tl_maximum_chain_depth self =? 0) || (MAX_CERTIFICATE_CHAIN_DEPTH <? tl_maximum_chain_depth self)
  then Err ("certificate chain depth is outside the supported range" : str)
  else if (tl_maximum_certificate_bytes self =? 0)
          || (MAX_CERTIFICATE_BYTES <? tl_maximum_certificate_bytes self)
  then Err ("per-certificate byte limit is outside the supported range" : str)
  else if (tl_maximum_chain_bytes self <? tl_maximum_certificate_bytes self)
          || (MAX_CERTIFICATE_CHAIN_BYTES <? tl_maximum_chain_bytes self)
  then Err ("certificate-chain byte limit is outside the supported range" : str)
  else if (tl_maximum_handshake_read_bytes self =? 0)
          || (MAX_HANDSHAKE_BYTES <? tl_maximum_handshake_read_bytes self)
          || (tl_maximum_handshake_write_bytes self =? 0)
          || (MAX_HANDSHAKE_BYTES <? tl_maximum_handshake_write_bytes self)
  then Err ("handshake byte limits are outside the supported range" : str)
  else if (tl_handshake_timeout_milliseconds self =? 0)
          || (MAX_HANDSHAKE_TIMEOUT_MILLISECONDS <? tl_handshake_timeout_milliseconds self)
  then Err ("handshake timeout is outside the supported range" : str)
  else if (tl_maximum_dns_sans self =? 0) || (1024 <? tl_maximum_dns_sans self)
  then Err ("DNS SAN count limit is outside the supported range" : str)
  else Ok tt.

Record TlsPeerVerifierConfig : Type := { tc_verifier_id : str; tc_limits : TlsLimits }.

Record TlsTrustStore : Type := { trusted_root_fingerprints : gset str }.

Definition trust_store_new (fingerprints : list str) : Result TlsTrustStore str :=
  let roots : gset str := list_to_set fingerprints in
  if bool_decide (roots = ∅) then Err ("TLS trust store must contain at least one root fingerprint" : str)
  else if (4096 <? N.of_nat (size roots))
          || existsb (fun value => negb (is_lower_hex_sha256 value)) (btree_iter roots)
  then Err ("TLS trust store contains an invalid root fingerprint" : str)
  else Ok {| trusted_root_fingerprints := roots |}.

Definition trusts (self : TlsTrustStore) (fingerprint : str) : bool :=
  bool_decide (fingerprint ∈ trusted_root_fingerprints self).

Record SyntheticCertificate : Type := {
  ct_fingerprint_sha256 : str;
  ct_subject_spki_sha256 : str;
  ct_issuer_spki_sha256 : str;
  ct_encoded_bytes : N;
  ct_dns_sans : list str;
  ct_common_name : option str;
  ct_not_before_epoch_seconds : Z;
  ct_not_after_epoch_seconds : Z;
  ct_is_ca : bool;
  ct_path_len_constraint : option N;
  ct_key_usage_digital_signature : bool;
  ct_key_usage_cert_sign : bool;
  ct_eku_server_auth : bool;
  ct_signature_valid : bool;
  ct_unsupported_critical_extension : bool
}.

Record TlsHandshakeObservation : Type := {
  ob_server_name : str;
  ob_protocol_version : TlsProtocolVersion;
  ob_alpn : option str;
  ob_chain : list SyntheticCertificate;
  ob_handshake_read_bytes : N;
  ob_handshake_write_bytes : N;
  ob_elapsed_milliseconds : N;
  ob_early_data_accepted : bool;
  ob_renegotiation_observed : bool;
  ob_session_resumed : bool
}.

Inductive TlsRejectionReason : Type :=
  | HttpTransport
  | TlsMissingSni
  | SniMismatch
  | InvalidSni
  | InvalidHttpAuthority
  | UnsupportedProtocolVersion
  | MissingAlpn
  | UnsupportedAlpn
  | EarlyDataRejected
  | RenegotiationRejected
  | SessionResumptionRejected
  | HandshakeTimeout
  | HandshakeReadBudgetExceeded
  | HandshakeWriteBudgetExceeded
  | EmptyCertificateChain
  | CertificateChainTooDeep
  | CertificateTooLarge (certificate_index : N)
  | CertificateChainTooLarge
  | InvalidCertificateMetadata (certificate_index : N)
  | CertificateNotYetValid (certificate_index : N)
  | CertificateExpired (certificate_index : N)
  | UnsupportedCriticalExtension (certificate_index : N)
  | LeafIsCertificateAuthority
  | LeafMissingServerAuthEku
  | LeafMissingDigitalSignatureUsage
  | MissingDnsSubjectAlternativeName
  | TooManyDnsSubjectAlternativeNames
  | InvalidDnsSubjectAlternativeName
  | HostnameMismatch
  | IntermediateNotCertificateAuthority (certificate_index : N)
  | IntermediateMissingCertificateSignUsage (certificate_index : N)
  | IssuerLinkMismatch (certificate_index : N)
  | InvalidCertificateSignature (certificate_index : N)
  | RootNotCertificateAuthority
  | RootMissingCertificateSignUsage
  | RootNotSelfIssued
  | PathLengthConstraintExceeded (certificate_index : N)
  | UntrustedRoot.

Definition rejection_code (self : TlsRejectionReason) : str :=
  match self with
  | HttpTransport => "http_transport"
  | TlsMissingSni => "missing_sni"
  | SniMismatch => "sni_mismatch"
  | InvalidSni => "invalid_sni"
  | InvalidHttpAuthority => "invalid_http_authority"
  | UnsupportedProtocolVersion => "unsupported_protocol_version"
  | MissingAlpn => "missing_alpn"
  | UnsupportedAlpn => "unsupported_alpn"
  | EarlyDataRejected => "early_data_rejected"
  | RenegotiationRejected => "renegotiation_rejected"
  | SessionResumptionRejected => "session_resumption_rejected"
  | HandshakeTimeout => "handshake_timeout"
  | HandshakeReadBudgetExceeded => "handshake_read_budget_exceeded"
  | HandshakeWriteBudgetExceeded => "handshake_write_budget_exceeded"
  | EmptyCertificateChain => "empty_certificate_chain"
  | CertificateChainTooDeep => "certificate_chain_too_deep"
  | CertificateTooLarge _ => "certificate_too_large"
  | CertificateChainTooLarge => "certificate_chain_too_large"
  | InvalidCertificateMetadata _ => "invalid_certificate_metadata"
  | CertificateNotYetValid _ => "certificate_not_yet_valid"
  | CertificateExpired _ => "certificate_expired"
  | UnsupportedCriticalExtension _ => "unsupported_critical_extension"
  | LeafIsCertificateAuthority => "leaf_is_certificate_authority"
  | LeafMissingServerAuthEku => "leaf_missing_server_auth_eku"
  | LeafMissingDigitalSignatureUsage => "leaf_missing_digital_signature_usage"
  | MissingDnsSubjectAlternativeName => "missing_dns_subject_alternative_name"
  | TooManyDnsSubjectAlternativeNames => "too_many_dns_subject_alternative_names"
  | InvalidDnsSubjectAlternativeName => "invalid_dns_subject_alternative_name"
  | HostnameMismatch => "hostname_mismatch"
  | IntermediateNotCertificateAuthority _ => "intermediate_not_certificate_authority"
  | IntermediateMissingCertificateSignUsage _ => "intermediate_missing_certificate_sign_usage"
  | IssuerLinkMismatch _ => "issuer_link_mismatch"
  | InvalidCertificateSignature _ => "invalid_certificate_signature"
  | RootNotCertificateAuthority => "root_not_certificate_authority"
  | RootMissingCertificateSignUsage => "root_missing_certificate_sign_usage"
  | RootNotSelfIssued => "root_not_self_issued"
  | PathLengthConstraintExceeded _ => "path_length_constraint_exceeded"
  | UntrustedRoot => "untrusted_root"
  end.

Definition rejection_details (self : TlsRejectionReason) : gmap str str :=
  match self with
  | CertificateTooLarge i | InvalidCertificateMetadata i | CertificateNotYetValid i
  | CertificateExpired i | UnsupportedCriticalExtension i | IntermediateNotCertificateAuthority i
  | IntermediateMissingCertificateSignUsage i | IssuerLinkMismatch i | InvalidCertificateSignature i
  | PathLengthConstraintExceeded i => {[ ("certificate_index" : str) := decimal i ]}
  | _ => ∅
  end.

Inductive TlsVerificationOutcome : Type :=
  | Verified
  | TlsRejected (reason : TlsRejectionReason).

Definition verification_code (self : TlsVerificationOutcome) : str :=
  match self with Verified => "verified" | TlsRejected _ => "rejected" end.

Record TlsSessionGrant : Type := {
  tg_tls_session_id : str;
  tg_stream_id : str;
  tg_execution_id : str;
  tg_ticket_id : str;
  tg_binding_hash : str;
  tg_stream_audit_anchor : str;
  tg_sni : str;
  tg_http_host : str;
  tg_port : N;
  tg_redirect_depth : N;
  tg_protocol_version : TlsProtocolVersion;
  tg_alpn : str;
  tg_leaf_fingerprint_sha256 : str;
  tg_root_fingerprint_sha256 : str;
  tg_matched_san_sha256 : str;
  tg_tls_audit_anchor : str
}.

Record TlsVerificationDecision : Type := {
  td_outcome : TlsVerificationOutcome;
  td_grant : option TlsSessionGrant
}.

Definition is_verified (self : TlsVerificationDecision) : bool :=
  match td_outcome self with
  | Verified => bool_decide (is_Some (td_grant self))
  | TlsRejected _ => false
  end.

Record TlsAuditEvent : Type := {
  te_verification_id : str;
  te_tls_session_id : option str;
  te_verifier_id : str;
  te_status : str;
  te_reason : str;
  te_stream_id : str;
  te_execution_id : str;
  te_ticket_id : str;
  te_binding_hash : str;
  te_stream_audit_anchor : str;
  te_sni : str;
  te_http_host : str;
  te_port : N;
  te_redirect_depth : N;
  te_protocol_version : str;
  te_alpn : str;
  te_handshake_read_bytes : N;
  te_handshake_write_bytes : N;
  te_elapsed_milliseconds : N;
  te_chain_depth : N;
  te_chain_fingerprint_sha256 : str;
  te_leaf_fingerprint_sha256 : option str;
  te_root_fingerprint_sha256 : option str;
  te_matched_san_sha256 : option str;
  te_early_data_accepted : bool;
  te_renegotiation_observed : bool;
  te_session_resumed : bool;
  te_details : gmap str str
}.

Inductive TlsVerifierError : Type :=
  | TlsInvalidConfiguration (message : str)
  | TlsAudit (error : ChainError).

Record TlsPeerVerifier : Type := {
  tv_config : TlsPeerVerifierConfig;
  tv_trust_store : TlsTrustStore;
  tv_audit : HashChain TlsAuditEvent;
  tv_next_verification_id : N;
  tv_next_session_id : N
}.

Record VerifiedMaterial : Type := {
  vm_normalized_sni : str;
  vm_matched_san_sha256 : str;
  vm_leaf_fingerprint_sha256 : str;
  vm_root_fingerprint_sha256 : str
}.

Record LibraryVerifiedTlsObservation : Type := {
  lo_verifier_id : str;
  lo_server_name : str;
  lo_protocol_version : TlsProtocolVersion;
  lo_alpn : str;
  lo_handshake_read_bytes : N;
  lo_handshake_write_bytes : N;
  lo_elapsed_milliseconds : N;
  lo_chain_depth : N;
  lo_chain_fingerprint_sha256 : str;
  lo_leaf_fingerprint_sha256 : str;
  lo_trust_anchor_sha256 : str;
  lo_early_data_accepted : bool;
  lo_renegotiation_observed : bool;
  lo_session_resumed : bool
}.

Record LibraryVerifiedTlsBinder : Type := {
  lb_audit : HashChain TlsAuditEvent;
  lb_next_verification_id : N;
  lb_next_session_id : N
}.

Inductive LibraryVerifiedTlsError : Type :=
  | InvalidObservation (message : str)
  | LibraryTlsAudit (error : ChainError).

(** ** Names ([identity.rs]) *)

Definition is_ascii (s : str) : bool := forallb (in_range 0 127) s.

Definition strip_dns_name (value : str) : str :=
  to_ascii_lowercase (trim_end_matches (is_byte 46) (trim value)).

Definition normalize_dns_name (value : str) : Result str TlsRejectionReason :=
  let normalized := strip_dns_name value in
  if bool_decide (normalized = []) || (253 <? len normalized) || negb (is_ascii normalized)
     || bool_decide (is_Some (parse_ip_addr normalized))
  then Err InvalidSni
  else
    let labels := split_byte 46 normalized in
    if (len labels <? 2) || existsb (fun label => negb (is_valid_label label)) labels
    then Err InvalidSni else Ok normalized.

Definition expected_http_authority (sni : str) (port : N) : str :=
  if port =? 443 then sni else sni ++ (":" : str) ++ decimal port.

Definition valid_dns_name (value : str) : bool :=
  let labels := split_byte 46 value in (2 <=? len labels) && forallb is_valid_label labels.

Definition PUBLIC_SUFFIX_LIKE : list str :=
  map list_ascii_of_string
    ["com"; "net"; "org"; "edu"; "gov"; "mil"; "int"; "io"; "dev"; "app"; "co.uk"; "org.uk";
     "ac.uk"; "co.jp"; "com.tr"; "com.au"; "co.nz"]%string.

Definition wildcard_base_is_too_broad (base : str) : bool := bool_decide (base ∈ PUBLIC_SUFFIX_LIKE).

Definition normalize_san_pattern (value : str) : Result str TlsRejectionReason :=
  let normalized := strip_dns_name value in
  if bool_decide (normalized = []) || (253 <? len normalized) || negb (is_ascii normalized)
  then Err InvalidDnsSubjectAlternativeName
  else match strip_prefix normalized "*." with
  | Some base =>
      if contains_byte 42 base || negb (valid_dns_name base) || wildcard_base_is_too_broad base
      then Err InvalidDnsSubjectAlternativeName else Ok normalized
  | None =>
      if contains_byte 42 normalized || negb (valid_dns_name normalized)
      then Err InvalidDnsSubjectAlternativeName else Ok normalized
  end.

Definition san_matches (expected san : str) : bool :=
  match strip_prefix san "*." with
  | None => bool_decide (expected = san)
  | Some base =>
      let expected_labels := split_byte 46 expected in
      let base_labels := split_byte 46 base in
      (len expected_labels =? len base_labels + 1) && ends_with expected (("." : str) ++ base)
      && negb (bool_decide (head expected_labels = Some []))
  end.

(** The first [n] characters of a UTF-8 string. *)
Fixpoint take_chars (n : nat) (s : str) : str :=
  match s with
  | [] => []
  | c :: rest =>
      if is_continuation c then c :: take_chars n rest
      else match n with O => [] | S n => c :: take_chars n rest end
  end.

(** ** The verifier ([verifier.rs]) *)

Definition validate_certificate_metadata (certificate : SyntheticCertificate) (certificate_index : N)
    : Result unit TlsRejectionReason :=
  if negb (is_lower_hex_sha256 (ct_fingerprint_sha256 certificate))
     || negb (is_lower_hex_sha256 (ct_subject_spki_sha256 certificate))
     || negb (is_lower_hex_sha256 (ct_issuer_spki_sha256 certificate))
     || (ct_encoded_bytes certificate =? 0)
     || (ct_not_after_epoch_seconds certificate <? ct_not_before_epoch_seconds certificate)%Z
  then Err (InvalidCertificateMetadata certificate_index) else Ok tt.

(** The first loop of [verify_chain]. *)
Fixpoint check_certificates (limits : TlsLimits) (now_epoch_seconds : Z) (index chain_bytes : N)
    (chain : list SyntheticCertificate) : Result unit TlsRejectionReason :=
  match chain with
  | [] => Ok tt
  | certificate :: rest =>
      let? _ := validate_certificate_metadata certificate index in
      if tl_maximum_certificate_bytes limits <? ct_encoded_bytes certificate
      then Err (CertificateTooLarge index)
      else
      let chain_bytes := saturating_add chain_bytes (ct_encoded_bytes certificate) in
      if tl_maximum_chain_bytes limits <? chain_bytes then Err CertificateChainTooLarge
      else if (now_epoch_seconds <? ct_not_before_epoch_seconds certificate)%Z
      then Err (CertificateNotYetValid index)
      else if (ct_not_after_epoch_seconds certificate <? now_epoch_seconds)%Z
      then Err (CertificateExpired index)
      else if ct_unsupported_critical_extension certificate
      then Err (UnsupportedCriticalExtension index)
      else check_certificates limits now_epoch_seconds (index + 1) chain_bytes rest
  end.

(** The loop over a certificate and its issuer. *)
Fixpoint check_links (index : N) (chain : list SyntheticCertificate) : Result unit TlsRejectionReason :=
  match chain with
  | certificate :: ((issuer :: _) as rest) =>
      if bool_decide (ct_issuer_spki_sha256 certificate <> ct_subject_spki_sha256 issuer)
      then Err (IssuerLinkMismatch index)
      else if negb (ct_signature_valid certificate) then Err (InvalidCertificateSignature index)
      else check_links (index + 1) rest
  | _ => Ok tt
  end.

Definition check_path_length (index : N) (certificate : SyntheticCertificate)
    : Result unit TlsRejectionReason :=
  match ct_path_len_constraint certificate with
  | Some limit => if limit <? saturating_sub index 1 then Err (PathLengthConstraintExceeded index) else Ok tt
  | None => Ok tt
  end.

(** The loop over the certificates between the leaf and the root. *)
Fixpoint check_intermediates (index : N) (chain : list SyntheticCertificate)
    : Result unit TlsRejectionReason :=
  match chain with
  | [] => Ok tt
  | certificate :: rest =>
      if negb (ct_is_ca certificate) then Err (IntermediateNotCertificateAuthority index)
      else if negb (ct_key_usage_cert_sign certificate)
      then Err (IntermediateMissingCertificateSignUsage index)
      else
      let? _ := check_path_length index certificate in
      check_intermediates (index + 1) rest
  end.

Definition check_leaf (leaf : SyntheticCertificate) : Result unit TlsRejectionReason :=
  if ct_is_ca leaf then Err LeafIsCertificateAuthority
  else if negb (ct_eku_server_auth leaf) then Err LeafMissingServerAuthEku
  else if negb (ct_key_usage_digital_signature leaf) then Err LeafMissingDigitalSignatureUsage
  else Ok tt.

Definition check_root (store : TlsTrustStore) (root_index : N) (root : SyntheticCertificate)
    : Result unit TlsRejectionReason :=
  if negb (ct_is_ca root) then Err RootNotCertificateAuthority
  else if negb (ct_key_usage_cert_sign root) then Err RootMissingCertificateSignUsage
  else if bool_decide (ct_subject_spki_sha256 root <> ct_issuer_spki_sha256 root)
  then Err RootNotSelfIssued
  else if negb (ct_signature_valid root) then Err (InvalidCertificateSignature root_index)
  else
  let? _ := check_path_length root_index root in
  if negb (trusts store (ct_fingerprint_sha256 root)) then Err UntrustedRoot else Ok tt.

Definition valid_verifier_id (id : str) : bool :=
  negb (bool_decide (id = [])) && (len id <=? 128)
  && forallb (fun c => is_ascii_alphanumeric c || is_byte 45 c || is_byte 95 c || is_byte 46 c) id.

Definition verifier_new (config : TlsPeerVerifierConfig) (trust_store : TlsTrustStore)
    : Result TlsPeerVerifier TlsVerifierError :=
  if negb (valid_verifier_id (tc_verifier_id config))
  then Err (TlsInvalidConfiguration "verifier_id is invalid")
  else
  let? _ := map_err TlsInvalidConfiguration (tls_limits_validate (tc_limits config)) in
  if bool_decide (trusted_root_fingerprints trust_store = ∅)
  then Err (TlsInvalidConfiguration "trust store is empty")
  else Ok {| tv_config := config; tv_trust_store := trust_store; tv_audit := chain_new GENESIS_HASH;
             tv_next_verification_id := 1; tv_next_session_id := 1 |}.

Section Tls.
Context {S : Sha256Lib} {JS : JsonLib (HashMaterial StreamAuditEvent)}
  {JT : JsonLib (HashMaterial TlsAuditEvent)} {B : Type}.

Definition hex_sha256 (bytes : str) : str := to_lower_hex (sha256 bytes).

Fixpoint match_sans (expected_sni : str) (sans : list str) : Result (str * str) TlsRejectionReason :=
  match sans with
  | [] => Err HostnameMismatch
  | san :: rest =>
      let? normalized := normalize_san_pattern san in
      if san_matches expected_sni normalized then Ok (expected_sni, hex_sha256 normalized)
      else match_sans expected_sni rest
  end.

(** The normalised SNI and the digest of the name that matched. *)
Definition match_dns_san (expected_sni : str) (sans : list str) (maximum_dns_sans : N)
    : Result (str * str) TlsRejectionReason :=
  if bool_decide (sans = []) then Err MissingDnsSubjectAlternativeName
  else if maximum_dns_sans <? len sans then Err TooManyDnsSubjectAlternativeNames
  else match_sans expected_sni sans.

Definition chain_fingerprint_digest (chain : list SyntheticCertificate) : str :=
  hex_sha256 (join ["010"%char] (ct_fingerprint_sha256 <$> chain)).

Definition verify_chain (self : TlsPeerVerifier) (expected_sni : str) (chain : list SyntheticCertificate)
    (now_epoch_seconds : Z) : Result VerifiedMaterial TlsRejectionReason :=
  let limits := tc_limits (tv_config self) in
  match head chain, last chain with
  | Some leaf, Some root =>
      if tl_maximum_chain_depth limits <? len chain then Err CertificateChainTooDeep
      else
      let? _ := check_certificates limits now_epoch_seconds 0 0 chain in
      let? _ := check_leaf leaf in
      let? (normalized_sni, matched_san_sha256) :=
        match_dns_san expected_sni (ct_dns_sans leaf) (tl_maximum_dns_sans limits) in
      let? _ := check_links 0 chain in
      let? _ := check_intermediates 1 (take (length chain - 2) (drop 1 chain)) in
      let? _ := check_root (tv_trust_store self) (len chain - 1) root in
      Ok {| vm_normalized_sni := normalized_sni; vm_matched_san_sha256 := matched_san_sha256;
            vm_leaf_fingerprint_sha256 := ct_fingerprint_sha256 leaf;
            vm_root_fingerprint_sha256 := ct_fingerprint_sha256 root |}
  | _, _ => Err EmptyCertificateChain
  end.

Definition supported_protocol (v : TlsProtocolVersion) : bool :=
  match v with Tls12 | Tls13 => true | _ => false end.

Definition tls_evaluate (self : TlsPeerVerifier) (stream : BoundedByteStream B)
    (observation : TlsHandshakeObservation) (now_epoch_seconds : Z)
    : Result VerifiedMaterial TlsRejectionReason :=
  let grant := bs_grant stream in
  let limits := tc_limits (tv_config self) in
  if bool_decide (gr_scheme grant <> ("https" : str)) then Err HttpTransport
  else match gr_sni grant with
  | None => Err TlsMissingSni
  | Some sni =>
      let? expected_sni := normalize_dns_name sni in
      let? observed_sni := normalize_dns_name (ob_server_name observation) in
      if bool_decide (expected_sni <> observed_sni) then Err SniMismatch
      else if bool_decide (to_ascii_lowercase (gr_http_host grant)
                           <> expected_http_authority expected_sni (gr_port grant))
      then Err InvalidHttpAuthority
      else if negb (supported_protocol (ob_protocol_version observation))
      then Err UnsupportedProtocolVersion
      else match ob_alpn observation with
      | None => Err MissingAlpn
      | Some alpn =>
          if bool_decide (alpn <> ("http/1.1" : str)) then Err UnsupportedAlpn
          else if ob_early_data_accepted observation then Err EarlyDataRejected
          else if ob_renegotiation_observed observation then Err RenegotiationRejected
          else if ob_session_resumed observation then Err SessionResumptionRejected
          else if tl_handshake_timeout_milliseconds limits <? ob_elapsed_milliseconds observation
          then Err HandshakeTimeout
          else if tl_maximum_handshake_read_bytes limits <? ob_handshake_read_bytes observation
          then Err HandshakeReadBudgetExceeded
          else if tl_maximum_handshake_write_bytes limits <? ob_handshake_write_bytes observation
          then Err HandshakeWriteBudgetExceeded
          else verify_chain self expected_sni (ob_chain observation) now_epoch_seconds
      end
  end.

(** A fingerprint is recorded only when it is well formed. *)
Definition recorded_fingerprint (certificate : option SyntheticCertificate) : option str :=
  match certificate with
  | Some c => if is_lower_hex_sha256 (ct_fingerprint_sha256 c) then Some (ct_fingerprint_sha256 c) else None
  | None => None
  end.

Definition tls_event (self : TlsPeerVerifier) (verification_id : str) (tls_session_id : option str)
    (evaluation : Result VerifiedMaterial TlsRejectionReason) (stream : BoundedByteStream B)
    (observation : TlsHandshakeObservation) : TlsAuditEvent :=
  let grant := bs_grant stream in
  {| te_verification_id := verification_id;
     te_tls_session_id := tls_session_id;
     te_verifier_id := tc_verifier_id (tv_config self);
     te_status := verification_code (match evaluation with Ok _ => Verified | Err r => TlsRejected r end);
     te_reason := match evaluation with Ok _ => "verified" | Err r => rejection_code r end;
     te_stream_id := gr_stream_id grant;
     te_execution_id := gr_execution_id grant;
     te_ticket_id := gr_ticket_id grant;
     te_binding_hash := gr_binding_hash grant;
     te_stream_audit_anchor := tail_hash (bs_audit stream);
     te_sni := to_ascii_lowercase (default ("[missing]" : str) (gr_sni grant));
     te_http_host := to_ascii_lowercase (gr_http_host grant);
     te_port := gr_port grant;
     te_redirect_depth := gr_redirect_depth grant;
     te_protocol_version := protocol_code (ob_protocol_version observation);
     te_alpn := take_chars 64 (default ("[missing]" : str) (ob_alpn observation));
     te_handshake_read_bytes := ob_handshake_read_bytes observation;
     te_handshake_write_bytes := ob_handshake_write_bytes observation;
     te_elapsed_milliseconds := ob_elapsed_milliseconds observation;
     te_chain_depth := len (ob_chain observation);
     te_chain_fingerprint_sha256 := chain_fingerprint_digest (ob_chain observation);
     te_leaf_fingerprint_sha256 := recorded_fingerprint (head (ob_chain observation));
     te_root_fingerprint_sha256 := recorded_fingerprint (last (ob_chain observation));
     te_matched_san_sha256 :=
       match evaluation with Ok m => Some (vm_matched_san_sha256 m) | Err _ => None end;
     te_early_data_accepted := ob_early_data_accepted observation;
     te_renegotiation_observed := ob_renegotiation_observed observation;
     te_session_resumed := ob_session_resumed observation;
     te_details := match evaluation with Ok _ => ∅ | Err r => rejection_details r end |}.

Definition tls_grant (stream : BoundedByteStream B) (observation : TlsHandshakeObservation)
    (material : VerifiedMaterial) (tls_session_id audit_anchor : str) : TlsSessionGrant :=
  let grant := bs_grant stream in
  {| tg_tls_session_id := tls_session_id;
     tg_stream_id := gr_stream_id grant;
     tg_execution_id := gr_execution_id grant;
     tg_ticket_id := gr_ticket_id grant;
     tg_binding_hash := gr_binding_hash grant;
     tg_stream_audit_anchor := tail_hash (bs_audit stream);
     tg_sni := vm_normalized_sni material;
     tg_http_host := gr_http_host grant;
     tg_port := gr_port grant;
     tg_redirect_depth := gr_redirect_depth grant;
     tg_protocol_version := ob_protocol_version observation;
     tg_alpn := "http/1.1";
     tg_leaf_fingerprint_sha256 := vm_leaf_fingerprint_sha256 material;
     tg_root_fingerprint_sha256 := vm_root_fingerprint_sha256 material;
     tg_matched_san_sha256 := vm_matched_san_sha256 material;
     tg_tls_audit_anchor := audit_anchor |}.

Definition tls_verify (stream : BoundedByteStream B) (observation : TlsHandshakeObservation)
    (now_epoch_seconds : Z) (self : TlsPeerVerifier)
    : Result TlsVerificationDecision TlsVerifierError * TlsPeerVerifier :=
  let verification_id :=
    ("tls-verification-" : str) ++ decimal020 (tv_next_verification_id self) in
  let evaluation := tls_evaluate self stream observation now_epoch_seconds in
  let tls_session_id := match evaluation with
    | Ok _ => Some (("tls-session-" : str) ++ decimal020 (tv_next_session_id self))
    | Err _ => None
    end in
  let event := tls_event self verification_id tls_session_id evaluation stream observation in
  let (appended, audit) := chain_append event (tv_audit self) in
  let self := {| tv_config := tv_config self; tv_trust_store := tv_trust_store self; tv_audit := audit;
                 tv_next_verification_id := saturating_add (tv_next_verification_id self) 1;
                 tv_next_session_id := if is_ok evaluation then saturating_add (tv_next_session_id self) 1
                                       else tv_next_session_id self |} in
  match appended with
  | Err e => (Err (TlsAudit e), self)
  | Ok record =>
      match evaluation, tls_session_id with
      | Ok material, Some tls_session_id =>
          (Ok {| td_outcome := Verified;
                 td_grant := Some (tls_grant stream observation material tls_session_id
                                     (record_hash record)) |}, self)
      | Ok _, None => (Ok {| td_outcome := Verified; td_grant := None |}, self)
      | Err reason, _ => (Ok {| td_outcome := TlsRejected reason; td_grant := None |}, self)
      end
  end.

(** ** Sessions verified by a TLS library ([preverified.rs]) *)

Definition binder_new : LibraryVerifiedTlsBinder :=
  {| lb_audit := chain_new GENESIS_HASH; lb_next_verification_id := 1; lb_next_session_id := 1 |}.

Definition valid_library_id (id : str) : bool :=
  negb (bool_decide (id = [])) && (len id <=? 128)
  && forallb (fun c => is_ascii_alphanumeric c || is_byte 45 c || is_byte 95 c || is_byte 46 c
                       || is_byte 58 c) id.

Definition observed_name (name : str) : Result str LibraryVerifiedTlsError :=
  map_err (fun reason => InvalidObservation (rejection_code reason)) (normalize_dns_name name).

Definition stream_sni (stream : BoundedByteStream B) : Result str LibraryVerifiedTlsError :=
  match gr_sni (bs_grant stream) with
  | Some sni => Ok sni
  | None => Err (InvalidObservation "missing SNI")
  end.

Fixpoint check_fingerprints (l : list (str * str)) : Result unit LibraryVerifiedTlsError :=
  match l with
  | [] => Ok tt
  | (value, name) :: rest =>
      if negb (is_lower_hex_sha256 value)
      then Err (InvalidObservation (name ++ (" fingerprint is invalid" : str)))
      else check_fingerprints rest
  end.

Definition validate_observation (stream : BoundedByteStream B)
    (observation : LibraryVerifiedTlsObservation) : Result unit LibraryVerifiedTlsError :=
  let grant := bs_grant stream in
  let? sni := stream_sni stream in
  let? expected_sni := observed_name sni in
  let? observed_sni := observed_name (lo_server_name observation) in
  if bool_decide (gr_scheme grant <> ("https" : str))
  then Err (InvalidObservation "library-verified binding requires HTTPS")
  else if bool_decide (expected_sni <> observed_sni)
  then Err (InvalidObservation "verified server name does not match stream SNI")
  else if bool_decide (to_ascii_lowercase (gr_http_host grant)
                       <> expected_http_authority expected_sni (gr_port grant))
  then Err (InvalidObservation "HTTP authority does not match verified SNI")
  else if negb (valid_library_id (lo_verifier_id observation))
  then Err (InvalidObservation "TLS library verifier identifier is invalid")
  else if negb (supported_protocol (lo_protocol_version observation))
          || bool_decide (lo_alpn observation <> ("http/1.1" : str))
  then Err (InvalidObservation "TLS version or ALPN is outside the verified HTTP/1.1 boundary")
  else if (lo_chain_depth observation =? 0) || (16 <? lo_chain_depth observation)
  then Err (InvalidObservation "certificate chain depth is outside the bridge limit")
  else
  let? _ := check_fingerprints
    [(lo_chain_fingerprint_sha256 observation, "certificate chain" : str);
     (lo_leaf_fingerprint_sha256 observation, "leaf certificate" : str);
     (lo_trust_anchor_sha256 observation, "trust anchor snapshot" : str)] in
  if lo_early_data_accepted observation || lo_renegotiation_observed observation
     || lo_session_resumed observation
  then Err (InvalidObservation "early data, renegotiation and resumed sessions are rejected")
  else Ok tt.

Definition library_event (stream : BoundedByteStream B) (observation : LibraryVerifiedTlsObservation)
    (verification_id tls_session_id normalized_sni : str) : TlsAuditEvent :=
  let grant := bs_grant stream in
  {| te_verification_id := verification_id;
     te_tls_session_id := Some tls_session_id;
     te_verifier_id := lo_verifier_id observation;
     te_status := "verified";
     te_reason := "library_verified_and_stream_bound";
     te_stream_id := gr_stream_id grant;
     te_execution_id := gr_execution_id grant;
     te_ticket_id := gr_ticket_id grant;
     te_binding_hash := gr_binding_hash grant;
     te_stream_audit_anchor := tail_hash (bs_audit stream);
     te_sni := normalized_sni;
     te_http_host := to_ascii_lowercase (gr_http_host grant);
     te_port := gr_port grant;
     te_redirect_depth := gr_redirect_depth grant;
     te_protocol_version := protocol_code (lo_protocol_version observation);
     te_alpn := lo_alpn observation;
     te_handshake_read_bytes := lo_handshake_read_bytes observation;
     te_handshake_write_bytes := lo_handshake_write_bytes observation;
     te_elapsed_milliseconds := lo_elapsed_milliseconds observation;
     te_chain_depth := lo_chain_depth observation;
     te_chain_fingerprint_sha256 := lo_chain_fingerprint_sha256 observation;
     te_leaf_fingerprint_sha256 := Some (lo_leaf_fingerprint_sha256 observation);
     te_root_fingerprint_sha256 := Some (lo_trust_anchor_sha256 observation);
     te_matched_san_sha256 := Some (hex_sha256 normalized_sni);
     te_early_data_accepted := lo_early_data_accepted observation;
     te_renegotiation_observed := lo_renegotiation_observed observation;
     te_session_resumed := lo_session_resumed observation;
     te_details := list_to_map
       [("verification_source" : str, "tls_library" : str);
        ("trust_anchor_kind" : str, "configured_root_store_snapshot" : str)] |}.

Definition library_grant (stream : BoundedByteStream B) (observation : LibraryVerifiedTlsObservation)
    (tls_session_id normalized_sni tls_audit_anchor : str) : TlsSessionGrant :=
  let grant := bs_grant stream in
  {| tg_tls_session_id := tls_session_id;
     tg_stream_id := gr_stream_id grant;
     tg_execution_id := gr_execution_id grant;
     tg_ticket_id := gr_ticket_id grant;
     tg_binding_hash := gr_binding_hash grant;
     tg_stream_audit_anchor := tail_hash (bs_audit stream);
     tg_sni := normalized_sni;
     tg_http_host := gr_http_host grant;
     tg_port := gr_port grant;
     tg_redirect_depth := gr_redirect_depth grant;
     tg_protocol_version := lo_protocol_version observation;
     tg_alpn := lo_alpn observation;
     tg_leaf_fingerprint_sha256 := lo_leaf_fingerprint_sha256 observation;
     tg_root_fingerprint_sha256 := lo_trust_anchor_sha256 observation;
     tg_matched_san_sha256 := hex_sha256 normalized_sni;
     tg_tls_audit_anchor := tls_audit_anchor |}.

(** The name of the stream, as [bind] reads it after the observation has passed. *)
Definition stream_name (stream : BoundedByteStream B) : Result str LibraryVerifiedTlsError :=
  let? sni := stream_sni stream in observed_name sni.

Definition bind (stream : BoundedByteStream B) (observation : LibraryVerifiedTlsObservation)
    (self : LibraryVerifiedTlsBinder)
    : Result TlsSessionGrant LibraryVerifiedTlsError * LibraryVerifiedTlsBinder :=
  match stream_audit_verify (bs_audit stream) with
  | Err e => (Err (InvalidObservation (stream_audit_error_display e)), self)
  | Ok _ =>
  match validate_observation stream observation with
  | Err e => (Err e, self)
  | Ok _ =>
      let verification_id :=
        ("tls-library-verification-" : str) ++ decimal020 (lb_next_verification_id self) in
      let tls_session_id := ("tls-library-session-" : str) ++ decimal020 (lb_next_session_id self) in
      let numbered audit :=
        {| lb_audit := audit;
           lb_next_verification_id := saturating_add (lb_next_verification_id self) 1;
           lb_next_session_id := saturating_add (lb_next_session_id self) 1 |} in
      match stream_name stream with
      | Err e => (Err e, numbered (lb_audit self))
      | Ok normalized_sni =>
          match chain_append (library_event stream observation verification_id tls_session_id
                                normalized_sni) (lb_audit self) with
          | (Err e, audit) => (Err (LibraryTlsAudit e), numbered audit)
          | (Ok record, audit) =>
              match chain_verify audit with
              | Err e => (Err (LibraryTlsAudit e), numbered audit)
              | Ok _ =>
                  (Ok (library_grant stream observation tls_session_id normalized_sni
                         (record_hash record)), numbered audit)
              end
          end
      end
  end
  end.
End Tls.

(** ** Names a certificate covers *)

(** A pattern covers its own name, and a wildcard exactly one more label. *)
Definition covers (pattern name : str) : Prop :=
  (starts_with pattern "*." = false /\ name = pattern)
  \/ exists base label, pattern = ("*." : str) ++ base /\ label <> []
     /\ existsb (is_byte 46) label = false /\ name = label ++ ("." : str) ++ base.

Lemma split_byte_length n s : length (split_byte n s) = Datatypes.S (length (List.filter (is_byte n) s)).
Proof.
  induction s as [|c s IH]; [done|]. simpl. destruct (is_byte n c); simpl; [by rewrite IH|].
  pose proof (split_byte_nonempty n s). by destruct (split_byte n s).
Qed.

Lemma filter_none {A} (p : A -> bool) l : List.filter p l = [] <-> existsb p l = false.
Proof. induction l as [|x l IH]; simpl; [done|]. destruct (p x); simpl; [done|apply IH]. Qed.

Lemma split_byte_head n label rest :
  existsb (is_byte n) label = false -> head rest = None \/ (exists c r, rest = c :: r /\ is_byte n c = true) ->
  head (split_byte n (label ++ rest)) = Some label.
Proof.
  intros Hl Hr. rewrite split_byte_piece.
  - destruct Hr as [Hr|(c & r & -> & Hc)]; [destruct rest; [|done]|]; simpl; [|rewrite Hc]; by rewrite app_nil_r.
  - induction label as [|c l IH]; [done|]. simpl in *. apply orb_false_iff in Hl as [-> Hl]. by apply IH.
Qed.

Lemma wildcard_matches base name :
  (len (split_byte 46 name) =? len (split_byte 46 base) + 1) && ends_with name (("." : str) ++ base)
    && negb (bool_decide (head (split_byte 46 name) = Some [])) = true
  <-> exists label, label <> [] /\ existsb (is_byte 46) label = false /\ name = label ++ ("." : str) ++ base.
Proof.
  rewrite !andb_true_iff, N.eqb_eq, ends_with_spec, negb_true_iff, bool_decide_eq_false. split.
  - intros [[Hlen [label ->]] Hhead]. exists label.
    assert (Hno : existsb (is_byte 46) label = false).
    { apply filter_none, length_zero_iff_nil. unfold len in Hlen. rewrite !split_byte_length in Hlen.
      rewrite List.filter_app, length_app in Hlen. simpl in Hlen. lia. }
    split_and!; [|done|done]. intros ->. apply Hhead. done.
  - intros (label & Hne & Hno & ->). split_and!.
    + unfold len. rewrite !split_byte_length, List.filter_app, length_app.
      apply filter_none in Hno. rewrite Hno. simpl. lia.
    + eauto.
    + rewrite split_byte_head; [congruence|done|]. right. by do 2 eexists.
Qed.

Lemma san_matches_covers expected san : san_matches expected san = true <-> covers san expected.
Proof.
  unfold san_matches, covers. destruct (strip_prefix san "*.") as [base|] eqn:E.
  - apply strip_prefix_spec in E as ->. rewrite wildcard_matches. split.
    + intros (label & H). right. by exists base, label.
    + intros [[Hs _]|(b & label & Hb%app_inv_head & H)]; [|subst; eauto].
      apply not_true_iff_false in Hs. destruct Hs. apply starts_with_spec. eauto.
  - rewrite bool_decide_eq_true. unfold strip_prefix in E.
    destruct (starts_with san "*.") eqn:Hs; [done|]. split; [auto|].
    intros [[_ ?]|(b & label & -> & _)]; [done|]. apply not_true_iff_false in Hs. destruct Hs.
    apply starts_with_spec. eauto.
Qed.

(** ** Trusted chains *)

(** A certificate by itself. *)
Definition certificate_sound (limits : TlsLimits) (now : Z) (c : SyntheticCertificate) : Prop :=
  is_lower_hex_sha256 (ct_fingerprint_sha256 c) = true
  /\ is_lower_hex_sha256 (ct_subject_spki_sha256 c) = true
  /\ is_lower_hex_sha256 (ct_issuer_spki_sha256 c) = true
  /\ 0 < ct_encoded_bytes c <= tl_maximum_certificate_bytes limits
  /\ (ct_not_before_epoch_seconds c <= now <= ct_not_after_epoch_seconds c)%Z
  /\ ct_unsupported_critical_extension c = false.

Fixpoint total_bytes (chain : list SyntheticCertificate) : N :=
  match chain with [] => 0 | c :: rest => ct_encoded_bytes c + total_bytes rest end.

(** A certificate that may issue others, with [below] authorities under it. *)
Definition may_issue (below : N) (c : SyntheticCertificate) : Prop :=
  ct_is_ca c = true /\ ct_key_usage_cert_sign c = true
  /\ forall limit, ct_path_len_constraint c = Some limit -> below <= limit.

Record chain_trusted (limits : TlsLimits) (store : TlsTrustStore) (now : Z)
    (chain : list SyntheticCertificate) (leaf root : SyntheticCertificate) : Prop := {
  tr_depth : 2 <= len chain <= tl_maximum_chain_depth limits;
  tr_leaf : head chain = Some leaf;
  tr_root : last chain = Some root;
  tr_certificates : Forall (certificate_sound limits now) chain;
  tr_bytes : total_bytes chain <= tl_maximum_chain_bytes limits;
  tr_end_entity : ct_is_ca leaf = false /\ ct_eku_server_auth leaf = true
    /\ ct_key_usage_digital_signature leaf = true;
  tr_links : forall i c issuer, chain !! i = Some c -> chain !! Datatypes.S i = Some issuer ->
    ct_issuer_spki_sha256 c = ct_subject_spki_sha256 issuer /\ ct_signature_valid c = true;
  tr_authorities : forall i c, chain !! Datatypes.S i = Some c -> may_issue (N.of_nat i) c;
  tr_anchor : ct_subject_spki_sha256 root = ct_issuer_spki_sha256 root
    /\ ct_signature_valid root = true
    /\ ct_fingerprint_sha256 root ∈ trusted_root_fingerprints store
}.

(** Guards of a body that returned [Ok], as propositions. *)
Ltac guards :=
  repeat first
    [ rewrite seq_ok | rewrite guard_ok | rewrite orb_false_iff | rewrite negb_false_iff
    | rewrite N.ltb_ge | rewrite Z.ltb_ge | rewrite N.eqb_neq | rewrite bool_decide_eq_false ].

Lemma check_certificates_spec limits now chain : forall index bytes,
  tl_maximum_chain_bytes limits < u64_max ->
  bytes <= tl_maximum_chain_bytes limits ->
  check_certificates limits now index bytes chain = Ok tt
  <-> Forall (certificate_sound limits now) chain /\ bytes + total_bytes chain <= tl_maximum_chain_bytes limits.
Proof.
  induction chain as [|c chain IH]; intros index bytes Hmax Hb; cbn [check_certificates total_bytes].
  { rewrite Forall_nil. intuition lia. }
  unfold validate_certificate_metadata. rewrite Forall_cons. guards. unfold certificate_sound at 1. unfold saturating_add. split.
  - intros ([((((? & ?) & ?) & ?) & ?) _] & ? & ? & ? & ? & ? & Hrest).
    apply IH in Hrest as [? ?]; [|done..].
    split_and!; auto; lia.
  - intros [[(? & ? & ? & ? & ? & ?) ?] ?]. split_and!; auto; try lia. apply IH; [done|lia|].
    split; [done|lia].
Qed.

Lemma check_links_spec chain : forall index,
  check_links index chain = Ok tt
  <-> forall i c issuer, chain !! i = Some c -> chain !! Datatypes.S i = Some issuer ->
        ct_issuer_spki_sha256 c = ct_subject_spki_sha256 issuer /\ ct_signature_valid c = true.
Proof.
  induction chain as [|c [|d rest] IH]; intros index.
  - split; [|done]. intros _ i c d Hc. by rewrite lookup_nil in Hc.
  - split; [|done]. intros _ [|i] x y Hx Hy; by rewrite ?lookup_cons, ?lookup_nil in *.
  - change (check_links index (c :: d :: rest)) with
      (if bool_decide (ct_issuer_spki_sha256 c <> ct_subject_spki_sha256 d) then Err (IssuerLinkMismatch index)
       else if negb (ct_signature_valid c) then Err (InvalidCertificateSignature index)
       else check_links (index + 1) (d :: rest)).
    guards. rewrite IH. split.
    + intros (Hs & Hv & H) [|i] x y Hx Hy; [|by apply (H i)]. simplify_eq/=. split; [|done].
      by apply dec_stable.
    + intros H. split_and!.
      * intros Hn. apply Hn. by apply (H 0%nat).
      * by apply (H 0%nat c d).
      * intros i x y Hx Hy. by apply (H (Datatypes.S i)).
Qed.

Lemma check_path_length_spec index c :
  check_path_length index c = Ok tt
  <-> forall limit, ct_path_len_constraint c = Some limit -> index - 1 <= limit.
Proof.
  unfold check_path_length, saturating_sub. destruct (ct_path_len_constraint c) as [limit|]; guards; naive_solver.
Qed.

Lemma check_intermediates_spec chain : forall index,
  check_intermediates index chain = Ok tt
  <-> forall i c, chain !! i = Some c -> may_issue (index + N.of_nat i - 1) c.
Proof.
  induction chain as [|c chain IH]; intros index; cbn [check_intermediates].
  { split; [|done]. intros _ i c Hc. by rewrite lookup_nil in Hc. }
  guards. rewrite check_path_length_spec, IH. split.
  - intros (? & ? & Hp & Hrest) [|i] d Hd.
    + simplify_eq/=. split_and!; [done..|]. intros limit Hl. specialize (Hp _ Hl). lia.
    + replace (index + N.of_nat (Datatypes.S i) - 1) with (index + 1 + N.of_nat i - 1) by lia. by apply Hrest.
  - intros H. destruct (H 0%nat c) as (? & ? & Hp); [done|]. split_and!; [done..| |].
    + intros limit Hl. specialize (Hp _ Hl). lia.
    + intros i d Hd. replace (index + 1 + N.of_nat i - 1) with (index + N.of_nat (Datatypes.S i) - 1) by lia.
      by apply (H (Datatypes.S i)).
Qed.

Lemma check_leaf_spec leaf :
  check_leaf leaf = Ok tt
  <-> ct_is_ca leaf = false /\ ct_eku_server_auth leaf = true /\ ct_key_usage_digital_signature leaf = true.
Proof. unfold check_leaf. guards. naive_solver. Qed.

Lemma check_root_spec store index root :
  check_root store index root = Ok tt
  <-> may_issue (index - 1) root /\ ct_subject_spki_sha256 root = ct_issuer_spki_sha256 root
      /\ ct_signature_valid root = true /\ ct_fingerprint_sha256 root ∈ trusted_root_fingerprints store.
Proof.
  unfold check_root, may_issue, trusts. guards. rewrite check_path_length_spec, bool_decide_eq_true.
  split; [|naive_solver]. intros (? & ? & Hself & ? & ? & ? & _). split_and!; try done. by apply dec_stable.
Qed.

(** The certificates after the leaf are those between leaf and root, and the root. *)
Lemma authorities_split (chain : list SyntheticCertificate) root :
  (2 <= length chain)%nat -> last chain = Some root ->
  (forall i c, chain !! Datatypes.S i = Some c -> may_issue (N.of_nat i) c)
  <-> (forall i c, take (length chain - 2) (drop 1 chain) !! i = Some c -> may_issue (1 + N.of_nat i - 1) c)
      /\ may_issue (len chain - 1 - 1) root.
Proof.
  intros Hlen Hlast. rewrite last_lookup in Hlast.
  split.
  - intros H. split.
    + intros i c Hc. replace (1 + N.of_nat i - 1) with (N.of_nat i) by lia. apply H.
      apply lookup_take_Some in Hc as [Hc _]. by rewrite lookup_drop in Hc.
    + replace (len chain - 1 - 1) with (N.of_nat (length chain - 2)) by (unfold len; lia). apply H.
      by replace (Datatypes.S (length chain - 2)) with (pred (length chain)) by lia.
  - intros [H Hr] i c Hc. pose proof (lookup_lt_Some _ _ _ Hc).
    destruct (decide (i < length chain - 2)%nat).
    + replace (N.of_nat i) with (1 + N.of_nat i - 1) by lia. apply H.
      rewrite lookup_take_lt by lia. by rewrite lookup_drop.
    + assert (i = length chain - 2)%nat as -> by lia.
      replace (Datatypes.S (length chain - 2)) with (pred (length chain)) in Hc by lia. simplify_eq.
      by replace (N.of_nat (length chain - 2)) with (len chain - 1 - 1) by (unfold len; lia).
Qed.

Section TlsFacts.
Context {S : Sha256Lib} {JS : JsonLib (HashMaterial StreamAuditEvent)}
  {JT : JsonLib (HashMaterial TlsAuditEvent)} {B : Type}.

(** [san] is the first name of the certificate that covers the SNI, and the
    names before it are well formed. *)
Definition first_cover (sni : str) (sans : list str) (san : str) : Prop :=
  exists before raw after, sans = before ++ raw :: after
  /\ Forall (fun s => exists p, normalize_san_pattern s = Ok p /\ ~ covers p sni) before
  /\ normalize_san_pattern raw = Ok san /\ covers san sni.

Lemma match_sans_spec sni sans name digest :
  match_sans sni sans = Ok (name, digest)
  <-> name = sni /\ exists san, first_cover sni sans san /\ digest = hex_sha256 san.
Proof.
  induction sans as [|s sans IH]; simpl.
  { split; [done|]. intros (_ & san & (before & raw & after & E & _) & _). by destruct before. }
  destruct (normalize_san_pattern s) as [p|e] eqn:Hp.
  - destruct (san_matches sni p) eqn:Hm.
    + apply san_matches_covers in Hm. split.
      * intros [= <- <-]. split; [done|]. exists p. split; [|done]. by exists [], s, sans.
      * intros (-> & san & (before & raw & after & E & Hall & Hraw & Hcov) & ->).
        destruct before as [|b before]; simplify_eq/=; [by rewrite Hp in Hraw; simplify_eq|].
        apply Forall_cons in Hall as [(q & Hq & Hn) _]. rewrite Hp in Hq. by simplify_eq.
    + rewrite IH. split; intros (-> & san & (before & raw & after & E & Hall & Hraw & Hcov) & ->);
        (split; [done|]); exists san; (split; [|done]).
      * exists (s :: before), raw, after. subst. split_and!; try done. constructor; [|done].
        exists p. split; [done|]. intros Hc%san_matches_covers. congruence.
      * destruct before as [|b before]; simplify_eq/=.
        { apply san_matches_covers in Hcov. congruence. }
        exists before, raw, after. apply Forall_cons in Hall as [_ Hall]. done.
  - split; [done|]. intros (_ & san & (before & raw & after & E & Hall & Hraw & _) & _).
    destruct before as [|b before]; simplify_eq/=; [congruence|].
    apply Forall_cons in Hall as [(q & Hq & _) _]. congruence.
Qed.

Lemma match_dns_san_spec sni sans maximum name digest :
  match_dns_san sni sans maximum = Ok (name, digest)
  <-> len sans <= maximum /\ name = sni /\ exists san, first_cover sni sans san /\ digest = hex_sha256 san.
Proof.
  unfold match_dns_san. guards. rewrite match_sans_spec. split; [naive_solver|].
  intros (? & ? & san & Hc & ?). split_and!; eauto. intros ->.
  destruct Hc as (before & raw & after & E & _). by destruct before.
Qed.

Definition material_of (sni san : str) (leaf root : SyntheticCertificate) : VerifiedMaterial :=
  {| vm_normalized_sni := sni; vm_matched_san_sha256 := hex_sha256 san;
     vm_leaf_fingerprint_sha256 := ct_fingerprint_sha256 leaf;
     vm_root_fingerprint_sha256 := ct_fingerprint_sha256 root |}.

Lemma valid_limits_chain_bytes limits :
  tls_limits_validate limits = Ok tt -> tl_maximum_chain_bytes limits < u64_max.
Proof.
  unfold tls_limits_validate. guards. intros (_ & _ & [_ H] & _).
  unfold MAX_CERTIFICATE_CHAIN_BYTES in H. unfold u64_max. lia.
Qed.

(** The chain that [verify_chain] accepts: trusted, for a name the leaf covers. *)
Definition chain_accepted (limits : TlsLimits) (store : TlsTrustStore) (now : Z) (sni : str)
    (chain : list SyntheticCertificate) (leaf root : SyntheticCertificate) (san : str) : Prop :=
  chain_trusted limits store now chain leaf root
  /\ len (ct_dns_sans leaf) <= tl_maximum_dns_sans limits /\ first_cover sni (ct_dns_sans leaf) san.

Lemma verify_chain_sound v sni chain now m :
  tls_limits_validate (tc_limits (tv_config v)) = Ok tt ->
  verify_chain v sni chain now = Ok m ->
  exists leaf root san, chain_accepted (tc_limits (tv_config v)) (tv_trust_store v) now sni chain leaf root san
  /\ m = material_of sni san leaf root.
Proof.
  intros Hlim%valid_limits_chain_bytes. unfold verify_chain.
  destruct (head chain) as [leaf|] eqn:Hhead; [|done].
  destruct (last chain) as [root|] eqn:Hlast; [|done]. guards.
  rewrite check_certificates_spec, check_leaf_spec by lia. intros (Hdepth & (Hcerts & Hbytes) & Hleaf & H).
  destruct (match_dns_san _ _ _) as [[name digest]|] eqn:Hsan; [|done]. revert H. guards.
  rewrite check_links_spec, check_intermediates_spec, check_root_spec.
  intros (Hlinks & Hinter & ((Hroot & Hself & Hsig & Htrust) & [= <-])).
  apply match_dns_san_spec in Hsan as (Hmax & -> & san & Hcov & ->).
  assert (Hlen : (2 <= length chain)%nat).
  { destruct chain as [|a [|b rest]]; simplify_eq/=; [|lia]. destruct Hroot, Hleaf. congruence. }
  exists leaf, root, san. split; [|done]. split; [|done]. constructor; try done.
  - unfold len in *. lia.
  - by apply (authorities_split chain root).
Qed.

Lemma verify_chain_complete v sni chain now leaf root san :
  tls_limits_validate (tc_limits (tv_config v)) = Ok tt ->
  chain_accepted (tc_limits (tv_config v)) (tv_trust_store v) now sni chain leaf root san ->
  verify_chain v sni chain now = Ok (material_of sni san leaf root).
Proof.
  intros Hlim%valid_limits_chain_bytes ([] & Hmax & Hcov). unfold verify_chain.
  rewrite tr_leaf0, tr_root0. guards. split; [lia|].
  rewrite check_certificates_spec, check_leaf_spec by lia. split; [by split|]. split; [done|].
  assert (Hm : match_dns_san sni (ct_dns_sans leaf) (tl_maximum_dns_sans (tc_limits (tv_config v)))
             = Ok (sni, hex_sha256 san)) by (apply match_dns_san_spec; eauto).
  rewrite Hm. guards. rewrite check_links_spec, check_intermediates_spec, check_root_spec.
  apply (authorities_split chain root) in tr_authorities0 as [Hi Hr]; [|unfold len in *; lia|done].
  split_and!; naive_solver.
Qed.

(** A handshake that is trusted for a stream's grant. *)
Record handshake_trusted (v : TlsPeerVerifier) (grant : StreamGrant) (ob : TlsHandshakeObservation)
    (now : Z) (sni san : str) (leaf root : SyntheticCertificate) : Prop := {
  ht_https : gr_scheme grant = "https";
  ht_name : exists raw, gr_sni grant = Some raw /\ normalize_dns_name raw = Ok sni;
  ht_observed : normalize_dns_name (ob_server_name ob) = Ok sni;
  ht_authority : to_ascii_lowercase (gr_http_host grant) = expected_http_authority sni (gr_port grant);
  ht_protocol : ob_protocol_version ob = Tls12 \/ ob_protocol_version ob = Tls13;
  ht_alpn : ob_alpn ob = Some ("http/1.1" : str);
  ht_fresh : ob_early_data_accepted ob = false /\ ob_renegotiation_observed ob = false
    /\ ob_session_resumed ob = false;
  ht_budget : ob_elapsed_milliseconds ob <= tl_handshake_timeout_milliseconds (tc_limits (tv_config v))
    /\ ob_handshake_read_bytes ob <= tl_maximum_handshake_read_bytes (tc_limits (tv_config v))
    /\ ob_handshake_write_bytes ob <= tl_maximum_handshake_write_bytes (tc_limits (tv_config v));
  ht_chain : chain_accepted (tc_limits (tv_config v)) (tv_trust_store v) now sni (ob_chain ob) leaf root san
}.

Lemma supported_protocol_spec p : supported_protocol p = true <-> p = Tls12 \/ p = Tls13.
Proof. destruct p; naive_solver. Qed.

Lemma tls_evaluate_sound v (stream : BoundedByteStream B) ob now m :
  tls_limits_validate (tc_limits (tv_config v)) = Ok tt ->
  tls_evaluate v stream ob now = Ok m ->
  exists sni san leaf root, handshake_trusted v (bs_grant stream) ob now sni san leaf root
  /\ m = material_of sni san leaf root.
Proof.
  intros Hlim. unfold tls_evaluate. guards. intros [Hs H]. apply dec_stable in Hs.
  destruct (gr_sni _) as [raw|] eqn:Hraw; [|done].
  destruct (normalize_dns_name raw) as [sni|] eqn:Hn; [|done].
  destruct (normalize_dns_name (ob_server_name ob)) as [osni|] eqn:Ho; [|done].
  revert H. guards. intros (He & Ha & Hp & H). apply dec_stable in He as <-. apply dec_stable in Ha.
  destruct (ob_alpn ob) as [alpn|] eqn:Halpn; [|done]. revert H. guards.
  intros (Hal & ? & ? & ? & ? & ? & ? & H). apply dec_stable in Hal as ->.
  apply verify_chain_sound in H as (leaf & root & san & Hc & ->); [|done].
  exists sni, san, leaf, root. split; [|done]. constructor; eauto. by apply supported_protocol_spec.
Qed.

Lemma tls_evaluate_complete v (stream : BoundedByteStream B) ob now sni san leaf root :
  tls_limits_validate (tc_limits (tv_config v)) = Ok tt ->
  handshake_trusted v (bs_grant stream) ob now sni san leaf root ->
  tls_evaluate v stream ob now = Ok (material_of sni san leaf root).
Proof.
  intros Hlim [Hs (raw & Hraw & Hn) Ho Ha Hp%supported_protocol_spec Hal (? & ? & ?) (? & ? & ?) Hc].
  unfold tls_evaluate. rewrite Hs, Hraw, Hn, Ho, Hal, Ha, Hp. guards.
  split_and!; try done; try congruence. by apply verify_chain_complete.
Qed.

(** The fields of a grant that name its stream. *)
Definition grant_names (stream : BoundedByteStream B) (g : TlsSessionGrant) : Prop :=
  tg_stream_id g = gr_stream_id (bs_grant stream)
  /\ tg_execution_id g = gr_execution_id (bs_grant stream)
  /\ tg_ticket_id g = gr_ticket_id (bs_grant stream)
  /\ tg_binding_hash g = gr_binding_hash (bs_grant stream)
  /\ tg_stream_audit_anchor g = tail_hash (bs_audit stream)
  /\ tg_http_host g = gr_http_host (bs_grant stream)
  /\ tg_port g = gr_port (bs_grant stream)
  /\ tg_redirect_depth g = gr_redirect_depth (bs_grant stream)
  /\ (exists raw, gr_sni (bs_grant stream) = Some raw /\ normalize_dns_name raw = Ok (tg_sni g))
  /\ gr_scheme (bs_grant stream) = "https" /\ tg_alpn g = "http/1.1".

Lemma tls_grant_names v (stream : BoundedByteStream B) ob now sni san leaf root id anchor :
  handshake_trusted v (bs_grant stream) ob now sni san leaf root ->
  grant_names stream (tls_grant stream ob (material_of sni san leaf root) id anchor).
Proof. intros []. unfold grant_names. simpl. by split_and!. Qed.

(** A decision with a grant verified the handshake and is anchored in the record
    of its verification. *)
Lemma tls_verify_granted stream ob now v d v' g :
  tls_limits_validate (tc_limits (tv_config v)) = Ok tt ->
  tls_verify (B := B) stream ob now v = (Ok d, v') -> td_grant d = Some g ->
  is_verified d = true /\ grant_names stream g
  /\ exists r, chain_append (event r) (tv_audit v) = (Ok r, tv_audit v') /\ tg_tls_audit_anchor g = record_hash r.
Proof.
  intros Hlim. unfold tls_verify. intros H Hg.
  destruct (chain_append _ _) as [[r|e] audit] eqn:Ha; [|done].
  destruct (tls_evaluate v stream ob now) as [m|reason] eqn:He; simplify_eq/=.
  apply tls_evaluate_sound in He as (sni & san & leaf & root & Ht & ->); [|done].
  split_and!; [done|by eapply tls_grant_names|].
  exists r. split; [|done]. pose proof (chain_append_spec _ _ _ _ Ha) as (_ & -> & _). done.
Qed.

Lemma validate_observation_name (stream : BoundedByteStream B) ob :
  validate_observation stream ob = Ok tt ->
  gr_scheme (bs_grant stream) = "https" /\ lo_alpn ob = "http/1.1"
  /\ exists raw sni, gr_sni (bs_grant stream) = Some raw /\ normalize_dns_name raw = Ok sni.
Proof.
  unfold validate_observation, stream_sni, observed_name. intros H.
  destruct (gr_sni _) as [raw|]; [|done]. destruct (normalize_dns_name raw) as [sni|] eqn:Hn; [|done].
  destruct (normalize_dns_name (lo_server_name ob)); [|done]. simpl in H. revert H. guards.
  intros (Hs & _ & _ & _ & [_ Ha] & _). apply dec_stable in Hs, Ha. split_and!; eauto.
Qed.

(** What [bind] gives out names the stream too. *)
Lemma bind_granted stream ob b g b' :
  bind (B := B) stream ob b = (Ok g, b') ->
  grant_names stream g
  /\ exists r, chain_append (event r) (lb_audit b) = (Ok r, lb_audit b') /\ tg_tls_audit_anchor g = record_hash r.
Proof.
  unfold bind. intros H. destruct (stream_audit_verify _); [|done].
  destruct (validate_observation _ _) as [[]|] eqn:Hv; [|done].
  apply validate_observation_name in Hv as (Hs & Ha & raw & sni & Hraw & Hn).
  assert (Hname : stream_name stream = Ok sni).
  { unfold stream_name, stream_sni, observed_name. by rewrite Hraw, Hn. }
  rewrite Hname in H. destruct (chain_append _ _) as [[r|e] audit] eqn:Hap; [|done].
  destruct (chain_verify audit); [|done]. simplify_eq/=. split.
  - unfold grant_names. simpl. split_and!; eauto.
  - exists r. split; [|done]. pose proof (chain_append_spec _ _ _ _ Hap) as (_ & -> & _). done.
Qed.

(** ** Properties *)

(** C9: the verifier accepts exactly the trusted handshakes: for a verifier with
    valid limits every observation gets a decision, the decision verifies it if
    and only if it is a trusted handshake for the grant of the stream (supported
    protocol, exact name and authority, fresh session, budgets kept, and a chain
    of valid certificates, each issued by the next authority within its path
    length, from a leaf that covers the name to a trusted self-issued root), and
    the decision is the last record of the audit chain; a grant comes only with a
    verified decision, repeats the binding of the stream and points to that
    record. *)
Theorem tls_verifies_exactly_trusted_handshakes `{!JsonTotal (HashMaterial TlsAuditEvent)}
    v (stream : BoundedByteStream B) ob now :
  tls_limits_validate (tc_limits (tv_config v)) = Ok tt ->
  exists d v' r, tls_verify stream ob now v = (Ok d, v')
  /\ (is_verified d = true
      <-> exists sni san leaf root, handshake_trusted v (bs_grant stream) ob now sni san leaf root)
  /\ records (tv_audit v') = records (tv_audit v) ++ [r]
  /\ te_stream_id (event r) = gr_stream_id (bs_grant stream)
  /\ te_status (event r) = (if is_verified d then ("verified" : str) else ("rejected" : str))
  /\ forall g, td_grant d = Some g ->
       is_verified d = true /\ grant_names stream g /\ tg_tls_audit_anchor g = record_hash r.
Proof.
  intros Hlim. unfold tls_verify.
  match goal with |- context [chain_append ?e ?c] => destruct (chain_append_total e c) as (r & audit & Ha) end.
  rewrite Ha. pose proof (chain_append_spec _ _ _ _ Ha) as (Hr & He & _).
  destruct (tls_evaluate v stream ob now) as [m|reason] eqn:Hev; do 3 eexists; (split; [done|]).
  - apply tls_evaluate_sound in Hev as (sni & san & leaf & root & Ht & ->); [|done].
    rewrite He. split_and!; [|done|done|done|].
    + split; [intros _; eauto|done].
    + intros g [= <-]. split_and!; [done|by eapply tls_grant_names|done].
  - rewrite He. split_and!; [|done|done|done|done]. split; [done|].
    intros (sni & san & leaf & root & Ht%tls_evaluate_complete); [congruence|done].
Qed.
End TlsFacts.

(** ** Witnesses *)

Definition toy_tls_json : JsonLib (HashMaterial TlsAuditEvent) := toy_json te_verification_id.

Definition sample_hex (c : byte) : str := replicate 64 c.
Definition sample_certificate (fingerprint subject issuer : byte) (ca : bool) (sans : list str)
    : SyntheticCertificate :=
  {| ct_fingerprint_sha256 := sample_hex fingerprint; ct_subject_spki_sha256 := sample_hex subject;
     ct_issuer_spki_sha256 := sample_hex issuer; ct_encoded_bytes := 900; ct_dns_sans := sans;
     ct_common_name := None; ct_not_before_epoch_seconds := 10; ct_not_after_epoch_seconds := 1000;
     ct_is_ca := ca; ct_path_len_constraint := None; ct_key_usage_digital_signature := negb ca;
     ct_key_usage_cert_sign := ca; ct_eku_server_auth := negb ca; ct_signature_valid := true;
     ct_unsupported_critical_extension := false |}.
Definition sample_observation : TlsHandshakeObservation :=
  {| ob_server_name := "App.Example.com."; ob_protocol_version := Tls13; ob_alpn := Some ("http/1.1" : str);
     ob_chain := [sample_certificate "1" "a" "b" false [("www.example.org" : str); ("*.example.com" : str)];
                  sample_certificate "2" "b" "c" true []; sample_certificate "3" "c" "c" true []];
     ob_handshake_read_bytes := 4000; ob_handshake_write_bytes := 900; ob_elapsed_milliseconds := 40;
     ob_early_data_accepted := false; ob_renegotiation_observed := false; ob_session_resumed := false |}.
Definition sample_verifier : TlsPeerVerifier :=
  {| tv_config := {| tc_verifier_id := "verifier-1"; tc_limits := tls_conservative_default |};
     tv_trust_store := {| trusted_root_fingerprints := {[ sample_hex "3" ]} |};
     tv_audit := chain_new GENESIS_HASH; tv_next_verification_id := 1; tv_next_session_id := 1 |}.

Section Sample.
Local Existing Instances toy_sha256 toy_tls_json.

Example sample_verifies :
  match (tls_verify example_stream sample_observation 100 sample_verifier).1 with
  | Ok d => is_verified d
  | Err _ => false
  end = true.
Proof. vm_compute. reflexivity. Qed.

(** Without the trusted root the same handshake is rejected. *)
Example sample_untrusted :
  match (tls_verify example_stream sample_observation 100
           {| tv_config := tv_config sample_verifier;
              tv_trust_store := {| trusted_root_fingerprints := {[ sample_hex "4" ]} |};
              tv_audit := chain_new GENESIS_HASH; tv_next_verification_id := 1; tv_next_session_id := 1 |}).1 with
  | Ok d => td_outcome d
  | Err _ => Verified
  end = TlsRejected UntrustedRoot.
Proof. vm_compute. reflexivity. Qed.

Lemma tls_verifies_exactly_trusted_handshakes_witness :
  exists sni san leaf root,
    handshake_trusted sample_verifier (bs_grant example_stream) sample_observation 100 sni san leaf root.
Proof.
  pose proof sample_verifies as H.
  destruct (tls_verifies_exactly_trusted_handshakes (JT := toy_tls_json)
    (JsonTotal0 := toy_json_total te_verification_id) sample_verifier example_stream sample_observation 100)
    as (d & v' & r & E & Hiff & _); [vm_compute; reflexivity|].
  apply Hiff. destruct (tls_verify example_stream sample_observation 100 sample_verifier) as [r0 v0].
  injection E as -> _. exact H.
Defined.
End Sample.
