(* ===== verification/GatedCodec.v ===== *)
(** * GatedCodec: HTTP/1 channels gated by TLS ([crates/nxb-http1], [gated_codec.rs])

    The codec that other crates see: it wraps the codec of [Http1Codec], is opened
    either on a plain stream or with a [TlsSessionGrant] for exactly its stream,
    lets vault-managed headers through on verified channels only, and records
    every exchange in a channel audit chain anchored in the TLS record. *)

From S2P Require Import Prelude ByteStr HashChain IpAddr IpText Transport Executor Stream HttpSyntax Vault Http1 Http1Facts Http1Codec Http1CodecFacts Tls.
Local Open Scope N_scope.

(** ** Data *)

Inductive Http1ChannelKind : Type := PlainHttp | VerifiedTls | NetworklessFixture.

#[export] Instance Http1ChannelKind_eq_dec : EqDecision Http1ChannelKind.
Proof. solve_decision. Defined.

Definition channel_kind_code (self : Http1ChannelKind) : str :=
  match self with
  | PlainHttp => "plain_http"
  | VerifiedTls => "verified_tls"
  | NetworklessFixture => "networkless_fixture"
  end.

Record Http1ChannelAuditEvent : Type := {
  ce_channel_kind : str;
  ce_stream_id : str;
  ce_execution_id : str;
  ce_ticket_id : str;
  ce_binding_hash : str;
  ce_authority : str;
  ce_port : N;
  ce_redirect_depth : N;
  ce_tls_audit_anchor : option str;
  ce_http_exchange_id : str;
  ce_http_audit_tail : str;
  ce_response_status : N
}.

Record GatedCodec (B : Type) : Type := {
  gc_inner : Http1Codec B;
  gc_kind : Http1ChannelKind;
  gc_tls_audit_anchor : option str;
  gc_channel_audit : HashChain Http1ChannelAuditEvent
}.
Arguments gc_inner {B} _.
Arguments gc_kind {B} _.
Arguments gc_tls_audit_anchor {B} _.
Arguments gc_channel_audit {B} _.

(** What [is_networkless_fixture_backend] reads: the name the compiler gives to
    the backend type and whether the crate is built with the fixture feature. *)
Class BackendType (B : Type) : Type := {
  type_name : str;
  networkless_fixture_feature : bool
}.
Arguments type_name B {_}.
Arguments networkless_fixture_feature B {_}.

Definition is_networkless_fixture_backend (B : Type) {T : BackendType B} : bool :=
  networkless_fixture_feature B
  && bool_decide (type_name B = ("nxb_stream_fixture::InMemoryDuplex" : str)).

Definition require_sha256 (value field : str) : Result unit Http1Error :=
  if negb (is_lower_hex_sha256 value)
  then Err (InvalidRequest (field ++ (" must be lowercase SHA-256" : str))) else Ok tt.

(** The errors of the channel's chain, as the crate words them. *)
Definition channel_chain_error (e : ChainError) : Http1Error :=
  InvalidRequest match e with
  | InvalidGenesisHash => ("channel audit genesis must be lowercase SHA-256" : str)
  | Serialization message => ("HTTP channel audit serialization failed: " : str) ++ message
  | SequenceMismatch i => ("HTTP channel audit sequence mismatch at record " : str) ++ decimal i
  | PreviousHashMismatch i => ("HTTP channel audit previous-hash mismatch at record " : str) ++ decimal i
  | RecordHashMismatch i => ("HTTP channel audit record-hash mismatch at record " : str) ++ decimal i
  | TailHashMismatch => ("HTTP channel audit tail mismatch" : str)
  end.

(** The first check that fails names its field. *)
Fixpoint first_mismatch (checks : list (bool * str)) : Result unit Http1Error :=
  match checks with
  | [] => Ok tt
  | (matches, field) :: rest =>
      if negb matches
      then Err (InvalidRequest (("TLS grant does not match stream field: " : str) ++ field))
      else first_mismatch rest
  end.

Section Gated.
Context {S : Sha256Lib} {JS : JsonLib (HashMaterial StreamAuditEvent)}
  {JH : JsonLib (HashMaterial Http1AuditEvent)} {JC : JsonLib (HashMaterial Http1ChannelAuditEvent)}
  {B : Type} {BB : ByteStreamBackend B} {T : BackendType B}.

Definition channel_audit_new (genesis_hash : str) : Result (HashChain Http1ChannelAuditEvent) Http1Error :=
  let? _ := require_sha256 genesis_hash "channel audit genesis" in Ok (chain_new genesis_hash).

Definition channel_audit_append (event : Http1ChannelAuditEvent) (chain : HashChain Http1ChannelAuditEvent)
    : Result unit Http1Error * HashChain Http1ChannelAuditEvent :=
  match chain_append event chain with
  | (Ok _, chain) => (Ok tt, chain)
  | (Err e, chain) => (Err (channel_chain_error e), chain)
  end.

Definition channel_audit_verify (chain : HashChain Http1ChannelAuditEvent) : Result unit Http1Error :=
  map_err channel_chain_error (chain_verify chain).

Definition validate_tls_binding (stream : BoundedByteStream B) (tls : TlsSessionGrant)
    : Result unit Http1Error :=
  let grant := bs_grant stream in
  if bool_decide (gr_scheme grant <> ("https" : str))
  then Err (InvalidRequest "verified TLS channel requires an HTTPS stream")
  else
  let? _ := first_mismatch
    [(bool_decide (gr_stream_id grant = tg_stream_id tls), "stream_id" : str);
     (bool_decide (gr_execution_id grant = tg_execution_id tls), "execution_id" : str);
     (bool_decide (gr_ticket_id grant = tg_ticket_id tls), "ticket_id" : str);
     (bool_decide (gr_binding_hash grant = tg_binding_hash tls), "binding_hash" : str);
     (bool_decide (tail_hash (bs_audit stream) = tg_stream_audit_anchor tls), "stream_audit_anchor" : str);
     (bool_decide (gr_sni grant = Some (tg_sni tls)), "sni" : str);
     (bool_decide (gr_http_host grant = tg_http_host tls), "http_host" : str);
     (gr_port grant =? tg_port tls, "port" : str);
     (gr_redirect_depth grant =? tg_redirect_depth tls, "redirect_depth" : str)] in
  if bool_decide (tg_alpn tls <> ("http/1.1" : str))
  then Err (InvalidRequest "TLS grant ALPN must be http/1.1")
  else require_sha256 (tg_tls_audit_anchor tls) "TLS audit anchor".

Definition gated_new (stream : BoundedByteStream B) (limits : Http1Limits)
    : Result (GatedCodec B) Http1Error :=
  let? _ := map_err Http1StreamAudit (stream_audit_verify (bs_audit stream)) in
  let grant := bs_grant stream in
  let? kind :=
    if bool_decide (gr_scheme grant = ("http" : str)) && bool_decide (gr_sni grant = None) then Ok PlainHttp
    else if is_networkless_fixture_backend B then Ok NetworklessFixture
    else Err (InvalidRequest "HTTPS streams require Http1Codec::new_verified_tls") in
  let genesis := tail_hash (bs_audit stream) in
  let? inner := http1_codec_new stream limits in
  let? channel_audit := channel_audit_new genesis in
  Ok {| gc_inner := inner; gc_kind := kind; gc_tls_audit_anchor := None;
        gc_channel_audit := channel_audit |}.

Definition new_verified_tls (stream : BoundedByteStream B) (tls : TlsSessionGrant) (limits : Http1Limits)
    : Result (GatedCodec B) Http1Error :=
  let? _ := map_err Http1StreamAudit (stream_audit_verify (bs_audit stream)) in
  let? _ := validate_tls_binding stream tls in
  let tls_audit_anchor := tg_tls_audit_anchor tls in
  let? inner := http1_codec_new stream limits in
  let? channel_audit := channel_audit_new tls_audit_anchor in
  Ok {| gc_inner := inner; gc_kind := VerifiedTls; gc_tls_audit_anchor := Some tls_audit_anchor;
        gc_channel_audit := channel_audit |}.

Definition channel_event (self : GatedCodec B) (exchange : Http1Exchange) : Http1ChannelAuditEvent :=
  let grant := bs_grant (hc_stream (gc_inner self)) in
  {| ce_channel_kind := channel_kind_code (gc_kind self);
     ce_stream_id := gr_stream_id grant;
     ce_execution_id := gr_execution_id grant;
     ce_ticket_id := gr_ticket_id grant;
     ce_binding_hash := gr_binding_hash grant;
     ce_authority := gr_http_host grant;
     ce_port := gr_port grant;
     ce_redirect_depth := gr_redirect_depth grant;
     ce_tls_audit_anchor := gc_tls_audit_anchor self;
     ce_http_exchange_id := xr_exchange_id (he_receipt exchange);
     ce_http_audit_tail := xr_http_audit_tail (he_receipt exchange);
     ce_response_status := hr_status_code (he_response exchange) |}.

Definition record_exchange (exchange : Http1Exchange) (self : GatedCodec B)
    : Result unit Http1Error * GatedCodec B :=
  let (recorded, chain) := channel_audit_append (channel_event self exchange) (gc_channel_audit self) in
  (recorded, {| gc_inner := gc_inner self; gc_kind := gc_kind self;
                gc_tls_audit_anchor := gc_tls_audit_anchor self; gc_channel_audit := chain |}).

Definition with_inner (inner : Http1Codec B) (self : GatedCodec B) : GatedCodec B :=
  {| gc_inner := inner; gc_kind := gc_kind self; gc_tls_audit_anchor := gc_tls_audit_anchor self;
     gc_channel_audit := gc_channel_audit self |}.

(** The common end of both exchanges: record a finished one. *)
Definition recorded_exchange (result : Result Http1Exchange Http1Error) (inner : Http1Codec B)
    (self : GatedCodec B) : Result Http1Exchange Http1Error * GatedCodec B :=
  let self := with_inner inner self in
  match result with
  | Err e => (Err e, self)
  | Ok exchange =>
      match record_exchange exchange self with
      | (Ok _, self) => (Ok exchange, self)
      | (Err e, self) => (Err e, self)
      end
  end.

Definition gated_exchange (request : Http1Request) (control : StreamControl) (self : GatedCodec B)
    : Run (Result Http1Exchange Http1Error * GatedCodec B) :=
  let! (result, _, inner) := exchange request control (gc_inner self) in
  Done (recorded_exchange result inner self).

(** The lease is consumed by the inner exchange; a refused one is untouched. *)
Definition gated_exchange_with_secret_headers (request : Http1Request) (secret_headers : SecretHeaderLease)
    (now_epoch_seconds : Z) (control : StreamControl) (self : GatedCodec B)
    : Run (Result Http1Exchange Http1Error * option SecretHeaderLease * GatedCodec B) :=
  let fixture_https := bool_decide (gc_kind self = NetworklessFixture)
    && bool_decide (gr_scheme (bs_grant (hc_stream (gc_inner self))) = ("https" : str)) in
  if bool_decide (gc_kind self <> VerifiedTls) && negb fixture_https
  then Done (Err (InvalidRequest "vault-managed secret headers require a verified TLS channel"),
             Some secret_headers, self)
  else
  let! (result, secret, inner) :=
    exchange_with_secret_headers request secret_headers now_epoch_seconds control (gc_inner self) in
  let (result, self) := recorded_exchange result inner self in
  Done (result, secret, self).
End Gated.

(** ** What a channel keeps *)

Section GatedFacts.
Context {S : Sha256Lib} {JS : JsonLib (HashMaterial StreamAuditEvent)}
  {JH : JsonLib (HashMaterial Http1AuditEvent)} {JC : JsonLib (HashMaterial Http1ChannelAuditEvent)}
  {B : Type} {BB : ByteStreamBackend B} {T : BackendType B}.

Record gated_ok (c : GatedCodec B) : Prop := {
  go_inner : codec_ok (gc_inner c);
  go_audit : chain_ok (gc_channel_audit c)
}.

(** The same channel, further on. *)
Definition same_channel (c c' : GatedCodec B) : Prop :=
  gc_kind c' = gc_kind c /\ gc_tls_audit_anchor c' = gc_tls_audit_anchor c
  /\ genesis_hash (gc_channel_audit c') = genesis_hash (gc_channel_audit c)
  /\ bs_grant (hc_stream (gc_inner c')) = bs_grant (hc_stream (gc_inner c)).

(** The record of a finished exchange is the last of the channel. *)
Definition channel_recorded (c : GatedCodec B) (x : Http1Exchange) (c' : GatedCodec B) : Prop :=
  exists r, records (gc_channel_audit c') = records (gc_channel_audit c) ++ [r]
    /\ ce_channel_kind (event r) = channel_kind_code (gc_kind c)
    /\ ce_tls_audit_anchor (event r) = gc_tls_audit_anchor c
    /\ ce_http_audit_tail (event r) = xr_http_audit_tail (he_receipt x).

Lemma recorded_exchange_spec result inner c r c' :
  gated_ok c -> codec_ok inner -> bs_grant (hc_stream inner) = bs_grant (hc_stream (gc_inner c)) ->
  recorded_exchange result inner c = (r, c') ->
  gated_ok c' /\ same_channel c c' /\ gc_inner c' = inner
  /\ forall x, r = Ok x -> result = Ok x /\ channel_recorded c x c'.
Proof.
  intros [Hin Ha] Hok Hg H. unfold recorded_exchange in H.
  destruct result as [x|e]; [|by simplify_eq].
  unfold record_exchange, channel_audit_append in H.
  destruct (chain_append _ _) as [ar chain] eqn:Happ. cbn [gc_channel_audit with_inner] in Happ.
  pose proof (chain_append_ok _ _ _ _ Ha Happ) as Hch. apply chain_append_spec in Happ.
  destruct ar as [rec|e].
  - destruct Happ as (Hr & He & _ & _ & _ & _ & Hgen). simplify_eq/=.
    split_and!; [by split|done..|]. intros y [= <-]. split; [done|]. exists rec. rewrite He. by split_and!.
  - subst chain. simplify_eq/=. split_and!; [by split|done..].
Qed.

Lemma gated_exchange_returns request control c :
  gated_ok c ->
  exists r c', gated_exchange request control c = Done (r, c')
  /\ gated_ok c' /\ same_channel c c'
  /\ forall x, r = Ok x -> exchanged request [] None (gc_inner c) x (gc_inner c') /\ channel_recorded c x c'.
Proof.
  intros Hok. destruct (exchange_returns request None 0 control (gc_inner c) (go_inner _ Hok))
    as ([[r1 secret] inner] & Hx & [Hin Hg] & Hres).
  unfold gated_exchange, exchange. rewrite Hx. destruct (recorded_exchange r1 inner c) as [r c'] eqn:Hrec.
  apply recorded_exchange_spec in Hrec as (Hok' & Hsame & Hinner & Hr); [|done..].
  exists r, c'. split_and!; [done..|]. intros x Hx'. destruct (Hr x Hx') as [-> ?].
  rewrite Hinner. split; [by apply Hres|done].
Qed.

(** Vault headers are refused with nothing changed, or the channel admits them. *)
Definition admits_secrets (c : GatedCodec B) : Prop :=
  gc_kind c = VerifiedTls
  \/ (gc_kind c = NetworklessFixture /\ gr_scheme (bs_grant (hc_stream (gc_inner c))) = "https").

Lemma gated_secret_exchange_returns request lease now control c :
  gated_ok c ->
  exists r lease' c', gated_exchange_with_secret_headers request lease now control c = Done (r, lease', c')
  /\ gated_ok c' /\ same_channel c c'
  /\ ((is_ok r = false /\ lease' = Some lease /\ c' = c) \/ admits_secrets c)
  /\ forall x, r = Ok x -> admits_secrets c
     /\ exchanged request (hl_headers lease) (Some (hl_fingerprint lease)) (gc_inner c) x (gc_inner c')
     /\ channel_recorded c x c'.
Proof.
  intros Hok. unfold gated_exchange_with_secret_headers.
  destruct (_ && _) eqn:Hgate.
  { do 3 eexists. split; [done|]. split_and!; [done|done|by left|done]. }
  assert (Hadm : admits_secrets c).
  { unfold admits_secrets. destruct (gc_kind c); [discriminate Hgate|by left|right].
    cbn in Hgate. apply negb_false_iff in Hgate. bools. done. }
  destruct (exchange_returns request (Some lease) now control (gc_inner c) (go_inner _ Hok))
    as ([[r1 secret] inner] & Hx & [Hin Hg] & Hres).
  unfold exchange_with_secret_headers. rewrite Hx.
  destruct (recorded_exchange r1 inner c) as [r c'] eqn:Hrec.
  apply recorded_exchange_spec in Hrec as (Hok' & Hsame & Hinner & Hr); [|done..].
  exists r, secret, c'. split_and!; [done|done|done|by right|]. intros x Hx'. destruct (Hr x Hx') as [-> ?].
  rewrite Hinner. split_and!; [done|by apply Hres|done].
Qed.

(** ** Opening *)

Lemma first_mismatch_spec checks : first_mismatch checks = Ok tt <-> Forall (fun c => c.1 = true) checks.
Proof.
  induction checks as [|[b field] checks IH]; cbn; [by rewrite Forall_nil|].
  rewrite guard_ok, negb_false_iff, Forall_cons, IH. done.
Qed.

(** A grant for exactly this stream. *)
Record tls_bound (stream : BoundedByteStream B) (g : TlsSessionGrant) : Prop := {
  tb_https : gr_scheme (bs_grant stream) = "https";
  tb_stream : gr_stream_id (bs_grant stream) = tg_stream_id g;
  tb_execution : gr_execution_id (bs_grant stream) = tg_execution_id g;
  tb_ticket : gr_ticket_id (bs_grant stream) = tg_ticket_id g;
  tb_binding : gr_binding_hash (bs_grant stream) = tg_binding_hash g;
  tb_anchor : tail_hash (bs_audit stream) = tg_stream_audit_anchor g;
  tb_sni : gr_sni (bs_grant stream) = Some (tg_sni g);
  tb_host : gr_http_host (bs_grant stream) = tg_http_host g;
  tb_port : gr_port (bs_grant stream) = tg_port g;
  tb_depth : gr_redirect_depth (bs_grant stream) = tg_redirect_depth g;
  tb_alpn : tg_alpn g = "http/1.1";
  tb_record : is_lower_hex_sha256 (tg_tls_audit_anchor g) = true
}.

Lemma validate_tls_binding_spec stream g : validate_tls_binding stream g = Ok tt <-> tls_bound stream g.
Proof.
  unfold validate_tls_binding, require_sha256. guards. rewrite first_mismatch_spec.
  rewrite !Forall_cons, Forall_nil. cbn [fst]. rewrite !bool_decide_eq_true, !N.eqb_eq. split.
  - intros (Hs & H & Ha & Hh & _). apply dec_stable in Hs, Ha. destruct_and! H. by constructor.
  - intros []. split_and!; auto.
Qed.

Lemma gated_new_inv stream limits c :
  gated_new stream limits = Ok c ->
  hc_stream (gc_inner c) = stream /\ gc_kind c <> VerifiedTls
  /\ (gc_kind c = NetworklessFixture -> is_networkless_fixture_backend B = true)
  /\ http1_codec_new stream limits = Ok (gc_inner c) /\ chain_ok (gc_channel_audit c).
Proof.
  unfold gated_new, channel_audit_new, require_sha256. intros H.
  destruct (map_err _ _); [|done]. 
  destruct (if _ && _ then _ else _) as [kind|] eqn:Hkind; [|done].
  destruct (http1_codec_new stream limits) as [inner|] eqn:Hin; [|done].
  destruct (negb _); [done|]. simplify_eq/=.
  split_and!; [|by repeat step_in Hkind; simplify_eq|by repeat step_in Hkind; simplify_eq|done|apply chain_new_ok].
  unfold http1_codec_new in Hin. by inv_ok Hin.
Qed.

Lemma new_verified_tls_inv stream g limits c :
  new_verified_tls stream g limits = Ok c ->
  tls_bound stream g /\ hc_stream (gc_inner c) = stream /\ gc_kind c = VerifiedTls
  /\ gc_tls_audit_anchor c = Some (tg_tls_audit_anchor g)
  /\ genesis_hash (gc_channel_audit c) = tg_tls_audit_anchor g
  /\ http1_codec_new stream limits = Ok (gc_inner c) /\ chain_ok (gc_channel_audit c).
Proof.
  unfold new_verified_tls, channel_audit_new, require_sha256. intros H.
  destruct (map_err _ _); [|done].
  destruct (validate_tls_binding stream g) as [[]|] eqn:Hv; [|done]. apply validate_tls_binding_spec in Hv.
  destruct (http1_codec_new stream limits) as [inner|] eqn:Hin; [|done].
  destruct (negb _); [done|]. simplify_eq/=. split_and!; try done; [|apply chain_new_ok].
  unfold http1_codec_new in Hin. by inv_ok Hin.
Qed.

(** A channel over this stream, opened in one of the two ways. *)
Definition channel_opened (stream : BoundedByteStream B) (limits : Http1Limits) (c : GatedCodec B) : Prop :=
  gated_new stream limits = Ok c \/ exists g, new_verified_tls stream g limits = Ok c.

Lemma channel_opened_ok stream limits c :
  stream_ok stream -> channel_opened stream limits c ->
  gated_ok c /\ bs_grant (hc_stream (gc_inner c)) = bs_grant stream.
Proof.
  intros Hs [(Hst & _ & _ & Hn & Ha)%gated_new_inv|[g (_ & Hst & _ & _ & _ & Hn & Ha)%new_verified_tls_inv]];
    (split; [split; [by eapply http1_codec_new_ok|done]|by rewrite Hst]).
Qed.

(** ** Traces *)

(** What is observed of an operation on a channel. *)
Inductive ChannelEvent : Type :=
  | SecretUse (lease : SecretHeaderLease) (ok : bool) (lease' : option SecretHeaderLease)
      (before after : GatedCodec B)
  | ChannelQuiet.

(** The operations of a channel, reads, writes and closes of its stream through
    [stream_mut] included. *)
Inductive channel_step : GatedCodec B -> ChannelEvent -> GatedCodec B -> Prop :=
  | cstep_exchange request control c r c' :
      gated_exchange request control c = Done (r, c') -> channel_step c ChannelQuiet c'
  | cstep_secret request lease now control c r lease' c' :
      gated_exchange_with_secret_headers request lease now control c = Done (r, lease', c') ->
      channel_step c (SecretUse lease (is_ok r) lease' c c') c'
  | cstep_stream c e s :
      stream_step (hc_stream (gc_inner c)) e s ->
      channel_step c ChannelQuiet (with_inner (set_stream s (gc_inner c)) c).

Inductive channel_trace : GatedCodec B -> list ChannelEvent -> GatedCodec B -> Prop :=
  | ctrace_nil c : channel_trace c [] c
  | ctrace_cons c e c1 es c2 :
      channel_step c e c1 -> channel_trace c1 es c2 -> channel_trace c (e :: es) c2.

Lemma stream_step_follows s e s' : stream_ok s -> stream_step s e s' -> follows s s'.
Proof.
  intros Hok H. destruct H as [n c s r s' H|bytes c s r s' H|s r s' H].
  - by apply read_step in H as [? _].
  - by apply write_step in H as [? _].
  - by eapply close_step.
Qed.

Lemma channel_step_keeps c e c' : gated_ok c -> channel_step c e c' -> gated_ok c' /\ same_channel c c'.
Proof.
  intros Hok H. destruct H as [request control c r c' H|request lease now control c r lease' c' H|c e s H].
  - destruct (gated_exchange_returns request control c Hok) as (r1 & c1 & H1 & Hok1 & Hs1 & _).
    rewrite H in H1. by simplify_eq.
  - destruct (gated_secret_exchange_returns request lease now control c Hok)
      as (r1 & l1 & c1 & H1 & Hok1 & Hs1 & _). rewrite H in H1. by simplify_eq.
  - destruct Hok as [[Hs Hl Ha] Hc]. apply stream_step_follows in H as [Hs' Hg _]; [|done].
    split; [by split; [split|]|]. by split_and!.
Qed.

Lemma same_channel_trans c1 c2 c3 : same_channel c1 c2 -> same_channel c2 c3 -> same_channel c1 c3.
Proof. unfold same_channel. intuition congruence. Qed.

(** The codec before any event of a trace is the first channel, further on. *)
Lemma trace_secret_use c es c' lease ok lease' before after :
  channel_trace c es c' -> gated_ok c -> SecretUse lease ok lease' before after ∈ es ->
  same_channel c before
  /\ ((ok = false /\ lease' = Some lease /\ after = before) \/ admits_secrets before).
Proof.
  induction 1 as [|c e c1 es c2 Hs Ht IH]; intros Hok Hin; [set_solver|].
  destruct (channel_step_keeps _ _ _ Hok Hs) as [Hok1 Hsame].
  apply elem_of_cons in Hin as [<-|Hin].
  - inversion Hs as [|request ? now control ? r ? ? H|]; subst. clear Hs. split; [by unfold same_channel|].
    destruct (gated_secret_exchange_returns request lease now control before Hok)
      as (r1 & l1 & a1 & H1 & _ & _ & Hd & _). rewrite H in H1. simplify_eq. done.
  - destruct (IH Hok1 Hin) as [Hs1 Hd]. split; [by eapply same_channel_trans|done].
Qed.

(** ** Properties *)

(** C8: secrets travel over verified TLS only: on a channel of a backend that is not
    the test fixture, after any operations, a use of vault-managed headers either
    fails and leaves channel and lease untouched, or the channel was opened with a
    TLS grant for exactly its stream (identifiers, ticket, binding, name,
    authority, port, audit position), is an HTTPS channel, and its audit chain
    starts at the record of that TLS verification. *)
Theorem secrets_travel_over_verified_tls stream limits c0 es c lease ok lease' before after :
  is_networkless_fixture_backend B = false ->
  stream_ok stream -> channel_opened stream limits c0 -> channel_trace c0 es c ->
  SecretUse lease ok lease' before after ∈ es ->
  (ok = false /\ lease' = Some lease /\ after = before)
  \/ (exists g, new_verified_tls stream g limits = Ok c0 /\ tls_bound stream g
      /\ gc_tls_audit_anchor before = Some (tg_tls_audit_anchor g)
      /\ genesis_hash (gc_channel_audit before) = tg_tls_audit_anchor g
      /\ bs_grant (hc_stream (gc_inner before)) = bs_grant stream).
Proof.
  intros Hfix Hs Hopen Ht Hin. destruct (channel_opened_ok _ _ _ Hs Hopen) as [Hok Hg].
  destruct (trace_secret_use _ _ _ _ _ _ _ _ Ht Hok Hin) as [(Hk & Ha & Hgen & Hgr) [?|Hadm]]; [by left|right].
  destruct Hopen as [(_ & Hno & Hf & _)%gated_new_inv|[g Hnew]].
  - unfold admits_secrets in Hadm. rewrite Hk in Hadm. destruct Hadm as [?|[Hf' _]]; [done|].
    rewrite (Hf Hf') in Hfix. discriminate Hfix.
  - pose proof (new_verified_tls_inv _ _ _ _ Hnew) as (Hb & _ & _ & Ha0 & Hg0 & _).
    exists g. split_and!; congruence.
Qed.

(** What the TLS verifier promises is what the channel requires: a grant that
    [TlsPeerVerifier::verify] or [LibraryVerifiedTlsBinder::bind] gave out for a
    stream opens a channel over that stream exactly when the stream carries its
    name in the normal form that the grant has. *)
Theorem tls_grant_opens_channel {JT : JsonLib (HashMaterial TlsAuditEvent)} `{!Sha256Laws}
    (stream : BoundedByteStream B) limits g :
  stream_ok stream -> is_lower_hex_sha256 (genesis_hash (bs_audit stream)) = true ->
  http1_limits_validate limits = Ok limits ->
  (exists v ob now d v', tls_limits_validate (tc_limits (tv_config v)) = Ok tt
     /\ tls_verify stream ob now v = (Ok d, v') /\ td_grant d = Some g)
  \/ (exists b ob b', bind stream ob b = (Ok g, b')) ->
  is_ok (new_verified_tls stream g limits) = true <-> gr_sni (bs_grant stream) = Some (tg_sni g).
Proof.
  intros Hs Hgen Hlim Hgranted.
  assert (grant_names stream g /\ is_lower_hex_sha256 (tg_tls_audit_anchor g) = true) as [Hnames Hhex].
  { destruct Hgranted as [(v & ob & now & d & v' & Hl & Hv & Hg)|(b & ob & b' & Hb)].
    - destruct (tls_verify_granted _ _ _ _ _ _ _ Hl Hv Hg) as (_ & ? & r & Ha & ->).
      split; [done|]. by eapply appended_hash_hex.
    - destruct (bind_granted _ _ _ _ _ Hb) as (? & r & Ha & ->). split; [done|]. by eapply appended_hash_hex. }
  split.
  - destruct (new_verified_tls stream g limits) as [c|] eqn:Hn; [|done].
    intros _. by apply new_verified_tls_inv in Hn as [[] _].
  - intros Hsni. unfold new_verified_tls, stream_audit_verify.
    rewrite (proj2 (chain_verify_spec _) (so_audit _ Hs)). simpl.
    rewrite (proj2 (validate_tls_binding_spec stream g)).
    2: { unfold grant_names in Hnames. destruct_and! Hnames. by constructor. }
    unfold http1_codec_new, http1_audit_new, chain_new_anchored, stream_audit_verify. rewrite Hlim.
    rewrite (proj2 (chain_verify_spec _) (so_audit _ Hs)). simpl.
    rewrite (chain_tail_hex _ (so_audit _ Hs) Hgen). simpl.
    unfold channel_audit_new, require_sha256. by rewrite Hhex.
Qed.
End GatedFacts.

(** ** Witnesses *)

Definition toy_channel_json : JsonLib (HashMaterial Http1ChannelAuditEvent) := toy_json ce_http_exchange_id.
Definition scripted_type : BackendType (list BackendReadReport) :=
  {| type_name := "scripted"; networkless_fixture_feature := false |}.

Section Sample.
Local Existing Instances toy_sha256 toy_stream_json toy_http_json toy_tls_json toy_channel_json scripted
  scripted_type.

Definition scripted_stream (script : list BackendReadReport) : BoundedByteStream (list BackendReadReport) :=
  set_backend script example_stream.

(** The grant of the sample handshake for the example stream, and a placeholder. *)
Definition sample_grant : TlsSessionGrant :=
  match (tls_verify (scripted_stream answer_script) sample_observation 100 sample_verifier).1 with
  | Ok {| td_grant := Some g |} => g
  | _ => tls_grant closed_stream sample_observation
           {| vm_normalized_sni := []; vm_matched_san_sha256 := []; vm_leaf_fingerprint_sha256 := [];
              vm_root_fingerprint_sha256 := [] |} [] []
  end.

Definition sample_channel (script : list BackendReadReport) : Result (GatedCodec (list BackendReadReport)) Http1Error :=
  new_verified_tls (scripted_stream script) sample_grant http1_conservative_default.

Lemma tls_grant_opens_channel_witness :
  exists g, is_ok (new_verified_tls (scripted_stream answer_script) g http1_conservative_default) = true
  /\ tg_sni g = "app.example.com".
Proof.
  assert (match (tls_verify (scripted_stream answer_script) sample_observation 100 sample_verifier).1 with
    | Ok d => match td_grant d with
              | Some g => bool_decide (tg_sni g = ("app.example.com" : str))
              | None => false
              end
    | Err _ => false
    end = true) as H by (vm_compute; reflexivity).
  destruct (tls_verify (scripted_stream answer_script) sample_observation 100 sample_verifier)
    as [[d|] v'] eqn:E; [|discriminate H]. cbn [fst] in H.
  destruct (td_grant d) as [g|] eqn:Hg; [|discriminate H]. apply bool_decide_eq_true in H.
  exists g. split; [|exact H].
  apply (tls_grant_opens_channel (H := toy_sha256_laws) (JT := toy_tls_json)
    (scripted_stream answer_script) http1_conservative_default g).
  - apply example_stream_ok.
  - vm_compute. reflexivity.
  - vm_compute. reflexivity.
  - left. exists sample_verifier, sample_observation, 100%Z, d, v'.
    split; [vm_compute; reflexivity|]. split; [exact E|exact Hg].
  - rewrite H. vm_compute. reflexivity.
Defined.

(** A use of vault headers that the sample channel carries out. *)
Lemma secrets_travel_over_verified_tls_witness :
  exists c0 r lease' c1, sample_channel answer_script = Ok c0
  /\ gated_exchange_with_secret_headers (get_request "/a") (example_secret "Bearer abc") 5
       no_stream_control c0 = Done (r, lease', c1)
  /\ is_ok r = true
  /\ exists g, new_verified_tls (scripted_stream answer_script) g http1_conservative_default = Ok c0
     /\ tls_bound (scripted_stream answer_script) g.
Proof.
  assert (match sample_channel answer_script with
    | Ok c0 => match gated_exchange_with_secret_headers (get_request "/a") (example_secret "Bearer abc") 5
                       no_stream_control c0 with Done (r, _, _) => is_ok r | _ => false end
    | Err _ => false
    end = true) as H by (vm_compute; reflexivity).
  destruct (sample_channel answer_script) as [c0|] eqn:Hc; [|discriminate H].
  destruct (gated_exchange_with_secret_headers _ _ _ _ c0) as [[[r lease'] c1]|] eqn:E; [|discriminate H].
  exists c0, r, lease', c1. split; [reflexivity|]. split; [exact E|]. split; [exact H|].
  unfold sample_channel in Hc.
  destruct (secrets_travel_over_verified_tls (scripted_stream answer_script) http1_conservative_default c0
    [SecretUse (example_secret "Bearer abc") (is_ok r) lease' c0 c1] c1
    (example_secret "Bearer abc") (is_ok r) lease' c0 c1) as [[Hf _]|(g & Hg & Hb & _)].
  - vm_compute. reflexivity.
  - apply example_stream_ok.
  - right. exists sample_grant. exact Hc.
  - econstructor; [exact (cstep_secret _ _ _ _ _ _ _ _ E)|constructor].
  - apply list_elem_of_singleton. reflexivity.
  - rewrite H in Hf. discriminate Hf.
  - exists g. split; [exact Hg|exact Hb].
Defined.
End Sample.
