(* ===== verification/Redirect.v ===== *)
(** * Redirect: re-authorised redirect chains ([crates/nxb-redirect])

    A redirect chain starts from one request and follows the redirects of its
    responses. [authorize_next] turns a redirect response into the next request:
    it checks the session, the DNS context and the [Location] header, plans the
    method, the body and the secrets, refuses loops and downgrades, and asks the
    pinned transport for a fresh authorisation. The theorems say that a chain is
    bounded and free of loops, that every step it hands out went through the
    gateway as its own request, and that a step leaks neither body nor session to
    another origin. *)

From S2P Require Import Prelude ByteStr IpAddr Destination Float64 Url Policy Dns Budget HashChain AuditTrail Gateway Transport PinnedTransport HttpSyntax Http1.
Local Open Scope N_scope.

(** ** Third-party code *)

(** More of [url::Url]: resolving a reference against a base, the parts of the
    target, and whether there is a host. *)
Class UrlJoinLib {U : UrlLib} : Type := {
  url_join : Url -> str -> Result Url str;
  url_path : Url -> str;
  url_query : Url -> option str;
  url_has_host : Url -> bool
}.

(** ** Data *)

Definition MAX_LOCATION_BYTES : N := 8 * 1024.
Definition MAX_REDIRECT_CHAIN_LENGTH : N := 20.

Record RedirectLimits : Type := { rl_maximum_redirects : N }.

Record RedirectSessionSnapshot : Type := {
  rs_session_id : str;
  rs_run_id : str;
  rs_worker_id : str;
  rs_account_id : str;
  rs_tenant_id : str;
  rs_role_id : str;
  rs_generation : N
}.

Record RedirectSessionUpdate : Type := {
  ru_snapshot : RedirectSessionSnapshot;
  ru_response_state_changed : bool
}.

Record RedirectDnsInput : Type := {
  rd_resolved_ips : list IpAddr;
  rd_selected_ip : IpAddr;
  rd_context_id : str;
  rd_resolver_id : str;
  rd_ttl_seconds : N
}.

Record Origin : Type := { or_scheme : str; or_host : str; or_port : N }.

#[export] Instance Origin_eq_dec : EqDecision Origin.
Proof. solve_decision. Defined.

Inductive OriginTransition : Type := SameOrigin | CrossOrigin.
Inductive RedirectBodyDisposition : Type := PreserveBody | DropBody.
Inductive RedirectSecretDisposition : Type := ReissueBoundSecrets | RematerializeCookiesOnly.

#[export] Instance OriginTransition_eq_dec : EqDecision OriginTransition.
Proof. solve_decision. Defined.
#[export] Instance RedirectBodyDisposition_eq_dec : EqDecision RedirectBodyDisposition.
Proof. solve_decision. Defined.

Definition transition_code (self : OriginTransition) : str :=
  match self with SameOrigin => "same_origin" | CrossOrigin => "cross_origin" end.
Definition body_code (self : RedirectBodyDisposition) : str :=
  match self with PreserveBody => "preserve" | DropBody => "drop" end.
Definition secret_code (self : RedirectSecretDisposition) : str :=
  match self with
  | ReissueBoundSecrets => "reissue_bound_secrets"
  | RematerializeCookiesOnly => "rematerialize_cookies_only"
  end.

Record RedirectAuditEvent : Type := {
  re_chain_id : str;
  re_step : N;
  re_status : str;
  re_reason : str;
  re_response_status : N;
  re_from_origin : str;
  re_to_origin : str;
  re_from_target_sha256 : str;
  re_to_target_sha256 : str;
  re_location_sha256 : str;
  re_method_before : str;
  re_method_after : str;
  re_body_disposition : str;
  re_origin_transition : str;
  re_secret_disposition : str;
  re_session_identity_sha256 : str;
  re_session_generation : N;
  re_dns_context_id : str;
  re_gateway_decision_id : str;
  re_gateway_outcome : str;
  re_gateway_decision_sha256 : str;
  re_gateway_audit_anchor : str;
  re_ticket_id : option str;
  re_ticket_binding_hash : option str;
  re_transport_audit_anchor : str
}.

Inductive RedirectError : Type :=
  | RdInvalidLimits
  | RdInvalidChainId
  | RdInvalidIdentifier (name : str)
  | RdInvalidSessionGeneration
  | RdInvalidMethod
  | RdInvalidDigest (name : str)
  | RdInvalidUrl
  | RdUserInfoForbidden
  | RdMissingHost
  | RdMissingPort
  | RdNotRedirect
  | RdMissingLocation
  | RdMultipleLocations
  | RdInvalidLocation (message : str)
  | RdHttpsDowngrade
  | RdRedirectLimitExceeded
  | RdRedirectLoop
  | RdDnsContextReused
  | RdSessionIdentityMismatch
  | RdSessionGenerationMismatch
  | RdCrossOriginBodyReplayDenied
  | RdChainTerminated
  | RdMissingTransportTicket
  | RdTransport (error : PinnedTransportError)
  | RdAudit (error : ChainError).

(** ** Validation *)

Definition redirect_conservative_default : RedirectLimits := {| rl_maximum_redirects := 8 |}.

Definition redirect_limits_validate (self : RedirectLimits) : Result RedirectLimits RedirectError :=
  if (rl_maximum_redirects self =? 0) || (MAX_REDIRECT_CHAIN_LENGTH <? rl_maximum_redirects self)
  then Err RdInvalidLimits else Ok self.

Definition redirect_validate_identifier (value name : str) : Result unit RedirectError :=
  if (len value =? 0) || (128 <? len value)
     || negb (forallb (fun c => is_ascii_alphanumeric c || is_byte 45 c || is_byte 95 c || is_byte 46 c) value)
  then Err (RdInvalidIdentifier name) else Ok tt.

Definition validate_sha256 (value name : str) : Result unit RedirectError :=
  if negb (len value =? 64) || negb (forallb is_ascii_hexdigit value)
  then Err (RdInvalidDigest name) else Ok tt.

Definition redirect_normalize_method (method : str) : Result str RedirectError :=
  let normalized := to_ascii_uppercase method in
  if (len normalized =? 0) || (32 <? len normalized)
     || negb (forallb (fun c => is_ascii_uppercase c || is_ascii_digit c || is_byte 45 c || is_byte 95 c)
                normalized)
  then Err RdInvalidMethod else Ok normalized.

Definition snapshot_validate (self : RedirectSessionSnapshot) : Result unit RedirectError :=
  let? _ := redirect_validate_identifier (rs_session_id self) "session_id" in
  let? _ := redirect_validate_identifier (rs_run_id self) "run_id" in
  let? _ := redirect_validate_identifier (rs_worker_id self) "worker_id" in
  let? _ := redirect_validate_identifier (rs_account_id self) "account_id" in
  let? _ := redirect_validate_identifier (rs_tenant_id self) "tenant_id" in
  let? _ := redirect_validate_identifier (rs_role_id self) "role_id" in
  if rs_generation self =? 0 then Err RdInvalidSessionGeneration else Ok tt.

Definition identity_matches (self other : RedirectSessionSnapshot) : bool :=
  bool_decide (rs_session_id self = rs_session_id other)
  && bool_decide (rs_run_id self = rs_run_id other)
  && bool_decide (rs_worker_id self = rs_worker_id other)
  && bool_decide (rs_account_id self = rs_account_id other)
  && bool_decide (rs_tenant_id self = rs_tenant_id other)
  && bool_decide (rs_role_id self = rs_role_id other).

Definition validate_session_update (current : RedirectSessionSnapshot) (update : RedirectSessionUpdate)
    : Result unit RedirectError :=
  let? _ := snapshot_validate (ru_snapshot update) in
  if negb (identity_matches current (ru_snapshot update)) then Err RdSessionIdentityMismatch
  else
    let valid_generation :=
      if ru_response_state_changed update
      then rs_generation (ru_snapshot update) =? saturating_add (rs_generation current) 1
      else rs_generation (ru_snapshot update) =? rs_generation current in
    if negb valid_generation then Err RdSessionGenerationMismatch else Ok tt.

(** [u8::is_ascii_whitespace]. *)
Definition is_ascii_whitespace (c : byte) : bool :=
  is_byte 32 c || is_byte 9 c || is_byte 10 c || is_byte 12 c || is_byte 13 c.

Definition is_redirect_status (status : N) : bool :=
  (status =? 301) || (status =? 302) || (status =? 303) || (status =? 307) || (status =? 308).

Definition strict_location (response : Http1Response) : Result str RedirectError :=
  if negb (is_redirect_status (hr_status_code response)) then Err RdNotRedirect
  else match List.filter (fun header => eq_ignore_ascii_case (hh_name header) "location")
               (hr_headers response) with
  | [] => Err RdMissingLocation
  | [header] =>
      let value := hh_value header in
      if (len value =? 0) || (MAX_LOCATION_BYTES <? len value)
      then Err (RdInvalidLocation "length is outside the supported range")
      else if match head value with Some c => is_ascii_whitespace c | None => false end
              || match last value with Some c => is_ascii_whitespace c | None => false end
              || existsb (fun c => is_ascii_control c || is_byte 32 c) value
      then Err (RdInvalidLocation "whitespace or control bytes are forbidden")
      else Ok value
  | _ :: _ :: _ => Err RdMultipleLocations
  end.

Definition redirect_method_plan (status : N) (current_method : str)
    : Result (str * RedirectBodyDisposition) RedirectError :=
  if (status =? 301) || (status =? 302) then
    if bool_decide (current_method = "POST") then Ok ("GET" : str, DropBody)
    else Ok (current_method, PreserveBody)
  else if status =? 303 then
    if bool_decide (current_method = "HEAD") then Ok ("HEAD" : str, DropBody)
    else Ok ("GET" : str, DropBody)
  else if (status =? 307) || (status =? 308) then Ok (current_method, PreserveBody)
  else Err RdNotRedirect.

Definition origin_authority (self : Origin) : str :=
  let default_port :=
    if bool_decide (or_scheme self = "http") then 80
    else if bool_decide (or_scheme self = "https") then 443 else or_port self in
  if or_port self =? default_port then or_host self
  else or_host self ++ (":" : str) ++ decimal (or_port self).

Definition origin_code (origin : Origin) : str :=
  or_scheme origin ++ ("://" : str) ++ origin_authority origin.

Section Redirect.
Context {U : UrlLib} {UJ : UrlJoinLib} {S : Sha256Lib} {J : JsonLib (HashMaterial AuditEvent)}
  {JT : JsonLib (HashMaterial TransportAuditEvent)} {JR : JsonLib (HashMaterial RedirectAuditEvent)}
  {JD : JsonLib GatewayDecision}.

(** ** State *)

Record RedirectRequestState : Type := {
  rq_url : Url;
  rq_method : str;
  rq_body_sha256 : str;
  rq_body_bytes : N;
  rq_session : RedirectSessionSnapshot
}.

Record RedirectNextRequest : Type := {
  nx_url : Url;
  nx_method : str;
  nx_body_disposition : RedirectBodyDisposition;
  nx_body_sha256 : str;
  nx_body_bytes : N
}.

Record RedirectStep : Type := {
  rst_redirect_depth : N;
  rst_status_code : N;
  rst_from_origin : Origin;
  rst_to_origin : Origin;
  rst_origin_transition : OriginTransition;
  rst_secret_disposition : RedirectSecretDisposition;
  rst_session_generation : N;
  rst_next_request : RedirectNextRequest;
  rst_authorization : ConnectionAuthorization
}.

Definition is_authorized (self : RedirectStep) : bool :=
  bool_decide (outcome (ca_decision (rst_authorization self)) = Allow)
  && bool_decide (is_Some (ca_ticket (rst_authorization self))).

Record RedirectCoordinator : Type := {
  rc_chain_id : str;
  rc_limits : RedirectLimits;
  rc_transport : PinnedTransportCoordinator;
  rc_current : RedirectRequestState;
  rc_seen_requests : gset str;
  rc_used_dns_contexts : gset str;
  rc_redirect_count : N;
  rc_terminal : bool;
  rc_audit : HashChain RedirectAuditEvent
}.

(** ** URLs and digests *)

Definition redirect_hash (bytes : str) : str := to_lower_hex (sha256 bytes).

Definition validate_http_url (url : Url) : Result unit RedirectError :=
  if negb (bool_decide (url_scheme url = ("http" : str)) || bool_decide (url_scheme url = ("https" : str)))
     || negb (url_has_host url)
  then Err RdInvalidUrl
  else if bool_decide (url_username url <> []) || bool_decide (is_Some (url_password url))
  then Err RdUserInfoForbidden
  else Ok tt.

Definition origin_from_url (url : Url) : Result Origin RedirectError :=
  let? _ := validate_http_url url in
  match url_host_str url with
  | None => Err RdMissingHost
  | Some host =>
      match url_port_or_known_default url with
      | None => Err RdMissingPort
      | Some port =>
          Ok {| or_scheme := to_ascii_lowercase (url_scheme url);
                or_host := to_ascii_lowercase host; or_port := port |}
      end
  end.

Definition resolve_location (base : Url) (location : str) : Result Url RedirectError :=
  if negb (from_utf8_ok location) then Err (RdInvalidLocation "value is not UTF-8")
  else
    let? url := map_err RdInvalidLocation (url_join base location) in
    let? _ := validate_http_url url in
    Ok url.

Definition origin_form (url : Url) : str :=
  let path := url_path url in
  (if bool_decide (path = []) then ("/" : str) else path)
  ++ match url_query url with Some query => ("?" : str) ++ query | None => [] end.

Definition target_hash (url : Url) : str := redirect_hash (origin_form url).

(** A zero byte separates the parts of a digest. *)
Definition NUL : str := ["000"%char].

(** What identifies a request for the loop check. *)
Definition request_identity (url : Url) (method : str) : str := method ++ NUL ++ url_to_string url.
Definition request_identity_hash (url : Url) (method : str) : str :=
  redirect_hash (request_identity url method).

Definition session_identity_hash (session : RedirectSessionSnapshot) : str :=
  redirect_hash (rs_session_id session ++ NUL ++ rs_run_id session ++ NUL ++ rs_worker_id session
    ++ NUL ++ rs_account_id session ++ NUL ++ rs_tenant_id session ++ NUL ++ rs_role_id session).

(** ** Operations *)

Definition request_state_new (url : Url) (method body_sha256 : str) (body_bytes : N)
    (session : RedirectSessionSnapshot) : Result RedirectRequestState RedirectError :=
  let? _ := validate_http_url url in
  let url := url_clear_fragment url in
  let? method := redirect_normalize_method method in
  let? _ := validate_sha256 body_sha256 "body_sha256" in
  let? _ := snapshot_validate session in
  Ok {| rq_url := url; rq_method := method; rq_body_sha256 := body_sha256;
        rq_body_bytes := body_bytes; rq_session := session |}.

(** The chain is anchored in the transport's audit chain; its genesis is not
    checked, being a digest. *)
Definition redirect_audit_new (chain_id transport_anchor : str) : HashChain RedirectAuditEvent :=
  chain_new (redirect_hash (("nxb-redirect:" : str) ++ chain_id ++ (":" : str) ++ transport_anchor)).

Definition redirect_audit_verify (chain : HashChain RedirectAuditEvent) : Result unit ChainError :=
  chain_verify chain.

Definition redirect_new (chain_id : str) (transport : PinnedTransportCoordinator)
    (current : RedirectRequestState) (limits : RedirectLimits) : Result RedirectCoordinator RedirectError :=
  let? _ := map_err (fun _ => RdInvalidChainId) (redirect_validate_identifier chain_id "chain_id") in
  let? limits := redirect_limits_validate limits in
  Ok {| rc_chain_id := chain_id; rc_limits := limits; rc_transport := transport;
        rc_current := current;
        rc_seen_requests := {[ request_identity_hash (rq_url current) (rq_method current) ]};
        rc_used_dns_contexts := ∅; rc_redirect_count := 0; rc_terminal := false;
        rc_audit := redirect_audit_new chain_id (tail_hash (ta_chain (pc_audit transport))) |}.

Definition set_terminal (self : RedirectCoordinator) : RedirectCoordinator :=
  {| rc_chain_id := rc_chain_id self; rc_limits := rc_limits self; rc_transport := rc_transport self;
     rc_current := rc_current self; rc_seen_requests := rc_seen_requests self;
     rc_used_dns_contexts := rc_used_dns_contexts self; rc_redirect_count := rc_redirect_count self;
     rc_terminal := true; rc_audit := rc_audit self |}.
Definition set_transport (t : PinnedTransportCoordinator) (self : RedirectCoordinator) : RedirectCoordinator :=
  {| rc_chain_id := rc_chain_id self; rc_limits := rc_limits self; rc_transport := t;
     rc_current := rc_current self; rc_seen_requests := rc_seen_requests self;
     rc_used_dns_contexts := rc_used_dns_contexts self; rc_redirect_count := rc_redirect_count self;
     rc_terminal := rc_terminal self; rc_audit := rc_audit self |}.
Definition set_redirect_audit (a : HashChain RedirectAuditEvent) (self : RedirectCoordinator) : RedirectCoordinator :=
  {| rc_chain_id := rc_chain_id self; rc_limits := rc_limits self; rc_transport := rc_transport self;
     rc_current := rc_current self; rc_seen_requests := rc_seen_requests self;
     rc_used_dns_contexts := rc_used_dns_contexts self; rc_redirect_count := rc_redirect_count self;
     rc_terminal := rc_terminal self; rc_audit := a |}.

(** What [authorize_next] knows when it asks the transport. *)
Record RedirectPlan : Type := {
  rp_location_sha256 : str;
  rp_from_origin : Origin;
  rp_to_origin : Origin;
  rp_origin_transition : OriginTransition;
  rp_secret_disposition : RedirectSecretDisposition;
  rp_next_request : RedirectNextRequest;
  rp_request_hash : str
}.

(** The checks and the plan before the transport is asked; an error comes with
    whether it ends the chain. *)
Definition plan_next (response : Http1Response) (dns : RedirectDnsInput)
    (session_update : RedirectSessionUpdate) (self : RedirectCoordinator)
    : Result RedirectPlan (RedirectError * bool) :=
  let passing {A} (r : Result A RedirectError) : Result A (RedirectError * bool) :=
    map_err (fun e => (e, false)) r in
  let current := rc_current self in
  if rc_terminal self then Err (RdChainTerminated, false)
  else if rl_maximum_redirects (rc_limits self) <=? rc_redirect_count self
  then Err (RdRedirectLimitExceeded, true)
  else
  let? _ := passing (validate_session_update (rq_session current) session_update) in
  let? _ := passing (redirect_validate_identifier (rd_context_id dns) "dns_context_id") in
  let? _ := passing (redirect_validate_identifier (rd_resolver_id dns) "dns_resolver_id") in
  if bool_decide (rd_context_id dns ∈ rc_used_dns_contexts self) then Err (RdDnsContextReused, true)
  else
  let? location := passing (strict_location response) in
  let? joined := passing (resolve_location (rq_url current) location) in
  let next_url := url_clear_fragment joined in
  let? from_origin := passing (origin_from_url (rq_url current)) in
  let? to_origin := passing (origin_from_url next_url) in
  if bool_decide (or_scheme from_origin = ("https" : str))
     && bool_decide (or_scheme to_origin = ("http" : str))
  then Err (RdHttpsDowngrade, true)
  else
  let? (method, body_disposition) :=
    passing (redirect_method_plan (hr_status_code response) (rq_method current)) in
  let origin_transition := if bool_decide (from_origin = to_origin) then SameOrigin else CrossOrigin in
  if bool_decide (origin_transition = CrossOrigin) && bool_decide (body_disposition = PreserveBody)
     && (0 <? rq_body_bytes current)
  then Err (RdCrossOriginBodyReplayDenied, true)
  else
  let next_request :=
    {| nx_url := next_url; nx_method := method; nx_body_disposition := body_disposition;
       nx_body_sha256 := match body_disposition with
                         | PreserveBody => rq_body_sha256 current
                         | DropBody => redirect_hash []
                         end;
       nx_body_bytes := match body_disposition with PreserveBody => rq_body_bytes current | DropBody => 0 end |} in
  let next_request_hash := request_identity_hash next_url method in
  if bool_decide (next_request_hash ∈ rc_seen_requests self) then Err (RdRedirectLoop, true)
  else
  Ok {| rp_location_sha256 := redirect_hash location;
        rp_from_origin := from_origin; rp_to_origin := to_origin;
        rp_origin_transition := origin_transition;
        rp_secret_disposition := match origin_transition with
                                 | SameOrigin => ReissueBoundSecrets
                                 | CrossOrigin => RematerializeCookiesOnly
                                 end;
        rp_next_request := next_request; rp_request_hash := next_request_hash |}.

(** The intent handed to the gateway. *)
Definition redirect_intent (plan : RedirectPlan) (dns : RedirectDnsInput) (redirect_depth : N)
    : RequestIntent :=
  {| intent_url := nx_url (rp_next_request plan); intent_method := nx_method (rp_next_request plan);
     resolved_ips := rd_resolved_ips dns; intent_redirect_depth := redirect_depth;
     intent_dns_context_id := rd_context_id dns; intent_dns_resolver_id := rd_resolver_id dns;
     intent_dns_ttl_seconds := rd_ttl_seconds dns |}.

Definition redirect_event (self : RedirectCoordinator) (status : N) (plan : RedirectPlan)
    (session : RedirectSessionSnapshot) (dns_context_id : str) (authorization : ConnectionAuthorization)
    (decision_bytes : str) : RedirectAuditEvent :=
  let decision := ca_decision authorization in
  let next := rp_next_request plan in
  {| re_chain_id := rc_chain_id self;
     re_step := u8_saturating_add (rc_redirect_count self) 1;
     re_status := match outcome decision with Allow => "authorized" | Deny => "gateway_denied" end;
     re_reason := "redirect_reauthorized";
     re_response_status := status;
     re_from_origin := origin_code (rp_from_origin plan);
     re_to_origin := origin_code (rp_to_origin plan);
     re_from_target_sha256 := target_hash (rq_url (rc_current self));
     re_to_target_sha256 := target_hash (nx_url next);
     re_location_sha256 := rp_location_sha256 plan;
     re_method_before := rq_method (rc_current self);
     re_method_after := nx_method next;
     re_body_disposition := body_code (nx_body_disposition next);
     re_origin_transition := transition_code (rp_origin_transition plan);
     re_secret_disposition := secret_code (rp_secret_disposition plan);
     re_session_identity_sha256 := session_identity_hash session;
     re_session_generation := rs_generation session;
     re_dns_context_id := dns_context_id;
     re_gateway_decision_id := decision_id decision;
     re_gateway_outcome := match outcome decision with Allow => "allow" | Deny => "deny" end;
     re_gateway_decision_sha256 := redirect_hash decision_bytes;
     re_gateway_audit_anchor := tail_hash (audit (pc_gateway (rc_transport self)));
     re_ticket_id := option_map tk_ticket_id (ca_ticket authorization);
     re_ticket_binding_hash := option_map tk_binding_hash (ca_ticket authorization);
     re_transport_audit_anchor := tail_hash (ta_chain (pc_audit (rc_transport self))) |}.

Definition append_audit_event (status : N) (plan : RedirectPlan) (session : RedirectSessionSnapshot)
    (dns_context_id : str) (authorization : ConnectionAuthorization) (self : RedirectCoordinator)
    : Result unit RedirectError * RedirectCoordinator :=
  match to_vec (ca_decision authorization) with
  | Err message => (Err (RdAudit (Serialization message)), self)
  | Ok decision_bytes =>
      match chain_append (redirect_event self status plan session dns_context_id authorization decision_bytes)
              (rc_audit self) with
      | (Err e, chain) => (Err (RdAudit e), set_redirect_audit chain self)
      | (Ok _, chain) => (Ok tt, set_redirect_audit chain self)
      end
  end.

(** The state after a step was handed out. *)
Definition follow_step (step : RedirectStep) (request_hash dns_context_id : str)
    (session : RedirectSessionSnapshot) (self : RedirectCoordinator) : RedirectCoordinator :=
  let next := rst_next_request step in
  if is_authorized step then
    {| rc_chain_id := rc_chain_id self; rc_limits := rc_limits self; rc_transport := rc_transport self;
       rc_current := {| rq_url := nx_url next; rq_method := nx_method next;
                        rq_body_sha256 := nx_body_sha256 next; rq_body_bytes := nx_body_bytes next;
                        rq_session := session |};
       rc_seen_requests := {[ request_hash ]} ∪ rc_seen_requests self;
       rc_used_dns_contexts := {[ dns_context_id ]} ∪ rc_used_dns_contexts self;
       rc_redirect_count := rst_redirect_depth step; rc_terminal := rc_terminal self;
       rc_audit := rc_audit self |}
  else
    {| rc_chain_id := rc_chain_id self; rc_limits := rc_limits self; rc_transport := rc_transport self;
       rc_current := rc_current self; rc_seen_requests := rc_seen_requests self;
       rc_used_dns_contexts := {[ dns_context_id ]} ∪ rc_used_dns_contexts self;
       rc_redirect_count := rc_redirect_count self; rc_terminal := true; rc_audit := rc_audit self |}.

Definition authorize_next (response : Http1Response) (dns : RedirectDnsInput)
    (session_update : RedirectSessionUpdate) (elapsed : Duration) (self : RedirectCoordinator)
    : Run (Result RedirectStep RedirectError * RedirectCoordinator) :=
  match plan_next response dns session_update self with
  | Err (e, ends_chain) => Done (Err e, if ends_chain : bool then set_terminal self else self)
  | Ok plan =>
      let redirect_depth := u8_saturating_add (rc_redirect_count self) 1 in
      let! (authorized, transport) :=
        authorize_connection (redirect_intent plan dns redirect_depth) (rd_selected_ip dns) elapsed
          (rc_transport self) in
      let self := set_transport transport self in
      match authorized with
      | Err e => Done (Err (RdTransport e), self)
      | Ok authorization =>
          if bool_decide (outcome (ca_decision authorization) = Allow)
             && bool_decide (ca_ticket authorization = None)
          then Done (Err RdMissingTransportTicket, set_terminal self)
          else
            match append_audit_event (hr_status_code response) plan (ru_snapshot session_update)
                    (rd_context_id dns) authorization self with
            | (Err e, self) => Done (Err e, self)
            | (Ok _, self) =>
                let step :=
                  {| rst_redirect_depth := redirect_depth; rst_status_code := hr_status_code response;
                     rst_from_origin := rp_from_origin plan; rst_to_origin := rp_to_origin plan;
                     rst_origin_transition := rp_origin_transition plan;
                     rst_secret_disposition := rp_secret_disposition plan;
                     rst_session_generation := rs_generation (ru_snapshot session_update);
                     rst_next_request := rp_next_request plan; rst_authorization := authorization |} in
                Done (Ok step, follow_step step (rp_request_hash plan) (rd_context_id dns)
                                 (ru_snapshot session_update) self)
            end
      end
  end.

(** ** What a call does *)

(** The fields that only a followed step changes. *)
Definition same_chain (c c' : RedirectCoordinator) : Prop :=
  rc_limits c' = rc_limits c /\ rc_current c' = rc_current c
  /\ rc_seen_requests c' = rc_seen_requests c /\ rc_redirect_count c' = rc_redirect_count c.

Lemma append_audit_event_same status plan session dns auth c r c' :
  append_audit_event status plan session dns auth c = (r, c') ->
  exists chain, c' = set_redirect_audit chain c.
Proof.
  unfold append_audit_event. intros H. destruct (to_vec _) as [b|].
  - destruct (chain_append _ _) as [[rec|e] chain]; simplify_eq; eauto.
  - simplify_eq. exists (rc_audit c'). by destruct c'.
Qed.

(** A step that was handed out. *)
Lemma authorize_next_ok response dns update elapsed c step c' :
  authorize_next response dns update elapsed c = Done (Ok step, c') ->
  exists plan transport chain,
    plan_next response dns update c = Ok plan
    /\ authorize_connection (redirect_intent plan dns (u8_saturating_add (rc_redirect_count c) 1))
         (rd_selected_ip dns) elapsed (rc_transport c) = Done (Ok (rst_authorization step), transport)
    /\ rst_redirect_depth step = u8_saturating_add (rc_redirect_count c) 1
    /\ rst_next_request step = rp_next_request plan
    /\ rst_from_origin step = rp_from_origin plan /\ rst_to_origin step = rp_to_origin plan
    /\ rst_origin_transition step = rp_origin_transition plan
    /\ rst_secret_disposition step = rp_secret_disposition plan
    /\ ~ (outcome (ca_decision (rst_authorization step)) = Allow /\ ca_ticket (rst_authorization step) = None)
    /\ c' = follow_step step (rp_request_hash plan) (rd_context_id dns) (ru_snapshot update)
              (set_redirect_audit chain (set_transport transport c)).
Proof.
  unfold authorize_next. intros H.
  destruct (plan_next response dns update c) as [plan|[e b]] eqn:Hp; [|done].
  destruct (authorize_connection _ _ _ _) as [[[auth|e] transport]|] eqn:Ha; [|done..].
  destruct (_ && _) eqn:Hmiss; [done|].
  destruct (append_audit_event _ _ _ _ _ _) as [[u|e] c1] eqn:Hau; [|done].
  apply append_audit_event_same in Hau as [chain ->]. simplify_eq.
  exists plan, transport, chain. simpl. split_and!; try done.
  intros [Hal Hno]. by rewrite !bool_decide_eq_true_2 in Hmiss by done.
Qed.

Lemma authorize_next_err response dns update elapsed c e c' :
  authorize_next response dns update elapsed c = Done (Err e, c') ->
  same_chain c c' /\ (rc_terminal c = true -> rc_terminal c' = true).
Proof.
  unfold authorize_next, same_chain. intros H.
  destruct (plan_next response dns update c) as [plan|[e' b]] eqn:Hp;
    [|by destruct b; simplify_eq].
  destruct (authorize_connection _ _ _ _) as [[[auth|e'] transport]|] eqn:Ha; [| |done];
    [|by simplify_eq].
  destruct (_ && _); [by simplify_eq|].
  destruct (append_audit_event _ _ _ _ _ _) as [[u|e'] c1] eqn:Hau; [done|].
  apply append_audit_event_same in Hau as [chain ->]. by simplify_eq.
Qed.

(** What the plan guarantees. *)
Lemma plan_next_ok response dns update c plan :
  plan_next response dns update c = Ok plan ->
  let next := rp_next_request plan in
  rc_terminal c = false /\ rc_redirect_count c < rl_maximum_redirects (rc_limits c)
  /\ validate_session_update (rq_session (rc_current c)) update = Ok tt
  /\ rd_context_id dns ∉ rc_used_dns_contexts c
  /\ origin_from_url (rq_url (rc_current c)) = Ok (rp_from_origin plan)
  /\ origin_from_url (nx_url next) = Ok (rp_to_origin plan)
  /\ ~ (or_scheme (rp_from_origin plan) = "https" /\ or_scheme (rp_to_origin plan) = "http")
  /\ (rp_from_origin plan <> rp_to_origin plan ->
       nx_body_bytes next = 0 /\ rp_secret_disposition plan = RematerializeCookiesOnly)
  /\ redirect_method_plan (hr_status_code response) (rq_method (rc_current c))
     = Ok (nx_method next, nx_body_disposition next)
  /\ rp_request_hash plan = request_identity_hash (nx_url next) (nx_method next)
  /\ rp_request_hash plan ∉ rc_seen_requests c.
Proof.
  unfold plan_next. intros H.
  destruct (rc_terminal c) eqn:Ht; [done|]. destruct (_ <=? _) eqn:Hc; [done|].
  destruct (validate_session_update _ _) as [[]|] eqn:Hs; [|done]. simpl in H.
  destruct (redirect_validate_identifier (rd_context_id dns) _); [|done]. simpl in H.
  destruct (redirect_validate_identifier (rd_resolver_id dns) _); [|done]. simpl in H.
  destruct (bool_decide (rd_context_id dns ∈ _)) eqn:Hd; [done|].
  destruct (strict_location response) as [loc|]; [|done]. simpl in H.
  destruct (resolve_location _ _) as [joined|]; [|done]. simpl in H.
  destruct (origin_from_url (rq_url (rc_current c))) as [fo|] eqn:Hfo; [|done]. simpl in H.
  destruct (origin_from_url (url_clear_fragment joined)) as [t_o|] eqn:Hto; [|done]. simpl in H.
  destruct (bool_decide _ && bool_decide _) eqn:Hdown; [done|].
  destruct (redirect_method_plan _ _) as [[method disp]|] eqn:Hm; [|done]. simpl in H.
  destruct (_ && _ && _) eqn:Hrep; [done|].
  destruct (bool_decide (request_identity_hash _ _ ∈ _)) eqn:Hseen; [done|].
  simplify_eq. simpl. bools. split_and!; auto.
  - intros [E1 E2]. rewrite E1, E2 in Hdown. by vm_compute in Hdown.
  - intros Hne. rewrite (bool_decide_eq_false_2 _ Hne) in Hrep |- *. simpl in Hrep.
    split; [|done]. destruct disp; [|done]. simpl in Hrep. by bools; lia.
Qed.

(** ** Chains *)

(** Any number of calls, with the steps they handed out. *)
Inductive redirect_trace : RedirectCoordinator -> list RedirectStep -> RedirectCoordinator -> Prop :=
  | rtrace_nil c : redirect_trace c [] c
  | rtrace_step response dns update elapsed c step c1 steps c2 :
      authorize_next response dns update elapsed c = Done (Ok step, c1) ->
      redirect_trace c1 steps c2 -> redirect_trace c (step :: steps) c2
  | rtrace_refused response dns update elapsed c e c1 steps c2 :
      authorize_next response dns update elapsed c = Done (Err e, c1) ->
      redirect_trace c1 steps c2 -> redirect_trace c steps c2.

Definition followed (steps : list RedirectStep) : list RedirectStep := List.filter is_authorized steps.

(** The request of a step as the loop check sees it. *)
Definition step_request (step : RedirectStep) : str * str :=
  (nx_method (rst_next_request step), url_to_string (nx_url (rst_next_request step))).
Definition request_hash_of (request : str * str) : str :=
  redirect_hash (request.1 ++ NUL ++ request.2).

Lemma terminal_trace c steps c' : redirect_trace c steps c' -> rc_terminal c = true -> steps = [].
Proof.
  induction 1 as [|response dns update elapsed c step c1 steps c2 Ha _ _|
                  response dns update elapsed c e c1 steps c2 Ha _ IH]; intros Ht; [done| |].
  - apply authorize_next_ok in Ha as (plan & _ & _ & (Hf & _)%plan_next_ok & _). congruence.
  - apply authorize_next_err in Ha as [_ Hk]. auto.
Qed.

Lemma trace_followed c steps c' :
  redirect_trace c steps c' -> rl_maximum_redirects (rc_limits c) <= MAX_REDIRECT_CHAIN_LENGTH ->
  rc_redirect_count c <= rl_maximum_redirects (rc_limits c) ->
  rc_redirect_count c + len (followed steps) <= rl_maximum_redirects (rc_limits c)
  /\ len steps <= len (followed steps) + 1
  /\ (forall i step, followed steps !! i = Some step ->
       rst_redirect_depth step = rc_redirect_count c + 1 + N.of_nat i)
  /\ NoDup (request_hash_of ∘ step_request <$> followed steps)
  /\ forall h, h ∈ rc_seen_requests c -> h ∉ (request_hash_of ∘ step_request <$> followed steps).
Proof.
  induction 1 as [c|response dns update elapsed c step c1 steps c2 Ha Ht IH|
                  response dns update elapsed c e c1 steps c2 Ha _ IH]; intros Hmax Hcount.
  - simpl. rewrite len_nil. split_and!; [lia|lia|done|constructor|set_solver].
  - apply authorize_next_ok in Ha
      as (plan & tr & ch & (_ & Hlt & _ & _ & _ & _ & _ & _ & _ & Hh & Hfresh)%plan_next_ok & _ & Hd & Hn & _ & _ & _ & _ & _ & ->).
    assert (Hu8 : u8_saturating_add (rc_redirect_count c) 1 = rc_redirect_count c + 1).
    { unfold u8_saturating_add. change u8_max with 255. change MAX_REDIRECT_CHAIN_LENGTH with 20 in Hmax. lia. }
    assert (Hhash : request_hash_of (step_request step) = rp_request_hash plan)
      by (rewrite Hh; unfold step_request; by rewrite Hn).
    rewrite Hu8 in Hd. unfold follow_step in *. simpl. destruct (is_authorized step) eqn:Hauth.
    + simpl in IH. rewrite Hd in IH. destruct (IH Hmax ltac:(lia)) as (H1 & H2 & H3 & H4 & H5).
      simpl. rewrite !len_cons. split_and!; [lia|lia| | |].
      * intros [|i] s; simpl; [intros [= <-]; lia|]. intros Hs%H3. lia.
      * constructor; [|done]. apply H5. rewrite Hhash. set_solver.
      * intros h Hin. apply not_elem_of_cons. split; [|apply H5; set_solver].
        intros ->. rewrite Hhash in Hin. done.
    + apply terminal_trace in Ht; [|done]. subst. simpl. rewrite len_cons, len_nil.
      split_and!; [lia|lia|done|constructor|set_solver].
  - apply authorize_next_err in Ha as [(Hl & _ & Hse & Hc) _]. rewrite Hl, Hse, Hc in IH. auto.
Qed.

End Redirect.

(** ** Properties *)

Section Properties.
Context {U : UrlLib} {UJ : UrlJoinLib} {S : Sha256Lib} {J : JsonLib (HashMaterial AuditEvent)}
  {JT : JsonLib (HashMaterial TransportAuditEvent)} {JR : JsonLib (HashMaterial RedirectAuditEvent)}
  {JD : JsonLib GatewayDecision}.

(** A redirect chain is bounded and free of loops: whatever responses, DNS
    answers and session updates it is fed, a chain follows at most its limit of
    redirects, which is at most twenty, hands out at most one step more, numbers
    the followed ones from one, and never follows the same method and URL twice,
    the first request included. *)
Theorem redirect_chain_is_bounded chain_id transport current limits c0 steps c :
  redirect_new chain_id transport current limits = Ok c0 -> redirect_trace c0 steps c ->
  len (followed steps) <= rl_maximum_redirects limits <= MAX_REDIRECT_CHAIN_LENGTH
  /\ len steps <= len (followed steps) + 1
  /\ (forall i step, followed steps !! i = Some step -> rst_redirect_depth step = N.of_nat i + 1)
  /\ NoDup ((rq_method current, url_to_string (rq_url current)) :: (step_request <$> followed steps)).
Proof.
  unfold redirect_new, redirect_limits_validate. intros Hn Ht. inv_ok Hn. bools.
  destruct (trace_followed _ _ _ Ht) as (H1 & H2 & H3 & H4 & H5); simpl in *; [lia|lia|].
  split_and!; [lia|lia|lia| |].
  - intros i step Hs%H3. lia.
  - apply (NoDup_fmap_1 request_hash_of). rewrite fmap_cons, <- list_fmap_compose.
    constructor; [|done]. apply H5. set_solver.
Qed.

(** C13: a redirect step is safe. A step that is handed out does not go from HTTPS
    to HTTP, carries no body and only cookies to another origin, keeps the session
    identity and uses a DNS context the chain has not used. If the gateway allowed it,
    its method and URL passed every check of the gateway as a request of its own at its
    own depth, it has a ticket for a public address, and it is the current request now.
    If the gateway denied it, it has no ticket, the current request stays and the chain
    has ended. *)
Theorem redirect_step_is_safe c response dns update elapsed step c' :
  authorize_next response dns update elapsed c = Done (Ok step, c') ->
  let from := rst_from_origin step in
  let next := rst_next_request step in
  origin_from_url (rq_url (rc_current c)) = Ok from
  /\ origin_from_url (nx_url next) = Ok (rst_to_origin step)
  /\ ~ (or_scheme from = "https" /\ or_scheme (rst_to_origin step) = "http")
  /\ (from <> rst_to_origin step ->
       nx_body_bytes next = 0 /\ rst_secret_disposition step = RematerializeCookiesOnly)
  /\ identity_matches (rq_session (rc_current c)) (ru_snapshot update) = true
  /\ rd_context_id dns ∉ rc_used_dns_contexts c /\ rd_context_id dns ∈ rc_used_dns_contexts c'
  /\ (is_authorized step = true ->
       rq_url (rc_current c') = nx_url next /\ rq_method (rc_current c') = nx_method next
       /\ exists intent ticket,
         intent_url intent = nx_url next /\ intent_method intent = nx_method next
         /\ intent_redirect_depth intent = rst_redirect_depth step
         /\ permitted intent elapsed (pc_gateway (rc_transport c))
         /\ ca_ticket (rst_authorization step) = Some ticket
         /\ tk_decision_id ticket = decision_id (ca_decision (rst_authorization step))
         /\ tk_selected_ip ticket = rd_selected_ip dns
         /\ is_public_destination (rd_selected_ip dns) = true)
  /\ (is_authorized step = false ->
       outcome (ca_decision (rst_authorization step)) = Deny /\ ca_ticket (rst_authorization step) = None
       /\ rc_current c' = rc_current c /\ rc_terminal c' = true).
Proof.
  intros (plan & tr & ch & Hp & Ha & Hd & Hn & Hf & Hto & _ & Hsec & Hmiss & ->)%authorize_next_ok.
  apply plan_next_ok in Hp as (_ & _ & Hs & Hfresh & Hfrom & Hnext & Hdown & Hcross & _).
  rewrite Hf, Hn, Hto, Hsec. intros from next. split_and!; auto.
  - unfold validate_session_update in Hs. destruct (snapshot_validate _); [|done].
    destruct (negb (identity_matches _ _)) eqn:E; [done|]. by bools.
  - unfold follow_step. destruct (is_authorized step); simpl; set_solver.
  - intros Hau. split_and!; [unfold follow_step; by rewrite Hau, Hn..|]. unfold is_authorized in Hau. bools. destruct H0 as [ticket Hk].
    destruct (connection_ticket_implies_allow _ _ _ _ _ _ _ Ha Hk)
      as (_ & Hperm & _ & Hpub & _ & Hip & _ & Hid & _).
    exists (redirect_intent plan dns (u8_saturating_add (rc_redirect_count c) 1)), ticket.
    by rewrite Hd.
  - intros Hau. unfold follow_step. rewrite Hau. unfold is_authorized in Hau.
    destruct (ca_ticket (rst_authorization step)) as [t|] eqn:Ht.
    + destruct (connection_ticket_implies_allow _ _ _ _ _ _ _ Ha Ht) as (Hal & _).
      rewrite !bool_decide_eq_true_2 in Hau by eauto. done.
    + destruct (outcome (ca_decision (rst_authorization step))); [by destruct Hmiss|done].
Qed.
End Properties.

(** ** A concrete chain *)

Definition plain_url_join : @UrlJoinLib plain_url :=
  @Build_UrlJoinLib plain_url
    (fun base location =>
       Ok {| plain_scheme := plain_scheme base; plain_username := []; plain_password := None;
             plain_host := plain_host base; plain_port := plain_port base; plain_path := location;
             plain_query := None; plain_fragment := None |})
    plain_path plain_query (fun u => bool_decide (is_Some (plain_host u))).
Definition toy_redirect_json : JsonLib (HashMaterial RedirectAuditEvent) := toy_json re_status.
Definition toy_decision_json : JsonLib GatewayDecision := {| to_vec d := Ok (decision_id d) |}.

Definition sample_snapshot : RedirectSessionSnapshot :=
  {| rs_session_id := "session-1"; rs_run_id := "run-1"; rs_worker_id := "worker-1";
     rs_account_id := "account-a"; rs_tenant_id := "tenant-a"; rs_role_id := "admin";
     rs_generation := 1 |}.

Section Sample.
Local Existing Instances plain_url plain_url_join toy_sha256 toy_audit_json toy_transport_json
  toy_redirect_json toy_decision_json.

Definition sample_request : RedirectRequestState :=
  {| rq_url := (plain_https "api.app.example.com" "/v1/me" : Url); rq_method := "GET";
     rq_body_sha256 := replicate 64 "0"%char; rq_body_bytes := 0; rq_session := sample_snapshot |}.
Definition sample_limits : RedirectLimits := {| rl_maximum_redirects := 8 |}.
Definition sample_chain : RedirectCoordinator :=
  {| rc_chain_id := "chain-1"; rc_limits := sample_limits; rc_transport := coordinator0;
     rc_current := sample_request;
     rc_seen_requests := {[ request_identity_hash (rq_url sample_request) (rq_method sample_request) ]};
     rc_used_dns_contexts := ∅; rc_redirect_count := 0; rc_terminal := false;
     rc_audit := redirect_audit_new "chain-1" (tail_hash (ta_chain (pc_audit coordinator0))) |}.
Definition sample_response : Http1Response :=
  {| hr_version := Http11; hr_status_code := 302; hr_reason := "Found";
     hr_headers := [{| hh_name := "location"; hh_value := "/login" |}]; hr_trailers := [];
     hr_body := []; hr_framing := NoBody; hr_interim_responses := 0 |}.
Definition sample_dns : RedirectDnsInput :=
  {| rd_resolved_ips := [google_dns]; rd_selected_ip := google_dns; rd_context_id := "navigation-2";
     rd_resolver_id := "system-resolver"; rd_ttl_seconds := 60 |}.
Definition sample_update : RedirectSessionUpdate :=
  {| ru_snapshot := sample_snapshot; ru_response_state_changed := false |}.
Definition sample_next : Run (Result RedirectStep RedirectError * RedirectCoordinator) :=
  authorize_next sample_response sample_dns sample_update 0 sample_chain.

Lemma sample_chain_new :
  redirect_new "chain-1" coordinator0 sample_request sample_limits = Ok sample_chain.
Proof. reflexivity. Qed.

(** The step that was authorised, with the state after it. *)
Lemma sample_step_authorised : exists step c,
  sample_next = Done (Ok step, c) /\ is_authorized step = true
  /\ step_request step = ("GET" : str, "https://api.app.example.com/login" : str).
Proof.
  assert (H : match sample_next with
              | Done (Ok step, _) =>
                  is_authorized step
                  && bool_decide (step_request step = ("GET" : str, "https://api.app.example.com/login" : str))
              | _ => false
              end = true) by (vm_compute; reflexivity).
  destruct sample_next as [[[step|e] c]|]; try discriminate H.
  apply andb_true_iff in H as [H1 H2]. apply bool_decide_eq_true in H2. eauto.
Qed.
End Sample.

(** ** Witnesses *)

Section Witnesses.
Local Existing Instances plain_url plain_url_join toy_sha256 toy_audit_json toy_transport_json
  toy_redirect_json toy_decision_json.

Lemma redirect_chain_is_bounded_witness : exists steps c,
  redirect_trace sample_chain steps c /\ len steps = 1 /\ len (followed steps) <= 8.
Proof.
  destruct sample_step_authorised as (step & c & Hn & Ha & _). exists [step], c.
  assert (Ht : redirect_trace sample_chain [step] c) by (eapply rtrace_step; [exact Hn | constructor]).
  split; [exact Ht|]. split; [reflexivity|].
  exact (proj1 (proj1 (redirect_chain_is_bounded _ _ _ _ _ _ _ sample_chain_new Ht))).
Defined.

Lemma redirect_step_is_safe_witness : exists step c,
  is_authorized step = true /\ identity_matches (rq_session (rc_current sample_chain)) sample_snapshot = true
  /\ (rd_context_id sample_dns ∈ rc_used_dns_contexts c).
Proof.
  destruct sample_step_authorised as (step & c & Hn & Ha & _). exists step, c.
  destruct (redirect_step_is_safe _ _ _ _ _ _ _ Hn) as (_ & _ & _ & _ & Hid & _ & Hused & _).
  split; [exact Ha|]. split; [exact Hid | exact Hused].
Defined.
End Witnesses.
