(* ===== verification/CookieJar.v ===== *)
(** * CookieJar: response cookies of a session ([crates/nxb-cookie-jar])

    The jar of a session: it parses the [Set-Cookie] fields of a response, stores
    the cookie values as vault secrets bound to the session, and keeps handles and
    metadata only. [apply_response] is a transaction over the jar and the vault.
    The theorems say what the strict parser accepts, that a cookie never widens
    the binding of its session, that a failed transaction changes neither the jar
    nor the stored secrets, and that the jar and the vault stay consistent. *)

From S2P Require Import Prelude ByteStr BTree IpAddr IpText HashChain HttpSyntax Vault SecretVault.
Local Open Scope N_scope.

(** ** Third-party code *)

(** [httpdate::parse_http_date]; a [SystemTime] is its distance from the epoch in
    nanoseconds. *)
Class HttpDateLib : Type := { parse_http_date : str -> option Z }.

(** ** Data *)

Definition MAX_SET_COOKIE_HEADER_BYTES : N := 8 * 1024.
Definition MAX_SET_COOKIE_HEADERS : N := 128.
Definition MAX_COOKIE_NAME_BYTES : N := 256.
Definition MAX_COOKIE_VALUE_BYTES : N := 4 * 1024.
Definition MAX_COOKIE_PATH_BYTES : N := 2 * 1024.
Definition MAX_COOKIE_LIFETIME_SECONDS : Z := 400 * 24 * 60 * 60.

Inductive CookieJarError : Type :=
  | JarInvalidConfig (message : str)
  | JarInvalidIdentifier (name : str)
  | InvalidOrigin
  | JarInvalidRequestTarget
  | SetCookieHeaderLimitExceeded
  | CookieRecordLimitExceeded
  | InvalidSetCookie (message : str)
  | DomainOutsideOrigin
  | PublicSuffixLikeDomain
  | DomainAttributeOnIpOrigin
  | SecureCookieOverInsecureOrigin
  | SameSiteNoneWithoutSecure
  | SecurePrefixViolation
  | HostPrefixViolation
  | OriginOutsideBinding
  | CookieScopeEmpty
  | VaultCookieMetadataMismatch
  | RollbackFailed (message : str)
  | CommitInvariant (message : str)
  | JarAuditSerialization (message : str)
  | JarAuditSequenceMismatch (record_index : N)
  | JarAuditPreviousHashMismatch (record_index : N)
  | JarAuditRecordHashMismatch (record_index : N)
  | JarAuditTailMismatch
  | JarVault (error : VaultError).

Record CookieJarConfig : Type := {
  maximum_set_cookie_headers : N;
  maximum_cookie_records : N;
  rotation_cookie_names : gset str
}.

Record CookieOrigin : Type := { co_host : str; co_scheme : str }.

Record CookieKey : Type := { key_name : str; key_domain : str; key_path : str }.

#[export] Instance CookieKey_eq_dec : EqDecision CookieKey.
Proof. solve_decision. Defined.
#[export] Instance CookieKey_countable : Countable CookieKey.
Proof.
  apply (inj_countable' (fun k => (key_name k, key_domain k, key_path k))
           (fun '(n, d, p) => {| key_name := n; key_domain := d; key_path := p |})).
  by intros [].
Defined.
(** The derived order: by name, then domain, then path. *)
#[export] Instance CookieKey_ord : Ord CookieKey.
Proof.
  apply (ord_via (fun k => (key_name k, (key_domain k, key_path k)))).
  intros [] [] ?. cbn in *. by simplify_eq.
Defined.

Record CookieRecord : Type := {
  cr_key : CookieKey;
  cr_handle : SecretHandle;
  cr_host_only : bool;
  cr_secure : bool;
  cr_http_only : bool;
  cr_same_site : SameSitePolicy;
  cr_expires_at_epoch_seconds : option Z;
  cr_value_sha256 : option str;
  cr_generation : N
}.

Record CookieCommit : Type := {
  cm_transaction_id : str;
  cm_generation_before : N;
  cm_generation_after : N;
  cm_inserted : N;
  cm_replaced : N;
  cm_deleted : N;
  cm_ignored_deletions : N;
  cm_superseded_headers : N;
  cm_rotation_detected : bool;
  cm_active_handles : list SecretHandle;
  cm_audit_tail : str
}.

Record CookieJarAuditEvent : Type := {
  je_action : str;
  je_outcome : str;
  je_jar_id : str;
  je_transaction_id : option str;
  je_generation_before : N;
  je_generation_after : N;
  je_inserted : N;
  je_replaced : N;
  je_deleted : N;
  je_ignored_deletions : N;
  je_superseded_headers : N;
  je_rotation_detected : bool;
  je_origin_host : option str;
  je_origin_scheme : option str;
  je_mutated_key_sha256 : list str;
  je_vault_audit_before : str;
  je_vault_audit_after : str
}.

Record CookieJar : Type := {
  jar_id : str;
  jar_config : CookieJarConfig;
  jar_records : gmap CookieKey CookieRecord;
  jar_generation : N;
  jar_next_transaction_id : N;
  jar_audit : HashChain CookieJarAuditEvent
}.

Record ParsedSetCookie : Type := {
  ps_name : str;
  ps_value : str;
  ps_domain : str;
  ps_path : str;
  ps_host_only : bool;
  ps_expires_at_epoch_seconds : option Z;
  ps_secure : bool;
  ps_http_only : bool;
  ps_same_site : SameSitePolicy;
  ps_delete : bool;
  ps_value_sha256 : str
}.

Inductive CookieMutation : Type :=
  | SetCookie (parsed : ParsedSetCookie)
  | DeleteCookie.

Definition parsed_key (self : ParsedSetCookie) : CookieKey :=
  {| key_name := ps_name self; key_domain := ps_domain self; key_path := ps_path self |}.

Definition mutation_from_parsed (parsed : ParsedSetCookie) : CookieMutation :=
  if ps_delete parsed then DeleteCookie else SetCookie parsed.

Definition is_set (self : CookieMutation) : bool :=
  match self with SetCookie _ => true | DeleteCookie => false end.

#[export] Instance SameSitePolicy_eq_dec : EqDecision SameSitePolicy.
Proof. solve_decision. Defined.

(** [error.to_string()] of a vault error. *)
Definition vault_error_message (e : VaultError) : str :=
  match e with
  | InvalidIdentifier name => ("vault identifier is invalid: " : str) ++ name
  | InvalidSecretSize => "secret value size is outside the supported range"
  | VaultInvalidBinding m => ("secret binding is invalid: " : str) ++ m
  | InvalidDelivery m => ("secret delivery is invalid: " : str) ++ m
  | UnknownSecret => "secret is unknown or has been revoked"
  | SecretExpired => "secret is expired"
  | VaultAccessDenied => "secret access context does not match its binding"
  | InvalidLeaseSize => "secret lease size is outside the supported range"
  | InvalidLeaseDuration => "secret lease duration is outside the supported range"
  | UnknownLease => "secret lease is unknown"
  | LeaseConsumed => "secret lease has already been consumed"
  | LeaseExpired => "secret lease has expired"
  | LeaseRevoked => "secret lease has been revoked"
  | LeaseContextMismatch => "secret lease context does not match"
  | HeaderLeaseConsumed => "secret header lease has already been consumed"
  | HeaderLeaseBindingMismatch => "secret header lease does not match stream authority"
  | HeaderBatchConsumed => "secret header batch has already been emitted"
  | InvalidHeaderName => "HTTP header name is invalid"
  | InvalidHeaderValue => "HTTP header value is invalid"
  | InvalidRequestTarget => "request target is invalid for cookie selection"
  | AuditSerialization m => ("vault audit material could not be serialized: " : str) ++ m
  | AuditSequenceMismatch i => ("vault audit sequence mismatch at record " : str) ++ decimal i
  | AuditPreviousHashMismatch i => ("vault audit previous hash mismatch at record " : str) ++ decimal i
  | AuditRecordHashMismatch i => ("vault audit record hash mismatch at record " : str) ++ decimal i
  | AuditTailMismatch => "vault audit tail hash mismatch"
  end.

(** ** Validation and normalisation *)

Definition jar_validate_identifier (value name : str) : Result unit CookieJarError :=
  if (len value =? 0) || (256 <? len value)
     || negb (forallb (fun c => is_ascii_alphanumeric c
                || (is_byte 45 c || is_byte 95 c || is_byte 46 c || is_byte 58 c)) value)
  then Err (JarInvalidIdentifier name) else Ok tt.

Definition validate_cookie_name (name : str) : Result unit CookieJarError :=
  if (len name =? 0) || (MAX_COOKIE_NAME_BYTES <? len name) || negb (forallb is_token_byte name)
  then Err (InvalidSetCookie "cookie name is not a bounded token") else Ok tt.

Definition is_cookie_octet (c : byte) : bool :=
  is_byte 33 c || in_range 35 43 c || in_range 45 58 c || in_range 60 91 c || in_range 93 126 c.

Definition validate_cookie_value (value : str) : Result unit CookieJarError :=
  if (MAX_COOKIE_VALUE_BYTES <? len value) || negb (forallb is_cookie_octet value)
  then Err (InvalidSetCookie "cookie value contains unsupported bytes") else Ok tt.

Definition normalize_rotation_name (value : str) : Result str CookieJarError :=
  let? _ := validate_cookie_name value in Ok (to_ascii_lowercase value).

Definition jar_conservative_default : CookieJarConfig :=
  {| maximum_set_cookie_headers := 64; maximum_cookie_records := 512;
     rotation_cookie_names := list_to_set (list_ascii_of_string <$>
       ["session"; "sessionid"; "sid"; "auth"; "auth_token"; "access_token"; "jwt"]) |}.

Definition jar_config_validate (self : CookieJarConfig) : Result CookieJarConfig CookieJarError :=
  if (maximum_set_cookie_headers self =? 0) || (MAX_SET_COOKIE_HEADERS <? maximum_set_cookie_headers self)
  then Err (JarInvalidConfig "set-cookie header limit is outside the supported range")
  else if (maximum_cookie_records self =? 0) || (16384 <? maximum_cookie_records self)
  then Err (JarInvalidConfig "cookie record limit is outside the supported range")
  else
    let? names := collect_results normalize_rotation_name (btree_iter (rotation_cookie_names self)) in
    Ok {| maximum_set_cookie_headers := maximum_set_cookie_headers self;
          maximum_cookie_records := maximum_cookie_records self;
          rotation_cookie_names := list_to_set names |}.

Definition jar_normalize_host (host : str) : Result str CookieJarError :=
  let normalized := to_ascii_lowercase (trim_end_matches (is_byte 46) (trim host)) in
  if (len normalized =? 0) || (253 <? len normalized)
     || starts_with normalized "." || ends_with normalized "." || contains_str normalized ".."
     || existsb (fun c => is_ascii_control c || is_byte 32 c) normalized
  then Err InvalidOrigin else Ok normalized.

Definition jar_normalize_scheme (scheme : str) : Result str CookieJarError :=
  let normalized := to_ascii_lowercase (trim scheme) in
  if bool_decide (normalized = "http") || bool_decide (normalized = "https")
  then Ok normalized else Err InvalidOrigin.

(** The host part of [authority]: without brackets and without a port. *)
Definition authority_host (authority : str) : Result str CookieJarError :=
  match strip_prefix authority "[" with
  | Some rest =>
      match position (is_byte 93) rest with
      | None => Err InvalidOrigin
      | Some closing =>
          let suffix := drop (N.to_nat closing + 1) rest in
          if negb (bool_decide (suffix = []))
             && (negb (starts_with suffix ":") || bool_decide (drop 1 suffix = [])
                 || negb (forallb is_ascii_digit (drop 1 suffix)))
          then Err InvalidOrigin
          else Ok (take (N.to_nat closing) rest)
      end
  | None =>
      match split_byte 58 authority with
      | [candidate; port] =>
          if negb (bool_decide (port = [])) && forallb is_ascii_digit port then Ok candidate
          else Ok authority
      | _ => Ok authority
      end
  end.

Definition normalize_authority_host (authority : str) : Result str CookieJarError :=
  let authority := trim authority in
  if (len authority =? 0) || contains_byte 64 authority || contains_byte 47 authority
     || contains_byte 92 authority
  then Err InvalidOrigin
  else let? host := authority_host authority in jar_normalize_host host.

Definition cookie_origin_new (authority scheme : str) : Result CookieOrigin CookieJarError :=
  let? host := normalize_authority_host authority in
  let? scheme := jar_normalize_scheme scheme in
  Ok {| co_host := host; co_scheme := scheme |}.

Definition normalize_domain_attribute (value : str) : Result str CookieJarError :=
  if negb (from_utf8_ok value) then Err (InvalidSetCookie "domain is not ASCII")
  else
    let text := drop_while (is_byte 46) (trim value) in
    if ends_with text "." then Err (InvalidSetCookie "domain must not have a trailing dot")
    else jar_normalize_host text.

Definition normalize_cookie_path (path : str) : Result str CookieJarError :=
  if (len path =? 0) || negb (starts_with path "/") || (MAX_COOKIE_PATH_BYTES <? len path)
     || existsb (fun c => is_ascii_control c || is_byte 59 c) path
  then Err (InvalidSetCookie "cookie path is invalid") else Ok path.

Definition jar_validate_request_target (target : str) : Result unit CookieJarError :=
  if (len target =? 0) || (8 * 1024 <? len target) || negb (starts_with target "/")
     || contains_byte 35 target || existsb (fun c => is_ascii_control c || is_byte 32 c) target
  then Err JarInvalidRequestTarget else Ok tt.

Definition validate_binding_identity (binding : SecretBinding) : Result unit CookieJarError :=
  let? _ := jar_validate_identifier (sb_run_id binding) "run_id" in
  let? _ := jar_validate_identifier (sb_worker_id binding) "worker_id" in
  let? _ := jar_validate_identifier (sb_account_id binding) "account_id" in
  let? _ := jar_validate_identifier (sb_tenant_id binding) "tenant_id" in
  let? _ := jar_validate_identifier (sb_role_id binding) "role_id" in
  if bool_decide (sb_allowed_hosts binding = ∅) || bool_decide (sb_allowed_schemes binding = ∅)
  then Err OriginOutsideBinding else Ok tt.

Definition is_public_suffix_like (domain : str) : bool :=
  negb (contains_byte 46 domain)
  || existsb (fun denied => bool_decide (domain = list_ascii_of_string denied))
       ["com"; "net"; "org"; "edu"; "gov"; "mil"; "int"; "io"; "dev"; "app"; "co.uk"; "org.uk";
        "ac.uk"; "gov.uk"; "com.tr"; "org.tr"; "net.tr"; "gen.tr"; "biz.tr"; "info.tr"; "web.tr";
        "com.au"; "net.au"; "org.au"; "co.jp"; "ne.jp"; "co.nz"].

(** [trim_ascii]: spaces and tabs at both ends. *)
Definition is_space_or_tab (c : byte) : bool := is_byte 32 c || is_byte 9 c.
Definition trim_ascii (value : str) : str :=
  trim_end_matches is_space_or_tab (drop_while is_space_or_tab value).

(** [path.rfind('/')]. *)
Definition rfind_byte (n : N) (s : str) : option N :=
  match position (is_byte n) (reverse s) with
  | Some i => Some (len s - 1 - i)
  | None => None
  end.

Definition default_cookie_path (request_target : str) : str :=
  let path := default ("/" : str) (head (split_byte 63 request_target)) in
  if negb (starts_with path "/") || bool_decide (path = "/") then "/"
  else match rfind_byte 47 path with
       | None => "/"
       | Some 0 => "/"
       | Some index => take (N.to_nat index) path
       end.

Definition required_attribute_value (value : option str) (name : str) : Result str CookieJarError :=
  match value with
  | None => Err (InvalidSetCookie (name ++ (" requires a value" : str)))
  | Some [] => Err (InvalidSetCookie (name ++ (" value is empty" : str)))
  | Some value => Ok value
  end.

(** [text.parse::<i64>()] of an optional minus sign and digits. *)
Definition parse_i64 (text : str) : option Z :=
  let '(negative, digits) :=
    match strip_prefix text "-" with Some rest => (true, rest) | None => (false, text) end in
  if bool_decide (digits = []) || negb (forallb is_ascii_digit digits) then None
  else
    let value := if negative : bool then (- Z.of_N (decimal_value digits))%Z else Z.of_N (decimal_value digits) in
    if (i64_min <=? value)%Z && (value <=? i64_max)%Z then Some value else None.

Definition parse_max_age (value : str) : Result Z CookieJarError :=
  if negb (from_utf8_ok value) then Err (InvalidSetCookie "Max-Age is not ASCII")
  else if starts_with value "+" || bool_decide (value = [])
          || negb (match value with
                   | [] => true
                   | c :: rest => (is_ascii_digit c || is_byte 45 c) && forallb is_ascii_digit rest
                   end)
  then Err (InvalidSetCookie "Max-Age is not a strict decimal integer")
  else match parse_i64 value with
       | Some n => Ok n
       | None => Err (InvalidSetCookie "Max-Age is out of range")
       end.

Definition system_time_to_epoch (nanoseconds : Z) : Z :=
  if (0 <=? nanoseconds)%Z then Z.min (nanoseconds / 1000000000) i64_max
  else (- Z.min ((- nanoseconds) / 1000000000) i64_max)%Z.

(** ** The [Set-Cookie] parser *)

(** The attributes read so far. *)
Record CookieAttributes : Type := {
  attr_seen : gset str;
  attr_domain : option str;
  attr_path : option str;
  attr_max_age : option Z;
  attr_expires : option Z;
  attr_secure : bool;
  attr_http_only : bool;
  attr_same_site : SameSitePolicy
}.

Definition no_attributes : CookieAttributes :=
  {| attr_seen := ∅; attr_domain := None; attr_path := None; attr_max_age := None;
     attr_expires := None; attr_secure := false; attr_http_only := false;
     attr_same_site := SameSiteUnspecified |}.

Section Jar.
Context {D : HttpDateLib} {S : Sha256Lib}.

(** One attribute segment: the match of the loop body. *)
Definition parse_attribute (raw_segment : str) (a : CookieAttributes)
    : Result CookieAttributes CookieJarError :=
  let segment := trim_ascii raw_segment in
  if bool_decide (segment = []) then Err (InvalidSetCookie "empty attribute segment is prohibited")
  else
    let '(raw_name, raw_value) :=
      match position (is_byte 61) segment with
      | Some index => (take (N.to_nat index) segment,
                       Some (trim_ascii (drop (N.to_nat index + 1) segment)))
      | None => (segment, None)
      end in
    if negb (from_utf8_ok (trim_ascii raw_name))
    then Err (InvalidSetCookie "attribute name is not ASCII")
    else
      let attribute_name := to_ascii_lowercase (trim_ascii raw_name) in
      if bool_decide (attribute_name ∈ attr_seen a)
      then Err (InvalidSetCookie (("duplicate attribute: " : str) ++ attribute_name))
      else
        let seen := {[ attribute_name ]} ∪ attr_seen a in
        if bool_decide (attribute_name = "domain") then
          let? value := required_attribute_value raw_value "domain" in
          let? domain := normalize_domain_attribute value in
          Ok {| attr_seen := seen; attr_domain := Some domain; attr_path := attr_path a;
                attr_max_age := attr_max_age a; attr_expires := attr_expires a;
                attr_secure := attr_secure a; attr_http_only := attr_http_only a;
                attr_same_site := attr_same_site a |}
        else if bool_decide (attribute_name = "path") then
          let? value := required_attribute_value raw_value "path" in
          if negb (from_utf8_ok value) then Err (InvalidSetCookie "path is not valid UTF-8") else
          let? path := normalize_cookie_path value in
          Ok {| attr_seen := seen; attr_domain := attr_domain a; attr_path := Some path;
                attr_max_age := attr_max_age a; attr_expires := attr_expires a;
                attr_secure := attr_secure a; attr_http_only := attr_http_only a;
                attr_same_site := attr_same_site a |}
        else if bool_decide (attribute_name = "max-age") then
          let? value := required_attribute_value raw_value "max-age" in
          let? max_age := parse_max_age value in
          Ok {| attr_seen := seen; attr_domain := attr_domain a; attr_path := attr_path a;
                attr_max_age := Some max_age; attr_expires := attr_expires a;
                attr_secure := attr_secure a; attr_http_only := attr_http_only a;
                attr_same_site := attr_same_site a |}
        else if bool_decide (attribute_name = "expires") then
          let? value := required_attribute_value raw_value "expires" in
          if negb (from_utf8_ok value) then Err (InvalidSetCookie "expires is not valid ASCII") else
          match parse_http_date value with
          | None => Err (InvalidSetCookie "expires is not a valid HTTP date")
          | Some parsed =>
              Ok {| attr_seen := seen; attr_domain := attr_domain a; attr_path := attr_path a;
                    attr_max_age := attr_max_age a;
                    attr_expires := Some (system_time_to_epoch parsed);
                    attr_secure := attr_secure a; attr_http_only := attr_http_only a;
                    attr_same_site := attr_same_site a |}
          end
        else if bool_decide (attribute_name = "secure") then
          if bool_decide (is_Some raw_value) then Err (InvalidSetCookie "Secure must not have a value")
          else
          Ok {| attr_seen := seen; attr_domain := attr_domain a; attr_path := attr_path a;
                attr_max_age := attr_max_age a; attr_expires := attr_expires a;
                attr_secure := true; attr_http_only := attr_http_only a;
                attr_same_site := attr_same_site a |}
        else if bool_decide (attribute_name = "httponly") then
          if bool_decide (is_Some raw_value) then Err (InvalidSetCookie "HttpOnly must not have a value")
          else
          Ok {| attr_seen := seen; attr_domain := attr_domain a; attr_path := attr_path a;
                attr_max_age := attr_max_age a; attr_expires := attr_expires a;
                attr_secure := attr_secure a; attr_http_only := true;
                attr_same_site := attr_same_site a |}
        else if bool_decide (attribute_name = "samesite") then
          let? value := required_attribute_value raw_value "samesite" in
          if negb (from_utf8_ok value) then Err (InvalidSetCookie "SameSite is invalid") else
          let text := to_ascii_lowercase value in
          let? same_site :=
            if bool_decide (text = "strict") then Ok SameSiteStrict
            else if bool_decide (text = "lax") then Ok SameSiteLax
            else if bool_decide (text = "none") then Ok SameSiteNone
            else Err (InvalidSetCookie "SameSite value is unsupported") in
          Ok {| attr_seen := seen; attr_domain := attr_domain a; attr_path := attr_path a;
                attr_max_age := attr_max_age a; attr_expires := attr_expires a;
                attr_secure := attr_secure a; attr_http_only := attr_http_only a;
                attr_same_site := same_site |}
        else Err (InvalidSetCookie (("unsupported attribute: " : str) ++ attribute_name)).

Fixpoint parse_attributes (segments : list str) (a : CookieAttributes)
    : Result CookieAttributes CookieJarError :=
  match segments with
  | [] => Ok a
  | segment :: rest => let? a := parse_attribute segment a in parse_attributes rest a
  end.

(** The domain of the cookie and whether it is host-only. *)
Definition cookie_domain (origin : CookieOrigin) (domain_attribute : option str)
    : Result (str * bool) CookieJarError :=
  match domain_attribute with
  | None => Ok (co_host origin, true)
  | Some domain =>
      if bool_decide (is_Some (parse_ip_addr (co_host origin))) || bool_decide (is_Some (parse_ip_addr domain))
      then Err DomainAttributeOnIpOrigin
      else if is_public_suffix_like domain then Err PublicSuffixLikeDomain
      else if negb (domain_matches (co_host origin) domain) then Err DomainOutsideOrigin
      else Ok (domain, false)
  end.

(** The expiry of the cookie and whether it deletes; [Max-Age] wins. *)
Definition cookie_expiry (max_age expires : option Z) (now_epoch_seconds : Z) : option Z * bool :=
  match max_age with
  | Some max_age =>
      if (max_age <=? 0)%Z then (Some now_epoch_seconds, true)
      else (Some (i64_saturating_add now_epoch_seconds (Z.min max_age MAX_COOKIE_LIFETIME_SECONDS)), false)
  | None =>
      match expires with
      | Some expires => (Some expires, (expires <=? now_epoch_seconds)%Z)
      | None => (None, false)
      end
  end.

Definition parse_set_cookie (header : str) (origin : CookieOrigin) (request_target : str)
    (now_epoch_seconds : Z) : Result ParsedSetCookie CookieJarError :=
  if (len header =? 0) || (MAX_SET_COOKIE_HEADER_BYTES <? len header)
  then Err (InvalidSetCookie "header size is outside the supported range")
  else if existsb (fun c => is_byte 13 c || is_byte 10 c || is_byte 0 c) header
  then Err (InvalidSetCookie "header contains a prohibited control byte")
  else
    let segments := split_byte 59 header in
    let pair := trim_ascii (default [] (head segments)) in
    match position (is_byte 61) pair with
    | None => Err (InvalidSetCookie "cookie pair does not contain '='")
    | Some equals =>
        let name := trim_ascii (take (N.to_nat equals) pair) in
        let value := trim_ascii (drop (N.to_nat equals + 1) pair) in
        if negb (from_utf8_ok name) then Err (InvalidSetCookie "cookie name is not ASCII") else
        let? _ := validate_cookie_name name in
        let? _ := validate_cookie_value value in
        let? a := parse_attributes (tail segments) no_attributes in
        let insecure := bool_decide (co_scheme origin <> "https") in
        if attr_secure a && insecure then Err SecureCookieOverInsecureOrigin
        else if bool_decide (attr_same_site a = SameSiteNone) && negb (attr_secure a)
        then Err SameSiteNoneWithoutSecure
        else
          let? (domain, host_only) := cookie_domain origin (attr_domain a) in
          let path := default (default_cookie_path request_target) (attr_path a) in
          if starts_with name "__Secure-" && (negb (attr_secure a) || insecure)
          then Err SecurePrefixViolation
          else if starts_with name "__Host-"
                  && (negb (attr_secure a) || insecure || negb host_only || bool_decide (path <> "/"))
          then Err HostPrefixViolation
          else
            let '(expires_at, delete) :=
              cookie_expiry (attr_max_age a) (attr_expires a) now_epoch_seconds in
            Ok {| ps_name := name; ps_value := value; ps_domain := domain; ps_path := path;
                  ps_host_only := host_only; ps_expires_at_epoch_seconds := expires_at;
                  ps_secure := attr_secure a; ps_http_only := attr_http_only a;
                  ps_same_site := attr_same_site a; ps_delete := delete;
                  ps_value_sha256 := to_lower_hex (sha256 value) |}
    end.

(** ** The jar's operations *)

Context {J : JsonLib (HashMaterial VaultAuditEvent)} {JC : JsonLib (HashMaterial CookieJarAuditEvent)}
  {JK : JsonLib CookieKey}.

Definition jar_chain_error (e : ChainError) : CookieJarError :=
  match e with
  | InvalidGenesisHash => JarAuditTailMismatch
  | Serialization message => JarAuditSerialization message
  | SequenceMismatch i => JarAuditSequenceMismatch i
  | PreviousHashMismatch i => JarAuditPreviousHashMismatch i
  | RecordHashMismatch i => JarAuditRecordHashMismatch i
  | TailHashMismatch => JarAuditTailMismatch
  end.

Definition jar_audit_new (jar_id : str) : HashChain CookieJarAuditEvent :=
  chain_new (to_lower_hex (sha256 (("nxb-cookie-jar:" : str) ++ jar_id))).

(** [append] returns the new record's hash. *)
Definition jar_audit_append (event : CookieJarAuditEvent) (chain : HashChain CookieJarAuditEvent)
    : Result str CookieJarError * HashChain CookieJarAuditEvent :=
  match chain_append event chain with
  | (Ok record, chain) => (Ok (record_hash record), chain)
  | (Err e, chain) => (Err (jar_chain_error e), chain)
  end.

Definition jar_audit_verify (chain : HashChain CookieJarAuditEvent) : Result unit CookieJarError :=
  map_err jar_chain_error (chain_verify chain).

Definition jar_new (jar_id : str) (config : CookieJarConfig) : Result CookieJar CookieJarError :=
  let? _ := jar_validate_identifier jar_id "jar_id" in
  let? config := jar_config_validate config in
  Ok {| jar_id := jar_id; jar_config := config; jar_records := ∅; jar_generation := 1;
        jar_next_transaction_id := 1; jar_audit := jar_audit_new jar_id |}.

Definition active_handles (self : CookieJar) : list SecretHandle :=
  cr_handle <$> map_values (jar_records self).

Definition with_records (records : gmap CookieKey CookieRecord) (self : CookieJar) : CookieJar :=
  {| jar_id := jar_id self; jar_config := jar_config self; jar_records := records;
     jar_generation := jar_generation self; jar_next_transaction_id := jar_next_transaction_id self;
     jar_audit := jar_audit self |}.

(** The record of a seeded cookie. *)
Definition seeded_record (generation : N) (handle : SecretHandle) (metadata : SecretMetadata)
    (cookie : CookieMetadata) : Result CookieRecord CookieJarError :=
  let? domain := jar_normalize_host (ck_domain cookie) in
  let? path := normalize_cookie_path (ck_path cookie) in
  let hosts := sb_allowed_hosts (md_binding metadata) in
  Ok {| cr_key := {| key_name := ck_name cookie; key_domain := domain; key_path := path |};
        cr_handle := handle;
        cr_host_only := (size hosts =? 1)%nat && bool_decide (domain ∈ hosts);
        cr_secure := ck_secure cookie; cr_http_only := ck_http_only cookie;
        cr_same_site := ck_same_site cookie;
        cr_expires_at_epoch_seconds := ck_expires_at_epoch_seconds cookie;
        cr_value_sha256 := None; cr_generation := generation |}.

Definition kind_is_cookie (k : SecretKind) : bool := match k with KCookie => true | _ => false end.

(** The loop of [seed_from_vault]: the records up to the first error. *)
Fixpoint seed_handles (vault : InMemorySecretVault) (generation : N) (handles : list SecretHandle)
    (records : gmap CookieKey CookieRecord)
    : Result unit CookieJarError * gmap CookieKey CookieRecord :=
  match handles with
  | [] => (Ok tt, records)
  | handle :: rest =>
      match vault_metadata handle vault with
      | Err e => (Err (JarVault e), records)
      | Ok metadata =>
          if negb (kind_is_cookie (md_kind metadata)) then seed_handles vault generation rest records
          else match md_delivery metadata with
          | HeaderDelivery _ _ => (Err VaultCookieMetadataMismatch, records)
          | CookieDelivery cookie =>
              match seeded_record generation handle metadata cookie with
              | Err e => (Err e, records)
              | Ok record => seed_handles vault generation rest (<[cr_key record := record]> records)
              end
          end
      end
  end.

Definition seed_from_vault (handles : list SecretHandle) (vault : InMemorySecretVault) (self : CookieJar)
    : Result unit CookieJarError * CookieJar :=
  match seed_handles vault (jar_generation self) handles (jar_records self) with
  | (Err e, records) => (Err e, with_records records self)
  | (Ok _, records) =>
      if maximum_cookie_records (jar_config self) <? N.of_nat (size records)
      then (Err CookieRecordLimitExceeded, with_records records self)
      else (Ok tt, with_records records self)
  end.

(** *** The transaction of [apply_response] *)

(** Parsing every field; the last field for a key wins. *)
Fixpoint parse_mutations (origin : CookieOrigin) (request_target : str) (now_epoch_seconds : Z)
    (headers : list str) (mutations : gmap CookieKey CookieMutation) (superseded : N)
    : Result (gmap CookieKey CookieMutation * N) CookieJarError :=
  match headers with
  | [] => Ok (mutations, superseded)
  | header :: rest =>
      let? parsed := parse_set_cookie header origin request_target now_epoch_seconds in
      let key := parsed_key parsed in
      parse_mutations origin request_target now_epoch_seconds rest
        (<[key := mutation_from_parsed parsed]> mutations)
        (if bool_decide (is_Some (mutations !! key)) then saturating_add superseded 1 else superseded)
  end.

Definition prospective_count (records : gmap CookieKey CookieRecord)
    (mutations : gmap CookieKey CookieMutation) : N :=
  let present key := bool_decide (is_Some (records !! key)) in
  N.of_nat (size records)
  + len (List.filter (fun '(key, m) => is_set m && negb (present key)) (map_iter mutations))
  - len (List.filter (fun '(key, m) => negb (is_set m) && present key) (map_iter mutations)).

Definition allowed_hosts_for_cookie (binding : SecretBinding) (origin : CookieOrigin)
    (cookie : ParsedSetCookie) : Result (gset str) CookieJarError :=
  let allowed_hosts : gset str :=
    if ps_host_only cookie then {[ co_host origin ]}
    else filter (fun host => domain_matches host (ps_domain cookie) = true) (sb_allowed_hosts binding) in
  if bool_decide (allowed_hosts = ∅) then Err CookieScopeEmpty else Ok allowed_hosts.

Fixpoint rollback_handles (handles : list SecretHandle) (vault : InMemorySecretVault)
    : Result unit CookieJarError * InMemorySecretVault :=
  match handles with
  | [] => (Ok tt, vault)
  | handle :: rest =>
      match revoke_secret handle vault with
      | (Err e, vault) => (Err (RollbackFailed (vault_error_message e)), vault)
      | (Ok _, vault) => rollback_handles rest vault
      end
  end.

Definition rollback_staged (staged : gmap CookieKey CookieRecord) (vault : InMemorySecretVault)
    : Result unit CookieJarError * InMemorySecretVault :=
  rollback_handles (cr_handle <$> map_values staged) vault.

(** [rollback_staged(..)?; return Err(error)]. *)
Definition fail_after_rollback {A} (staged : gmap CookieKey CookieRecord) (error : CookieJarError)
    (vault : InMemorySecretVault) : Result A CookieJarError * InMemorySecretVault :=
  match rollback_staged staged vault with
  | (Err e, vault) => (Err e, vault)
  | (Ok _, vault) => (Err error, vault)
  end.

(** The schemes of the session a cookie may be sent over. *)
Definition cookie_schemes (binding : SecretBinding) (parsed : ParsedSetCookie) : gset str :=
  if ps_secure parsed then filter (fun scheme => scheme = ("https" : str)) (sb_allowed_schemes binding)
  else sb_allowed_schemes binding.

Definition cookie_secret_input (binding : SecretBinding) (hosts schemes : gset str)
    (parsed : ParsedSetCookie) : SecretInput :=
  {| in_kind := KCookie; in_value := ps_value parsed;
     in_binding := {| sb_run_id := sb_run_id binding; sb_worker_id := sb_worker_id binding;
                      sb_account_id := sb_account_id binding; sb_tenant_id := sb_tenant_id binding;
                      sb_role_id := sb_role_id binding;
                      sb_allowed_hosts := hosts; sb_allowed_schemes := schemes |};
     in_delivery := DeliverCookie
       {| ck_name := ps_name parsed; ck_domain := ps_domain parsed; ck_path := ps_path parsed;
          ck_expires_at_epoch_seconds := ps_expires_at_epoch_seconds parsed;
          ck_secure := ps_secure parsed; ck_http_only := ps_http_only parsed;
          ck_same_site := ps_same_site parsed |};
     in_expires_at_epoch_seconds := ps_expires_at_epoch_seconds parsed |}.

Definition staged_record (generation : N) (key : CookieKey) (handle : SecretHandle)
    (parsed : ParsedSetCookie) : CookieRecord :=
  {| cr_key := key; cr_handle := handle; cr_host_only := ps_host_only parsed;
     cr_secure := ps_secure parsed; cr_http_only := ps_http_only parsed;
     cr_same_site := ps_same_site parsed;
     cr_expires_at_epoch_seconds := ps_expires_at_epoch_seconds parsed;
     cr_value_sha256 := Some (ps_value_sha256 parsed); cr_generation := generation |}.

(** Inserting the new values; the staged records on success. *)
Fixpoint stage_cookies (binding : SecretBinding) (origin : CookieOrigin) (now_epoch_seconds : Z)
    (generation : N) (mutations : list (CookieKey * CookieMutation))
    (staged : gmap CookieKey CookieRecord) (vault : InMemorySecretVault)
    : Result (gmap CookieKey CookieRecord) CookieJarError * InMemorySecretVault :=
  match mutations with
  | [] => (Ok staged, vault)
  | (_, DeleteCookie) :: rest => stage_cookies binding origin now_epoch_seconds generation rest staged vault
  | (key, SetCookie parsed) :: rest =>
      match allowed_hosts_for_cookie binding origin parsed with
      | Err e => (Err e, vault)
      | Ok hosts =>
          let schemes := cookie_schemes binding parsed in
          if bool_decide (schemes = ∅) then fail_after_rollback staged CookieScopeEmpty vault
          else
            match vault_insert (cookie_secret_input binding hosts schemes parsed) now_epoch_seconds vault with
            | (Err e, vault) => fail_after_rollback staged (JarVault e) vault
            | (Ok handle, vault) =>
                stage_cookies binding origin now_epoch_seconds generation rest
                  (<[key := staged_record generation key handle parsed]> staged) vault
            end
      end
  end.

(** Revoking the values that are replaced or deleted. *)
Fixpoint revoke_old (staged : gmap CookieKey CookieRecord) (old_handles : list SecretHandle)
    (vault : InMemorySecretVault) : Result unit CookieJarError * InMemorySecretVault :=
  match old_handles with
  | [] => (Ok tt, vault)
  | handle :: rest =>
      match revoke_secret handle vault with
      | (Err e, vault) => fail_after_rollback staged (CommitInvariant (vault_error_message e)) vault
      | (Ok _, vault) => revoke_old staged rest vault
      end
  end.

(** The commit loop's variables. *)
Record CommitState : Type := {
  cs_records : gmap CookieKey CookieRecord;
  cs_staged : gmap CookieKey CookieRecord;
  cs_inserted : N;
  cs_replaced : N;
  cs_deleted : N;
  cs_ignored : N;
  cs_rotation : bool;
  cs_key_hashes : list str
}.

Definition cookie_key_hash (key : CookieKey) : Run str :=
  match to_vec key with
  | Ok bytes => Done (to_lower_hex (sha256 bytes))
  | Err _ => Panic "cookie keys are always serializable"
  end.

Definition set_record_generation (generation : N) (r : CookieRecord) : CookieRecord :=
  {| cr_key := cr_key r; cr_handle := cr_handle r; cr_host_only := cr_host_only r;
     cr_secure := cr_secure r; cr_http_only := cr_http_only r; cr_same_site := cr_same_site r;
     cr_expires_at_epoch_seconds := cr_expires_at_epoch_seconds r;
     cr_value_sha256 := cr_value_sha256 r; cr_generation := generation |}.

(** One mutation of the commit; the variables also on an error. *)
Definition commit_mutation (config : CookieJarConfig) (generation_before : N) (key : CookieKey)
    (key_hash : str) (mutation : CookieMutation) (s : CommitState)
    : Result unit CookieJarError * CommitState :=
  let previous := cs_records s !! key in
  let removed := delete key (cs_records s) in
  let hashes := cs_key_hashes s ++ [key_hash] in
  match mutation with
  | DeleteCookie =>
      (Ok tt,
       match previous with
       | Some _ =>
           {| cs_records := removed; cs_staged := cs_staged s; cs_inserted := cs_inserted s;
              cs_replaced := cs_replaced s; cs_deleted := saturating_add (cs_deleted s) 1;
              cs_ignored := cs_ignored s; cs_rotation := true; cs_key_hashes := hashes |}
       | None =>
           {| cs_records := removed; cs_staged := cs_staged s; cs_inserted := cs_inserted s;
              cs_replaced := cs_replaced s; cs_deleted := cs_deleted s;
              cs_ignored := saturating_add (cs_ignored s) 1; cs_rotation := cs_rotation s;
              cs_key_hashes := hashes |}
       end)
  | SetCookie parsed =>
      match cs_staged s !! key with
      | None =>
          (Err (CommitInvariant "staged cookie missing"),
           {| cs_records := removed; cs_staged := cs_staged s; cs_inserted := cs_inserted s;
              cs_replaced := cs_replaced s; cs_deleted := cs_deleted s; cs_ignored := cs_ignored s;
              cs_rotation := cs_rotation s; cs_key_hashes := hashes |})
      | Some record =>
          let rotation :=
            cs_rotation s
            || match previous with
               | Some previous => bool_decide (cr_value_sha256 previous <> Some (ps_value_sha256 parsed))
               | None => bool_decide (to_ascii_lowercase (ps_name parsed) ∈ rotation_cookie_names config)
               end in
          let generation := if rotation then saturating_add generation_before 1 else generation_before in
          (Ok tt,
           {| cs_records := <[key := set_record_generation generation record]> removed;
              cs_staged := delete key (cs_staged s);
              cs_inserted := match previous with
                             | None => saturating_add (cs_inserted s) 1
                             | Some _ => cs_inserted s
                             end;
              cs_replaced := match previous with
                             | Some _ => saturating_add (cs_replaced s) 1
                             | None => cs_replaced s
                             end;
              cs_deleted := cs_deleted s; cs_ignored := cs_ignored s; cs_rotation := rotation;
              cs_key_hashes := hashes |})
      end
  end.

Fixpoint commit_mutations (config : CookieJarConfig) (generation_before : N)
    (mutations : list (CookieKey * CookieMutation)) (s : CommitState)
    : Run (Result unit CookieJarError * CommitState) :=
  match mutations with
  | [] => Done (Ok tt, s)
  | (key, mutation) :: rest =>
      let! key_hash := cookie_key_hash key in
      match commit_mutation config generation_before key key_hash mutation s with
      | (Err e, s) => Done (Err e, s)
      | (Ok _, s) => commit_mutations config generation_before rest s
      end
  end.

(** The rotation and the audit record after the commit loop. *)
Definition finish_commit (origin : CookieOrigin) (transaction_id vault_audit_before vault_audit_after : str)
    (superseded generation_before : N) (s : CommitState) (self : CookieJar)
    : Result CookieCommit CookieJarError * CookieJar :=
  let generation := if cs_rotation s then saturating_add (jar_generation self) 1 else jar_generation self in
  let records := if cs_rotation s then set_record_generation generation <$> cs_records s else cs_records s in
  match jar_audit_append
    {| je_action := "set_cookie_transaction"; je_outcome := "committed"; je_jar_id := jar_id self;
       je_transaction_id := Some transaction_id; je_generation_before := generation_before;
       je_generation_after := generation; je_inserted := cs_inserted s; je_replaced := cs_replaced s;
       je_deleted := cs_deleted s; je_ignored_deletions := cs_ignored s;
       je_superseded_headers := superseded; je_rotation_detected := cs_rotation s;
       je_origin_host := Some (co_host origin); je_origin_scheme := Some (co_scheme origin);
       je_mutated_key_sha256 := cs_key_hashes s; je_vault_audit_before := vault_audit_before;
       je_vault_audit_after := vault_audit_after |} (jar_audit self) with
  | (appended, chain) =>
      let jar := {| jar_id := jar_id self; jar_config := jar_config self; jar_records := records;
                    jar_generation := generation;
                    jar_next_transaction_id := jar_next_transaction_id self; jar_audit := chain |} in
      match appended with
      | Err e => (Err e, jar)
      | Ok audit_tail =>
          (Ok {| cm_transaction_id := transaction_id; cm_generation_before := generation_before;
                 cm_generation_after := generation; cm_inserted := cs_inserted s;
                 cm_replaced := cs_replaced s; cm_deleted := cs_deleted s;
                 cm_ignored_deletions := cs_ignored s; cm_superseded_headers := superseded;
                 cm_rotation_detected := cs_rotation s; cm_active_handles := active_handles jar;
                 cm_audit_tail := audit_tail |}, jar)
      end
  end.

Definition transaction_id_of (self : CookieJar) : str :=
  jar_id self ++ ("-transaction-" : str) ++ decimal020 (jar_next_transaction_id self).

Definition next_transaction (self : CookieJar) : CookieJar :=
  {| jar_id := jar_id self; jar_config := jar_config self; jar_records := jar_records self;
     jar_generation := jar_generation self;
     jar_next_transaction_id := saturating_add (jar_next_transaction_id self) 1;
     jar_audit := jar_audit self |}.

(** The checks before anything is changed: the mutations and the number of
    superseded fields. *)
Definition prevalidate (vault : InMemorySecretVault) (binding : SecretBinding) (origin : CookieOrigin)
    (request_target : str) (set_cookie_values : list str) (now_epoch_seconds : Z) (self : CookieJar)
    : Result (CookieOrigin * gmap CookieKey CookieMutation * N) CookieJarError :=
  if maximum_set_cookie_headers (jar_config self) <? len set_cookie_values
  then Err SetCookieHeaderLimitExceeded
  else
  let? origin := cookie_origin_new (co_host origin) (co_scheme origin) in
  let? _ := jar_validate_request_target request_target in
  let? _ := validate_binding_identity binding in
  if negb (bool_decide (co_host origin ∈ sb_allowed_hosts binding))
     || negb (bool_decide (co_scheme origin ∈ sb_allowed_schemes binding))
  then Err OriginOutsideBinding
  else
  let? (mutations, superseded) :=
    parse_mutations origin request_target now_epoch_seconds set_cookie_values ∅ 0 in
  if maximum_cookie_records (jar_config self) <? prospective_count (jar_records self) mutations
  then Err CookieRecordLimitExceeded
  else
  let existing := omap (fun key => jar_records self !! key) (map_keys mutations) in
  let? _ := map_err JarVault (collect_results (fun record => vault_metadata (cr_handle record) vault) existing) in
  Ok (origin, mutations, superseded).

Definition apply_response (vault : InMemorySecretVault) (binding : SecretBinding) (origin : CookieOrigin)
    (request_target : str) (set_cookie_values : list str) (now_epoch_seconds : Z) (self : CookieJar)
    : Run (Result CookieCommit CookieJarError * CookieJar * InMemorySecretVault) :=
  match prevalidate vault binding origin request_target set_cookie_values now_epoch_seconds self with
  | Err e => Done (Err e, self, vault)
  | Ok (origin, mutations, superseded) =>
      let vault_audit_before := tail_hash (vault_audit vault) in
      let transaction_id := transaction_id_of self in
      let self := next_transaction self in
      let generation_before := jar_generation self in
      match stage_cookies binding origin now_epoch_seconds generation_before (map_iter mutations) ∅ vault with
      | (Err e, vault) => Done (Err e, self, vault)
      | (Ok staged, vault) =>
          let old_handles :=
            cr_handle <$> omap (fun key => jar_records self !! key) (map_keys mutations) in
          match revoke_old staged old_handles vault with
          | (Err e, vault) => Done (Err e, self, vault)
          | (Ok _, vault) =>
              let! (committed, s) :=
                commit_mutations (jar_config self) generation_before (map_iter mutations)
                  {| cs_records := jar_records self; cs_staged := staged; cs_inserted := 0;
                     cs_replaced := 0; cs_deleted := 0; cs_ignored := 0; cs_rotation := false;
                     cs_key_hashes := [] |} in
              match committed with
              | Err e => Done (Err e, with_records (cs_records s) self, vault)
              | Ok _ =>
                  let (result, jar) :=
                    finish_commit origin transaction_id vault_audit_before (tail_hash (vault_audit vault))
                      superseded generation_before s self in
                  Done (result, jar, vault)
              end
          end
      end
  end.

(** *** Purge *)

(** Revoking the handles of the taken records, up to the first error. *)
Fixpoint revoke_handles (handles : list SecretHandle) (vault : InMemorySecretVault)
    : Result unit VaultError * InMemorySecretVault :=
  match handles with
  | [] => (Ok tt, vault)
  | handle :: rest =>
      match revoke_secret handle vault with
      | (Err e, vault) => (Err e, vault)
      | (Ok _, vault) => revoke_handles rest vault
      end
  end.

Fixpoint key_hashes (keys : list CookieKey) : Run (list str) :=
  match keys with
  | [] => Done []
  | key :: rest => let! h := cookie_key_hash key in let! hs := key_hashes rest in Done (h :: hs)
  end.

Definition jar_purge (vault : InMemorySecretVault) (reason : str) (self : CookieJar)
    : Run (Result CookieCommit CookieJarError * CookieJar * InMemorySecretVault) :=
  match jar_validate_identifier reason "reason" with
  | Err e => Done (Err e, self, vault)
  | Ok _ =>
      let vault_audit_before := tail_hash (vault_audit vault) in
      let generation_before := jar_generation self in
      let records := jar_records self in
      let self := with_records ∅ self in
      match revoke_handles (cr_handle <$> map_values records) vault with
      | (Err e, vault) => Done (Err (JarVault e), self, vault)
      | (Ok _, vault) =>
          let deleted := N.of_nat (size records) in
          let generation := if 0 <? deleted then saturating_add generation_before 1 else generation_before in
          let transaction_id := transaction_id_of self in
          let! hashes := key_hashes (map_keys records) in
          let (appended, chain) := jar_audit_append
            {| je_action := "cookie_jar_purge"; je_outcome := reason; je_jar_id := jar_id self;
               je_transaction_id := Some transaction_id; je_generation_before := generation_before;
               je_generation_after := generation; je_inserted := 0; je_replaced := 0;
               je_deleted := deleted; je_ignored_deletions := 0; je_superseded_headers := 0;
               je_rotation_detected := 0 <? deleted; je_origin_host := None; je_origin_scheme := None;
               je_mutated_key_sha256 := hashes; je_vault_audit_before := vault_audit_before;
               je_vault_audit_after := tail_hash (vault_audit vault) |} (jar_audit self) in
          let jar := {| jar_id := jar_id self; jar_config := jar_config self; jar_records := ∅;
                        jar_generation := generation;
                        jar_next_transaction_id := saturating_add (jar_next_transaction_id self) 1;
                        jar_audit := chain |} in
          Done (match appended with
                | Err e => Err e
                | Ok audit_tail =>
                    Ok {| cm_transaction_id := transaction_id; cm_generation_before := generation_before;
                          cm_generation_after := generation; cm_inserted := 0; cm_replaced := 0;
                          cm_deleted := deleted; cm_ignored_deletions := 0; cm_superseded_headers := 0;
                          cm_rotation_detected := 0 <? deleted; cm_active_handles := [];
                          cm_audit_tail := audit_tail |}
                end, jar, vault)
      end
  end.

End Jar.
