(* ===== verification/CookieJarFacts.v ===== *)
(** * CookieJarFacts: the theorems about the cookie jar

    The strict parser, and the transaction of [apply_response] over the jar and
    the vault. *)

From S2P Require Import Prelude ByteStr BTree IpAddr IpText HashChain HttpSyntax Vault SecretVault CookieJar.
Local Open Scope N_scope.

(** ** The vault as the jar uses it *)

Section VaultUse.
Context {S : Sha256Lib} {J : JsonLib (HashMaterial VaultAuditEvent)} {JF : JsonLib FingerprintMaterial}.

Lemma record_event_total `{!JsonTotal (HashMaterial VaultAuditEvent)} e v :
  exists chain, record_event e v = (Ok tt, with_audit chain v).
Proof.
  unfold record_event, vault_audit_append.
  destruct (chain_append_total e (vault_audit v)) as (rec & c & ->). eauto.
Qed.

(** Revoking a stored secret removes exactly it. *)
Lemma revoke_secret_stored `{!JsonTotal (HashMaterial VaultAuditEvent)} h v :
  is_Some (entries v !! h) ->
  exists v', revoke_secret h v = (Ok tt, v') /\ entries v' = delete h (entries v)
    /\ next_secret_id v' = next_secret_id v /\ vault_id v' = vault_id v.
Proof.
  intros [e He]. unfold revoke_secret. rewrite He.
  edestruct record_event_total as [chain Hr]. rewrite Hr. eexists. split_and!; reflexivity.
Qed.

(** The identifier counter has room and the next handle is free. *)
Definition fresh_handles (v : InMemorySecretVault) (room : N) : Prop :=
  entries_named v /\ next_secret_id v + room < u64_max.

Lemma fresh_handle_free v room :
  fresh_handles v room -> entries v !! secret_handle_of (vault_id v) (next_secret_id v) = None.
Proof.
  intros [Hn _]. apply eq_None_not_Some. intros [e He].
  destruct (Hn _ _ He) as (n & Hlt & Heq%secret_handle_of_inj). lia.
Qed.

Lemma saturating_room n room : n + (1 + room) < u64_max -> saturating_add n 1 = n + 1.
Proof. unfold saturating_add. lia. Qed.

(** Storing a secret under a free handle, or not at all. *)
Lemma vault_insert_fresh input now v r v' room :
  vault_insert input now v = (r, v') -> fresh_handles v (1 + room) ->
  fresh_handles v' room
  /\ match r with
     | Ok h => entries v !! h = None
         /\ exists binding, normalized_binding (in_binding input) = Ok binding
            /\ entries v' = <[h := new_entry h binding input now]> (entries v)
     | Err _ => entries v' = entries v
     end.
Proof.
  intros Hi Hf. pose proof (fresh_handle_free _ _ Hf) as Hfree. destruct Hf as [Hn Hroom].
  pose proof (saturating_room _ _ Hroom) as Hs.
  pose proof Hi as Hinv. apply vault_insert_inv in Hinv as (Hid & _ & _ & Hr). destruct r as [h|e].
  - destruct Hr as (-> & Hnext & _ & b & Hb & He). split; [split|eauto].
    + intros x entry. rewrite Hid, Hnext, Hs, He.
      intros [[<- _]|[_ Hl]]%lookup_insert_Some; [exists (next_secret_id v); split; [lia|done]|].
      destruct (Hn _ _ Hl) as (n & ? & ->). exists n. split; [lia|done].
    + rewrite Hnext, Hs. lia.
  - destruct Hr as [Hnext Hsub]. assert (He : entries v' = entries v).
    { clear Hnext Hsub. unfold vault_insert in Hi.
      destruct (validate_secret_input _ _); [|by simplify_eq].
      destruct (normalized_binding _) as [b|]; [|by simplify_eq].
      destruct (record_event _ _) as [[u|e'] s] eqn:Hre; [done|]. simplify_eq.
      apply record_event_inv in Hre as [chain ->]. simpl. rewrite delete_insert_id; done. }
    split; [split|done].
    + intros x entry. rewrite Hid, He. intros Hl. destruct (Hn _ _ Hl) as (n & ? & ->).
      exists n. split; [|done]. destruct Hnext as [-> | ->]; lia.
    + destruct Hnext as [-> | ->]; lia.
Qed.

Lemma fresh_handles_revoke h v v' room :
  fresh_handles v room -> entries v' = delete h (entries v) -> next_secret_id v' = next_secret_id v ->
  vault_id v' = vault_id v -> fresh_handles v' room.
Proof.
  intros [Hn Hr] He Hx Hid. split; [|by rewrite Hx].
  intros x entry. rewrite He, Hid, Hx. intros [_ Hl]%lookup_delete_Some. by eapply Hn.
Qed.
End VaultUse.

(** ** What the parser accepts *)

Section Parser.
Context {D : HttpDateLib} {S : Sha256Lib}.

Lemma cookie_domain_ok origin attribute domain host_only :
  cookie_domain origin attribute = Ok (domain, host_only) ->
  domain_matches (co_host origin) domain = true
  /\ (host_only = true -> domain = co_host origin)
  /\ (host_only = false -> is_public_suffix_like domain = false
        /\ parse_ip_addr (co_host origin) = None /\ parse_ip_addr domain = None).
Proof.
  unfold cookie_domain. intros H. destruct attribute as [d|].
  - inv_ok H. bools. split_and!; auto; [done|]. intros _.
    split_and!; auto; by apply eq_None_not_Some.
  - simplify_eq. split_and!; auto; [|done]. unfold domain_matches. by rewrite bool_decide_eq_true_2.
Qed.

Lemma cookie_expiry_delete max_age expires now expires_at delete :
  cookie_expiry max_age expires now = (expires_at, delete) ->
  (delete = true -> exists e, expires_at = Some e /\ (e <= now)%Z)
  /\ (delete = false -> (now < i64_max)%Z -> (i64_min <= now)%Z -> expired_at expires_at now = false).
Proof.
  unfold cookie_expiry. intros H. destruct max_age as [age|].
  - destruct (Z.leb_spec age 0); simplify_eq; split; try done.
    + intros _. exists now. split; [done|lia].
    + intros _ Hmax Hmin. simpl. apply Z.leb_gt. unfold i64_saturating_add.
      assert (0 < MAX_COOKIE_LIFETIME_SECONDS)%Z by done. lia.
  - destruct expires as [e|]; simplify_eq; split; try done.
    intros He. bools. eauto.
Qed.

(** What holds of an accepted field. *)
Record set_cookie_ok (origin : CookieOrigin) (now : Z) (p : ParsedSetCookie) : Prop := {
  sc_name : ps_name p <> [] /\ forallb is_token_byte (ps_name p) = true;
  sc_value : forallb is_cookie_octet (ps_value p) = true;
  sc_secure : ps_secure p = true -> co_scheme origin = "https";
  sc_same_site : ps_same_site p = SameSiteNone -> ps_secure p = true;
  sc_domain : domain_matches (co_host origin) (ps_domain p) = true;
  sc_host_only : ps_host_only p = true -> ps_domain p = co_host origin;
  sc_wide : ps_host_only p = false ->
    is_public_suffix_like (ps_domain p) = false
    /\ parse_ip_addr (co_host origin) = None /\ parse_ip_addr (ps_domain p) = None;
  sc_secure_prefix : starts_with (ps_name p) "__Secure-" = true -> ps_secure p = true;
  sc_host_prefix : starts_with (ps_name p) "__Host-" = true ->
    ps_secure p = true /\ ps_host_only p = true /\ ps_path p = "/";
  sc_delete : ps_delete p = true ->
    exists e, ps_expires_at_epoch_seconds p = Some e /\ (e <= now)%Z;
  sc_live : ps_delete p = false -> (i64_min <= now < i64_max)%Z ->
    expired_at (ps_expires_at_epoch_seconds p) now = false
}.

Lemma parse_set_cookie_sound header origin target now p :
  parse_set_cookie header origin target now = Ok p -> set_cookie_ok origin now p.
Proof.
  unfold parse_set_cookie. intros H.
  destruct (_ || _); [done|]. destruct (existsb _ header); [done|].
  destruct (position _ _) as [eqs|]; [|done]. destruct (negb (from_utf8_ok _)); [done|].
  set (name := trim_ascii (take _ _)) in *. set (value := trim_ascii (drop _ _)) in *.
  destruct (validate_cookie_name name) as [[]|] eqn:Hn; [|done].
  destruct (validate_cookie_value value) as [[]|] eqn:Hv; [|done].
  destruct (parse_attributes _ _) as [a|] eqn:Ha; [|done].
  destruct (attr_secure a && _) eqn:Hsec; [done|]. destruct (bool_decide _ && _) eqn:Hss; [done|].
  destruct (cookie_domain origin (attr_domain a)) as [[domain host_only]|] eqn:Hd; [|done].
  destruct (starts_with name "__Secure-" && _) eqn:Hsp; [done|].
  destruct (starts_with name "__Host-" && _) eqn:Hhp; [done|].
  destruct (cookie_expiry _ _ _) as [ex del] eqn:He. simplify_eq.
  apply cookie_domain_ok in Hd as (Hm & Hho & Hw).
  apply cookie_expiry_delete in He as [Hdel Hlive].
  unfold validate_cookie_name in Hn. inv_ok Hn. unfold validate_cookie_value in Hv. inv_ok Hv. bools.
  constructor; simpl; auto.
  - split; [|done]. intros E. by rewrite E in *.
  - intros E. rewrite E in Hsec. simpl in Hsec. bools. by apply dec_stable.
  - intros E. rewrite E in Hss. simpl in Hss. by bools.
  - change (starts_with name "__Secure-" = true -> attr_secure a = true). intros E. rewrite E in Hsp. simpl in Hsp. by bools.
  - intros E. change (starts_with name "__Host-" = true) in E. rewrite E in Hhp. simpl in Hhp. bools. split_and!; auto. by apply dec_stable.
  - intros E [Hmin Hmax]. by apply Hlive.
Qed.

(** Every mutation of a response comes from an accepted field with its key. *)
Lemma parse_mutations_ok origin target now headers mutations superseded mutations' superseded' :
  parse_mutations origin target now headers mutations superseded = Ok (mutations', superseded') ->
  (forall k p, mutations !! k = Some (SetCookie p) ->
     set_cookie_ok origin now p /\ k = parsed_key p /\ ps_delete p = false) ->
  forall k p, mutations' !! k = Some (SetCookie p) ->
    set_cookie_ok origin now p /\ k = parsed_key p /\ ps_delete p = false.
Proof.
  revert mutations superseded. induction headers as [|header rest IH]; intros mutations superseded H Hm; simpl in H.
  { by simplify_eq. }
  destruct (parse_set_cookie header origin target now) as [p|] eqn:Hp; [|done].
  apply (IH _ _ H). intros k q [[<- Hq]|[_ Hq]]%lookup_insert_Some; [|by apply Hm].
  unfold mutation_from_parsed in Hq. destruct (ps_delete p) eqn:Hd; simplify_eq.
  split_and!; auto. by eapply parse_set_cookie_sound.
Qed.
End Parser.

(** ** The transaction *)

(** The secret behind a cookie record: bound to the identity of the session, to
    hosts of the session that the cookie's domain covers, and to schemes of the
    session, only [https] for a secure cookie. *)
Record cookie_scoped (binding : SecretBinding) (r : CookieRecord) (entry : SecretEntry) : Prop := {
  cx_identity : let b := md_binding (se_metadata entry) in
    sb_run_id b = sb_run_id binding /\ sb_worker_id b = sb_worker_id binding
    /\ sb_account_id b = sb_account_id binding /\ sb_tenant_id b = sb_tenant_id binding
    /\ sb_role_id b = sb_role_id binding;
  cx_hosts : sb_allowed_hosts (md_binding (se_metadata entry)) ⊆ sb_allowed_hosts binding;
  cx_domain : forall h, h ∈ sb_allowed_hosts (md_binding (se_metadata entry)) ->
    domain_matches h (key_domain (cr_key r)) = true;
  cx_schemes : sb_allowed_schemes (md_binding (se_metadata entry)) ⊆ sb_allowed_schemes binding;
  cx_secure : cr_secure r = true ->
    forall s : str, s ∈ sb_allowed_schemes (md_binding (se_metadata entry)) -> s = "https"
}.

Lemma cookie_scoped_ext binding r r' e :
  cr_key r' = cr_key r -> cr_secure r' = cr_secure r -> cookie_scoped binding r e -> cookie_scoped binding r' e.
Proof. intros Hk Hs [? ? ? ? ?]. constructor; rewrite ?Hk, ?Hs; auto. Qed.

Lemma collect_set_subset (f : str -> Result str VaultError) (s t : gset str) :
  (forall x, x ∈ s -> f x = Ok x) -> collect_set f s = Ok t -> t = s.
Proof.
  unfold collect_set. intros Hf H. destruct (collect_results f (btree_iter s)) as [l|] eqn:E; [|done].
  simplify_eq. apply collect_results_ok in E. apply set_eq. intros x. rewrite elem_of_list_to_set, <- elem_of_btree_iter.
  assert (Hall : forall y, y ∈ btree_iter s -> f y = Ok y) by (intros y ?%elem_of_btree_iter; by apply Hf).
  clear Hf. induction E as [|y z l1 l2 Hy E IH]; [done|].
  rewrite !elem_of_cons. rewrite (Hall y) in Hy by set_solver. simplify_eq.
  rewrite IH; [done|]. intros; apply Hall; set_solver.
Qed.

(** A binding in normal form. *)
Definition binding_normal (b : SecretBinding) : Prop :=
  (forall h, h ∈ sb_allowed_hosts b -> vault_normalize_host h = Ok h)
  /\ (forall s, s ∈ sb_allowed_schemes b -> vault_normalize_scheme s = Ok s).

Lemma normalized_binding_scope b b' :
  normalized_binding b = Ok b' -> binding_normal b ->
  sb_allowed_hosts b' = sb_allowed_hosts b /\ sb_allowed_schemes b' = sb_allowed_schemes b
  /\ sb_run_id b' = sb_run_id b /\ sb_worker_id b' = sb_worker_id b /\ sb_account_id b' = sb_account_id b
  /\ sb_tenant_id b' = sb_tenant_id b /\ sb_role_id b' = sb_role_id b.
Proof.
  unfold normalized_binding. intros H [Hh Hs]. inv_ok H. simpl.
  split_and!; auto; by eapply collect_set_subset.
Qed.

Section Transaction.
Context {D : HttpDateLib} {S : Sha256Lib} {J : JsonLib (HashMaterial VaultAuditEvent)}
  {JC : JsonLib (HashMaterial CookieJarAuditEvent)} {JK : JsonLib CookieKey}
  `{!JsonTotal (HashMaterial VaultAuditEvent)}.

(** Revoking stored, different secrets succeeds and removes exactly them. *)
Lemma rollback_handles_ok handles v :
  NoDup handles -> (forall h, h ∈ handles -> is_Some (entries v !! h)) ->
  exists v', rollback_handles handles v = (Ok tt, v')
    /\ (forall h, entries v' !! h = if bool_decide (h ∈ handles) then None else entries v !! h)
    /\ next_secret_id v' = next_secret_id v /\ vault_id v' = vault_id v.
Proof.
  intros Hnd. revert v. induction Hnd as [|h hs Hh Hnd IH]; intros v Hin; simpl.
  { exists v. split_and!; auto. }
  destruct (revoke_secret_stored h v) as (v1 & Hr & He1 & Hx1 & Hid1); [apply Hin; set_solver|].
  rewrite Hr. destruct (IH v1) as (v2 & Hr2 & He2 & Hx2 & Hid2).
  { intros x Hx. rewrite He1, lookup_delete_ne by (intros ->; done). apply Hin. set_solver. }
  exists v2. split_and!; [done| |congruence..]. intros x. rewrite He2, He1.
  destruct (decide (x = h)) as [->|Hne].
  - rewrite lookup_delete_eq, (bool_decide_eq_true_2 (h ∈ h :: hs)) by set_solver. by case_bool_decide.
  - rewrite lookup_delete_ne by done.
    rewrite (bool_decide_ext (x ∈ h :: hs) (x ∈ hs)) by set_solver. done.
Qed.

(** Different records hold different secrets. *)
Definition handles_distinct (m : gmap CookieKey CookieRecord) : Prop :=
  forall k1 k2 r1 r2, m !! k1 = Some r1 -> m !! k2 = Some r2 -> cr_handle r1 = cr_handle r2 -> k1 = k2.

Lemma staged_handles_NoDup m keys :
  handles_distinct m -> NoDup keys -> NoDup (cr_handle <$> omap (fun k => m !! k) keys).
Proof. intros Hd Hk. apply NoDup_fmap_omap; [done|]. intros. by eapply Hd. Qed.

(** The vault during staging: the secrets of the start, and those of the staged
    records, which are new, different and in scope. *)
Record staging (base : gmap SecretHandle SecretEntry) (binding : SecretBinding)
    (staged : gmap CookieKey CookieRecord) (v : InMemorySecretVault) : Prop := {
  sg_base : forall h e, base !! h = Some e -> entries v !! h = Some e;
  sg_only : forall h e, entries v !! h = Some e ->
    base !! h = Some e \/ exists k r, staged !! k = Some r /\ cr_handle r = h;
  sg_staged : forall k r, staged !! k = Some r ->
    cr_key r = k /\ base !! cr_handle r = None
    /\ exists e, entries v !! cr_handle r = Some e /\ cookie_scoped binding r e;
  sg_distinct : handles_distinct staged
}.

(** Rolling back restores the start. *)
Lemma fail_after_rollback_restores {A} base binding staged error v :
  staging base binding staged v ->
  exists v', fail_after_rollback (A := A) staged error v = (Err error, v') /\ entries v' = base.
Proof.
  intros [Hb Ho Hs Hd]. unfold fail_after_rollback, rollback_staged. rewrite map_values_omap.
  set (handles := cr_handle <$> _).
  assert (Hin : forall h, h ∈ handles <-> exists k r, staged !! k = Some r /\ cr_handle r = h).
  { intros h. unfold handles. rewrite list_elem_of_fmap. split.
    - intros (r & -> & (k & _ & Hk)%list_elem_of_omap). eauto.
    - intros (k & r & Hk & <-). exists r. split; [done|]. apply list_elem_of_omap.
      exists k. rewrite elem_of_map_keys. split; [by eauto|done]. }
  destruct (rollback_handles_ok handles v) as (v' & -> & He & _).
  - apply staged_handles_NoDup; [done|]. apply map_keys_NoDup.
  - intros h (k & r & Hk & <-)%Hin. destruct (Hs _ _ Hk) as (_ & _ & e & ? & _). eauto.
  - exists v'. split; [done|]. apply map_eq. intros h. rewrite He.
    case_bool_decide as Hh.
    + apply Hin in Hh as (k & r & Hk & <-). symmetry. by apply (Hs _ _ Hk).
    + destruct (entries v !! h) as [e|] eqn:E.
      * destruct (Ho _ _ E) as [?|?]; [done|]. by destruct Hh; apply Hin.
      * destruct (base !! h) as [e|] eqn:E'; [|done]. apply Hb in E'. congruence.
Qed.

(** The hosts of a cookie of this session. *)
Lemma allowed_hosts_ok binding origin now p :
  set_cookie_ok origin now p -> co_host origin ∈ sb_allowed_hosts binding ->
  exists hosts, allowed_hosts_for_cookie binding origin p = Ok hosts
    /\ hosts ⊆ sb_allowed_hosts binding
    /\ forall h, h ∈ hosts -> domain_matches h (ps_domain p) = true.
Proof.
  intros Hp Ho. unfold allowed_hosts_for_cookie. pose proof (sc_domain _ _ _ Hp) as Hd.
  destruct (ps_host_only p); eexists; (rewrite bool_decide_eq_false_2;
    [split_and!; [reflexivity|set_solver|]|]).
  - intros h ->%elem_of_singleton. done.
  - set_solver.
  - intros h [? _]%elem_of_filter. done.
  - intros E. assert (co_host origin ∈ (∅ : gset str)); [|set_solver].
    rewrite <- E. by apply elem_of_filter.
Qed.

Lemma cookie_schemes_sub binding p : cookie_schemes binding p ⊆ sb_allowed_schemes binding.
Proof. unfold cookie_schemes. destruct (ps_secure p); set_solver. Qed.

(** A stored cookie is in scope. *)
Lemma stored_cookie_scoped binding hosts now generation k handle p b :
  binding_normal binding -> hosts ⊆ sb_allowed_hosts binding ->
  (forall h, h ∈ hosts -> domain_matches h (ps_domain p) = true) -> k = parsed_key p ->
  let input := cookie_secret_input binding hosts (cookie_schemes binding p) p in
  normalized_binding (in_binding input) = Ok b ->
  cookie_scoped binding (staged_record generation k handle p) (new_entry handle b input now).
Proof.
  intros [Hnh Hns] Hsub Hdom -> input Hb. pose proof (cookie_schemes_sub binding p) as Hss.
  apply normalized_binding_scope in Hb as (Hh & Hs & ? & ? & ? & ? & ?); [|split; simpl in *; set_solver].
  constructor; cbn -[cookie_schemes]; try rewrite Hh; try rewrite Hs; simpl; auto.
  unfold cookie_schemes. intros -> s [-> _]%elem_of_filter. done.
Qed.

(** Storing one more cookie keeps the staging invariant. *)
Lemma staging_insert base binding staged v k r h e v' :
  staging base binding staged v -> staged !! k = None -> entries v !! h = None ->
  entries v' = <[h := e]> (entries v) -> cr_key r = k -> cr_handle r = h -> cookie_scoped binding r e ->
  staging base binding (<[k := r]> staged) v'.
Proof.
  intros [Hb Ho Hs Hd] Hk Hfree He Hrk Hrh Hsc. constructor.
  - intros x ex Hx%Hb. rewrite He, lookup_insert_ne; [done|]. intros ->. congruence.
  - intros x ex. rewrite He. intros [[<- _]|[Hne Hx]]%lookup_insert_Some.
    + right. exists k, r. by rewrite lookup_insert_eq.
    + destruct (Ho _ _ Hx) as [?|(k' & r' & Hk' & <-)]; [by left|]. right. exists k', r'.
      split; [|done]. rewrite lookup_insert_ne; [done|]. intros ->. congruence.
  - intros k' r' [[<- <-]|[Hne Hx]]%lookup_insert_Some.
    + subst h. split_and!; [done| |].
      * destruct (base !! cr_handle r) eqn:E; [|done]. apply Hb in E. congruence.
      * exists e. rewrite He, lookup_insert_eq. done.
    + destruct (Hs _ _ Hx) as (? & ? & e' & Hl & ?). split_and!; auto. exists e'. split; [|done].
      rewrite He, lookup_insert_ne; [done|]. intros E. rewrite <- E in Hl. congruence.
  - assert (Hold : forall k' r', staged !! k' = Some r' -> cr_handle r' <> cr_handle r).
    { intros k' r' Hx E. destruct (Hs _ _ Hx) as (_ & _ & e' & Hl & _). congruence. }
    intros k1 k2 r1 r2 [[<- <-]|[? H1]]%lookup_insert_Some [[<- <-]|[? H2]]%lookup_insert_Some E; auto.
    + destruct (Hold _ _ H2). done.
    + destruct (Hold _ _ H1). done.
    + by eapply Hd.
Qed.

(** Staging either stores every new cookie or restores the vault. *)
Lemma stage_cookies_spec base binding origin now generation mutations staged v room r v' :
  stage_cookies binding origin now generation mutations staged v = (r, v') ->
  staging base binding staged v -> fresh_handles v (len mutations + room) ->
  binding_normal binding -> co_host origin ∈ sb_allowed_hosts binding ->
  NoDup mutations.*1 -> (forall k, k ∈ mutations.*1 -> staged !! k = None) ->
  (forall k p, (k, SetCookie p) ∈ mutations -> set_cookie_ok origin now p /\ k = parsed_key p) ->
  match r with
  | Ok staged' =>
      staging base binding staged' v' /\ fresh_handles v' room
      /\ (forall k, is_Some (staged' !! k) <->
           is_Some (staged !! k) \/ exists p, (k, SetCookie p) ∈ mutations)
  | Err _ => entries v' = base
  end.
Proof.
  intros H Hst Hf Hbn Hoh. revert staged v H Hst Hf.
  induction mutations as [|[k m] rest IH]; intros staged v H Hst Hf Hnd Hdis Hok; simpl in H.
  { simplify_eq. split_and!; [done|done|]. intros k. split; [by left|]. intros [?|(p & Hp)]; [done|set_solver]. }
  cbn in Hnd. apply NoDup_cons in Hnd as [Hk Hnd]. rewrite len_cons in Hf.
  assert (Hroom : 1 + len rest + room = 1 + (len rest + room)) by lia.
  assert (Hdis' : forall k', k' ∈ rest.*1 -> staged !! k' = None)
    by (intros k' ?; apply Hdis; cbn; apply elem_of_cons; by right).
  assert (Hok' : forall k' p', (k', SetCookie p') ∈ rest -> set_cookie_ok origin now p' /\ k' = parsed_key p')
    by (intros k' p' ?; apply Hok; apply elem_of_cons; by right).
  destruct m as [p|].
  2:{ assert (Hf' : fresh_handles v (len rest + room)) by (destruct Hf; split; [done|lia]).
      specialize (IH _ _ H Hst Hf' Hnd Hdis' Hok').
      destruct r as [staged'|]; [|done]. destruct IH as (? & ? & Hiff). split_and!; [done|done|].
      intros k'. rewrite Hiff. set_solver. }
  destruct (Hok k p ltac:(set_solver)) as [Hp Hkp].
  destruct (allowed_hosts_ok binding origin now p Hp Hoh) as (hosts & Hah & Hsub & Hdom).
  rewrite Hah in H.
  destruct (bool_decide (cookie_schemes binding p = ∅)) eqn:Hes.
  { destruct (fail_after_rollback_restores (A := gmap CookieKey CookieRecord) base binding staged
      CookieScopeEmpty v Hst) as (v1 & Hr & He). rewrite Hr in H. by simplify_eq. }
  rewrite Hroom in Hf.
  destruct (vault_insert _ now v) as [[handle|e] v1] eqn:Hi;
    apply (vault_insert_fresh _ _ _ _ _ (len rest + room)) in Hi as [Hf1 Hi]; try done.
  - destruct Hi as (Hfree & b & Hb & He).
    assert (Hst1 : staging base binding (<[k := staged_record generation k handle p]> staged) v1).
    { eapply staging_insert; [exact Hst|apply Hdis; set_solver|exact Hfree|exact He|done|done|].
      by apply stored_cookie_scoped. }
    assert (Hdis1 : forall k', k' ∈ rest.*1 -> <[k := staged_record generation k handle p]> staged !! k' = None)
      by (intros k' Hk'; rewrite lookup_insert_ne; [auto | by intros ->]).
    specialize (IH _ _ H Hst1 Hf1 Hnd Hdis1 Hok'). destruct r as [staged'|]; [|done].
    destruct IH as (? & ? & Hiff). split_and!; [done|done|]. intros k'. rewrite Hiff.
    destruct (decide (k' = k)) as [->|Hne].
    + rewrite lookup_insert_eq. split; [right; exists p; set_solver | by eauto].
    + rewrite lookup_insert_ne by done. set_solver.
  - assert (Hst1 : staging base binding staged v1).
    { destruct Hst as [Hb Ho Hs Hd]. constructor; rewrite ?Hi; auto. }
    destruct (fail_after_rollback_restores (A := gmap CookieKey CookieRecord) base binding staged
      (JarVault e) v1 Hst1) as (v2 & Hr & He). rewrite Hr in H. by simplify_eq.
Qed.

(** *** Revoking and committing *)

Lemma revoke_old_ok staged handles v v' :
  rollback_handles handles v = (Ok tt, v') -> revoke_old staged handles v = (Ok tt, v').
Proof.
  revert v. induction handles as [|h hs IH]; intros v H; simpl in *; [done|].
  destruct (revoke_secret h v) as [[u|e] v1]; [by apply IH | done].
Qed.

Lemma parse_mutations_size origin target now headers mutations superseded mutations' superseded' :
  parse_mutations origin target now headers mutations superseded = Ok (mutations', superseded') ->
  N.of_nat (size mutations') <= N.of_nat (size mutations) + len headers.
Proof.
  revert mutations superseded. induction headers as [|header rest IH]; intros mutations superseded H; simpl in H.
  { simplify_eq. rewrite len_nil. lia. }
  destruct (parse_set_cookie _ _ _ _) as [p|]; [|done]. apply IH in H. rewrite len_cons.
  destruct (mutations !! parsed_key p) eqn:E.
  - rewrite map_size_insert_Some in H by eauto. lia.
  - rewrite map_size_insert_None in H by done. lia.
Qed.

(** Mutations that add a record, and those that remove one. *)
Definition adds (records : gmap CookieKey CookieRecord) (x : CookieKey * CookieMutation) : bool :=
  is_set x.2 && negb (bool_decide (is_Some (records !! x.1))).
Definition removes (records : gmap CookieKey CookieRecord) (x : CookieKey * CookieMutation) : bool :=
  negb (is_set x.2) && bool_decide (is_Some (records !! x.1)).

Lemma filter_ext_elem {A} (f g : A -> bool) l :
  (forall x, x ∈ l -> f x = g x) -> List.filter f l = List.filter g l.
Proof.
  induction l as [|x l IH]; intros H; [done|]. simpl. rewrite (H x) by set_solver.
  rewrite IH by (intros; apply H; set_solver). done.
Qed.

Lemma prospective_count_eq records mutations :
  prospective_count records mutations
  = N.of_nat (size records) + len (List.filter (adds records) (map_iter mutations))
    - len (List.filter (removes records) (map_iter mutations)).
Proof.
  unfold prospective_count. f_equal; [f_equal|]; f_equal; apply filter_ext_elem; by intros [k m].
Qed.

(** The commit loop ends with exactly the mutated keys changed. *)
Record committed (mutations : list (CookieKey * CookieMutation)) (s s' : CommitState) : Prop := {
  cd_other : forall k, k ∉ mutations.*1 -> cs_records s' !! k = cs_records s !! k;
  cd_deleted : forall k, (k, DeleteCookie) ∈ mutations -> cs_records s' !! k = None;
  cd_set : forall k p, (k, SetCookie p) ∈ mutations ->
    exists r g, cs_staged s !! k = Some r /\ cs_records s' !! k = Some (set_record_generation g r);
  cd_size : N.of_nat (size (cs_records s')) + len (List.filter (removes (cs_records s)) mutations)
    = N.of_nat (size (cs_records s)) + len (List.filter (adds (cs_records s)) mutations)
}.

Context `{!JsonTotal CookieKey}.

Lemma commit_mutation_ok config generation k h m s :
  (is_set m = true -> is_Some (cs_staged s !! k)) ->
  exists s1, commit_mutation config generation k h m s = (Ok tt, s1)
    /\ (forall k', k' <> k -> cs_records s1 !! k' = cs_records s !! k' /\ cs_staged s1 !! k' = cs_staged s !! k')
    /\ (m = DeleteCookie -> cs_records s1 !! k = None)
    /\ (is_set m = true -> exists r g, cs_staged s !! k = Some r
                             /\ cs_records s1 !! k = Some (set_record_generation g r))
    /\ N.of_nat (size (cs_records s1)) + (if removes (cs_records s) (k, m) then 1 else 0)
       = N.of_nat (size (cs_records s)) + (if adds (cs_records s) (k, m) then 1 else 0).
Proof.
  intros Hst. unfold commit_mutation, adds, removes. destruct m as [p|]; cbn -[size].
  - destruct (Hst eq_refl) as [r Hr]. rewrite Hr. eexists. split; [reflexivity|]. cbn -[size].
    split_and!; [| done | |].
    + intros k' Hne. by rewrite lookup_insert_ne, !lookup_delete_ne.
    + intros _. eexists r, _. by rewrite lookup_insert_eq.
    + rewrite insert_delete_eq. destruct (cs_records s !! k) eqn:E.
      * rewrite map_size_insert_Some by eauto. rewrite bool_decide_eq_true_2 by eauto. simpl. lia.
      * rewrite map_size_insert_None by done. rewrite bool_decide_eq_false_2 by (by intros []). simpl. lia.
  - eexists. split; [reflexivity|]. destruct (cs_records s !! k) eqn:E; cbn -[size].
    + split_and!; [|by intros; rewrite lookup_delete_eq|done|].
      * intros k' Hne. by rewrite lookup_delete_ne.
      * rewrite map_size_delete_Some by eauto.
        assert (size (cs_records s) <> 0%nat) by (intros Hz; apply map_size_empty_inv in Hz; rewrite Hz in E; by rewrite lookup_empty in E).
        lia.
    + split_and!; [|by intros; rewrite lookup_delete_eq|done|].
      * intros k' Hne. by rewrite lookup_delete_ne.
      * rewrite map_size_delete_None by done. lia.
Qed.

Lemma commit_mutations_ok config generation mutations s :
  NoDup mutations.*1 ->
  (forall k p, (k, SetCookie p) ∈ mutations -> is_Some (cs_staged s !! k)) ->
  exists s', commit_mutations config generation mutations s = Done (Ok tt, s') /\ committed mutations s s'.
Proof.
  revert s. induction mutations as [|[k m] rest IH]; intros s Hnd Hst; simpl.
  { exists s. split; [done|]. constructor; [done|set_solver|set_solver|done]. }
  cbn in Hnd. apply NoDup_cons in Hnd as [Hk Hnd].
  unfold cookie_key_hash. destruct (to_vec_total k) as [bytes ->].
  destruct (commit_mutation_ok config generation k (to_lower_hex (sha256 bytes)) m s) as
    (s1 & -> & Hother & Hdel & Hset & Hsize).
  { intros Hm. destruct m as [p|]; [|done]. apply (Hst k p). set_solver. }
  destruct (IH s1 Hnd) as (s' & Hc & [Ho Hd Hs Hz]).
  { intros k' p' Hin. assert (k' <> k) by (intros ->; apply Hk; apply list_elem_of_fmap; by exists (k, SetCookie p')).
    destruct (Hother k') as [_ ->]; [done|]. apply (Hst k' p'). set_solver. }
  exists s'. split; [done|].
  assert (Hin_ne : forall k' m', (k', m') ∈ rest -> k' <> k)
    by (intros k' m' Hin ->; apply Hk; apply list_elem_of_fmap; by exists (k, m')).
  constructor.
  - intros k' [Hne Hni]%not_elem_of_cons. rewrite Ho by done. by apply Hother.
  - intros k' [E|Hin]%elem_of_cons; [|by apply Hd]. simplify_eq. rewrite Ho by done. by apply Hdel.
  - intros k' p' [E|Hin]%elem_of_cons.
    + simplify_eq. rewrite Ho by done. by apply Hset.
    + destruct (Hs _ _ Hin) as (r & g & Hr & ?). exists r, g. split; [|done].
      rewrite <- Hr. symmetry. apply Hother. by eapply Hin_ne.
  - assert (Hext : forall f, f = adds \/ f = removes ->
      List.filter (f (cs_records s1)) rest = List.filter (f (cs_records s)) rest).
    { intros f Hf. apply filter_ext_elem. intros [k' m'] Hin.
      destruct (Hother k' (Hin_ne _ _ Hin)) as [E _]. by destruct Hf as [-> | ->]; unfold adds, removes; simpl; rewrite E. }
    rewrite !Hext in Hz by auto. simpl.
    destruct (removes (cs_records s) (k, m)), (adds (cs_records s) (k, m)); rewrite ?len_cons; lia.
Qed.

(** *** The whole transaction *)

(** The jar holds different, stored secrets, and no more than its limit. *)
Record jar_consistent (jar : CookieJar) (v : InMemorySecretVault) : Prop := {
  jc_records : forall k r, jar_records jar !! k = Some r ->
    cr_key r = k /\ is_Some (entries v !! cr_handle r);
  jc_distinct : handles_distinct (jar_records jar);
  jc_limit : N.of_nat (size (jar_records jar)) <= maximum_cookie_records (jar_config jar)
}.

Context `{!JsonTotal (HashMaterial CookieJarAuditEvent)}.

Lemma jar_audit_append_total e c : exists h c', jar_audit_append e c = (Ok h, c').
Proof. unfold jar_audit_append. destruct (chain_append_total e c) as (rec & c' & ->). eauto. Qed.

(** The records after the commit, whatever their generation. *)
Lemma finish_commit_ok origin tid before after superseded g s jar :
  exists commit jar', finish_commit origin tid before after superseded g s jar = (Ok commit, jar')
    /\ cm_active_handles commit = active_handles jar' /\ jar_config jar' = jar_config jar
    /\ cm_generation_before commit = g /\ cm_generation_after commit = jar_generation jar'
    /\ jar_generation jar' = (if cs_rotation s then saturating_add (jar_generation jar) 1 else jar_generation jar)
    /\ exists f, (forall r, cr_key (f r) = cr_key r /\ cr_handle (f r) = cr_handle r /\ cr_secure (f r) = cr_secure r)
        /\ jar_records jar' = f <$> cs_records s.
Proof.
  unfold finish_commit. destruct (jar_audit_append _ (jar_audit jar)) as [appended chain] eqn:E.
  edestruct jar_audit_append_total as (h & c' & Ha). rewrite E in Ha. injection Ha as -> ->.
  do 2 eexists. split; [reflexivity|]. split_and!; try done. cbn.
  destruct (cs_rotation s).
  - eexists. split; [|reflexivity]. done.
  - exists id. split; [done|]. by rewrite map_fmap_id.
Qed.

(** What the checks before the transaction give. *)
Lemma prevalidate_ok v binding origin target values now jar origin' mutations superseded :
  prevalidate v binding origin target values now jar = Ok (origin', mutations, superseded) ->
  co_host origin' ∈ sb_allowed_hosts binding
  /\ len (map_iter mutations) <= len values
  /\ prospective_count (jar_records jar) mutations <= maximum_cookie_records (jar_config jar)
  /\ (forall k p, mutations !! k = Some (SetCookie p) -> set_cookie_ok origin' now p /\ k = parsed_key p).
Proof.
  unfold prevalidate. intros H. destruct (_ <? len values); [done|].
  destruct (cookie_origin_new _ _) as [o|]; [|done].
  destruct (jar_validate_request_target _); [|done]. destruct (validate_binding_identity _); [|done].
  destruct (_ || _) eqn:Ho; [done|].
  destruct (parse_mutations _ _ _ _ _ _) as [[m s]|] eqn:Hp; [|done].
  destruct (_ <? prospective_count _ _) eqn:Hl; [done|].
  destruct (collect_results _ _); [|done]. simpl in H. simplify_eq. bools.
  split_and!; [done| |lia|].
  - apply parse_mutations_size in Hp. unfold len at 1. rewrite map_iter_length.
    rewrite map_size_empty in Hp. lia.
  - intros k p Hk. destruct (parse_mutations_ok _ _ _ _ _ _ _ _ Hp) with k p as (? & ? & ?); auto.
    intros k' p'. by rewrite lookup_empty.
Qed.

(** The end of a successful transaction: [records] are the jar's records before
    it, [final] those after it, [base] the secrets before it and [after] those
    after it. *)
Section Outcome.
Context (binding : SecretBinding) (mutations : gmap CookieKey CookieMutation)
  (records staged final : gmap CookieKey CookieRecord) (f : CookieRecord -> CookieRecord)
  (s' : CommitState) (base after : gmap SecretHandle SecretEntry) (v1 : InMemorySecretVault).
Context (Hrec : forall k r, records !! k = Some r -> cr_key r = k /\ is_Some (base !! cr_handle r))
  (Hdist : handles_distinct records) (Hst : staging base binding staged v1)
  (Hother : forall k, k ∉ (map_iter mutations).*1 -> cs_records s' !! k = records !! k)
  (Hdel : forall k, (k, DeleteCookie) ∈ map_iter mutations -> cs_records s' !! k = None)
  (Hset : forall k p, (k, SetCookie p) ∈ map_iter mutations ->
     exists r g, staged !! k = Some r /\ cs_records s' !! k = Some (set_record_generation g r))
  (Hf : forall r, cr_key (f r) = cr_key r /\ cr_handle (f r) = cr_handle r /\ cr_secure (f r) = cr_secure r)
  (Hfin : final = f <$> cs_records s').

(** The handles the transaction revokes. *)
Definition old_handle (h : SecretHandle) : Prop :=
  exists k r, is_Some (mutations !! k) /\ records !! k = Some r /\ cr_handle r = h.
Context (old : list SecretHandle) (Hold : forall h, h ∈ old <-> old_handle h)
  (Hafter : forall h, after !! h = if bool_decide (h ∈ old) then None else entries v1 !! h).

Lemma final_cases k r :
  final !! k = Some r ->
  (mutations !! k = None /\ exists r0, records !! k = Some r0 /\ r = f r0)
  \/ (exists r1 g, staged !! k = Some r1 /\ r = f (set_record_generation g r1)).
Proof.
  rewrite Hfin, lookup_fmap. intros (r0 & Hr0 & ->)%fmap_Some.
  destruct (mutations !! k) as [[p|]|] eqn:Hm.
  - right. destruct (Hset k p) as (r1 & g & ? & ?); [by apply elem_of_map_iter|].
    exists r1, g. split; [done|congruence].
  - rewrite (Hdel k) in Hr0; [done|]. by apply elem_of_map_iter.
  - left. split; [done|]. exists r0. split; [|done]. rewrite <- Hr0. symmetry. apply Hother.
    rewrite map_iter_keys, elem_of_map_keys, Hm. by intros [].
Qed.

(** Every record of the new jar keeps an old secret or holds a new one. *)
Lemma final_secret k r :
  final !! k = Some r ->
  cr_key r = k
  /\ ((exists r0, records !! k = Some r0 /\ mutations !! k = None /\ cr_handle r0 = cr_handle r
         /\ after !! cr_handle r = base !! cr_handle r /\ is_Some (base !! cr_handle r))
      \/ (exists r1, staged !! k = Some r1 /\ cr_handle r1 = cr_handle r
         /\ base !! cr_handle r = None
         /\ exists e, after !! cr_handle r = Some e /\ cookie_scoped binding r e)).
Proof.
  destruct Hst as [Hb _ Hs _].
  intros [(Hm & r0 & Hr0 & ->)|(r1 & g & Hr1 & ->)]%final_cases.
  - destruct (Hf r0) as (-> & -> & _). destruct (Hrec _ _ Hr0) as [Hk [e He]]. split; [done|].
    left. exists r0. split_and!; [done|done|done| |by eauto]. rewrite Hafter, bool_decide_eq_false_2.
    + rewrite He. by apply Hb.
    + intros (k' & r' & [m Hm'] & Hr' & E)%Hold. rewrite (Hdist k' k r' r0 Hr' Hr0 E) in Hm'. congruence.
  - destruct (Hf (set_record_generation g r1)) as (Hkey & Hh & Hsec). rewrite Hkey, Hh. simpl.
    destruct (Hs _ _ Hr1) as (Hk & Hbase & e & He & Hsc). split; [done|]. right. exists r1.
    split_and!; [done|done|done|]. exists e.
    split; [|by apply (cookie_scoped_ext _ r1); [exact Hkey|exact Hsec|]].
    rewrite Hafter, bool_decide_eq_false_2; [done|]. intros (k' & r' & _ & Hr' & E)%Hold.
    destruct (Hrec _ _ Hr') as [_ [e' He']]. congruence.
Qed.

Lemma final_distinct : handles_distinct final.
Proof.
  intros k1 k2 r1 r2 H1 H2 E.
  destruct (final_secret _ _ H1) as (_ & [(a & Ha & _ & Ea & _ & [x Hx])|(a & Ha & Ea & Hx & _)]);
    destruct (final_secret _ _ H2) as (_ & [(b & Hb & _ & Eb & _ & [y Hy])|(b & Hb & Eb & Hy & _)]);
    try congruence.
  - eapply Hdist; [exact Ha|exact Hb|congruence].
  - eapply (sg_distinct _ _ _ _ Hst); [exact Ha|exact Hb|congruence].
Qed.

(** An old record survives with its secret, or its secret is gone. *)
Lemma old_secret k r :
  records !! k = Some r ->
  (exists r', final !! k = Some r' /\ cr_handle r' = cr_handle r) \/ after !! cr_handle r = None.
Proof.
  intros Hr. destruct (mutations !! k) as [m|] eqn:Hm.
  - right. rewrite Hafter, bool_decide_eq_true_2; [done|]. apply Hold. exists k, r. eauto.
  - left. exists (f r). rewrite Hfin, lookup_fmap, Hother, Hr.
    + split; [done|]. apply Hf.
    + rewrite map_iter_keys, elem_of_map_keys, Hm. by intros [].
Qed.
End Outcome.

Lemma old_handles_spec (mutations : gmap CookieKey CookieMutation) records h :
  h ∈ cr_handle <$> omap (fun key => records !! key) (map_keys mutations) <-> old_handle mutations records h.
Proof.
  unfold old_handle. rewrite list_elem_of_fmap. split.
  - intros (r & -> & (k & Hk%elem_of_map_keys & Hr)%list_elem_of_omap). eauto 10.
  - intros (k & r & Hk & Hr & <-). exists r. split; [done|]. apply list_elem_of_omap.
    exists k. by rewrite elem_of_map_keys.
Qed.

(** The transaction returns; a failure leaves the jar's records and the stored
    secrets as they were, a success keeps the jar consistent and in scope. *)
Lemma apply_response_spec v binding origin target values now jar :
  jar_consistent jar v -> fresh_handles v (len values) -> binding_normal binding ->
  exists result jar' v', apply_response v binding origin target values now jar = Done (result, jar', v')
  /\ match result with
     | Err _ => jar_records jar' = jar_records jar /\ jar_generation jar' = jar_generation jar
                /\ entries v' = entries v
     | Ok commit =>
         jar_consistent jar' v' /\ cm_active_handles commit = active_handles jar'
         /\ cm_generation_after commit = jar_generation jar'
         /\ (forall k r, jar_records jar' !! k = Some r ->
              (exists r0, jar_records jar !! k = Some r0 /\ cr_handle r0 = cr_handle r
                          /\ entries v' !! cr_handle r = entries v !! cr_handle r)
              \/ (entries v !! cr_handle r = None
                  /\ exists e, entries v' !! cr_handle r = Some e /\ cookie_scoped binding r e))
         /\ (forall k r, jar_records jar !! k = Some r ->
              (exists r', jar_records jar' !! k = Some r' /\ cr_handle r' = cr_handle r)
              \/ entries v' !! cr_handle r = None)
     end.
Proof.
  intros [Hrec Hdist Hlim] Hfresh Hbn. unfold apply_response.
  destruct (prevalidate _ _ _ _ _ _ _) as [[[o mutations] superseded]|e] eqn:Hpre; [|by exists (Err e), jar, v].
  apply prevalidate_ok in Hpre as (Hoh & Hlen & Hcount & Hsets).
  pose proof (map_iter_NoDup mutations) as Hnd.
  assert (Hin : forall k p, (k, SetCookie p) ∈ map_iter mutations -> set_cookie_ok o now p /\ k = parsed_key p)
    by (intros k p Hk%elem_of_map_iter; by apply Hsets).
  assert (Hstart : staging (entries v) binding ∅ v)
    by (constructor; [done | by left | by intros k r ?%lookup_empty_Some
                     | by intros k1 k2 r1 r2 ?%lookup_empty_Some]).
  set (jar1 := next_transaction jar). change (jar_records jar1) with (jar_records jar).
  destruct (stage_cookies _ _ _ _ _ _ _) as [[staged|e] v1] eqn:Hstage;
    apply (stage_cookies_spec (entries v) binding o now _ _ _ _ (len values - len (map_iter mutations))) in Hstage;
    try done; try (by intros k _; apply lookup_empty);
    try (destruct Hfresh; split; [done|lia]); [|by exists (Err e), jar1, v1].
  destruct Hstage as (Hst & _ & Hiff).
  set (old := cr_handle <$> omap (fun key => jar_records jar !! key) (map_keys mutations)).
  pose proof (old_handles_spec mutations (jar_records jar)) as Hold. fold old in Hold.
  destruct (rollback_handles_ok old v1) as (v2 & Hroll & He2 & _).
  { apply staged_handles_NoDup; [done | apply map_keys_NoDup]. }
  { intros h (k & r & _ & Hr & <-)%Hold. destruct (Hrec _ _ Hr) as [_ [e He]]. exists e.
    by apply (sg_base _ _ _ _ Hst). }
  rewrite (revoke_old_ok staged _ _ _ Hroll).
  edestruct (commit_mutations_ok (jar_config jar1) (jar_generation jar1) (map_iter mutations))
    as (s' & -> & [Hother Hdel Hset Hsize]); [exact Hnd| |].
  { intros k p Hk. simpl. apply Hiff. right. eauto. }
  simpl in Hother, Hset, Hsize.
  edestruct finish_commit_ok as (commit & jar2 & -> & Hact & Hcfg & _ & Hga & _ & f & Hf & Hjr).
  do 3 eexists. split; [reflexivity|].
  pose proof (final_secret binding mutations (jar_records jar) staged _ f s' (entries v) (entries v2) v1
    Hrec Hdist Hst Hother Hdel Hset Hf Hjr old Hold He2) as Hfinal.
  split_and!; [constructor|done|done| |].
  - intros k r Hk. destruct (Hfinal _ _ Hk) as (? & [(r0 & _ & _ & _ & -> & ?)|(r1 & _ & _ & _ & e & ? & _)]); eauto.
  - by eapply final_distinct.
  - rewrite Hcfg, Hjr, map_size_fmap. rewrite prospective_count_eq in Hcount.
    change (jar_config jar1) with (jar_config jar). lia.
  - intros k r Hk. destruct (Hfinal _ _ Hk) as (_ & [(r0 & ? & _ & ? & ? & _)|(r1 & _ & _ & ? & ?)]); eauto 10.
  - intros k r. by eapply old_secret.
Qed.

(** *** Seeding and purging *)

Lemma seed_handles_ok v generation handles records records' (seen : list SecretHandle) :
  seed_handles v generation handles records = (Ok tt, records') ->
  NoDup handles -> (forall h, h ∈ handles -> h ∉ seen) ->
  (forall k r, records !! k = Some r -> cr_key r = k /\ is_Some (entries v !! cr_handle r) /\ cr_handle r ∈ seen) ->
  handles_distinct records ->
  (forall k r, records' !! k = Some r -> cr_key r = k /\ is_Some (entries v !! cr_handle r)
     /\ (cr_handle r ∈ seen \/ cr_handle r ∈ handles))
  /\ handles_distinct records'.
Proof.
  revert records seen. induction handles as [|h hs IH]; intros records seen H Hnd Hfresh Hr Hd; simpl in H.
  { simplify_eq. split; [|done]. intros k r Hk. destruct (Hr _ _ Hk) as (? & ? & ?). auto. }
  apply NoDup_cons in Hnd as [Hh Hnd].
  destruct (vault_metadata h v) as [metadata|] eqn:Hm; [|done].
  assert (Hsome : is_Some (entries v !! h))
    by (unfold vault_metadata in Hm; destruct (entries v !! h); [by eauto | done]).
  assert (Hskip : forall k r, records !! k = Some r ->
    cr_key r = k /\ is_Some (entries v !! cr_handle r) /\ cr_handle r ∈ h :: seen) by set_solver.
  destruct (negb _).
  { destruct (IH _ (h :: seen) H Hnd) as [IH1 IH2]; [set_solver|done|done|]. split; [|done].
    intros k r Hk. destruct (IH1 _ _ Hk) as (? & ? & ?). split_and!; [done|done|set_solver]. }
  destruct (md_delivery metadata) as [cookie|]; [|done].
  destruct (seeded_record generation h metadata cookie) as [rec|] eqn:Hrec; [|done].
  assert (Hrh : cr_handle rec = h) by (unfold seeded_record in Hrec; by inv_ok Hrec).
  destruct (IH _ (h :: seen) H Hnd) as [IH1 IH2]; [set_solver| | |].
  - intros k r [[<- <-]|[_ Hk]]%lookup_insert_Some; [|by apply Hskip].
    rewrite Hrh. split_and!; [done|done|set_solver].
  - intros k1 k2 r1 r2 [[<- <-]|[? H1]]%lookup_insert_Some [[<- <-]|[? H2]]%lookup_insert_Some E; auto.
    + destruct (Hr _ _ H2) as (_ & _ & ?). destruct (Hfresh h); [set_solver|congruence].
    + destruct (Hr _ _ H1) as (_ & _ & ?). destruct (Hfresh h); [set_solver|congruence].
    + by eapply Hd.
  - split; [|done]. intros k r Hk. destruct (IH1 _ _ Hk) as (? & ? & ?).
    split_and!; [done|done|set_solver].
Qed.

(** A jar seeded from the vault is consistent, with handles of the seed. *)
Lemma seed_from_vault_ok handles v jar0 jar :
  seed_from_vault handles v jar0 = (Ok tt, jar) -> jar_records jar0 = ∅ -> NoDup handles ->
  jar_consistent jar v /\ jar_config jar = jar_config jar0 /\ jar_generation jar = jar_generation jar0
  /\ forall k r, jar_records jar !! k = Some r -> cr_handle r ∈ handles.
Proof.
  unfold seed_from_vault. intros H He Hnd. rewrite He in H.
  destruct (seed_handles v (jar_generation jar0) handles ∅) as [[[]|e] records] eqn:Hs; [|done].
  destruct (_ <? _) eqn:Hl; [done|]. simplify_eq. bools.
  destruct (seed_handles_ok v _ _ _ _ [] Hs Hnd) as [Hr Hd];
    [set_solver | by intros k r ?%lookup_empty_Some | by intros k1 k2 r1 r2 ?%lookup_empty_Some |].
  split_and!; [constructor|done|done|]; simpl; auto.
  - intros k r Hk. by destruct (Hr _ _ Hk) as (? & ? & _).
  - intros k r Hk. destruct (Hr _ _ Hk) as (_ & _ & [?|?]); [set_solver|done].
Qed.

Lemma revoke_handles_ok handles v v' :
  rollback_handles handles v = (Ok tt, v') -> revoke_handles handles v = (Ok tt, v').
Proof.
  revert v. induction handles as [|h hs IH]; intros v H; simpl in *; [by simplify_eq|].
  destruct (revoke_secret h v) as [[u|e] v1]; [by apply IH | done].
Qed.

Lemma key_hashes_total keys : exists hs, key_hashes keys = Done hs.
Proof.
  induction keys as [|k ks [hs IH]]; simpl; [by eauto|].
  unfold cookie_key_hash. destruct (to_vec_total k) as [b ->]. rewrite IH. eauto.
Qed.

(** Purging a consistent jar revokes exactly its secrets. *)
Lemma jar_purge_ok v reason jar :
  jar_validate_identifier reason "reason" = Ok tt -> jar_consistent jar v ->
  exists commit jar' v', jar_purge v reason jar = Done (Ok commit, jar', v')
    /\ jar_records jar' = ∅ /\ jar_config jar' = jar_config jar
    /\ forall h, entries v' !! h = if bool_decide (h ∈ active_handles jar) then None else entries v !! h.
Proof.
  intros Hv [Hr Hd _]. unfold jar_purge. rewrite Hv.
  destruct (rollback_handles_ok (active_handles jar) v) as (v' & Hroll & He & _).
  - unfold active_handles. rewrite map_values_omap. apply staged_handles_NoDup; [done|apply map_keys_NoDup].
  - unfold active_handles. intros h (r & -> & (k & Hk)%elem_of_map_values)%list_elem_of_fmap. by apply (Hr k).
  - unfold active_handles in Hroll. rewrite (revoke_handles_ok _ _ _ Hroll).
    destruct (key_hashes_total (map_keys (jar_records jar))) as [hs ->].
    destruct (jar_audit_append _ _) as [appended chain] eqn:E.
    edestruct jar_audit_append_total as (h & c' & Ha). rewrite E in Ha. injection Ha as -> ->.
    do 3 eexists. split; [reflexivity|]. split_and!; done.
Qed.

End Transaction.

(** ** Properties *)

Section Properties.
Context {D : HttpDateLib} {S : Sha256Lib} {J : JsonLib (HashMaterial VaultAuditEvent)}
  {JC : JsonLib (HashMaterial CookieJarAuditEvent)} {JK : JsonLib CookieKey}
  `{!JsonTotal (HashMaterial VaultAuditEvent)} `{!JsonTotal CookieKey}
  `{!JsonTotal (HashMaterial CookieJarAuditEvent)}.

(** C14: a cookie transaction is atomic: for a jar whose records hold different,
    stored secrets, processing the [Set-Cookie] fields of a response always
    returns, and when it fails, for whatever reason and after whatever prefix of
    the work, the jar's records, its generation and the secrets of the vault are
    what they were. *)
Theorem cookie_transaction_is_atomic v binding origin target values now jar :
  jar_consistent jar v -> fresh_handles v (len values) -> binding_normal binding ->
  exists result jar' v', apply_response v binding origin target values now jar = Done (result, jar', v')
  /\ (is_ok result = false ->
       jar_records jar' = jar_records jar /\ jar_generation jar' = jar_generation jar
       /\ entries v' = entries v).
Proof.
  intros Hj Hf Hb. destruct (apply_response_spec v binding origin target values now jar Hj Hf Hb)
    as (result & jar' & v' & H & Hr). exists result, jar', v'. split; [done|]. by destruct result.
Qed.

(** Cookies never widen the session: after a committed transaction the jar is
    again consistent and within its limit, and every cookie it holds is one it
    held before, with the same secret, or a new secret bound to the identity of
    the session and to hosts and schemes of the session only, each host within
    the cookie's domain and only [https] for a secure cookie; the secrets of
    replaced and deleted cookies are gone. *)
Theorem cookies_stay_in_session_scope v binding origin target values now jar commit jar' v' :
  jar_consistent jar v -> fresh_handles v (len values) -> binding_normal binding ->
  apply_response v binding origin target values now jar = Done (Ok commit, jar', v') ->
  jar_consistent jar' v' /\ cm_active_handles commit = active_handles jar'
  /\ (forall k r, jar_records jar' !! k = Some r ->
       (exists r0, jar_records jar !! k = Some r0 /\ cr_handle r0 = cr_handle r
                   /\ entries v' !! cr_handle r = entries v !! cr_handle r)
       \/ (entries v !! cr_handle r = None
           /\ exists e, entries v' !! cr_handle r = Some e /\ cookie_scoped binding r e))
  /\ (forall k r, jar_records jar !! k = Some r ->
       (exists r', jar_records jar' !! k = Some r' /\ cr_handle r' = cr_handle r)
       \/ entries v' !! cr_handle r = None).
Proof.
  intros Hj Hf Hb Ha. destruct (apply_response_spec v binding origin target values now jar Hj Hf Hb)
    as (result & jar1 & v1 & H & Hr). rewrite Ha in H. simplify_eq. by destruct Hr as (? & ? & _ & ? & ?).
Qed.
End Properties.

(** ** A concrete jar *)

Definition toy_date : HttpDateLib := {| parse_http_date := fun _ => None |}.
Definition toy_jar_json : JsonLib (HashMaterial CookieJarAuditEvent) := toy_json je_action.
Definition toy_key_json : JsonLib CookieKey :=
  {| to_vec k := Ok (key_name k ++ ("," : str) ++ key_domain k ++ ("," : str) ++ key_path k) |}.

Lemma toy_key_json_total : @JsonTotal CookieKey toy_key_json.
Proof. constructor. intros k. simpl. eauto. Qed.

Definition session_binding : SecretBinding :=
  {| sb_run_id := "run-1"; sb_worker_id := "worker-1"; sb_account_id := "account-a";
     sb_tenant_id := "tenant-a"; sb_role_id := "admin";
     sb_allowed_hosts := {[ ("app.example.com" : str) ]}; sb_allowed_schemes := {[ ("https" : str) ]} |}.
Definition session_origin : CookieOrigin := {| co_host := "app.example.com"; co_scheme := "https" |}.

Section Sample.
Local Existing Instances toy_sha256 toy_vault_json toy_jar_json toy_key_json toy_date.

Definition empty_jar : CookieJar :=
  {| jar_id := "jar-1"; jar_config := jar_conservative_default; jar_records := ∅; jar_generation := 1;
     jar_next_transaction_id := 1; jar_audit := jar_audit_new "jar-1" |}.

(** Two cookies that commit, and two of which the second is refused by the vault
    after the first was stored. *)
Definition good_cookies : list str :=
  ["session=abc; Secure; HttpOnly; Path=/" : str; "theme=dark" : str].
Definition half_bad_cookies : list str := ["a=1" : str; "b=" : str].

Definition jar_run (values : list str)
    : Run (Result CookieCommit CookieJarError * CookieJar * InMemorySecretVault) :=
  apply_response sv0 session_binding session_origin "/login" values 100 empty_jar.

Example good_cookies_commit :
  match jar_run good_cookies with
  | Done (Ok commit, jar, v) =>
      (cm_inserted commit =? 2) && (cm_generation_after commit =? 2) && (secret_count v =? 2)
  | _ => false
  end = true.
Proof. vm_compute. reflexivity. Qed.

Example half_bad_cookies_fail :
  match jar_run half_bad_cookies with
  | Done (Err (JarVault InvalidSecretSize), jar, v) => secret_count v =? 0
  | _ => false
  end = true.
Proof. vm_compute. reflexivity. Qed.

Lemma session_binding_normal : binding_normal session_binding.
Proof. split; intros x; cbn; intros ->%elem_of_singleton; vm_compute; reflexivity. Qed.

Lemma empty_jar_consistent : jar_consistent empty_jar sv0.
Proof.
  constructor; [| |by vm_compute].
  - intros k r Hk. by apply (lookup_empty_Some k r) in Hk.
  - intros k1 k2 r1 r2 Hk. by apply (lookup_empty_Some k1 r1) in Hk.
Qed.

Lemma sv0_fresh n : n < 1000 -> fresh_handles sv0 n.
Proof.
  intros Hn. split; [intros h e Hl; by apply (lookup_empty_Some h e) in Hl|]. change (next_secret_id sv0) with 1.
  change u64_max with 18446744073709551615. lia.
Qed.
End Sample.

(** ** Witnesses *)

Section Witnesses.
Local Existing Instances toy_sha256 toy_vault_json toy_jar_json toy_key_json toy_date
  toy_key_json_total.

Lemma cookie_transaction_is_atomic_witness :
  exists result jar' v', jar_run half_bad_cookies = Done (result, jar', v')
  /\ (is_ok result = false ->
      jar_records jar' = jar_records empty_jar /\ jar_generation jar' = jar_generation empty_jar
      /\ entries v' = entries sv0).
Proof.
  exact (@cookie_transaction_is_atomic _ _ _ _ _ (toy_json_total _) toy_key_json_total (toy_json_total _)
    sv0 session_binding session_origin "/login" half_bad_cookies 100 empty_jar
    empty_jar_consistent (sv0_fresh 2 ltac:(lia)) session_binding_normal).
Defined.

Lemma cookies_stay_in_session_scope_witness :
  exists commit jar' v', jar_run good_cookies = Done (Ok commit, jar', v') /\ jar_consistent jar' v'.
Proof.
  assert (H : match jar_run good_cookies with Done (Ok _, _, _) => true | _ => false end = true)
    by (vm_compute; reflexivity).
  destruct (jar_run good_cookies) as [[[[commit|e] jar'] v']|] eqn:E; try discriminate H.
  exists commit, jar', v'. split; [reflexivity|]. unfold jar_run in E.
  exact (proj1 (@cookies_stay_in_session_scope _ _ _ _ _ (toy_json_total _) toy_key_json_total (toy_json_total _)
    sv0 session_binding session_origin "/login" good_cookies 100 empty_jar commit jar' v'
    empty_jar_consistent (sv0_fresh 2 ltac:(lia)) session_binding_normal E)).
Defined.
End Witnesses.
