(* ===== verification/Session.v ===== *)
(** * Session: the session broker ([crates/nxb-session])

    A session binds vault secrets to one account, tenant, role, run and worker and
    to a set of hosts and schemes. [exchange] runs an authenticated HTTP/1
    exchange: it checks the session, leases and materialises its secrets for the
    stream's own authority, hands them to the codec, and commits the cookies of
    the response. The theorems compose the vault, the cookie jar and the codec. *)

From S2P Require Import Prelude ByteStr BTree HashChain Transport Executor Stream HttpSyntax Vault SecretVault CookieJar Http1 Http1Facts Http1Codec Http1CodecFacts Tls GatedCodec CookieJarFacts.
Local Open Scope N_scope.

(** ** Data *)

Record SessionProfile : Type := {
  sp_run_id : str;
  sp_worker_id : str;
  sp_account_id : str;
  sp_tenant_id : str;
  sp_role_id : str;
  sp_allowed_hosts : gset str;
  sp_allowed_schemes : gset str;
  sp_secret_handles : list SecretHandle;
  sp_expires_at_epoch_seconds : Z
}.

Record SessionUseContext : Type := {
  uc_run_id : str;
  uc_worker_id : str;
  uc_account_id : str;
  uc_tenant_id : str;
  uc_role_id : str
}.

Record SessionExchangeOptions : Type := {
  so_lease_seconds : Z;
  so_now_epoch_seconds : Z;
  so_control : StreamControl
}.

Inductive SessionStatus : Type := SessionActive | SessionStatusRevoked.

Record SessionMetadata : Type := {
  sm_session_id : str;
  sm_profile : SessionProfile;
  sm_status : SessionStatus;
  sm_created_at_epoch_seconds : Z;
  sm_generation : N;
  sm_cookie_jar_audit_tail : str
}.

Record SessionState : Type := { ss_metadata : SessionMetadata; ss_cookie_jar : CookieJar }.

Record SessionAuditEvent : Type := {
  sa_action : str;
  sa_outcome : str;
  sa_broker_id : str;
  sa_session_id : option str;
  sa_metadata : gmap str str
}.

Record SessionBroker : Type := {
  broker_id : str;
  sessions : gmap str SessionState;
  next_session_id : N;
  broker_audit : HashChain SessionAuditEvent
}.

Inductive SessionError : Type :=
  | SessionInvalidIdentifier (name : str)
  | InvalidProfile (message : str)
  | UnknownSession
  | SessionExpired
  | SessionRevoked
  | SessionContextMismatch
  | SessionAuthorityMismatch
  | SecretBindingMismatch
  | SecretExpiresBeforeSession
  | SessionInvalidLeaseDuration
  | SessionVault (error : VaultError)
  | SessionCookieJar (error : CookieJarError)
  | SessionHttp (error : Http1Error)
  | SessionAuditSerialization (message : str)
  | SessionAuditSequenceMismatch (record_index : N)
  | SessionAuditPreviousHashMismatch (record_index : N)
  | SessionAuditRecordHashMismatch (record_index : N)
  | SessionAuditTailMismatch.

Definition session_error_code (self : SessionError) : str :=
  match self with
  | SessionInvalidIdentifier _ => "invalid_identifier"
  | InvalidProfile _ => "invalid_profile"
  | UnknownSession => "unknown_session"
  | SessionExpired => "session_expired"
  | SessionRevoked => "session_revoked"
  | SessionContextMismatch => "session_context_mismatch"
  | SessionAuthorityMismatch => "session_authority_mismatch"
  | SecretBindingMismatch => "secret_binding_mismatch"
  | SecretExpiresBeforeSession => "secret_expires_before_session"
  | SessionInvalidLeaseDuration => "invalid_lease_duration"
  | SessionVault _ => "vault_rejected"
  | SessionCookieJar _ => "cookie_jar_rejected"
  | SessionHttp _ => "http1_rejected"
  | SessionAuditSerialization _ => "audit_serialization"
  | SessionAuditSequenceMismatch _ => "audit_sequence_mismatch"
  | SessionAuditPreviousHashMismatch _ => "audit_previous_hash_mismatch"
  | SessionAuditRecordHashMismatch _ => "audit_record_hash_mismatch"
  | SessionAuditTailMismatch => "audit_tail_mismatch"
  end.

(** ** Validation *)

Definition session_validate_identifier (value name : str) : Result unit SessionError :=
  if (len value =? 0) || (128 <? len value)
     || negb (forallb (fun c => is_ascii_alphanumeric c || (is_byte 45 c || is_byte 95 c || is_byte 46 c)) value)
  then Err (SessionInvalidIdentifier name) else Ok tt.

Definition session_normalize_host (host : str) : Result str SessionError :=
  let host := to_ascii_lowercase (trim_end_matches (is_byte 46) host) in
  if (len host =? 0) || (253 <? len host)
     || existsb (fun c => negb (is_ascii_alphanumeric c || (is_byte 46 c || is_byte 45 c))) host
  then Err (InvalidProfile "host is invalid") else Ok host.

Definition session_normalize_scheme (scheme : str) : Result str SessionError :=
  let scheme := to_ascii_lowercase scheme in
  if bool_decide (scheme = "http") || bool_decide (scheme = "https") then Ok scheme
  else Err (InvalidProfile "scheme is invalid").

Definition normalize_profile (profile : SessionProfile) (now_epoch_seconds : Z)
    : Result SessionProfile SessionError :=
  let? _ := session_validate_identifier (sp_run_id profile) "run_id" in
  let? _ := session_validate_identifier (sp_worker_id profile) "worker_id" in
  let? _ := session_validate_identifier (sp_account_id profile) "account_id" in
  let? _ := session_validate_identifier (sp_tenant_id profile) "tenant_id" in
  let? _ := session_validate_identifier (sp_role_id profile) "role_id" in
  if (sp_expires_at_epoch_seconds profile <=? now_epoch_seconds)%Z
  then Err (InvalidProfile "session expiry must be in the future")
  else if bool_decide (sp_allowed_hosts profile = ∅) || bool_decide (sp_allowed_schemes profile = ∅)
  then Err (InvalidProfile "host and scheme sets must not be empty")
  else
    let? hosts := collect_results session_normalize_host (btree_iter (sp_allowed_hosts profile)) in
    let? schemes := collect_results session_normalize_scheme (btree_iter (sp_allowed_schemes profile)) in
    Ok {| sp_run_id := sp_run_id profile; sp_worker_id := sp_worker_id profile;
          sp_account_id := sp_account_id profile; sp_tenant_id := sp_tenant_id profile;
          sp_role_id := sp_role_id profile;
          sp_allowed_hosts := list_to_set hosts; sp_allowed_schemes := list_to_set schemes;
          sp_secret_handles := sp_secret_handles profile;
          sp_expires_at_epoch_seconds := sp_expires_at_epoch_seconds profile |}.

Definition validate_session_use (session : SessionMetadata) (context : SessionUseContext)
    (authority scheme : str) (now_epoch_seconds : Z) : Result unit SessionError :=
  let profile := sm_profile session in
  match sm_status session with
  | SessionStatusRevoked => Err SessionRevoked
  | SessionActive =>
      if (sp_expires_at_epoch_seconds profile <=? now_epoch_seconds)%Z then Err SessionExpired
      else if bool_decide (sp_run_id profile <> uc_run_id context)
              || bool_decide (sp_worker_id profile <> uc_worker_id context)
              || bool_decide (sp_account_id profile <> uc_account_id context)
              || bool_decide (sp_tenant_id profile <> uc_tenant_id context)
              || bool_decide (sp_role_id profile <> uc_role_id context)
      then Err SessionContextMismatch
      else if negb (bool_decide (authority ∈ sp_allowed_hosts profile))
              || negb (bool_decide (scheme ∈ sp_allowed_schemes profile))
      then Err SessionAuthorityMismatch
      else Ok tt
  end.

Definition secret_binding_from_profile (profile : SessionProfile) : SecretBinding :=
  {| sb_run_id := sp_run_id profile; sb_worker_id := sp_worker_id profile;
     sb_account_id := sp_account_id profile; sb_tenant_id := sp_tenant_id profile;
     sb_role_id := sp_role_id profile; sb_allowed_hosts := sp_allowed_hosts profile;
     sb_allowed_schemes := sp_allowed_schemes profile |}.

(** The check of one secret of a new session. *)
Definition session_covers (profile : SessionProfile) (vault : InMemorySecretVault) (handle : SecretHandle)
    : Result unit SessionError :=
  let? secret := map_err SessionVault (vault_metadata handle vault) in
  let binding := md_binding secret in
  if bool_decide (sb_run_id binding <> sp_run_id profile)
     || bool_decide (sb_worker_id binding <> sp_worker_id profile)
     || bool_decide (sb_account_id binding <> sp_account_id profile)
     || bool_decide (sb_tenant_id binding <> sp_tenant_id profile)
     || bool_decide (sb_role_id binding <> sp_role_id profile)
     || negb (bool_decide (sp_allowed_hosts profile ⊆ sb_allowed_hosts binding))
     || negb (bool_decide (sp_allowed_schemes profile ⊆ sb_allowed_schemes binding))
  then Err SecretBindingMismatch
  else if match md_expires_at_epoch_seconds secret with
          | Some expires => (expires <? sp_expires_at_epoch_seconds profile)%Z
          | None => false
          end
  then Err SecretExpiresBeforeSession
  else Ok tt.

Definition with_secret_handles (handles : list SecretHandle) (p : SessionProfile) : SessionProfile :=
  {| sp_run_id := sp_run_id p; sp_worker_id := sp_worker_id p; sp_account_id := sp_account_id p;
     sp_tenant_id := sp_tenant_id p; sp_role_id := sp_role_id p;
     sp_allowed_hosts := sp_allowed_hosts p; sp_allowed_schemes := sp_allowed_schemes p;
     sp_secret_handles := handles; sp_expires_at_epoch_seconds := sp_expires_at_epoch_seconds p |}.

Definition with_status (status : SessionStatus) (m : SessionMetadata) : SessionMetadata :=
  {| sm_session_id := sm_session_id m; sm_profile := sm_profile m; sm_status := status;
     sm_created_at_epoch_seconds := sm_created_at_epoch_seconds m; sm_generation := sm_generation m;
     sm_cookie_jar_audit_tail := sm_cookie_jar_audit_tail m |}.

(** The metadata after a cookie transaction. *)
Definition with_commit (handles : list SecretHandle) (commit : CookieCommit) (m : SessionMetadata)
    : SessionMetadata :=
  {| sm_session_id := sm_session_id m; sm_profile := with_secret_handles handles (sm_profile m);
     sm_status := sm_status m; sm_created_at_epoch_seconds := sm_created_at_epoch_seconds m;
     sm_generation := cm_generation_after commit; sm_cookie_jar_audit_tail := cm_audit_tail commit |}.

Definition with_sessions (m : gmap str SessionState) (self : SessionBroker) : SessionBroker :=
  {| broker_id := broker_id self; sessions := m; next_session_id := next_session_id self;
     broker_audit := broker_audit self |}.

Section Broker.
Context {D : HttpDateLib} {S : Sha256Lib} {J : JsonLib (HashMaterial VaultAuditEvent)}
  {JF : JsonLib FingerprintMaterial}
  {JC : JsonLib (HashMaterial CookieJarAuditEvent)} {JK : JsonLib CookieKey}
  {JB : JsonLib (HashMaterial SessionAuditEvent)}
  {JS : JsonLib (HashMaterial StreamAuditEvent)} {JH : JsonLib (HashMaterial Http1AuditEvent)}
  {JG : JsonLib (HashMaterial Http1ChannelAuditEvent)}
  {B : Type} {BB : ByteStreamBackend B}.

Definition session_chain_error (e : ChainError) : SessionError :=
  match e with
  | InvalidGenesisHash => SessionAuditTailMismatch
  | Serialization message => SessionAuditSerialization message
  | SequenceMismatch i => SessionAuditSequenceMismatch i
  | PreviousHashMismatch i => SessionAuditPreviousHashMismatch i
  | RecordHashMismatch i => SessionAuditRecordHashMismatch i
  | TailHashMismatch => SessionAuditTailMismatch
  end.

Definition record_session_event (action outcome : str) (session_id : option str)
    (metadata : gmap str str) (self : SessionBroker) : Result unit SessionError * SessionBroker :=
  let event := {| sa_action := action; sa_outcome := outcome; sa_broker_id := broker_id self;
                  sa_session_id := session_id; sa_metadata := metadata |} in
  let (appended, chain) := chain_append event (broker_audit self) in
  let broker := {| broker_id := broker_id self; sessions := sessions self;
                   next_session_id := next_session_id self; broker_audit := chain |} in
  (match appended with Ok _ => Ok tt | Err e => Err (session_chain_error e) end, broker).

Definition session_audit_verify (chain : HashChain SessionAuditEvent) : Result unit SessionError :=
  map_err session_chain_error (chain_verify chain).

Definition broker_new (broker_id : str) : Result SessionBroker SessionError :=
  let? _ := session_validate_identifier broker_id "broker_id" in
  Ok {| broker_id := broker_id; sessions := ∅; next_session_id := 1;
        broker_audit := chain_new (to_lower_hex (sha256 (("nxb-session:" : str) ++ broker_id))) |}.

(** The checks of [create_session] that leave the broker alone. *)
Definition session_profile_for (profile : SessionProfile) (vault : InMemorySecretVault)
    (now_epoch_seconds : Z) : Result SessionProfile SessionError :=
  let? profile := normalize_profile profile now_epoch_seconds in
  let handles := sp_secret_handles profile in
  if (len handles =? 0) || (MAX_SECRET_HANDLES_PER_LEASE <? len handles)
  then Err (InvalidProfile "secret handle count is outside the supported range")
  else if negb (N.of_nat (size (list_to_set handles : gset str)) =? len handles)
  then Err (InvalidProfile "secret handles must be unique")
  else
    let? _ := collect_results (session_covers profile vault) handles in
    Ok profile.

(** The cookie jar of a new session. *)
Definition session_jar (session_id : str) (profile : SessionProfile) (vault : InMemorySecretVault)
    : Result CookieJar SessionError :=
  let? metadata := map_err SessionVault
    (collect_results (fun handle => vault_metadata handle vault) (sp_secret_handles profile)) in
  let non_cookie_handle_count := len (List.filter (fun m => negb (kind_is_cookie (md_kind m))) metadata) in
  if MAX_SECRET_HANDLES_PER_LEASE <? non_cookie_handle_count
  then Err (InvalidProfile "non-cookie secret handles exceed the session limit")
  else
    let? jar := map_err SessionCookieJar
      (jar_new (session_id ++ ("-cookie-jar" : str))
         {| maximum_set_cookie_headers := maximum_set_cookie_headers jar_conservative_default;
            maximum_cookie_records := MAX_SECRET_HANDLES_PER_LEASE - non_cookie_handle_count;
            rotation_cookie_names := rotation_cookie_names jar_conservative_default |}) in
    match seed_from_vault (sp_secret_handles profile) vault jar with
    | (Ok _, jar) => Ok jar
    | (Err e, _) => Err (SessionCookieJar e)
    end.

Definition create_session (profile : SessionProfile) (vault : InMemorySecretVault)
    (now_epoch_seconds : Z) (self : SessionBroker) : Result SessionMetadata SessionError * SessionBroker :=
  match session_profile_for profile vault now_epoch_seconds with
  | Err e => (Err e, self)
  | Ok profile =>
      let session_id := broker_id self ++ ("-session-" : str) ++ decimal020 (next_session_id self) in
      let self := {| broker_id := broker_id self; sessions := sessions self;
                     next_session_id := saturating_add (next_session_id self) 1;
                     broker_audit := broker_audit self |} in
      match session_jar session_id profile vault with
      | Err e => (Err e, self)
      | Ok jar =>
          let metadata := {| sm_session_id := session_id; sm_profile := profile;
                             sm_status := SessionActive;
                             sm_created_at_epoch_seconds := now_epoch_seconds;
                             sm_generation := jar_generation jar;
                             sm_cookie_jar_audit_tail := tail_hash (jar_audit jar) |} in
          match record_session_event "session_created" "active" (Some session_id)
                  (list_to_map [("secret_handle_count" : str, decimal (len (sp_secret_handles profile)));
                                ("expires_at" : str, decimal_z (sp_expires_at_epoch_seconds profile))])
                  (with_sessions (<[session_id := {| ss_metadata := metadata; ss_cookie_jar := jar |}]>
                                    (sessions self)) self) with
          | (Err e, self) => (Err e, with_sessions (delete session_id (sessions self)) self)
          | (Ok _, self) => (Ok metadata, self)
          end
      end
  end.

Definition session_metadata (session_id : str) (self : SessionBroker) : Result SessionMetadata SessionError :=
  match sessions self !! session_id with
  | Some state => Ok (ss_metadata state)
  | None => Err UnknownSession
  end.

(** The closure of [exchange]: the secrets go from the vault to the codec. *)
Definition authenticated_exchange (session_id : str) (metadata : SessionMetadata)
    (context : SessionUseContext) (authority scheme : str) (vault : InMemorySecretVault)
    (codec : GatedCodec B) (request : Http1Request) (options : SessionExchangeOptions)
    : Run (Result Http1Exchange SessionError * InMemorySecretVault * GatedCodec B) :=
  let now := so_now_epoch_seconds options in
  match validate_session_use metadata context authority scheme now with
  | Err e => Done (Err e, vault, codec)
  | Ok _ =>
  if (so_lease_seconds options <=? 0)%Z || (MAX_SECRET_LEASE_SECONDS <? so_lease_seconds options)%Z
  then Done (Err SessionInvalidLeaseDuration, vault, codec)
  else
  let access := {| vc_run_id := uc_run_id context; vc_worker_id := uc_worker_id context;
                   vc_account_id := uc_account_id context; vc_tenant_id := uc_tenant_id context;
                   vc_role_id := uc_role_id context; vc_authority := authority; vc_scheme := scheme |} in
  let (leased, vault) :=
    vault_lease (sp_secret_handles (sm_profile metadata)) access (so_lease_seconds options) now vault in
  match leased with
  | Err e => Done (Err (SessionVault e), vault, codec)
  | Ok lease =>
      let! (materialized, _, vault) :=
        materialize_http_headers lease session_id (hq_target request) now vault in
      match materialized with
      | Err e => Done (Err (SessionVault e), vault, codec)
      | Ok header_lease =>
          let! (exchanged, _, codec) :=
            gated_exchange_with_secret_headers request header_lease now (so_control options) codec in
          Done (map_err SessionHttp exchanged, vault, codec)
      end
  end
  end.

Definition set_cookie_values (response : Http1Response) : list str :=
  hh_value <$> List.filter (fun header => eq_ignore_ascii_case (hh_name header) "set-cookie")
                 (hr_headers response).

(** The handles of a session after its jar changed: the new jar's in place of the
    old jar's, without duplicates and in order. *)
Definition rotated_handles (previous active handles : list SecretHandle) : list SecretHandle :=
  btree_iter (list_to_set
    (List.filter (fun handle => negb (bool_decide (handle ∈ previous))) handles ++ active) : gset str).

Definition apply_response_cookies (session_id : str) (vault : InMemorySecretVault) (exchange : Http1Exchange)
    (authority scheme request_target : str) (now_epoch_seconds : Z) (self : SessionBroker)
    : Run (Result (option CookieCommit) SessionError * SessionBroker * InMemorySecretVault) :=
  let values := set_cookie_values (he_response exchange) in
  if bool_decide (values = []) then Done (Ok None, self, vault)
  else match sessions self !! session_id with
  | None => Done (Err UnknownSession, self, vault)
  | Some state =>
      let profile := sm_profile (ss_metadata state) in
      match cookie_origin_new authority scheme with
      | Err e => Done (Err (SessionCookieJar e), self, vault)
      | Ok origin =>
          let previous := active_handles (ss_cookie_jar state) in
          let! (applied, jar, vault) :=
            apply_response vault (secret_binding_from_profile profile) origin request_target values
              now_epoch_seconds (ss_cookie_jar state) in
          let updated metadata :=
            with_sessions (<[session_id := {| ss_metadata := metadata; ss_cookie_jar := jar |}]> (sessions self)) self in
          match applied with
          | Err e => Done (Err (SessionCookieJar e), updated (ss_metadata state), vault)
          | Ok commit =>
              let handles := rotated_handles previous (cm_active_handles commit) (sp_secret_handles profile) in
              Done (Ok (Some commit), updated (with_commit handles commit (ss_metadata state)), vault)
          end
      end
  end.

Definition session_exchange_metadata (authority scheme : str) (request : Http1Request)
    (result : Result Http1Exchange SessionError) (commit : option CookieCommit) (generation : N)
    : gmap str str :=
  list_to_map
    [("authority" : str, authority); ("scheme" : str, scheme);
     ("request_method" : str, hq_method request);
     ("request_target_sha256" : str, to_lower_hex (sha256 (hq_target request)));
     ("result_code" : str, match result with Ok _ => "ok" : str | Err e => session_error_code e end);
     ("response_status" : str, match result with
                               | Ok x => decimal (hr_status_code (he_response x))
                               | Err _ => "none"
                               end);
     ("cookie_inserted" : str, decimal (from_option cm_inserted 0 commit));
     ("cookie_replaced" : str, decimal (from_option cm_replaced 0 commit));
     ("cookie_deleted" : str, decimal (from_option cm_deleted 0 commit));
     ("session_generation" : str, decimal (from_option cm_generation_after generation commit))].

Definition session_exchange (session_id : str) (context : SessionUseContext) (vault : InMemorySecretVault)
    (codec : GatedCodec B) (request : Http1Request) (options : SessionExchangeOptions)
    (self : SessionBroker)
    : Run (Result Http1Exchange SessionError * SessionBroker * InMemorySecretVault * GatedCodec B) :=
  match sessions self !! session_id with
  | None => Done (Err UnknownSession, self, vault, codec)
  | Some state =>
      let metadata := ss_metadata state in
      let grant := bs_grant (hc_stream (gc_inner codec)) in
      let authority := to_ascii_lowercase (gr_http_host grant) in
      let scheme := to_ascii_lowercase (gr_scheme grant) in
      let! (result, vault, codec) :=
        authenticated_exchange session_id metadata context authority scheme vault codec request options in
      let! (cookie_result, self, vault) :=
        match result with
        | Ok exchange =>
            apply_response_cookies session_id vault exchange authority scheme (hq_target request)
              (so_now_epoch_seconds options) self
        | Err _ => Done (Ok None, self, vault)
        end in
      let (result, commit) :=
        match cookie_result with
        | Ok commit => (result, commit)
        | Err error => (Err error, None)
        end in
      let (recorded, self) :=
        record_session_event "authenticated_http1_exchange"
          (match result with Ok _ => "completed" : str | Err _ => "rejected" end) (Some session_id)
          (session_exchange_metadata authority scheme request result commit (sm_generation metadata)) self in
      Done (match recorded with Err e => Err e | Ok _ => result end, self, vault, codec)
  end.

Definition logout_session (session_id : str) (vault : InMemorySecretVault) (self : SessionBroker)
    : Run (Result unit SessionError * SessionBroker * InMemorySecretVault) :=
  match sessions self !! session_id with
  | None => Done (Err UnknownSession, self, vault)
  | Some state =>
      let cookie_handles := active_handles (ss_cookie_jar state) in
      let! (purged, jar, vault) := jar_purge vault "logout" (ss_cookie_jar state) in
      let updated metadata :=
        with_sessions (<[session_id := {| ss_metadata := metadata; ss_cookie_jar := jar |}]> (sessions self)) self in
      match purged with
      | Err e => Done (Err (SessionCookieJar e), updated (ss_metadata state), vault)
      | Ok commit =>
          let profile := sm_profile (ss_metadata state) in
          let handles := List.filter (fun handle => negb (bool_decide (handle ∈ cookie_handles)))
                           (sp_secret_handles profile) in
          let metadata := with_status SessionStatusRevoked (with_commit handles commit (ss_metadata state)) in
          let (recorded, self) :=
            record_session_event "session_logout" "revoked" (Some session_id)
              (list_to_map [("cookie_deleted" : str, decimal (cm_deleted commit));
                            ("generation" : str, decimal (cm_generation_after commit))])
              (updated metadata) in
          Done (recorded, self, vault)
      end
  end.

Definition revoke_session_state (state : SessionState) : SessionState :=
  {| ss_metadata := with_status SessionStatusRevoked (ss_metadata state);
     ss_cookie_jar := ss_cookie_jar state |}.

Definition revoke_session (session_id : str) (self : SessionBroker) : Result unit SessionError * SessionBroker :=
  match sessions self !! session_id with
  | None => (Err UnknownSession, self)
  | Some state =>
      record_session_event "session_revoked" "revoked" (Some session_id) ∅
        (with_sessions (<[session_id := revoke_session_state state]> (sessions self)) self)
  end.

Definition broker_emergency_purge (vault : InMemorySecretVault) (self : SessionBroker)
    : Result unit SessionError * SessionBroker * InMemorySecretVault :=
  let session_count := N.of_nat (size (sessions self)) in
  let self := with_sessions (revoke_session_state <$> sessions self) self in
  let (purged, vault) := emergency_purge vault in
  match purged with
  | Err e => (Err (SessionVault e), self, vault)
  | Ok _ =>
      let (recorded, self) :=
        record_session_event "session_emergency_purge" "purged" None
          {[ ("session_count" : str) := decimal session_count ]} self in
      (recorded, self, vault)
  end.
End Broker.
