(* ===== verification/SessionFacts.v ===== *)
(** * SessionFacts: the theorems about the session broker

    An authenticated exchange only happens for an active session used by its own
    identity at one of its own hosts, over a channel that admits secrets, with
    secrets bound to that identity; a
    revoked session never reaches the wire again; and two failures of the broker
    that a server or another session can cause. *)

From S2P Require Import Prelude ByteStr BTree HashChain Transport Executor Stream HttpSyntax Vault SecretVault CookieJar Http1 Http1Facts Http1Codec Http1CodecFacts Tls GatedCodec CookieJarFacts Session.
Local Open Scope N_scope.

Section Broker.
Context {D : HttpDateLib} {S : Sha256Lib} {J : JsonLib (HashMaterial VaultAuditEvent)}
  {JF : JsonLib FingerprintMaterial}
  {JC : JsonLib (HashMaterial CookieJarAuditEvent)} {JK : JsonLib CookieKey}
  {JB : JsonLib (HashMaterial SessionAuditEvent)}
  {JS : JsonLib (HashMaterial StreamAuditEvent)} {JH : JsonLib (HashMaterial Http1AuditEvent)}
  {JG : JsonLib (HashMaterial Http1ChannelAuditEvent)}
  {B : Type} {BB : ByteStreamBackend B}.

(** ** Using a session *)

(** A session that may be used at this authority and time. *)
Definition session_admits (m : SessionMetadata) (context : SessionUseContext) (authority scheme : str)
    (now : Z) : Prop :=
  let p := sm_profile m in
  sm_status m = SessionActive /\ (now < sp_expires_at_epoch_seconds p)%Z
  /\ sp_run_id p = uc_run_id context /\ sp_worker_id p = uc_worker_id context
  /\ sp_account_id p = uc_account_id context /\ sp_tenant_id p = uc_tenant_id context
  /\ sp_role_id p = uc_role_id context
  /\ authority ∈ sp_allowed_hosts p /\ scheme ∈ sp_allowed_schemes p.

Lemma validate_session_use_ok m context authority scheme now :
  validate_session_use m context authority scheme now = Ok tt -> session_admits m context authority scheme now.
Proof.
  unfold validate_session_use, session_admits. intros H. inv_ok H. bools.
  repeat match goal with H : ~ (_ <> _) |- _ => apply dec_stable in H end. split_and!; auto.
Qed.

(** The access context of a session at an authority. *)
Definition session_access (context : SessionUseContext) (authority scheme : str) : VaultAccessContext :=
  {| vc_run_id := uc_run_id context; vc_worker_id := uc_worker_id context;
     vc_account_id := uc_account_id context; vc_tenant_id := uc_tenant_id context;
     vc_role_id := uc_role_id context; vc_authority := authority; vc_scheme := scheme |}.

(** A granted lease knows its own state. *)
Lemma vault_lease_ok handles context seconds now v lease v' :
  vault_lease handles context seconds now v = (Ok lease, v') ->
  exists ctx, normalized_context context = Ok ctx /\ sl_context lease = ctx
    /\ entries v' = entries v
    /\ (forall h, h ∈ handles -> leasable v ctx now h = Ok tt)
    /\ leases v' !! sl_lease_id lease = Some
         {| ls_handles := handles; ls_context := ctx;
            ls_expires_at_epoch_seconds := i64_saturating_add now seconds;
            ls_consumed := false; ls_revoked := false |}.
Proof.
  unfold vault_lease. intros H. destruct (_ || _); [done|]. destruct (_ || _); [done|].
  destruct (normalized_context context) as [ctx|]; [|done].
  destruct (collect_results _ handles) as [us|] eqn:Hc; [|done].
  destruct (record_event _ _) as [[u|e] s] eqn:Hr; [|done]. simplify_eq.
  apply record_event_inv in Hr as [chain ->]. exists ctx. cbn -[lease_id_of].
  rewrite lookup_insert_eq. split_and!; auto.
  apply collect_results_ok in Hc. intros h Hh.
  apply list_elem_of_lookup in Hh as [i Hi]. eapply Forall2_lookup_l in Hc as ([] & _ & ?); done.
Qed.

(** The headers of a materialised lease, over the secrets the vault held. *)
Definition headers_released (v : InMemorySecretVault) (access : VaultAccessContext) (target : str)
    (now : Z) (handles : list SecretHandle) (headers : list MaterializedHeader) : Prop :=
  forall header, header ∈ headers ->
    header_from v access now handles header
    \/ (mh_wire_name header = "Cookie"
        /\ exists pairs, mh_value header = combine_cookies pairs
        /\ forall pair, pair ∈ pairs -> cookie_from v access target now handles pair).

Lemma header_from_entries v v' access now handles header :
  entries v' = entries v -> header_from v' access now handles header -> header_from v access now handles header.
Proof. intros He (h & e & n & p & ? & Hl & ?). rewrite He in Hl. by exists h, e, n, p. Qed.

Lemma cookie_from_entries v v' access target now handles pair :
  entries v' = entries v -> cookie_from v' access target now handles pair -> cookie_from v access target now handles pair.
Proof. intros He (h & e & c & ? & Hl & ?). rewrite He in Hl. by exists h, e, c. Qed.

Lemma materialize_released lease session target now v hl lease' v' state :
  materialize_http_headers lease session target now v = Done (Ok hl, lease', v') ->
  leases v !! sl_lease_id lease = Some state ->
  headers_released v (ls_context state) target now (ls_handles state) (hl_headers hl).
Proof.
  intros (st & headers & pairs & (Hl & _)%lease_state_for_ok & Hm & Hh & _)%materialize_ok Hst.
  rewrite Hl in Hst. injection Hst as ->.
  apply (materialize_handles_from _ _ _ _ _ (ls_handles state)) in Hm as (Hfrom & Hcook & _);
    [|set_solver..].
  intros header. rewrite Hh. intros [Hf|[_ ->]]%with_cookie_header_elem; [by left; apply Hfrom|].
  right. split; [done|]. by exists pairs.
Qed.

(** What an exchange that reached the codec was made of. *)
Record exchange_bound (metadata : SessionMetadata) (context : SessionUseContext) (authority scheme : str)
    (v : InMemorySecretVault) (c : GatedCodec B) (request : Http1Request) (now : Z)
    (x : Http1Exchange) (c' : GatedCodec B) : Prop := {
  xb_admits : session_admits metadata context authority scheme now;
  xb_wire : exists access headers fingerprint,
    normalized_context (session_access context authority scheme) = Ok access
    /\ headers_released v access (hq_target request) now (sp_secret_handles (sm_profile metadata)) headers
    /\ exchanged request headers (Some fingerprint) (gc_inner c) x (gc_inner c');
  xb_channel : admits_secrets c;
  xb_recorded : channel_recorded c x c'
}.

Lemma authenticated_exchange_ok sid metadata context authority scheme v c request options x v' c' :
  gated_ok c ->
  authenticated_exchange sid metadata context authority scheme v c request options = Done (Ok x, v', c') ->
  exchange_bound metadata context authority scheme v c request (so_now_epoch_seconds options) x c'.
Proof.
  intros Hok. unfold authenticated_exchange. intros H.
  destruct (validate_session_use _ _ _ _ _) as [[]|] eqn:Hu; [|done].
  destruct (_ || _); [done|]. fold (session_access context authority scheme) in H.
  destruct (vault_lease _ _ _ _ _) as [[lease|e] v1] eqn:Hl; [|done].
  destruct (materialize_http_headers _ _ _ _ _) as [[[[hl|e] lease'] v2]|] eqn:Hm; [|done..].
  destruct (gated_exchange_with_secret_headers _ _ _ _ _) as [[[r secret'] c1]|] eqn:Hx; [|done].
  destruct r as [x1|]; [|done]. simpl in H. simplify_eq.
  destruct (gated_secret_exchange_returns request hl (so_now_epoch_seconds options) (so_control options) c Hok)
    as (r1 & lease1 & c2 & Hr & _ & _ & _ & Hres).
  rewrite Hx in Hr. injection Hr as <- <- <-. destruct (Hres _ eq_refl) as (Hadm & Hsent & Hrec).
  constructor; [by apply validate_session_use_ok| |done|done].
  apply vault_lease_ok in Hl as (access & Hn & _ & He & _ & Hst).
  pose proof (materialize_released _ _ _ _ _ _ _ _ _ Hm Hst) as Hrel. simpl in Hrel.
  exists access, (hl_headers hl), (hl_fingerprint hl). split_and!; [done| |done].
  intros header Hin. destruct (Hrel _ Hin) as [?|(? & pairs & ? & Hp)].
  - left. by eapply header_from_entries.
  - right. split; [done|]. exists pairs. split; [done|]. intros pair Hpair.
    eapply cookie_from_entries; [exact He|]. by apply Hp.
Qed.

(** A session exchange that does not use the session leaves the wire alone. *)
Lemma authenticated_exchange_refused sid metadata context authority scheme v c request options e :
  validate_session_use metadata context authority scheme (so_now_epoch_seconds options) = Err e ->
  authenticated_exchange sid metadata context authority scheme v c request options = Done (Err e, v, c).
Proof. intros He. unfold authenticated_exchange. by rewrite He. Qed.

Lemma record_session_event_inv action out sid metadata b r b' :
  record_session_event action out sid metadata b = (r, b') ->
  sessions b' = sessions b /\ next_session_id b' = next_session_id b /\ broker_id b' = broker_id b.
Proof. unfold record_session_event. destruct (chain_append _ _). intros [= _ <-]. done. Qed.

(** ** What a step does to the sessions *)

(** The session's new state, or its old one. *)
Lemma apply_response_cookies_inv sid v x authority scheme target now b r b' v' :
  apply_response_cookies sid v x authority scheme target now b = Done (r, b', v') ->
  next_session_id b' = next_session_id b /\ broker_id b' = broker_id b
  /\ (sessions b' = sessions b
      \/ exists state state', sessions b !! sid = Some state
         /\ sm_status (ss_metadata state') = sm_status (ss_metadata state)
         /\ sessions b' = <[sid := state']> (sessions b)).
Proof.
  unfold apply_response_cookies. intros H. destruct (bool_decide _); [by simplify_eq; auto|].
  destruct (sessions b !! sid) as [state|] eqn:Hs; [|by simplify_eq; auto].
  destruct (cookie_origin_new _ _); [|by simplify_eq; auto].
  destruct (apply_response _ _ _ _ _ _ _) as [[[[commit|e] jar] v1]|]; [| |done];
    simplify_eq; simpl; split_and!; try done; right; eexists state, _;
    (split_and!; [done| |reflexivity]; done).
Qed.

(** An exchange keeps the status of every session; one that fails to use the
    session fails and leaves the codec as it was. *)
Lemma session_exchange_inv sid context v c request options b r b' v' c' :
  session_exchange sid context v c request options b = Done (r, b', v', c') ->
  next_session_id b' = next_session_id b /\ broker_id b' = broker_id b
  /\ (sessions b' = sessions b
      \/ exists state state', sessions b !! sid = Some state
         /\ sm_status (ss_metadata state') = sm_status (ss_metadata state)
         /\ sessions b' = <[sid := state']> (sessions b)).
Proof.
  unfold session_exchange. intros H.
  destruct (sessions b !! sid) as [state|] eqn:Hs; [|by simplify_eq; auto].
  destruct (authenticated_exchange _ _ _ _ _ _ _ _ _) as [[[result v1] c1]|]; [|done].
  match type of H with
  | context [match ?e with Done _ => _ | Panic _ => _ end] => destruct e as [[[cr b1] v2]|] eqn:Hc; [|done]
  end.
  destruct (match cr with Ok commit => (result, commit) | Err error => (Err error, None) end) as [res commit].
  destruct (record_session_event _ _ _ _ _) as [recorded b2] eqn:Hr. simplify_eq.
  apply record_session_event_inv in Hr as (-> & -> & ->). destruct result as [x|e].
  - apply apply_response_cookies_inv in Hc. by rewrite Hs in Hc.
  - simplify_eq. auto.
Qed.

(** The exchange of a session that cannot use its secrets. *)
Lemma session_exchange_fails sid context v c request options b r b' v' c' state :
  session_exchange sid context v c request options b = Done (r, b', v', c') ->
  sessions b !! sid = Some state ->
  (forall authority scheme x v1 c1,
     authenticated_exchange sid (ss_metadata state) context authority scheme v c request options
       = Done (x, v1, c1) -> is_ok x = false /\ c1 = c) ->
  is_ok r = false /\ c' = c.
Proof.
  unfold session_exchange. intros H Hs Hf. rewrite Hs in H.
  destruct (authenticated_exchange _ _ _ _ _ _ _ _ _) as [[[result v1] c1]|] eqn:Ha; [|done].
  apply Hf in Ha as [Hno ->]. destruct result as [x|e]; [done|].
  destruct (record_session_event _ _ _ _ _) as [recorded b2]. simplify_eq.
  by destruct recorded.
Qed.

(** ** Traces of the broker *)

Definition session_id_of (broker : str) (n : N) : str := broker ++ ("-session-" : str) ++ decimal020 n.

Lemma session_id_of_inj broker m n : session_id_of broker m = session_id_of broker n -> m = n.
Proof.
  unfold session_id_of. rewrite !(assoc_L (++)). intros E%app_inv_head.
  by rewrite <- (decimal020_value m), E, decimal020_value.
Qed.

(** What is observed of an operation: an exchange of a session, with the codec
    before and after it, or nothing. *)
Inductive BrokerEvent : Type :=
  | SessionUsed (session_id : str) (ok : bool) (before after : GatedCodec B)
  | BrokerQuiet.

(** One operation of the broker, over any vault and codec. *)
Inductive broker_step : SessionBroker -> BrokerEvent -> SessionBroker -> Prop :=
  | bstep_create profile v now b r b' :
      create_session profile v now b = (r, b') -> broker_step b BrokerQuiet b'
  | bstep_exchange sid context v c request options b r b' v' c' :
      session_exchange sid context v c request options b = Done (r, b', v', c') ->
      broker_step b (SessionUsed sid (is_ok r) c c') b'
  | bstep_logout sid v b r b' v' :
      logout_session sid v b = Done (r, b', v') -> broker_step b BrokerQuiet b'
  | bstep_revoke sid b r b' :
      revoke_session sid b = (r, b') -> broker_step b BrokerQuiet b'
  | bstep_purge v b r b' v' :
      broker_emergency_purge v b = (r, b', v') -> broker_step b BrokerQuiet b'.

Inductive broker_trace : SessionBroker -> list BrokerEvent -> SessionBroker -> Prop :=
  | btrace_nil b : broker_trace b [] b
  | btrace_cons b e b1 es b2 :
      broker_step b e b1 -> broker_trace b1 es b2 -> broker_trace b (e :: es) b2.

(** How the session table may change: a session of the new table is an old one,
    still revoked if it was, or the freshly named one. *)
Definition sessions_evolve (b b' : SessionBroker) : Prop :=
  broker_id b' = broker_id b
  /\ (next_session_id b' = next_session_id b \/ next_session_id b' = saturating_add (next_session_id b) 1)
  /\ forall sid s', sessions b' !! sid = Some s' ->
       (exists s, sessions b !! sid = Some s
          /\ (sm_status (ss_metadata s) = SessionStatusRevoked -> sm_status (ss_metadata s') = SessionStatusRevoked))
       \/ (sid = session_id_of (broker_id b) (next_session_id b)
           /\ next_session_id b' = saturating_add (next_session_id b) 1).

Lemma evolve_same b b' :
  broker_id b' = broker_id b -> next_session_id b' = next_session_id b -> sessions b' = sessions b ->
  sessions_evolve b b'.
Proof. intros H1 H2 H3. split_and!; auto. intros sid s. rewrite H3. eauto. Qed.

Lemma evolve_update b b' sid s s' :
  broker_id b' = broker_id b -> next_session_id b' = next_session_id b ->
  sessions b !! sid = Some s -> sessions b' = <[sid := s']> (sessions b) ->
  (sm_status (ss_metadata s) = SessionStatusRevoked -> sm_status (ss_metadata s') = SessionStatusRevoked) ->
  sessions_evolve b b'.
Proof.
  intros H1 H2 Hs H3 Hr. split_and!; auto. intros x sx. rewrite H3.
  intros [[<- <-]|[_ Hx]]%lookup_insert_Some; eauto.
Qed.

Lemma create_session_evolve profile v now b r b' :
  create_session profile v now b = (r, b') -> sessions_evolve b b'.
Proof.
  unfold create_session. intros H. fold (session_id_of (broker_id b) (next_session_id b)) in H.
  destruct (session_profile_for _ _ _) as [p|]; [|by simplify_eq; apply evolve_same].
  destruct (session_jar _ _ _) as [jar|]; [|by simplify_eq; split_and!; simpl; eauto].
  destruct (record_session_event _ _ _ _ _) as [[u|e] b1] eqn:Hr;
    apply record_session_event_inv in Hr as (Hs & Hn & Hi); simpl in *; simplify_eq.
  - split_and!; auto. intros sid s. rewrite Hs. intros [[<- <-]|[_ Hx]]%lookup_insert_Some; eauto.
  - split_and!; auto. intros sid s. simpl. rewrite Hs, delete_insert_eq.
    intros [_ Hx]%lookup_delete_Some. eauto.
Qed.

Lemma logout_session_evolve sid v b r b' v' :
  logout_session sid v b = Done (r, b', v') -> sessions_evolve b b'.
Proof.
  unfold logout_session. intros H. destruct (sessions b !! sid) as [s|] eqn:Hs; [|by simplify_eq; apply evolve_same].
  destruct (jar_purge _ _ _) as [[[[commit|e] jar] v1]|]; [| |done].
  - destruct (record_session_event _ _ _ _ _) as [recorded b1] eqn:Hr. simplify_eq.
    apply record_session_event_inv in Hr as (Hs' & Hn & Hi). simpl in *. by eapply evolve_update.
  - simplify_eq. by eapply evolve_update.
Qed.

Lemma revoke_session_evolve sid b r b' : revoke_session sid b = (r, b') -> sessions_evolve b b'.
Proof.
  unfold revoke_session. intros H. destruct (sessions b !! sid) as [s|] eqn:Hs; [|by simplify_eq; apply evolve_same].
  apply record_session_event_inv in H as (Hs' & Hn & Hi). simpl in *. by eapply evolve_update.
Qed.

Lemma broker_purge_sessions v b r b' v' :
  broker_emergency_purge v b = (r, b', v') ->
  broker_id b' = broker_id b /\ next_session_id b' = next_session_id b
  /\ sessions b' = revoke_session_state <$> sessions b.
Proof.
  unfold broker_emergency_purge. intros H. destruct (emergency_purge v) as [[u|e] v1]; [|by simplify_eq].
  destruct (record_session_event _ _ _ _ _) as [recorded b1] eqn:Hr. simplify_eq.
  by apply record_session_event_inv in Hr as (-> & -> & ->).
Qed.

Lemma broker_step_evolve b e b' : broker_step b e b' -> sessions_evolve b b'.
Proof.
  intros [profile v now b0 r b1 H|sid context v c request options b0 r b1 v' c' H|sid v b0 r b1 v' H
         |sid b0 r b1 H|v b0 r b1 v' H].
  - by eapply create_session_evolve.
  - apply session_exchange_inv in H as (? & ? & [?|(s & s' & ? & Hst & ?)]); [by apply evolve_same|].
    eapply evolve_update; eauto. by rewrite Hst.
  - by eapply logout_session_evolve.
  - by eapply revoke_session_evolve.
  - apply broker_purge_sessions in H as (? & ? & Hs). split_and!; auto. intros sid s.
    rewrite Hs, lookup_fmap. intros (s0 & ? & ->)%fmap_Some. left. eauto.
Qed.

(** A session that was named and is revoked, or no longer there. *)
Definition session_dead (sid : str) (b : SessionBroker) : Prop :=
  next_session_id b <= u64_max
  /\ (exists n, n < next_session_id b /\ sid = session_id_of (broker_id b) n)
  /\ forall s, sessions b !! sid = Some s -> sm_status (ss_metadata s) = SessionStatusRevoked.

Lemma step_session_dead b e b' sid : broker_step b e b' -> session_dead sid b -> session_dead sid b'.
Proof.
  intros Hs (Hmax & (n & Hn & ->) & Hd). destruct (broker_step_evolve _ _ _ Hs) as (Hid & Hnext & Hev).
  pose proof (saturating_succ_ge _ Hmax). split_and!.
  - by destruct Hnext as [-> | ->]; lia.
  - exists n. rewrite Hid. split; [|done]. destruct Hnext as [-> | ->]; lia.
  - intros s Hl. destruct (Hev _ _ Hl) as [(s0 & Hl0 & Hk)|[He%session_id_of_inj _]]; [by eauto|lia].
Qed.

Lemma dead_session_silent b es b' sid ok c c' :
  broker_trace b es b' -> session_dead sid b -> SessionUsed sid ok c c' ∈ es -> ok = false /\ c' = c.
Proof.
  induction 1 as [|b e b1 es b2 Hs Ht IH]; intros Hd Hin; [set_solver|].
  apply elem_of_cons in Hin as [<-|Hin]; [|by eauto using step_session_dead].
  inversion Hs as [|? context v ? request options ? r ? v' ? H| | |]; subst. clear Hs.
  destruct (sessions b !! sid) as [state|] eqn:Hst.
  - destruct Hd as (_ & _ & Hd). eapply session_exchange_fails; [done|done|].
    intros authority scheme x v1 c1. rewrite (authenticated_exchange_refused _ _ _ _ _ _ _ _ _ SessionRevoked).
    + by intros [= <- _ <-].
    + unfold validate_session_use. by rewrite (Hd _ Hst).
  - unfold session_exchange in H. rewrite Hst in H. by simplify_eq.
Qed.

(** The sessions of a broker were named by it. *)
Definition sessions_named (b : SessionBroker) : Prop :=
  next_session_id b <= u64_max
  /\ forall sid s, sessions b !! sid = Some s ->
       exists n, n < next_session_id b /\ sid = session_id_of (broker_id b) n.

Lemma trace_sessions_named b es b' :
  broker_trace b es b' -> sessions_named b -> next_session_id b' < u64_max -> sessions_named b'.
Proof.
  assert (Hmono : forall b es b', broker_trace b es b' -> next_session_id b <= u64_max ->
    next_session_id b <= next_session_id b').
  { induction 1 as [|x e x1 l x2 Hs Ht IH]; intros Hm; [lia|].
    destruct (broker_step_evolve _ _ _ Hs) as (_ & Hnext & _). pose proof (saturating_succ_ge _ Hm).
    destruct Hnext as [E|E]; rewrite E in IH; lia. }
  induction 1 as [|b e b1 es b2 Hs Ht IH]; [done|]. intros [Hm Hn] Hlt.
  destruct (broker_step_evolve _ _ _ Hs) as (Hid & Hnext & Hev). pose proof (saturating_succ_ge _ Hm).
  assert (Hm1 : next_session_id b1 <= u64_max) by (destruct Hnext as [-> | ->]; lia).
  pose proof (Hmono _ _ _ Ht Hm1). apply IH; [|done]. split; [done|]. intros sid s Hl. rewrite Hid.
  destruct (Hev _ _ Hl) as [(s0 & Hl0 & _)|[-> E]].
  - destruct (Hn _ _ Hl0) as (n & ? & ->). exists n. split; [destruct Hnext as [-> | ->]; lia|done].
  - exists (next_session_id b). rewrite E in *. rewrite saturating_succ_exact by lia. split; [lia|done].
Qed.

(** The vault holds this secret and it has expired. *)
Definition secret_expired (v : InMemorySecretVault) (h : SecretHandle) (now : Z) : Prop :=
  exists e, entries v !! h = Some e /\ expired_at (md_expires_at_epoch_seconds (se_metadata e)) now = true.

(** A lease over a secret that has expired is refused. *)
Lemma vault_lease_expired handles context seconds now v r v' h e :
  vault_lease handles context seconds now v = (r, v') -> h ∈ handles -> entries v !! h = Some e ->
  expired_at (md_expires_at_epoch_seconds (se_metadata e)) now = true -> is_ok r = false.
Proof.
  intros Hl Hh He Hx. destruct r as [lease|]; [|done].
  apply vault_lease_ok in Hl as (ctx & _ & _ & _ & Hall & _). specialize (Hall _ Hh).
  unfold leasable, validate_entry_access, validate_entry_identity in Hall. rewrite He, Hx in Hall.
  by destruct (se_delivery e).
Qed.

Lemma revoke_handles_missing hs v r v' h :
  revoke_handles hs v = (r, v') -> h ∈ hs -> entries v !! h = None -> is_ok r = false.
Proof.
  revert v. induction hs as [|x hs IH]; intros v H Hin Hno; simpl in H; [set_solver|].
  destruct (revoke_secret x v) as [[u|e] v1] eqn:Hr; [|by simplify_eq].
  apply elem_of_cons in Hin as [->|Hin]; [unfold revoke_secret in Hr; by rewrite Hno in Hr|].
  apply (IH v1 H Hin). apply revoke_secret_inv in Hr as (_ & _ & _ & -> & _).
  destruct (decide (h = x)) as [->|]; [apply lookup_delete_eq | by rewrite lookup_delete_ne].
Qed.

(** A session as it was, with nothing left in its jar. *)
Definition forgotten (state state' : SessionState) : Prop :=
  ss_metadata state' = ss_metadata state /\ jar_records (ss_cookie_jar state') = ∅.

(** ** Properties *)

(** C7: an authenticated exchange is bound to its session: when one completes, the
    session was active and unexpired, was used by exactly its own run, worker,
    account, tenant and role, at one of its hosts and schemes as the stream's own
    grant names them, over a channel that admits secrets (verified TLS, or the
    HTTPS test fixture), and the request was sent as serialised with headers made
    only of secrets of the session that are bound to that identity, host and
    scheme and unexpired. *)
Theorem session_exchange_is_bound sid context v c request options b x b' v' c' :
  gated_ok c ->
  session_exchange sid context v c request options b = Done (Ok x, b', v', c') ->
  exists state, sessions b !! sid = Some state
  /\ exchange_bound (ss_metadata state) context
       (to_ascii_lowercase (gr_http_host (bs_grant (hc_stream (gc_inner c)))))
       (to_ascii_lowercase (gr_scheme (bs_grant (hc_stream (gc_inner c))))) v c request
       (so_now_epoch_seconds options) x c'.
Proof.
  intros Hok. unfold session_exchange. intros H.
  destruct (sessions b !! sid) as [state|] eqn:Hs; [|done]. exists state. split; [done|].
  destruct (authenticated_exchange _ _ _ _ _ _ _ _ _) as [[[result v1] c1]|] eqn:Ha; [|done].
  destruct result as [x1|e].
  - destruct (apply_response_cookies _ _ _ _ _ _ _ _) as [[[cr b1] v2]|]; [|done].
    destruct cr as [commit|e]; destruct (record_session_event _ _ _ _ _) as [recorded b2];
      destruct recorded; simplify_eq.
    by eapply authenticated_exchange_ok.
  - destruct (record_session_event _ _ _ _ _) as [recorded b2]. by destruct recorded.
Qed.

(** Revocation silences a session for good: after [revoke_session] or an
    emergency purge of a broker, and any later operations of it over any vaults
    and connections, every exchange of that session fails without touching the
    connection (as long as the 64-bit identifier counter has not saturated). *)
Theorem revoked_session_is_silent bid b0 es b sid state r b1 es' b2 :
  broker_new bid = Ok b0 -> broker_trace b0 es b -> next_session_id b < u64_max ->
  sessions b !! sid = Some state ->
  revoke_session sid b = (r, b1) \/ (exists v v', broker_emergency_purge v b = (r, b1, v')) ->
  broker_trace b1 es' b2 ->
  forall ok c c', SessionUsed sid ok c c' ∈ es' -> ok = false /\ c' = c.
Proof.
  intros Hnew Ht Hlt Hst Hrev Ht2 ok c c'. apply (dead_session_silent _ _ _ _ _ _ _ Ht2). clear Ht2.
  destruct (trace_sessions_named _ _ _ Ht) as [Hm Hn]; [|done|].
  { unfold broker_new in Hnew. inv_ok Hnew. split; [by vm_compute|]. intros id s Hl. by apply (lookup_empty_Some id s) in Hl. }
  destruct (Hn _ _ Hst) as (n & Hlt' & ->). unfold session_dead.
  destruct Hrev as [Hrev|(v & v' & (Hid & Hx & Hs)%broker_purge_sessions)].
  - unfold revoke_session in Hrev. rewrite Hst in Hrev.
    apply record_session_event_inv in Hrev as (Hs & Hx & Hid). simpl in *. rewrite Hid, Hx, Hs, lookup_insert_eq.
    split_and!; [done|eauto|]. by intros s [= <-].
  - rewrite Hid, Hx, Hs, lookup_fmap, Hst. split_and!; [done|eauto|]. by intros s [= <-].
Qed.

(** One expired secret blocks a session: as soon as any secret of the session,
    also a cookie a server has set with a short lifetime, has expired, every
    exchange of the session fails before the connection is used; nothing removes
    the expired cookie from the session. *)
Theorem expired_cookie_blocks_session sid context v c request options b r b' v' c' state h :
  session_exchange sid context v c request options b = Done (r, b', v', c') ->
  sessions b !! sid = Some state ->
  h ∈ sp_secret_handles (sm_profile (ss_metadata state)) ->
  secret_expired v h (so_now_epoch_seconds options) ->
  is_ok r = false /\ c' = c.
Proof.
  intros H Hs Hh (e & He & Hx). eapply session_exchange_fails; [done|done|].
  intros authority scheme result v1 c1 Ha. unfold authenticated_exchange in Ha.
  destruct (validate_session_use _ _ _ _ _); [|by simplify_eq].
  destruct (_ || _); [by simplify_eq|].
  destruct (vault_lease _ _ _ _ _) as [leased v2] eqn:Hl.
  apply (vault_lease_expired _ _ _ _ _ _ _ _ _ Hl Hh He) in Hx. destruct leased; [done|]. by simplify_eq.
Qed.

(** A failed logout forgets the cookies: when the vault no longer knows one of
    the jar's cookies, for instance because another session that shares it has
    logged out, [logout_session] fails, the session keeps its status and its
    secret handles, and its jar is empty all the same. *)
Theorem failed_logout_forgets_cookies sid v b r b' v' state k rec :
  logout_session sid v b = Done (r, b', v') -> sessions b !! sid = Some state ->
  jar_records (ss_cookie_jar state) !! k = Some rec -> entries v !! cr_handle rec = None ->
  is_ok r = false
  /\ exists state', sessions b' !! sid = Some state' /\ forgotten state state'.
Proof.
  unfold logout_session. intros H Hs Hk Hno. rewrite Hs in H. unfold jar_purge in H.
  change (jar_validate_identifier "logout" "reason") with (@Ok unit CookieJarError tt) in H. cbn iota in H.
  destruct (revoke_handles _ _) as [revoked v1] eqn:Hr.
  apply (revoke_handles_missing _ _ _ _ (cr_handle rec)) in Hr; [|by apply list_elem_of_fmap_2, elem_of_map_values; eauto|done].
  destruct revoked as [u|e]; [done|]. simplify_eq. split; [done|].
  eexists. split; [simpl; by rewrite lookup_insert_eq|done].
Qed.
End Broker.

(** ** A concrete session *)

Definition toy_session_json : JsonLib (HashMaterial SessionAuditEvent) := toy_json sa_action.

Section Sample.
Local Existing Instances toy_sha256 toy_vault_json toy_lease_json toy_jar_json toy_key_json toy_date
  toy_session_json toy_stream_json toy_http_json toy_tls_json toy_channel_json scripted scripted_type.

Definition sample_profile : SessionProfile :=
  {| sp_run_id := "run-1"; sp_worker_id := "worker-1"; sp_account_id := "account-a";
     sp_tenant_id := "tenant-a"; sp_role_id := "admin";
     sp_allowed_hosts := {[ ("app.example.com" : str) ]}; sp_allowed_schemes := {[ ("https" : str) ]};
     sp_secret_handles := [sh1]; sp_expires_at_epoch_seconds := 1000 |}.
Definition sample_use : SessionUseContext :=
  {| uc_run_id := "run-1"; uc_worker_id := "worker-1"; uc_account_id := "account-a";
     uc_tenant_id := "tenant-a"; uc_role_id := "admin" |}.
Definition options_at (now : Z) : SessionExchangeOptions :=
  {| so_lease_seconds := 30; so_now_epoch_seconds := now; so_control := no_stream_control |}.

Definition broker0 : SessionBroker :=
  {| broker_id := "broker-1"; sessions := ∅; next_session_id := 1;
     broker_audit := chain_new (to_lower_hex (sha256 (("nxb-session:" : str) ++ ("broker-1" : str)))) |}.
Definition sid1 : str := session_id_of "broker-1" 1.
Definition broker1 : SessionBroker := (create_session sample_profile sv1 100 broker0).2.

(** A server that sets a cookie for one second. *)
Definition cookie_response : str :=
  ("HTTP/1.1 200 OK" : str) ++ CRLF ++ ("Set-Cookie: pref=1; Max-Age=1; Secure" : str) ++ CRLF
  ++ ("Content-Length: 2" : str) ++ CRLF ++ CRLF ++ ("ok" : str).
Definition cookie_script : list BackendReadReport :=
  [{| rr_elapsed_milliseconds := 1; rr_status := ReadData cookie_response |}].
Definition cookie_codec : GatedCodec (list BackendReadReport) :=
  match sample_channel cookie_script with
  | Ok c => c
  | Err _ => {| gc_inner := example_codec; gc_kind := PlainHttp; gc_tls_audit_anchor := None;
                gc_channel_audit := chain_new GENESIS_HASH |}
  end.

Definition sample_session_exchange (now : Z) (v : InMemorySecretVault)
    (c : GatedCodec (list BackendReadReport)) (b : SessionBroker)
    : Run (Result Http1Exchange SessionError * SessionBroker * InMemorySecretVault
           * GatedCodec (list BackendReadReport)) :=
  session_exchange sid1 sample_use v c (get_request "/a") (options_at now) b.

Definition first_exchange := sample_session_exchange 100 sv1 cookie_codec broker1.

Lemma first_exchange_ok : match first_exchange with Done (Ok x, _, _, _) => true | _ => false end = true.
Proof. vm_compute. reflexivity. Qed.

Lemma cookie_codec_ok : gated_ok cookie_codec.
Proof.
  apply (channel_opened_ok (scripted_stream cookie_script) http1_conservative_default).
  - apply example_stream_ok.
  - right. exists sample_grant. unfold cookie_codec.
    assert (is_ok (sample_channel cookie_script) = true) as H by (vm_compute; reflexivity).
    unfold sample_channel in *. destruct (new_verified_tls _ _ _); [done|discriminate H].
Qed.

(** After the first exchange, one second later, the cookie has expired. *)
Definition cookie_has_expired : bool :=
  match first_exchange with
  | Done (Ok _, b, v, _) =>
      match sessions b !! sid1 with
      | Some state =>
          existsb (fun h => match entries v !! h with
                            | Some e => expired_at (md_expires_at_epoch_seconds (se_metadata e)) 102
                            | None => false
                            end) (sp_secret_handles (sm_profile (ss_metadata state)))
          && match sample_session_exchange 102 v cookie_codec b with
             | Done (Err (SessionVault SecretExpired), _, _, _) => true
             | _ => false
             end
      | None => false
      end
  | _ => false
  end.

(** ** Witnesses *)

Lemma session_exchange_is_bound_witness :
  exists x b' v' c' state, first_exchange = Done (Ok x, b', v', c')
  /\ sessions broker1 !! sid1 = Some state
  /\ exchange_bound (ss_metadata state) sample_use
       (to_ascii_lowercase (gr_http_host (bs_grant (hc_stream (gc_inner cookie_codec)))))
       (to_ascii_lowercase (gr_scheme (bs_grant (hc_stream (gc_inner cookie_codec))))) sv1 cookie_codec
       (get_request "/a") 100 x c'.
Proof.
  pose proof first_exchange_ok as H.
  destruct first_exchange as [[[[[x|] b'] v'] c']|] eqn:E; [|discriminate H|discriminate H].
  unfold first_exchange, sample_session_exchange in E.
  destruct (session_exchange_is_bound _ _ _ _ _ _ _ _ _ _ _ cookie_codec_ok E) as (state & Hs & Hb).
  exists x, b', v', c', state. split; [reflexivity|]. split; [exact Hs|exact Hb].
Defined.

Lemma expired_cookie_blocks_session_witness :
  exists b v r b' v' c', sample_session_exchange 102 v cookie_codec b = Done (r, b', v', c')
  /\ is_ok r = false /\ c' = cookie_codec.
Proof.
  assert (cookie_has_expired = true) as H by (vm_compute; reflexivity).
  unfold cookie_has_expired in H.
  destruct first_exchange as [[[[[x|] b] v] c]|]; [|discriminate H|discriminate H].
  destruct (sessions b !! sid1) as [state|] eqn:Hs; [|discriminate H].
  apply andb_true_iff in H as [Hx H].
  apply existsb_exists in Hx as (h & Hin & Hx).
  destruct (entries v !! h) as [e|] eqn:He; [|discriminate Hx].
  destruct (sample_session_exchange 102 v cookie_codec b) as [[[[r b'] v'] c']|] eqn:E; [|discriminate H].
  exists b, v, r, b', v', c'. split; [exact E|]. unfold sample_session_exchange in E.
  apply list_elem_of_In in Hin.
  exact (expired_cookie_blocks_session _ _ _ _ _ _ _ _ _ _ _ _ _ E Hs Hin (ex_intro _ e (conj He Hx))).
Defined.

(** The vault is purged behind the session's back and the session logs out. *)
Lemma failed_logout_forgets_cookies_witness :
  exists b v r b' v' state state', logout_session sid1 v b = Done (r, b', v') /\ is_ok r = false
  /\ sessions b' !! sid1 = Some state' /\ forgotten state state'
  /\ sm_status (ss_metadata state) = SessionActive.
Proof.
  assert (match first_exchange with
    | Done (Ok _, b, v, _) =>
        match sessions b !! sid1, logout_session sid1 (emergency_purge v).2 b with
        | Some state, Done _ =>
            match map_iter (jar_records (ss_cookie_jar state)) with
            | (k, rec) :: _ =>
                match entries (emergency_purge v).2 !! cr_handle rec, sm_status (ss_metadata state) with
                | None, SessionActive => true
                | _, _ => false
                end
            | [] => false
            end
        | _, _ => false
        end
    | _ => false
    end = true) as H by (vm_compute; reflexivity).
  destruct first_exchange as [[[[[x|] b] v] c]|]; [|discriminate H|discriminate H].
  destruct (sessions b !! sid1) as [state|] eqn:Hs; [|discriminate H].
  destruct (logout_session sid1 (emergency_purge v).2 b) as [[[r b'] v']|] eqn:E; [|discriminate H].
  destruct (map_iter (jar_records (ss_cookie_jar state))) as [|[k rec] ?] eqn:Hi; [discriminate H|].
  assert (Hk : jar_records (ss_cookie_jar state) !! k = Some rec).
  { apply elem_of_map_iter. rewrite Hi. left. }
  destruct (entries (emergency_purge v).2 !! cr_handle rec) eqn:Hno; [discriminate H|].
  destruct (sm_status (ss_metadata state)) eqn:Hact; [|discriminate H].
  destruct (failed_logout_forgets_cookies _ _ _ _ _ _ _ _ _ E Hs Hk Hno) as (Hf & state' & Hb & Hj).
  exists b, (emergency_purge v).2, r, b', v', state, state'. split; [exact E|]. split; [exact Hf|].
  split; [exact Hb|]. split; [exact Hj|exact Hact].
Defined.

Lemma revoked_session_is_silent_witness :
  exists b1 r b2 v' c', revoke_session sid1 broker1 = (Ok tt, b1)
  /\ sample_session_exchange 101 sv1 cookie_codec b1 = Done (r, b2, v', c')
  /\ is_ok r = false /\ c' = cookie_codec.
Proof.
  assert (match create_session sample_profile sv1 100 broker0 with
    | (Ok _, b) =>
        match sessions b !! sid1, revoke_session sid1 b with
        | Some _, (Ok _, b1) => (next_session_id b =? 2)
            && match sample_session_exchange 101 sv1 cookie_codec b1 with Done _ => true | _ => false end
        | _, _ => false
        end
    | _ => false
    end = true) as H by (vm_compute; reflexivity).
  assert (broker_new "broker-1" = Ok broker0) as Hnew by (vm_compute; reflexivity).
  unfold broker1.
  destruct (create_session sample_profile sv1 100 broker0) as [[m|] b] eqn:Hc; [|discriminate H].
  destruct (sessions b !! sid1) as [state|] eqn:Hs; [|discriminate H]. simpl snd.
  destruct (revoke_session sid1 b) as [[[]|] b1] eqn:Hr; [|discriminate H].
  apply andb_true_iff in H as [Hn H]. apply N.eqb_eq in Hn.
  destruct (sample_session_exchange 101 sv1 cookie_codec b1) as [[[[r b2] v'] c']|] eqn:E; [|discriminate H].
  exists b1, r, b2, v', c'. split; [reflexivity|]. split; [exact E|].
  unfold sample_session_exchange in E.
  apply (revoked_session_is_silent "broker-1" broker0 [BrokerQuiet] b sid1 state (Ok tt) b1
    [SessionUsed sid1 (is_ok r) cookie_codec c'] b2 Hnew).
  - econstructor; [exact (bstep_create _ _ _ _ _ _ Hc)|constructor].
  - rewrite Hn. vm_compute. reflexivity.
  - exact Hs.
  - left. exact Hr.
  - econstructor; [exact (bstep_exchange _ _ _ _ _ _ _ _ _ _ _ E)|constructor].
  - apply list_elem_of_singleton. reflexivity.
Defined.
End Sample.
