(* ===== verification/Planner.v ===== *)
(** * Planner: request plans, work queue, runs and capabilities ([crates/nxb-planner])

    A [RequestIntentPlan] describes a request with its cost and risk; a
    [WorkQueue] leases planned work to workers under global and per-host limits; a
    [RunMachine] is the life cycle of a run; a [ProbeCapability] bounds what a
    module may do in it. The theorems are in [PlannerFacts]. *)

From S2P Require Import Prelude ByteStr BTree HashChain Url.
Local Open Scope N_scope.

(** ** Data *)

Definition MAX_PLAN_ENDPOINTS : N := 100000.
Definition MAX_QUEUE_ITEMS : N := 100000.
Definition MAX_GLOBAL_CONCURRENCY : N := 64.
Definition MAX_HOST_CONCURRENCY : N := 16.
Definition MAX_RETRY_COUNT : N := 5.
Definition MAX_CAPABILITY_REQUESTS : N := 100000.
Definition MAX_CAPABILITY_MUTATIONS : N := 10000.

Inductive RunState : Type :=
  | RunCreated | RunValidated | RunRunning | RunPaused | RunCancelling | RunCompleted | RunFailed
  | RunEmergencyStopped.

#[export] Instance RunState_eq_dec : EqDecision RunState.
Proof. solve_decision. Defined.

Inductive PlannerError : Type :=
  | PlInvalidIdentifier (name : str)
  | PlInvalidPlan (message : str)
  | PlInvalidSchedulerLimits (message : str)
  | QueueFull
  | DuplicateWorkItem
  | UnknownWorkItem
  | InvalidWorkState
  | InvalidRunTransition (from to : RunState)
  | InvalidCapability (message : str)
  | CapabilityInactive
  | CapabilityDenied (message : str)
  | PlAuditSerialization (message : str)
  | PlAuditSequenceMismatch (record_index : N)
  | PlAuditPreviousHashMismatch (record_index : N)
  | PlAuditRecordHashMismatch (record_index : N)
  | PlAuditTailMismatch.

Inductive RiskClass : Type := Passive | SafeActive | SensitiveActive | Forbidden.

Inductive WorkPriority : Type := Critical | High | Normal | Low.

Definition priority_rank (self : WorkPriority) : N :=
  match self with Critical => 0 | High => 1 | Normal => 2 | Low => 3 end.

Record RequestIntentPlan : Type := {
  rp_endpoint_id : str;
  rp_canonical_url : str;
  rp_canonical_url_sha256 : str;
  rp_origin : str;
  rp_method : str;
  rp_parameter_names : gset str;
  rp_body_kind : str;
  rp_session_required : bool;
  rp_risk_class : RiskClass;
  rp_provenance_sha256 : str;
  rp_policy_snapshot_sha256 : str;
  rp_estimated_request_bytes : N;
  rp_estimated_response_bytes : N;
  rp_redirect_budget : N;
  rp_retry_budget : N;
  rp_active_execution_allowed : bool
}.

Record WorkItem : Type := {
  wi_work_id : str;
  wi_plan : RequestIntentPlan;
  wi_priority : WorkPriority;
  wi_enqueued_at_milliseconds : N;
  wi_deadline_milliseconds : N;
  wi_attempt : N;
  wi_session_id : option str;
  wi_account_id : option str;
  wi_tenant_id : option str
}.

Record SchedulerLimits : Type := {
  sl_maximum_queue_items : N;
  sl_maximum_global_concurrency : N;
  sl_maximum_host_concurrency : N;
  sl_minimum_host_interval_milliseconds : N
}.

Inductive WorkState : Type := Queued | Running | WCompleted | WFailed | WCancelled | WExpired.

#[export] Instance WorkState_eq_dec : EqDecision WorkState.
Proof. solve_decision. Defined.

Record WorkLease : Type := {
  wl_lease_id : str;
  wl_work_id : str;
  wl_worker_id : str;
  wl_origin : str;
  wl_claimed_at_milliseconds : N;
  wl_deadline_milliseconds : N;
  wl_plan_fingerprint : str
}.

Record StoredWork : Type := {
  sw_item : WorkItem;
  sw_state : WorkState;
  sw_lease_id : option str
}.

Record WorkQueue : Type := {
  wq_limits : SchedulerLimits;
  wq_items : gmap str StoredWork;
  wq_order : list str;
  wq_dedup : gset str;
  wq_host_in_flight : gmap str N;
  wq_last_host_start : gmap str N;
  wq_global_in_flight : N;
  wq_next_lease_id : N;
  wq_cancelled : bool;
  wq_emergency_stopped : bool
}.

Definition run_is_terminal (self : RunState) : bool :=
  match self with RunCompleted | RunFailed | RunEmergencyStopped => true | _ => false end.

Record RunSnapshot : Type := {
  rs_run_id : str;
  rs_policy_snapshot_sha256 : str;
  rs_state : RunState;
  rs_generation : N;
  rs_owner_worker_id : option str;
  rs_resume_token_sha256 : option str;
  rs_audit_tail : str
}.

Record PlannerAuditEvent : Type := {
  pa_action : str;
  pa_subject_id : str;
  pa_outcome : str;
  pa_metadata : gmap str str
}.

Record RunMachine : Type := {
  rm_snapshot : RunSnapshot;
  rm_audit : HashChain PlannerAuditEvent
}.

Inductive SecretAccessLevel : Type := NoSecrets | CookiesOnly | BoundHeaders.

(** The derived order of the levels. *)
Definition access_rank (self : SecretAccessLevel) : N :=
  match self with NoSecrets => 0 | CookiesOnly => 1 | BoundHeaders => 2 end.

Record ProbeCapability : Type := {
  pc_capability_id : str;
  pc_module_id : str;
  pc_run_id : str;
  pc_worker_id : str;
  pc_allowed_methods : gset str;
  pc_allowed_endpoint_hashes : gset str;
  pc_maximum_requests : N;
  pc_maximum_mutations : N;
  pc_secret_access : SecretAccessLevel;
  pc_body_replay_allowed : bool;
  pc_redirect_allowed : bool;
  pc_expires_at_milliseconds : N;
  pc_revoked : bool;
  pc_requests_used : N;
  pc_mutations_used : N
}.

Record CapabilityUseRequest : Type := {
  cu_run_id : str;
  cu_worker_id : str;
  cu_method : str;
  cu_endpoint_sha256 : str;
  cu_mutations : N;
  cu_requires_secret_access : SecretAccessLevel;
  cu_replays_body : bool;
  cu_follows_redirect : bool;
  cu_now_milliseconds : N
}.

Record CapabilityUseReceipt : Type := {
  ur_capability_id : str;
  ur_request_number : N;
  ur_mutations_used : N;
  ur_remaining_requests : N;
  ur_remaining_mutations : N;
  ur_endpoint_sha256 : str
}.

(** What [fingerprint] and [dedup_key] serialise. *)
Abbreviation PlanMaterial := (str * str * gset str * str * bool * RiskClass * str)%type.
Abbreviation DedupMaterial := (str * option str * option str * option str)%type.

(** [fragment()] of a URL, which this crate reads besides the accessors of [Url]. *)
Class UrlFragmentLib {U : UrlLib} : Type := { url_fragment : Url -> option str }.

(** ** Validation *)

Definition planner_identifier_byte (c : byte) : bool :=
  is_ascii_alphanumeric c || is_byte 45 c || is_byte 95 c || is_byte 46 c || is_byte 58 c.

Definition planner_validate_identifier (value name : str) : Result unit PlannerError :=
  if bool_decide (value = []) || (160 <? len value) || negb (forallb planner_identifier_byte value)
  then Err (PlInvalidIdentifier name) else Ok tt.

Definition PLANNER_METHODS : list str :=
  map list_ascii_of_string ["GET"; "HEAD"; "OPTIONS"; "POST"; "PUT"; "PATCH"; "DELETE"]%string.

Definition planner_validate_method (value : str) : Result unit PlannerError :=
  if negb (bool_decide (value ∈ PLANNER_METHODS)) then Err (PlInvalidPlan "HTTP method") else Ok tt.

Definition planner_validate_sha256 (value name : str) : Result unit PlannerError :=
  if negb (is_lower_hex_sha256 value)
  then Err (PlInvalidPlan (name ++ (" must be lowercase SHA-256" : str))) else Ok tt.

Definition scheduler_default : SchedulerLimits :=
  {| sl_maximum_queue_items := 10000; sl_maximum_global_concurrency := 8;
     sl_maximum_host_concurrency := 2; sl_minimum_host_interval_milliseconds := 200 |}.

Definition scheduler_limits_validate (self : SchedulerLimits) : Result SchedulerLimits PlannerError :=
  if (sl_maximum_queue_items self =? 0) || (MAX_QUEUE_ITEMS <? sl_maximum_queue_items self)
  then Err (PlInvalidSchedulerLimits "queue item limit")
  else if (sl_maximum_global_concurrency self =? 0)
          || (MAX_GLOBAL_CONCURRENCY <? sl_maximum_global_concurrency self)
          || (sl_maximum_host_concurrency self =? 0)
          || (MAX_HOST_CONCURRENCY <? sl_maximum_host_concurrency self)
          || (sl_maximum_global_concurrency self <? sl_maximum_host_concurrency self)
  then Err (PlInvalidSchedulerLimits "concurrency limits")
  else if 60000 <? sl_minimum_host_interval_milliseconds self
  then Err (PlInvalidSchedulerLimits "host interval")
  else Ok self.

Definition work_item_validate (self : WorkItem) : Result unit PlannerError :=
  let? _ := planner_validate_identifier (wi_work_id self) "work_id" in
  if wi_deadline_milliseconds self <=? wi_enqueued_at_milliseconds self
  then Err (PlInvalidPlan "work deadline must follow enqueue time")
  else if rp_retry_budget (wi_plan self) <? wi_attempt self
  then Err (PlInvalidPlan "work attempt exceeds plan retry budget")
  else if rp_session_required (wi_plan self)
          && (bool_decide (wi_session_id self = None) || bool_decide (wi_account_id self = None)
              || bool_decide (wi_tenant_id self = None))
  then Err (PlInvalidPlan "session-bound work requires session, account and tenant identity")
  else Ok tt.

(** ** The queue *)

Definition queue_new (limits : SchedulerLimits) : Result WorkQueue PlannerError :=
  let? limits := scheduler_limits_validate limits in
  Ok {| wq_limits := limits; wq_items := ∅; wq_order := []; wq_dedup := ∅; wq_host_in_flight := ∅;
        wq_last_host_start := ∅; wq_global_in_flight := 0; wq_next_lease_id := 1;
        wq_cancelled := false; wq_emergency_stopped := false |}.

Definition with_items (items : gmap str StoredWork) (self : WorkQueue) : WorkQueue :=
  {| wq_limits := wq_limits self; wq_items := items; wq_order := wq_order self;
     wq_dedup := wq_dedup self; wq_host_in_flight := wq_host_in_flight self;
     wq_last_host_start := wq_last_host_start self; wq_global_in_flight := wq_global_in_flight self;
     wq_next_lease_id := wq_next_lease_id self; wq_cancelled := wq_cancelled self;
     wq_emergency_stopped := wq_emergency_stopped self |}.

Definition with_order (order : list str) (self : WorkQueue) : WorkQueue :=
  {| wq_limits := wq_limits self; wq_items := wq_items self; wq_order := order;
     wq_dedup := wq_dedup self; wq_host_in_flight := wq_host_in_flight self;
     wq_last_host_start := wq_last_host_start self; wq_global_in_flight := wq_global_in_flight self;
     wq_next_lease_id := wq_next_lease_id self; wq_cancelled := wq_cancelled self;
     wq_emergency_stopped := wq_emergency_stopped self |}.

Definition with_state (state : WorkState) (lease_id : option str) (self : StoredWork) : StoredWork :=
  {| sw_item := sw_item self; sw_state := state; sw_lease_id := lease_id |}.

#[export] Instance N_ord : Ord N.
Proof.
  refine {| ord_leb := N.leb |}.
  - intros x y. rewrite !N.leb_le. lia.
  - intros x y z. rewrite !N.leb_le. lia.
  - intros x y. rewrite !N.leb_le. lia.
Defined.

(** The key of [sort_by_key]. *)
Definition work_key (stored : StoredWork) : N * N * str :=
  (priority_rank (wi_priority (sw_item stored)), wi_enqueued_at_milliseconds (sw_item stored),
   wi_work_id (sw_item stored)).

Definition keyed_le (x y : (N * N * str) * str) : Prop := ord_le x.1 y.1.

#[export] Instance keyed_le_dec x y : Decision (keyed_le x y).
Proof. unfold keyed_le. apply _. Defined.

(** [self.items[id]] of an identifier that is not stored panics. *)
Fixpoint keyed (items : gmap str StoredWork) (ids : list str) : Run (list ((N * N * str) * str)) :=
  match ids with
  | [] => Done []
  | id :: rest =>
      match items !! id with
      | None => Panic "no entry found for key"
      | Some stored => let! rest := keyed items rest in Done ((work_key stored, id) :: rest)
      end
  end.

Definition reorder (self : WorkQueue) : Run WorkQueue :=
  let! ids := keyed (wq_items self) (wq_order self) in
  Done (with_order (merge_sort keyed_le ids).*2 self).

Definition expire_work (now_milliseconds : N) (stored : StoredWork) : StoredWork :=
  if bool_decide (sw_state stored = Queued)
     && (wi_deadline_milliseconds (sw_item stored) <=? now_milliseconds)
  then with_state WExpired (sw_lease_id stored) stored else stored.

Definition expire_queued (now_milliseconds : N) (self : WorkQueue) : WorkQueue :=
  with_items (expire_work now_milliseconds <$> wq_items self) self.

(** The checks of the loop of [claim] on one identifier. *)
Definition eligible (self : WorkQueue) (now_milliseconds : N) (work_id : str) : bool :=
  match wq_items self !! work_id with
  | None => false
  | Some stored =>
      let origin := rp_origin (wi_plan (sw_item stored)) in
      bool_decide (sw_state stored = Queued)
      && (now_milliseconds <? wi_deadline_milliseconds (sw_item stored))
      && (default 0 (wq_host_in_flight self !! origin)
          <? sl_maximum_host_concurrency (wq_limits self))
      && match wq_last_host_start self !! origin with
         | Some last => sl_minimum_host_interval_milliseconds (wq_limits self) <=? now_milliseconds - last
         | None => true
         end
  end.

Definition u16_saturating_add (a b : N) : N := N.min (a + b) u16_max.

(** [+= 1] on a [u16], which panics on overflow. *)
Definition u16_increment (n : N) : Run N :=
  if u16_max <=? n then Panic "attempt to add with overflow" else Done (n + 1).

Definition is_finished_state (state : WorkState) : bool :=
  match state with WCompleted | WFailed | WCancelled => true | _ => false end.

Definition complete (lease : WorkLease) (terminal_state : WorkState) (self : WorkQueue)
    : Result unit PlannerError * WorkQueue :=
  if negb (is_finished_state terminal_state) then (Err InvalidWorkState, self)
  else match wq_items self !! wl_work_id lease with
  | None => (Err UnknownWorkItem, self)
  | Some stored =>
      if bool_decide (sw_state stored <> Running)
         || bool_decide (sw_lease_id stored <> Some (wl_lease_id lease))
      then (Err InvalidWorkState, self)
      else
        let origin := rp_origin (wi_plan (sw_item stored)) in
        (Ok tt,
         {| wq_limits := wq_limits self;
            wq_items := <[wl_work_id lease := with_state terminal_state None stored]> (wq_items self);
            wq_order := wq_order self; wq_dedup := wq_dedup self;
            wq_host_in_flight := alter (fun value => value - 1) origin (wq_host_in_flight self);
            wq_last_host_start := wq_last_host_start self;
            wq_global_in_flight := wq_global_in_flight self - 1;
            wq_next_lease_id := wq_next_lease_id self; wq_cancelled := wq_cancelled self;
            wq_emergency_stopped := wq_emergency_stopped self |})
  end.

Definition cancel_work (stored : StoredWork) : StoredWork :=
  if bool_decide (sw_state stored = Queued) then with_state WCancelled (sw_lease_id stored) stored
  else stored.

Definition cancel (self : WorkQueue) : WorkQueue :=
  {| wq_limits := wq_limits self; wq_items := cancel_work <$> wq_items self; wq_order := wq_order self;
     wq_dedup := wq_dedup self; wq_host_in_flight := wq_host_in_flight self;
     wq_last_host_start := wq_last_host_start self; wq_global_in_flight := wq_global_in_flight self;
     wq_next_lease_id := wq_next_lease_id self; wq_cancelled := true;
     wq_emergency_stopped := wq_emergency_stopped self |}.

Definition stop_work (stored : StoredWork) : StoredWork :=
  if bool_decide (sw_state stored = Queued) || bool_decide (sw_state stored = Running)
  then with_state WCancelled None stored else stored.

Definition emergency_stop (self : WorkQueue) : WorkQueue :=
  {| wq_limits := wq_limits self; wq_items := stop_work <$> wq_items self; wq_order := wq_order self;
     wq_dedup := wq_dedup self; wq_host_in_flight := ∅;
     wq_last_host_start := wq_last_host_start self; wq_global_in_flight := 0;
     wq_next_lease_id := wq_next_lease_id self; wq_cancelled := wq_cancelled self;
     wq_emergency_stopped := true |}.

Definition queue_state (work_id : str) (self : WorkQueue) : option WorkState :=
  sw_state <$> wq_items self !! work_id.

Definition queued_count (self : WorkQueue) : N :=
  len (List.filter (fun stored => bool_decide (sw_state stored = Queued)) (map_values (wq_items self))).

Definition in_flight (self : WorkQueue) : N := wq_global_in_flight self.

(** ** Capabilities *)

Fixpoint validate_identifiers (l : list (str * str)) : Result unit PlannerError :=
  match l with
  | [] => Ok tt
  | (name, value) :: rest =>
      let? _ := planner_validate_identifier value name in validate_identifiers rest
  end.

Definition capability_new (capability_id module_id run_id worker_id : str)
    (allowed_methods allowed_endpoint_hashes : gset str) (maximum_requests maximum_mutations : N)
    (secret_access : SecretAccessLevel) (body_replay_allowed redirect_allowed : bool)
    (expires_at_milliseconds : N) : Result ProbeCapability PlannerError :=
  let? _ := validate_identifiers
    [("capability_id" : str, capability_id); ("module_id" : str, module_id);
     ("run_id" : str, run_id); ("worker_id" : str, worker_id)] in
  if bool_decide (allowed_methods = ∅)
     || existsb (fun method => negb (is_ok (planner_validate_method method))) (btree_iter allowed_methods)
     || bool_decide (allowed_endpoint_hashes = ∅)
     || existsb (fun value => negb (is_ok (planner_validate_sha256 value "endpoint")))
          (btree_iter allowed_endpoint_hashes)
     || (maximum_requests =? 0) || (MAX_CAPABILITY_REQUESTS <? maximum_requests)
     || (MAX_CAPABILITY_MUTATIONS <? maximum_mutations) || (expires_at_milliseconds =? 0)
  then Err (InvalidCapability "capability bounds or allowlists are invalid")
  else Ok {| pc_capability_id := capability_id; pc_module_id := module_id; pc_run_id := run_id;
             pc_worker_id := worker_id; pc_allowed_methods := allowed_methods;
             pc_allowed_endpoint_hashes := allowed_endpoint_hashes;
             pc_maximum_requests := maximum_requests; pc_maximum_mutations := maximum_mutations;
             pc_secret_access := secret_access; pc_body_replay_allowed := body_replay_allowed;
             pc_redirect_allowed := redirect_allowed;
             pc_expires_at_milliseconds := expires_at_milliseconds; pc_revoked := false;
             pc_requests_used := 0; pc_mutations_used := 0 |}.

Definition with_use (requests mutations : N) (revoked : bool) (self : ProbeCapability) : ProbeCapability :=
  {| pc_capability_id := pc_capability_id self; pc_module_id := pc_module_id self;
     pc_run_id := pc_run_id self; pc_worker_id := pc_worker_id self;
     pc_allowed_methods := pc_allowed_methods self;
     pc_allowed_endpoint_hashes := pc_allowed_endpoint_hashes self;
     pc_maximum_requests := pc_maximum_requests self; pc_maximum_mutations := pc_maximum_mutations self;
     pc_secret_access := pc_secret_access self; pc_body_replay_allowed := pc_body_replay_allowed self;
     pc_redirect_allowed := pc_redirect_allowed self;
     pc_expires_at_milliseconds := pc_expires_at_milliseconds self; pc_revoked := revoked;
     pc_requests_used := requests; pc_mutations_used := mutations |}.

(** The checks of [authorize] before the counters move. *)
Definition capability_checks (self : ProbeCapability) (request : CapabilityUseRequest)
    : Result unit PlannerError :=
  if pc_revoked self || (pc_expires_at_milliseconds self <=? cu_now_milliseconds request)
  then Err CapabilityInactive
  else if bool_decide (cu_run_id request <> pc_run_id self)
          || bool_decide (cu_worker_id request <> pc_worker_id self)
  then Err (CapabilityDenied "run or worker binding")
  else if negb (bool_decide (cu_method request ∈ pc_allowed_methods self))
          || negb (bool_decide (cu_endpoint_sha256 request ∈ pc_allowed_endpoint_hashes self))
  then Err (CapabilityDenied "method or endpoint allowlist")
  else if access_rank (pc_secret_access self) <? access_rank (cu_requires_secret_access request)
  then Err (CapabilityDenied "secret access")
  else if cu_replays_body request && negb (pc_body_replay_allowed self)
  then Err (CapabilityDenied "body replay")
  else if cu_follows_redirect request && negb (pc_redirect_allowed self)
  then Err (CapabilityDenied "redirect")
  else if (pc_maximum_requests self <=? pc_requests_used self)
          || (pc_maximum_mutations self
              <? saturating_add (pc_mutations_used self) (cu_mutations request))
  then Err (CapabilityDenied "budget")
  else Ok tt.

Definition capability_authorize (request : CapabilityUseRequest) (self : ProbeCapability)
    : Result CapabilityUseReceipt PlannerError * ProbeCapability :=
  match capability_checks self request with
  | Err e => (Err e, self)
  | Ok _ =>
      let requests_used := saturating_add (pc_requests_used self) 1 in
      let mutations_used := saturating_add (pc_mutations_used self) (cu_mutations request) in
      (Ok {| ur_capability_id := pc_capability_id self; ur_request_number := requests_used;
             ur_mutations_used := cu_mutations request;
             ur_remaining_requests := pc_maximum_requests self - requests_used;
             ur_remaining_mutations := pc_maximum_mutations self - mutations_used;
             ur_endpoint_sha256 := cu_endpoint_sha256 request |},
       with_use requests_used mutations_used (pc_revoked self) self)
  end.

Definition capability_revoke (self : ProbeCapability) : ProbeCapability :=
  with_use (pc_requests_used self) (pc_mutations_used self) true self.

(** ** Plans, the queue's entry points and runs *)

(** [format!("{:?}", target).to_ascii_lowercase()]. *)
Definition run_state_name (state : RunState) : str :=
  match state with
  | RunCreated => "created"
  | RunValidated => "validated"
  | RunRunning => "running"
  | RunPaused => "paused"
  | RunCancelling => "cancelling"
  | RunCompleted => "completed"
  | RunFailed => "failed"
  | RunEmergencyStopped => "emergencystopped"
  end.

Definition planner_chain_error (e : ChainError) : PlannerError :=
  match e with
  | InvalidGenesisHash => PlAuditSerialization []
  | Serialization message => PlAuditSerialization message
  | SequenceMismatch i => PlAuditSequenceMismatch i
  | PreviousHashMismatch i => PlAuditPreviousHashMismatch i
  | RecordHashMismatch i => PlAuditRecordHashMismatch i
  | TailHashMismatch => PlAuditTailMismatch
  end.

(** The life cycle of a run. *)
Definition run_edge (from to : RunState) : bool :=
  match from, to with
  | RunCreated, RunValidated
  | RunValidated, RunRunning
  | RunRunning, RunPaused
  | RunPaused, RunRunning
  | RunRunning, RunCancelling
  | RunPaused, RunCancelling
  | RunCancelling, RunCompleted
  | RunRunning, RunCompleted
  | RunRunning, RunFailed
  | RunPaused, RunFailed
  | _, RunEmergencyStopped => true
  | _, _ => false
  end.

Section Planner.
Context {S : Sha256Lib} {JP : JsonLib PlanMaterial} {JD : JsonLib DedupMaterial}
  {JA : JsonLib (HashMaterial PlannerAuditEvent)}.

Definition planner_hash_bytes (bytes : str) : str := to_lower_hex (sha256 bytes).

(** The bytes [hash_serializable] hashes: the JSON, or the message of the error. *)
Definition json_or_message {A} {J : JsonLib A} (value : A) : str :=
  match to_vec value with Ok bytes => bytes | Err error => error end.

Definition hash_serializable {A} {J : JsonLib A} (value : A) : str :=
  planner_hash_bytes (json_or_message value).

(** The serializer of the audit chain, which hashes with [hash_serializable]. *)
Definition audit_json : JsonLib (HashMaterial PlannerAuditEvent) :=
  {| to_vec material := Ok (json_or_message material) |}.

Definition planner_audit_new : HashChain PlannerAuditEvent := chain_new (replicate 64 "0"%char).

Definition planner_audit_append (event : PlannerAuditEvent) (chain : HashChain PlannerAuditEvent)
    : Result (ChainRecord PlannerAuditEvent) PlannerError * HashChain PlannerAuditEvent :=
  let '(result, chain) := chain_append (H0 := audit_json) event chain in
  (map_err planner_chain_error result, chain).

Definition planner_audit_verify (chain : HashChain PlannerAuditEvent) : Result unit PlannerError :=
  map_err planner_chain_error (chain_verify (H0 := audit_json) chain).

Section Plan.
Context {U : UrlLib} {UF : UrlFragmentLib}.

Definition normalized_origin (url : Url) : Result str PlannerError :=
  match url_host_str url with
  | None => Err (PlInvalidPlan "URL host")
  | Some host =>
      match url_port_or_known_default url with
      | None => Err (PlInvalidPlan "URL port")
      | Some port =>
          Ok (url_scheme url ++ ("://" : str) ++ to_ascii_lowercase host ++ (":" : str) ++ decimal port)
      end
  end.

Definition parameter_name_invalid (name : str) : bool :=
  bool_decide (name = []) || (256 <? len name) || existsb is_ascii_control name.

Definition plan_new (endpoint_id : str) (url : Url) (method : str) (parameter_names : gset str)
    (body_kind : str) (session_required : bool) (risk_class : RiskClass)
    (provenance_sha256 policy_snapshot_sha256 : str)
    (estimated_request_bytes estimated_response_bytes redirect_budget retry_budget : N)
    (active_execution_allowed : bool) : Result RequestIntentPlan PlannerError :=
  let? _ := planner_validate_identifier endpoint_id "endpoint_id" in
  let method := to_ascii_uppercase method in
  let? _ := planner_validate_method method in
  let? _ := planner_validate_identifier body_kind "body_kind" in
  let? _ := planner_validate_sha256 provenance_sha256 "provenance" in
  let? _ := planner_validate_sha256 policy_snapshot_sha256 "policy snapshot" in
  if negb (bool_decide (url_scheme url = ("http" : str)) || bool_decide (url_scheme url = ("https" : str)))
     || bool_decide (url_host_str url = None)
     || negb (bool_decide (url_username url = []))
     || negb (bool_decide (url_password url = None))
     || negb (bool_decide (url_fragment url = None))
  then Err (PlInvalidPlan "URL must be credential-free absolute HTTP(S) without a fragment")
  else if (1024 <? N.of_nat (size parameter_names))
          || existsb parameter_name_invalid (btree_iter parameter_names)
  then Err (PlInvalidPlan "parameter-name set is invalid")
  else if (64 * 1024 * 1024 <? estimated_request_bytes)
          || (128 * 1024 * 1024 <? estimated_response_bytes)
          || (16 <? redirect_budget) || (MAX_RETRY_COUNT <? retry_budget)
  then Err (PlInvalidPlan "cost or retry budgets exceed hard limits")
  else if match risk_class with Forbidden => active_execution_allowed | _ => false end
  then Err (PlInvalidPlan "forbidden work cannot be active")
  else
  let? origin := normalized_origin url in
  Ok {| rp_endpoint_id := endpoint_id; rp_canonical_url := url_to_string url;
        rp_canonical_url_sha256 := planner_hash_bytes (url_to_string url); rp_origin := origin;
        rp_method := method; rp_parameter_names := parameter_names; rp_body_kind := body_kind;
        rp_session_required := session_required; rp_risk_class := risk_class;
        rp_provenance_sha256 := provenance_sha256;
        rp_policy_snapshot_sha256 := policy_snapshot_sha256;
        rp_estimated_request_bytes := estimated_request_bytes;
        rp_estimated_response_bytes := estimated_response_bytes;
        rp_redirect_budget := redirect_budget; rp_retry_budget := retry_budget;
        rp_active_execution_allowed := active_execution_allowed |}.

End Plan.

Definition fingerprint (self : RequestIntentPlan) : str :=
  hash_serializable (rp_canonical_url_sha256 self, rp_method self, rp_parameter_names self,
    rp_body_kind self, rp_session_required self, rp_risk_class self, rp_policy_snapshot_sha256 self).

Definition dedup_key (self : WorkItem) : str :=
  hash_serializable (fingerprint (wi_plan self), wi_session_id self, wi_account_id self,
    wi_tenant_id self).

Definition enqueue (item : WorkItem) (self : WorkQueue) : Run (Result unit PlannerError * WorkQueue) :=
  if sl_maximum_queue_items (wq_limits self) <=? N.of_nat (size (wq_items self))
  then Done (Err QueueFull, self)
  else match work_item_validate item with
  | Err e => Done (Err e, self)
  | Ok _ =>
      if bool_decide (is_Some (wq_items self !! wi_work_id item))
         || bool_decide (dedup_key item ∈ wq_dedup self)
      then Done (Err DuplicateWorkItem, self)
      else
        let! queue := reorder
          {| wq_limits := wq_limits self;
             wq_items := <[wi_work_id item :=
               {| sw_item := item; sw_state := Queued; sw_lease_id := None |}]> (wq_items self);
             wq_order := wq_order self ++ [wi_work_id item];
             wq_dedup := {[ dedup_key item ]} ∪ wq_dedup self;
             wq_host_in_flight := wq_host_in_flight self;
             wq_last_host_start := wq_last_host_start self;
             wq_global_in_flight := wq_global_in_flight self;
             wq_next_lease_id := wq_next_lease_id self; wq_cancelled := wq_cancelled self;
             wq_emergency_stopped := wq_emergency_stopped self |} in
        Done (Ok tt, queue)
  end.

(** The part of [claim] after the selection and the expiry of queued work. *)
Definition start_lease (worker_id : str) (now_milliseconds : N) (work_id : str) (self : WorkQueue)
    : Run (Result (option WorkLease) PlannerError * WorkQueue) :=
  match wq_items self !! work_id with
  | None => Done (Err UnknownWorkItem, self)
  | Some stored =>
      let lease_id := ("work-lease-" : str) ++ decimal020 (wq_next_lease_id self) in
      let origin := rp_origin (wi_plan (sw_item stored)) in
      let! host_count := u16_increment (default 0 (wq_host_in_flight self !! origin)) in
      Done (Ok (Some
        {| wl_lease_id := lease_id; wl_work_id := work_id; wl_worker_id := worker_id;
           wl_origin := origin; wl_claimed_at_milliseconds := now_milliseconds;
           wl_deadline_milliseconds := wi_deadline_milliseconds (sw_item stored);
           wl_plan_fingerprint := fingerprint (wi_plan (sw_item stored)) |}),
        {| wq_limits := wq_limits self;
           wq_items := <[work_id := with_state Running (Some lease_id) stored]> (wq_items self);
           wq_order := wq_order self; wq_dedup := wq_dedup self;
           wq_host_in_flight := <[origin := host_count]> (wq_host_in_flight self);
           wq_last_host_start := <[origin := now_milliseconds]> (wq_last_host_start self);
           wq_global_in_flight := u16_saturating_add (wq_global_in_flight self) 1;
           wq_next_lease_id := saturating_add (wq_next_lease_id self) 1;
           wq_cancelled := wq_cancelled self; wq_emergency_stopped := wq_emergency_stopped self |})
  end.

Definition claim (worker_id : str) (now_milliseconds : N) (self : WorkQueue)
    : Run (Result (option WorkLease) PlannerError * WorkQueue) :=
  match planner_validate_identifier worker_id "worker_id" with
  | Err e => Done (Err e, self)
  | Ok _ =>
      if wq_cancelled self || wq_emergency_stopped self then Done (Ok None, self)
      else if sl_maximum_global_concurrency (wq_limits self) <=? wq_global_in_flight self
      then Done (Ok None, self)
      else
        let selected := List.find (eligible self now_milliseconds) (wq_order self) in
        let queue := expire_queued now_milliseconds self in
        match selected with
        | None => Done (Ok None, queue)
        | Some work_id => start_lease worker_id now_milliseconds work_id queue
        end
  end.

Definition run_new (run_id policy_snapshot_sha256 : str) : Result RunMachine PlannerError :=
  let? _ := planner_validate_identifier run_id "run_id" in
  let? _ := planner_validate_sha256 policy_snapshot_sha256 "policy snapshot" in
  match planner_audit_append
    {| pa_action := "run_created"; pa_subject_id := run_id; pa_outcome := "created";
       pa_metadata := {[ ("policy_snapshot_sha256" : str) := policy_snapshot_sha256 ]} |}
    planner_audit_new with
  | (Err e, _) => Err e
  | (Ok _, audit) =>
      Ok {| rm_snapshot :=
              {| rs_run_id := run_id; rs_policy_snapshot_sha256 := policy_snapshot_sha256;
                 rs_state := RunCreated; rs_generation := 1; rs_owner_worker_id := None;
                 rs_resume_token_sha256 := None; rs_audit_tail := tail_hash audit |};
            rm_audit := audit |}
  end.

(** The guards of [transition] after the life-cycle check, and what they set:
    the owner and the resume token of the new snapshot. *)
Definition transition_owner (snapshot : RunSnapshot) (target : RunState) (worker_id resume_token : option str)
    : Result (option str * option str) PlannerError :=
  if bool_decide (target = RunRunning) then
    match worker_id with
    | None => Err (PlInvalidPlan "running state requires worker ownership")
    | Some worker =>
        let? _ := planner_validate_identifier worker "worker_id" in
        let? _ :=
          (if bool_decide (rs_state snapshot = RunPaused) then
             match resume_token with
             | None => Err (PlInvalidPlan "resume requires a token")
             | Some provided =>
                 match rs_resume_token_sha256 snapshot with
                 | None => Err (PlInvalidPlan "paused run lacks resume token")
                 | Some expected =>
                     if bool_decide (planner_hash_bytes provided <> expected)
                     then Err (PlInvalidPlan "resume token does not match") else Ok tt
                 end
             end
           else Ok tt) in
        Ok (Some worker, None)
    end
  else if bool_decide (target = RunPaused) then
    match resume_token with
    | None => Err (PlInvalidPlan "pause requires a future resume token")
    | Some token => Ok (None, Some (planner_hash_bytes token))
    end
  else Ok (rs_owner_worker_id snapshot, rs_resume_token_sha256 snapshot).

Definition run_transition (target : RunState) (worker_id resume_token : option str) (self : RunMachine)
    : Result RunSnapshot PlannerError * RunMachine :=
  let snapshot := rm_snapshot self in
  if run_is_terminal (rs_state snapshot) || negb (run_edge (rs_state snapshot) target)
  then (Err (InvalidRunTransition (rs_state snapshot) target), self)
  else match transition_owner snapshot target worker_id resume_token with
  | Err e => (Err e, self)
  | Ok (owner, token) =>
      let moved tail :=
        {| rs_run_id := rs_run_id snapshot;
           rs_policy_snapshot_sha256 := rs_policy_snapshot_sha256 snapshot; rs_state := target;
           rs_generation := saturating_add (rs_generation snapshot) 1; rs_owner_worker_id := owner;
           rs_resume_token_sha256 := token; rs_audit_tail := tail |} in
      match planner_audit_append
        {| pa_action := "run_transition"; pa_subject_id := rs_run_id snapshot;
           pa_outcome := run_state_name target;
           pa_metadata := {[ ("generation" : str) := decimal (saturating_add (rs_generation snapshot) 1) ]} |}
        (rm_audit self) with
      | (Err e, audit) =>
          (Err e, {| rm_snapshot := moved (rs_audit_tail snapshot); rm_audit := audit |})
      | (Ok _, audit) =>
          (Ok (moved (tail_hash audit)), {| rm_snapshot := moved (tail_hash audit); rm_audit := audit |})
      end
  end.

End Planner.
