(* ===== verification/PlannerFacts.v ===== *)
(** * Planner: theorems

    The scheduler's counters, limits and order along every history of calls, the
    leases it hands out, the budgets of a capability and the life cycle of a run. *)

From S2P Require Import Prelude ByteStr BTree HashChain Url Planner.
Local Open Scope N_scope.

(** ** Counting stored work *)

Definition b2n (b : bool) : N := if b then 1 else 0.

Definition count (p : StoredWork -> bool) (m : gmap str StoredWork) : N :=
  N.of_nat (size (filter (fun kv : str * StoredWork => p kv.2 = true) m)).

Lemma count_insert_new p m k v :
  m !! k = None -> count p (<[k := v]> m) = b2n (p v) + count p m.
Proof.
  intros Hk. unfold count, b2n. destruct (p v) eqn:E.
  - rewrite map_filter_insert_True by done.
    rewrite map_size_insert_None; [lia|]. apply map_lookup_filter_None. by left.
  - rewrite map_filter_insert_False by (simpl; congruence). by rewrite delete_id.
Qed.

Lemma count_update p m k v0 v :
  m !! k = Some v0 -> count p (<[k := v]> m) + b2n (p v0) = count p m + b2n (p v).
Proof.
  intros Hk. rewrite <- (insert_delete_id m k v0 Hk) at 2. rewrite <- insert_delete_eq.
  rewrite !count_insert_new by apply lookup_delete_eq. lia.
Qed.

Lemma count_fmap p (f : StoredWork -> StoredWork) m :
  (forall v, p (f v) = p v) -> count p (f <$> m) = count p m.
Proof.
  intros Hf. unfold count. rewrite map_filter_fmap, map_size_fmap. do 2 f_equal.
  apply map_filter_ext. intros k v _. simpl. by rewrite Hf.
Qed.

Lemma count_zero p m : (forall k v, m !! k = Some v -> p v = false) -> count p m = 0.
Proof.
  intros Hp. unfold count. rewrite (proj2 (map_empty_filter _ _)); [by rewrite map_size_empty|].
  intros k v Hk. simpl. rewrite (Hp k v Hk). done.
Qed.

Lemma count_pos p m k v : m !! k = Some v -> p v = true -> 0 < count p m.
Proof.
  intros Hk Hp. pose proof (count_update p m k v v Hk) as Hc.
  rewrite <- (insert_delete_id m k v Hk), count_insert_new by apply lookup_delete_eq.
  unfold b2n. rewrite Hp. lia.
Qed.

Definition is_running (stored : StoredWork) : bool := bool_decide (sw_state stored = Running).
Definition stored_origin (stored : StoredWork) : str := rp_origin (wi_plan (sw_item stored)).
Definition runs_on (origin : str) (stored : StoredWork) : bool :=
  is_running stored && bool_decide (stored_origin stored = origin).

(** Work that is being executed, in all and on one origin. *)
Definition running_total (q : WorkQueue) : N := count is_running (wq_items q).
Definition running_on (origin : str) (q : WorkQueue) : N := count (runs_on origin) (wq_items q).

(** ** The invariant *)

(** The items of the queue without their execution state. *)
Definition catalogue (q : WorkQueue) : gmap str WorkItem := sw_item <$> wq_items q.

Definition item_key (item : WorkItem) : N * N * str :=
  (priority_rank (wi_priority item), wi_enqueued_at_milliseconds item, wi_work_id item).

Definition key_le (items : gmap str WorkItem) (a b : str) : Prop :=
  exists x y, items !! a = Some x /\ items !! b = Some y /\ ord_le (item_key x) (item_key y).

Record queue_ok (q : WorkQueue) : Prop := {
  ok_limits : scheduler_limits_validate (wq_limits q) = Ok (wq_limits q);
  ok_size : N.of_nat (size (catalogue q)) <= sl_maximum_queue_items (wq_limits q);
  ok_ids : map_Forall (fun id item => wi_work_id item = id) (catalogue q);
  ok_order : wq_order q ≡ₚ elements (dom (catalogue q) : gset str);
  ok_sorted : StronglySorted (key_le (catalogue q)) (wq_order q);
  ok_global : wq_global_in_flight q = running_total q;
  ok_global_max : running_total q <= sl_maximum_global_concurrency (wq_limits q);
  ok_host : forall origin, default 0 (wq_host_in_flight q !! origin) = running_on origin q;
  ok_host_max : forall origin, running_on origin q <= sl_maximum_host_concurrency (wq_limits q)
}.

(** The part of the invariant that depends on the items, their order and the
    limits only. *)
Definition same_catalogue (q q' : WorkQueue) : Prop :=
  wq_limits q' = wq_limits q /\ catalogue q' = catalogue q /\ wq_order q' = wq_order q.

Lemma queue_ok_same q q' :
  queue_ok q -> same_catalogue q q' ->
  wq_global_in_flight q' = running_total q' ->
  running_total q' <= sl_maximum_global_concurrency (wq_limits q') ->
  (forall origin, default 0 (wq_host_in_flight q' !! origin) = running_on origin q') ->
  (forall origin, running_on origin q' <= sl_maximum_host_concurrency (wq_limits q')) ->
  queue_ok q'.
Proof.
  intros [] (El & Ec & Eo) ????. constructor; rewrite ?El, ?Ec, ?Eo in *; auto.
Qed.

Lemma limits_bounds l :
  scheduler_limits_validate l = Ok l ->
  sl_maximum_queue_items l <= MAX_QUEUE_ITEMS
  /\ sl_maximum_global_concurrency l <= MAX_GLOBAL_CONCURRENCY
  /\ sl_maximum_host_concurrency l <= MAX_HOST_CONCURRENCY.
Proof. unfold scheduler_limits_validate. intros Hl. inv_ok Hl. bools. lia. Qed.

Lemma validated_limits l l' : scheduler_limits_validate l = Ok l' -> l' = l.
Proof. unfold scheduler_limits_validate. intros Hl. by inv_ok Hl. Qed.

Lemma catalogue_insert_same (items : gmap str StoredWork) k stored stored' :
  items !! k = Some stored -> sw_item stored' = sw_item stored ->
  sw_item <$> <[k := stored']> items = sw_item <$> items.
Proof. intros Hk Hs. rewrite fmap_insert, Hs. apply insert_id. by rewrite lookup_fmap, Hk. Qed.

Lemma catalogue_fmap_same (f : StoredWork -> StoredWork) (items : gmap str StoredWork) :
  (forall v, sw_item (f v) = sw_item v) -> sw_item <$> (f <$> items) = sw_item <$> items.
Proof. intros Hf. rewrite <- map_fmap_compose. apply map_fmap_ext. intros. apply Hf. Qed.

Lemma catalogue_lookup q k item :
  catalogue q !! k = Some item <-> exists stored, wq_items q !! k = Some stored /\ sw_item stored = item.
Proof. unfold catalogue. rewrite lookup_fmap, fmap_Some. naive_solver. Qed.

Lemma order_elem q k : queue_ok q -> k ∈ wq_order q <-> is_Some (wq_items q !! k).
Proof.
  intros Hq. rewrite (ok_order q Hq), elem_of_elements, elem_of_dom. unfold catalogue.
  by rewrite lookup_fmap, fmap_is_Some.
Qed.

Lemma queue_new_ok limits q : queue_new limits = Ok q -> queue_ok q.
Proof.
  unfold queue_new. intros Hn. inv_ok Hn. pose proof (validated_limits _ _ Heqr) as ->.
  constructor; unfold catalogue, running_total, running_on; simpl; try done.
  - rewrite fmap_empty, map_size_empty. lia.
  - constructor.
  - rewrite count_zero by done. lia.
  - intros o. rewrite count_zero by done. lia.
Qed.

(** ** The order of the queue *)

Lemma keyed_stored items ids :
  (forall id, id ∈ ids -> is_Some (items !! id)) ->
  exists l, keyed items ids = Done l /\ l.*2 = ids
    /\ forall k id, (k, id) ∈ l -> exists stored, items !! id = Some stored /\ k = work_key stored.
Proof.
  induction ids as [|id ids IH]; intros Hi; simpl; [exists []; repeat split; set_solver|].
  destruct (Hi id ltac:(set_solver)) as [stored Hs].
  destruct IH as (l & -> & <- & Hl); [set_solver|]. rewrite Hs.
  eexists. repeat split; [done..|]. intros k id' [[= -> ->]|Hin]%elem_of_cons; eauto.
Qed.

#[export] Instance keyed_le_total : Total keyed_le.
Proof. intros x y. unfold keyed_le. apply ord_leb_total. Qed.

#[export] Instance keyed_le_trans : Transitive keyed_le.
Proof. intros x y z. unfold keyed_le, ord_le. apply ord_leb_trans. Qed.

Lemma strongly_sorted_fmap {A B} (R : A -> A -> Prop) (R' : B -> B -> Prop) (f : A -> B) l :
  (forall x y, x ∈ l -> y ∈ l -> R x y -> R' (f x) (f y)) ->
  StronglySorted R l -> StronglySorted R' (f <$> l).
Proof.
  intros Hf Hs. induction Hs as [|x l Hs IH Hx]; simpl; constructor.
  - apply IH. intros. apply Hf; set_solver.
  - apply Forall_forall. intros y (z & -> & Hz)%list_elem_of_fmap.
    apply Hf; [set_solver..|]. by apply (proj1 (Forall_forall _ _) Hx).
Qed.

Lemma reorder_spec q :
  (forall id, id ∈ wq_order q -> is_Some (wq_items q !! id)) ->
  exists order, reorder q = Done (with_order order q)
    /\ order ≡ₚ wq_order q /\ StronglySorted (key_le (catalogue q)) order.
Proof.
  intros Hi. unfold reorder. destruct (keyed_stored _ _ Hi) as (l & -> & E & Hl).
  eexists. split; [done|]. pose proof (merge_sort_Permutation keyed_le l) as Hp. split.
  - rewrite <- E. by apply fmap_Permutation.
  - eapply (strongly_sorted_fmap keyed_le).
    + intros [k1 id1] [k2 id2] H1 H2 Hle. rewrite Hp in H1, H2.
      apply Hl in H1 as (s1 & Hs1 & ->). apply Hl in H2 as (s2 & Hs2 & ->).
      exists (sw_item s1), (sw_item s2). repeat split; [by apply catalogue_lookup; eauto..|exact Hle].
    + apply Sorted_StronglySorted; [apply _|]. by apply Sorted_merge_sort, _.
Qed.

(** ** Every operation preserves the invariant *)

Section Facts.
Context {S : Sha256Lib} {JP : JsonLib PlanMaterial} {JD : JsonLib DedupMaterial}
  {JA : JsonLib (HashMaterial PlannerAuditEvent)}.

Lemma enqueue_spec item q :
  queue_ok q -> exists r q', enqueue item q = Done (r, q')
    /\ match r with
       | Err _ => q' = q
       | Ok _ =>
           exists order,
             q' = {| wq_limits := wq_limits q;
                     wq_items := <[wi_work_id item :=
                       {| sw_item := item; sw_state := Queued; sw_lease_id := None |}]> (wq_items q);
                     wq_order := order; wq_dedup := {[ dedup_key item ]} ∪ wq_dedup q;
                     wq_host_in_flight := wq_host_in_flight q;
                     wq_last_host_start := wq_last_host_start q;
                     wq_global_in_flight := wq_global_in_flight q;
                     wq_next_lease_id := wq_next_lease_id q; wq_cancelled := wq_cancelled q;
                     wq_emergency_stopped := wq_emergency_stopped q |}
             /\ N.of_nat (size (wq_items q)) < sl_maximum_queue_items (wq_limits q)
             /\ wq_items q !! wi_work_id item = None
             /\ order ≡ₚ wi_work_id item :: wq_order q
             /\ StronglySorted (key_le (catalogue q')) order
       end.
Proof.
  intros Hq. unfold enqueue. destruct (N.leb_spec (sl_maximum_queue_items (wq_limits q)) (N.of_nat (size (wq_items q)))) as [|Hsz]; [by eexists _, _|].
  destruct (work_item_validate item) as [[]|e]; [|by eexists _, _].
  destruct (bool_decide (is_Some (wq_items q !! wi_work_id item)) || _) eqn:Hd; [by eexists _, _|]. bools.
  apply eq_None_not_Some in H.
  match goal with |- context [reorder ?q0] => set (q1 := q0) end.
  destruct (reorder_spec q1) as (order & -> & Hp & Hs).
  - simpl. intros id. rewrite elem_of_app, list_elem_of_singleton, lookup_insert_is_Some'.
    rewrite (order_elem q id Hq). naive_solver.
  - eexists _, _. split; [done|]. exists order. repeat split; [done..| |exact Hs].
    rewrite Hp. simpl. by rewrite Permutation_app_comm.
Qed.

Lemma enqueue_ok item q r q' : queue_ok q -> enqueue item q = Done (r, q') -> queue_ok q'.
Proof.
  intros Hq He. destruct (enqueue_spec item q Hq) as (r0 & q0 & E & Hr). rewrite He in E. injection E as <- <-.
  destruct r as [u|e]; [|by subst]. destruct Hr as (order & -> & Hsz & Hnew & Hp & Hs).
  destruct Hq. unfold catalogue, running_total, running_on in *.
  assert ((sw_item <$> wq_items q) !! wi_work_id item = None) as Hcat by (by rewrite lookup_fmap, Hnew).
  constructor; unfold catalogue, running_total, running_on; simpl; rewrite ?fmap_insert; simpl; auto.
  - rewrite map_size_insert_None by done. rewrite map_size_fmap. lia.
  - by apply map_Forall_insert_2.
  - rewrite Hp, dom_insert_L, elements_union_singleton by (by apply not_elem_of_dom). by rewrite ok_order0.
  - simpl in Hs; rewrite fmap_insert in Hs. exact Hs.
  - by rewrite count_insert_new.
  - by rewrite count_insert_new.
  - intros o. rewrite count_insert_new by done. apply ok_host0.
  - intros o. rewrite count_insert_new by done. apply ok_host_max0.
Qed.


Lemma expire_item now v : sw_item (expire_work now v) = sw_item v.
Proof. unfold expire_work. by destruct (_ && _). Qed.

Lemma expire_running now v : is_running (expire_work now v) = is_running v.
Proof.
  unfold expire_work, is_running. destruct (bool_decide (sw_state v = Queued)) eqn:E; simpl; [|done].
  bools. destruct (_ <=? _); simpl; by rewrite E.
Qed.

(** Operations that change the execution state of stored work only. *)
Lemma map_work_ok (f : StoredWork -> StoredWork) q q' :
  (forall v, sw_item (f v) = sw_item v) -> (forall v, is_running (f v) = is_running v) ->
  wq_items q' = f <$> wq_items q -> wq_limits q' = wq_limits q -> wq_order q' = wq_order q ->
  wq_global_in_flight q' = wq_global_in_flight q -> wq_host_in_flight q' = wq_host_in_flight q ->
  queue_ok q -> queue_ok q'.
Proof.
  intros Hi Hr Em El Eo Eg Eh Hq.
  assert (running_total q' = running_total q) as Et
    by (unfold running_total; rewrite Em; by apply count_fmap).
  assert (forall o, running_on o q' = running_on o q) as Eon.
  { intros o. unfold running_on. rewrite Em. apply count_fmap. intros v. unfold runs_on, stored_origin.
    by rewrite Hr, Hi. }
  apply (queue_ok_same q); [done| |rewrite ?Et, ?Eg, ?El; apply Hq..| |].
  - repeat split; [done| |done]. unfold catalogue. rewrite Em. by apply catalogue_fmap_same.
  - intros o. rewrite Eon, Eh. apply Hq.
  - intros o. rewrite Eon, El. apply Hq.
Qed.

Lemma expire_queued_ok now q : queue_ok q -> queue_ok (expire_queued now q).
Proof. apply (map_work_ok (expire_work now)); auto using expire_item, expire_running. Qed.

Lemma cancel_ok q : queue_ok q -> queue_ok (cancel q).
Proof.
  apply (map_work_ok cancel_work); try done; intros v; unfold cancel_work; case_bool_decide as E; try done.
  unfold is_running. by rewrite E.
Qed.

Lemma emergency_stop_ok q : queue_ok q -> queue_ok (emergency_stop q).
Proof.
  intros Hq. assert (forall v, is_running (stop_work v) = false) as Hs.
  { intros v. unfold stop_work, is_running. destruct (sw_state v) eqn:E; simpl; by rewrite ?E. }
  assert (forall p, (forall v, p v = true -> is_running v = true) ->
    count p (wq_items (emergency_stop q)) = 0) as Hz.
  { intros p Hp. apply count_zero. intros k v. simpl. rewrite lookup_fmap_Some. intros (w & <- & _).
    destruct (p (stop_work w)) eqn:E; [|done]. apply Hp in E. by rewrite Hs in E. }
  assert (forall o v, runs_on o v = true -> is_running v = true) as Ho by (intros o v Hv; unfold runs_on in Hv; by bools).
  apply (queue_ok_same q); unfold running_total, running_on; rewrite ?Hz by done; try done; try lia.
  - repeat split. unfold catalogue. simpl. apply catalogue_fmap_same. intros v. unfold stop_work.
    by destruct (_ || _).
  - intros o. by rewrite (Hz _ (Ho o)).
  - intros o. rewrite (Hz _ (Ho o)). lia.
Qed.

Lemma default_alter_pred (m : gmap str N) o o' :
  default 0 (alter (fun value => value - 1) o m !! o') = default 0 (m !! o') - b2n (bool_decide (o = o')).
Proof.
  destruct (decide (o = o')) as [<-|Hne].
  - rewrite lookup_alter_eq, bool_decide_eq_true_2 by done. by destruct (m !! o).
  - rewrite lookup_alter_ne, bool_decide_eq_false_2 by done. simpl. lia.
Qed.

Lemma default_insert (m : gmap str N) o o' n :
  default 0 (<[o := n]> m !! o') = if bool_decide (o = o') then n else default 0 (m !! o').
Proof.
  destruct (decide (o = o')) as [<-|Hne].
  - by rewrite lookup_insert_eq, bool_decide_eq_true_2.
  - by rewrite lookup_insert_ne, bool_decide_eq_false_2.
Qed.

(** Ending and starting the execution of one piece of work. *)
Lemma running_update q q' k stored stored' :
  wq_items q !! k = Some stored -> sw_item stored' = sw_item stored ->
  wq_items q' = <[k := stored']> (wq_items q) ->
  running_total q' + b2n (is_running stored) = running_total q + b2n (is_running stored')
  /\ forall o, running_on o q' + b2n (runs_on o stored) = running_on o q + b2n (runs_on o stored').
Proof.
  intros Hk Hi Em. unfold running_total, running_on. rewrite Em. split; [|intros o]; by apply count_update.
Qed.

Lemma complete_spec lease terminal q r q' :
  complete lease terminal q = (r, q') ->
  match r with
  | Err _ => q' = q
  | Ok _ =>
      exists stored,
        wq_items q !! wl_work_id lease = Some stored /\ sw_state stored = Running
        /\ sw_lease_id stored = Some (wl_lease_id lease) /\ is_finished_state terminal = true
        /\ q' = {| wq_limits := wq_limits q;
                   wq_items := <[wl_work_id lease := with_state terminal None stored]> (wq_items q);
                   wq_order := wq_order q; wq_dedup := wq_dedup q;
                   wq_host_in_flight :=
                     alter (fun value => value - 1) (stored_origin stored) (wq_host_in_flight q);
                   wq_last_host_start := wq_last_host_start q;
                   wq_global_in_flight := wq_global_in_flight q - 1;
                   wq_next_lease_id := wq_next_lease_id q; wq_cancelled := wq_cancelled q;
                   wq_emergency_stopped := wq_emergency_stopped q |}
  end.
Proof.
  unfold complete. intros Hc. repeat step_in Hc; simplify_eq; try done. bools.
  eexists. repeat split; first [done | by apply dec_stable].
Qed.

Lemma complete_ok lease terminal q r q' :
  queue_ok q -> complete lease terminal q = (r, q') -> queue_ok q'.
Proof.
  intros Hq Hc. apply complete_spec in Hc. destruct r as [u|e]; [|by subst].
  destruct Hc as (stored & Hk & Hs & _ & Hf & ->).
  match goal with |- queue_ok ?q0 => set (q' := q0) end.
  destruct (running_update q q' _ _ (with_state terminal None stored) Hk eq_refl eq_refl) as [Ht Ho].
  assert (is_running stored = true) as Hr by (unfold is_running; by rewrite Hs).
  assert (is_running (with_state terminal None stored) = false) as Hr'
    by (unfold is_running; simpl; by destruct terminal).
  rewrite Hr, Hr' in Ht. unfold runs_on in Ho. rewrite Hr, Hr' in Ho. simpl in Ht, Ho.
  pose proof (ok_global_max q Hq). pose proof (ok_host_max q Hq).
  apply (queue_ok_same q); [done| | | | |]; simpl.
  - repeat split. unfold catalogue. simpl. by eapply catalogue_insert_same.
  - rewrite (ok_global q Hq). lia.
  - lia.
  - intros o. rewrite default_alter_pred, (ok_host q Hq). specialize (Ho o). lia.
  - intros o. specialize (Ho o). specialize (H0 o). lia.
Qed.

(** The queue after [start_lease], and the lease. *)
Definition leased (worker_id : str) (now_milliseconds : N) (work_id : str) (stored : StoredWork)
    (q : WorkQueue) : WorkQueue :=
  {| wq_limits := wq_limits q;
     wq_items := <[work_id := with_state Running
       (Some (("work-lease-" : str) ++ decimal020 (wq_next_lease_id q))) stored]> (wq_items q);
     wq_order := wq_order q; wq_dedup := wq_dedup q;
     wq_host_in_flight := <[stored_origin stored :=
       default 0 (wq_host_in_flight q !! stored_origin stored) + 1]> (wq_host_in_flight q);
     wq_last_host_start := <[stored_origin stored := now_milliseconds]> (wq_last_host_start q);
     wq_global_in_flight := wq_global_in_flight q + 1;
     wq_next_lease_id := saturating_add (wq_next_lease_id q) 1;
     wq_cancelled := wq_cancelled q; wq_emergency_stopped := wq_emergency_stopped q |}.

Definition lease_of (worker_id : str) (now_milliseconds : N) (work_id : str) (stored : StoredWork)
    (q : WorkQueue) : WorkLease :=
  {| wl_lease_id := ("work-lease-" : str) ++ decimal020 (wq_next_lease_id q); wl_work_id := work_id;
     wl_worker_id := worker_id; wl_origin := stored_origin stored;
     wl_claimed_at_milliseconds := now_milliseconds;
     wl_deadline_milliseconds := wi_deadline_milliseconds (sw_item stored);
     wl_plan_fingerprint := fingerprint (wi_plan (sw_item stored)) |}.

Lemma start_lease_spec worker now id stored q :
  queue_ok q -> wq_items q !! id = Some stored ->
  start_lease worker now id q
  = Done (Ok (Some (lease_of worker now id stored q)), leased worker now id stored q).
Proof.
  intros Hq Hk. unfold start_lease, u16_increment. rewrite Hk.
  fold (stored_origin stored).
  pose proof (ok_host_max q Hq (stored_origin stored)). pose proof (ok_global_max q Hq).
  pose proof (limits_bounds _ (ok_limits q Hq)) as (_ & Hg & Hh).
  unfold MAX_GLOBAL_CONCURRENCY, MAX_HOST_CONCURRENCY, u16_max in *.
  rewrite (proj2 (N.leb_gt _ _)) by (rewrite (ok_host q Hq); lia).
  unfold leased, u16_saturating_add, u16_max. rewrite N.min_l by (rewrite (ok_global q Hq); lia). done.
Qed.

Lemma leased_ok worker now id stored q :
  queue_ok q -> wq_items q !! id = Some stored -> sw_state stored = Queued ->
  running_total q < sl_maximum_global_concurrency (wq_limits q) ->
  running_on (stored_origin stored) q < sl_maximum_host_concurrency (wq_limits q) ->
  queue_ok (leased worker now id stored q).
Proof.
  intros Hq Hk Hs Hg Hh. set (q' := leased worker now id stored q).
  destruct (running_update q q' _ _ (with_state Running
    (Some (("work-lease-" : str) ++ decimal020 (wq_next_lease_id q))) stored) Hk eq_refl eq_refl) as [Ht Ho].
  assert (is_running stored = false) as Hr by (unfold is_running; by rewrite Hs).
  assert (forall o, running_on o q' = running_on o q + b2n (bool_decide (stored_origin stored = o))) as Hon.
  { intros o. specialize (Ho o). unfold runs_on at 1 in Ho. rewrite Hr in Ho. rewrite N.add_0_r in Ho. exact Ho. }
  rewrite Hr in Ht. simpl in Ht. clear Ho.
  apply (queue_ok_same q); [done| | | | |]; simpl.
  - repeat split. unfold catalogue. simpl. by eapply catalogue_insert_same.
  - rewrite (ok_global q Hq). lia.
  - lia.
  - intros o. rewrite default_insert, !(ok_host q Hq), Hon. case_bool_decide; subst; simpl; lia.
  - intros o. rewrite Hon. pose proof (ok_host_max q Hq o). case_bool_decide; subst; simpl; lia.
Qed.

(** ** Claiming *)

Lemma find_first {A} (p : A -> bool) l x :
  List.find p l = Some x <-> p x = true /\ exists l1 l2, l = l1 ++ x :: l2 /\ Forall (fun y => p y = false) l1.
Proof.
  induction l as [|y l IH]; simpl; [split; [done|]; intros (_ & l1 & l2 & E & _); by destruct l1|].
  destruct (p y) eqn:E.
  - split; [intros [= <-]; split; [done|]; by exists [], l|].
    intros (Hx & l1 & l2 & El & Hf). destruct l1 as [|z l1]; simplify_eq/=; [done|].
    apply Forall_cons in Hf as [Hz _]. congruence.
  - rewrite IH. split; intros (Hx & l1 & l2 & El & Hf); (split; [done|]).
    + exists (y :: l1), l2. subst. by rewrite Forall_cons.
    + destruct l1 as [|z l1]; simplify_eq/=; [congruence|]. apply Forall_cons in Hf as [_ Hf]. eauto.
Qed.

Lemma eligible_spec q now id :
  eligible q now id = true <->
  exists stored, wq_items q !! id = Some stored /\ sw_state stored = Queued
    /\ now < wi_deadline_milliseconds (sw_item stored)
    /\ default 0 (wq_host_in_flight q !! stored_origin stored) < sl_maximum_host_concurrency (wq_limits q)
    /\ forall last, wq_last_host_start q !! stored_origin stored = Some last ->
         sl_minimum_host_interval_milliseconds (wq_limits q) <= now - last.
Proof.
  unfold eligible. destruct (wq_items q !! id) as [stored|]; [|naive_solver].
  fold (stored_origin stored). rewrite !andb_true_iff, bool_decide_eq_true, !N.ltb_lt.
  split.
  - intros (((Hs & Hd) & Hh) & Hl). exists stored. repeat split; auto.
    intros last E. rewrite E in Hl. by apply N.leb_le.
  - intros (st & [= <-] & Hs & Hd & Hh & Hl). repeat split; auto.
    destruct (wq_last_host_start q !! stored_origin stored) as [last|]; [|done]. apply N.leb_le. auto.
Qed.

(** What a claim does: nothing, expire overdue work, or also start the first
    eligible work of the order. *)
Lemma claim_spec worker now q :
  queue_ok q -> exists r q', claim worker now q = Done (r, q')
    /\ match r with
       | Err e => q' = q /\ planner_validate_identifier worker "worker_id" = Err e
       | Ok None =>
           q' = q /\ (wq_cancelled q = true \/ wq_emergency_stopped q = true
                      \/ running_total q = sl_maximum_global_concurrency (wq_limits q))
           \/ q' = expire_queued now q /\ forall id, id ∈ wq_order q -> eligible q now id = false
       | Ok (Some lease) =>
           exists id stored,
             List.find (eligible q now) (wq_order q) = Some id
             /\ wq_cancelled q = false /\ wq_emergency_stopped q = false
             /\ wq_items q !! id = Some stored /\ wq_items (expire_queued now q) !! id = Some stored
             /\ running_total q < sl_maximum_global_concurrency (wq_limits q)
             /\ lease = lease_of worker now id stored q
             /\ q' = leased worker now id stored (expire_queued now q)
       end.
Proof.
  intros Hq. unfold claim. destruct (planner_validate_identifier worker _) as [u|e] eqn:Hw; [|by eexists _, _].
  destruct (wq_cancelled q || wq_emergency_stopped q) eqn:Hc.
  { apply orb_true_iff in Hc. eexists _, _. split; [done|]. simpl. left. tauto. }
  apply orb_false_iff in Hc as [Hc1 Hc2]. rewrite (ok_global q Hq).
  destruct (N.leb_spec (sl_maximum_global_concurrency (wq_limits q)) (running_total q)) as [Hg|Hg].
  { eexists _, _. split; [done|]. simpl. left. pose proof (ok_global_max q Hq).
    split; [done|]. right. right. lia. }
  destruct (List.find _ _) as [id|] eqn:Hf.
  - pose proof Hf as (He & _)%find_first. apply eligible_spec in He as (stored & Hk & Hs & Hd & _).
    assert (wq_items (expire_queued now q) !! id = Some stored) as Hk'.
    { simpl. rewrite lookup_fmap, Hk. simpl. unfold expire_work. rewrite (proj2 (N.leb_gt _ _)) by done.
      by rewrite andb_false_r. }
    rewrite (start_lease_spec worker now id stored) by auto using expire_queued_ok.
    eexists _, _. split; [done|]. by exists id, stored.
  - eexists _, _. split; [done|]. simpl. right. split; [done|]. by apply find_none_elem.
Qed.

Lemma running_expire now q :
  running_total (expire_queued now q) = running_total q
  /\ forall o, running_on o (expire_queued now q) = running_on o q.
Proof.
  unfold running_total, running_on. simpl.
  split; [|intros o]; apply count_fmap; intros v; [apply expire_running|].
  unfold runs_on, stored_origin. by rewrite expire_running, expire_item.
Qed.

Lemma claim_ok worker now q r q' : queue_ok q -> claim worker now q = Done (r, q') -> queue_ok q'.
Proof.
  intros Hq Hc. destruct (claim_spec worker now q Hq) as (r0 & q0 & E & Hr). rewrite Hc in E.
  injection E as <- <-. destruct r as [[lease|]|e]; [| |by destruct Hr as [-> _]].
  - destruct Hr as (id & stored & Hf & _ & _ & Hk & Hk' & Hg & _ & ->).
    apply find_first in Hf as [He _]. apply eligible_spec in He as (st & Hk0 & Hs & _ & Hh & _).
    simplify_eq. destruct (running_expire now q) as [Et Eo]. apply leased_ok; auto using expire_queued_ok.
    + by rewrite Et.
    + rewrite Eo. rewrite (ok_host q Hq) in Hh. done.
  - destruct Hr as [[-> _]|[-> _]]; auto using expire_queued_ok.
Qed.

(** ** Histories of calls *)

Inductive QueueCall : Type :=
  | CallEnqueue (item : WorkItem)
  | CallClaim (worker_id : str) (now_milliseconds : N)
  | CallComplete (lease : WorkLease) (terminal_state : WorkState)
  | CallCancel
  | CallEmergencyStop.

(** One call, with the lease it hands out. *)
Definition queue_call (call : QueueCall) (q : WorkQueue) : Run (option WorkLease * WorkQueue) :=
  match call with
  | CallEnqueue item => let! (_, q) := enqueue item q in Done (None, q)
  | CallClaim worker now =>
      let! (r, q) := claim worker now q in Done (match r with Ok lease => lease | Err _ => None end, q)
  | CallComplete lease terminal => Done (None, (complete lease terminal q).2)
  | CallCancel => Done (None, cancel q)
  | CallEmergencyStop => Done (None, emergency_stop q)
  end.

(** A history of calls, with the leases handed out in order. *)
Fixpoint queue_calls (calls : list QueueCall) (q : WorkQueue) : Run (list WorkLease * WorkQueue) :=
  match calls with
  | [] => Done ([], q)
  | call :: rest =>
      let! (lease, q) := queue_call call q in
      let! (leases, q) := queue_calls rest q in
      Done (match lease with Some lease => lease :: leases | None => leases end, q)
  end.

(** Two leases of one origin, the first handed out before the second. *)
Definition spaced (interval : N) (l1 l2 : WorkLease) : Prop :=
  wl_origin l1 = wl_origin l2 -> interval = 0
  \/ wl_claimed_at_milliseconds l1 + interval <= wl_claimed_at_milliseconds l2.

Definition numbered_lease_id (i : N) : str := ("work-lease-" : str) ++ decimal020 (N.min i u64_max).

(** What the leases handed out so far say about the queue. *)
Record leases_ok (q : WorkQueue) (leases : list WorkLease) : Prop := {
  lo_queue : queue_ok q;
  lo_started : forall l, l ∈ leases ->
    exists stored, wq_items q !! wl_work_id l = Some stored /\ sw_state stored <> Queued;
  lo_work : NoDup (wl_work_id <$> leases);
  lo_next : wq_next_lease_id q = N.min (len leases + 1) u64_max;
  lo_numbers : forall i l, leases !! i = Some l -> wl_lease_id l = numbered_lease_id (N.of_nat i + 1);
  lo_last : forall l, l ∈ leases -> exists last, wq_last_host_start q !! wl_origin l = Some last
    /\ (sl_minimum_host_interval_milliseconds (wq_limits q) = 0 \/ wl_claimed_at_milliseconds l <= last);
  lo_spaced : StronglySorted (spaced (sl_minimum_host_interval_milliseconds (wq_limits q))) leases;
  lo_deadlines : Forall (fun l => wl_claimed_at_milliseconds l < wl_deadline_milliseconds l) leases
}.

(** A call that hands out no lease and starts no work. *)
Lemma leases_ok_same q q' leases :
  leases_ok q leases -> queue_ok q' -> wq_next_lease_id q' = wq_next_lease_id q ->
  wq_last_host_start q' = wq_last_host_start q -> wq_limits q' = wq_limits q ->
  (forall k stored, wq_items q !! k = Some stored -> sw_state stored <> Queued ->
     exists stored', wq_items q' !! k = Some stored' /\ sw_state stored' <> Queued) ->
  leases_ok q' leases.
Proof.
  intros Hl Hq En Eh El Hs. constructor; rewrite ?En, ?Eh, ?El; try apply Hl; [done|].
  intros l (stored & Hk & Hn)%(lo_started _ _ Hl). eauto.
Qed.

Lemma fmap_not_queued (f : StoredWork -> StoredWork) (items : gmap str StoredWork) k stored :
  (forall v, sw_state v <> Queued -> sw_state (f v) <> Queued) ->
  items !! k = Some stored -> sw_state stored <> Queued ->
  exists stored', (f <$> items) !! k = Some stored' /\ sw_state stored' <> Queued.
Proof. intros Hf Hk Hs. exists (f stored). split; [by rewrite lookup_fmap, Hk|auto]. Qed.

Lemma expire_not_queued now v : sw_state v <> Queued -> sw_state (expire_work now v) <> Queued.
Proof. intros Hv. unfold expire_work. by destruct (_ && _). Qed.

Lemma enqueue_leases item q r q' leases :
  leases_ok q leases -> enqueue item q = Done (r, q') -> leases_ok q' leases.
Proof.
  intros Hl He. pose proof (lo_queue _ _ Hl) as Hq. pose proof (enqueue_ok _ _ _ _ Hq He) as Hq'.
  destruct (enqueue_spec item q Hq) as (r0 & q0 & E & Hr). rewrite He in E. injection E as <- <-.
  destruct r as [u|e]; [|by subst]. destruct Hr as (order & -> & _ & Hnew & _ & _).
  apply (leases_ok_same q); try done. intros k stored Hk Hs. exists stored. split; [|done]. simpl.
  rewrite lookup_insert_ne; [done|]. intros <-. congruence.
Qed.

Lemma complete_leases lease terminal q r q' leases :
  leases_ok q leases -> complete lease terminal q = (r, q') -> leases_ok q' leases.
Proof.
  intros Hl Hc. pose proof (complete_ok _ _ _ _ _ (lo_queue _ _ Hl) Hc) as Hq'.
  apply complete_spec in Hc. destruct r as [u|e]; [|by subst].
  destruct Hc as (stored & Hk & Hs & _ & Hf & ->). apply (leases_ok_same q); try done.
  intros k v Hv Hn. simpl. destruct (decide (wl_work_id lease = k)) as [<-|Hne].
  - rewrite lookup_insert_eq. eexists. split; [done|]. by destruct terminal.
  - rewrite lookup_insert_ne by done. eauto.
Qed.

Lemma strongly_sorted_snoc {A} (R : A -> A -> Prop) l x :
  StronglySorted R l -> Forall (fun y => R y x) l -> StronglySorted R (l ++ [x]).
Proof.
  induction 1 as [|y l Hs IH Hy]; intros Hx; simpl; [repeat constructor|].
  apply Forall_cons in Hx as [? ?]. constructor; [auto|]. apply Forall_app. auto.
Qed.

Lemma claim_leases worker now q r q' leases :
  leases_ok q leases -> claim worker now q = Done (r, q') ->
  leases_ok q' (leases ++ match r with Ok (Some lease) => [lease] | _ => [] end).
Proof.
  intros Hl Hc. pose proof (lo_queue _ _ Hl) as Hq. pose proof (claim_ok _ _ _ _ _ Hq Hc) as Hq'.
  destruct (claim_spec worker now q Hq) as (r0 & q0 & E & Hr). rewrite Hc in E. injection E as <- <-.
  assert (forall k v, wq_items q !! k = Some v -> sw_state v <> Queued ->
    exists v', wq_items (expire_queued now q) !! k = Some v' /\ sw_state v' <> Queued) as Hexp
    by (intros k v Hk Hn; eapply fmap_not_queued; eauto using expire_not_queued).
  destruct r as [[lease|]|e]; rewrite ?app_nil_r; [| |by destruct Hr as [-> _]].
  2: { destruct Hr as [[-> _]|[-> _]]; [done|]. by apply (leases_ok_same q). }
  destruct Hr as (id & stored & Hf & _ & _ & Hk & Hk' & Hg & -> & ->).
  apply find_first in Hf as [He _]. apply eligible_spec in He as (st & Hk0 & Hs & Hd & _ & Hlast). rewrite Hk in Hk0. injection Hk0 as <-.
  assert (forall l, l ∈ leases -> wl_origin l = stored_origin stored ->
    sl_minimum_host_interval_milliseconds (wq_limits q) = 0
    \/ wl_claimed_at_milliseconds l + sl_minimum_host_interval_milliseconds (wq_limits q) <= now) as Hsp.
  { intros l Hin Ho. destruct (lo_last _ _ Hl l Hin) as (last & E & Hle). rewrite Ho in E.
    apply Hlast in E. lia. }
  constructor; simpl; auto.
  - intros l [Hin| ->%list_elem_of_singleton]%elem_of_app.
    + destruct (lo_started _ _ Hl l Hin) as (v & Hv & Hn). destruct (Hexp _ _ Hv Hn) as (v' & Hv' & Hn').
      destruct (decide (id = wl_work_id l)) as [->|Hne]; [congruence|].
      exists v'. by rewrite lookup_insert_ne.
    + simpl. rewrite lookup_insert_eq. eexists. by split.
  - rewrite fmap_app. apply NoDup_app. split; [apply Hl|]. split; [|apply NoDup_singleton].
    intros w (l & -> & Hin)%list_elem_of_fmap Hw. apply list_elem_of_singleton in Hw. simpl in Hw.
    destruct (lo_started _ _ Hl l Hin) as (v & Hv & Hn). rewrite Hw in Hv. congruence.
  - rewrite (lo_next _ _ Hl), len_app. unfold saturating_add, len, u64_max. simpl. lia.
  - intros i l Hi. apply lookup_app_Some in Hi as [Hi|[Hge Hi]]; [by apply Hl|].
    apply list_lookup_singleton_Some in Hi as [Hi <-]. simpl. unfold numbered_lease_id.
    rewrite (lo_next _ _ Hl). replace i with (length leases) by lia. reflexivity.
  - intros l [Hin| ->%list_elem_of_singleton]%elem_of_app; simpl.
    + destruct (decide (stored_origin stored = wl_origin l)) as [Eo|Hne].
      * rewrite Eo, lookup_insert_eq. eexists. split; [done|]. pose proof (Hsp l Hin (eq_sym Eo)). lia.
      * rewrite lookup_insert_ne by done. by apply Hl.
    + rewrite lookup_insert_eq. eexists. split; [done|]. lia.
  - apply strongly_sorted_snoc; [apply Hl|]. apply Forall_forall. intros l Hin. unfold spaced. simpl. auto.
  - apply Forall_app. split; [apply Hl|]. by repeat constructor.
Qed.

Lemma queue_call_ok call q leases :
  leases_ok q leases -> exists lease q', queue_call call q = Done (lease, q')
    /\ leases_ok q' (leases ++ match lease with Some l => [l] | None => [] end).
Proof.
  intros Hl. pose proof (lo_queue _ _ Hl) as Hq. destruct call as [item|worker now|lease terminal| |]; simpl.
  - destruct (enqueue_spec item q Hq) as (r & q' & E & _). rewrite E. eexists _, _. split; [done|].
    rewrite app_nil_r. by eapply enqueue_leases.
  - destruct (claim_spec worker now q Hq) as (r & q' & E & _). rewrite E. eexists _, _. split; [done|].
    pose proof (claim_leases _ _ _ _ _ _ Hl E) as Hc. by destruct r as [[]|].
  - destruct (complete lease terminal q) as [r q'] eqn:E. eexists _, _. split; [done|].
    rewrite app_nil_r. by eapply complete_leases.
  - eexists _, _. split; [done|]. rewrite app_nil_r. apply (leases_ok_same q); auto using cancel_ok.
    intros k v Hk Hn. eapply fmap_not_queued; eauto. intros w Hw. unfold cancel_work.
    by rewrite bool_decide_eq_false_2.
  - eexists _, _. split; [done|]. rewrite app_nil_r. apply (leases_ok_same q); auto using emergency_stop_ok.
    intros k v Hk Hn. eapply fmap_not_queued; eauto. intros w Hw. unfold stop_work. by destruct (_ || _).
Qed.

Lemma queue_calls_ok calls : forall q leases0, leases_ok q leases0 ->
  exists leases q', queue_calls calls q = Done (leases, q') /\ leases_ok q' (leases0 ++ leases).
Proof.
  induction calls as [|call calls IH]; intros q leases0 Hl; simpl.
  { eexists _, _. split; [done|]. by rewrite app_nil_r. }
  destruct (queue_call_ok call q leases0 Hl) as (lease & q1 & -> & Hl1).
  destruct (IH q1 _ Hl1) as (leases & q' & -> & Hl'). eexists _, _. split; [done|].
  rewrite <- app_assoc in Hl'. by destruct lease.
Qed.

Lemma queue_new_leases limits q : queue_new limits = Ok q -> leases_ok q [].
Proof.
  intros Hn. pose proof (queue_new_ok _ _ Hn) as Hq. unfold queue_new in Hn. inv_ok Hn.
  constructor; simpl; auto; try set_solver; constructor.
Qed.

(** No call changes the limits. *)
Lemma enqueue_limits item q r q' : enqueue item q = Done (r, q') -> wq_limits q' = wq_limits q.
Proof.
  unfold enqueue, reorder. intros He. repeat step_in He; simplify_eq; try done. 
Qed.

Lemma claim_limits worker now q r q' : claim worker now q = Done (r, q') -> wq_limits q' = wq_limits q.
Proof. unfold claim, start_lease. intros Hc. repeat step_in Hc; by simplify_eq. Qed.

Lemma complete_limits lease terminal q : wq_limits (complete lease terminal q).2 = wq_limits q.
Proof. unfold complete. repeat step_goal; done. Qed.

Lemma queue_calls_limits calls : forall q leases q',
  queue_calls calls q = Done (leases, q') -> wq_limits q' = wq_limits q.
Proof.
  induction calls as [|call calls IH]; intros q leases q' Hc; simpl in Hc; [by simplify_eq|].
  destruct (queue_call call q) as [[lease q1]|] eqn:E; [|done].
  destruct (queue_calls calls q1) as [[ls q2]|] eqn:E2; [|done]. injection Hc as _ <-.
  rewrite (IH _ _ _ E2). destruct call as [item|worker now|l terminal| |]; simpl in E.
  - destruct (enqueue item q) as [[]|] eqn:Ee; simplify_eq. by eapply enqueue_limits.
  - destruct (claim worker now q) as [[]|] eqn:Ee; simplify_eq. by eapply claim_limits.
  - injection E as _ <-. apply complete_limits.
  - by simplify_eq.
  - by simplify_eq.
Qed.

Lemma strongly_sorted_lookup {A} (R : A -> A -> Prop) l i j x y :
  StronglySorted R l -> l !! i = Some x -> l !! j = Some y -> (i < j)%nat -> R x y.
Proof.
  intros Hs. revert i j. induction Hs as [|z l Hs IH Hz]; intros [|i] [|j] Hi Hj Hij; simpl in *; try done; try lia.
  - simplify_eq. apply (proj1 (Forall_forall _ _) Hz). by eapply list_elem_of_lookup_2.
  - eapply IH; eauto. lia.
Qed.

Lemma strongly_sorted_app_r {A} (R : A -> A -> Prop) l1 l2 :
  StronglySorted R (l1 ++ l2) -> StronglySorted R l2.
Proof. induction l1 as [|x l1 IH]; simpl; [done|]. intros Hs. apply IH. by inversion Hs. Qed.

(** ** Capabilities *)

(** A history of uses and revocations ([None]) with the uses that were authorised. *)
Fixpoint capability_calls (calls : list (option CapabilityUseRequest)) (c : ProbeCapability)
    : list (CapabilityUseRequest * CapabilityUseReceipt) * ProbeCapability :=
  match calls with
  | [] => ([], c)
  | None :: rest => capability_calls rest (capability_revoke c)
  | Some request :: rest =>
      let '(r, c) := capability_authorize request c in
      let '(uses, c) := capability_calls rest c in
      (match r with Ok receipt => (request, receipt) :: uses | Err _ => uses end, c)
  end.

(** What a capability lets a request do, whatever was used before. *)
Definition use_allowed (c : ProbeCapability) (request : CapabilityUseRequest) : Prop :=
  cu_run_id request = pc_run_id c /\ cu_worker_id request = pc_worker_id c
  /\ cu_method request ∈ pc_allowed_methods c
  /\ cu_endpoint_sha256 request ∈ pc_allowed_endpoint_hashes c
  /\ access_rank (cu_requires_secret_access request) <= access_rank (pc_secret_access c)
  /\ (cu_replays_body request = true -> pc_body_replay_allowed c = true)
  /\ (cu_follows_redirect request = true -> pc_redirect_allowed c = true)
  /\ cu_now_milliseconds request < pc_expires_at_milliseconds c.

Definition mutations_of (uses : list (CapabilityUseRequest * CapabilityUseReceipt)) : N :=
  foldr (fun use total => cu_mutations use.1 + total) 0 uses.

Definition small_capability (c : ProbeCapability) : Prop :=
  pc_maximum_requests c <= MAX_CAPABILITY_REQUESTS /\ pc_maximum_mutations c <= MAX_CAPABILITY_MUTATIONS.

Lemma authorize_spec request c r c' :
  small_capability c -> pc_requests_used c <= pc_maximum_requests c ->
  capability_authorize request c = (r, c') ->
  match r with
  | Err _ => c' = c
  | Ok receipt =>
      pc_revoked c = false /\ use_allowed c request
      /\ c' = with_use (pc_requests_used c + 1) (pc_mutations_used c + cu_mutations request) false c
      /\ pc_requests_used c < pc_maximum_requests c
      /\ pc_mutations_used c + cu_mutations request <= pc_maximum_mutations c
      /\ ur_request_number receipt = pc_requests_used c + 1
      /\ ur_remaining_requests receipt = pc_maximum_requests c - (pc_requests_used c + 1)
      /\ ur_remaining_mutations receipt
         = pc_maximum_mutations c - (pc_mutations_used c + cu_mutations request)
  end.
Proof.
  intros [Hs1 Hs2] Hu. unfold capability_authorize.
  destruct (capability_checks c request) as [[]|e] eqn:Hc; intros [= <- <-]; [|done].
  unfold capability_checks in Hc. inv_ok Hc. bools.
  unfold MAX_CAPABILITY_REQUESTS, MAX_CAPABILITY_MUTATIONS in *.
  assert (saturating_add (pc_mutations_used c) (cu_mutations request)
    = pc_mutations_used c + cu_mutations request) as Em
    by (eapply saturating_add_exact; [done|unfold u64_max; lia]).
  assert (saturating_add (pc_requests_used c) 1 = pc_requests_used c + 1) as Er
    by (eapply (saturating_add_small _ _ 100000); unfold u64_max; lia).
  simpl. rewrite Em, Er in *.
  repeat match goal with H : pc_revoked c = false |- _ => rewrite H; clear H end.
  repeat match goal with H : ¬ (_ <> _) |- _ => apply dec_stable in H end.
  split; [done|]. split; [|repeat split; try done; lia].
  repeat split; try done.
  - intros E. by destruct (pc_body_replay_allowed c), (cu_replays_body request).
  - intros E. by destruct (pc_redirect_allowed c), (cu_follows_redirect request).
Qed.

Lemma revoked_calls calls : forall c, pc_revoked c = true ->
  (capability_calls calls c).1 = [] /\ pc_revoked (capability_calls calls c).2 = true.
Proof.
  induction calls as [|[request|] calls IH]; intros c Hr; simpl; [done| |by apply IH].
  assert (capability_authorize request c = (Err CapabilityInactive, c)) as ->
    by (unfold capability_authorize, capability_checks; by rewrite Hr).
  specialize (IH c Hr). by destruct (capability_calls calls c).
Qed.

Lemma capability_calls_spec calls : forall c uses c',
  small_capability c -> pc_requests_used c <= pc_maximum_requests c ->
  pc_mutations_used c <= pc_maximum_mutations c -> capability_calls calls c = (uses, c') ->
  Forall (fun use => use_allowed c use.1) uses
  /\ pc_requests_used c + len uses <= pc_maximum_requests c
  /\ pc_mutations_used c + mutations_of uses <= pc_maximum_mutations c
  /\ forall i use, uses !! i = Some use -> ur_request_number use.2 = pc_requests_used c + N.of_nat i + 1.
Proof.
  induction calls as [|[request|] calls IH]; intros c uses c' Hs Hu Hm; simpl.
  - intros [= <- <-]. rewrite len_nil. repeat split; [constructor|simpl; lia..|done].
  - destruct (capability_authorize request c) as [r c1] eqn:Ha.
    apply (authorize_spec _ _ _ _ Hs Hu) in Ha.
    destruct (capability_calls calls c1) as [uses1 c2] eqn:Hc. intros [= <- <-].
    destruct r as [receipt|e]; [|subst; by apply (IH c uses1 c2)].
    destruct Ha as (Hr & Hal & -> & Hlt & Hle & Hn & _).
    apply (IH _ uses1 c2) in Hc as (Hf & Hc1 & Hc2 & Hc3); simpl in *; [|done|lia|lia].
    rewrite len_cons. repeat split; [by constructor|lia..|].
    intros [|i] use Hi; simpl in *; [simplify_eq; simpl; lia|]. rewrite (Hc3 _ _ Hi). lia.
  - intros Hc. by apply (IH _ uses c') in Hc.
Qed.

(** ** Runs *)

(** A history of [transition] calls: target, worker and token of each, with the
    states that were entered. *)
Fixpoint run_calls (calls : list (RunState * option str * option str)) (m : RunMachine)
    : list RunState * RunMachine :=
  match calls with
  | [] => ([], m)
  | (target, worker, token) :: rest =>
      let '(r, m) := run_transition target worker token m in
      let '(entered, m) := run_calls rest m in
      (match r with Ok _ => target :: entered | Err _ => entered end, m)
  end.

(** [states] is a path of the life cycle from [from]: no step leaves a terminal
    state. *)
Fixpoint run_path (from : RunState) (states : list RunState) : Prop :=
  match states with
  | [] => True
  | to :: rest => run_is_terminal from = false /\ run_edge from to = true /\ run_path to rest
  end.

(** Who owns a run, and whether a resume token is kept. *)
Definition ownership_ok (s : RunSnapshot) : Prop :=
  match rs_state s with
  | RunRunning =>
      (exists worker, rs_owner_worker_id s = Some worker
         /\ planner_validate_identifier worker "worker_id" = Ok tt)
      /\ rs_resume_token_sha256 s = None
  | RunPaused =>
      rs_owner_worker_id s = None
      /\ exists token, rs_resume_token_sha256 s = Some (planner_hash_bytes token)
  | _ => True
  end.

Record run_ok (m : RunMachine) : Prop := {
  ro_chain : chain_ok (H0 := audit_json) (rm_audit m);
  ro_tail : rs_audit_tail (rm_snapshot m) = tail_hash (rm_audit m);
  ro_generation : rs_generation (rm_snapshot m) = N.min (len (records (rm_audit m))) u64_max;
  ro_owner : ownership_ok (rm_snapshot m)
}.

Lemma planner_append_spec event chain :
  exists record chain',
    planner_audit_append event chain = (Ok record, chain')
    /\ chain_append (H0 := audit_json) event chain = (Ok record, chain').
Proof.
  unfold planner_audit_append. unfold chain_append, hash_material. simpl. eexists _, _. by split.
Qed.

Lemma transition_owner_ok s target worker token owner token' :
  transition_owner s target worker token = Ok (owner, token') -> forall s',
  rs_state s' = target -> rs_owner_worker_id s' = owner -> rs_resume_token_sha256 s' = token' ->
  ownership_ok s'.
Proof.
  unfold transition_owner, ownership_ok. intros Ht s' -> Eo Et.
  destruct (decide (target = RunRunning)) as [->|Hr].
  - rewrite bool_decide_eq_true_2 in Ht by done. destruct worker as [w|]; [|done].
    destruct (planner_validate_identifier w "worker_id") as [[]|] eqn:E; [|done]. inv_ok Ht; eauto.
  - rewrite bool_decide_eq_false_2 in Ht by done. destruct (decide (target = RunPaused)) as [->|Hp].
    + rewrite bool_decide_eq_true_2 in Ht by done. destruct token as [t|]; [|done]. simplify_eq. eauto.
    + by destruct target.
Qed.

Lemma run_new_ok run_id policy m :
  run_new run_id policy = Ok m ->
  run_ok m /\ rs_state (rm_snapshot m) = RunCreated /\ rs_run_id (rm_snapshot m) = run_id
  /\ rs_policy_snapshot_sha256 (rm_snapshot m) = policy
  /\ genesis_hash (rm_audit m) = GENESIS_HASH
  /\ (fun r => pa_outcome (event r)) <$> records (rm_audit m) = [run_state_name RunCreated].
Proof.
  unfold run_new. intros Hn. destruct (planner_validate_identifier run_id _) as [u|]; [|done].
  destruct (planner_validate_sha256 policy _) as [u'|]; [|done].
  match type of Hn with context [planner_audit_append ?e ?c] =>
    destruct (planner_append_spec e c) as (record & chain & E & Ec) end.
  rewrite E in Hn. injection Hn as <-.
  pose proof (chain_append_ok _ _ _ _ (chain_new_ok _) Ec) as Hok.
  apply chain_append_spec in Ec as (Hr & He & _ & _ & _ & _ & Hg).
  split; [constructor; simpl; rewrite ?Hr; done|]. repeat split; simpl; try done. rewrite Hr. simpl. by rewrite He.
Qed.

Lemma run_transition_spec target worker token m r m' :
  run_transition target worker token m = (r, m') ->
  match r with
  | Err _ => m' = m
  | Ok snapshot =>
      snapshot = rm_snapshot m'
      /\ run_is_terminal (rs_state (rm_snapshot m)) = false
      /\ run_edge (rs_state (rm_snapshot m)) target = true
      /\ transition_owner (rm_snapshot m) target worker token
         = Ok (rs_owner_worker_id snapshot, rs_resume_token_sha256 snapshot)
      /\ rs_state snapshot = target
      /\ rs_run_id snapshot = rs_run_id (rm_snapshot m)
      /\ rs_policy_snapshot_sha256 snapshot = rs_policy_snapshot_sha256 (rm_snapshot m)
      /\ rs_generation snapshot = saturating_add (rs_generation (rm_snapshot m)) 1
      /\ rs_audit_tail snapshot = tail_hash (rm_audit m')
      /\ exists record,
           chain_append (H0 := audit_json)
             {| pa_action := "run_transition"; pa_subject_id := rs_run_id (rm_snapshot m);
                pa_outcome := run_state_name target;
                pa_metadata := {[ ("generation" : str) := decimal (rs_generation snapshot) ]} |}
             (rm_audit m) = (Ok record, rm_audit m')
  end.
Proof.
  unfold run_transition. intros Ht.
  destruct (run_is_terminal _ || _) eqn:Hg; [by simplify_eq|]. bools.
  destruct (transition_owner _ _ _ _) as [[owner token']|e] eqn:Ho; [|by simplify_eq].
  match type of Ht with context [planner_audit_append ?e ?c] =>
    destruct (planner_append_spec e c) as (record & chain & E & Ec) end.
  rewrite E in Ht. injection Ht as <- <-. repeat split; simpl; eauto.
Qed.

(** When a transition is accepted. *)
Lemma run_transition_accepts target worker token m :
  is_ok (run_transition target worker token m).1
  = negb (run_is_terminal (rs_state (rm_snapshot m))) && run_edge (rs_state (rm_snapshot m)) target
    && is_ok (transition_owner (rm_snapshot m) target worker token).
Proof.
  unfold run_transition. destruct (run_is_terminal _), (run_edge _ _); try done. cbn [orb negb andb].
  destruct (transition_owner _ _ _ _) as [[owner token']|e]; [|done].
  match goal with |- context [planner_audit_append ?e ?c] =>
    destruct (planner_append_spec e c) as (record & chain & -> & _) end. done.
Qed.

Lemma run_transition_ok target worker token m r m' :
  run_ok m -> run_transition target worker token m = (r, m') -> run_ok m'.
Proof.
  intros Hm Ht. apply run_transition_spec in Ht. destruct r as [s|e]; [|by subst].
  destruct Ht as (-> & _ & _ & Ho & Hs & _ & _ & Hg & Ht & record & Ea).
  pose proof (chain_append_ok _ _ _ _ (ro_chain m Hm) Ea) as Hok.
  apply chain_append_spec in Ea as (Hr & _). constructor; [done|done| |].
  - rewrite Hg, (ro_generation m Hm), Hr, len_app, len_cons, len_nil. unfold saturating_add.
    generalize u64_max (len (records (rm_audit m))). intros. lia.
  - by eapply transition_owner_ok.
Qed.

Lemma run_calls_spec calls : forall m entered m',
  run_ok m -> run_calls calls m = (entered, m') ->
  run_ok m' /\ run_path (rs_state (rm_snapshot m)) entered
  /\ rs_state (rm_snapshot m') = default (rs_state (rm_snapshot m)) (last entered)
  /\ rs_run_id (rm_snapshot m') = rs_run_id (rm_snapshot m)
  /\ rs_policy_snapshot_sha256 (rm_snapshot m') = rs_policy_snapshot_sha256 (rm_snapshot m)
  /\ genesis_hash (rm_audit m') = genesis_hash (rm_audit m)
  /\ (fun r => pa_outcome (event r)) <$> records (rm_audit m')
     = ((fun r => pa_outcome (event r)) <$> records (rm_audit m)) ++ (run_state_name <$> entered).
Proof.
  induction calls as [|[[target worker] token] calls IH]; intros m entered m' Hm; simpl.
  { intros [= <- <-]. split_and!; try done. by rewrite app_nil_r. }
  destruct (run_transition target worker token m) as [r m1] eqn:Ht.
  destruct (run_calls calls m1) as [entered1 m2] eqn:Hc. intros [= <- <-].
  pose proof (run_transition_ok _ _ _ _ _ _ Hm Ht) as Hm1. apply run_transition_spec in Ht.
  destruct (IH _ _ _ Hm1 Hc) as (Hm2 & Hp & Hst & Hid & Hpol & Hg & Hout).
  destruct r as [s|e]; [|by subst].
  destruct Ht as (-> & Hterm & Hedge & _ & Hs & Hid1 & Hpol1 & _ & _ & record & Ea).
  apply chain_append_spec in Ea as (Hr & He & _ & _ & _ & _ & Hg1). rewrite Hs in Hp, Hst.
  split; [done|]. split; [done|]. split; [rewrite Hst, last_cons; by destruct (last entered1)|].
  split; [congruence|]. split; [congruence|]. split; [congruence|].
  rewrite Hout, Hr, fmap_app, <- app_assoc. simpl. by rewrite He.
Qed.

End Facts.

(** ** Plans *)

(** What every plan of the program satisfies. *)
Record plan_wf (p : RequestIntentPlan) : Prop := {
  wf_endpoint : planner_validate_identifier (rp_endpoint_id p) "endpoint_id" = Ok tt;
  wf_method : rp_method p ∈ PLANNER_METHODS;
  wf_body_kind : planner_validate_identifier (rp_body_kind p) "body_kind" = Ok tt;
  wf_hashes : is_lower_hex_sha256 (rp_canonical_url_sha256 p)
    && is_lower_hex_sha256 (rp_provenance_sha256 p)
    && is_lower_hex_sha256 (rp_policy_snapshot_sha256 p) = true;
  wf_parameters : N.of_nat (size (rp_parameter_names p)) <= 1024
    /\ forall name, name ∈ rp_parameter_names p -> parameter_name_invalid name = false;
  wf_budgets : rp_estimated_request_bytes p <= 67108864 /\ rp_estimated_response_bytes p <= 134217728
    /\ rp_redirect_budget p <= 16 /\ rp_retry_budget p <= MAX_RETRY_COUNT;
  wf_forbidden : rp_risk_class p = Forbidden -> rp_active_execution_allowed p = false
}.

Lemma planner_validate_sha256_ok value name :
  planner_validate_sha256 value name = Ok tt -> is_lower_hex_sha256 value = true.
Proof. unfold planner_validate_sha256. by destruct (is_lower_hex_sha256 value). Qed.

Lemma planner_validate_method_ok method :
  planner_validate_method method = Ok tt -> method ∈ PLANNER_METHODS.
Proof. unfold planner_validate_method. case_bool_decide; by simpl. Qed.

Lemma planner_validate_error (value name : str) e :
  planner_validate_identifier value name = Err e -> e = PlInvalidIdentifier name.
Proof. unfold planner_validate_identifier. by destruct (_ || _); intros [= <-]. Qed.

Lemma normalized_origin_total {U : UrlLib} {L : UrlLaws U} (url : Url) :
  url_host_str url <> None ->
  bool_decide (url_scheme url = ("http" : str)) || bool_decide (url_scheme url = ("https" : str)) = true ->
  exists origin, normalized_origin url = Ok origin.
Proof.
  intros Hh Hs. unfold normalized_origin. destruct (url_host_str url) as [host|]; [|done].
  destruct (url_known_port url) as [p ->]; [|eauto].
  apply orb_true_iff in Hs as [Hs|Hs]; bools; auto.
Qed.

(** Concrete serializers and plans for the examples. *)
Definition toy_plan_json : JsonLib PlanMaterial :=
  {| to_vec m := let '(url, method, _, body, _, _, policy) := m in Ok (url ++ method ++ body ++ policy) |}.
Definition toy_dedup_json : JsonLib DedupMaterial :=
  {| to_vec m := let '(print, session, _, _) := m in Ok (print ++ default [] session) |}.
Definition toy_planner_json : JsonLib (HashMaterial PlannerAuditEvent) :=
  toy_json (fun e => pa_action e ++ pa_outcome e).
Definition toy_fragment : @UrlFragmentLib plain_url := @Build_UrlFragmentLib plain_url plain_fragment.

Definition hash_of (c : byte) : str := replicate 64 c.

Definition sample_plan_result (host path : str) (risk : RiskClass) (active : bool)
    : Result RequestIntentPlan PlannerError :=
  @plan_new toy_sha256 plain_url toy_fragment "endpoint-1" (plain_https host path) "get" {[ ("id" : str) ]}
    "empty" false risk (hash_of "a") (hash_of "b") 128 1024 4 1 active.

Definition sample_plan (host path : str) : RequestIntentPlan :=
  {| rp_endpoint_id := "endpoint-1"; rp_canonical_url := plain_to_string (plain_https host path);
     rp_canonical_url_sha256 := @planner_hash_bytes toy_sha256 (plain_to_string (plain_https host path));
     rp_origin := ("https://" : str) ++ host ++ (":443" : str); rp_method := "GET";
     rp_parameter_names := {[ ("id" : str) ]}; rp_body_kind := "empty"; rp_session_required := false;
     rp_risk_class := SafeActive; rp_provenance_sha256 := hash_of "a";
     rp_policy_snapshot_sha256 := hash_of "b"; rp_estimated_request_bytes := 128;
     rp_estimated_response_bytes := 1024; rp_redirect_budget := 4; rp_retry_budget := 1;
     rp_active_execution_allowed := true |}.

Example sample_plan_built :
  sample_plan_result "app.example.com" "/a" SafeActive true = Ok (sample_plan "app.example.com" "/a").
Proof. vm_compute. reflexivity. Qed.

Definition sample_work (id host path : str) (priority : WorkPriority) (enqueued deadline : N) : WorkItem :=
  {| wi_work_id := id; wi_plan := sample_plan host path; wi_priority := priority;
     wi_enqueued_at_milliseconds := enqueued; wi_deadline_milliseconds := deadline; wi_attempt := 0;
     wi_session_id := None; wi_account_id := None; wi_tenant_id := None |}.

Definition sample_limits : SchedulerLimits :=
  {| sl_maximum_queue_items := 3; sl_maximum_global_concurrency := 2; sl_maximum_host_concurrency := 1;
     sl_minimum_host_interval_milliseconds := 200 |}.

Definition sample_calls : list QueueCall :=
  [CallEnqueue (sample_work "low" "a.example" "/1" Low 0 5000);
   CallEnqueue (sample_work "high" "a.example" "/2" High 1 5000);
   CallEnqueue (sample_work "other" "b.example" "/3" Normal 2 5000);
   CallEnqueue (sample_work "full" "b.example" "/4" Normal 2 5000);
   CallClaim "worker-1" 10; CallClaim "worker-2" 20; CallClaim "worker-3" 30;
   CallComplete
     {| wl_lease_id := ("work-lease-" : str) ++ decimal020 1; wl_work_id := "high";
        wl_worker_id := "worker-1"; wl_origin := "https://a.example:443";
        wl_claimed_at_milliseconds := 10; wl_deadline_milliseconds := 5000;
        wl_plan_fingerprint := [] |} WCompleted;
   CallClaim "worker-1" 100; CallClaim "worker-1" 210].

Definition sample_run (limits : SchedulerLimits) (calls : list QueueCall)
    : option (list (str * N) * N * list str) :=
  match queue_new limits with
  | Ok q =>
      match @queue_calls toy_sha256 toy_plan_json toy_dedup_json calls q with
      | Done (leases, q) =>
          Some ((fun l => (wl_work_id l, wl_claimed_at_milliseconds l)) <$> leases, in_flight q, wq_order q)
      | Panic _ => None
      end
  | Err _ => None
  end.

(** The high-priority work starts first, the host limit sends the second worker
    to the other host, and the low-priority work waits for the host interval. *)
Example sample_schedule :
  sample_run sample_limits sample_calls
  = Some ([("high" : str, 10); ("other" : str, 20); ("low" : str, 210)], 2,
          ["high" : str; "other" : str; "low" : str]).
Proof. vm_compute. reflexivity. Qed.

(** A boolean check of the leases of the sample history. *)
Definition sample_check (check : list WorkLease -> bool) : bool :=
  match queue_new sample_limits with
  | Ok q =>
      match @queue_calls toy_sha256 toy_plan_json toy_dedup_json sample_calls q with
      | Done (leases, _) => check leases
      | Panic _ => false
      end
  | Err _ => false
  end.

(** ** Properties *)

(** C17: along every history of enqueue, claim, complete, cancel and
    emergency-stop calls on a new queue no call panics, the global counter is the
    number of running items and at most the global limit, every per-host counter
    is the number of items running on that host and at most the host limit, the
    queue holds at most its item limit, and its order is a permutation of the
    stored items sorted by priority, enqueue time and identifier. *)
Theorem scheduler_stays_within_limits {S : Sha256Lib} {JP : JsonLib PlanMaterial} {JD : JsonLib DedupMaterial}
    (limits : SchedulerLimits) (q : WorkQueue) (calls : list QueueCall) :
  queue_new limits = Ok q ->
  exists leases q', queue_calls calls q = Done (leases, q')
    /\ in_flight q' = running_total q' /\ running_total q' <= sl_maximum_global_concurrency limits
    /\ (forall origin, default 0 (wq_host_in_flight q' !! origin) = running_on origin q'
          /\ running_on origin q' <= sl_maximum_host_concurrency limits)
    /\ N.of_nat (size (wq_items q')) <= sl_maximum_queue_items limits
    /\ wq_order q' ≡ₚ elements (dom (wq_items q') : gset str)
    /\ StronglySorted (key_le (catalogue q')) (wq_order q').
Proof.
  intros Hn. assert (wq_limits q = limits) as El.
  { unfold queue_new in Hn. inv_ok Hn. simpl. by eapply validated_limits. }
  destruct (queue_calls_ok calls q [] (queue_new_leases _ _ Hn)) as (leases & q' & Hc & Hl).
  pose proof (queue_calls_limits calls q leases q' Hc) as El'. rewrite El in El'. rewrite <- El'.
  destruct Hl as [[]]. exists leases, q'. split_and!; auto.
  - unfold catalogue in ok_size0. by rewrite map_size_fmap in ok_size0.
  - unfold catalogue in ok_order0. by rewrite dom_fmap_L in ok_order0.
Qed.

Lemma scheduler_stays_within_limits_witness :
  match queue_new sample_limits with
  | Ok q => exists leases q',
      @queue_calls toy_sha256 toy_plan_json toy_dedup_json sample_calls q = Done (leases, q')
      /\ in_flight q' = running_total q' /\ running_total q' <= sl_maximum_global_concurrency sample_limits
      /\ (forall origin, default 0 (wq_host_in_flight q' !! origin) = running_on origin q'
            /\ running_on origin q' <= sl_maximum_host_concurrency sample_limits)
      /\ N.of_nat (size (wq_items q')) <= sl_maximum_queue_items sample_limits
      /\ wq_order q' ≡ₚ elements (dom (wq_items q') : gset str)
      /\ StronglySorted (key_le (catalogue q')) (wq_order q')
  | Err _ => False
  end.
Proof.
  destruct (queue_new sample_limits) as [q|] eqn:E; [|discriminate E].
  exact (@scheduler_stays_within_limits toy_sha256 toy_plan_json toy_dedup_json sample_limits q
    sample_calls E).
Defined.

(** In every history of calls on a new queue each piece of work is leased at
    most once, before its deadline, and never waits in the queue again; the
    lease identifiers are pairwise different as long as the 64-bit lease counter
    has not run out. *)
Theorem work_is_leased_at_most_once {S : Sha256Lib} {JP : JsonLib PlanMaterial} {JD : JsonLib DedupMaterial}
    (limits : SchedulerLimits) (q q' : WorkQueue) (calls : list QueueCall) (leases : list WorkLease) :
  queue_new limits = Ok q -> queue_calls calls q = Done (leases, q') ->
  NoDup (wl_work_id <$> leases)
  /\ (len leases <= u64_max -> NoDup (wl_lease_id <$> leases))
  /\ (forall l, l ∈ leases -> wl_claimed_at_milliseconds l < wl_deadline_milliseconds l
        /\ queue_state (wl_work_id l) q' <> Some Queued).
Proof.
  intros Hn Hc. destruct (queue_calls_ok calls q [] (queue_new_leases _ _ Hn)) as (ls & q1 & Hc1 & Hl).
  rewrite Hc in Hc1. injection Hc1 as <- <-. simpl in Hl. split_and!.
  - apply Hl.
  - intros Hlen. apply NoDup_alt. intros i j id Hi Hj.
    rewrite list_lookup_fmap in Hi, Hj. apply fmap_Some in Hi as (a & Ha & ->), Hj as (b & Hb & Hab).
    rewrite (lo_numbers _ _ Hl _ _ Ha), (lo_numbers _ _ Hl _ _ Hb) in Hab.
    apply lookup_lt_Some in Ha, Hb. unfold numbered_lease_id in Hab.
    apply app_inv_head, (inj decimal020) in Hab. unfold len in Hlen. lia.
  - intros l Hin. split; [by apply (proj1 (Forall_forall _ _) (lo_deadlines _ _ Hl))|].
    destruct (lo_started _ _ Hl l Hin) as (stored & Hk & Hs). unfold queue_state. rewrite Hk. simpl. congruence.
Qed.

Lemma work_is_leased_at_most_once_witness :
  match queue_new sample_limits with
  | Ok q =>
      match @queue_calls toy_sha256 toy_plan_json toy_dedup_json sample_calls q with
      | Done (leases, _) => length leases = 3%nat /\ NoDup (wl_work_id <$> leases)
      | Panic _ => False
      end
  | Err _ => False
  end.
Proof.
  assert (sample_check (fun leases => bool_decide (length leases = 3%nat)) = true) as Hb
    by (vm_compute; reflexivity).
  unfold sample_check in Hb. destruct (queue_new sample_limits) as [q|] eqn:E; [|discriminate Hb].
  destruct (@queue_calls toy_sha256 toy_plan_json toy_dedup_json sample_calls q) as [[leases q']|] eqn:Ec;
    [|discriminate Hb].
  split; [by apply bool_decide_eq_true in Hb|].
  exact (proj1 (@work_is_leased_at_most_once toy_sha256 toy_plan_json toy_dedup_json sample_limits
    q q' sample_calls leases E Ec)).
Defined.

(** Two starts on one host are apart by at least the configured interval:
    when the interval is not zero, a lease that follows another one of the same
    origin anywhere in the history was claimed at least that much later. *)
Theorem host_starts_are_spaced {S : Sha256Lib} {JP : JsonLib PlanMaterial} {JD : JsonLib DedupMaterial}
    (limits : SchedulerLimits) (q q' : WorkQueue) (calls : list QueueCall) (leases : list WorkLease)
    (i j : nat) (first second : WorkLease) :
  queue_new limits = Ok q -> queue_calls calls q = Done (leases, q') ->
  leases !! i = Some first -> leases !! j = Some second -> (i < j)%nat ->
  wl_origin first = wl_origin second -> sl_minimum_host_interval_milliseconds limits <> 0 ->
  wl_claimed_at_milliseconds first + sl_minimum_host_interval_milliseconds limits
  <= wl_claimed_at_milliseconds second.
Proof.
  intros Hn Hc Hi Hj Hij Ho Hz. assert (wq_limits q = limits) as El.
  { unfold queue_new in Hn. inv_ok Hn. simpl. by eapply validated_limits. }
  destruct (queue_calls_ok calls q [] (queue_new_leases _ _ Hn)) as (ls & q1 & Hc1 & Hl).
  rewrite Hc in Hc1. injection Hc1 as <- <-. pose proof (queue_calls_limits calls q leases q' Hc) as El'.
  pose proof (lo_spaced _ _ Hl) as Hs. rewrite El', El in Hs. simpl in Hs.
  destruct (strongly_sorted_lookup _ _ _ _ _ _ Hs Hi Hj Hij Ho) as [E|E]; [done|exact E].
Qed.

Lemma host_starts_are_spaced_witness :
  match queue_new sample_limits with
  | Ok q =>
      match @queue_calls toy_sha256 toy_plan_json toy_dedup_json sample_calls q with
      | Done (leases, _) =>
          match leases !! 0%nat, leases !! 2%nat with
          | Some a, Some b => wl_claimed_at_milliseconds a + 200 <= wl_claimed_at_milliseconds b
          | _, _ => False
          end
      | Panic _ => False
      end
  | Err _ => False
  end.
Proof.
  assert (sample_check (fun leases => match leases !! 0%nat, leases !! 2%nat with
    | Some a, Some b => bool_decide (wl_origin a = wl_origin b) | _, _ => false end) = true) as Hb
    by (vm_compute; reflexivity).
  unfold sample_check in Hb. destruct (queue_new sample_limits) as [q|] eqn:E; [|discriminate Hb].
  destruct (@queue_calls toy_sha256 toy_plan_json toy_dedup_json sample_calls q) as [[leases q']|] eqn:Ec;
    [|discriminate Hb].
  destruct (leases !! 0%nat) as [a|] eqn:Ea; [|discriminate Hb].
  destruct (leases !! 2%nat) as [b|] eqn:Eb; [|discriminate Hb]. apply bool_decide_eq_true in Hb.
  exact (@host_starts_are_spaced toy_sha256 toy_plan_json toy_dedup_json sample_limits q q' sample_calls
    leases 0 2 a b E Ec Ea Eb ltac:(lia) Hb ltac:(discriminate)).
Defined.

(** A claim by a valid worker on a queue that satisfies the scheduler's
    invariant never panics or fails. It leases the first startable item: one that
    is queued, before its deadline and within its host's limit and interval, and
    whose key is at most the key of every other such item; it declines only when
    the queue was cancelled or stopped, is at its global limit, or has no
    startable item. *)
Theorem claim_takes_least_eligible {S : Sha256Lib} {JP : JsonLib PlanMaterial}
    (worker : str) (now : N) (q : WorkQueue) :
  queue_ok q -> planner_validate_identifier worker "worker_id" = Ok tt ->
  exists lease q', claim worker now q = Done (Ok lease, q')
    /\ match lease with
       | Some lease =>
           eligible q now (wl_work_id lease) = true
           /\ queue_state (wl_work_id lease) q' = Some Running
           /\ forall id, eligible q now id = true -> id <> wl_work_id lease ->
                key_le (catalogue q) (wl_work_id lease) id
       | None =>
           wq_cancelled q = true \/ wq_emergency_stopped q = true
           \/ running_total q = sl_maximum_global_concurrency (wq_limits q)
           \/ forall id, eligible q now id = false
       end.
Proof.
  intros Hq Hw. destruct (claim_spec worker now q Hq) as (r & q' & E & Hr).
  destruct r as [lease|e].
  2: { destruct Hr as [_ Hr]. congruence. }
  exists lease, q'. split; [done|]. destruct lease as [lease|].
  - destruct Hr as (id & stored & Hf & _ & _ & Hk & Hk' & _ & -> & ->). simpl.
    apply find_first in Hf as (He & l1 & l2 & El & Hl1). split; [done|]. split.
    + unfold queue_state. simpl. by rewrite lookup_insert_eq.
    + intros id' He' Hne. assert (id' ∈ wq_order q) as Hin.
      { apply (order_elem q id' Hq). apply eligible_spec in He' as (? & ? & _). eauto. }
      rewrite El in Hin. apply elem_of_app in Hin as [Hin|[->|Hin]%elem_of_cons]; [|done|].
      * pose proof (proj1 (Forall_forall _ _) Hl1 _ Hin). simpl in *. congruence.
      * pose proof (ok_sorted q Hq) as Hs. rewrite El in Hs. eapply strongly_sorted_app_r in Hs.
        inversion Hs as [|? ? _ Hall]; subst. by apply (proj1 (Forall_forall _ _) Hall).
  - destruct Hr as [[_ Hr]|[_ Hr]]; [tauto|]. right. right. right. intros id.
    destruct (eligible q now id) eqn:He; [|done]. rewrite <- He. apply Hr. apply (order_elem q id Hq).
    apply eligible_spec in He as (? & ? & _). eauto.
Qed.

Lemma claim_takes_least_eligible_witness :
  match queue_new sample_limits with
  | Ok q =>
      match @queue_calls toy_sha256 toy_plan_json toy_dedup_json (take 4 sample_calls) q with
      | Done (_, q1) => exists lease q', @claim toy_sha256 toy_plan_json "worker-1" 10 q1 = Done (Ok lease, q')
      | Panic _ => False
      end
  | Err _ => False
  end.
Proof.
  destruct (queue_new sample_limits) as [q|] eqn:E; [|discriminate E].
  destruct (@queue_calls_ok toy_sha256 toy_plan_json toy_dedup_json (take 4 sample_calls) q []
    (queue_new_leases _ _ E)) as (leases & q1 & -> & Hl).
  destruct (@claim_takes_least_eligible toy_sha256 toy_plan_json "worker-1" 10 q1 (lo_queue _ _ Hl)
    ltac:(vm_compute; reflexivity)) as (lease & q' & Ec & _).
  exact (ex_intro _ lease (ex_intro _ q' Ec)).
Defined.

(** A capability bounds what a module does with it: in every history of uses
    and revocations at most [maximum_requests] uses are authorised, their mutations
    sum up to at most [maximum_mutations], the receipts number them from one, every
    authorised use keeps to the run, worker, methods, endpoints, secret access,
    replay and redirect permissions and lifetime of the capability, and no use is
    authorised after a revocation. *)
Theorem capability_bounds_uses (capability_id module_id run_id worker_id : str)
    (methods endpoints : gset str) (maximum_requests maximum_mutations : N) (secrets : SecretAccessLevel)
    (replay redirect : bool) (expires : N) (c : ProbeCapability)
    (calls : list (option CapabilityUseRequest)) :
  capability_new capability_id module_id run_id worker_id methods endpoints maximum_requests
    maximum_mutations secrets replay redirect expires = Ok c ->
  let uses := (capability_calls calls c).1 in
  len uses <= maximum_requests /\ mutations_of uses <= maximum_mutations
  /\ Forall (fun use => use_allowed c use.1) uses
  /\ (forall i use, uses !! i = Some use -> ur_request_number use.2 = N.of_nat i + 1)
  /\ (forall later, (capability_calls later (capability_revoke (capability_calls calls c).2)).1 = []).
Proof.
  intros Hn uses. unfold capability_new in Hn. inv_ok Hn. bools.
  match goal with uses := (capability_calls calls ?c0).1 |- _ => set (c := c0) in * end.
  subst uses. destruct (capability_calls calls c) as [uses c'] eqn:Hc.
  apply capability_calls_spec in Hc as (Hf & Hc1 & Hc2 & Hc3); [|by split|simpl; lia..].
  subst c. simpl in *. split_and!; [lia|lia|done| |].
  - intros i use Hi. rewrite (Hc3 i use Hi). lia.
  - intros later. by apply revoked_calls.
Qed.

Definition sample_capability : Result ProbeCapability PlannerError :=
  capability_new "cap-1" "module-1" "run-1" "worker-1" {[ ("GET" : str) ]} {[ hash_of "c" ]} 2 1 CookiesOnly
    false true 1000.

Definition sample_use (now mutations : N) : CapabilityUseRequest :=
  {| cu_run_id := "run-1"; cu_worker_id := "worker-1"; cu_method := "GET";
     cu_endpoint_sha256 := hash_of "c"; cu_mutations := mutations;
     cu_requires_secret_access := CookiesOnly; cu_replays_body := false; cu_follows_redirect := true;
     cu_now_milliseconds := now |}.

Lemma capability_bounds_uses_witness :
  match sample_capability with
  | Ok c =>
      let uses := (capability_calls [Some (sample_use 10 1); Some (sample_use 11 1);
        Some (sample_use 12 0); Some (sample_use 13 0)] c).1 in
      len uses = 2 /\ len uses <= 2 /\ mutations_of uses <= 1
  | Err _ => False
  end.
Proof.
  assert (match sample_capability with Ok c => len (capability_calls [Some (sample_use 10 1);
    Some (sample_use 11 1); Some (sample_use 12 0); Some (sample_use 13 0)] c).1 =? 2 | Err _ => false end
    = true) as Hb by (vm_compute; reflexivity).
  destruct sample_capability as [c|] eqn:E; [|discriminate Hb]. split; [by apply N.eqb_eq|].
  destruct (capability_bounds_uses _ _ _ _ _ _ _ _ _ _ _ _ c [Some (sample_use 10 1);
    Some (sample_use 11 1); Some (sample_use 12 0); Some (sample_use 13 0)] E) as (H1 & H2 & _).
  exact (conj H1 H2).
Defined.

(** In every history of transitions of a new run the states entered form a
    path of the life cycle from [Created] that never leaves a terminal state; the
    run keeps its identifier and policy; its audit chain verifies, ends in the tail
    of the snapshot and names exactly the states entered; the generation counts
    them; and the run has a validated owner while running and a resume token, but
    no owner, while paused. *)
Theorem run_follows_life_cycle {S : Sha256Lib} {JA : JsonLib (HashMaterial PlannerAuditEvent)}
    (run_id policy : str) (m : RunMachine) (calls : list (RunState * option str * option str)) :
  run_new run_id policy = Ok m ->
  let entered := (run_calls calls m).1 in
  let m' := (run_calls calls m).2 in
  run_path RunCreated entered
  /\ rs_state (rm_snapshot m') = default RunCreated (last entered)
  /\ rs_run_id (rm_snapshot m') = run_id /\ rs_policy_snapshot_sha256 (rm_snapshot m') = policy
  /\ planner_audit_verify (rm_audit m') = Ok tt
  /\ rs_audit_tail (rm_snapshot m') = tail_hash (rm_audit m')
  /\ (fun r => pa_outcome (event r)) <$> records (rm_audit m')
     = run_state_name <$> RunCreated :: entered
  /\ rs_generation (rm_snapshot m') = N.min (len entered + 1) u64_max
  /\ ownership_ok (rm_snapshot m').
Proof.
  intros Hn entered m'. apply run_new_ok in Hn as (Hm & Hs & Hid & Hpol & _ & Hout).
  destruct (run_calls calls m) as [entered0 m0] eqn:Hc. subst entered m'. simpl.
  destruct (run_calls_spec _ _ _ _ Hm Hc) as (Hm0 & Hp & Hst & Hid0 & Hpol0 & _ & Hout0).
  rewrite Hs in Hp, Hst. rewrite Hout in Hout0. split_and!; try done; try congruence; try apply Hm0.
  - unfold planner_audit_verify. by rewrite (proj2 (chain_verify_spec _) (ro_chain _ Hm0)).
  - rewrite (ro_generation _ Hm0). apply (f_equal length) in Hout0.
    rewrite length_fmap, length_app, length_fmap in Hout0. unfold len. rewrite Hout0. simpl. f_equal. lia.
Qed.

Definition sample_transitions : list (RunState * option str * option str) :=
  [(RunValidated, None, None); (RunRunning, Some ("worker-1" : str), None);
   (RunPaused, None, Some ("secret" : str));
   (RunRunning, Some ("worker-1" : str), Some ("wrong" : str));
   (RunRunning, Some ("worker-1" : str), Some ("secret" : str));
   (RunCompleted, None, None); (RunRunning, Some ("worker-1" : str), None)].

Lemma run_follows_life_cycle_witness :
  match @run_new toy_sha256 toy_planner_json "run-1" (hash_of "a") with
  | Ok m =>
      let entered := (@run_calls toy_sha256 toy_planner_json sample_transitions m).1 in
      entered = [RunValidated; RunRunning; RunPaused; RunRunning; RunCompleted]
      /\ run_path RunCreated entered
  | Err _ => False
  end.
Proof.
  assert (match @run_new toy_sha256 toy_planner_json "run-1" (hash_of "a") with
    | Ok m => bool_decide ((@run_calls toy_sha256 toy_planner_json sample_transitions m).1
                = [RunValidated; RunRunning; RunPaused; RunRunning; RunCompleted])
    | Err _ => false end = true) as Hb by (vm_compute; reflexivity).
  destruct (@run_new toy_sha256 toy_planner_json "run-1" (hash_of "a")) as [m|] eqn:E; [|discriminate Hb].
  split; [by apply bool_decide_eq_true in Hb|].
  exact (proj1 (@run_follows_life_cycle toy_sha256 toy_planner_json _ _ m sample_transitions E)).
Defined.

(** Pausing a running run with a token succeeds, and the paused run resumes
    for a valid worker exactly with a token of the same SHA-256; without a token,
    without a worker or with an invalid worker it does not resume, and it stays as
    it was. *)
Theorem paused_run_resumes_with_its_token {S : Sha256Lib} {JA : JsonLib (HashMaterial PlannerAuditEvent)}
    (m : RunMachine) (pauser : option str) (token : str) :
  rs_state (rm_snapshot m) = RunRunning ->
  exists snapshot paused, run_transition RunPaused pauser (Some token) m = (Ok snapshot, paused)
    /\ forall worker given,
         let '(r, resumed) := run_transition RunRunning worker given paused in
         (is_ok r = true <->
            exists w t, worker = Some w /\ given = Some t
              /\ planner_validate_identifier w "worker_id" = Ok tt
              /\ planner_hash_bytes t = planner_hash_bytes token)
         /\ (is_ok r = false -> resumed = paused).
Proof.
  intros Hm. pose proof (run_transition_accepts RunPaused pauser (Some token) m) as Ha.
  destruct (run_transition RunPaused pauser (Some token) m) as [r paused] eqn:Hp.
  rewrite Hm in Ha. destruct r as [snapshot|e]; [|done].
  eexists _, _. split; [done|]. apply run_transition_spec in Hp as (-> & _ & _ & Ho & Hs & _).
  injection Ho as Eo Et. intros worker given.
  pose proof (run_transition_accepts RunRunning worker given paused) as Hr.
  destruct (run_transition RunRunning worker given paused) as [r resumed] eqn:E. split.
  2: { apply run_transition_spec in E. by destruct r. }
  cbn [fst] in Hr. rewrite Hr, Hs. unfold transition_owner. rewrite Hs, <- Et.
  rewrite !bool_decide_eq_true_2 by done. cbn [run_is_terminal run_edge negb andb]. split.
  - intros Hok. destruct worker as [w|]; [|done].
    destruct (planner_validate_identifier w "worker_id") as [[]|] eqn:Ew; [|done].
    destruct given as [t|]; [|done]. case_bool_decide as Hh; [done|].
    exists w, t. split_and!; try done.
  - intros (w & t & -> & -> & Ew & Eh). rewrite Ew, bool_decide_eq_false_2; [done|]. intros Hne. by apply Hne.
Qed.

Definition sample_running_run : option RunMachine :=
  match @run_new toy_sha256 toy_planner_json "run-1" (hash_of "a") with
  | Ok m => Some (@run_calls toy_sha256 toy_planner_json (take 2 sample_transitions) m).2
  | Err _ => None
  end.

Lemma paused_run_resumes_with_its_token_witness :
  match sample_running_run with
  | Some m => exists snapshot paused,
      @run_transition toy_sha256 toy_planner_json RunPaused None (Some ("secret" : str)) m = (Ok snapshot, paused)
  | None => False
  end.
Proof.
  assert (match sample_running_run with Some m => bool_decide (rs_state (rm_snapshot m) = RunRunning)
    | None => false end = true) as Hb by (vm_compute; reflexivity).
  destruct sample_running_run as [m|]; [|discriminate Hb]. apply bool_decide_eq_true in Hb.
  destruct (@paused_run_resumes_with_its_token toy_sha256 toy_planner_json m None "secret" Hb)
    as (snapshot & paused & E & _).
  exact (ex_intro _ snapshot (ex_intro _ paused E)).
Defined.

(** Every plan the constructor returns is well formed: its identifiers,
    method and hashes are valid, its parameter names and budgets are within the hard
    limits and forbidden work is never active; and the constructor does not fail
    for want of a host or a port once it has accepted the URL. *)
Theorem plans_are_well_formed {S : Sha256Lib} {SL : Sha256Laws} {U : UrlLib} {UF : UrlFragmentLib}
    {L : UrlLaws U} (endpoint_id : str) (url : Url) (method : str) (names : gset str) (body_kind : str)
    (session : bool) (risk : RiskClass) (provenance policy : str)
    (request_bytes response_bytes redirects retries : N) (active : bool) :
  match plan_new endpoint_id url method names body_kind session risk provenance policy request_bytes
          response_bytes redirects retries active with
  | Ok plan => plan_wf plan
  | Err e => e <> PlInvalidPlan "URL host" /\ e <> PlInvalidPlan "URL port"
  end.
Proof.
  unfold plan_new.
  destruct (planner_validate_identifier endpoint_id _) as [[]|e] eqn:E1;
    [|apply planner_validate_error in E1 as ->; done].
  destruct (planner_validate_method _) as [[]|e] eqn:E2.
  2: { unfold planner_validate_method in E2. case_bool_decide; simplify_eq/=; done. }
  destruct (planner_validate_identifier body_kind _) as [[]|e] eqn:E3;
    [|apply planner_validate_error in E3 as ->; done].
  destruct (planner_validate_sha256 provenance _) as [[]|e] eqn:E4.
  2: { unfold planner_validate_sha256 in E4. destruct (negb _); simplify_eq/=; done. }
  destruct (planner_validate_sha256 policy _) as [[]|e] eqn:E5.
  2: { unfold planner_validate_sha256 in E5. destruct (negb _); [|done]. injection E5 as <-. split; vm_compute; discriminate. }
  do 3 (match goal with |- context [if ?b then Err _ else _] => destruct b eqn:? end;
    [split; vm_compute; discriminate|]).
  destruct (match risk with Forbidden => active | _ => false end) eqn:E9;
    [split; vm_compute; discriminate|]. bools.
  destruct (normalized_origin_total url) as [origin ->]; [done..|].
  constructor; simpl; auto.
  - by apply planner_validate_method_ok.
  - rewrite (planner_validate_sha256_ok _ _ E4), (planner_validate_sha256_ok _ _ E5), !andb_true_r.
    apply to_lower_hex_sha256. pose proof (sha256_length (url_to_string url)) as Hl. unfold len in Hl. lia.
  - split; [done|]. intros name Hname. destruct (parameter_name_invalid name) eqn:En; [|done].
    match goal with H : existsb _ _ = false |- _ => rewrite <- H end. symmetry. apply existsb_elem.
    exists name. by rewrite elem_of_btree_iter.
  - intros ->. done.
Qed.

Lemma plans_are_well_formed_witness :
  match sample_plan_result "app.example.com" "/a" SafeActive true with
  | Ok plan => plan_wf plan
  | Err e => e <> PlInvalidPlan "URL host" /\ e <> PlInvalidPlan "URL port"
  end.
Proof.
  unfold sample_plan_result.
  pose proof (@plans_are_well_formed toy_sha256 toy_sha256_laws plain_url toy_fragment plain_url_laws "endpoint-1"
    (plain_https "app.example.com" "/a") "get" {[ ("id" : str) ]} "empty" false SafeActive (hash_of "a")
    (hash_of "b") 128 1024 4 1 true) as H.
  exact H.
Defined.
