(* ===== verification/Workflow.v ===== *)
(** * Workflow: capability graphs, workflows, quorum and certification ([crates/nxb-workflow-graph])

    The [CapabilityGraph] records nodes and evidence-backed edges and synthesises
    risk chains by breadth-first search; a [WorkflowDefinition] is a validated
    dependency graph of typed steps with its topological order; the
    [WorkflowEngine] leases its steps and compensates; the [OracleCoordinator]
    counts votes; the [RunCertificationAuthority] closes a run. *)

From S2P Require Import Prelude ByteStr BTree HashChain.
Local Open Scope N_scope.

(** ** Data *)

Definition MAX_CAPABILITY_GRAPH_NODES : N := 250000.
Definition MAX_CAPABILITY_GRAPH_EDGES : N := 1000000.
Definition MAX_RISK_CHAIN_DEPTH : N := 8.
Definition MAX_WORKFLOW_STEPS : N := 10000.
Definition MAX_STEP_DEPENDENCIES : N := 128.
Definition MAX_STEP_ATTEMPTS : N := 3.
Definition MAX_ORACLE_VOTES : N := 32.

Inductive WorkflowError : Type :=
  | WfInvalidIdentifier (name : str)
  | WfInvalidSha256 (name : str)
  | GraphLimit
  | DuplicateNode
  | DuplicateEdge
  | UnknownNode
  | InvalidRiskChain
  | InvalidWorkflow (message : str)
  | InvalidWorkflowState
  | StepNotReady
  | WfInvalidLease
  | InvalidOracleQuorum
  | CertificationDenied (message : str)
  | WfAuditSerialization (message : str)
  | WfAuditSequenceMismatch (record_index : N)
  | WfAuditPreviousHashMismatch (record_index : N)
  | WfAuditRecordHashMismatch (record_index : N)
  | WfAuditTailMismatch.

Inductive CapabilityNodeKind : Type :=
  | KCapability | KEndpoint | KSession | KFinding | KEvidence | KOwnedObject | KWorkflow.

#[export] Instance CapabilityNodeKind_eq_dec : EqDecision CapabilityNodeKind.
Proof. solve_decision. Defined.

Inductive CapabilityEdgeKind : Type := Requires | Enables | BoundTo | ValidatedBy | Produces | Compensates.

#[export] Instance CapabilityEdgeKind_eq_dec : EqDecision CapabilityEdgeKind.
Proof. solve_decision. Defined.

Inductive WorkflowAction : Type :=
  | Observe | GenerateInertMutation | CompareDifferential | EvaluateOracle | RegisterOwnedObject
  | CleanupOwnedObject | StoreEvidence | BuildReport | CertifyRun.

#[export] Instance WorkflowAction_eq_dec : EqDecision WorkflowAction.
Proof. solve_decision. Defined.

Inductive WorkflowState : Type :=
  | WsCreated | WsRunning | WsPaused | WsCancelling | WsCompleted | WsFailed | WsEmergencyStopped.

#[export] Instance WorkflowState_eq_dec : EqDecision WorkflowState.
Proof. solve_decision. Defined.

Definition workflow_is_terminal (self : WorkflowState) : bool :=
  match self with WsCompleted | WsFailed | WsEmergencyStopped => true | _ => false end.

Inductive WorkflowStepState : Type :=
  | Pending | Leased | Succeeded | StepFailed | Skipped | Compensating | Compensated.

#[export] Instance WorkflowStepState_eq_dec : EqDecision WorkflowStepState.
Proof. solve_decision. Defined.

Inductive QuorumDecision : Type := QConfirmed | QRejected | QInconclusive | QDrift.

#[export] Instance QuorumDecision_eq_dec : EqDecision QuorumDecision.
Proof. solve_decision. Defined.

(** Of [nxb-knowledge-reporting] and [nxb-active-validation]. *)
Inductive FindingState : Type := Candidate | Validating | Validated | Reportable | Suppressed | Closed.
Inductive OracleDecision : Type := Confirmed | Rejected | Inconclusive.

Record WorkflowAuditEvent : Type := {
  wa_action : str;
  wa_subject_id : str;
  wa_outcome : str;
  wa_metadata : gmap str str
}.

Record CapabilityNode : Type := {
  cn_node_id : str;
  cn_kind : CapabilityNodeKind;
  cn_subject_sha256 : str;
  cn_policy_snapshot_sha256 : str;
  cn_finding_state : option FindingState;
  cn_labels : gmap str str
}.

Record CapabilityEdge : Type := {
  ce_edge_id : str;
  ce_from_node_id : str;
  ce_to_node_id : str;
  ce_kind : CapabilityEdgeKind;
  ce_evidence_sha256 : str
}.

Record RiskChainStep : Type := {
  rc_sequence : N;
  rc_node_id : str;
  rc_node_kind : CapabilityNodeKind;
  rc_subject_sha256 : str;
  rc_via_edge_id : option str;
  rc_via_edge_kind : option CapabilityEdgeKind
}.

Record RiskChain : Type := {
  rk_chain_id : str;
  rk_start_node_id : str;
  rk_goal_node_id : str;
  rk_steps : list RiskChainStep;
  rk_evidence_sha256 : gset str;
  rk_executable : bool;
  rk_chain_sha256 : str
}.

Record CapabilityGraph : Type := {
  cg_policy_snapshot_sha256 : str;
  cg_nodes : gmap str CapabilityNode;
  cg_edges : gmap str CapabilityEdge;
  cg_outgoing : gmap str (gset str);
  cg_audit : HashChain WorkflowAuditEvent
}.

Record WorkflowStep : Type := {
  ws_step_id : str;
  ws_action : WorkflowAction;
  ws_dependencies : gset str;
  ws_capability_id : option str;
  ws_request_cost : N;
  ws_mutation_cost : N;
  ws_creates_owned_object : bool;
  ws_compensation_step_id : option str
}.

Record WorkflowDefinition : Type := {
  wd_workflow_id : str;
  wd_run_id : str;
  wd_policy_snapshot_sha256 : str;
  wd_steps : gmap str WorkflowStep;
  wd_topological_order : list str;
  wd_total_request_budget : N;
  wd_total_mutation_budget : N;
  wd_definition_sha256 : str
}.

Record WorkflowStepRuntime : Type := {
  sr_step_id : str;
  sr_state : WorkflowStepState;
  sr_attempts : N;
  sr_active_lease_id : option str;
  sr_evidence_sha256 : option str
}.

Record WorkflowLease : Type := {
  le_lease_id : str;
  le_workflow_id : str;
  le_definition_sha256 : str;
  le_step_id : str;
  le_worker_id : str;
  le_attempt : N;
  le_issued_at_milliseconds : N;
  le_expires_at_milliseconds : N;
  le_compensation : bool
}.

Record WorkflowStepReceipt : Type := {
  re_lease_id : str;
  re_step_id : str;
  re_final_state : WorkflowStepState;
  re_evidence_sha256 : str;
  re_workflow_state : WorkflowState;
  re_audit_tail_hash : str
}.

Record WorkflowEngine : Type := {
  en_definition : WorkflowDefinition;
  en_state : WorkflowState;
  en_steps : gmap str WorkflowStepRuntime;
  en_compensation_targets : gset str;
  en_consumed_leases : gset str;
  en_next_lease_sequence : N;
  en_audit : HashChain WorkflowAuditEvent
}.

Record OracleVote : Type := {
  ov_oracle_id : str;
  ov_decision : OracleDecision;
  ov_evidence_sha256 : str;
  ov_repeatable_delta_sha256 : option str;
  ov_policy_snapshot_sha256 : str;
  ov_validation_audit_tail_hash : str
}.

Record OracleQuorumResult : Type := {
  oq_quorum_id : str;
  oq_decision : QuorumDecision;
  oq_vote_count : N;
  oq_confirmed_votes : N;
  oq_rejected_votes : N;
  oq_inconclusive_votes : N;
  oq_policy_snapshot_sha256 : str;
  oq_consensus_delta_sha256 : option str;
  oq_evidence_sha256 : str
}.

Record OracleCoordinator : Type := {
  oc_coordinator_id : str;
  oc_required_votes : N;
  oc_maximum_votes : N
}.

Record CertificationInput : Type := {
  ci_run_id : str;
  ci_policy_snapshot_sha256 : str;
  ci_workflow_id : str;
  ci_workflow_definition_sha256 : str;
  ci_workflow_state : WorkflowState;
  ci_workflow_audit_tail_hash : str;
  ci_validation_audit_tail_hash : str;
  ci_knowledge_audit_tail_hash : str;
  ci_export_manifest_root_sha256 : str;
  ci_quorum : OracleQuorumResult;
  ci_unresolved_cleanup_objects : N;
  ci_failed_steps : N;
  ci_all_audits_verified : bool;
  ci_policy_drift_detected : bool
}.

Record RunCertificate : Type := {
  cf_certificate_id : str;
  cf_run_id : str;
  cf_workflow_id : str;
  cf_policy_snapshot_sha256 : str;
  cf_workflow_definition_sha256 : str;
  cf_quorum_id : str;
  cf_quorum_decision : QuorumDecision;
  cf_export_manifest_root_sha256 : str;
  cf_audit_roots_sha256 : str;
  cf_certificate_sha256 : str;
  cf_safe_boundary : str
}.

Record RunCertificationAuthority : Type := {
  ra_authority_id : str;
  ra_audit : HashChain WorkflowAuditEvent
}.

(** What the crate serialises for hashing. *)
Abbreviation EdgeMaterial := (str * str * CapabilityEdgeKind * str)%type.
Abbreviation RiskChainMaterial := (str * str * list RiskChainStep * gset str)%type.
Abbreviation DefinitionMaterial :=
  (str * str * str * gmap str WorkflowStep * list str * N * N)%type.
Abbreviation QuorumMaterial := (str * str * list OracleVote * QuorumDecision)%type.
Abbreviation AuditRootsMaterial := (str * str * str)%type.
Abbreviation CertificateMaterial :=
  (str * str * str * str * str * str * QuorumDecision * str * str)%type.

(** ** Validation *)

Definition workflow_identifier_byte (c : byte) : bool :=
  is_ascii_alphanumeric c || is_byte 45 c || is_byte 95 c || is_byte 46 c || is_byte 58 c.

Definition workflow_validate_identifier (value name : str) : Result unit WorkflowError :=
  if bool_decide (value = []) || (192 <? len value) || negb (forallb workflow_identifier_byte value)
  then Err (WfInvalidIdentifier name) else Ok tt.

Definition workflow_validate_sha256 (value name : str) : Result unit WorkflowError :=
  if negb (is_lower_hex_sha256 value) then Err (WfInvalidSha256 name) else Ok tt.

(** [map[key]], which panics for an absent key. *)
Definition index_map {A} (m : gmap str A) (key : str) : Run A :=
  match m !! key with Some value => Done value | None => Panic "no entry found for key" end.

(** [option.expect(message)]. *)
Definition expect {A} (o : option A) (message : str) : Run A :=
  match o with Some value => Done value | None => Panic message end.

(** [iter.any(p)] and [iter.all(p)] with a predicate that may panic. *)
Fixpoint any_run {A} (p : A -> Run bool) (l : list A) : Run bool :=
  match l with
  | [] => Done false
  | x :: rest => let! b := p x in if b : bool then Done true else any_run p rest
  end.

Fixpoint all_run {A} (p : A -> Run bool) (l : list A) : Run bool :=
  match l with
  | [] => Done true
  | x :: rest => let! b := p x in if b : bool then all_run p rest else Done false
  end.

Definition label_invalid (entry : str * str) : bool :=
  let '(key, value) := entry in
  bool_decide (key = []) || (96 <? len key) || (512 <? len value) || existsb is_ascii_control key
  || existsb (is_byte 0) value.

Definition node_new (node_id : str) (kind : CapabilityNodeKind) (subject_sha256 policy_snapshot_sha256 : str)
    (finding_state : option FindingState) (labels : gmap str str) : Result CapabilityNode WorkflowError :=
  let? _ := workflow_validate_identifier node_id "capability node" in
  let? _ := workflow_validate_sha256 subject_sha256 "capability subject" in
  let? _ := workflow_validate_sha256 policy_snapshot_sha256 "capability policy snapshot" in
  if negb (Bool.eqb (bool_decide (kind = KFinding)) (match finding_state with Some _ => true | None => false end))
     || (64 <? N.of_nat (size labels)) || existsb label_invalid (map_iter labels)
  then Err InvalidRiskChain
  else Ok {| cn_node_id := node_id; cn_kind := kind; cn_subject_sha256 := subject_sha256;
             cn_policy_snapshot_sha256 := policy_snapshot_sha256; cn_finding_state := finding_state;
             cn_labels := labels |}.

Definition is_chain_eligible (self : CapabilityNode) : bool :=
  negb (bool_decide (cn_kind self = KFinding))
  || match cn_finding_state self with
     | Some Validated | Some Reportable | Some Closed => true
     | _ => false
     end.

Definition workflow_chain_error (e : ChainError) : WorkflowError :=
  match e with
  | InvalidGenesisHash => WfInvalidSha256 "audit genesis"
  | Serialization message => WfAuditSerialization message
  | SequenceMismatch i => WfAuditSequenceMismatch i
  | PreviousHashMismatch i => WfAuditPreviousHashMismatch i
  | RecordHashMismatch i => WfAuditRecordHashMismatch i
  | TailHashMismatch => WfAuditTailMismatch
  end.

Section Audit.
Context {S : Sha256Lib} {JA : JsonLib (HashMaterial WorkflowAuditEvent)}.

Definition workflow_hash {A} {J : JsonLib A} (value : A) : Result str WorkflowError :=
  let? bytes := map_err WfAuditSerialization (to_vec value) in Ok (to_lower_hex (sha256 bytes)).

Definition workflow_audit_new (genesis_hash : str) : Result (HashChain WorkflowAuditEvent) WorkflowError :=
  map_err workflow_chain_error (chain_new_anchored genesis_hash).

Definition workflow_audit_append (event : WorkflowAuditEvent) (chain : HashChain WorkflowAuditEvent)
    : Result (ChainRecord WorkflowAuditEvent) WorkflowError * HashChain WorkflowAuditEvent :=
  let '(result, chain) := chain_append event chain in (map_err workflow_chain_error result, chain).

(** A caller's write through [records_mut]. *)
Definition workflow_audit_set (index : nat) (record : ChainRecord WorkflowAuditEvent)
    (chain : HashChain WorkflowAuditEvent) : HashChain WorkflowAuditEvent :=
  {| genesis_hash := genesis_hash chain; records := <[index := record]> (records chain);
     tail_hash := tail_hash chain |}.

Definition workflow_audit_verify (chain : HashChain WorkflowAuditEvent) : Result unit WorkflowError :=
  map_err workflow_chain_error (chain_verify chain).
End Audit.

(** ** The capability graph *)

(** The edges that leave a node, in the order of their identifiers. *)
Definition outgoing_ids (self : CapabilityGraph) (node_id : str) : list str :=
  match cg_outgoing self !! node_id with Some ids => btree_iter ids | None => [] end.

(** The loop over the edges that leave the last node of [path]. *)
Fixpoint extend_path (self : CapabilityGraph) (path : list str) (edge_ids : list str)
    : Run (list (list str)) :=
  match edge_ids with
  | [] => Done []
  | edge_id :: rest =>
      let! edge := expect (cg_edges self !! edge_id) "capability edge index" in
      if bool_decide (ce_kind edge = Compensates) || bool_decide (ce_to_node_id edge ∈ path)
      then extend_path self path rest
      else
        let! next := expect (cg_nodes self !! ce_to_node_id edge) "capability node index" in
        if negb (is_chain_eligible next) then extend_path self path rest
        else
          let! paths := extend_path self path rest in
          Done ((path ++ [ce_to_node_id edge]) :: paths)
  end.

(** The search loop. Running out of [fuel] is no behaviour of the code: the
    theorems show that [search_budget] is enough. *)
Fixpoint search_path (fuel : nat) (self : CapabilityGraph) (goal_node_id : str) (maximum_depth : N)
    (queue : list (list str)) : Run (option (list str)) :=
  match queue with
  | [] => Done None
  | path :: queue =>
      match fuel with
      | O => Panic "search budget"
      | S fuel =>
          let! current := expect (last path) "risk-chain path" in
          if bool_decide (current = goal_node_id) then Done (Some path)
          else if maximum_depth <? len path
          then search_path fuel self goal_node_id maximum_depth queue
          else
            let! next_paths := extend_path self path (outgoing_ids self current) in
            search_path fuel self goal_node_id maximum_depth (queue ++ next_paths)
      end
  end.

(** At most [(1 + edges) ^ depth] paths enter the queue. *)
Definition search_budget (self : CapabilityGraph) (maximum_depth : N) : nat :=
  Nat.pow (Datatypes.S (size (cg_edges self))) (N.to_nat maximum_depth).

(** The edge by which a step of the chain is reported. *)
Definition via_edge (self : CapabilityGraph) (previous node_id : str) : option CapabilityEdge :=
  List.find (fun edge => bool_decide (ce_to_node_id edge = node_id))
    (omap (fun edge_id => cg_edges self !! edge_id) (outgoing_ids self previous)).

(** The loop over the selected path, with the node before each one. *)
Fixpoint chain_steps (self : CapabilityGraph) (index : N) (previous : option str) (path : list str)
    : Run (Result (list RiskChainStep * gset str) WorkflowError) :=
  match path with
  | [] => Done (Ok ([], ∅))
  | node_id :: rest =>
      let! node := expect (cg_nodes self !! node_id) "risk-chain node" in
      match (match previous with
             | None => Ok None
             | Some previous =>
                 match via_edge self previous node_id with
                 | Some edge => Ok (Some edge)
                 | None => Err InvalidRiskChain
                 end
             end) with
      | Err e => Done (Err e)
      | Ok via =>
          let! tail := chain_steps self (index + 1) (Some node_id) rest in
          match tail with
          | Err e => Done (Err e)
          | Ok (steps, evidence) =>
              Done (Ok
                ({| rc_sequence := index + 1; rc_node_id := cn_node_id node; rc_node_kind := cn_kind node;
                    rc_subject_sha256 := cn_subject_sha256 node; rc_via_edge_id := ce_edge_id <$> via;
                    rc_via_edge_kind := ce_kind <$> via |} :: steps,
                 match via with Some edge => {[ ce_evidence_sha256 edge ]} ∪ evidence | None => evidence end))
          end
      end
  end.

Section Graph.
Context {S : Sha256Lib} {JA : JsonLib (HashMaterial WorkflowAuditEvent)} {JE : JsonLib EdgeMaterial}
  {JR : JsonLib RiskChainMaterial}.

(** [[..24]] of a hash, which has 64 digits. *)
Definition hash_prefix (hash : str) : str := take 24 hash.

Definition edge_new (from_node_id to_node_id : str) (kind : CapabilityEdgeKind) (evidence_sha256 : str)
    : Result CapabilityEdge WorkflowError :=
  let? _ := workflow_validate_identifier from_node_id "capability edge from" in
  let? _ := workflow_validate_identifier to_node_id "capability edge to" in
  if bool_decide (from_node_id = to_node_id) then Err InvalidRiskChain
  else
  let? _ := workflow_validate_sha256 evidence_sha256 "capability edge evidence" in
  let? hash := workflow_hash (from_node_id, to_node_id, kind, evidence_sha256) in
  Ok {| ce_edge_id := ("cap-edge-" : str) ++ hash_prefix hash; ce_from_node_id := from_node_id;
        ce_to_node_id := to_node_id; ce_kind := kind; ce_evidence_sha256 := evidence_sha256 |}.

Definition graph_new (policy_snapshot_sha256 audit_genesis : str) : Result CapabilityGraph WorkflowError :=
  let? _ := workflow_validate_sha256 policy_snapshot_sha256 "capability graph policy" in
  let? audit := workflow_audit_new audit_genesis in
  Ok {| cg_policy_snapshot_sha256 := policy_snapshot_sha256; cg_nodes := ∅; cg_edges := ∅;
        cg_outgoing := ∅; cg_audit := audit |}.

Definition graph_event (action subject_id : str) : WorkflowAuditEvent :=
  {| wa_action := action; wa_subject_id := subject_id; wa_outcome := "added"; wa_metadata := ∅ |}.

Definition add_node (node : CapabilityNode) (self : CapabilityGraph)
    : Result CapabilityNode WorkflowError * CapabilityGraph :=
  if MAX_CAPABILITY_GRAPH_NODES <=? N.of_nat (size (cg_nodes self)) then (Err GraphLimit, self)
  else if bool_decide (cn_policy_snapshot_sha256 node <> cg_policy_snapshot_sha256 self)
  then (Err InvalidRiskChain, self)
  else if bool_decide (is_Some (cg_nodes self !! cn_node_id node)) then (Err DuplicateNode, self)
  else
    let '(result, audit) :=
      workflow_audit_append (graph_event "capability_node_added" (cn_node_id node)) (cg_audit self) in
    (let? _ := result in Ok node,
     {| cg_policy_snapshot_sha256 := cg_policy_snapshot_sha256 self;
        cg_nodes := <[cn_node_id node := node]> (cg_nodes self); cg_edges := cg_edges self;
        cg_outgoing := cg_outgoing self; cg_audit := audit |}).

Definition add_edge (edge : CapabilityEdge) (self : CapabilityGraph)
    : Result CapabilityEdge WorkflowError * CapabilityGraph :=
  if MAX_CAPABILITY_GRAPH_EDGES <=? N.of_nat (size (cg_edges self)) then (Err GraphLimit, self)
  else if negb (bool_decide (is_Some (cg_nodes self !! ce_from_node_id edge)))
          || negb (bool_decide (is_Some (cg_nodes self !! ce_to_node_id edge)))
  then (Err UnknownNode, self)
  else if bool_decide (is_Some (cg_edges self !! ce_edge_id edge)) then (Err DuplicateEdge, self)
  else
    let '(result, audit) :=
      workflow_audit_append (graph_event "capability_edge_added" (ce_edge_id edge)) (cg_audit self) in
    (let? _ := result in Ok edge,
     {| cg_policy_snapshot_sha256 := cg_policy_snapshot_sha256 self; cg_nodes := cg_nodes self;
        cg_edges := <[ce_edge_id edge := edge]> (cg_edges self);
        cg_outgoing :=
          <[ce_from_node_id edge := {[ ce_edge_id edge ]}
              ∪ default ∅ (cg_outgoing self !! ce_from_node_id edge)]> (cg_outgoing self);
        cg_audit := audit |}).

Definition synthesize_risk_chain (start_node_id goal_node_id : str) (maximum_depth : N)
    (self : CapabilityGraph) : Run (Result RiskChain WorkflowError) :=
  match cg_nodes self !! start_node_id, cg_nodes self !! goal_node_id with
  | None, _ | _, None => Done (Err InvalidRiskChain)
  | Some start, Some goal =>
      if (maximum_depth =? 0) || (MAX_RISK_CHAIN_DEPTH <? maximum_depth)
         || negb (is_chain_eligible start) || negb (is_chain_eligible goal)
      then Done (Err InvalidRiskChain)
      else
        let! selected_path :=
          search_path (search_budget self maximum_depth) self goal_node_id maximum_depth [[start_node_id]] in
        match selected_path with
        | None => Done (Err InvalidRiskChain)
        | Some path =>
            if maximum_depth <? len path - 1 then Done (Err InvalidRiskChain)
            else
              let! steps := chain_steps self 0 None path in
              Done (
                let? (steps, evidence_sha256) := steps in
                let? chain_sha256 := workflow_hash (start_node_id, goal_node_id, steps, evidence_sha256) in
                Ok {| rk_chain_id := ("risk-chain-" : str) ++ hash_prefix chain_sha256;
                      rk_start_node_id := start_node_id; rk_goal_node_id := goal_node_id;
                      rk_steps := steps; rk_evidence_sha256 := evidence_sha256; rk_executable := false;
                      rk_chain_sha256 := chain_sha256 |})
        end
  end.

End Graph.

(** ** Workflow definitions *)

Definition option_invalid (value : option str) (name : str) : bool :=
  match value with
  | Some value => negb (is_ok (workflow_validate_identifier value name))
  | None => false
  end.

Definition needs_capability (action : WorkflowAction) : bool :=
  match action with
  | GenerateInertMutation | RegisterOwnedObject | CleanupOwnedObject => true
  | _ => false
  end.

Definition step_new (step_id : str) (action : WorkflowAction) (dependencies : gset str)
    (capability_id : option str) (request_cost mutation_cost : N) (creates_owned_object : bool)
    (compensation_step_id : option str) : Result WorkflowStep WorkflowError :=
  let? _ := workflow_validate_identifier step_id "step_id" in
  if (MAX_STEP_DEPENDENCIES <? N.of_nat (size dependencies))
     || bool_decide (step_id ∈ dependencies)
     || existsb (fun dependency => negb (is_ok (workflow_validate_identifier dependency "dependency")))
          (btree_iter dependencies)
     || option_invalid capability_id "capability_id"
     || option_invalid compensation_step_id "compensation_step_id"
     || (100000 <? request_cost) || (10000 <? mutation_cost)
  then Err (InvalidWorkflow "step bounds")
  else if needs_capability action && bool_decide (capability_id = None)
  then Err (InvalidWorkflow "active or cleanup steps require a capability")
  else if (0 <? mutation_cost) && negb (bool_decide (action = GenerateInertMutation))
  then Err (InvalidWorkflow "only inert-mutation steps may consume mutation budget")
  else if creates_owned_object && negb (bool_decide (action = RegisterOwnedObject))
  then Err (InvalidWorkflow "owned objects must be registered by a dedicated step")
  else Ok {| ws_step_id := step_id; ws_action := action; ws_dependencies := dependencies;
             ws_capability_id := capability_id; ws_request_cost := request_cost;
             ws_mutation_cost := mutation_cost; ws_creates_owned_object := creates_owned_object;
             ws_compensation_step_id := compensation_step_id |}.

Fixpoint collect_steps (steps : list WorkflowStep) (step_map : gmap str WorkflowStep)
    : Result (gmap str WorkflowStep) WorkflowError :=
  match steps with
  | [] => Ok step_map
  | step :: rest =>
      if bool_decide (is_Some (step_map !! ws_step_id step))
      then Err (InvalidWorkflow "duplicate step identifier")
      else collect_steps rest (<[ws_step_id step := step]> step_map)
  end.

Definition check_step (step_map : gmap str WorkflowStep) (step : WorkflowStep) : Result unit WorkflowError :=
  if existsb (fun dependency => negb (bool_decide (is_Some (step_map !! dependency))))
       (btree_iter (ws_dependencies step))
  then Err (InvalidWorkflow "unknown dependency")
  else match ws_compensation_step_id step with
  | None => Ok tt
  | Some compensation_step_id =>
      match step_map !! compensation_step_id with
      | None => Err (InvalidWorkflow "unknown compensation step")
      | Some compensation =>
          if negb (bool_decide (ws_action compensation = CleanupOwnedObject))
             || bool_decide (compensation_step_id = ws_step_id step)
          then Err (InvalidWorkflow "compensation must reference a cleanup step")
          else Ok tt
      end
  end.

Fixpoint check_steps (step_map : gmap str WorkflowStep) (steps : list WorkflowStep)
    : Result unit WorkflowError :=
  match steps with
  | [] => Ok tt
  | step :: rest => let? _ := check_step step_map step in check_steps step_map rest
  end.

(** [dependents]: for each step the steps that depend on it. *)
Definition add_dependent (step_id : str) (dependents : gmap str (gset str)) (dependency : str)
    : gmap str (gset str) :=
  <[dependency := {[ step_id ]} ∪ default ∅ (dependents !! dependency)]> dependents.

Definition dependents_of (steps : gmap str WorkflowStep) : gmap str (gset str) :=
  fold_left (fun dependents entry =>
      fold_left (add_dependent entry.1) (btree_iter (ws_dependencies entry.2)) dependents)
    (map_iter steps) ∅.

Definition indegree_of (steps : gmap str WorkflowStep) : gmap str N :=
  (fun step => N.of_nat (size (ws_dependencies step))) <$> steps.

Definition initially_ready (indegree : gmap str N) : gset str :=
  dom (filter (fun entry : str * N => entry.2 = 0) indegree).

(** [BTreeSet::pop_first]. *)
Definition pop_first (s : gset str) : option (str * gset str) :=
  match btree_iter s with [] => None | x :: _ => Some (x, s ∖ {[ x ]}) end.

(** The loop over the dependents of the step that was taken. *)
Fixpoint release_dependents (dependents : list str) (indegree : gmap str N) (ready : gset str)
    : Run (gmap str N * gset str) :=
  match dependents with
  | [] => Done (indegree, ready)
  | dependent :: rest =>
      let! count := expect (indegree !! dependent) "workflow indegree" in
      let count := count - 1 in
      release_dependents rest (<[dependent := count]> indegree)
        (if count =? 0 then {[ dependent ]} ∪ ready else ready)
  end.

Fixpoint topological_loop (fuel : nat) (dependents : gmap str (gset str)) (indegree : gmap str N)
    (ready : gset str) (order : list str) : Run (list str) :=
  match pop_first ready with
  | None => Done order
  | Some (step_id, ready) =>
      match fuel with
      | O => Panic "more steps than the workflow has"
      | Datatypes.S fuel =>
          let! (indegree, ready) :=
            release_dependents (btree_iter (default ∅ (dependents !! step_id))) indegree ready in
          topological_loop fuel dependents indegree ready (order ++ [step_id])
      end
  end.

Definition topological_sort (steps : gmap str WorkflowStep) : Run (Result (list str) WorkflowError) :=
  let indegree := indegree_of steps in
  let! order :=
    topological_loop (size steps) (dependents_of steps) indegree (initially_ready indegree) [] in
  Done (if negb (len order =? N.of_nat (size steps))
        then Err (InvalidWorkflow "workflow dependency cycle") else Ok order).

(** [try_fold] with [checked_add]. *)
Fixpoint checked_total (message : str) (costs : list N) (total : N) : Result N WorkflowError :=
  match costs with
  | [] => Ok total
  | cost :: rest =>
      match checked_add total cost with
      | None => Err (InvalidWorkflow message)
      | Some total => checked_total message rest total
      end
  end.

Section Definitions.
Context {S : Sha256Lib} {JD : JsonLib DefinitionMaterial}.

Definition definition_new (workflow_id run_id policy_snapshot_sha256 : str) (steps : list WorkflowStep)
    : Run (Result WorkflowDefinition WorkflowError) :=
  match (
    let? _ := workflow_validate_identifier workflow_id "workflow_id" in
    let? _ := workflow_validate_identifier run_id "run_id" in
    let? _ := workflow_validate_sha256 policy_snapshot_sha256 "workflow policy snapshot" in
    if bool_decide (steps = []) || (MAX_WORKFLOW_STEPS <? len steps)
    then Err (InvalidWorkflow "step count")
    else
    let? step_map := collect_steps steps ∅ in
    let? _ := check_steps step_map (map_values step_map) in
    Ok step_map) with
  | Err e => Done (Err e)
  | Ok step_map =>
      let! sorted := topological_sort step_map in
      Done (
        let? topological_order := sorted in
        let? total_request_budget := checked_total "request budget overflow"
          (map ws_request_cost (map_values step_map)) 0 in
        let? total_mutation_budget := checked_total "mutation budget overflow"
          (map ws_mutation_cost (map_values step_map)) 0 in
        if (1000000 <? total_request_budget) || (100000 <? total_mutation_budget)
        then Err (InvalidWorkflow "workflow aggregate budget")
        else
        let? definition_sha256 := workflow_hash (workflow_id, run_id, policy_snapshot_sha256, step_map,
          topological_order, total_request_budget, total_mutation_budget) in
        Ok {| wd_workflow_id := workflow_id; wd_run_id := run_id;
              wd_policy_snapshot_sha256 := policy_snapshot_sha256; wd_steps := step_map;
              wd_topological_order := topological_order;
              wd_total_request_budget := total_request_budget;
              wd_total_mutation_budget := total_mutation_budget;
              wd_definition_sha256 := definition_sha256 |})
  end.
End Definitions.

(** ** The engine *)

Definition with_engine_state (state : WorkflowState) (self : WorkflowEngine) : WorkflowEngine :=
  {| en_definition := en_definition self; en_state := state; en_steps := en_steps self;
     en_compensation_targets := en_compensation_targets self;
     en_consumed_leases := en_consumed_leases self;
     en_next_lease_sequence := en_next_lease_sequence self; en_audit := en_audit self |}.

Definition with_engine_steps (steps : gmap str WorkflowStepRuntime) (self : WorkflowEngine) : WorkflowEngine :=
  {| en_definition := en_definition self; en_state := en_state self; en_steps := steps;
     en_compensation_targets := en_compensation_targets self;
     en_consumed_leases := en_consumed_leases self;
     en_next_lease_sequence := en_next_lease_sequence self; en_audit := en_audit self |}.

Definition with_engine_audit (audit : HashChain WorkflowAuditEvent) (self : WorkflowEngine) : WorkflowEngine :=
  {| en_definition := en_definition self; en_state := en_state self; en_steps := en_steps self;
     en_compensation_targets := en_compensation_targets self;
     en_consumed_leases := en_consumed_leases self;
     en_next_lease_sequence := en_next_lease_sequence self; en_audit := audit |}.

Definition with_consumed (lease_id : str) (self : WorkflowEngine) : WorkflowEngine :=
  {| en_definition := en_definition self; en_state := en_state self; en_steps := en_steps self;
     en_compensation_targets := en_compensation_targets self;
     en_consumed_leases := {[ lease_id ]} ∪ en_consumed_leases self;
     en_next_lease_sequence := en_next_lease_sequence self; en_audit := en_audit self |}.

Definition with_runtime_state (state : WorkflowStepState) (self : WorkflowStepRuntime) : WorkflowStepRuntime :=
  {| sr_step_id := sr_step_id self; sr_state := state; sr_attempts := sr_attempts self;
     sr_active_lease_id := sr_active_lease_id self; sr_evidence_sha256 := sr_evidence_sha256 self |}.

Definition runtime_new (step_id : str) : WorkflowStepRuntime :=
  {| sr_step_id := step_id; sr_state := Pending; sr_attempts := 0; sr_active_lease_id := None;
     sr_evidence_sha256 := None |}.

Definition step_state_name (state : WorkflowStepState) : str :=
  match state with
  | Pending => "pending"
  | Leased => "leased"
  | Succeeded => "succeeded"
  | StepFailed => "failed"
  | Skipped => "skipped"
  | Compensating => "compensating"
  | Compensated => "compensated"
  end.

Definition compensation_targets_of (steps : gmap str WorkflowStep) : gset str :=
  list_to_set (omap ws_compensation_step_id (map_values steps)).

Definition any_leased (self : WorkflowEngine) : bool :=
  existsb (fun runtime => bool_decide (sr_state runtime = Leased)) (map_values (en_steps self)).

(** The compensations [cancel] starts: those of the succeeded steps that are no
    compensation targets themselves. *)
Fixpoint compensations_to_start (self : WorkflowEngine) (entries : list (str * WorkflowStepRuntime))
    : Run (list str) :=
  match entries with
  | [] => Done []
  | (step_id, runtime) :: rest =>
      if negb (bool_decide (step_id ∈ en_compensation_targets self))
         && bool_decide (sr_state runtime = Succeeded)
      then
        let! step := index_map (wd_steps (en_definition self)) step_id in
        let! ids := compensations_to_start self rest in
        Done (match ws_compensation_step_id step with Some id => id :: ids | None => ids end)
      else compensations_to_start self rest
  end.

Definition skip_pending (targets : gset str) (step_id : str) (runtime : WorkflowStepRuntime)
    : WorkflowStepRuntime :=
  if negb (bool_decide (step_id ∈ targets)) && bool_decide (sr_state runtime = Pending)
  then with_runtime_state Skipped runtime else runtime.

Fixpoint start_compensations (ids : list str) (steps : gmap str WorkflowStepRuntime)
    : Run (gmap str WorkflowStepRuntime) :=
  match ids with
  | [] => Done steps
  | id :: rest =>
      let! runtime := expect (steps !! id) "compensation runtime" in
      start_compensations rest (<[id := with_runtime_state Compensating runtime]> steps)
  end.

Definition stop_runtime (runtime : WorkflowStepRuntime) : WorkflowStepRuntime :=
  match sr_state runtime with
  | Pending | Leased | Compensating =>
      {| sr_step_id := sr_step_id runtime; sr_state := Skipped; sr_attempts := sr_attempts runtime;
         sr_active_lease_id := None; sr_evidence_sha256 := sr_evidence_sha256 runtime |}
  | _ => runtime
  end.

(** Whether the loop of [lease_next] selects a step, and as a compensation. *)
Definition lease_candidate (self : WorkflowEngine) (step_id : str) : Run (option bool) :=
  let! runtime := index_map (en_steps self) step_id in
  let! normal_candidate :=
    (if bool_decide (en_state self = WsRunning) && bool_decide (sr_state runtime = Pending)
        && negb (bool_decide (step_id ∈ en_compensation_targets self))
     then
       let! step := index_map (wd_steps (en_definition self)) step_id in
       all_run (fun dependency =>
           let! runtime := index_map (en_steps self) dependency in
           Done (bool_decide (sr_state runtime = Succeeded)))
         (btree_iter (ws_dependencies step))
     else Done false) in
  let compensation_candidate :=
    bool_decide (en_state self = WsCancelling) && bool_decide (sr_state runtime = Compensating) in
  Done (if normal_candidate || compensation_candidate then Some compensation_candidate else None).

Fixpoint select_step (self : WorkflowEngine) (order : list str) : Run (option (str * bool)) :=
  match order with
  | [] => Done None
  | step_id :: rest =>
      let! candidate := lease_candidate self step_id in
      match candidate with
      | Some compensation => Done (Some (step_id, compensation))
      | None => select_step self rest
      end
  end.

Definition validate_lease (self : WorkflowEngine) (lease : WorkflowLease) (now_milliseconds : N)
    : Result unit WorkflowError :=
  if bool_decide (le_workflow_id lease <> wd_workflow_id (en_definition self))
     || bool_decide (le_definition_sha256 lease <> wd_definition_sha256 (en_definition self))
     || (le_expires_at_milliseconds lease <=? now_milliseconds)
     || bool_decide (le_lease_id lease ∈ en_consumed_leases self)
     || bool_decide ((en_steps self !! le_step_id lease ≫= sr_active_lease_id) <> Some (le_lease_id lease))
  then Err WfInvalidLease else Ok tt.

(** The runtime of a step whose lease was used. *)
Definition finish_runtime (state : WorkflowStepState) (evidence_sha256 : str) (self : WorkflowStepRuntime)
    : WorkflowStepRuntime :=
  {| sr_step_id := sr_step_id self; sr_state := state; sr_attempts := sr_attempts self;
     sr_active_lease_id := None; sr_evidence_sha256 := Some evidence_sha256 |}.

Section Engine.
Context {S : Sha256Lib} {JA : JsonLib (HashMaterial WorkflowAuditEvent)}.

Definition engine_new (definition : WorkflowDefinition) (audit_genesis : str)
    : Result WorkflowEngine WorkflowError :=
  let? audit := workflow_audit_new audit_genesis in
  Ok {| en_definition := definition; en_state := WsCreated;
        en_steps := map_imap (fun step_id _ => Some (runtime_new step_id)) (wd_steps definition);
        en_compensation_targets := compensation_targets_of (wd_steps definition);
        en_consumed_leases := ∅; en_next_lease_sequence := 1; en_audit := audit |}.

Definition engine_audit (action subject_id outcome : str) (metadata : gmap str str) (self : WorkflowEngine)
    : Result unit WorkflowError * WorkflowEngine :=
  let '(result, audit) := workflow_audit_append
    {| wa_action := action; wa_subject_id := subject_id; wa_outcome := outcome; wa_metadata := metadata |}
    (en_audit self) in
  (let? _ := result in Ok tt, with_engine_audit audit self).

Definition record_state (action outcome : str) (self : WorkflowEngine)
    : Result unit WorkflowError * WorkflowEngine :=
  engine_audit action (wd_workflow_id (en_definition self)) outcome ∅ self.

Definition advance_terminal_state (self : WorkflowEngine) : Run (Result unit WorkflowError * WorkflowEngine) :=
  match en_state self with
  | WsRunning =>
      let all_normal_succeeded :=
        forallb (fun '(step_id, runtime) =>
            bool_decide (step_id ∈ en_compensation_targets self)
            || bool_decide (sr_state runtime = Succeeded)) (map_iter (en_steps self)) in
      Done (if all_normal_succeeded
            then record_state "workflow_completed" "completed" (with_engine_state WsCompleted self)
            else (Ok tt, self))
  | WsCancelling =>
      let! compensation_outstanding :=
        any_run (fun step_id =>
            let! runtime := index_map (en_steps self) step_id in
            Done (bool_decide (sr_state runtime = Compensating) || bool_decide (sr_state runtime = Leased)))
          (btree_iter (en_compensation_targets self)) in
      Done (if negb compensation_outstanding
            then record_state "workflow_cancelled" "compensated_and_stopped" (with_engine_state WsFailed self)
            else (Ok tt, self))
  | _ => Done (Ok tt, self)
  end.

Definition engine_start (self : WorkflowEngine) : Result unit WorkflowError * WorkflowEngine :=
  if bool_decide (en_state self <> WsCreated) then (Err InvalidWorkflowState, self)
  else record_state "workflow_started" "running" (with_engine_state WsRunning self).

Definition engine_pause (self : WorkflowEngine) : Result unit WorkflowError * WorkflowEngine :=
  if bool_decide (en_state self <> WsRunning) || any_leased self then (Err InvalidWorkflowState, self)
  else record_state "workflow_paused" "paused" (with_engine_state WsPaused self).

Definition engine_resume (self : WorkflowEngine) : Result unit WorkflowError * WorkflowEngine :=
  if bool_decide (en_state self <> WsPaused) then (Err InvalidWorkflowState, self)
  else record_state "workflow_resumed" "running" (with_engine_state WsRunning self).

Definition engine_cancel (self : WorkflowEngine) : Run (Result unit WorkflowError * WorkflowEngine) :=
  if negb (bool_decide (en_state self = WsRunning) || bool_decide (en_state self = WsPaused))
     || any_leased self
  then Done (Err InvalidWorkflowState, self)
  else
    let! ids := compensations_to_start self (map_iter (en_steps self)) in
    let! steps := start_compensations ids
      (map_imap (fun step_id runtime => Some (skip_pending (en_compensation_targets self) step_id runtime))
         (en_steps self)) in
    match record_state "workflow_cancel_requested" "cancelling"
            (with_engine_steps steps (with_engine_state WsCancelling self)) with
    | (Err e, self) => Done (Err e, self)
    | (Ok _, self) => advance_terminal_state self
    end.

Definition engine_emergency_stop (self : WorkflowEngine) : Result unit WorkflowError * WorkflowEngine :=
  if workflow_is_terminal (en_state self) then (Err InvalidWorkflowState, self)
  else record_state "workflow_emergency_stopped" "emergency_stopped"
         (with_engine_steps (stop_runtime <$> en_steps self) (with_engine_state WsEmergencyStopped self)).

(** The part of [lease_next] after a step is selected. The step is marked before
    the expiry is computed. *)
Definition issue_lease (worker_id : str) (now_milliseconds lease_duration_milliseconds : N) (step_id : str)
    (compensation : bool) (self : WorkflowEngine)
    : Run (Result (option WorkflowLease) WorkflowError * WorkflowEngine) :=
  let! runtime := expect (en_steps self !! step_id) "selected workflow step" in
  if MAX_STEP_ATTEMPTS <=? sr_attempts runtime then Done (Err StepNotReady, self)
  else
    let lease_id := ("workflow-lease-" : str) ++ decimal020 (en_next_lease_sequence self) in
    let attempt := N.min (sr_attempts runtime + 1) u8_max in
    let self :=
      {| en_definition := en_definition self; en_state := en_state self;
         en_steps := <[step_id := {| sr_step_id := sr_step_id runtime; sr_state := Leased;
           sr_attempts := attempt; sr_active_lease_id := Some lease_id;
           sr_evidence_sha256 := sr_evidence_sha256 runtime |}]> (en_steps self);
         en_compensation_targets := en_compensation_targets self;
         en_consumed_leases := en_consumed_leases self;
         en_next_lease_sequence := saturating_add (en_next_lease_sequence self) 1;
         en_audit := en_audit self |} in
    match checked_add now_milliseconds lease_duration_milliseconds with
    | None => Done (Err WfInvalidLease, self)
    | Some expires_at_milliseconds =>
        let lease :=
          {| le_lease_id := lease_id; le_workflow_id := wd_workflow_id (en_definition self);
             le_definition_sha256 := wd_definition_sha256 (en_definition self); le_step_id := step_id;
             le_worker_id := worker_id; le_attempt := attempt;
             le_issued_at_milliseconds := now_milliseconds;
             le_expires_at_milliseconds := expires_at_milliseconds; le_compensation := compensation |} in
        let '(result, self) := engine_audit "workflow_step_leased" step_id
          (if compensation then "compensation_leased" else "leased") {[ ("lease_id" : str) := lease_id ]} self in
        Done (let? _ := result in Ok (Some lease), self)
    end.

Definition lease_next (worker_id : str) (now_milliseconds lease_duration_milliseconds : N)
    (self : WorkflowEngine) : Run (Result (option WorkflowLease) WorkflowError * WorkflowEngine) :=
  if negb (bool_decide (en_state self = WsRunning) || bool_decide (en_state self = WsCancelling))
     || (lease_duration_milliseconds =? 0) || (60000 <? lease_duration_milliseconds)
  then Done (Err InvalidWorkflowState, self)
  else match workflow_validate_identifier worker_id "worker_id" with
  | Err e => Done (Err e, self)
  | Ok _ =>
      let! selected := select_step self (wd_topological_order (en_definition self)) in
      match selected with
      | None =>
          let! (result, self) := advance_terminal_state self in
          Done (let? _ := result in Ok None, self)
      | Some (step_id, compensation) =>
          issue_lease worker_id now_milliseconds lease_duration_milliseconds step_id compensation self
      end
  end.

Definition step_receipt (lease : WorkflowLease) (final_state : WorkflowStepState) (evidence_sha256 : str)
    (self : WorkflowEngine) : WorkflowStepReceipt :=
  {| re_lease_id := le_lease_id lease; re_step_id := le_step_id lease; re_final_state := final_state;
     re_evidence_sha256 := evidence_sha256; re_workflow_state := en_state self;
     re_audit_tail_hash := tail_hash (en_audit self) |}.

Definition engine_complete (lease : WorkflowLease) (now_milliseconds : N) (evidence_sha256 : str)
    (self : WorkflowEngine) : Run (Result WorkflowStepReceipt WorkflowError * WorkflowEngine) :=
  match (let? _ := workflow_validate_sha256 evidence_sha256 "workflow step evidence" in
         validate_lease self lease now_milliseconds) with
  | Err e => Done (Err e, self)
  | Ok _ =>
      match en_steps self !! le_step_id lease with
      | None => Done (Err WfInvalidLease, self)
      | Some runtime =>
          let final_state := if le_compensation lease then Compensated else Succeeded in
          let '(recorded, self) :=
            engine_audit "workflow_step_completed" (le_step_id lease) (step_state_name final_state)
              {[ ("evidence_sha256" : str) := evidence_sha256 ]}
              (with_consumed (le_lease_id lease)
                (with_engine_steps
                  (<[le_step_id lease := finish_runtime final_state evidence_sha256 runtime]>
                     (en_steps self)) self)) in
          match recorded with
          | Err e => Done (Err e, self)
          | Ok _ =>
              let! (advanced, self) := advance_terminal_state self in
              Done (let? _ := advanced in Ok (step_receipt lease final_state evidence_sha256 self), self)
          end
      end
  end.

(** What a failed step does to the workflow. *)
Definition fail_workflow (lease : WorkflowLease) (self : WorkflowEngine) : Run WorkflowEngine :=
  if le_compensation lease then Done (with_engine_state WsFailed self)
  else
    let! step := index_map (wd_steps (en_definition self)) (le_step_id lease) in
    match ws_compensation_step_id step with
    | None => Done (with_engine_state WsFailed self)
    | Some compensation_step_id =>
        let! runtime := expect (en_steps self !! compensation_step_id) "compensation runtime" in
        Done (with_engine_steps
          (<[compensation_step_id := with_runtime_state Compensating runtime]> (en_steps self))
          (with_engine_state WsCancelling self))
    end.

Definition engine_fail (lease : WorkflowLease) (now_milliseconds : N) (evidence_sha256 : str)
    (self : WorkflowEngine) : Run (Result WorkflowStepReceipt WorkflowError * WorkflowEngine) :=
  match (let? _ := workflow_validate_sha256 evidence_sha256 "workflow failure evidence" in
         validate_lease self lease now_milliseconds) with
  | Err e => Done (Err e, self)
  | Ok _ =>
      match en_steps self !! le_step_id lease with
      | None => Done (Err WfInvalidLease, self)
      | Some runtime =>
          let! self := fail_workflow lease
            (with_consumed (le_lease_id lease)
              (with_engine_steps
                (<[le_step_id lease := finish_runtime StepFailed evidence_sha256 runtime]>
                   (en_steps self)) self)) in
          let '(recorded, self) :=
            engine_audit "workflow_step_failed" (le_step_id lease) "failed"
              {[ ("evidence_sha256" : str) := evidence_sha256 ]} self in
          Done (let? _ := recorded in Ok (step_receipt lease StepFailed evidence_sha256 self), self)
      end
  end.

Definition step_runtime (step_id : str) (self : WorkflowEngine) : option WorkflowStepRuntime :=
  en_steps self !! step_id.

End Engine.

(** ** Oracle quorum *)

Definition vote_validate (self : OracleVote) : Result unit WorkflowError :=
  let? _ := workflow_validate_identifier (ov_oracle_id self) "oracle_id" in
  let? _ := workflow_validate_sha256 (ov_evidence_sha256 self) "oracle evidence" in
  let? _ := workflow_validate_sha256 (ov_policy_snapshot_sha256 self) "oracle policy snapshot" in
  let? _ := workflow_validate_sha256 (ov_validation_audit_tail_hash self) "oracle validation audit tail" in
  let? _ :=
    match ov_repeatable_delta_sha256 self with
    | Some delta => workflow_validate_sha256 delta "oracle repeatable delta"
    | None => Ok tt
    end in
  match ov_decision self, ov_repeatable_delta_sha256 self with
  | Confirmed, None => Err InvalidOracleQuorum
  | _, _ => Ok tt
  end.

Definition coordinator_new (coordinator_id : str) (required_votes maximum_votes : N)
    : Result OracleCoordinator WorkflowError :=
  let? _ := workflow_validate_identifier coordinator_id "coordinator_id" in
  if (required_votes =? 0) || (maximum_votes <? required_votes) || (MAX_ORACLE_VOTES <? maximum_votes)
  then Err InvalidOracleQuorum
  else Ok {| oc_coordinator_id := coordinator_id; oc_required_votes := required_votes;
             oc_maximum_votes := maximum_votes |}.

(** The locals of the loop over the votes. *)
Record Tally : Type := {
  ta_oracle_ids : gset str;
  ta_confirmed : N;
  ta_rejected : N;
  ta_inconclusive : N;
  ta_deltas : gset str
}.

Definition empty_tally : Tally :=
  {| ta_oracle_ids := ∅; ta_confirmed := 0; ta_rejected := 0; ta_inconclusive := 0; ta_deltas := ∅ |}.

Definition count_vote (policy_snapshot_sha256 : str) (vote : OracleVote) (t : Tally)
    : Result Tally WorkflowError :=
  let? _ := vote_validate vote in
  if bool_decide (ov_policy_snapshot_sha256 vote <> policy_snapshot_sha256)
     || bool_decide (ov_oracle_id vote ∈ ta_oracle_ids t)
  then Err InvalidOracleQuorum
  else
    let oracle_ids := {[ ov_oracle_id vote ]} ∪ ta_oracle_ids t in
    match ov_decision vote with
    | Confirmed =>
        match ov_repeatable_delta_sha256 vote with
        | None => Err InvalidOracleQuorum
        | Some delta =>
            Ok {| ta_oracle_ids := oracle_ids; ta_confirmed := ta_confirmed t + 1;
                  ta_rejected := ta_rejected t; ta_inconclusive := ta_inconclusive t;
                  ta_deltas := {[ delta ]} ∪ ta_deltas t |}
        end
    | Rejected =>
        Ok {| ta_oracle_ids := oracle_ids; ta_confirmed := ta_confirmed t;
              ta_rejected := ta_rejected t + 1; ta_inconclusive := ta_inconclusive t;
              ta_deltas := ta_deltas t |}
    | Inconclusive =>
        Ok {| ta_oracle_ids := oracle_ids; ta_confirmed := ta_confirmed t;
              ta_rejected := ta_rejected t; ta_inconclusive := ta_inconclusive t + 1;
              ta_deltas := ta_deltas t |}
    end.

Fixpoint count_votes (policy_snapshot_sha256 : str) (votes : list OracleVote) (t : Tally)
    : Result Tally WorkflowError :=
  match votes with
  | [] => Ok t
  | vote :: rest =>
      let? t := count_vote policy_snapshot_sha256 vote t in count_votes policy_snapshot_sha256 rest t
  end.

Definition quorum_decision (required_votes : N) (t : Tally) : QuorumDecision :=
  if 1 <? N.of_nat (size (ta_deltas t)) then QDrift
  else if required_votes <=? ta_confirmed t then QConfirmed
  else if required_votes <=? ta_rejected t then QRejected
  else QInconclusive.

Section Closure.
Context {S : Sha256Lib} {JA : JsonLib (HashMaterial WorkflowAuditEvent)} {JQ : JsonLib QuorumMaterial}
  {JR : JsonLib AuditRootsMaterial} {JC : JsonLib CertificateMaterial}.

Definition evaluate_quorum (policy_snapshot_sha256 : str) (votes : list OracleVote) (self : OracleCoordinator)
    : Result OracleQuorumResult WorkflowError :=
  let? _ := workflow_validate_sha256 policy_snapshot_sha256 "quorum policy snapshot" in
  if (len votes <? oc_required_votes self) || (oc_maximum_votes self <? len votes)
  then Err InvalidOracleQuorum
  else
  let? t := count_votes policy_snapshot_sha256 votes empty_tally in
  let decision := quorum_decision (oc_required_votes self) t in
  let consensus := if N.of_nat (size (ta_deltas t)) =? 1 then head (btree_iter (ta_deltas t)) else None in
  let? evidence_sha256 := workflow_hash (oc_coordinator_id self, policy_snapshot_sha256, votes, decision) in
  Ok {| oq_quorum_id := ("quorum-" : str) ++ hash_prefix evidence_sha256; oq_decision := decision;
        oq_vote_count := len votes; oq_confirmed_votes := ta_confirmed t;
        oq_rejected_votes := ta_rejected t; oq_inconclusive_votes := ta_inconclusive t;
        oq_policy_snapshot_sha256 := policy_snapshot_sha256; oq_consensus_delta_sha256 := consensus;
        oq_evidence_sha256 := evidence_sha256 |}.

(** ** Certification *)

Definition authority_new (authority_id audit_genesis : str) : Result RunCertificationAuthority WorkflowError :=
  let? _ := workflow_validate_identifier authority_id "certification authority" in
  let? audit := workflow_audit_new audit_genesis in
  Ok {| ra_authority_id := authority_id; ra_audit := audit |}.

Fixpoint validate_hashes (l : list (str * str)) : Result unit WorkflowError :=
  match l with
  | [] => Ok tt
  | (name, value) :: rest => let? _ := workflow_validate_sha256 value name in validate_hashes rest
  end.

(** The checks of [certify]. *)
Definition certification_checks (input : CertificationInput) : Result unit WorkflowError :=
  let? _ := workflow_validate_identifier (ci_run_id input) "certification run" in
  let? _ := workflow_validate_identifier (ci_workflow_id input) "certification workflow" in
  let? _ := validate_hashes
    [("policy snapshot" : str, ci_policy_snapshot_sha256 input);
     ("workflow definition" : str, ci_workflow_definition_sha256 input);
     ("workflow audit" : str, ci_workflow_audit_tail_hash input);
     ("validation audit" : str, ci_validation_audit_tail_hash input);
     ("knowledge audit" : str, ci_knowledge_audit_tail_hash input);
     ("export manifest" : str, ci_export_manifest_root_sha256 input)] in
  if negb (bool_decide (ci_workflow_state input = WsCompleted))
     || negb (ci_unresolved_cleanup_objects input =? 0)
     || negb (ci_failed_steps input =? 0)
     || negb (ci_all_audits_verified input)
     || ci_policy_drift_detected input
     || bool_decide (oq_policy_snapshot_sha256 (ci_quorum input) <> ci_policy_snapshot_sha256 input)
     || match oq_decision (ci_quorum input) with QInconclusive | QDrift => true | _ => false end
  then Err (CertificationDenied "workflow, cleanup, audit, policy or quorum closure")
  else Ok tt.

Definition certificate_of (self : RunCertificationAuthority) (input : CertificationInput)
    : Result RunCertificate WorkflowError :=
  let? _ := certification_checks input in
  let? audit_roots_sha256 := workflow_hash
    (ci_workflow_audit_tail_hash input, ci_validation_audit_tail_hash input,
     ci_knowledge_audit_tail_hash input) in
  let? certificate_sha256 := workflow_hash
    (ra_authority_id self, ci_run_id input, ci_workflow_id input, ci_policy_snapshot_sha256 input,
     ci_workflow_definition_sha256 input, oq_quorum_id (ci_quorum input),
     oq_decision (ci_quorum input), ci_export_manifest_root_sha256 input, audit_roots_sha256) in
  Ok {| cf_certificate_id := ("run-certificate-" : str) ++ hash_prefix certificate_sha256;
        cf_run_id := ci_run_id input; cf_workflow_id := ci_workflow_id input;
        cf_policy_snapshot_sha256 := ci_policy_snapshot_sha256 input;
        cf_workflow_definition_sha256 := ci_workflow_definition_sha256 input;
        cf_quorum_id := oq_quorum_id (ci_quorum input);
        cf_quorum_decision := oq_decision (ci_quorum input);
        cf_export_manifest_root_sha256 := ci_export_manifest_root_sha256 input;
        cf_audit_roots_sha256 := audit_roots_sha256; cf_certificate_sha256 := certificate_sha256;
        cf_safe_boundary := "networkless_typed_actions_inert_mutations_owned_cleanup_only" |}.

Definition certify (input : CertificationInput) (self : RunCertificationAuthority)
    : Result RunCertificate WorkflowError * RunCertificationAuthority :=
  match certificate_of self input with
  | Err e => (Err e, self)
  | Ok certificate =>
      let '(recorded, audit) := workflow_audit_append
        {| wa_action := "run_certified"; wa_subject_id := ci_run_id input;
           wa_outcome := "closed_with_verified_boundaries";
           wa_metadata := {[ ("certificate_sha256" : str) := cf_certificate_sha256 certificate;
                             ("quorum_id" : str) := oq_quorum_id (ci_quorum input) ]} |}
        (ra_audit self) in
      (let? _ := recorded in Ok certificate,
       {| ra_authority_id := ra_authority_id self; ra_audit := audit |})
  end.

End Closure.
