(* ===== verification/WorkflowOrder.v ===== *)
(** * Workflow: the topological order

    [topological_sort] returns for every set of steps, with an order in which each
    step follows its dependencies whenever there is one. *)

From S2P Require Import Prelude ByteStr BTree HashChain Workflow.

(** An order of all steps in which every step follows its dependencies. *)
Definition valid_order (steps : gmap str WorkflowStep) (order : list str) : Prop :=
  order ≡ₚ elements (dom steps : gset str)
  /\ forall l1 id l2 step, order = l1 ++ id :: l2 -> steps !! id = Some step ->
       forall dependency, dependency ∈ ws_dependencies step -> dependency ∈ l1.

(** ** The tables of the algorithm *)

Definition dependents_at (dependents : gmap str (gset str)) (id : str) : gset str :=
  default ∅ (dependents !! id).

Lemma add_dependent_at step_id dependents dependency id :
  dependents_at (add_dependent step_id dependents dependency) id
  = if bool_decide (dependency = id) then {[ step_id ]} ∪ dependents_at dependents id
    else dependents_at dependents id.
Proof.
  unfold dependents_at, add_dependent. case_bool_decide as E; [subst|].
  - by rewrite lookup_insert_eq.
  - by rewrite lookup_insert_ne.
Qed.

Lemma add_dependents_at step_id ids : forall dependents id y,
  y ∈ dependents_at (fold_left (add_dependent step_id) ids dependents) id <->
  y ∈ dependents_at dependents id \/ (y = step_id /\ id ∈ ids).
Proof.
  induction ids as [|d ids IH]; intros dependents id y; simpl; [set_solver|].
  rewrite IH, add_dependent_at. case_bool_decide; set_solver.
Qed.

Lemma dependents_fold_at entries : forall dependents id y,
  y ∈ dependents_at (fold_left (fun dependents entry =>
      fold_left (add_dependent entry.1) (btree_iter (ws_dependencies entry.2)) dependents)
    entries dependents) id <->
  y ∈ dependents_at dependents id
  \/ exists step, (y, step) ∈ entries /\ id ∈ ws_dependencies step.
Proof.
  induction entries as [|[x step] entries IH]; intros dependents id y; simpl; [set_solver|].
  rewrite IH, add_dependents_at, elem_of_btree_iter. simpl. set_solver.
Qed.

Lemma dependents_of_spec steps id y :
  y ∈ dependents_at (dependents_of steps) id <->
  exists step, steps !! y = Some step /\ id ∈ ws_dependencies step.
Proof.
  unfold dependents_of. rewrite dependents_fold_at. setoid_rewrite elem_of_map_iter.
  unfold dependents_at at 1. rewrite lookup_empty. simpl. set_solver.
Qed.

Lemma pop_first_spec s :
  match pop_first s with
  | None => s = ∅
  | Some (x, s') => x ∈ s /\ s' = s ∖ {[ x ]}
  end.
Proof.
  unfold pop_first. pose proof (elem_of_btree_iter s) as Hs. destruct (btree_iter s) as [|x l].
  - apply set_eq. intros y. rewrite <- Hs. set_solver.
  - split; [|done]. apply Hs. set_solver.
Qed.

Lemma release_spec ids : forall indegree ready,
  NoDup ids -> (forall y, y ∈ ids -> is_Some (indegree !! y)) ->
  exists indegree' ready', release_dependents ids indegree ready = Done (indegree', ready')
    /\ (forall y, indegree' !! y
          = (fun count => if bool_decide (y ∈ ids) then (count - 1)%N else count) <$> indegree !! y)
    /\ (forall y, y ∈ ready' <-> y ∈ ready \/ (y ∈ ids /\ exists count, indegree !! y = Some count /\ (count <= 1)%N)).
Proof.
  induction ids as [|d ids IH]; intros indegree ready Hnd Hin; simpl.
  { exists indegree, ready. split; [done|]. split; [|set_solver].
    intros y. by destruct (indegree !! y). }
  destruct (Hin d ltac:(set_solver)) as [count Hd]. rewrite Hd. simpl.
  inversion Hnd as [|? ? Hnot Hnd']; subst.
  destruct (IH (<[d := (count - 1)%N]> indegree)
    (if (count - 1 =? 0)%N then {[ d ]} ∪ ready else ready) Hnd') as (ind' & ready' & -> & Hi & Hr).
  { intros y Hy. rewrite lookup_insert_ne by (intros ->; done). apply Hin. set_solver. }
  exists ind', ready'. split; [done|]. split.
  - intros y. rewrite Hi. destruct (decide (d = y)) as [<-|Hne].
    + rewrite lookup_insert_eq, Hd. simpl. by rewrite bool_decide_eq_false_2, bool_decide_eq_true_2 by set_solver.
    + rewrite lookup_insert_ne by done. destruct (indegree !! y); simpl; [|done]. f_equal.
      rewrite (bool_decide_ext (y ∈ d :: ids) (y ∈ ids)); [done|]. set_solver.
  - intros y. rewrite Hr. destruct (decide (y = d)) as [->|Hne].
    + rewrite Hd. destruct (N.eqb_spec (count - 1) 0) as [Hz|Hz]; split.
      * intros _. right. split; [set_solver|]. exists count. split; [done|lia].
      * intros _. left. set_solver.
      * intros [?|[? _]]; [by left|done].
      * intros [?|[_ (c & [= <-] & ?)]]; [by left|lia].
    + rewrite lookup_insert_ne by done. destruct (count - 1 =? 0)%N; set_solver.
Qed.

(** ** The loop *)

(** The dependencies of a step that are not in [order]. *)
Definition missing (step : WorkflowStep) (order : list str) : gset str :=
  ws_dependencies step ∖ list_to_set order.

Record topo_inv (steps : gmap str WorkflowStep) (indegree : gmap str N) (ready : gset str)
    (order : list str) : Prop := {
  ti_nodup : NoDup order;
  ti_known : forall id, id ∈ order -> is_Some (steps !! id);
  ti_degree : forall id, indegree !! id = (fun step => N.of_nat (size (missing step order))) <$> steps !! id;
  ti_ready : forall id, id ∈ ready <->
    (id ∉ order) /\ exists step, steps !! id = Some step /\ missing step order = ∅;
  ti_before : forall l1 id l2 step, order = l1 ++ id :: l2 -> steps !! id = Some step ->
    forall dependency, dependency ∈ ws_dependencies step -> dependency ∈ l1
}.

Lemma missing_nil step : missing step [] = ws_dependencies step.
Proof. unfold missing. set_solver. Qed.

Lemma topo_inv_start steps :
  topo_inv steps (indegree_of steps) (initially_ready (indegree_of steps)) [].
Proof.
  constructor.
  - constructor.
  - set_solver.
  - intros id. unfold indegree_of. rewrite lookup_fmap. destruct (steps !! id); simpl; [|done].
    by rewrite missing_nil.
  - intros id. unfold initially_ready, indegree_of. rewrite elem_of_dom. unfold is_Some.
    setoid_rewrite map_lookup_filter_Some. setoid_rewrite lookup_fmap_Some. simpl. split.
    + intros (n & (step & <- & Hs) & Hz). split; [set_solver|]. exists step. split; [done|].
      rewrite missing_nil. apply leibniz_equiv, size_empty_iff. lia.
    + intros (_ & step & Hs & He). exists 0%N. split; [|done]. exists step. split; [|done].
      rewrite missing_nil in He. rewrite He, size_empty. done.
  - intros l1 id l2 step E. by destruct l1.
Qed.

Lemma missing_snoc step order x :
  missing step (order ++ [x]) = missing step order ∖ {[ x ]}.
Proof. unfold missing. rewrite list_to_set_app_L. set_solver. Qed.

Lemma topo_inv_room steps indegree ready order x :
  topo_inv steps indegree ready order -> x ∈ ready -> length order < size steps.
Proof.
  intros Hi Hx. apply (ti_ready _ _ _ _ Hi) in Hx as (Hn & step & Hs & _).
  assert (length (x :: order) <= size steps); [|simpl in *; lia].
  rewrite <- size_dom. unfold size, set_size. simpl.
  apply (submseteq_length (x :: order)). apply NoDup_submseteq.
  - constructor; [done|apply Hi].
  - intros y [->|Hy]%elem_of_cons; rewrite elem_of_elements, elem_of_dom; [eauto|].
    by apply (ti_known _ _ _ _ Hi).
Qed.

Lemma topo_step steps indegree ready order x :
  topo_inv steps indegree ready order -> x ∈ ready ->
  exists indegree' ready',
    release_dependents (btree_iter (dependents_at (dependents_of steps) x)) indegree (ready ∖ {[ x ]})
      = Done (indegree', ready')
    /\ topo_inv steps indegree' ready' (order ++ [x]).
Proof.
  intros Hi Hx. pose proof (proj1 (ti_ready _ _ _ _ Hi x) Hx) as (Hxo & sx & Hsx & Hmx).
  destruct (release_spec (btree_iter (dependents_at (dependents_of steps) x)) indegree (ready ∖ {[ x ]}))
    as (ind' & ready' & E & Hind & Hready).
  { unfold btree_iter. rewrite merge_sort_Permutation. apply NoDup_elements. }
  { intros y. rewrite elem_of_btree_iter, dependents_of_spec. intros (step & Hs & _).
    rewrite (ti_degree _ _ _ _ Hi), Hs. by eexists. }
  exists ind', ready'. split; [exact E|].
  assert (forall y step, steps !! y = Some step ->
    (y ∈ btree_iter (dependents_at (dependents_of steps) x) <-> x ∈ missing step order)) as Hdep.
  { intros y step Hs. rewrite elem_of_btree_iter, dependents_of_spec. unfold missing.
    split; [intros (s & Hs' & Hin); simplify_eq; set_solver|]. intros Hin. exists step. set_solver. }
  constructor.
  - apply NoDup_app. split; [apply Hi|]. split; [set_solver|apply NoDup_singleton].
  - intros y [Hy|Hy%list_elem_of_singleton]%elem_of_app; [by apply Hi|]. subst. eauto.
  - intros y. rewrite Hind, (ti_degree _ _ _ _ Hi). destruct (steps !! y) as [step|] eqn:Hs; simpl; [|done].
    f_equal. rewrite missing_snoc. destruct (decide (x ∈ missing step order)) as [Hin|Hin].
    + rewrite bool_decide_eq_true_2 by (by apply (Hdep y step Hs)).
      rewrite size_difference by set_solver. rewrite size_singleton. lia.
    + rewrite bool_decide_eq_false_2 by (by rewrite (Hdep y step Hs)). do 2 f_equal. set_solver.
  - intros y. rewrite Hready. rewrite elem_of_difference, (ti_ready _ _ _ _ Hi y), not_elem_of_singleton.
    rewrite (ti_degree _ _ _ _ Hi y). split.
    + intros [[[Hyo (s & Hs & Hm)] Hne]|[Hyd (c & Hc & Hle)]].
      * split; [set_solver|]. exists s. split; [done|]. rewrite missing_snoc, Hm. set_solver.
      * destruct (steps !! y) as [step|] eqn:Hs; simplify_eq/=. apply (Hdep y step Hs) in Hyd. split.
        -- intros [Hin|Hin%list_elem_of_singleton]%elem_of_app; [|subst; simplify_eq; set_solver].
           apply list_elem_of_split in Hin as (l1 & l2 & ->).
           assert (x ∈ l1) by (eapply (ti_before _ _ _ _ Hi l1 y l2 step); [done..|unfold missing in Hyd; set_solver]).
           set_solver.
        -- exists step. split; [done|]. rewrite missing_snoc.
           assert (size (missing step order) = 1) as E1.
           { assert (size (missing step order) <> 0); [|lia]. intros Hz. apply size_empty_iff in Hz. set_solver. }
           apply size_1_elem_of in E1 as [z Hz%leibniz_equiv]. rewrite Hz in Hyd |- *.
           apply elem_of_singleton in Hyd as ->. set_solver.
    + intros [Hyo (s & Hs & Hm)]. rewrite Hs. simpl. rewrite missing_snoc in Hm.
      destruct (decide (x ∈ missing s order)) as [Hin|Hin].
      * right. split; [by apply (Hdep y s Hs)|]. eexists. split; [done|].
        assert (missing s order ⊆ {[ x ]}) as Hsub by (intros z Hz; destruct (decide (z = x)); set_solver).
        apply subseteq_size in Hsub. rewrite size_singleton in Hsub. lia.
      * left. split; [|set_solver]. split; [set_solver|]. exists s. split; [done|]. set_solver.
  - intros l1 id l2 step Eo Hs d Hd. destruct l2 as [|z l2 _] using rev_ind.
    + apply app_inj_tail in Eo as [<- <-]. assert (step = sx) as -> by congruence.
      unfold missing in Hmx.
      destruct (decide (d ∈ order)); [done|]. exfalso.
      assert (d ∈ ws_dependencies sx ∖ list_to_set order) as Hin by set_solver.
      rewrite Hmx in Hin. set_solver.
    + rewrite app_comm_cons, app_assoc in Eo. apply app_inj_tail in Eo as [-> _].
      by eapply (ti_before _ _ _ _ Hi l1 id l2 step).
Qed.

Lemma topological_loop_spec steps fuel : forall indegree ready order,
  topo_inv steps indegree ready order -> size steps <= fuel + length order ->
  exists indegree' order', topological_loop fuel (dependents_of steps) indegree ready order = Done order'
    /\ topo_inv steps indegree' ∅ order'.
Proof.
  induction fuel as [|fuel IH]; intros indegree ready order Hi Hf; simpl;
    pose proof (pop_first_spec ready) as Hp; destruct (pop_first ready) as [[x ready1]|];
    try (subst; by eauto).
  - destruct Hp as [Hx _]. pose proof (topo_inv_room _ _ _ _ _ Hi Hx). lia.
  - destruct Hp as [Hx ->]. destruct (topo_step _ _ _ _ _ Hi Hx) as (ind' & ready' & E & Hi').
    unfold dependents_at in E. rewrite E. apply (IH _ _ _ Hi'). rewrite length_app. simpl. lia.
Qed.

(** A step that never became ready lacks a dependency that never did. *)
Lemma stuck_step steps indegree order id step :
  topo_inv steps indegree ∅ order -> steps !! id = Some step -> id ∉ order ->
  exists dependency, dependency ∈ ws_dependencies step /\ dependency ∉ order.
Proof.
  intros Hi Hs Hn. destruct (decide (missing step order = ∅)) as [He|He].
  - assert (id ∈ (∅ : gset str)) by (apply (ti_ready _ _ _ _ Hi); eauto). set_solver.
  - apply set_choose_L in He as [d Hd]. unfold missing in Hd. exists d. set_solver.
Qed.

(** A valid order has no element outside the steps the algorithm ordered. *)
Lemma valid_order_covered steps indegree order other :
  topo_inv steps indegree ∅ order -> valid_order steps other -> forall id, id ∈ other -> id ∈ order.
Proof.
  intros Hi [Hp Hb]. assert (forall l1 l2, other = l1 ++ l2 -> forall id, id ∈ l1 -> id ∈ order) as Hall.
  2: { intros id. apply (Hall other []). by rewrite app_nil_r. }
  induction l1 as [|x l1 IH] using rev_ind; intros l2 E id Hid; [set_solver|].
  rewrite <- app_assoc in E. simpl in E.
  apply elem_of_app in Hid as [Hid| ->%list_elem_of_singleton]; [by apply (IH _ E)|].
  destruct (decide (x ∈ order)) as [|Hn]; [done|]. exfalso.
  assert (x ∈ elements (dom steps : gset str)) as Hx by (rewrite <- Hp, E; set_solver).
  apply elem_of_elements, elem_of_dom in Hx as [step Hs].
  destruct (stuck_step _ _ _ _ _ Hi Hs Hn) as (d & Hd & Hnd). apply Hnd, (IH _ E).
  by eapply Hb.
Qed.

Lemma covers_length steps indegree ready order :
  topo_inv steps indegree ready order ->
  length order = size steps <-> order ≡ₚ elements (dom steps : gset str).
Proof.
  intros Hi. rewrite <- size_dom. unfold size, set_size. simpl. split; [|by intros ->].
  intros Hl. apply submseteq_length_Permutation; [|lia]. apply NoDup_submseteq; [apply Hi|].
  intros y Hy. rewrite elem_of_elements, elem_of_dom. by apply Hi.
Qed.

Lemma topological_sort_spec (steps : gmap str WorkflowStep) :
  exists result, topological_sort steps = Done result
    /\ match result with
       | Ok order => valid_order steps order
       | Err e => e = InvalidWorkflow "workflow dependency cycle" /\ forall order, ~ valid_order steps order
       end.
Proof.
  unfold topological_sort.
  destruct (topological_loop_spec steps (size steps) _ _ _ (topo_inv_start steps)) as (ind & order & -> & Hi);
    [lia|].
  eexists. split; [done|]. unfold len. destruct (N.eqb_spec (N.of_nat (length order)) (N.of_nat (size steps)))
    as [E|E]; simpl.
  - split; [apply (covers_length _ _ _ _ Hi); lia|]. apply Hi.
  - split; [done|]. intros other Hv. apply E. f_equal. apply (covers_length _ _ _ _ Hi).
    apply NoDup_Permutation; [apply Hi|apply NoDup_elements|]. intros y. split.
    + intros Hy. rewrite elem_of_elements, elem_of_dom. by apply Hi.
    + intros Hy. apply (valid_order_covered _ _ _ _ Hi Hv). by rewrite (proj1 Hv).
Qed.

(** ** Property *)

(** C34: [topological_sort] returns for every set of steps, without a panic: when
    the steps can be ordered so that each follows its dependencies it returns such
    an order of exactly these steps, and it reports a dependency cycle only when no
    such order exists. *)
Theorem topological_sort_finds_order (steps : gmap str WorkflowStep) :
  exists result, topological_sort steps = Done result
    /\ match result with
       | Ok order => valid_order steps order
       | Err e => e = InvalidWorkflow "workflow dependency cycle" /\ forall order, ~ valid_order steps order
       end.
Proof. apply topological_sort_spec. Qed.
