(* ===== verification/WorkflowGraph.v ===== *)
(** * Workflow: risk chains of the capability graph

    The indexes of the graph stay consistent, and the breadth-first search finds a
    shortest chain of eligible nodes joined by non-compensating edges whenever there
    is one within the depth limit; the edges it reports are characterised too. *)

From S2P Require Import Prelude ByteStr BTree HashChain Workflow.
Local Open Scope N_scope.

(** ** The graph's invariant *)

Record graph_ok (g : CapabilityGraph) : Prop := {
  go_nodes : forall id node, cg_nodes g !! id = Some node -> cn_node_id node = id;
  go_edges : forall id edge, cg_edges g !! id = Some edge ->
    ce_edge_id edge = id /\ is_Some (cg_nodes g !! ce_from_node_id edge)
    /\ is_Some (cg_nodes g !! ce_to_node_id edge);
  go_outgoing : forall node_id id, id ∈ outgoing_ids g node_id <->
    exists edge, cg_edges g !! id = Some edge /\ ce_from_node_id edge = node_id
}.

Lemma outgoing_ids_elem g node_id id :
  id ∈ outgoing_ids g node_id <-> id ∈ default ∅ (cg_outgoing g !! node_id).
Proof.
  unfold outgoing_ids. destruct (cg_outgoing g !! node_id) as [ids|]; simpl; [apply elem_of_btree_iter|set_solver].
Qed.

Lemma outgoing_ids_NoDup g node_id : NoDup (outgoing_ids g node_id).
Proof.
  unfold outgoing_ids. destruct (cg_outgoing g !! node_id); [|constructor].
  unfold btree_iter. rewrite merge_sort_Permutation. apply NoDup_elements.
Qed.

Lemma outgoing_ids_length g node_id :
  graph_ok g -> (length (outgoing_ids g node_id) <= size (cg_edges g))%nat.
Proof.
  intros Hg. rewrite <- size_dom. unfold size, set_size. simpl. apply submseteq_length, NoDup_submseteq.
  - apply outgoing_ids_NoDup.
  - intros id Hid. apply (go_outgoing g Hg) in Hid as (e & He & _).
    rewrite elem_of_elements, elem_of_dom. eauto.
Qed.

Section Operations.
Context {S : Sha256Lib} {JA : JsonLib (HashMaterial WorkflowAuditEvent)}.

Lemma graph_new_ok policy genesis g : graph_new policy genesis = Ok g -> graph_ok g.
Proof.
  unfold graph_new. intros Hn. inv_ok Hn. constructor; simpl; try done.
  intros node_id id. rewrite outgoing_ids_elem. simpl. rewrite lookup_empty. set_solver.
Qed.

Lemma add_node_spec node g r g' :
  add_node node g = (r, g') -> g' = g \/
  exists audit, cg_nodes g !! cn_node_id node = None
    /\ g' = {| cg_policy_snapshot_sha256 := cg_policy_snapshot_sha256 g;
               cg_nodes := <[cn_node_id node := node]> (cg_nodes g); cg_edges := cg_edges g;
               cg_outgoing := cg_outgoing g; cg_audit := audit |}.
Proof.
  unfold add_node. intros Ha. repeat step_in Ha; simplify_eq; auto; right; bools; eexists;
    (split; [by apply eq_None_not_Some|done]).
Qed.

Lemma add_edge_spec edge g r g' :
  add_edge edge g = (r, g') -> g' = g \/
  exists audit, cg_edges g !! ce_edge_id edge = None
    /\ is_Some (cg_nodes g !! ce_from_node_id edge) /\ is_Some (cg_nodes g !! ce_to_node_id edge)
    /\ g' = {| cg_policy_snapshot_sha256 := cg_policy_snapshot_sha256 g; cg_nodes := cg_nodes g;
               cg_edges := <[ce_edge_id edge := edge]> (cg_edges g);
               cg_outgoing := <[ce_from_node_id edge := {[ ce_edge_id edge ]}
                 ∪ default ∅ (cg_outgoing g !! ce_from_node_id edge)]> (cg_outgoing g);
               cg_audit := audit |}.
Proof.
  unfold add_edge. intros Ha. repeat step_in Ha; simplify_eq; auto; right; bools; eexists;
    (split; [by apply eq_None_not_Some|done]).
Qed.

Lemma add_node_ok node g r g' : graph_ok g -> add_node node g = (r, g') -> graph_ok g'.
Proof.
  intros Hg [->|(audit & Hnew & ->)]%add_node_spec; [done|]. constructor; simpl.
  - intros id n. rewrite lookup_insert_Some. intros [[<- <-]|[_ Hn]]; [done|]. by apply Hg.
  - intros id e He. destruct (go_edges g Hg id e He) as (? & ? & ?). split; [done|].
    rewrite !lookup_insert_is_Some'. auto.
  - intros node_id id. apply (go_outgoing g Hg).
Qed.

Lemma add_edge_ok edge g r g' : graph_ok g -> add_edge edge g = (r, g') -> graph_ok g'.
Proof.
  intros Hg [->|(audit & Hnew & Hfrom & Hto & ->)]%add_edge_spec; [done|].
  constructor; simpl; [apply Hg| |].
  - intros id e. rewrite lookup_insert_Some. intros [[<- <-]|[_ He]]; [done|]. by apply Hg.
  - intros node_id id. rewrite outgoing_ids_elem. simpl.
    pose proof (go_outgoing g Hg node_id id) as Ho. rewrite outgoing_ids_elem in Ho.
    setoid_rewrite lookup_insert_Some.
    destruct (decide (ce_from_node_id edge = node_id)) as [<-|Hne].
    + rewrite lookup_insert_eq. simpl. rewrite elem_of_union, elem_of_singleton, Ho. split.
      * intros [->|(e & He & Hf)]; [eauto|]. exists e. split; [right; split; [congruence|done]|done].
      * intros (e & [[<- <-]|[_ He]] & Hf); [by left|]. right. eauto.
    + rewrite lookup_insert_ne by done. rewrite Ho. split.
      * intros (e & He & Hf). exists e. split; [right; split; [congruence|done]|done].
      * intros (e & [[<- <-]|[_ He]] & Hf); [done|]. eauto.
Qed.
End Operations.

(** ** Chains *)

(** An edge a chain may use. *)
Definition chain_edge (g : CapabilityGraph) (a b : str) : Prop :=
  exists id edge, cg_edges g !! id = Some edge /\ ce_from_node_id edge = a /\ ce_to_node_id edge = b
    /\ ce_kind edge <> Compensates.

Definition chain_node (g : CapabilityGraph) (id : str) : Prop :=
  exists node, cg_nodes g !! id = Some node /\ is_chain_eligible node = true.

(** Consecutive nodes are joined by chain edges. *)
Fixpoint edges_joined (g : CapabilityGraph) (path : list str) : Prop :=
  match path with
  | a :: (b :: _) as rest => chain_edge g a b /\ edges_joined g rest
  | _ => True
  end.

(** A chain from [start]: eligible nodes, none twice, joined by chain edges. *)
Record chain_from (g : CapabilityGraph) (start : str) (path : list str) : Prop := {
  cf_head : head path = Some start;
  cf_nodup : NoDup path;
  cf_nodes : Forall (chain_node g) path;
  cf_joined : edges_joined g path
}.

Lemma edges_joined_snoc g path a b :
  last path = Some a -> edges_joined g (path ++ [b]) <-> edges_joined g path /\ chain_edge g a b.
Proof.
  induction path as [|x path IH]; [done|]. destruct path as [|y path]; intros Hl.
  - simpl in *. simplify_eq. tauto.
  - rewrite last_cons_cons in Hl. simpl in *. rewrite IH by done. tauto.
Qed.

Lemma edges_joined_app_l g p q : edges_joined g (p ++ q) -> edges_joined g p.
Proof.
  induction p as [|x p IH]; [done|]. destruct p as [|y p]; [done|]. simpl in *. tauto.
Qed.

Lemma chain_from_start g start : chain_node g start -> chain_from g start [start].
Proof. intros Hn. constructor; simpl; auto using NoDup_singleton. Qed.

Lemma chain_from_snoc g start path a b :
  last path = Some a ->
  chain_from g start (path ++ [b]) <->
  chain_from g start path /\ chain_edge g a b /\ chain_node g b /\ (b ∉ path).
Proof.
  intros Hl. split.
  - intros [Hh Hn Hf Hj]. apply NoDup_app in Hn as (Hn & Hd & _). apply Forall_app in Hf as [Hf Hb].
    apply (edges_joined_snoc g path a b Hl) in Hj as [Hj He].
    split; [|split; [done|split; [by inversion Hb|set_solver]]].
    constructor; try done. by destruct path.
  - intros ([Hh Hn Hf Hj] & He & Hb & Hnb). constructor.
    + by destruct path.
    + apply NoDup_app. split; [done|]. split; [set_solver|apply NoDup_singleton].
    + apply Forall_app. auto.
    + by apply (edges_joined_snoc g path a b Hl).
Qed.

Lemma chain_from_prefix g start p q :
  p <> [] -> chain_from g start (p ++ q) -> chain_from g start p.
Proof.
  intros Hp [Hh Hn Hf Hj]. constructor.
  - by destruct p.
  - by apply NoDup_app in Hn as (? & _).
  - by apply Forall_app in Hf as [? _].
  - by eapply edges_joined_app_l.
Qed.

(** ** One round of the search *)

Lemma extend_path_spec g path ids :
  graph_ok g -> (forall id, id ∈ ids -> is_Some (cg_edges g !! id)) ->
  exists paths, extend_path g path ids = Done paths
    /\ (length paths <= length ids)%nat
    /\ forall q, q ∈ paths <->
         exists id edge, id ∈ ids /\ cg_edges g !! id = Some edge /\ ce_kind edge <> Compensates
           /\ (ce_to_node_id edge ∉ path) /\ chain_node g (ce_to_node_id edge)
           /\ q = path ++ [ce_to_node_id edge].
Proof.
  intros Hg. induction ids as [|id ids IH]; intros Hids; simpl.
  { exists []. split; [done|]. split; [done|]. set_solver. }
  destruct (Hids id ltac:(set_solver)) as [edge He]. rewrite He. simpl.
  destruct IH as (paths & Hp & Hlen & Hq); [set_solver|]. rewrite Hp.
  assert (forall q, q ∈ paths -> exists id0 e0, id0 ∈ id :: ids /\ cg_edges g !! id0 = Some e0
    /\ ce_kind e0 <> Compensates /\ (ce_to_node_id e0 ∉ path) /\ chain_node g (ce_to_node_id e0)
    /\ q = path ++ [ce_to_node_id e0]) as Hin.
  { intros q (id0 & e0 & ? & ?)%Hq. exists id0, e0. split; [set_solver|done]. }
  destruct (bool_decide (ce_kind edge = Compensates) || _) eqn:Hb.
  { exists paths. split; [done|]. split; [lia|]. intros q. split; [apply Hin|].
    intros (id0 & e0 & [->|Hid]%elem_of_cons & He0 & Hk & Hnp & Hrest); [|apply Hq; by eauto 10].
    simplify_eq. apply orb_true_iff in Hb as [Hb|Hb]; bools; done. }
  bools. destruct (go_edges g Hg id edge He) as (_ & _ & [node Hn]). rewrite Hn. simpl.
  destruct (is_chain_eligible node) eqn:Hel; simpl.
  - exists ((path ++ [ce_to_node_id edge]) :: paths). split; [done|]. split; [simpl; lia|].
    intros q. rewrite elem_of_cons. split.
    + intros [->|Hq']; [|by apply Hin]. exists id, edge. unfold chain_node. set_solver.
    + intros (id0 & e0 & [->|Hid]%elem_of_cons & He0 & Hrest); [simplify_eq; left; by apply Hrest|].
      right. apply Hq. eauto 10.
  - exists paths. split; [done|]. split; [lia|]. intros q. split; [apply Hin|].
    intros (id0 & e0 & [->|Hid]%elem_of_cons & He0 & Hk & Hnp & (n0 & Hn0 & Hel0) & ->);
      [|apply Hq; unfold chain_node; by eauto 10]. simplify_eq. congruence.
Qed.

(** The paths that extend a chain by one node. *)
Lemma extend_chain g start path current :
  graph_ok g -> chain_from g start path -> last path = Some current ->
  exists paths, extend_path g path (outgoing_ids g current) = Done paths
    /\ (length paths <= size (cg_edges g))%nat
    /\ forall q, q ∈ paths <-> exists b, q = path ++ [b] /\ chain_from g start (path ++ [b]).
Proof.
  intros Hg Hc Hl. destruct (extend_path_spec g path (outgoing_ids g current) Hg) as (paths & Hp & Hlen & Hq).
  { intros id (e & He & _)%(go_outgoing g Hg). eauto. }
  exists paths. split; [done|]. split; [pose proof (outgoing_ids_length g current Hg); lia|].
  intros q. rewrite Hq. setoid_rewrite (chain_from_snoc g start path current _ Hl). split.
  - intros (id & e & Hid & He & Hk & Hnp & Hn & ->). exists (ce_to_node_id e). split; [done|].
    apply (go_outgoing g Hg) in Hid as (e' & He' & Hf). assert (e' = e) as -> by congruence. split; [done|].
    split; [exists id, e; auto|]. auto.
  - intros (b & -> & _ & (id & e & He & Hf & Ht & Hk) & Hb & Hnb). exists id, e. subst b.
    split; [apply (go_outgoing g Hg); eauto|]. auto.
Qed.

(** ** The search *)

Definition path_weight (g : CapabilityGraph) (depth : nat) (path : list str) : nat :=
  Nat.pow (Datatypes.S (size (cg_edges g))) (depth + 1 - length path).

(** A bound on the paths still to be taken from the queue. *)
Definition queue_weight (g : CapabilityGraph) (depth : nat) (queue : list (list str)) : nat :=
  sum_list (path_weight g depth <$> queue).

Definition adjacent_layers (p q : list str) : Prop := (length p <= length q <= length p + 1)%nat.

Record search_inv (g : CapabilityGraph) (start goal : str) (depth : nat) (queue : list (list str)) : Prop := {
  si_chains : Forall (fun p => chain_from g start p /\ (length p <= depth + 1)%nat) queue;
  si_layers : StronglySorted adjacent_layers queue;
  si_cover : forall p, chain_from g start p -> last p = Some goal -> (length p <= depth + 1)%nat ->
    exists p1 p2, p = p1 ++ p2 /\ p1 ∈ queue
}.

Lemma path_weight_pos g depth path : (1 <= path_weight g depth path)%nat.
Proof. unfold path_weight. apply Nat.neq_0_lt_0, Nat.pow_nonzero. lia. Qed.

Lemma queue_weight_cons g depth p q :
  queue_weight g depth (p :: q) = (path_weight g depth p + queue_weight g depth q)%nat.
Proof. done. Qed.

Lemma queue_weight_app g depth p q :
  queue_weight g depth (p ++ q) = (queue_weight g depth p + queue_weight g depth q)%nat.
Proof. unfold queue_weight. by rewrite fmap_app, sum_list_with_app. Qed.

Lemma queue_weight_children g depth path paths :
  (length path <= depth)%nat -> (length paths <= size (cg_edges g))%nat ->
  (forall q, q ∈ paths -> length q = (length path + 1)%nat) ->
  (queue_weight g depth paths < path_weight g depth path)%nat.
Proof.
  intros Hd Hn Hq.
  assert (queue_weight g depth paths
    = (length paths * Nat.pow (Datatypes.S (size (cg_edges g))) (depth - length path))%nat) as ->.
  { clear Hn. induction paths as [|q paths IH]; [done|]. rewrite queue_weight_cons.
    rewrite IH by set_solver. unfold path_weight. rewrite (Hq q) by set_solver. simpl length.
    replace (depth + 1 - (length path + 1))%nat with (depth - length path)%nat by lia. lia. }
  unfold path_weight. replace (depth + 1 - length path)%nat with (Datatypes.S (depth - length path)) by lia.
  rewrite Nat.pow_succ_r'. pose proof (Nat.pow_nonzero (Datatypes.S (size (cg_edges g))) (depth - length path)).
  nia.
Qed.

(** Taking the first path from the queue. *)
Lemma search_inv_drop g start goal depth path queue :
  search_inv g start goal depth (path :: queue) ->
  (forall p1 p2, chain_from g start (p1 ++ p2) -> last (p1 ++ p2) = Some goal ->
     (length (p1 ++ p2) <= depth + 1)%nat -> p1 <> path) ->
  search_inv g start goal depth queue.
Proof.
  intros [Hc Hl Hcov] Hne. apply Forall_cons in Hc as [_ Hc]. inversion Hl; subst. constructor; auto.
  intros p Hp Hg Hlen. destruct (Hcov p Hp Hg Hlen) as (p1 & p2 & -> & [->|Hin]%elem_of_cons); [|eauto].
  exfalso. by eapply Hne.
Qed.

(** Replacing it by its extensions. *)
Lemma search_inv_extend g start goal depth path queue current paths :
  search_inv g start goal depth (path :: queue) -> last path = Some current -> current <> goal ->
  (length path <= depth)%nat ->
  (forall q, q ∈ paths <-> exists b, q = path ++ [b] /\ chain_from g start (path ++ [b])) ->
  search_inv g start goal depth (queue ++ paths).
Proof.
  intros [Hc Hl Hcov] Hlast Hne Hd Hq. apply Forall_cons in Hc as [_ Hc].
  inversion Hl as [|? ? Hls Hlf]; subst. constructor.
  - apply Forall_app. split; [done|]. apply Forall_forall. intros q (b & -> & Hb)%Hq.
    split; [done|]. rewrite length_app. simpl. lia.
  - assert (forall q, q ∈ paths -> length q = (length path + 1)%nat) as Hlen
      by (intros q (b & -> & _)%Hq; by rewrite length_app).
    clear Hq Hl Hcov Hc. induction Hls as [|x queue Hls IH Hx]; simpl.
    + clear Hlf. induction paths as [|q paths IH]; constructor; [apply IH; set_solver|].
      apply Forall_forall. intros r Hr. unfold adjacent_layers. rewrite (Hlen q), (Hlen r) by set_solver. lia.
    + apply Forall_cons in Hlf as [Hx' Hlf]. constructor; [by apply IH|]. apply Forall_app. split; [done|].
      apply Forall_forall. intros q Hq. unfold adjacent_layers in *. rewrite (Hlen q Hq). lia.
  - intros p Hp Hg Hlen. destruct (Hcov p Hp Hg Hlen) as (p1 & p2 & -> & [->|Hin]%elem_of_cons).
    2: { exists p1, p2. set_solver. }
    destruct p2 as [|b p2]; [rewrite app_nil_r in Hg; congruence|].
    exists (path ++ [b]), p2. rewrite <- app_assoc. split; [done|]. apply elem_of_app. right. apply Hq.
    exists b. split; [done|]. apply (chain_from_prefix g start (path ++ [b]) p2).
    + by destruct path.
    + by rewrite <- app_assoc.
Qed.

Lemma search_path_spec g start goal depth fuel : forall queue,
  graph_ok g -> search_inv g start goal (N.to_nat depth) queue ->
  (queue_weight g (N.to_nat depth) queue <= fuel)%nat ->
  exists result, search_path fuel g goal depth queue = Done result
    /\ match result with
       | Some path =>
           chain_from g start path /\ last path = Some goal /\ (length path <= N.to_nat depth + 1)%nat
           /\ forall other, chain_from g start other -> last other = Some goal -> (length path <= length other)%nat
       | None =>
           forall other, chain_from g start other -> last other = Some goal ->
             (N.to_nat depth + 1 < length other)%nat
       end.
Proof.
  induction fuel as [|fuel IH]; intros queue Hg Hi Hw; destruct queue as [|path queue].
  1, 3: eexists; (split; [done|]); intros other Ho Hl;
    destruct (Nat.le_gt_cases (length other) (N.to_nat depth + 1)) as [Hle|]; [|done];
    destruct (si_cover _ _ _ _ _ Hi other Ho Hl Hle) as (? & ? & _ & ?); set_solver.
  { rewrite queue_weight_cons in Hw. pose proof (path_weight_pos g (N.to_nat depth) path). lia. }
  pose proof (Forall_inv (si_chains _ _ _ _ _ Hi)) as [Hc Hlen].
  destruct (last path) as [current|] eqn:Hlast.
  2: { apply last_None in Hlast. subst. by destruct Hc. }
  simpl. rewrite Hlast. simpl. case_bool_decide as Hgoal; [subst current|].
  - eexists. split; [done|]. split_and!; auto. intros other Ho Hl.
    destruct (Nat.le_gt_cases (length other) (N.to_nat depth + 1)) as [Hle|]; [|lia].
    destruct (si_cover _ _ _ _ _ Hi other Ho Hl Hle) as (p1 & p2 & -> & [->|Hin]%elem_of_cons);
      rewrite length_app; [lia|]. pose proof (si_layers _ _ _ _ _ Hi) as Hs. inversion Hs as [|? ? _ Hf]; subst.
    pose proof (proj1 (Forall_forall _ _) Hf _ Hin) as [? _]. lia.
  - rewrite queue_weight_cons in Hw.
    pose proof (path_weight_pos g (N.to_nat depth) path). unfold len.
    destruct (N.ltb_spec depth (N.of_nat (length path))) as [Hd|Hd].
    + apply IH; [done| |lia]. eapply search_inv_drop; [done|]. intros p1 p2 Hp Hl Hle ->.
      rewrite length_app in Hle. assert (length p2 = 0%nat) as ->%nil_length_inv by lia.
      rewrite app_nil_r in Hl. congruence.
    + destruct (extend_chain g start path current Hg Hc Hlast) as (paths & -> & Hn & Hq).
      apply IH; [done|eapply search_inv_extend; eauto; lia|].
      rewrite queue_weight_app.
      assert (queue_weight g (N.to_nat depth) paths < path_weight g (N.to_nat depth) path)%nat; [|lia].
      apply queue_weight_children; [lia|done|]. intros q (b & -> & _)%Hq. by rewrite length_app.
Qed.

Lemma search_inv_start g start goal depth :
  chain_node g start -> search_inv g start goal depth [[start]].
Proof.
  intros Hn. constructor.
  - constructor; [|constructor]. split; [by apply chain_from_start|]. simpl. lia.
  - constructor; constructor.
  - intros p [Hh _ _ _] _ _. destruct p as [|x p]; simplify_eq/=. exists [start], p. set_solver.
Qed.

Lemma search_budget_enough g start depth :
  (queue_weight g (N.to_nat depth) [[start]] <= search_budget g depth)%nat.
Proof.
  unfold queue_weight, search_budget, path_weight. simpl.
  replace (N.to_nat depth + 1 - 1)%nat with (N.to_nat depth) by lia. lia.
Qed.

(** ** The reported steps *)

(** An edge from [a] to [b], of any kind. *)
Definition edge_between (g : CapabilityGraph) (a b : str) (edge : CapabilityEdge) : Prop :=
  cg_edges g !! ce_edge_id edge = Some edge /\ ce_from_node_id edge = a /\ ce_to_node_id edge = b.

(** The edge between two nodes with the least identifier. *)
Definition first_edge (g : CapabilityGraph) (a b : str) (edge : CapabilityEdge) : Prop :=
  edge_between g a b edge
  /\ forall other, edge_between g a b other -> str_leb (ce_edge_id edge) (ce_edge_id other) = true.

(** Each step after the first reports the first edge from the node before it, with its
    kind; the evidence is that of the reported edges. *)
Fixpoint steps_reported (g : CapabilityGraph) (previous : option str) (steps : list RiskChainStep)
    (evidence : gset str) : Prop :=
  match steps with
  | [] => evidence = ∅
  | step :: rest =>
      match previous with
      | None => rc_via_edge_id step = None /\ rc_via_edge_kind step = None
          /\ steps_reported g (Some (rc_node_id step)) rest evidence
      | Some a => exists edge evidence', first_edge g a (rc_node_id step) edge
          /\ rc_via_edge_id step = Some (ce_edge_id edge) /\ rc_via_edge_kind step = Some (ce_kind edge)
          /\ evidence = {[ ce_evidence_sha256 edge ]} ∪ evidence'
          /\ steps_reported g (Some (rc_node_id step)) rest evidence'
      end
  end.

Lemma find_omap_first {B} (f : str -> option B) (p : B -> bool) l x :
  StronglySorted ord_le l -> List.find p (omap f l) = Some x ->
  exists i, i ∈ l /\ f i = Some x /\ p x = true
    /\ forall k y, k ∈ l -> f k = Some y -> p y = true -> ord_le i k.
Proof.
  induction 1 as [|i l Hs IH Hle]; [done|]. cbn. destruct (f i) as [y|] eqn:Ef; cbn.
  - destruct (p y) eqn:Ep.
    + intros [= ->]. exists i. split_and!; [by left|done|done|]. intros k z [->|Hk]%elem_of_cons _ _.
      * destruct (ord_leb_total i i); done.
      * by apply (proj1 (Forall_forall _ _) Hle).
    + intros (k & Hk & Hf & Hp & Hl)%IH. exists k. split_and!; [by right|done|done|].
      intros k' z [->|Hk']%elem_of_cons Hz Hpz; [congruence|by eapply Hl].
  - intros (k & Hk & Hf & Hp & Hl)%IH. exists k. split_and!; [by right|done|done|].
    intros k' z [->|Hk']%elem_of_cons Hz Hpz; [congruence|by eapply Hl].
Qed.

Lemma outgoing_ids_sorted g node_id : StronglySorted ord_le (outgoing_ids g node_id).
Proof.
  unfold outgoing_ids. destruct (cg_outgoing g !! node_id) as [ids|]; [|constructor].
  apply Sorted_StronglySorted; [|apply btree_iter_sorted].
  intros x y z. unfold ord_le. apply ord_leb_trans.
Qed.

Lemma via_edge_found g a b :
  graph_ok g -> chain_edge g a b -> exists edge, via_edge g a b = Some edge /\ first_edge g a b edge.
Proof.
  intros Hg (id & e & He & Hf & Ht & _). unfold via_edge.
  destruct (List.find _ _) as [edge|] eqn:Hfind.
  - apply find_omap_first in Hfind as (id' & Hid & He' & Hto & Hfirst); [|apply outgoing_ids_sorted].
    apply bool_decide_eq_true in Hto. apply (go_outgoing g Hg) in Hid as (e' & He2 & Hf').
    destruct (go_edges g Hg id' edge He') as (Eid & _). assert (e' = edge) as -> by congruence.
    exists edge. split; [done|]. split; [by unfold edge_between; rewrite Eid|].
    intros other (Ho & Hof & Hot). rewrite Eid. apply (Hfirst (ce_edge_id other) other); [|done|by apply bool_decide_eq_true].
    apply (go_outgoing g Hg). eauto.
  - assert (e ∈ omap (fun edge_id => cg_edges g !! edge_id) (outgoing_ids g a)) as Hin.
    { apply list_elem_of_omap. exists id. split; [apply (go_outgoing g Hg); eauto|done]. }
    pose proof (proj1 (find_none_elem _ _) Hfind e Hin) as Hno. simpl in Hno. apply bool_decide_eq_false in Hno. done.
Qed.

Lemma chain_steps_spec g path : forall index previous,
  graph_ok g -> Forall (chain_node g) path -> edges_joined g (option_list previous ++ path) ->
  exists steps evidence, chain_steps g index previous path = Done (Ok (steps, evidence))
    /\ rc_node_id <$> steps = path /\ steps_reported g previous steps evidence.
Proof.
  induction path as [|x path IH]; intros index previous Hg Hn Hj; simpl; [by eexists _, _|].
  apply Forall_cons in Hn as [(node & Hx & _) Hn]. rewrite Hx. simpl.
  destruct (IH (index + 1) (Some x) Hg Hn) as (steps & ev & E & Hid & Hs).
  { destruct previous; simpl in *; tauto. }
  pose proof (go_nodes g Hg x node Hx) as Enode.
  destruct previous as [a|]; simpl in Hj.
  - destruct (via_edge_found g a x Hg) as (edge & -> & He); [tauto|].
    rewrite E. eexists _, _. split; [done|].
    split; [rewrite fmap_cons, Hid; simpl; by rewrite Enode|]. simpl. rewrite Enode. by exists edge, ev.
  - rewrite E. eexists _, _. split; [done|].
    split; [rewrite fmap_cons, Hid; simpl; by rewrite Enode|]. simpl. by rewrite Enode.
Qed.

(** ** Histories *)

Inductive GraphCall : Type :=
  | CallAddNode (node : CapabilityNode)
  | CallAddEdge (edge : CapabilityEdge).

Fixpoint graph_calls {S : Sha256Lib} {JA : JsonLib (HashMaterial WorkflowAuditEvent)}
    (calls : list GraphCall) (g : CapabilityGraph) : CapabilityGraph :=
  match calls with
  | [] => g
  | CallAddNode node :: rest => graph_calls rest (add_node node g).2
  | CallAddEdge edge :: rest => graph_calls rest (add_edge edge g).2
  end.

Lemma graph_calls_ok {S : Sha256Lib} {JA : JsonLib (HashMaterial WorkflowAuditEvent)} calls : forall g,
  graph_ok g -> graph_ok (graph_calls calls g).
Proof.
  induction calls as [|[node|edge] calls IH]; intros g Hg; simpl; [done|apply IH..].
  - destruct (add_node node g) eqn:E. by eapply add_node_ok.
  - destruct (add_edge edge g) eqn:E. by eapply add_edge_ok.
Qed.

(** ** Properties *)

(** C35: on every graph built by the operations, [synthesize_risk_chain] returns
    without a panic. The nodes of a chain it returns lead from the start to the goal,
    are eligible, none comes twice, consecutive ones are joined by some edge that does
    not compensate, they are within the depth limit, and no such chain is shorter; the
    chain is never executable. The edge each step reports is the one with the least
    identifier between its two nodes, whatever its kind: it may be a compensating edge
    beside the one that joins them. The evidence is exactly that of the reported edges.
    It reports an invalid chain only for a depth outside one to eight or when no chain
    of that depth exists. *)
Theorem risk_chain_is_shortest {S : Sha256Lib} {JA : JsonLib (HashMaterial WorkflowAuditEvent)}
    {JR : JsonLib RiskChainMaterial} (policy genesis : str) (g0 : CapabilityGraph) (calls : list GraphCall)
    (start goal : str) (depth : N) :
  graph_new policy genesis = Ok g0 ->
  let g := graph_calls calls g0 in
  exists result, synthesize_risk_chain start goal depth g = Done result
    /\ match result with
       | Ok chain =>
           let path := rc_node_id <$> rk_steps chain in
           rk_executable chain = false /\ chain_from g start path /\ last path = Some goal
           /\ len path <= depth + 1
           /\ (forall other, chain_from g start other -> last other = Some goal ->
                 (length path <= length other)%nat)
           /\ steps_reported g None (rk_steps chain) (rk_evidence_sha256 chain)
       | Err InvalidRiskChain =>
           depth = 0 \/ MAX_RISK_CHAIN_DEPTH < depth
           \/ forall other, chain_from g start other -> last other = Some goal -> depth + 1 < len other
       | Err (WfAuditSerialization _) => True
       | Err _ => False
       end.
Proof.
  intros Hn g. assert (graph_ok g) as Hg by (by eapply graph_calls_ok, graph_new_ok).
  assert (forall other, chain_from g start other -> chain_node g start) as Hst.
  { intros other [Hh _ Hf _]. destruct other; simplify_eq/=. by inversion Hf. }
  assert (forall other, chain_from g start other -> last other = Some goal -> chain_node g goal) as Hgl.
  { intros other [_ _ Hf _] Hl. apply last_Some in Hl as [l' ->]. apply Forall_app in Hf as [_ Hf]. by inversion Hf. }
  unfold synthesize_risk_chain. clearbody g.
  destruct (cg_nodes g !! start) as [sn|] eqn:Hs.
  2: { eexists. split; [done|]. right. right. intros other (n & ? & _)%Hst. congruence. }
  destruct (cg_nodes g !! goal) as [gn|] eqn:Hgn.
  2: { eexists. split; [done|]. right. right. intros other Ho (n & ? & _)%(Hgl _ Ho). congruence. }
  destruct (_ || negb (is_chain_eligible gn)) eqn:Hb.
  { eexists. split; [done|]. rewrite !orb_true_iff, !negb_true_iff in Hb.
    destruct Hb as [[[Hb|Hb]|Hb]|Hb]; bools; auto; right; right; intros other Ho Hl.
    - destruct (Hst other Ho) as (n & ? & ?). congruence.
    - destruct (Hgl other Ho Hl) as (n & ? & ?). congruence. }
  bools. assert (chain_node g start) as Hcs by (by exists sn).
  destruct (search_path_spec g start goal depth (search_budget g depth) [[start]]) as (result & -> & Hr);
    [done|by apply search_inv_start|apply search_budget_enough|].
  destruct result as [path|].
  2: { eexists. split; [done|]. right. right. intros other Ho Hl. specialize (Hr other Ho Hl). unfold len. lia. }
  destruct Hr as (Hc & Hl & Hlen & Hmin). unfold len. rewrite (proj2 (N.ltb_ge _ _)) by lia.
  destruct (chain_steps_spec g path 0 None Hg (cf_nodes _ _ _ Hc) (cf_joined _ _ _ Hc))
    as (steps & ev & -> & Hid & Hj).
  eexists. split; [done|]. unfold workflow_hash. destruct (to_vec _) as [bytes|e]; simpl; [|done].
  rewrite Hid. split_and!; auto. lia.
Qed.

(** ** Examples *)

Definition toy_workflow_json : JsonLib (HashMaterial WorkflowAuditEvent) :=
  toy_json (fun e => wa_action e ++ wa_subject_id e).
Definition edge_kind_byte (kind : CapabilityEdgeKind) : str :=
  match kind with
  | Compensates => "0" | Requires => "1" | Enables => "2" | BoundTo => "3" | ValidatedBy => "4" | Produces => "5"
  end.
Definition toy_edge_json : JsonLib EdgeMaterial :=
  {| to_vec m := let '(from, to, kind, evidence) := m in Ok (from ++ to ++ edge_kind_byte kind ++ evidence) |}.
Definition toy_chain_json : JsonLib RiskChainMaterial :=
  {| to_vec m := let '(start, goal, steps, _) := m in Ok (start ++ goal ++ decimal (len steps)) |}.

Definition digest_of (c : byte) : str := replicate 64 c.

Definition sample_node (id : str) (kind : CapabilityNodeKind) (state : option FindingState) : CapabilityNode :=
  {| cn_node_id := id; cn_kind := kind; cn_subject_sha256 := digest_of "a";
     cn_policy_snapshot_sha256 := digest_of "b"; cn_finding_state := state; cn_labels := ∅ |}.

(** The calls that add the edges the constructor accepts. *)
Definition sample_edges (edges : list (str * str * CapabilityEdgeKind * byte)) : list GraphCall :=
  omap (fun '(from, to, kind, c) =>
    match @edge_new toy_sha256 toy_edge_json from to kind (digest_of c) with
    | Ok edge => Some (CallAddEdge edge)
    | Err _ => None
    end) edges.

(** With or without a compensating edge beside the enabling one. *)
Definition sample_graph_calls (compensating : bool) : list GraphCall :=
  [CallAddNode (sample_node "session" KSession None);
   CallAddNode (sample_node "finding" KFinding (Some Validated));
   CallAddNode (sample_node "candidate" KFinding (Some Candidate));
   CallAddNode (sample_node "report" KEvidence None)]
  ++ sample_edges
       [("session" : str, "candidate" : str, Enables, "c"%char);
        ("candidate" : str, "report" : str, Enables, "c"%char);
        ("session" : str, "finding" : str, Enables, "c"%char);
        ("finding" : str, "report" : str, Produces, "e"%char)]
  ++ (if compensating then sample_edges [("session" : str, "finding" : str, Compensates, "d"%char)] else []).

Definition sample_synthesis (calls : list GraphCall) : option RiskChain :=
  match @graph_new (digest_of "b") (digest_of "a") with
  | Ok g0 =>
      match @synthesize_risk_chain toy_sha256 toy_chain_json "session" "report" 3
              (@graph_calls toy_sha256 toy_workflow_json calls g0) with
      | Done (Ok chain) => Some chain
      | _ => None
      end
  | Err _ => None
  end.

Example sample_chain_path :
  (fun chain => (rc_node_id <$> rk_steps chain, rc_via_edge_kind <$> rk_steps chain))
    <$> sample_synthesis (sample_graph_calls false)
  = Some (["session" : str; "finding" : str; "report" : str], [None; Some Enables; Some Produces]).
Proof. vm_compute. reflexivity. Qed.

Lemma risk_chain_is_shortest_witness :
  match @graph_new (digest_of "b") (digest_of "a") with
  | Ok g0 => exists result,
      @synthesize_risk_chain toy_sha256 toy_chain_json "session" "report" 3
        (@graph_calls toy_sha256 toy_workflow_json (sample_graph_calls false) g0) = Done result
  | Err _ => False
  end.
Proof.
  destruct (@graph_new (digest_of "b") (digest_of "a")) as [g0|] eqn:E; [|discriminate E].
  destruct (@risk_chain_is_shortest toy_sha256 toy_workflow_json toy_chain_json _ _ g0
    (sample_graph_calls false) "session" "report" 3 E) as (result & Hr & _).
  exact (ex_intro _ result Hr).
Defined.

(** The search never follows a compensating edge, but the chain it returns may
    name one: the edge of a step is looked up again by its end points only, so that
    a compensating edge between the same nodes with a smaller identifier is
    reported, with its evidence, in place of the edge that was followed. *)
Theorem reported_edge_may_compensate :
  match @graph_new (digest_of "b") (digest_of "a") with
  | Ok g0 =>
      let g := @graph_calls toy_sha256 toy_workflow_json (sample_graph_calls true) g0 in
      match @synthesize_risk_chain toy_sha256 toy_chain_json "session" "report" 3 g with
      | Done (Ok chain) => rc_via_edge_kind <$> rk_steps chain = [None; Some Compensates; Some Produces]
      | _ => False
      end
  | Err _ => False
  end.
Proof. vm_compute. reflexivity. Qed.
