(* ===== verification/WorkflowFacts.v ===== *)
(** * Workflow: the engine, the quorum and the certificate

    Along every history of calls on a constructed workflow the engine runs the
    steps that compensate no other in dependency order, hands out each of them once
    and completes only when all of them succeeded; compensation steps are handed out
    only after a failure or a cancellation; quorum and certificate follow their
    contracts. *)

From S2P Require Import Prelude ByteStr BTree HashChain Workflow WorkflowOrder.
Local Open Scope N_scope.

#[export] Instance WorkflowStepRuntime_eq_dec : EqDecision WorkflowStepRuntime.
Proof. solve_decision. Defined.

(** ** Constructed definitions *)

(** The steps run in normal operation: those no step names as its compensation. *)
Definition is_target (d : WorkflowDefinition) (id : str) : Prop :=
  id ∈ compensation_targets_of (wd_steps d).

Record definition_ok (d : WorkflowDefinition) : Prop := {
  do_order : valid_order (wd_steps d) (wd_topological_order d);
  do_compensations : forall id step target, wd_steps d !! id = Some step ->
    ws_compensation_step_id step = Some target -> is_Some (wd_steps d !! target)
}.

Lemma target_spec d id :
  is_target d id <-> exists k step, wd_steps d !! k = Some step /\ ws_compensation_step_id step = Some id.
Proof.
  unfold is_target, compensation_targets_of. rewrite elem_of_list_to_set, list_elem_of_omap.
  setoid_rewrite elem_of_map_values. naive_solver.
Qed.

Lemma check_steps_elem m steps : check_steps m steps = Ok tt -> forall step, step ∈ steps -> check_step m step = Ok tt.
Proof.
  induction steps as [|s steps IH]; simpl; [set_solver|]. intros [E Hr]%seq_ok step.
  rewrite elem_of_cons. intros [->|Hin]; auto.
Qed.

Section Facts.
Context {S : Sha256Lib} {JA : JsonLib (HashMaterial WorkflowAuditEvent)} {JD : JsonLib DefinitionMaterial}.

Lemma definition_new_ok workflow_id run_id policy steps :
  exists result, definition_new workflow_id run_id policy steps = Done result
    /\ forall d, result = Ok d -> definition_ok d.
Proof.
  unfold definition_new.
  match goal with |- context [match ?r with Ok _ => _ | Err _ => _ end] => destruct r as [m|e] eqn:Hm end;
    [|by eexists].
  destruct (topological_sort_spec m) as (r & -> & Hr).
  eexists. split; [done|]. intros d Hd. destruct r as [order|e]; [|done].
  assert (check_steps m (map_values m) = Ok tt) as Hc.
  { inv_ok Hm. by destruct (check_steps m (map_values m)) as [[]|]. }
  inv_ok Hd. constructor; simpl; [done|].
  intros id step target Hs Ht.
  assert (check_step m step = Ok tt) as Hchk
    by (apply (check_steps_elem _ _ Hc); apply elem_of_map_values; eauto).
  unfold check_step in Hchk. rewrite Ht in Hchk. destruct (existsb _ _); [done|].
  by destruct (m !! target) as [c|].
Qed.

Lemma order_known d id : definition_ok d -> id ∈ wd_topological_order d <-> is_Some (wd_steps d !! id).
Proof. intros Hd. rewrite (proj1 (do_order d Hd)), elem_of_elements. apply elem_of_dom. Qed.

Lemma dependency_known d id step dependency :
  definition_ok d -> wd_steps d !! id = Some step -> dependency ∈ ws_dependencies step ->
  is_Some (wd_steps d !! dependency).
Proof.
  intros Hd Hs Hdep. assert (id ∈ wd_topological_order d) as Hin by (apply order_known; eauto).
  apply list_elem_of_split in Hin as (l1 & l2 & E). apply (order_known d _ Hd). rewrite E.
  pose proof (proj2 (do_order d Hd) l1 id l2 step E Hs dependency Hdep). set_solver.
Qed.

Lemma target_known d id : definition_ok d -> is_target d id -> is_Some (wd_steps d !! id).
Proof. intros Hd (k & step & Hs & Ht)%target_spec. by eapply do_compensations. Qed.

(** ** The engine's invariant *)

Definition is_started (state : WorkflowStepState) : bool :=
  match state with Pending | Skipped => false | _ => true end.

(** Before any cancellation or failure. *)
Definition is_early (state : WorkflowState) : bool :=
  match state with WsCreated | WsRunning | WsPaused | WsCompleted => true | _ => false end.

Definition succeeded (e : WorkflowEngine) (id : str) : Prop :=
  exists rt, en_steps e !! id = Some rt /\ sr_state rt = Succeeded.

Record engine_ok (d : WorkflowDefinition) (e : WorkflowEngine) : Prop := {
  eo_definition : en_definition e = d;
  eo_targets : en_compensation_targets e = compensation_targets_of (wd_steps d);
  eo_dom : forall id, is_Some (en_steps e !! id) <-> is_Some (wd_steps d !! id);
  eo_audit : chain_ok (en_audit e);
  eo_started : forall id step rt dependency, wd_steps d !! id = Some step -> ~ is_target d id ->
    en_steps e !! id = Some rt -> is_started (sr_state rt) = true ->
    dependency ∈ ws_dependencies step -> succeeded e dependency /\ ~ is_target d dependency;
  eo_active : forall id rt, ~ is_target d id -> en_steps e !! id = Some rt ->
    sr_state rt <> Compensating /\ (is_Some (sr_active_lease_id rt) -> sr_state rt = Leased);
  eo_early : is_early (en_state e) = true -> forall id rt, is_target d id -> en_steps e !! id = Some rt ->
    sr_state rt = Pending /\ sr_active_lease_id rt = None;
  eo_completed : en_state e = WsCompleted -> forall id rt, ~ is_target d id ->
    en_steps e !! id = Some rt -> sr_state rt = Succeeded
}.

(** How one call may change the runtime of a step that is no compensation target. *)
Definition runtime_moves (deps_done : Prop) (rt rt' : WorkflowStepRuntime) : Prop :=
  (sr_state rt = Succeeded -> sr_state rt' = Succeeded)
  /\ (is_started (sr_state rt') = true -> is_started (sr_state rt) = true \/ deps_done)
  /\ sr_state rt' <> Compensating
  /\ (is_Some (sr_active_lease_id rt') -> sr_state rt' = Leased).

Lemma engine_ok_step d e e' :
  engine_ok d e -> en_definition e' = d ->
  en_compensation_targets e' = en_compensation_targets e -> chain_ok (en_audit e') ->
  (forall id, is_Some (en_steps e' !! id) <-> is_Some (en_steps e !! id)) ->
  (forall id rt rt', ~ is_target d id -> en_steps e !! id = Some rt -> en_steps e' !! id = Some rt' ->
     runtime_moves (forall step, wd_steps d !! id = Some step -> forall dependency,
       dependency ∈ ws_dependencies step -> succeeded e dependency /\ ~ is_target d dependency) rt rt') ->
  (is_early (en_state e') = true -> forall id rt, is_target d id -> en_steps e' !! id = Some rt ->
     sr_state rt = Pending /\ sr_active_lease_id rt = None) ->
  (en_state e' = WsCompleted -> forall id rt, ~ is_target d id -> en_steps e' !! id = Some rt ->
     sr_state rt = Succeeded) ->
  engine_ok d e'.
Proof.
  intros He Ed Et Ea Hdom Hmove Hearly Hcomp.
  assert (forall id, ~ is_target d id -> succeeded e id -> succeeded e' id) as Hkeep.
  { intros id Hn (rt & Hrt & Hs). destruct (proj2 (Hdom id) ltac:(eauto)) as [rt' Hrt'].
    exists rt'. split; [done|]. by apply (Hmove id rt rt'). }
  constructor; auto.
  - rewrite Et. apply He.
  - intros id. rewrite Hdom. apply He.
  - intros id step rt' dep Hs Hn Hrt' Hst Hdep.
    destruct (proj1 (Hdom id) ltac:(eauto)) as [rt Hrt].
    destruct (Hmove id rt rt' Hn Hrt Hrt') as (_ & Hm & _).
    assert (succeeded e dep /\ ~ is_target d dep) as [Hsd Hnd]; [|by auto].
    destruct (Hm Hst) as [Hst0|Hdone]; [by eapply (eo_started d e He)|by eapply Hdone].
  - intros id rt' Hn Hrt'. destruct (proj1 (Hdom id) ltac:(eauto)) as [rt Hrt].
    by destruct (Hmove id rt rt' Hn Hrt Hrt') as (_ & _ & ? & ?).
Qed.

Lemma runtime_stays d e id rt deps_done :
  engine_ok d e -> ~ is_target d id -> en_steps e !! id = Some rt -> runtime_moves deps_done rt rt.
Proof. intros He Hn Hrt. destruct (eo_active d e He id rt Hn Hrt). split_and!; auto. Qed.

(** Calls that change the state of the workflow and its audit chain only. *)
Lemma engine_ok_state d e e' :
  engine_ok d e -> en_definition e' = en_definition e ->
  en_compensation_targets e' = en_compensation_targets e -> en_steps e' = en_steps e ->
  chain_ok (en_audit e') -> (is_early (en_state e') = true -> is_early (en_state e) = true) ->
  (en_state e' = WsCompleted -> en_state e = WsCompleted
     \/ forall id rt, ~ is_target d id -> en_steps e !! id = Some rt -> sr_state rt = Succeeded) ->
  engine_ok d e'.
Proof.
  intros He Ed Et Es Ea Hearly Hcomp. apply (engine_ok_step d e); auto.
  - rewrite Ed. apply He.
  - by rewrite Es.
  - intros id rt rt' Hn Hrt Hrt'. rewrite Es in Hrt'. assert (rt' = rt) as -> by congruence.
    by eapply runtime_stays.
  - rewrite Es. intros H%Hearly. by apply (eo_early d e He).
  - rewrite Es. intros [H|H]%Hcomp; [by apply (eo_completed d e He)|done].
Qed.

Lemma engine_new_ok d genesis e : definition_ok d -> engine_new d genesis = Ok e -> engine_ok d e.
Proof.
  intros Hd Hn. unfold engine_new in Hn. inv_ok Hn.
  assert (forall id rt, map_imap (fun step_id _ => Some (runtime_new step_id)) (wd_steps d) !! id = Some rt ->
    rt = runtime_new id) as Hl.
  { intros id rt. rewrite map_lookup_imap. destruct (wd_steps d !! id); simpl; [|done]. by intros [= <-]. }
  constructor; simpl; auto.
  - intros id. rewrite map_lookup_imap. destruct (wd_steps d !! id); simpl; split; intros [? ?]; eauto; done.
  - unfold workflow_audit_new, chain_new_anchored in Heqr. destruct (negb _); simplify_eq/=. apply chain_new_ok.
  - intros id step rt dep _ _ ->%Hl. done.
  - intros id rt _ ->%Hl. split; [done|]. by intros [? ?].
  - intros _ id rt _ ->%Hl. done.
  - done.
Qed.

(** ** Audit records and the terminal states *)

(** The engine apart from its state and audit chain. *)
Definition same_work (e e' : WorkflowEngine) : Prop :=
  en_definition e' = en_definition e /\ en_steps e' = en_steps e
  /\ en_compensation_targets e' = en_compensation_targets e
  /\ en_consumed_leases e' = en_consumed_leases e
  /\ en_next_lease_sequence e' = en_next_lease_sequence e.

Lemma engine_audit_spec action subject outcome metadata e r e' :
  engine_audit action subject outcome metadata e = (r, e') ->
  same_work e e' /\ en_state e' = en_state e /\ (chain_ok (en_audit e) -> chain_ok (en_audit e')).
Proof.
  unfold engine_audit, workflow_audit_append. destruct (chain_append _ _) as [r0 chain] eqn:E.
  intros [= _ <-]. unfold same_work. simpl. split_and!; try done. intros Hok. by eapply chain_append_ok.
Qed.

Lemma record_state_ok d e0 action outcome e r e' :
  record_state action outcome e = (r, e') ->
  engine_ok d e0 -> same_work e0 e -> en_audit e = en_audit e0 ->
  (is_early (en_state e) = true -> is_early (en_state e0) = true) ->
  (en_state e = WsCompleted -> en_state e0 = WsCompleted
     \/ forall id rt, ~ is_target d id -> en_steps e0 !! id = Some rt -> sr_state rt = Succeeded) ->
  engine_ok d e' /\ same_work e0 e' /\ en_state e' = en_state e.
Proof.
  intros Hr He (E1 & E2 & E3 & E4 & E5) Ea Hearly Hcomp.
  apply engine_audit_spec in Hr as ((F1 & F2 & F3 & F4 & F5) & Fs & Fc).
  assert (same_work e0 e') as Hw by (unfold same_work; split_and!; congruence).
  split; [|done]. destruct Hw as (G1 & G2 & G3 & _). apply (engine_ok_state d e0); rewrite ?Fs; auto.
  apply Fc. rewrite Ea. apply He.
Qed.

Lemma same_work_refl e : same_work e e.
Proof. by unfold same_work. Qed.

Lemma set_state_ok d e state action outcome r e' :
  engine_ok d e -> record_state action outcome (with_engine_state state e) = (r, e') ->
  (is_early state = true -> is_early (en_state e) = true) ->
  (state = WsCompleted ->
     forall id rt, ~ is_target d id -> en_steps e !! id = Some rt -> sr_state rt = Succeeded) ->
  engine_ok d e' /\ same_work e e'.
Proof.
  intros He Hr Hearly Hcomp. apply (record_state_ok d e) in Hr as (? & ? & _); auto; [by unfold same_work|]. intros E. right. by apply Hcomp.
Qed.

Lemma any_run_total {A} (p : A -> Run bool) l :
  (forall x, x ∈ l -> exists b, p x = Done b) -> exists b, any_run p l = Done b.
Proof.
  induction l as [|x l IH]; intros Hp; simpl; [eauto|]. destruct (Hp x ltac:(set_solver)) as [[] ->]; [eauto|].
  apply IH. set_solver.
Qed.

Lemma all_run_spec {A} (p : A -> Run bool) (q : A -> Prop) l :
  (forall x, x ∈ l -> exists b, p x = Done b /\ (b = true <-> q x)) ->
  exists b, all_run p l = Done b /\ (b = true <-> forall x, x ∈ l -> q x).
Proof.
  induction l as [|x l IH]; intros Hp; simpl; [exists true; set_solver|].
  destruct (Hp x ltac:(set_solver)) as (b & -> & Hb). destruct b.
  - destruct IH as (b & -> & Hb'); [set_solver|]. exists b. split; [done|]. rewrite Hb'. set_solver.
  - exists false. split; [done|]. split; [done|]. intros Hall. apply Hb, Hall. set_solver.
Qed.

Lemma index_step d e id : engine_ok d e -> is_Some (wd_steps d !! id) ->
  exists rt, en_steps e !! id = Some rt /\ index_map (en_steps e) id = Done rt.
Proof.
  intros He Hid. apply (eo_dom d e He) in Hid as [rt Hrt]. exists rt. unfold index_map. by rewrite Hrt.
Qed.

Lemma advance_spec d e :
  definition_ok d -> engine_ok d e ->
  exists r e', advance_terminal_state e = Done (r, e') /\ engine_ok d e' /\ same_work e e'.
Proof.
  intros Hd He. unfold advance_terminal_state.
  destruct (en_state e) eqn:Es; try (by eexists _, _; auto using same_work_refl).
  - destruct (forallb _ _) eqn:Hall; [|by eexists _, _; auto using same_work_refl].
    destruct (record_state _ _ _) as [r e'] eqn:Er. eexists _, _. split; [done|].
    eapply (set_state_ok d e); eauto; [by rewrite Es|]. intros _ id rt Hn Hrt. rewrite forallb_elem in Hall.
    specialize (Hall (id, rt) ltac:(by apply elem_of_map_iter)). simpl in Hall.
    apply orb_true_iff in Hall as [Ht|Hs]; bools; [|done]. rewrite (eo_targets d e He) in Ht. done.
  - destruct (any_run_total (fun step_id =>
      let! runtime := index_map (en_steps e) step_id in
      Done (bool_decide (sr_state runtime = Compensating) || bool_decide (sr_state runtime = Leased)))
      (btree_iter (en_compensation_targets e))) as [b Hb].
    { intros id. rewrite elem_of_btree_iter, (eo_targets d e He). intros Ht.
      destruct (index_step d e id He (target_known d id Hd Ht)) as (rt & _ & ->). eauto. }
    rewrite Hb. destruct b; simpl; [by eexists _, _; auto using same_work_refl|].
    destruct (record_state _ _ _) as [r e'] eqn:Er. eexists _, _. split; [done|].
    by eapply (set_state_ok d e); eauto.
Qed.

(** ** The calls that change the state of the workflow *)

Lemma engine_start_ok d e r e' :
  engine_ok d e -> engine_start e = (r, e') -> engine_ok d e' /\ same_work e e'.
Proof.
  intros He Hs. unfold engine_start in Hs. case_bool_decide as E; simplify_eq; [by auto using same_work_refl|].
  eapply (set_state_ok d e); eauto; by rewrite ?E.
Qed.

Lemma engine_pause_ok d e r e' :
  engine_ok d e -> engine_pause e = (r, e') -> engine_ok d e' /\ same_work e e'.
Proof.
  intros He Hs. unfold engine_pause in Hs. destruct (_ || _) eqn:E; simplify_eq; [by auto using same_work_refl|].
  bools. apply dec_stable in H.
  eapply (set_state_ok d e); eauto; by rewrite ?H.
Qed.

Lemma engine_resume_ok d e r e' :
  engine_ok d e -> engine_resume e = (r, e') -> engine_ok d e' /\ same_work e e'.
Proof.
  intros He Hs. unfold engine_resume in Hs. case_bool_decide as E; simplify_eq; [by auto using same_work_refl|].
  eapply (set_state_ok d e); eauto; by rewrite ?E.
Qed.

(** ** Cancelling and stopping *)

Lemma compensations_spec d e entries :
  definition_ok d -> engine_ok d e ->
  (forall id rt, (id, rt) ∈ entries -> is_Some (wd_steps d !! id)) ->
  exists ids, compensations_to_start e entries = Done ids /\ forall id, id ∈ ids -> is_target d id.
Proof.
  intros Hd He. induction entries as [|[id rt] entries IH]; intros Hk; simpl; [exists []; set_solver|].
  destruct IH as (ids & Hids & Ht); [intros id0 rt0 Hin; apply (Hk id0 rt0); set_solver|]. rewrite Hids.
  destruct (_ && _); [|eauto]. destruct (Hk id rt ltac:(set_solver)) as [step Hs].
  unfold index_map. rewrite (eo_definition d e He), Hs. eexists. split; [done|].
  destruct (ws_compensation_step_id step) as [t|] eqn:Ec; [|done].
  intros x [->|Hx]%elem_of_cons; [|auto]. apply target_spec. eauto.
Qed.

Lemma start_compensations_spec ids : forall steps,
  (forall id, id ∈ ids -> is_Some (steps !! id)) ->
  exists steps', start_compensations ids steps = Done steps'
    /\ forall id, steps' !! id
         = (if bool_decide (id ∈ ids) then with_runtime_state Compensating else Datatypes.id) <$> steps !! id.
Proof.
  induction ids as [|x ids IH]; intros steps Hk; simpl.
  { exists steps. split; [done|]. intros id. by destruct (steps !! id). }
  destruct (Hk x ltac:(set_solver)) as [rt Hrt]. rewrite Hrt. simpl.
  destruct (IH (<[x := with_runtime_state Compensating rt]> steps)) as (steps' & -> & Hs).
  { intros id Hid. rewrite lookup_insert_is_Some'. right. apply Hk. set_solver. }
  exists steps'. split; [done|]. intros id. rewrite Hs. destruct (decide (x = id)) as [<-|Hne].
  - rewrite lookup_insert_eq, Hrt. simpl. rewrite (bool_decide_eq_true_2 (x ∈ x :: ids)) by set_solver.
    by case_bool_decide.
  - rewrite lookup_insert_ne by done. rewrite (bool_decide_ext (id ∈ x :: ids) (id ∈ ids)); [done|]. set_solver.
Qed.

Lemma skip_pending_moves d e id rt targets P :
  engine_ok d e -> ~ is_target d id -> en_steps e !! id = Some rt -> runtime_moves P rt (skip_pending targets id rt).
Proof.
  intros He Hn Hrt. pose proof (runtime_stays d e id rt P He Hn Hrt) as Hm.
  destruct (eo_active d e He id rt Hn Hrt) as [_ Ha].
  unfold skip_pending. destruct (_ && _) eqn:E; [|done]. bools. unfold runtime_moves. simpl.
  split_and!; try congruence; try done. intros Hs%Ha. congruence.
Qed.

Lemma engine_cancel_spec d e :
  definition_ok d -> engine_ok d e ->
  exists r e', engine_cancel e = Done (r, e') /\ engine_ok d e'
    /\ en_next_lease_sequence e' = en_next_lease_sequence e
    /\ (forall id rt rt', ~ is_target d id -> en_steps e !! id = Some rt -> en_steps e' !! id = Some rt' ->
          sr_state rt <> Pending -> sr_state rt' <> Pending).
Proof.
  intros Hd He. unfold engine_cancel.
  destruct (_ || any_leased e) eqn:Hb.
  { eexists _, _. split_and!; [done..|]. intros id rt rt' _ ? ?. by simplify_eq. }
  destruct (compensations_spec d e (map_iter (en_steps e)) Hd He) as (ids & -> & Hids).
  { intros id rt Hin%elem_of_map_iter. apply (eo_dom d e He). eauto. }
  assert (forall id, map_imap (fun step_id runtime =>
      Some (skip_pending (en_compensation_targets e) step_id runtime)) (en_steps e) !! id
    = skip_pending (en_compensation_targets e) id <$> en_steps e !! id) as Hskip
    by (intros id; rewrite map_lookup_imap; by destruct (en_steps e !! id)).
  destruct (start_compensations_spec ids (map_imap (fun step_id runtime =>
    Some (skip_pending (en_compensation_targets e) step_id runtime)) (en_steps e))) as (steps & -> & Hsteps).
  { intros id Hid. rewrite Hskip, fmap_is_Some. apply (eo_dom d e He). auto using target_known. }
  destruct (record_state _ _ _) as [r e1] eqn:Er.
  assert (forall id rt rt', ~ is_target d id -> en_steps e !! id = Some rt -> steps !! id = Some rt' ->
    rt' = skip_pending (en_compensation_targets e) id rt) as Hnorm.
  { intros id rt rt' Hn Hrt. rewrite Hsteps, Hskip, Hrt. simpl.
    rewrite bool_decide_eq_false_2 by (intros Hin; by apply Hn, Hids). by intros [= <-]. }
  apply engine_audit_spec in Er as ((E1 & E2 & E3 & E4 & E5) & Es & Ec). simpl in *.
  assert (engine_ok d e1) as He1.
  { apply (engine_ok_step d e _ He); rewrite ?E1, ?E3, ?Es; simpl; try done.
    - apply He.
    - apply Ec, He.
    - intros id. rewrite E2, Hsteps, !fmap_is_Some, Hskip, fmap_is_Some. done.
    - intros id rt rt' Hn Hrt Hrt'. rewrite E2 in Hrt'. rewrite (Hnorm id rt rt' Hn Hrt Hrt').
      by eapply skip_pending_moves. }
  assert (forall id rt rt', ~ is_target d id -> en_steps e !! id = Some rt -> en_steps e1 !! id = Some rt' ->
    sr_state rt <> Pending -> sr_state rt' <> Pending) as Hpend.
  { intros id rt rt' Hn Hrt Hrt' Hp. rewrite E2 in Hrt'. rewrite (Hnorm id rt rt' Hn Hrt Hrt').
    unfold skip_pending. rewrite (bool_decide_eq_false_2 (sr_state rt = Pending)) by done. by rewrite andb_false_r. }
  destruct r as [u|x]; [|by eexists _, _].
  destruct (advance_spec d e1 Hd He1) as (r & e' & -> & He' & (F1 & F2 & F3 & F4 & F5)).
  eexists _, _. split_and!; [done|done|congruence|]. rewrite F2. done.
Qed.

Lemma engine_stop_ok d e r e' :
  engine_ok d e -> engine_emergency_stop e = (r, e') ->
  engine_ok d e' /\ en_next_lease_sequence e' = en_next_lease_sequence e
  /\ (forall id rt rt', ~ is_target d id -> en_steps e !! id = Some rt -> en_steps e' !! id = Some rt' ->
        sr_state rt <> Pending -> sr_state rt' <> Pending).
Proof.
  intros He Hs. unfold engine_emergency_stop in Hs. destruct (workflow_is_terminal _) eqn:Ht.
  { simplify_eq. split_and!; [done..|]. intros id rt rt' _ ? ?. by simplify_eq. }
  apply engine_audit_spec in Hs as ((E1 & E2 & E3 & E4 & E5) & Es & Ec). simpl in *. split_and!; [|done|].
  - apply (engine_ok_step d e _ He); rewrite ?E1, ?E3, ?Es; simpl; try done.
    + apply He.
    + apply Ec, He.
    + intros id. by rewrite E2, lookup_fmap, fmap_is_Some.
    + intros id rt rt' Hn Hrt Hrt'. rewrite E2, lookup_fmap, Hrt in Hrt'. injection Hrt' as <-.
      pose proof (runtime_stays d e id rt (forall step, wd_steps d !! id = Some step -> forall dependency,
        dependency ∈ ws_dependencies step -> succeeded e dependency /\ ~ is_target d dependency) He Hn Hrt) as Hm.
      unfold stop_runtime. destruct (sr_state rt) eqn:E; try done; unfold runtime_moves; simpl; rewrite E;
        split_and!; try done; by intros [? ?].
  - intros id rt rt' Hn Hrt Hrt' Hp. rewrite E2, lookup_fmap, Hrt in Hrt'. injection Hrt' as <-.
    unfold stop_runtime. destruct (sr_state rt) eqn:E; simpl; congruence.
Qed.

(** ** Leasing *)

(** A step that may be leased in normal operation. *)
Definition startable (d : WorkflowDefinition) (e : WorkflowEngine) (id : str) : Prop :=
  en_state e = WsRunning /\ ~ is_target d id
  /\ exists rt step, en_steps e !! id = Some rt /\ sr_state rt = Pending /\ wd_steps d !! id = Some step
       /\ forall dependency, dependency ∈ ws_dependencies step -> succeeded e dependency.

(** A compensation that may be leased. *)
Definition compensable (e : WorkflowEngine) (id : str) : Prop :=
  en_state e = WsCancelling /\ exists rt, en_steps e !! id = Some rt /\ sr_state rt = Compensating.

(** Only compensation targets are compensated. *)
Lemma compensable_target d e id : engine_ok d e -> compensable e id -> is_target d id.
Proof.
  intros He (_ & rt & Hrt & Hs). destruct (decide (id ∈ compensation_targets_of (wd_steps d))) as [|Hn]; [done|].
  by destruct (eo_active d e He id rt Hn Hrt) as [? _].
Qed.

Lemma lease_candidate_spec d e id :
  definition_ok d -> engine_ok d e -> is_Some (wd_steps d !! id) ->
  exists candidate, lease_candidate e id = Done candidate
    /\ match candidate with
       | Some false => startable d e id
       | Some true => compensable e id
       | None => ~ startable d e id /\ ~ compensable e id
       end.
Proof.
  intros Hd He [step Hs]. unfold lease_candidate.
  destruct (index_step d e id He ltac:(eauto)) as (rt & Hrt & ->).
  rewrite (eo_targets d e He), (eo_definition d e He).
  destruct (all_run_spec (fun dependency =>
      let! runtime := index_map (en_steps e) dependency in Done (bool_decide (sr_state runtime = Succeeded)))
    (succeeded e) (btree_iter (ws_dependencies step))) as (b & Hb & Hiff).
  { intros dep. rewrite elem_of_btree_iter. intros Hdep.
    destruct (index_step d e dep He (dependency_known d id step dep Hd Hs Hdep)) as (rd & Hrd & ->).
    eexists. split; [done|]. rewrite bool_decide_eq_true. unfold succeeded. naive_solver. }
  setoid_rewrite elem_of_btree_iter in Hiff.
  destruct (bool_decide (en_state e = WsRunning) && bool_decide (sr_state rt = Pending)
    && negb (bool_decide (id ∈ compensation_targets_of (wd_steps d)))) eqn:Hn.
  - bools. unfold index_map at 1. rewrite Hs, Hb.
    rewrite (bool_decide_eq_false_2 (en_state e = WsCancelling)) by congruence.
    destruct b; eexists; (split; [reflexivity|]).
    + split; [done|]. split; [done|]. exists rt, step. split_and!; auto. by apply Hiff.
    + split; [|intros [? _]; congruence]. intros (_ & _ & rt' & step' & ? & ? & ? & Hall). simplify_eq.
      by apply Hiff in Hall.
  - simpl. eexists. split; [done|].
    assert (~ startable d e id) as Hns.
    { intros (E1 & E2 & rt' & step' & ? & E3 & _ & _). simplify_eq.
      rewrite !bool_decide_eq_true_2, bool_decide_eq_false_2 in Hn by done. done. }
    destruct (bool_decide (en_state e = WsCancelling) && bool_decide (sr_state rt = Compensating)) eqn:Hc.
    + bools. split; [done|]. eauto.
    + split; [done|]. intros [E (rt' & ? & E')]. simplify_eq.
      rewrite !bool_decide_eq_true_2 in Hc by done. done.
Qed.

Lemma select_step_spec d e order :
  definition_ok d -> engine_ok d e -> (forall id, id ∈ order -> is_Some (wd_steps d !! id)) ->
  exists selected, select_step e order = Done selected
    /\ match selected with
       | Some (id, compensation) =>
           (if compensation : bool then compensable e id else startable d e id)
           /\ exists l1 l2, order = l1 ++ id :: l2
                /\ forall x, x ∈ l1 -> ~ startable d e x /\ ~ compensable e x
       | None => forall x, x ∈ order -> ~ startable d e x /\ ~ compensable e x
       end.
Proof.
  intros Hd He. induction order as [|id order IH]; intros Hk; simpl; [exists None; set_solver|].
  destruct (lease_candidate_spec d e id Hd He (Hk id ltac:(set_solver))) as (c & -> & Hc).
  destruct c as [comp|].
  - eexists. split; [done|]. split; [by destruct comp|]. exists [], order. split; [done|]. set_solver.
  - destruct IH as (sel & -> & Hsel); [set_solver|]. eexists. split; [done|].
    destruct sel as [[x comp]|].
    + destruct Hsel as (Hx & l1 & l2 & -> & Hl1). split; [done|]. exists (id :: l1), l2. split; [done|].
      intros y [->|Hy]%elem_of_cons; auto.
    + intros y [->|Hy]%elem_of_cons; auto.
Qed.

(** What leasing does to the engine: the step is leased and the counter moves. *)
Lemma issue_lease_spec d e worker now duration id compensation rt :
  definition_ok d -> engine_ok d e -> en_steps e !! id = Some rt ->
  (if compensation : bool then compensable e id else startable d e id) ->
  exists r e', issue_lease worker now duration id compensation e = Done (r, e') /\ engine_ok d e'
    /\ match r with
       | Err StepNotReady => e' = e
       | _ =>
           en_next_lease_sequence e' = saturating_add (en_next_lease_sequence e) 1
           /\ (exists rt', en_steps e' = <[id := rt']> (en_steps e) /\ sr_state rt' = Leased
                 /\ sr_active_lease_id rt'
                    = Some (("workflow-lease-" : str) ++ decimal020 (en_next_lease_sequence e)))
           /\ en_state e' = en_state e
       end
    /\ match r with
       | Ok (Some lease) =>
           le_step_id lease = id /\ le_compensation lease = compensation
           /\ le_lease_id lease = ("workflow-lease-" : str) ++ decimal020 (en_next_lease_sequence e)
           /\ le_expires_at_milliseconds lease = now + duration /\ le_worker_id lease = worker
       | Ok None => False
       | Err e => e = StepNotReady \/ e = WfInvalidLease \/ exists m, e = WfAuditSerialization m
       end.
Proof.
  intros Hd He Hrt Hsel. unfold issue_lease. rewrite Hrt. simpl.
  destruct (MAX_STEP_ATTEMPTS <=? sr_attempts rt). { eexists _, _. split; [done|]. split; [done|]. split; [done|by left]. }
  match goal with |- context [checked_add now duration] => idtac end.
  set (lease_id := ("workflow-lease-" : str) ++ decimal020 (en_next_lease_sequence e)).
  match goal with |- context [engine_audit _ _ _ _ ?e0] => set (e1 := e0) end.
  assert (engine_ok d e1) as He1.
  { apply (engine_ok_step d e _ He); simpl; try done; try apply He.
    - intros x. rewrite lookup_insert_is_Some'. split; [intros [<-|?]; eauto|auto].
    - intros x rx rx' Hn Hx Hx'. destruct (decide (id = x)) as [<-|Hne].
      + rewrite lookup_insert_eq in Hx'. injection Hx' as <-. assert (rx = rt) as -> by congruence.
        destruct compensation.
        * destruct Hsel as [_ (rt' & Hrt' & Ec)]. assert (rt' = rt) as -> by congruence.
          by destruct (eo_active d e He id rt Hn Hrt).
        * destruct Hsel as (Er & _ & rt' & step & Hrt' & Ep & Hst & Hdeps).
          assert (rt' = rt) as -> by congruence. unfold runtime_moves. simpl. split_and!; try done; try congruence.
          intros _. right. intros step' Hst' dep Hdep. assert (step' = step) as -> by congruence.
          split; [auto|]. intros Ht. destruct (Hdeps dep Hdep) as (rd & Hrd & Hsd).
          destruct (eo_early d e He ltac:(by rewrite Er) dep rd Ht Hrd). congruence.
      + rewrite lookup_insert_ne in Hx' by done. assert (rx' = rx) as -> by congruence. by eapply runtime_stays.
    - intros Hearly x rx Ht. rewrite lookup_insert_Some. intros [[<- <-]|[Hne Hx]].
      + destruct compensation; destruct Hsel as [Es Hsel]; [by rewrite Es in Hearly|tauto].
      + by apply (eo_early d e He Hearly x rx).
    - intros Hc. exfalso. destruct compensation; destruct Hsel as [Es _]; congruence. }
  destruct (checked_add now duration) as [expires|] eqn:Ee.
  2: { eexists _, _. split; [done|]. split; [done|].
       split; [split; [done|]; split; [by eexists|done]|by right; left]. }
  apply checked_add_some in Ee as [-> _].
  destruct (engine_audit _ _ _ _ e1) as [recorded e2] eqn:Ea.
  assert (engine_ok d e2) as He2.
  { apply engine_audit_spec in Ea as ((F1 & F2 & F3 & F4 & F5) & Fs & Fc).
    apply (engine_ok_state d e1); auto; rewrite ?Fs; auto. apply Fc, He1. }
  pose proof (engine_audit_spec _ _ _ _ _ _ _ Ea) as ((F1 & F2 & F3 & F4 & F5) & Fs & _).
  assert (recorded = Ok tt \/ exists m, recorded = Err (WfAuditSerialization m)) as Hrec.
  { unfold engine_audit, workflow_audit_append, chain_append, hash_material in Ea.
    destruct (to_vec _); simplify_eq/=; eauto. }
  eexists _, _. split; [done|]. split; [done|]. split.
  - destruct Hrec as [->|[m ->]]; (split; [by rewrite F5|]; split; [|by rewrite Fs]; eexists; split; [by rewrite F2|done]).
  - destruct Hrec as [->|[m ->]]; simpl; eauto 10.
Qed.

(** No step of normal operation waits again once it was taken up. *)
Definition keeps_started (d : WorkflowDefinition) (e e' : WorkflowEngine) : Prop :=
  forall id rt rt', ~ is_target d id -> en_steps e !! id = Some rt -> en_steps e' !! id = Some rt' ->
    sr_state rt <> Pending -> sr_state rt' <> Pending.

Lemma same_work_keeps d e e' : same_work e e' -> keeps_started d e e'.
Proof. intros (_ & E & _) id rt rt' _ Hrt Hrt'. rewrite E in Hrt'. by simplify_eq. Qed.

Lemma keeps_started_trans d e1 e2 e3 :
  engine_ok d e1 -> engine_ok d e2 -> keeps_started d e1 e2 -> keeps_started d e2 e3 -> keeps_started d e1 e3.
Proof.
  intros H1 H2 K1 K2 id rt rt' Hn Hrt Hrt' Hp.
  destruct (proj2 (eo_dom d e2 H2 id)) as [rt2 Hrt2]; [apply (eo_dom d e1 H1); eauto|]. eapply K2; eauto.
Qed.

Lemma lease_next_spec d e worker now duration :
  definition_ok d -> engine_ok d e ->
  exists r e', lease_next worker now duration e = Done (r, e') /\ engine_ok d e' /\ keeps_started d e e'
    /\ (forall x rx, en_steps e !! x = Some rx -> sr_state rx = Leased -> en_steps e' !! x = Some rx)
    /\ (en_next_lease_sequence e' = en_next_lease_sequence e
        \/ en_next_lease_sequence e' = saturating_add (en_next_lease_sequence e) 1)
    /\ match r with
       | Ok (Some lease) =>
           (if le_compensation lease then compensable e (le_step_id lease) else startable d e (le_step_id lease))
           /\ (exists l1 l2, wd_topological_order d = l1 ++ le_step_id lease :: l2
                 /\ forall x, x ∈ l1 -> ~ startable d e x /\ ~ compensable e x)
           /\ le_lease_id lease = ("workflow-lease-" : str) ++ decimal020 (en_next_lease_sequence e)
           /\ en_next_lease_sequence e' = saturating_add (en_next_lease_sequence e) 1
           /\ (exists rt', en_steps e' !! le_step_id lease = Some rt' /\ sr_state rt' = Leased
                 /\ sr_active_lease_id rt' = Some (le_lease_id lease))
           /\ le_worker_id lease = worker /\ le_expires_at_milliseconds lease = now + duration
       | Ok None => same_work e e' /\ forall id, ~ startable d e id /\ ~ compensable e id
       | Err _ => True
       end.
Proof.
  intros Hd He. unfold lease_next. destruct (_ || _) eqn:Hg.
  { eexists _, _. split_and!; auto using same_work_keeps, same_work_refl; done. }
  destruct (workflow_validate_identifier worker _) as [u|x].
  2: { eexists _, _. split_and!; auto using same_work_keeps, same_work_refl; done. }
  rewrite (eo_definition d e He).
  destruct (select_step_spec d e (wd_topological_order d) Hd He) as (sel & -> & Hsel).
  { intros id. by apply order_known. }
  destruct sel as [[id compensation]|].
  2: { destruct (advance_spec d e Hd He) as (r & e' & -> & He' & Hw). eexists _, _. split; [done|].
       split; [done|]. split; [by apply same_work_keeps|].
       split; [by destruct Hw as (_ & -> & _)|]. split; [left; apply Hw|].
       destruct r as [[]|x]; simpl; [|done]. split; [done|]. intros id.
       destruct (decide (id ∈ wd_topological_order d)) as [Hin|Hin]; [auto|].
       split; [intros (_ & _ & rt & step & _ & _ & Hs & _)|intros (_ & rt & Hrt & _)]; apply Hin, order_known; eauto.
       apply (eo_dom d e He). eauto. }
  destruct Hsel as (Hsel & Hfirst).
  assert (exists rt, en_steps e !! id = Some rt) as [rt Hrt].
  { destruct compensation; [destruct Hsel as (_ & rt & ? & _)|destruct Hsel as (_ & _ & rt & _ & ? & _)]; eauto. }
  destruct (issue_lease_spec d e worker now duration id compensation rt Hd He Hrt Hsel)
    as (r & e' & -> & He' & Heff & Hr). exists r, e'. split; [done|]. split; [done|].
  assert (r = Err StepNotReady /\ e' = e \/
    en_next_lease_sequence e' = saturating_add (en_next_lease_sequence e) 1
    /\ (exists rt', en_steps e' = <[id := rt']> (en_steps e) /\ sr_state rt' = Leased
          /\ sr_active_lease_id rt' = Some (("workflow-lease-" : str) ++ decimal020 (en_next_lease_sequence e))))
    as [[-> ->]|(Hnext & rt' & Hst & Hl & Ha)].
  { destruct r as [[lease|]|x]; [tauto|done|]. destruct x; try tauto. }
  { split_and!; auto using same_work_keeps, same_work_refl; done. }
  split. { intros x rx rx' Hn Hx Hx' Hp. rewrite Hst in Hx'. apply lookup_insert_Some in Hx' as [[_ <-]|[_ ?]]; congruence. }
  split. { intros x rx Hx Hlx. rewrite Hst, lookup_insert_ne; [done|]. intros <-. destruct compensation.
           - destruct Hsel as (_ & r0 & ? & ?). congruence.
           - destruct Hsel as (_ & _ & r0 & _ & ? & ? & _). congruence. }
  split; [by right|]. destruct r as [[lease|]|x]; [|done..]. destruct Hr as (<- & <- & Hid & Hexp & Hw).
  split_and!; auto. exists rt'. rewrite Hst, lookup_insert_eq. split_and!; congruence.
Qed.

(** ** Finishing a step *)

Lemma validate_lease_spec e lease now :
  validate_lease e lease now = Ok tt ->
  now < le_expires_at_milliseconds lease
  /\ exists rt, en_steps e !! le_step_id lease = Some rt /\ sr_active_lease_id rt = Some (le_lease_id lease).
Proof.
  unfold validate_lease. destruct (_ || _) eqn:Hb; [done|]. intros _. bools.
  match goal with H : ~ (_ <> Some (le_lease_id lease)) |- _ => apply dec_stable in H; rename H into Ha end.
  split; [done|]. apply bind_Some in Ha. destruct Ha as (rt & ? & ?). eauto.
Qed.

(** The engine with the leased step finished. *)
Lemma finish_step_ok d e lease now state evidence rt e1 :
  engine_ok d e -> validate_lease e lease now = Ok tt -> en_steps e !! le_step_id lease = Some rt ->
  is_started state = true -> state <> Compensating -> en_definition e1 = en_definition e ->
  en_state e1 = en_state e -> en_compensation_targets e1 = en_compensation_targets e ->
  en_audit e1 = en_audit e ->
  en_steps e1 = <[le_step_id lease := finish_runtime state evidence rt]> (en_steps e) ->
  engine_ok d e1 /\ keeps_started d e e1.
Proof.
  intros He Hv Hrt Hst Hnc Ed Es Et Ea Em. apply validate_lease_spec in Hv as (_ & rt0 & Hrt0 & Hact).
  assert (rt0 = rt) as -> by congruence.
  assert (~ is_target d (le_step_id lease) -> sr_state rt = Leased) as Hleased.
  { intros Hn. apply (eo_active d e He _ _ Hn Hrt). rewrite Hact. eauto. }
  split.
  - apply (engine_ok_step d e _ He); rewrite ?Ed, ?Et, ?Ea, ?Es, ?Em; try done; try apply He.
    + intros x. rewrite lookup_insert_is_Some'. split; [intros [<-|?]; eauto|auto].
    + intros x rx rx' Hn Hx. rewrite lookup_insert_Some. intros [[<- <-]|[Hne Hx']].
      * assert (rx = rt) as -> by congruence. specialize (Hleased Hn). unfold runtime_moves. simpl.
        rewrite Hleased. split_and!; try done; first [by left | by intros [? ?]].
      * assert (rx' = rx) as -> by congruence. by eapply runtime_stays.
    + intros Hearly x rx Ht. rewrite lookup_insert_Some. intros [[<- <-]|[Hne Hx]].
      * destruct (eo_early d e He Hearly _ _ Ht Hrt). congruence.
      * by apply (eo_early d e He Hearly x rx).
    + intros Hc x rx Hn. rewrite lookup_insert_Some. intros [[<- <-]|[Hne Hx]].
      * specialize (Hleased Hn). rewrite (eo_completed d e He Hc _ _ Hn Hrt) in Hleased. done.
      * by apply (eo_completed d e He Hc x rx).
  - intros x rx rx' Hn Hx Hx' Hp. rewrite Em in Hx'. apply lookup_insert_Some in Hx' as [[<- <-]|[_ ?]];
      simpl; [by destruct state|congruence].
Qed.

Lemma engine_complete_spec d e lease now evidence :
  definition_ok d -> engine_ok d e ->
  exists r e', engine_complete lease now evidence e = Done (r, e') /\ engine_ok d e' /\ keeps_started d e e'
    /\ en_next_lease_sequence e' = en_next_lease_sequence e
    /\ (forall x, ~ is_target d x -> en_steps e' !! x <> en_steps e !! x ->
          validate_lease e lease now = Ok tt /\ x = le_step_id lease).
Proof.
  intros Hd He. unfold engine_complete.
  destruct (workflow_validate_sha256 evidence _) as [u|x].
  2: { eexists _, _. split_and!; auto using same_work_keeps, same_work_refl; done. }
  destruct (validate_lease e lease now) as [[]|x] eqn:Hv.
  2: { eexists _, _. split_and!; auto using same_work_keeps, same_work_refl; done. }
  destruct (validate_lease_spec _ _ _ Hv) as (_ & rt & Hrt & _). rewrite Hrt.
  set (final := if le_compensation lease then Compensated else Succeeded).
  match goal with |- context [engine_audit _ _ _ _ ?e0] => set (e1 := e0) end.
  destruct (finish_step_ok d e lease now final evidence rt e1 He Hv Hrt) as [He1 Hk];
    try (by unfold final; destruct (le_compensation lease)).
  destruct (engine_audit _ _ _ _ e1) as [recorded e2] eqn:Ea.
  apply engine_audit_spec in Ea as (Hw & Fs & Fc). pose proof Hw as (F1 & F2 & F3 & F4 & F5).
  assert (engine_ok d e2) as He2 by (apply (engine_ok_state d e1); auto; rewrite ?Fs; auto; apply Fc, He1).
  assert (keeps_started d e e2) as Hk2 by (eapply (keeps_started_trans d e e1); eauto using same_work_keeps).
  assert (forall x, en_steps e2 !! x <> en_steps e !! x -> x = le_step_id lease) as Hother.
  { intros x Hx. rewrite F2 in Hx. destruct (decide (le_step_id lease = x)) as [|Hne]; [done|].
    simpl in Hx. by rewrite lookup_insert_ne in Hx. }
  destruct recorded as [v|x]; [|by eexists _, _; split_and!; eauto].
  destruct (advance_spec d e2 Hd He2) as (r & e' & -> & He' & (_ & G2 & _ & _ & G5)).
  eexists _, _. split_and!; [done|done| |by rewrite G5|rewrite G2; eauto].
  intros x rx rx' Hn Hx. rewrite G2. by apply Hk2.
Qed.

Lemma fail_workflow_spec d e lease rt :
  definition_ok d -> engine_ok d e -> en_steps e !! le_step_id lease = Some rt ->
  exists e', fail_workflow lease e = Done e' /\ engine_ok d e' /\ keeps_started d e e'
    /\ en_next_lease_sequence e' = en_next_lease_sequence e
    /\ (en_state e' = WsFailed \/ en_state e' = WsCancelling)
    /\ (forall x, ~ is_target d x -> en_steps e' !! x = en_steps e !! x).
Proof.
  intros Hd He Hrt. unfold fail_workflow.
  assert (engine_ok d (with_engine_state WsFailed e)) as Hf by (apply (engine_ok_state d e); simpl; auto; try done; apply He).
  assert (exists e', Done (with_engine_state WsFailed e) = Done e' /\ engine_ok d e' /\ keeps_started d e e'
    /\ en_next_lease_sequence e' = en_next_lease_sequence e
    /\ (en_state e' = WsFailed \/ en_state e' = WsCancelling)
    /\ (forall x, ~ is_target d x -> en_steps e' !! x = en_steps e !! x)) as Hfail.
  { eexists. split_and!; [done|done| |done|by left|done]. by apply same_work_keeps. }
  destruct (le_compensation lease); [done|].
  destruct (proj1 (eo_dom d e He (le_step_id lease)) ltac:(eauto)) as [step Hs].
  unfold index_map. rewrite (eo_definition d e He), Hs.
  destruct (ws_compensation_step_id step) as [target|] eqn:Ec; [|done].
  assert (is_target d target) as Ht by (apply target_spec; eauto).
  destruct (proj2 (eo_dom d e He target) (target_known d target Hd Ht)) as [rc Hrc]. rewrite Hrc. simpl.
  eexists. split; [done|]. split; [|split; [|split; [done|split; [by right|]]]].
  - apply (engine_ok_step d e _ He); simpl; try done; try apply He.
    + intros x. rewrite lookup_insert_is_Some'. split; [intros [<-|?]; eauto|auto].
    + intros x rx rx' Hn Hx. rewrite lookup_insert_Some. intros [[<- <-]|[Hne Hx']]; [done|].
      assert (rx' = rx) as -> by congruence. by eapply runtime_stays.
  - intros x rx rx' Hn Hx. simpl. rewrite lookup_insert_Some. intros [[<- <-]|[Hne Hx']]; [done|]. congruence.
  - intros x Hn. simpl. rewrite lookup_insert_ne; [done|]. by intros <-.
Qed.

Lemma engine_fail_spec d e lease now evidence :
  definition_ok d -> engine_ok d e ->
  exists r e', engine_fail lease now evidence e = Done (r, e') /\ engine_ok d e' /\ keeps_started d e e'
    /\ en_next_lease_sequence e' = en_next_lease_sequence e
    /\ (forall x, ~ is_target d x -> en_steps e' !! x <> en_steps e !! x ->
          validate_lease e lease now = Ok tt /\ x = le_step_id lease).
Proof.
  intros Hd He. unfold engine_fail.
  destruct (workflow_validate_sha256 evidence _) as [u|x].
  2: { eexists _, _. split_and!; auto using same_work_keeps, same_work_refl; done. }
  destruct (validate_lease e lease now) as [[]|x] eqn:Hv.
  2: { eexists _, _. split_and!; auto using same_work_keeps, same_work_refl; done. }
  destruct (validate_lease_spec _ _ _ Hv) as (_ & rt & Hrt & _). rewrite Hrt.
  match goal with |- context [fail_workflow _ ?e0] => set (e1 := e0) end.
  destruct (finish_step_ok d e lease now StepFailed evidence rt e1 He Hv Hrt) as [He1 Hk]; try done.
  destruct (fail_workflow_spec d e1 lease (finish_runtime StepFailed evidence rt) Hd He1)
    as (e2 & -> & He2 & Hk2 & En & _ & Hsame).
  { simpl. by rewrite lookup_insert_eq. }
  destruct (engine_audit _ _ _ _ e2) as [recorded e3] eqn:Ea.
  apply engine_audit_spec in Ea as (Hw & Fs & Fc). pose proof Hw as (F1 & F2 & F3 & F4 & F5).
  assert (engine_ok d e3) as He3 by (apply (engine_ok_state d e2); auto; rewrite ?Fs; auto; apply Fc, He2).
  eexists _, _. split_and!; [done|done| |by rewrite F5, En|].
  - eapply (keeps_started_trans d e e2); eauto using same_work_keeps. by eapply (keeps_started_trans d e e1).
  - intros x Hn Hx. split; [done|]. rewrite F2, (Hsame x Hn) in Hx. simpl in Hx.
    destruct (decide (le_step_id lease = x)) as [|Hne]; [done|]. by rewrite lookup_insert_ne in Hx.
Qed.

(** ** Histories of calls *)

Inductive EngineCall : Type :=
  | EStart | EPause | EResume | ECancel | EEmergencyStop
  | ELeaseNext (worker_id : str) (now lease_duration : N)
  | EComplete (lease : WorkflowLease) (now : N) (evidence_sha256 : str)
  | EFail (lease : WorkflowLease) (now : N) (evidence_sha256 : str).

(** One call, with the lease it hands out. *)
Definition engine_call (call : EngineCall) (e : WorkflowEngine) : Run (option WorkflowLease * WorkflowEngine) :=
  match call with
  | EStart => Done (None, (engine_start e).2)
  | EPause => Done (None, (engine_pause e).2)
  | EResume => Done (None, (engine_resume e).2)
  | ECancel => let! (_, e) := engine_cancel e in Done (None, e)
  | EEmergencyStop => Done (None, (engine_emergency_stop e).2)
  | ELeaseNext worker now duration =>
      let! (r, e) := lease_next worker now duration e in
      Done (match r with Ok lease => lease | Err _ => None end, e)
  | EComplete lease now evidence => let! (_, e) := engine_complete lease now evidence e in Done (None, e)
  | EFail lease now evidence => let! (_, e) := engine_fail lease now evidence e in Done (None, e)
  end.

Fixpoint engine_calls (calls : list EngineCall) (e : WorkflowEngine) : Run (list WorkflowLease * WorkflowEngine) :=
  match calls with
  | [] => Done ([], e)
  | call :: rest =>
      let! (lease, e) := engine_call call e in
      let! (leases, e) := engine_calls rest e in
      Done (match lease with Some lease => lease :: leases | None => leases end, e)
  end.

(** The leases of normal operation. *)
Definition normal_leases (leases : list WorkflowLease) : list WorkflowLease :=
  List.filter (fun lease => negb (le_compensation lease)) leases.

Definition lease_number (n : N) : str := ("workflow-lease-" : str) ++ decimal020 n.

Record trace_ok (d : WorkflowDefinition) (e : WorkflowEngine) (leases : list WorkflowLease) : Prop := {
  to_engine : engine_ok d e;
  to_taken : forall lease, lease ∈ normal_leases leases -> ~ is_target d (le_step_id lease)
    /\ exists rt, en_steps e !! le_step_id lease = Some rt /\ sr_state rt <> Pending;
  to_marked : forall lease, lease ∈ leases -> (le_compensation lease = true <-> is_target d (le_step_id lease));
  to_once : NoDup (le_step_id <$> normal_leases leases);
  to_numbers : en_next_lease_sequence e < u64_max -> exists numbers,
    le_lease_id <$> leases = lease_number <$> numbers /\ StronglySorted N.lt numbers
    /\ Forall (fun n => n < en_next_lease_sequence e) numbers
}.

Lemma trace_ok_keep d e e' leases :
  trace_ok d e leases -> engine_ok d e' -> keeps_started d e e' ->
  en_next_lease_sequence e' = en_next_lease_sequence e -> trace_ok d e' leases.
Proof.
  intros Ht He' Hk En. constructor; [done| |apply Ht|apply Ht|rewrite En; apply Ht].
  intros lease Hl. destruct (to_taken _ _ _ Ht lease Hl) as (Hn & rt & Hrt & Hp). split; [done|].
  destruct (proj2 (eo_dom d e' He' (le_step_id lease))) as [rt' Hrt'];
    [apply (eo_dom d e (to_engine _ _ _ Ht)); eauto|]. exists rt'. split; [done|]. by eapply Hk.
Qed.

Lemma strongly_sorted_snoc_lt l n :
  StronglySorted N.lt l -> Forall (fun m => m < n) l -> StronglySorted N.lt (l ++ [n]).
Proof.
  induction 1 as [|m l Hs IH Hm]; intros Hf; simpl; [repeat constructor|].
  apply Forall_cons in Hf as [? ?]. constructor; [auto|]. apply Forall_app. auto.
Qed.

Lemma trace_numbers_next d e leases next :
  trace_ok d e leases -> next = en_next_lease_sequence e \/ next = saturating_add (en_next_lease_sequence e) 1 ->
  next < u64_max -> exists numbers,
    le_lease_id <$> leases = lease_number <$> numbers /\ StronglySorted N.lt numbers
    /\ Forall (fun n => n < en_next_lease_sequence e) numbers /\ Forall (fun n => n < next) numbers.
Proof.
  intros Ht Hn Hlt. assert (en_next_lease_sequence e <= next /\ en_next_lease_sequence e < u64_max) as [Hle Hlt'].
  { destruct Hn as [->| ->]; [lia|]. pose proof (saturating_succ_exact _ Hlt) as E. rewrite E in Hlt |- *.
    revert Hlt. generalize u64_max. intros. lia. }
  destruct (to_numbers _ _ _ Ht Hlt') as (numbers & E & Hs & Hf). exists numbers. split_and!; auto.
  eapply Forall_impl; [exact Hf|]. simpl. lia.
Qed.

Lemma filter_snoc {A} (p : A -> bool) l x :
  List.filter p (l ++ [x]) = List.filter p l ++ (if p x then [x] else []).
Proof. rewrite List.filter_app. simpl. by destruct (p x). Qed.

Lemma trace_ok_lease d e e' leases lease :
  trace_ok d e leases -> engine_ok d e' -> keeps_started d e e' ->
  en_next_lease_sequence e' = saturating_add (en_next_lease_sequence e) 1 ->
  le_lease_id lease = lease_number (en_next_lease_sequence e) ->
  (if le_compensation lease then compensable e (le_step_id lease) else startable d e (le_step_id lease)) ->
  (exists rt', en_steps e' !! le_step_id lease = Some rt' /\ sr_state rt' = Leased) ->
  trace_ok d e' (leases ++ [lease]).
Proof.
  intros Ht He' Hk En Hid Hsel (rt' & Hrt' & Hl).
  assert (le_compensation lease = false -> startable d e (le_step_id lease)) as Hstart
    by (intros Ec; by rewrite Ec in Hsel).
  constructor; [done| | | |].
  - unfold normal_leases. rewrite filter_snoc. intros l [Hin|Hin]%elem_of_app.
    + destruct (to_taken _ _ _ Ht l Hin) as (Hn & rt & Hrt & Hp). split; [done|].
      destruct (proj2 (eo_dom d e' He' (le_step_id l))) as [r Hr];
        [apply (eo_dom d e (to_engine _ _ _ Ht)); eauto|]. exists r. split; [done|]. by eapply Hk.
    + destruct (le_compensation lease) eqn:Ec; simpl in Hin; [set_solver|].
      apply list_elem_of_singleton in Hin as ->. destruct (Hstart eq_refl) as (_ & Hn & _).
      split; [done|]. exists rt'. split; [done|]. congruence.
  - intros l [Hin|Hin]%elem_of_app; [by apply (to_marked _ _ _ Ht)|]. apply list_elem_of_singleton in Hin as ->.
    destruct (le_compensation lease); [|by destruct Hsel as (_ & Hn & _)].
    split; [intros _|done]. apply (compensable_target d e); [apply Ht|done].
  - unfold normal_leases. rewrite filter_snoc, fmap_app. destruct (le_compensation lease) eqn:Ec; simpl.
    { rewrite app_nil_r. apply Ht. }
    apply NoDup_app. split; [apply Ht|]. split; [|apply NoDup_singleton].
    intros x (l & -> & Hin)%list_elem_of_fmap Hx. apply list_elem_of_singleton in Hx.
    destruct (to_taken _ _ _ Ht l Hin) as (_ & rt & Hrt & Hp).
    destruct (Hstart eq_refl) as (_ & _ & rt0 & _ & Hrt0 & Hp0 & _). rewrite Hx in Hrt. congruence.
  - intros Hlt. destruct (trace_numbers_next d e leases _ Ht (or_intror eq_refl) ltac:(by rewrite <- En))
      as (numbers & E & Hs & Hf & _).
    exists (numbers ++ [en_next_lease_sequence e]). rewrite !fmap_app, E. simpl. rewrite Hid.
    split_and!; [done|by apply strongly_sorted_snoc_lt|]. rewrite En in *.
    rewrite (saturating_succ_exact _ Hlt). apply Forall_app. split; [|repeat constructor; lia].
    eapply Forall_impl; [exact Hf|]. simpl. lia.
Qed.

Lemma engine_call_ok d e call leases :
  definition_ok d -> trace_ok d e leases ->
  exists lease e', engine_call call e = Done (lease, e')
    /\ trace_ok d e' (leases ++ match lease with Some l => [l] | None => [] end).
Proof.
  intros Hd Ht. pose proof (to_engine _ _ _ Ht) as He.
  assert (forall e', engine_ok d e' -> same_work e e' -> trace_ok d e' (leases ++ [])) as Hsame.
  { intros e' He' Hw. rewrite app_nil_r. eapply trace_ok_keep; eauto using same_work_keeps. apply Hw. }
  destruct call as [| | | | |worker now duration|lease now evidence|lease now evidence]; simpl.
  - destruct (engine_start e) as [r e'] eqn:E. eexists _, _. split; [done|]. eapply engine_start_ok in E as []; eauto.
  - destruct (engine_pause e) as [r e'] eqn:E. eexists _, _. split; [done|]. eapply engine_pause_ok in E as []; eauto.
  - destruct (engine_resume e) as [r e'] eqn:E. eexists _, _. split; [done|]. eapply engine_resume_ok in E as []; eauto.
  - destruct (engine_cancel_spec d e Hd He) as (r & e' & -> & He' & En & Hk). eexists _, _. split; [done|].
    rewrite app_nil_r. by eapply trace_ok_keep.
  - destruct (engine_emergency_stop e) as [r e'] eqn:E. eexists _, _. split; [done|].
    eapply engine_stop_ok in E as (He' & En & Hk); [|done]. rewrite app_nil_r. by eapply trace_ok_keep.
  - destruct (lease_next_spec d e worker now duration Hd He) as (r & e' & -> & He' & Hk & _ & Hn & Hr).
    eexists _, _. split; [done|].
    assert (trace_ok d e' leases) as Hnone.
    { constructor; [done| |apply Ht|apply Ht|].
      - intros l Hl. destruct (to_taken _ _ _ Ht l Hl) as (Hnt & rt & Hrt & Hp). split; [done|].
        destruct (proj2 (eo_dom d e' He' (le_step_id l))) as [rt' Hrt'];
          [apply (eo_dom d e He); eauto|]. exists rt'. split; [done|]. by eapply Hk.
      - intros Hlt. destruct (trace_numbers_next d e leases _ Ht Hn Hlt) as (numbers & ? & ? & _ & ?). eauto. }
    destruct r as [[lease|]|x]; rewrite ?app_nil_r; [|done..].
    destruct Hr as (Hsel & _ & Hid & En & (rt' & Hrt' & Hl & _) & _).
    apply (trace_ok_lease d e); eauto.
  - destruct (engine_complete_spec d e lease now evidence Hd He) as (r & e' & -> & He' & Hk & En & _).
    eexists _, _. split; [done|]. rewrite app_nil_r. by eapply trace_ok_keep.
  - destruct (engine_fail_spec d e lease now evidence Hd He) as (r & e' & -> & He' & Hk & En & _).
    eexists _, _. split; [done|]. rewrite app_nil_r. by eapply trace_ok_keep.
Qed.

Lemma engine_calls_ok d calls : forall e leases0,
  definition_ok d -> trace_ok d e leases0 ->
  exists leases e', engine_calls calls e = Done (leases, e') /\ trace_ok d e' (leases0 ++ leases).
Proof.
  induction calls as [|call calls IH]; intros e leases0 Hd Ht; simpl.
  { eexists _, _. split; [done|]. by rewrite app_nil_r. }
  destruct (engine_call_ok d e call leases0 Hd Ht) as (lease & e1 & -> & Ht1).
  destruct (IH e1 _ Hd Ht1) as (leases & e' & -> & Ht'). eexists _, _. split; [done|].
  rewrite <- app_assoc in Ht'. by destruct lease.
Qed.

Lemma engine_new_trace d genesis e : definition_ok d -> engine_new d genesis = Ok e -> trace_ok d e [].
Proof.
  intros Hd Hn. pose proof (engine_new_ok d genesis e Hd Hn) as He. constructor; [done| | |constructor|].
  - unfold normal_leases. simpl. set_solver.
  - intros lease Hl. by apply elem_of_nil in Hl.
  - intros _. exists []. split_and!; [done|constructor|constructor].
Qed.

(** ** Expired leases *)

(** A step of normal operation is held by the lease [lease_id]. *)
Definition held (d : WorkflowDefinition) (e : WorkflowEngine) (id lease_id : str) : Prop :=
  ~ is_target d id /\ exists rt, en_steps e !! id = Some rt /\ sr_state rt = Leased
    /\ sr_active_lease_id rt = Some lease_id.

(** Any call but an emergency stop; a finish with that lease comes too late. *)
Definition too_late (lease_id : str) (call : EngineCall) : Prop :=
  match call with
  | EEmergencyStop => False
  | EComplete lease now _ | EFail lease now _ =>
      le_lease_id lease = lease_id -> le_expires_at_milliseconds lease <= now
  | _ => True
  end.

Lemma held_any_leased d e id lease_id : held d e id lease_id -> any_leased e = true.
Proof.
  intros (_ & rt & Hrt & Hl & _). unfold any_leased. apply existsb_elem. exists rt.
  split; [apply elem_of_map_values; eauto|by rewrite bool_decide_eq_true_2].
Qed.

Lemma held_cancel d e id lease_id :
  held d e id lease_id -> engine_cancel e = Done (Err InvalidWorkflowState, e)
    /\ engine_pause e = (Err InvalidWorkflowState, e).
Proof.
  intros Hh. unfold engine_cancel, engine_pause. by rewrite (held_any_leased _ _ _ _ Hh), !orb_true_r.
Qed.

Lemma held_step d e call id lease_id leases lease e' :
  definition_ok d -> trace_ok d e leases -> held d e id lease_id -> too_late lease_id call ->
  engine_call call e = Done (lease, e') -> held d e' id lease_id.
Proof.
  intros Hd Ht Hh Hl Hc. pose proof (to_engine _ _ _ Ht) as He. pose proof Hh as (Hn & rt & Hrt & Hst & Ha).
  assert (forall e1, same_work e e1 -> held d e1 id lease_id) as Hsame.
  { intros e1 (_ & E & _). split; [done|]. exists rt. by rewrite E. }
  assert (forall e1, (forall x, ~ is_target d x -> en_steps e1 !! x <> en_steps e !! x ->
    x = id -> False) -> held d e1 id lease_id) as Hother.
  { intros e1 Hx. split; [done|]. exists rt. split; [|done].
    destruct (decide (en_steps e1 !! id = en_steps e !! id)) as [->|Hne]; [done|]. by destruct (Hx id Hn Hne). }
  assert (forall l now, (le_lease_id l = lease_id -> le_expires_at_milliseconds l <= now) ->
    validate_lease e l now = Ok tt -> id = le_step_id l -> False) as Hlate.
  { intros l now Hle (Hnow & r0 & Hr0 & Ha0)%validate_lease_spec ->.
    assert (r0 = rt) as -> by congruence. rewrite Ha in Ha0. injection Ha0 as E. specialize (Hle (eq_sym E)). lia. }
  destruct call as [| | | | |worker now duration|l now evidence|l now evidence]; simpl in Hc, Hl; try done.
  - injection Hc as _ <-. destruct (engine_start e) as [r e1] eqn:E. apply Hsame. by eapply engine_start_ok.
  - injection Hc as _ <-. by rewrite (proj2 (held_cancel _ _ _ _ Hh)).
  - injection Hc as _ <-. destruct (engine_resume e) as [r e1] eqn:E. apply Hsame. by eapply engine_resume_ok.
  - rewrite (proj1 (held_cancel _ _ _ _ Hh)) in Hc. by injection Hc as _ <-.
  - destruct (lease_next_spec d e worker now duration Hd He) as (r & e1 & E & _ & _ & Hkeep & _).
    rewrite E in Hc. injection Hc as _ <-. split; [done|]. exists rt. split; [by apply Hkeep|done].
  - destruct (engine_complete_spec d e l now evidence Hd He) as (r & e1 & E & _ & _ & _ & Hch).
    rewrite E in Hc. injection Hc as _ <-. apply Hother. intros x Hx Hne ->.
    destruct (Hch id Hx Hne) as [Hv ?]. by eapply Hlate.
  - destruct (engine_fail_spec d e l now evidence Hd He) as (r & e1 & E & _ & _ & _ & Hch).
    rewrite E in Hc. injection Hc as _ <-. apply Hother. intros x Hx Hne ->.
    destruct (Hch id Hx Hne) as [Hv ?]. by eapply Hlate.
Qed.

Lemma held_calls d calls : forall e id lease_id leases0,
  definition_ok d -> trace_ok d e leases0 -> held d e id lease_id -> Forall (too_late lease_id) calls ->
  exists leases e', engine_calls calls e = Done (leases, e') /\ held d e' id lease_id
    /\ trace_ok d e' (leases0 ++ leases).
Proof.
  induction calls as [|call calls IH]; intros e id lease_id leases0 Hd Ht Hh Hl; simpl.
  { eexists _, _. split; [done|]. by rewrite app_nil_r. }
  apply Forall_cons in Hl as [Hl Hls].
  destruct (engine_call_ok d e call leases0 Hd Ht) as (lease & e1 & E & Ht1). rewrite E.
  pose proof (held_step _ _ _ _ _ _ _ _ Hd Ht Hh Hl E) as Hh1.
  destruct (IH e1 id lease_id _ Hd Ht1 Hh1 Hls) as (leases & e' & -> & Hh' & Ht').
  eexists _, _. split; [done|]. split; [done|]. rewrite <- app_assoc in Ht'. by destruct lease.
Qed.

End Facts.

(** ** Votes *)

#[export] Instance OracleDecision_eq_dec : EqDecision OracleDecision.
Proof. solve_decision. Defined.

Definition votes_for (decision : OracleDecision) (votes : list OracleVote) : list OracleVote :=
  List.filter (fun vote => bool_decide (ov_decision vote = decision)) votes.

Lemma count_votes_spec policy votes : forall t0 t,
  count_votes policy votes t0 = Ok t ->
  NoDup (ov_oracle_id <$> votes)
  /\ (forall vote, vote ∈ votes -> ov_oracle_id vote ∉ ta_oracle_ids t0)
  /\ Forall (fun vote => ov_policy_snapshot_sha256 vote = policy) votes
  /\ ta_confirmed t = ta_confirmed t0 + len (votes_for Confirmed votes)
  /\ ta_rejected t = ta_rejected t0 + len (votes_for Rejected votes)
  /\ ta_inconclusive t = ta_inconclusive t0 + len (votes_for Inconclusive votes)
  /\ forall delta, delta ∈ ta_deltas t <-> delta ∈ ta_deltas t0
       \/ exists vote, vote ∈ votes_for Confirmed votes /\ ov_repeatable_delta_sha256 vote = Some delta.
Proof.
  induction votes as [|v votes IH]; intros t0 t Hc; simpl in Hc.
  { injection Hc as <-. unfold votes_for. simpl. rewrite len_nil. split_and!; try lia; try constructor; set_solver. }
  destruct (count_vote policy v t0) as [t1|] eqn:Hv; [|done].
  destruct (IH t1 t Hc) as (Hnd & Hnew & Hp & H1 & H2 & H3 & Hd).
  unfold count_vote in Hv. destruct (vote_validate v); [|done]. destruct (_ || _) eqn:Hb; [done|]. bools.
  apply dec_stable in H. assert (ta_oracle_ids t1 = {[ ov_oracle_id v ]} ∪ ta_oracle_ids t0) as Eids.
  { destruct (ov_decision v); [destruct (ov_repeatable_delta_sha256 v)|..]; by simplify_eq/=. }
  setoid_rewrite Eids in Hnew.
  split; [rewrite fmap_cons; apply NoDup_cons; split; [|done]; intros (w & E & Hw)%list_elem_of_fmap;
    specialize (Hnew w Hw); set_solver|].
  split; [intros w [->|Hw]%elem_of_cons; [done|]; specialize (Hnew w Hw); set_solver|].
  split; [by constructor|]. unfold votes_for in *. cbn [List.filter].
  destruct (ov_decision v) eqn:Ed; [destruct (ov_repeatable_delta_sha256 v) as [delta0|] eqn:Edelta; [|done]|..];
    injection Hv as <-; simpl in *; rewrite ?len_cons; split_and!; try lia; intros delta; rewrite Hd; try done.
  rewrite elem_of_union, elem_of_singleton. setoid_rewrite elem_of_cons. split.
  - intros [[->|?]|(w & ? & ?)]; eauto 10.
  - intros [?|(w & [->|?] & E)]; [auto| |eauto 10]. left. left. congruence.
Qed.

Lemma votes_partition votes :
  len votes = len (votes_for Confirmed votes) + len (votes_for Rejected votes)
    + len (votes_for Inconclusive votes).
Proof.
  induction votes as [|v votes IH]; [done|]. unfold votes_for in *. simpl. destruct (ov_decision v); simpl;
    rewrite !len_cons, IH; lia.
Qed.

(** Every confirming vote of a valid ballot carries a delta. *)
Lemma confirmed_has_delta policy votes t0 t :
  count_votes policy votes t0 = Ok t -> forall vote, vote ∈ votes_for Confirmed votes ->
  is_Some (ov_repeatable_delta_sha256 vote).
Proof.
  revert t0. induction votes as [|v votes IH]; intros t0 Hc vote Hv; simpl in Hc; [unfold votes_for in Hv; set_solver|].
  destruct (count_vote policy v t0) as [t1|] eqn:Hcv; [|done].
  unfold votes_for in Hv. simpl in Hv. case_bool_decide as Ed.
  - apply elem_of_cons in Hv as [->|Hv]; [|by eapply IH]. unfold count_vote in Hcv.
    destruct (vote_validate v); [|done]. destruct (_ || _); [done|]. rewrite Ed in Hcv.
    by destruct (ov_repeatable_delta_sha256 v).
  - by eapply IH.
Qed.

Section Ballot.
Context {S : Sha256Lib} {JQ : JsonLib QuorumMaterial}.

Lemma quorum_spec policy votes c q :
  evaluate_quorum policy votes c = Ok q ->
  NoDup (ov_oracle_id <$> votes) /\ Forall (fun vote => ov_policy_snapshot_sha256 vote = policy) votes
  /\ oq_policy_snapshot_sha256 q = policy
  /\ oq_confirmed_votes q = len (votes_for Confirmed votes)
  /\ oq_rejected_votes q = len (votes_for Rejected votes)
  /\ oq_vote_count q = oq_confirmed_votes q + oq_rejected_votes q + oq_inconclusive_votes q
  /\ match oq_decision q with
     | QConfirmed =>
         oc_required_votes c <= len (votes_for Confirmed votes)
         /\ forall v w, v ∈ votes_for Confirmed votes -> w ∈ votes_for Confirmed votes ->
              ov_repeatable_delta_sha256 v = ov_repeatable_delta_sha256 w
     | QRejected =>
         oc_required_votes c <= len (votes_for Rejected votes)
         /\ len (votes_for Confirmed votes) < oc_required_votes c
     | QInconclusive =>
         len (votes_for Confirmed votes) < oc_required_votes c
         /\ len (votes_for Rejected votes) < oc_required_votes c
     | QDrift =>
         exists v w, v ∈ votes_for Confirmed votes /\ w ∈ votes_for Confirmed votes
           /\ ov_repeatable_delta_sha256 v <> ov_repeatable_delta_sha256 w
     end.
Proof.
  unfold evaluate_quorum. destruct (workflow_validate_sha256 policy _) as [[]|]; [|done].
  destruct (_ || _) eqn:Hb; [done|]. destruct (count_votes policy votes empty_tally) as [t|] eqn:Hc; [|done].
  destruct (workflow_hash _) as [hash|]; [|done]. intros [= <-]. simpl.
  pose proof (confirmed_has_delta _ _ _ _ Hc) as Hdel.
  apply count_votes_spec in Hc as (Hnd & _ & Hp & H1 & H2 & H3 & Hd). simpl in *.
  rewrite H1, H2, H3, !N.add_0_l. split_and!; auto using votes_partition.
  assert (forall delta, delta ∈ ta_deltas t <-> exists vote, vote ∈ votes_for Confirmed votes
    /\ ov_repeatable_delta_sha256 vote = Some delta) as Hd' by (intros delta; rewrite Hd; set_solver).
  unfold quorum_decision. rewrite H1, H2, !N.add_0_l. repeat case_match; bools; try done; simplify_eq.
  - split; [done|]. intros v w Hv Hw. destruct (Hdel v Hv) as [dv Ev], (Hdel w Hw) as [dw Ew].
    rewrite Ev, Ew. f_equal. assert (dv ∈ ta_deltas t) as Hdv by (apply Hd'; eauto).
    assert (dw ∈ ta_deltas t) as Hdw by (apply Hd'; eauto).
    destruct (decide (dv = dw)) as [|Hne]; [done|]. exfalso.
    assert (size ({[ dv; dw ]} : gset str) = 2%nat) as E2 by (by rewrite size_union, !size_singleton by set_solver).
    assert (({[ dv; dw ]} : gset str) ⊆ ta_deltas t) as Hsub by set_solver.
    apply subseteq_size in Hsub. lia.
  - destruct (decide (ta_deltas t = ∅)) as [He|He]; [rewrite He, size_empty in *; lia|].
    apply set_choose_L in He as [dv Hdv].
    destruct (decide (ta_deltas t ∖ {[ dv ]} = ∅)) as [He|He].
    { assert (ta_deltas t ⊆ {[ dv ]}) as Hsub.
      { intros x Hx. destruct (decide (x = dv)) as [->|Hne]; [by apply elem_of_singleton|].
        assert (x ∈ ta_deltas t ∖ {[ dv ]}) as Hin by (by apply elem_of_difference; rewrite elem_of_singleton).
        rewrite He in Hin. set_solver. }
      apply subseteq_size in Hsub.
      rewrite size_singleton in Hsub. lia. }
    apply set_choose_L in He as [dw Hdw]. apply elem_of_difference in Hdw as [Hdw Hne].
    apply Hd' in Hdv as (v & Hv & Ev), Hdw as (w & Hw & Ew). exists v, w. split_and!; [done..|].
    rewrite Ev, Ew. intros [= ->]. by apply Hne, elem_of_singleton.
Qed.
End Ballot.

(** What the checks of [certify] establish. *)
Lemma certification_checks_spec input :
  certification_checks input = Ok tt ->
  ci_workflow_state input = WsCompleted /\ ci_unresolved_cleanup_objects input = 0
  /\ ci_failed_steps input = 0 /\ ci_all_audits_verified input = true
  /\ ci_policy_drift_detected input = false
  /\ oq_policy_snapshot_sha256 (ci_quorum input) = ci_policy_snapshot_sha256 input
  /\ (oq_decision (ci_quorum input) = QConfirmed \/ oq_decision (ci_quorum input) = QRejected).
Proof.
  unfold certification_checks. rewrite !seq_ok, guard_ok. intros (_ & _ & _ & Hb & _).
  destruct (oq_decision (ci_quorum input)); rewrite ?orb_true_r in Hb; try done; bools;
    match goal with H : ~ (_ <> _) |- _ => apply dec_stable in H end; auto 10.
Qed.

(** ** Examples *)

Definition toy_engine_json : JsonLib (HashMaterial WorkflowAuditEvent) :=
  toy_json (fun e => wa_action e ++ wa_subject_id e ++ wa_outcome e).
Definition toy_definition_json : JsonLib DefinitionMaterial :=
  {| to_vec m := let '(workflow_id, run_id, _, _, order, _, _) := m in
       Ok (workflow_id ++ run_id ++ join "," order) |}.
Definition toy_quorum_json : JsonLib QuorumMaterial :=
  {| to_vec m := let '(coordinator, policy, votes, _) := m in Ok (coordinator ++ policy ++ decimal (len votes)) |}.
Definition toy_roots_json : JsonLib AuditRootsMaterial :=
  {| to_vec m := let '(a, b, c) := m in Ok (a ++ b ++ c) |}.
Definition toy_certificate_json : JsonLib CertificateMaterial :=
  {| to_vec m := let '(authority, run, workflow, _, _, quorum, _, manifest, roots) := m in
       Ok (authority ++ run ++ workflow ++ quorum ++ manifest ++ roots) |}.

Definition sample_digest (c : byte) : str := replicate 64 c.

Definition plain_step (id : str) (dependencies : gset str) (compensation : option str) : WorkflowStep :=
  {| ws_step_id := id; ws_action := Observe; ws_dependencies := dependencies; ws_capability_id := None;
     ws_request_cost := 1; ws_mutation_cost := 0; ws_creates_owned_object := false;
     ws_compensation_step_id := compensation |}.

Definition cleanup_step (id : str) : WorkflowStep :=
  {| ws_step_id := id; ws_action := CleanupOwnedObject; ws_dependencies := ∅;
     ws_capability_id := Some ("capability-1" : str); ws_request_cost := 1; ws_mutation_cost := 0;
     ws_creates_owned_object := false; ws_compensation_step_id := None |}.

(** Two steps that may run side by side, a step that follows both, and a cleanup. *)
Definition sample_steps : list WorkflowStep :=
  [plain_step "report" {[ ("left" : str); ("right" : str) ]} None; plain_step "left" ∅ None;
   plain_step "right" ∅ (Some ("undo" : str)); cleanup_step "undo"].

Definition sample_definition : Result WorkflowDefinition WorkflowError :=
  match @definition_new toy_sha256 toy_definition_json "workflow-1" "run-1" (sample_digest "a") sample_steps with
  | Done r => r
  | Panic _ => Err StepNotReady
  end.

Definition sample_engine (calls : list EngineCall) : option (list WorkflowLease * WorkflowEngine) :=
  match sample_definition with
  | Ok d =>
      match engine_new d (sample_digest "b") with
      | Ok e =>
          match @engine_calls toy_sha256 toy_engine_json calls e with
          | Done result => Some result
          | Panic _ => None
          end
      | Err _ => None
      end
  | Err _ => None
  end.

(** The lease the engine hands out for a step with the given number. *)
Definition sample_lease (n : N) (step_id : str) (compensation : bool) : WorkflowLease :=
  {| le_lease_id := lease_number n; le_workflow_id := "workflow-1";
     le_definition_sha256 :=
       match sample_definition with Ok d => wd_definition_sha256 d | Err _ => [] end;
     le_step_id := step_id; le_worker_id := "worker-1"; le_attempt := 1; le_issued_at_milliseconds := 0;
     le_expires_at_milliseconds := 1000; le_compensation := compensation |}.

Definition sample_full_run : list EngineCall :=
  [EStart; ELeaseNext "worker-1" 0 1000; ELeaseNext "worker-1" 0 1000;
   EComplete (sample_lease 2 "right" false) 10 (sample_digest "c");
   EComplete (sample_lease 1 "left" false) 11 (sample_digest "c");
   ELeaseNext "worker-1" 0 1000; EComplete (sample_lease 3 "report" false) 12 (sample_digest "d")].

Example sample_workflow_completes :
  option_map (fun '(leases, e) => (map le_step_id leases, en_state e)) (sample_engine sample_full_run)
  = Some (["left" : str; "right" : str; "report" : str], WsCompleted).
Proof. vm_compute. reflexivity. Qed.

(** A failed workflow is reopened: after the failure of one of two steps that run
    side by side the workflow is [Failed], a terminal state, and the failure of the
    other one moves it to [Cancelling] again. *)
Example failed_workflow_reopens :
  option_map (fun '(_, e) => en_state e) (sample_engine
    [EStart; ELeaseNext "worker-1" 0 1000; ELeaseNext "worker-1" 0 1000;
     EFail (sample_lease 1 "left" false) 10 (sample_digest "c")]) = Some WsFailed
  /\ option_map (fun '(_, e) => en_state e) (sample_engine
    [EStart; ELeaseNext "worker-1" 0 1000; ELeaseNext "worker-1" 0 1000;
     EFail (sample_lease 1 "left" false) 10 (sample_digest "c");
     EFail (sample_lease 2 "right" false) 11 (sample_digest "c")]) = Some WsCancelling.
Proof. split; vm_compute; reflexivity. Qed.

(** ** Properties *)

(** C33: along every history of engine calls on a constructed workflow, with any
    leases presented to it, no call panics. A step that compensates no other and was
    taken up has all its dependencies succeeded, and is leased at most once; the
    workflow is completed only when every such step succeeded. Exactly the leases
    marked as compensations are for compensation steps, which stay pending and
    unleased until the workflow is cancelled or fails; they are leased without looking
    at their dependencies and may be leased again. The lease identifiers are pairwise
    different while the 64-bit counter lasts, and the audit chain verifies. *)
Theorem workflow_history_is_sound {S : Sha256Lib} {JA : JsonLib (HashMaterial WorkflowAuditEvent)}
    {JD : JsonLib DefinitionMaterial} (workflow_id run_id policy genesis : str) (steps : list WorkflowStep)
    (d : WorkflowDefinition) (e : WorkflowEngine) (calls : list EngineCall) :
  definition_new workflow_id run_id policy steps = Done (Ok d) -> engine_new d genesis = Ok e ->
  exists leases e', engine_calls calls e = Done (leases, e')
    /\ (forall id step rt, wd_steps d !! id = Some step -> ~ is_target d id -> en_steps e' !! id = Some rt ->
          is_started (sr_state rt) = true ->
          forall dependency, dependency ∈ ws_dependencies step -> succeeded e' dependency)
    /\ (en_state e' = WsCompleted -> forall id, is_Some (wd_steps d !! id) -> ~ is_target d id -> succeeded e' id)
    /\ NoDup (le_step_id <$> normal_leases leases)
    /\ (forall lease, lease ∈ leases -> (le_compensation lease = true <-> is_target d (le_step_id lease)))
    /\ (en_state e' ∈ [WsCreated; WsRunning; WsPaused; WsCompleted] ->
          forall id rt, is_target d id -> en_steps e' !! id = Some rt ->
            sr_state rt = Pending /\ sr_active_lease_id rt = None)
    /\ (en_next_lease_sequence e' < u64_max -> NoDup (le_lease_id <$> leases))
    /\ workflow_audit_verify (en_audit e') = Ok tt.
Proof.
  intros Hdef Hnew. destruct (definition_new_ok workflow_id run_id policy steps) as (r & E & Hd).
  rewrite Hdef in E. injection E as <-. specialize (Hd d eq_refl).
  destruct (engine_calls_ok d calls e [] Hd (engine_new_trace d genesis e Hd Hnew)) as (leases & e' & Hc & Ht).
  pose proof (to_engine _ _ _ Ht) as He'. exists leases, e'. split; [done|]. split_and!.
  - intros id step rt Hs Hn Hrt Hst dep Hdep. by eapply (eo_started d e' He').
  - intros Hcomp id Hid Hn. apply (eo_dom d e' He') in Hid as [rt Hrt]. exists rt. split; [done|].
    by eapply (eo_completed d e' He').
  - apply Ht.
  - apply (to_marked _ _ _ Ht).
  - intros Hst id rt Hi Hrt. apply (eo_early d e' He') with (id := id); auto. revert Hst. clear.
    destruct (en_state e'); cbn; set_solver.
  - intros Hlt. destruct (to_numbers _ _ _ Ht Hlt) as (numbers & Eq & Hs & _). simpl in Eq. rewrite Eq.
    apply NoDup_fmap_2.
    + intros a b Hab. unfold lease_number in Hab. apply app_inv_head in Hab. by apply (inj decimal020).
    + clear -Hs. induction Hs as [|n l Hs IH Hn]; constructor; [|done]. intros Hin.
      apply (proj1 (Forall_forall _ _) Hn) in Hin. lia.
  - unfold workflow_audit_verify. by rewrite (proj2 (chain_verify_spec _) (eo_audit d e' He')).
Qed.

Lemma workflow_history_is_sound_witness :
  match sample_definition with
  | Ok d =>
      match engine_new d (sample_digest "b") with
      | Ok e => exists leases e', @engine_calls toy_sha256 toy_engine_json sample_full_run e = Done (leases, e')
      | Err _ => False
      end
  | Err _ => False
  end.
Proof.
  assert (match sample_definition with Ok d => is_ok (engine_new d (sample_digest "b")) | Err _ => false end = true)
    as Hb by (vm_compute; reflexivity).
  unfold sample_definition in *.
  destruct (@definition_new toy_sha256 toy_definition_json _ _ _ _) as [[d|]|] eqn:Ed; try discriminate Hb.
  destruct (engine_new d (sample_digest "b")) as [e|] eqn:Ee; [|discriminate Hb].
  destruct (@workflow_history_is_sound toy_sha256 toy_engine_json toy_definition_json _ _ _ _ _ d e
    sample_full_run Ed Ee) as (leases & e' & Hc & _).
  exact (ex_intro _ leases (ex_intro _ e' Hc)).
Defined.


Definition sample_late_calls : list EngineCall :=
  [EComplete (sample_lease 1 "left" false) 1000 (sample_digest "c");
   EFail (sample_lease 1 "left" false) 1000 (sample_digest "c");
   EPause; ECancel; ELeaseNext "worker-2" 2000 1000].

(** A boolean form of [held]. *)
Definition heldb (d : WorkflowDefinition) (e : WorkflowEngine) (id lease_id : str) : bool :=
  negb (bool_decide (id ∈ compensation_targets_of (wd_steps d)))
  && match en_steps e !! id with
     | Some rt => bool_decide (sr_state rt = Leased) && bool_decide (sr_active_lease_id rt = Some lease_id)
     | None => false
     end.

Lemma heldb_held d e id lease_id : heldb d e id lease_id = true -> held d e id lease_id.
Proof.
  unfold heldb, held, is_target. intros Hb. destruct (en_steps e !! id) as [rt|]; bools; [|done].
  split; [done|]. eauto.
Qed.


(** A certificate closes a run only when its workflow completed, no cleanup or
    failed step is left, all audits verified, no policy drifted and the quorum was
    decided under the same policy: at least the required number of different
    oracles voted for the decision, and, when it confirms, with one and the same
    repeatable delta. The certificate repeats the run, workflow, definition, policy
    and quorum of its input, and issuing it appends one record to the audit chain. *)
Theorem certified_runs_are_confirmed {S : Sha256Lib} {JA : JsonLib (HashMaterial WorkflowAuditEvent)}
    {JQ : JsonLib QuorumMaterial} {JR : JsonLib AuditRootsMaterial} {JC : JsonLib CertificateMaterial}
    (policy : str) (votes : list OracleVote) (c : OracleCoordinator) (input : CertificationInput)
    (a a' : RunCertificationAuthority) (certificate : RunCertificate) :
  evaluate_quorum policy votes c = Ok (ci_quorum input) -> certify input a = (Ok certificate, a') ->
  ci_workflow_state input = WsCompleted
  /\ ci_unresolved_cleanup_objects input = 0 /\ ci_failed_steps input = 0
  /\ ci_all_audits_verified input = true /\ ci_policy_drift_detected input = false
  /\ ci_policy_snapshot_sha256 input = policy
  /\ NoDup (ov_oracle_id <$> votes)
  /\ (cf_quorum_decision certificate = QConfirmed
      /\ oc_required_votes c <= len (votes_for Confirmed votes)
      /\ (forall v w, v ∈ votes_for Confirmed votes -> w ∈ votes_for Confirmed votes ->
            ov_repeatable_delta_sha256 v = ov_repeatable_delta_sha256 w)
      \/ cf_quorum_decision certificate = QRejected
         /\ oc_required_votes c <= len (votes_for Rejected votes)
         /\ len (votes_for Confirmed votes) < oc_required_votes c)
  /\ cf_run_id certificate = ci_run_id input /\ cf_workflow_id certificate = ci_workflow_id input
  /\ cf_workflow_definition_sha256 certificate = ci_workflow_definition_sha256 input
  /\ cf_policy_snapshot_sha256 certificate = policy
  /\ cf_quorum_id certificate = oq_quorum_id (ci_quorum input)
  /\ exists record, records (ra_audit a') = records (ra_audit a) ++ [record]
       /\ wa_subject_id (event record) = ci_run_id input.
Proof.
  intros Hq Hc. apply quorum_spec in Hq as (Hnd & _ & Epol & _ & _ & _ & Hdec).
  unfold certify in Hc. destruct (certificate_of a input) as [cert|] eqn:Hcert; [|done].
  unfold workflow_audit_append in Hc.
  match type of Hc with context [chain_append ?ev ?ch] =>
    destruct (chain_append ev ch) as [[record|x] chain] eqn:Ha end; simplify_eq/=.
  apply chain_append_spec in Ha as (Hrec & Hev & _).
  unfold certificate_of in Hcert. destruct (certification_checks input) as [[]|] eqn:Hchk; [|done].
  destruct (workflow_hash _) as [roots|]; [|done]. destruct (workflow_hash _) as [hash|]; [|done].
  injection Hcert as <-. simpl. apply certification_checks_spec in Hchk as (H1 & H2 & H3 & H4 & H5 & H6 & H7).
  split_and!; auto; try congruence.
  - destruct H7 as [E|E]; rewrite E in *; [left|right]; tauto.
  - exists record. split; [done|]. by rewrite Hev.
Qed.

Definition sample_vote (id : str) : OracleVote :=
  {| ov_oracle_id := id; ov_decision := Confirmed; ov_evidence_sha256 := sample_digest "c";
     ov_repeatable_delta_sha256 := Some (sample_digest "d"); ov_policy_snapshot_sha256 := sample_digest "a";
     ov_validation_audit_tail_hash := sample_digest "e" |}.

Definition sample_coordinator : OracleCoordinator :=
  {| oc_coordinator_id := "coordinator-1"; oc_required_votes := 2; oc_maximum_votes := 3 |}.

Definition sample_certification (q : OracleQuorumResult) : CertificationInput :=
  {| ci_run_id := "run-1"; ci_policy_snapshot_sha256 := sample_digest "a"; ci_workflow_id := "workflow-1";
     ci_workflow_definition_sha256 := sample_digest "b"; ci_workflow_state := WsCompleted;
     ci_workflow_audit_tail_hash := sample_digest "c"; ci_validation_audit_tail_hash := sample_digest "d";
     ci_knowledge_audit_tail_hash := sample_digest "e"; ci_export_manifest_root_sha256 := sample_digest "f";
     ci_quorum := q; ci_unresolved_cleanup_objects := 0; ci_failed_steps := 0;
     ci_all_audits_verified := true; ci_policy_drift_detected := false |}.

Definition sample_authority : RunCertificationAuthority :=
  {| ra_authority_id := "authority-1"; ra_audit := chain_new (sample_digest "a") |}.

Lemma certified_runs_are_confirmed_witness :
  match @evaluate_quorum toy_sha256 toy_quorum_json (sample_digest "a") [sample_vote "o1"; sample_vote "o2"]
          sample_coordinator with
  | Ok q =>
      match @certify toy_sha256 toy_engine_json toy_roots_json toy_certificate_json (sample_certification q)
              sample_authority with
      | (Ok certificate, _) => cf_run_id certificate = ci_run_id (sample_certification q)
      | (Err _, _) => False
      end
  | Err _ => False
  end.
Proof.
  assert (match @evaluate_quorum toy_sha256 toy_quorum_json (sample_digest "a")
      [sample_vote "o1"; sample_vote "o2"] sample_coordinator with
    | Ok q => is_ok (@certify toy_sha256 toy_engine_json toy_roots_json toy_certificate_json
        (sample_certification q) sample_authority).1
    | Err _ => false end = true) as Hb by (vm_compute; reflexivity).
  destruct (@evaluate_quorum toy_sha256 toy_quorum_json _ _ _) as [q|] eqn:Eq; [|discriminate Hb].
  destruct (@certify toy_sha256 toy_engine_json toy_roots_json toy_certificate_json (sample_certification q)
    sample_authority) as [[certificate|] a'] eqn:Ec; [|discriminate Hb].
  destruct (@certified_runs_are_confirmed toy_sha256 toy_engine_json toy_quorum_json toy_roots_json
    toy_certificate_json _ _ _ (sample_certification q) _ _ _ Eq Ec) as (_ & _ & _ & _ & _ & _ & _ & _ & H & _).
  exact H.
Defined.
