(* ===== verification/Validation.v ===== *)
(** * Validation: inert mutations, owned objects and the repeatability oracle ([crates/nxb-active-validation])

    The [SafeMutationEngine] turns one use of a [ProbeCapability] of [Planner] into
    one inert marker; the [OwnershipLedger] records the objects a run created and
    their cleanup; [compare_samples] and the [DifferentialOracle] decide whether a
    mutation changed the response repeatably. The theorems are in
    [ValidationFacts]. *)

From S2P Require Import Prelude ByteStr BTree HashChain HttpSyntax Planner Workflow.
Local Open Scope N_scope.

(** ** Data *)

Definition MAX_MUTATIONS_PER_PLAN : N := 256.
Definition MAX_MUTATION_VALUE_BYTES : N := 4096.
Definition MAX_OWNED_OBJECTS : N := 10000.
Definition MAX_DIFFERENTIAL_SAMPLES : N := 32.
Definition MAX_SEMANTIC_TOKENS : N := 4096.
Definition MAX_SAMPLE_BODY_BYTES : N := 128 * 1024 * 1024.

Inductive ValidationError : Type :=
  | VaInvalidIdentifier (name : str)
  | VaInvalidSha256 (name : str)
  | InvalidMutation (message : str)
  | MutationDenied
  | VaCapabilityDenied (message : str)
  | OwnershipLedgerFull
  | UnknownOwnedObject
  | InvalidOwnedObjectState
  | InvalidSample (message : str)
  | InvalidOracleInput (message : str)
  | VaAuditSerialization (message : str)
  | VaAuditSequenceMismatch (record_index : N)
  | VaAuditPreviousHashMismatch (record_index : N)
  | VaAuditRecordHashMismatch (record_index : N)
  | VaAuditTailMismatch.

Inductive MutationLocation : Type := Query | Header | Form | Json.

#[export] Instance MutationLocation_eq_dec : EqDecision MutationLocation.
Proof. solve_decision. Defined.

#[export] Instance MutationLocation_countable : Countable MutationLocation.
Proof.
  refine (inj_countable' (fun l => match l with Query => 0%N | Header => 1%N | Form => 2%N | Json => 3%N end)
    (fun n => match n with 0%N => Query | 1%N => Header | 2%N => Form | _ => Json end) _).
  by intros [].
Defined.

Inductive MutationKind : Type :=
  | ReplaceWithMarker | AppendMarker | EmptyValue | TypePreservingMarker | BoundedBoundary.

#[export] Instance MutationKind_eq_dec : EqDecision MutationKind.
Proof. solve_decision. Defined.

#[export] Instance MutationKind_countable : Countable MutationKind.
Proof.
  refine (inj_countable'
    (fun k => match k with
              | ReplaceWithMarker => 0%N | AppendMarker => 1%N | EmptyValue => 2%N
              | TypePreservingMarker => 3%N | BoundedBoundary => 4%N
              end)
    (fun n => match n with
              | 0%N => ReplaceWithMarker | 1%N => AppendMarker | 2%N => EmptyValue
              | 3%N => TypePreservingMarker | _ => BoundedBoundary
              end) _).
  by intros [].
Defined.

Inductive ValueClass : Type := Text | Integer | Boolean | Opaque.

Inductive OwnedObjectState : Type := Registered | CleanupPending | Cleaned | CleanupFailed.

#[export] Instance OwnedObjectState_eq_dec : EqDecision OwnedObjectState.
Proof. solve_decision. Defined.

Inductive PromotionState : Type := PsCandidate | PsValidated | PsRejected | PsInconclusive.

Record ValidationAuditEvent : Type := {
  va_action : str;
  va_subject_id : str;
  va_outcome : str;
  va_metadata : gmap str str
}.

Record MutationTarget : Type := {
  mt_location : MutationLocation;
  mt_name : str;
  mt_name_sha256 : str;
  mt_original_value_sha256 : str;
  mt_value_class : ValueClass
}.

Record MutationTemplate : Type := {
  tp_template_id : str;
  tp_allowed_kinds : gset MutationKind;
  tp_allowed_locations : gset MutationLocation;
  tp_maximum_output_bytes : N;
  tp_maximum_variants : N
}.

Record SafeMutation : Type := {
  sm_mutation_id : str;
  sm_endpoint_sha256 : str;
  sm_plan_fingerprint : str;
  sm_capability_id : str;
  sm_target : MutationTarget;
  sm_kind : MutationKind;
  sm_value_sha256 : str;
  sm_value_bytes : N;
  sm_value : str
}.

Record MutationReceipt : Type := {
  mr_mutation_id : str;
  mr_endpoint_sha256 : str;
  mr_plan_fingerprint : str;
  mr_capability_id : str;
  mr_target_name_sha256 : str;
  mr_location : MutationLocation;
  mr_kind : MutationKind;
  mr_value_sha256 : str;
  mr_value_bytes : N
}.

Record SafeMutationEngine : Type := {
  se_engine_id : str;
  se_next_sequence : N;
  se_audit : HashChain ValidationAuditEvent
}.

Record CleanupRecipe : Type := {
  cr_method : str;
  cr_endpoint_sha256 : str;
  cr_object_reference_sha256 : str
}.

Record OwnedObjectRecord : Type := {
  oo_object_id : str;
  oo_run_id : str;
  oo_creation_mutation_id : str;
  oo_creation_receipt_sha256 : str;
  oo_endpoint_sha256 : str;
  oo_created_at_milliseconds : N;
  oo_expires_at_milliseconds : N;
  oo_cleanup : CleanupRecipe;
  oo_state : OwnedObjectState;
  oo_cleanup_attempts : N;
  oo_last_cleanup_evidence_sha256 : option str
}.

Record OwnershipLedger : Type := {
  ol_run_id : str;
  ol_objects : gmap str OwnedObjectRecord;
  ol_audit : HashChain ValidationAuditEvent
}.

Record DifferentialSample : Type := {
  ds_sample_id : str;
  ds_endpoint_sha256 : str;
  ds_mutation_id : option str;
  ds_status : N;
  ds_header_fingerprint_sha256 : str;
  ds_body_sha256 : str;
  ds_body_bytes : N;
  ds_semantic_tokens : gset str;
  ds_elapsed_milliseconds : N;
  ds_session_generation : N;
  ds_audit_anchor : str
}.

Record DifferentialDelta : Type := {
  dd_status_changed : bool;
  dd_headers_changed : bool;
  dd_body_changed : bool;
  dd_body_size_delta : Z;
  dd_added_tokens : gset str;
  dd_removed_tokens : gset str;
  dd_elapsed_delta_milliseconds : Z;
  dd_session_generation_changed : bool;
  dd_delta_fingerprint_sha256 : str
}.

Record DifferentialLimits : Type := {
  dl_maximum_body_size_delta : N;
  dl_maximum_timing_delta_milliseconds : N;
  dl_minimum_material_changes : N
}.

Record OracleResult : Type := {
  or_oracle_id : str;
  or_candidate_id : str;
  or_mutation_id : str;
  or_decision : OracleDecision;
  or_baseline_sample_count : N;
  or_mutated_sample_count : N;
  or_repeatable_delta_sha256 : option str;
  or_material_change_count : N;
  or_evidence_sha256 : str;
  or_audit_tail_hash : str
}.

Record ValidatedFinding : Type := {
  vf_finding_id : str;
  vf_candidate_id : str;
  vf_rule_id : str;
  vf_origin : str;
  vf_endpoint_sha256 : str;
  vf_mutation_id : str;
  vf_oracle_evidence_sha256 : str;
  vf_repeatable_delta_sha256 : str;
  vf_state : PromotionState;
  vf_summary : str
}.

Record DifferentialOracle : Type := {
  do_oracle_id : str;
  do_limits : DifferentialLimits;
  do_audit : HashChain ValidationAuditEvent
}.

(** What the crate serialises for hashing. *)
Abbreviation SeedMaterial := (str * N * str * str * N * str * MutationKind * N)%type.
Abbreviation SampleMaterial := (str * N * str * str * N * gset str * N)%type.
Abbreviation DeltaMaterial := (bool * bool * bool * Z * gset str * gset str * bool)%type.
Abbreviation EvidenceMaterial := (str * str * gset str * list DifferentialDelta * OracleDecision)%type.
Abbreviation FindingMaterial := (str * str * str * str * str)%type.

(** ** Validation *)

Definition validation_identifier_byte (c : byte) : bool :=
  is_ascii_alphanumeric c || is_byte 45 c || is_byte 95 c || is_byte 46 c || is_byte 58 c.

Definition validation_validate_identifier (value name : str) : Result unit ValidationError :=
  if bool_decide (value = []) || (192 <? len value) || negb (forallb validation_identifier_byte value)
  then Err (VaInvalidIdentifier name) else Ok tt.

Definition validation_validate_sha256 (value name : str) : Result unit ValidationError :=
  if negb (is_lower_hex_sha256 value) then Err (VaInvalidSha256 name) else Ok tt.

Definition validation_chain_error (e : ChainError) : ValidationError :=
  match e with
  | InvalidGenesisHash => VaInvalidSha256 "audit genesis"
  | Serialization message => VaAuditSerialization message
  | SequenceMismatch i => VaAuditSequenceMismatch i
  | PreviousHashMismatch i => VaAuditPreviousHashMismatch i
  | RecordHashMismatch i => VaAuditRecordHashMismatch i
  | TailHashMismatch => VaAuditTailMismatch
  end.

(** [error.to_string()] of a planner error. *)
Definition run_state_debug (state : RunState) : str :=
  match state with
  | RunCreated => "Created"
  | RunValidated => "Validated"
  | RunRunning => "Running"
  | RunPaused => "Paused"
  | RunCancelling => "Cancelling"
  | RunCompleted => "Completed"
  | RunFailed => "Failed"
  | RunEmergencyStopped => "EmergencyStopped"
  end.

Definition planner_error_message (e : PlannerError) : str :=
  match e with
  | PlInvalidIdentifier name => ("planner identifier is invalid: " : str) ++ name
  | PlInvalidPlan message => ("request plan is invalid: " : str) ++ message
  | PlInvalidSchedulerLimits message => ("scheduler limits are invalid: " : str) ++ message
  | QueueFull => "work queue is full"
  | DuplicateWorkItem => "work item is duplicated"
  | UnknownWorkItem => "work item is unknown"
  | InvalidWorkState => "work item is not in the expected state"
  | InvalidRunTransition from to =>
      ("run transition is invalid from " : str) ++ run_state_debug from ++ (" to " : str) ++ run_state_debug to
  | InvalidCapability message => ("probe capability is invalid: " : str) ++ message
  | CapabilityInactive => "probe capability is expired or revoked"
  | CapabilityDenied message => ("probe capability does not authorize this operation: " : str) ++ message
  | PlAuditSerialization message => ("planner audit material could not be serialized: " : str) ++ message
  | PlAuditSequenceMismatch i => ("planner audit sequence mismatch at record " : str) ++ decimal i
  | PlAuditPreviousHashMismatch i => ("planner audit previous hash mismatch at record " : str) ++ decimal i
  | PlAuditRecordHashMismatch i => ("planner audit record hash mismatch at record " : str) ++ decimal i
  | PlAuditTailMismatch => "planner audit tail hash mismatch"
  end.

(** ** Standard library *)

(** [&text[..n]], which panics out of range and inside a character. *)
Definition str_prefix (n : N) (text : str) : Run str :=
  if len text <? n then Panic "byte index is out of bounds"
  else if match text !! N.to_nat n with Some c => is_continuation c | None => false end
  then Panic "byte index is not a char boundary"
  else Done (take (N.to_nat n) text).

(** [u64::from_str_radix(text, 16).ok()]. *)
Definition from_str_radix_16 (text : str) : option N :=
  let digits := match text with c :: ((_ :: _) as rest) => if is_byte 43 c then rest else text | _ => text end in
  if bool_decide (digits = []) || negb (forallb is_ascii_hexdigit digits) || (u64_max <? hex_number digits)
  then None else Some (hex_number digits).

(** [text.chars().cycle().take(n).collect()] of a text of ASCII characters. *)
Definition cycle_take (n : N) (text : str) : str :=
  take (N.to_nat n) (concat (replicate (N.to_nat n) text)).

(** ** Mutations *)

Definition FORBIDDEN_FRAGMENTS : list str :=
  map list_ascii_of_string
    ["<script"; "javascript:"; "union select"; "../"; "${jndi:"; "http://"; "https://"; "cmd.exe";
     "/bin/sh"]%string.

Definition render_inert_value (kind : MutationKind) (value_class : ValueClass) (seed : str)
    (maximum_output_bytes : N) : Run (Result str ValidationError) :=
  let! digits := str_prefix 16 seed in
  let marker := ("nxb_" : str) ++ digits in
  let! text :=
    match kind with
    | ReplaceWithMarker | AppendMarker => Done marker
    | EmptyValue => Done []
    | TypePreservingMarker =>
        match value_class with
        | Integer =>
            let! digits := str_prefix 12 seed in
            Done (decimal (default 1 (from_str_radix_16 digits) mod 1000000))
        | Boolean =>
            let! first := index 0 seed in
            Done (if N_of_ascii first mod 2 =? 0 then ("true" : str) else "false")
        | Text | Opaque => Done marker
        end
    | BoundedBoundary => Done (cycle_take (N.min maximum_output_bytes 256) marker)
    end in
  if (maximum_output_bytes <? len text) || (MAX_MUTATION_VALUE_BYTES <? len text)
  then Done (Err (InvalidMutation "rendered marker exceeds bounds"))
  else if existsb (contains_str (to_ascii_lowercase text)) FORBIDDEN_FRAGMENTS
  then Done (Err (InvalidMutation "rendered marker is not inert"))
  else Done (Ok text).

Definition template_new (template_id : str) (allowed_kinds : gset MutationKind)
    (allowed_locations : gset MutationLocation) (maximum_output_bytes maximum_variants : N)
    : Result MutationTemplate ValidationError :=
  let? _ := validation_validate_identifier template_id "template_id" in
  if bool_decide (allowed_kinds = ∅) || bool_decide (allowed_locations = ∅)
     || (maximum_output_bytes =? 0) || (MAX_MUTATION_VALUE_BYTES <? maximum_output_bytes)
     || (maximum_variants =? 0) || (MAX_MUTATIONS_PER_PLAN <? maximum_variants)
  then Err (InvalidMutation "mutation template bounds")
  else Ok {| tp_template_id := template_id; tp_allowed_kinds := allowed_kinds;
             tp_allowed_locations := allowed_locations;
             tp_maximum_output_bytes := maximum_output_bytes; tp_maximum_variants := maximum_variants |}.

Definition mutation_receipt (self : SafeMutation) : MutationReceipt :=
  {| mr_mutation_id := sm_mutation_id self; mr_endpoint_sha256 := sm_endpoint_sha256 self;
     mr_plan_fingerprint := sm_plan_fingerprint self; mr_capability_id := sm_capability_id self;
     mr_target_name_sha256 := mt_name_sha256 (sm_target self); mr_location := mt_location (sm_target self);
     mr_kind := sm_kind self; mr_value_sha256 := sm_value_sha256 self;
     mr_value_bytes := sm_value_bytes self |}.

Definition is_safe_active (risk : RiskClass) : bool :=
  match risk with SafeActive => true | _ => false end.

Definition validate_static_request (plan : RequestIntentPlan) (capability_request : CapabilityUseRequest)
    (target : MutationTarget) (template : MutationTemplate) (kind : MutationKind) (ordinal : N)
    : Result unit ValidationError :=
  if negb (is_safe_active (rp_risk_class plan)) || negb (rp_active_execution_allowed plan)
     || bool_decide (cu_endpoint_sha256 capability_request <> rp_canonical_url_sha256 plan)
     || bool_decide (cu_method capability_request <> rp_method plan)
     || negb (cu_mutations capability_request =? 1)
     || (tp_maximum_variants template <=? ordinal)
     || negb (bool_decide (kind ∈ tp_allowed_kinds template))
     || negb (bool_decide (mt_location target ∈ tp_allowed_locations template))
     || negb (bool_decide (mt_name target ∈ rp_parameter_names plan))
  then Err MutationDenied else Ok tt.

(** ** Owned objects *)

Definition CLEANUP_METHODS : list str := map list_ascii_of_string ["DELETE"; "POST"; "PATCH"]%string.

Definition recipe_new (method endpoint_sha256 object_reference_sha256 : str)
    : Result CleanupRecipe ValidationError :=
  let method := to_ascii_uppercase method in
  if negb (bool_decide (method ∈ CLEANUP_METHODS))
  then Err (InvalidMutation "cleanup method must be explicitly bounded")
  else
  let? _ := validation_validate_sha256 endpoint_sha256 "cleanup endpoint" in
  let? _ := validation_validate_sha256 object_reference_sha256 "object reference" in
  Ok {| cr_method := method; cr_endpoint_sha256 := endpoint_sha256;
        cr_object_reference_sha256 := object_reference_sha256 |}.

Definition with_cleanup (state : OwnedObjectState) (attempts : N) (evidence : option str)
    (self : OwnedObjectRecord) : OwnedObjectRecord :=
  {| oo_object_id := oo_object_id self; oo_run_id := oo_run_id self;
     oo_creation_mutation_id := oo_creation_mutation_id self;
     oo_creation_receipt_sha256 := oo_creation_receipt_sha256 self;
     oo_endpoint_sha256 := oo_endpoint_sha256 self;
     oo_created_at_milliseconds := oo_created_at_milliseconds self;
     oo_expires_at_milliseconds := oo_expires_at_milliseconds self; oo_cleanup := oo_cleanup self;
     oo_state := state; oo_cleanup_attempts := attempts; oo_last_cleanup_evidence_sha256 := evidence |}.

Definition authorize_write (object_id : str) (now_milliseconds : N) (self : OwnershipLedger)
    : Result OwnedObjectRecord ValidationError :=
  match ol_objects self !! object_id with
  | None => Err UnknownOwnedObject
  | Some record =>
      if bool_decide (oo_run_id record <> ol_run_id self)
         || bool_decide (oo_state record <> Registered)
         || (oo_expires_at_milliseconds record <=? now_milliseconds)
      then Err InvalidOwnedObjectState else Ok record
  end.

Definition unresolved_objects (self : OwnershipLedger) : list OwnedObjectRecord :=
  List.filter (fun record => negb (bool_decide (oo_state record = Cleaned))) (map_values (ol_objects self)).

(** ** Samples *)

Fixpoint validation_validate_hashes (l : list (str * str)) : Result unit ValidationError :=
  match l with
  | [] => Ok tt
  | (name, value) :: rest =>
      let? _ := validation_validate_sha256 value name in validation_validate_hashes rest
  end.

Definition semantic_token_invalid (token : str) : bool :=
  bool_decide (token = []) || (256 <? len token) || existsb is_ascii_control token.

Definition sample_new (sample_id endpoint_sha256 : str) (mutation_id : option str) (status : N)
    (header_fingerprint_sha256 body_sha256 : str) (body_bytes : N) (semantic_tokens : gset str)
    (elapsed_milliseconds session_generation : N) (audit_anchor : str)
    : Result DifferentialSample ValidationError :=
  let? _ := validation_validate_identifier sample_id "sample_id" in
  let? _ := match mutation_id with
            | Some value => validation_validate_identifier value "mutation_id"
            | None => Ok tt
            end in
  let? _ := validation_validate_hashes
    [("endpoint" : str, endpoint_sha256); ("headers" : str, header_fingerprint_sha256);
     ("body" : str, body_sha256); ("audit anchor" : str, audit_anchor)] in
  if negb ((100 <=? status) && (status <=? 599)) || (MAX_SAMPLE_BODY_BYTES <? body_bytes)
     || (MAX_SEMANTIC_TOKENS <? N.of_nat (size semantic_tokens))
     || existsb semantic_token_invalid (btree_iter semantic_tokens)
     || (10 * 60 * 1000 <? elapsed_milliseconds)
  then Err (InvalidSample "sample bounds or response metadata")
  else Ok {| ds_sample_id := sample_id; ds_endpoint_sha256 := endpoint_sha256;
             ds_mutation_id := mutation_id; ds_status := status;
             ds_header_fingerprint_sha256 := header_fingerprint_sha256; ds_body_sha256 := body_sha256;
             ds_body_bytes := body_bytes; ds_semantic_tokens := semantic_tokens;
             ds_elapsed_milliseconds := elapsed_milliseconds;
             ds_session_generation := session_generation; ds_audit_anchor := audit_anchor |}.

Definition material_change_count (self : DifferentialDelta) : N :=
  len (List.filter (fun changed => changed : bool)
    [dd_status_changed self; dd_headers_changed self; dd_body_changed self;
     negb (bool_decide (dd_added_tokens self = ∅)); negb (bool_decide (dd_removed_tokens self = ∅));
     dd_session_generation_changed self]).

Definition differential_limits_default : DifferentialLimits :=
  {| dl_maximum_body_size_delta := 32 * 1024 * 1024; dl_maximum_timing_delta_milliseconds := 30000;
     dl_minimum_material_changes := 1 |}.

(** [iter.min().unwrap_or_default()]. *)
Definition minimum_or_zero (l : list N) : N :=
  match l with [] => 0 | x :: rest => fold_left N.min rest x end.

(** [format!("{decision:?}").to_ascii_lowercase()]. *)
Definition oracle_decision_name (decision : OracleDecision) : str :=
  match decision with Confirmed => "confirmed" | Rejected => "rejected" | Inconclusive => "inconclusive" end.

Section Validation.
Context {S : Sha256Lib} {JA : JsonLib (HashMaterial ValidationAuditEvent)}.

Definition validation_hash_bytes (bytes : str) : str := to_lower_hex (sha256 bytes).

Definition validation_hash {A} {J : JsonLib A} (value : A) : Result str ValidationError :=
  let? bytes := map_err VaAuditSerialization (to_vec value) in Ok (validation_hash_bytes bytes).

Definition validation_audit_new (genesis_hash : str) : Result (HashChain ValidationAuditEvent) ValidationError :=
  map_err validation_chain_error (chain_new_anchored genesis_hash).

Definition validation_audit_append (event : ValidationAuditEvent) (chain : HashChain ValidationAuditEvent)
    : Result (ChainRecord ValidationAuditEvent) ValidationError * HashChain ValidationAuditEvent :=
  let '(result, chain) := chain_append event chain in (map_err validation_chain_error result, chain).

(** A caller's write through [records_mut]. *)
Definition validation_audit_set (index : nat) (record : ChainRecord ValidationAuditEvent)
    (chain : HashChain ValidationAuditEvent) : HashChain ValidationAuditEvent :=
  {| genesis_hash := genesis_hash chain; records := <[index := record]> (records chain);
     tail_hash := tail_hash chain |}.

Definition validation_audit_verify (chain : HashChain ValidationAuditEvent) : Result unit ValidationError :=
  map_err validation_chain_error (chain_verify chain).

(** *** The mutation engine *)

Definition target_new (location : MutationLocation) (name original_value_sha256 : str)
    (value_class : ValueClass) : Result MutationTarget ValidationError :=
  if bool_decide (name = []) || (256 <? len name) || existsb is_ascii_control name
  then Err (InvalidMutation "mutation target name")
  else
  let? _ := validation_validate_sha256 original_value_sha256 "original value" in
  Ok {| mt_location := location; mt_name := name; mt_name_sha256 := validation_hash_bytes name;
        mt_original_value_sha256 := original_value_sha256; mt_value_class := value_class |}.

Definition mutation_engine_new (engine_id audit_genesis : str) : Result SafeMutationEngine ValidationError :=
  let? _ := validation_validate_identifier engine_id "engine_id" in
  let? audit := validation_audit_new audit_genesis in
  Ok {| se_engine_id := engine_id; se_next_sequence := 1; se_audit := audit |}.

Section Engine.
Context {JP : JsonLib PlanMaterial} {JS : JsonLib SeedMaterial}.

Definition generate_from_receipt (plan : RequestIntentPlan) (capability : CapabilityUseReceipt)
    (target : MutationTarget) (template : MutationTemplate) (kind : MutationKind) (ordinal : N)
    (self : SafeMutationEngine) : Run (Result SafeMutation ValidationError * SafeMutationEngine) :=
  let plan_fingerprint := fingerprint plan in
  match validation_hash (se_engine_id self, se_next_sequence self, plan_fingerprint,
          ur_capability_id capability, ur_request_number capability, mt_name_sha256 target, kind, ordinal) with
  | Err e => Done (Err e, self)
  | Ok seed =>
      let! value := render_inert_value kind (mt_value_class target) seed (tp_maximum_output_bytes template) in
      match value with
      | Err e => Done (Err e, self)
      | Ok value =>
          let mutation_id := ("mutation-" : str) ++ decimal020 (se_next_sequence self) in
          let next_sequence := saturating_add (se_next_sequence self) 1 in
          let mutation :=
            {| sm_mutation_id := mutation_id; sm_endpoint_sha256 := rp_canonical_url_sha256 plan;
               sm_plan_fingerprint := plan_fingerprint; sm_capability_id := ur_capability_id capability;
               sm_target := target; sm_kind := kind; sm_value_sha256 := validation_hash_bytes value;
               sm_value_bytes := len value; sm_value := value |} in
          let '(appended, audit) := validation_audit_append
            {| va_action := "mutation_generated"; va_subject_id := mutation_id;
               va_outcome := "live_capability_consumed_inert_marker_ready";
               va_metadata := list_to_map
                 [("capability_id" : str, sm_capability_id mutation);
                  ("capability_request_number" : str, decimal (ur_request_number capability));
                  ("endpoint_sha256" : str, sm_endpoint_sha256 mutation);
                  ("value_sha256" : str, sm_value_sha256 mutation);
                  ("value_bytes" : str, decimal (sm_value_bytes mutation))] |} (se_audit self) in
          let engine := {| se_engine_id := se_engine_id self; se_next_sequence := next_sequence;
                           se_audit := audit |} in
          match appended with
          | Err e => Done (Err e, engine)
          | Ok _ => Done (Ok mutation, engine)
          end
      end
  end.

Definition authorize_and_generate (plan : RequestIntentPlan) (capability_request : CapabilityUseRequest)
    (target : MutationTarget) (template : MutationTemplate) (kind : MutationKind) (ordinal : N)
    (self : SafeMutationEngine) (capability : ProbeCapability)
    : Run (Result SafeMutation ValidationError * SafeMutationEngine * ProbeCapability) :=
  match validate_static_request plan capability_request target template kind ordinal with
  | Err e => Done (Err e, self, capability)
  | Ok _ =>
      match capability_authorize capability_request capability with
      | (Err error, capability) =>
          Done (Err (VaCapabilityDenied (planner_error_message error)), self, capability)
      | (Ok capability_receipt, capability) =>
          if bool_decide (ur_endpoint_sha256 capability_receipt <> rp_canonical_url_sha256 plan)
             || negb (ur_mutations_used capability_receipt =? 1)
          then Done (Err MutationDenied, self, capability)
          else
            let! (result, engine) :=
              generate_from_receipt plan capability_receipt target template kind ordinal self in
            Done (result, engine, capability)
      end
  end.
End Engine.

(** *** The ledger *)

Definition ledger_new (run_id audit_genesis : str) : Result OwnershipLedger ValidationError :=
  let? _ := validation_validate_identifier run_id "run_id" in
  let? audit := validation_audit_new audit_genesis in
  Ok {| ol_run_id := run_id; ol_objects := ∅; ol_audit := audit |}.

(** Stores a record and appends the event that tells of it. *)
Definition put_record (object_id : str) (record : OwnedObjectRecord) (event : ValidationAuditEvent)
    (self : OwnershipLedger) : Result OwnedObjectRecord ValidationError * OwnershipLedger :=
  let '(appended, audit) := validation_audit_append event (ol_audit self) in
  let ledger := {| ol_run_id := ol_run_id self; ol_objects := <[object_id := record]> (ol_objects self);
                   ol_audit := audit |} in
  match appended with Err e => (Err e, ledger) | Ok _ => (Ok record, ledger) end.

Definition register (object_id : str) (mutation : MutationReceipt) (creation_receipt_sha256 : str)
    (created_at_milliseconds expires_at_milliseconds : N) (cleanup : CleanupRecipe)
    (self : OwnershipLedger) : Result OwnedObjectRecord ValidationError * OwnershipLedger :=
  if MAX_OWNED_OBJECTS <=? N.of_nat (size (ol_objects self)) then (Err OwnershipLedgerFull, self)
  else match validation_validate_identifier object_id "object_id" with
  | Err e => (Err e, self)
  | Ok _ =>
      match validation_validate_sha256 creation_receipt_sha256 "creation receipt" with
      | Err e => (Err e, self)
      | Ok _ =>
          if bool_decide (is_Some (ol_objects self !! object_id))
             || (expires_at_milliseconds <=? created_at_milliseconds)
             || bool_decide (cr_endpoint_sha256 cleanup <> mr_endpoint_sha256 mutation)
          then (Err (InvalidMutation "owned-object registration"), self)
          else
            put_record object_id
              {| oo_object_id := object_id; oo_run_id := ol_run_id self;
                 oo_creation_mutation_id := mr_mutation_id mutation;
                 oo_creation_receipt_sha256 := creation_receipt_sha256;
                 oo_endpoint_sha256 := mr_endpoint_sha256 mutation;
                 oo_created_at_milliseconds := created_at_milliseconds;
                 oo_expires_at_milliseconds := expires_at_milliseconds; oo_cleanup := cleanup;
                 oo_state := Registered; oo_cleanup_attempts := 0;
                 oo_last_cleanup_evidence_sha256 := None |}
              {| va_action := "owned_object_registered"; va_subject_id := object_id;
                 va_outcome := "registered";
                 va_metadata := {[ ("endpoint_sha256" : str) := mr_endpoint_sha256 mutation ]} |} self
      end
  end.

Definition begin_cleanup (object_id : str) (self : OwnershipLedger)
    : Result CleanupRecipe ValidationError * OwnershipLedger :=
  match ol_objects self !! object_id with
  | None => (Err UnknownOwnedObject, self)
  | Some record =>
      if negb (bool_decide (oo_state record = Registered) || bool_decide (oo_state record = CleanupFailed))
         || (3 <=? oo_cleanup_attempts record)
      then (Err InvalidOwnedObjectState, self)
      else
        let attempts := u8_saturating_add (oo_cleanup_attempts record) 1 in
        match put_record object_id
          (with_cleanup CleanupPending attempts (oo_last_cleanup_evidence_sha256 record) record)
          {| va_action := "cleanup_started"; va_subject_id := object_id; va_outcome := "pending";
             va_metadata := {[ ("attempt" : str) := decimal attempts ]} |} self with
        | (Err e, ledger) => (Err e, ledger)
        | (Ok record, ledger) => (Ok (oo_cleanup record), ledger)
        end
  end.

Definition complete_cleanup (object_id evidence_sha256 : str) (self : OwnershipLedger)
    : Result OwnedObjectRecord ValidationError * OwnershipLedger :=
  match validation_validate_sha256 evidence_sha256 "cleanup evidence" with
  | Err e => (Err e, self)
  | Ok _ =>
      match ol_objects self !! object_id with
      | None => (Err UnknownOwnedObject, self)
      | Some record =>
          if bool_decide (oo_state record <> CleanupPending) then (Err InvalidOwnedObjectState, self)
          else
            put_record object_id
              (with_cleanup Cleaned (oo_cleanup_attempts record) (Some evidence_sha256) record)
              {| va_action := "cleanup_completed"; va_subject_id := object_id; va_outcome := "cleaned";
                 va_metadata := {[ ("evidence_sha256" : str) := evidence_sha256 ]} |} self
      end
  end.

Definition fail_cleanup (object_id evidence_sha256 : str) (self : OwnershipLedger)
    : Result OwnedObjectRecord ValidationError * OwnershipLedger :=
  match validation_validate_sha256 evidence_sha256 "cleanup failure evidence" with
  | Err e => (Err e, self)
  | Ok _ =>
      match ol_objects self !! object_id with
      | None => (Err UnknownOwnedObject, self)
      | Some record =>
          if bool_decide (oo_state record <> CleanupPending) then (Err InvalidOwnedObjectState, self)
          else
            put_record object_id
              (with_cleanup CleanupFailed (oo_cleanup_attempts record) (Some evidence_sha256) record)
              {| va_action := "cleanup_failed"; va_subject_id := object_id; va_outcome := "run_must_stop";
                 va_metadata := {[ ("evidence_sha256" : str) := evidence_sha256 ]} |} self
      end
  end.

(** *** Comparison and oracle *)

Definition sample_fingerprint {JF : JsonLib SampleMaterial} (self : DifferentialSample)
    : Result str ValidationError :=
  validation_hash (ds_endpoint_sha256 self, ds_status self, ds_header_fingerprint_sha256 self,
    ds_body_sha256 self, ds_body_bytes self, ds_semantic_tokens self, ds_session_generation self).

Definition compare_samples {JD : JsonLib DeltaMaterial} (baseline mutated : DifferentialSample)
    (limits : DifferentialLimits) : Result DifferentialDelta ValidationError :=
  if bool_decide (ds_endpoint_sha256 baseline <> ds_endpoint_sha256 mutated)
     || bool_decide (is_Some (ds_mutation_id baseline))
     || bool_decide (ds_mutation_id mutated = None)
     || (MAX_SAMPLE_BODY_BYTES <? dl_maximum_body_size_delta limits)
     || (10 * 60 * 1000 <? dl_maximum_timing_delta_milliseconds limits)
     || (dl_minimum_material_changes limits =? 0)
  then Err (InvalidSample "baseline/mutated binding or limits")
  else
  let body_size_delta := (Z.of_N (ds_body_bytes mutated) - Z.of_N (ds_body_bytes baseline))%Z in
  if dl_maximum_body_size_delta limits <? Z.abs_N body_size_delta
  then Err (InvalidSample "body-size delta exceeds configured bound")
  else
  let elapsed_delta :=
    (Z.of_N (ds_elapsed_milliseconds mutated) - Z.of_N (ds_elapsed_milliseconds baseline))%Z in
  if dl_maximum_timing_delta_milliseconds limits <? Z.abs_N elapsed_delta
  then Err (InvalidSample "timing delta exceeds configured bound")
  else
  let added := ds_semantic_tokens mutated ∖ ds_semantic_tokens baseline in
  let removed := ds_semantic_tokens baseline ∖ ds_semantic_tokens mutated in
  let status_changed := bool_decide (ds_status baseline <> ds_status mutated) in
  let headers_changed :=
    bool_decide (ds_header_fingerprint_sha256 baseline <> ds_header_fingerprint_sha256 mutated) in
  let body_changed := bool_decide (ds_body_sha256 baseline <> ds_body_sha256 mutated) in
  let session_changed := bool_decide (ds_session_generation baseline <> ds_session_generation mutated) in
  let? delta_fingerprint := validation_hash (status_changed, headers_changed, body_changed,
    body_size_delta, added, removed, session_changed) in
  Ok {| dd_status_changed := status_changed; dd_headers_changed := headers_changed;
        dd_body_changed := body_changed; dd_body_size_delta := body_size_delta;
        dd_added_tokens := added; dd_removed_tokens := removed;
        dd_elapsed_delta_milliseconds := elapsed_delta; dd_session_generation_changed := session_changed;
        dd_delta_fingerprint_sha256 := delta_fingerprint |}.

Definition oracle_new (oracle_id : str) (limits : DifferentialLimits) (audit_genesis : str)
    : Result DifferentialOracle ValidationError :=
  let? _ := validation_validate_identifier oracle_id "oracle_id" in
  if (dl_minimum_material_changes limits =? 0)
     || (MAX_SAMPLE_BODY_BYTES <? dl_maximum_body_size_delta limits)
     || (10 * 60 * 1000 <? dl_maximum_timing_delta_milliseconds limits)
  then Err (InvalidOracleInput "oracle limits")
  else
  let? audit := validation_audit_new audit_genesis in
  Ok {| do_oracle_id := oracle_id; do_limits := limits; do_audit := audit |}.

Section Oracle.
Context {JF : JsonLib SampleMaterial} {JD : JsonLib DeltaMaterial} {JE : JsonLib EvidenceMaterial}
  {JV : JsonLib FindingMaterial}.

(** The loop over the paired samples. *)
Fixpoint compare_pairs (mutation : MutationReceipt) (limits : DifferentialLimits)
    (pairs : list (DifferentialSample * DifferentialSample))
    : Result (list DifferentialDelta) ValidationError :=
  match pairs with
  | [] => Ok []
  | (baseline, mutated_sample) :: rest =>
      if bool_decide (ds_endpoint_sha256 baseline <> mr_endpoint_sha256 mutation)
         || bool_decide (ds_endpoint_sha256 mutated_sample <> mr_endpoint_sha256 mutation)
         || bool_decide (ds_mutation_id mutated_sample <> Some (mr_mutation_id mutation))
      then Err (InvalidOracleInput "sample does not bind to mutation")
      else
        let? delta := compare_samples baseline mutated_sample limits in
        let? deltas := compare_pairs mutation limits rest in
        Ok (delta :: deltas)
  end.

Definition decide_oracle (limits : DifferentialLimits) (repeatable : gset str) (material_change_count : N)
    : OracleDecision :=
  if (N.of_nat (size repeatable) =? 1) && (dl_minimum_material_changes limits <=? material_change_count)
  then Confirmed
  else if material_change_count =? 0 then Rejected
  else Inconclusive.

Definition evaluate_oracle (candidate_id : str) (mutation : MutationReceipt)
    (baselines mutated : list DifferentialSample) (self : DifferentialOracle)
    : Result OracleResult ValidationError * DifferentialOracle :=
  match validation_validate_identifier candidate_id "candidate_id" with
  | Err e => (Err e, self)
  | Ok _ =>
  if (len baselines <? 2) || (len mutated <? 2) || (MAX_DIFFERENTIAL_SAMPLES <? len baselines)
     || (MAX_DIFFERENTIAL_SAMPLES <? len mutated) || negb (len baselines =? len mutated)
  then (Err (InvalidOracleInput "two or more paired samples are required"), self)
  else match collect_results sample_fingerprint baselines with
  | Err e => (Err e, self)
  | Ok fingerprints =>
  let baseline_fingerprints : gset str := list_to_set fingerprints in
  if negb (N.of_nat (size baseline_fingerprints) =? 1)
  then (Err (InvalidOracleInput "baseline is not repeatable"), self)
  else match compare_pairs mutation (do_limits self) (zip baselines mutated) with
  | Err e => (Err e, self)
  | Ok deltas =>
  let repeatable : gset str := list_to_set (dd_delta_fingerprint_sha256 <$> deltas) in
  let changes := minimum_or_zero (material_change_count <$> deltas) in
  let decision := decide_oracle (do_limits self) repeatable changes in
  let repeatable_delta_sha256 :=
    if N.of_nat (size repeatable) =? 1 then head (btree_iter repeatable) else None in
  match validation_hash (candidate_id, mr_mutation_id mutation, baseline_fingerprints, deltas, decision) with
  | Err e => (Err e, self)
  | Ok evidence_sha256 =>
  let '(appended, audit) := validation_audit_append
    {| va_action := "oracle_evaluated"; va_subject_id := candidate_id;
       va_outcome := oracle_decision_name decision;
       va_metadata := list_to_map
         [("mutation_id" : str, mr_mutation_id mutation); ("evidence_sha256" : str, evidence_sha256);
          ("material_change_count" : str, decimal changes)] |} (do_audit self) in
  let oracle := {| do_oracle_id := do_oracle_id self; do_limits := do_limits self; do_audit := audit |} in
  match appended with
  | Err e => (Err e, oracle)
  | Ok _ =>
      (Ok {| or_oracle_id := do_oracle_id self; or_candidate_id := candidate_id;
             or_mutation_id := mr_mutation_id mutation; or_decision := decision;
             or_baseline_sample_count := len baselines; or_mutated_sample_count := len mutated;
             or_repeatable_delta_sha256 := repeatable_delta_sha256;
             or_material_change_count := changes; or_evidence_sha256 := evidence_sha256;
             or_audit_tail_hash := tail_hash audit |}, oracle)
  end end end end end.

Definition promote (result : OracleResult) (rule_id origin endpoint_sha256 summary : str)
    (self : DifferentialOracle) : Run (Result ValidatedFinding ValidationError * DifferentialOracle) :=
  match or_decision result with
  | Rejected | Inconclusive =>
      Done (Err (InvalidOracleInput "only confirmed oracle results can be promoted"), self)
  | Confirmed =>
  match validation_validate_identifier rule_id "rule_id" with
  | Err e => Done (Err e, self)
  | Ok _ =>
  match validation_validate_sha256 endpoint_sha256 "finding endpoint" with
  | Err e => Done (Err e, self)
  | Ok _ =>
  if bool_decide (origin = []) || (512 <? len origin) || bool_decide (summary = [])
     || (2048 <? len summary) || existsb (is_byte 0) summary
  then Done (Err (InvalidOracleInput "finding origin or summary"), self)
  else match or_repeatable_delta_sha256 result with
  | None => Done (Err (InvalidOracleInput "missing repeatable delta"), self)
  | Some repeatable_delta_sha256 =>
  match validation_hash (or_candidate_id result, rule_id, origin, endpoint_sha256, or_evidence_sha256 result) with
  | Err e => Done (Err e, self)
  | Ok finding_hash =>
  let! suffix := str_prefix 24 finding_hash in
  let finding_id := ("validated-" : str) ++ suffix in
  let '(appended, audit) := validation_audit_append
    {| va_action := "finding_promoted"; va_subject_id := finding_id; va_outcome := "validated";
       va_metadata := {[ ("oracle_evidence_sha256" : str) := or_evidence_sha256 result ]} |}
    (do_audit self) in
  let oracle := {| do_oracle_id := do_oracle_id self; do_limits := do_limits self; do_audit := audit |} in
  match appended with
  | Err e => Done (Err e, oracle)
  | Ok _ =>
      Done (Ok {| vf_finding_id := finding_id; vf_candidate_id := or_candidate_id result;
                  vf_rule_id := rule_id; vf_origin := origin; vf_endpoint_sha256 := endpoint_sha256;
                  vf_mutation_id := or_mutation_id result;
                  vf_oracle_evidence_sha256 := or_evidence_sha256 result;
                  vf_repeatable_delta_sha256 := repeatable_delta_sha256; vf_state := PsValidated;
                  vf_summary := summary |}, oracle)
  end end end end end end.
End Oracle.
End Validation.
