(* ===== verification/ValidationFacts.v ===== *)
(** * ValidationFacts: what the active-validation contracts guarantee

    Rendered markers are inert and bounded; an engine generates no more mutations
    than its capability allows; the ledger follows the cleanup life cycle of each
    object; the oracle confirms exactly the repeatable changes. *)

From S2P Require Import Prelude ByteStr BTree HashChain HttpSyntax Planner PlannerFacts Workflow WorkflowFacts Validation.
Local Open Scope N_scope.

(** ** Markers *)

(** The only bytes a marker is made of. *)
Definition is_marker_byte (c : byte) : bool := is_ascii_lowercase c || is_ascii_digit c || is_byte 95 c.

Lemma marker_byte_lower c : is_marker_byte c = true -> lower_byte c = c.
Proof. byte_cases c. Qed.
Lemma hex_marker_byte c : is_ascii_digit c || in_range 97 102 c = true -> is_marker_byte c = true.
Proof. byte_cases c. Qed.
Lemma digit_marker_byte c : is_ascii_digit c = true -> is_marker_byte c = true.
Proof. byte_cases c. Qed.
Lemma hex_not_continuation c : is_ascii_digit c || in_range 97 102 c = true -> is_continuation c = false.
Proof. byte_cases c. Qed.

Lemma marker_lowercase text : forallb is_marker_byte text = true -> to_ascii_lowercase text = text.
Proof.
  induction text as [|c text IH]; [done|]. simpl. intros [Hc Ht]%andb_true_iff.
  unfold to_ascii_lowercase in *. simpl. by rewrite marker_byte_lower, IH.
Qed.

Lemma starts_with_bytes needle : forall s c, starts_with s needle = true -> c ∈ needle -> c ∈ s.
Proof. intros s c [r ->]%starts_with_spec Hc. set_solver. Qed.

Lemma contains_str_bytes s needle c : contains_str s needle = true -> c ∈ needle -> c ∈ s.
Proof.
  induction s as [|x s IH]; cbn [contains_str]; intros [H|H]%orb_true_iff Hc; try done.
  - by eapply starts_with_bytes.
  - by eapply starts_with_bytes.
  - apply elem_of_cons. right. by apply IH.
Qed.

(** No forbidden fragment is made of marker bytes only. *)
Lemma fragments_have_foreign_bytes :
  forallb (existsb (fun c => negb (is_marker_byte c))) FORBIDDEN_FRAGMENTS = true.
Proof. vm_compute. reflexivity. Qed.

Lemma marker_is_inert text :
  forallb is_marker_byte text = true ->
  existsb (contains_str (to_ascii_lowercase text)) FORBIDDEN_FRAGMENTS = false.
Proof.
  intros Ht. rewrite (marker_lowercase _ Ht).
  apply not_true_iff_false. intros (fragment & Hf & Hc)%existsb_elem.
  pose proof fragments_have_foreign_bytes as Hall. rewrite forallb_elem in Hall.
  specialize (Hall _ Hf). apply existsb_elem in Hall as (c & Hin & Hb).
  rewrite forallb_elem in Ht. rewrite (Ht c) in Hb; [done|]. by eapply contains_str_bytes.
Qed.

Lemma sha256_bytes seed :
  is_lower_hex_sha256 seed = true ->
  len seed = 64 /\ forall c, c ∈ seed -> is_ascii_digit c || in_range 97 102 c = true.
Proof.
  unfold is_lower_hex_sha256. intros [Hl Hb]%andb_true_iff. apply N.eqb_eq in Hl.
  split; [done|]. by apply forallb_elem.
Qed.

Lemma str_prefix_sha256 n seed :
  is_lower_hex_sha256 seed = true -> n <= 64 -> str_prefix n seed = Done (take (N.to_nat n) seed).
Proof.
  intros [Hl Hb]%sha256_bytes Hn. unfold str_prefix. rewrite Hl.
  destruct (N.ltb_spec 64 n); [lia|]. destruct (seed !! N.to_nat n) as [c|] eqn:Ec; [|done].
  rewrite hex_not_continuation; [done|]. apply Hb. by eapply list_elem_of_lookup_2.
Qed.

Lemma marker_bytes seed n :
  is_lower_hex_sha256 seed = true -> forallb is_marker_byte (("nxb_" : str) ++ take n seed) = true.
Proof.
  intros [_ Hb]%sha256_bytes. rewrite forallb_app. apply andb_true_iff. split; [done|].
  apply forallb_elem. intros c Hc. apply hex_marker_byte, Hb. apply elem_of_take in Hc as (i & Hi & _).
  by eapply list_elem_of_lookup_2.
Qed.

Lemma len_take_le n (s : str) : len (take n s) <= N.of_nat n.
Proof. unfold len. rewrite length_take. lia. Qed.

Lemma cycle_take_bytes p n text : forallb p text = true -> forallb p (cycle_take n text) = true.
Proof.
  rewrite !forallb_elem. intros Ht c (i & Hi & _)%elem_of_take. apply list_elem_of_lookup_2 in Hi.
  apply list_elem_of_In, in_concat in Hi as (s & Hs & Hc). 
  apply list_elem_of_In, elem_of_replicate in Hs as [-> _]. apply Ht. by apply list_elem_of_In.
Qed.

(** The text that is rendered for a digest, before the length check. *)
Lemma render_inert_value_spec kind value_class seed maximum :
  is_lower_hex_sha256 seed = true ->
  exists text, forallb is_marker_byte text = true /\ len text <= 256
    /\ render_inert_value kind value_class seed maximum
       = Done (if maximum <? len text then Err (InvalidMutation "rendered marker exceeds bounds") else Ok text).
Proof.
  intros Hs. unfold render_inert_value. rewrite !str_prefix_sha256 by (done || lia).
  pose proof (marker_bytes seed 16 Hs) as Hm.
  assert (len (("nxb_" : str) ++ take 16 seed) <= 256) as Hl
    by (rewrite len_app; pose proof (len_take_le 16 seed); unfold len at 1; simpl; lia).
  assert (forall text : str, forallb is_marker_byte text = true -> len text <= 256 ->
    (if (maximum <? len text) || (MAX_MUTATION_VALUE_BYTES <? len text)
     then Done (Err (InvalidMutation "rendered marker exceeds bounds"))
     else if existsb (contains_str (to_ascii_lowercase text)) FORBIDDEN_FRAGMENTS
     then Done (Err (InvalidMutation "rendered marker is not inert"))
     else Done (Ok text))
    = Done (if maximum <? len text then Err (InvalidMutation "rendered marker exceeds bounds") else Ok text))
    as Hend.
  { intros text Ht Hlen. rewrite marker_is_inert by done.
    destruct (N.ltb_spec MAX_MUTATION_VALUE_BYTES (len text)); [unfold MAX_MUTATION_VALUE_BYTES in *; lia|].
    rewrite orb_false_r. by destruct (maximum <? len text). }
  destruct kind; [exists (("nxb_" : str) ++ take 16 seed)|exists (("nxb_" : str) ++ take 16 seed)|exists []| |].
  1-3: split_and!; [done|done|by apply Hend].
  - destruct value_class.
    1,4: exists (("nxb_" : str) ++ take 16 seed); split_and!; [done|done|by apply Hend].
    + set (n := _ mod _). assert (n < 1000000) as Hn by (apply N.mod_lt; done).
      assert (len (decimal n) <= 256) by (unfold len; pose proof (decimal_length 6 n ltac:(lia) Hn); lia).
      assert (forallb is_marker_byte (decimal n) = true).
      { destruct (decimal_spec n) as [_ Hd]. rewrite forallb_elem in *. intros c Hc. by apply digit_marker_byte, Hd. }
      exists (decimal n). split_and!; [done|done|by apply Hend].
    + destruct seed as [|first seed]; [by vm_compute in Hs|].
      change (index 0 (first :: seed)) with (Done first). cbv iota beta.
      exists (if N_of_ascii first mod 2 =? 0 then ("true" : str) else "false").
      destruct (N_of_ascii first mod 2 =? 0); (split_and!; [done|by vm_compute|by apply Hend]).
  - exists (cycle_take (N.min maximum 256) (("nxb_" : str) ++ take 16 seed)).
    assert (len (cycle_take (N.min maximum 256) (("nxb_" : str) ++ take 16 seed)) <= 256)
      by (unfold cycle_take; etrans; [apply len_take_le|]; lia).
    split_and!; [by apply cycle_take_bytes|done|]. apply Hend; [by apply cycle_take_bytes|done].
Qed.

(** ** The engine *)

(** A call on an engine or on its capability. *)
Inductive MutationCall : Type :=
  | Generate (plan : RequestIntentPlan) (request : CapabilityUseRequest) (target : MutationTarget)
      (template : MutationTemplate) (kind : MutationKind) (ordinal : N)
  | UseCapability (request : CapabilityUseRequest)
  | RevokeCapability.

(** What a plan, a template and a capability say of a generated mutation. *)
Definition mutation_ok (c : ProbeCapability) (call : MutationCall) (m : SafeMutation) : Prop :=
  match call with
  | Generate plan request target template kind ordinal =>
      rp_risk_class plan = SafeActive /\ rp_active_execution_allowed plan = true
      /\ mt_name target ∈ rp_parameter_names plan /\ kind ∈ tp_allowed_kinds template
      /\ mt_location target ∈ tp_allowed_locations template /\ ordinal < tp_maximum_variants template
      /\ use_allowed c request /\ cu_endpoint_sha256 request = rp_canonical_url_sha256 plan
      /\ cu_method request = rp_method plan
      /\ sm_endpoint_sha256 m = rp_canonical_url_sha256 plan /\ sm_capability_id m = pc_capability_id c
      /\ sm_target m = target /\ sm_kind m = kind
      /\ forallb is_marker_byte (sm_value m) = true
      /\ len (sm_value m) <= N.min 256 (tp_maximum_output_bytes template)
      /\ sm_value_bytes m = len (sm_value m)
  | _ => False
  end.

Definition mutation_name (n : N) : str := ("mutation-" : str) ++ decimal020 n.

Lemma mutation_name_inj a b : mutation_name a = mutation_name b -> a = b.
Proof.
  intros H. apply app_inv_head in H. rewrite <- (decimal020_value a), <- (decimal020_value b).
  by rewrite H.
Qed.

Section Facts.
Context {S : Sha256Lib} {SL : Sha256Laws} {JA : JsonLib (HashMaterial ValidationAuditEvent)}.

Lemma validation_hash_hex {A} {J : JsonLib A} (value : A) h :
  validation_hash value = Ok h -> is_lower_hex_sha256 h = true.
Proof.
  unfold validation_hash, validation_hash_bytes. intros Hh. destruct (map_err _ _) as [bytes|]; [|done].
  injection Hh as <-. apply to_lower_hex_sha256. pose proof (sha256_length bytes) as Hl. unfold len in Hl. lia.
Qed.

Lemma validation_append_spec event chain r chain' :
  chain_ok chain -> validation_audit_append event chain = (r, chain') ->
  chain_ok chain' /\ match r with
    | Ok _ => HashChain.event <$> records chain' = (HashChain.event <$> records chain) ++ [event]
              /\ tail_hash chain' <> [] 
    | Err _ => chain' = chain
    end.
Proof.
  intros Hok. unfold validation_audit_append. destruct (chain_append event chain) as [r0 c0] eqn:Ha.
  intros [= <- <-]. split; [by eapply chain_append_ok|].
  pose proof (chain_append_spec _ _ _ _ Ha) as Hs. destruct r0 as [rec|e]; simpl; [|done].
  destruct Hs as (Hr & <- & _ & _ & Ht & Hsnd & _). rewrite Hr, fmap_app. split; [done|].
  rewrite Ht. apply record_sound_hex in Hsnd. intros E. rewrite E in Hsnd. by vm_compute in Hsnd.
Qed.

Section Engine.
Context {JP : JsonLib PlanMaterial} {JS : JsonLib SeedMaterial}.

Fixpoint mutation_calls (calls : list MutationCall) (engine : SafeMutationEngine) (c : ProbeCapability)
    : Run (list (MutationCall * SafeMutation) * SafeMutationEngine * ProbeCapability) :=
  match calls with
  | [] => Done ([], engine, c)
  | RevokeCapability :: rest => mutation_calls rest engine (capability_revoke c)
  | UseCapability request :: rest => mutation_calls rest engine (capability_authorize request c).2
  | Generate plan request target template kind ordinal as call :: rest =>
      let! (result, engine, c) :=
        authorize_and_generate plan request target template kind ordinal engine c in
      let! (generated, engine, c) := mutation_calls rest engine c in
      Done (match result with Ok m => (call, m) :: generated | Err _ => generated end, engine, c)
  end.

Definition engine_ids (engine : SafeMutationEngine) : list str :=
  va_subject_id <$> (event <$> records (se_audit engine)).

(** One call of the generator never panics: it generates the mutation of the next
    number and records it, or it generates and records nothing. *)
Lemma generate_spec plan use target template kind ordinal e :
  chain_ok (se_audit e) -> se_next_sequence e < u64_max ->
  exists r e', generate_from_receipt plan use target template kind ordinal e = Done (r, e')
    /\ chain_ok (se_audit e') /\ se_next_sequence e <= se_next_sequence e' <= se_next_sequence e + 1
    /\ match r with
       | Ok m =>
           se_next_sequence e' = se_next_sequence e + 1
           /\ engine_ids e' = engine_ids e ++ [sm_mutation_id m]
           /\ sm_mutation_id m = mutation_name (se_next_sequence e)
           /\ sm_endpoint_sha256 m = rp_canonical_url_sha256 plan
           /\ sm_capability_id m = ur_capability_id use /\ sm_target m = target /\ sm_kind m = kind
           /\ forallb is_marker_byte (sm_value m) = true
           /\ len (sm_value m) <= N.min 256 (tp_maximum_output_bytes template)
           /\ sm_value_bytes m = len (sm_value m)
       | Err _ => engine_ids e' = engine_ids e
       end.
Proof.
  intros Hok Hn. unfold generate_from_receipt.
  destruct (validation_hash _) as [seed|err] eqn:Hh; [|by eexists _, _; split_and!; [done|done|lia..|done]].
  apply validation_hash_hex in Hh.
  destruct (render_inert_value_spec kind (mt_value_class target) seed (tp_maximum_output_bytes template) Hh)
    as (text & Ht & Hl & ->). cbv iota.
  destruct (N.ltb_spec (tp_maximum_output_bytes template) (len text)) as [Hlt|Hle];
    [by eexists _, _; split_and!; [done|done|lia..|done]|].
  assert (saturating_add (se_next_sequence e) 1 = se_next_sequence e + 1) as Hsat
    by (apply (saturating_add_small _ _ u64_max); lia).
  destruct (validation_audit_append _ _) as [r audit] eqn:Ha.
  apply (validation_append_spec _ _ _ _ Hok) in Ha as [Hok' Ha].
  destruct r as [rec|err]; eexists _, _; (split; [reflexivity|]); simpl; rewrite Hsat;
    (split; [done|]; split; [lia|]).
  - split_and!; try done; [|lia]. destruct Ha as [Ha _]. unfold engine_ids. simpl. by rewrite Ha, fmap_app.
  - unfold engine_ids. simpl. by rewrite Ha.
Qed.

Lemma static_request_ok plan request target template kind ordinal :
  validate_static_request plan request target template kind ordinal = Ok tt ->
  rp_risk_class plan = SafeActive /\ rp_active_execution_allowed plan = true
  /\ mt_name target ∈ rp_parameter_names plan /\ kind ∈ tp_allowed_kinds template
  /\ mt_location target ∈ tp_allowed_locations template /\ ordinal < tp_maximum_variants template
  /\ cu_endpoint_sha256 request = rp_canonical_url_sha256 plan /\ cu_method request = rp_method plan
  /\ cu_mutations request = 1.
Proof.
  unfold validate_static_request. intros H. inv_ok H. bools.
  repeat match goal with H : ¬ (_ <> _) |- _ => apply dec_stable in H end.
  split_and!; try done. by destruct (rp_risk_class plan).
Qed.

(** What a whole call does with the engine and the capability. *)
Lemma authorize_and_generate_spec plan request target template kind ordinal e c :
  chain_ok (se_audit e) -> se_next_sequence e < u64_max ->
  small_capability c -> pc_requests_used c <= pc_maximum_requests c ->
  pc_mutations_used c <= pc_maximum_mutations c ->
  exists r e' c', authorize_and_generate plan request target template kind ordinal e c = Done (r, e', c')
    /\ chain_ok (se_audit e') /\ se_next_sequence e <= se_next_sequence e' <= se_next_sequence e + 1
    /\ (exists requests mutations, c' = with_use requests mutations (pc_revoked c) c
          /\ pc_requests_used c <= requests <= pc_maximum_requests c
          /\ pc_mutations_used c <= mutations <= pc_maximum_mutations c
          /\ (is_ok r = true -> requests = pc_requests_used c + 1 /\ mutations = pc_mutations_used c + 1
                 /\ pc_revoked c = false))
    /\ match r with
       | Ok m =>
           mutation_ok c (Generate plan request target template kind ordinal) m
           /\ se_next_sequence e' = se_next_sequence e + 1
           /\ engine_ids e' = engine_ids e ++ [sm_mutation_id m]
           /\ sm_mutation_id m = mutation_name (se_next_sequence e)
       | Err _ => engine_ids e' = engine_ids e
       end.
Proof.
  intros Hok Hn Hs Hu Hm. unfold authorize_and_generate.
  assert (c = with_use (pc_requests_used c) (pc_mutations_used c) (pc_revoked c) c) as Hid by by destruct c.
  destruct (validate_static_request _ _ _ _ _ _) as [[]|err] eqn:Hv.
  2: { eexists _, _, _. split; [reflexivity|]. split_and!; [done|lia..| |done]. eexists _, _. split_and!; [done|lia..|done]. }
  apply static_request_ok in Hv as (H1 & H2 & H3 & H4 & H5 & H6 & H7 & H8 & H9).
  destruct (capability_authorize request c) as [[use|err] c1] eqn:Ha.
  2: { pose proof (authorize_spec _ _ _ _ Hs Hu Ha) as ->. eexists _, _, _. split; [reflexivity|].
       split_and!; [done|lia..| |done]. eexists _, _. split_and!; [done|lia..|done]. }
  assert (ur_endpoint_sha256 use = cu_endpoint_sha256 request /\ ur_mutations_used use = cu_mutations request
    /\ ur_capability_id use = pc_capability_id c) as (Hu1 & Hu2 & Hu3).
  { revert Ha. unfold capability_authorize. destruct (capability_checks c request); [|done]. by intros [= <- _]. }
  pose proof (authorize_spec _ _ _ _ Hs Hu Ha) as (Hrev & Hal & -> & Hr1 & Hr2 & _).
  rewrite Hu1, Hu2, H7, H9, bool_decide_eq_false_2 by naive_solver. simpl.
  destruct (generate_spec plan use target template kind ordinal e Hok Hn) as (r & e' & -> & Hok' & Hn' & Hr).
  eexists _, _, _. split; [reflexivity|]. split_and!; [done|lia..| |].
  - rewrite H9 in Hr2. eexists _, _. rewrite Hrev. split_and!; [done|lia..|]. intros _. split_and!; [lia..|done].
  - destruct r as [m|err]; [|done]. destruct Hr as (? & ? & ? & ? & Hcid & ? & ? & ? & ? & ?).
    unfold mutation_ok. split_and!; done || congruence.
Qed.

Lemma mutation_calls_spec calls : forall e c,
  chain_ok (se_audit e) -> se_next_sequence e + len calls <= u64_max ->
  small_capability c -> pc_requests_used c <= pc_maximum_requests c ->
  pc_mutations_used c <= pc_maximum_mutations c ->
  exists generated e' c', mutation_calls calls e c = Done (generated, e', c')
    /\ Forall (fun g => mutation_ok c g.1 g.2) generated
    /\ pc_requests_used c + len generated <= pc_maximum_requests c
    /\ pc_mutations_used c + len generated <= pc_maximum_mutations c
    /\ (pc_revoked c = true -> generated = [])
    /\ chain_ok (se_audit e')
    /\ engine_ids e' = engine_ids e ++ (sm_mutation_id <$> generated.*2)
    /\ NoDup (sm_mutation_id <$> generated.*2)
    /\ Forall (fun g => exists n, se_next_sequence e <= n /\ sm_mutation_id g.2 = mutation_name n) generated
    /\ se_next_sequence e' <= se_next_sequence e + len calls
    /\ exists requests mutations revoked, c' = with_use requests mutations revoked c
         /\ requests <= pc_maximum_requests c /\ mutations <= pc_maximum_mutations c.
Proof.
  induction calls as [|call calls IH]; intros e c Hok Hn Hs Hu Hm.
  { eexists _, _, _. split; [reflexivity|]. rewrite len_nil, app_nil_r. split_and!; try done; try constructor; try lia.
    exists (pc_requests_used c), (pc_mutations_used c), (pc_revoked c). split; [by destruct c|done]. }
  rewrite len_cons in Hn |- *. destruct call as [plan request target template kind ordinal|request|]; cbn [mutation_calls].
  - destruct (authorize_and_generate_spec plan request target template kind ordinal e c Hok ltac:(lia) Hs Hu Hm)
      as (r & e1 & c1 & -> & Hok1 & Hn1 & (rq & mu & -> & Hrq & Hmu & Hcount) & Hr). cbv iota.
    destruct (IH e1 (with_use rq mu (pc_revoked c) c)) as (g & e2 & c2 & -> & Hf & Hg1 & Hg2 & Hg3 & Hok2 & Hids & Hnd & Hnum & Hseq & Hc2);
      simpl; [done|lia|done|lia..|]. cbv iota. simpl in Hf, Hg1, Hg2, Hg3, Hc2.
    destruct r as [m|err].
    + destruct Hr as (Hmok & Hn2 & Hi & Hname), (Hcount eq_refl) as (-> & -> & Hrev).
      eexists _, _, _. split; [reflexivity|]. rewrite len_cons. split_and!; try lia; try done.
      * by constructor.
      * by rewrite Hrev.
      * rewrite Hids, Hi, <- app_assoc. done.
      * simpl. constructor; [|done]. rewrite <- list_fmap_compose. intros (g0 & Heq & Hin)%list_elem_of_fmap.
        rewrite Forall_forall in Hnum. destruct (Hnum _ Hin) as (n & Hle & Hname'). simpl in *.
        assert (se_next_sequence e = n) by (apply mutation_name_inj; congruence). lia.
      * constructor; [by exists (se_next_sequence e)|]. eapply Forall_impl; [done|].
        intros ? (n & ? & ?). exists n. split; [lia|done].
    + eexists _, _, _. split; [reflexivity|]. split_and!; try lia; try done; [by rewrite Hids, Hr|].
      eapply Forall_impl; [done|]. intros ? (n & ? & ?). exists n. split; [lia|done].
  - destruct (capability_authorize request c) as [r c1] eqn:Ha. simpl.
    pose proof (authorize_spec _ _ _ _ Hs Hu Ha) as Hr. destruct r as [use|err].
    + destruct Hr as (Hrev & _ & -> & Hr1 & Hr2 & _).
      destruct (IH e (with_use (pc_requests_used c + 1) (pc_mutations_used c + cu_mutations request) false c)
        Hok ltac:(lia) ltac:(exact Hs) ltac:(simpl; lia) ltac:(simpl; lia))
        as (g & e2 & c2 & -> & Hf & Hg1 & Hg2 & Hg3 & ? & ? & ? & ? & ? & Hc2). simpl in *.
      eexists _, _, _. split; [reflexivity|]. split_and!; try lia; try done. by rewrite Hrev.
    + subst. destruct (IH e c Hok ltac:(lia) Hs Hu Hm) as (g & e2 & c2 & -> & ? & ? & ? & ? & ? & ? & ? & ? & ? & ?).
      eexists _, _, _. split; [reflexivity|]. split_and!; try lia; done.
  - destruct (IH e (capability_revoke c) Hok ltac:(lia) Hs Hu Hm)
      as (g & e2 & c2 & -> & Hf & Hg1 & Hg2 & Hg3 & ? & ? & ? & ? & ? & Hc2). simpl in *.
    rewrite (Hg3 eq_refl) in *. eexists _, _, _. split; [reflexivity|]. split_and!; try lia; done.
Qed.
End Engine.

(** ** The ledger *)

(** The abstract life cycle of one object, with the number of the cleanup attempt. *)
Inductive ObjectPhase : Type :=
  | Absent | Live | Cleaning (attempt : N) | FailedCleanup (attempt : N) | Clean (attempt : N).

Inductive ObjectOp : Type := OpRegister | OpBegin | OpComplete | OpFail.

Definition phase_next (op : ObjectOp) (phase : ObjectPhase) : option ObjectPhase :=
  match op, phase with
  | OpRegister, Absent => Some Live
  | OpBegin, Live => Some (Cleaning 1)
  | OpBegin, FailedCleanup n => if n <? 3 then Some (Cleaning (n + 1)) else None
  | OpComplete, Cleaning n => Some (Clean n)
  | OpFail, Cleaning n => Some (FailedCleanup n)
  | _, _ => None
  end.

Definition phase_of (o : option OwnedObjectRecord) : ObjectPhase :=
  match o with
  | None => Absent
  | Some r =>
      match oo_state r with
      | Registered => Live
      | CleanupPending => Cleaning (oo_cleanup_attempts r)
      | CleanupFailed => FailedCleanup (oo_cleanup_attempts r)
      | Cleaned => Clean (oo_cleanup_attempts r)
      end
  end.

Inductive LedgerCall : Type :=
  | LRegister (object_id : str) (mutation : MutationReceipt) (creation_receipt_sha256 : str)
      (created_at expires_at : N) (cleanup : CleanupRecipe)
  | LBegin (object_id : str)
  | LComplete (object_id evidence_sha256 : str)
  | LFail (object_id evidence_sha256 : str).

Definition call_object (call : LedgerCall) : str :=
  match call with LRegister id _ _ _ _ _ | LBegin id | LComplete id _ | LFail id _ => id end.

Definition call_op (call : LedgerCall) : ObjectOp :=
  match call with
  | LRegister _ _ _ _ _ _ => OpRegister | LBegin _ => OpBegin | LComplete _ _ => OpComplete
  | LFail _ _ => OpFail
  end.

(** The arguments a call needs besides the right phase of its object. *)
Definition call_valid (call : LedgerCall) (l : OwnershipLedger) : bool :=
  match call with
  | LRegister id mutation creation created expires cleanup =>
      (N.of_nat (size (ol_objects l)) <? MAX_OWNED_OBJECTS)
      && is_ok (validation_validate_identifier id []) && is_lower_hex_sha256 creation
      && (created <? expires) && bool_decide (cr_endpoint_sha256 cleanup = mr_endpoint_sha256 mutation)
  | LBegin _ => true
  | LComplete _ evidence | LFail _ evidence => is_lower_hex_sha256 evidence
  end.

Definition op_action (op : ObjectOp) : str :=
  match op with
  | OpRegister => "owned_object_registered" | OpBegin => "cleanup_started"
  | OpComplete => "cleanup_completed" | OpFail => "cleanup_failed"
  end.

Definition ledger_call (call : LedgerCall) (l : OwnershipLedger) : bool * OwnershipLedger :=
  match call with
  | LRegister id mutation creation created expires cleanup =>
      let '(r, l) := register id mutation creation created expires cleanup l in (is_ok r, l)
  | LBegin id => let '(r, l) := begin_cleanup id l in (is_ok r, l)
  | LComplete id evidence => let '(r, l) := complete_cleanup id evidence l in (is_ok r, l)
  | LFail id evidence => let '(r, l) := fail_cleanup id evidence l in (is_ok r, l)
  end.

(** A history of calls with the accepted ones. *)
Fixpoint ledger_calls (calls : list LedgerCall) (l : OwnershipLedger) : list LedgerCall * OwnershipLedger :=
  match calls with
  | [] => ([], l)
  | call :: rest =>
      let '(accepted, l) := ledger_call call l in
      let '(calls, l) := ledger_calls rest l in
      (if accepted then call :: calls else calls, l)
  end.

(** Running the abstract life cycle of the object [id] over accepted calls. *)
Fixpoint replay (id : str) (calls : list LedgerCall) (phase : ObjectPhase) : option ObjectPhase :=
  match calls with
  | [] => Some phase
  | call :: rest =>
      if bool_decide (call_object call = id)
      then match phase_next (call_op call) phase with Some phase => replay id rest phase | None => None end
      else replay id rest phase
  end.

Record object_ok (l : OwnershipLedger) (id : str) (r : OwnedObjectRecord) : Prop := {
  oo_id : oo_object_id r = id;
  oo_run : oo_run_id r = ol_run_id l;
  oo_life : oo_created_at_milliseconds r < oo_expires_at_milliseconds r;
  oo_bound : cr_endpoint_sha256 (oo_cleanup r) = oo_endpoint_sha256 r;
  oo_attempts : oo_cleanup_attempts r <= 3;
  oo_attempted : oo_cleanup_attempts r = 0 <-> oo_state r = Registered;
  oo_evidence : is_Some (oo_last_cleanup_evidence_sha256 r) <->
    oo_state r = Cleaned \/ oo_state r = CleanupFailed \/ oo_state r = CleanupPending /\ 1 < oo_cleanup_attempts r
}.

Definition ledger_events (l : OwnershipLedger) : list (str * str) :=
  (fun e => (va_action e, va_subject_id e)) <$> (event <$> records (ol_audit l)).

Record ledger_ok (l : OwnershipLedger) : Prop := {
  lk_objects : map_Forall (object_ok l) (ol_objects l);
  lk_size : N.of_nat (size (ol_objects l)) <= MAX_OWNED_OBJECTS;
  lk_chain : chain_ok (ol_audit l)
}.

Section Ledger.
Context {JT : JsonTotal (HashMaterial ValidationAuditEvent)}.

Lemma put_record_spec id r event l :
  chain_ok (ol_audit l) ->
  exists audit, put_record id r event l
    = (Ok r, {| ol_run_id := ol_run_id l; ol_objects := <[id := r]> (ol_objects l); ol_audit := audit |})
    /\ chain_ok audit
    /\ HashChain.event <$> records audit = (HashChain.event <$> records (ol_audit l)) ++ [event].
Proof.
  intros Hok. unfold put_record.
  assert (exists rec audit, validation_audit_append event (ol_audit l) = (Ok rec, audit)) as (rec & audit & Ha).
  { unfold validation_audit_append. destruct (chain_append_total event (ol_audit l)) as (rec & audit & ->). eauto. }
  rewrite Ha. apply (validation_append_spec _ _ _ _ Hok) in Ha as [? [? _]]. eauto.
Qed.

(** What an accepted call leaves: the stored record of its object, and its event. *)
Definition accepted_step (call : LedgerCall) (l l' : OwnershipLedger) : Prop :=
  exists r audit event, l' = {| ol_run_id := ol_run_id l; ol_objects := <[call_object call := r]> (ol_objects l);
                                ol_audit := audit |}
    /\ chain_ok audit /\ HashChain.event <$> records audit = (HashChain.event <$> records (ol_audit l)) ++ [event]
    /\ (va_action event, va_subject_id event) = (op_action (call_op call), call_object call)
    /\ object_ok l' (call_object call) r
    /\ phase_next (call_op call) (phase_of (ol_objects l !! call_object call)) = Some (phase_of (Some r)).

Lemma accept id r event call l :
  chain_ok (ol_audit l) -> call_object call = id ->
  (va_action event, va_subject_id event) = (op_action (call_op call), id) ->
  (forall l', ol_run_id l' = ol_run_id l -> object_ok l' id r) ->
  phase_next (call_op call) (phase_of (ol_objects l !! id)) = Some (phase_of (Some r)) ->
  exists l', put_record id r event l = (Ok r, l') /\ accepted_step call l l'.
Proof.
  intros Hok <- He Hr Hp. destruct (put_record_spec (call_object call) r event l Hok) as (audit & -> & Hc & Hev).
  eexists. split; [reflexivity|]. exists r, audit, event. split_and!; try done. by apply Hr.
Qed.

Lemma stored_no_register (r : OwnedObjectRecord) :
  bool_decide (is_Some (phase_next OpRegister (phase_of (Some r)))) = false.
Proof. apply bool_decide_eq_false. simpl. destruct (oo_state r); by intros [? ?]. Qed.

Lemma register_call_spec id mutation creation created expires cleanup l accepted l' :
  let call := LRegister id mutation creation created expires cleanup in
  ledger_ok l -> ledger_call call l = (accepted, l') ->
  accepted = call_valid call l && bool_decide (is_Some (phase_next OpRegister (phase_of (ol_objects l !! id))))
  /\ if accepted then accepted_step call l l' else l' = l.
Proof.
  intros call Hl. unfold call, ledger_call, register, call_valid, validation_validate_sha256,
    validation_validate_identifier.
  destruct (N.leb_spec MAX_OWNED_OBJECTS (N.of_nat (size (ol_objects l)))) as [Hs|Hs].
  { intros [= <- <-]. by rewrite (proj2 (N.ltb_ge _ _)). }
  rewrite (proj2 (N.ltb_lt _ _) Hs). destruct (bool_decide (id = []) || _ || _); [by intros [= <- <-]|].
  destruct (is_lower_hex_sha256 creation) eqn:Hcr; cbn [negb is_ok andb]; [|by intros [= <- <-]].
  destruct (ol_objects l !! id) as [r|] eqn:Hid.
  { rewrite stored_no_register, andb_false_r, bool_decide_eq_true_2 by eauto. by intros [= <- <-]. }
  rewrite (bool_decide_eq_false_2 (is_Some (@None OwnedObjectRecord))) by (by intros [? ?]).
  rewrite (bool_decide_eq_true_2 (is_Some (phase_next _ _))), andb_true_r by (by eexists). cbn [orb].
  rewrite N.leb_antisym. destruct (N.ltb_spec created expires) as [Hlt|]; cbn [negb orb andb]; [|by intros [= <- <-]].
  destruct (decide (cr_endpoint_sha256 cleanup = mr_endpoint_sha256 mutation)) as [Heq|Hne];
    [|rewrite bool_decide_eq_true_2, bool_decide_eq_false_2 by done; by intros [= <- <-]].
  rewrite bool_decide_eq_false_2, bool_decide_eq_true_2 by naive_solver.
  match goal with |- context [put_record id ?r ?e l] =>
    destruct (accept id r e call l (lk_chain _ Hl) eq_refl eq_refl) as (l1 & -> & Ha) end.
  - intros l1 Hrun. constructor; simpl; try done; try lia. split; [by intros [? ?]|naive_solver].
  - by rewrite Hid.
  - intros [= <- <-]. by split.
Qed.

Lemma begin_call_spec id l accepted l' :
  ledger_ok l -> ledger_call (LBegin id) l = (accepted, l') ->
  accepted = bool_decide (is_Some (phase_next OpBegin (phase_of (ol_objects l !! id))))
  /\ if accepted then accepted_step (LBegin id) l l' else l' = l.
Proof.
  intros Hl. unfold ledger_call, begin_cleanup. destruct (ol_objects l !! id) as [r|] eqn:Hid.
  2: { intros [= <- <-]. by rewrite bool_decide_eq_false_2 by (by intros [? ?]). }
  pose proof (lk_objects _ Hl id r Hid) as Hr. destruct Hr as [H1 H2 H3 H4 H5 H6 H7].
  destruct (negb _ || _) eqn:Hg.
  { intros [= <- <-]. split; [|done]. symmetry. apply bool_decide_eq_false. simpl.
    destruct (oo_state r) eqn:Est; simpl; try (by intros [? ?]).
    - by rewrite (proj2 H6 eq_refl) in Hg.
    - simpl in Hg. destruct (N.leb_spec 3 (oo_cleanup_attempts r)); [|done].
      rewrite (proj2 (N.ltb_ge _ _)) by done. by intros [? ?]. }
  bools. assert (u8_saturating_add (oo_cleanup_attempts r) 1 = oo_cleanup_attempts r + 1) as ->
    by (unfold u8_saturating_add, u8_max; lia).
  assert (phase_next OpBegin (phase_of (Some r)) = Some (Cleaning (oo_cleanup_attempts r + 1))) as Hp.
  { simpl. destruct (oo_state r) eqn:Est; simpl in *; try done.
    - by rewrite (proj2 H6 eq_refl).
    - by rewrite (proj2 (N.ltb_lt _ _)). }
  match goal with |- context [put_record id ?r' ?e l] =>
    destruct (accept id r' e (LBegin id) l (lk_chain _ Hl) eq_refl eq_refl) as (l1 & -> & Ha) end.
  - intros l1 Hrun. constructor; simpl; try done; try congruence; try lia.
    + split; [lia|done].
    + rewrite H7. destruct (oo_state r) eqn:Est; simpl in *; try done.
      * pose proof (proj2 H6 eq_refl). naive_solver lia.
      * assert (oo_cleanup_attempts r <> 0) by (by intros ?%H6). naive_solver lia.
  - rewrite Hid. exact Hp.
  - intros [= <- <-]. split; [|done]. symmetry. rewrite Hp. by apply bool_decide_eq_true_2.
Qed.

(** [complete_cleanup] and [fail_cleanup] differ in the state they set. *)
Lemma finish_call_spec (op : ObjectOp) (state : OwnedObjectState) id evidence l r event call :
  (op = OpComplete /\ state = Cleaned \/ op = OpFail /\ state = CleanupFailed) ->
  call_op call = op -> call_object call = id ->
  (va_action event, va_subject_id event) = (op_action op, id) ->
  ledger_ok l -> ol_objects l !! id = Some r -> oo_state r = CleanupPending ->
  exists l', put_record id (with_cleanup state (oo_cleanup_attempts r) (Some evidence) r) event l
    = (Ok (with_cleanup state (oo_cleanup_attempts r) (Some evidence) r), l') /\ accepted_step call l l'.
Proof.
  intros Hop <- <- He Hl Hid Hst. pose proof (lk_objects _ Hl _ r Hid) as [H1 H2 H3 H4 H5 H6 H7].
  apply accept; [apply Hl|done|done| |].
  - intros l' Hrun. constructor; simpl; try done; try congruence.
    + destruct Hop as [[_ ->]|[_ ->]]; rewrite H6, Hst; naive_solver.
    + destruct Hop as [[_ ->]|[_ ->]]; naive_solver.
  - rewrite Hid. simpl. rewrite Hst. destruct Hop as [[-> ->]|[-> ->]]; done.
Qed.

Lemma not_pending_no_finish op (r : OwnedObjectRecord) :
  op = OpComplete \/ op = OpFail -> oo_state r <> CleanupPending ->
  bool_decide (is_Some (phase_next op (phase_of (Some r)))) = false.
Proof.
  intros Hop Hst. apply bool_decide_eq_false. simpl.
  destruct Hop as [-> | ->], (oo_state r); try done; by intros [? ?].
Qed.

(** The calls that end a cleanup: refused for their evidence, for an unknown object
    or for its state, or accepted. *)
Ltac finish_call id evidence l call :=
  destruct (is_lower_hex_sha256 evidence) eqn:Hev; cbn [negb andb]; [|by intros [= <- <-]];
  destruct (ol_objects l !! id) as [r|] eqn:Hid;
    [|intros [= <- <-]; by rewrite bool_decide_eq_false_2 by (by intros [? ?])];
  destruct (decide (oo_state r = CleanupPending)) as [Hst|Hst];
    [|rewrite bool_decide_eq_true_2 by done; intros [= <- <-]; split; [|done]; symmetry;
      apply not_pending_no_finish; auto];
  rewrite bool_decide_eq_false_2 by naive_solver;
  match goal with |- context [put_record id (with_cleanup ?s _ _ _) ?e l] =>
    destruct (finish_call_spec (call_op call) s id evidence l r e call) as (l1 & -> & Ha); auto
  end;
  intros [= <- <-]; split; [simpl; rewrite Hst; by rewrite bool_decide_eq_true_2|done].

(** A call is accepted exactly when its arguments are valid and the life cycle of
    its object allows it; a refused call changes nothing. *)
Lemma ledger_call_spec call l accepted l' :
  ledger_ok l -> ledger_call call l = (accepted, l') ->
  accepted = call_valid call l
    && bool_decide (is_Some (phase_next (call_op call) (phase_of (ol_objects l !! call_object call))))
  /\ if accepted then accepted_step call l l' else l' = l.
Proof.
  intros Hl. destruct call as [id mutation creation created expires cleanup|id|id evidence|id evidence];
    [by apply register_call_spec|by apply begin_call_spec|..];
    unfold ledger_call, complete_cleanup, fail_cleanup, validation_validate_sha256;
    cbn [call_valid call_op call_object].
  - finish_call id evidence l (LComplete id evidence).
  - finish_call id evidence l (LFail id evidence).
Qed.

Lemma object_ok_run l l' id r : ol_run_id l' = ol_run_id l -> object_ok l id r -> object_ok l' id r.
Proof. intros Hrun [H1 H2 H3 H4 H5 H6 H7]. constructor; try done. congruence. Qed.

Lemma ledger_step_ok call l accepted l' :
  ledger_ok l -> ledger_call call l = (accepted, l') ->
  ledger_ok l' /\ ol_run_id l' = ol_run_id l
  /\ (forall id, (if accepted && bool_decide (call_object call = id)
                  then phase_next (call_op call) (phase_of (ol_objects l !! id))
                  else Some (phase_of (ol_objects l !! id))) = Some (phase_of (ol_objects l' !! id)))
  /\ ledger_events l' = ledger_events l
       ++ (if accepted then [(op_action (call_op call), call_object call)] else []).
Proof.
  intros Hl Hc. apply (ledger_call_spec _ _ _ _ Hl) in Hc as [Hacc Hc].
  destruct accepted; [|subst; rewrite app_nil_r; by split_and!].
  destruct Hc as (r & audit & ev & -> & Hchain & Hev & Hact & Hr & Hp).
  symmetry in Hacc. apply andb_true_iff in Hacc as [Hval _]. split_and!; simpl; try done.
  - constructor; simpl; [| |done].
    + apply map_Forall_insert_2; [done|]. eapply map_Forall_impl; [apply Hl|].
      intros id r'. by apply object_ok_run.
    + destruct (ol_objects l !! call_object call) as [old|] eqn:Hid.
      * rewrite map_size_insert_Some by eauto. apply Hl.
      * rewrite map_size_insert_None by done. destruct call; simpl in Hp; try done.
        simpl in Hval. bools. lia.
  - intros id. case_bool_decide as Hid; [subst; by rewrite lookup_insert_eq, Hp|by rewrite lookup_insert_ne].
  - unfold ledger_events. simpl. rewrite Hev, fmap_app. simpl. by rewrite Hact.
Qed.

(** The ledger runs the life cycle of every object over the accepted calls. *)
Lemma ledger_calls_spec calls : forall l accepted l',
  ledger_ok l -> ledger_calls calls l = (accepted, l') ->
  ledger_ok l' /\ ol_run_id l' = ol_run_id l
  /\ (forall id, replay id accepted (phase_of (ol_objects l !! id)) = Some (phase_of (ol_objects l' !! id)))
  /\ ledger_events l' = ledger_events l
       ++ ((fun call => (op_action (call_op call), call_object call)) <$> accepted).
Proof.
  induction calls as [|call calls IH]; intros l accepted l' Hl; simpl.
  { intros [= <- <-]. by rewrite app_nil_r. }
  destruct (ledger_call call l) as [b l1] eqn:Hc.
  apply (ledger_step_ok _ _ _ _ Hl) in Hc as (Hl1 & Hrun1 & Hp1 & He1).
  destruct (ledger_calls calls l1) as [rest l2] eqn:Hcs. intros [= <- <-].
  apply (IH _ _ _ Hl1) in Hcs as (Hl2 & Hrun2 & Hp2 & He2).
  split_and!; [done|congruence| |].
  - intros id. specialize (Hp1 id). specialize (Hp2 id). destruct b; simpl in Hp1.
    + simpl. case_bool_decide; [by rewrite Hp1|]. injection Hp1 as ->. done.
    + injection Hp1 as ->. done.
  - rewrite He2, He1. destruct b; [|by rewrite app_nil_r]. by rewrite <- app_assoc.
Qed.

Lemma ledger_new_ok run_id genesis l : ledger_new run_id genesis = Ok l ->
  ledger_ok l /\ ol_objects l = ∅ /\ ledger_events l = [].
Proof.
  unfold ledger_new, validation_audit_new, chain_new_anchored. intros H. inv_ok H.
  destruct (negb _); simplify_eq/=. split_and!; try done. constructor; simpl; [|done|apply chain_new_ok].
  apply map_Forall_empty.
Qed.

(** A phase that no call leaves. *)
Definition final_phase (phase : ObjectPhase) : Prop :=
  match phase with Clean _ => True | FailedCleanup n => 3 <= n | _ => False end.

Lemma replay_final id calls phase phase' :
  final_phase phase -> replay id calls phase = Some phase' -> phase' = phase.
Proof.
  intros Hf. induction calls as [|call calls IH]; simpl; [by intros [= ->]|].
  case_bool_decide; [|done].
  assert (phase_next (call_op call) phase = None) as ->; [|done].
  destruct phase as [| |n|n|n]; try done; destruct (call_op call); try done.
  simpl in *. by rewrite (proj2 (N.ltb_ge _ _)).
Qed.

Lemma authorize_write_spec id now l r :
  ledger_ok l ->
  authorize_write id now l = Ok r
  <-> ol_objects l !! id = Some r /\ phase_of (Some r) = Live /\ now < oo_expires_at_milliseconds r.
Proof.
  intros Hl. unfold authorize_write. destruct (ol_objects l !! id) as [r0|] eqn:Hid; [|naive_solver].
  rewrite guard_ok. pose proof (oo_run _ _ _ (lk_objects _ Hl id r0 Hid)) as Hrun.
  rewrite bool_decide_eq_false_2 by naive_solver. simpl. split.
  - intros [Hg [= <-]]. bools. apply dec_stable in H. split_and!; [done| |done]. by rewrite H.
  - intros ([= ->] & Hp & Hlt). split; [|done]. rewrite (proj2 (N.leb_gt _ _)) by done.
    rewrite bool_decide_eq_false_2; [done|]. destruct (oo_state r); naive_solver.
Qed.

Lemma unresolved_spec l :
  unresolved_objects l = [] <-> forall id r, ol_objects l !! id = Some r -> oo_state r = Cleaned.
Proof.
  unfold unresolved_objects. split.
  - intros Hu id r Hid. apply dec_stable. intros Hst.
    assert (r ∈ List.filter (fun record => negb (bool_decide (oo_state record = Cleaned))) (map_values (ol_objects l)))
      as Hin; [|rewrite Hu in Hin; set_solver].
    apply list_elem_of_In, filter_In. split; [|by rewrite bool_decide_eq_false_2].
    apply list_elem_of_In, elem_of_map_values. eauto.
  - intros Hall. destruct (List.filter _ _) as [|r rest] eqn:E; [done|].
    assert (In r (r :: rest)) as Hin by (by left). rewrite <- E in Hin. apply filter_In in Hin as [Hin Hb].
    apply list_elem_of_In, elem_of_map_values in Hin as [id Hid]. by rewrite (Hall _ _ Hid) in Hb.
Qed.
End Ledger.

(** ** The oracle *)

Lemma list_to_set_size_one (l : list str) :
  N.of_nat (size (list_to_set l : gset str)) = 1 <-> exists h, (list_to_set l : gset str) = {[ h ]} /\ l <> [] /\ Forall (eq h) l.
Proof.
  split.
  - intros Hs. assert (size (list_to_set l : gset str) = 1%nat) as Hs1 by lia.
    apply size_1_elem_of in Hs1 as [h Hh]. exists h. split; [by apply leibniz_equiv|]. split.
    + intros ->. set_solver.
    + apply Forall_forall. intros x Hx. assert (x ∈ (list_to_set l : gset str)) by (by apply elem_of_list_to_set).
      set_solver.
  - intros (h & -> & _). by rewrite size_singleton.
Qed.

Lemma singleton_of_Forall (l : list str) h : l <> [] -> Forall (eq h) l -> (list_to_set l : gset str) = {[ h ]}.
Proof.
  intros Hne Hall. apply set_eq. intros x. rewrite elem_of_list_to_set, elem_of_singleton.
  rewrite Forall_forall in Hall. split; [intros Hx; by rewrite <- (Hall x Hx)|intros ->].
  destruct l as [|y l]; [done|]. rewrite (Hall y ltac:(set_solver)). set_solver.
Qed.

Lemma fold_min_le (l : list N) : forall x k, k <= fold_left N.min l x <-> k <= x /\ Forall (N.le k) l.
Proof.
  induction l as [|y l IH]; intros x k; simpl; [rewrite Forall_nil; tauto|].
  rewrite IH, N.min_glb_iff, Forall_cons. tauto.
Qed.

Lemma minimum_le l k : l <> [] -> k <= minimum_or_zero l <-> Forall (N.le k) l.
Proof. destruct l as [|x l]; [done|]. intros _. simpl. rewrite fold_min_le, Forall_cons. done. Qed.

Lemma minimum_zero l : l <> [] -> minimum_or_zero l = 0 <-> 0 ∈ l.
Proof.
  intros Hl. destruct (decide (0 ∈ l)) as [Hin|Hin]; split; try done.
  - intros _. apply N.le_0_r, N.nlt_ge. intros Hlt. assert (1 <= minimum_or_zero l) as H1 by lia.
    rewrite minimum_le, Forall_forall in H1 by done. specialize (H1 0 Hin). lia.
  - intros H0. exfalso. assert (1 <= minimum_or_zero l); [|lia].
    rewrite minimum_le, Forall_forall by done. intros x Hx.
    destruct (decide (x = 0)); [by subst|lia].
Qed.

(** What differs between the samples of a pair, as it is fingerprinted. *)
Definition delta_material (b m : DifferentialSample) : DeltaMaterial :=
  (bool_decide (ds_status b <> ds_status m),
   bool_decide (ds_header_fingerprint_sha256 b <> ds_header_fingerprint_sha256 m),
   bool_decide (ds_body_sha256 b <> ds_body_sha256 m),
   (Z.of_N (ds_body_bytes m) - Z.of_N (ds_body_bytes b))%Z,
   ds_semantic_tokens m ∖ ds_semantic_tokens b, ds_semantic_tokens b ∖ ds_semantic_tokens m,
   bool_decide (ds_session_generation b <> ds_session_generation m)).

(** How many of the observed aspects differ. *)
Definition changes (b m : DifferentialSample) : N :=
  N.b2n (bool_decide (ds_status b <> ds_status m))
  + N.b2n (bool_decide (ds_header_fingerprint_sha256 b <> ds_header_fingerprint_sha256 m))
  + N.b2n (bool_decide (ds_body_sha256 b <> ds_body_sha256 m))
  + N.b2n (bool_decide (~ ds_semantic_tokens m ⊆ ds_semantic_tokens b))
  + N.b2n (bool_decide (~ ds_semantic_tokens b ⊆ ds_semantic_tokens m))
  + N.b2n (bool_decide (ds_session_generation b <> ds_session_generation m)).

Definition limits_ok (limits : DifferentialLimits) : Prop :=
  1 <= dl_minimum_material_changes limits /\ dl_maximum_body_size_delta limits <= MAX_SAMPLE_BODY_BYTES
  /\ dl_maximum_timing_delta_milliseconds limits <= 10 * 60 * 1000.

(** A pair of samples that can be compared: a baseline and an observation of the
    mutation at its endpoint, within the limits of the oracle. *)
Definition comparable (mutation : MutationReceipt) (limits : DifferentialLimits)
    (pair : DifferentialSample * DifferentialSample) : Prop :=
  let '(b, m) := pair in
  ds_endpoint_sha256 b = mr_endpoint_sha256 mutation /\ ds_endpoint_sha256 m = mr_endpoint_sha256 mutation
  /\ ds_mutation_id b = None /\ ds_mutation_id m = Some (mr_mutation_id mutation)
  /\ (Z.abs (Z.of_N (ds_body_bytes m) - Z.of_N (ds_body_bytes b)) <= Z.of_N (dl_maximum_body_size_delta limits))%Z
  /\ (Z.abs (Z.of_N (ds_elapsed_milliseconds m) - Z.of_N (ds_elapsed_milliseconds b))
      <= Z.of_N (dl_maximum_timing_delta_milliseconds limits))%Z.

Lemma subset_difference (x y : gset str) : bool_decide (x ∖ y = ∅) = bool_decide (x ⊆ y).
Proof.
  apply bool_decide_ext. split; [|apply subseteq_empty_difference_L].
  intros H e He. destruct (decide (e ∈ y)); [done|]. assert (e ∈ x ∖ y) by set_solver. set_solver.
Qed.

Lemma count_true l : len (List.filter (fun b : bool => b) l) = foldr (fun b n => N.b2n b + n) 0 l.
Proof. induction l as [|[] l IH]; simpl; [done|rewrite len_cons; lia|lia]. Qed.

Section Oracle.
Context {JF : JsonLib SampleMaterial} {JD : JsonLib DeltaMaterial} {JE : JsonLib EvidenceMaterial}
  {JV : JsonLib FindingMaterial} {JFT : JsonTotal SampleMaterial} {JDT : JsonTotal DeltaMaterial}
  {JET : JsonTotal EvidenceMaterial} {JVT : JsonTotal FindingMaterial}
  {JT : JsonTotal (HashMaterial ValidationAuditEvent)}.

Lemma validation_hash_total {A} {J : JsonLib A} {T : JsonTotal A} (value : A) :
  exists h, validation_hash value = Ok h.
Proof. unfold validation_hash. destruct (to_vec_total value) as [bytes ->]. simpl. eauto. Qed.

Lemma compare_samples_spec mutation b m limits :
  limits_ok limits -> ds_endpoint_sha256 b = mr_endpoint_sha256 mutation ->
  ds_endpoint_sha256 m = mr_endpoint_sha256 mutation -> ds_mutation_id m = Some (mr_mutation_id mutation) ->
  (is_ok (compare_samples b m limits) = true <-> comparable mutation limits (b, m))
  /\ forall d, compare_samples b m limits = Ok d ->
       validation_hash (delta_material b m) = Ok (dd_delta_fingerprint_sha256 d)
       /\ material_change_count d = changes b m.
Proof.
  intros (Hl1 & Hl2 & Hl3) Hb Hm Hid. unfold compare_samples.
  rewrite bool_decide_eq_false_2 by congruence. rewrite (bool_decide_eq_false_2 (ds_mutation_id m = None)) by congruence.
  rewrite (proj2 (N.ltb_ge _ _) Hl2), (proj2 (N.ltb_ge _ _) Hl3), (proj2 (N.eqb_neq _ _)) by lia.
  rewrite !orb_false_r, orb_false_l. unfold comparable. rewrite Hb, Hm, Hid.
  destruct (ds_mutation_id b) as [x|] eqn:Hbid;
    [rewrite bool_decide_eq_true_2 by eauto; split; [naive_solver|done]|].
  rewrite bool_decide_eq_false_2 by (by intros [? ?]).
  destruct (N.ltb_spec (dl_maximum_body_size_delta limits)
    (Z.abs_N (Z.of_N (ds_body_bytes m) - Z.of_N (ds_body_bytes b)))) as [H1|H1]; [split; [naive_solver lia|done]|].
  destruct (N.ltb_spec (dl_maximum_timing_delta_milliseconds limits)
    (Z.abs_N (Z.of_N (ds_elapsed_milliseconds m) - Z.of_N (ds_elapsed_milliseconds b)))) as [H2|H2];
    [split; [naive_solver lia|done]|].
  fold (delta_material b m). destruct (validation_hash_total (delta_material b m)) as [h Hh]. rewrite Hh. split.
  - split; [|done]. intros _. split_and!; try done; lia.
  - intros d [= <-]. simpl. split; [done|]. unfold material_change_count. rewrite count_true. simpl.
    unfold changes. rewrite !subset_difference. rewrite <- !bool_decide_not. lia.
Qed.

(** The fingerprint and the count that a comparison reports for a pair. *)
Definition reported (pair : DifferentialSample * DifferentialSample) (d : DifferentialDelta) : Prop :=
  validation_hash (delta_material pair.1 pair.2) = Ok (dd_delta_fingerprint_sha256 d)
  /\ material_change_count d = changes pair.1 pair.2.

Lemma compare_pairs_spec mutation limits pairs :
  limits_ok limits ->
  (is_ok (compare_pairs mutation limits pairs) = true <-> Forall (comparable mutation limits) pairs)
  /\ forall ds, compare_pairs mutation limits pairs = Ok ds -> Forall2 reported pairs ds.
Proof.
  intros Hl. induction pairs as [|[b m] pairs [IH1 IH2]].
  { split; [by split|]. intros ds [= <-]. constructor. }
  cbn [compare_pairs]. destruct (_ || _ || _) eqn:Hg.
  { split; [|done]. split; [done|]. intros Hf. apply Forall_cons in Hf as [(E1 & E2 & _ & E3 & _) _].
    by rewrite !bool_decide_eq_false_2 in Hg by naive_solver. }
  bools. repeat match goal with H : ¬ (_ <> _) |- _ => apply dec_stable in H end.
  destruct (compare_samples_spec mutation b m limits) as [Hc1 Hc2]; [done..|].
  rewrite Forall_cons, <- Hc1, <- IH1.
  destruct (compare_samples b m limits) as [d|e]; [|split; [naive_solver|done]].
  destruct (compare_pairs mutation limits pairs) as [ds|e]; [|split; [naive_solver|done]].
  split; [done|]. intros ds' [= <-]. constructor; [by apply Hc2|by apply IH2].
Qed.

(** The samples an evaluation accepts. *)
Definition samples_ok (candidate_id : str) (mutation : MutationReceipt) (limits : DifferentialLimits)
    (baselines mutated : list DifferentialSample) : Prop :=
  is_ok (validation_validate_identifier candidate_id []) = true
  /\ 2 <= len baselines <= MAX_DIFFERENTIAL_SAMPLES /\ len mutated = len baselines
  /\ (exists h, Forall (fun b => sample_fingerprint b = Ok h) baselines)
  /\ Forall (comparable mutation limits) (zip baselines mutated).

(** All pairs show the difference with the fingerprint [h]. *)
Definition repeated (h : str) (pairs : list (DifferentialSample * DifferentialSample)) : Prop :=
  Forall (fun pair => validation_hash (delta_material pair.1 pair.2) = Ok h) pairs.

Lemma fingerprints_spec (l : list DifferentialSample) :
  exists fs, collect_results sample_fingerprint l = Ok fs /\ Forall2 (fun b f => sample_fingerprint b = Ok f) l fs.
Proof.
  assert (exists fs, Forall2 (fun b f => sample_fingerprint b = Ok f) l fs) as [fs Hfs].
  { induction l as [|b l [fs IH]]; [exists []; constructor|].
    destruct (validation_hash_total (ds_endpoint_sha256 b, ds_status b, ds_header_fingerprint_sha256 b,
      ds_body_sha256 b, ds_body_bytes b, ds_semantic_tokens b, ds_session_generation b)) as [f Hf].
    exists (f :: fs). by constructor. }
  exists fs. split; [|done]. by apply collect_results_ok.
Qed.

Lemma fingerprints_equal {A} (f : A -> Result str ValidationError) l fs h :
  Forall2 (fun b x => f b = Ok x) l fs -> Forall (fun b => f b = Ok h) l <-> Forall (eq h) fs.
Proof.
  induction 1 as [|b x l fs Hx Hf IH]; [by rewrite !Forall_nil|]. rewrite !Forall_cons, IH, Hx.
  split; intros [E ?]; (split; [congruence|done]).
Qed.

Lemma one_fingerprint {A} (f : A -> Result str ValidationError) l fs :
  l <> [] -> Forall2 (fun b x => f b = Ok x) l fs ->
  N.of_nat (size (list_to_set fs : gset str)) = 1 <-> exists h, Forall (fun b => f b = Ok h) l.
Proof.
  intros Hl Hf. rewrite list_to_set_size_one. split.
  - intros (h & _ & _ & Hall). exists h. by apply (fingerprints_equal _ _ _ _ Hf).
  - intros (h & Hall). apply (fingerprints_equal _ _ _ _ Hf) in Hall. exists h.
    assert (fs <> []) by (intros ->; by inversion Hf; subst). split_and!; [|done..]. by apply singleton_of_Forall.
Qed.

Lemma head_singleton (h : str) : head (btree_iter ({[ h ]} : gset str)) = Some h.
Proof. unfold btree_iter. by rewrite elements_singleton. Qed.

Definition delta_hash (pair : DifferentialSample * DifferentialSample) : Result str ValidationError :=
  validation_hash (delta_material pair.1 pair.2).

Lemma reported_split pairs ds :
  Forall2 reported pairs ds ->
  Forall2 (fun p x => delta_hash p = Ok x) pairs (dd_delta_fingerprint_sha256 <$> ds)
  /\ material_change_count <$> ds = (fun p => changes p.1 p.2) <$> pairs.
Proof.
  induction 1 as [|p d pairs ds [Hh Hc] Hf [IH1 IH2]]; [by split|]. cbn. rewrite Hc, IH2.
  split; [by constructor|done].
Qed.

(** The decision and the reported delta, in terms of the pairs of samples. *)
Lemma decision_spec limits pairs ds :
  limits_ok limits -> pairs <> [] -> Forall2 reported pairs ds ->
  let repeatable : gset str := list_to_set (dd_delta_fingerprint_sha256 <$> ds) in
  let decision := decide_oracle limits repeatable (minimum_or_zero (material_change_count <$> ds)) in
  (decision = Confirmed <-> (exists h, repeated h pairs)
     /\ Forall (fun p => dl_minimum_material_changes limits <= changes p.1 p.2) pairs)
  /\ (decision = Rejected <-> Exists (fun p => changes p.1 p.2 = 0) pairs)
  /\ (forall h, (if N.of_nat (size repeatable) =? 1 then head (btree_iter repeatable) else None) = Some h
        <-> repeated h pairs).
Proof.
  intros (Hmin & _) Hne Hr repeatable decision. apply reported_split in Hr as [Hf Hc].
  pose proof (one_fingerprint _ _ _ Hne Hf) as Hone. fold repeatable in Hone.
  assert ((fun p : DifferentialSample * DifferentialSample => changes p.1 p.2) <$> pairs <> []) as Hne' by (by destruct pairs).
  unfold decision, decide_oracle. rewrite Hc. split_and!.
  - rewrite <- Hone, <- (Forall_fmap (fun p => changes p.1 p.2) (N.le (dl_minimum_material_changes limits))).
    rewrite <- minimum_le by done.
    destruct (N.eqb_spec (N.of_nat (size repeatable)) 1), (N.leb_spec (dl_minimum_material_changes limits)
      (minimum_or_zero ((fun p => changes p.1 p.2) <$> pairs))); simpl;
      try destruct (_ =? 0); naive_solver lia.
  - transitivity (minimum_or_zero ((fun p => changes p.1 p.2) <$> pairs) = 0).
    + destruct (N.eqb_spec (minimum_or_zero ((fun p => changes p.1 p.2) <$> pairs)) 0) as [E|E].
      * rewrite E, (proj2 (N.leb_gt _ 0)), andb_false_r by lia. done.
      * destruct (_ && _); naive_solver.
    + rewrite minimum_zero, list_elem_of_fmap, Exists_exists by done. naive_solver.
  - intros h. unfold repeated. fold (delta_hash). rewrite (fingerprints_equal delta_hash _ _ h Hf). split.
    + destruct (N.eqb_spec (N.of_nat (size repeatable)) 1) as [E|E]; [|done].
      apply list_to_set_size_one in E as (h' & Es & _ & Hall). unfold repeatable. rewrite Es, head_singleton.
      by intros [= ->].
    + intros Hall. assert (repeatable = {[ h ]}) as ->.
      { apply singleton_of_Forall; [|done]. intros E. rewrite E in Hf. inversion Hf; by subst. }
      rewrite size_singleton. apply head_singleton.
Qed.

Lemma validation_append_total event chain : exists rec chain', validation_audit_append event chain = (Ok rec, chain').
Proof. unfold validation_audit_append. destruct (chain_append_total event chain) as (rec & c' & ->). eauto. Qed.

(** What an evaluation that returned a result says of the samples. *)
Definition result_ok (result : OracleResult) (mutation : MutationReceipt) (limits : DifferentialLimits)
    (pairs : list (DifferentialSample * DifferentialSample)) : Prop :=
  (or_decision result = Confirmed <->
     (exists h, repeated h pairs) /\ Forall (fun p => dl_minimum_material_changes limits <= changes p.1 p.2) pairs)
  /\ (or_decision result = Rejected <-> Exists (fun p => changes p.1 p.2 = 0) pairs)
  /\ (forall h, or_repeatable_delta_sha256 result = Some h <-> repeated h pairs)
  /\ or_mutation_id result = mr_mutation_id mutation.

Lemma zip_nonempty {A B} (l : list A) (k : list B) : 2 <= len l -> len k = len l -> zip l k <> [].
Proof. destruct l, k; unfold len; simpl; try lia; done. Qed.

Lemma evaluate_oracle_spec candidate_id mutation baselines mutated o r o' :
  limits_ok (do_limits o) -> chain_ok (do_audit o) ->
  evaluate_oracle candidate_id mutation baselines mutated o = (r, o') ->
  (is_ok r = true <-> samples_ok candidate_id mutation (do_limits o) baselines mutated)
  /\ chain_ok (do_audit o') /\ do_limits o' = do_limits o
  /\ forall result, r = Ok result ->
       result_ok result mutation (do_limits o) (zip baselines mutated) /\ or_candidate_id result = candidate_id
       /\ or_audit_tail_hash result = tail_hash (do_audit o').
Proof.
  intros Hl Hok. unfold evaluate_oracle, samples_ok.
  destruct (validation_validate_identifier candidate_id "candidate_id") as [[]|e] eqn:Hid.
  2: { intros [= <- <-]. split_and!; try done. split; [done|]. intros [Hv _]. exfalso. revert Hid Hv.
       unfold validation_validate_identifier. by destruct (_ || _). }
  assert (is_ok (validation_validate_identifier candidate_id []) = true) as Hid'
    by (revert Hid; unfold validation_validate_identifier; by destruct (_ || _)). rewrite Hid'.
  destruct (_ || _ || _ || _ || _) eqn:Hg.
  { intros [= <- <-]. split_and!; try done. split; [done|]. intros (_ & H1 & H2 & _). exfalso. rewrite H2 in Hg.
    rewrite N.eqb_refl, !(proj2 (N.ltb_ge _ _)) in Hg by lia. done. }
  bools. destruct (fingerprints_spec baselines) as (fs & -> & Hfs).
  assert (baselines <> []) as Hbne by (by intros ->).
  destruct (compare_pairs_spec mutation (do_limits o) (zip baselines mutated) Hl) as [Hp1 Hp2].
  rewrite <- (one_fingerprint _ _ _ Hbne Hfs), <- Hp1.
  destruct (N.eqb_spec (N.of_nat (size (list_to_set fs : gset str))) 1) as [E|E]; cbn [negb];
    [|intros [= <- <-]; split_and!; try done; split; [done|]; naive_solver].
  destruct (compare_pairs _ _ _) as [ds|e]; [|intros [= <- <-]; split_and!; try done; split; [done|]; naive_solver].
  destruct (validation_hash_total (candidate_id, mr_mutation_id mutation, list_to_set fs : gset str, ds,
    decide_oracle (do_limits o) (list_to_set (dd_delta_fingerprint_sha256 <$> ds))
      (minimum_or_zero (material_change_count <$> ds)))) as [ev Hev]. rewrite Hev.
  match goal with |- context [validation_audit_append ?x ?c] =>
    destruct (validation_append_total x c) as (rec & audit & Ha); rewrite Ha end.
  apply (validation_append_spec _ _ _ _ Hok) in Ha as [Hok' _].
  assert (zip baselines mutated <> []) as Hzne by (apply zip_nonempty; lia).
  destruct (decision_spec (do_limits o) _ ds Hl Hzne (Hp2 ds eq_refl)) as (D1 & D2 & D3).
  intros [= <- <-]. split; [split; [intros _; split_and!; done || lia|done]|]. split; [done|]. split; [done|].
  intros result [= <-]. unfold result_ok. simpl. by split_and!.
Qed.

(** The arguments of a promotion besides the result. *)
Definition promotion_valid (rule_id origin endpoint_sha256 summary : str) : bool :=
  is_ok (validation_validate_identifier rule_id []) && is_lower_hex_sha256 endpoint_sha256
  && negb (bool_decide (origin = []) || (512 <? len origin) || bool_decide (summary = [])
           || (2048 <? len summary) || existsb (is_byte 0) summary).

(** A promotion that returns early. *)
Ltac refused := eexists _, _; split; [reflexivity|]; split_and!; try done; split; naive_solver.

Lemma promote_spec result rule_id origin endpoint_sha256 summary o :
  chain_ok (do_audit o) ->
  exists r o', promote result rule_id origin endpoint_sha256 summary o = Done (r, o')
    /\ chain_ok (do_audit o') /\ do_limits o' = do_limits o
    /\ (is_ok r = true <-> or_decision result = Confirmed /\ is_Some (or_repeatable_delta_sha256 result)
          /\ promotion_valid rule_id origin endpoint_sha256 summary = true)
    /\ forall finding, r = Ok finding ->
         or_repeatable_delta_sha256 result = Some (vf_repeatable_delta_sha256 finding)
         /\ vf_mutation_id finding = or_mutation_id result /\ vf_candidate_id finding = or_candidate_id result
         /\ vf_oracle_evidence_sha256 finding = or_evidence_sha256 result /\ vf_state finding = PsValidated
         /\ vf_endpoint_sha256 finding = endpoint_sha256.
Proof.
  intros Hok. unfold promote, promotion_valid, validation_validate_identifier, validation_validate_sha256.
  destruct (or_decision result); try refused.
  destruct (bool_decide (rule_id = []) || _ || _); [refused|].
  destruct (is_lower_hex_sha256 endpoint_sha256); [|refused].
  cbn [negb is_ok andb].
  destruct (bool_decide (origin = []) || _ || _ || _ || _); [refused|].
  destruct (or_repeatable_delta_sha256 result) as [h|];
    [|eexists _, _; split; [reflexivity|]; split_and!; try done; split; [done|]; intros (_ & [? ?] & _); done].
  destruct (validation_hash_total (or_candidate_id result, rule_id, origin, endpoint_sha256, or_evidence_sha256 result))
    as [fh Hfh]. rewrite Hfh. apply validation_hash_hex in Hfh. rewrite (str_prefix_sha256 24 fh Hfh) by lia.
  match goal with |- context [validation_audit_append ?x ?c] =>
    destruct (validation_append_total x c) as (rec & audit & Ha); rewrite Ha end.
  apply (validation_append_spec _ _ _ _ Hok) in Ha as [Hok' _].
  eexists _, _. split; [reflexivity|]. split_and!; try done. intros finding [= <-]. done.
Qed.
End Oracle.
End Facts.

(** ** Concrete parameters for the examples *)

Definition toy_validation_json : JsonLib (HashMaterial ValidationAuditEvent) :=
  toy_json (fun e => va_action e ++ va_subject_id e ++ va_outcome e).
Definition toy_validation_total : @JsonTotal _ toy_validation_json := toy_json_total _.

Definition toy_seed_json : JsonLib SeedMaterial :=
  {| to_vec m := let '(engine, sequence, plan, capability, number, target, _, ordinal) := m in
       Ok (engine ++ decimal sequence ++ plan ++ capability ++ decimal number ++ target ++ decimal ordinal) |}.
Definition toy_sample_json : JsonLib SampleMaterial :=
  {| to_vec m := let '(endpoint, status, headers, body, bytes, tokens, generation) := m in
       Ok (endpoint ++ decimal status ++ headers ++ body ++ decimal bytes ++ concat (btree_iter tokens)
           ++ decimal generation) |}.
Definition toy_delta_json : JsonLib DeltaMaterial :=
  {| to_vec m := let '(status, headers, body, bytes, added, removed, generation) := m in
       Ok (decimal (N.b2n status) ++ decimal (N.b2n headers) ++ decimal (N.b2n body) ++ decimal_z bytes
           ++ concat (btree_iter added) ++ ("/" : str) ++ concat (btree_iter removed)
           ++ decimal (N.b2n generation)) |}.
Definition toy_evidence_json : JsonLib EvidenceMaterial :=
  {| to_vec m := let '(candidate, mutation, fingerprints, deltas, decision) := m in
       Ok (candidate ++ mutation ++ concat (btree_iter fingerprints)
           ++ concat (dd_delta_fingerprint_sha256 <$> deltas) ++ oracle_decision_name decision) |}.
Definition toy_finding_json : JsonLib FindingMaterial :=
  {| to_vec m := let '(candidate, rule, origin, endpoint, evidence) := m in
       Ok (candidate ++ rule ++ origin ++ endpoint ++ evidence) |}.

Definition toy_sample_total : @JsonTotal _ toy_sample_json.
Proof. constructor. intros [[[[[[? ?] ?] ?] ?] ?] ?]. eexists. reflexivity. Qed.
Definition toy_delta_total : @JsonTotal _ toy_delta_json.
Proof. constructor. intros [[[[[[? ?] ?] ?] ?] ?] ?]. eexists. reflexivity. Qed.
Definition toy_evidence_total : @JsonTotal _ toy_evidence_json.
Proof. constructor. intros [[[[? ?] ?] ?] ?]. eexists. reflexivity. Qed.
Definition toy_finding_total : @JsonTotal _ toy_finding_json.
Proof. constructor. intros [[[[? ?] ?] ?] ?]. eexists. reflexivity. Qed.

(** ** Properties *)

(** C18: a mutation engine never panics and never exceeds its capability: in every
    history of generations, other uses of the capability and revocations it
    generates at most [maximum_mutations] and at most [maximum_requests] mutations,
    each for an active plan, a parameter, a location and a kind that plan and
    template allow, within the bindings of the capability, and its value is at most
    256 bytes of lower-case letters, digits and underscores and within the template;
    the mutations have distinct identifiers, which are exactly the subjects of the
    verified audit chain; after a revocation nothing is generated. *)
Theorem mutations_are_inert_and_budgeted {S : Sha256Lib} {SL : Sha256Laws}
    {JA : JsonLib (HashMaterial ValidationAuditEvent)} {JP : JsonLib PlanMaterial} {JS : JsonLib SeedMaterial}
    (capability_id module_id run_id worker_id : str) (methods endpoints : gset str)
    (maximum_requests maximum_mutations : N) (secrets : SecretAccessLevel) (replay redirect : bool)
    (expires : N) (c : ProbeCapability) (engine_id genesis : str) (engine : SafeMutationEngine)
    (calls : list MutationCall) :
  capability_new capability_id module_id run_id worker_id methods endpoints maximum_requests
    maximum_mutations secrets replay redirect expires = Ok c ->
  mutation_engine_new engine_id genesis = Ok engine -> len calls < u64_max ->
  exists generated engine' c', mutation_calls calls engine c = Done (generated, engine', c')
    /\ len generated <= maximum_mutations /\ len generated <= maximum_requests
    /\ Forall (fun g => mutation_ok c g.1 g.2) generated
    /\ NoDup (sm_mutation_id <$> generated.*2)
    /\ validation_audit_verify (se_audit engine') = Ok tt
    /\ engine_ids engine' = sm_mutation_id <$> generated.*2
    /\ (forall later, len calls + len later < u64_max ->
          exists e2 c2, mutation_calls later engine' (capability_revoke c') = Done ([], e2, c2)).
Proof.
  intros Hc He Hn. unfold capability_new in Hc. inv_ok Hc. bools.
  unfold mutation_engine_new, validation_audit_new, chain_new_anchored in He. inv_ok He.
  destruct (negb _); simplify_eq/=.
  match goal with |- context [mutation_calls calls ?e0 ?c0] => set (e := e0) in *; set (c := c0) in * end.
  destruct (mutation_calls_spec calls e c) as (g & e' & c' & Hrun & Hf & H1' & H2' & _ & Hok & Hids & Hnd & _ & Hseq & Hc');
    [apply chain_new_ok|simpl; lia|by split|simpl; lia..|].
  destruct Hc' as (rq & mu & rv & -> & Hrq & Hmu). simpl in *.
  exists g, e', (with_use rq mu rv c). split_and!; try done; try lia.
  - unfold validation_audit_verify. by rewrite (proj2 (chain_verify_spec _) Hok).
  - intros later Hlater.
    destruct (mutation_calls_spec later e' (capability_revoke (with_use rq mu rv c)))
      as (g2 & e2 & c2 & Hrun2 & _ & _ & _ & Hrev & _); [done|lia|by split|done..|].
    rewrite (Hrev eq_refl) in Hrun2. eauto.
Qed.

Definition mutation_capability : Result ProbeCapability PlannerError :=
  capability_new "cap-1" "module-1" "run-1" "worker-1" {[ ("GET" : str) ]}
    {[ rp_canonical_url_sha256 (sample_plan "app.example.com" "/items") ]} 10 2 NoSecrets false false 1000.

Definition mutation_request : CapabilityUseRequest :=
  {| cu_run_id := "run-1"; cu_worker_id := "worker-1"; cu_method := "GET";
     cu_endpoint_sha256 := rp_canonical_url_sha256 (sample_plan "app.example.com" "/items");
     cu_mutations := 1; cu_requires_secret_access := NoSecrets; cu_replays_body := false;
     cu_follows_redirect := false; cu_now_milliseconds := 10 |}.

Definition mutation_template : MutationTemplate :=
  {| tp_template_id := "safe-default"; tp_allowed_kinds := {[ ReplaceWithMarker; BoundedBoundary ]};
     tp_allowed_locations := {[ Query ]}; tp_maximum_output_bytes := 32; tp_maximum_variants := 8 |}.

Definition mutation_target : MutationTarget :=
  {| mt_location := Query; mt_name := "id"; mt_name_sha256 := hash_of "d";
     mt_original_value_sha256 := hash_of "c"; mt_value_class := Integer |}.

Definition mutation_attempt (kind : MutationKind) (ordinal : N) : MutationCall :=
  Generate (sample_plan "app.example.com" "/items") mutation_request mutation_target mutation_template kind ordinal.

(** The third mutation exceeds the budget; the fourth kind is not allowed. *)
Definition mutation_attempts : list MutationCall :=
  [mutation_attempt ReplaceWithMarker 0; mutation_attempt EmptyValue 1; mutation_attempt BoundedBoundary 2;
   mutation_attempt ReplaceWithMarker 3].

Lemma mutations_are_inert_and_budgeted_witness :
  match mutation_capability, mutation_engine_new "engine-1" (hash_of "0") with
  | Ok c, Ok engine =>
      match @mutation_calls toy_sha256 toy_validation_json toy_plan_json toy_seed_json mutation_attempts engine c with
      | Done (generated, engine', _) =>
          len generated = 2 /\ len generated <= 2 /\ NoDup (sm_mutation_id <$> generated.*2)
          /\ @validation_audit_verify toy_sha256 toy_validation_json (se_audit engine') = Ok tt
      | Panic _ => False
      end
  | _, _ => False
  end.
Proof.
  assert (match mutation_capability, mutation_engine_new "engine-1" (hash_of "0") with
    | Ok c, Ok engine =>
        match @mutation_calls toy_sha256 toy_validation_json toy_plan_json toy_seed_json mutation_attempts engine c with
        | Done (generated, _, _) => len generated =? 2 | Panic _ => false end
    | _, _ => false end = true) as Hb by (vm_compute; reflexivity).
  destruct mutation_capability as [c|] eqn:Ec; [|discriminate Hb].
  destruct (mutation_engine_new "engine-1" (hash_of "0")) as [engine|] eqn:Ee; [|discriminate Hb].
  destruct (@mutations_are_inert_and_budgeted toy_sha256 toy_sha256_laws toy_validation_json toy_plan_json toy_seed_json
    _ _ _ _ _ _ _ _ _ _ _ _ c _ _ engine mutation_attempts Ec Ee ltac:(vm_compute; reflexivity))
    as (g & e' & c' & Hr & H1 & _ & _ & H2 & H3 & _).
  rewrite Hr in Hb |- *. split; [by apply N.eqb_eq|]. by split_and!.
Defined.

(** C19: the ledger implements the life cycle of every object. In every history of
    calls on a new ledger, the phase of each object is the one the abstract life
    cycle reaches over the accepted calls on it; a call is accepted exactly when its
    arguments are valid and the life cycle allows it; the audit chain verifies and
    tells of exactly the accepted calls; each stored object keeps its run, endpoint
    and at most three cleanup attempts. A write is authorised exactly for a
    registered object that has not expired, nothing is unresolved exactly when every
    object was cleaned, and an object that was cleaned, or failed to be three times,
    stays so whatever is called. *)
Theorem ledger_implements_life_cycle {S : Sha256Lib} {SL : Sha256Laws}
    {JA : JsonLib (HashMaterial ValidationAuditEvent)} {JT : JsonTotal (HashMaterial ValidationAuditEvent)}
    (run_id genesis : str) (l0 : OwnershipLedger) (calls accepted : list LedgerCall) (l : OwnershipLedger) :
  ledger_new run_id genesis = Ok l0 -> ledger_calls calls l0 = (accepted, l) ->
  (forall id, replay id accepted Absent = Some (phase_of (ol_objects l !! id)))
  /\ (forall call, (ledger_call call l).1 = call_valid call l
        && bool_decide (is_Some (phase_next (call_op call) (phase_of (ol_objects l !! call_object call)))))
  /\ validation_audit_verify (ol_audit l) = Ok tt
  /\ ledger_events l = (fun call => (op_action (call_op call), call_object call)) <$> accepted
  /\ map_Forall (object_ok l) (ol_objects l)
  /\ (forall id now r, authorize_write id now l = Ok r
        <-> ol_objects l !! id = Some r /\ phase_of (Some r) = Live /\ now < oo_expires_at_milliseconds r)
  /\ (unresolved_objects l = [] <-> forall id r, ol_objects l !! id = Some r -> oo_state r = Cleaned)
  /\ (forall id later, final_phase (phase_of (ol_objects l !! id)) ->
        phase_of (ol_objects (ledger_calls later l).2 !! id) = phase_of (ol_objects l !! id)).
Proof.
  intros Hn Hc. apply ledger_new_ok in Hn as (Hl0 & He0 & Hev0).
  apply (ledger_calls_spec _ _ _ _ Hl0) in Hc as (Hl & _ & Hp & He). split_and!.
  - intros id. specialize (Hp id). by rewrite He0, lookup_empty in Hp.
  - intros call. destruct (ledger_call call l) as [b l'] eqn:Hc. by apply (ledger_call_spec _ _ _ _ Hl) in Hc as [? _].
  - unfold validation_audit_verify. by rewrite (proj2 (chain_verify_spec _) (lk_chain _ Hl)).
  - by rewrite He, Hev0.
  - apply Hl.
  - intros id now r. by apply authorize_write_spec.
  - apply unresolved_spec.
  - intros id later Hf. destruct (ledger_calls later l) as [acc l2] eqn:Hc.
    apply (ledger_calls_spec _ _ _ _ Hl) in Hc as (_ & _ & Hp2 & _). by apply (replay_final id acc _ _ Hf).
Qed.

Definition sample_receipt : MutationReceipt :=
  {| mr_mutation_id := mutation_name 1; mr_endpoint_sha256 := hash_of "e"; mr_plan_fingerprint := hash_of "f";
     mr_capability_id := "cap-1"; mr_target_name_sha256 := hash_of "d"; mr_location := Query;
     mr_kind := ReplaceWithMarker; mr_value_sha256 := hash_of "a"; mr_value_bytes := 20 |}.

Definition sample_recipe : CleanupRecipe :=
  {| cr_method := "DELETE"; cr_endpoint_sha256 := hash_of "e"; cr_object_reference_sha256 := hash_of "b" |}.

(** The first cleanup of the object fails, the second one succeeds; the
    registration of the same object and a second completion are refused. *)
Definition cleanup_calls : list LedgerCall :=
  [LRegister "object-1" sample_receipt (hash_of "1") 10 100 sample_recipe; LComplete "object-1" (hash_of "2");
   LBegin "object-1"; LFail "object-1" (hash_of "2"); LBegin "object-1";
   LRegister "object-1" sample_receipt (hash_of "1") 10 100 sample_recipe; LComplete "object-1" (hash_of "3");
   LComplete "object-1" (hash_of "3")].

Lemma ledger_implements_life_cycle_witness :
  match ledger_new "run-1" (hash_of "0") with
  | Ok l0 =>
      let '(accepted, l) := @ledger_calls toy_sha256 toy_validation_json cleanup_calls l0 in
      len accepted = 5 /\ phase_of (ol_objects l !! ("object-1" : str)) = Clean 2
      /\ replay "object-1" accepted Absent = Some (Clean 2)
  | Err _ => False
  end.
Proof.
  assert (match ledger_new "run-1" (hash_of "0") with
    | Ok l0 => let '(accepted, l) := @ledger_calls toy_sha256 toy_validation_json cleanup_calls l0 in
        (len accepted =? 5) && match phase_of (ol_objects l !! ("object-1" : str)) with Clean n => n =? 2 | _ => false end
    | Err _ => false end = true) as Hb by (vm_compute; reflexivity).
  destruct (ledger_new "run-1" (hash_of "0")) as [l0|] eqn:El; [|discriminate Hb].
  destruct (@ledger_calls toy_sha256 toy_validation_json cleanup_calls l0) as [accepted l] eqn:Ec.
  destruct (@ledger_implements_life_cycle toy_sha256 toy_sha256_laws toy_validation_json toy_validation_total
    _ _ l0 cleanup_calls accepted l El Ec) as (Hr & _).
  apply andb_true_iff in Hb as [Hb1 Hb2]. specialize (Hr ("object-1" : str)).
  destruct (phase_of (ol_objects l !! ("object-1" : str))) as [| |n|n|n]; try discriminate Hb2.
  apply N.eqb_eq in Hb1, Hb2. subst n. by split_and!.
Defined.

(** C32: the oracle decides repeatability. An evaluation returns a result exactly
    for two to 32 paired samples of the mutation's endpoint, within the limits and
    with one baseline fingerprint; the result is confirmed exactly when all pairs
    differ in the same way and each in at least the required number of aspects, and
    rejected exactly when some pair does not differ at all. A promotion never
    panics, succeeds for valid arguments exactly on a confirmed result, and carries
    the repeated difference, the mutation and the evidence of that result. *)
Theorem oracle_decides_repeatability {S : Sha256Lib} {SL : Sha256Laws}
    {JA : JsonLib (HashMaterial ValidationAuditEvent)} {JT : JsonTotal (HashMaterial ValidationAuditEvent)}
    {JF : JsonLib SampleMaterial} {JD : JsonLib DeltaMaterial} {JE : JsonLib EvidenceMaterial}
    {JV : JsonLib FindingMaterial} {JFT : JsonTotal SampleMaterial} {JDT : JsonTotal DeltaMaterial}
    {JET : JsonTotal EvidenceMaterial} {JVT : JsonTotal FindingMaterial}
    (oracle_id genesis : str) (limits : DifferentialLimits) (o o1 : DifferentialOracle)
    (candidate_id : str) (mutation : MutationReceipt) (baselines mutated : list DifferentialSample)
    (r : Result OracleResult ValidationError) (rule_id origin endpoint_sha256 summary : str) :
  oracle_new oracle_id limits genesis = Ok o ->
  evaluate_oracle candidate_id mutation baselines mutated o = (r, o1) ->
  (is_ok r = true <-> samples_ok candidate_id mutation limits baselines mutated)
  /\ (forall result, r = Ok result ->
        result_ok result mutation limits (zip baselines mutated)
        /\ exists p o2, promote result rule_id origin endpoint_sha256 summary o1 = Done (p, o2)
             /\ validation_audit_verify (do_audit o2) = Ok tt
             /\ (is_ok p = true <-> or_decision result = Confirmed
                   /\ promotion_valid rule_id origin endpoint_sha256 summary = true)
             /\ forall finding, p = Ok finding ->
                  repeated (vf_repeatable_delta_sha256 finding) (zip baselines mutated)
                  /\ vf_mutation_id finding = mr_mutation_id mutation
                  /\ vf_candidate_id finding = candidate_id
                  /\ vf_oracle_evidence_sha256 finding = or_evidence_sha256 result).
Proof.
  intros Hn He. unfold oracle_new, validation_audit_new, chain_new_anchored in Hn. inv_ok Hn.
  destruct (negb _); simplify_eq/=. bools.
  apply evaluate_oracle_spec in He as (Hok & Hchain & Hlim & Hres);
    [|by unfold limits_ok; simpl; split_and!; lia|apply chain_new_ok].
  simpl in *. split; [done|]. intros result ->. destruct (Hres _ eq_refl) as (Hr & Hcand & _). split; [done|].
  destruct (promote_spec result rule_id origin endpoint_sha256 summary o1 Hchain)
    as (p & o2 & Hp & Hchain2 & _ & Hiff & Hfind).
  destruct Hr as (HC & _ & HD & Hm). exists p, o2. split_and!; [done| | |].
  - unfold validation_audit_verify. by rewrite (proj2 (chain_verify_spec _) Hchain2).
  - rewrite Hiff. split; [naive_solver|]. intros [Hconf Hval]. split_and!; try done.
    apply HC in Hconf as [[h Hh] _]. exists h. by apply HD.
  - intros finding ->. destruct (Hfind _ eq_refl) as (Hd & H1' & H2' & H3' & _).
    split_and!; [by apply HD|congruence..].
Qed.

Definition observed_sample (id : str) (mutation : option str) (status : N) (body : byte) (token : str)
    : DifferentialSample :=
  {| ds_sample_id := id; ds_endpoint_sha256 := hash_of "e"; ds_mutation_id := mutation; ds_status := status;
     ds_header_fingerprint_sha256 := hash_of "d"; ds_body_sha256 := hash_of body; ds_body_bytes := 64;
     ds_semantic_tokens := {[ token ]}; ds_elapsed_milliseconds := 10; ds_session_generation := 1;
     ds_audit_anchor := hash_of "e" |}.

Definition sample_baselines : list DifferentialSample :=
  [observed_sample "base-1" None 200 "1" "baseline"; observed_sample "base-2" None 200 "1" "baseline"].
Definition sample_mutated : list DifferentialSample :=
  [observed_sample "mutated-1" (Some (mutation_name 1)) 403 "2" "denied";
   observed_sample "mutated-2" (Some (mutation_name 1)) 403 "2" "denied"].

Abbreviation toy_evaluate :=
  (@evaluate_oracle toy_sha256 toy_validation_json toy_sample_json toy_delta_json toy_evidence_json).

Lemma oracle_decides_repeatability_witness :
  match oracle_new "oracle-1" differential_limits_default (hash_of "0") with
  | Ok o =>
      match toy_evaluate "candidate-1" sample_receipt sample_baselines sample_mutated o with
      | (Ok result, _) =>
          or_decision result = Confirmed
          /\ (exists h, @repeated toy_sha256 toy_delta_json h (zip sample_baselines sample_mutated))
          /\ Forall (fun p => 1 <= changes p.1 p.2) (zip sample_baselines sample_mutated)
      | _ => False
      end
  | Err _ => False
  end.
Proof.
  assert (match oracle_new "oracle-1" differential_limits_default (hash_of "0") with
    | Ok o => match toy_evaluate "candidate-1" sample_receipt sample_baselines sample_mutated o with
        | (Ok result, _) => match or_decision result with Confirmed => true | _ => false end
        | _ => false end
    | Err _ => false end = true) as Hb by (vm_compute; reflexivity).
  destruct (oracle_new "oracle-1" differential_limits_default (hash_of "0")) as [o|] eqn:Eo; [|discriminate Hb].
  destruct (toy_evaluate "candidate-1" sample_receipt sample_baselines sample_mutated o) as [[result|] o1] eqn:Ee;
    [|discriminate Hb].
  destruct (@oracle_decides_repeatability toy_sha256 toy_sha256_laws toy_validation_json toy_validation_total
    toy_sample_json toy_delta_json toy_evidence_json toy_finding_json toy_sample_total toy_delta_total
    toy_evidence_total toy_finding_total _ _ _ o o1 "candidate-1" sample_receipt sample_baselines sample_mutated
    _ "rule-1" "https://app.example.com:443" (hash_of "e") "changed" Eo Ee) as [_ Hr].
  destruct (Hr result eq_refl) as [(HC & _) _].
  destruct (or_decision result); [|discriminate Hb|discriminate Hb]. split; [done|]. by apply HC.
Defined.

(** A sample that is passed twice counts as two samples. *)
Example one_observation_is_confirmed :
  match oracle_new "oracle-1" differential_limits_default (hash_of "0") with
  | Ok o =>
      let b := observed_sample "base-1" None 200 "1" "baseline" in
      let m := observed_sample "mutated-1" (Some (mutation_name 1)) 403 "2" "denied" in
      match toy_evaluate "candidate-1" sample_receipt [b; b] [m; m] o with
      | (Ok result, _) => match or_decision result with Confirmed => true | _ => false end
      | _ => false
      end
  | Err _ => false
  end = true.
Proof. vm_compute. reflexivity. Qed.

(** A confirmed result is promoted for any well-formed endpoint. *)
Lemma promotion_accepts_any_endpoint {S : Sha256Lib} {SL : Sha256Laws}
    {JA : JsonLib (HashMaterial ValidationAuditEvent)} {JT : JsonTotal (HashMaterial ValidationAuditEvent)}
    {JV : JsonLib FindingMaterial} {JVT : JsonTotal FindingMaterial}
    (result : OracleResult) (rule_id origin endpoint_sha256 summary : str) (o : DifferentialOracle) :
  chain_ok (do_audit o) -> or_decision result = Confirmed -> is_Some (or_repeatable_delta_sha256 result) ->
  promotion_valid rule_id origin endpoint_sha256 summary = true ->
  exists finding o', promote result rule_id origin endpoint_sha256 summary o = Done (Ok finding, o')
    /\ vf_endpoint_sha256 finding = endpoint_sha256.
Proof.
  intros Hok Hc Hd Hv.
  destruct (promote_spec result rule_id origin endpoint_sha256 summary o Hok) as (r & o' & Hp & _ & _ & Hiff & Hf).
  destruct r as [finding|e]; [|discriminate (proj2 Hiff (conj Hc (conj Hd Hv)))].
  exists finding, o'. split; [done|]. by apply (Hf finding eq_refl).
Qed.
