(* ===== verification/Knowledge.v ===== *)
(** * Knowledge: knowledge graph, evidence, findings and reports ([crates/nxb-knowledge-reporting])

    The [ApplicationKnowledgeGraph] stores nodes and edges of one policy snapshot;
    the [EvidenceStore] keeps redacted evidence under the hash of its content; the
    [FindingDeduplicator] clusters findings; the [FindingRegistry] moves each finding
    through its life cycle; [ReportBuilder] renders the reportable ones and the
    [ExportManifest] lists what is exported under one root hash. The theorems are in
    [KnowledgeFacts]. *)

From S2P Require Import Prelude ByteStr BTree HashChain HttpSyntax Workflow Validation.
Local Open Scope N_scope.

(** ** Data *)

Definition MAX_GRAPH_NODES : N := 250000.
Definition MAX_GRAPH_EDGES : N := 1000000.
Definition MAX_EVIDENCE_RECORDS : N := 250000.
Definition MAX_EVIDENCE_SUMMARY_BYTES : N := 8192.
Definition MAX_EVIDENCE_METADATA : N := 128.
Definition MAX_REPORT_FINDINGS : N := 10000.
Definition MAX_REPORT_BYTES : N := 32 * 1024 * 1024.
Definition MAX_MANIFEST_ENTRIES : N := 500000.

Inductive KnowledgeError : Type :=
  | KnInvalidIdentifier (name : str)
  | KnInvalidSha256 (name : str)
  | KnGraphLimit
  | KnDuplicateNode
  | KnDuplicateEdge
  | KnUnknownNode
  | InvalidEvidence (message : str)
  | EvidenceLimit
  | InvalidFindingTransition
  | FindingNotReportable
  | ReportLimit
  | ReportSerialization (message : str)
  | InvalidManifest (message : str)
  | KnAuditSerialization (message : str)
  | KnAuditSequenceMismatch (record_index : N)
  | KnAuditPreviousHashMismatch (record_index : N)
  | KnAuditRecordHashMismatch (record_index : N)
  | KnAuditTailMismatch.

Inductive KnowledgeNodeKind : Type :=
  | KnOrigin | KnEndpoint | KnParameter | KnSession | KnFinding | KnEvidence | KnOwnedObject | KnWorkflow.

Inductive KnowledgeEdgeKind : Type :=
  | Observed | Discovered | KnValidatedBy | UsesSession | KnProduces | DependsOn | SameAs | ReportedBy.

#[export] Instance KnowledgeEdgeKind_eq_dec : EqDecision KnowledgeEdgeKind.
Proof. solve_decision. Defined.

Inductive EvidenceClass : Type :=
  | EcObservation | EcDifferential | EcValidationAudit | EcCleanup | EcReproduction | EcReport.

#[export] Instance FindingState_eq_dec : EqDecision FindingState.
Proof. solve_decision. Defined.

(** Of [nxb-passive-analyzers], with their derived orders. *)
Inductive Severity : Type := SevInfo | SevLow | SevMedium | SevHigh.
Inductive Confidence : Type := CfLow | CfMedium | CfHigh.

Definition severity_rank (s : Severity) : N :=
  match s with SevInfo => 0 | SevLow => 1 | SevMedium => 2 | SevHigh => 3 end.
Definition confidence_rank (c : Confidence) : N :=
  match c with CfLow => 0 | CfMedium => 1 | CfHigh => 2 end.

Definition severity_max (a b : Severity) : Severity := if severity_rank a <=? severity_rank b then b else a.
Definition confidence_max (a b : Confidence) : Confidence :=
  if confidence_rank a <=? confidence_rank b then b else a.

Record Finding : Type := {
  fi_finding_id : str;
  fi_rule_id : str;
  fi_title : str;
  fi_severity : Severity;
  fi_confidence : Confidence;
  fi_origin : str;
  fi_endpoint_sha256 : str;
  fi_evidence_sha256 : str;
  fi_summary : str;
  fi_metadata : gmap str str
}.

Record KnowledgeAuditEvent : Type := {
  ka_action : str;
  ka_subject_id : str;
  ka_outcome : str;
  ka_metadata : gmap str str
}.

Record KnowledgeNode : Type := {
  kn_node_id : str;
  kn_kind : KnowledgeNodeKind;
  kn_key_sha256 : str;
  kn_policy_snapshot_sha256 : str;
  kn_provenance_sha256 : str;
  kn_labels : gmap str str
}.

Record KnowledgeEdge : Type := {
  ke_edge_id : str;
  ke_from_node_id : str;
  ke_to_node_id : str;
  ke_kind : KnowledgeEdgeKind;
  ke_provenance_sha256 : str;
  ke_confidence_basis_sha256 : str
}.

Record ApplicationKnowledgeGraph : Type := {
  kg_policy_snapshot_sha256 : str;
  kg_nodes : gmap str KnowledgeNode;
  kg_edges : gmap str KnowledgeEdge;
  kg_outgoing : gmap str (gset str);
  kg_incoming : gmap str (gset str);
  kg_audit : HashChain KnowledgeAuditEvent
}.

Record EvidenceInput : Type := {
  ei_class : EvidenceClass;
  ei_subject_id : str;
  ei_summary : str;
  ei_metadata : gmap str str;
  ei_provenance_sha256 : str;
  ei_policy_snapshot_sha256 : str;
  ei_redaction_count : N;
  ei_redaction_verified : bool
}.

Record EvidenceRecord : Type := {
  er_evidence_id : str;
  er_class : EvidenceClass;
  er_subject_id : str;
  er_summary : str;
  er_metadata : gmap str str;
  er_provenance_sha256 : str;
  er_policy_snapshot_sha256 : str;
  er_redaction_count : N;
  er_content_sha256 : str;
  er_serialized_bytes : N;
  er_audit_tail_hash : str
}.

Record EvidenceStore : Type := {
  es_policy_snapshot_sha256 : str;
  es_records : gmap str EvidenceRecord;
  es_content_index : gmap str str;
  es_audit : HashChain KnowledgeAuditEvent
}.

Record FindingEnvelope : Type := {
  fe_finding_id : str;
  fe_source_finding_id : str;
  fe_rule_id : str;
  fe_title : str;
  fe_severity : Severity;
  fe_confidence : Confidence;
  fe_origin : str;
  fe_endpoint_sha256 : str;
  fe_evidence_sha256 : str;
  fe_policy_snapshot_sha256 : str;
  fe_validated : bool;
  fe_summary : str;
  fe_metadata : gmap str str
}.

Record FindingCluster : Type := {
  fc_cluster_id : str;
  fc_dedup_key_sha256 : str;
  fc_canonical_finding_id : str;
  fc_member_finding_ids : gset str;
  fc_severity : Severity;
  fc_confidence : Confidence;
  fc_validated : bool;
  fc_evidence_sha256 : gset str
}.

Record FindingDeduplicator : Type := {
  fd_clusters : gmap str FindingCluster;
  fd_finding_to_cluster : gmap str str
}.

Record FindingLifecycleRecord : Type := {
  fl_finding : FindingEnvelope;
  fl_state : FindingState;
  fl_evidence_ids : gset str;
  fl_transition_count : N;
  fl_cleanup_clear : bool;
  fl_suppression_reason_sha256 : option str;
  fl_audit_tail_hash : str
}.

Record FindingRegistry : Type := {
  fr_records : gmap str FindingLifecycleRecord;
  fr_audit : HashChain KnowledgeAuditEvent
}.

Record ReportFinding : Type := {
  rf_finding_id : str;
  rf_rule_id : str;
  rf_title : str;
  rf_severity : Severity;
  rf_confidence : Confidence;
  rf_origin : str;
  rf_endpoint_sha256 : str;
  rf_summary : str;
  rf_evidence_ids : gset str
}.

Record ReportDocument : Type := {
  rd_report_id : str;
  rd_program_name : str;
  rd_policy_snapshot_sha256 : str;
  rd_generated_at_epoch_seconds : Z;
  rd_findings : list ReportFinding;
  rd_evidence_manifest_sha256 : str;
  rd_source_audit_tail_hash : str
}.

Record ReportBundle : Type := {
  rb_document : ReportDocument;
  rb_markdown : str;
  rb_json : str;
  rb_markdown_sha256 : str;
  rb_json_sha256 : str
}.

Record ReportBuilder : Type := {
  bu_program_name : str;
  bu_policy_snapshot_sha256 : str;
  bu_generated_at_epoch_seconds : Z;
  bu_findings : gmap str ReportFinding
}.

Record ExportManifestEntry : Type := {
  me_logical_path : str;
  me_class : str;
  me_content_sha256 : str;
  me_bytes : N
}.

Record ExportManifest : Type := {
  em_export_id : str;
  em_policy_snapshot_sha256 : str;
  em_entries : gmap str ExportManifestEntry;
  em_root_sha256 : str
}.

(** What the crate serialises for hashing. *)
Abbreviation KnowledgeEdgeMaterial := (str * str * KnowledgeEdgeKind * str * str)%type.
Abbreviation ClusterMaterial := (str * str * str * str)%type.
Abbreviation ReportMaterial := (str * str * Z * list ReportFinding * str * str)%type.
Abbreviation ManifestMaterial := (str * str * gmap str ExportManifestEntry)%type.

(** [serde_json::to_string_pretty]; an error is its message. *)
Class PrettyJsonLib (A : Type) : Type := { to_string_pretty : A -> Result str str }.

(** ** Validation *)

Definition knowledge_identifier_byte (c : byte) : bool :=
  is_ascii_alphanumeric c || is_byte 45 c || is_byte 95 c || is_byte 46 c || is_byte 58 c.

Definition knowledge_validate_identifier (value name : str) : Result unit KnowledgeError :=
  if bool_decide (value = []) || (192 <? len value) || negb (forallb knowledge_identifier_byte value)
  then Err (KnInvalidIdentifier name) else Ok tt.

Definition knowledge_validate_sha256 (value name : str) : Result unit KnowledgeError :=
  if negb (is_lower_hex_sha256 value) then Err (KnInvalidSha256 name) else Ok tt.

Fixpoint knowledge_validate_hashes (l : list (str * str)) : Result unit KnowledgeError :=
  match l with
  | [] => Ok tt
  | (name, value) :: rest =>
      let? _ := knowledge_validate_sha256 value name in knowledge_validate_hashes rest
  end.

Definition knowledge_chain_error (e : ChainError) : KnowledgeError :=
  match e with
  | InvalidGenesisHash => KnInvalidSha256 "audit genesis"
  | Serialization message => KnAuditSerialization message
  | SequenceMismatch i => KnAuditSequenceMismatch i
  | PreviousHashMismatch i => KnAuditPreviousHashMismatch i
  | RecordHashMismatch i => KnAuditRecordHashMismatch i
  | TailHashMismatch => KnAuditTailMismatch
  end.

Definition knowledge_label_invalid (entry : str * str) : bool :=
  let '(key, value) := entry in
  bool_decide (key = []) || (96 <? len key) || (512 <? len value) || existsb is_ascii_control key
  || existsb (is_byte 0) value.

Definition validate_labels (labels : gmap str str) : Result unit KnowledgeError :=
  if (64 <? N.of_nat (size labels)) || existsb knowledge_label_invalid (map_iter labels)
  then Err (InvalidEvidence "node labels") else Ok tt.

Definition SECRET_LIKE_FRAGMENTS : list str :=
  map list_ascii_of_string
    ["authorization: bearer "; "proxy-authorization:"; "cookie:"; "set-cookie:"; "password=";
     "client_secret="; "access_token="; "refresh_token="; "api_key="]%string.

Definition reject_secret_like_text (value : str) : Result unit KnowledgeError :=
  if existsb (contains_str (to_ascii_lowercase value)) SECRET_LIKE_FRAGMENTS
  then Err (InvalidEvidence "secret-like material was not redacted") else Ok tt.

Definition SECRET_KEY_FRAGMENTS : list str :=
  map list_ascii_of_string
    ["authorization"; "cookie_value"; "password"; "secret"; "token_value"]%string.

(** ** The graph *)

(** [format!("{:?}", kind).to_ascii_lowercase()]. *)
Definition node_kind_name (kind : KnowledgeNodeKind) : str :=
  match kind with
  | KnOrigin => "origin" | KnEndpoint => "endpoint" | KnParameter => "parameter" | KnSession => "session"
  | KnFinding => "finding" | KnEvidence => "evidence" | KnOwnedObject => "ownedobject"
  | KnWorkflow => "workflow"
  end.

Definition knowledge_node_new (node_id : str) (kind : KnowledgeNodeKind)
    (key_sha256 policy_snapshot_sha256 provenance_sha256 : str) (labels : gmap str str)
    : Result KnowledgeNode KnowledgeError :=
  let? _ := knowledge_validate_identifier node_id "node_id" in
  let? _ := knowledge_validate_hashes
    [("node key" : str, key_sha256); ("policy snapshot" : str, policy_snapshot_sha256);
     ("provenance" : str, provenance_sha256)] in
  let? _ := validate_labels labels in
  Ok {| kn_node_id := node_id; kn_kind := kind; kn_key_sha256 := key_sha256;
        kn_policy_snapshot_sha256 := policy_snapshot_sha256; kn_provenance_sha256 := provenance_sha256;
        kn_labels := labels |}.

(** [map.entry(key).or_default().insert(value)]. *)
Definition index_insert (key value : str) (m : gmap str (gset str)) : gmap str (gset str) :=
  <[key := {[ value ]} ∪ default ∅ (m !! key)]> m.

Definition indexed_edges (m : gmap str (gset str)) (node_id : str) (self : ApplicationKnowledgeGraph)
    : list KnowledgeEdge :=
  match m !! node_id with
  | Some ids => omap (fun edge_id => kg_edges self !! edge_id) (btree_iter ids)
  | None => []
  end.

Definition outgoing_edges (node_id : str) (self : ApplicationKnowledgeGraph) : list KnowledgeEdge :=
  indexed_edges (kg_outgoing self) node_id self.

Definition incoming_edges (node_id : str) (self : ApplicationKnowledgeGraph) : list KnowledgeEdge :=
  indexed_edges (kg_incoming self) node_id self.

(** ** Evidence *)

(** The checks on one metadata entry. *)
Definition check_metadata_entry (key value : str) : Result unit KnowledgeError :=
  if bool_decide (key = []) || (128 <? len key) || (2048 <? len value) || existsb is_ascii_control key
     || existsb (is_byte 0) value
  then Err (InvalidEvidence "evidence metadata bounds")
  else if existsb (contains_str (to_ascii_lowercase key)) SECRET_KEY_FRAGMENTS
  then Err (InvalidEvidence "secret-bearing metadata key")
  else Ok tt.

Fixpoint check_metadata (entries : list (str * str)) : Result unit KnowledgeError :=
  match entries with
  | [] => Ok tt
  | (key, value) :: rest => let? _ := check_metadata_entry key value in check_metadata rest
  end.

Fixpoint reject_secret_like_texts (values : list str) : Result unit KnowledgeError :=
  match values with
  | [] => Ok tt
  | value :: rest => let? _ := reject_secret_like_text value in reject_secret_like_texts rest
  end.

Definition evidence_validate (self : EvidenceInput) : Result unit KnowledgeError :=
  let? _ := knowledge_validate_identifier (ei_subject_id self) "evidence subject" in
  let? _ := knowledge_validate_sha256 (ei_provenance_sha256 self) "evidence provenance" in
  let? _ := knowledge_validate_sha256 (ei_policy_snapshot_sha256 self) "evidence policy snapshot" in
  if bool_decide (ei_summary self = []) || (MAX_EVIDENCE_SUMMARY_BYTES <? len (ei_summary self))
     || existsb (is_byte 0) (ei_summary self)
     || (MAX_EVIDENCE_METADATA <? N.of_nat (size (ei_metadata self)))
     || negb (ei_redaction_verified self)
  then Err (InvalidEvidence "summary, metadata or redaction verification")
  else
  let? _ := check_metadata (map_iter (ei_metadata self)) in
  let? _ := reject_secret_like_text (ei_summary self) in
  reject_secret_like_texts (map_values (ei_metadata self)).

(** ** Findings *)

Definition validate_finding_fields (finding_id rule_id origin endpoint_sha256 evidence_sha256 summary : str)
    : Result unit KnowledgeError :=
  let? _ := knowledge_validate_identifier finding_id "finding_id" in
  let? _ := knowledge_validate_identifier rule_id "rule_id" in
  let? _ := knowledge_validate_sha256 endpoint_sha256 "finding endpoint" in
  let? _ := knowledge_validate_sha256 evidence_sha256 "finding evidence" in
  if bool_decide (origin = []) || (512 <? len origin) || bool_decide (summary = []) || (2048 <? len summary)
     || existsb (is_byte 0) summary
  then Err (InvalidEvidence "finding origin or summary") else Ok tt.

Definition from_passive (finding : Finding) (policy_snapshot_sha256 : str)
    : Result FindingEnvelope KnowledgeError :=
  let? _ := validate_finding_fields (fi_finding_id finding) (fi_rule_id finding) (fi_origin finding)
    (fi_endpoint_sha256 finding) (fi_evidence_sha256 finding) (fi_summary finding) in
  let? _ := knowledge_validate_sha256 policy_snapshot_sha256 "passive finding policy snapshot" in
  Ok {| fe_finding_id := fi_finding_id finding; fe_source_finding_id := fi_finding_id finding;
        fe_rule_id := fi_rule_id finding; fe_title := fi_title finding; fe_severity := fi_severity finding;
        fe_confidence := fi_confidence finding; fe_origin := fi_origin finding;
        fe_endpoint_sha256 := fi_endpoint_sha256 finding;
        fe_evidence_sha256 := fi_evidence_sha256 finding;
        fe_policy_snapshot_sha256 := policy_snapshot_sha256; fe_validated := false;
        fe_summary := fi_summary finding; fe_metadata := fi_metadata finding |}.

Definition from_validated (finding : ValidatedFinding) (policy_snapshot_sha256 title : str)
    (severity : Severity) (confidence : Confidence) (metadata : gmap str str)
    : Result FindingEnvelope KnowledgeError :=
  match vf_state finding with
  | PsValidated =>
      let? _ := validate_finding_fields (vf_finding_id finding) (vf_rule_id finding) (vf_origin finding)
        (vf_endpoint_sha256 finding) (vf_oracle_evidence_sha256 finding) (vf_summary finding) in
      let? _ := knowledge_validate_sha256 policy_snapshot_sha256 "validated finding policy snapshot" in
      if bool_decide (title = []) || (512 <? len title) then Err (InvalidEvidence "finding title")
      else
      let? _ := validate_labels metadata in
      Ok {| fe_finding_id := vf_finding_id finding; fe_source_finding_id := vf_candidate_id finding;
            fe_rule_id := vf_rule_id finding; fe_title := title; fe_severity := severity;
            fe_confidence := confidence; fe_origin := vf_origin finding;
            fe_endpoint_sha256 := vf_endpoint_sha256 finding;
            fe_evidence_sha256 := vf_oracle_evidence_sha256 finding;
            fe_policy_snapshot_sha256 := policy_snapshot_sha256; fe_validated := true;
            fe_summary := vf_summary finding; fe_metadata := metadata |}
  | _ => Err FindingNotReportable
  end.

Definition dedup_default : FindingDeduplicator := {| fd_clusters := ∅; fd_finding_to_cluster := ∅ |}.

(** The life cycle of a finding. *)
Definition finding_edge (from to : FindingState) : bool :=
  match from, to with
  | Candidate, Validating
  | Candidate, Suppressed
  | Validating, Validated
  | Validating, Suppressed
  | Validated, Reportable
  | Validated, Suppressed
  | Reportable, Closed
  | Suppressed, Closed => true
  | _, _ => false
  end.

Definition finding_state_name (state : FindingState) : str :=
  match state with
  | Candidate => "candidate" | Validating => "validating" | Validated => "validated"
  | Reportable => "reportable" | Suppressed => "suppressed" | Closed => "closed"
  end.

Definition with_evidence (ids : gset str) (self : FindingLifecycleRecord) : FindingLifecycleRecord :=
  {| fl_finding := fl_finding self; fl_state := fl_state self; fl_evidence_ids := ids;
     fl_transition_count := fl_transition_count self; fl_cleanup_clear := fl_cleanup_clear self;
     fl_suppression_reason_sha256 := fl_suppression_reason_sha256 self;
     fl_audit_tail_hash := fl_audit_tail_hash self |}.

Definition with_cleanup_clear (clear : bool) (self : FindingLifecycleRecord) : FindingLifecycleRecord :=
  {| fl_finding := fl_finding self; fl_state := fl_state self; fl_evidence_ids := fl_evidence_ids self;
     fl_transition_count := fl_transition_count self; fl_cleanup_clear := clear;
     fl_suppression_reason_sha256 := fl_suppression_reason_sha256 self;
     fl_audit_tail_hash := fl_audit_tail_hash self |}.

Definition with_finding_state (state : FindingState) (reason : option str) (count : N) (tail : str)
    (self : FindingLifecycleRecord) : FindingLifecycleRecord :=
  {| fl_finding := fl_finding self; fl_state := state; fl_evidence_ids := fl_evidence_ids self;
     fl_transition_count := count; fl_cleanup_clear := fl_cleanup_clear self;
     fl_suppression_reason_sha256 := reason; fl_audit_tail_hash := tail |}.

Definition with_record (id : str) (record : FindingLifecycleRecord) (self : FindingRegistry)
    : FindingRegistry :=
  {| fr_records := <[id := record]> (fr_records self); fr_audit := fr_audit self |}.

Definition attach_evidence (finding_id : str) (evidence : EvidenceRecord) (self : FindingRegistry)
    : Result unit KnowledgeError * FindingRegistry :=
  match fr_records self !! finding_id with
  | None => (Err KnUnknownNode, self)
  | Some record =>
      if bool_decide (er_policy_snapshot_sha256 evidence <> fe_policy_snapshot_sha256 (fl_finding record))
      then (Err (InvalidEvidence "finding/evidence policy mismatch"), self)
      else (Ok tt, with_record finding_id
              (with_evidence ({[ er_evidence_id evidence ]} ∪ fl_evidence_ids record) record) self)
  end.

Definition set_cleanup_clear (finding_id : str) (cleanup_clear : bool) (self : FindingRegistry)
    : Result unit KnowledgeError * FindingRegistry :=
  match fr_records self !! finding_id with
  | None => (Err KnUnknownNode, self)
  | Some record => (Ok tt, with_record finding_id (with_cleanup_clear cleanup_clear record) self)
  end.

(** ** Reports *)

Definition report_finding_try_from (record : FindingLifecycleRecord) : Result ReportFinding KnowledgeError :=
  if bool_decide (fl_state record <> Reportable) || negb (fe_validated (fl_finding record))
     || bool_decide (fl_evidence_ids record = ∅) || negb (fl_cleanup_clear record)
  then Err FindingNotReportable
  else Ok {| rf_finding_id := fe_finding_id (fl_finding record); rf_rule_id := fe_rule_id (fl_finding record);
             rf_title := fe_title (fl_finding record); rf_severity := fe_severity (fl_finding record);
             rf_confidence := fe_confidence (fl_finding record); rf_origin := fe_origin (fl_finding record);
             rf_endpoint_sha256 := fe_endpoint_sha256 (fl_finding record);
             rf_summary := fe_summary (fl_finding record); rf_evidence_ids := fl_evidence_ids record |}.

Definition report_builder_new (program_name policy_snapshot_sha256 : str) (generated_at_epoch_seconds : Z)
    : Result ReportBuilder KnowledgeError :=
  let? _ := knowledge_validate_sha256 policy_snapshot_sha256 "report policy snapshot" in
  if bool_decide (program_name = []) || (256 <? len program_name) || existsb (is_byte 0) program_name
     || (generated_at_epoch_seconds <=? 0)%Z
  then Err ReportLimit
  else
  let? _ := reject_secret_like_text program_name in
  Ok {| bu_program_name := program_name; bu_policy_snapshot_sha256 := policy_snapshot_sha256;
        bu_generated_at_epoch_seconds := generated_at_epoch_seconds; bu_findings := ∅ |}.

Definition add_finding (record : FindingLifecycleRecord) (self : ReportBuilder)
    : Result unit KnowledgeError * ReportBuilder :=
  if MAX_REPORT_FINDINGS <=? N.of_nat (size (bu_findings self)) then (Err ReportLimit, self)
  else if bool_decide (fe_policy_snapshot_sha256 (fl_finding record) <> bu_policy_snapshot_sha256 self)
  then (Err (InvalidEvidence "finding/report policy mismatch"), self)
  else match report_finding_try_from record with
  | Err e => (Err e, self)
  | Ok finding =>
      match reject_secret_like_text (rf_title finding) with
      | Err e => (Err e, self)
      | Ok _ =>
          match reject_secret_like_text (rf_summary finding) with
          | Err e => (Err e, self)
          | Ok _ =>
              (Ok tt, {| bu_program_name := bu_program_name self;
                         bu_policy_snapshot_sha256 := bu_policy_snapshot_sha256 self;
                         bu_generated_at_epoch_seconds := bu_generated_at_epoch_seconds self;
                         bu_findings := <[rf_finding_id finding := finding]> (bu_findings self) |})
          end
      end
  end.

(** [text.replace(c, replacement)] for an ASCII character. *)
Definition replace_byte (n : N) (replacement text : str) : str :=
  concat (map (fun c => if is_byte n c then replacement else [c]) text).

Definition markdown_text (value : str) : str :=
  replace_byte 62 "&gt;" (replace_byte 60 "&lt;" (replace_byte 96 "\`" (replace_byte 92 "\\" value))).

(** [format!("{:?}", severity)] and [format!("{:?}", confidence)]. *)
Definition severity_debug (s : Severity) : str :=
  match s with SevInfo => "Info" | SevLow => "Low" | SevMedium => "Medium" | SevHigh => "High" end.
Definition confidence_debug (c : Confidence) : str :=
  match c with CfLow => "Low" | CfMedium => "Medium" | CfHigh => "High" end.

Definition LF : str := ["010"%char].

Definition render_finding (index : N) (finding : ReportFinding) : str :=
  ("## " : str) ++ decimal (index + 1) ++ (". " : str) ++ markdown_text (rf_title finding) ++ LF ++ LF
  ++ ("- Finding: `" : str) ++ rf_finding_id finding ++ ("`" : str) ++ LF
  ++ ("- Rule: `" : str) ++ rf_rule_id finding ++ ("`" : str) ++ LF
  ++ ("- Severity: `" : str) ++ severity_debug (rf_severity finding) ++ ("`" : str) ++ LF
  ++ ("- Confidence: `" : str) ++ confidence_debug (rf_confidence finding) ++ ("`" : str) ++ LF
  ++ ("- Origin: `" : str) ++ rf_origin finding ++ ("`" : str) ++ LF
  ++ ("- Endpoint SHA-256: `" : str) ++ rf_endpoint_sha256 finding ++ ("`" : str) ++ LF
  ++ LF ++ ("### Summary" : str) ++ LF ++ LF
  ++ markdown_text (rf_summary finding)
  ++ LF ++ LF ++ ("### Evidence references" : str) ++ LF ++ LF
  ++ concat (map (fun evidence_id => ("- `" : str) ++ evidence_id ++ ("`" : str) ++ LF)
       (btree_iter (rf_evidence_ids finding)))
  ++ LF.

Fixpoint render_findings (index : N) (findings : list ReportFinding) : str :=
  match findings with
  | [] => []
  | finding :: rest => render_finding index finding ++ render_findings (index + 1) rest
  end.

Definition render_markdown (document : ReportDocument) : str :=
  ("# NXBounty validated findings report" : str) ++ LF ++ LF
  ++ ("- Report: `" : str) ++ rd_report_id document ++ ("`" : str) ++ LF
  ++ ("- Program: " : str) ++ markdown_text (rd_program_name document) ++ LF
  ++ ("- Policy snapshot: `" : str) ++ rd_policy_snapshot_sha256 document ++ ("`" : str) ++ LF
  ++ ("- Evidence manifest: `" : str) ++ rd_evidence_manifest_sha256 document ++ ("`" : str) ++ LF ++ LF
  ++ match rd_findings document with
     | [] => ("No reportable validated findings." : str) ++ LF
     | findings => render_findings 0 findings
     end.

(** ** Manifests *)

Definition manifest_path_invalid (logical_path class : str) : bool :=
  bool_decide (logical_path = []) || (512 <? len logical_path) || starts_with logical_path "/"
  || contains_str logical_path ".." || contains_byte 92 logical_path || bool_decide (class = [])
  || (96 <? len class).

Definition with_manifest_entries (entries : gmap str ExportManifestEntry) (root : str) (self : ExportManifest)
    : ExportManifest :=
  {| em_export_id := em_export_id self; em_policy_snapshot_sha256 := em_policy_snapshot_sha256 self;
     em_entries := entries; em_root_sha256 := root |}.

Section Knowledge.
Context {S : Sha256Lib} {JA : JsonLib (HashMaterial KnowledgeAuditEvent)}.

Definition knowledge_hash_bytes (bytes : str) : str := to_lower_hex (sha256 bytes).

Definition knowledge_hash {A} {J : JsonLib A} (value : A) : Result str KnowledgeError :=
  let? bytes := map_err KnAuditSerialization (to_vec value) in Ok (knowledge_hash_bytes bytes).

Definition knowledge_audit_new (genesis_hash : str) : Result (HashChain KnowledgeAuditEvent) KnowledgeError :=
  map_err knowledge_chain_error (chain_new_anchored genesis_hash).

Definition knowledge_audit_append (event : KnowledgeAuditEvent) (chain : HashChain KnowledgeAuditEvent)
    : Result (ChainRecord KnowledgeAuditEvent) KnowledgeError * HashChain KnowledgeAuditEvent :=
  let '(result, chain) := chain_append event chain in (map_err knowledge_chain_error result, chain).

(** A caller's write through [records_mut]. *)
Definition knowledge_audit_set (index : nat) (record : ChainRecord KnowledgeAuditEvent)
    (chain : HashChain KnowledgeAuditEvent) : HashChain KnowledgeAuditEvent :=
  {| genesis_hash := genesis_hash chain; records := <[index := record]> (records chain);
     tail_hash := tail_hash chain |}.

Definition knowledge_audit_verify (chain : HashChain KnowledgeAuditEvent) : Result unit KnowledgeError :=
  map_err knowledge_chain_error (chain_verify chain).

(** *** The graph *)

Definition knowledge_edge_new {JE : JsonLib KnowledgeEdgeMaterial} (from_node_id to_node_id : str)
    (kind : KnowledgeEdgeKind) (provenance_sha256 confidence_basis_sha256 : str)
    : Run (Result KnowledgeEdge KnowledgeError) :=
  match (let? _ := knowledge_validate_identifier from_node_id "edge from" in
         let? _ := knowledge_validate_identifier to_node_id "edge to" in
         if bool_decide (from_node_id = to_node_id) && negb (bool_decide (kind = SameAs))
         then Err KnUnknownNode
         else
         let? _ := knowledge_validate_sha256 provenance_sha256 "edge provenance" in
         let? _ := knowledge_validate_sha256 confidence_basis_sha256 "edge confidence" in
         knowledge_hash (from_node_id, to_node_id, kind, provenance_sha256, confidence_basis_sha256)) with
  | Err e => Done (Err e)
  | Ok hash =>
      let! suffix := str_prefix 24 hash in
      Done (Ok {| ke_edge_id := ("edge-" : str) ++ suffix; ke_from_node_id := from_node_id;
                  ke_to_node_id := to_node_id; ke_kind := kind;
                  ke_provenance_sha256 := provenance_sha256;
                  ke_confidence_basis_sha256 := confidence_basis_sha256 |})
  end.

Definition knowledge_graph_new (policy_snapshot_sha256 audit_genesis : str)
    : Result ApplicationKnowledgeGraph KnowledgeError :=
  let? _ := knowledge_validate_sha256 policy_snapshot_sha256 "graph policy snapshot" in
  let? audit := knowledge_audit_new audit_genesis in
  Ok {| kg_policy_snapshot_sha256 := policy_snapshot_sha256; kg_nodes := ∅; kg_edges := ∅;
        kg_outgoing := ∅; kg_incoming := ∅; kg_audit := audit |}.

Definition knowledge_add_node (node : KnowledgeNode) (self : ApplicationKnowledgeGraph)
    : Result KnowledgeNode KnowledgeError * ApplicationKnowledgeGraph :=
  if MAX_GRAPH_NODES <=? N.of_nat (size (kg_nodes self)) then (Err KnGraphLimit, self)
  else if bool_decide (kn_policy_snapshot_sha256 node <> kg_policy_snapshot_sha256 self)
  then (Err (InvalidEvidence "node policy snapshot drift"), self)
  else if bool_decide (is_Some (kg_nodes self !! kn_node_id node)) then (Err KnDuplicateNode, self)
  else
    let '(appended, audit) := knowledge_audit_append
      {| ka_action := "knowledge_node_added"; ka_subject_id := kn_node_id node; ka_outcome := "added";
         ka_metadata := {[ ("node_kind" : str) := node_kind_name (kn_kind node) ]} |} (kg_audit self) in
    let graph :=
      {| kg_policy_snapshot_sha256 := kg_policy_snapshot_sha256 self;
         kg_nodes := <[kn_node_id node := node]> (kg_nodes self); kg_edges := kg_edges self;
         kg_outgoing := kg_outgoing self; kg_incoming := kg_incoming self; kg_audit := audit |} in
    match appended with Err e => (Err e, graph) | Ok _ => (Ok node, graph) end.

Definition knowledge_add_edge (edge : KnowledgeEdge) (self : ApplicationKnowledgeGraph)
    : Result KnowledgeEdge KnowledgeError * ApplicationKnowledgeGraph :=
  if MAX_GRAPH_EDGES <=? N.of_nat (size (kg_edges self)) then (Err KnGraphLimit, self)
  else if bool_decide (kg_nodes self !! ke_from_node_id edge = None)
          || bool_decide (kg_nodes self !! ke_to_node_id edge = None)
  then (Err KnUnknownNode, self)
  else if bool_decide (is_Some (kg_edges self !! ke_edge_id edge)) then (Err KnDuplicateEdge, self)
  else
    let '(appended, audit) := knowledge_audit_append
      {| ka_action := "knowledge_edge_added"; ka_subject_id := ke_edge_id edge; ka_outcome := "added";
         ka_metadata := ∅ |} (kg_audit self) in
    let graph :=
      {| kg_policy_snapshot_sha256 := kg_policy_snapshot_sha256 self; kg_nodes := kg_nodes self;
         kg_edges := <[ke_edge_id edge := edge]> (kg_edges self);
         kg_outgoing := index_insert (ke_from_node_id edge) (ke_edge_id edge) (kg_outgoing self);
         kg_incoming := index_insert (ke_to_node_id edge) (ke_edge_id edge) (kg_incoming self);
         kg_audit := audit |} in
    match appended with Err e => (Err e, graph) | Ok _ => (Ok edge, graph) end.

(** *** Evidence *)

Definition evidence_store_new (policy_snapshot_sha256 audit_genesis : str)
    : Result EvidenceStore KnowledgeError :=
  let? _ := knowledge_validate_sha256 policy_snapshot_sha256 "evidence-store policy snapshot" in
  let? audit := knowledge_audit_new audit_genesis in
  Ok {| es_policy_snapshot_sha256 := policy_snapshot_sha256; es_records := ∅; es_content_index := ∅;
        es_audit := audit |}.

Definition evidence_record (input : EvidenceInput) (evidence_id content_sha256 : str) (bytes : N) (tail : str)
    : EvidenceRecord :=
  {| er_evidence_id := evidence_id; er_class := ei_class input; er_subject_id := ei_subject_id input;
     er_summary := ei_summary input; er_metadata := ei_metadata input;
     er_provenance_sha256 := ei_provenance_sha256 input;
     er_policy_snapshot_sha256 := ei_policy_snapshot_sha256 input;
     er_redaction_count := ei_redaction_count input; er_content_sha256 := content_sha256;
     er_serialized_bytes := bytes; er_audit_tail_hash := tail |}.

(** The part of [insert] for content that is not stored yet. *)
Definition store_evidence (input : EvidenceInput) (serialized content_sha256 : str) (self : EvidenceStore)
    : Run (Result EvidenceRecord KnowledgeError * EvidenceStore) :=
  let! suffix := str_prefix 24 content_sha256 in
  let evidence_id := ("evidence-" : str) ++ suffix in
  match knowledge_audit_append
    {| ka_action := "evidence_inserted"; ka_subject_id := evidence_id;
       ka_outcome := "redacted_content_addressed";
       ka_metadata := list_to_map
         [("content_sha256" : str, content_sha256); ("serialized_bytes" : str, decimal (len serialized));
          ("redaction_count" : str, decimal (ei_redaction_count input))] |} (es_audit self) with
  | (Err e, audit) =>
      Done (Err e, {| es_policy_snapshot_sha256 := es_policy_snapshot_sha256 self;
                      es_records := es_records self; es_content_index := es_content_index self;
                      es_audit := audit |})
  | (Ok _, audit) =>
      let record := evidence_record input evidence_id content_sha256 (len serialized) (tail_hash audit) in
      Done (Ok record,
        {| es_policy_snapshot_sha256 := es_policy_snapshot_sha256 self;
           es_records := <[evidence_id := record]> (es_records self);
           es_content_index := <[content_sha256 := evidence_id]> (es_content_index self);
           es_audit := audit |})
  end.

Definition evidence_insert {JI : JsonLib EvidenceInput} (input : EvidenceInput) (self : EvidenceStore)
    : Run (Result EvidenceRecord KnowledgeError * EvidenceStore) :=
  if MAX_EVIDENCE_RECORDS <=? N.of_nat (size (es_records self)) then Done (Err EvidenceLimit, self)
  else match evidence_validate input with
  | Err e => Done (Err e, self)
  | Ok _ =>
      if bool_decide (ei_policy_snapshot_sha256 input <> es_policy_snapshot_sha256 self)
      then Done (Err (InvalidEvidence "policy snapshot drift"), self)
      else match to_vec input with
      | Err error => Done (Err (ReportSerialization error), self)
      | Ok serialized =>
          if MAX_EVIDENCE_SUMMARY_BYTES + 256 * 1024 <? len serialized
          then Done (Err (InvalidEvidence "serialized evidence exceeds bound"), self)
          else
            let content_sha256 := knowledge_hash_bytes serialized in
            match es_content_index self !! content_sha256 with
            | Some existing_id =>
                let! record := expect (es_records self !! existing_id) "evidence content index" in
                Done (Ok record, self)
            | None => store_evidence input serialized content_sha256 self
            end
      end
  end.

(** *** Findings *)

Definition dedup_key_sha256 {JC : JsonLib ClusterMaterial} (self : FindingEnvelope) : Result str KnowledgeError :=
  knowledge_hash (fe_rule_id self, fe_origin self, fe_endpoint_sha256 self, fe_policy_snapshot_sha256 self).

(** The cluster of a new key, before the finding is merged into it. *)
Definition new_cluster (cluster_id dedup_key : str) (finding : FindingEnvelope) : FindingCluster :=
  {| fc_cluster_id := cluster_id; fc_dedup_key_sha256 := dedup_key;
     fc_canonical_finding_id := fe_finding_id finding; fc_member_finding_ids := ∅;
     fc_severity := fe_severity finding; fc_confidence := fe_confidence finding;
     fc_validated := fe_validated finding; fc_evidence_sha256 := ∅ |}.

Definition merge_finding (finding : FindingEnvelope) (cluster : FindingCluster) : FindingCluster :=
  {| fc_cluster_id := fc_cluster_id cluster; fc_dedup_key_sha256 := fc_dedup_key_sha256 cluster;
     fc_canonical_finding_id :=
       if negb (str_leb (fc_canonical_finding_id cluster) (fe_finding_id finding))
       then fe_finding_id finding else fc_canonical_finding_id cluster;
     fc_member_finding_ids := {[ fe_finding_id finding ]} ∪ fc_member_finding_ids cluster;
     fc_severity := severity_max (fc_severity cluster) (fe_severity finding);
     fc_confidence := confidence_max (fc_confidence cluster) (fe_confidence finding);
     fc_validated := fc_validated cluster || fe_validated finding;
     fc_evidence_sha256 := {[ fe_evidence_sha256 finding ]} ∪ fc_evidence_sha256 cluster |}.

Definition dedup_insert {JC : JsonLib ClusterMaterial} (finding : FindingEnvelope) (self : FindingDeduplicator)
    : Run (Result FindingCluster KnowledgeError * FindingDeduplicator) :=
  match dedup_key_sha256 finding with
  | Err e => Done (Err e, self)
  | Ok dedup_key =>
      match fd_finding_to_cluster self !! fe_finding_id finding with
      | Some cluster_id =>
          let! cluster := expect (fd_clusters self !! cluster_id) "finding cluster index" in
          Done (Ok cluster, self)
      | None =>
          let! suffix := str_prefix 24 dedup_key in
          let cluster_id := ("cluster-" : str) ++ suffix in
          let cluster := merge_finding finding
            (default (new_cluster cluster_id dedup_key finding) (fd_clusters self !! cluster_id)) in
          Done (Ok cluster,
            {| fd_clusters := <[cluster_id := cluster]> (fd_clusters self);
               fd_finding_to_cluster := <[fe_finding_id finding := cluster_id]> (fd_finding_to_cluster self) |})
      end
  end.

Definition registry_new (audit_genesis : str) : Result FindingRegistry KnowledgeError :=
  let? audit := knowledge_audit_new audit_genesis in
  Ok {| fr_records := ∅; fr_audit := audit |}.

Definition registry_register (finding : FindingEnvelope) (self : FindingRegistry)
    : Result FindingLifecycleRecord KnowledgeError * FindingRegistry :=
  if bool_decide (is_Some (fr_records self !! fe_finding_id finding)) then (Err KnDuplicateNode, self)
  else
    let initial_state := if fe_validated finding then Validated else Candidate in
    match knowledge_audit_append
      {| ka_action := "finding_registered"; ka_subject_id := fe_finding_id finding;
         ka_outcome := finding_state_name initial_state;
         ka_metadata := {[ ("policy_snapshot_sha256" : str) := fe_policy_snapshot_sha256 finding ]} |}
      (fr_audit self) with
    | (Err e, audit) => (Err e, {| fr_records := fr_records self; fr_audit := audit |})
    | (Ok _, audit) =>
        let record :=
          {| fl_finding := finding; fl_state := initial_state; fl_evidence_ids := ∅;
             fl_transition_count := 0; fl_cleanup_clear := false; fl_suppression_reason_sha256 := None;
             fl_audit_tail_hash := tail_hash audit |} in
        (Ok record, {| fr_records := <[fe_finding_id finding := record]> (fr_records self);
                       fr_audit := audit |})
    end.

Definition u32_saturating_add (a b : N) : N := N.min (a + b) u32_max.

(** The guards of [transition], and the suppression reason it leaves. *)
Definition transition_guard (record : FindingLifecycleRecord) (target : FindingState)
    (suppression_reason : option str) : Result (option str) KnowledgeError :=
  if negb (finding_edge (fl_state record) target) then Err InvalidFindingTransition
  else if bool_decide (target = Reportable)
          && (negb (fe_validated (fl_finding record)) || bool_decide (fl_evidence_ids record = ∅)
              || negb (fl_cleanup_clear record))
  then Err FindingNotReportable
  else if bool_decide (target = Suppressed) then
    match suppression_reason with
    | Some ((_ :: _) as reason) => Ok (Some (knowledge_hash_bytes reason))
    | _ => Err InvalidFindingTransition
    end
  else Ok (fl_suppression_reason_sha256 record).

Definition registry_transition (finding_id : str) (target : FindingState) (suppression_reason : option str)
    (self : FindingRegistry) : Result FindingLifecycleRecord KnowledgeError * FindingRegistry :=
  match fr_records self !! finding_id with
  | None => (Err KnUnknownNode, self)
  | Some record =>
      match transition_guard record target suppression_reason with
      | Err e => (Err e, self)
      | Ok reason =>
          let count := u32_saturating_add (fl_transition_count record) 1 in
          match knowledge_audit_append
            {| ka_action := "finding_transition"; ka_subject_id := finding_id;
               ka_outcome := finding_state_name target;
               ka_metadata := {[ ("transition_count" : str) := decimal count ]} |} (fr_audit self) with
          | (Err e, audit) =>
              (Err e, {| fr_records := <[finding_id :=
                           with_finding_state target reason count (fl_audit_tail_hash record) record]>
                           (fr_records self); fr_audit := audit |})
          | (Ok _, audit) =>
              let record := with_finding_state target reason count (tail_hash audit) record in
              (Ok record, {| fr_records := <[finding_id := record]> (fr_records self); fr_audit := audit |})
          end
      end
  end.

(** *** Reports and manifests *)

Definition report_build {JR : JsonLib ReportMaterial} {PD : PrettyJsonLib ReportDocument}
    (evidence_manifest_sha256 source_audit_tail_hash : str) (self : ReportBuilder)
    : Run (Result ReportBundle KnowledgeError) :=
  let findings := map_values (bu_findings self) in
  match (let? _ := knowledge_validate_sha256 evidence_manifest_sha256 "evidence manifest" in
         let? _ := knowledge_validate_sha256 source_audit_tail_hash "source audit tail" in
         knowledge_hash (bu_program_name self, bu_policy_snapshot_sha256 self,
           bu_generated_at_epoch_seconds self, findings, evidence_manifest_sha256, source_audit_tail_hash)) with
  | Err e => Done (Err e)
  | Ok hash =>
      let! suffix := str_prefix 24 hash in
      let document :=
        {| rd_report_id := ("report-" : str) ++ suffix; rd_program_name := bu_program_name self;
           rd_policy_snapshot_sha256 := bu_policy_snapshot_sha256 self;
           rd_generated_at_epoch_seconds := bu_generated_at_epoch_seconds self; rd_findings := findings;
           rd_evidence_manifest_sha256 := evidence_manifest_sha256;
           rd_source_audit_tail_hash := source_audit_tail_hash |} in
      match to_string_pretty document with
      | Err error => Done (Err (ReportSerialization error))
      | Ok json =>
          let markdown := render_markdown document in
          if (MAX_REPORT_BYTES <? len json) || (MAX_REPORT_BYTES <? len markdown)
          then Done (Err ReportLimit)
          else Done (Ok {| rb_document := document; rb_markdown := markdown; rb_json := json;
                           rb_markdown_sha256 := knowledge_hash_bytes markdown;
                           rb_json_sha256 := knowledge_hash_bytes json |})
      end
  end.

Section Manifest.
Context {JM : JsonLib ManifestMaterial}.

Definition manifest_root (self : ExportManifest) : Result str KnowledgeError :=
  knowledge_hash (em_export_id self, em_policy_snapshot_sha256 self, em_entries self).

Definition manifest_new (export_id policy_snapshot_sha256 : str) : Result ExportManifest KnowledgeError :=
  let? _ := knowledge_validate_identifier export_id "export_id" in
  let? _ := knowledge_validate_sha256 policy_snapshot_sha256 "manifest policy snapshot" in
  let manifest := {| em_export_id := export_id; em_policy_snapshot_sha256 := policy_snapshot_sha256;
                     em_entries := ∅; em_root_sha256 := [] |} in
  let? root := manifest_root manifest in
  Ok (with_manifest_entries ∅ root manifest).

Definition manifest_add_entry (logical_path class content_sha256 : str) (bytes : N) (self : ExportManifest)
    : Result unit KnowledgeError * ExportManifest :=
  if MAX_MANIFEST_ENTRIES <=? N.of_nat (size (em_entries self))
  then (Err (InvalidManifest "entry limit"), self)
  else if manifest_path_invalid logical_path class
  then (Err (InvalidManifest "logical path or class"), self)
  else match knowledge_validate_sha256 content_sha256 "manifest content" with
  | Err e => (Err e, self)
  | Ok _ =>
      if bool_decide (is_Some (em_entries self !! logical_path))
      then (Err (InvalidManifest "duplicate logical path"), self)
      else
        let manifest := with_manifest_entries
          (<[logical_path := {| me_logical_path := logical_path; me_class := class;
                                me_content_sha256 := content_sha256; me_bytes := bytes |}]>
             (em_entries self)) (em_root_sha256 self) self in
        match manifest_root manifest with
        | Err e => (Err e, manifest)
        | Ok root => (Ok tt, with_manifest_entries (em_entries manifest) root manifest)
        end
  end.

Definition manifest_verify (self : ExportManifest) : Result unit KnowledgeError :=
  let? expected := manifest_root self in
  if bool_decide (em_root_sha256 self <> expected) then Err (InvalidManifest "root hash mismatch") else Ok tt.
End Manifest.
End Knowledge.
