(* ===== verification/KnowledgeFacts.v ===== *)
(** * KnowledgeFacts: what the knowledge and reporting contracts guarantee

    The graph indexes its edges; the evidence store keeps only redacted content,
    under the hash of what was inserted; clusters summarise their findings; findings
    follow their life cycle; a report holds only reportable findings; a manifest is
    tamper evident. *)

From S2P Require Import Prelude ByteStr BTree HashChain HttpSyntax PlannerFacts Workflow Validation ValidationFacts Knowledge.
Local Open Scope N_scope.

Section Facts.
Context {S : Sha256Lib} {SL : Sha256Laws} {JA : JsonLib (HashMaterial KnowledgeAuditEvent)}.

Lemma knowledge_hash_bytes_hex bytes : is_lower_hex_sha256 (knowledge_hash_bytes bytes) = true.
Proof.
  unfold knowledge_hash_bytes. apply to_lower_hex_sha256. pose proof (sha256_length bytes) as Hl.
  unfold len in Hl. lia.
Qed.

Lemma knowledge_hash_spec {A} {J : JsonLib A} (value : A) h :
  knowledge_hash value = Ok h <-> exists bytes, to_vec value = Ok bytes /\ h = knowledge_hash_bytes bytes.
Proof. unfold knowledge_hash. destruct (to_vec value); simpl; naive_solver. Qed.

Lemma knowledge_hash_hex {A} {J : JsonLib A} (value : A) h :
  knowledge_hash value = Ok h -> is_lower_hex_sha256 h = true.
Proof. rewrite knowledge_hash_spec. intros (bytes & _ & ->). apply knowledge_hash_bytes_hex. Qed.

Lemma knowledge_append_spec event chain r chain' :
  chain_ok chain -> knowledge_audit_append event chain = (r, chain') ->
  chain_ok chain' /\ match r with
    | Ok _ => HashChain.event <$> records chain' = (HashChain.event <$> records chain) ++ [event]
    | Err _ => chain' = chain
    end.
Proof.
  intros Hok. unfold knowledge_audit_append. destruct (chain_append event chain) as [r0 c0] eqn:Ha.
  intros [= <- <-]. split; [by eapply chain_append_ok|].
  pose proof (chain_append_spec _ _ _ _ Ha) as Hs. destruct r0 as [rec|e]; simpl; [|done].
  destruct Hs as (Hr & <- & _). by rewrite Hr, fmap_app.
Qed.

Lemma knowledge_audit_new_ok genesis audit : knowledge_audit_new genesis = Ok audit -> chain_ok audit.
Proof.
  unfold knowledge_audit_new, chain_new_anchored. destruct (negb _); simpl; [done|]. intros [= <-]. apply chain_new_ok.
Qed.

Lemma knowledge_verify_ok chain : chain_ok chain -> knowledge_audit_verify chain = Ok tt.
Proof. intros Hok. unfold knowledge_audit_verify. by rewrite (proj2 (chain_verify_spec _) Hok). Qed.

(** ** The graph *)

Inductive GraphCall : Type := AddNode (node : KnowledgeNode) | AddEdge (edge : KnowledgeEdge).

Definition graph_call (call : GraphCall) (g : ApplicationKnowledgeGraph) : ApplicationKnowledgeGraph :=
  match call with
  | AddNode node => (knowledge_add_node node g).2
  | AddEdge edge => (knowledge_add_edge edge g).2
  end.

(** An index lists exactly the edges whose end [f] it is keyed by. *)
Definition index_ok (f : KnowledgeEdge -> str) (index : gmap str (gset str)) (edges : gmap str KnowledgeEdge) : Prop :=
  forall n id, id ∈ default ∅ (index !! n) <-> exists e, edges !! id = Some e /\ f e = n.

Record knowledge_graph_ok (g : ApplicationKnowledgeGraph) : Prop := {
  kgo_nodes : map_Forall (fun id n => kn_node_id n = id
    /\ kn_policy_snapshot_sha256 n = kg_policy_snapshot_sha256 g) (kg_nodes g);
  kgo_edges : map_Forall (fun id e => ke_edge_id e = id /\ is_Some (kg_nodes g !! ke_from_node_id e)
    /\ is_Some (kg_nodes g !! ke_to_node_id e)) (kg_edges g);
  kgo_outgoing : index_ok ke_from_node_id (kg_outgoing g) (kg_edges g);
  kgo_incoming : index_ok ke_to_node_id (kg_incoming g) (kg_edges g);
  kgo_size : N.of_nat (size (kg_nodes g)) <= MAX_GRAPH_NODES /\ N.of_nat (size (kg_edges g)) <= MAX_GRAPH_EDGES;
  kgo_chain : chain_ok (kg_audit g)
}.

Lemma index_insert_ok f index edges e :
  index_ok f index edges -> edges !! ke_edge_id e = None ->
  index_ok f (index_insert (f e) (ke_edge_id e) index) (<[ke_edge_id e := e]> edges).
Proof.
  intros Hi Hn n id. unfold index_insert. destruct (decide (f e = n)) as [<-|Hne].
  - rewrite lookup_insert_eq. simpl. rewrite elem_of_union, elem_of_singleton, (Hi (f e) id). split.
    + intros [->|(e' & He & Hf)]; [exists e; by rewrite lookup_insert_eq|].
      exists e'. rewrite lookup_insert_ne by congruence. done.
    + intros (e' & He & Hf). apply lookup_insert_Some in He as [[<- _]|[_ He]]; eauto.
  - rewrite lookup_insert_ne by done. rewrite (Hi n id). split; intros (e' & He & Hf); exists e'.
    + rewrite lookup_insert_ne by congruence. done.
    + apply lookup_insert_Some in He as [[_ <-]|[_ He]]; [congruence|done].
Qed.

Lemma graph_call_ok call g :
  knowledge_graph_ok g ->
  knowledge_graph_ok (graph_call call g)
  /\ kg_policy_snapshot_sha256 (graph_call call g) = kg_policy_snapshot_sha256 g.
Proof.
  intros Hg. destruct call as [node|edge]; simpl.
  - unfold knowledge_add_node.
    destruct (N.leb_spec MAX_GRAPH_NODES (N.of_nat (size (kg_nodes g)))) as [|Hs]; [done|].
    case_bool_decide as Hp; [done|].
    case_bool_decide as Hid; [done|]. apply eq_None_not_Some in Hid.
    destruct (knowledge_audit_append _ _) as [r audit] eqn:Ha.
    apply (knowledge_append_spec _ _ _ _ (kgo_chain _ Hg)) in Ha as [Hok _].
    match goal with |- context [(_, ?g')] => assert (knowledge_graph_ok g') end; [|by destruct r].
    destruct Hg as [H1 H2 H3 H4 H5 H6]. constructor; simpl; try done.
    + by apply map_Forall_insert_2.
    + eapply map_Forall_impl; [done|]. intros id ed (He & Hf & Ht).
      split; [done|]. rewrite !lookup_insert_is_Some'. auto.
    + rewrite map_size_insert_None by done. lia.
  - unfold knowledge_add_edge.
    destruct (N.leb_spec MAX_GRAPH_EDGES (N.of_nat (size (kg_edges g)))) as [|Hs]; [done|].
    destruct (_ || _) eqn:Hends; [done|]. bools.
    case_bool_decide as Hid; [done|]. apply eq_None_not_Some in Hid.
    destruct (knowledge_audit_append _ _) as [r audit] eqn:Ha.
    apply (knowledge_append_spec _ _ _ _ (kgo_chain _ Hg)) in Ha as [Hok _].
    match goal with |- context [(_, ?g')] => assert (knowledge_graph_ok g') end; [|by destruct r].
    destruct Hg as [H1 H2 H3 H4 H5 H6]. constructor; simpl; try done.
    + apply map_Forall_insert_2; [|done]. split; [done|]. by rewrite <- !not_eq_None_Some.
    + by apply (index_insert_ok ke_from_node_id).
    + by apply (index_insert_ok ke_to_node_id).
    + rewrite map_size_insert_None by done. lia.
Qed.

Lemma elem_of_indexed_edges f index n g e :
  index_ok f index (kg_edges g) ->
  e ∈ indexed_edges index n g <-> exists id, kg_edges g !! id = Some e /\ f e = n.
Proof.
  intros Hi. unfold indexed_edges. split.
  - destruct (index !! n) as [ids|] eqn:Hids; [|set_solver].
    intros (id & Hid & He)%list_elem_of_omap. apply elem_of_btree_iter in Hid. exists id. split; [done|].
    destruct (proj1 (Hi n id)) as (e' & He' & Hf); [by rewrite Hids|]. congruence.
  - intros (id & He & Hf). assert (id ∈ default ∅ (index !! n)) as Hid by (apply Hi; eauto).
    destruct (index !! n) as [ids|]; [|set_solver]. apply list_elem_of_omap. exists id.
    split; [by apply elem_of_btree_iter|done].
Qed.

(** ** Evidence *)

Definition secret_free (text : str) : Prop :=
  existsb (contains_str (to_ascii_lowercase text)) SECRET_LIKE_FRAGMENTS = false.

Lemma reject_secret_ok text : reject_secret_like_text text = Ok tt <-> secret_free text.
Proof. unfold reject_secret_like_text, secret_free. destruct (existsb _ _); naive_solver. Qed.

Lemma reject_secrets_ok texts : reject_secret_like_texts texts = Ok tt <-> Forall secret_free texts.
Proof.
  induction texts as [|text texts IH]; simpl; [by rewrite Forall_nil|].
  by rewrite seq_ok, Forall_cons, reject_secret_ok, IH.
Qed.

Lemma check_metadata_ok entries :
  check_metadata entries = Ok tt <-> Forall (fun kv => check_metadata_entry kv.1 kv.2 = Ok tt) entries.
Proof.
  induction entries as [|[key value] entries IH]; simpl; [by rewrite Forall_nil|].
  by rewrite seq_ok, Forall_cons, IH.
Qed.

(** The metadata of a record holds neither secret-bearing keys nor secret-like values. *)
Definition metadata_redacted (metadata : gmap str str) : Prop :=
  map_Forall (fun key value =>
    existsb (contains_str (to_ascii_lowercase key)) SECRET_KEY_FRAGMENTS = false /\ secret_free value) metadata.

Lemma evidence_validate_redacts input :
  evidence_validate input = Ok tt ->
  secret_free (ei_summary input) /\ metadata_redacted (ei_metadata input) /\ ei_redaction_verified input = true
  /\ len (ei_summary input) <= MAX_EVIDENCE_SUMMARY_BYTES.
Proof.
  unfold evidence_validate. rewrite !seq_ok, guard_ok, !seq_ok. intros (_ & _ & _ & Hg & Hm & Hs & Hv).
  bools. apply reject_secret_ok in Hs. split_and!; try done.
  intros key value Hkv. apply elem_of_map_iter in Hkv as Hin. split.
  - apply check_metadata_ok in Hm. rewrite Forall_forall in Hm. specialize (Hm _ Hin). simpl in Hm.
    unfold check_metadata_entry in Hm. inv_ok Hm. done.
  - apply reject_secrets_ok in Hv. rewrite Forall_forall in Hv. apply Hv. apply elem_of_map_values. eauto.
Qed.

Definition evidence_name (content : str) : str := ("evidence-" : str) ++ take 24 content.

Section Evidence.
Context {JI : JsonLib EvidenceInput}.

Fixpoint insert_all (inputs : list EvidenceInput) (s : EvidenceStore) : Run EvidenceStore :=
  match inputs with
  | [] => Done s
  | input :: rest => let! (_, s) := evidence_insert input s in insert_all rest s
  end.

(** A record holds a validated input that was inserted, under the hash of its JSON. *)
Definition stored_from (inputs : list EvidenceInput) (id : str) (r : EvidenceRecord) : Prop :=
  exists input bytes tail, input ∈ inputs /\ evidence_validate input = Ok tt /\ to_vec input = Ok bytes
    /\ r = evidence_record input id (knowledge_hash_bytes bytes) (len bytes) tail
    /\ id = evidence_name (knowledge_hash_bytes bytes).

Record evidence_store_ok (inputs : list EvidenceInput) (s : EvidenceStore) : Prop := {
  eso_records : map_Forall (stored_from inputs) (es_records s);
  eso_index : map_Forall (fun content id => id = evidence_name content /\ is_Some (es_records s !! id))
    (es_content_index s);
  eso_indexed : forall id r, es_records s !! id = Some r -> es_content_index s !! er_content_sha256 r = Some id;
  eso_policy : map_Forall (fun _ r => er_policy_snapshot_sha256 r = es_policy_snapshot_sha256 s) (es_records s);
  eso_size : N.of_nat (size (es_records s)) <= MAX_EVIDENCE_RECORDS;
  eso_chain : chain_ok (es_audit s)
}.

Lemma stored_from_weaken inputs inputs' id r :
  (forall i, i ∈ inputs -> i ∈ inputs') -> stored_from inputs id r -> stored_from inputs' id r.
Proof. intros Hi (input & bytes & tail & ? & ?). exists input, bytes, tail. naive_solver. Qed.

Lemma evidence_store_weaken inputs inputs' s :
  (forall i, i ∈ inputs -> i ∈ inputs') -> evidence_store_ok inputs s -> evidence_store_ok inputs' s.
Proof.
  intros Hi [H1 H2 H3 H4 H5 H6]. constructor; try done. eapply map_Forall_impl; [exact H1|].
  intros id r. by apply stored_from_weaken.
Qed.

Lemma store_evidence_ok inputs input bytes s :
  evidence_store_ok inputs s -> N.of_nat (size (es_records s)) < MAX_EVIDENCE_RECORDS ->
  evidence_validate input = Ok tt -> to_vec input = Ok bytes ->
  ei_policy_snapshot_sha256 input = es_policy_snapshot_sha256 s ->
  let content := knowledge_hash_bytes bytes in
  exists r s', store_evidence input bytes content s = Done (r, s')
    /\ evidence_store_ok (input :: inputs) s' /\ es_policy_snapshot_sha256 s' = es_policy_snapshot_sha256 s
    /\ match r with
       | Ok rec => er_content_sha256 rec = content /\ es_records s' !! evidence_name content = Some rec
                   /\ es_content_index s' !! content = Some (evidence_name content)
       | Err _ => es_records s' = es_records s /\ es_content_index s' = es_content_index s
       end.
Proof.
  intros Hs Hsize Hv Hb Hp content. unfold store_evidence.
  rewrite (str_prefix_sha256 24 content (knowledge_hash_bytes_hex _)) by lia.
  change (("evidence-" : str) ++ take (N.to_nat 24) content) with (evidence_name content).
  destruct (knowledge_audit_append _ _) as [r audit] eqn:Ha.
  apply (knowledge_append_spec _ _ _ _ (eso_chain _ _ Hs)) in Ha as [Hok _].
  assert (evidence_store_ok (input :: inputs) s) as Hs' by (eapply evidence_store_weaken; [|done]; set_solver).
  destruct Hs' as [H1 H2 H3 H4 H5 H6].
  destruct r as [rec|e]; eexists _, _; (split; [reflexivity|]); simpl; (split; [|split; [done|]]); try done.
  2: { split_and!; try done; by rewrite lookup_insert_eq. }
  constructor; simpl; try done.
  - apply map_Forall_insert_2; [|done]. eexists input, bytes, _. split_and!; try done. set_solver.
  - apply map_Forall_insert_2; [by rewrite lookup_insert_eq; eauto|]. eapply map_Forall_impl; [done|].
    intros c id [-> Hid]. split; [done|]. rewrite lookup_insert_is_Some'. auto.
  - intros id r Hid. apply lookup_insert_Some in Hid as [[<- <-]|[Hne Hid]]; [by rewrite lookup_insert_eq|].
    simpl. rewrite lookup_insert_ne; [by apply H3|]. intros E. apply Hne. apply H3 in Hid.
    rewrite <- E in Hid. by destruct (H2 _ _ Hid) as [-> _].
  - by apply map_Forall_insert_2.
  - pose proof (map_size_insert (evidence_name content)
      (evidence_record input (evidence_name content) content (len bytes) (tail_hash audit)) (es_records s)) as E.
    destruct (es_records s !! evidence_name content); rewrite E; [exact H5|lia].
Qed.

(** An insertion returns; what it returns is stored under the hash of the input. *)
Lemma evidence_insert_spec inputs input s :
  evidence_store_ok inputs s ->
  exists r s', evidence_insert input s = Done (r, s')
    /\ evidence_store_ok (input :: inputs) s' /\ es_policy_snapshot_sha256 s' = es_policy_snapshot_sha256 s
    /\ match r with
       | Ok rec => exists bytes, to_vec input = Ok bytes
           /\ len bytes <= MAX_EVIDENCE_SUMMARY_BYTES + 256 * 1024
           /\ evidence_validate input = Ok tt /\ ei_policy_snapshot_sha256 input = es_policy_snapshot_sha256 s
           /\ es_records s' !! evidence_name (knowledge_hash_bytes bytes) = Some rec
           /\ es_content_index s' !! knowledge_hash_bytes bytes = Some (evidence_name (knowledge_hash_bytes bytes))
           /\ take 24 (er_content_sha256 rec) = take 24 (knowledge_hash_bytes bytes)
       | Err _ => es_records s' = es_records s /\ es_content_index s' = es_content_index s
       end.
Proof.
  intros Hs. assert (evidence_store_ok (input :: inputs) s) as Hs' by (eapply evidence_store_weaken; [|done]; set_solver).
  unfold evidence_insert.
  destruct (N.leb_spec MAX_EVIDENCE_RECORDS (N.of_nat (size (es_records s)))) as [|Hsize]; [eauto 10|].
  destruct (evidence_validate input) as [[]|e] eqn:Hv; [|eauto 10].
  case_bool_decide as Hp; [eauto 10|].
  destruct (to_vec input) as [bytes|e] eqn:Hb; [|eauto 10].
  destruct (N.ltb_spec (MAX_EVIDENCE_SUMMARY_BYTES + 256 * 1024) (len bytes)) as [|Hlen]; [eauto 10|].
  destruct (es_content_index s !! knowledge_hash_bytes bytes) as [id|] eqn:Hi.
  - destruct (eso_index _ _ Hs _ _ Hi) as [-> [rec Hrec]]. rewrite Hrec. simpl.
    eexists _, _. split; [reflexivity|]. split; [done|]. split; [done|]. exists bytes. split_and!; try done.
    destruct (eso_records _ _ Hs _ _ Hrec) as (input' & bytes' & tail & _ & _ & _ & -> & E). simpl.
    unfold evidence_name in E. by apply app_inv_head in E.
  - destruct (store_evidence_ok inputs input bytes s) as (r & s' & -> & Hok & Hpol & Hr); try done.
    eexists _, _. split; [reflexivity|]. split; [done|]. split; [done|]. destruct r as [rec|e]; [|done].
    destruct Hr as (Hc & Hr1 & Hr2). exists bytes. split_and!; try done. by rewrite Hc.
Qed.

Lemma insert_all_spec inputs : forall seen s,
  evidence_store_ok seen s ->
  exists s', insert_all inputs s = Done s' /\ evidence_store_ok (reverse inputs ++ seen) s'
    /\ es_policy_snapshot_sha256 s' = es_policy_snapshot_sha256 s.
Proof.
  induction inputs as [|input inputs IH]; intros seen s Hs; simpl; [eauto|].
  destruct (evidence_insert_spec seen input s Hs) as (r & s1 & -> & Hs1 & Hp1 & _).
  destruct (IH _ _ Hs1) as (s2 & -> & Hs2 & Hp2). exists s2. split; [done|].
  rewrite reverse_cons, <- app_assoc. split; [done|congruence].
Qed.
End Evidence.

(** ** Clusters *)

Definition cluster_name (key : str) : str := ("cluster-" : str) ++ take 24 key.

Section Clusters.
Context {JC : JsonLib ClusterMaterial}.

Definition in_cluster (cid : str) (f : FindingEnvelope) : Prop :=
  exists key, dedup_key_sha256 f = Ok key /\ cluster_name key = cid.

(** The cluster [c] summarises the findings of [merged] that belong to [cid]. *)
Record summarises (merged : list FindingEnvelope) (cid : str) (c : FindingCluster) : Prop := {
  su_id : fc_cluster_id c = cid;
  su_members : forall id, id ∈ fc_member_finding_ids c <->
    exists f, f ∈ merged /\ in_cluster cid f /\ fe_finding_id f = id;
  su_evidence : forall h, h ∈ fc_evidence_sha256 c <->
    exists f, f ∈ merged /\ in_cluster cid f /\ fe_evidence_sha256 f = h;
  su_severity : (exists f, f ∈ merged /\ in_cluster cid f /\ fe_severity f = fc_severity c)
    /\ forall f, f ∈ merged -> in_cluster cid f -> severity_rank (fe_severity f) <= severity_rank (fc_severity c);
  su_confidence : (exists f, f ∈ merged /\ in_cluster cid f /\ fe_confidence f = fc_confidence c)
    /\ forall f, f ∈ merged -> in_cluster cid f -> confidence_rank (fe_confidence f) <= confidence_rank (fc_confidence c);
  su_validated : fc_validated c = true <-> exists f, f ∈ merged /\ in_cluster cid f /\ fe_validated f = true;
  su_canonical : (exists f, f ∈ merged /\ in_cluster cid f /\ fe_finding_id f = fc_canonical_finding_id c)
    /\ forall f, f ∈ merged -> in_cluster cid f -> str_leb (fc_canonical_finding_id c) (fe_finding_id f) = true
}.

Lemma str_leb_refl x : str_leb x x = true.
Proof. by destruct (ord_leb_total (A := str) x x). Qed.

Lemma severity_max_spec a b :
  severity_rank a <= severity_rank (severity_max a b) /\ severity_rank b <= severity_rank (severity_max a b)
  /\ (severity_max a b = a \/ severity_max a b = b).
Proof. unfold severity_max. destruct (N.leb_spec (severity_rank a) (severity_rank b)); split_and!; auto; lia. Qed.

Lemma confidence_max_spec a b :
  confidence_rank a <= confidence_rank (confidence_max a b) /\ confidence_rank b <= confidence_rank (confidence_max a b)
  /\ (confidence_max a b = a \/ confidence_max a b = b).
Proof. unfold confidence_max. destruct (N.leb_spec (confidence_rank a) (confidence_rank b)); split_and!; auto; lia. Qed.

(** The first finding of a cluster. *)
Lemma summarises_new merged cid key f :
  in_cluster cid f -> (forall g, g ∈ merged -> ~ in_cluster cid g) ->
  summarises (f :: merged) cid (merge_finding f (new_cluster cid key f)).
Proof.
  intros Hf Hno.
  assert (forall P : FindingEnvelope -> Prop, (exists g, g ∈ f :: merged /\ in_cluster cid g /\ P g) <-> P f) as Hex.
  { intros P. split; [|intros; exists f; set_solver]. intros (g & [->|Hg]%elem_of_cons & Hc & HP); [done|].
    by destruct (Hno g Hg). }
  assert (forall P : FindingEnvelope -> Prop, P f -> forall g, g ∈ f :: merged -> in_cluster cid g -> P g) as Hall.
  { intros P HP g [->|Hg]%elem_of_cons Hc; [done|]. by destruct (Hno g Hg). }
  pose proof (severity_max_spec (fe_severity f) (fe_severity f)) as (S1 & _ & S3).
  pose proof (confidence_max_spec (fe_confidence f) (fe_confidence f)) as (C1 & _ & C3).
  constructor; simpl; try done.
  - intros id. rewrite (Hex (fun g => fe_finding_id g = id)). set_solver.
  - intros h. rewrite (Hex (fun g => fe_evidence_sha256 g = h)). set_solver.
  - split; [apply (Hex (fun g => fe_severity g = _)); naive_solver|]. by apply Hall.
  - split; [apply (Hex (fun g => fe_confidence g = _)); naive_solver|]. by apply Hall.
  - rewrite (Hex (fun g => fe_validated g = true)), orb_diag. done.
  - rewrite str_leb_refl. simpl. split; [by apply (Hex (fun g => fe_finding_id g = _))|].
    apply Hall, str_leb_refl.
Qed.

(** A further finding of a cluster. *)
Lemma summarises_merge merged cid c f :
  in_cluster cid f -> summarises merged cid c -> summarises (f :: merged) cid (merge_finding f c).
Proof.
  intros Hf [H1 H2 H3 [H4 H4'] [H5 H5'] H6 [H7 H7']].
  assert (forall P : FindingEnvelope -> Prop, (exists g, g ∈ f :: merged /\ in_cluster cid g /\ P g)
    <-> P f \/ exists g, g ∈ merged /\ in_cluster cid g /\ P g) as Hex.
  { intros P. split.
    - intros (g & [->|Hg]%elem_of_cons & Hc & HP); eauto.
    - intros [HP|(g & Hg & HP)]; [exists f|exists g]; set_solver. }
  assert (forall P : FindingEnvelope -> Prop, P f -> (forall g, g ∈ merged -> in_cluster cid g -> P g) ->
    forall g, g ∈ f :: merged -> in_cluster cid g -> P g) as Hall.
  { intros P HP Hm g [->|Hg]%elem_of_cons Hc; auto. }
  pose proof (severity_max_spec (fc_severity c) (fe_severity f)) as (S1 & S2 & S3).
  pose proof (confidence_max_spec (fc_confidence c) (fe_confidence f)) as (C1 & C2 & C3).
  constructor; simpl; try done.
  - intros id. rewrite (Hex (fun g => fe_finding_id g = id)), <- H2. set_solver.
  - intros h. rewrite (Hex (fun g => fe_evidence_sha256 g = h)), <- H3. set_solver.
  - split; [apply (Hex (fun g => fe_severity g = _)); destruct S3 as [-> | ->]; auto|].
    apply Hall; [done|]. intros g Hg Hc. specialize (H4' g Hg Hc). lia.
  - split; [apply (Hex (fun g => fe_confidence g = _)); destruct C3 as [-> | ->]; auto|].
    apply Hall; [done|]. intros g Hg Hc. specialize (H5' g Hg Hc). lia.
  - rewrite orb_true_iff, H6, (Hex (fun g => fe_validated g = true)). tauto.
  - destruct (str_leb (fc_canonical_finding_id c) (fe_finding_id f)) eqn:Hle; simpl.
    + split; [apply (Hex (fun g => fe_finding_id g = _)); auto|]. by apply Hall.
    + split; [by apply (Hex (fun g => fe_finding_id g = _)); auto|].
      apply Hall; [apply str_leb_refl|]. intros g Hg Hc.
      destruct (ord_leb_total (A := str) (fe_finding_id f) (fc_canonical_finding_id c)) as [Ht|Ht];
        [|by unfold ord_leb in Ht; simpl in Ht; congruence].
      exact (ord_leb_trans (A := str) _ _ _ Ht (H7' g Hg Hc)).
Qed.

(** A finding of another cluster. *)
Lemma summarises_other merged cid c f :
  ~ in_cluster cid f -> summarises merged cid c -> summarises (f :: merged) cid c.
Proof.
  intros Hf [H1 H2 H3 [H4 H4'] [H5 H5'] H6 [H7 H7']].
  assert (forall P : FindingEnvelope -> Prop, (exists g, g ∈ f :: merged /\ in_cluster cid g /\ P g)
    <-> exists g, g ∈ merged /\ in_cluster cid g /\ P g) as Hex.
  { intros P. split; intros (g & Hg & Hc & HP); exists g; set_solver. }
  assert (forall P : FindingEnvelope -> Prop, (forall g, g ∈ merged -> in_cluster cid g -> P g) ->
    forall g, g ∈ f :: merged -> in_cluster cid g -> P g) as Hall.
  { intros P Hm g [->|Hg]%elem_of_cons Hc; auto. done. }
  constructor; try done.
  - intros id. by rewrite (Hex (fun g => fe_finding_id g = id)).
  - intros h. by rewrite (Hex (fun g => fe_evidence_sha256 g = h)).
  - split; [by apply (Hex (fun g => fe_severity g = _))|by apply Hall].
  - split; [by apply (Hex (fun g => fe_confidence g = _))|by apply Hall].
  - by rewrite (Hex (fun g => fe_validated g = true)).
  - split; [by apply (Hex (fun g => fe_finding_id g = _))|by apply Hall].
Qed.

Fixpoint dedup_all (findings : list FindingEnvelope) (d : FindingDeduplicator) : Run FindingDeduplicator :=
  match findings with
  | [] => Done d
  | f :: rest => let! (_, d) := dedup_insert f d in dedup_all rest d
  end.

(** The findings that are merged: those with a key, once for each identifier. *)
Fixpoint merged_findings (findings : list FindingEnvelope) (merged : list FindingEnvelope) : list FindingEnvelope :=
  match findings with
  | [] => merged
  | f :: rest =>
      if is_ok (dedup_key_sha256 f) && negb (existsb (fun g => bool_decide (fe_finding_id g = fe_finding_id f)) merged)
      then merged_findings rest (f :: merged) else merged_findings rest merged
  end.

Record dedup_ok (merged : list FindingEnvelope) (d : FindingDeduplicator) : Prop := {
  dk_index : forall id cid, fd_finding_to_cluster d !! id = Some cid <->
    exists f, f ∈ merged /\ in_cluster cid f /\ fe_finding_id f = id;
  dk_clusters : map_Forall (summarises merged) (fd_clusters d);
  dk_domain : forall cid, is_Some (fd_clusters d !! cid) <-> exists f, f ∈ merged /\ in_cluster cid f;
  dk_keyed : Forall (fun f => exists cid, in_cluster cid f) merged
}.

Lemma in_cluster_unique cid cid' f : in_cluster cid f -> in_cluster cid' f -> cid = cid'.
Proof. intros (k & Hk & <-) (k' & Hk' & <-). congruence. Qed.

Lemma known_id merged d f :
  dedup_ok merged d ->
  existsb (fun g => bool_decide (fe_finding_id g = fe_finding_id f)) merged
  = bool_decide (is_Some (fd_finding_to_cluster d !! fe_finding_id f)).
Proof.
  intros Hd. apply eq_true_iff_eq. rewrite bool_decide_eq_true, existsb_elem. split.
  - intros (g & Hg & Hid). bools. pose proof (dk_keyed _ _ Hd) as Hk. rewrite Forall_forall in Hk.
    destruct (Hk g Hg) as [cid Hc]. exists cid. apply (dk_index _ _ Hd). eauto.
  - intros [cid Hc]. apply (dk_index _ _ Hd) in Hc as (g & Hg & _ & Hid). exists g. split; [done|].
    by apply bool_decide_eq_true.
Qed.

(** An insertion returns, and keeps the clusters the summaries of their findings. *)
Lemma dedup_insert_spec merged d f :
  dedup_ok merged d ->
  exists r d', dedup_insert f d = Done (r, d') /\ dedup_ok (merged_findings [f] merged) d'
    /\ (forall c, r = Ok c -> exists cid, fd_finding_to_cluster d' !! fe_finding_id f = Some cid
          /\ fd_clusters d' !! cid = Some c).
Proof.
  intros Hd. unfold dedup_insert. cbn [merged_findings]. rewrite (known_id merged d f Hd).
  destruct (dedup_key_sha256 f) as [key|e] eqn:Hk; cbn [is_ok andb]; [|by eexists _, _; split_and!].
  destruct (fd_finding_to_cluster d !! fe_finding_id f) as [cid|] eqn:Hf.
  - assert (is_Some (fd_clusters d !! cid)) as [c Hc].
    { apply (dk_domain _ _ Hd). apply (dk_index _ _ Hd) in Hf as (g & ? & ? & ?). eauto. }
    rewrite Hc, bool_decide_eq_true_2 by eauto. simpl. eexists _, _. split_and!; [done|done|].
    intros c' [= <-]. eauto.
  - rewrite bool_decide_eq_false_2 by (by intros [? ?]). cbn [negb].
    rewrite (str_prefix_sha256 24 key) by (lia || by eapply knowledge_hash_hex).
    change (("cluster-" : str) ++ take (N.to_nat 24) key) with (cluster_name key).
    set (cid := cluster_name key). assert (in_cluster cid f) as Hin by (exists key; done).
    eexists _, _. split; [done|]. split; [|intros c [= <-]; exists cid; simpl; by rewrite !lookup_insert_eq].
    destruct Hd as [D1 D2 D3 D4]. constructor; cbn [fd_finding_to_cluster fd_clusters].
    + intros id cid'. rewrite lookup_insert_Some. split.
      * intros [[<- <-]|[Hne Hid]]; [exists f; split; [by left|done]|].
        apply D1 in Hid as (g & ? & ? & ?). exists g. split; [by right|done].
      * intros (g & [->|Hg]%elem_of_cons & Hc & <-); [left; split; [done|by eapply in_cluster_unique]|].
        right. assert (fd_finding_to_cluster d !! fe_finding_id g = Some cid') as Hg' by (apply D1; eauto).
        split; [congruence|done].
    + intros cid' c Hc. apply lookup_insert_Some in Hc as [[<- <-]|[Hne Hc]].
      * destruct (fd_clusters d !! cid) as [c|] eqn:Hc; cbn [default].
        { apply summarises_merge; [done|]. by apply D2. }
        apply summarises_new; [done|]. intros g Hg Hgc.
        assert (is_Some (fd_clusters d !! cid)) as [? ?] by (apply D3; eauto). congruence.
      * apply summarises_other; [|by apply D2]. intros Hc'. apply Hne. by eapply in_cluster_unique.
    + intros cid'. rewrite lookup_insert_is_Some', D3. split.
      * intros [<-|(g & ? & ?)]; [exists f; split; [by left|done]|exists g; split; [by right|done]].
      * intros (g & [->|Hg]%elem_of_cons & Hc); [left; by eapply in_cluster_unique|eauto].
    + constructor; eauto.
Qed.

Lemma merged_findings_cons f rest merged :
  merged_findings (f :: rest) merged = merged_findings rest (merged_findings [f] merged).
Proof. cbn [merged_findings]. by destruct (_ && _). Qed.

Lemma dedup_all_spec findings : forall merged d, dedup_ok merged d ->
  exists d', dedup_all findings d = Done d' /\ dedup_ok (merged_findings findings merged) d'.
Proof.
  induction findings as [|f findings IH]; intros merged d Hd; [exists d; done|].
  cbn [dedup_all]. destruct (dedup_insert_spec merged d f Hd) as (r & d1 & -> & Hd1 & _).
  rewrite merged_findings_cons. by apply IH.
Qed.

Lemma dedup_default_ok : dedup_ok [] dedup_default.
Proof.
  constructor; simpl; [|apply map_Forall_empty| |constructor].
  - intros id cid. rewrite lookup_empty. set_solver.
  - intros cid. rewrite lookup_empty. split; [by intros [? ?]|set_solver].
Qed.
End Clusters.

(** ** The life cycle of findings *)

Inductive RegistryCall : Type :=
  | RRegister (finding : FindingEnvelope)
  | RAttach (finding_id : str) (evidence : EvidenceRecord)
  | RClear (finding_id : str) (clear : bool)
  | RTransition (finding_id : str) (target : FindingState) (reason : option str).

Definition registry_call (call : RegistryCall) (g : FindingRegistry) : FindingRegistry :=
  match call with
  | RRegister finding => (registry_register finding g).2
  | RAttach id evidence => (attach_evidence id evidence g).2
  | RClear id clear => (set_cleanup_clear id clear g).2
  | RTransition id target reason => (registry_transition id target reason g).2
  end.

Definition finding_step (from to : FindingState) : Prop := finding_edge from to = true.

Definition initial_state (f : FindingEnvelope) : FindingState := if fe_validated f then Validated else Candidate.

Record lifecycle_ok (id : str) (r : FindingLifecycleRecord) : Prop := {
  lc_id : fe_finding_id (fl_finding r) = id;
  lc_path : nsteps finding_step (N.to_nat (fl_transition_count r)) (initial_state (fl_finding r)) (fl_state r);
  lc_reportable : fl_state r = Reportable \/ fl_state r = Closed /\ fl_suppression_reason_sha256 r = None ->
    fe_validated (fl_finding r) = true /\ fl_evidence_ids r <> ∅;
  lc_suppressed : fl_state r = Suppressed -> is_Some (fl_suppression_reason_sha256 r);
  lc_unsuppressed : fl_state r <> Suppressed -> fl_state r <> Closed -> fl_suppression_reason_sha256 r = None
}.

Definition state_rank (s : FindingState) : nat :=
  match s with Candidate => 0 | Validating => 1 | Validated => 2 | Reportable | Suppressed => 3 | Closed => 4 end.

(** Every step of the life cycle moves forward: a finding makes at most four. *)
Lemma nsteps_rank n a b : nsteps finding_step n a b -> (state_rank a + n <= state_rank b)%nat.
Proof.
  induction 1 as [|n x y z Hxy Hyz IH]; [lia|].
  assert (state_rank x < state_rank y)%nat by (destruct x, y; done || (simpl; lia)). lia.
Qed.

Lemma lifecycle_count id r : lifecycle_ok id r -> fl_transition_count r <= 4.
Proof.
  intros Hr. pose proof (nsteps_rank _ _ _ (lc_path _ _ Hr)). destruct (fl_state r); simpl in *; lia.
Qed.

Lemma transition_guard_ok r target suppression reason :
  transition_guard r target suppression = Ok reason <->
  finding_step (fl_state r) target
  /\ (target = Reportable -> fe_validated (fl_finding r) = true /\ fl_evidence_ids r <> ∅ /\ fl_cleanup_clear r = true)
  /\ (if decide (target = Suppressed)
      then exists text, suppression = Some text /\ text <> [] /\ reason = Some (knowledge_hash_bytes text)
      else reason = fl_suppression_reason_sha256 r).
Proof.
  unfold transition_guard, finding_step. destruct (finding_edge (fl_state r) target); simpl; [|naive_solver].
  destruct (decide (target = Reportable)) as [->|Hr].
  - rewrite bool_decide_eq_true_2 by done. rewrite (bool_decide_eq_false_2 (Reportable = Suppressed)) by done.
    destruct (fe_validated (fl_finding r)), (fl_cleanup_clear r); simpl;
      try case_bool_decide; simpl; destruct (decide (Reportable = Suppressed)); naive_solver.
  - rewrite bool_decide_eq_false_2 by done. simpl. destruct (decide (target = Suppressed)) as [->|Hs].
    + rewrite bool_decide_eq_true_2 by done. destruct suppression as [[|c text]|]; naive_solver.
    + rewrite bool_decide_eq_false_2 by done. naive_solver.
Qed.

Lemma transition_lifecycle id r target suppression reason tail :
  lifecycle_ok id r -> transition_guard r target suppression = Ok reason ->
  lifecycle_ok id (with_finding_state target reason (u32_saturating_add (fl_transition_count r) 1) tail r).
Proof.
  intros Hr Hg. pose proof (lifecycle_count _ _ Hr) as Hc. apply transition_guard_ok in Hg as (Hstep & Hrep & Hsup).
  destruct Hr as [H1 H2 H3 H4 H5].
  assert (u32_saturating_add (fl_transition_count r) 1 = fl_transition_count r + 1) as ->
    by (unfold u32_saturating_add, u32_max; lia).
  constructor; simpl; [done| | | |].
  - rewrite N2Nat.inj_add, Nat.add_1_r. by eapply nsteps_r.
  - intros [->|[-> Hn]]; [by destruct (Hrep eq_refl) as (? & ? & _)|].
    destruct (decide (Closed = Suppressed)); [done|]. subst reason. apply H3.
    unfold finding_step in Hstep. destruct (fl_state r) eqn:E; try done; [by left|].
    destruct (H4 eq_refl) as [? ?]. congruence.
  - intros ->. destruct (decide (Suppressed = Suppressed)); [|done]. destruct Hsup as (text & _ & _ & ->). eauto.
  - intros Hns Hnc. destruct (decide (target = Suppressed)); [done|]. subst reason.
    apply H5; intros E; unfold finding_step in Hstep; rewrite E in Hstep; by destruct target.
Qed.

Record registry_ok (g : FindingRegistry) : Prop := {
  ro_records : map_Forall lifecycle_ok (fr_records g);
  ro_chain : chain_ok (fr_audit g)
}.

Lemma registry_call_ok call g : registry_ok g -> registry_ok (registry_call call g).
Proof.
  intros Hg. destruct call as [f|id evidence|id clear|id target reason]; simpl.
  - unfold registry_register. case_bool_decide as Hid; [done|].
    destruct (knowledge_audit_append _ _) as [r audit] eqn:Ha.
    apply (knowledge_append_spec _ _ _ _ (ro_chain _ Hg)) in Ha as [Hok _].
    destruct r; simpl; constructor; simpl; try done; [|apply Hg].
    apply map_Forall_insert_2; [|apply Hg]. constructor; simpl; try done.
    + by apply nsteps_O.
    + destruct (fe_validated f); naive_solver.
    + destruct (fe_validated f); naive_solver.
  - unfold attach_evidence. destruct (fr_records g !! id) as [r|] eqn:Hid; [|done].
    case_bool_decide; [done|]. simpl. constructor; simpl; [|apply Hg].
    apply map_Forall_insert_2; [|apply Hg]. destruct (ro_records _ Hg _ _ Hid) as [H1 H2 H3 H4 H5].
    constructor; simpl; try done. intros Hs. destruct (H3 Hs). split; [done|]. set_solver.
  - unfold set_cleanup_clear. destruct (fr_records g !! id) as [r|] eqn:Hid; [|done].
    simpl. constructor; simpl; [|apply Hg].
    apply map_Forall_insert_2; [|apply Hg]. by destruct (ro_records _ Hg _ _ Hid).
  - unfold registry_transition. destruct (fr_records g !! id) as [r|] eqn:Hid; [|done].
    destruct (transition_guard r target reason) as [reason'|] eqn:Hgd; [|done].
    destruct (knowledge_audit_append _ _) as [res audit] eqn:Ha.
    apply (knowledge_append_spec _ _ _ _ (ro_chain _ Hg)) in Ha as [Hok _].
    destruct res; simpl; (constructor; simpl; [|done]); (apply map_Forall_insert_2; [|apply Hg]);
      (eapply transition_lifecycle; [by apply (ro_records _ Hg)|done]).
Qed.

Definition registry_calls (calls : list RegistryCall) (g : FindingRegistry) : FindingRegistry :=
  fold_left (fun g call => registry_call call g) calls g.

Lemma registry_calls_ok calls : forall g, registry_ok g -> registry_ok (registry_calls calls g).
Proof. induction calls as [|call calls IH]; intros g Hg; [done|]. apply IH. by apply registry_call_ok. Qed.

Lemma registry_new_ok genesis g : registry_new genesis = Ok g -> registry_ok g.
Proof.
  unfold registry_new. intros H. inv_ok H. constructor; simpl; [apply map_Forall_empty|].
  by eapply knowledge_audit_new_ok.
Qed.

(** ** Reports *)

Definition add_findings (records : list FindingLifecycleRecord) (b : ReportBuilder) : ReportBuilder :=
  fold_left (fun b record => (add_finding record b).2) records b.

(** A record that may enter a report of [policy], with what it reports. *)
Definition reportable_as (policy : str) (r : FindingLifecycleRecord) (f : ReportFinding) : Prop :=
  fl_state r = Reportable /\ fe_validated (fl_finding r) = true /\ fl_evidence_ids r <> ∅
  /\ fl_cleanup_clear r = true /\ fe_policy_snapshot_sha256 (fl_finding r) = policy
  /\ secret_free (fe_title (fl_finding r)) /\ secret_free (fe_summary (fl_finding r))
  /\ f = {| rf_finding_id := fe_finding_id (fl_finding r); rf_rule_id := fe_rule_id (fl_finding r);
            rf_title := fe_title (fl_finding r); rf_severity := fe_severity (fl_finding r);
            rf_confidence := fe_confidence (fl_finding r); rf_origin := fe_origin (fl_finding r);
            rf_endpoint_sha256 := fe_endpoint_sha256 (fl_finding r);
            rf_summary := fe_summary (fl_finding r); rf_evidence_ids := fl_evidence_ids r |}.

Lemma try_from_ok r f :
  report_finding_try_from r = Ok f <->
  fl_state r = Reportable /\ fe_validated (fl_finding r) = true /\ fl_evidence_ids r <> ∅ /\ fl_cleanup_clear r = true
  /\ f = {| rf_finding_id := fe_finding_id (fl_finding r); rf_rule_id := fe_rule_id (fl_finding r);
            rf_title := fe_title (fl_finding r); rf_severity := fe_severity (fl_finding r);
            rf_confidence := fe_confidence (fl_finding r); rf_origin := fe_origin (fl_finding r);
            rf_endpoint_sha256 := fe_endpoint_sha256 (fl_finding r);
            rf_summary := fe_summary (fl_finding r); rf_evidence_ids := fl_evidence_ids r |}.
Proof.
  unfold report_finding_try_from. rewrite guard_ok, !orb_false_iff, !negb_false_iff, !bool_decide_eq_false.
  split.
  - intros [[[[H1 H2] H3] H4] [= <-]]. apply dec_stable in H1. done.
  - intros (H1 & H2 & H3 & H4 & ->). split_and!; try done. naive_solver.
Qed.

Lemma add_finding_spec r b :
  N.of_nat (size (bu_findings b)) < MAX_REPORT_FINDINGS ->
  (exists f, reportable_as (bu_policy_snapshot_sha256 b) r f
     /\ (add_finding r b).2 = {| bu_program_name := bu_program_name b;
          bu_policy_snapshot_sha256 := bu_policy_snapshot_sha256 b;
          bu_generated_at_epoch_seconds := bu_generated_at_epoch_seconds b;
          bu_findings := <[rf_finding_id f := f]> (bu_findings b) |})
  \/ (forall f, ~ reportable_as (bu_policy_snapshot_sha256 b) r f) /\ (add_finding r b).2 = b.
Proof.
  intros Hs. unfold add_finding. rewrite (proj2 (N.leb_gt _ _)) by done. unfold reportable_as.
  case_bool_decide as Hp; [right; split; [naive_solver|done]|].
  destruct (report_finding_try_from r) as [f|e] eqn:Hf.
  - apply try_from_ok in Hf as (H1 & H2 & H3 & H4 & ->). simpl.
    destruct (reject_secret_like_text (fe_title (fl_finding r))) as [[]|e] eqn:Ht.
    2: { right. split; [|done]. intros f (_ & _ & _ & _ & _ & Hfree & _). apply reject_secret_ok in Hfree. congruence. }
    destruct (reject_secret_like_text (fe_summary (fl_finding r))) as [[]|e] eqn:Hsum.
    2: { right. split; [|done]. intros f (_ & _ & _ & _ & _ & _ & Hfree & _). apply reject_secret_ok in Hfree. congruence. }
    apply reject_secret_ok in Ht, Hsum. left. eexists. split; [split_and!; done|]. done.
  - right. split; [|done]. intros f (H1 & H2 & H3 & H4 & _ & _ & _ & Hfe).
    assert (report_finding_try_from r = Ok f) as Hok by (by apply try_from_ok). congruence.
Qed.

(** What a builder holds after records were added to it. *)
Record builder_ok (seen : list FindingLifecycleRecord) (b : ReportBuilder) : Prop := {
  bo_sound : map_Forall (fun id f => rf_finding_id f = id
    /\ exists r, r ∈ seen /\ reportable_as (bu_policy_snapshot_sha256 b) r f) (bu_findings b);
  bo_complete : forall r f, r ∈ seen -> reportable_as (bu_policy_snapshot_sha256 b) r f ->
    is_Some (bu_findings b !! rf_finding_id f);
  bo_size : (size (bu_findings b) <= length seen)%nat
}.

Lemma add_finding_ok seen r b :
  builder_ok seen b -> len (r :: seen) <= MAX_REPORT_FINDINGS ->
  builder_ok (r :: seen) (add_finding r b).2
  /\ bu_policy_snapshot_sha256 (add_finding r b).2 = bu_policy_snapshot_sha256 b
  /\ bu_program_name (add_finding r b).2 = bu_program_name b.
Proof.
  intros [H1 H2 H3] Hlen. rewrite len_cons in Hlen. unfold len in Hlen.
  destruct (add_finding_spec r b) as [(f & Hf & ->)|[Hno ->]]; [lia| |]; simpl; (split; [|done]); constructor; simpl.
  - apply map_Forall_insert_2; [split; [done|]; exists r; split; [by left|done]|].
    eapply map_Forall_impl; [exact H1|]. intros id g (Hid & r' & Hr' & Hg). split; [done|]. exists r'. split; [by right|done].
  - intros r' f' [->|Hr']%elem_of_cons Hf'; rewrite lookup_insert_is_Some'.
    + left. destruct Hf as (_ & _ & _ & _ & _ & _ & _ & ->), Hf' as (_ & _ & _ & _ & _ & _ & _ & ->). done.
    + right. by eapply H2.
  - pose proof (map_size_insert (rf_finding_id f) f (bu_findings b)) as E.
    destruct (bu_findings b !! rf_finding_id f); rewrite E; [unfold id|]; lia.
  - eapply map_Forall_impl; [exact H1|]. intros id g (Hid & r' & Hr' & Hg). split; [done|]. exists r'. split; [by right|done].
  - intros r' f' [->|Hr']%elem_of_cons Hf'; [by destruct (Hno f')|by eapply H2].
  - lia.
Qed.

Lemma add_findings_ok records : forall seen b,
  builder_ok seen b -> len seen + len records <= MAX_REPORT_FINDINGS ->
  builder_ok (reverse records ++ seen) (add_findings records b)
  /\ bu_policy_snapshot_sha256 (add_findings records b) = bu_policy_snapshot_sha256 b
  /\ bu_program_name (add_findings records b) = bu_program_name b.
Proof.
  induction records as [|r records IH]; intros seen b Hb Hlen; [done|]. rewrite len_cons in Hlen.
  destruct (add_finding_ok seen r b Hb) as (Hb1 & Hp1 & Hn1); [rewrite len_cons; lia|].
  destruct (IH _ _ Hb1) as (Hb2 & Hp2 & Hn2); [rewrite len_cons; lia|].
  rewrite reverse_cons, <- app_assoc. unfold add_findings in *. simpl in *. split_and!; [done|congruence..].
Qed.

Lemma findings_ids (m : gmap str ReportFinding) :
  map_Forall (fun id f => rf_finding_id f = id) m -> rf_finding_id <$> map_values m = map_keys m.
Proof.
  intros Hm. rewrite <- map_iter_keys. unfold map_values. rewrite <- list_fmap_compose.
  apply list_fmap_ext. intros i [k f] Hi. simpl. apply Hm. apply elem_of_map_iter. by eapply list_elem_of_lookup_2.
Qed.

(** ** Manifests *)

#[export] Instance ExportManifestEntry_eq_dec : EqDecision ExportManifestEntry.
Proof. solve_decision. Defined.

Section Manifest.
Context {JM : JsonLib ManifestMaterial}.

Record ManifestCall : Type := {
  mc_path : str;
  mc_class : str;
  mc_content : str;
  mc_bytes : N
}.

Definition add_entries (calls : list ManifestCall) (m : ExportManifest) : ExportManifest :=
  fold_left (fun m c => (manifest_add_entry (mc_path c) (mc_class c) (mc_content c) (mc_bytes c) m).2) calls m.

(** A relative path without parent components. *)
Definition safe_entry (path : str) (e : ExportManifestEntry) : Prop :=
  me_logical_path e = path /\ path <> [] /\ len path <= 512 /\ starts_with path "/" = false
  /\ contains_str path ".." = false /\ contains_byte 92 path = false /\ is_lower_hex_sha256 (me_content_sha256 e) = true.

Record manifest_ok (m : ExportManifest) : Prop := {
  mo_root : manifest_root m = Ok (em_root_sha256 m);
  mo_entries : map_Forall safe_entry (em_entries m)
}.

Lemma manifest_verify_ok m : manifest_verify m = Ok tt <-> manifest_root m = Ok (em_root_sha256 m).
Proof.
  unfold manifest_verify. destruct (manifest_root m) as [root|e]; [|naive_solver].
  case_bool_decide; naive_solver.
Qed.

Context {JMT : JsonTotal ManifestMaterial}.

Lemma manifest_root_total m : exists root, manifest_root m = Ok root.
Proof.
  unfold manifest_root, knowledge_hash.
  destruct (to_vec_total (em_export_id m, em_policy_snapshot_sha256 m, em_entries m)) as [bytes ->]. simpl. eauto.
Qed.

Lemma manifest_add_ok c m : manifest_ok m ->
  manifest_ok (manifest_add_entry (mc_path c) (mc_class c) (mc_content c) (mc_bytes c) m).2.
Proof.
  intros Hm. unfold manifest_add_entry.
  destruct (MAX_MANIFEST_ENTRIES <=? _); [done|]. destruct (manifest_path_invalid _ _) eqn:Hp; [done|].
  unfold knowledge_validate_sha256. destruct (is_lower_hex_sha256 (mc_content c)) eqn:Hc; simpl; [|done].
  case_bool_decide; [done|].
  match goal with |- context [manifest_root ?x] => destruct (manifest_root_total x) as [root Hr]; rewrite Hr end.
  simpl. constructor; simpl; [exact Hr|]. apply map_Forall_insert_2; [|apply Hm].
  unfold manifest_path_invalid in Hp. bools. by split_and!.
Qed.

Lemma add_entries_ok calls : forall m, manifest_ok m -> manifest_ok (add_entries calls m).
Proof. induction calls as [|c calls IH]; intros m Hm; [done|]. apply IH. by apply manifest_add_ok. Qed.

Lemma manifest_new_ok export_id policy m : manifest_new export_id policy = Ok m -> manifest_ok m.
Proof.
  unfold manifest_new. intros H. inv_ok H. constructor; simpl; [done|apply map_Forall_empty].
Qed.
End Manifest.
End Facts.

(** ** Concrete parameters for the examples *)

Definition toy_knowledge_json : JsonLib (HashMaterial KnowledgeAuditEvent) :=
  toy_json (fun e => ka_action e ++ ka_subject_id e ++ ka_outcome e).
Definition toy_knowledge_total : @JsonTotal _ toy_knowledge_json := toy_json_total _.

Definition toy_evidence_input_json : JsonLib EvidenceInput :=
  {| to_vec input := Ok (ei_subject_id input ++ ei_summary input ++ decimal (ei_redaction_count input)) |}.
Definition toy_cluster_json : JsonLib ClusterMaterial :=
  {| to_vec m := let '(rule, origin, endpoint, policy) := m in Ok (rule ++ origin ++ endpoint ++ policy) |}.
Definition toy_report_json : JsonLib ReportMaterial :=
  {| to_vec m := let '(name, policy, _, findings, manifest, tail) := m in
       Ok (name ++ policy ++ concat (rf_finding_id <$> findings) ++ manifest ++ tail) |}.
Definition toy_document_json : PrettyJsonLib ReportDocument :=
  {| to_string_pretty d := Ok (rd_report_id d ++ concat (rf_finding_id <$> rd_findings d)) |}.
Definition toy_manifest_json : JsonLib ManifestMaterial :=
  {| to_vec m := let '(id, policy, entries) := m in
       Ok (id ++ policy ++ concat ((fun e => me_logical_path e ++ me_content_sha256 e) <$> map_values entries)) |}.

Definition toy_manifest_total : @JsonTotal _ toy_manifest_json.
Proof. constructor. intros [[? ?] ?]. eexists. reflexivity. Qed.

Definition sample_envelope (id : str) (validated : bool) (severity : Severity) : FindingEnvelope :=
  {| fe_finding_id := id; fe_source_finding_id := id; fe_rule_id := "rule-1"; fe_title := "Boundary change";
     fe_severity := severity; fe_confidence := CfHigh; fe_origin := "https://app.example.com:443";
     fe_endpoint_sha256 := hash_of "e"; fe_evidence_sha256 := hash_of "f";
     fe_policy_snapshot_sha256 := hash_of "b"; fe_validated := validated; fe_summary := "The response changed.";
     fe_metadata := ∅ |}.

Definition sample_input (summary : str) : EvidenceInput :=
  {| ei_class := EcDifferential; ei_subject_id := "finding-1"; ei_summary := summary; ei_metadata := ∅;
     ei_provenance_sha256 := hash_of "a"; ei_policy_snapshot_sha256 := hash_of "b"; ei_redaction_count := 0;
     ei_redaction_verified := true |}.

(** ** Properties *)

(** Along every history of calls a knowledge graph keeps to its policy snapshot
    and its limits, every edge joins stored nodes, its audit chain verifies, and the
    outgoing and incoming edges of a node are exactly the stored edges that leave
    and enter it. *)
Theorem knowledge_graph_is_indexed {S : Sha256Lib} {SL : Sha256Laws}
    {JA : JsonLib (HashMaterial KnowledgeAuditEvent)} (policy genesis : str) (g0 : ApplicationKnowledgeGraph)
    (calls : list GraphCall) :
  knowledge_graph_new policy genesis = Ok g0 ->
  let g := fold_left (fun g call => graph_call call g) calls g0 in
  knowledge_graph_ok g /\ kg_policy_snapshot_sha256 g = policy
  /\ knowledge_audit_verify (kg_audit g) = Ok tt
  /\ (forall n e, e ∈ outgoing_edges n g <-> exists id, kg_edges g !! id = Some e /\ ke_from_node_id e = n)
  /\ (forall n e, e ∈ incoming_edges n g <-> exists id, kg_edges g !! id = Some e /\ ke_to_node_id e = n).
Proof.
  intros Hn g.
  assert (knowledge_graph_ok g0 /\ kg_policy_snapshot_sha256 g0 = policy) as H0.
  { unfold knowledge_graph_new in Hn. inv_ok Hn. split; [|done].
    constructor; simpl; [apply map_Forall_empty..| | |by split|by eapply knowledge_audit_new_ok];
      intros n id; rewrite !lookup_empty; set_solver. }
  assert (knowledge_graph_ok g /\ kg_policy_snapshot_sha256 g = policy) as [Hg Hp].
  { unfold g. clear g Hn. revert g0 H0. induction calls as [|call calls IH]; intros g0 [Hg Hp]; simpl; [done|].
    apply IH. destruct (graph_call_ok call g0 Hg) as [? Hp']. split; [done|congruence]. }
  split_and!; try done.
  - apply knowledge_verify_ok, Hg.
  - intros n e. apply (elem_of_indexed_edges ke_from_node_id). apply Hg.
  - intros n e. apply (elem_of_indexed_edges ke_to_node_id). apply Hg.
Qed.

Definition knowledge_node (id : str) : KnowledgeNode :=
  {| kn_node_id := id; kn_kind := KnEndpoint; kn_key_sha256 := hash_of "a"; kn_policy_snapshot_sha256 := hash_of "b";
     kn_provenance_sha256 := hash_of "c"; kn_labels := ∅ |}.
Definition knowledge_edge (from to : str) : KnowledgeEdge :=
  {| ke_edge_id := from ++ to; ke_from_node_id := from; ke_to_node_id := to; ke_kind := Observed;
     ke_provenance_sha256 := hash_of "a"; ke_confidence_basis_sha256 := hash_of "b" |}.

(** The last edge leaves an unknown node. *)
Definition graph_calls : list GraphCall :=
  [AddNode (knowledge_node "a"); AddNode (knowledge_node "b"); AddEdge (knowledge_edge "a" "b");
   AddEdge (knowledge_edge "c" "b")].

Lemma knowledge_graph_is_indexed_witness :
  match knowledge_graph_new (hash_of "b") (hash_of "0") with
  | Ok g0 =>
      let g := fold_left (fun g call => @graph_call toy_sha256 toy_knowledge_json call g) graph_calls g0 in
      len (incoming_edges "b" g) = 1
      /\ forall e, e ∈ incoming_edges "b" g <-> exists id, kg_edges g !! id = Some e /\ ke_to_node_id e = ("b" : str)
  | Err _ => False
  end.
Proof.
  assert (match knowledge_graph_new (hash_of "b") (hash_of "0") with
    | Ok g0 => len (incoming_edges "b" (fold_left (fun g call => @graph_call toy_sha256 toy_knowledge_json call g)
        graph_calls g0)) =? 1
    | Err _ => false end = true) as Hb by (vm_compute; reflexivity).
  destruct (knowledge_graph_new (hash_of "b") (hash_of "0")) as [g0|] eqn:E; [|discriminate Hb].
  destruct (@knowledge_graph_is_indexed toy_sha256 toy_sha256_laws toy_knowledge_json _ _ g0 graph_calls E)
    as (_ & _ & _ & _ & Hi).
  split; [by apply N.eqb_eq|apply Hi].
Defined.

(** The evidence store is content addressed and redacted. A history of
    insertions never panics; every stored record is a validated inserted input under
    the hash of its JSON, of the policy of the store, without secret-bearing metadata
    keys and without secret-like text in its summary and metadata; the audit chain
    verifies. A successful insertion returns the record stored under the hash of its
    input, which can differ from the input only where two hashes share 24 digits,
    and inserting the same input again returns the same record and changes nothing. *)
Theorem evidence_is_redacted_and_addressed {S : Sha256Lib} {SL : Sha256Laws}
    {JA : JsonLib (HashMaterial KnowledgeAuditEvent)} {JI : JsonLib EvidenceInput}
    (policy genesis : str) (s0 : EvidenceStore) (inputs : list EvidenceInput) :
  evidence_store_new policy genesis = Ok s0 ->
  exists s, insert_all inputs s0 = Done s
    /\ knowledge_audit_verify (es_audit s) = Ok tt
    /\ map_Forall (stored_from inputs) (es_records s)
    /\ (forall id r, es_records s !! id = Some r -> er_policy_snapshot_sha256 r = policy
          /\ secret_free (er_summary r) /\ metadata_redacted (er_metadata r))
    /\ (forall input, exists res s', evidence_insert input s = Done (res, s')
          /\ forall r, res = Ok r -> exists bytes, to_vec input = Ok bytes
               /\ es_records s' !! evidence_name (knowledge_hash_bytes bytes) = Some r
               /\ take 24 (er_content_sha256 r) = take 24 (knowledge_hash_bytes bytes)
               /\ (N.of_nat (size (es_records s')) < MAX_EVIDENCE_RECORDS ->
                   evidence_insert input s' = Done (Ok r, s'))).
Proof.
  intros Hn. unfold evidence_store_new in Hn. inv_ok Hn.
  match goal with |- context [insert_all inputs ?s] => set (s0 := s) in * end.
  destruct (insert_all_spec inputs [] s0) as (s & Hrun & Hs & Hp).
  { constructor; simpl; [apply map_Forall_empty..| |apply map_Forall_empty|done|by eapply knowledge_audit_new_ok].
    intros id r. by rewrite lookup_empty. }
  assert (evidence_store_ok inputs s) as Hs'.
  { eapply evidence_store_weaken; [|exact Hs]. intros i. rewrite app_nil_r. apply elem_of_reverse. }
  exists s. split_and!; [done|apply knowledge_verify_ok, Hs|apply Hs'| |].
  - intros id r Hid. split; [by rewrite (eso_policy _ _ Hs _ _ Hid), Hp|].
    destruct (eso_records _ _ Hs _ _ Hid) as (input & bytes & tail & _ & Hv & _ & -> & _).
    apply evidence_validate_redacts in Hv as (? & ? & _). done.
  - intros input. destruct (evidence_insert_spec _ input s Hs) as (res & s' & Hi & Hs1 & Hp1 & Hr).
    exists res, s'. split; [done|]. intros r ->. destruct Hr as (bytes & Hb & Hlen & Hv & Hpol & Hr1 & Hr2 & Hr3).
    exists bytes. split_and!; try done. intros Hsize. unfold evidence_insert.
    rewrite (proj2 (N.leb_gt _ _)), Hv, bool_decide_eq_false_2, Hb, (proj2 (N.ltb_ge _ _)), Hr2, Hr1
      by (done || naive_solver congruence). done.
Qed.

Definition sample_inputs : list EvidenceInput :=
  [sample_input "status 403"; sample_input "password=hunter2"; sample_input "status 403"; sample_input "status 500"].

Lemma evidence_is_redacted_and_addressed_witness :
  match evidence_store_new (hash_of "b") (hash_of "0") with
  | Ok s0 =>
      match @insert_all toy_sha256 toy_knowledge_json toy_evidence_input_json sample_inputs s0 with
      | Done s => size (es_records s) = 2%nat
          /\ forall id r, es_records s !! id = Some r -> er_policy_snapshot_sha256 r = hash_of "b"
               /\ secret_free (er_summary r) /\ metadata_redacted (er_metadata r)
      | Panic _ => False
      end
  | Err _ => False
  end.
Proof.
  assert (match evidence_store_new (hash_of "b") (hash_of "0") with
    | Ok s0 => match @insert_all toy_sha256 toy_knowledge_json toy_evidence_input_json sample_inputs s0 with
        | Done s => (size (es_records s) =? 2)%nat | Panic _ => false end
    | Err _ => false end = true) as Hb by (vm_compute; reflexivity).
  destruct (evidence_store_new (hash_of "b") (hash_of "0")) as [s0|] eqn:E; [|discriminate Hb].
  destruct (@evidence_is_redacted_and_addressed toy_sha256 toy_sha256_laws toy_knowledge_json toy_evidence_input_json
    _ _ s0 sample_inputs E) as (s & Hr & _ & _ & Hs & _).
  rewrite Hr in Hb |- *. split; [by apply Nat.eqb_eq|exact Hs].
Defined.

(** Inserting findings never panics, and every cluster summarises exactly the
    findings of its key that were inserted, once for each identifier: its members
    and evidence are theirs, its severity and confidence the greatest of theirs, it
    is validated exactly when one of them is, and its canonical finding is the one
    with the least identifier; each finding is indexed under its cluster. *)
Theorem clusters_summarise_findings {S : Sha256Lib} {SL : Sha256Laws} {JC : JsonLib ClusterMaterial}
    (findings : list FindingEnvelope) :
  exists d, dedup_all findings dedup_default = Done d
    /\ dedup_ok (merged_findings findings []) d.
Proof. apply dedup_all_spec, dedup_default_ok. Qed.

Definition sample_findings : list FindingEnvelope :=
  [sample_envelope "finding-2" false SevLow; sample_envelope "finding-1" true SevMedium;
   sample_envelope "finding-2" true SevHigh].

Lemma clusters_summarise_findings_witness :
  match @dedup_all toy_sha256 toy_cluster_json sample_findings dedup_default with
  | Done d => size (fd_clusters d) = 1%nat
      /\ @dedup_ok toy_sha256 toy_cluster_json (@merged_findings toy_sha256 toy_cluster_json sample_findings []) d
  | Panic _ => False
  end.
Proof.
  assert (match @dedup_all toy_sha256 toy_cluster_json sample_findings dedup_default with
    | Done d => (size (fd_clusters d) =? 1)%nat | Panic _ => false end = true) as Hb by (vm_compute; reflexivity).
  destruct (@clusters_summarise_findings toy_sha256 toy_sha256_laws toy_cluster_json sample_findings) as (d & Hd & Hok).
  rewrite Hd in Hb |- *. split; [by apply Nat.eqb_eq|exact Hok].
Defined.

(** C37: along every history of calls each finding follows its life cycle: its state
    is reached from the state it was registered in by as many steps as were counted,
    at most four; a reportable finding, or one that was closed without suppression,
    is validated and has evidence, a suppressed one has a reason, and an unvalidated
    one is never reportable; the audit chain verifies. A transition succeeds exactly
    when it is a step of the life cycle with what its target requires, and nothing
    leaves the closed state. *)
Theorem findings_follow_life_cycle {S : Sha256Lib} {SL : Sha256Laws}
    {JA : JsonLib (HashMaterial KnowledgeAuditEvent)} {JT : JsonTotal (HashMaterial KnowledgeAuditEvent)}
    (genesis : str) (g0 : FindingRegistry) (calls : list RegistryCall) :
  registry_new genesis = Ok g0 ->
  let g := registry_calls calls g0 in
  knowledge_audit_verify (fr_audit g) = Ok tt
  /\ map_Forall lifecycle_ok (fr_records g)
  /\ (forall id r, fr_records g !! id = Some r -> fl_transition_count r <= 4
        /\ (fe_validated (fl_finding r) = false -> fl_state r <> Reportable))
  /\ (forall id target reason, is_ok (registry_transition id target reason g).1 = true <->
        exists r, fr_records g !! id = Some r /\ finding_step (fl_state r) target
          /\ (target = Reportable -> fe_validated (fl_finding r) = true /\ fl_evidence_ids r <> ∅
                /\ fl_cleanup_clear r = true)
          /\ (target = Suppressed -> exists text, reason = Some text /\ text <> []))
  /\ (forall id target reason r, fr_records g !! id = Some r -> fl_state r = Closed ->
        registry_transition id target reason g = (Err InvalidFindingTransition, g)).
Proof.
  intros Hn g. assert (registry_ok g) as [Hr Hc] by (by apply registry_calls_ok, (registry_new_ok genesis)).
  split_and!; [by apply knowledge_verify_ok|done| | |].
  - intros id r Hid. specialize (Hr id r Hid). split; [by eapply lifecycle_count|]. intros Hv Hs.
    destruct (lc_reportable _ _ Hr (or_introl Hs)). congruence.
  - intros id target reason. unfold registry_transition. destruct (fr_records g !! id) as [r|]; [|naive_solver].
    transitivity (exists reason', transition_guard r target reason = Ok reason').
    + destruct (transition_guard r target reason) as [reason'|e]; [|naive_solver]. split; [eauto|]. intros _.
      unfold knowledge_audit_append. match goal with |- context [chain_append ?e ?c] =>
        destruct (chain_append_total e c) as (rec & c' & ->) end. done.
    + setoid_rewrite transition_guard_ok. split.
      * intros (reason' & Hst & Hrep & Hsup). exists r. split_and!; try done. intros ->.
        destruct (decide (Suppressed = Suppressed)); [naive_solver|done].
      * intros (r' & [= <-] & Hst & Hrep & Hsup). destruct (decide (target = Suppressed)) as [->|Hne].
        -- destruct (Hsup eq_refl) as (text & -> & Ht). eauto 10.
        -- eauto.
  - intros id target reason r Hid Hcl. unfold registry_transition. rewrite Hid. unfold transition_guard.
    rewrite Hcl. by destruct target.
Qed.

Definition sample_evidence : EvidenceRecord :=
  evidence_record (sample_input "status 403") "evidence-1" (hash_of "1") 10 (hash_of "2").

(** A validated finding becomes reportable; a passive one does not, though its
    state becomes [Validated]. *)
Definition registry_history : list RegistryCall :=
  [RRegister (sample_envelope "finding-1" true SevHigh); RAttach "finding-1" sample_evidence;
   RTransition "finding-1" Reportable None; RClear "finding-1" true; RTransition "finding-1" Reportable None;
   RRegister (sample_envelope "finding-2" false SevHigh); RAttach "finding-2" sample_evidence;
   RClear "finding-2" true; RTransition "finding-2" Validating None; RTransition "finding-2" Validated None;
   RTransition "finding-2" Reportable None].

Definition state_in (id : str) (g : FindingRegistry) : option FindingState := fl_state <$> fr_records g !! id.

Lemma findings_follow_life_cycle_witness :
  match registry_new (hash_of "0") with
  | Ok g0 =>
      let g := @registry_calls toy_sha256 toy_knowledge_json registry_history g0 in
      state_in "finding-1" g = Some Reportable /\ state_in "finding-2" g = Some Validated
      /\ map_Forall lifecycle_ok (fr_records g)
  | Err _ => False
  end.
Proof.
  assert (match registry_new (hash_of "0") with
    | Ok g0 => let g := @registry_calls toy_sha256 toy_knowledge_json registry_history g0 in
        bool_decide (state_in "finding-1" g = Some Reportable) && bool_decide (state_in "finding-2" g = Some Validated)
    | Err _ => false end = true) as Hb by (vm_compute; reflexivity).
  destruct (registry_new (hash_of "0")) as [g0|] eqn:E; [|discriminate Hb].
  destruct (@findings_follow_life_cycle toy_sha256 toy_sha256_laws toy_knowledge_json toy_knowledge_total
    _ g0 registry_history E) as (_ & Hr & _).
  apply andb_true_iff in Hb as [H1 H2]. apply bool_decide_eq_true in H1, H2. by split_and!.
Defined.

(** A report holds exactly the reportable findings. Building a report from at
    most [MAX_REPORT_FINDINGS] added records never panics; every finding of the
    document comes from an added record that is reportable, validated, cleaned up,
    backed by evidence, of the report's policy and free of secret-like text, every
    such record is in the document under its identifier, the findings are ordered by
    distinct identifiers, and the hashes are those of the rendered texts, which are
    within the size limit. *)
Theorem report_holds_reportable_findings {S : Sha256Lib} {SL : Sha256Laws}
    {JR : JsonLib ReportMaterial} {PD : PrettyJsonLib ReportDocument} (name policy : str) (at_seconds : Z)
    (b0 : ReportBuilder) (records : list FindingLifecycleRecord) (manifest tail : str) :
  report_builder_new name policy at_seconds = Ok b0 -> len records <= MAX_REPORT_FINDINGS ->
  exists res, report_build manifest tail (add_findings records b0) = Done res
    /\ forall bundle, res = Ok bundle ->
       let findings := rd_findings (rb_document bundle) in
       (forall f, f ∈ findings -> exists r, r ∈ records /\ reportable_as policy r f)
       /\ (forall r f, r ∈ records -> reportable_as policy r f ->
             exists f', f' ∈ findings /\ rf_finding_id f' = rf_finding_id f)
       /\ NoDup (rf_finding_id <$> findings) /\ Sorted ord_le (rf_finding_id <$> findings)
       /\ rb_markdown bundle = render_markdown (rb_document bundle)
       /\ rb_markdown_sha256 bundle = knowledge_hash_bytes (rb_markdown bundle)
       /\ rb_json_sha256 bundle = knowledge_hash_bytes (rb_json bundle)
       /\ len (rb_markdown bundle) <= MAX_REPORT_BYTES /\ len (rb_json bundle) <= MAX_REPORT_BYTES.
Proof.
  intros Hn Hlen.
  assert (builder_ok [] b0 /\ bu_policy_snapshot_sha256 b0 = policy) as [Hb0 Hp0].
  { unfold report_builder_new in Hn. inv_ok Hn. split; [|done]. constructor; simpl; [apply map_Forall_empty|set_solver|done]. }
  destruct (add_findings_ok records [] b0 Hb0) as (Hb & Hp & _); [rewrite len_nil; lia|].
  rewrite app_nil_r in Hb. set (b := add_findings records b0) in *. rewrite Hp0 in Hp.
  unfold report_build.
  destruct (knowledge_validate_sha256 manifest _) as [[]|e]; [|eexists; split; [done|]; done].
  destruct (knowledge_validate_sha256 tail _) as [[]|e]; [|eexists; split; [done|]; done].
  destruct (knowledge_hash _) as [hash|e] eqn:Hh; [|eexists; split; [done|]; done].
  apply knowledge_hash_hex in Hh as Hhex.
  rewrite (str_prefix_sha256 24 hash Hhex) by lia.
  destruct (to_string_pretty _) as [json|e]; [|eexists; split; [done|]; done].
  destruct (_ || _) eqn:Hsz; [eexists; split; [done|]; done|]. bools.
  eexists. split; [done|]. intros bundle [= <-]. simpl.
  assert (map_Forall (fun id f => rf_finding_id f = id) (bu_findings b)) as Hids.
  { eapply map_Forall_impl; [apply Hb|]. naive_solver. }
  rewrite (findings_ids _ Hids). split_and!; try done.
  - intros f (id & Hid)%elem_of_map_values. destruct (bo_sound _ _ Hb _ _ Hid) as (_ & r & Hr & Hf).
    exists r. split; [by apply elem_of_reverse|congruence].
  - intros r f Hr Hf. destruct (bo_complete _ _ Hb r f) as [f' Hf']; [by apply elem_of_reverse|congruence|].
    exists f'. split; [apply elem_of_map_values; eauto|by apply Hids].
  - apply map_keys_NoDup.
  - apply btree_iter_sorted.
Qed.

Definition sample_lifecycle (id : str) (state : FindingState) : FindingLifecycleRecord :=
  {| fl_finding := sample_envelope id true SevHigh; fl_state := state; fl_evidence_ids := {[ ("evidence-1" : str) ]};
     fl_transition_count := 1; fl_cleanup_clear := true; fl_suppression_reason_sha256 := None;
     fl_audit_tail_hash := hash_of "0" |}.

Definition sample_records : list FindingLifecycleRecord :=
  [sample_lifecycle "finding-2" Reportable; sample_lifecycle "finding-3" Validated;
   sample_lifecycle "finding-1" Reportable].

Lemma report_holds_reportable_findings_witness :
  match report_builder_new "program" (hash_of "b") 1 with
  | Ok b0 =>
      match @report_build toy_sha256 toy_report_json toy_document_json (hash_of "a") (hash_of "0")
        (add_findings sample_records b0) with
      | Done (Ok bundle) =>
          rf_finding_id <$> rd_findings (rb_document bundle) = [("finding-1" : str); ("finding-2" : str)]
          /\ forall f, f ∈ rd_findings (rb_document bundle) ->
               exists r, r ∈ sample_records /\ reportable_as (hash_of "b") r f
      | _ => False
      end
  | Err _ => False
  end.
Proof.
  assert (match report_builder_new "program" (hash_of "b") 1 with
    | Ok b0 => match @report_build toy_sha256 toy_report_json toy_document_json (hash_of "a") (hash_of "0")
        (add_findings sample_records b0) with
        | Done (Ok bundle) => bool_decide (rf_finding_id <$> rd_findings (rb_document bundle)
            = [("finding-1" : str); ("finding-2" : str)])
        | _ => false end
    | Err _ => false end = true) as Hb by (vm_compute; reflexivity).
  destruct (report_builder_new "program" (hash_of "b") 1) as [b0|] eqn:E; [|discriminate Hb].
  destruct (@report_holds_reportable_findings toy_sha256 toy_sha256_laws toy_report_json toy_document_json _ _ _ b0
    sample_records (hash_of "a") (hash_of "0") E ltac:(vm_compute; discriminate)) as (res & Hr & Hf).
  rewrite Hr in Hb |- *. destruct res as [bundle|]; [|discriminate Hb]. split; [by apply bool_decide_eq_true in Hb|].
  by destruct (Hf bundle eq_refl) as (H1 & _).
Defined.

(** What the root of a manifest is the hash of. *)
Definition manifest_material (m : ExportManifest) : ManifestMaterial :=
  (em_export_id m, em_policy_snapshot_sha256 m, em_entries m).
Definition manifest_texts {JM : JsonLib ManifestMaterial} (m : ExportManifest) : list str :=
  match to_vec (manifest_material m) with Ok bytes => [bytes] | Err _ => [] end.

(** An export manifest is tamper evident. After every history of additions it
    verifies and lists only relative paths without parent components and
    backslashes; any manifest that verifies with the same root has the same
    identifier, policy and entries, unless the texts hashed for the two differ and
    have the same SHA-256 digest or the JSON of the two is the same. *)
Theorem manifest_is_tamper_evident {S : Sha256Lib} {JM : JsonLib ManifestMaterial} {JMT : JsonTotal ManifestMaterial}
    (export_id policy : str) (m0 : ExportManifest) (calls : list ManifestCall) (m' : ExportManifest) :
  manifest_new export_id policy = Ok m0 ->
  let m := add_entries calls m0 in
  manifest_verify m = Ok tt /\ map_Forall safe_entry (em_entries m)
  /\ (manifest_verify m' = Ok tt -> em_root_sha256 m' = em_root_sha256 m ->
      m' = m
      \/ texts_collide (manifest_texts m') (manifest_texts m)
      \/ (manifest_material m' <> manifest_material m
          /\ to_vec (manifest_material m') = to_vec (manifest_material m))).
Proof.
  intros Hn m. assert (manifest_ok m) as Hm by (by apply add_entries_ok, (manifest_new_ok export_id policy)).
  split_and!; [by apply manifest_verify_ok, Hm|apply Hm|].
  rewrite manifest_verify_ok. intros Hv Hroot. pose proof (mo_root _ Hm) as Hmr. rewrite <- Hroot in Hmr.
  unfold manifest_root in Hv, Hmr. apply knowledge_hash_spec in Hv, Hmr. destruct Hv as (x & Hx & Ex), Hmr as (y & Hy & Ey).
  destruct (decide (x = y)) as [<-|Hne].
  2: { right. left. exists x, y. unfold manifest_texts, manifest_material. rewrite Hx, Hy.
    split_and!; [by left..|done|]. apply (inj to_lower_hex). unfold knowledge_hash_bytes in *. congruence. }
  assert (to_vec (manifest_material m') = to_vec (manifest_material m)) as Hsame
    by (unfold manifest_material; congruence).
  destruct (decide (manifest_material m' = manifest_material m)) as [He|]; [|by right; right]. left.
  unfold manifest_material in He. destruct m', m. cbn in *. simplify_eq. done.
Qed.

Definition sample_entries : list ManifestCall :=
  [{| mc_path := "report.md"; mc_class := "report"; mc_content := hash_of "1"; mc_bytes := 10 |};
   {| mc_path := "../etc"; mc_class := "report"; mc_content := hash_of "1"; mc_bytes := 10 |};
   {| mc_path := "evidence/1.json"; mc_class := "evidence"; mc_content := hash_of "2"; mc_bytes := 20 |}].

Lemma manifest_is_tamper_evident_witness :
  match @manifest_new toy_sha256 toy_manifest_json "export-1" (hash_of "b") with
  | Ok m0 =>
      let m := @add_entries toy_sha256 toy_manifest_json sample_entries m0 in
      size (em_entries m) = 2%nat /\ @manifest_verify toy_sha256 toy_manifest_json m = Ok tt
      /\ map_Forall safe_entry (em_entries m)
  | Err _ => False
  end.
Proof.
  assert (match @manifest_new toy_sha256 toy_manifest_json "export-1" (hash_of "b") with
    | Ok m0 => (size (em_entries (@add_entries toy_sha256 toy_manifest_json sample_entries m0)) =? 2)%nat
    | Err _ => false end = true) as Hb by (vm_compute; reflexivity).
  destruct (@manifest_new toy_sha256 toy_manifest_json "export-1" (hash_of "b")) as [m0|] eqn:E; [|discriminate Hb].
  destruct (@manifest_is_tamper_evident toy_sha256 toy_manifest_json toy_manifest_total _ _ m0 sample_entries m0 E)
    as (H1 & H2 & _).
  split; [by apply Nat.eqb_eq|]. exact (conj H1 H2).
Defined.

(** ** What the renderer does not escape *)

Definition plain_finding (id title origin summary : str) : ReportFinding :=
  {| rf_finding_id := id; rf_rule_id := "rule-1"; rf_title := title; rf_severity := SevLow;
     rf_confidence := CfHigh; rf_origin := origin; rf_endpoint_sha256 := hash_of "e"; rf_summary := summary;
     rf_evidence_ids := {[ ("evidence-1" : str) ]} |}.

(** An origin that closes its code span and goes on with the rest of its finding
    and the head of the next one. *)
Definition forged_origin : str :=
  ("https://a.example:443`" : str) ++ LF ++ ("- Endpoint SHA-256: `" : str) ++ hash_of "e" ++ ("`" : str) ++ LF
  ++ LF ++ ("### Summary" : str) ++ LF ++ LF ++ ("First." : str) ++ LF ++ LF
  ++ ("### Evidence references" : str) ++ LF ++ LF ++ ("- `evidence-1`" : str) ++ LF ++ LF
  ++ ("## 2. Forged" : str) ++ LF ++ LF ++ ("- Finding: `finding-2`" : str) ++ LF ++ ("- Rule: `rule-1`" : str) ++ LF
  ++ ("- Severity: `Low`" : str) ++ LF ++ ("- Confidence: `High`" : str) ++ LF
  ++ ("- Origin: `https://b.example:443" : str).

(** One finding with an accepted origin renders as two. *)
Example origin_forges_a_finding :
  is_ok (validate_finding_fields "finding-1" "rule-1" forged_origin (hash_of "e") (hash_of "f") "Second.")
  && bool_decide
    (render_findings 0 [plain_finding "finding-1" "Real" forged_origin "Second."]
     = render_findings 0 [plain_finding "finding-1" "Real" "https://a.example:443" "First.";
                          plain_finding "finding-2" "Forged" "https://b.example:443" "Second."]) = true.
Proof. vm_compute. reflexivity. Qed.

(** A finding of a passive analyzer reaches the state [Validated] without validation. *)
Example passive_finding_is_called_validated :
  match registry_new (hash_of "0") with
  | Ok g0 =>
      let g := @registry_calls toy_sha256 toy_knowledge_json
        [RRegister (sample_envelope "finding-2" false SevHigh); RTransition "finding-2" Validating None;
         RTransition "finding-2" Validated None] g0 in
      bool_decide (state_in "finding-2" g = Some Validated)
  | Err _ => false
  end = true.
Proof. vm_compute. reflexivity. Qed.
