(* ===== verification/LocalExecutor.v ===== *)
(** * The local execution pipeline ([crates/nxb-local-executor])

    Joins the pinned transport coordinator and the permit executor: a connection
    ticket is consumed, the permit it yields is executed, and the request slot
    the ticket held is given back whatever the execution returns. *)

From S2P Require Import Prelude ByteStr IpAddr Float64 Url Policy HashChain AuditTrail Gateway Transport PinnedTransport Executor.
Local Open Scope N_scope.

(** ** Model *)

Record LocalExecutionResult : Type := {
  lr_ticket_use : TicketUseResult;
  lr_execution_receipt : option ExecutionReceipt;
  lr_transport_audit_anchor : str
}.

Record LocalExecutionPipeline (B : Type) : Type := {
  lp_transport : PinnedTransportCoordinator;
  lp_executor : PermitExecutor B
}.
Arguments Build_LocalExecutionPipeline {B} _ _.
Arguments lp_transport {B} _.
Arguments lp_executor {B} _.

Inductive LocalExecutionError : Type :=
  | LocalTransport (error : PinnedTransportError)
  | LocalExecutor (error : ExecutorError)
  | ConsumedTicketMissingPermit.

#[export] Instance binding_field_eq_dec : EqDecision BindingField.
Proof. solve_decision. Defined.
#[export] Instance ticket_use_outcome_eq_dec : EqDecision TicketUseOutcome.
Proof. solve_decision. Defined.

(** ** Operations *)

Section Pipeline.
Context {U : UrlLib} {S : Sha256Lib} {J : JsonLib (HashMaterial AuditEvent)}
  {JT : JsonLib (HashMaterial TransportAuditEvent)} {JX : JsonLib (HashMaterial ExecutorAuditEvent)}
  {JF : JsonLib FingerprintMaterial} {B : Type} {PB : PermitBackend B}.

Definition local_pipeline_new (transport : PinnedTransportCoordinator) (executor : PermitExecutor B)
    : LocalExecutionPipeline B :=
  {| lp_transport := transport; lp_executor := executor |}.

Definition consume_and_execute (attempt : ConnectionAttempt) (elapsed : Duration)
    (limits : ExecutionLimits) (control : ExecutionControl) (self : LocalExecutionPipeline B)
    : Run (Result LocalExecutionResult LocalExecutionError * LocalExecutionPipeline B) :=
  let (used, transport) := consume_connection_ticket attempt elapsed (lp_transport self) in
  let self := {| lp_transport := transport; lp_executor := lp_executor self |} in
  match used with
  | Err error => Done (Err (LocalTransport error), self)
  | Ok ticket_use =>
      let transport_audit_anchor := tail_hash (ta_chain (pc_audit transport)) in
      if bool_decide (use_outcome ticket_use <> UseConsumed) then
        Done (Ok {| lr_ticket_use := ticket_use; lr_execution_receipt := None;
                    lr_transport_audit_anchor := transport_audit_anchor |}, self)
      else
        match use_permit ticket_use with
        | None =>
            Done (Err ConsumedTicketMissingPermit,
                  {| lp_transport := coordinator_complete_request transport;
                     lp_executor := lp_executor self |})
        | Some permit =>
            let! (execution, executor) :=
              execute permit transport_audit_anchor limits control (lp_executor self) in
            let self := {| lp_transport := coordinator_complete_request transport;
                           lp_executor := executor |} in
            match execution with
            | Err error => Done (Err (LocalExecutor error), self)
            | Ok execution_receipt =>
                Done (Ok {| lr_ticket_use := ticket_use;
                            lr_execution_receipt := Some execution_receipt;
                            lr_transport_audit_anchor := transport_audit_anchor |}, self)
            end
        end
  end.

(** The calls a holder of the pipeline makes: requests are authorised and
    contexts released through [transport_mut], tickets are used by the pipeline. *)
Inductive pipeline_step : LocalExecutionPipeline B -> LocalExecutionPipeline B -> Prop :=
  | pstep_authorize intent ip elapsed p r c :
      authorize_connection intent ip elapsed (lp_transport p) = Done (r, c) ->
      pipeline_step p {| lp_transport := c; lp_executor := lp_executor p |}
  | pstep_release ctx p :
      pipeline_step p {| lp_transport := (release_coordinator_context ctx (lp_transport p)).2;
                         lp_executor := lp_executor p |}
  | pstep_execute attempt elapsed limits control p r p' :
      consume_and_execute attempt elapsed limits control p = Done (r, p') -> pipeline_step p p'.

Inductive pipeline_reaches : LocalExecutionPipeline B -> LocalExecutionPipeline B -> Prop :=
  | preach_refl p : pipeline_reaches p p
  | preach_step p p1 p2 : pipeline_step p p1 -> pipeline_reaches p1 p2 -> pipeline_reaches p p2.

(** ** Using a ticket *)

(** A use is reported as consumed exactly when it carries a permit. *)
Lemma consume_permit_iff x now a r a' :
  consume x now a = (r, a') -> use_outcome r = UseConsumed <-> is_Some (use_permit r).
Proof.
  unfold consume. intros H. repeat step_in H; simplify_eq; cbn; split; try done; try (by intros [? ?]).
Qed.

Lemma consume_attempt x now a r a' : consume x now a = (r, a') -> use_attempt r = x.
Proof. unfold consume. intros H. repeat step_in H; by simplify_eq. Qed.

(** A use that was audited: the tail of the audit is the hash of its record. *)
Lemma consume_connection_audited x elapsed c r c' :
  consume_connection_ticket x elapsed c = (Ok r, c') ->
  (use_outcome r = UseConsumed <-> is_Some (use_permit r))
  /\ exists rec, rec ∈ records (ta_chain (pc_audit c'))
       /\ tail_hash (ta_chain (pc_audit c')) = record_hash rec /\ record_sound rec
       /\ te_action (event rec) = ("consume" : str)
       /\ te_status (event rec) = use_outcome_code (use_outcome r)
       /\ te_ticket_id (event rec) = Some (at_ticket_id x).
Proof.
  unfold consume_connection_ticket, append_event, transport_audit_append, allocate_event_id.
  destruct (consume x _ (pc_tickets c)) as [ur tk] eqn:Ec.
  destruct (chain_append _ _) as [ar ch] eqn:Ea. destruct ar as [rec|]; [|done]. intros [= <- <-].
  split; [by eapply consume_permit_iff|]. exists rec.
  apply chain_append_spec in Ea as (Hr & He & _ & _ & Htl & Hs & _). cbn in *.
  apply consume_attempt in Ec. rewrite He. cbn. rewrite Ec.
  destruct (use_releases_slot _); cbn; rewrite Hr; split_and!; auto; set_solver.
Qed.

(** The permit of an audited use passes the executor's checks. *)
Lemma consume_connection_permit `{!Sha256Laws} x elapsed c r c' p :
  coordinator_ok c -> consume_connection_ticket x elapsed c = (Ok r, c') -> use_permit r = Some p ->
  validate_permit p = Ok tt /\ permit_authorized (pc_gateway c) p /\ pm_ticket_id p = at_ticket_id x.
Proof.
  intros Hok Hz Hp.
  pose proof (coordinator_step_permit _ _ _ p Hok (cstep_consume _ _ _ _ _ Hz) Hp) as Hauth.
  unfold consume_connection_ticket in Hz. destruct (consume x _ (pc_tickets c)) as [ur tk] eqn:Ec.
  destruct (append_event _ _) as [ar c1]. destruct ar; [|by simplify_eq]. injection Hz as <- _.
  apply consume_inv in Ec as [_ [(_ & Hn & _)|(t & El & _ & Ht)]]; [congruence|].
  apply Ht in Hp as (-> & _). destruct (ao_tickets _ (co_authority c Hok) _ _ El) as (Hid & Htk & Hv).
  cbn in *. split_and!; auto. apply ticket_permit_valid; [done|]. by rewrite Hid.
Qed.

(** ** Invariant *)

Record pipeline_ok (p : LocalExecutionPipeline B) : Prop := {
  po_transport : coordinator_ok (lp_transport p);
  po_executor : executor_ok (lp_executor p)
}.

Lemma consume_and_execute_ok x elapsed limits control p r p' :
  pipeline_ok p -> consume_and_execute x elapsed limits control p = Done (r, p') -> pipeline_ok p'.
Proof.
  intros [Ht Hx] H. unfold consume_and_execute in H.
  destruct (consume_connection_ticket _ _ _) as [used c] eqn:Ec.
  pose proof (coordinator_step_ok _ _ _ Ht (cstep_consume _ _ _ _ _ Ec)) as Hc.
  pose proof (coordinator_step_ok _ _ _ Hc (cstep_complete c)) as Hc'.
  destruct used as [u|e]; [|simplify_eq; by constructor].
  cbn in H. destruct (bool_decide _); [simplify_eq; by constructor|].
  destruct (use_permit u) as [pm|]; [|simplify_eq; by constructor].
  destruct (execute _ _ _ _ _) as [[ex x']|] eqn:Ee; [|done].
  pose proof (execute_ok _ _ _ _ _ _ _ Hx Ee). cbn in H.
  destruct ex; simplify_eq; by constructor.
Qed.

Lemma pipeline_step_ok p p' : pipeline_ok p -> pipeline_step p p' -> pipeline_ok p'.
Proof.
  intros Hok Hs. destruct Hs as [intent ip elapsed p r c Hz|ctx p|x elapsed limits control p r p' H].
  - destruct Hok. constructor; cbn; [|done]. by eapply authorize_connection_ok.
  - destruct Hok as [Ht Hx]. constructor; [|done]. exact (coordinator_step_ok _ _ _ Ht (cstep_release ctx _)).
  - by eapply consume_and_execute_ok.
Qed.

(** ** Request slots *)

Context `{!UrlLaws U} `{!JsonTotal (HashMaterial AuditEvent)}
  `{!JsonTotal (HashMaterial TransportAuditEvent)}.

(** A call of the pipeline gives back the slot it takes over from the ticket. *)
Lemma consume_and_execute_slots x elapsed limits control p r p' open :
  pipeline_ok p -> next_ticket_id (pc_tickets (lp_transport p)) < u64_max ->
  consume_and_execute x elapsed limits control p = Done (r, p') ->
  slots_balanced (lp_transport p) open ->
  slots_balanced (lp_transport p') open
  /\ next_ticket_id (pc_tickets (lp_transport p')) = next_ticket_id (pc_tickets (lp_transport p)).
Proof.
  intros [Ht _] Hlt H Hb. unfold consume_and_execute in H.
  destruct (consume_connection_ticket _ _ _) as [used c] eqn:Ec.
  pose proof (coordinator_step_slots _ _ _ _ Ht Hlt (cstep_consume _ _ _ _ _ Ec) I Hb) as Hb1.
  assert (next_ticket_id (pc_tickets c) = next_ticket_id (pc_tickets (lp_transport p))) as Hnx.
  { unfold consume_connection_ticket in Ec. destruct (consume _ _ _) as [ur tk] eqn:Eu.
    destruct (append_event _ _) as [ar c1] eqn:Ea. apply append_event_spec in Ea as (_ & Et & _).
    apply consume_inv in Eu as [Hn _]. cbn in *.
    destruct ar; [destruct (use_releases_slot _)|]; simplify_eq; cbn; congruence. }
  destruct used as [u|e]; [|simplify_eq; by split].
  apply consume_connection_audited in Ec as [Hiff _]. cbn in *.
  destruct (bool_decide _) eqn:Eo; bools; [simplify_eq; cbn; split; [|done]|].
  { destruct (use_permit u); [|done]. exfalso. apply Eo, Hiff. eauto. }
  destruct (use_permit u) as [pm|]; [|by apply dec_stable, Hiff in Eo as [? ?]].
  assert (slots_balanced (coordinator_complete_request c) open) as Hb2.
  { revert Hb1. unfold slots_balanced, in_flight_requests. cbn. lia. }
  destruct (execute _ _ _ _ _) as [[ex x']|]; [|done]. cbn in H. destruct ex; simplify_eq; by split.
Qed.

Lemma pipeline_step_next p p' :
  pipeline_ok p -> pipeline_step p p' ->
  next_ticket_id (pc_tickets (lp_transport p)) <= next_ticket_id (pc_tickets (lp_transport p')).
Proof.
  intros Hok Hs. destruct Hs as [intent ip elapsed p r c Hz|ctx p|x elapsed limits control p r p' H].
  - apply (coordinator_step_next _ _ _ (po_transport p Hok) (cstep_authorize _ _ _ _ _ _ Hz)).
  - apply (coordinator_step_next _ _ _ (po_transport p Hok) (cstep_release ctx _)).
  - unfold consume_and_execute in H. destruct (consume_connection_ticket _ _ _) as [used c] eqn:Ec.
    pose proof (coordinator_step_next _ _ _ (po_transport p Hok) (cstep_consume _ _ _ _ _ Ec)).
    repeat step_in H; by simplify_eq.
Qed.

Lemma pipeline_step_slots p p' open :
  pipeline_ok p -> next_ticket_id (pc_tickets (lp_transport p)) < u64_max -> pipeline_step p p' ->
  slots_balanced (lp_transport p) open -> slots_balanced (lp_transport p') open.
Proof.
  intros Hok Hlt Hs Hb. destruct Hs as [intent ip elapsed p r c Hz|ctx p|x elapsed limits control p r p' H].
  - by apply (coordinator_step_slots _ _ _ _ (po_transport p Hok) Hlt (cstep_authorize _ _ _ _ _ _ Hz)).
  - by apply (coordinator_step_slots _ _ _ _ (po_transport p Hok) Hlt (cstep_release ctx _)).
  - by eapply consume_and_execute_slots.
Qed.

Lemma pipeline_reaches_next p p' :
  pipeline_reaches p p' -> pipeline_ok p ->
  next_ticket_id (pc_tickets (lp_transport p)) <= next_ticket_id (pc_tickets (lp_transport p')).
Proof.
  induction 1 as [|p p1 p2 Hs Hr IH]; intros Hok; [done|].
  pose proof (pipeline_step_next _ _ Hok Hs). specialize (IH (pipeline_step_ok _ _ Hok Hs)). lia.
Qed.

Lemma pipeline_reaches_slots p p' open :
  pipeline_reaches p p' -> pipeline_ok p -> next_ticket_id (pc_tickets (lp_transport p')) < u64_max ->
  slots_balanced (lp_transport p) open -> pipeline_ok p' /\ slots_balanced (lp_transport p') open.
Proof.
  induction 1 as [|p p1 p2 Hs Hr IH]; intros Hok Hlt Hb; [done|].
  pose proof (pipeline_step_next _ _ Hok Hs). pose proof (pipeline_step_ok _ _ Hok Hs) as Hok1.
  pose proof (pipeline_reaches_next _ _ Hr Hok1). apply IH; auto.
  apply (pipeline_step_slots p); auto. lia.
Qed.

(** ** Complete calls *)

(** With valid limits and an audit hash as anchor an execution returns a receipt. *)
Lemma execute_total `{!JsonTotal (HashMaterial ExecutorAuditEvent)} `{!JsonTotal FingerprintMaterial}
    permit anchor limits control x :
  limits_validate limits = Ok limits -> is_lower_hex_sha256 anchor = true ->
  exists r x', execute permit anchor limits control x = Done (Ok r, x').
Proof.
  intros Hl Ha. unfold execute, endpoint_fingerprint, executor_audit_append. rewrite Hl, Ha. simpl.
  destruct (to_vec_total (fingerprint_material permit anchor)) as [b ->]. simpl.
  destruct (run_permit _ _ _ _) as [[[o rp] st] bk].
  match goal with |- context [chain_append ?e ?c] => destruct (chain_append_total e c) as (rec & c' & ->) end.
  eauto.
Qed.

(** What a receipt says about the permit it was given for. *)
Definition receipt_authorised (p : LocalExecutionPipeline B) (attempt : ConnectionAttempt)
    (use : TicketUseResult) (receipt : ExecutionReceipt) : Prop :=
  exists permit rec,
    use_permit use = Some permit /\ permit_authorized (pc_gateway (lp_transport p)) permit
    /\ pm_ticket_id permit = at_ticket_id attempt
    /\ rc_ticket_id receipt = pm_ticket_id permit /\ rc_decision_id receipt = pm_decision_id permit
    /\ (forall reason, rc_outcome receipt <> PermitIntegrityRejected reason)
    /\ rec ∈ records (ta_chain (pc_audit (lp_transport p)))
    /\ rc_transport_audit_anchor receipt = record_hash rec
    /\ te_status (event rec) = ("consumed" : str)
    /\ te_ticket_id (event rec) = Some (at_ticket_id attempt).

Lemma run_permit_not_rejected permit limits control b o report states b' :
  validate_permit permit = Ok tt -> run_permit permit limits control b = (o, report, states, b') ->
  forall reason, o <> PermitIntegrityRejected reason.
Proof.
  intros Hv [(_ & _ & _ & [(? & ? & _)|[(_ & _ & ->)|(_ & _ & _ & ->)]])|(_ & _ & _ & _ & Ho & _)]%run_permit_cases
    reason; try done; [congruence|].
  symmetry in Ho. apply classify_report_spec in Ho. by intros ->.
Qed.

Lemma consume_and_execute_total `{!Sha256Laws} `{!JsonTotal (HashMaterial ExecutorAuditEvent)}
    `{!JsonTotal FingerprintMaterial} x elapsed limits control p :
  pipeline_ok p -> limits_validate limits = Ok limits ->
  exists r p', consume_and_execute x elapsed limits control p = Done (Ok r, p')
    /\ match lr_execution_receipt r with
       | None => use_outcome (lr_ticket_use r) <> UseConsumed /\ lp_executor p' = lp_executor p
       | Some receipt => receipt_authorised p' x (lr_ticket_use r) receipt
       end.
Proof.
  intros [Ht Hx] Hl. unfold consume_and_execute.
  destruct (consume_connection_ticket x elapsed (lp_transport p)) as [used c] eqn:Ec.
  destruct used as [u|e].
  2: { exfalso. unfold consume_connection_ticket in Ec. destruct (consume _ _ _) as [ur tk].
       match type of Ec with context [append_event ?ev ?c0] =>
         destruct (append_event_total ev c0) as (rec & c1 & Ea) end.
       rewrite Ea in Ec. by destruct (use_releases_slot _). }
  pose proof (coordinator_step_records _ _ _ (cstep_consume _ _ _ _ _ Ec)) as Hgrow.
  pose proof (consume_connection_audited _ _ _ _ _ Ec) as (Hiff & rec & Hin & Htl & Hs & _ & Hst & Hid).
  destruct (bool_decide _) eqn:Eo; bools; cbn; [by do 2 eexists|]. apply dec_stable in Eo.
  destruct (use_permit u) as [pm|] eqn:Ep; [|by apply Hiff in Eo as [? ?]].
  destruct (consume_connection_permit _ _ _ _ _ _ Ht Ec Ep) as (Hv & (Hpub & drec & Hd & Hdi) & Hpt).
  destruct (execute_total pm (tail_hash (ta_chain (pc_audit c))) limits control (lp_executor p) Hl)
    as (rc & x' & He); [rewrite Htl; by apply record_sound_hex|].
  rewrite He. cbn. do 2 eexists. split; [done|]. cbn. exists pm, rec.
  pose proof (execute_receipt_fields _ _ _ _ _ _ _ He) as (_ & _ & Hrt & Hrd & _ & _ & Hra & _).
  apply execute_inv in He as (_ & _ & report & states & Hrun & _).
  pose proof (run_permit_not_rejected _ _ _ _ _ _ _ _ Hv Hrun).
  split_and!; auto; [split; [done|]; exists drec; split; [by apply Hgrow|done]|congruence|].
  by rewrite Hst, Eo.
Qed.

End Pipeline.

(** ** Properties *)

Section Properties.
Context {U : UrlLib} {S : Sha256Lib} {J : JsonLib (HashMaterial AuditEvent)}
  {JT : JsonLib (HashMaterial TransportAuditEvent)} {JX : JsonLib (HashMaterial ExecutorAuditEvent)}
  {JF : JsonLib FingerprintMaterial} {B : Type} {PB : PermitBackend B}.
Context `{!UrlLaws U} `{!Sha256Laws} `{!JsonTotal (HashMaterial AuditEvent)}
  `{!JsonTotal (HashMaterial TransportAuditEvent)} `{!JsonTotal (HashMaterial ExecutorAuditEvent)}
  `{!JsonTotal FingerprintMaterial}.

(** C3: the composed pipeline never leaks a request slot and executes only
    authorised requests. After any sequence of authorisations, context releases
    and pipeline calls (failed ones included) the requests in flight are exactly
    the outstanding tickets and both audit chains verify. From there a call with
    valid limits always returns; either the ticket was refused, which leaves the
    executor untouched, or the receipt is for the permit of this ticket, which
    leads back to a recorded [Allow] for a public address, is never rejected by
    the executor, and is anchored at the audit record of this very use. *)
Theorem local_pipeline_is_authorised_and_leak_free policy depth g id (b : B) x p :
  gateway_new policy depth = Ok g -> executor_new id b = Ok x ->
  pipeline_reaches (local_pipeline_new (coordinator_new g) x) p ->
  next_ticket_id (pc_tickets (lp_transport p)) < u64_max ->
  in_flight_requests (pc_gateway (lp_transport p))
    = N.of_nat (issued_count (pc_tickets (lp_transport p)))
  /\ transport_audit_verify (pc_audit (lp_transport p)) = Ok tt
  /\ executor_audit_verify (executor_audit (lp_executor p)) = Ok tt
  /\ forall attempt elapsed limits control, limits_validate limits = Ok limits ->
       exists r p', consume_and_execute attempt elapsed limits control p = Done (Ok r, p')
         /\ in_flight_requests (pc_gateway (lp_transport p'))
              = N.of_nat (issued_count (pc_tickets (lp_transport p')))
         /\ match lr_execution_receipt r with
            | None => use_outcome (lr_ticket_use r) <> UseConsumed /\ lp_executor p' = lp_executor p
            | Some receipt => receipt_authorised p' attempt (lr_ticket_use r) receipt
            end.
Proof.
  intros Hg Hx Hr Hlt. apply gateway_new_ok in Hg as (Hg & _ & _ & _ & _ & Hi).
  apply coordinator_new_ok in Hg. apply executor_new_ok in Hx.
  assert (slots_balanced (coordinator_new g) 0) as Hs.
  { unfold slots_balanced, in_flight_requests. cbn. by rewrite Hi. }
  destruct (pipeline_reaches_slots _ _ 0 Hr (Build_pipeline_ok (local_pipeline_new _ _) Hg Hx) Hlt Hs) as [Hok Hb].
  pose proof Hb as Hb0. unfold slots_balanced in Hb0. rewrite N.add_0_r in Hb0.
  pose proof Hok as [[_ _ Hta _] [Hxa _ _]].
  split_and!; [done|by apply chain_verify_spec|by apply chain_verify_spec|].
  intros attempt elapsed limits control Hl.
  destruct (consume_and_execute_total attempt elapsed limits control p Hok Hl) as (r & p' & He & Hm).
  exists r, p'. split_and!; auto.
  destruct (consume_and_execute_slots _ _ _ _ _ _ _ 0 Hok Hlt He Hb) as [Hb' _].
  unfold slots_balanced in Hb'. by rewrite N.add_0_r in Hb'.
Qed.

End Properties.

(** ** Witnesses *)

Definition pipeline0 : LocalExecutionPipeline SyntheticBackend :=
  local_pipeline_new coordinator0 example_executor.
Definition pipeline1 : LocalExecutionPipeline SyntheticBackend :=
  local_pipeline_new coordinator1 example_executor.

Definition example_local_execute (limits : ExecutionLimits) (p : LocalExecutionPipeline SyntheticBackend)
    : Run (Result LocalExecutionResult LocalExecutionError * LocalExecutionPipeline SyntheticBackend) :=
  consume_and_execute (S := toy_sha256) (JT := toy_transport_json) (JX := toy_executor_json)
    (JF := toy_fingerprint_json) connect_attempt 1000000 limits no_control p.

Lemma pipeline1_reached :
  pipeline_reaches (U := plain_url) (S := toy_sha256) (J := toy_audit_json) (JT := toy_transport_json)
    (JX := toy_executor_json) (JF := toy_fingerprint_json) pipeline0 pipeline1.
Proof.
  apply (preach_step _ pipeline1); [|apply preach_refl].
  exact (pstep_authorize _ _ _ pipeline0 _ _ example_connected).
Qed.

(** The execution of the example ticket completes; with unusable limits it fails,
    and the slot of the ticket is given back all the same. *)
Lemma example_local_completed :
  match example_local_execute conservative_default pipeline1 with
  | Done (Ok r, p) => option_map rc_outcome (lr_execution_receipt r) = Some ExecCompleted
                      /\ in_flight_requests (pc_gateway (lp_transport p)) = 0
  | _ => False
  end.
Proof. vm_compute. auto. Qed.

Lemma example_local_failed :
  match example_local_execute {| connect_timeout_milliseconds := 0; total_timeout_milliseconds := 15000;
                                 maximum_read_bytes := 1; maximum_write_bytes := 1 |} pipeline1 with
  | Done (Err (LocalExecutor (InvalidLimits _)), p) =>
      in_flight_requests (pc_gateway (lp_transport pipeline1)) = 1
      /\ in_flight_requests (pc_gateway (lp_transport p)) = 0
  | _ => False
  end.
Proof. vm_compute. auto. Qed.

#[local] Instance toy_fingerprint_json_total : @JsonTotal FingerprintMaterial toy_fingerprint_json.
Proof. constructor. intros m. by eexists. Qed.

Lemma local_pipeline_is_authorised_and_leak_free_witness :
  in_flight_requests (pc_gateway (lp_transport pipeline1)) = 1.
Proof.
  refine (proj1 (@local_pipeline_is_authorised_and_leak_free plain_url toy_sha256 toy_audit_json
    toy_transport_json toy_executor_json toy_fingerprint_json SyntheticBackend synthetic_backend
    plain_url_laws toy_sha256_laws (toy_json_total _) (toy_json_total _) (toy_json_total _)
    toy_fingerprint_json_total example_compiled 3 example_gateway "executor-1"%string
    (backend example_executor) example_executor pipeline1 example_gateway_new eq_refl
    pipeline1_reached eq_refl)).
Defined.
