(* ===== verification/Channel.v ===== *)
(** * Channel contracts ([crates/nxb-channel-contracts])

    One-use authority over an HTTP channel, typed requests with their
    fingerprints, bounded bodies and response envelopes. A channel that may carry
    sensitive headers is built from a stream and a TLS session whose bindings agree. *)

From S2P Require Import Prelude ByteStr BTree HashChain HttpSyntax Stream Tls.
Local Open Scope N_scope.

(** ** Model *)

Definition CHANNEL_AUDIT_GENESIS_HASH : str := replicate 64 "0"%char.
Definition MAX_REQUEST_HEADER_COUNT : N := 128.
Definition MAX_REQUEST_HEADER_BYTES : N := 64 * 1024.
Definition MAX_REQUEST_BODY_BYTES : N := 8 * 1024 * 1024.
Definition MAX_BODY_CHUNKS : N := 4096.
Definition MAX_RESPONSE_HEADER_COUNT : N := 512.
Definition MAX_RESPONSE_HEADER_BYTES : N := 256 * 1024.
Definition MAX_RESPONSE_BODY_BYTES : N := 64 * 1024 * 1024.
Definition MAX_RESPONSE_PREVIEW_BYTES : N := 4096.

Inductive ChannelError : Type :=
  | ChInvalidIdentifier
  | ChInvalidStreamBinding (message : str)
  | ChInvalidTlsBinding (message : str)
  | ChPlainChannelRequiresHttp
  | ChTlsChannelRequiresHttps
  | ChTlsBindingMismatch (field : str)
  | ChInvalidAlpn
  | ChChannelReplay
  | ChInvalidMethod
  | ChInvalidTarget (message : str)
  | ChInvalidHeader (message : str)
  | ChRequestLimit (message : str)
  | ChInvalidBody (message : str)
  | ChSensitiveHeadersRequireTls
  | ChInvalidResponse (message : str)
  | ChAuditSerialization (message : str)
  | ChAuditSequenceMismatch (record_index : N)
  | ChAuditPreviousHashMismatch (record_index : N)
  | ChAuditRecordHashMismatch (record_index : N)
  | ChAuditTailMismatch.

Inductive ChannelKind : Type := PlainHttp | VerifiedTls.

Definition contract_kind_code (self : ChannelKind) : str :=
  match self with PlainHttp => "plain_http" | VerifiedTls => "verified_tls" end.

Definition kind_permits_sensitive_headers (self : ChannelKind) : bool :=
  match self with VerifiedTls => true | PlainHttp => false end.

Record StreamBindingSnapshot : Type := {
  sb_stream_id : str;
  sb_execution_id : str;
  sb_ticket_id : str;
  sb_binding_hash : str;
  sb_stream_audit_anchor : str;
  sb_scheme : str;
  sb_sni : option str;
  sb_http_host : str;
  sb_port : N;
  sb_redirect_depth : N
}.

Record TlsBindingSnapshot : Type := {
  tb_tls_session_id : str;
  tb_stream_id : str;
  tb_execution_id : str;
  tb_ticket_id : str;
  tb_binding_hash : str;
  tb_stream_audit_anchor : str;
  tb_sni : str;
  tb_http_host : str;
  tb_port : N;
  tb_redirect_depth : N;
  tb_alpn : str;
  tb_tls_audit_anchor : str;
  tb_leaf_fingerprint_sha256 : str
}.

Record HttpChannelGrant : Type := {
  cg_channel_id : str;
  cg_kind : ChannelKind;
  cg_stream : StreamBindingSnapshot;
  cg_tls : option TlsBindingSnapshot;
  cg_consumed : bool;
  cg_grant_fingerprint_sha256 : str
}.

Record HttpChannelLease : Type := {
  cl_channel_id : str;
  cl_kind : ChannelKind;
  cl_stream : StreamBindingSnapshot;
  cl_tls_audit_anchor : option str;
  cl_grant_fingerprint_sha256 : str
}.

Inductive HttpMethod : Type := MGet | MHead | MOptions | MPost | MPut | MPatch | MDelete.

#[export] Instance HttpMethod_eq_dec : EqDecision HttpMethod.
Proof. solve_decision. Defined.

Record RequestTarget : Type := { rt_origin_form : str; rt_sha256 : str }.

(** The newtype [HeaderName(String)]. *)
Record HeaderName : Type := { hn_name : str }.
Record RequestHeader : Type := { rh_name : HeaderName; rh_value : str }.

Record MultipartPart : Type := { mp_name : str; mp_content_type : str; mp_body : str }.

Inductive BodySource : Type :=
  | BodyEmpty
  | BodyFixed (bytes : str)
  | BodyChunks (chunks : list str)
  | BodyForm (fields : gmap str str)
  | BodyJson (bytes : str)
  | BodyMultipart (boundary : str) (parts : list MultipartPart).

Record TypedRequestPlan : Type := {
  tp_method : HttpMethod;
  tp_target : RequestTarget;
  tp_headers : list RequestHeader;
  tp_body : BodySource;
  tp_content_type : option str;
  tp_request_fingerprint_sha256 : str
}.

Record RequestReceipt : Type := {
  rr_channel_id : str;
  rr_channel_kind : ChannelKind;
  rr_authority : str;
  rr_method : str;
  rr_target_sha256 : str;
  rr_header_count : N;
  rr_header_bytes : N;
  rr_body_kind : str;
  rr_body_bytes : N;
  rr_body_sha256 : str;
  rr_content_type : option str;
  rr_request_fingerprint_sha256 : str;
  rr_audit_anchor : str
}.

Record ResponseLimits : Type := {
  rl_maximum_header_count : N;
  rl_maximum_header_bytes : N;
  rl_maximum_body_bytes : N;
  rl_maximum_preview_bytes : N
}.

Record ResponseHeaderMetadata : Type := {
  hm_name : str;
  hm_value_bytes : N;
  hm_value_sha256 : str
}.

(** The preview is the newtype [ResponseBodyPreview] over its bytes. *)
Record ResponseEnvelope : Type := {
  re_status : N;
  re_headers : list ResponseHeaderMetadata;
  re_body_bytes : N;
  re_body_sha256 : str;
  re_body_truncated : bool;
  re_content_type : option str;
  re_charset : option str;
  re_redirect_location_sha256 : option str;
  re_set_cookie_count : N;
  re_preview : str;
  re_stream_audit_anchor : str;
  re_tls_audit_anchor : option str;
  re_http_audit_anchor : str
}.

Record ResponseReceipt : Type := {
  rp_status : N;
  rp_header_count : N;
  rp_body_bytes : N;
  rp_body_sha256 : str;
  rp_body_truncated : bool;
  rp_preview_bytes : N;
  rp_preview_sha256 : str;
  rp_content_type : option str;
  rp_charset : option str;
  rp_redirect_location_sha256 : option str;
  rp_set_cookie_count : N;
  rp_stream_audit_anchor : str;
  rp_tls_audit_anchor : option str;
  rp_http_audit_anchor : str
}.

Record ChannelAuditEvent : Type := {
  va_action : str;
  va_channel_id : str;
  va_channel_kind : str;
  va_authority : str;
  va_stream_id : str;
  va_ticket_id : str;
  va_request_fingerprint_sha256 : option str;
  va_response_body_sha256 : option str;
  va_anchor : str;
  va_metadata : gmap str str
}.

(** The tuples that are serialised for hashing. *)
Abbreviation ChannelGrantMaterial := (str * ChannelKind * StreamBindingSnapshot * option str)%type.
Abbreviation HeaderFingerprint := (str * N * str)%type.
Abbreviation RequestMaterial :=
  (str * str * str * list HeaderFingerprint * str * N * str * option str)%type.

(** ** Validation *)

Definition contract_validate_identifier (value : str) : Result unit ChannelError :=
  if bool_decide (value = []) || (160 <? len value) || negb (forallb is_identifier_byte value)
  then Err ChInvalidIdentifier else Ok tt.

Definition contract_validate_sha256 (value name : str) : Result unit ChannelError :=
  if negb (len value =? 64) || negb (forallb (fun c => is_ascii_digit c || in_range 97 102 c) value)
  then Err (ChInvalidStreamBinding (name ++ (" must be lowercase SHA-256" : str))) else Ok tt.

Definition is_ascii_str (value : str) : bool := forallb (in_range 0 127) value.

(** A label of [validate_dns_name] that is refused. *)
Definition invalid_dns_label (label : str) : bool :=
  bool_decide (label = []) || (63 <? len label) || starts_with label ("-" : str)
  || ends_with label ("-" : str)
  || negb (forallb (fun c => is_ascii_alphanumeric c || is_byte 45 c) label).

Definition contract_validate_dns_name (value : str) : Result unit ChannelError :=
  if bool_decide (value = []) || (253 <? len value) || negb (is_ascii_str value)
     || starts_with value ("." : str) || ends_with value ("." : str)
     || (len (split_byte 46 value) <? 2) || existsb invalid_dns_label (split_byte 46 value)
  then Err (ChInvalidTlsBinding "invalid SNI") else Ok tt.

Definition contract_validate_authority (value : str) : Result unit ChannelError :=
  if bool_decide (value = []) || (320 <? len value) || negb (is_ascii_str value)
     || existsb (fun c => is_ascii_control c
                          || existsb (fun n => is_byte n c) [32; 9; 47; 92; 64; 35; 63]) value
  then Err (ChInvalidStreamBinding "invalid HTTP authority") else Ok tt.

Definition stream_binding_from_grant (grant : StreamGrant) (stream_audit_anchor : str)
    : StreamBindingSnapshot :=
  {| sb_stream_id := gr_stream_id grant;
     sb_execution_id := gr_execution_id grant;
     sb_ticket_id := gr_ticket_id grant;
     sb_binding_hash := gr_binding_hash grant;
     sb_stream_audit_anchor := stream_audit_anchor;
     sb_scheme := to_ascii_lowercase (gr_scheme grant);
     sb_sni := option_map to_ascii_lowercase (gr_sni grant);
     sb_http_host := to_ascii_lowercase (gr_http_host grant);
     sb_port := gr_port grant;
     sb_redirect_depth := gr_redirect_depth grant |}.

Definition stream_binding_validate (self : StreamBindingSnapshot) : Result unit ChannelError :=
  let? _ := contract_validate_identifier (sb_stream_id self) in
  let? _ := contract_validate_identifier (sb_execution_id self) in
  let? _ := contract_validate_identifier (sb_ticket_id self) in
  let? _ := contract_validate_sha256 (sb_binding_hash self) "binding_hash" in
  let? _ := contract_validate_sha256 (sb_stream_audit_anchor self) "stream_audit_anchor" in
  if negb (bool_decide (sb_scheme self = ("http" : str)) || bool_decide (sb_scheme self = ("https" : str)))
  then Err (ChInvalidStreamBinding "unsupported scheme") else
  let? _ := contract_validate_authority (sb_http_host self) in
  if sb_port self =? 0 then Err (ChInvalidStreamBinding "port must be non-zero")
  else if bool_decide (sb_scheme self = ("http" : str)) && bool_decide (is_Some (sb_sni self))
  then Err (ChInvalidStreamBinding "HTTP stream must not carry SNI")
  else if bool_decide (sb_scheme self = ("https" : str)) && bool_decide (default [] (sb_sni self) = [])
  then Err (ChInvalidStreamBinding "HTTPS stream requires SNI")
  else Ok tt.

Definition tls_binding_from_grant (grant : TlsSessionGrant) : TlsBindingSnapshot :=
  {| tb_tls_session_id := tg_tls_session_id grant;
     tb_stream_id := tg_stream_id grant;
     tb_execution_id := tg_execution_id grant;
     tb_ticket_id := tg_ticket_id grant;
     tb_binding_hash := tg_binding_hash grant;
     tb_stream_audit_anchor := tg_stream_audit_anchor grant;
     tb_sni := to_ascii_lowercase (tg_sni grant);
     tb_http_host := to_ascii_lowercase (tg_http_host grant);
     tb_port := tg_port grant;
     tb_redirect_depth := tg_redirect_depth grant;
     tb_alpn := tg_alpn grant;
     tb_tls_audit_anchor := tg_tls_audit_anchor grant;
     tb_leaf_fingerprint_sha256 := tg_leaf_fingerprint_sha256 grant |}.

Definition tls_binding_validate (self : TlsBindingSnapshot) : Result unit ChannelError :=
  let? _ := contract_validate_identifier (tb_tls_session_id self) in
  let? _ := contract_validate_identifier (tb_stream_id self) in
  let? _ := contract_validate_identifier (tb_execution_id self) in
  let? _ := contract_validate_identifier (tb_ticket_id self) in
  let? _ := contract_validate_sha256 (tb_binding_hash self) "binding_hash" in
  let? _ := contract_validate_sha256 (tb_stream_audit_anchor self) "stream_audit_anchor" in
  let? _ := contract_validate_sha256 (tb_tls_audit_anchor self) "tls_audit_anchor" in
  let? _ := contract_validate_sha256 (tb_leaf_fingerprint_sha256 self) "leaf_fingerprint" in
  let? _ := contract_validate_dns_name (tb_sni self) in
  let? _ := contract_validate_authority (tb_http_host self) in
  if tb_port self =? 0 then Err (ChInvalidTlsBinding "port must be non-zero")
  else if negb (bool_decide (tb_alpn self = ("http/1.1" : str))) then Err ChInvalidAlpn
  else Ok tt.

Definition tls_binding_checks (stream : StreamBindingSnapshot) (tls : TlsBindingSnapshot)
    : list (bool * str) :=
  [(bool_decide (sb_stream_id stream = tb_stream_id tls), "stream_id" : str);
   (bool_decide (sb_execution_id stream = tb_execution_id tls), "execution_id" : str);
   (bool_decide (sb_ticket_id stream = tb_ticket_id tls), "ticket_id" : str);
   (bool_decide (sb_binding_hash stream = tb_binding_hash tls), "binding_hash" : str);
   (bool_decide (sb_stream_audit_anchor stream = tb_stream_audit_anchor tls), "stream_audit_anchor" : str);
   (bool_decide (sb_sni stream = Some (tb_sni tls)), "sni" : str);
   (bool_decide (sb_http_host stream = tb_http_host tls), "http_host" : str);
   (sb_port stream =? tb_port tls, "port" : str);
   (sb_redirect_depth stream =? tb_redirect_depth tls, "redirect_depth" : str)].

Definition compare_tls_binding (stream : StreamBindingSnapshot) (tls : TlsBindingSnapshot)
    : Result unit ChannelError :=
  match List.find (fun check => negb check.1) (tls_binding_checks stream tls) with
  | Some (_, field) => Err (ChTlsBindingMismatch field)
  | None => if negb (bool_decide (tb_alpn tls = ("http/1.1" : str))) then Err ChInvalidAlpn else Ok tt
  end.

(** ** Methods, targets, headers *)

Definition method_as_str (self : HttpMethod) : str :=
  match self with
  | MGet => "GET" | MHead => "HEAD" | MOptions => "OPTIONS" | MPost => "POST" | MPut => "PUT"
  | MPatch => "PATCH" | MDelete => "DELETE"
  end.

Definition method_parse (value : str) : Result HttpMethod ChannelError :=
  if bool_decide (value = ("GET" : str)) then Ok MGet
  else if bool_decide (value = ("HEAD" : str)) then Ok MHead
  else if bool_decide (value = ("OPTIONS" : str)) then Ok MOptions
  else if bool_decide (value = ("POST" : str)) then Ok MPost
  else if bool_decide (value = ("PUT" : str)) then Ok MPut
  else if bool_decide (value = ("PATCH" : str)) then Ok MPatch
  else if bool_decide (value = ("DELETE" : str)) then Ok MDelete
  else Err ChInvalidMethod.

Definition normally_has_body (self : HttpMethod) : bool :=
  match self with MPost | MPut | MPatch => true | _ => false end.

Definition normalize_path (value : str) : Result str ChannelError :=
  if bool_decide (value = []) || negb (starts_with value ("/" : str)) || starts_with value ("//" : str)
     || contains_byte 35 value || contains_byte 63 value
     || existsb (fun c => is_ascii_control c || is_byte 32 c || is_byte 92 c) value
  then Err (ChInvalidTarget "path must be a clean origin-form path") else Ok value.

(** [format!("{byte:02X}")]. *)
Definition upper_hex_digit (n : N) : byte :=
  if n <? 10 then ascii_of_N (48 + n) else ascii_of_N (55 + n).

Definition is_unreserved (c : byte) : bool :=
  is_ascii_alphanumeric c || is_byte 45 c || is_byte 46 c || is_byte 95 c || is_byte 126 c.

Definition percent_encode_byte (c : byte) : str :=
  if is_unreserved c then [c]
  else ["%"%char; upper_hex_digit (N.shiftr (N_of_ascii c) 4); upper_hex_digit (N.land (N_of_ascii c) 15)].
Definition percent_encode (value : str) : str := flat_map percent_encode_byte value.

Definition encode_pair (pair : str * str) : str :=
  percent_encode pair.1 ++ ("=" : str) ++ percent_encode pair.2.
Definition encode_pairs (pairs : list (str * str)) : str := join ["&"%char] (map encode_pair pairs).

(** The target before it is hashed. *)
Definition target_text (path : str) (query : list (str * str)) : str :=
  let pairs := merge_sort ord_le query in
  if bool_decide (pairs = []) then path else path ++ ("?" : str) ++ encode_pairs pairs.

Definition forbidden_framing_headers : list str :=
  ["host" : str; "content-length" : str; "transfer-encoding" : str; "connection" : str;
   "proxy-connection" : str; "expect" : str; "upgrade" : str; "trailer" : str; "te" : str].

Definition sensitive_headers : list str :=
  ["authorization" : str; "proxy-authorization" : str; "cookie" : str; "x-api-key" : str;
   "x-csrf-token" : str].

Definition header_name_parse (value : str) : Result HeaderName ChannelError :=
  let normalized := to_ascii_lowercase value in
  if bool_decide (normalized = []) || (128 <? len normalized) || negb (forallb is_token_byte normalized)
  then Err (ChInvalidHeader "invalid header name")
  else if bool_decide (normalized ∈ forbidden_framing_headers)
  then Err (ChInvalidHeader "caller cannot set authority or framing headers")
  else Ok {| hn_name := normalized |}.

Definition is_sensitive (self : HeaderName) : bool := bool_decide (hn_name self ∈ sensitive_headers).

Definition request_header_new (name : HeaderName) (value : str) : Result RequestHeader ChannelError :=
  if (8 * 1024 <? len value)
     || existsb (fun c => is_byte 0 c || is_byte 13 c || is_byte 10 c
                          || (in_range 0 31 c && negb (is_byte 9 c))) value
  then Err (ChInvalidHeader "invalid header value")
  else Ok {| rh_name := name; rh_value := value |}.

Definition header_cost (header : RequestHeader) : N := len (hn_name (rh_name header)) + len (rh_value header) + 4.
Definition sum_of {A} (f : A -> N) (l : list A) : N := foldr (fun x total => f x + total) 0 l.

(** ** Bodies *)

Definition validate_boundary (value : str) : Result unit ChannelError :=
  if (len value <? 12) || (70 <? len value)
     || negb (forallb (fun c => is_ascii_alphanumeric c || is_byte 45 c || is_byte 95 c) value)
  then Err (ChInvalidBody "multipart boundary is invalid") else Ok tt.

Definition part_validate (self : MultipartPart) : Result unit ChannelError :=
  if bool_decide (mp_name self = []) || (128 <? len (mp_name self))
     || existsb (fun c => is_byte 13 c || is_byte 10 c || is_byte 34 c || is_byte 0 c) (mp_name self)
  then Err (ChInvalidBody "multipart part name is invalid")
  else if bool_decide (mp_content_type self = []) || (256 <? len (mp_content_type self))
          || negb (is_ascii_str (mp_content_type self))
  then Err (ChInvalidBody "multipart content type is invalid")
  else Ok tt.

Fixpoint parts_validate (parts : list MultipartPart) : Result unit ChannelError :=
  match parts with
  | [] => Ok tt
  | part :: rest => let? _ := part_validate part in parts_validate rest
  end.

Definition body_kind (self : BodySource) : str :=
  match self with
  | BodyEmpty => "empty" | BodyFixed _ => "fixed" | BodyChunks _ => "chunks" | BodyForm _ => "form"
  | BodyJson _ => "json" | BodyMultipart _ _ => "multipart"
  end.

Definition body_total_bytes (self : BodySource) : N :=
  match self with
  | BodyEmpty => 0
  | BodyFixed bytes | BodyJson bytes => len bytes
  | BodyChunks chunks => sum_of len chunks
  | BodyForm fields =>
      sum_of (fun field => len (percent_encode field.1) + len (percent_encode field.2) + 2)
        (map_iter fields)
  | BodyMultipart boundary parts =>
      sum_of (fun part => len (mp_body part) + len (mp_name part) + len (mp_content_type part)
                          + len boundary + 64) parts
  end.

Definition body_validate (self : BodySource) : Result unit ChannelError :=
  if MAX_REQUEST_BODY_BYTES <? body_total_bytes self then Err (ChRequestLimit "body byte limit")
  else match self with
  | BodyChunks chunks =>
      if MAX_BODY_CHUNKS <? len chunks then Err (ChRequestLimit "body chunk limit") else Ok tt
  | BodyJson bytes =>
      match bytes with
      | first :: _ =>
          if is_byte 123 first || is_byte 91 first then Ok tt
          else Err (ChInvalidBody "JSON body must begin with an object or array")
      | [] => Err (ChInvalidBody "JSON body must begin with an object or array")
      end
  | BodyMultipart boundary parts =>
      let? _ := validate_boundary boundary in
      if bool_decide (parts = []) || (256 <? len parts)
      then Err (ChInvalidBody "multipart part count is outside the supported range")
      else parts_validate parts
  | _ => Ok tt
  end.

(** [(value as u64).to_be_bytes()]. *)
Fixpoint be_bytes (width : nat) (value : N) : str :=
  match width with
  | O => []
  | Datatypes.S width => be_bytes width (N.shiftr value 8) ++ [ascii_of_N (N.land value 255)]
  end.

(** The bytes [sha256] of a body feeds to the digest. *)
Definition body_hash_input (self : BodySource) : str :=
  match self with
  | BodyEmpty => []
  | BodyFixed bytes | BodyJson bytes => bytes
  | BodyChunks chunks => flat_map (fun chunk => be_bytes 8 (len chunk) ++ chunk) chunks
  | BodyForm fields => encode_pairs (map_iter fields)
  | BodyMultipart boundary parts =>
      boundary ++ flat_map (fun part => mp_name part ++ mp_content_type part
                                        ++ be_bytes 8 (len (mp_body part)) ++ mp_body part) parts
  end.

(** ** Lossy decoding *)

(** [String::from_utf8_lossy]: every maximal invalid sequence becomes U+FFFD. *)
Definition REPLACEMENT : str := map ascii_of_N [239; 191; 189].
#[global] Arguments REPLACEMENT : simpl never.

Definition second_of_three (a b : byte) : bool :=
  if is_byte 224 a then in_range 160 191 b
  else if is_byte 237 a then in_range 128 159 b
  else is_continuation b.
Definition second_of_four (a b : byte) : bool :=
  if is_byte 240 a then in_range 144 191 b
  else if is_byte 244 a then in_range 128 143 b
  else is_continuation b.

Fixpoint from_utf8_lossy (bytes : str) : str :=
  match bytes with
  | [] => []
  | a :: r1 =>
      if in_range 0 127 a then a :: from_utf8_lossy r1
      else if in_range 194 223 a then
        match r1 with
        | b :: r2 => if is_continuation b then a :: b :: from_utf8_lossy r2
                     else REPLACEMENT ++ from_utf8_lossy r1
        | [] => REPLACEMENT
        end
      else if in_range 224 239 a then
        match r1 with
        | b :: r2 =>
            if second_of_three a b then
              match r2 with
              | c :: r3 => if is_continuation c then a :: b :: c :: from_utf8_lossy r3
                           else REPLACEMENT ++ from_utf8_lossy r2
              | [] => REPLACEMENT
              end
            else REPLACEMENT ++ from_utf8_lossy r1
        | [] => REPLACEMENT
        end
      else if in_range 240 244 a then
        match r1 with
        | b :: r2 =>
            if second_of_four a b then
              match r2 with
              | c :: r3 =>
                  if is_continuation c then
                    match r3 with
                    | d :: r4 => if is_continuation d then a :: b :: c :: d :: from_utf8_lossy r4
                                 else REPLACEMENT ++ from_utf8_lossy r3
                    | [] => REPLACEMENT
                    end
                  else REPLACEMENT ++ from_utf8_lossy r2
              | [] => REPLACEMENT
              end
            else REPLACEMENT ++ from_utf8_lossy r1
        | [] => REPLACEMENT
        end
      else REPLACEMENT ++ from_utf8_lossy r1
  end.

(** ** Grants, requests, responses *)

Section Contracts.
Context {S : Sha256Lib} {JG : JsonLib ChannelGrantMaterial} {JR : JsonLib RequestMaterial}
  {JA : JsonLib (HashMaterial ChannelAuditEvent)}.

Definition contract_hash_bytes (bytes : str) : str := to_lower_hex (sha256 bytes).

(** [hash_serializable]: a failed serialisation hashes the text of its error. *)
Definition contract_hash {A} `{JsonLib A} (value : A) : str :=
  match to_vec value with Ok bytes => contract_hash_bytes bytes | Err error => contract_hash_bytes error end.

Definition grant_build (channel_id : str) (kind : ChannelKind) (stream : StreamBindingSnapshot)
    (tls : option TlsBindingSnapshot) : HttpChannelGrant :=
  {| cg_channel_id := channel_id; cg_kind := kind; cg_stream := stream; cg_tls := tls;
     cg_consumed := false;
     cg_grant_fingerprint_sha256 :=
       contract_hash (channel_id, kind, stream, option_map tb_tls_audit_anchor tls) |}.

Definition grant_plain (channel_id : str) (stream : StreamBindingSnapshot)
    : Result HttpChannelGrant ChannelError :=
  let? _ := contract_validate_identifier channel_id in
  let? _ := stream_binding_validate stream in
  if negb (bool_decide (sb_scheme stream = ("http" : str))) || bool_decide (is_Some (sb_sni stream))
  then Err ChPlainChannelRequiresHttp
  else Ok (grant_build channel_id PlainHttp stream None).

Definition grant_verified_tls (channel_id : str) (stream : StreamBindingSnapshot) (tls : TlsBindingSnapshot)
    : Result HttpChannelGrant ChannelError :=
  let? _ := contract_validate_identifier channel_id in
  let? _ := stream_binding_validate stream in
  let? _ := tls_binding_validate tls in
  if negb (bool_decide (sb_scheme stream = ("https" : str))) then Err ChTlsChannelRequiresHttps else
  let? _ := compare_tls_binding stream tls in
  Ok (grant_build channel_id VerifiedTls stream (Some tls)).

Definition grant_consume (self : HttpChannelGrant) : Result HttpChannelLease ChannelError * HttpChannelGrant :=
  if cg_consumed self then (Err ChChannelReplay, self)
  else
    (Ok {| cl_channel_id := cg_channel_id self;
           cl_kind := cg_kind self;
           cl_stream := cg_stream self;
           cl_tls_audit_anchor := option_map tb_tls_audit_anchor (cg_tls self);
           cl_grant_fingerprint_sha256 := cg_grant_fingerprint_sha256 self |},
     {| cg_channel_id := cg_channel_id self; cg_kind := cg_kind self; cg_stream := cg_stream self;
        cg_tls := cg_tls self; cg_consumed := true;
        cg_grant_fingerprint_sha256 := cg_grant_fingerprint_sha256 self |}).

Definition permits_sensitive_headers (self : HttpChannelLease) : bool :=
  kind_permits_sensitive_headers (cl_kind self).

Definition lease_audit_anchor (self : HttpChannelLease) : str :=
  default (sb_stream_audit_anchor (cl_stream self)) (cl_tls_audit_anchor self).

Definition request_target_new (path : str) (query : list (str * str)) : Result RequestTarget ChannelError :=
  let? path := normalize_path path in
  let target := target_text path query in
  if 16 * 1024 <? len target then Err (ChInvalidTarget "target is too long")
  else Ok {| rt_origin_form := target; rt_sha256 := contract_hash_bytes target |}.

Definition value_sha256 (self : RequestHeader) : str := contract_hash_bytes (rh_value self).
Definition body_sha256 (self : BodySource) : str := contract_hash_bytes (body_hash_input self).

(** The loop over the headers: a repeated name, or a sensitive one without TLS. *)
Fixpoint check_headers (permitted : bool) (seen : list str) (headers : list RequestHeader)
    : Result unit ChannelError :=
  match headers with
  | [] => Ok tt
  | header :: rest =>
      let name := hn_name (rh_name header) in
      if bool_decide (name ∈ seen) then Err (ChInvalidHeader "duplicate caller-controlled header")
      else if is_sensitive (rh_name header) && negb permitted then Err ChSensitiveHeadersRequireTls
      else check_headers permitted (name :: seen) rest
  end.

Definition content_type_invalid (value : str) : bool :=
  bool_decide (value = []) || (256 <? len value) || negb (is_ascii_str value)
  || existsb (fun c => is_byte 13 c || is_byte 10 c || is_byte 0 c) value.

Definition header_fingerprint (header : RequestHeader) : HeaderFingerprint :=
  (hn_name (rh_name header), len (rh_value header), value_sha256 header).

Definition request_material (channel : HttpChannelLease) (method : HttpMethod) (target : RequestTarget)
    (headers : list RequestHeader) (body : BodySource) (content_type : option str) : RequestMaterial :=
  (cl_grant_fingerprint_sha256 channel, method_as_str method, rt_sha256 target,
   map header_fingerprint headers, body_kind body, body_total_bytes body, body_sha256 body, content_type).

Definition request_build (channel : HttpChannelLease) (method : HttpMethod) (target : RequestTarget)
    (headers : list RequestHeader) (body : BodySource) (content_type : option str)
    : Result TypedRequestPlan ChannelError :=
  let? _ := body_validate body in
  if MAX_REQUEST_HEADER_COUNT <? len headers then Err (ChRequestLimit "header count")
  else if MAX_REQUEST_HEADER_BYTES <? sum_of header_cost headers then Err (ChRequestLimit "header bytes")
  else
  let? _ := check_headers (permits_sensitive_headers channel) [] headers in
  if (0 <? body_total_bytes body) && negb (normally_has_body method) && negb (bool_decide (method = MDelete))
  then Err (ChInvalidBody "method does not permit a request body in this contract")
  else if match content_type with Some value => content_type_invalid value | None => false end
  then Err (ChInvalidBody "content type is invalid")
  else
    Ok {| tp_method := method; tp_target := target; tp_headers := headers; tp_body := body;
          tp_content_type := content_type;
          tp_request_fingerprint_sha256 :=
            contract_hash (request_material channel method target headers body content_type) |}.

Definition request_receipt (self : TypedRequestPlan) (channel : HttpChannelLease) : RequestReceipt :=
  {| rr_channel_id := cl_channel_id channel;
     rr_channel_kind := cl_kind channel;
     rr_authority := sb_http_host (cl_stream channel);
     rr_method := method_as_str (tp_method self);
     rr_target_sha256 := rt_sha256 (tp_target self);
     rr_header_count := len (tp_headers self);
     rr_header_bytes := sum_of header_cost (tp_headers self);
     rr_body_kind := body_kind (tp_body self);
     rr_body_bytes := body_total_bytes (tp_body self);
     rr_body_sha256 := body_sha256 (tp_body self);
     rr_content_type := tp_content_type self;
     rr_request_fingerprint_sha256 := tp_request_fingerprint_sha256 self;
     rr_audit_anchor := lease_audit_anchor channel |}.

Definition response_limits_default : ResponseLimits :=
  {| rl_maximum_header_count := 128; rl_maximum_header_bytes := 64 * 1024;
     rl_maximum_body_bytes := 8 * 1024 * 1024; rl_maximum_preview_bytes := 1024 |}.

(** What the loop over the response headers collects. *)
Record CapturedHeaders : Type := {
  ch_header_bytes : N;
  ch_metadata : list ResponseHeaderMetadata;
  ch_content_type : option str;
  ch_charset : option str;
  ch_redirect_location_sha256 : option str;
  ch_set_cookie_count : N
}.

Definition captured_none : CapturedHeaders :=
  {| ch_header_bytes := 0; ch_metadata := []; ch_content_type := None; ch_charset := None;
     ch_redirect_location_sha256 := None; ch_set_cookie_count := 0 |}.

Definition parsed_content_type (value : str) : option str * option str :=
  let parsed := to_ascii_lowercase (trim (from_utf8_lossy value)) in
  let pieces := split_byte 59 parsed in
  (option_map trim (head pieces),
   head (omap (fun part => strip_prefix (trim part) ("charset=" : str)) (tail pieces))).

(** One round of the loop, [limit] being the maximum of the header bytes. *)
Definition capture_header (limit : N) (header : str * str) (acc : CapturedHeaders)
    : Result CapturedHeaders ChannelError :=
  let (name, value) := header in
  let normalized := to_ascii_lowercase name in
  if bool_decide (normalized = []) || negb (forallb is_token_byte normalized)
  then Err (ChInvalidResponse "header name")
  else if existsb (fun c => is_byte 0 c || is_byte 13 c || is_byte 10 c) value
  then Err (ChInvalidResponse "header value")
  else match checked_add (ch_header_bytes acc) (len normalized + len value + 4) with
  | None => Err (ChInvalidResponse "header byte overflow")
  | Some header_bytes =>
      if limit <? header_bytes then Err (ChInvalidResponse "header byte limit")
      else
        let is_type := bool_decide (normalized = ("content-type" : str)) in
        let is_location := bool_decide (normalized = ("location" : str)) in
        let is_cookie := bool_decide (normalized = ("set-cookie" : str)) in
        Ok {| ch_header_bytes := header_bytes;
              ch_metadata := ch_metadata acc
                ++ [{| hm_name := normalized; hm_value_bytes := len value;
                       hm_value_sha256 := contract_hash_bytes value |}];
              ch_content_type := if is_type then (parsed_content_type value).1 else ch_content_type acc;
              ch_charset := if is_type then (parsed_content_type value).2 else ch_charset acc;
              ch_redirect_location_sha256 :=
                if is_location then Some (contract_hash_bytes value) else ch_redirect_location_sha256 acc;
              ch_set_cookie_count :=
                if is_cookie then saturating_add (ch_set_cookie_count acc) 1 else ch_set_cookie_count acc |}
  end.

Fixpoint capture_headers (limit : N) (headers : list (str * str)) (acc : CapturedHeaders)
    : Result CapturedHeaders ChannelError :=
  match headers with
  | [] => Ok acc
  | header :: rest =>
      let? acc := capture_header limit header acc in
      capture_headers limit rest acc
  end.

Definition response_limits_invalid (limits : ResponseLimits) : bool :=
  (rl_maximum_header_count limits =? 0)
  || (MAX_RESPONSE_HEADER_COUNT <? rl_maximum_header_count limits)
  || (rl_maximum_header_bytes limits =? 0)
  || (MAX_RESPONSE_HEADER_BYTES <? rl_maximum_header_bytes limits)
  || (rl_maximum_body_bytes limits =? 0)
  || (MAX_RESPONSE_BODY_BYTES <? rl_maximum_body_bytes limits)
  || (MAX_RESPONSE_PREVIEW_BYTES <? rl_maximum_preview_bytes limits).

Definition response_capture (channel : HttpChannelLease) (status : N) (headers : list (str * str))
    (body : str) (body_truncated : bool) (http_audit_anchor : str) (limits : ResponseLimits)
    : Result ResponseEnvelope ChannelError :=
  if negb ((100 <=? status) && (status <=? 599)) then Err (ChInvalidResponse "status code")
  else if response_limits_invalid limits then Err (ChInvalidResponse "limits")
  else if rl_maximum_body_bytes limits <? len body then Err (ChInvalidResponse "body byte limit")
  else if rl_maximum_header_count limits <? len headers then Err (ChInvalidResponse "header count")
  else
  let? captured := capture_headers (rl_maximum_header_bytes limits) headers captured_none in
  let? _ := contract_validate_sha256 http_audit_anchor "http_audit_anchor" in
  Ok {| re_status := status;
        re_headers := ch_metadata captured;
        re_body_bytes := len body;
        re_body_sha256 := contract_hash_bytes body;
        re_body_truncated := body_truncated;
        re_content_type := ch_content_type captured;
        re_charset := ch_charset captured;
        re_redirect_location_sha256 := ch_redirect_location_sha256 captured;
        re_set_cookie_count := ch_set_cookie_count captured;
        re_preview := take (N.to_nat (N.min (len body) (rl_maximum_preview_bytes limits))) body;
        re_stream_audit_anchor := sb_stream_audit_anchor (cl_stream channel);
        re_tls_audit_anchor := cl_tls_audit_anchor channel;
        re_http_audit_anchor := http_audit_anchor |}.

Definition response_receipt (self : ResponseEnvelope) : ResponseReceipt :=
  {| rp_status := re_status self;
     rp_header_count := len (re_headers self);
     rp_body_bytes := re_body_bytes self;
     rp_body_sha256 := re_body_sha256 self;
     rp_body_truncated := re_body_truncated self;
     rp_preview_bytes := len (re_preview self);
     rp_preview_sha256 := contract_hash_bytes (re_preview self);
     rp_content_type := re_content_type self;
     rp_charset := re_charset self;
     rp_redirect_location_sha256 := re_redirect_location_sha256 self;
     rp_set_cookie_count := re_set_cookie_count self;
     rp_stream_audit_anchor := re_stream_audit_anchor self;
     rp_tls_audit_anchor := re_tls_audit_anchor self;
     rp_http_audit_anchor := re_http_audit_anchor self |}.

(** ** Audit *)

(** The serialisation the audit hashes: the JSON or, if it fails, the error text. *)
Definition json_or_error {A} (lib : JsonLib A) : JsonLib A :=
  {| to_vec a := match to_vec a with Ok bytes => Ok bytes | Err error => Ok error end |}.

Definition contract_audit_new : HashChain ChannelAuditEvent := chain_new CHANNEL_AUDIT_GENESIS_HASH.

(** The genesis hash is the constant above, so [InvalidGenesisHash] does not occur. *)
Definition contract_chain_error (error : ChainError) : ChannelError :=
  match error with
  | Serialization message => ChAuditSerialization message
  | SequenceMismatch i => ChAuditSequenceMismatch i
  | PreviousHashMismatch i => ChAuditPreviousHashMismatch i
  | RecordHashMismatch i => ChAuditRecordHashMismatch i
  | TailHashMismatch | InvalidGenesisHash => ChAuditTailMismatch
  end.

Definition contract_audit_append (event : ChannelAuditEvent) (chain : HashChain ChannelAuditEvent)
    : Result (ChainRecord ChannelAuditEvent) ChannelError * HashChain ChannelAuditEvent :=
  let (result, chain) := chain_append (H0 := json_or_error JA) event chain in
  (map_err contract_chain_error result, chain).

Definition contract_audit_verify (chain : HashChain ChannelAuditEvent) : Result unit ChannelError :=
  map_err contract_chain_error (chain_verify (H0 := json_or_error JA) chain).

End Contracts.
