(* ===== verification/ChannelFacts.v ===== *)
(** * What the channel contracts guarantee

    Targets round-trip and do not depend on the order of the query; requests from the
    checked constructors are bounded, hold no framing header, no text of their head
    ends a line, and sensitive headers go only over TLS; the
    fingerprint of a request identifies it; a response envelope is a faithful
    summary. *)

From S2P Require Import Prelude ByteStr BTree HashChain HttpSyntax Stream Tls Channel.
Local Open Scope N_scope.

(** ** Percent encoding *)

(** The reader of encoded text. *)
Fixpoint percent_decode (s : str) : str :=
  match s with
  | [] => []
  | c :: rest =>
      if is_byte 37 c then
        match rest with
        | h :: l :: rest' => ascii_of_N (16 * hex_value h + hex_value l) :: percent_decode rest'
        | _ => c :: percent_decode rest
        end
      else c :: percent_decode rest
  end.

Lemma percent_decode_byte c s : percent_decode (percent_encode_byte c ++ s) = c :: percent_decode s.
Proof. unfold percent_encode_byte. destruct c as [[] [] [] [] [] [] [] []]; reflexivity. Qed.

Lemma percent_decode_encode s : percent_decode (percent_encode s) = s.
Proof.
  unfold percent_encode. induction s as [|c s IH]; [done|]. cbn [flat_map].
  by rewrite percent_decode_byte, IH.
Qed.

#[export] Instance percent_encode_inj : Inj eq eq percent_encode.
Proof. intros x y H. by rewrite <- (percent_decode_encode x), H, percent_decode_encode. Qed.

(** A byte of encoded text: unreserved or the percent sign. *)
Definition is_encoded_byte (c : byte) : bool := is_unreserved c || is_byte 37 c.

Lemma percent_encode_bytes s : forallb is_encoded_byte (percent_encode s) = true.
Proof.
  unfold percent_encode. induction s as [|c s IH]; [done|]. cbn [flat_map]. rewrite forallb_app, IH, andb_true_r.
  destruct c as [[] [] [] [] [] [] [] []]; reflexivity.
Qed.

Lemma encoded_avoids n s :
  n = 38 \/ n = 61 \/ n = 63 -> forallb is_encoded_byte s = true ->
  forallb (fun c => negb (is_byte n c)) s = true.
Proof.
  intros Hn Hs. rewrite forallb_elem in *. intros c Hc. specialize (Hs c Hc). revert Hs.
  unfold is_encoded_byte, is_unreserved. destruct Hn as [->|[->| ->]]; byte_cases c.
Qed.

(** ** Targets *)

Definition decode_pair (s : str) : str * str :=
  match split_byte 61 s with
  | [name; value] => (percent_decode name, percent_decode value)
  | _ => ([], [])
  end.

(** The reader of a target: the path up to the first question mark and the pairs. *)
Definition decode_target (s : str) : str * list (str * str) :=
  match split_byte 63 s with
  | [path; query] => (path, map decode_pair (split_byte 38 query))
  | _ => (s, [])
  end.

Lemma encode_pair_bytes n p :
  n = 38 \/ n = 63 -> forallb (fun c => negb (is_byte n c)) (encode_pair p) = true.
Proof.
  intros Hn. unfold encode_pair. rewrite !forallb_app.
  assert (forall s, forallb (fun c => negb (is_byte n c)) (percent_encode s) = true) as He
    by (intros s; apply encoded_avoids; [tauto|apply percent_encode_bytes]).
  rewrite (He p.1), (He p.2).
  destruct Hn as [->| ->]; reflexivity.
Qed.

Lemma decode_encode_pair p : decode_pair (encode_pair p) = p.
Proof.
  destruct p as [a b]. unfold decode_pair, encode_pair. cbn [fst snd].
  change (percent_encode a ++ ("=" : str) ++ percent_encode b)
    with (join ["="%char] [percent_encode a; percent_encode b]).
  rewrite split_byte_join; [by rewrite !percent_decode_encode|done|done|].
  repeat constructor; apply encoded_avoids; auto using percent_encode_bytes.
Qed.

Lemma decode_encode_pairs l : l <> [] -> map decode_pair (split_byte 38 (encode_pairs l)) = l.
Proof.
  intros Hl. unfold encode_pairs. rewrite split_byte_join; [|done|by destruct l|].
  - rewrite map_map. rewrite <- (map_id l) at 2. apply map_ext, decode_encode_pair.
  - apply Forall_forall. intros x (p & -> & _)%list_elem_of_fmap. by apply encode_pair_bytes; auto.
Qed.

Lemma encode_pairs_inj l k : l <> [] -> k <> [] -> encode_pairs l = encode_pairs k -> l = k.
Proof. intros Hl Hk H. by rewrite <- (decode_encode_pairs l Hl), H, decode_encode_pairs. Qed.

Lemma existsb_false_forallb {A} (f : A -> bool) l :
  existsb f l = false <-> forallb (fun c => negb (f c)) l = true.
Proof.
  induction l as [|c l IH]; simpl; [done|].
  rewrite orb_false_iff, andb_true_iff, negb_true_iff, IH. done.
Qed.

(** What a clean path is made of. *)
Lemma normalize_path_ok p q :
  normalize_path p = Ok q ->
  q = p /\ starts_with p ("/" : str) = true /\ starts_with p ("//" : str) = false
  /\ forallb (fun c => negb (is_byte 63 c)) p = true
  /\ forallb (fun c => negb (is_ascii_control c || is_byte 32 c || is_byte 92 c || is_byte 35 c)) p = true.
Proof.
  unfold normalize_path, contains_byte. intros H. inv_ok H. bools. rewrite !existsb_false_forallb in *.
  split_and!; auto. rewrite forallb_elem in *. intros c Hc. rewrite negb_orb. apply andb_true_iff. auto.
Qed.

Lemma merge_sort_nil_iff (l : list (str * str)) : merge_sort ord_le l = [] <-> l = [].
Proof.
  split; [|by intros ->]. intros H. apply Permutation_nil_r. rewrite <- H. symmetry. apply merge_sort_Permutation.
Qed.

Lemma decode_target_text path query :
  forallb (fun c => negb (is_byte 63 c)) path = true ->
  decode_target (target_text path query) = (path, merge_sort ord_le query).
Proof.
  intros Hp. unfold decode_target, target_text. case_bool_decide as Hq.
  - rewrite Hq. rewrite <- (app_nil_r path) at 1. by rewrite split_byte_piece.
  - rewrite split_byte_piece by done.
    change (("?" : str) ++ encode_pairs (merge_sort ord_le query))
      with ("?"%char :: encode_pairs (merge_sort ord_le query)).
    cbn [split_byte]. change (is_byte 63 "?"%char) with true. cbn [andb].
    rewrite <- (app_nil_r (encode_pairs _)) at 1. rewrite split_byte_piece.
    + simpl. rewrite !app_nil_r. by rewrite decode_encode_pairs.
    + apply forallb_join; [done|]. rewrite forallb_map. apply forallb_elem. intros x _.
      by apply encode_pair_bytes; auto.
Qed.

#[local] Instance ord_le_trans {A} `{Ord A} : Transitive (ord_le (A := A)).
Proof. intros x y z. apply ord_leb_trans. Qed.
#[local] Instance ord_le_antisymm {A} `{Ord A} : AntiSymm eq (ord_le (A := A)).
Proof. intros x y. apply ord_leb_antisymm. Qed.

(** Sorting does not depend on the order of the list. *)
Lemma sort_pairs_unique (l k : list (str * str)) : l ≡ₚ k -> merge_sort ord_le l = merge_sort ord_le k.
Proof.
  intros Hp. apply (Sorted_unique (ord_le (A := str * str))); [apply Sorted_merge_sort, _..|].
  by rewrite !merge_sort_Permutation.
Qed.

(** ** Bodies *)

Definition be_value (s : str) : N := foldl (fun acc c => acc * 256 + N_of_ascii c) 0 s.

Lemma be_bytes_length w v : length (be_bytes w v) = w.
Proof. revert v. induction w as [|w IH]; intros v; [done|]. simpl. rewrite length_app, IH. simpl. lia. Qed.

Lemma be_value_bytes w v : v < 256 ^ N.of_nat w -> be_value (be_bytes w v) = v.
Proof.
  revert v. induction w as [|w IH]; intros v Hv; [cbn in *; lia|].
  rewrite Nat2N.inj_succ, N.pow_succ_r' in Hv. cbn [be_bytes]. unfold be_value in *.
  rewrite foldl_app. cbn [foldl].
  rewrite IH by (rewrite N.shiftr_div_pow2; apply N.Div0.div_lt_upper_bound; exact Hv).
  change 255 with (N.ones 8). rewrite N.land_ones, N.shiftr_div_pow2.
  rewrite N_ascii_embedding by (apply N.mod_lt; done). rewrite N.mul_comm. symmetry.
  apply (N.Div0.div_mod v (2 ^ 8)).
Qed.

(** A prefix of eight bytes with the length makes a sequence of chunks readable. *)
Lemma chunks_inj (cs ds : list str) :
  Forall (fun c => len c <= u64_max) cs -> Forall (fun c => len c <= u64_max) ds ->
  flat_map (fun c => be_bytes 8 (len c) ++ c) cs = flat_map (fun c => be_bytes 8 (len c) ++ c) ds ->
  cs = ds.
Proof.
  intros Hc. revert ds. induction Hc as [|c cs Hl Hc IH]; intros [|d ds] Hd H; auto.
  1, 2: apply (f_equal length) in H; cbn [flat_map] in H; rewrite !length_app, be_bytes_length in H;
        cbn [length] in H; lia.
  inversion Hd as [|? ? Hld Hd']; subst. cbn [flat_map] in H. rewrite <- !(assoc app) in H.
  apply app_inj_1 in H as [H1 H2]; [|by rewrite !be_bytes_length].
  apply (f_equal be_value) in H1. rewrite !be_value_bytes in H1 by (unfold u64_max in *; cbn; lia).
  apply app_inj_1 in H2 as [-> H2]; [|unfold len in H1; lia]. f_equal. by apply IH.
Qed.

Lemma encode_pairs_nil l : encode_pairs l = [] -> l = [].
Proof.
  destruct l as [|p [|q l]]; [done|..]; intros H; exfalso; revert H;
    unfold encode_pairs, encode_pair; cbn [map join].
  - by intros [_ [? _]%app_eq_nil]%app_eq_nil.
  - by intros [[_ [? _]%app_eq_nil]%app_eq_nil _]%app_eq_nil.
Qed.

Lemma encode_fields_inj (m1 m2 : gmap str str) :
  encode_pairs (map_iter m1) = encode_pairs (map_iter m2) -> m1 = m2.
Proof.
  intros H. assert (map_iter m1 = map_iter m2) as E.
  { destruct (decide (map_iter m1 = [])) as [E1|E1], (decide (map_iter m2 = [])) as [E2|E2].
    - congruence.
    - rewrite E1 in H. symmetry in H. by apply encode_pairs_nil in H.
    - rewrite E2 in H. by apply encode_pairs_nil in H.
    - by apply encode_pairs_inj. }
  apply map_eq. intros k. apply option_eq. intros v. by rewrite <- !elem_of_map_iter, E.
Qed.

Definition is_multipart (b : BodySource) : bool :=
  match b with BodyMultipart _ _ => true | _ => false end.

Lemma sum_of_elem {A} (f : A -> N) l x : x ∈ l -> f x <= sum_of f l.
Proof.
  unfold sum_of. induction 1 as [|y x l _ IH]; simpl; [|unfold sum_of in IH]; lia.
Qed.

Lemma body_validate_bounded b : body_validate b = Ok tt -> body_total_bytes b <= MAX_REQUEST_BODY_BYTES.
Proof. unfold body_validate. intros H. step_in H. by bools. Qed.

(** The kind and the hashed bytes of an accepted body that is not multipart
    determine it. *)
Lemma body_hash_inj b1 b2 :
  body_validate b1 = Ok tt -> body_validate b2 = Ok tt -> is_multipart b1 = false ->
  body_kind b1 = body_kind b2 -> body_hash_input b1 = body_hash_input b2 -> b1 = b2.
Proof.
  intros H1%body_validate_bounded H2%body_validate_bounded Hm Hk Hi.
  destruct b1 as [|x|x|x|x|x y], b2 as [|z|z|z|z|z w]; cbn [is_multipart] in Hm; try discriminate Hm;
    try (by vm_compute in Hk); cbn [body_hash_input] in Hi; try congruence.
  - f_equal. apply chunks_inj; [..|done]; cbn [body_total_bytes] in *; apply Forall_forall; intros c Hc;
      pose proof (sum_of_elem len _ c Hc); unfold MAX_REQUEST_BODY_BYTES, u64_max in *; lia.
  - f_equal. by apply encode_fields_inj.
Qed.

(** ** Fingerprints *)

Section Fingerprints.
Context {S : Sha256Lib} {JR : JsonLib RequestMaterial}.

(** The text that is hashed for a value. *)
Definition json_text {A} `{JsonLib A} (a : A) : str :=
  match to_vec a with Ok bytes => bytes | Err error => error end.

(** What the fingerprint of a plan over a channel is the hash of, and the texts that
    are hashed for it. *)
Definition plan_material (lease : HttpChannelLease) (p : TypedRequestPlan) : RequestMaterial :=
  request_material lease (tp_method p) (tp_target p) (tp_headers p) (tp_body p) (tp_content_type p).
Definition hashed_texts (lease : HttpChannelLease) (p : TypedRequestPlan) : list str :=
  json_text (plan_material lease p) :: rt_origin_form (tp_target p) :: body_hash_input (tp_body p)
  :: map rh_value (tp_headers p).

Lemma contract_hash_bytes_eq x y xs ys :
  contract_hash_bytes x = contract_hash_bytes y -> x ∈ xs -> y ∈ ys -> x = y \/ texts_collide xs ys.
Proof.
  unfold contract_hash_bytes. intros ?%(inj to_lower_hex) Hx Hy. destruct (decide (x = y)); [by left|].
  right. by exists x, y.
Qed.

Lemma contract_hash_text {A} `{JsonLib A} (a : A) : contract_hash a = contract_hash_bytes (json_text a).
Proof. unfold contract_hash, json_text. by destruct (to_vec a). Qed.

Lemma header_fingerprints_eq l k xs ys :
  map header_fingerprint l = map header_fingerprint k -> map rh_value l ⊆ xs -> map rh_value k ⊆ ys ->
  l = k \/ texts_collide xs ys.
Proof.
  revert k. induction l as [|h l IH]; intros [|g k] H Hx Hy; try done; [by left|]. cbn in Hx, Hy.
  injection H as Hn _ Hv Hr. apply (contract_hash_bytes_eq _ _ xs ys) in Hv as [Hv|?]; [|by right|set_solver..].
  destruct (IH _ Hr) as [->|?]; [set_solver..| |by right]. left. f_equal.
  destruct h as [[n] v], g as [[n'] v']. cbn in *. by subst.
Qed.

Lemma method_as_str_inj m m' : method_as_str m = method_as_str m' -> m = m'.
Proof. destruct m, m'; vm_compute; done. Qed.

(** A plan that [build] returned, and what it was checked for. *)
Lemma request_build_ok c m t hs b ct p :
  request_build c m t hs b ct = Ok p ->
  body_validate b = Ok tt /\ len hs <= MAX_REQUEST_HEADER_COUNT
  /\ sum_of header_cost hs <= MAX_REQUEST_HEADER_BYTES
  /\ check_headers (permits_sensitive_headers c) [] hs = Ok tt
  /\ (0 < body_total_bytes b -> normally_has_body m = true \/ m = MDelete)
  /\ (forall v, ct = Some v -> content_type_invalid v = false)
  /\ p = {| tp_method := m; tp_target := t; tp_headers := hs; tp_body := b; tp_content_type := ct;
            tp_request_fingerprint_sha256 := contract_hash (request_material c m t hs b ct) |}.
Proof.
  unfold request_build. intros H. destruct (body_validate b) as [[]|] eqn:Eb; [|done].
  destruct (MAX_REQUEST_HEADER_COUNT <? _) eqn:E1; [done|].
  destruct (MAX_REQUEST_HEADER_BYTES <? _) eqn:E2; [done|].
  destruct (check_headers _ _ _) as [[]|] eqn:E3; [|done].
  destruct ((0 <? body_total_bytes b) && _ && _) eqn:E4; [done|].
  destruct (match ct with Some _ => _ | None => _ end) eqn:E5; [done|]. simplify_eq. bools. split_and!; auto.
  - intros Hpos. apply N.ltb_lt in Hpos. rewrite Hpos in E4. cbn in E4.
    destruct (normally_has_body m); [by left|]. cbn in E4. bools. by right.
  - by intros v ->.
Qed.

Lemma request_target_new_ok path query t :
  request_target_new path query = Ok t ->
  normalize_path path = Ok path /\ len (target_text path query) <= 16 * 1024
  /\ t = {| rt_origin_form := target_text path query;
            rt_sha256 := contract_hash_bytes (target_text path query) |}.
Proof.
  unfold request_target_new. intros H. destruct (normalize_path path) as [q|] eqn:En; [|done].
  apply normalize_path_ok in En as Hn. destruct Hn as [-> _].
  cbn in H. step_in H. simplify_eq. by bools.
Qed.

End Fingerprints.

(** ** Headers *)

(** A header a caller can build: its name came out of [HeaderName::parse] and
    [RequestHeader::new] accepted its value. *)
Definition built_header (h : RequestHeader) : Prop :=
  (exists raw, header_name_parse raw = Ok (rh_name h)) /\ request_header_new (rh_name h) (rh_value h) = Ok h.

Lemma built_header_spec h :
  built_header h ->
  let name := hn_name (rh_name h) in
  0 < len name <= 128 /\ forallb is_token_byte name = true /\ to_ascii_lowercase name = name
  /\ (name ∉ forbidden_framing_headers)
  /\ len (rh_value h) <= 8 * 1024 /\ forallb is_line_byte (rh_value h) = true.
Proof.
  intros [[raw Hp] Hv] name. unfold header_name_parse in Hp. inv_ok Hp. bools.
  unfold request_header_new in Hv. inv_ok Hv. bools. subst name.
  match goal with Hr : {| hn_name := _ |} = _ |- _ => rewrite <- Hr in * end. cbn.
  split_and!; auto.
  - destruct (to_ascii_lowercase raw); [done|]. unfold len. simpl. lia.
  - apply to_ascii_lowercase_idemp.
  - rewrite existsb_false_forallb in *. rewrite forallb_elem in *. intros c Hc.
    match goal with Hf : forall x, x ∈ rh_value h -> _ |- _ => specialize (Hf c Hc); revert Hf end.
    byte_cases c.
Qed.

Lemma check_headers_ok permitted seen hs :
  check_headers permitted seen hs = Ok tt ->
  NoDup (map (fun h => hn_name (rh_name h)) hs)
  /\ Forall (fun h => hn_name (rh_name h) ∉ seen) hs
  /\ Forall (fun h => is_sensitive (rh_name h) = true -> permitted = true) hs.
Proof.
  revert seen. induction hs as [|h hs IH]; intros seen H; [by repeat constructor|].
  cbn [check_headers] in H. step_in H. step_in H. bools. apply IH in H as (Hd & Hs & Hp).
  cbn [map]. split_and!.
  - constructor; [|done]. intros (g & Hg & Hin)%list_elem_of_fmap. rewrite Forall_forall in Hs.
    apply (Hs g Hin). set_solver.
  - constructor; [done|]. eapply Forall_impl; [exact Hs|]. set_solver.
  - constructor; [|done]. destruct (is_sensitive _), permitted; done.
Qed.

(** ** Channels *)

Section Channels.
Context {S : Sha256Lib} {JG : JsonLib ChannelGrantMaterial}.

(** A lease taken from a grant the constructors returned. *)
Definition opened_lease (lease : HttpChannelLease) : Prop :=
  exists id stream grant grant', (grant_plain id stream = Ok grant
    \/ exists tls, grant_verified_tls id stream tls = Ok grant)
    /\ grant_consume grant = (Ok lease, grant').

(** Stream and TLS session describe the same connection. *)
Definition bindings_agree (s : StreamBindingSnapshot) (t : TlsBindingSnapshot) : Prop :=
  sb_stream_id s = tb_stream_id t /\ sb_execution_id s = tb_execution_id t
  /\ sb_ticket_id s = tb_ticket_id t /\ sb_binding_hash s = tb_binding_hash t
  /\ sb_stream_audit_anchor s = tb_stream_audit_anchor t /\ sb_sni s = Some (tb_sni t)
  /\ sb_http_host s = tb_http_host t /\ sb_port s = tb_port t
  /\ sb_redirect_depth s = tb_redirect_depth t /\ tb_alpn t = ("http/1.1" : str).

Lemma compare_tls_binding_ok s t : compare_tls_binding s t = Ok tt <-> bindings_agree s t.
Proof.
  unfold compare_tls_binding, tls_binding_checks, bindings_agree. cbn [List.find fst].
  split.
  - intros H. repeat step_in H. bools. simplify_eq. split_and!; auto.
  - intros (-> & -> & -> & -> & -> & -> & -> & -> & -> & ->).
    rewrite !bool_decide_eq_true_2 by done. by rewrite !N.eqb_refl.
Qed.

(** A lease that permits sensitive headers has an HTTPS stream and a TLS session
    that agrees with it; another one has a plain stream. *)
Lemma opened_lease_cases l :
  opened_lease l ->
  (cl_kind l = PlainHttp /\ sb_scheme (cl_stream l) = ("http" : str) /\ sb_sni (cl_stream l) = None
   /\ cl_tls_audit_anchor l = None)
  \/ (cl_kind l = VerifiedTls /\ sb_scheme (cl_stream l) = ("https" : str)
      /\ exists tls, bindings_agree (cl_stream l) tls /\ tls_binding_validate tls = Ok tt
                     /\ cl_tls_audit_anchor l = Some (tb_tls_audit_anchor tls)).
Proof.
  intros (id & s & g & g' & Hg & Hc). unfold grant_consume in Hc. destruct (cg_consumed g); [done|].
  injection Hc as <- _. cbn. destruct Hg as [Hg|[tls Hg]].
  - left. unfold grant_plain in Hg. inv_ok Hg. bools. destruct (sb_sni s) eqn:E; [|done].
    exfalso. match goal with Hn : ~ is_Some _ |- _ => apply Hn end. eauto.
  - right. unfold grant_verified_tls in Hg. repeat step_in Hg. bools. simplify_eq.
    split_and!; auto. exists tls. repeat match goal with u : () |- _ => destruct u end.
    split_and!; auto. by apply compare_tls_binding_ok.
Qed.

(** A grant is consumed once. *)
Lemma grant_consume_once g l g' :
  grant_consume g = (Ok l, g') -> grant_consume g' = (Err ChChannelReplay, g').
Proof. unfold grant_consume. intros H. step_in H. by simplify_eq. Qed.

End Channels.

(** ** Responses *)

Lemma len_lowercase s : len (to_ascii_lowercase s) = len s.
Proof. unfold len, to_ascii_lowercase. by rewrite length_map. Qed.

Section Responses.
Context {S : Sha256Lib}.

Definition header_metadata (h : str * str) : ResponseHeaderMetadata :=
  {| hm_name := to_ascii_lowercase h.1; hm_value_bytes := len h.2;
     hm_value_sha256 := contract_hash_bytes h.2 |}.

Definition header_named (field : str) (h : str * str) : Prop := to_ascii_lowercase h.1 = field.
#[export] Instance header_named_dec field h : Decision (header_named field h).
Proof. unfold header_named. apply _. Defined.

(** The header bytes, as the limit counts them. *)
Definition response_header_cost (h : str * str) : N := len h.1 + len h.2 + 4.

Lemma capture_header_ok limit h acc out :
  capture_header limit h acc = Ok out ->
  ch_metadata out = ch_metadata acc ++ [header_metadata h]
  /\ ch_header_bytes out = ch_header_bytes acc + response_header_cost h
  /\ ch_header_bytes out <= limit
  /\ (forallb is_token_byte (to_ascii_lowercase h.1) = true /\ forallb is_line_byte h.2 = true)
  /\ ch_set_cookie_count out
     = (if decide (header_named "set-cookie" h) then saturating_add (ch_set_cookie_count acc) 1
        else ch_set_cookie_count acc)
  /\ ch_redirect_location_sha256 out
     = (if decide (header_named "location" h) then Some (contract_hash_bytes h.2)
        else ch_redirect_location_sha256 acc).
Proof.
  destruct h as [name value]. unfold capture_header, header_named. intros H. step_in H. step_in H.
  destruct (checked_add _ _) as [hb|] eqn:Ea; [|done]. apply checked_add_some in Ea as [-> _].
  step_in H. injection H as <-. bools. cbn. rewrite existsb_false_forallb in *.
  split_and!; auto; try (by unfold bool_decide; repeat case_match).
  - unfold response_header_cost. rewrite len_lowercase. cbn. lia.
  - rewrite forallb_elem in *. intros c Hc.
    match goal with Hf : forall x, x ∈ value -> _ |- _ => specialize (Hf c Hc); revert Hf end. byte_cases c.
Qed.

Lemma capture_headers_spec limit hs acc out :
  capture_headers limit hs acc = Ok out -> ch_header_bytes acc <= limit ->
  ch_set_cookie_count acc + len hs <= u64_max ->
  ch_metadata out = ch_metadata acc ++ map header_metadata hs
  /\ ch_header_bytes out = ch_header_bytes acc + sum_of response_header_cost hs
  /\ ch_header_bytes out <= limit
  /\ Forall (fun h => forallb is_token_byte (to_ascii_lowercase h.1) = true
                      /\ forallb is_line_byte h.2 = true) hs
  /\ ch_set_cookie_count out = ch_set_cookie_count acc + len (filter (header_named "set-cookie") hs)
  /\ (ch_redirect_location_sha256 out
      = match last (filter (header_named "location") hs) with
        | Some h => Some (contract_hash_bytes h.2)
        | None => ch_redirect_location_sha256 acc
        end).
Proof.
  revert acc. induction hs as [|h hs IH]; intros acc Hc Hl Hn.
  { cbn in Hc. simplify_eq. rewrite !filter_nil, app_nil_r. unfold sum_of, len. cbn. split_and!; auto; lia. }
  cbn [capture_headers] in Hc. destruct (capture_header _ _ _) as [acc1|] eqn:E1; [|done].
  apply capture_header_ok in E1 as (M1 & B1 & L1 & V1 & C1 & R1). rewrite len_cons in Hn.
  destruct (IH acc1 Hc L1) as (M & B & L & V & C & R).
  { rewrite C1. destruct (decide (header_named "set-cookie" h)); [unfold saturating_add|]; lia. }
  split_and!; [| |done|by constructor|..].
  - rewrite M, M1. by rewrite <- (assoc app).
  - rewrite B, B1. unfold sum_of. simpl. lia.
  - rewrite C, C1, filter_cons. destruct (decide (header_named "set-cookie" h)); [rewrite len_cons|]; [|lia].
    unfold saturating_add. lia.
  - rewrite R, R1, filter_cons. destruct (decide (header_named "location" h)); [|done].
    rewrite last_cons. by destruct (last _).
Qed.

Lemma response_capture_ok channel status hs body truncated anchor limits e :
  response_capture channel status hs body truncated anchor limits = Ok e ->
  exists captured,
    capture_headers (rl_maximum_header_bytes limits) hs captured_none = Ok captured
    /\ 100 <= status <= 599 /\ response_limits_invalid limits = false
    /\ len body <= rl_maximum_body_bytes limits /\ len hs <= rl_maximum_header_count limits
    /\ re_headers e = ch_metadata captured /\ re_body_bytes e = len body
    /\ re_body_sha256 e = contract_hash_bytes body /\ re_status e = status
    /\ re_set_cookie_count e = ch_set_cookie_count captured
    /\ re_redirect_location_sha256 e = ch_redirect_location_sha256 captured
    /\ re_preview e = take (N.to_nat (N.min (len body) (rl_maximum_preview_bytes limits))) body
    /\ re_stream_audit_anchor e = sb_stream_audit_anchor (cl_stream channel)
    /\ re_tls_audit_anchor e = cl_tls_audit_anchor channel.
Proof.
  unfold response_capture. intros H. repeat step_in H. bools. simplify_eq. cbn.
  eexists. split_and!; eauto.
Qed.

End Responses.

(** ** Lossy decoding *)

Lemma replacement_valid s : from_utf8_ok (REPLACEMENT ++ s) = from_utf8_ok s.
Proof. reflexivity. Qed.

(** Lossy decoding always yields UTF-8, and text that is UTF-8 is kept. *)
Lemma from_utf8_lossy_spec n s :
  (length s <= n)%nat ->
  from_utf8_ok (from_utf8_lossy s) = true /\ (from_utf8_ok s = true -> from_utf8_lossy s = s).
Proof.
  revert s. induction n as [|n IH]; intros [|a r1] Hn; cbn [length] in Hn; try done; [lia|].
  assert (forall r, (length r <= length r1)%nat -> from_utf8_ok (from_utf8_lossy r) = true
            /\ (from_utf8_ok r = true -> from_utf8_lossy r = r)) as IH' by (intros r Hr; apply IH; lia).
  clear IH Hn.
  cbn [from_utf8_lossy from_utf8_ok]. destruct (in_range 0 127 a) eqn:E1.
  { destruct (IH' r1) as [V F]; [lia|]. cbn [from_utf8_ok]. rewrite E1. split; [done|]. by intros ->%F. }
  pose proof (IH' r1 ltac:(lia)) as [V1 _].
  destruct r1 as [|b r2].
  { repeat case_match; try done; split; try done; rewrite ?replacement_valid; done. }
  pose proof (IH' r2 ltac:(cbn; lia)) as [V2 F2].
  destruct (in_range 194 223 a) eqn:E2.
  { destruct (is_continuation b) eqn:Eb; [|by rewrite replacement_valid].
    cbn [from_utf8_ok]. rewrite E1, E2, Eb. split; [done|]. by intros ->%F2. }
  destruct r2 as [|c r3].
  { repeat case_match; try done; split; try done; rewrite ?replacement_valid; done. }
  pose proof (IH' r3 ltac:(cbn; lia)) as [V3 F3].
  destruct (in_range 224 239 a) eqn:E3.
  { change (if is_byte 224 a then in_range 160 191 b
            else if is_byte 237 a then in_range 128 159 b else is_continuation b) with (second_of_three a b).
    destruct (second_of_three a b) eqn:Eb; [|by rewrite replacement_valid].
    destruct (is_continuation c) eqn:Ec; [|by rewrite replacement_valid].
    cbn [from_utf8_ok]. rewrite E1, E2, E3. unfold second_of_three in Eb. rewrite Eb, Ec.
    split; [done|]. by intros ->%F3. }
  change (if is_byte 240 a then in_range 144 191 b
          else if is_byte 244 a then in_range 128 143 b else is_continuation b) with (second_of_four a b).
  destruct (in_range 240 244 a) eqn:E4.
  2: { rewrite replacement_valid. split; [done|]. by destruct r3. }
  destruct (second_of_four a b) eqn:Eb.
  2: { rewrite replacement_valid. split; [done|]. by destruct r3. }
  destruct (is_continuation c) eqn:Ec.
  2: { rewrite replacement_valid. split; [done|]. by destruct r3. }
  destruct r3 as [|d r4]; [done|]. pose proof (IH' r4 ltac:(cbn; lia)) as [V4 F4].
  destruct (is_continuation d) eqn:Ed; [|by rewrite replacement_valid].
  cbn [from_utf8_ok]. rewrite E1, E2, E3, E4. unfold second_of_four in Eb. rewrite Eb, Ec, Ed.
  split; [done|]. by intros ->%F4.
Qed.

(** A target has no white space, control bytes, backslashes or fragments. *)
Definition is_target_byte (c : byte) : bool :=
  negb (is_ascii_control c || is_byte 32 c || is_byte 92 c || is_byte 35 c).
Lemma target_text_clean path query :
  forallb is_target_byte path = true -> forallb is_target_byte (target_text path query) = true.
Proof.
  intros Hb. unfold target_text. case_bool_decide; [done|]. rewrite !forallb_app, Hb. simpl.
  apply forallb_join; [done|]. rewrite forallb_map. apply forallb_elem. intros p _.
  unfold encode_pair. rewrite !forallb_app. simpl. apply andb_true_iff.
  split; apply forallb_elem; intros c Hc;
    pose proof (proj1 (forallb_elem _ _) (percent_encode_bytes _) c Hc) as He; revert He;
    unfold is_encoded_byte, is_unreserved; byte_cases c.
Qed.

(** The texts of the head of a request: its target, its content type and the names and
    values of its headers. *)
Definition head_texts (p : TypedRequestPlan) : list str :=
  rt_origin_form (tp_target p) :: option_list (tp_content_type p)
  ++ flat_map (fun h => [hn_name (rh_name h); rh_value h]) (tp_headers p).

Lemma content_type_lines v :
  content_type_invalid v = false -> 0 < len v <= 256 /\ forallb is_line_byte v = true.
Proof.
  unfold content_type_invalid. intros H. bools. split.
  - destruct v as [|c v]; [done|]. unfold len in *. cbn in *. lia.
  - rewrite existsb_false_forallb in *. rewrite forallb_elem in *. intros c Hc.
    match goal with Hf : forall x, x ∈ v -> negb _ = true |- _ => specialize (Hf c Hc); revert Hf end.
    unfold is_line_byte. byte_cases c.
Qed.

Lemma head_texts_lines {S : Sha256Lib} {JR : JsonLib RequestMaterial} path query lease method target headers body ct plan :
  request_target_new path query = Ok target -> Forall built_header headers ->
  request_build lease method target headers body ct = Ok plan ->
  Forall (fun text => forallb is_line_byte text = true) (head_texts plan).
Proof.
  intros (Hn & _ & ->)%request_target_new_ok Hh (_ & _ & _ & _ & _ & Hct & ->)%request_build_ok.
  apply normalize_path_ok in Hn as (_ & _ & _ & _ & Hb). unfold head_texts. cbn [tp_target tp_content_type tp_headers rt_origin_form].
  constructor; [|apply Forall_app; split].
  - apply (target_text_clean path query) in Hb. rewrite forallb_elem in *. intros c Hc. specialize (Hb c Hc).
    revert Hb. unfold is_target_byte. byte_cases c.
  - destruct ct as [v|]; [|constructor]. repeat constructor. by apply content_type_lines, Hct.
  - apply Forall_forall. intros text (h & Hin & Ht)%list_elem_of_In%in_flat_map.
    rewrite Forall_forall in Hh. apply list_elem_of_In in Hin. apply Hh in Hin as (_ & Htok & _ & _ & _ & Hv)%built_header_spec.
    cbn in Ht. destruct Ht as [<-|[<-|[]]]; [|done]. rewrite forallb_elem in *. intros c Hc. by apply token_line_byte, Htok.
Qed.

(** ** Properties *)

Section Properties.
Context {S : Sha256Lib} {JG : JsonLib ChannelGrantMaterial} {JR : JsonLib RequestMaterial}.

(** C12: request targets round-trip. Reading an accepted target back gives exactly its
    path and its query pairs in order, whatever bytes they hold; the target does
    not depend on the order the pairs were given in; and it is a bounded
    origin-form path without white space, control bytes, backslashes and
    fragments, so it cannot end the request line. *)
Theorem target_round_trips path query t :
  request_target_new path query = Ok t ->
  decode_target (rt_origin_form t) = (path, merge_sort ord_le query)
  /\ (forall query', query' ≡ₚ query -> request_target_new path query' = Ok t)
  /\ starts_with (rt_origin_form t) ("/" : str) = true /\ len (rt_origin_form t) <= 16 * 1024
  /\ forallb (fun c => negb (is_ascii_control c || is_byte 32 c || is_byte 92 c || is_byte 35 c))
       (rt_origin_form t) = true.
Proof.
  intros (Hn & Hl & ->)%request_target_new_ok. cbn. pose proof Hn as (_ & Hs & _ & Hq & Hb)%normalize_path_ok.
  split_and!; auto.
  - by apply decode_target_text.
  - intros q' Hp. unfold request_target_new. rewrite Hn.
    assert (target_text path q' = target_text path query) as ->
      by (unfold target_text; by rewrite (sort_pairs_unique q' query Hp)).
    by rewrite (proj2 (N.ltb_ge _ _) Hl).
  - unfold target_text. case_bool_decide; [done|]. apply starts_with_spec in Hs as [r ->].
    apply starts_with_spec. eexists. by rewrite <- (assoc app).
  - by apply target_text_clean.
Qed.

(** C10: a typed request is bounded and gated. With a target and headers from the
    checked constructors, an accepted request over an opened channel holds what it was
    built from, keeps the limits on headers, content type and body, repeats no header
    and sets none that frames the message or names the authority; no target, content
    type, header name or header value has a byte that ends a line; it has a body only
    where its method may; and it carries a sensitive header only if the channel is an
    HTTPS stream whose TLS session agrees with it in every binding. The bytes of the
    body, and with them the parts of a multipart body, are not constrained here. *)
Theorem requests_are_bounded_and_gated path query lease method target headers body ct plan :
  opened_lease lease -> request_target_new path query = Ok target -> Forall built_header headers ->
  request_build lease method target headers body ct = Ok plan ->
  (tp_method plan = method /\ tp_target plan = target /\ tp_headers plan = headers /\ tp_body plan = body
   /\ tp_content_type plan = ct)
  /\ len headers <= MAX_REQUEST_HEADER_COUNT /\ sum_of header_cost headers <= MAX_REQUEST_HEADER_BYTES
  /\ body_total_bytes body <= MAX_REQUEST_BODY_BYTES
  /\ (forall value, ct = Some value -> 0 < len value <= 256)
  /\ NoDup (map (fun h => hn_name (rh_name h)) headers)
  /\ Forall (fun h => hn_name (rh_name h) ∉ forbidden_framing_headers) headers
  /\ Forall (fun text => forallb is_line_byte text = true) (head_texts plan)
  /\ (0 < body_total_bytes body -> method = MPost \/ method = MPut \/ method = MPatch \/ method = MDelete)
  /\ (Exists (fun h => hn_name (rh_name h) ∈ sensitive_headers) headers ->
      sb_scheme (cl_stream lease) = ("https" : str)
      /\ exists tls, bindings_agree (cl_stream lease) tls /\ tls_binding_validate tls = Ok tt
                     /\ cl_tls_audit_anchor lease = Some (tb_tls_audit_anchor tls)).
Proof.
  intros Hlease Htgt Hh Hbuild. pose proof (head_texts_lines _ _ _ _ _ _ _ _ _ Htgt Hh Hbuild) as Hlines.
  apply request_build_ok in Hbuild as (Hb & Hc & Hs & Hch & Hm & Hct & ->).
  apply check_headers_ok in Hch as (Hd & _ & Hp). apply body_validate_bounded in Hb.
  split; [done|]. split_and!; auto.
  - intros v Hv. by apply content_type_lines, Hct.
  - eapply Forall_impl; [exact Hh|]. by intros h (_ & _ & _ & Hf & _)%built_header_spec.
  - intros Hpos. destruct (Hm Hpos) as [Hn|]; [destruct method; try done; auto|auto].
  - intros (h & Hin & Hsen)%Exists_exists. rewrite Forall_forall in Hp.
    specialize (Hp h Hin). unfold is_sensitive in Hp. rewrite bool_decide_eq_true_2 in Hp by done.
    specialize (Hp eq_refl). destruct (opened_lease_cases _ Hlease) as [(Hk & _)|(_ & Hsch & Htls)]; [|done].
    unfold permits_sensitive_headers in Hp. by rewrite Hk in Hp.
Qed.

(** C11: the fingerprint of a request identifies it. Two accepted requests with the
    same fingerprint agree in the channel grant, method, target, headers, body and
    content type, unless two different texts hashed for them have the same digest or
    the serializer confuses what the two are made of; for bodies that are not
    multipart. *)
Theorem fingerprint_identifies_request l1 m1 path1 query1 t1 hs1 b1 ct1 p1 l2 m2 path2 query2 t2 hs2 b2 ct2 p2 :
  request_target_new path1 query1 = Ok t1 -> request_target_new path2 query2 = Ok t2 ->
  request_build l1 m1 t1 hs1 b1 ct1 = Ok p1 -> request_build l2 m2 t2 hs2 b2 ct2 = Ok p2 ->
  is_multipart b1 = false ->
  tp_request_fingerprint_sha256 p1 = tp_request_fingerprint_sha256 p2 ->
  (cl_grant_fingerprint_sha256 l1 = cl_grant_fingerprint_sha256 l2 /\ p1 = p2)
  \/ texts_collide (hashed_texts l1 p1) (hashed_texts l2 p2)
  \/ (plan_material l1 p1 <> plan_material l2 p2
      /\ json_text (plan_material l1 p1) = json_text (plan_material l2 p2)).
Proof.
  intros (_ & _ & ->)%request_target_new_ok (_ & _ & ->)%request_target_new_ok
    (Hb1 & _ & _ & _ & _ & _ & ->)%request_build_ok (Hb2 & _ & _ & _ & _ & _ & ->)%request_build_ok Hm Hfp.
  cbn in Hfp. pose proof Hfp as Hh. rewrite !contract_hash_text in Hh.
  unfold hashed_texts, plan_material. cbn [tp_method tp_target tp_headers tp_body tp_content_type rt_origin_form].
  match goal with |- _ \/ texts_collide ?xs ?ys \/ _ =>
    apply (contract_hash_bytes_eq _ _ xs ys) in Hh as [Ht|?]; [|auto|set_solver..];
    set (x := request_material l1 _ _ _ _ _) in *; set (y := request_material l2 _ _ _ _ _) in * end.
  assert (x = y \/ x <> y) as [Exy|Hne].
  { clear. destruct (decide (x = y)); auto. }
  2: { right. right. done. }
  match goal with |- _ \/ texts_collide ?xs ?ys \/ _ => set (xs0 := xs); set (ys0 := ys) end.
  unfold x, y, request_material in Exy. cbn in Exy.
  apply pair_equal_spec in Exy as [Exy Ect]. apply pair_equal_spec in Exy as [Exy Esha].
  apply pair_equal_spec in Exy as [Exy _]. apply pair_equal_spec in Exy as [Exy Ek].
  apply pair_equal_spec in Exy as [Exy Eh]. apply pair_equal_spec in Exy as [Exy Et].
  apply pair_equal_spec in Exy as [Eg Em]. apply method_as_str_inj in Em.
  apply (contract_hash_bytes_eq _ _ xs0 ys0) in Et as [Et|?]; [|auto|set_solver..].
  apply (contract_hash_bytes_eq _ _ xs0 ys0) in Esha as [Eb|?]; [|auto|set_solver..].
  apply (header_fingerprints_eq _ _ xs0 ys0) in Eh as [Eh|?]; [|auto|set_solver..].
  pose proof (body_hash_inj _ _ Hb1 Hb2 Hm Ek Eb) as ->. left. split; [done|]. subst. by rewrite Et, Hfp.
Qed.

(** The fingerprint of a multipart request is ambiguous. The body hash runs name and
    content type of a part together, so two accepted requests that differ in both
    have the same fingerprint and the same receipt, for every channel and target and
    whatever the hash and the serializer are. *)
Theorem multipart_fingerprint_is_ambiguous lease target :
  exists b1 b2 p1 p2, b1 <> b2
    /\ request_build lease MPost target [] b1 None = Ok p1
    /\ request_build lease MPost target [] b2 None = Ok p2
    /\ tp_request_fingerprint_sha256 p1 = tp_request_fingerprint_sha256 p2
    /\ request_receipt p1 lease = request_receipt p2 lease.
Proof.
  set (part := fun name kind : str => BodyMultipart "boundary-0001"
                 [{| mp_name := name; mp_content_type := kind; mp_body := [] |}]).
  exists (part "filet" "ext/plain"), (part "file" "text/plain").
  do 2 eexists. split_and!; [by vm_compute|reflexivity|reflexivity|reflexivity|reflexivity].
Qed.

(** A response envelope is a faithful summary: in order, each header with the length
    and the hash of its value and no byte that ends a line; all of it within the
    limits; the hash of the whole body and a prefix of it as preview; the number of
    cookies and the hash of the last location; and the anchors of the channel. *)
Theorem response_envelope_is_faithful lease status headers body truncated anchor limits e :
  response_capture lease status headers body truncated anchor limits = Ok e ->
  re_status e = status /\ 100 <= status <= 599
  /\ re_headers e = map header_metadata headers
  /\ Forall (fun h => forallb is_line_byte h.2 = true) headers
  /\ len headers <= MAX_RESPONSE_HEADER_COUNT
  /\ sum_of response_header_cost headers <= rl_maximum_header_bytes limits <= MAX_RESPONSE_HEADER_BYTES
  /\ re_body_bytes e = len body /\ len body <= MAX_RESPONSE_BODY_BYTES
  /\ re_body_sha256 e = contract_hash_bytes body
  /\ (exists rest, body = re_preview e ++ rest) /\ len (re_preview e) <= MAX_RESPONSE_PREVIEW_BYTES
  /\ re_set_cookie_count e = len (filter (header_named "set-cookie") headers)
  /\ re_redirect_location_sha256 e
     = option_map (fun h => contract_hash_bytes h.2) (last (filter (header_named "location") headers))
  /\ re_stream_audit_anchor e = sb_stream_audit_anchor (cl_stream lease)
  /\ re_tls_audit_anchor e = cl_tls_audit_anchor lease.
Proof.
  intros (cap & Hc & Hst & Hlim & Hb & Hn & Eh & Eb & Es & Ec & Eck & El & Ep & Ea & Et)%response_capture_ok.
  unfold response_limits_invalid in Hlim. bools.
  destruct (capture_headers_spec _ _ _ _ Hc) as (M & B & L & V & C & R).
  { cbn. lia. }
  { cbn. unfold MAX_RESPONSE_HEADER_COUNT, u64_max in *. lia. }
  cbn in M, B, C, R. rewrite Eh, Eck, El, M, C, R. split_and!; auto; try lia.
  - eapply Forall_impl; [exact V|]. by intros h [_ ?].
  - rewrite Ep. eexists. symmetry. apply take_drop.
  - rewrite Ep. unfold len. rewrite length_take. lia.
Qed.

End Properties.

(** ** Witnesses *)

(** A serializer that keeps the channel, the method, the target and the body. *)
Definition toy_request_json : JsonLib RequestMaterial :=
  {| to_vec m := let '(channel, method, target, _, _, _, body, _) := m in
                 Ok (channel ++ method ++ target ++ body) |}.
Definition toy_channel_grant_json : JsonLib ChannelGrantMaterial :=
  {| to_vec m := let '(channel, _, _, _) := m in Ok channel |}.

Definition sample_hash (c : byte) : str := replicate 64 c.
Definition sample_stream_binding : StreamBindingSnapshot :=
  {| sb_stream_id := "stream-1"; sb_execution_id := "execution-1"; sb_ticket_id := "ticket-1";
     sb_binding_hash := sample_hash "a"; sb_stream_audit_anchor := sample_hash "b"; sb_scheme := "https";
     sb_sni := Some ("app.example.com" : str); sb_http_host := "app.example.com"; sb_port := 443;
     sb_redirect_depth := 0 |}.
Definition sample_tls_binding : TlsBindingSnapshot :=
  {| tb_tls_session_id := "tls-1"; tb_stream_id := "stream-1"; tb_execution_id := "execution-1";
     tb_ticket_id := "ticket-1"; tb_binding_hash := sample_hash "a";
     tb_stream_audit_anchor := sample_hash "b"; tb_sni := "app.example.com";
     tb_http_host := "app.example.com"; tb_port := 443; tb_redirect_depth := 0; tb_alpn := "http/1.1";
     tb_tls_audit_anchor := sample_hash "c"; tb_leaf_fingerprint_sha256 := sample_hash "d" |}.

Definition contract_grant : HttpChannelGrant :=
  grant_build (S := toy_sha256) (JG := toy_channel_grant_json) "channel-1" VerifiedTls sample_stream_binding
    (Some sample_tls_binding).
Definition contract_lease : HttpChannelLease :=
  {| cl_channel_id := "channel-1"; cl_kind := VerifiedTls; cl_stream := sample_stream_binding;
     cl_tls_audit_anchor := Some (sample_hash "c");
     cl_grant_fingerprint_sha256 := cg_grant_fingerprint_sha256 contract_grant |}.

Lemma sample_lease_opened : opened_lease (S := toy_sha256) (JG := toy_channel_grant_json) contract_lease.
Proof.
  exists ("channel-1" : str), sample_stream_binding, contract_grant. eexists. split.
  - right. exists sample_tls_binding. vm_compute. reflexivity.
  - reflexivity.
Qed.

Definition sample_query : list (str * str) :=
  [("q" : str, "a&b=c" : str); ("id" : str, "7/8" : str)].
Definition sample_target : RequestTarget :=
  let text : str := "/search?id=7%2F8&q=a%26b%3Dc" in
  {| rt_origin_form := text; rt_sha256 := contract_hash_bytes (S := toy_sha256) text |}.

Lemma sample_target_built : request_target_new (S := toy_sha256) "/search" sample_query = Ok sample_target.
Proof. vm_compute. reflexivity. Qed.

Definition contract_headers : list RequestHeader :=
  [{| rh_name := {| hn_name := "authorization" |}; rh_value := "Bearer token" |};
   {| rh_name := {| hn_name := "accept" |}; rh_value := "*/*" |}].

Lemma sample_headers_built : Forall built_header contract_headers.
Proof.
  repeat constructor; cbn [rh_name rh_value]; try (vm_compute; reflexivity).
  - exists ("Authorization" : str). vm_compute. reflexivity.
  - exists ("Accept" : str). vm_compute. reflexivity.
Qed.

Definition contract_request (body : str) : Result TypedRequestPlan ChannelError :=
  request_build (S := toy_sha256) (JR := toy_request_json) contract_lease MPost sample_target contract_headers
    (BodyFixed body) None.

Definition contract_plan : TypedRequestPlan :=
  {| tp_method := MPost; tp_target := sample_target; tp_headers := contract_headers;
     tp_body := BodyFixed "hello"; tp_content_type := None;
     tp_request_fingerprint_sha256 :=
       contract_hash (S := toy_sha256) (H := toy_request_json)
         (request_material (S := toy_sha256) contract_lease MPost sample_target contract_headers
            (BodyFixed "hello") None) |}.

Lemma sample_request_built : contract_request "hello" = Ok contract_plan.
Proof. vm_compute. reflexivity. Qed.

Lemma target_round_trips_witness :
  decode_target "/search?id=7%2F8&q=a%26b%3Dc"
  = ("/search" : str, [("id" : str, "7/8" : str); ("q" : str, "a&b=c" : str)])
  /\ request_target_new (S := toy_sha256) "/search" (reverse sample_query) = Ok sample_target.
Proof.
  destruct (target_round_trips (S := toy_sha256) _ _ _ sample_target_built) as (Hd & Hp & _). split.
  - exact Hd.
  - apply Hp. apply reverse_Permutation.
Defined.

Lemma requests_are_bounded_and_gated_witness :
  exists tls, bindings_agree sample_stream_binding tls /\ tls_binding_validate tls = Ok tt
              /\ cl_tls_audit_anchor contract_lease = Some (tb_tls_audit_anchor tls).
Proof.
  apply (requests_are_bounded_and_gated (S := toy_sha256) (JG := toy_channel_grant_json) (JR := toy_request_json)
    "/search" sample_query contract_lease MPost sample_target contract_headers (BodyFixed "hello") None contract_plan
    sample_lease_opened sample_target_built sample_headers_built sample_request_built).
  apply Exists_cons_hd. vm_compute. apply list_elem_of_In. vm_compute. auto.
Defined.

Lemma fingerprint_identifies_request_witness :
  (cl_grant_fingerprint_sha256 contract_lease = cl_grant_fingerprint_sha256 contract_lease
   /\ contract_plan = contract_plan)
  \/ texts_collide (H := toy_sha256)
       (hashed_texts (S := toy_sha256) (JR := toy_request_json) contract_lease contract_plan)
       (hashed_texts (S := toy_sha256) (JR := toy_request_json) contract_lease contract_plan)
  \/ (plan_material (S := toy_sha256) contract_lease contract_plan
      <> plan_material (S := toy_sha256) contract_lease contract_plan
      /\ json_text (H := toy_request_json) (plan_material (S := toy_sha256) contract_lease contract_plan)
         = json_text (H := toy_request_json) (plan_material (S := toy_sha256) contract_lease contract_plan)).
Proof.
  exact (fingerprint_identifies_request (S := toy_sha256) (JR := toy_request_json)
    _ _ _ _ _ _ _ _ _ _ _ _ _ _ _ _ _ _ sample_target_built sample_target_built
    sample_request_built sample_request_built eq_refl eq_refl).
Defined.

Definition sample_response_headers : list (str * str) :=
  [("Content-Type" : str, "Text/HTML; charset=UTF-8" : str); ("Set-Cookie" : str, "a=1" : str);
   ("Location" : str, "/next" : str); ("set-cookie" : str, "b=2" : str)].

Definition sample_capture : Result ResponseEnvelope ChannelError :=
  response_capture (S := toy_sha256) contract_lease 302 sample_response_headers "body" false
    (sample_hash "e") response_limits_default.

Lemma sample_captured :
  match sample_capture with
  | Ok e => re_content_type e = Some ("text/html" : str) /\ re_charset e = Some ("utf-8" : str)
            /\ re_set_cookie_count e = 2
  | Err _ => False
  end.
Proof. vm_compute. auto. Qed.

Lemma response_envelope_is_faithful_witness :
  match sample_capture with
  | Ok e => re_set_cookie_count e = 2
            /\ re_redirect_location_sha256 e = Some (contract_hash_bytes (S := toy_sha256) "/next")
  | Err _ => False
  end.
Proof.
  pose proof sample_captured as Hs. destruct sample_capture as [e|] eqn:E; [|done].
  destruct (response_envelope_is_faithful (S := toy_sha256) _ _ _ _ _ _ _ _ E)
    as (_ & _ & _ & _ & _ & _ & _ & _ & _ & _ & _ & Hc & Hl & _).
  split; [exact Hc|exact Hl].
Defined.

(** ** What the checks miss *)

(** A header name that was deserialised instead of parsed keeps its capitals, and
    the gate for sensitive headers does not know it: it passes over plain HTTP. *)
Definition plain_lease : HttpChannelLease :=
  {| cl_channel_id := "channel-2"; cl_kind := PlainHttp; cl_stream := sample_stream_binding;
     cl_tls_audit_anchor := None; cl_grant_fingerprint_sha256 := sample_hash "f" |}.

Lemma unparsed_name_escapes_gate :
  is_ok (request_build (S := toy_sha256) (JR := toy_request_json) plain_lease MGet sample_target
           [{| rh_name := {| hn_name := "Authorization" |}; rh_value := "Bearer token" |}] BodyEmpty None) = true
  /\ request_build (S := toy_sha256) (JR := toy_request_json) plain_lease MGet sample_target
       contract_headers BodyEmpty None = Err ChSensitiveHeadersRequireTls.
Proof. vm_compute. auto. Qed.

(** The content type of a part may hold a line break, unlike its name and the
    content type of the request. *)
Lemma part_type_may_break_line :
  let injected := ("text/plain" : str) ++ CRLF ++ ("X-Injected: 1" : str) in
  part_validate {| mp_name := "file"; mp_content_type := injected; mp_body := [] |} = Ok tt
  /\ content_type_invalid injected = true.
Proof. vm_compute. auto. Qed.
