(* ===== verification/Adapter.v ===== *)
(** * The adapter boundary ([crates/nxb-adapter-boundary])

    Manifests and fixture profiles of synthetic adapters, the authority that
    admits an adapter with a grant, the supervised session with its quotas and the
    authority that certifies a finished session. *)

From S2P Require Import Prelude ByteStr BTree HashChain Validation.
Local Open Scope N_scope.

(** ** Model *)

Definition MAX_ADAPTER_ACTIONS : N := 16.
Definition MAX_FIXTURE_OBJECTS : N := 10000.
Definition MAX_FIXTURE_OBJECT_BYTES : N := 128 * 1024 * 1024.
Definition MAX_SESSION_MESSAGES : N := 100000.
Definition MAX_MESSAGE_BYTES : N := 4 * 1024 * 1024.
Definition MAX_SESSION_BYTES : N := 512 * 1024 * 1024.
Definition MAX_CPU_MILLISECONDS : N := 600000.
Definition MAX_MEMORY_BYTES : N := 2 * 1024 * 1024 * 1024.

Inductive BoundaryError : Type :=
  | AbInvalidIdentifier (name : str)
  | AbInvalidSha256 (name : str)
  | AbInvalidManifest (message : str)
  | AbAdmissionDenied (message : str)
  | AbGrantInactive
  | AbInvalidFixture (message : str)
  | AbUnknownFixtureProfile
  | AbInvalidEnvelope (message : str)
  | AbInvalidSessionTransition
  | AbQuotaExceeded (message : str)
  | AbCertificationDenied (message : str)
  | AbAuditSerialization (message : str)
  | AbAuditSequenceMismatch (record_index : N)
  | AbAuditPreviousHashMismatch (record_index : N)
  | AbAuditRecordHashMismatch (record_index : N)
  | AbAuditTailMismatch.

Inductive AdapterCapability : Type := FixtureRead | DeterministicTransform | ObservationEmit | Finalization.
Inductive AdapterAction : Type := LoadFixture | ExecuteReadOnly | EmitObservation | Finalize.
Inductive FixtureObjectKind : Type :=
  RequestMetadata | ResponseMetadata | StructuredDocument | EventSequence | ExpectedObservation.
Inductive AdapterOutcome : Type := AoAccepted | AoProducedObservation | AoNoObservation | AoFinalized.
Inductive AdapterSessionState : Type :=
  AsOpen | AsCancelling | AsCompleted | AsCancelled | AsEmergencyStopped | AsFailed.

#[export] Instance AdapterCapability_eq_dec : EqDecision AdapterCapability.
Proof. solve_decision. Defined.
#[export] Instance AdapterCapability_countable : Countable AdapterCapability.
Proof.
  refine (inj_countable' (fun c => match c with FixtureRead => 0 | DeterministicTransform => 1
            | ObservationEmit => 2 | Finalization => 3 end)
          (fun n => match n with 0 => FixtureRead | 1 => DeterministicTransform | 2 => ObservationEmit
            | _ => Finalization end) _).
  by intros [].
Defined.
#[export] Instance AdapterAction_eq_dec : EqDecision AdapterAction.
Proof. solve_decision. Defined.
#[export] Instance AdapterAction_countable : Countable AdapterAction.
Proof.
  refine (inj_countable' (fun c => match c with LoadFixture => 0 | ExecuteReadOnly => 1
            | EmitObservation => 2 | Finalize => 3 end)
          (fun n => match n with 0 => LoadFixture | 1 => ExecuteReadOnly | 2 => EmitObservation
            | _ => Finalize end) _).
  by intros [].
Defined.
#[export] Instance AdapterOutcome_eq_dec : EqDecision AdapterOutcome.
Proof. solve_decision. Defined.
#[export] Instance AdapterSessionState_eq_dec : EqDecision AdapterSessionState.
Proof. solve_decision. Defined.

Definition required_capability (self : AdapterAction) : AdapterCapability :=
  match self with
  | LoadFixture => FixtureRead
  | ExecuteReadOnly => DeterministicTransform
  | EmitObservation => ObservationEmit
  | Finalize => Finalization
  end.

Definition session_is_terminal (self : AdapterSessionState) : bool :=
  match self with AsCompleted | AsCancelled | AsEmergencyStopped | AsFailed => true | _ => false end.

(** [format!("{:?}", ..).to_ascii_lowercase()]. *)
Definition adapter_action_name (action : AdapterAction) : str :=
  match action with
  | LoadFixture => "loadfixture" | ExecuteReadOnly => "executereadonly"
  | EmitObservation => "emitobservation" | Finalize => "finalize"
  end.
Definition adapter_outcome_name (outcome : AdapterOutcome) : str :=
  match outcome with
  | AoAccepted => "accepted" | AoProducedObservation => "producedobservation"
  | AoNoObservation => "noobservation" | AoFinalized => "finalized"
  end.

Record AdapterAuditEvent : Type := {
  ade_action : str;
  ade_subject_id : str;
  ade_outcome : str;
  ade_metadata : gmap str str
}.

Record AdapterResourceLimits : Type := {
  al_maximum_messages : N;
  al_maximum_message_bytes : N;
  al_maximum_session_bytes : N;
  al_maximum_cpu_milliseconds : N;
  al_maximum_memory_bytes : N
}.

Record AdapterManifest : Type := {
  am_manifest_id : str;
  am_adapter_name : str;
  am_adapter_version : str;
  am_binary_sha256 : str;
  am_schema_version : N;
  am_capabilities : gset AdapterCapability;
  am_allowed_actions : gset AdapterAction;
  am_limits : AdapterResourceLimits;
  am_manifest_sha256 : str
}.

Record AdapterAdmissionRequest : Type := {
  ar_request_id : str;
  ar_run_id : str;
  ar_worker_id : str;
  ar_policy_snapshot_sha256 : str;
  ar_manifest_sha256 : str;
  ar_fixture_profile_sha256 : str;
  ar_requested_actions : gset AdapterAction;
  ar_issued_at_milliseconds : N;
  ar_expires_at_milliseconds : N
}.

Record AdapterGrant : Type := {
  ag_grant_id : str;
  ag_run_id : str;
  ag_worker_id : str;
  ag_policy_snapshot_sha256 : str;
  ag_manifest_sha256 : str;
  ag_fixture_profile_sha256 : str;
  ag_allowed_actions : gset AdapterAction;
  ag_issued_at_milliseconds : N;
  ag_expires_at_milliseconds : N;
  ag_grant_sha256 : str;
  ag_consumed : bool
}.

Record AdapterAdmissionAuthority : Type := {
  aa_authority_id : str;
  aa_policy_snapshot_sha256 : str;
  aa_next_grant_sequence : N;
  aa_audit : HashChain AdapterAuditEvent
}.

Record FixtureObject : Type := {
  fo_object_id : str;
  fo_fixture_uri : str;
  fo_kind : FixtureObjectKind;
  fo_content_sha256 : str;
  fo_bytes : N;
  fo_metadata : gmap str str
}.

Record FixtureProfile : Type := {
  fp_profile_id : str;
  fp_policy_snapshot_sha256 : str;
  fp_objects : gmap str FixtureObject;
  fp_maximum_observations : N;
  fp_profile_sha256 : str
}.

Record FixtureRegistry : Type := {
  fr_policy_snapshot_sha256 : str;
  fr_profiles : gmap str FixtureProfile;
  fr_audit : HashChain AdapterAuditEvent
}.

Record AdapterEnvelope : Type := {
  en_session_id : str;
  en_sequence : N;
  en_action : AdapterAction;
  en_fixture_profile_sha256 : str;
  en_input_sha256 : str;
  en_payload_bytes : N;
  en_labels : gmap str str
}.

Record AdapterResourceUsage : Type := {
  us_cpu_milliseconds : N;
  us_peak_memory_bytes : N;
  us_output_bytes : N
}.

Record AdapterReceipt : Type := {
  ac_session_id : str;
  ac_sequence : N;
  ac_action : AdapterAction;
  ac_outcome : AdapterOutcome;
  ac_input_sha256 : str;
  ac_output_sha256 : str;
  ac_cumulative_messages : N;
  ac_cumulative_input_bytes : N;
  ac_cumulative_output_bytes : N;
  ac_cumulative_cpu_milliseconds : N;
  ac_peak_memory_bytes : N;
  ac_state : AdapterSessionState;
  ac_audit_tail_hash : str
}.

Record AdapterSessionSnapshot : Type := {
  ss_session_id : str;
  ss_run_id : str;
  ss_worker_id : str;
  ss_policy_snapshot_sha256 : str;
  ss_manifest_sha256 : str;
  ss_grant_sha256 : str;
  ss_fixture_profile_sha256 : str;
  ss_limits_sha256 : str;
  ss_state : AdapterSessionState;
  ss_message_count : N;
  ss_observation_count : N;
  ss_input_bytes : N;
  ss_output_bytes : N;
  ss_cpu_milliseconds : N;
  ss_peak_memory_bytes : N;
  ss_external_io_observed : bool;
  ss_boundary_violations : N;
  ss_audit_tail_hash : str
}.

Record AdapterSession : Type := {
  as_snapshot : AdapterSessionSnapshot;
  as_allowed_actions : gset AdapterAction;
  as_limits : AdapterResourceLimits;
  as_maximum_observations : N;
  as_next_sequence : N;
  as_expires_at_milliseconds : N;
  as_audit : HashChain AdapterAuditEvent
}.

Record AdapterConformanceCertificate : Type := {
  cf_certificate_id : str;
  cf_authority_id : str;
  cf_session_id : str;
  cf_run_id : str;
  cf_worker_id : str;
  cf_policy_snapshot_sha256 : str;
  cf_manifest_sha256 : str;
  cf_grant_sha256 : str;
  cf_fixture_profile_sha256 : str;
  cf_limits_sha256 : str;
  cf_session_audit_tail_hash : str;
  cf_fixture_registry_audit_tail_hash : str;
  cf_message_count : N;
  cf_observation_count : N;
  cf_external_io_observed : bool;
  cf_boundary_violations : N;
  cf_certificate_sha256 : str
}.

Record AdapterConformanceAuthority : Type := {
  co_authority_id : str;
  co_policy_snapshot_sha256 : str;
  co_audit : HashChain AdapterAuditEvent
}.

(** The tuples that are serialised for hashing. *)
Definition ManifestTuple : Type :=
  str * str * str * str * N * gset AdapterCapability * gset AdapterAction * AdapterResourceLimits * bool.
Definition GrantTuple : Type := str * str * str * str * str * str * gset AdapterAction * N * N.
Definition ProfileTuple : Type := str * str * gmap str FixtureObject * N.
Definition SessionSeedTuple : Type := str * str * str * N.
Definition CertificateSeedTuple : Type := str * str * str * str.
Definition CertificateTuple : Type :=
  (str * str * str * str * str * str * str * str * str * str * str * str) * (N * N * bool * N).

(** ** Validation *)

Definition adapter_validate_identifier (value name : str) : Result unit BoundaryError :=
  if bool_decide (value = []) || (192 <? len value) || negb (forallb is_identifier_byte value)
  then Err (AbInvalidIdentifier name) else Ok tt.

Definition adapter_validate_sha256 (value name : str) : Result unit BoundaryError :=
  if negb (is_lower_hex_sha256 value) then Err (AbInvalidSha256 name) else Ok tt.

(** A loop over names and hashes. *)
Fixpoint adapter_validate_hashes (l : list (str * str)) : Result unit BoundaryError :=
  match l with
  | [] => Ok tt
  | (name, value) :: rest =>
      let? _ := adapter_validate_sha256 value name in adapter_validate_hashes rest
  end.

Definition FORBIDDEN_FIXTURE_TEXT : list str :=
  map list_ascii_of_string
    ["authorization:"; "proxy-authorization:"; "cookie:"; "set-cookie:"; "bearer "; "password=";
     "token="; "secret="; "http://"; "https://"; "file://"; "ssh://"]%string.

Definition adapter_reject_secret_like_text (value : str) : Result unit BoundaryError :=
  if existsb (contains_str (to_ascii_lowercase value)) FORBIDDEN_FIXTURE_TEXT
  then Err (AbInvalidFixture "secret-like or external-destination material") else Ok tt.

(** An entry of the metadata or labels that is refused; [limit] bounds the value. *)
Definition adapter_label_invalid (limit : N) (entry : str * str) : bool :=
  bool_decide (entry.1 = []) || (96 <? len entry.1) || (limit <? len entry.2)
  || existsb is_ascii_control entry.1 || existsb (is_byte 0) entry.2
  || negb (is_ok (adapter_reject_secret_like_text entry.2)).

Definition adapter_chain_error (e : ChainError) : BoundaryError :=
  match e with
  | InvalidGenesisHash => AbInvalidSha256 "audit genesis"
  | Serialization message => AbAuditSerialization message
  | SequenceMismatch i => AbAuditSequenceMismatch i
  | PreviousHashMismatch i => AbAuditPreviousHashMismatch i
  | RecordHashMismatch i => AbAuditRecordHashMismatch i
  | TailHashMismatch => AbAuditTailMismatch
  end.

Definition adapter_limits_new (maximum_messages maximum_message_bytes maximum_session_bytes
    maximum_cpu_milliseconds maximum_memory_bytes : N) : Result AdapterResourceLimits BoundaryError :=
  if (maximum_messages =? 0) || (MAX_SESSION_MESSAGES <? maximum_messages)
     || (maximum_message_bytes =? 0) || (MAX_MESSAGE_BYTES <? maximum_message_bytes)
     || (maximum_session_bytes <? maximum_message_bytes) || (MAX_SESSION_BYTES <? maximum_session_bytes)
     || (maximum_cpu_milliseconds =? 0) || (MAX_CPU_MILLISECONDS <? maximum_cpu_milliseconds)
     || (maximum_memory_bytes =? 0) || (MAX_MEMORY_BYTES <? maximum_memory_bytes)
  then Err (AbInvalidManifest "resource limits are zero, inconsistent or above hard ceilings")
  else Ok {| al_maximum_messages := maximum_messages; al_maximum_message_bytes := maximum_message_bytes;
             al_maximum_session_bytes := maximum_session_bytes;
             al_maximum_cpu_milliseconds := maximum_cpu_milliseconds;
             al_maximum_memory_bytes := maximum_memory_bytes |}.

Definition fixture_uri_byte (c : byte) : bool :=
  is_ascii_alphanumeric c || is_byte 45 c || is_byte 95 c || is_byte 46 c || is_byte 47 c || is_byte 58 c.

Definition validate_fixture_uri (value : str) : Result unit BoundaryError :=
  if negb (starts_with value ("fixture://" : str)) || (512 <? len value) || contains_byte 63 value
     || contains_byte 35 value || contains_byte 64 value || contains_str value (".." : str)
     || existsb is_ascii_control value
  then Err (AbInvalidFixture "fixture URI must be a bounded credential-free fixture:// identifier")
  else
    let remainder := drop 10 value in
    if bool_decide (remainder = []) || contains_str remainder ("://" : str)
       || negb (forallb fixture_uri_byte remainder)
    then Err (AbInvalidFixture "fixture URI characters or nested scheme") else Ok tt.

Definition fixture_object_new (object_id fixture_uri : str) (kind : FixtureObjectKind) (content_sha256 : str)
    (bytes : N) (metadata : gmap str str) : Result FixtureObject BoundaryError :=
  let? _ := adapter_validate_identifier object_id "fixture object" in
  let? _ := adapter_validate_sha256 content_sha256 "fixture content" in
  let? _ := validate_fixture_uri fixture_uri in
  if (bytes =? 0) || (MAX_FIXTURE_OBJECT_BYTES <? bytes) || (64 <? N.of_nat (size metadata))
     || existsb (adapter_label_invalid 512) (map_iter metadata)
  then Err (AbInvalidFixture "fixture size or metadata")
  else Ok {| fo_object_id := object_id; fo_fixture_uri := fixture_uri; fo_kind := kind;
             fo_content_sha256 := content_sha256; fo_bytes := bytes; fo_metadata := metadata |}.

Definition envelope_new (session_id : str) (sequence : N) (action : AdapterAction)
    (fixture_profile_sha256 input_sha256 : str) (payload_bytes : N) (labels : gmap str str)
    : Result AdapterEnvelope BoundaryError :=
  let? _ := adapter_validate_identifier session_id "adapter session" in
  let? _ := adapter_validate_sha256 fixture_profile_sha256 "envelope fixture profile" in
  let? _ := adapter_validate_sha256 input_sha256 "envelope input" in
  if (sequence =? 0) || (MAX_MESSAGE_BYTES <? payload_bytes) || (32 <? N.of_nat (size labels))
     || existsb (adapter_label_invalid 256) (map_iter labels)
  then Err (AbInvalidEnvelope "sequence, payload or labels")
  else Ok {| en_session_id := session_id; en_sequence := sequence; en_action := action;
             en_fixture_profile_sha256 := fixture_profile_sha256; en_input_sha256 := input_sha256;
             en_payload_bytes := payload_bytes; en_labels := labels |}.

(** The loop of [FixtureProfile::new] over the objects. *)
Fixpoint collect_objects (objects : list FixtureObject) (by_id : gmap str FixtureObject) (uris : gset str)
    : Result (gmap str FixtureObject) BoundaryError :=
  match objects with
  | [] => Ok by_id
  | object :: rest =>
      if bool_decide (is_Some (by_id !! fo_object_id object)) || bool_decide (fo_fixture_uri object ∈ uris)
      then Err (AbInvalidFixture "duplicate fixture object or URI")
      else collect_objects rest (<[fo_object_id object := object]> by_id) ({[fo_fixture_uri object]} ∪ uris)
  end.

(** ** Sessions without hashing *)

Definition with_snapshot (snapshot : AdapterSessionSnapshot) (self : AdapterSession) : AdapterSession :=
  {| as_snapshot := snapshot; as_allowed_actions := as_allowed_actions self; as_limits := as_limits self;
     as_maximum_observations := as_maximum_observations self; as_next_sequence := as_next_sequence self;
     as_expires_at_milliseconds := as_expires_at_milliseconds self; as_audit := as_audit self |}.

Definition with_session_audit (audit : HashChain AdapterAuditEvent) (self : AdapterSession) : AdapterSession :=
  {| as_snapshot := as_snapshot self; as_allowed_actions := as_allowed_actions self;
     as_limits := as_limits self; as_maximum_observations := as_maximum_observations self;
     as_next_sequence := as_next_sequence self;
     as_expires_at_milliseconds := as_expires_at_milliseconds self; as_audit := audit |}.

(** The snapshot with the fields the operations write. *)
Definition update_snapshot (state : AdapterSessionState) (messages observations input output cpu memory
    violations : N) (tail : str) (self : AdapterSessionSnapshot) : AdapterSessionSnapshot :=
  {| ss_session_id := ss_session_id self; ss_run_id := ss_run_id self; ss_worker_id := ss_worker_id self;
     ss_policy_snapshot_sha256 := ss_policy_snapshot_sha256 self;
     ss_manifest_sha256 := ss_manifest_sha256 self; ss_grant_sha256 := ss_grant_sha256 self;
     ss_fixture_profile_sha256 := ss_fixture_profile_sha256 self; ss_limits_sha256 := ss_limits_sha256 self;
     ss_state := state; ss_message_count := messages; ss_observation_count := observations;
     ss_input_bytes := input; ss_output_bytes := output; ss_cpu_milliseconds := cpu;
     ss_peak_memory_bytes := memory; ss_external_io_observed := ss_external_io_observed self;
     ss_boundary_violations := violations; ss_audit_tail_hash := tail |}.

Definition set_session_state (state : AdapterSessionState) (self : AdapterSessionSnapshot)
    : AdapterSessionSnapshot :=
  update_snapshot state (ss_message_count self) (ss_observation_count self) (ss_input_bytes self)
    (ss_output_bytes self) (ss_cpu_milliseconds self) (ss_peak_memory_bytes self)
    (ss_boundary_violations self) (ss_audit_tail_hash self) self.

Definition set_session_violations (violations : N) (self : AdapterSessionSnapshot) : AdapterSessionSnapshot :=
  update_snapshot (ss_state self) (ss_message_count self) (ss_observation_count self) (ss_input_bytes self)
    (ss_output_bytes self) (ss_cpu_milliseconds self) (ss_peak_memory_bytes self) violations
    (ss_audit_tail_hash self) self.

Definition set_session_observations (observations : N) (self : AdapterSessionSnapshot)
    : AdapterSessionSnapshot :=
  update_snapshot (ss_state self) (ss_message_count self) observations (ss_input_bytes self)
    (ss_output_bytes self) (ss_cpu_milliseconds self) (ss_peak_memory_bytes self)
    (ss_boundary_violations self) (ss_audit_tail_hash self) self.

Definition set_session_tail (tail : str) (self : AdapterSessionSnapshot) : AdapterSessionSnapshot :=
  update_snapshot (ss_state self) (ss_message_count self) (ss_observation_count self) (ss_input_bytes self)
    (ss_output_bytes self) (ss_cpu_milliseconds self) (ss_peak_memory_bytes self)
    (ss_boundary_violations self) tail self.

(** ** Operations *)

Section Adapter.
Context {S : Sha256Lib} {JA : JsonLib (HashMaterial AdapterAuditEvent)}.

Definition adapter_hash_bytes (bytes : str) : str := to_lower_hex (sha256 bytes).

Definition adapter_hash {A} {J : JsonLib A} (value : A) : Result str BoundaryError :=
  let? bytes := map_err AbAuditSerialization (to_vec value) in Ok (adapter_hash_bytes bytes).

Definition adapter_audit_new (genesis_hash : str) : Result (HashChain AdapterAuditEvent) BoundaryError :=
  map_err adapter_chain_error (chain_new_anchored genesis_hash).

Definition adapter_audit_append (event : AdapterAuditEvent) (chain : HashChain AdapterAuditEvent)
    : Result (ChainRecord AdapterAuditEvent) BoundaryError * HashChain AdapterAuditEvent :=
  let '(result, chain) := chain_append event chain in (map_err adapter_chain_error result, chain).

Definition adapter_audit_verify (chain : HashChain AdapterAuditEvent) : Result unit BoundaryError :=
  map_err adapter_chain_error (chain_verify chain).

(** *** Manifests and profiles *)

Definition limits_digest {JL : JsonLib AdapterResourceLimits} (self : AdapterResourceLimits)
    : Result str BoundaryError := adapter_hash self.

Definition adapter_manifest_new {JM : JsonLib ManifestTuple}
    (manifest_id adapter_name adapter_version binary_sha256 : str) (schema_version : N)
    (capabilities : gset AdapterCapability) (allowed_actions : gset AdapterAction)
    (limits : AdapterResourceLimits) (external_io_requested : bool) : Result AdapterManifest BoundaryError :=
  let? _ := adapter_validate_identifier manifest_id "manifest_id" in
  let? _ := adapter_validate_identifier adapter_name "adapter_name" in
  let? _ := adapter_validate_identifier adapter_version "adapter_version" in
  let? _ := adapter_validate_sha256 binary_sha256 "adapter binary" in
  if (schema_version =? 0) || bool_decide (capabilities = ∅) || bool_decide (allowed_actions = ∅)
     || (MAX_ADAPTER_ACTIONS <? N.of_nat (size allowed_actions)) || external_io_requested
     || existsb (fun action => negb (bool_decide (required_capability action ∈ capabilities)))
          (elements allowed_actions)
  then Err (AbInvalidManifest "schema, action, capability or external-I/O declaration")
  else
  let? manifest_sha256 :=
    adapter_hash (J := JM) (manifest_id, adapter_name, adapter_version, binary_sha256, schema_version,
                            capabilities, allowed_actions, limits, false) in
  Ok {| am_manifest_id := manifest_id; am_adapter_name := adapter_name;
        am_adapter_version := adapter_version; am_binary_sha256 := binary_sha256;
        am_schema_version := schema_version; am_capabilities := capabilities;
        am_allowed_actions := allowed_actions; am_limits := limits;
        am_manifest_sha256 := manifest_sha256 |}.

Definition fixture_profile_new {JP : JsonLib ProfileTuple} (profile_id policy_snapshot_sha256 : str)
    (objects : list FixtureObject) (maximum_observations : N) : Result FixtureProfile BoundaryError :=
  let? _ := adapter_validate_identifier profile_id "fixture profile" in
  let? _ := adapter_validate_sha256 policy_snapshot_sha256 "fixture policy" in
  if bool_decide (objects = []) || (MAX_FIXTURE_OBJECTS <? len objects) || (maximum_observations =? 0)
     || (MAX_SESSION_MESSAGES <? maximum_observations)
  then Err (AbInvalidFixture "fixture object or observation bounds")
  else
  let? by_id := collect_objects objects ∅ ∅ in
  let? profile_sha256 :=
    adapter_hash (J := JP) (profile_id, policy_snapshot_sha256, by_id, maximum_observations) in
  Ok {| fp_profile_id := profile_id; fp_policy_snapshot_sha256 := policy_snapshot_sha256;
        fp_objects := by_id; fp_maximum_observations := maximum_observations;
        fp_profile_sha256 := profile_sha256 |}.

Definition fixture_registry_new (policy_snapshot_sha256 audit_genesis : str)
    : Result FixtureRegistry BoundaryError :=
  let? _ := adapter_validate_sha256 policy_snapshot_sha256 "registry policy" in
  let? audit := adapter_audit_new audit_genesis in
  Ok {| fr_policy_snapshot_sha256 := policy_snapshot_sha256; fr_profiles := ∅; fr_audit := audit |}.

Definition fixture_register (profile : FixtureProfile) (self : FixtureRegistry)
    : Result FixtureProfile BoundaryError * FixtureRegistry :=
  if negb (bool_decide (fp_policy_snapshot_sha256 profile = fr_policy_snapshot_sha256 self))
     || bool_decide (is_Some (fr_profiles self !! fp_profile_id profile))
  then (Err (AbInvalidFixture "registry policy mismatch or duplicate profile"), self)
  else
    let '(appended, audit) := adapter_audit_append
      {| ade_action := "fixture_profile_registered"; ade_subject_id := fp_profile_id profile;
         ade_outcome := "registered";
         ade_metadata := {[ ("profile_sha256" : str) := fp_profile_sha256 profile ]} |} (fr_audit self) in
    let self := {| fr_policy_snapshot_sha256 := fr_policy_snapshot_sha256 self;
                   fr_profiles := <[fp_profile_id profile := profile]> (fr_profiles self);
                   fr_audit := audit |} in
    match appended with
    | Err error => (Err error, self)
    | Ok _ => (Ok profile, self)
    end.

Definition contains_exact (profile : FixtureProfile) (self : FixtureRegistry) : bool :=
  match fr_profiles self !! fp_profile_id profile with
  | Some stored => bool_decide (fp_profile_sha256 stored = fp_profile_sha256 profile)
  | None => false
  end.

(** *** Admission *)

Definition admission_authority_new (authority_id policy_snapshot_sha256 audit_genesis : str)
    : Result AdapterAdmissionAuthority BoundaryError :=
  let? _ := adapter_validate_identifier authority_id "adapter admission authority" in
  let? _ := adapter_validate_sha256 policy_snapshot_sha256 "policy snapshot" in
  let? audit := adapter_audit_new audit_genesis in
  Ok {| aa_authority_id := authority_id; aa_policy_snapshot_sha256 := policy_snapshot_sha256;
        aa_next_grant_sequence := 1; aa_audit := audit |}.

(** The checks of [adapter_admit] before a grant is made. *)
Definition admission_checks (manifest : AdapterManifest) (profile : FixtureProfile)
    (request : AdapterAdmissionRequest) (self : AdapterAdmissionAuthority) : Result unit BoundaryError :=
  let? _ := adapter_validate_identifier (ar_request_id request) "request_id" in
  let? _ := adapter_validate_identifier (ar_run_id request) "run_id" in
  let? _ := adapter_validate_identifier (ar_worker_id request) "worker_id" in
  let? _ := adapter_validate_sha256 (ar_policy_snapshot_sha256 request) "request policy" in
  let? _ := adapter_validate_sha256 (ar_manifest_sha256 request) "request manifest" in
  let? _ := adapter_validate_sha256 (ar_fixture_profile_sha256 request) "request fixture profile" in
  if negb (bool_decide (ar_policy_snapshot_sha256 request = aa_policy_snapshot_sha256 self))
     || negb (bool_decide (ar_policy_snapshot_sha256 request = fp_policy_snapshot_sha256 profile))
     || negb (bool_decide (ar_manifest_sha256 request = am_manifest_sha256 manifest))
     || negb (bool_decide (ar_fixture_profile_sha256 request = fp_profile_sha256 profile))
     || bool_decide (ar_requested_actions request = ∅)
     || negb (bool_decide (ar_requested_actions request ⊆ am_allowed_actions manifest))
     || (ar_issued_at_milliseconds request =? 0)
     || (ar_expires_at_milliseconds request <=? ar_issued_at_milliseconds request)
     || (3600000 <? ar_expires_at_milliseconds request - ar_issued_at_milliseconds request)
  then Err (AbAdmissionDenied "policy, manifest, fixture, action or lifetime binding")
  else Ok tt.

Definition adapter_grant_id (authority_id : str) (sequence : N) : str :=
  ("adapter-grant-" : str) ++ authority_id ++ ("-" : str) ++ decimal020 sequence.
#[global] Arguments adapter_grant_id : simpl never.

Definition adapter_admit {JGr : JsonLib GrantTuple} (manifest : AdapterManifest) (profile : FixtureProfile)
    (request : AdapterAdmissionRequest) (self : AdapterAdmissionAuthority)
    : Result AdapterGrant BoundaryError * AdapterAdmissionAuthority :=
  match admission_checks manifest profile request self with
  | Err error => (Err error, self)
  | Ok _ =>
      let grant_id := adapter_grant_id (aa_authority_id self) (aa_next_grant_sequence self) in
      let self := {| aa_authority_id := aa_authority_id self;
                     aa_policy_snapshot_sha256 := aa_policy_snapshot_sha256 self;
                     aa_next_grant_sequence := saturating_add (aa_next_grant_sequence self) 1;
                     aa_audit := aa_audit self |} in
      match adapter_hash (J := JGr)
              (grant_id, ar_run_id request, ar_worker_id request, ar_policy_snapshot_sha256 request,
               ar_manifest_sha256 request, ar_fixture_profile_sha256 request,
               ar_requested_actions request, ar_issued_at_milliseconds request,
               ar_expires_at_milliseconds request) with
      | Err error => (Err error, self)
      | Ok grant_sha256 =>
          let grant :=
            {| ag_grant_id := grant_id; ag_run_id := ar_run_id request;
               ag_worker_id := ar_worker_id request;
               ag_policy_snapshot_sha256 := ar_policy_snapshot_sha256 request;
               ag_manifest_sha256 := ar_manifest_sha256 request;
               ag_fixture_profile_sha256 := ar_fixture_profile_sha256 request;
               ag_allowed_actions := ar_requested_actions request;
               ag_issued_at_milliseconds := ar_issued_at_milliseconds request;
               ag_expires_at_milliseconds := ar_expires_at_milliseconds request;
               ag_grant_sha256 := grant_sha256; ag_consumed := false |} in
          let '(appended, audit) := adapter_audit_append
            {| ade_action := "adapter_grant_issued"; ade_subject_id := grant_id; ade_outcome := "issued";
               ade_metadata :=
                 list_to_map [(("manifest_sha256" : str), am_manifest_sha256 manifest);
                              (("fixture_profile_sha256" : str), fp_profile_sha256 profile);
                              (("grant_sha256" : str), grant_sha256)] |} (aa_audit self) in
          let self := {| aa_authority_id := aa_authority_id self;
                         aa_policy_snapshot_sha256 := aa_policy_snapshot_sha256 self;
                         aa_next_grant_sequence := aa_next_grant_sequence self; aa_audit := audit |} in
          match appended with
          | Err error => (Err error, self)
          | Ok _ => (Ok grant, self)
          end
      end
  end.

(** *** Sessions *)

Definition consumed_grant (grant : AdapterGrant) : AdapterGrant :=
  {| ag_grant_id := ag_grant_id grant; ag_run_id := ag_run_id grant; ag_worker_id := ag_worker_id grant;
     ag_policy_snapshot_sha256 := ag_policy_snapshot_sha256 grant;
     ag_manifest_sha256 := ag_manifest_sha256 grant;
     ag_fixture_profile_sha256 := ag_fixture_profile_sha256 grant;
     ag_allowed_actions := ag_allowed_actions grant;
     ag_issued_at_milliseconds := ag_issued_at_milliseconds grant;
     ag_expires_at_milliseconds := ag_expires_at_milliseconds grant;
     ag_grant_sha256 := ag_grant_sha256 grant; ag_consumed := true |}.

Definition grant_inactive (manifest : AdapterManifest) (grant : AdapterGrant) (profile : FixtureProfile)
    (now_milliseconds : N) : bool :=
  ag_consumed grant
  || (now_milliseconds <? ag_issued_at_milliseconds grant)
  || (ag_expires_at_milliseconds grant <=? now_milliseconds)
  || negb (bool_decide (ag_manifest_sha256 grant = am_manifest_sha256 manifest))
  || negb (bool_decide (ag_fixture_profile_sha256 grant = fp_profile_sha256 profile))
  || negb (bool_decide (ag_policy_snapshot_sha256 grant = fp_policy_snapshot_sha256 profile))
  || negb (bool_decide (ag_allowed_actions grant ⊆ am_allowed_actions manifest)).

(** The part of [open] after the grant is consumed. *)
Definition open_granted {JL : JsonLib AdapterResourceLimits} {JS : JsonLib SessionSeedTuple}
    (manifest : AdapterManifest) (grant : AdapterGrant) (profile : FixtureProfile) (now_milliseconds : N)
    : Run (Result AdapterSession BoundaryError) :=
  match adapter_hash (J := JS)
          (ag_grant_sha256 grant, ag_run_id grant, ag_worker_id grant, now_milliseconds) with
  | Err error => Done (Err error)
  | Ok session_seed =>
      let! suffix := str_prefix 24 session_seed in
      let session_id := ("adapter-session-" : str) ++ suffix in
      match limits_digest (am_limits manifest) with
      | Err error => Done (Err error)
      | Ok limits_sha256 =>
          match adapter_audit_new (ag_grant_sha256 grant) with
          | Err error => Done (Err error)
          | Ok audit =>
              let '(appended, audit) := adapter_audit_append
                {| ade_action := "adapter_session_opened"; ade_subject_id := session_id;
                   ade_outcome := "open";
                   ade_metadata :=
                     list_to_map [(("manifest_sha256" : str), am_manifest_sha256 manifest);
                                  (("fixture_profile_sha256" : str), fp_profile_sha256 profile);
                                  (("limits_sha256" : str), limits_sha256)] |} audit in
              match appended with
              | Err error => Done (Err error)
              | Ok _ =>
                  Done (Ok
                    {| as_snapshot :=
                         {| ss_session_id := session_id; ss_run_id := ag_run_id grant;
                            ss_worker_id := ag_worker_id grant;
                            ss_policy_snapshot_sha256 := ag_policy_snapshot_sha256 grant;
                            ss_manifest_sha256 := ag_manifest_sha256 grant;
                            ss_grant_sha256 := ag_grant_sha256 grant;
                            ss_fixture_profile_sha256 := ag_fixture_profile_sha256 grant;
                            ss_limits_sha256 := limits_sha256; ss_state := AsOpen;
                            ss_message_count := 0; ss_observation_count := 0; ss_input_bytes := 0;
                            ss_output_bytes := 0; ss_cpu_milliseconds := 0; ss_peak_memory_bytes := 0;
                            ss_external_io_observed := false; ss_boundary_violations := 0;
                            ss_audit_tail_hash := tail_hash audit |};
                       as_allowed_actions := ag_allowed_actions grant; as_limits := am_limits manifest;
                       as_maximum_observations := fp_maximum_observations profile;
                       as_next_sequence := 1;
                       as_expires_at_milliseconds := ag_expires_at_milliseconds grant;
                       as_audit := audit |})
              end
          end
      end
  end.

Definition session_open {JL : JsonLib AdapterResourceLimits} {JS : JsonLib SessionSeedTuple}
    (manifest : AdapterManifest) (grant : AdapterGrant) (profile : FixtureProfile) (now_milliseconds : N)
    : Run (Result AdapterSession BoundaryError * AdapterGrant) :=
  if grant_inactive manifest grant profile now_milliseconds then Done (Err AbGrantInactive, grant)
  else
    let grant := consumed_grant grant in
    let! result := open_granted manifest grant profile now_milliseconds in
    Done (result, grant).

(** An event is appended and the tail of the audit copied into the snapshot. *)
Definition session_append (event : AdapterAuditEvent) (self : AdapterSession)
    : Result unit BoundaryError * AdapterSession :=
  let '(appended, audit) := adapter_audit_append event (as_audit self) in
  let self := with_session_audit audit self in
  match appended with
  | Err error => (Err error, self)
  | Ok _ => (Ok tt, with_snapshot (set_session_tail (tail_hash audit) (as_snapshot self)) self)
  end.

Definition session_event (action outcome : str) (self : AdapterSession) : AdapterAuditEvent :=
  {| ade_action := action; ade_subject_id := ss_session_id (as_snapshot self); ade_outcome := outcome;
     ade_metadata := ∅ |}.

Definition append_state_event (outcome : str) (self : AdapterSession)
    : Result unit BoundaryError * AdapterSession :=
  session_append (session_event "adapter_session_transition" outcome self) self.

Definition fail_closed (reason : str) (self : AdapterSession) : Result unit BoundaryError * AdapterSession :=
  let snapshot := set_session_state AsFailed (as_snapshot self) in
  let snapshot :=
    set_session_violations (saturating_add (ss_boundary_violations snapshot) 1) snapshot in
  let self := with_snapshot snapshot self in
  session_append (session_event "adapter_session_failed_closed" reason self) self.

(** [self.fail_closed(reason)?; return Err(error);] *)
Definition fail_with (reason : str) (error : BoundaryError) (self : AdapterSession)
    : Result AdapterReceipt BoundaryError * AdapterSession :=
  let '(failed, self) := fail_closed reason self in
  match failed with Err e => (Err e, self) | Ok _ => (Err error, self) end.

(** The match on the action: an error, or the number of observations. *)
Definition outcome_checks (action : AdapterAction) (outcome : AdapterOutcome) (observations : N)
    : Result N BoundaryError :=
  match action with
  | Finalize =>
      if negb (bool_decide (outcome = AoFinalized))
      then Err (AbInvalidEnvelope "finalize action requires finalized outcome") else Ok observations
  | EmitObservation =>
      match outcome with
      | AoProducedObservation => Ok (saturating_add observations 1)
      | AoNoObservation => Ok observations
      | _ => Err (AbInvalidEnvelope "observation action outcome")
      end
  | LoadFixture | ExecuteReadOnly =>
      if bool_decide (outcome = AoFinalized)
      then Err (AbInvalidEnvelope "non-final action cannot finalize") else Ok observations
  end.

Definition processed_event (envelope : AdapterEnvelope) (usage : AdapterResourceUsage)
    (output_sha256 : str) (outcome : AdapterOutcome) (session_id : str) : AdapterAuditEvent :=
  {| ade_action := "adapter_envelope_processed"; ade_subject_id := session_id;
     ade_outcome := adapter_outcome_name outcome;
     ade_metadata :=
       list_to_map [(("sequence" : str), decimal (en_sequence envelope));
                    (("action" : str), adapter_action_name (en_action envelope));
                    (("input_sha256" : str), en_input_sha256 envelope);
                    (("output_sha256" : str), output_sha256);
                    (("payload_bytes" : str), decimal (en_payload_bytes envelope));
                    (("output_bytes" : str), decimal (us_output_bytes usage))] |}.

Definition session_receipt (envelope : AdapterEnvelope) (output_sha256 : str) (outcome : AdapterOutcome)
    (self : AdapterSession) : AdapterReceipt :=
  let snapshot := as_snapshot self in
  {| ac_session_id := ss_session_id snapshot; ac_sequence := en_sequence envelope;
     ac_action := en_action envelope; ac_outcome := outcome;
     ac_input_sha256 := en_input_sha256 envelope; ac_output_sha256 := output_sha256;
     ac_cumulative_messages := ss_message_count snapshot;
     ac_cumulative_input_bytes := ss_input_bytes snapshot;
     ac_cumulative_output_bytes := ss_output_bytes snapshot;
     ac_cumulative_cpu_milliseconds := ss_cpu_milliseconds snapshot;
     ac_peak_memory_bytes := ss_peak_memory_bytes snapshot; ac_state := ss_state snapshot;
     ac_audit_tail_hash := ss_audit_tail_hash snapshot |}.

Definition envelope_mismatch (envelope : AdapterEnvelope) (self : AdapterSession) : bool :=
  negb (bool_decide (en_session_id envelope = ss_session_id (as_snapshot self)))
  || negb (en_sequence envelope =? as_next_sequence self)
  || negb (bool_decide (en_fixture_profile_sha256 envelope = ss_fixture_profile_sha256 (as_snapshot self)))
  || negb (bool_decide (en_action envelope ∈ as_allowed_actions self)).

Definition session_execute (envelope : AdapterEnvelope) (usage : AdapterResourceUsage)
    (output_sha256 : str) (outcome : AdapterOutcome) (now_milliseconds : N) (self : AdapterSession)
    : Result AdapterReceipt BoundaryError * AdapterSession :=
  let snapshot := as_snapshot self in
  let limits := as_limits self in
  match adapter_validate_sha256 output_sha256 "adapter output" with
  | Err error => (Err error, self)
  | Ok _ =>
  if negb (bool_decide (ss_state snapshot = AsOpen)) then (Err AbInvalidSessionTransition, self)
  else if as_expires_at_milliseconds self <=? now_milliseconds
  then fail_with "grant_expired" AbGrantInactive self
  else if envelope_mismatch envelope self
  then (Err (AbInvalidEnvelope "session, sequence, fixture or action binding"), self)
  else if (al_maximum_message_bytes limits <? us_output_bytes usage)
          || (al_maximum_message_bytes limits <? en_payload_bytes envelope)
  then fail_with "message_byte_limit" (AbQuotaExceeded "message bytes") self
  else
  let next_messages := saturating_add (ss_message_count snapshot) 1 in
  let next_input := saturating_add (ss_input_bytes snapshot) (en_payload_bytes envelope) in
  let next_output := saturating_add (ss_output_bytes snapshot) (us_output_bytes usage) in
  let next_cpu := saturating_add (ss_cpu_milliseconds snapshot) (us_cpu_milliseconds usage) in
  let next_peak_memory := N.max (ss_peak_memory_bytes snapshot) (us_peak_memory_bytes usage) in
  if (al_maximum_messages limits <? next_messages)
     || (al_maximum_session_bytes limits <? saturating_add next_input next_output)
     || (al_maximum_cpu_milliseconds limits <? next_cpu)
     || (al_maximum_memory_bytes limits <? next_peak_memory)
  then fail_with "session_resource_limit" (AbQuotaExceeded "session resources") self
  else
  match outcome_checks (en_action envelope) outcome (ss_observation_count snapshot) with
  | Err error => (Err error, self)
  | Ok observations =>
  let self := with_snapshot (set_session_observations observations snapshot) self in
  if bool_decide (en_action envelope = EmitObservation) && bool_decide (outcome = AoProducedObservation)
     && (as_maximum_observations self <? observations)
  then fail_with "observation_limit" (AbQuotaExceeded "observations") self
  else
  let state := if bool_decide (en_action envelope = Finalize) then AsCompleted else AsOpen in
  let self :=
    {| as_snapshot :=
         update_snapshot state next_messages observations next_input next_output next_cpu next_peak_memory
           (ss_boundary_violations snapshot) (ss_audit_tail_hash snapshot) snapshot;
       as_allowed_actions := as_allowed_actions self; as_limits := limits;
       as_maximum_observations := as_maximum_observations self;
       as_next_sequence := saturating_add (as_next_sequence self) 1;
       as_expires_at_milliseconds := as_expires_at_milliseconds self; as_audit := as_audit self |} in
  let '(appended, self) :=
    session_append (processed_event envelope usage output_sha256 outcome (ss_session_id snapshot)) self in
  match appended with
  | Err error => (Err error, self)
  | Ok _ => (Ok (session_receipt envelope output_sha256 outcome self), self)
  end
  end
  end.

(** A transition from a state the guard accepts, with its event. *)
Definition session_transition (guard : AdapterSessionState -> bool) (state : AdapterSessionState)
    (outcome : str) (self : AdapterSession) : Result unit BoundaryError * AdapterSession :=
  if negb (guard (ss_state (as_snapshot self))) then (Err AbInvalidSessionTransition, self)
  else append_state_event outcome (with_snapshot (set_session_state state (as_snapshot self)) self).

Definition request_cancel : AdapterSession -> Result unit BoundaryError * AdapterSession :=
  session_transition (fun state => bool_decide (state = AsOpen)) AsCancelling "cancel_requested".
Definition acknowledge_cancel : AdapterSession -> Result unit BoundaryError * AdapterSession :=
  session_transition (fun state => bool_decide (state = AsCancelling)) AsCancelled "cancelled".
Definition session_emergency_stop : AdapterSession -> Result unit BoundaryError * AdapterSession :=
  session_transition (fun state => negb (session_is_terminal state)) AsEmergencyStopped "emergency_stopped".

(** *** Certificates *)

Definition certificate_tuple (self : AdapterConformanceCertificate) : CertificateTuple :=
  ((cf_certificate_id self, cf_authority_id self, cf_session_id self, cf_run_id self, cf_worker_id self,
    cf_policy_snapshot_sha256 self, cf_manifest_sha256 self, cf_grant_sha256 self,
    cf_fixture_profile_sha256 self, cf_limits_sha256 self, cf_session_audit_tail_hash self,
    cf_fixture_registry_audit_tail_hash self),
   (cf_message_count self, cf_observation_count self, cf_external_io_observed self,
    cf_boundary_violations self)).

Definition conformance_verify {JC : JsonLib CertificateTuple} (self : AdapterConformanceCertificate)
    : Result unit BoundaryError :=
  let? _ := adapter_validate_hashes
    [(("policy" : str), cf_policy_snapshot_sha256 self); (("manifest" : str), cf_manifest_sha256 self);
     (("grant" : str), cf_grant_sha256 self); (("fixture profile" : str), cf_fixture_profile_sha256 self);
     (("limits" : str), cf_limits_sha256 self); (("session audit" : str), cf_session_audit_tail_hash self);
     (("fixture registry audit" : str), cf_fixture_registry_audit_tail_hash self);
     (("certificate" : str), cf_certificate_sha256 self)] in
  let? expected := adapter_hash (J := JC) (certificate_tuple self) in
  if negb (bool_decide (expected = cf_certificate_sha256 self)) || (cf_message_count self =? 0)
     || cf_external_io_observed self || negb (cf_boundary_violations self =? 0)
  then Err (AbCertificationDenied "certificate digest or safety closure") else Ok tt.

Definition conformance_authority_new (authority_id policy_snapshot_sha256 audit_genesis : str)
    : Result AdapterConformanceAuthority BoundaryError :=
  let? _ := adapter_validate_identifier authority_id "conformance authority" in
  let? _ := adapter_validate_sha256 policy_snapshot_sha256 "conformance policy" in
  let? audit := adapter_audit_new audit_genesis in
  Ok {| co_authority_id := authority_id; co_policy_snapshot_sha256 := policy_snapshot_sha256;
        co_audit := audit |}.

(** The closure [certify] checks; the digest of the limits is computed last. *)
Definition session_not_closed {JL : JsonLib AdapterResourceLimits} (policy : str) (session : AdapterSession)
    (registry : FixtureRegistry) (profile : FixtureProfile) : Result bool BoundaryError :=
  let snapshot := as_snapshot session in
  if negb (bool_decide (ss_state snapshot = AsCompleted))
     || negb (bool_decide (ss_policy_snapshot_sha256 snapshot = policy))
     || negb (bool_decide (ss_policy_snapshot_sha256 snapshot = fp_policy_snapshot_sha256 profile))
     || negb (bool_decide (ss_fixture_profile_sha256 snapshot = fp_profile_sha256 profile))
     || negb (contains_exact profile registry) || (ss_message_count snapshot =? 0)
     || ss_external_io_observed snapshot || negb (ss_boundary_violations snapshot =? 0)
  then Ok true
  else
    let? digest := limits_digest (as_limits session) in
    Ok (negb (bool_decide (ss_limits_sha256 snapshot = digest))).

Definition conformance_draft (certificate_id authority_id : str) (session : AdapterSession)
    (registry_tail certificate_sha256 : str) : AdapterConformanceCertificate :=
  let snapshot := as_snapshot session in
  {| cf_certificate_id := certificate_id; cf_authority_id := authority_id;
     cf_session_id := ss_session_id snapshot; cf_run_id := ss_run_id snapshot;
     cf_worker_id := ss_worker_id snapshot;
     cf_policy_snapshot_sha256 := ss_policy_snapshot_sha256 snapshot;
     cf_manifest_sha256 := ss_manifest_sha256 snapshot; cf_grant_sha256 := ss_grant_sha256 snapshot;
     cf_fixture_profile_sha256 := ss_fixture_profile_sha256 snapshot;
     cf_limits_sha256 := ss_limits_sha256 snapshot;
     cf_session_audit_tail_hash := ss_audit_tail_hash snapshot;
     cf_fixture_registry_audit_tail_hash := registry_tail;
     cf_message_count := ss_message_count snapshot;
     cf_observation_count := ss_observation_count snapshot;
     cf_external_io_observed := ss_external_io_observed snapshot;
     cf_boundary_violations := ss_boundary_violations snapshot;
     cf_certificate_sha256 := certificate_sha256 |}.

(** The certificate of [certify], before it is recorded. *)
Definition conformance_certificate {JL : JsonLib AdapterResourceLimits} {JC : JsonLib CertificateTuple}
    {JI : JsonLib CertificateSeedTuple} (session : AdapterSession) (registry : FixtureRegistry)
    (profile : FixtureProfile) (self : AdapterConformanceAuthority)
    : Run (Result AdapterConformanceCertificate BoundaryError) :=
  let snapshot := as_snapshot session in
  let registry_tail := tail_hash (fr_audit registry) in
  match (let? _ := adapter_audit_verify (as_audit session) in
         let? _ := adapter_audit_verify (fr_audit registry) in
         let? open := session_not_closed (co_policy_snapshot_sha256 self) session registry profile in
         if (open : bool)
         then Err (AbCertificationDenied "session, policy, fixture, quota or audit closure")
         else adapter_hash (J := JI) (co_authority_id self, ss_session_id snapshot,
                                      ss_audit_tail_hash snapshot, registry_tail)) with
  | Err error => Done (Err error)
  | Ok seed =>
      let! suffix := str_prefix 24 seed in
      let certificate_id := ("adapter-conformance-" : str) ++ suffix in
      Done (let? certificate_sha256 :=
              adapter_hash (J := JC)
                (certificate_tuple
                   (conformance_draft certificate_id (co_authority_id self) session registry_tail [])) in
            let certificate :=
              conformance_draft certificate_id (co_authority_id self) session registry_tail
                certificate_sha256 in
            let? _ := conformance_verify certificate in
            Ok certificate)
  end.

Definition conformance_certify {JL : JsonLib AdapterResourceLimits} {JC : JsonLib CertificateTuple}
    {JI : JsonLib CertificateSeedTuple} (session : AdapterSession) (registry : FixtureRegistry)
    (profile : FixtureProfile) (self : AdapterConformanceAuthority)
    : Run (Result AdapterConformanceCertificate BoundaryError * AdapterConformanceAuthority) :=
  let! result := conformance_certificate session registry profile self in
  match result with
  | Err error => Done (Err error, self)
  | Ok certificate =>
      let '(appended, audit) := adapter_audit_append
        {| ade_action := "adapter_conformance_certified";
           ade_subject_id := cf_certificate_id certificate; ade_outcome := "certified";
           ade_metadata :=
             list_to_map [(("session_id" : str), cf_session_id certificate);
                          (("certificate_sha256" : str), cf_certificate_sha256 certificate)] |}
        (co_audit self) in
      let self := {| co_authority_id := co_authority_id self;
                     co_policy_snapshot_sha256 := co_policy_snapshot_sha256 self;
                     co_audit := audit |} in
      match appended with
      | Err error => Done (Err error, self)
      | Ok _ => Done (Ok certificate, self)
      end
  end.

End Adapter.
