(* ===== verification/AdapterFacts.v ===== *)
(** * What the adapter boundary guarantees

    A grant admits what was asked within the manifest; a session keeps its limits on
    messages, bytes, time, memory and emitted observations and answers in sequence
    along every history; a certificate is given only for a
    completed session without violations. *)

From S2P Require Import Prelude ByteStr BTree HashChain HttpSyntax Validation ValidationFacts Adapter.
Local Open Scope N_scope.

Section Facts.
Context {S : Sha256Lib} {JA : JsonLib (HashMaterial AdapterAuditEvent)}.

Lemma adapter_append_spec event chain r chain' :
  adapter_audit_append event chain = (r, chain') ->
  (chain_ok chain -> chain_ok chain')
  /\ match r with
     | Ok rec => records chain' = records chain ++ [rec] /\ HashChain.event rec = event
     | Err _ => chain' = chain
     end.
Proof.
  unfold adapter_audit_append. destruct (chain_append event chain) as [r0 c0] eqn:Ha.
  intros [= <- <-]. split; [intros Hok; by eapply chain_append_ok|].
  apply chain_append_spec in Ha. destruct r0; cbn; [|done]. naive_solver.
Qed.

Lemma adapter_append_total `{!JsonTotal (HashMaterial AdapterAuditEvent)} event chain :
  exists rec chain', adapter_audit_append event chain = (Ok rec, chain').
Proof.
  unfold adapter_audit_append. destruct (chain_append_total event chain) as (rec & c & ->). eauto.
Qed.

Lemma adapter_audit_new_ok genesis audit : adapter_audit_new genesis = Ok audit -> chain_ok audit.
Proof.
  unfold adapter_audit_new, chain_new_anchored. destruct (negb _); simpl; [done|]. intros [= <-].
  apply chain_new_ok.
Qed.

Lemma adapter_hash_spec {A} {J : JsonLib A} (value : A) h :
  adapter_hash value = Ok h <-> exists bytes, to_vec value = Ok bytes /\ h = adapter_hash_bytes bytes.
Proof. unfold adapter_hash. destruct (to_vec value); simpl; naive_solver. Qed.

Lemma adapter_hash_total {A} {J : JsonLib A} `{!JsonTotal A} (value : A) :
  exists h, adapter_hash value = Ok h.
Proof. unfold adapter_hash. destruct (to_vec_total value) as [b ->]. simpl. eauto. Qed.

Lemma adapter_hash_hex `{!Sha256Laws} {A} {J : JsonLib A} (value : A) h :
  adapter_hash value = Ok h -> is_lower_hex_sha256 h = true.
Proof.
  rewrite adapter_hash_spec. intros (bytes & _ & ->). apply to_lower_hex_sha256.
  pose proof (sha256_length bytes) as Hl. unfold len in Hl. lia.
Qed.

(** ** Limits *)

Definition adapter_limits_ok (l : AdapterResourceLimits) : Prop :=
  al_maximum_messages l <= MAX_SESSION_MESSAGES /\ al_maximum_session_bytes l <= MAX_SESSION_BYTES
  /\ al_maximum_cpu_milliseconds l <= MAX_CPU_MILLISECONDS /\ al_maximum_memory_bytes l <= MAX_MEMORY_BYTES.

Lemma adapter_limits_new_ok a b c d e l : adapter_limits_new a b c d e = Ok l -> adapter_limits_ok l.
Proof. unfold adapter_limits_new, adapter_limits_ok. intros H. inv_ok H. bools. cbn. auto. Qed.

(** ** The session *)

(** What holds of a session at every point of its life. *)
Record session_ok (s : AdapterSession) : Prop := {
  sok_audit : chain_ok (as_audit s);
  sok_tail : ss_audit_tail_hash (as_snapshot s) = tail_hash (as_audit s);
  sok_limits : adapter_limits_ok (as_limits s);
  sok_messages : ss_message_count (as_snapshot s) <= al_maximum_messages (as_limits s);
  sok_bytes : ss_input_bytes (as_snapshot s) + ss_output_bytes (as_snapshot s)
              <= al_maximum_session_bytes (as_limits s);
  sok_cpu : ss_cpu_milliseconds (as_snapshot s) <= al_maximum_cpu_milliseconds (as_limits s);
  sok_memory : ss_peak_memory_bytes (as_snapshot s) <= al_maximum_memory_bytes (as_limits s);
  sok_observations : ss_state (as_snapshot s) <> AsFailed ->
    ss_observation_count (as_snapshot s) <= as_maximum_observations s;
  sok_counted : ss_state (as_snapshot s) <> AsFailed ->
    ss_observation_count (as_snapshot s) <= ss_message_count (as_snapshot s);
  sok_sequence : as_next_sequence s = ss_message_count (as_snapshot s) + 1;
  sok_violations : ss_boundary_violations (as_snapshot s)
                   = if decide (ss_state (as_snapshot s) = AsFailed) then 1 else 0;
  sok_external : ss_external_io_observed (as_snapshot s) = false;
  sok_completed : ss_state (as_snapshot s) = AsCompleted -> 0 < ss_message_count (as_snapshot s)
}.

(** The fields a session never changes. *)
Definition session_frame (s s' : AdapterSession) : Prop :=
  as_allowed_actions s' = as_allowed_actions s /\ as_limits s' = as_limits s
  /\ as_maximum_observations s' = as_maximum_observations s
  /\ as_expires_at_milliseconds s' = as_expires_at_milliseconds s
  /\ ss_session_id (as_snapshot s') = ss_session_id (as_snapshot s)
  /\ ss_policy_snapshot_sha256 (as_snapshot s') = ss_policy_snapshot_sha256 (as_snapshot s)
  /\ ss_manifest_sha256 (as_snapshot s') = ss_manifest_sha256 (as_snapshot s)
  /\ ss_grant_sha256 (as_snapshot s') = ss_grant_sha256 (as_snapshot s)
  /\ ss_fixture_profile_sha256 (as_snapshot s') = ss_fixture_profile_sha256 (as_snapshot s)
  /\ ss_limits_sha256 (as_snapshot s') = ss_limits_sha256 (as_snapshot s).

Lemma session_frame_refl s : session_frame s s.
Proof. by unfold session_frame. Qed.
Lemma session_frame_trans s1 s2 s3 : session_frame s1 s2 -> session_frame s2 s3 -> session_frame s1 s3.
Proof. unfold session_frame. intros H1 H2. destruct_and!. split_and!; congruence. Qed.

(** Appending an event changes only the audit and its copy in the snapshot. *)
Lemma session_append_spec event s r s' :
  session_append event s = (r, s') ->
  session_frame s s'
  /\ ss_state (as_snapshot s') = ss_state (as_snapshot s)
  /\ ss_message_count (as_snapshot s') = ss_message_count (as_snapshot s)
  /\ as_next_sequence s' = as_next_sequence s
  /\ (session_ok s -> session_ok s').
Proof.
  unfold session_append. destruct (adapter_audit_append event (as_audit s)) as [ar audit] eqn:Ha.
  apply adapter_append_spec in Ha as [Hok Hr]. intros Hs.
  destruct ar as [rec|e]; simplify_eq; split_and!; try done; intros []; constructor; cbn; auto; congruence.
Qed.

Lemma session_append_total `{!JsonTotal (HashMaterial AdapterAuditEvent)} event s :
  exists s', session_append event s = (Ok tt, s').
Proof.
  unfold session_append. destruct (adapter_append_total event (as_audit s)) as (rec & c & ->). eauto.
Qed.

(** The session as [fail_closed] leaves it, before the event is appended. *)
Definition failed_session (observations : N) (s : AdapterSession) : AdapterSession :=
  let snapshot := set_session_state AsFailed (set_session_observations observations (as_snapshot s)) in
  with_snapshot (set_session_violations (saturating_add (ss_boundary_violations snapshot) 1) snapshot) s.

Lemma failed_session_ok n s :
  session_ok s -> ss_state (as_snapshot s) = AsOpen -> session_ok (failed_session n s).
Proof.
  intros [] Hs. constructor; cbn; auto; try done. rewrite sok_violations0, Hs. by rewrite decide_False.
Qed.

Lemma fail_closed_spec n reason s r s' :
  fail_closed reason (with_snapshot (set_session_observations n (as_snapshot s)) s) = (r, s') ->
  ss_state (as_snapshot s) = AsOpen ->
  session_frame s s' /\ ss_state (as_snapshot s') = AsFailed
  /\ ss_message_count (as_snapshot s') = ss_message_count (as_snapshot s)
  /\ as_next_sequence s' = as_next_sequence s
  /\ (session_ok s -> session_ok s').
Proof.
  intros Hf Hs. change (session_append (session_event "adapter_session_failed_closed" reason
    (failed_session n s)) (failed_session n s) = (r, s')) in Hf.
  apply session_append_spec in Hf as (Hfr & Hst & Hm & Hn & Hok).
  split_and!; auto. intros Hs0. apply Hok. by apply failed_session_ok.
Qed.

(** The session after an accepted envelope, before its event is appended. *)
Definition advanced_session (envelope : AdapterEnvelope) (usage : AdapterResourceUsage) (observations : N)
    (s : AdapterSession) : AdapterSession :=
  let snapshot := as_snapshot s in
  {| as_snapshot :=
       update_snapshot (if bool_decide (en_action envelope = Finalize) then AsCompleted else AsOpen)
         (saturating_add (ss_message_count snapshot) 1) observations
         (saturating_add (ss_input_bytes snapshot) (en_payload_bytes envelope))
         (saturating_add (ss_output_bytes snapshot) (us_output_bytes usage))
         (saturating_add (ss_cpu_milliseconds snapshot) (us_cpu_milliseconds usage))
         (N.max (ss_peak_memory_bytes snapshot) (us_peak_memory_bytes usage))
         (ss_boundary_violations snapshot) (ss_audit_tail_hash snapshot) snapshot;
     as_allowed_actions := as_allowed_actions s; as_limits := as_limits s;
     as_maximum_observations := as_maximum_observations s;
     as_next_sequence := saturating_add (as_next_sequence s) 1;
     as_expires_at_milliseconds := as_expires_at_milliseconds s; as_audit := as_audit s |}.

(** What must hold for an envelope to be accepted. *)
Definition acceptable (envelope : AdapterEnvelope) (usage : AdapterResourceUsage) (outcome : AdapterOutcome)
    (now observations : N) (s : AdapterSession) : Prop :=
  let a := advanced_session envelope usage observations s in
  ss_state (as_snapshot s) = AsOpen /\ now < as_expires_at_milliseconds s
  /\ en_session_id envelope = ss_session_id (as_snapshot s) /\ en_sequence envelope = as_next_sequence s
  /\ en_action envelope ∈ as_allowed_actions s
  /\ ss_message_count (as_snapshot a) <= al_maximum_messages (as_limits s)
  /\ saturating_add (ss_input_bytes (as_snapshot a)) (ss_output_bytes (as_snapshot a))
     <= al_maximum_session_bytes (as_limits s)
  /\ ss_cpu_milliseconds (as_snapshot a) <= al_maximum_cpu_milliseconds (as_limits s)
  /\ ss_peak_memory_bytes (as_snapshot a) <= al_maximum_memory_bytes (as_limits s)
  /\ outcome_checks (en_action envelope) outcome (ss_observation_count (as_snapshot s)) = Ok observations
  /\ (observations = ss_observation_count (as_snapshot s) \/ observations <= as_maximum_observations s)
  /\ en_payload_bytes envelope <= al_maximum_message_bytes (as_limits s)
  /\ us_output_bytes usage <= al_maximum_message_bytes (as_limits s).

Lemma set_session_observations_id sn : set_session_observations (ss_observation_count sn) sn = sn.
Proof. by destruct sn. Qed.
Lemma with_snapshot_id s : with_snapshot (as_snapshot s) s = s.
Proof. by destruct s. Qed.

Lemma outcome_checks_ok action outcome n m :
  outcome_checks action outcome n = Ok m ->
  m = n \/ (action = EmitObservation /\ outcome = AoProducedObservation /\ m = saturating_add n 1).
Proof. destruct action, outcome; cbn; intros H; repeat step_in H; simplify_eq; auto. Qed.

Lemma session_execute_cases envelope usage out outcome now s r s' :
  session_execute envelope usage out outcome now s = (r, s') ->
  (s' = s /\ exists e, r = Err e)
  \/ (ss_state (as_snapshot s) = AsOpen /\ (exists e, r = Err e)
      /\ exists n reason r0,
           fail_closed reason (with_snapshot (set_session_observations n (as_snapshot s)) s) = (r0, s'))
  \/ exists n ar, acceptable envelope usage outcome now n s
      /\ session_append (processed_event envelope usage out outcome (ss_session_id (as_snapshot s)))
           (advanced_session envelope usage n s) = (ar, s')
      /\ r = match ar with Ok _ => Ok (session_receipt envelope out outcome s') | Err e => Err e end.
Proof.
  intros H.
  assert (forall reason error,
    fail_with reason error s = (r, s') -> ss_state (as_snapshot s) = AsOpen ->
    ss_state (as_snapshot s) = AsOpen /\ (exists e, r = Err e)
    /\ exists n reason r0,
         fail_closed reason (with_snapshot (set_session_observations n (as_snapshot s)) s) = (r0, s')) as Hfail.
  { intros reason error Hf Hs. unfold fail_with in Hf. destruct (fail_closed reason s) as [fr fs] eqn:Ef.
    split_and!; [done|destruct fr; simplify_eq; eauto|]. exists (ss_observation_count (as_snapshot s)), reason, fr.
    rewrite set_session_observations_id, with_snapshot_id, Ef. destruct fr; by simplify_eq. }
  unfold session_execute in H. destruct (adapter_validate_sha256 _ _); [|simplify_eq; eauto].
  destruct (bool_decide (ss_state (as_snapshot s) = AsOpen)) eqn:Eo; cbn [negb] in H; [|simplify_eq; eauto].
  bools. destruct (as_expires_at_milliseconds s <=? now) eqn:Ex; [right; left; by eapply Hfail|].
  destruct (envelope_mismatch envelope s) eqn:Em; [simplify_eq; eauto|].
  unfold envelope_mismatch in Em. bools.
  destruct (_ || _) eqn:E1 in H; [right; left; by eapply Hfail|].
  destruct (_ || _) eqn:E2 in H; [right; left; by eapply Hfail|]. bools.
  destruct (outcome_checks _ _ _) as [n|e] eqn:Ec; [|simplify_eq; eauto].
  destruct (_ && _) eqn:E3 in H.
  - right. left. unfold fail_with in H. destruct (fail_closed _ _) as [fr fs] eqn:Ef in H.
    split_and!; [done|destruct fr; simplify_eq; eauto|]. eexists n, _, fr. rewrite Ef.
    destruct fr; by simplify_eq.
  - right. right. destruct (session_append _ _) as [ar s1] eqn:Ea in H. exists n, ar. split_and!.
    + unfold acceptable. cbn. split_and!; auto.
      destruct (outcome_checks_ok _ _ _ _ Ec) as [->|[Ha [-> _]]]; [by left|]. right.
      rewrite Ha in E3. rewrite !bool_decide_eq_true_2 in E3 by done. cbn in E3. by bools.
    + destruct ar; simplify_eq; exact Ea.
    + destruct ar; by simplify_eq.
Qed.

Lemma advanced_session_ok envelope usage outcome now n s :
  session_ok s -> acceptable envelope usage outcome now n s -> session_ok (advanced_session envelope usage n s)
  /\ ss_message_count (as_snapshot (advanced_session envelope usage n s))
     = ss_message_count (as_snapshot s) + 1.
Proof.
  intros [] (Ho & _ & _ & _ & _ & Hm & Hb & Hc & Hp & Hcheck & Hn & _). cbn in Hm, Hb, Hc, Hp.
  pose proof sok_limits0 as (L1 & L2 & L3 & L4).
  assert (al_maximum_messages (as_limits s) < u64_max) as U1 by (eapply N.le_lt_trans; [exact L1|done]).
  assert (al_maximum_session_bytes (as_limits s) < u64_max) as U2 by (eapply N.le_lt_trans; [exact L2|done]).
  pose proof (saturating_add_exact _ _ _ Hm U1) as Em.
  pose proof (saturating_add_exact _ _ _ Hb U2) as Eb. rewrite Eb in Hb.
  split; [|exact Em]. constructor; cbn; auto.
  - intros _. destruct Hn as [->|Hn]; [|exact Hn]. apply sok_observations0. by rewrite Ho.
  - intros _. rewrite Em. specialize (sok_counted0 ltac:(by rewrite Ho)).
    apply outcome_checks_ok in Hcheck as [->|(_ & _ & ->)]; [lia|]. unfold saturating_add. lia.
  - rewrite Em, sok_sequence0. apply (saturating_add_small _ _ u64_max); [|lia]. rewrite Em in Hm. lia.
  - rewrite sok_violations0, Ho. by case_bool_decide.
  - intros _. rewrite Em. lia.
Qed.

Lemma session_execute_ok envelope usage out outcome now s r s' :
  session_ok s -> session_execute envelope usage out outcome now s = (r, s') ->
  session_ok s' /\ session_frame s s'.
Proof.
  intros Hok [(-> & _)|[(Ho & _ & n & reason & r0 & Hf)|(n & ar & Hacc & Ha & _)]]%session_execute_cases.
  - split; [done|apply session_frame_refl].
  - apply fail_closed_spec in Hf as (Hfr & _ & _ & _ & Hk); auto.
  - apply (advanced_session_ok _ _ _ _ _ _ Hok) in Hacc as [Hadv _].
    apply session_append_spec in Ha as (Hfr & _ & _ & _ & Hk). auto.
Qed.

Lemma session_transition_spec guard state outcome s r s' :
  session_transition guard state outcome s = (r, s') ->
  (s' = s /\ guard (ss_state (as_snapshot s)) = false /\ exists e, r = Err e)
  \/ (guard (ss_state (as_snapshot s)) = true
      /\ session_append (session_event "adapter_session_transition" outcome s)
           (with_snapshot (set_session_state state (as_snapshot s)) s) = (r, s')).
Proof.
  unfold session_transition. destruct (guard _); cbn; [right|left]; [done|]. simplify_eq. naive_solver.
Qed.

Lemma session_transition_ok guard state outcome s r s' :
  session_ok s -> session_transition guard state outcome s = (r, s') ->
  (forall st, guard st = true -> st <> AsFailed) -> state <> AsFailed -> state <> AsCompleted ->
  session_ok s' /\ session_frame s s'.
Proof.
  intros Hok [(-> & _)|(Hg & Ha)]%session_transition_spec Hgf Hf Hc; [split; [done|apply session_frame_refl]|].
  apply session_append_spec in Ha as (Hfr & _ & _ & _ & Hk). split; [|exact Hfr]. apply Hk.
  specialize (Hgf _ Hg). destruct Hok. constructor; cbn; auto; [|naive_solver].
  rewrite sok_violations0. by rewrite !decide_False.
Qed.

(** ** Histories *)

Inductive SessionCall : Type :=
  | CallExecute (envelope : AdapterEnvelope) (usage : AdapterResourceUsage) (output_sha256 : str)
      (outcome : AdapterOutcome) (now : N)
  | CallRequestCancel
  | CallAcknowledgeCancel
  | CallEmergencyStop.

(** One call: the receipt it returned, if any, and the session. *)
Definition session_call (call : SessionCall) (s : AdapterSession) : option AdapterReceipt * AdapterSession :=
  match call with
  | CallExecute envelope usage out outcome now =>
      let '(r, s') := session_execute envelope usage out outcome now s in
      (match r with Ok receipt => Some receipt | Err _ => None end, s')
  | CallRequestCancel => (None, (request_cancel s).2)
  | CallAcknowledgeCancel => (None, (acknowledge_cancel s).2)
  | CallEmergencyStop => (None, (session_emergency_stop s).2)
  end.

Fixpoint session_history (calls : list SessionCall) (s : AdapterSession)
    : list AdapterReceipt * AdapterSession :=
  match calls with
  | [] => ([], s)
  | call :: rest =>
      let '(receipt, s1) := session_call call s in
      let '(receipts, s2) := session_history rest s1 in
      (option_list receipt ++ receipts, s2)
  end.

Lemma session_call_ok call s r s' :
  session_ok s -> session_call call s = (r, s') -> session_ok s' /\ session_frame s s'.
Proof.
  intros Hok H. destruct call; cbn in H.
  - destruct (session_execute _ _ _ _ _ _) as [er es] eqn:E. simplify_eq. by eapply session_execute_ok.
  - unfold request_cancel in H. destruct (session_transition _ _ _ _) as [tr ts] eqn:E. simplify_eq.
    eapply session_transition_ok; eauto; [|done..]. by intros [].
  - unfold acknowledge_cancel in H. destruct (session_transition _ _ _ _) as [tr ts] eqn:E. simplify_eq.
    eapply session_transition_ok; eauto; [|done..]. by intros [].
  - unfold session_emergency_stop in H. destruct (session_transition _ _ _ _) as [tr ts] eqn:E. simplify_eq.
    eapply session_transition_ok; eauto; [|done..]. by intros [].
Qed.

(** A terminal session refuses every call and stays as it is. *)
Lemma session_call_terminal call s :
  session_is_terminal (ss_state (as_snapshot s)) = true -> session_call call s = (None, s).
Proof.
  intros Ht. destruct call; cbn.
  - unfold session_execute. destruct (adapter_validate_sha256 _ _); [|done].
    rewrite bool_decide_eq_false_2; [done|]. intros Ho. by rewrite Ho in Ht.
  - unfold request_cancel, session_transition. rewrite bool_decide_eq_false_2; [done|].
    intros Ho. by rewrite Ho in Ht.
  - unfold acknowledge_cancel, session_transition. rewrite bool_decide_eq_false_2; [done|].
    intros Ho. by rewrite Ho in Ht.
  - unfold session_emergency_stop, session_transition. by rewrite Ht.
Qed.

Lemma session_history_terminal calls s :
  session_is_terminal (ss_state (as_snapshot s)) = true -> session_history calls s = ([], s).
Proof.
  intros Ht. induction calls as [|call calls IH]; [done|]. cbn. by rewrite session_call_terminal, IH.
Qed.

Lemma session_history_ok calls s rs s' :
  session_ok s -> session_history calls s = (rs, s') -> session_ok s' /\ session_frame s s'.
Proof.
  revert s rs. induction calls as [|call calls IH]; intros s rs Hok H; cbn in H.
  - simplify_eq. split; [done|apply session_frame_refl].
  - destruct (session_call call s) as [r s1] eqn:E1. destruct (session_history calls s1) as [rs2 s2] eqn:E2.
    simplify_eq. apply session_call_ok in E1 as [Hok1 Hf1]; [|done].
    apply IH in E2 as [Hok2 Hf2]; [|done]. split; [done|by eapply session_frame_trans].
Qed.

(** A receipt is for the next message; a call without one accepts no message. *)
Lemma session_call_receipt `{!JsonTotal (HashMaterial AdapterAuditEvent)} call s r s' :
  session_ok s -> session_call call s = (r, s') ->
  match r with
  | Some receipt =>
      ss_message_count (as_snapshot s') = ss_message_count (as_snapshot s) + 1
      /\ ac_sequence receipt = ss_message_count (as_snapshot s')
      /\ ac_action receipt ∈ as_allowed_actions s
      /\ ac_audit_tail_hash receipt = tail_hash (as_audit s')
  | None => ss_message_count (as_snapshot s') = ss_message_count (as_snapshot s)
  end.
Proof.
  intros Hok H.
  assert (forall guard state outcome,
    ss_message_count (as_snapshot (session_transition guard state outcome s).2)
    = ss_message_count (as_snapshot s)) as Htr.
  { intros guard state outcome. destruct (session_transition _ _ _ _) as [tr ts] eqn:E.
    apply session_transition_spec in E as [(-> & _)|(_ & Ha)]; [done|].
    cbn. by apply session_append_spec in Ha as (_ & _ & -> & _). }
  destruct call; cbn in H; [|simplify_eq; apply Htr..].
  destruct (session_execute _ _ _ _ _ _) as [er es] eqn:E. simplify_eq.
  pose proof (session_execute_ok _ _ _ _ _ _ _ _ Hok E) as [Hok' _].
  apply session_execute_cases in E as [(-> & e & ->)|[(Ho & (e & ->) & n & reason & r0 & Hf)|(n & ar & Hacc & Ha & ->)]];
    [done| |].
  - by apply fail_closed_spec in Hf as (_ & _ & -> & _).
  - destruct (session_append_total (processed_event envelope usage output_sha256 outcome
      (ss_session_id (as_snapshot s))) (advanced_session envelope usage n s)) as [s1 Hs1].
    rewrite Hs1 in Ha. injection Ha as <- <-. apply session_append_spec in Hs1 as (_ & _ & Hm & _).
    destruct (advanced_session_ok _ _ _ _ _ _ Hok Hacc) as [_ Hadv]. rewrite Hm, Hadv.
    destruct Hacc as (_ & _ & _ & Hseq & Hact & _). cbn. split_and!; auto.
    + by rewrite Hseq, (sok_sequence _ Hok).
    + apply Hok'.
Qed.

Lemma session_history_receipts `{!JsonTotal (HashMaterial AdapterAuditEvent)} calls s rs s' :
  session_ok s -> session_history calls s = (rs, s') ->
  ss_message_count (as_snapshot s') = ss_message_count (as_snapshot s) + len rs
  /\ map ac_sequence rs = map (fun i => ss_message_count (as_snapshot s) + N.of_nat i) (seq 1 (length rs))
  /\ Forall (fun receipt => ac_action receipt ∈ as_allowed_actions s) rs.
Proof.
  revert s rs. induction calls as [|call calls IH]; intros s rs Hok H; cbn in H.
  { simplify_eq. cbn. unfold len. cbn. split_and!; [lia|done|constructor]. }
  destruct (session_call call s) as [r s1] eqn:E1. destruct (session_history calls s1) as [rs2 s2] eqn:E2.
  simplify_eq. pose proof (session_call_ok _ _ _ _ Hok E1) as [Hok1 Hf1].
  apply IH in E2 as (Hm & Hs & Ha); [|done]. apply session_call_receipt in E1; [|done].
  replace (as_allowed_actions s1) with (as_allowed_actions s) in Ha by (symmetry; apply Hf1).
  destruct r as [receipt|]; simpl.
  - destruct E1 as (E1 & Eseq & Eact & _). rewrite E1 in *. rewrite len_cons. split_and!; [lia| |by constructor].
    rewrite Eseq, Hs, <- (seq_shift (length rs2) 1), map_map. f_equal. apply map_ext. intros i. lia.
  - rewrite E1 in *. split_and!; auto.
Qed.

(** *** Quotas of a history *)

(** The receipt of an emitted observation. *)
Definition emits (r : AdapterReceipt) : bool :=
  bool_decide (ac_action r = EmitObservation) && bool_decide (ac_outcome r = AoProducedObservation).

(** Each message adds at most [m] bytes of input and of output to the totals. *)
Fixpoint messages_bounded (m input output : N) (rs : list AdapterReceipt) : Prop :=
  match rs with
  | [] => True
  | r :: rest =>
      input <= ac_cumulative_input_bytes r <= input + m
      /\ output <= ac_cumulative_output_bytes r <= output + m
      /\ messages_bounded m (ac_cumulative_input_bytes r) (ac_cumulative_output_bytes r) rest
  end.

(** Appending an event and ending a session change no counter. *)
Definition same_bytes (s s' : AdapterSession) : Prop :=
  ss_input_bytes (as_snapshot s') = ss_input_bytes (as_snapshot s)
  /\ ss_output_bytes (as_snapshot s') = ss_output_bytes (as_snapshot s).

Lemma session_append_counts event s r s' :
  session_append event s = (r, s') ->
  same_bytes s s' /\ ss_observation_count (as_snapshot s') = ss_observation_count (as_snapshot s).
Proof.
  unfold session_append, same_bytes. destruct (adapter_audit_append event (as_audit s)) as [[rec|e] audit];
    intros; simplify_eq; done.
Qed.

Lemma accepted_counts envelope usage outcome now n s :
  session_ok s -> acceptable envelope usage outcome now n s ->
  let a := as_snapshot (advanced_session envelope usage n s) in
  let m := al_maximum_message_bytes (as_limits s) in
  ss_input_bytes (as_snapshot s) <= ss_input_bytes a <= ss_input_bytes (as_snapshot s) + m
  /\ ss_output_bytes (as_snapshot s) <= ss_output_bytes a <= ss_output_bytes (as_snapshot s) + m
  /\ ss_state a <> AsFailed
  /\ n = ss_observation_count (as_snapshot s)
         + (if bool_decide (en_action envelope = EmitObservation) && bool_decide (outcome = AoProducedObservation)
            then 1 else 0).
Proof.
  intros Hok (Ho & _ & _ & _ & _ & Hm & _ & _ & _ & Hc & _ & Hin & Hout).
  pose proof (sok_counted s Hok ltac:(by rewrite Ho)) as Hn. pose proof (sok_messages s Hok) as Hmm.
  pose proof (sok_bytes s Hok) as Hb. pose proof (sok_limits s Hok) as (L1 & L2 & _).
  assert (ss_observation_count (as_snapshot s) < u64_max)
    by (eapply N.le_lt_trans; [exact Hn|]; eapply N.le_lt_trans; [exact Hmm|]; by eapply N.le_lt_trans; [exact L1|]).
  assert (al_maximum_session_bytes (as_limits s) < u64_max) by (by eapply N.le_lt_trans; [exact L2|]).
  cbn. unfold saturating_add. split_and!; try lia; [by case_bool_decide|].
  destruct (en_action envelope), outcome; cbn in Hc; repeat step_in Hc; simplify_eq; cbn; rewrite ?N.add_0_r; try done.
  apply (saturating_add_small _ _ u64_max); lia.
Qed.

Lemma session_call_counts `{!JsonTotal (HashMaterial AdapterAuditEvent)} call s r s' :
  session_ok s -> session_call call s = (r, s') ->
  match r with
  | Some receipt =>
      let m := al_maximum_message_bytes (as_limits s) in
      ss_input_bytes (as_snapshot s) <= ac_cumulative_input_bytes receipt <= ss_input_bytes (as_snapshot s) + m
      /\ ss_output_bytes (as_snapshot s) <= ac_cumulative_output_bytes receipt <= ss_output_bytes (as_snapshot s) + m
      /\ ac_cumulative_input_bytes receipt = ss_input_bytes (as_snapshot s')
      /\ ac_cumulative_output_bytes receipt = ss_output_bytes (as_snapshot s')
      /\ ss_state (as_snapshot s') <> AsFailed
      /\ ss_observation_count (as_snapshot s')
         = ss_observation_count (as_snapshot s) + (if emits receipt then 1 else 0)
  | None => same_bytes s s'
      /\ (ss_state (as_snapshot s') = AsFailed
          \/ ss_observation_count (as_snapshot s') = ss_observation_count (as_snapshot s))
  end.
Proof.
  intros Hok H.
  assert (forall guard state outcome, let s1 := (session_transition guard state outcome s).2 in
    same_bytes s s1 /\ (ss_state (as_snapshot s1) = AsFailed
      \/ ss_observation_count (as_snapshot s1) = ss_observation_count (as_snapshot s))) as Htr.
  { intros guard state outcome. destruct (session_transition _ _ _ _) as [tr ts] eqn:E.
    apply session_transition_spec in E as [(-> & _)|(_ & Ha)]; cbn; [by split; [|right]|].
    apply session_append_counts in Ha as [Hb Hn]. split; [exact Hb|right; exact Hn]. }
  destruct call; cbn in H; [|simplify_eq; apply Htr..].
  destruct (session_execute _ _ _ _ _ _) as [er es] eqn:E. simplify_eq.
  apply session_execute_cases in E as [(-> & e & ->)|[(Ho & (e & ->) & n & reason & r0 & Hf)|(n & ar & Hacc & Ha & ->)]].
  - split; [done|by right].
  - change (session_append (session_event "adapter_session_failed_closed" reason
      (failed_session n s)) (failed_session n s) = (r0, s')) in Hf.
    pose proof (session_append_counts _ _ _ _ Hf) as [Hb _].
    apply session_append_spec in Hf as (_ & Hst & _). split; [exact Hb|left; exact Hst].
  - destruct (session_append_total (processed_event envelope usage output_sha256 outcome
      (ss_session_id (as_snapshot s))) (advanced_session envelope usage n s)) as [s1 Hs1].
    rewrite Hs1 in Ha. injection Ha as <- <-.
    pose proof (session_append_counts _ _ _ _ Hs1) as [[Hi Hu] Hobs]. apply session_append_spec in Hs1 as (_ & Hst & _).
    destruct (accepted_counts _ _ _ _ _ _ Hok Hacc) as (H1 & H2 & H3 & H4).
    cbn [session_receipt ac_cumulative_input_bytes ac_cumulative_output_bytes]. rewrite Hi, Hu, Hst, Hobs.
    split_and!; auto; lia.
Qed.

(** No message is larger than the limit, and no more observations are emitted than the
    profile allows. *)
Lemma session_history_quotas `{!JsonTotal (HashMaterial AdapterAuditEvent)} calls s rs s' :
  session_ok s -> ss_state (as_snapshot s) <> AsFailed -> session_history calls s = (rs, s') ->
  messages_bounded (al_maximum_message_bytes (as_limits s)) (ss_input_bytes (as_snapshot s))
    (ss_output_bytes (as_snapshot s)) rs
  /\ ss_observation_count (as_snapshot s) + len (List.filter emits rs) <= as_maximum_observations s.
Proof.
  revert s rs. induction calls as [|call calls IH]; intros s rs Hok Hst H; cbn in H.
  { simplify_eq. cbn. unfold len. cbn. pose proof (sok_observations s' Hok Hst). split; [done|lia]. }
  destruct (session_call call s) as [r s1] eqn:E1. destruct (session_history calls s1) as [rs2 s2] eqn:E2.
  simplify_eq. pose proof (session_call_ok _ _ _ _ Hok E1) as [Hok1 (_ & Hl & Hmax & _)].
  apply session_call_counts in E1; [|done]. rewrite <- Hl, <- Hmax.
  destruct r as [receipt|].
  - change (option_list (Some receipt) ++ rs2) with (receipt :: rs2).
    destruct E1 as (H1 & H2 & H3 & H4 & H5 & H6). destruct (IH _ _ Hok1 H5 E2) as [I1 I2].
    rewrite <- Hl in H1, H2. cbn [messages_bounded List.filter]. rewrite H3, H4 in *. split_and!; auto; try lia.
    destruct (emits receipt); [rewrite len_cons|]; lia.
  - change (option_list None ++ rs2) with rs2. destruct E1 as [[Hi Hu] [Hf|Hn]].
    + rewrite session_history_terminal in E2 by (by rewrite Hf). simplify_eq. rewrite Hmax.
      pose proof (sok_observations s Hok Hst). cbn. unfold len. cbn. split; [done|lia].
    + destruct (decide (ss_state (as_snapshot s1) = AsFailed)) as [Hf|Hf].
      * rewrite session_history_terminal in E2 by (by rewrite Hf). simplify_eq. rewrite Hmax.
        pose proof (sok_observations s Hok Hst). cbn. unfold len. cbn. split; [done|lia].
      * rewrite <- Hi, <- Hu, <- Hn. by apply IH.
Qed.

(** ** Opening *)

Lemma session_open_ok {JL : JsonLib AdapterResourceLimits} {JS : JsonLib SessionSeedTuple} manifest grant
    profile now s grant' :
  adapter_limits_ok (am_limits manifest) ->
  session_open manifest grant profile now = Done (Ok s, grant') ->
  grant_inactive manifest grant profile now = false /\ grant' = consumed_grant grant
  /\ session_ok s /\ ss_message_count (as_snapshot s) = 0 /\ ss_state (as_snapshot s) = AsOpen
  /\ as_allowed_actions s = ag_allowed_actions grant /\ as_limits s = am_limits manifest
  /\ as_maximum_observations s = fp_maximum_observations profile
  /\ (ss_input_bytes (as_snapshot s) = 0 /\ ss_output_bytes (as_snapshot s) = 0)
  /\ ss_grant_sha256 (as_snapshot s) = ag_grant_sha256 grant
  /\ genesis_hash (as_audit s) = ag_grant_sha256 grant.
Proof.
  intros Hl H. unfold session_open in H. destruct (grant_inactive _ _ _ _); [done|].
  destruct (open_granted _ _ _ _) as [r|] eqn:Eo; [|done]. cbn in H. injection H as -> <-.
  unfold open_granted in Eo. destruct (adapter_hash _) as [seed|]; [|done].
  destruct (str_prefix 24 seed) as [suffix|]; [|done]. cbn in Eo.
  destruct (limits_digest _) as [digest|]; [|done].
  destruct (adapter_audit_new _) as [audit|] eqn:En; [|done]. apply adapter_audit_new_ok in En as Hch.
  destruct (adapter_audit_append _ _) as [ar audit'] eqn:Ea.
  assert (genesis_hash audit' = ag_grant_sha256 grant) as Hg.
  { unfold adapter_audit_append in Ea. destruct (chain_append _ _) as [r0 c0] eqn:Ec. simplify_eq.
    unfold adapter_audit_new, chain_new_anchored in En. destruct (negb _); [done|]. cbn in En. simplify_eq.
    apply chain_append_spec in Ec. destruct r0; [by destruct Ec as (_ & _ & _ & _ & _ & _ & ->)|by subst]. }
  apply adapter_append_spec in Ea as [Hch' _]. destruct ar; [|done]. cbn in Eo. injection Eo as <-.
  split_and!; auto. constructor; cbn; auto; try lia; done.
Qed.

Lemma grant_active_spec manifest grant profile now :
  grant_inactive manifest grant profile now = false ->
  ag_consumed grant = false /\ ag_issued_at_milliseconds grant <= now < ag_expires_at_milliseconds grant
  /\ ag_manifest_sha256 grant = am_manifest_sha256 manifest
  /\ ag_fixture_profile_sha256 grant = fp_profile_sha256 profile
  /\ ag_policy_snapshot_sha256 grant = fp_policy_snapshot_sha256 profile
  /\ ag_allowed_actions grant ⊆ am_allowed_actions manifest.
Proof. unfold grant_inactive. intros H. bools. auto 10. Qed.

(** ** Admission *)

Lemma admission_checks_ok manifest profile request a :
  admission_checks manifest profile request a = Ok tt ->
  ar_policy_snapshot_sha256 request = aa_policy_snapshot_sha256 a
  /\ ar_policy_snapshot_sha256 request = fp_policy_snapshot_sha256 profile
  /\ ar_manifest_sha256 request = am_manifest_sha256 manifest
  /\ ar_fixture_profile_sha256 request = fp_profile_sha256 profile
  /\ ar_requested_actions request ⊆ am_allowed_actions manifest
  /\ 0 < ar_issued_at_milliseconds request < ar_expires_at_milliseconds request
  /\ ar_expires_at_milliseconds request <= ar_issued_at_milliseconds request + 3600000.
Proof. unfold admission_checks. intros H. repeat step_in H. bools. split_and!; auto; lia. Qed.

Lemma admit_inv {JGr : JsonLib GrantTuple} manifest profile request a grant a' :
  adapter_admit manifest profile request a = (Ok grant, a') ->
  admission_checks manifest profile request a = Ok tt
  /\ ag_grant_id grant = adapter_grant_id (aa_authority_id a) (aa_next_grant_sequence a)
  /\ ag_allowed_actions grant = ar_requested_actions request
  /\ ag_policy_snapshot_sha256 grant = ar_policy_snapshot_sha256 request
  /\ ag_manifest_sha256 grant = ar_manifest_sha256 request
  /\ ag_fixture_profile_sha256 grant = ar_fixture_profile_sha256 request
  /\ ag_issued_at_milliseconds grant = ar_issued_at_milliseconds request
  /\ ag_expires_at_milliseconds grant = ar_expires_at_milliseconds request
  /\ ag_consumed grant = false
  /\ aa_next_grant_sequence a' = saturating_add (aa_next_grant_sequence a) 1.
Proof.
  unfold adapter_admit. destruct (admission_checks _ _ _ _) as [[]|]; [|done].
  destruct (adapter_hash _) as [h|]; [|done]. destruct (adapter_audit_append _ _) as [ar audit].
  destruct ar; [|done]. intros [= <- <-]. cbn. auto 12.
Qed.

(** ** Certificates *)

Lemma session_not_closed_ok {JL : JsonLib AdapterResourceLimits} policy s registry profile :
  session_not_closed policy s registry profile = Ok false ->
  ss_state (as_snapshot s) = AsCompleted /\ ss_policy_snapshot_sha256 (as_snapshot s) = policy
  /\ ss_policy_snapshot_sha256 (as_snapshot s) = fp_policy_snapshot_sha256 profile
  /\ ss_fixture_profile_sha256 (as_snapshot s) = fp_profile_sha256 profile
  /\ contains_exact profile registry = true /\ 0 < ss_message_count (as_snapshot s)
  /\ ss_external_io_observed (as_snapshot s) = false /\ ss_boundary_violations (as_snapshot s) = 0
  /\ limits_digest (as_limits s) = Ok (ss_limits_sha256 (as_snapshot s)).
Proof.
  unfold session_not_closed. intros H. step_in H. destruct (limits_digest _) as [d|] eqn:Ed; [|done].
  injection H as H. bools. subst. split_and!; auto. lia.
Qed.

Lemma conformance_certificate_ok {JL : JsonLib AdapterResourceLimits} {JC : JsonLib CertificateTuple}
    {JI : JsonLib CertificateSeedTuple} s registry profile a c :
  conformance_certificate s registry profile a = Done (Ok c) ->
  adapter_audit_verify (as_audit s) = Ok tt /\ adapter_audit_verify (fr_audit registry) = Ok tt
  /\ session_not_closed (co_policy_snapshot_sha256 a) s registry profile = Ok false
  /\ conformance_verify c = Ok tt
  /\ exists id h, c = conformance_draft id (co_authority_id a) s (tail_hash (fr_audit registry)) h.
Proof.
  unfold conformance_certificate. destruct (adapter_audit_verify (as_audit s)) as [[]|]; [|done].
  destruct (adapter_audit_verify (fr_audit registry)) as [[]|]; [|done].
  destruct (session_not_closed _ _ _ _) as [[]|]; [done| |done].
  destruct (adapter_hash _) as [seed|]; [|done]. destruct (str_prefix 24 seed) as [suffix|]; [|done].
  cbn. destruct (adapter_hash _) as [h|]; [|done].
  destruct (conformance_verify _) as [[]|] eqn:Ev; [|done]. intros [= <-]. split_and!; eauto.
Qed.

Lemma conformance_verify_ok {JC : JsonLib CertificateTuple} c :
  conformance_verify c = Ok tt ->
  adapter_hash (certificate_tuple c) = Ok (cf_certificate_sha256 c) /\ 0 < cf_message_count c
  /\ cf_external_io_observed c = false /\ cf_boundary_violations c = 0.
Proof.
  unfold conformance_verify. intros H. destruct (adapter_validate_hashes _) as [[]|]; [|done].
  destruct (adapter_hash _) as [h|]; [|done]. step_in H. bools. subst. split_and!; auto. lia.
Qed.

Lemma certificate_tuple_inj c1 c2 :
  certificate_tuple c1 = certificate_tuple c2 -> cf_certificate_sha256 c1 = cf_certificate_sha256 c2 -> c1 = c2.
Proof. destruct c1, c2. cbn. unfold certificate_tuple. cbn. intros [= ] ?. by subst. Qed.

End Facts.

(** ** Properties *)

Section Properties.
Context {S : Sha256Lib} {JA : JsonLib (HashMaterial AdapterAuditEvent)} {JL : JsonLib AdapterResourceLimits}
  {JS : JsonLib SessionSeedTuple} {JC : JsonLib CertificateTuple} {JI : JsonLib CertificateSeedTuple}.

(** C25: adapter sessions are supervised. A session opens only with a grant that is not
    marked as consumed and within its lifetime, and the grant it leaves opens no other.
    Along every history of envelopes, cancellations and stops the messages, the bytes
    of each message and of the session, the processor time and the memory stay within
    the limits of the manifest, and no more observations are emitted by the action for
    them than the profile allows; the receipts are numbered 1, 2, 3, ... and only for
    granted actions the manifest allows; exactly the failed session has a violation;
    the audit verifies; and a session in a terminal state refuses everything and
    changes no more. *)
Theorem adapter_sessions_are_supervised `{!JsonTotal (HashMaterial AdapterAuditEvent)}
    manifest m1 m2 m3 m4 m5 grant profile now s0 grant' calls receipts s :
  adapter_limits_new m1 m2 m3 m4 m5 = Ok (am_limits manifest) ->
  session_open manifest grant profile now = Done (Ok s0, grant') ->
  session_history calls s0 = (receipts, s) ->
  (ag_consumed grant = false /\ ag_issued_at_milliseconds grant <= now < ag_expires_at_milliseconds grant
   /\ forall now', session_open manifest grant' profile now' = Done (Err AbGrantInactive, grant'))
  /\ (ss_message_count (as_snapshot s) <= m1
      /\ messages_bounded m2 0 0 receipts
      /\ ss_input_bytes (as_snapshot s) + ss_output_bytes (as_snapshot s) <= m3
      /\ ss_cpu_milliseconds (as_snapshot s) <= m4 /\ ss_peak_memory_bytes (as_snapshot s) <= m5
      /\ len (List.filter emits receipts) <= fp_maximum_observations profile)
  /\ (ss_message_count (as_snapshot s) = len receipts
      /\ map ac_sequence receipts = map N.of_nat (seq 1 (length receipts))
      /\ Forall (fun r => ac_action r ∈ ag_allowed_actions grant
                          /\ ac_action r ∈ am_allowed_actions manifest) receipts)
  /\ ss_boundary_violations (as_snapshot s)
     = (if decide (ss_state (as_snapshot s) = AsFailed) then 1 else 0)
  /\ adapter_audit_verify (as_audit s) = Ok tt
  /\ (session_is_terminal (ss_state (as_snapshot s)) = true ->
      forall more, session_history more s = ([], s)).
Proof.
  intros Hl Ho Hh. pose proof (adapter_limits_new_ok _ _ _ _ _ _ Hl) as Hlok.
  assert (al_maximum_messages (am_limits manifest) = m1 /\ al_maximum_message_bytes (am_limits manifest) = m2
    /\ al_maximum_session_bytes (am_limits manifest) = m3
    /\ al_maximum_cpu_milliseconds (am_limits manifest) = m4
    /\ al_maximum_memory_bytes (am_limits manifest) = m5) as (E1 & E2 & E3 & E4 & E5).
  { unfold adapter_limits_new in Hl. inv_ok Hl.
    match goal with H : _ = am_limits manifest |- _ => by rewrite <- H end. }
  apply session_open_ok in Ho as (Hact & -> & Hok & Hm0 & Hst & Ha & Hlim & Hmax & Hb0 & _); [|done].
  apply grant_active_spec in Hact as (Hc & Hw & _ & _ & _ & Hsub).
  destruct (session_history_ok _ _ _ _ Hok Hh) as [[] Hf].
  destruct (session_history_receipts _ _ _ _ Hok Hh) as (Hm & Hseq & Hacts).
  destruct (session_history_quotas _ _ _ _ Hok ltac:(by rewrite Hst) Hh) as [Hsizes Hobs].
  rewrite Hmax in Hobs. destruct Hb0 as [Hi0 Hu0]. rewrite Hlim, E2, Hi0, Hu0 in Hsizes.
  rewrite Hm0 in *. destruct Hf as (_ & Hfl & _). rewrite Hfl, Hlim, E1, E3, E4, E5 in *.
  split_and!; auto; try lia.
  - rewrite Ha in Hacts. eapply Forall_impl; [exact Hacts|]. intros r Hr. split; [done|]. set_solver.
  - unfold adapter_audit_verify. by rewrite (proj2 (chain_verify_spec _) sok_audit0).
  - intros Ht more. by apply session_history_terminal.
Qed.

(** The text a certificate is the hash of. *)
Definition certificate_texts (c : AdapterConformanceCertificate) : list str :=
  match to_vec (certificate_tuple c) with Ok bytes => [bytes] | Err _ => [] end.

(** C26: a conformance certificate is earned and tamper evident. Certifying always
    returns. A certificate is given only for a completed session with messages and
    without violations, whose audit and fixture registry verify, under the policy of
    the authority and with a registered profile; it repeats the data of the session
    and is the last record of the authority. Any certificate that verifies with the
    same digest is the same, unless the texts hashed for the two differ and have the
    same SHA-256 digest or the serializer confuses the two. *)
Theorem conformance_is_earned `{!Sha256Laws} `{!JsonTotal (HashMaterial AdapterAuditEvent)}
    `{!JsonTotal AdapterResourceLimits} `{!JsonTotal CertificateTuple} `{!JsonTotal CertificateSeedTuple}
    s registry profile a :
  exists r a', conformance_certify s registry profile a = Done (r, a')
  /\ forall c, r = Ok c ->
     (ss_state (as_snapshot s) = AsCompleted /\ 0 < ss_message_count (as_snapshot s)
      /\ ss_boundary_violations (as_snapshot s) = 0 /\ ss_external_io_observed (as_snapshot s) = false
      /\ adapter_audit_verify (as_audit s) = Ok tt /\ adapter_audit_verify (fr_audit registry) = Ok tt
      /\ ss_policy_snapshot_sha256 (as_snapshot s) = co_policy_snapshot_sha256 a
      /\ contains_exact profile registry = true
      /\ ss_fixture_profile_sha256 (as_snapshot s) = fp_profile_sha256 profile)
     /\ (conformance_verify c = Ok tt /\ cf_session_id c = ss_session_id (as_snapshot s)
         /\ cf_grant_sha256 c = ss_grant_sha256 (as_snapshot s)
         /\ cf_message_count c = ss_message_count (as_snapshot s))
     /\ (exists rec, records (co_audit a') = records (co_audit a) ++ [rec]
                     /\ ade_subject_id (event rec) = cf_certificate_id c)
     /\ forall c', conformance_verify c' = Ok tt -> cf_certificate_sha256 c' = cf_certificate_sha256 c ->
        c' = c \/ texts_collide (certificate_texts c') (certificate_texts c)
        \/ (certificate_tuple c' <> certificate_tuple c
            /\ to_vec (certificate_tuple c') = to_vec (certificate_tuple c)).
Proof.
  unfold conformance_certify.
  assert (exists res, conformance_certificate s registry profile a = Done res) as [res Hres].
  { unfold conformance_certificate. destruct (let? _ := _ in _) as [seed|e] eqn:E; [|eauto].
    repeat step_in E. apply adapter_hash_hex in E. rewrite str_prefix_sha256 by (done || lia). eauto. }
  rewrite Hres. destruct res as [c|e]; [|eexists _, _; split; [done|by intros c]].
  destruct (adapter_append_total {| ade_action := "adapter_conformance_certified";
      ade_subject_id := cf_certificate_id c; ade_outcome := "certified";
      ade_metadata := list_to_map [(("session_id" : str), cf_session_id c);
        (("certificate_sha256" : str), cf_certificate_sha256 c)] |} (co_audit a)) as (rec & ch & Ha).
  rewrite Ha. eexists _, _. split; [done|]. intros c0 [= <-].
  apply conformance_certificate_ok in Hres as (Hv1 & Hv2 & Hcl & Hv & id & h & Hc).
  apply session_not_closed_ok in Hcl as (C1 & C2 & C3 & C4 & C5 & C6 & C7 & C8 & C9).
  split; [split_and!; auto|]. split; [by rewrite Hc in *|]. split.
  { apply adapter_append_spec in Ha as [_ [Hr He]]. exists rec. cbn. by rewrite He. }
  intros c' Hv' Hh. apply conformance_verify_ok in Hv as [Hh1 _]. apply conformance_verify_ok in Hv' as [Hh2 _].
  rewrite Hh in Hh2. apply adapter_hash_spec in Hh1 as (x & Ex & Ehx). apply adapter_hash_spec in Hh2 as (y & Ey & Ehy).
  destruct (decide (x = y)) as [<-|Hne].
  2: { right. left. exists y, x. unfold certificate_texts. rewrite Ex, Ey.
    split_and!; [by left..|congruence|]. apply (inj to_lower_hex). unfold adapter_hash_bytes in *. congruence. }
  destruct (decide (certificate_tuple c' = certificate_tuple c)) as [He|Hne].
  - left. by apply certificate_tuple_inj.
  - right. right. split; [done|]. congruence.
Qed.

End Properties.

(** ** Witnesses *)

Definition toy_adapter_json : JsonLib (HashMaterial AdapterAuditEvent) :=
  toy_json (fun e => ade_action e ++ ade_outcome e).
(** Serializers that print the first field. *)
Definition toy_limits_json : JsonLib AdapterResourceLimits :=
  {| to_vec l := Ok (decimal (al_maximum_messages l)) |}.
Definition toy_session_seed_json : JsonLib SessionSeedTuple := {| to_vec t := Ok t.1.1.1 |}.
Definition toy_conformance_json : JsonLib CertificateTuple := {| to_vec t := Ok (decimal t.2.1.1.1) |}.
Definition toy_certificate_seed_json : JsonLib CertificateSeedTuple := {| to_vec t := Ok t.1.1.1 |}.
Definition toy_manifest_tuple_json : JsonLib ManifestTuple := {| to_vec t := Ok t.1.1.1.1.1.1.1.1 |}.
Definition toy_profile_json : JsonLib ProfileTuple := {| to_vec t := Ok t.1.1.1 |}.
Definition toy_grant_tuple_json : JsonLib GrantTuple := {| to_vec t := Ok t.1.1.1.1.1.1.1.1 |}.

Definition fixed_hash (c : byte) : str := replicate 64 c.
Definition demo_limits : AdapterResourceLimits :=
  {| al_maximum_messages := 3; al_maximum_message_bytes := 100; al_maximum_session_bytes := 250;
     al_maximum_cpu_milliseconds := 50; al_maximum_memory_bytes := 1000 |}.
Definition demo_manifest : AdapterManifest :=
  {| am_manifest_id := "manifest-1"; am_adapter_name := "adapter"; am_adapter_version := "1";
     am_binary_sha256 := fixed_hash "1"; am_schema_version := 1;
     am_capabilities := {[ FixtureRead; ObservationEmit; Finalization ]};
     am_allowed_actions := {[ LoadFixture; EmitObservation; Finalize ]}; am_limits := demo_limits;
     am_manifest_sha256 := fixed_hash "2" |}.
Definition demo_profile : FixtureProfile :=
  {| fp_profile_id := "profile-1"; fp_policy_snapshot_sha256 := fixed_hash "3"; fp_objects := ∅;
     fp_maximum_observations := 1; fp_profile_sha256 := fixed_hash "4" |}.
Definition demo_grant (actions : gset AdapterAction) : AdapterGrant :=
  {| ag_grant_id := "grant-1"; ag_run_id := "run-1"; ag_worker_id := "worker-1";
     ag_policy_snapshot_sha256 := fixed_hash "3"; ag_manifest_sha256 := fixed_hash "2";
     ag_fixture_profile_sha256 := fixed_hash "4"; ag_allowed_actions := actions;
     ag_issued_at_milliseconds := 10; ag_expires_at_milliseconds := 100;
     ag_grant_sha256 := fixed_hash "5"; ag_consumed := false |}.

Definition demo_open (grant : AdapterGrant) : Run (Result AdapterSession BoundaryError * AdapterGrant) :=
  session_open (S := toy_sha256) (JA := toy_adapter_json) (JL := toy_limits_json) (JS := toy_session_seed_json)
    demo_manifest grant demo_profile 20.
Definition demo_session (grant : AdapterGrant) : AdapterSession :=
  match demo_open grant with
  | Done (Ok s, _) => s
  | _ => {| as_snapshot :=
              {| ss_session_id := []; ss_run_id := []; ss_worker_id := []; ss_policy_snapshot_sha256 := [];
                 ss_manifest_sha256 := []; ss_grant_sha256 := []; ss_fixture_profile_sha256 := [];
                 ss_limits_sha256 := []; ss_state := AsFailed; ss_message_count := 0;
                 ss_observation_count := 0; ss_input_bytes := 0; ss_output_bytes := 0;
                 ss_cpu_milliseconds := 0; ss_peak_memory_bytes := 0; ss_external_io_observed := false;
                 ss_boundary_violations := 0; ss_audit_tail_hash := [] |};
            as_allowed_actions := ∅; as_limits := demo_limits; as_maximum_observations := 0;
            as_next_sequence := 0; as_expires_at_milliseconds := 0; as_audit := chain_new [] |}
  end.

Definition full_grant : AdapterGrant := demo_grant {[ LoadFixture; Finalize ]}.

Lemma demo_opened : demo_open full_grant = Done (Ok (demo_session full_grant), consumed_grant full_grant).
Proof. vm_compute. reflexivity. Qed.

Definition demo_call (grant : AdapterGrant) (sequence : N) (action : AdapterAction) (outcome : AdapterOutcome)
    : SessionCall :=
  CallExecute
    {| en_session_id := ss_session_id (as_snapshot (demo_session grant)); en_sequence := sequence;
       en_action := action; en_fixture_profile_sha256 := fixed_hash "4"; en_input_sha256 := fixed_hash "6";
       en_payload_bytes := 40; en_labels := ∅ |}
    {| us_cpu_milliseconds := 5; us_peak_memory_bytes := 500; us_output_bytes := 20 |}
    (fixed_hash "7") outcome 30.

(** A message, one out of sequence, the final one and a late one. *)
Definition demo_calls : list SessionCall :=
  [demo_call full_grant 1 LoadFixture AoAccepted; demo_call full_grant 5 LoadFixture AoAccepted;
   demo_call full_grant 2 Finalize AoFinalized; demo_call full_grant 3 LoadFixture AoAccepted;
   CallEmergencyStop].
Definition demo_history : list AdapterReceipt * AdapterSession :=
  session_history (S := toy_sha256) (JA := toy_adapter_json) demo_calls (demo_session full_grant).

Lemma adapter_sessions_are_supervised_witness :
  length demo_history.1 = 2%nat /\ map ac_sequence demo_history.1 = [1; 2]
  /\ ss_state (as_snapshot demo_history.2) = AsCompleted
  /\ session_history (S := toy_sha256) (JA := toy_adapter_json) demo_calls demo_history.2
     = ([], demo_history.2).
Proof.
  assert (length demo_history.1 = 2%nat /\ ss_state (as_snapshot demo_history.2) = AsCompleted) as [Hl Hs]
    by (vm_compute; auto).
  destruct (@adapter_sessions_are_supervised toy_sha256 toy_adapter_json toy_limits_json toy_session_seed_json
    (toy_json_total _) demo_manifest 3 100 250 50 1000 full_grant demo_profile 20 (demo_session full_grant)
    (consumed_grant full_grant) demo_calls demo_history.1 demo_history.2 eq_refl demo_opened
    (surjective_pairing _)) as (_ & _ & (_ & Hseq & _) & _ & _ & Hterm).
  split_and!; [exact Hl| |exact Hs|].
  - rewrite Hseq, Hl. reflexivity.
  - apply Hterm. by rewrite Hs.
Defined.

Definition demo_registry : FixtureRegistry :=
  {| fr_policy_snapshot_sha256 := fixed_hash "3"; fr_profiles := {[ ("profile-1" : str) := demo_profile ]};
     fr_audit := chain_new (fixed_hash "0") |}.
Definition demo_authority : AdapterConformanceAuthority :=
  {| co_authority_id := "authority-1"; co_policy_snapshot_sha256 := fixed_hash "3";
     co_audit := chain_new (fixed_hash "0") |}.
Definition demo_certify (s : AdapterSession)
    : Run (Result AdapterConformanceCertificate BoundaryError * AdapterConformanceAuthority) :=
  conformance_certify (S := toy_sha256) (JA := toy_adapter_json) (JL := toy_limits_json)
    (JC := toy_conformance_json) (JI := toy_certificate_seed_json) s demo_registry demo_profile demo_authority.

(** The completed session is certified, the open one is not. *)
Lemma demo_certified :
  match demo_certify demo_history.2, demo_certify (demo_session full_grant) with
  | Done (Ok c, _), Done (Err (AbCertificationDenied _), _) => cf_message_count c = 2
  | _, _ => False
  end.
Proof. vm_compute. reflexivity. Qed.

Lemma conformance_is_earned_witness :
  match demo_certify demo_history.2 with
  | Done (Ok c, _) => ss_state (as_snapshot demo_history.2) = AsCompleted
                      /\ cf_message_count c = ss_message_count (as_snapshot demo_history.2)
  | _ => False
  end.
Proof.
  pose proof demo_certified as Hd.
  assert (@JsonTotal AdapterResourceLimits toy_limits_json) as T1 by (constructor; intros; by eexists).
  assert (@JsonTotal CertificateTuple toy_conformance_json) as T2 by (constructor; intros; by eexists).
  assert (@JsonTotal CertificateSeedTuple toy_certificate_seed_json) as T3 by (constructor; intros; by eexists).
  destruct (@conformance_is_earned toy_sha256 toy_adapter_json toy_limits_json toy_conformance_json
    toy_certificate_seed_json toy_sha256_laws (toy_json_total _) T1 T2 T3 demo_history.2 demo_registry
    demo_profile demo_authority) as (r & a' & Hr & Hc).
  unfold demo_certify in *. rewrite Hr in *. destruct r as [c|e]; [|done].
  destruct (Hc c eq_refl) as ((H1 & _) & (_ & _ & _ & H2) & _). exact (conj H1 H2).
Defined.

(** ** What the boundary does not enforce *)

(** [AdapterGrant] is [Clone]: a copy made before the first use opens a second
    session, with the same identity. *)
Lemma cloned_grant_opens_twice :
  let copy := full_grant in
  is_ok (match demo_open full_grant with Done (r, _) => r | _ => Err AbGrantInactive end) = true
  /\ is_ok (match demo_open copy with Done (r, _) => r | _ => Err AbGrantInactive end) = true.
Proof. vm_compute. auto. Qed.

(** Observations reported by another action than [EmitObservation] are not counted:
    with a limit of one observation two are produced and none is on the books. *)
Lemma observations_escape_limit :
  let h := session_history (S := toy_sha256) (JA := toy_adapter_json)
    [demo_call full_grant 1 LoadFixture AoProducedObservation;
     demo_call full_grant 2 LoadFixture AoProducedObservation] (demo_session full_grant) in
  map ac_outcome h.1 = [AoProducedObservation; AoProducedObservation]
  /\ ss_observation_count (as_snapshot h.2) = 0 /\ as_maximum_observations h.2 = 1.
Proof. vm_compute. auto. Qed.
