(* ===== verification/Replay.v ===== *)
(** * The replay lab ([crates/nxb-replay-lab])

    Replay bundles anchored in a conformance certificate, the virtual clock, the
    deterministic seed and fault plans, the replay engine with checkpoints, the
    comparison of traces and the certification of reproducible results. *)

From S2P Require Import Prelude ByteStr BTree HashChain Planner Validation Adapter.
Local Open Scope N_scope.

(** ** Model *)

Definition MAX_REPLAY_INPUTS : N := 100000.
Definition MAX_REPLAY_INPUT_BYTES : N := 128 * 1024 * 1024.
Definition MAX_REPLAY_TOTAL_BYTES : N := 2 * 1024 * 1024 * 1024.
Definition MAX_FAULT_RULES : N := 4096.
Definition MAX_FAULT_MAGNITUDE : N := 1000000.
Definition MAX_VIRTUAL_TICK : N := 10000000000.
Definition MAX_REPRODUCIBILITY_RECEIPTS : N := 32.

Inductive ReplayError : Type :=
  | RyInvalidIdentifier (name : str)
  | RyInvalidSha256 (name : str)
  | RyInvalidBundle (message : str)
  | RyInvalidClock
  | RyInvalidFaultPlan (message : str)
  | RyInvalidTransition
  | RySequenceMismatch
  | RyInvalidComparison (message : str)
  | RyCertificationDenied (message : str)
  | RyAuditSerialization (message : str)
  | RyAuditSequenceMismatch (record_index : N)
  | RyAuditPreviousHashMismatch (record_index : N)
  | RyAuditRecordHashMismatch (record_index : N)
  | RyAuditTailMismatch.

Inductive FaultKind : Type := FkDelay | FkFragment | FkBackpressure | FkTimeout | FkReset | FkTruncate.
Inductive ReplayStepOutcome : Type := RsObserved | RsBackpressured | RsTimedOut | RsReset | RsTruncated.
Inductive ReplayState : Type :=
  ReCreated | ReRunning | ReCompleted | ReCancelled | ReEmergencyStopped | ReFailed.
Inductive DriftClass : Type := DrExact | DrTiming | DrSemantic | DrFaultPlan | DrInput.

#[export] Instance FaultKind_eq_dec : EqDecision FaultKind.
Proof. solve_decision. Defined.
#[export] Instance ReplayStepOutcome_eq_dec : EqDecision ReplayStepOutcome.
Proof. solve_decision. Defined.
#[export] Instance ReplayState_eq_dec : EqDecision ReplayState.
Proof. solve_decision. Defined.

Definition replay_is_terminal (self : ReplayState) : bool :=
  match self with ReCompleted | ReCancelled | ReEmergencyStopped | ReFailed => true | _ => false end.

(** [format!("{outcome:?}").to_ascii_lowercase()]. *)
Definition step_outcome_name (outcome : ReplayStepOutcome) : str :=
  match outcome with
  | RsObserved => "observed" | RsBackpressured => "backpressured" | RsTimedOut => "timedout"
  | RsReset => "reset" | RsTruncated => "truncated"
  end.

Record ReplayAuditEvent : Type := {
  rye_action : str;
  rye_subject_id : str;
  rye_outcome : str;
  rye_metadata : gmap str str
}.

Record ReplayInputRef : Type := {
  ri_input_id : str;
  ri_fixture_uri : str;
  ri_content_sha256 : str;
  ri_bytes : N
}.

Record ReplayBundle : Type := {
  rb_bundle_id : str;
  rb_policy_snapshot_sha256 : str;
  rb_adapter_conformance_sha256 : str;
  rb_fixture_profile_sha256 : str;
  rb_inputs : list ReplayInputRef;
  rb_expected_observation_sha256 : gset str;
  rb_seed_sha256 : str;
  rb_initial_tick : N;
  rb_bundle_sha256 : str
}.

Record VirtualClock : Type := { vc_initial_tick : N; vc_current_tick : N; vc_maximum_tick : N }.
Record DeterministicSeed : Type := { sd_seed_sha256 : str; sd_counter : N }.

Record FaultRule : Type := {
  fl_rule_id : str;
  fl_at_sequence : N;
  fl_kind : FaultKind;
  fl_magnitude : N
}.

Record FaultPlan : Type := {
  pl_plan_id : str;
  pl_bundle_sha256 : str;
  pl_rules : list FaultRule;
  pl_plan_sha256 : str
}.

Record ReplayObservation : Type := {
  ob_sequence : N;
  ob_input_id : str;
  ob_input_sha256 : str;
  ob_output_sha256 : str;
  ob_metadata_sha256 : str;
  ob_virtual_tick : N;
  ob_outcome : ReplayStepOutcome;
  ob_applied_fault_ids : gset str;
  ob_observation_sha256 : str
}.

Record ReplayTrace : Type := {
  rtr_bundle_sha256 : str;
  rtr_fault_plan_sha256 : str;
  rtr_observations : list ReplayObservation;
  rtr_trace_sha256 : str
}.

Record ReplayCheckpoint : Type := {
  ck_checkpoint_id : str;
  ck_engine_id : str;
  ck_bundle_sha256 : str;
  ck_fault_plan_sha256 : str;
  ck_next_sequence : N;
  ck_virtual_tick : N;
  ck_seed_counter : N;
  ck_observation_prefix_sha256 : str;
  ck_source_audit_tail_hash : str;
  ck_checkpoint_sha256 : str
}.

Record ReplayReceipt : Type := {
  rrc_engine_id : str;
  rrc_policy_snapshot_sha256 : str;
  rrc_bundle_sha256 : str;
  rrc_fault_plan_sha256 : str;
  rrc_trace_sha256 : str;
  rrc_result_sha256 : str;
  rrc_observation_count : N;
  rrc_final_virtual_tick : N;
  rrc_state : ReplayState;
  rrc_replay_audit_tail_hash : str;
  rrc_receipt_sha256 : str
}.

Record ReplayEngine : Type := {
  eg_engine_id : str;
  eg_bundle : ReplayBundle;
  eg_fault_plan : FaultPlan;
  eg_clock : VirtualClock;
  eg_seed : DeterministicSeed;
  eg_state : ReplayState;
  eg_next_sequence : N;
  eg_observations : list ReplayObservation;
  eg_audit : HashChain ReplayAuditEvent
}.

Record ReplayComparison : Type := {
  cmp_comparison_id : str;
  cmp_baseline_trace_sha256 : str;
  cmp_candidate_trace_sha256 : str;
  cmp_class : DriftClass;
  cmp_changed_sequences : gset N;
  cmp_comparison_sha256 : str
}.

Record ReproducibilityCertificate : Type := {
  rpc_certificate_id : str;
  rpc_authority_id : str;
  rpc_policy_snapshot_sha256 : str;
  rpc_bundle_sha256 : str;
  rpc_fault_plan_sha256 : str;
  rpc_trace_sha256 : str;
  rpc_result_sha256 : str;
  rpc_engine_ids : gset str;
  rpc_receipt_sha256 : gset str;
  rpc_quorum : N;
  rpc_authority_audit_tail_hash : str;
  rpc_certificate_sha256 : str
}.

Record ReproducibilityAuthority : Type := {
  rau_authority_id : str;
  rau_policy_snapshot_sha256 : str;
  rau_required_quorum : N;
  rau_audit : HashChain ReplayAuditEvent
}.

(** The tuples that are serialised for hashing. *)
Definition BundleTuple : Type := str * str * str * str * list ReplayInputRef * gset str * str * N.
Definition PlanTuple : Type := str * str * list FaultRule.
Definition FaultOutputTuple : Type := str * ReplayStepOutcome * gset str * N.
Definition ObservationTuple : Type := N * str * str * str * str * N * ReplayStepOutcome * gset str.
Definition TraceTuple : Type := str * str * list ReplayObservation.
Definition CheckpointIdTuple : Type := str * str * N * str * str.
Definition CheckpointTuple : Type := str * str * str * str * N * N * N * str * str.
Definition ResultTuple : Type := str * gset str * N.
Definition ReceiptTuple : Type := str * str * str * str * str * str * N * N * ReplayState * str.
Definition ComparisonSeedTuple : Type := str * str * DriftClass * gset N.
Definition ComparisonTuple : Type := str * str * str * DriftClass * gset N.
Definition ReproducibilitySeedTuple : Type := str * str * str * str * str * str * gset str * gset str * N.
Definition ReproducibilityTuple : Type :=
  str * str * str * str * str * str * str * gset str * gset str * N * str.

(** The serializers the crate uses, and that they succeed. *)
Class ReplayJson : Type := {
  rj_audit :: JsonLib (HashMaterial ReplayAuditEvent);
  rj_bundle :: JsonLib BundleTuple;
  rj_plan :: JsonLib PlanTuple;
  rj_fault_output :: JsonLib FaultOutputTuple;
  rj_observation :: JsonLib ObservationTuple;
  rj_observations :: JsonLib (list ReplayObservation);
  rj_trace :: JsonLib TraceTuple;
  rj_checkpoint_id :: JsonLib CheckpointIdTuple;
  rj_checkpoint :: JsonLib CheckpointTuple;
  rj_result :: JsonLib ResultTuple;
  rj_receipt :: JsonLib ReceiptTuple;
  rj_comparison_seed :: JsonLib ComparisonSeedTuple;
  rj_comparison :: JsonLib ComparisonTuple;
  rj_reproducibility_seed :: JsonLib ReproducibilitySeedTuple;
  rj_reproducibility :: JsonLib ReproducibilityTuple
}.
Class ReplayJsonTotal {J : ReplayJson} : Prop := {
  rjt_audit :: JsonTotal (HashMaterial ReplayAuditEvent);
  rjt_bundle :: JsonTotal BundleTuple;
  rjt_plan :: JsonTotal PlanTuple;
  rjt_fault_output :: JsonTotal FaultOutputTuple;
  rjt_observation :: JsonTotal ObservationTuple;
  rjt_observations :: JsonTotal (list ReplayObservation);
  rjt_trace :: JsonTotal TraceTuple;
  rjt_checkpoint_id :: JsonTotal CheckpointIdTuple;
  rjt_checkpoint :: JsonTotal CheckpointTuple;
  rjt_result :: JsonTotal ResultTuple;
  rjt_receipt :: JsonTotal ReceiptTuple;
  rjt_comparison_seed :: JsonTotal ComparisonSeedTuple;
  rjt_comparison :: JsonTotal ComparisonTuple;
  rjt_reproducibility_seed :: JsonTotal ReproducibilitySeedTuple;
  rjt_reproducibility :: JsonTotal ReproducibilityTuple
}.

(** ** Validation *)

Definition replay_validate_identifier (value name : str) : Result unit ReplayError :=
  if bool_decide (value = []) || (192 <? len value) || negb (forallb is_identifier_byte value)
  then Err (RyInvalidIdentifier name) else Ok tt.

Definition replay_validate_sha256 (value name : str) : Result unit ReplayError :=
  if negb (is_lower_hex_sha256 value) then Err (RyInvalidSha256 name) else Ok tt.

Fixpoint replay_validate_hashes (l : list (str * str)) : Result unit ReplayError :=
  match l with
  | [] => Ok tt
  | (name, value) :: rest =>
      let? _ := replay_validate_sha256 value name in replay_validate_hashes rest
  end.

Definition replay_chain_error (e : ChainError) : ReplayError :=
  match e with
  | InvalidGenesisHash => RyInvalidSha256 "replay audit genesis"
  | Serialization message => RyAuditSerialization message
  | SequenceMismatch i => RyAuditSequenceMismatch i
  | PreviousHashMismatch i => RyAuditPreviousHashMismatch i
  | RecordHashMismatch i => RyAuditRecordHashMismatch i
  | TailHashMismatch => RyAuditTailMismatch
  end.

Definition replay_input_new (input_id fixture_uri content_sha256 : str) (bytes : N)
    : Result ReplayInputRef ReplayError :=
  let? _ := replay_validate_identifier input_id "replay input" in
  let? _ := replay_validate_sha256 content_sha256 "replay input content" in
  let remainder := strip_prefix fixture_uri ("fixture://" : str) in
  if (512 <? len fixture_uri) || contains_byte 63 fixture_uri || contains_byte 35 fixture_uri
     || contains_byte 64 fixture_uri || contains_str fixture_uri (".." : str)
     || match remainder with
        | None => true
        | Some value => bool_decide (value = []) || contains_str value ("://" : str)
                        || negb (forallb fixture_uri_byte value)
        end
     || (bytes =? 0) || (MAX_REPLAY_INPUT_BYTES <? bytes)
  then Err (RyInvalidBundle "input must be a bounded single-scheme fixture:// reference")
  else Ok {| ri_input_id := input_id; ri_fixture_uri := fixture_uri;
             ri_content_sha256 := content_sha256; ri_bytes := bytes |}.

(** ** Clock, seed and faults *)

Definition clock_new (initial_tick maximum_tick : N) : Result VirtualClock ReplayError :=
  if (maximum_tick <? initial_tick) || (MAX_VIRTUAL_TICK <? maximum_tick) then Err RyInvalidClock
  else Ok {| vc_initial_tick := initial_tick; vc_current_tick := initial_tick;
             vc_maximum_tick := maximum_tick |}.

Definition clock_advance (delta : N) (self : VirtualClock) : Result N ReplayError * VirtualClock :=
  match checked_add (vc_current_tick self) delta with
  | None => (Err RyInvalidClock, self)
  | Some next =>
      if vc_maximum_tick self <? next then (Err RyInvalidClock, self)
      else (Ok next, {| vc_initial_tick := vc_initial_tick self; vc_current_tick := next;
                        vc_maximum_tick := vc_maximum_tick self |})
  end.

Definition clock_reset (self : VirtualClock) : VirtualClock :=
  {| vc_initial_tick := vc_initial_tick self; vc_current_tick := vc_initial_tick self;
     vc_maximum_tick := vc_maximum_tick self |}.

Definition seed_new (seed_sha256 : str) : Result DeterministicSeed ReplayError :=
  let? _ := replay_validate_sha256 seed_sha256 "deterministic seed" in
  Ok {| sd_seed_sha256 := seed_sha256; sd_counter := 0 |}.

Definition fault_rule_new (rule_id : str) (at_sequence : N) (kind : FaultKind) (magnitude : N)
    : Result FaultRule ReplayError :=
  let? _ := replay_validate_identifier rule_id "fault rule" in
  if (at_sequence =? 0) || (magnitude =? 0) || (MAX_FAULT_MAGNITUDE <? magnitude)
  then Err (RyInvalidFaultPlan "fault sequence or magnitude")
  else Ok {| fl_rule_id := rule_id; fl_at_sequence := at_sequence; fl_kind := kind;
             fl_magnitude := magnitude |}.

(** The order rules are sorted in. *)
Definition rule_le (left right : FaultRule) : Prop :=
  ord_le (fl_at_sequence left, fl_rule_id left) (fl_at_sequence right, fl_rule_id right).
#[export] Instance rule_le_dec left right : Decision (rule_le left right).
Proof. unfold rule_le. apply _. Defined.

Definition rules_at (sequence : N) (self : FaultPlan) : list FaultRule :=
  List.filter (fun rule => fl_at_sequence rule =? sequence) (pl_rules self).

(** [try_fold(0, |total, x| total.checked_add(f(x)))]. *)
Fixpoint checked_sum {A} (f : A -> N) (total : N) (l : list A) : option N :=
  match l with
  | [] => Some total
  | x :: rest => match checked_add total (f x) with Some total => checked_sum f total rest | None => None end
  end.

Definition step_outcome (rules : list FaultRule) : ReplayStepOutcome :=
  let has kind := existsb (fun rule => bool_decide (fl_kind rule = kind)) rules in
  if has FkReset then RsReset
  else if has FkTimeout then RsTimedOut
  else if has FkTruncate then RsTruncated
  else if has FkBackpressure then RsBackpressured
  else RsObserved.

Definition keeps_output (outcome : ReplayStepOutcome) : bool :=
  match outcome with RsObserved | RsBackpressured => true | _ => false end.

(** ** Engines with changed fields *)

Definition with_replay_clock (clock : VirtualClock) (self : ReplayEngine) : ReplayEngine :=
  {| eg_engine_id := eg_engine_id self; eg_bundle := eg_bundle self; eg_fault_plan := eg_fault_plan self;
     eg_clock := clock; eg_seed := eg_seed self; eg_state := eg_state self;
     eg_next_sequence := eg_next_sequence self; eg_observations := eg_observations self;
     eg_audit := eg_audit self |}.
Definition with_replay_seed (seed : DeterministicSeed) (self : ReplayEngine) : ReplayEngine :=
  {| eg_engine_id := eg_engine_id self; eg_bundle := eg_bundle self; eg_fault_plan := eg_fault_plan self;
     eg_clock := eg_clock self; eg_seed := seed; eg_state := eg_state self;
     eg_next_sequence := eg_next_sequence self; eg_observations := eg_observations self;
     eg_audit := eg_audit self |}.
Definition with_replay_state (state : ReplayState) (self : ReplayEngine) : ReplayEngine :=
  {| eg_engine_id := eg_engine_id self; eg_bundle := eg_bundle self; eg_fault_plan := eg_fault_plan self;
     eg_clock := eg_clock self; eg_seed := eg_seed self; eg_state := state;
     eg_next_sequence := eg_next_sequence self; eg_observations := eg_observations self;
     eg_audit := eg_audit self |}.
Definition with_replay_audit (audit : HashChain ReplayAuditEvent) (self : ReplayEngine) : ReplayEngine :=
  {| eg_engine_id := eg_engine_id self; eg_bundle := eg_bundle self; eg_fault_plan := eg_fault_plan self;
     eg_clock := eg_clock self; eg_seed := eg_seed self; eg_state := eg_state self;
     eg_next_sequence := eg_next_sequence self; eg_observations := eg_observations self;
     eg_audit := audit |}.
(** The observation is pushed and the sequence advanced. *)
Definition with_observation (observation : ReplayObservation) (self : ReplayEngine) : ReplayEngine :=
  {| eg_engine_id := eg_engine_id self; eg_bundle := eg_bundle self; eg_fault_plan := eg_fault_plan self;
     eg_clock := eg_clock self; eg_seed := eg_seed self; eg_state := eg_state self;
     eg_next_sequence := saturating_add (eg_next_sequence self) 1;
     eg_observations := eg_observations self ++ [observation]; eg_audit := eg_audit self |}.

(** ** Operations *)

Section Replay.
Context {S : Sha256Lib} {J : ReplayJson}.

Definition replay_hash_bytes (bytes : str) : str := to_lower_hex (sha256 bytes).

Definition replay_hash {A} {JV : JsonLib A} (value : A) : Result str ReplayError :=
  let? bytes := map_err RyAuditSerialization (to_vec value) in Ok (replay_hash_bytes bytes).

Definition replay_audit_new (genesis_hash : str) : Result (HashChain ReplayAuditEvent) ReplayError :=
  map_err replay_chain_error (chain_new_anchored genesis_hash).

Definition replay_audit_append (event : ReplayAuditEvent) (chain : HashChain ReplayAuditEvent)
    : Result (ChainRecord ReplayAuditEvent) ReplayError * HashChain ReplayAuditEvent :=
  let '(result, chain) := chain_append event chain in (map_err replay_chain_error result, chain).

Definition replay_audit_verify (chain : HashChain ReplayAuditEvent) : Result unit ReplayError :=
  map_err replay_chain_error (chain_verify chain).

(** *** Bundles and plans *)

Definition bundle_tuple (self : ReplayBundle) : BundleTuple :=
  (rb_bundle_id self, rb_policy_snapshot_sha256 self, rb_adapter_conformance_sha256 self,
   rb_fixture_profile_sha256 self, rb_inputs self, rb_expected_observation_sha256 self,
   rb_seed_sha256 self, rb_initial_tick self).

Definition distinct_count (f : ReplayInputRef -> str) (inputs : list ReplayInputRef) : N :=
  N.of_nat (size (list_to_set (map f inputs) : gset str)).

Definition bundle_new {JC : JsonLib CertificateTuple} (show : BoundaryError -> str) (bundle_id : str)
    (certificate : AdapterConformanceCertificate) (inputs : list ReplayInputRef)
    (expected_observation_sha256 : gset str) (seed_sha256 : str) (initial_tick : N)
    : Result ReplayBundle ReplayError :=
  let? _ := map_err (fun error => RyInvalidBundle (show error)) (conformance_verify certificate) in
  let? _ := replay_validate_identifier bundle_id "replay bundle" in
  let? _ := replay_validate_sha256 seed_sha256 "replay seed" in
  if bool_decide (inputs = []) || (MAX_REPLAY_INPUTS <? len inputs)
     || (MAX_REPLAY_INPUTS <? N.of_nat (size expected_observation_sha256))
     || (MAX_VIRTUAL_TICK <? initial_tick)
     || existsb (fun value => negb (is_ok (replay_validate_sha256 value "expected observation")))
          (elements expected_observation_sha256)
  then Err (RyInvalidBundle "input, observation or virtual-time bounds")
  else match checked_sum ri_bytes 0 inputs with
  | None => Err (RyInvalidBundle "input byte overflow")
  | Some total_bytes =>
      if MAX_REPLAY_TOTAL_BYTES <? total_bytes then Err (RyInvalidBundle "replay input byte budget")
      else if negb (distinct_count ri_input_id inputs =? len inputs)
              || negb (distinct_count ri_fixture_uri inputs =? len inputs)
      then Err (RyInvalidBundle "duplicate input identifier or fixture URI")
      else
        let draft sha256 :=
          {| rb_bundle_id := bundle_id;
             rb_policy_snapshot_sha256 := cf_policy_snapshot_sha256 certificate;
             rb_adapter_conformance_sha256 := cf_certificate_sha256 certificate;
             rb_fixture_profile_sha256 := cf_fixture_profile_sha256 certificate; rb_inputs := inputs;
             rb_expected_observation_sha256 := expected_observation_sha256;
             rb_seed_sha256 := seed_sha256; rb_initial_tick := initial_tick;
             rb_bundle_sha256 := sha256 |} in
        let? bundle_sha256 := replay_hash (bundle_tuple (draft [])) in
        Ok (draft bundle_sha256)
  end.

Definition bundle_verify (self : ReplayBundle) : Result unit ReplayError :=
  let? expected := replay_hash (bundle_tuple self) in
  if negb (bool_decide (expected = rb_bundle_sha256 self))
  then Err (RyInvalidBundle "bundle digest mismatch") else Ok tt.

(** [u64::from_be_bytes] of the first eight bytes of the digest. *)
Definition u64_from_be_bytes (bytes : str) : N := foldl (fun acc c => acc * 256 + N_of_ascii c) 0 bytes.

Definition next_u64 (self : DeterministicSeed) : N * DeterministicSeed :=
  let digest := sha256 (sd_seed_sha256 self ++ (":" : str) ++ decimal (sd_counter self)) in
  (u64_from_be_bytes (take 8 digest),
   {| sd_seed_sha256 := sd_seed_sha256 self; sd_counter := saturating_add (sd_counter self) 1 |}).

Definition fault_plan_new (plan_id bundle_sha256 : str) (rules : list FaultRule) : Result FaultPlan ReplayError :=
  let? _ := replay_validate_identifier plan_id "fault plan" in
  let? _ := replay_validate_sha256 bundle_sha256 "fault-plan bundle" in
  if MAX_FAULT_RULES <? len rules then Err (RyInvalidFaultPlan "rule limit")
  else
    let rules := merge_sort rule_le rules in
    if negb (N.of_nat (size (list_to_set (map fl_rule_id rules) : gset str)) =? len rules)
    then Err (RyInvalidFaultPlan "duplicate rule identifier")
    else
    let? plan_sha256 := replay_hash ((plan_id, bundle_sha256, rules) : PlanTuple) in
    Ok {| pl_plan_id := plan_id; pl_bundle_sha256 := bundle_sha256; pl_rules := rules;
          pl_plan_sha256 := plan_sha256 |}.

Definition fault_plan_empty (plan_id bundle_sha256 : str) : Result FaultPlan ReplayError :=
  fault_plan_new plan_id bundle_sha256 [].

Definition fault_plan_verify (self : FaultPlan) : Result unit ReplayError :=
  let? expected := replay_hash ((pl_plan_id self, pl_bundle_sha256 self, pl_rules self) : PlanTuple) in
  if negb (bool_decide (expected = pl_plan_sha256 self))
  then Err (RyInvalidFaultPlan "fault plan digest mismatch") else Ok tt.

(** *** Traces, checkpoints, receipts *)

Definition trace_verify (self : ReplayTrace) : Result unit ReplayError :=
  let? expected := replay_hash ((rtr_bundle_sha256 self, rtr_fault_plan_sha256 self,
                                 rtr_observations self) : TraceTuple) in
  if negb (bool_decide (expected = rtr_trace_sha256 self)) then Err RyInvalidTransition else Ok tt.

Definition checkpoint_tuple (self : ReplayCheckpoint) : CheckpointTuple :=
  (ck_checkpoint_id self, ck_engine_id self, ck_bundle_sha256 self, ck_fault_plan_sha256 self,
   ck_next_sequence self, ck_virtual_tick self, ck_seed_counter self,
   ck_observation_prefix_sha256 self, ck_source_audit_tail_hash self).

Definition checkpoint_verify (self : ReplayCheckpoint) : Result unit ReplayError :=
  let? expected := replay_hash (checkpoint_tuple self) in
  if negb (bool_decide (expected = ck_checkpoint_sha256 self)) then Err RyInvalidTransition else Ok tt.

Definition receipt_tuple (self : ReplayReceipt) : ReceiptTuple :=
  (rrc_engine_id self, rrc_policy_snapshot_sha256 self, rrc_bundle_sha256 self,
   rrc_fault_plan_sha256 self, rrc_trace_sha256 self, rrc_result_sha256 self,
   rrc_observation_count self, rrc_final_virtual_tick self, rrc_state self,
   rrc_replay_audit_tail_hash self).

Definition receipt_verify (self : ReplayReceipt) : Result unit ReplayError :=
  let? expected := replay_hash (receipt_tuple self) in
  if negb (bool_decide (expected = rrc_receipt_sha256 self))
     || negb (bool_decide (rrc_state self = ReCompleted))
  then Err (RyCertificationDenied "replay receipt digest or terminal state") else Ok tt.

(** *** The engine *)

Definition replay_new (engine_id : str) (bundle : ReplayBundle) (fault_plan : FaultPlan)
    (audit_genesis : str) : Result ReplayEngine ReplayError :=
  let? _ := replay_validate_identifier engine_id "replay engine" in
  let? _ := bundle_verify bundle in
  let? _ := fault_plan_verify fault_plan in
  if negb (bool_decide (pl_bundle_sha256 fault_plan = rb_bundle_sha256 bundle))
  then Err (RyInvalidFaultPlan "fault plan is bound to another replay bundle")
  else
  let? clock := clock_new (rb_initial_tick bundle) MAX_VIRTUAL_TICK in
  let? seed := seed_new (rb_seed_sha256 bundle) in
  let? audit := replay_audit_new audit_genesis in
  Ok {| eg_engine_id := engine_id; eg_bundle := bundle; eg_fault_plan := fault_plan; eg_clock := clock;
        eg_seed := seed; eg_state := ReCreated; eg_next_sequence := 1; eg_observations := [];
        eg_audit := audit |}.

(** The checks of [resume] on the checkpoint; the prefix is hashed in their order. *)
Definition checkpoint_mismatch (engine_id : str) (bundle : ReplayBundle) (fault_plan : FaultPlan)
    (checkpoint : ReplayCheckpoint) (observation_prefix : list ReplayObservation)
    : Result bool ReplayError :=
  if negb (bool_decide (ck_engine_id checkpoint = engine_id))
     || negb (bool_decide (ck_bundle_sha256 checkpoint = rb_bundle_sha256 bundle))
     || negb (bool_decide (ck_fault_plan_sha256 checkpoint = pl_plan_sha256 fault_plan))
  then Ok true
  else
    let? prefix_sha256 := replay_hash observation_prefix in
    Ok (negb (bool_decide (ck_observation_prefix_sha256 checkpoint = prefix_sha256))
        || negb (ck_next_sequence checkpoint =? len observation_prefix + 1)
        || (ck_virtual_tick checkpoint <? rb_initial_tick bundle)).

Definition replay_resume (engine_id : str) (bundle : ReplayBundle) (fault_plan : FaultPlan)
    (checkpoint : ReplayCheckpoint) (observation_prefix : list ReplayObservation)
    : Result ReplayEngine ReplayError :=
  let? _ := checkpoint_verify checkpoint in
  let? _ := replay_validate_identifier engine_id "replay engine" in
  let? _ := bundle_verify bundle in
  let? _ := fault_plan_verify fault_plan in
  let? mismatch := checkpoint_mismatch engine_id bundle fault_plan checkpoint observation_prefix in
  if (mismatch : bool) then Err RyInvalidTransition
  else
  let? clock := clock_new (rb_initial_tick bundle) MAX_VIRTUAL_TICK in
  let clock := {| vc_initial_tick := vc_initial_tick clock;
                  vc_current_tick := ck_virtual_tick checkpoint;
                  vc_maximum_tick := vc_maximum_tick clock |} in
  let? seed := seed_new (rb_seed_sha256 bundle) in
  let seed := {| sd_seed_sha256 := sd_seed_sha256 seed; sd_counter := ck_seed_counter checkpoint |} in
  let? audit := replay_audit_new (ck_checkpoint_sha256 checkpoint) in
  let '(appended, audit) := replay_audit_append
    {| rye_action := "replay_resumed"; rye_subject_id := engine_id; rye_outcome := "running";
       rye_metadata := {[ ("checkpoint_sha256" : str) := ck_checkpoint_sha256 checkpoint ]} |} audit in
  let? _ := appended in
  Ok {| eg_engine_id := engine_id; eg_bundle := bundle; eg_fault_plan := fault_plan; eg_clock := clock;
        eg_seed := seed; eg_state := ReRunning; eg_next_sequence := ck_next_sequence checkpoint;
        eg_observations := observation_prefix; eg_audit := audit |}.

(** An event is appended; [k] builds the result. *)
Definition replay_engine_append {A} (event : ReplayAuditEvent) (result : A) (self : ReplayEngine)
    : Result A ReplayError * ReplayEngine :=
  let '(appended, audit) := replay_audit_append event (eg_audit self) in
  let self := with_replay_audit audit self in
  match appended with Err error => (Err error, self) | Ok _ => (Ok result, self) end.

Definition replay_start (self : ReplayEngine) : Result unit ReplayError * ReplayEngine :=
  if negb (bool_decide (eg_state self = ReCreated)) then (Err RyInvalidTransition, self)
  else
    replay_engine_append
      {| rye_action := "replay_started"; rye_subject_id := eg_engine_id self; rye_outcome := "running";
         rye_metadata :=
           list_to_map [(("bundle_sha256" : str), rb_bundle_sha256 (eg_bundle self));
                        (("fault_plan_sha256" : str), pl_plan_sha256 (eg_fault_plan self))] |}
      tt (with_replay_state ReRunning self).

Definition draft_observation (sequence : N) (input : ReplayInputRef) (output_sha256 metadata_sha256 : str)
    (virtual_tick : N) (outcome : ReplayStepOutcome) (applied_fault_ids : gset str)
    (observation_sha256 : str) : ReplayObservation :=
  {| ob_sequence := sequence; ob_input_id := ri_input_id input;
     ob_input_sha256 := ri_content_sha256 input; ob_output_sha256 := output_sha256;
     ob_metadata_sha256 := metadata_sha256; ob_virtual_tick := virtual_tick; ob_outcome := outcome;
     ob_applied_fault_ids := applied_fault_ids; ob_observation_sha256 := observation_sha256 |}.

Definition observation_tuple (self : ReplayObservation) : ObservationTuple :=
  (ob_sequence self, ob_input_id self, ob_input_sha256 self, ob_output_sha256 self,
   ob_metadata_sha256 self, ob_virtual_tick self, ob_outcome self, ob_applied_fault_ids self).

(** What a step observes once the clock stands at [virtual_tick]. *)
Definition observe (sequence : N) (input : ReplayInputRef) (output_sha256 metadata_sha256 : str)
    (rules : list FaultRule) (virtual_tick : N) : Result ReplayObservation ReplayError :=
  let applied_fault_ids : gset str := list_to_set (map fl_rule_id rules) in
  let outcome := step_outcome rules in
  let? effective_output_sha256 :=
    if keeps_output outcome then Ok output_sha256
    else replay_hash ((ri_content_sha256 input, outcome, applied_fault_ids, sequence)
                      : FaultOutputTuple) in
  let draft := draft_observation sequence input effective_output_sha256 metadata_sha256 virtual_tick
                 outcome applied_fault_ids in
  let? observation_sha256 := replay_hash (observation_tuple (draft [])) in
  Ok (draft observation_sha256).

Definition observation_event (engine_id : str) (observation : ReplayObservation) : ReplayAuditEvent :=
  {| rye_action := "replay_step"; rye_subject_id := engine_id;
     rye_outcome := step_outcome_name (ob_outcome observation);
     rye_metadata :=
       list_to_map [(("sequence" : str), decimal (ob_sequence observation));
                    (("input_sha256" : str), ob_input_sha256 observation);
                    (("output_sha256" : str), ob_output_sha256 observation);
                    (("metadata_sha256" : str), ob_metadata_sha256 observation);
                    (("virtual_tick" : str), decimal (ob_virtual_tick observation));
                    (("observation_sha256" : str), ob_observation_sha256 observation)] |}.

(** The checks of [step] before the seed is drawn from. *)
Definition step_checks (sequence : N) (output_sha256 metadata_sha256 : str) (elapsed_ticks : N)
    (self : ReplayEngine) : Result (ReplayInputRef * N) ReplayError :=
  if negb (bool_decide (eg_state self = ReRunning)) || negb (sequence =? eg_next_sequence self)
  then Err (if bool_decide (eg_state self = ReRunning) then RySequenceMismatch else RyInvalidTransition)
  else match rb_inputs (eg_bundle self) !! N.to_nat (sequence - 1) with
  | None => Err RySequenceMismatch
  | Some input =>
      let? _ := replay_validate_sha256 output_sha256 "replay output" in
      let? _ := replay_validate_sha256 metadata_sha256 "replay metadata" in
      if MAX_FAULT_MAGNITUDE <? elapsed_ticks then Err RyInvalidClock
      else match checked_sum fl_magnitude 0 (rules_at sequence (eg_fault_plan self)) with
      | None => Err RyInvalidClock
      | Some extra_ticks => Ok (input, extra_ticks)
      end
  end.

(** The jitter, drawn from the seed when a rule applies. *)
Definition draw_jitter (rules : list FaultRule) (self : ReplayEngine) : N * ReplayEngine :=
  match rules with
  | [] => (0, self)
  | _ =>
      let (value, seed) := next_u64 (eg_seed self) in
      (value mod (len rules + 1), with_replay_seed seed self)
  end.

Definition replay_step (sequence : N) (output_sha256 metadata_sha256 : str) (elapsed_ticks : N)
    (self : ReplayEngine) : Result ReplayObservation ReplayError * ReplayEngine :=
  match step_checks sequence output_sha256 metadata_sha256 elapsed_ticks self with
  | Err error => (Err error, self)
  | Ok (input, extra_ticks) =>
      let rules := rules_at sequence (eg_fault_plan self) in
      let (jitter, self) := draw_jitter rules self in
      match checked_add elapsed_ticks extra_ticks ≫= (fun value => checked_add value jitter) with
      | None => (Err RyInvalidClock, self)
      | Some delta =>
          let (advanced, clock) := clock_advance delta (eg_clock self) in
          let self := with_replay_clock clock self in
          match advanced with
          | Err error => (Err error, self)
          | Ok virtual_tick =>
              match observe sequence input output_sha256 metadata_sha256 rules virtual_tick with
              | Err error => (Err error, self)
              | Ok observation =>
                  replay_engine_append (observation_event (eg_engine_id self) observation) observation
                    (with_observation observation self)
              end
          end
      end
  end.

(** The checkpoint, before it is recorded. *)
Definition make_checkpoint (self : ReplayEngine) : Run (Result ReplayCheckpoint ReplayError) :=
  match (let? observation_prefix_sha256 := replay_hash (eg_observations self) in
         let? id_hash := replay_hash ((eg_engine_id self, rb_bundle_sha256 (eg_bundle self),
           eg_next_sequence self, observation_prefix_sha256, tail_hash (eg_audit self))
           : CheckpointIdTuple) in
         Ok (observation_prefix_sha256, id_hash)) with
  | Err error => Done (Err error)
  | Ok (observation_prefix_sha256, id_hash) =>
      let! suffix := str_prefix 24 id_hash in
      let draft sha256 :=
        {| ck_checkpoint_id := ("replay-checkpoint-" : str) ++ suffix; ck_engine_id := eg_engine_id self;
           ck_bundle_sha256 := rb_bundle_sha256 (eg_bundle self);
           ck_fault_plan_sha256 := pl_plan_sha256 (eg_fault_plan self);
           ck_next_sequence := eg_next_sequence self;
           ck_virtual_tick := vc_current_tick (eg_clock self);
           ck_seed_counter := sd_counter (eg_seed self);
           ck_observation_prefix_sha256 := observation_prefix_sha256;
           ck_source_audit_tail_hash := tail_hash (eg_audit self); ck_checkpoint_sha256 := sha256 |} in
      Done (let? checkpoint_sha256 := replay_hash (checkpoint_tuple (draft [])) in
            Ok (draft checkpoint_sha256))
  end.

Definition replay_checkpoint (self : ReplayEngine)
    : Run (Result ReplayCheckpoint ReplayError * ReplayEngine) :=
  if negb (bool_decide (eg_state self = ReRunning)) then Done (Err RyInvalidTransition, self)
  else
    let! made := make_checkpoint self in
    match made with
    | Err error => Done (Err error, self)
    | Ok checkpoint =>
        Done (replay_engine_append
          {| rye_action := "replay_checkpoint_created"; rye_subject_id := ck_checkpoint_id checkpoint;
             rye_outcome := "created";
             rye_metadata := {[ ("checkpoint_sha256" : str) := ck_checkpoint_sha256 checkpoint ]} |}
          checkpoint self)
    end.

(** The trace of the observations and the hash of the result. *)
Definition make_trace (self : ReplayEngine) : Result (ReplayTrace * str) ReplayError :=
  let? trace_sha256 := replay_hash ((rb_bundle_sha256 (eg_bundle self), pl_plan_sha256 (eg_fault_plan self),
                                     eg_observations self) : TraceTuple) in
  let trace := {| rtr_bundle_sha256 := rb_bundle_sha256 (eg_bundle self);
                  rtr_fault_plan_sha256 := pl_plan_sha256 (eg_fault_plan self);
                  rtr_observations := eg_observations self; rtr_trace_sha256 := trace_sha256 |} in
  let? _ := trace_verify trace in
  let? result_sha256 := replay_hash ((trace_sha256, rb_expected_observation_sha256 (eg_bundle self),
                                      vc_current_tick (eg_clock self)) : ResultTuple) in
  Ok (trace, result_sha256).

Definition draft_receipt (trace_sha256 result_sha256 receipt_sha256 : str) (self : ReplayEngine)
    : ReplayReceipt :=
  {| rrc_engine_id := eg_engine_id self;
     rrc_policy_snapshot_sha256 := rb_policy_snapshot_sha256 (eg_bundle self);
     rrc_bundle_sha256 := rb_bundle_sha256 (eg_bundle self);
     rrc_fault_plan_sha256 := pl_plan_sha256 (eg_fault_plan self); rrc_trace_sha256 := trace_sha256;
     rrc_result_sha256 := result_sha256; rrc_observation_count := len (eg_observations self);
     rrc_final_virtual_tick := vc_current_tick (eg_clock self); rrc_state := eg_state self;
     rrc_replay_audit_tail_hash := tail_hash (eg_audit self); rrc_receipt_sha256 := receipt_sha256 |}.

Definition replay_finish (self : ReplayEngine)
    : Result (ReplayTrace * ReplayReceipt) ReplayError * ReplayEngine :=
  if negb (bool_decide (eg_state self = ReRunning))
     || negb (eg_next_sequence self =? len (rb_inputs (eg_bundle self)) + 1)
  then (Err RyInvalidTransition, self)
  else
    let self := with_replay_state ReCompleted self in
    match make_trace self with
    | Err error => (Err error, self)
    | Ok (trace, result_sha256) =>
        let '(appended, self) := replay_engine_append
          {| rye_action := "replay_completed"; rye_subject_id := eg_engine_id self;
             rye_outcome := "completed";
             rye_metadata := list_to_map [(("trace_sha256" : str), rtr_trace_sha256 trace);
                                          (("result_sha256" : str), result_sha256)] |} tt self in
        match appended with
        | Err error => (Err error, self)
        | Ok _ =>
            (let? receipt_sha256 :=
               replay_hash (receipt_tuple (draft_receipt (rtr_trace_sha256 trace) result_sha256 [] self)) in
             let receipt := draft_receipt (rtr_trace_sha256 trace) result_sha256 receipt_sha256 self in
             let? _ := receipt_verify receipt in
             Ok (trace, receipt), self)
        end
    end.

Definition terminal_transition (target : ReplayState) (outcome : str) (self : ReplayEngine)
    : Result unit ReplayError * ReplayEngine :=
  if negb (bool_decide (eg_state self = ReRunning)) then (Err RyInvalidTransition, self)
  else
    replay_engine_append
      {| rye_action := "replay_terminal_transition"; rye_subject_id := eg_engine_id self;
         rye_outcome := outcome; rye_metadata := ∅ |} tt (with_replay_state target self).

Definition replay_cancel (self : ReplayEngine) : Result unit ReplayError * ReplayEngine :=
  terminal_transition ReCancelled "cancelled" self.

Definition replay_emergency_stop (self : ReplayEngine) : Result unit ReplayError * ReplayEngine :=
  if replay_is_terminal (eg_state self) then (Err RyInvalidTransition, self)
  else terminal_transition ReEmergencyStopped "emergency_stopped" self.

(** *** Comparison *)

Definition comparison_tuple (self : ReplayComparison) : ComparisonTuple :=
  (cmp_comparison_id self, cmp_baseline_trace_sha256 self, cmp_candidate_trace_sha256 self,
   cmp_class self, cmp_changed_sequences self).

Definition comparison_verify (self : ReplayComparison) : Result unit ReplayError :=
  let? expected := replay_hash (comparison_tuple self) in
  if negb (bool_decide (expected = cmp_comparison_sha256 self))
  then Err (RyInvalidComparison "comparison digest mismatch") else Ok tt.

Definition differs (left right : ReplayObservation) : bool :=
  negb (ob_sequence left =? ob_sequence right)
  || negb (bool_decide (ob_input_sha256 left = ob_input_sha256 right))
  || negb (bool_decide (ob_output_sha256 left = ob_output_sha256 right))
  || negb (bool_decide (ob_metadata_sha256 left = ob_metadata_sha256 right))
  || negb (bool_decide (ob_outcome left = ob_outcome right))
  || negb (bool_decide (ob_applied_fault_ids left = ob_applied_fault_ids right)).

(** The loop over the indices: whether the traces differ in meaning, in time, and where. *)
Fixpoint compare_observations (baseline candidate : list ReplayObservation)
    (semantic timing : bool) (changed : gset N) : bool * bool * gset N :=
  match baseline, candidate with
  | one :: baseline, other :: candidate =>
      if differs one other then
        compare_observations baseline candidate true timing
          ({[N.max (ob_sequence one) (ob_sequence other)]} ∪ changed)
      else if negb (ob_virtual_tick one =? ob_virtual_tick other) then
        compare_observations baseline candidate semantic true ({[ob_sequence one]} ∪ changed)
      else compare_observations baseline candidate semantic timing changed
  | [], [] => (semantic, timing, changed)
  | rest, [] | [], rest =>
      (true, timing, list_to_set (map ob_sequence rest) ∪ changed)
  end.

Definition drift (baseline candidate : ReplayTrace) : DriftClass * gset N :=
  if negb (bool_decide (rtr_bundle_sha256 baseline = rtr_bundle_sha256 candidate)) then (DrInput, ∅)
  else if negb (bool_decide (rtr_fault_plan_sha256 baseline = rtr_fault_plan_sha256 candidate))
  then (DrFaultPlan, ∅)
  else
    let '(semantic, timing, changed) :=
      compare_observations (rtr_observations baseline) (rtr_observations candidate) false false ∅ in
    (if (semantic : bool) then DrSemantic else if (timing : bool) then DrTiming else DrExact, changed).

Definition compare_traces (baseline candidate : ReplayTrace) : Run (Result ReplayComparison ReplayError) :=
  let '(class, changed_sequences) := drift baseline candidate in
  match (let? _ := trace_verify baseline in
         let? _ := trace_verify candidate in
         replay_hash ((rtr_trace_sha256 baseline, rtr_trace_sha256 candidate, class, changed_sequences)
                      : ComparisonSeedTuple)) with
  | Err error => Done (Err error)
  | Ok seed =>
      let! suffix := str_prefix 24 seed in
      let draft sha256 :=
        {| cmp_comparison_id := ("replay-comparison-" : str) ++ suffix;
           cmp_baseline_trace_sha256 := rtr_trace_sha256 baseline;
           cmp_candidate_trace_sha256 := rtr_trace_sha256 candidate; cmp_class := class;
           cmp_changed_sequences := changed_sequences; cmp_comparison_sha256 := sha256 |} in
      Done (let? comparison_sha256 := replay_hash (comparison_tuple (draft [])) in
            let comparison := draft comparison_sha256 in
            let? _ := comparison_verify comparison in
            Ok comparison)
  end.

(** *** Reproducibility *)

Definition reproducibility_tuple (self : ReproducibilityCertificate) : ReproducibilityTuple :=
  (rpc_certificate_id self, rpc_authority_id self, rpc_policy_snapshot_sha256 self,
   rpc_bundle_sha256 self, rpc_fault_plan_sha256 self, rpc_trace_sha256 self, rpc_result_sha256 self,
   rpc_engine_ids self, rpc_receipt_sha256 self, rpc_quorum self, rpc_authority_audit_tail_hash self).

Definition reproducibility_verify (self : ReproducibilityCertificate) : Result unit ReplayError :=
  let? _ := replay_validate_hashes
    [(("reproducibility policy" : str), rpc_policy_snapshot_sha256 self);
     (("reproducibility bundle" : str), rpc_bundle_sha256 self);
     (("reproducibility plan" : str), rpc_fault_plan_sha256 self);
     (("reproducibility trace" : str), rpc_trace_sha256 self);
     (("reproducibility result" : str), rpc_result_sha256 self);
     (("reproducibility authority audit" : str), rpc_authority_audit_tail_hash self);
     (("reproducibility certificate" : str), rpc_certificate_sha256 self)] in
  if (rpc_quorum self <? 2) || (N.of_nat (size (rpc_engine_ids self)) <? rpc_quorum self)
     || (N.of_nat (size (rpc_receipt_sha256 self)) <? rpc_quorum self)
  then Err (RyCertificationDenied "reproducibility quorum")
  else
  let? expected := replay_hash (reproducibility_tuple self) in
  if negb (bool_decide (expected = rpc_certificate_sha256 self))
  then Err (RyCertificationDenied "reproducibility certificate digest") else Ok tt.

Definition reproducibility_authority_new (authority_id policy_snapshot_sha256 : str) (required_quorum : N)
    (audit_genesis : str) : Result ReproducibilityAuthority ReplayError :=
  let? _ := replay_validate_identifier authority_id "reproducibility authority" in
  let? _ := replay_validate_sha256 policy_snapshot_sha256 "reproducibility policy" in
  if negb ((2 <=? required_quorum) && (required_quorum <=? MAX_REPRODUCIBILITY_RECEIPTS))
  then Err (RyCertificationDenied "required replay quorum")
  else
  let? audit := replay_audit_new audit_genesis in
  Ok {| rau_authority_id := authority_id; rau_policy_snapshot_sha256 := policy_snapshot_sha256;
        rau_required_quorum := required_quorum; rau_audit := audit |}.

Fixpoint receipts_verify (receipts : list ReplayReceipt) : Result unit ReplayError :=
  match receipts with
  | [] => Ok tt
  | receipt :: rest => let? _ := receipt_verify receipt in receipts_verify rest
  end.

(** A receipt that does not agree with the first. *)
Definition disagrees (first receipt : ReplayReceipt) : bool :=
  negb (bool_decide (rrc_policy_snapshot_sha256 receipt = rrc_policy_snapshot_sha256 first))
  || negb (bool_decide (rrc_bundle_sha256 receipt = rrc_bundle_sha256 first))
  || negb (bool_decide (rrc_fault_plan_sha256 receipt = rrc_fault_plan_sha256 first))
  || negb (bool_decide (rrc_trace_sha256 receipt = rrc_trace_sha256 first))
  || negb (bool_decide (rrc_result_sha256 receipt = rrc_result_sha256 first))
  || negb (rrc_observation_count receipt =? rrc_observation_count first)
  || negb (rrc_final_virtual_tick receipt =? rrc_final_virtual_tick first).

Definition string_set (f : ReplayReceipt -> str) (receipts : list ReplayReceipt) : gset str :=
  list_to_set (map f receipts).

(** The first receipt, once all checks of [certify] are passed. *)
Definition agreed_receipt (receipts : list ReplayReceipt) (self : ReproducibilityAuthority)
    : Result ReplayReceipt ReplayError :=
  if (len receipts <? rau_required_quorum self) || (MAX_REPRODUCIBILITY_RECEIPTS <? len receipts)
  then Err (RyCertificationDenied "replay receipt count")
  else
  let? _ := receipts_verify receipts in
  match receipts with
  | [] => Err (RyCertificationDenied "missing receipts")
  | first :: _ =>
      if negb (N.of_nat (size (string_set rrc_engine_id receipts)) =? len receipts)
         || negb (N.of_nat (size (string_set rrc_receipt_sha256 receipts)) =? len receipts)
         || negb (bool_decide (rrc_policy_snapshot_sha256 first = rau_policy_snapshot_sha256 self))
         || existsb (disagrees first) receipts
      then Err (RyCertificationDenied "receipt identity, policy or deterministic result mismatch")
      else Ok first
  end.

Definition reproducibility_certify (receipts : list ReplayReceipt) (self : ReproducibilityAuthority)
    : Run (Result ReproducibilityCertificate ReplayError * ReproducibilityAuthority) :=
  let engine_ids := string_set rrc_engine_id receipts in
  let receipt_sha256 := string_set rrc_receipt_sha256 receipts in
  match (let? first := agreed_receipt receipts self in
         let? seed := replay_hash ((rau_authority_id self, rau_policy_snapshot_sha256 self,
           rrc_bundle_sha256 first, rrc_fault_plan_sha256 first, rrc_trace_sha256 first,
           rrc_result_sha256 first, engine_ids, receipt_sha256, rau_required_quorum self)
           : ReproducibilitySeedTuple) in
         Ok (first, seed)) with
  | Err error => Done (Err error, self)
  | Ok (first, seed) =>
      let! suffix := str_prefix 24 seed in
      let certificate_id := ("reproducibility-" : str) ++ suffix in
      let '(appended, audit) := replay_audit_append
        {| rye_action := "reproducibility_quorum_accepted"; rye_subject_id := certificate_id;
           rye_outcome := "accepted";
           rye_metadata := list_to_map [(("bundle_sha256" : str), rrc_bundle_sha256 first);
                                        (("trace_sha256" : str), rrc_trace_sha256 first);
                                        (("quorum" : str), decimal (rau_required_quorum self))] |}
        (rau_audit self) in
      let self := {| rau_authority_id := rau_authority_id self;
                     rau_policy_snapshot_sha256 := rau_policy_snapshot_sha256 self;
                     rau_required_quorum := rau_required_quorum self; rau_audit := audit |} in
      match appended with
      | Err error => Done (Err error, self)
      | Ok _ =>
          let draft sha256 :=
            {| rpc_certificate_id := certificate_id; rpc_authority_id := rau_authority_id self;
               rpc_policy_snapshot_sha256 := rau_policy_snapshot_sha256 self;
               rpc_bundle_sha256 := rrc_bundle_sha256 first;
               rpc_fault_plan_sha256 := rrc_fault_plan_sha256 first;
               rpc_trace_sha256 := rrc_trace_sha256 first; rpc_result_sha256 := rrc_result_sha256 first;
               rpc_engine_ids := engine_ids; rpc_receipt_sha256 := receipt_sha256;
               rpc_quorum := rau_required_quorum self;
               rpc_authority_audit_tail_hash := tail_hash audit; rpc_certificate_sha256 := sha256 |} in
          Done (let? certificate_sha256 := replay_hash (reproducibility_tuple (draft [])) in
                let certificate := draft certificate_sha256 in
                let? _ := reproducibility_verify certificate in
                Ok certificate, self)
      end
  end.

End Replay.
