(* ===== verification/ReplayFacts.v ===== *)
(** * What the replay lab guarantees

    A replay follows its bundle and fault plan along every history, and a resumed
    replay continues exactly like the original. *)

From S2P Require Import Prelude ByteStr BTree HashChain HttpSyntax Planner Validation ValidationFacts Adapter Replay.
Local Open Scope N_scope.

Section Facts.
Context {S : Sha256Lib} {J : ReplayJson}.

Lemma replay_append_spec event chain r chain' :
  replay_audit_append event chain = (r, chain') ->
  (chain_ok chain -> chain_ok chain')
  /\ match r with
     | Ok rec => records chain' = records chain ++ [rec] /\ HashChain.event rec = event
     | Err _ => chain' = chain
     end.
Proof.
  unfold replay_audit_append. destruct (chain_append event chain) as [r0 c0] eqn:Ha.
  intros [= <- <-]. split; [intros Hok; by eapply chain_append_ok|].
  apply chain_append_spec in Ha. destruct r0; cbn; [|done]. naive_solver.
Qed.

Lemma replay_append_total {T : ReplayJsonTotal} event chain :
  exists rec chain', replay_audit_append event chain = (Ok rec, chain').
Proof.
  unfold replay_audit_append. destruct (chain_append_total event chain) as (rec & c & ->). eauto.
Qed.

Lemma replay_audit_new_ok genesis audit : replay_audit_new genesis = Ok audit -> chain_ok audit.
Proof.
  unfold replay_audit_new, chain_new_anchored. destruct (negb _); simpl; [done|]. intros [= <-].
  apply chain_new_ok.
Qed.

Lemma replay_hash_spec {A} {JV : JsonLib A} (value : A) h :
  replay_hash value = Ok h <-> exists bytes, to_vec value = Ok bytes /\ h = replay_hash_bytes bytes.
Proof. unfold replay_hash. destruct (to_vec value); simpl; naive_solver. Qed.

Lemma replay_hash_total {A} {JV : JsonLib A} {JT : JsonTotal A} (value : A) :
  exists h, replay_hash value = Ok h.
Proof. unfold replay_hash. destruct (to_vec_total value) as [b ->]. simpl. eauto. Qed.

Lemma replay_hash_hex `{!Sha256Laws} {A} {JV : JsonLib A} (value : A) h :
  replay_hash value = Ok h -> is_lower_hex_sha256 h = true.
Proof.
  rewrite replay_hash_spec. intros (bytes & _ & ->). apply to_lower_hex_sha256.
  pose proof (sha256_length bytes) as Hl. unfold len in Hl. lia.
Qed.

(** ** Steps without the audit *)

(** Appending never fails and changes only the audit. *)
Lemma engine_append_total {T : ReplayJsonTotal} {A} event (x : A) e :
  exists a, replay_engine_append event x e = (Ok x, with_replay_audit a e) /\ (chain_ok (eg_audit e) -> chain_ok a).
Proof.
  unfold replay_engine_append. destruct (replay_append_total event (eg_audit e)) as (rec & a & Ha). rewrite Ha.
  exists a. split; [done|]. by apply replay_append_spec in Ha as [? _].
Qed.

(** The same engine under another identity and with another audit. *)
Definition with_identity (id : str) (audit : HashChain ReplayAuditEvent) (e : ReplayEngine) : ReplayEngine :=
  {| eg_engine_id := id; eg_bundle := eg_bundle e; eg_fault_plan := eg_fault_plan e;
     eg_clock := eg_clock e; eg_seed := eg_seed e; eg_state := eg_state e;
     eg_next_sequence := eg_next_sequence e; eg_observations := eg_observations e; eg_audit := audit |}.
Definition same_engine (e1 e2 : ReplayEngine) : Prop := exists id a, e2 = with_identity id a e1.

Lemma same_engine_refl e : same_engine e e.
Proof. exists (eg_engine_id e), (eg_audit e). by destruct e. Qed.
Lemma same_engine_sym e1 e2 : same_engine e1 e2 -> same_engine e2 e1.
Proof. intros (id & a & ->). exists (eg_engine_id e1), (eg_audit e1). by destruct e1. Qed.
Lemma same_engine_trans e1 e2 e3 : same_engine e1 e2 -> same_engine e2 e3 -> same_engine e1 e3.
Proof. intros (id & a & ->) (id' & b & ->). by exists id', b. Qed.

#[global] Instance same_engine_equivalence : Equivalence same_engine.
Proof.
  split; [exact same_engine_refl|exact same_engine_sym|exact same_engine_trans].
Qed.

Lemma engine_append_same {T : ReplayJsonTotal} {A} event1 event2 (x : A) e1 e2 :
  same_engine e1 e2 ->
  (replay_engine_append event1 x e1).1 = Ok x /\ (replay_engine_append event2 x e2).1 = Ok x
  /\ same_engine (replay_engine_append event1 x e1).2 (replay_engine_append event2 x e2).2.
Proof.
  intros (id & a & ->). destruct (engine_append_total event1 x e1) as (b & -> & _).
  destruct (engine_append_total event2 x (with_identity id a e1)) as (c & -> & _).
  split_and!; [done..|]. by exists id, c.
Qed.

(** Engines that differ in identity and audit only take the same steps. *)
Lemma replay_step_same {T : ReplayJsonTotal} sequence out meta elapsed e1 e2 :
  same_engine e1 e2 ->
  (replay_step sequence out meta elapsed e1).1 = (replay_step sequence out meta elapsed e2).1
  /\ same_engine (replay_step sequence out meta elapsed e1).2 (replay_step sequence out meta elapsed e2).2.
Proof.
  intros (id & a & ->). unfold replay_step.
  change (step_checks sequence out meta elapsed (with_identity id a e1))
    with (step_checks sequence out meta elapsed e1).
  change (eg_fault_plan (with_identity id a e1)) with (eg_fault_plan e1).
  destruct (step_checks _ _ _ _ _) as [[input extra]|error]; [|split; [done|by exists id, a]].
  assert (draw_jitter (rules_at sequence (eg_fault_plan e1)) (with_identity id a e1)
          = ((draw_jitter (rules_at sequence (eg_fault_plan e1)) e1).1,
             with_identity id a (draw_jitter (rules_at sequence (eg_fault_plan e1)) e1).2)) as ->.
  { unfold draw_jitter. destruct (rules_at _ _); [done|].
    change (eg_seed (with_identity id a e1)) with (eg_seed e1). by destruct (next_u64 _). }
  destruct (draw_jitter _ e1) as [jitter e]. cbn [fst snd].
  destruct (_ ≫= _) as [delta|]; [|split; [done|by exists id, a]].
  change (eg_clock (with_identity id a e)) with (eg_clock e).
  destruct (clock_advance delta (eg_clock e)) as [advanced clock].
  destruct advanced as [tick|]; [|split; [done|by exists id, a]].
  destruct (observe _ _ _ _ _ _) as [observation|]; [|split; [done|by exists id, a]].
  destruct (engine_append_same (observation_event (eg_engine_id (with_replay_clock clock e)) observation)
    (observation_event (eg_engine_id (with_replay_clock clock (with_identity id a e))) observation) observation
    (with_observation observation (with_replay_clock clock e))
    (with_observation observation (with_replay_clock clock (with_identity id a e)))) as (-> & -> & Hs);
    [by exists id, a|]. done.
Qed.

(** A sequence of steps. *)
Definition StepArgs : Type := N * str * str * N.
Fixpoint engine_steps (steps : list StepArgs) (e : ReplayEngine)
    : list (Result ReplayObservation ReplayError) * ReplayEngine :=
  match steps with
  | [] => ([], e)
  | (sequence, out, meta, elapsed) :: rest =>
      let '(r, e1) := replay_step sequence out meta elapsed e in
      let '(rs, e2) := engine_steps rest e1 in
      (r :: rs, e2)
  end.

Lemma engine_steps_same {T : ReplayJsonTotal} steps e1 e2 :
  same_engine e1 e2 ->
  (engine_steps steps e1).1 = (engine_steps steps e2).1
  /\ same_engine (engine_steps steps e1).2 (engine_steps steps e2).2.
Proof.
  revert e1 e2. induction steps as [|[[[sequence out] meta] elapsed] steps IH]; intros e1 e2 Hs; [done|].
  cbn. destruct (replay_step_same sequence out meta elapsed e1 e2 Hs) as [H1 H2].
  destruct (replay_step _ _ _ _ e1) as [r1 f1], (replay_step _ _ _ _ e2) as [r2 f2]. cbn in H1, H2.
  destruct (IH f1 f2 H2) as [H3 H4].
  destruct (engine_steps steps f1) as [rs1 g1], (engine_steps steps f2) as [rs2 g2]. cbn in *. by subst.
Qed.

(** Receipts that agree up to the engine and the audit they are anchored in. *)
Definition same_receipt (r1 r2 : ReplayReceipt) : Prop :=
  rrc_policy_snapshot_sha256 r1 = rrc_policy_snapshot_sha256 r2
  /\ rrc_bundle_sha256 r1 = rrc_bundle_sha256 r2 /\ rrc_fault_plan_sha256 r1 = rrc_fault_plan_sha256 r2
  /\ rrc_trace_sha256 r1 = rrc_trace_sha256 r2 /\ rrc_result_sha256 r1 = rrc_result_sha256 r2
  /\ rrc_observation_count r1 = rrc_observation_count r2
  /\ rrc_final_virtual_tick r1 = rrc_final_virtual_tick r2 /\ rrc_state r1 = rrc_state r2.

(** A finished replay, in the two cases. *)
Lemma replay_finish_cases {T : ReplayJsonTotal} e :
  (replay_finish e = (Err RyInvalidTransition, e)
   /\ (eg_state e <> ReRunning \/ eg_next_sequence e <> len (rb_inputs (eg_bundle e)) + 1))
  \/ (eg_state e = ReRunning /\ eg_next_sequence e = len (rb_inputs (eg_bundle e)) + 1
      /\ exists trace result sha a,
           make_trace e = Ok (trace, result)
           /\ replay_finish e
              = (Ok (trace, draft_receipt (rtr_trace_sha256 trace) result sha
                              (with_replay_audit a (with_replay_state ReCompleted e))),
                 with_replay_audit a (with_replay_state ReCompleted e))
           /\ (chain_ok (eg_audit e) -> chain_ok a)).
Proof.
  unfold replay_finish. destruct (bool_decide (eg_state e = ReRunning)) eqn:E1; cbn [negb orb].
  2: { bools. left. auto. }
  destruct (eg_next_sequence e =? _) eqn:E2; cbn [negb]; bools; [|left; auto]. right. split_and!; auto.
  change (make_trace (with_replay_state ReCompleted e)) with (make_trace e).
  assert (exists trace result, make_trace e = Ok (trace, result)) as (trace & result & Et).
  { unfold make_trace. destruct (replay_hash_total (JV := rj_trace)
      (rb_bundle_sha256 (eg_bundle e), pl_plan_sha256 (eg_fault_plan e), eg_observations e)) as [h Hh].
    rewrite Hh. unfold trace_verify. cbn. rewrite Hh. cbn. rewrite bool_decide_eq_true_2 by done. cbn.
    destruct (replay_hash_total (JV := rj_result) (h, rb_expected_observation_sha256 (eg_bundle e),
      vc_current_tick (eg_clock e))) as [h' ->]. eauto. }
  rewrite Et. destruct (engine_append_total {| rye_action := "replay_completed";
    rye_subject_id := eg_engine_id (with_replay_state ReCompleted e); rye_outcome := "completed";
    rye_metadata := list_to_map [(("trace_sha256" : str), rtr_trace_sha256 trace);
      (("result_sha256" : str), result)] |} tt (with_replay_state ReCompleted e)) as (a & -> & Hok).
  destruct (replay_hash_total (JV := rj_receipt) (receipt_tuple (draft_receipt (rtr_trace_sha256 trace) result []
    (with_replay_audit a (with_replay_state ReCompleted e))))) as [sha Hsha].
  exists trace, result, sha, a. split_and!; auto. rewrite Hsha. unfold receipt_verify.
  change (receipt_tuple (draft_receipt (rtr_trace_sha256 trace) result sha
    (with_replay_audit a (with_replay_state ReCompleted e)))) with (receipt_tuple (draft_receipt
    (rtr_trace_sha256 trace) result [] (with_replay_audit a (with_replay_state ReCompleted e)))).
  rewrite Hsha. cbn. by rewrite !bool_decide_eq_true_2.
Qed.

(** What [finish] returns verifies. *)
Lemma replay_finish_verified e trace receipt :
  (replay_finish e).1 = Ok (trace, receipt) ->
  rtr_observations trace = eg_observations e /\ trace_verify trace = Ok tt /\ receipt_verify receipt = Ok tt.
Proof.
  unfold replay_finish. destruct (_ || _); [done|].
  destruct (make_trace _) as [[t r]|] eqn:Et; [|done]. destruct (replay_engine_append _ _ _) as [[] e1]; [|done]. cbn.
  intros H. repeat step_in H. simplify_eq. unfold make_trace in Et. repeat step_in Et. simplify_eq.
  repeat match goal with u : () |- _ => destruct u end. done.
Qed.

Lemma replay_finish_same {T : ReplayJsonTotal} e1 e2 :
  same_engine e1 e2 ->
  match replay_finish e1, replay_finish e2 with
  | (Ok (t1, r1), _), (Ok (t2, r2), _) => t1 = t2 /\ same_receipt r1 r2
  | (Err x, _), (Err y, _) => x = y
  | _, _ => False
  end.
Proof.
  intros (id & a & ->).
  destruct (replay_finish_cases e1) as [(-> & Hn)|(H1 & H2 & t & r & sha & b & Et & -> & _)].
  - destruct (replay_finish_cases (with_identity id a e1)) as [(-> & _)|(H1 & H2 & _)]; [done|].
    cbn in H1, H2. tauto.
  - destruct (replay_finish_cases (with_identity id a e1)) as [(_ & Hn)|(_ & _ & t' & r' & sha' & b' & Et' & -> & _)].
    { cbn in Hn. tauto. }
    change (make_trace (with_identity id a e1)) with (make_trace e1) in Et'.
    rewrite Et in Et'. simplify_eq. split; [done|]. by unfold same_receipt.
Qed.

(** ** The invariant of an engine *)

(** The observation at position [i] is that of the input there, under the rules of
    the plan for it. *)
Definition observation_sound (e : ReplayEngine) (i : nat) (o : ReplayObservation) : Prop :=
  let rules := rules_at (N.of_nat i + 1) (eg_fault_plan e) in
  ob_sequence o = N.of_nat i + 1
  /\ (exists input, rb_inputs (eg_bundle e) !! i = Some input
        /\ ob_input_id o = ri_input_id input /\ ob_input_sha256 o = ri_content_sha256 input)
  /\ ob_outcome o = step_outcome rules
  /\ ob_applied_fault_ids o = list_to_set (map fl_rule_id rules)
  /\ replay_hash (observation_tuple o) = Ok (ob_observation_sha256 o)
  /\ rb_initial_tick (eg_bundle e) <= ob_virtual_tick o <= vc_current_tick (eg_clock e).

Record replay_ok (e : ReplayEngine) : Prop := {
  eo_id : replay_validate_identifier (eg_engine_id e) "replay engine" = Ok tt;
  eo_bundle : bundle_verify (eg_bundle e) = Ok tt;
  eo_plan : fault_plan_verify (eg_fault_plan e) = Ok tt;
  eo_inputs : len (rb_inputs (eg_bundle e)) < u64_max;
  eo_initial : vc_initial_tick (eg_clock e) = rb_initial_tick (eg_bundle e);
  eo_maximum : vc_maximum_tick (eg_clock e) = MAX_VIRTUAL_TICK;
  eo_current : rb_initial_tick (eg_bundle e) <= vc_current_tick (eg_clock e) <= MAX_VIRTUAL_TICK;
  eo_seed : sd_seed_sha256 (eg_seed e) = rb_seed_sha256 (eg_bundle e);
  eo_seed_hex : is_lower_hex_sha256 (rb_seed_sha256 (eg_bundle e)) = true;
  eo_sequence : eg_next_sequence e = len (eg_observations e) + 1;
  eo_length : len (eg_observations e) <= len (rb_inputs (eg_bundle e));
  eo_audit : chain_ok (eg_audit e);
  eo_observations : forall i o, eg_observations e !! i = Some o -> observation_sound e i o;
  eo_ticks : StronglySorted N.le (map ob_virtual_tick (eg_observations e))
}.

Lemma replay_new_ok id bundle plan genesis e :
  replay_new id bundle plan genesis = Ok e -> len (rb_inputs bundle) < u64_max ->
  replay_ok e /\ eg_engine_id e = id /\ eg_bundle e = bundle /\ eg_fault_plan e = plan
  /\ eg_state e = ReCreated /\ eg_observations e = [].
Proof.
  unfold replay_new. intros H Hin. repeat step_in H. simplify_eq.
  repeat match goal with u : () |- _ => destruct u end. bools.
  unfold clock_new in *. destruct (_ || _) eqn:Ec in *; [done|]. bools.
  unfold seed_new in *. destruct (replay_validate_sha256 (rb_seed_sha256 bundle) _) as [[]|] eqn:Es in *; [|done].
  unfold replay_validate_sha256 in Es. step_in Es. bools. simplify_eq. cbn.
  split_and!; auto. constructor; cbn; auto; try lia; try done; unfold len; cbn; try lia.
  - by eapply replay_audit_new_ok.
  - constructor.
Qed.

Lemma replay_ok_audit a e : replay_ok e -> chain_ok a -> replay_ok (with_replay_audit a e).
Proof. intros [] Ha. by constructor. Qed.
Lemma replay_ok_state st e : replay_ok e -> replay_ok (with_replay_state st e).
Proof. intros []. by constructor. Qed.

Lemma step_checks_ok sequence out meta elapsed e input extra :
  step_checks sequence out meta elapsed e = Ok (input, extra) ->
  eg_state e = ReRunning /\ sequence = eg_next_sequence e
  /\ rb_inputs (eg_bundle e) !! N.to_nat (sequence - 1) = Some input
  /\ checked_sum fl_magnitude 0 (rules_at sequence (eg_fault_plan e)) = Some extra.
Proof. unfold step_checks. intros H. repeat step_in H. bools. simplify_eq. auto. Qed.

Lemma clock_advance_ok delta c r c' :
  clock_advance delta c = (r, c') ->
  vc_initial_tick c' = vc_initial_tick c /\ vc_maximum_tick c' = vc_maximum_tick c
  /\ match r with
     | Ok tick => tick = vc_current_tick c + delta /\ tick <= vc_maximum_tick c /\ vc_current_tick c' = tick
     | Err _ => c' = c
     end.
Proof.
  unfold clock_advance. destruct (checked_add _ _) as [next|] eqn:E; [|by intros [= <- <-]].
  apply checked_add_some in E as [-> _]. destruct (_ <? _) eqn:El; intros [= <- <-]; [done|]. by bools.
Qed.

Lemma observe_ok sequence input out meta rules tick o :
  observe sequence input out meta rules tick = Ok o ->
  ob_sequence o = sequence /\ ob_input_id o = ri_input_id input
  /\ ob_input_sha256 o = ri_content_sha256 input /\ ob_outcome o = step_outcome rules
  /\ ob_applied_fault_ids o = list_to_set (map fl_rule_id rules)
  /\ replay_hash (observation_tuple o) = Ok (ob_observation_sha256 o) /\ ob_virtual_tick o = tick
  /\ ob_metadata_sha256 o = meta
  /\ (keeps_output (step_outcome rules) = true -> ob_output_sha256 o = out).
Proof.
  unfold observe. intros H. destruct (if keeps_output _ then _ else _) as [eff|] eqn:Ee; [|done].
  destruct (replay_hash _) as [h|] eqn:Eh in H; [|done]. simplify_eq. cbn. split_and!; auto.
  intros Hk. rewrite Hk in Ee. by simplify_eq.
Qed.

Lemma draw_jitter_frame rules e j e' :
  draw_jitter rules e = (j, e') ->
  e' = with_replay_seed (eg_seed e') e /\ sd_seed_sha256 (eg_seed e') = sd_seed_sha256 (eg_seed e).
Proof.
  unfold draw_jitter. destruct rules; [|destruct (next_u64 _) as [v s] eqn:E]; intros H; simplify_eq.
  - split; [by destruct e'|done].
  - split; [done|]. cbn. unfold next_u64 in E. by simplify_eq.
Qed.

(** The engine with a new seed, a later clock. *)
Lemma replay_ok_moved seed clock e :
  replay_ok e -> sd_seed_sha256 seed = sd_seed_sha256 (eg_seed e) ->
  vc_initial_tick clock = vc_initial_tick (eg_clock e) -> vc_maximum_tick clock = vc_maximum_tick (eg_clock e) ->
  vc_current_tick (eg_clock e) <= vc_current_tick clock <= MAX_VIRTUAL_TICK ->
  replay_ok (with_replay_clock clock (with_replay_seed seed e)).
Proof.
  intros [] H1 H2 H3 H4. constructor; cbn; auto; try congruence; try lia.
  intros i o Ho. destruct (eo_observations0 i o Ho) as (A & B & C & D & F & G).
  unfold observation_sound. cbn. split_and!; auto; lia.
Qed.

Lemma sorted_snoc (l : list N) x :
  StronglySorted N.le l -> (forall y, y ∈ l -> y <= x) -> StronglySorted N.le (l ++ [x]).
Proof.
  induction 1 as [|y l Hs IH Hall]; intros Hx; cbn; [repeat constructor|].
  constructor; [apply IH; intros z Hz; apply Hx; set_solver|].
  apply Forall_app. split; [done|]. constructor; [|constructor]. apply Hx. set_solver.
Qed.

Lemma replay_ok_observed o e :
  replay_ok e -> observation_sound e (length (eg_observations e)) o ->
  ob_virtual_tick o = vc_current_tick (eg_clock e) -> replay_ok (with_observation o e).
Proof.
  intros Hok Ho Ht. pose proof Hok as [].
  assert (len (eg_observations e) < len (rb_inputs (eg_bundle e))) as Hlt.
  { destruct Ho as (_ & (input & Hi & _) & _). apply lookup_lt_Some in Hi. unfold len. lia. }
  constructor; cbn; auto.
  - rewrite len_app, eo_sequence0. unfold saturating_add, len in *. cbn. lia.
  - rewrite len_app. unfold len in *. cbn. lia.
  - intros i o' [[_ Hi]|[-> <-]]%lookup_snoc_Some; [by apply eo_observations0|]. exact Ho.
  - rewrite map_app. apply sorted_snoc; [done|]. intros y (o' & -> & (i & Hi)%list_elem_of_lookup)%list_elem_of_fmap.
    destruct (eo_observations0 i o' Hi) as (_ & _ & _ & _ & _ & Hle). rewrite Ht. lia.
Qed.

(** ** Every operation keeps the invariant *)

Lemma engine_append_ok {A} event (x : A) e : replay_ok e -> replay_ok (replay_engine_append event x e).2.
Proof.
  intros Hok. unfold replay_engine_append. destruct (replay_audit_append _ _) as [r a] eqn:Ha.
  apply replay_append_spec in Ha as [Ha _]. destruct r; cbn; apply replay_ok_audit; auto using eo_audit.
Qed.

Lemma replay_step_ok sequence out meta elapsed e :
  replay_ok e -> replay_ok (replay_step sequence out meta elapsed e).2.
Proof.
  intros Hok. unfold replay_step. destruct (step_checks _ _ _ _ _) as [[input extra]|] eqn:Ec; [|done].
  apply step_checks_ok in Ec as (Hst & -> & Hin & _).
  destruct (draw_jitter _ e) as [jitter e1] eqn:Ej. apply draw_jitter_frame in Ej as [-> Hseed].
  cbn [eg_seed with_replay_seed] in Hseed. generalize dependent (eg_seed e1). intros seed Hseed.
  assert (replay_ok (with_replay_seed seed e)) as Hok1.
  { pose proof (eo_current _ Hok). replace (with_replay_seed seed e)
      with (with_replay_clock (eg_clock e) (with_replay_seed seed e)) by (by destruct e).
    apply replay_ok_moved; auto. lia. }
  destruct (_ ≫= _) as [delta|]; [|done].
  change (eg_clock (with_replay_seed seed e)) with (eg_clock e).
  destruct (clock_advance delta (eg_clock e)) as [r clock] eqn:Ea.
  apply clock_advance_ok in Ea as (H1 & H2 & H3).
  assert (replay_ok (with_replay_clock clock (with_replay_seed seed e))) as Hok2.
  { pose proof (eo_current _ Hok). pose proof (eo_maximum _ Hok) as Hm. apply replay_ok_moved; auto.
    destruct r; [destruct H3 as (-> & H3 & ->); rewrite Hm in H3; lia|subst; lia]. }
  destruct r as [tick|]; [|done]. destruct (observe _ _ _ _ _ _) as [o|] eqn:Eo; [|done].
  apply engine_append_ok, replay_ok_observed; [done| |].
  - apply observe_ok in Eo as (O1 & O2 & O3 & O4 & O5 & O6 & O7 & _).
    pose proof (eo_sequence _ Hok) as Hs. pose proof (eo_current _ Hok2) as Hc. destruct H3 as (Ht & _ & Hk).
    cbn in Hc |- *. unfold observation_sound. cbn.
    assert (N.of_nat (length (eg_observations e)) + 1 = eg_next_sequence e) as ->
      by (rewrite Hs; unfold len; lia).
    split_and!; auto; try lia; [|congruence..]. exists input. split_and!; auto.
    rewrite <- Hin. f_equal. rewrite Hs. unfold len. lia.
  - apply observe_ok in Eo as (_ & _ & _ & _ & _ & _ & -> & _). cbn. destruct H3 as (_ & _ & ->). done.
Qed.

Lemma replay_start_ok e : replay_ok e -> replay_ok (replay_start e).2.
Proof.
  intros. unfold replay_start. destruct (negb _); [done|]. by apply engine_append_ok, replay_ok_state.
Qed.
Lemma terminal_transition_ok target outcome e : replay_ok e -> replay_ok (terminal_transition target outcome e).2.
Proof.
  intros. unfold terminal_transition. destruct (negb _); [done|]. by apply engine_append_ok, replay_ok_state.
Qed.
Lemma replay_stop_ok e : replay_ok e -> replay_ok (replay_emergency_stop e).2.
Proof.
  intros. unfold replay_emergency_stop. destruct (replay_is_terminal _); [done|].
  by apply terminal_transition_ok.
Qed.
Lemma replay_finish_ok {T : ReplayJsonTotal} e : replay_ok e -> replay_ok (replay_finish e).2.
Proof.
  intros Hok. destruct (replay_finish_cases e) as [(-> & _)|(_ & _ & t & r & sha & a & _ & -> & Ha)]; [done|].
  cbn. apply replay_ok_audit; [by apply replay_ok_state|]. by apply Ha, eo_audit.
Qed.

(** Checkpoints of a running engine are always made, and describe it. *)
Lemma replay_checkpoint_total {T : ReplayJsonTotal} `{!Sha256Laws} e :
  eg_state e = ReRunning ->
  exists ck prefix a, replay_checkpoint e = Done (Ok ck, with_replay_audit a e)
    /\ checkpoint_verify ck = Ok tt /\ is_lower_hex_sha256 (ck_checkpoint_sha256 ck) = true
    /\ replay_hash (eg_observations e) = Ok prefix /\ ck_observation_prefix_sha256 ck = prefix
    /\ ck_engine_id ck = eg_engine_id e /\ ck_bundle_sha256 ck = rb_bundle_sha256 (eg_bundle e)
    /\ ck_fault_plan_sha256 ck = pl_plan_sha256 (eg_fault_plan e)
    /\ ck_next_sequence ck = eg_next_sequence e /\ ck_virtual_tick ck = vc_current_tick (eg_clock e)
    /\ ck_seed_counter ck = sd_counter (eg_seed e) /\ (chain_ok (eg_audit e) -> chain_ok a).
Proof.
  intros Hst. unfold replay_checkpoint, make_checkpoint. rewrite bool_decide_eq_true_2 by done. cbn [negb].
  destruct (replay_hash_total (JV := rj_observations) (eg_observations e)) as [prefix Hp]. rewrite Hp.
  destruct (replay_hash_total (JV := rj_checkpoint_id) (eg_engine_id e, rb_bundle_sha256 (eg_bundle e),
    eg_next_sequence e, prefix, tail_hash (eg_audit e))) as [id Hid]. rewrite Hid.
  rewrite (str_prefix_sha256 24 id (replay_hash_hex _ _ Hid)) by lia. cbn.
  match goal with |- context [replay_hash ?t] =>
    destruct (replay_hash_total (JV := rj_checkpoint) t) as [sha Hsha]; rewrite Hsha end. cbn.
  match goal with |- context [replay_engine_append ?ev ?x ?e0] =>
    destruct (engine_append_total ev x e0) as (a & -> & Ha) end.
  do 3 eexists. split_and!; try reflexivity; auto; cbn; [|exact (replay_hash_hex _ _ Hsha)].
  unfold checkpoint_verify. unfold checkpoint_tuple in *. cbn in *. rewrite Hsha. cbn.
  by rewrite bool_decide_eq_true_2.
Qed.

(** An engine resumed from its checkpoint is the same engine, on a new audit. *)
Lemma replay_resume_same {T : ReplayJsonTotal} `{!Sha256Laws} e ck e1 :
  replay_ok e -> replay_checkpoint e = Done (Ok ck, e1) ->
  exists e', replay_resume (eg_engine_id e) (eg_bundle e) (eg_fault_plan e) ck (eg_observations e) = Ok e'
    /\ e' = with_replay_audit (eg_audit e') e /\ chain_ok (eg_audit e') /\ genesis_hash (eg_audit e') = ck_checkpoint_sha256 ck.
Proof.
  intros Hok Hck.
  assert (eg_state e = ReRunning) as Hst.
  { unfold replay_checkpoint in Hck. destruct (bool_decide _) eqn:E; [by bools|]. by cbn in Hck. }
  destruct (replay_checkpoint_total e Hst) as (ck' & prefix & a & Hck' & Hv & Hhex & Hp & H1 & H2 & H3 & H4
    & H5 & H6 & H7 & _). rewrite Hck in Hck'. simplify_eq. pose proof Hok as [].
  unfold replay_resume, checkpoint_mismatch. rewrite Hv, eo_id0, eo_bundle0, eo_plan0.
  rewrite !bool_decide_eq_true_2 by done. rewrite Hp. cbn -[u64_max].
  rewrite (proj2 (N.eqb_eq _ _)) by (rewrite H5; done). rewrite (proj2 (N.ltb_ge _ _)) by (rewrite H6; lia).
  rewrite bool_decide_eq_true_2 by done.
  cbn. unfold clock_new. rewrite (proj2 (N.ltb_ge _ _)) by lia. rewrite N.ltb_irrefl. cbn.
  unfold seed_new, replay_validate_sha256. rewrite eo_seed_hex0. cbn.
  unfold replay_audit_new, chain_new_anchored. rewrite Hhex. cbn.
  match goal with |- context [replay_audit_append ?ev ?c] =>
    destruct (replay_append_total ev c) as (rec & a' & Ha); rewrite Ha end.
  eexists. split; [reflexivity|]. cbn.
  assert (genesis_hash a' = ck_checkpoint_sha256 ck') as Hg.
  { unfold replay_audit_append in Ha. destruct (chain_append _ _) as [r0 c0] eqn:Hc. apply chain_append_spec in Hc.
    destruct r0; simplify_eq. by destruct Hc as (_ & _ & _ & _ & _ & _ & ->). }
  split_and!; [|apply replay_append_spec in Ha as [Ha _]; apply Ha, chain_new_ok|done].
  destruct e as [? ? ? [] [] ? ? ? ?]. unfold with_replay_audit. cbn in *. by subst.
Qed.

(** ** Reachable engines *)

(** The engines of one replay: created, moved by an operation, or resumed from a
    checkpoint of another such engine with its observations. *)
Inductive replays (id : str) (bundle : ReplayBundle) (plan : FaultPlan) : ReplayEngine -> Prop :=
  | rp_new genesis e : replay_new id bundle plan genesis = Ok e -> replays id bundle plan e
  | rp_start e : replays id bundle plan e -> replays id bundle plan (replay_start e).2
  | rp_step sequence out meta elapsed e :
      replays id bundle plan e -> replays id bundle plan (replay_step sequence out meta elapsed e).2
  | rp_finish e : replays id bundle plan e -> replays id bundle plan (replay_finish e).2
  | rp_cancel e : replays id bundle plan e -> replays id bundle plan (replay_cancel e).2
  | rp_stop e : replays id bundle plan e -> replays id bundle plan (replay_emergency_stop e).2
  | rp_checkpoint e r e' :
      replays id bundle plan e -> replay_checkpoint e = Done (r, e') -> replays id bundle plan e'
  | rp_resume e ck e1 e' :
      replays id bundle plan e -> replay_checkpoint e = Done (Ok ck, e1) ->
      replay_resume id bundle plan ck (eg_observations e) = Ok e' -> replays id bundle plan e'.

(** What an engine was created with. *)
Definition config (e : ReplayEngine) : str * ReplayBundle * FaultPlan :=
  (eg_engine_id e, eg_bundle e, eg_fault_plan e).

Lemma engine_append_config {A} event (x : A) e : config (replay_engine_append event x e).2 = config e.
Proof. unfold replay_engine_append. destruct (replay_audit_append _ _) as [[] a]; done. Qed.
Lemma replay_step_config sequence out meta elapsed e : config (replay_step sequence out meta elapsed e).2 = config e.
Proof.
  unfold replay_step. destruct (step_checks _ _ _ _ _) as [[input extra]|]; [|done].
  destruct (draw_jitter _ e) as [jitter e1] eqn:Ej. apply draw_jitter_frame in Ej as [-> _].
  destruct (_ ≫= _); [|done]. destruct (clock_advance _ _) as [[] clock]; [|done].
  destruct (observe _ _ _ _ _ _); [|done]. by rewrite engine_append_config.
Qed.
Lemma terminal_transition_config target outcome e : config (terminal_transition target outcome e).2 = config e.
Proof. unfold terminal_transition. destruct (negb _); [done|]. by rewrite engine_append_config. Qed.

Lemma replays_ok {T : ReplayJsonTotal} `{!Sha256Laws} id bundle plan e :
  len (rb_inputs bundle) < u64_max -> replays id bundle plan e ->
  replay_ok e /\ config e = (id, bundle, plan).
Proof.
  intros Hlen. induction 1 as [genesis e He|e _ [Hok IH]|sequence out meta elapsed e _ [Hok IH]|e _ [Hok IH]
    |e _ [Hok IH]|e _ [Hok IH]|e r e' _ [Hok IH] Hc|e ck e1 e' _ [Hok IH] Hc Hr].
  - apply replay_new_ok in He as (? & <- & <- & <- & _); [|done]. done.
  - split; [by apply replay_start_ok|]. rewrite <- IH. unfold replay_start.
    destruct (negb _); [done|]. by rewrite engine_append_config.
  - split; [by apply replay_step_ok|]. by rewrite replay_step_config.
  - split; [by apply replay_finish_ok|]. rewrite <- IH.
    destruct (replay_finish_cases e) as [(-> & _)|(_ & _ & t & r & sha & a & _ & -> & _)]; done.
  - split; [by apply terminal_transition_ok|]. unfold replay_cancel. by rewrite terminal_transition_config.
  - split; [by apply replay_stop_ok|]. unfold replay_emergency_stop.
    destruct (replay_is_terminal _); [done|]. by rewrite terminal_transition_config.
  - destruct (decide (eg_state e = ReRunning)) as [Hst|Hst].
    + destruct (replay_checkpoint_total e Hst) as (ck & p & a & Hc' & _ & _ & _ & _ & _ & _ & _ & _ & _ & _ & Ha).
      rewrite Hc in Hc'. simplify_eq. split; [|done]. apply replay_ok_audit; auto using eo_audit.
    + unfold replay_checkpoint in Hc. rewrite bool_decide_eq_false_2 in Hc by done. cbn in Hc. by injection Hc as _ <-.
  - unfold config in IH. simplify_eq. destruct (replay_resume_same e ck e1 Hok Hc) as (e2 & Hr' & He & Ha & _).
    rewrite Hr in Hr'. simplify_eq. rewrite He. split; [by apply replay_ok_audit|done].
Qed.

(** ** Properties *)

(** No operation moves an engine in a terminal state. *)
Definition at_rest (e : ReplayEngine) : Prop :=
  (replay_start e).2 = e /\ (replay_finish e).2 = e /\ (replay_cancel e).2 = e
  /\ (replay_emergency_stop e).2 = e
  /\ (forall sequence out meta elapsed, (replay_step sequence out meta elapsed e).2 = e)
  /\ replay_checkpoint e = Done (Err RyInvalidTransition, e).

Lemma terminal_at_rest e : replay_is_terminal (eg_state e) = true -> at_rest e.
Proof.
  intros Ht. assert (eg_state e <> ReRunning /\ eg_state e <> ReCreated) as [H1 H2]
    by (split; intros H; by rewrite H in Ht).
  unfold at_rest, replay_start, replay_finish, replay_cancel, replay_emergency_stop, terminal_transition,
    replay_step, step_checks, replay_checkpoint. rewrite Ht.
  rewrite !bool_decide_eq_false_2 by done. done.
Qed.

(** C21: along every history of a replay, checkpoints and resumptions included, the
    observation at a position is that of the input there, with the outcome and the
    faults that the plan gives it and with its own hash; ticks start at the bundle's,
    never go back and never pass the maximum; the audit verifies; the replay is
    finished exactly when it runs and every input was observed, and the receipt then
    verifies; and a terminal engine never moves again. *)
Theorem replay_follows_its_bundle {T : ReplayJsonTotal} {L : Sha256Laws} id bundle plan e :
  len (rb_inputs bundle) < u64_max -> replays id bundle plan e ->
  config e = (id, bundle, plan)
  /\ len (eg_observations e) <= len (rb_inputs bundle)
  /\ (forall i o, eg_observations e !! i = Some o -> observation_sound e i o)
  /\ StronglySorted N.le (map ob_virtual_tick (eg_observations e))
  /\ rb_initial_tick bundle <= vc_current_tick (eg_clock e) <= MAX_VIRTUAL_TICK
  /\ replay_audit_verify (eg_audit e) = Ok tt
  /\ ((exists trace receipt, (replay_finish e).1 = Ok (trace, receipt))
      <-> eg_state e = ReRunning /\ len (eg_observations e) = len (rb_inputs bundle))
  /\ (forall trace receipt, (replay_finish e).1 = Ok (trace, receipt) ->
        rtr_observations trace = eg_observations e /\ trace_verify trace = Ok tt
        /\ receipt_verify receipt = Ok tt)
  /\ (replay_is_terminal (eg_state e) = true -> at_rest e).
Proof.
  intros Hlen He. apply replays_ok in He as [Hok Hc]; [|done]. pose proof Hok as [].
  assert (eg_bundle e = bundle) as Hb by (unfold config in Hc; congruence). rewrite Hb in *.
  split_and!; auto using terminal_at_rest; try lia.
  - unfold replay_audit_verify. by rewrite (proj2 (chain_verify_spec _) eo_audit0).
  - destruct (replay_finish_cases e) as [(-> & Hn)|(H1 & H2 & t & r & sha & a & _ & -> & _)]; cbn.
    + rewrite Hb, eo_sequence0 in Hn. split; [by intros (? & ? & ?)|]. intros [? ?]. destruct Hn; [done|lia].
    + rewrite Hb, eo_sequence0 in H2. split; [intros _; split; [done|lia]|eauto].
  - intros trace receipt H. apply replay_finish_verified in H as (Ht & Hv & Hr). done.
Qed.

(** What two finished replays must agree on. *)
Definition same_finish (e1 e2 : ReplayEngine) : Prop :=
  match (replay_finish e1).1, (replay_finish e2).1 with
  | Ok (t1, r1), Ok (t2, r2) => t1 = t2 /\ same_receipt r1 r2
  | Err x, Err y => x = y
  | _, _ => False
  end.

Lemma same_engine_finish {T : ReplayJsonTotal} e1 e2 : same_engine e1 e2 -> same_finish e1 e2.
Proof.
  intros H. pose proof (replay_finish_same e1 e2 H) as Hf. unfold same_finish.
  by destruct (replay_finish e1) as [[[]|] ?], (replay_finish e2) as [[[]|] ?].
Qed.

(** C20: a running replay, whatever its history, can be checkpointed; the checkpoint
    with the observations made so far resumes under the same identity, on an audit
    anchored in the checkpoint; and from there on the resumed engine and the original
    answer every sequence of steps alike and finish alike, with the same trace and
    with receipts that agree in everything but the audit. *)
Theorem resumed_replay_continues_exactly {T : ReplayJsonTotal} {L : Sha256Laws} id bundle plan e :
  len (rb_inputs bundle) < u64_max -> replays id bundle plan e -> eg_state e = ReRunning ->
  exists ck e1 e',
    replay_checkpoint e = Done (Ok ck, e1)
    /\ replay_resume id bundle plan ck (eg_observations e) = Ok e'
    /\ config e' = (id, bundle, plan)
    /\ genesis_hash (eg_audit e') = ck_checkpoint_sha256 ck
    /\ forall steps, (engine_steps steps e').1 = (engine_steps steps e1).1
         /\ eg_observations (engine_steps steps e').2 = eg_observations (engine_steps steps e1).2
         /\ same_finish (engine_steps steps e').2 (engine_steps steps e1).2.
Proof.
  intros Hlen He Hst. apply replays_ok in He as [Hok Hc]; [|done].
  destruct (replay_checkpoint_total e Hst) as (ck & p & a & Hck & _).
  destruct (replay_resume_same e ck _ Hok Hck) as (e' & Hr & He' & _ & Hg).
  exists ck, (with_replay_audit a e), e'. rewrite <- Hc. unfold config in Hc. simplify_eq.
  split_and!; auto; [by rewrite He'|].
  assert (same_engine e' (with_replay_audit a e)) as Hs.
  { exists (eg_engine_id e), a. rewrite He'. done. }
  intros steps. destruct (engine_steps_same steps _ _ Hs) as [H1 H2].
  split_and!; [done| |by apply same_engine_finish]. by destruct H2 as (? & ? & ->).
Qed.

End Facts.

(** ** A small replay *)

Definition toy_replay_json : ReplayJson :=
  {| rj_audit := toy_json (fun e => rye_action e ++ rye_outcome e);
     rj_bundle := {| to_vec t := Ok (t.1.1.1.1.1.1.1 ++ decimal t.2) |};
     rj_plan := {| to_vec t := Ok (t.1.1 ++ t.1.2 ++ concat (map fl_rule_id t.2)) |};
     rj_fault_output := {| to_vec t := Ok (t.1.1.1 ++ step_outcome_name t.1.1.2) |};
     rj_observation := {| to_vec t := Ok (t.1.1.1.1.1.1.2 ++ t.1.1.1.1.2 ++ decimal t.1.1.2) |};
     rj_observations := {| to_vec t := Ok (concat (map ob_observation_sha256 t)) |};
     rj_trace := {| to_vec t := Ok (t.1.1 ++ concat (map ob_observation_sha256 t.2)) |};
     rj_checkpoint_id := {| to_vec t := Ok (t.1.1.1.1 ++ t.2) |};
     rj_checkpoint := {| to_vec t := Ok (t.1.1.1.1.1.1.1.1 ++ t.2) |};
     rj_result := {| to_vec t := Ok (t.1.1 ++ decimal t.2) |};
     rj_receipt := {| to_vec t := Ok (t.1.1.1.1.1.1.1.1.1 ++ t.2) |};
     rj_comparison_seed := {| to_vec t := Ok (t.1.1.1 ++ t.1.1.2) |};
     rj_comparison := {| to_vec t := Ok (t.1.1.1.1 ++ t.1.1.1.2) |};
     rj_reproducibility_seed := {| to_vec t := Ok t.1.1.1.1.1.1.1.1 |};
     rj_reproducibility := {| to_vec t := Ok (t.1.1.1.1.1.1.1.1.1.1 ++ t.2) |} |}.

Lemma toy_replay_total : @ReplayJsonTotal toy_replay_json.
Proof. constructor; constructor; intros; by eexists. Qed.

Definition result_or {A E} (default : A) (r : Result A E) : A := match r with Ok x => x | Err _ => default end.
Definition some_hash (c : byte) : str := replicate 64 c.
Definition demo_input (c : byte) : ReplayInputRef :=
  {| ri_input_id := [c]; ri_fixture_uri := ("fixture://" : str) ++ [c]; ri_content_sha256 := some_hash c; ri_bytes := 1 |}.
Definition demo_bundle : ReplayBundle :=
  let draft sha256 :=
    {| rb_bundle_id := "bundle"; rb_policy_snapshot_sha256 := some_hash "1";
       rb_adapter_conformance_sha256 := some_hash "2"; rb_fixture_profile_sha256 := some_hash "3";
       rb_inputs := [demo_input "a"; demo_input "b"]; rb_expected_observation_sha256 := ∅;
       rb_seed_sha256 := some_hash "4"; rb_initial_tick := 5; rb_bundle_sha256 := sha256 |} in
  draft (result_or [] (@replay_hash toy_sha256 _ (@rj_bundle toy_replay_json) (bundle_tuple (draft [])))).
Definition demo_rule : FaultRule :=
  {| fl_rule_id := "late"; fl_at_sequence := 2; fl_kind := FkBackpressure; fl_magnitude := 10 |}.
Definition demo_plan : FaultPlan :=
  result_or {| pl_plan_id := []; pl_bundle_sha256 := []; pl_rules := []; pl_plan_sha256 := [] |}
    (@fault_plan_new toy_sha256 toy_replay_json "plan" (rb_bundle_sha256 demo_bundle) [demo_rule]).
Definition demo_engine (id : str) : Result ReplayEngine ReplayError :=
  @replay_new toy_sha256 toy_replay_json id demo_bundle demo_plan (some_hash "0").
Definition demo_steps : list StepArgs :=
  [(1, some_hash "c", some_hash "d", 3); (2, some_hash "e", some_hash "f", 4)].
Definition no_engine : ReplayEngine :=
  {| eg_engine_id := []; eg_bundle := demo_bundle; eg_fault_plan := demo_plan;
     eg_clock := {| vc_initial_tick := 0; vc_current_tick := 0; vc_maximum_tick := 0 |};
     eg_seed := {| sd_seed_sha256 := []; sd_counter := 0 |}; eg_state := ReFailed; eg_next_sequence := 0;
     eg_observations := []; eg_audit := chain_new [] |}.
Definition demo_created (id : str) : ReplayEngine := result_or no_engine (demo_engine id).
(** Started and moved by the first step. *)
Definition demo_running (id : str) : ReplayEngine :=
  (@replay_step toy_sha256 toy_replay_json 1 (some_hash "c") (some_hash "d") 3
     (@replay_start toy_sha256 toy_replay_json (demo_created id)).2).2.

Lemma demo_replays : @replays toy_sha256 toy_replay_json "one" demo_bundle demo_plan (demo_running "one").
Proof.
  apply (@rp_step toy_sha256 toy_replay_json), (@rp_start toy_sha256 toy_replay_json).
  apply (@rp_new toy_sha256 toy_replay_json) with (genesis := some_hash "0"). vm_compute. reflexivity.
Qed.

Lemma replay_follows_its_bundle_witness :
  len (eg_observations (demo_running "one")) = 1
  /\ map ob_virtual_tick (eg_observations (demo_running "one")) = [8]
  /\ @replay_audit_verify toy_sha256 toy_replay_json (eg_audit (demo_running "one")) = Ok tt
  /\ ~ (exists trace receipt,
         (@replay_finish toy_sha256 toy_replay_json (demo_running "one")).1 = Ok (trace, receipt)).
Proof.
  destruct (@replay_follows_its_bundle toy_sha256 toy_replay_json toy_replay_total toy_sha256_laws "one" demo_bundle
    demo_plan (demo_running "one")) as (_ & _ & _ & _ & _ & Hv & Hf & _); [done|exact demo_replays|].
  split_and!; [vm_compute; reflexivity|vm_compute; reflexivity|exact Hv|].
  rewrite Hf. intros [_ H]. vm_compute in H. discriminate H.
Defined.

(** Both engines answer the remaining step, and finish. *)
Lemma resumed_replay_continues_exactly_witness :
  exists ck e1 e',
    @replay_checkpoint toy_sha256 toy_replay_json (demo_running "one") = Done (Ok ck, e1)
    /\ @replay_resume toy_sha256 toy_replay_json "one" demo_bundle demo_plan ck
         (eg_observations (demo_running "one")) = Ok e'
    /\ (@engine_steps toy_sha256 toy_replay_json (drop 1 demo_steps) e').1
       = (@engine_steps toy_sha256 toy_replay_json (drop 1 demo_steps) e1).1.
Proof.
  destruct (@resumed_replay_continues_exactly toy_sha256 toy_replay_json toy_replay_total toy_sha256_laws "one"
    demo_bundle demo_plan (demo_running "one")) as (ck & e1 & e' & H1 & H2 & _ & _ & H3);
    [done|exact demo_replays|vm_compute; reflexivity|].
  exists ck, e1, e'. exact (conj H1 (conj H2 (proj1 (H3 (drop 1 demo_steps))))).
Defined.

(** ** Unintended behaviours *)

(** A created engine is not terminal, yet an emergency stop is refused. *)
Lemma created_engine_cannot_be_stopped :
  replay_is_terminal (eg_state (demo_created "one")) = false
  /\ @replay_emergency_stop toy_sha256 toy_replay_json (demo_created "one")
     = (Err RyInvalidTransition, demo_created "one").
Proof. vm_compute. auto. Qed.

(** A step that the clock refuses has already drawn from the seed. *)
Definition late_engine : ReplayEngine :=
  with_replay_clock {| vc_initial_tick := 5; vc_current_tick := MAX_VIRTUAL_TICK;
                       vc_maximum_tick := MAX_VIRTUAL_TICK |} (demo_running "one").
Lemma refused_step_draws_from_seed :
  let r := @replay_step toy_sha256 toy_replay_json 2 (some_hash "e") (some_hash "f") 4 late_engine in
  r.1 = Err RyInvalidClock /\ sd_counter (eg_seed late_engine) = 0 /\ sd_counter (eg_seed r.2) = 1
  /\ eg_next_sequence r.2 = eg_next_sequence late_engine.
Proof. vm_compute. auto. Qed.
