(* ===== verification/ReplayAgreement.v ===== *)
(** * When replays agree

    Reproducible results have a quorum of agreeing receipts, independent replays of
    the same steps reach it, and the drift between two traces is classified. *)

From S2P Require Import Prelude ByteStr BTree HashChain HttpSyntax Planner Validation ValidationFacts Adapter Replay ReplayFacts.
Local Open Scope N_scope.

Section Agreement.
Context {S : Sha256Lib} {J : ReplayJson}.

(** ** Reproducibility *)

Lemma distinct_size (l : list str) : size (list_to_set l : gset str) = length l <-> NoDup l.
Proof.
  split; [|apply size_list_to_set].
  assert (forall l : list str, (size (list_to_set l : gset str) <= length l)%nat) as Hle.
  { clear. induction l as [|x l IH]; [done|]. cbn. rewrite size_union_alt, size_singleton.
    assert (size (list_to_set l ∖ {[x]} : gset str) <= size (list_to_set l : gset str))%nat; [|lia].
    apply subseteq_size. set_solver. }
  induction l as [|x l IH]; [constructor|]. cbn. intros Hs.
  destruct (decide (x ∈ l)) as [Hx|Hx].
  - assert ({[x]} ∪ list_to_set l =@{gset str} list_to_set l) as Hu by set_solver.
    rewrite Hu in Hs. pose proof (Hle l). lia.
  - rewrite size_union, size_singleton in Hs by set_solver. constructor; [done|]. apply IH. lia.
Qed.

Lemma receipts_verify_spec receipts :
  receipts_verify receipts = Ok tt <-> Forall (fun r => receipt_verify r = Ok tt) receipts.
Proof.
  induction receipts as [|r receipts IH]; cbn; [by split|]. rewrite Forall_cons, <- IH.
  destruct (receipt_verify r) as [[]|]; cbn; naive_solver.
Qed.

Lemma receipt_verify_state r : receipt_verify r = Ok tt -> rrc_state r = ReCompleted.
Proof. unfold receipt_verify. intros H. repeat step_in H. by bools. Qed.

Lemma disagrees_spec r1 r2 :
  rrc_state r1 = rrc_state r2 -> disagrees r1 r2 = false <-> same_receipt r1 r2.
Proof.
  intros Hst. unfold disagrees, same_receipt. split.
  - intros H. bools. split_and!; congruence.
  - intros (-> & -> & -> & -> & -> & -> & -> & _). rewrite !bool_decide_eq_true_2 by done.
    by rewrite !N.eqb_refl.
Qed.

(** The condition under which receipts are accepted. *)
Record receipts_agree (receipts : list ReplayReceipt) (first : ReplayReceipt)
    (au : ReproducibilityAuthority) : Prop := {
  ra_count : rau_required_quorum au <= len receipts <= MAX_REPRODUCIBILITY_RECEIPTS;
  ra_first : head receipts = Some first;
  ra_verified : Forall (fun r => receipt_verify r = Ok tt) receipts;
  ra_engines : NoDup (map rrc_engine_id receipts);
  ra_receipts : NoDup (map rrc_receipt_sha256 receipts);
  ra_policy : rrc_policy_snapshot_sha256 first = rau_policy_snapshot_sha256 au;
  ra_same : Forall (same_receipt first) receipts
}.

Lemma string_set_distinct f receipts :
  (N.of_nat (size (string_set f receipts)) =? len receipts) = true <-> NoDup (map f receipts).
Proof.
  rewrite N.eqb_eq, <- distinct_size, length_map. unfold string_set, len. lia.
Qed.

Lemma agreed_receipt_spec receipts first au :
  agreed_receipt receipts au = Ok first <-> receipts_agree receipts first au.
Proof.
  unfold agreed_receipt. split.
  - intros H. destruct (_ || _) eqn:Ec in H; [done|]. bools.
    destruct (receipts_verify receipts) as [[]|] eqn:Ev; [|done]. apply receipts_verify_spec in Ev.
    destruct receipts as [|r receipts]; [done|]. destruct (_ || _) eqn:Ed in H; [done|]. simplify_eq.
    apply orb_false_iff in Ed as [Ed E4]. apply orb_false_iff in Ed as [Ed E3].
    apply orb_false_iff in Ed as [E1 E2]. apply negb_false_iff in E1, E2, E3.
    apply string_set_distinct in E1, E2. bools. constructor; auto; try lia.
    apply Forall_forall. intros r Hr. rewrite Forall_forall in Ev.
    apply disagrees_spec. { rewrite !receipt_verify_state; auto. apply Ev. left. }
    destruct (disagrees first r) eqn:Hd; [|done]. exfalso.
    assert (existsb (disagrees first) (first :: receipts) = true) as Hx; [|congruence].
    apply existsb_exists. exists r. split; [by apply list_elem_of_In|done].
  - intros [Hc Hf Hv He Hs Hp Ha]. rewrite (proj2 (N.ltb_ge _ _)), (proj2 (N.ltb_ge _ _)) by lia. cbn [orb].
    rewrite (proj2 (receipts_verify_spec _) Hv). destruct receipts as [|r receipts]; [done|]. cbn in Hf. simplify_eq.
    rewrite (proj2 (string_set_distinct _ _) He), (proj2 (string_set_distinct _ _) Hs).
    rewrite bool_decide_eq_true_2 by done. cbn [negb orb].
    destruct (existsb _ _) eqn:Ex; [|done]. apply existsb_exists in Ex as (r & Hr%list_elem_of_In & Hd).
    rewrite Forall_forall in Ha, Hv.
    assert (rrc_state first = rrc_state r) as Hst by (rewrite !receipt_verify_state; auto; apply Hv; left).
    by rewrite (proj2 (disagrees_spec first r Hst) (Ha r Hr)) in Hd.
Qed.

(** What [reproducibility_authority_new] establishes and [certify] keeps. *)
Record quorum_ok (au : ReproducibilityAuthority) : Prop := {
  ao_quorum : 2 <= rau_required_quorum au <= MAX_REPRODUCIBILITY_RECEIPTS;
  ao_policy : is_lower_hex_sha256 (rau_policy_snapshot_sha256 au) = true;
  ao_audit : chain_ok (rau_audit au);
  ao_genesis : is_lower_hex_sha256 (genesis_hash (rau_audit au)) = true
}.

Lemma quorum_new_ok id policy quorum genesis au :
  reproducibility_authority_new id policy quorum genesis = Ok au -> quorum_ok au.
Proof.
  unfold reproducibility_authority_new, replay_audit_new, chain_new_anchored, replay_validate_sha256.
  intros H. repeat step_in H. bools. simplify_eq. cbn in *.
  simplify_eq. constructor; cbn; auto using chain_new_ok.
Qed.

(** What a certificate says of the receipts it was given for. *)
Definition certifies (c : ReproducibilityCertificate) (receipts : list ReplayReceipt)
    (first : ReplayReceipt) (au : ReproducibilityAuthority) : Prop :=
  reproducibility_verify c = Ok tt
  /\ rpc_authority_id c = rau_authority_id au /\ rpc_policy_snapshot_sha256 c = rau_policy_snapshot_sha256 au
  /\ rpc_quorum c = rau_required_quorum au
  /\ rpc_bundle_sha256 c = rrc_bundle_sha256 first /\ rpc_fault_plan_sha256 c = rrc_fault_plan_sha256 first
  /\ rpc_trace_sha256 c = rrc_trace_sha256 first /\ rpc_result_sha256 c = rrc_result_sha256 first
  /\ rpc_engine_ids c = string_set rrc_engine_id receipts
  /\ rpc_receipt_sha256 c = string_set rrc_receipt_sha256 receipts.

(** The hashes of the first receipt that the certificate repeats. *)
Definition receipt_hex (r : ReplayReceipt) : Prop :=
  is_lower_hex_sha256 (rrc_bundle_sha256 r) = true /\ is_lower_hex_sha256 (rrc_fault_plan_sha256 r) = true
  /\ is_lower_hex_sha256 (rrc_trace_sha256 r) = true /\ is_lower_hex_sha256 (rrc_result_sha256 r) = true.

Lemma certify_cases {T : ReplayJsonTotal} `{!Sha256Laws} receipts au :
  quorum_ok au ->
  (exists error, agreed_receipt receipts au = Err error
     /\ reproducibility_certify receipts au = Done (Err error, au))
  \/ (exists first r audit,
       agreed_receipt receipts au = Ok first
       /\ reproducibility_certify receipts au
          = Done (r, {| rau_authority_id := rau_authority_id au;
                        rau_policy_snapshot_sha256 := rau_policy_snapshot_sha256 au;
                        rau_required_quorum := rau_required_quorum au; rau_audit := audit |})
       /\ chain_ok audit /\ genesis_hash audit = genesis_hash (rau_audit au)
       /\ (forall c, r = Ok c -> certifies c receipts first au)
       /\ (receipt_hex first -> exists c, r = Ok c)).
Proof.
  intros [Hq Hp Ha Hg]. unfold reproducibility_certify.
  destruct (agreed_receipt receipts au) as [first|error] eqn:Ef; [right|left; eauto].
  match goal with |- context [replay_hash ?t] =>
    destruct (replay_hash_total (JV := rj_reproducibility_seed) t) as [seed Hs]; rewrite Hs end.
  rewrite (str_prefix_sha256 24 seed (replay_hash_hex _ _ Hs)) by lia. cbn -[reproducibility_verify].
  unfold replay_audit_append. match goal with |- context [chain_append ?ev ?c] =>
    destruct (chain_append_total ev c) as (rec & audit & Hc); rewrite Hc end. cbn -[reproducibility_verify].
  match goal with |- context [replay_hash ?t] =>
    destruct (replay_hash_total (JV := rj_reproducibility) t) as [sha Hsha]; rewrite Hsha end.
  assert (chain_ok audit) as Hok by (by eapply chain_append_ok).
  assert (genesis_hash audit = genesis_hash (rau_audit au)) as Hg2.
  { apply chain_append_spec in Hc. by destruct Hc as (_ & _ & _ & _ & _ & _ & ->). }
  exists first. do 2 eexists. split_and!; [done|reflexivity|done|done|..].
  - intros c Hcert. destruct (reproducibility_verify _) as [[]|] eqn:Ev in Hcert; [|done]. simplify_eq.
    by unfold certifies.
  - intros (H1 & H2 & H3 & H4).
    match goal with |- context [reproducibility_verify ?c] =>
      assert (reproducibility_verify c = Ok tt) as ->; [|eauto] end.
    apply agreed_receipt_spec in Ef as [Hcnt _ _ He Hr _ _].
    apply string_set_distinct, N.eqb_eq in He, Hr.
    unfold reproducibility_verify. cbn -[replay_hash]. unfold replay_validate_sha256.
    rewrite Hp, H1, H2, H3, H4, (chain_tail_hex audit), (replay_hash_hex _ _ Hsha) by (done || by rewrite Hg2).
    cbn -[replay_hash]. rewrite He, Hr, !(proj2 (N.ltb_ge _ _)) by lia. cbn -[replay_hash].
    unfold reproducibility_tuple in *. cbn -[replay_hash] in *. rewrite Hsha. by rewrite bool_decide_eq_true_2.
Qed.

(** The authorities one was created into, along every history of [certify]. *)
Inductive authorities : ReproducibilityAuthority -> Prop :=
  | as_new id policy quorum genesis au :
      reproducibility_authority_new id policy quorum genesis = Ok au -> authorities au
  | as_certify receipts au r au' :
      authorities au -> reproducibility_certify receipts au = Done (r, au') -> authorities au'.

Lemma authorities_ok {T : ReplayJsonTotal} `{!Sha256Laws} au : authorities au -> quorum_ok au.
Proof.
  induction 1 as [id policy quorum genesis au Hn|receipts au r au' _ Hok Hr]; [by eapply quorum_new_ok|].
  destruct (certify_cases receipts au Hok) as [(error & _ & Hc)|(first & r' & audit & _ & Hc & H1 & H2 & _)];
    rewrite Hc in Hr; simplify_eq; [done|]. destruct Hok. constructor; cbn; auto. by rewrite H2.
Qed.

(** C22: an authority, whatever it certified before, never panics; it gives a
    certificate only for at least two receipts, as many as its quorum and at most the
    maximum, from different engines, each verified and completed, all under its own
    policy and agreeing in bundle, plan, trace, result, number of observations and
    final tick; the certificate repeats these, names these engines and verifies; receipts
    that do not agree leave the authority as it is, and its audit always verifies. *)
Theorem reproducibility_needs_quorum {T : ReplayJsonTotal} {L : Sha256Laws} receipts au :
  authorities au ->
  exists r au', reproducibility_certify receipts au = Done (r, au')
    /\ replay_audit_verify (rau_audit au') = Ok tt
    /\ (forall c, r = Ok c ->
          exists first, receipts_agree receipts first au /\ certifies c receipts first au
            /\ 2 <= len receipts /\ rau_required_quorum au <= N.of_nat (size (rpc_engine_ids c)))
    /\ ((forall first, ~ receipts_agree receipts first au) -> au' = au /\ exists error, r = Err error).
Proof.
  intros Hau. pose proof (authorities_ok au Hau) as Hok.
  assert (forall r au', reproducibility_certify receipts au = Done (r, au') ->
    replay_audit_verify (rau_audit au') = Ok tt) as Hv.
  { intros r au' H. pose proof (authorities_ok au' (as_certify _ _ _ _ Hau H)) as [_ _ Ha _].
    unfold replay_audit_verify. by rewrite (proj2 (chain_verify_spec _) Ha). }
  destruct (certify_cases receipts au Hok) as [(error & _ & Hc)|(first & r & audit & Hf & Hc & _ & _ & H1 & _)].
  - exists (Err error), au. split_and!; eauto. done.
  - apply agreed_receipt_spec in Hf. do 2 eexists. split_and!; [exact Hc|by eapply Hv| |].
    + intros c Hr. exists first. pose proof (H1 c Hr) as Hcert. split_and!; [done|done|..].
      * pose proof (ra_count _ _ _ Hf). pose proof (ao_quorum _ Hok). lia.
      * destruct Hcert as (_ & _ & _ & _ & _ & _ & _ & _ & -> & _).
        rewrite (proj1 (N.eqb_eq _ _) (proj2 (string_set_distinct _ _) (ra_engines _ _ _ Hf))).
        pose proof (ra_count _ _ _ Hf). lia.
    + intros Hn. by destruct (Hn first).
Qed.

(** ** Independent replays *)

Lemma replay_new_same id1 id2 bundle plan genesis1 genesis2 e1 e2 :
  replay_new id1 bundle plan genesis1 = Ok e1 -> replay_new id2 bundle plan genesis2 = Ok e2 ->
  same_engine e1 e2.
Proof.
  unfold replay_new. intros H1 H2. repeat step_in H1. repeat step_in H2. simplify_eq. by eexists _, _.
Qed.

Lemma replay_start_same {T : ReplayJsonTotal} e1 e2 :
  same_engine e1 e2 -> same_engine (replay_start e1).2 (replay_start e2).2.
Proof.
  intros (id & a & ->). unfold replay_start. cbn [eg_state with_identity].
  destruct (negb _); [by exists id, a|]. apply engine_append_same. by exists id, a.
Qed.

(** A whole replay: start, the steps, finish. *)
Definition replay_run (steps : list StepArgs) (e : ReplayEngine)
    : Result (ReplayTrace * ReplayReceipt) ReplayError :=
  (replay_finish (engine_steps steps (replay_start e).2).2).1.

(** The receipt of a replay of [steps] by some engine. *)
Definition replayed (bundle : ReplayBundle) (plan : FaultPlan) (steps : list StepArgs) (r : ReplayReceipt) : Prop :=
  exists id genesis e trace,
    replay_new id bundle plan genesis = Ok e /\ replay_run steps e = Ok (trace, r).

Lemma replayed_same {T : ReplayJsonTotal} bundle plan steps r1 r2 :
  replayed bundle plan steps r1 -> replayed bundle plan steps r2 -> same_receipt r1 r2.
Proof.
  intros (id1 & g1 & e1 & t1 & Hn1 & Hr1) (id2 & g2 & e2 & t2 & Hn2 & Hr2).
  pose proof (replay_start_same _ _ (replay_new_same _ _ _ _ _ _ _ _ Hn1 Hn2)) as Hs.
  destruct (engine_steps_same steps _ _ Hs) as [_ Hs2]. apply same_engine_finish in Hs2.
  unfold same_finish, replay_run in *. rewrite Hr1, Hr2 in Hs2. tauto.
Qed.

Lemma engine_steps_config steps e : config (engine_steps steps e).2 = config e.
Proof.
  revert e. induction steps as [|[[[sequence out] meta] elapsed] steps IH]; intros e; [done|]. cbn.
  destruct (replay_step _ _ _ _ e) as [r e1] eqn:E. specialize (IH e1).
  destruct (engine_steps steps e1) as [rs e2]. cbn in *. rewrite IH.
  by rewrite <- (replay_step_config sequence out meta elapsed e), E.
Qed.

Lemma replay_finish_receipt {T : ReplayJsonTotal} `{!Sha256Laws} e trace r :
  bundle_verify (eg_bundle e) = Ok tt -> fault_plan_verify (eg_fault_plan e) = Ok tt ->
  (replay_finish e).1 = Ok (trace, r) ->
  receipt_hex r /\ rrc_policy_snapshot_sha256 r = rb_policy_snapshot_sha256 (eg_bundle e)
  /\ rrc_bundle_sha256 r = rb_bundle_sha256 (eg_bundle e)
  /\ rrc_fault_plan_sha256 r = pl_plan_sha256 (eg_fault_plan e) /\ rrc_trace_sha256 r = rtr_trace_sha256 trace.
Proof.
  intros Hb Hp Hf.
  destruct (replay_finish_cases e) as [(He & _)|(_ & _ & t & result & sha & a & Ht & He & _)];
    rewrite He in Hf; [done|]. cbn in Hf. simplify_eq. unfold receipt_hex. cbn.
  unfold make_trace in Ht. repeat step_in Ht. simplify_eq.
  unfold bundle_verify in Hb. repeat step_in Hb. unfold fault_plan_verify in Hp. repeat step_in Hp. bools. subst.
  split_and!; auto; match goal with H : replay_hash _ = Ok ?h |- is_lower_hex_sha256 ?h = true =>
    exact (replay_hash_hex _ _ H) end.
Qed.

Lemma replayed_receipt {T : ReplayJsonTotal} `{!Sha256Laws} bundle plan steps r :
  replayed bundle plan steps r ->
  receipt_verify r = Ok tt /\ receipt_hex r
  /\ rrc_policy_snapshot_sha256 r = rb_policy_snapshot_sha256 bundle
  /\ rrc_bundle_sha256 r = rb_bundle_sha256 bundle /\ rrc_fault_plan_sha256 r = pl_plan_sha256 plan.
Proof.
  intros (id & g & e & t & Hn & Hr). unfold replay_run in Hr.
  pose proof (engine_steps_config steps (replay_start e).2) as Hc.
  assert (config (replay_start e).2 = (id, bundle, plan)
          /\ bundle_verify bundle = Ok tt /\ fault_plan_verify plan = Ok tt) as (Hs & Hb & Hp).
  { unfold replay_new in Hn. repeat step_in Hn. simplify_eq.
    repeat match goal with u : () |- _ => destruct u end. split_and!; auto.
    unfold replay_start. cbn [eg_state negb bool_decide]. rewrite bool_decide_eq_true_2 by done. cbn [negb].
    by rewrite engine_append_config. }
  rewrite Hs in Hc. set (e' := (engine_steps steps (replay_start e).2).2) in *.
  pose proof (replay_finish_verified _ _ _ Hr) as (_ & _ & Hv). unfold config in Hc.
  injection Hc as Hc1 Hc2 Hc3. rewrite <- Hc2, <- Hc3 in *.
  apply replay_finish_receipt in Hr as (H1 & H2 & H3 & H4 & _); auto.
Qed.

(** C23: independent engines that replay the same steps over the same bundle and
    plan agree, so that their receipts, as many as the quorum asks and no more than
    the maximum, from engines with different names and with different hashes, are
    always certified by an authority of the bundle's policy. *)
Theorem reproducible_replays_are_certified {T : ReplayJsonTotal} {L : Sha256Laws} bundle plan steps receipts au :
  authorities au -> rb_policy_snapshot_sha256 bundle = rau_policy_snapshot_sha256 au ->
  Forall (replayed bundle plan steps) receipts ->
  rau_required_quorum au <= len receipts <= MAX_REPRODUCIBILITY_RECEIPTS ->
  NoDup (map rrc_engine_id receipts) -> NoDup (map rrc_receipt_sha256 receipts) ->
  exists c au', reproducibility_certify receipts au = Done (Ok c, au')
    /\ reproducibility_verify c = Ok tt
    /\ rpc_bundle_sha256 c = rb_bundle_sha256 bundle /\ rpc_fault_plan_sha256 c = pl_plan_sha256 plan
    /\ rpc_engine_ids c = list_to_set (map rrc_engine_id receipts)
    /\ (forall r, r ∈ receipts -> rpc_trace_sha256 c = rrc_trace_sha256 r /\ rpc_result_sha256 c = rrc_result_sha256 r).
Proof.
  intros Hau Hpol Hall Hq He Hr. apply authorities_ok in Hau as Hok. pose proof (ao_quorum _ Hok).
  rewrite Forall_forall in Hall. destruct receipts as [|first rest]; [unfold len in *; cbn in *; lia|].
  assert (first ∈ first :: rest) as Hin by left.
  destruct (replayed_receipt _ _ _ _ (Hall _ Hin)) as (_ & Hhex & Hp & Hb & Hpl).
  assert (receipts_agree (first :: rest) first au) as Hagree.
  { constructor; auto; [|congruence|].
    - apply Forall_forall. intros r Hx. by apply (replayed_receipt bundle plan steps), Hall.
    - apply Forall_forall. intros r Hx. eapply replayed_same; eauto. }
  destruct (certify_cases (first :: rest) au Hok) as [(error & Hf & _)|(first' & r & audit & Hf & Hc & _ & _ & H1 & H2)].
  { apply agreed_receipt_spec in Hagree. congruence. }
  apply agreed_receipt_spec in Hagree as Hf2. rewrite Hf in Hf2. simplify_eq.
  destruct (H2 Hhex) as [c ->]. destruct (H1 c eq_refl) as (Hv & _ & _ & _ & Hcb & Hcp & Hct & Hcr & Hce & _).
  do 2 eexists. split_and!; [exact Hc|done|congruence|congruence|done|].
  intros r Hx. pose proof (ra_same _ _ _ Hagree) as Hs. rewrite Forall_forall in Hs.
  destruct (Hs r Hx) as (_ & _ & _ & Ht & Hre & _). split; congruence.
Qed.

(** ** Drift *)

(** What an observation says apart from the time: its place, what went in, what came
    out, with which metadata and outcome, and under which faults. *)
Definition meaning (o : ReplayObservation) : N * str * str * str * ReplayStepOutcome * gset str :=
  (ob_sequence o, ob_input_sha256 o, ob_output_sha256 o, ob_metadata_sha256 o, ob_outcome o, ob_applied_fault_ids o).

(** The code's comparison is equality of the meaning. *)
Lemma differs_spec one other : differs one other = false <-> meaning one = meaning other.
Proof.
  unfold differs, meaning. rewrite !orb_false_iff, !negb_false_iff, N.eqb_eq, !bool_decide_eq_true. split.
  - by intros (((((-> & ->) & ->) & ->) & ->) & ->).
  - by intros [= -> -> -> -> -> ->].
Qed.

(** The sequence number position [i] contributes to the changes: the larger one, where
    the traces have observations of another meaning or time, or only one has any. *)
Definition pair_change (one other : ReplayObservation) : option N :=
  if decide (meaning one = meaning other /\ ob_virtual_tick one = ob_virtual_tick other) then None
  else Some (N.max (ob_sequence one) (ob_sequence other)).
Definition change_at (baseline candidate : list ReplayObservation) (i : nat) : option N :=
  match baseline !! i, candidate !! i with
  | Some one, Some other => pair_change one other
  | Some rest, None | None, Some rest => Some (ob_sequence rest)
  | None, None => None
  end.

(** The traces mean the same; one position was seen at another time. *)
Definition same_meaning (baseline candidate : list ReplayObservation) : Prop :=
  map meaning baseline = map meaning candidate.
Definition shifted (baseline candidate : list ReplayObservation) : Prop :=
  exists i one other, baseline !! i = Some one /\ candidate !! i = Some other
    /\ meaning one = meaning other /\ ob_virtual_tick one <> ob_virtual_tick other.

Lemma same_meaning_cons one other baseline candidate :
  same_meaning (one :: baseline) (other :: candidate)
  <-> meaning one = meaning other /\ same_meaning baseline candidate.
Proof. unfold same_meaning. cbn [map]. split; [by intros H%(inj2 cons)|by intros [-> ->]]. Qed.

Lemma change_at_cons one other baseline candidate n :
  (exists i, change_at (one :: baseline) (other :: candidate) i = Some n)
  <-> pair_change one other = Some n \/ exists i, change_at baseline candidate i = Some n.
Proof.
  split; [intros [[|i] Hi]; [by left|right; by exists i]|].
  intros [Hp|[i Hi]]; [by exists 0%nat|by exists (Datatypes.S i)].
Qed.

Lemma shifted_cons one other baseline candidate :
  shifted (one :: baseline) (other :: candidate)
  <-> (meaning one = meaning other /\ ob_virtual_tick one <> ob_virtual_tick other) \/ shifted baseline candidate.
Proof.
  split.
  - intros ([|i] & x & y & Hx & Hy & Hd & Ht); cbn in *; [left; by injection Hx as ->; injection Hy as ->|right; by exists i, x, y].
  - intros [[Hd Ht]|(i & x & y & H)]; [by exists 0%nat, one, other|by exists (Datatypes.S i), x, y].
Qed.

(** The rest of the longer trace. *)
Lemma change_at_rest (rest : list ReplayObservation) n :
  n ∈ map ob_sequence rest <-> exists i, ob_sequence <$> rest !! i = Some n.
Proof.
  rewrite list_elem_of_lookup. split; intros [i Hi]; exists i; by rewrite list_lookup_fmap in *.
Qed.

Lemma change_at_nil (rest : list ReplayObservation) i :
  change_at [] rest i = ob_sequence <$> rest !! i /\ change_at rest [] i = ob_sequence <$> rest !! i.
Proof. unfold change_at. rewrite lookup_nil. by destruct (rest !! i). Qed.

Lemma rest_changes (rest : list ReplayObservation) changed n :
  n ∈ (list_to_set (map ob_sequence rest) ∪ changed : gset N)
  <-> n ∈ changed \/ exists i, ob_sequence <$> rest !! i = Some n.
Proof. rewrite elem_of_union, elem_of_list_to_set, change_at_rest. tauto. Qed.

Lemma not_shifted_nil l : ~ shifted [] l /\ ~ shifted l [].
Proof. split; by intros (i & ? & ? & ? & ? & _). Qed.

(** What the loop computes. *)
Definition compared (baseline candidate : list ReplayObservation) (before after : bool * bool * gset N) : Prop :=
  (after.1.1 = true <-> before.1.1 = true \/ ~ same_meaning baseline candidate)
  /\ (after.1.2 = true <-> before.1.2 = true \/ shifted baseline candidate)
  /\ (forall n, n ∈ after.2 <-> n ∈ before.2 \/ exists i, change_at baseline candidate i = Some n).

Lemma compared_rest rest semantic timing changed :
  rest <> [] ->
  compared [] rest (semantic, timing, changed) (true, timing, list_to_set (map ob_sequence rest) ∪ changed)
  /\ compared rest [] (semantic, timing, changed) (true, timing, list_to_set (map ob_sequence rest) ∪ changed).
Proof.
  intros Hr. destruct (not_shifted_nil rest) as [H1 H2].
  assert (~ same_meaning [] rest /\ ~ same_meaning rest []) as [H3 H4]
    by (by destruct rest).
  unfold compared. cbn [fst snd].
  split; (split_and!; [tauto|tauto|intros n; rewrite rest_changes]);
    (split; (intros [|[i Hi]]; [by left|right; exists i])); by rewrite ?(proj1 (change_at_nil _ _)),
      ?(proj2 (change_at_nil _ _)) in *.
Qed.

Lemma compare_observations_spec baseline candidate semantic timing changed :
  compared baseline candidate (semantic, timing, changed)
    (compare_observations baseline candidate semantic timing changed).
Proof.
  revert candidate semantic timing changed.
  induction baseline as [|one baseline IH]; intros [|other candidate] semantic timing changed.
  - cbn. destruct (not_shifted_nil []) as [H1 _]. unfold compared. cbn. split_and!; [|tauto|].
    + split; [by left|]. intros [|Hn]; [done|]. destruct Hn. constructor.
    + intros n. split; [by left|]. by intros [|[i ?]].
  - by apply compared_rest.
  - by apply compared_rest.
  - cbn. unfold compared. rewrite same_meaning_cons, shifted_cons. setoid_rewrite change_at_cons.
    unfold pair_change. destruct (differs one other) eqn:Ed.
    + assert (meaning one <> meaning other) as Hm by (intros Hm%differs_spec; congruence). clear Ed.
      rewrite decide_False by tauto. destruct (IH candidate true timing ({[N.max (ob_sequence one) (ob_sequence other)]} ∪ changed)) as (H1 & H2 & H3).
      cbn [fst snd] in *. split_and!;
        [rewrite H1; split; [intros _; right; by intros [? _]|by left]
        |rewrite H2; split; [tauto|intros [?|[[? _]|?]]; [by left|done|by right]]|].
      intros n. rewrite H3, elem_of_union, elem_of_singleton. naive_solver.
    + apply differs_spec in Ed. destruct (ob_virtual_tick one =? ob_virtual_tick other) eqn:Et; cbn [negb]; bools;
        [rewrite decide_True by done|rewrite decide_False by tauto].
      * destruct (IH candidate semantic timing changed) as (H1 & H2 & H3). cbn [fst snd] in *.
        split_and!; [rewrite H1; unfold same_meaning; tauto|rewrite H2; tauto|]. intros n. rewrite H3. naive_solver.
      * destruct (IH candidate semantic true ({[ob_sequence one]} ∪ changed)) as (H1 & H2 & H3). cbn [fst snd] in *.
        assert (N.max (ob_sequence one) (ob_sequence other) = ob_sequence one) as Hmax
          by (injection Ed as -> _; lia). rewrite Hmax.
        split_and!; [rewrite H1; unfold same_meaning; tauto|rewrite H2; tauto|].
        intros n. rewrite H3, elem_of_union, elem_of_singleton. naive_solver.
Qed.

(** The classes, which exclude each other. *)
Definition drift_class (baseline candidate : ReplayTrace) (class : DriftClass) : Prop :=
  match class with
  | DrInput => rtr_bundle_sha256 baseline <> rtr_bundle_sha256 candidate
  | _ =>
      rtr_bundle_sha256 baseline = rtr_bundle_sha256 candidate
      /\ match class with
         | DrFaultPlan => rtr_fault_plan_sha256 baseline <> rtr_fault_plan_sha256 candidate
         | _ =>
             rtr_fault_plan_sha256 baseline = rtr_fault_plan_sha256 candidate
             /\ let same := same_meaning (rtr_observations baseline) (rtr_observations candidate) in
                let moved := shifted (rtr_observations baseline) (rtr_observations candidate) in
                match class with
                | DrSemantic => ~ same
                | DrTiming => same /\ moved
                | _ => same /\ ~ moved
                end
         end
  end.
Definition drift_positions (baseline candidate : ReplayTrace) (n : N) : Prop :=
  rtr_bundle_sha256 baseline = rtr_bundle_sha256 candidate
  /\ rtr_fault_plan_sha256 baseline = rtr_fault_plan_sha256 candidate
  /\ exists i, change_at (rtr_observations baseline) (rtr_observations candidate) i = Some n.

Lemma drift_spec baseline candidate class changed :
  drift baseline candidate = (class, changed) ->
  drift_class baseline candidate class /\ (forall n, n ∈ changed <-> drift_positions baseline candidate n).
Proof.
  unfold drift, drift_positions. destruct (bool_decide _) eqn:E1; cbn [negb]; bools.
  2: { intros [= <- <-]. split; [done|]. intros n. split; [set_solver|tauto]. }
  destruct (bool_decide _) eqn:E2; cbn [negb]; bools.
  2: { intros [= <- <-]. split; [done|]. intros n. split; [set_solver|tauto]. }
  pose proof (compare_observations_spec (rtr_observations baseline) (rtr_observations candidate) false false ∅)
    as (H1 & H2 & H3). destruct (compare_observations _ _ _ _ _) as [[s t] ch]. cbn [fst snd] in *.
  intros [= <- <-]. split; [|intros n; rewrite H3; set_solver].
  assert (same_meaning (rtr_observations baseline) (rtr_observations candidate)
          \/ ~ same_meaning (rtr_observations baseline) (rtr_observations candidate)) as Hdec.
  { unfold same_meaning. destruct (decide (map meaning (rtr_observations baseline) = map meaning (rtr_observations candidate)));
      auto. }
  destruct s, t; cbn; naive_solver.
Qed.

(** No two classes describe the same traces. *)
Lemma drift_class_unique baseline candidate c1 c2 :
  drift_class baseline candidate c1 -> drift_class baseline candidate c2 -> c1 = c2.
Proof. destruct c1, c2; cbn; tauto. Qed.

(** C24: two traces that verify are always compared; the comparison verifies, names
    both traces, and its class is decided by them: another bundle, else another fault
    plan, else a different list of meanings (sequence, input, output, metadata, outcome
    and faults of each observation), else only ticks that differ, else nothing; the
    changed sequences are exactly those of the positions whose meaning or tick differs
    or that only one trace has. A trace that does not verify is refused. *)
Theorem drift_is_classified {T : ReplayJsonTotal} {L : Sha256Laws} baseline candidate :
  exists r, compare_traces baseline candidate = Done r
    /\ ((exists c, r = Ok c) <-> trace_verify baseline = Ok tt /\ trace_verify candidate = Ok tt)
    /\ (forall c, r = Ok c ->
          comparison_verify c = Ok tt
          /\ cmp_baseline_trace_sha256 c = rtr_trace_sha256 baseline
          /\ cmp_candidate_trace_sha256 c = rtr_trace_sha256 candidate
          /\ (forall class, cmp_class c = class <-> drift_class baseline candidate class)
          /\ (forall n, n ∈ cmp_changed_sequences c <-> drift_positions baseline candidate n)).
Proof.
  unfold compare_traces. destruct (drift baseline candidate) as [class changed] eqn:Ed.
  apply drift_spec in Ed as [Hc Hn].
  destruct (trace_verify baseline) as [[]|error]; [|by eexists; split_and!; [reflexivity|naive_solver|]].
  destruct (trace_verify candidate) as [[]|error]; [|by eexists; split_and!; [reflexivity|naive_solver|]].
  match goal with |- context [replay_hash ?t] =>
    destruct (replay_hash_total (JV := rj_comparison_seed) t) as [seed Hs]; rewrite Hs end.
  rewrite (str_prefix_sha256 24 seed (replay_hash_hex _ _ Hs)) by lia. cbn -[comparison_verify].
  match goal with |- context [replay_hash ?t] =>
    destruct (replay_hash_total (JV := rj_comparison) t) as [sha Hsha]; rewrite Hsha end.
  unfold comparison_verify, comparison_tuple in *. cbn -[replay_hash] in *. rewrite Hsha.
  rewrite bool_decide_eq_true_2 by done. cbn [negb].
  eexists. split_and!; [reflexivity|naive_solver|]. intros c [= <-]. cbn -[replay_hash].
  rewrite Hsha, bool_decide_eq_true_2 by done. split_and!; auto.
  intros class'. split; [by intros <-|]. intros H. by eapply drift_class_unique.
Qed.
End Agreement.

(** ** Two engines over the small bundle *)

Definition no_receipt : ReplayReceipt := @draft_receipt [] [] [] no_engine.
Definition demo_finish (id : str) (steps : list StepArgs) : Result (ReplayTrace * ReplayReceipt) ReplayError :=
  @replay_run toy_sha256 toy_replay_json steps (demo_created id).
Definition demo_trace (steps : list StepArgs) : ReplayTrace :=
  result_or {| rtr_bundle_sha256 := []; rtr_fault_plan_sha256 := []; rtr_observations := []; rtr_trace_sha256 := [] |}
    (match demo_finish "one" steps with Ok (trace, _) => Ok trace | Err error => Err error end).
Definition demo_receipt (id : str) : ReplayReceipt :=
  result_or no_receipt (match demo_finish id demo_steps with Ok (_, receipt) => Ok receipt | Err error => Err error end).
Definition demo_quorum : ReproducibilityAuthority :=
  {| rau_authority_id := "lab"; rau_policy_snapshot_sha256 := some_hash "1"; rau_required_quorum := 2;
     rau_audit := chain_new (some_hash "0") |}.
Lemma demo_authorities : @authorities toy_sha256 toy_replay_json demo_quorum.
Proof. apply as_new with (id := "lab") (policy := some_hash "1") (quorum := 2) (genesis := some_hash "0"). vm_compute. reflexivity. Qed.

Lemma demo_replayed id : id ∈ [("one" : str); ("two" : str)] ->
  @replayed toy_sha256 toy_replay_json demo_bundle demo_plan demo_steps (demo_receipt id).
Proof.
  intros [->|[->|Hn]%elem_of_cons]%elem_of_cons; [..|by apply not_elem_of_nil in Hn].
  - exists "one", (some_hash "0"), (demo_created "one"), (demo_trace demo_steps). split; vm_compute; reflexivity.
  - exists "two", (some_hash "0"), (demo_created "two"), (demo_trace demo_steps). split; vm_compute; reflexivity.
Qed.

Lemma reproducible_replays_are_certified_witness :
  match @reproducibility_certify toy_sha256 toy_replay_json [demo_receipt "one"; demo_receipt "two"] demo_quorum with
  | Done (Ok c, _) => rpc_bundle_sha256 c = rb_bundle_sha256 demo_bundle
                      /\ rpc_engine_ids c = {[ ("one" : str); ("two" : str) ]}
  | _ => False
  end.
Proof.
  destruct (@reproducible_replays_are_certified toy_sha256 toy_replay_json toy_replay_total toy_sha256_laws
    demo_bundle demo_plan demo_steps [demo_receipt "one"; demo_receipt "two"] demo_quorum)
    as (c & au' & -> & _ & Hb & _ & He & _).
  - exact demo_authorities.
  - vm_compute. reflexivity.
  - repeat constructor; apply demo_replayed; set_solver.
  - vm_compute. split; discriminate.
  - apply (bool_decide_unpack _). vm_compute. exact I.
  - apply (bool_decide_unpack _). vm_compute. exact I.
  - split; [exact Hb|]. rewrite He. vm_compute. reflexivity.
Defined.

Lemma reproducibility_needs_quorum_witness :
  match @reproducibility_certify toy_sha256 toy_replay_json [demo_receipt "one"; demo_receipt "one"] demo_quorum with
  | Done (Err _, au') => au' = demo_quorum /\ @replay_audit_verify toy_sha256 toy_replay_json (rau_audit au') = Ok tt
  | _ => False
  end.
Proof.
  destruct (@reproducibility_needs_quorum toy_sha256 toy_replay_json toy_replay_total toy_sha256_laws
    [demo_receipt "one"; demo_receipt "one"] demo_quorum demo_authorities) as (r & au' & -> & Hv & _ & Hn).
  destruct Hn as [-> [error ->]]; [|exact (conj eq_refl Hv)].
  intros first [_ _ _ He _ _ _]. apply NoDup_cons in He as [He _]. apply He. left.
Defined.

(** The same steps, one of them slower. *)
Definition slow_steps : list StepArgs :=
  [(1, some_hash "c", some_hash "d", 3); (2, some_hash "e", some_hash "f", 9)].
Lemma drift_is_classified_witness :
  match @compare_traces toy_sha256 toy_replay_json (demo_trace demo_steps) (demo_trace slow_steps) with
  | Done (Ok c) => cmp_class c = DrTiming /\ 2 ∈ cmp_changed_sequences c
  | _ => False
  end.
Proof.
  destruct (@drift_is_classified toy_sha256 toy_replay_json toy_replay_total toy_sha256_laws
    (demo_trace demo_steps) (demo_trace slow_steps)) as (r & Hr & Hex & Hc).
  rewrite Hr. destruct (proj2 Hex) as [c ->]; [split; vm_compute; reflexivity|].
  destruct (Hc c eq_refl) as (_ & _ & _ & _ & H2). split; [|apply H2].
  - vm_compute in Hr. injection Hr as <-. reflexivity.
  - split; [vm_compute; reflexivity|]. split; [vm_compute; reflexivity|]. exists 1%nat. vm_compute. reflexivity.
Defined.

(** ** Unintended behaviours *)

(** Acceptance is audited before the certificate is verified: receipts that agree on
    something that is no hash are refused, and yet recorded as accepted. *)
Definition odd_receipt (id : str) : ReplayReceipt :=
  let draft sha256 :=
    {| rrc_engine_id := id; rrc_policy_snapshot_sha256 := some_hash "1"; rrc_bundle_sha256 := "odd";
       rrc_fault_plan_sha256 := []; rrc_trace_sha256 := []; rrc_result_sha256 := []; rrc_observation_count := 0;
       rrc_final_virtual_tick := 0; rrc_state := ReCompleted; rrc_replay_audit_tail_hash := some_hash "0";
       rrc_receipt_sha256 := sha256 |} in
  draft (result_or [] (@replay_hash toy_sha256 _ (@rj_receipt toy_replay_json) (receipt_tuple (draft [])))).
Lemma refused_certificate_is_audited :
  match @reproducibility_certify toy_sha256 toy_replay_json [odd_receipt "one"; odd_receipt "two"] demo_quorum with
  | Done (Err (RyInvalidSha256 _), au) =>
      map (fun record => rye_outcome (event record)) (records (rau_audit au)) = [("accepted" : str)]
  | _ => False
  end.
Proof. vm_compute. reflexivity. Qed.
