(* ===== verification/Coverage.v ===== *)
(** * Coverage and saturation ([crates/nxb-passive-analyzers], [coverage_saturation])

    The tracker of a passive run: which endpoints and rules are in scope, which pairs
    were executed or skipped, what that cost, when the findings dried up, and the
    receipt that says so. *)

From S2P Require Import Prelude ByteStr BTree HashChain.
Local Open Scope N_scope.

(** ** Model *)

Definition MAX_COVERAGE_ENDPOINTS : N := 10000000.
Definition MAX_COVERAGE_RULES : N := 100000.
Definition MAX_COVERAGE_PAIRS : N := 100000000.
Definition MAX_SATURATION_WINDOWS : N := 4096.
Definition MAX_WINDOW_CHECKS : N := 10000000.

Inductive RunStopReason : Type :=
  | RsCompleted | RsSaturated | RsMemoryBudget | RsEvidenceBudget | RsDiskBudget | RsRequestBudget
  | RsTimeBudget | RsCancelled | RsEmergencyStop.

Inductive CoverageError : Type :=
  | CvInvalidConfig (message : str)
  | CvInvalidInput (message : str)
  | CvEndpointBudget
  | CvRuleBudget
  | CvPairBudget
  | CvEndpointNotAdmitted
  | CvRuleNotEnabled
  | CvPairAlreadyRecorded
  | CvRunStopped
  | CvResourceBoundary (reason : RunStopReason)
  | CvIncompleteCoverage
  | CvSerialization (message : str)
  | CvReceiptDigest.

Inductive PairSkipReason : Type :=
  | NotApplicable | CapabilityDenied | MethodDenied | RateLimited | DependencyUnavailable
  | ResourceBudgetReached | PairCancelled | PairEmergencyStop.

#[export] Instance RunStopReason_eq_dec : EqDecision RunStopReason.
Proof. solve_decision. Defined.
#[export] Instance PairSkipReason_eq_dec : EqDecision PairSkipReason.
Proof. solve_decision. Defined.
#[export] Instance PairSkipReason_countable : Countable PairSkipReason.
Proof.
  refine (inj_countable'
    (fun r => match r with
              | NotApplicable => 0%N | CapabilityDenied => 1%N | MethodDenied => 2%N | RateLimited => 3%N
              | DependencyUnavailable => 4%N | ResourceBudgetReached => 5%N | PairCancelled => 6%N
              | PairEmergencyStop => 7%N
              end)
    (fun n => match n with
              | 0%N => NotApplicable | 1%N => CapabilityDenied | 2%N => MethodDenied | 3%N => RateLimited
              | 4%N => DependencyUnavailable | 5%N => ResourceBudgetReached | 6%N => PairCancelled
              | _ => PairEmergencyStop
              end) _).
  by intros [].
Defined.

Record CoverageLimits : Type := {
  cl_maximum_endpoints : N;
  cl_maximum_rules : N;
  cl_maximum_recorded_pairs : N;
  cl_maximum_windows : N
}.

Record ResourceUse : Type := {
  ru_accounted_memory_bytes : N;
  ru_evidence_bytes : N;
  ru_disk_bytes : N;
  ru_requests : N;
  ru_elapsed_milliseconds : N
}.

Record CoverageResourceBudget : Type := {
  rb_memory_budget_bytes : N;
  rb_evidence_budget_bytes : N;
  rb_disk_budget_bytes : N;
  rb_request_budget : N;
  rb_time_budget_milliseconds : N
}.

Record ExecutionMetrics : Type := {
  em_unique_findings : N;
  em_duplicate_findings : N;
  em_validated_findings : N;
  em_rejected_findings : N;
  em_inconclusive_findings : N;
  em_resource_delta : ResourceUse
}.

Inductive PairOutcome : Type :=
  | Executed (metrics : ExecutionMetrics)
  | Skipped (reason : PairSkipReason).

Record PairKey : Type := { pk_endpoint_sha256 : str; pk_rule_id : str }.

#[export] Instance PairKey_eq_dec : EqDecision PairKey.
Proof. solve_decision. Defined.
#[export] Instance PairKey_countable : Countable PairKey.
Proof.
  apply (inj_countable' (fun k => (pk_endpoint_sha256 k, pk_rule_id k))
           (fun '(e, r) => {| pk_endpoint_sha256 := e; pk_rule_id := r |})).
  by intros [].
Defined.
(** The derived order: by endpoint, then rule. *)
#[export] Instance PairKey_ord : Ord PairKey.
Proof. apply (ord_via (fun k => (pk_endpoint_sha256 k, pk_rule_id k))). intros [] []. cbn. congruence. Defined.

Record QueueTelemetry : Type := {
  qt_high_priority_unexplored_pairs : N;
  qt_validation_queue : N;
  qt_cleanup_queue : N
}.

Record SaturationPolicy : Type := {
  sp_checks_per_window : N;
  sp_minimum_completed_checks : N;
  sp_required_consecutive_low_yield_windows : N;
  sp_yield_threshold_numerator : N;
  sp_yield_threshold_denominator : N
}.

Record SaturationWindow : Type := {
  sw_completed_checks : N;
  sw_new_unique_findings : N;
  sw_below_yield_threshold : bool
}.

Record CoverageReceipt : Type := {
  cr_admitted_endpoints : N;
  cr_considered_endpoints : N;
  cr_analyzed_endpoints : N;
  cr_untested_endpoints : N;
  cr_enabled_rules : N;
  cr_theoretical_pairs : N;
  cr_recorded_pairs : N;
  cr_untested_pairs : N;
  cr_executed_pairs : N;
  cr_skipped_pairs : N;
  cr_skipped_by_reason : gmap PairSkipReason N;
  cr_unique_findings : N;
  cr_duplicate_findings : N;
  cr_validated_findings : N;
  cr_rejected_findings : N;
  cr_inconclusive_findings : N;
  cr_resource_use : ResourceUse;
  cr_queue_telemetry : QueueTelemetry;
  cr_saturation_windows : list SaturationWindow;
  cr_stop_reason : option RunStopReason;
  cr_endpoint_set_sha256 : str;
  cr_rule_set_sha256 : str;
  cr_pair_outcomes_sha256 : str;
  cr_receipt_sha256 : str
}.

(** The findings counted so far, the five counters of the tracker. *)
Record FindingCounts : Type := {
  fc_unique : N;
  fc_duplicate : N;
  fc_validated : N;
  fc_rejected : N;
  fc_inconclusive : N
}.

Record CoverageTracker : Type := {
  cv_limits : CoverageLimits;
  cv_budget : CoverageResourceBudget;
  cv_saturation_policy : SaturationPolicy;
  cv_admitted_endpoints : gset str;
  cv_considered_endpoints : gset str;
  cv_analyzed_endpoints : gset str;
  cv_enabled_rules : gset str;
  cv_pair_outcomes : gmap PairKey PairOutcome;
  cv_skipped_by_reason : gmap PairSkipReason N;
  cv_findings : FindingCounts;
  cv_resource_use : ResourceUse;
  cv_queue_telemetry : QueueTelemetry;
  cv_saturation_windows : list SaturationWindow;
  cv_current_window_checks : N;
  cv_current_window_unique_findings : N;
  cv_stop_reason : option RunStopReason
}.

(** ** Validation and resources *)

Definition coverage_limits_validate (self : CoverageLimits) : Result CoverageLimits CoverageError :=
  if (cl_maximum_endpoints self =? 0) || (MAX_COVERAGE_ENDPOINTS <? cl_maximum_endpoints self)
     || (cl_maximum_rules self =? 0) || (MAX_COVERAGE_RULES <? cl_maximum_rules self)
     || (cl_maximum_recorded_pairs self =? 0) || (MAX_COVERAGE_PAIRS <? cl_maximum_recorded_pairs self)
     || (cl_maximum_windows self =? 0) || (MAX_SATURATION_WINDOWS <? cl_maximum_windows self)
  then Err (CvInvalidConfig "one or more coverage limits are outside policy")
  else Ok self.

Definition resource_default : ResourceUse :=
  {| ru_accounted_memory_bytes := 0; ru_evidence_bytes := 0; ru_disk_bytes := 0; ru_requests := 0;
     ru_elapsed_milliseconds := 0 |}.

(** [checked_add], which saturates. *)
Definition resource_add (self delta : ResourceUse) : ResourceUse :=
  {| ru_accounted_memory_bytes :=
       saturating_add (ru_accounted_memory_bytes self) (ru_accounted_memory_bytes delta);
     ru_evidence_bytes := saturating_add (ru_evidence_bytes self) (ru_evidence_bytes delta);
     ru_disk_bytes := saturating_add (ru_disk_bytes self) (ru_disk_bytes delta);
     ru_requests := saturating_add (ru_requests self) (ru_requests delta);
     ru_elapsed_milliseconds :=
       saturating_add (ru_elapsed_milliseconds self) (ru_elapsed_milliseconds delta) |}.

Definition coverage_budget_validate (self : CoverageResourceBudget)
    : Result CoverageResourceBudget CoverageError :=
  if (rb_memory_budget_bytes self =? 0) || (rb_evidence_budget_bytes self =? 0)
     || (rb_disk_budget_bytes self =? 0) || (rb_request_budget self =? 0)
     || (rb_time_budget_milliseconds self =? 0)
  then Err (CvInvalidConfig "all resource budgets must be non-zero")
  else Ok self.

Definition first_exceeded (self : CoverageResourceBudget) (usage : ResourceUse) : option RunStopReason :=
  if rb_memory_budget_bytes self <? ru_accounted_memory_bytes usage then Some RsMemoryBudget
  else if rb_evidence_budget_bytes self <? ru_evidence_bytes usage then Some RsEvidenceBudget
  else if rb_disk_budget_bytes self <? ru_disk_bytes usage then Some RsDiskBudget
  else if rb_request_budget self <? ru_requests usage then Some RsRequestBudget
  else if rb_time_budget_milliseconds self <? ru_elapsed_milliseconds usage then Some RsTimeBudget
  else None.

Definition execution_metrics_validate (self : ExecutionMetrics) : Result ExecutionMetrics CoverageError :=
  let classified := saturating_add (saturating_add (em_validated_findings self) (em_rejected_findings self))
                      (em_inconclusive_findings self) in
  if (em_unique_findings self <? classified) || (ru_requests (em_resource_delta self) =? 0)
  then Err (CvInvalidInput "execution metrics are inconsistent")
  else Ok self.

Definition saturation_policy_validate (maximum_windows : N) (self : SaturationPolicy)
    : Result SaturationPolicy CoverageError :=
  if (sp_checks_per_window self =? 0) || (MAX_WINDOW_CHECKS <? sp_checks_per_window self)
     || (sp_minimum_completed_checks self <? sp_checks_per_window self)
     || (sp_required_consecutive_low_yield_windows self =? 0)
     || (maximum_windows <? sp_required_consecutive_low_yield_windows self)
     || (sp_yield_threshold_denominator self =? 0)
     || (sp_yield_threshold_denominator self <? sp_yield_threshold_numerator self)
  then Err (CvInvalidConfig "saturation policy is outside deterministic bounds")
  else Ok self.

Definition validate_coverage_sha256 (value name : str) : Result unit CoverageError :=
  if negb (is_lower_hex_sha256 value) then Err (CvInvalidInput name) else Ok tt.

Definition validate_coverage_rule_id (value : str) : Result unit CoverageError :=
  if bool_decide (value = []) || (192 <? len value) || negb (forallb is_identifier_byte value)
  then Err (CvInvalidInput "rule_id") else Ok tt.

Definition pair_key_new (endpoint_sha256 rule_id : str) : Result PairKey CoverageError :=
  let? _ := validate_coverage_sha256 endpoint_sha256 "endpoint_sha256" in
  let? _ := validate_coverage_rule_id rule_id in
  Ok {| pk_endpoint_sha256 := endpoint_sha256; pk_rule_id := rule_id |}.

(** [usize::saturating_mul] and [u128::saturating_mul]. *)
Definition saturating_mul (a b : N) : N := N.min (a * b) u64_max.
Definition u128_saturating_mul (a b : N) : N := N.min (a * b) u128_max.

(** [set.len() as u64] and [map.len() as u64]. *)
Definition set_len {A} `{Countable A} (s : gset A) : N := N.of_nat (size s).
Definition map_len {K A} `{Countable K} (m : gmap K A) : N := N.of_nat (size m).

Lemma map_len_insert {K A} `{Countable K} (m : gmap K A) k v : m !! k = None -> map_len (<[k := v]> m) = map_len m + 1.
Proof. intros Hk. unfold map_len. rewrite map_size_insert_None by done. lia. Qed.

Lemma map_len_delete {K A} `{Countable K} (m : gmap K A) k v : m !! k = Some v -> map_len m = map_len (delete k m) + 1.
Proof.
  intros Hk. rewrite <- (insert_delete_id m k v) at 1 by done. apply map_len_insert, lookup_delete_eq.
Qed.

Lemma set_len_insert {A} `{Countable A} (x : A) (X : gset A) : (x ∉ X) -> set_len ({[x]} ∪ X) = set_len X + 1.
Proof. intros Hx. unfold set_len. rewrite size_union, size_singleton by set_solver. lia. Qed.

(** ** The tracker with changed fields *)

Definition with_scope (endpoints rules : gset str) (self : CoverageTracker) : CoverageTracker :=
  {| cv_limits := cv_limits self; cv_budget := cv_budget self;
     cv_saturation_policy := cv_saturation_policy self; cv_admitted_endpoints := endpoints;
     cv_considered_endpoints := cv_considered_endpoints self;
     cv_analyzed_endpoints := cv_analyzed_endpoints self; cv_enabled_rules := rules;
     cv_pair_outcomes := cv_pair_outcomes self; cv_skipped_by_reason := cv_skipped_by_reason self;
     cv_findings := cv_findings self; cv_resource_use := cv_resource_use self;
     cv_queue_telemetry := cv_queue_telemetry self; cv_saturation_windows := cv_saturation_windows self;
     cv_current_window_checks := cv_current_window_checks self;
     cv_current_window_unique_findings := cv_current_window_unique_findings self;
     cv_stop_reason := cv_stop_reason self |}.

Definition with_stop (reason : RunStopReason) (self : CoverageTracker) : CoverageTracker :=
  {| cv_limits := cv_limits self; cv_budget := cv_budget self;
     cv_saturation_policy := cv_saturation_policy self;
     cv_admitted_endpoints := cv_admitted_endpoints self;
     cv_considered_endpoints := cv_considered_endpoints self;
     cv_analyzed_endpoints := cv_analyzed_endpoints self; cv_enabled_rules := cv_enabled_rules self;
     cv_pair_outcomes := cv_pair_outcomes self; cv_skipped_by_reason := cv_skipped_by_reason self;
     cv_findings := cv_findings self; cv_resource_use := cv_resource_use self;
     cv_queue_telemetry := cv_queue_telemetry self; cv_saturation_windows := cv_saturation_windows self;
     cv_current_window_checks := cv_current_window_checks self;
     cv_current_window_unique_findings := cv_current_window_unique_findings self;
     cv_stop_reason := Some reason |}.

Definition with_telemetry (telemetry : QueueTelemetry) (self : CoverageTracker) : CoverageTracker :=
  {| cv_limits := cv_limits self; cv_budget := cv_budget self;
     cv_saturation_policy := cv_saturation_policy self;
     cv_admitted_endpoints := cv_admitted_endpoints self;
     cv_considered_endpoints := cv_considered_endpoints self;
     cv_analyzed_endpoints := cv_analyzed_endpoints self; cv_enabled_rules := cv_enabled_rules self;
     cv_pair_outcomes := cv_pair_outcomes self; cv_skipped_by_reason := cv_skipped_by_reason self;
     cv_findings := cv_findings self; cv_resource_use := cv_resource_use self;
     cv_queue_telemetry := telemetry; cv_saturation_windows := cv_saturation_windows self;
     cv_current_window_checks := cv_current_window_checks self;
     cv_current_window_unique_findings := cv_current_window_unique_findings self;
     cv_stop_reason := cv_stop_reason self |}.

Definition with_windows (windows : list SaturationWindow) (checks unique : N) (self : CoverageTracker)
    : CoverageTracker :=
  {| cv_limits := cv_limits self; cv_budget := cv_budget self;
     cv_saturation_policy := cv_saturation_policy self;
     cv_admitted_endpoints := cv_admitted_endpoints self;
     cv_considered_endpoints := cv_considered_endpoints self;
     cv_analyzed_endpoints := cv_analyzed_endpoints self; cv_enabled_rules := cv_enabled_rules self;
     cv_pair_outcomes := cv_pair_outcomes self; cv_skipped_by_reason := cv_skipped_by_reason self;
     cv_findings := cv_findings self; cv_resource_use := cv_resource_use self;
     cv_queue_telemetry := cv_queue_telemetry self; cv_saturation_windows := windows;
     cv_current_window_checks := checks; cv_current_window_unique_findings := unique;
     cv_stop_reason := cv_stop_reason self |}.

(** The five [saturating_add] updates of the counters. *)
Definition count_findings (metrics : ExecutionMetrics) (counts : FindingCounts) : FindingCounts :=
  {| fc_unique := saturating_add (fc_unique counts) (em_unique_findings metrics);
     fc_duplicate := saturating_add (fc_duplicate counts) (em_duplicate_findings metrics);
     fc_validated := saturating_add (fc_validated counts) (em_validated_findings metrics);
     fc_rejected := saturating_add (fc_rejected counts) (em_rejected_findings metrics);
     fc_inconclusive := saturating_add (fc_inconclusive counts) (em_inconclusive_findings metrics) |}.

(** The effect of an accepted execution, up to the window. *)
Definition with_execution (key : PairKey) (metrics : ExecutionMetrics) (resources : ResourceUse)
    (self : CoverageTracker) : CoverageTracker :=
  {| cv_limits := cv_limits self; cv_budget := cv_budget self;
     cv_saturation_policy := cv_saturation_policy self;
     cv_admitted_endpoints := cv_admitted_endpoints self;
     cv_considered_endpoints := {[pk_endpoint_sha256 key]} ∪ cv_considered_endpoints self;
     cv_analyzed_endpoints := {[pk_endpoint_sha256 key]} ∪ cv_analyzed_endpoints self;
     cv_enabled_rules := cv_enabled_rules self;
     cv_pair_outcomes := <[key := Executed metrics]> (cv_pair_outcomes self);
     cv_skipped_by_reason := cv_skipped_by_reason self;
     cv_findings := count_findings metrics (cv_findings self); cv_resource_use := resources;
     cv_queue_telemetry := cv_queue_telemetry self; cv_saturation_windows := cv_saturation_windows self;
     cv_current_window_checks := saturating_add (cv_current_window_checks self) 1;
     cv_current_window_unique_findings :=
       saturating_add (cv_current_window_unique_findings self) (em_unique_findings metrics);
     cv_stop_reason := cv_stop_reason self |}.

Definition with_skip (key : PairKey) (reason : PairSkipReason) (self : CoverageTracker) : CoverageTracker :=
  let count := default 0 (cv_skipped_by_reason self !! reason) in
  {| cv_limits := cv_limits self; cv_budget := cv_budget self;
     cv_saturation_policy := cv_saturation_policy self;
     cv_admitted_endpoints := cv_admitted_endpoints self;
     cv_considered_endpoints := {[pk_endpoint_sha256 key]} ∪ cv_considered_endpoints self;
     cv_analyzed_endpoints := cv_analyzed_endpoints self; cv_enabled_rules := cv_enabled_rules self;
     cv_pair_outcomes := <[key := Skipped reason]> (cv_pair_outcomes self);
     cv_skipped_by_reason := <[reason := saturating_add count 1]> (cv_skipped_by_reason self);
     cv_findings := cv_findings self; cv_resource_use := cv_resource_use self;
     cv_queue_telemetry := cv_queue_telemetry self; cv_saturation_windows := cv_saturation_windows self;
     cv_current_window_checks := cv_current_window_checks self;
     cv_current_window_unique_findings := cv_current_window_unique_findings self;
     cv_stop_reason := cv_stop_reason self |}.

(** ** Operations *)

Definition tracker_new (limits : CoverageLimits) (budget : CoverageResourceBudget)
    (saturation_policy : SaturationPolicy) : Result CoverageTracker CoverageError :=
  let? limits := coverage_limits_validate limits in
  let? budget := coverage_budget_validate budget in
  let? saturation_policy := saturation_policy_validate (cl_maximum_windows limits) saturation_policy in
  Ok {| cv_limits := limits; cv_budget := budget; cv_saturation_policy := saturation_policy;
        cv_admitted_endpoints := ∅; cv_considered_endpoints := ∅; cv_analyzed_endpoints := ∅;
        cv_enabled_rules := ∅; cv_pair_outcomes := ∅; cv_skipped_by_reason := ∅;
        cv_findings := {| fc_unique := 0; fc_duplicate := 0; fc_validated := 0; fc_rejected := 0;
                          fc_inconclusive := 0 |};
        cv_resource_use := resource_default;
        cv_queue_telemetry := {| qt_high_priority_unexplored_pairs := 0; qt_validation_queue := 0;
                                 qt_cleanup_queue := 0 |};
        cv_saturation_windows := []; cv_current_window_checks := 0;
        cv_current_window_unique_findings := 0; cv_stop_reason := None |}.

Definition ensure_running (self : CoverageTracker) : Result unit CoverageError :=
  match cv_stop_reason self with Some _ => Err CvRunStopped | None => Ok tt end.

Definition preflight_theoretical_pairs (endpoints rules : N) (self : CoverageTracker)
    : Result unit CoverageError :=
  if cl_maximum_recorded_pairs (cv_limits self) <? saturating_mul endpoints rules
  then Err CvPairBudget else Ok tt.

Definition admit_endpoint_checks (endpoint_sha256 : str) (self : CoverageTracker)
    : Result bool CoverageError :=
  let? _ := ensure_running self in
  let? _ := validate_coverage_sha256 endpoint_sha256 "endpoint_sha256" in
  if bool_decide (endpoint_sha256 ∈ cv_admitted_endpoints self) then Ok false
  else if cl_maximum_endpoints (cv_limits self) <=? set_len (cv_admitted_endpoints self)
  then Err CvEndpointBudget
  else
  let? _ := preflight_theoretical_pairs (saturating_add (set_len (cv_admitted_endpoints self)) 1)
              (set_len (cv_enabled_rules self)) self in
  Ok true.

Definition admit_endpoint (endpoint_sha256 : str) (self : CoverageTracker)
    : Result bool CoverageError * CoverageTracker :=
  match admit_endpoint_checks endpoint_sha256 self with
  | Ok true =>
      (Ok true, with_scope ({[endpoint_sha256]} ∪ cv_admitted_endpoints self) (cv_enabled_rules self) self)
  | other => (other, self)
  end.

Definition enable_rule_checks (rule_id : str) (self : CoverageTracker) : Result bool CoverageError :=
  let? _ := ensure_running self in
  let? _ := validate_coverage_rule_id rule_id in
  if bool_decide (rule_id ∈ cv_enabled_rules self) then Ok false
  else if cl_maximum_rules (cv_limits self) <=? set_len (cv_enabled_rules self) then Err CvRuleBudget
  else
  let? _ := preflight_theoretical_pairs (set_len (cv_admitted_endpoints self))
              (saturating_add (set_len (cv_enabled_rules self)) 1) self in
  Ok true.

Definition enable_rule (rule_id : str) (self : CoverageTracker)
    : Result bool CoverageError * CoverageTracker :=
  match enable_rule_checks rule_id self with
  | Ok true =>
      (Ok true, with_scope (cv_admitted_endpoints self) ({[rule_id]} ∪ cv_enabled_rules self) self)
  | other => (other, self)
  end.

Definition completed_checks (windows : list SaturationWindow) : N :=
  foldl (fun sum window => saturating_add sum (sw_completed_checks window)) 0 windows.

Definition evaluate_saturation (self : CoverageTracker) : CoverageTracker :=
  let telemetry := cv_queue_telemetry self in
  let policy := cv_saturation_policy self in
  let windows := cv_saturation_windows self in
  let required := sp_required_consecutive_low_yield_windows policy in
  if bool_decide (is_Some (cv_stop_reason self))
     || negb (qt_high_priority_unexplored_pairs telemetry =? 0)
     || negb (qt_validation_queue telemetry =? 0) || negb (qt_cleanup_queue telemetry =? 0)
  then self
  else if (completed_checks windows <? sp_minimum_completed_checks policy) || (len windows <? required)
  then self
  else if forallb sw_below_yield_threshold (take (N.to_nat required) (rev windows))
  then with_stop RsSaturated self
  else self.

Definition set_queue_telemetry (telemetry : QueueTelemetry) (self : CoverageTracker)
    : Result unit CoverageError * CoverageTracker :=
  match ensure_running self with
  | Err error => (Err error, self)
  | Ok _ => (Ok tt, evaluate_saturation (with_telemetry telemetry self))
  end.

Definition validate_pair (endpoint_sha256 rule_id : str) (self : CoverageTracker)
    : Result PairKey CoverageError :=
  let? key := pair_key_new endpoint_sha256 rule_id in
  if negb (bool_decide (endpoint_sha256 ∈ cv_admitted_endpoints self)) then Err CvEndpointNotAdmitted
  else if negb (bool_decide (rule_id ∈ cv_enabled_rules self)) then Err CvRuleNotEnabled
  else Ok key.

Definition preflight_new_pair (key : PairKey) (self : CoverageTracker) : Result unit CoverageError :=
  if bool_decide (is_Some (cv_pair_outcomes self !! key)) then Err CvPairAlreadyRecorded
  else if cl_maximum_recorded_pairs (cv_limits self) <=? map_len (cv_pair_outcomes self)
  then Err CvPairBudget else Ok tt.

Definition close_saturation_window (self : CoverageTracker) : Result unit CoverageError * CoverageTracker :=
  if cl_maximum_windows (cv_limits self) <=? len (cv_saturation_windows self)
  then (Err (CvInvalidConfig "saturation window budget was exhausted"), self)
  else
    let policy := cv_saturation_policy self in
    let left := u128_saturating_mul (cv_current_window_unique_findings self)
                  (sp_yield_threshold_denominator policy) in
    let right := u128_saturating_mul (cv_current_window_checks self) (sp_yield_threshold_numerator policy) in
    let window := {| sw_completed_checks := cv_current_window_checks self;
                     sw_new_unique_findings := cv_current_window_unique_findings self;
                     sw_below_yield_threshold := left <? right |} in
    (Ok tt, with_windows (cv_saturation_windows self ++ [window]) 0 0 self).

(** The checks of [record_execution]. *)
Definition execution_checks (endpoint_sha256 rule_id : str) (metrics : ExecutionMetrics)
    (self : CoverageTracker) : Result PairKey CoverageError :=
  let? _ := ensure_running self in
  let? _ := execution_metrics_validate metrics in
  let? key := validate_pair endpoint_sha256 rule_id self in
  let? _ := preflight_new_pair key self in
  Ok key.

Definition record_execution (endpoint_sha256 rule_id : str) (metrics : ExecutionMetrics)
    (self : CoverageTracker) : Result unit CoverageError * CoverageTracker :=
  match execution_checks endpoint_sha256 rule_id metrics self with
  | Err error => (Err error, self)
  | Ok key =>
      let next_resources := resource_add (cv_resource_use self) (em_resource_delta metrics) in
      match first_exceeded (cv_budget self) next_resources with
      | Some reason => (Err (CvResourceBoundary reason), with_stop reason self)
      | None =>
          let self := with_execution key metrics next_resources self in
          let '(closed, self) :=
            if cv_current_window_checks self =? sp_checks_per_window (cv_saturation_policy self)
            then close_saturation_window self else (Ok tt, self) in
          match closed with
          | Err error => (Err error, self)
          | Ok _ => (Ok tt, evaluate_saturation self)
          end
      end
  end.

Definition record_skip (endpoint_sha256 rule_id : str) (reason : PairSkipReason) (self : CoverageTracker)
    : Result unit CoverageError * CoverageTracker :=
  match (let? _ := ensure_running self in
         let? key := validate_pair endpoint_sha256 rule_id self in
         let? _ := preflight_new_pair key self in
         Ok key) with
  | Err error => (Err error, self)
  | Ok key => (Ok tt, with_skip key reason self)
  end.

Definition theoretical_pairs (self : CoverageTracker) : N :=
  saturating_mul (set_len (cv_admitted_endpoints self)) (set_len (cv_enabled_rules self)).

Definition mark_completed (self : CoverageTracker) : Result unit CoverageError * CoverageTracker :=
  match ensure_running self with
  | Err error => (Err error, self)
  | Ok _ =>
      let theoretical := theoretical_pairs self in
      if (theoretical =? 0) || negb (map_len (cv_pair_outcomes self) =? theoretical)
         || negb (qt_validation_queue (cv_queue_telemetry self) =? 0)
         || negb (qt_cleanup_queue (cv_queue_telemetry self) =? 0)
      then (Err CvIncompleteCoverage, self)
      else (Ok tt, with_stop RsCompleted self)
  end.

Definition tracker_cancel (self : CoverageTracker) : Result unit CoverageError * CoverageTracker :=
  match ensure_running self with
  | Err error => (Err error, self)
  | Ok _ => (Ok tt, with_stop RsCancelled self)
  end.

Definition tracker_emergency_stop (self : CoverageTracker) : Result unit CoverageError * CoverageTracker :=
  match ensure_running self with
  | Err error => (Err error, self)
  | Ok _ => (Ok tt, with_stop RsEmergencyStop self)
  end.

(** *** Receipts *)

Definition is_executed (outcome : PairOutcome) : bool :=
  match outcome with Executed _ => true | Skipped _ => false end.

Section Receipts.
Context {S : Sha256Lib} {JS : JsonLib (gset str)} {JP : JsonLib (list (PairKey * PairOutcome))}
  {JR : JsonLib CoverageReceipt}.

Definition coverage_hash {A} {JA : JsonLib A} (value : A) : Result str CoverageError :=
  let? bytes := map_err CvSerialization (to_vec value) in Ok (to_lower_hex (sha256 bytes)).

(** The receipt with the digests still to be filled in. *)
Definition receipt_draft (endpoint_set rule_set pair_outcomes receipt_sha256 : str) (self : CoverageTracker)
    : CoverageReceipt :=
  let theoretical := theoretical_pairs self in
  let recorded := map_len (cv_pair_outcomes self) in
  let executed := len (List.filter is_executed (map_values (cv_pair_outcomes self))) in
  {| cr_admitted_endpoints := set_len (cv_admitted_endpoints self);
     cr_considered_endpoints := set_len (cv_considered_endpoints self);
     cr_analyzed_endpoints := set_len (cv_analyzed_endpoints self);
     cr_untested_endpoints := set_len (cv_admitted_endpoints self) - set_len (cv_considered_endpoints self);
     cr_enabled_rules := set_len (cv_enabled_rules self); cr_theoretical_pairs := theoretical;
     cr_recorded_pairs := recorded; cr_untested_pairs := theoretical - recorded;
     cr_executed_pairs := executed; cr_skipped_pairs := recorded - executed;
     cr_skipped_by_reason := cv_skipped_by_reason self;
     cr_unique_findings := fc_unique (cv_findings self);
     cr_duplicate_findings := fc_duplicate (cv_findings self);
     cr_validated_findings := fc_validated (cv_findings self);
     cr_rejected_findings := fc_rejected (cv_findings self);
     cr_inconclusive_findings := fc_inconclusive (cv_findings self);
     cr_resource_use := cv_resource_use self; cr_queue_telemetry := cv_queue_telemetry self;
     cr_saturation_windows := cv_saturation_windows self; cr_stop_reason := cv_stop_reason self;
     cr_endpoint_set_sha256 := endpoint_set; cr_rule_set_sha256 := rule_set;
     cr_pair_outcomes_sha256 := pair_outcomes; cr_receipt_sha256 := receipt_sha256 |}.

Definition coverage_receipt (self : CoverageTracker) : Result CoverageReceipt CoverageError :=
  let? endpoint_set := coverage_hash (cv_admitted_endpoints self) in
  let? rule_set := coverage_hash (cv_enabled_rules self) in
  let? pair_outcomes := coverage_hash (map_iter (cv_pair_outcomes self)) in
  let? receipt_sha256 := coverage_hash (receipt_draft endpoint_set rule_set pair_outcomes [] self) in
  Ok (receipt_draft endpoint_set rule_set pair_outcomes receipt_sha256 self).

(** The receipt with its digest cleared. *)
Definition receipt_material (self : CoverageReceipt) : CoverageReceipt :=
  {| cr_admitted_endpoints := cr_admitted_endpoints self;
     cr_considered_endpoints := cr_considered_endpoints self;
     cr_analyzed_endpoints := cr_analyzed_endpoints self;
     cr_untested_endpoints := cr_untested_endpoints self; cr_enabled_rules := cr_enabled_rules self;
     cr_theoretical_pairs := cr_theoretical_pairs self; cr_recorded_pairs := cr_recorded_pairs self;
     cr_untested_pairs := cr_untested_pairs self; cr_executed_pairs := cr_executed_pairs self;
     cr_skipped_pairs := cr_skipped_pairs self; cr_skipped_by_reason := cr_skipped_by_reason self;
     cr_unique_findings := cr_unique_findings self; cr_duplicate_findings := cr_duplicate_findings self;
     cr_validated_findings := cr_validated_findings self;
     cr_rejected_findings := cr_rejected_findings self;
     cr_inconclusive_findings := cr_inconclusive_findings self; cr_resource_use := cr_resource_use self;
     cr_queue_telemetry := cr_queue_telemetry self; cr_saturation_windows := cr_saturation_windows self;
     cr_stop_reason := cr_stop_reason self; cr_endpoint_set_sha256 := cr_endpoint_set_sha256 self;
     cr_rule_set_sha256 := cr_rule_set_sha256 self;
     cr_pair_outcomes_sha256 := cr_pair_outcomes_sha256 self; cr_receipt_sha256 := [] |}.

Definition coverage_receipt_verify (self : CoverageReceipt) : Result unit CoverageError :=
  let? expected := coverage_hash (receipt_material self) in
  if negb (bool_decide (expected = cr_receipt_sha256 self)) then Err CvReceiptDigest else Ok tt.

End Receipts.
