(* ===== verification/CoverageFacts.v ===== *)
(** * What the coverage tracker guarantees

    Along every history the receipt accounts for every endpoint-rule pair, the
    resources stay within their budget, a run is stopped as saturated exactly when it
    is, and it can be marked completed exactly when everything is recorded and nothing
    waits. *)

From S2P Require Import Prelude ByteStr BTree HashChain HttpSyntax Coverage.
Local Open Scope N_scope.

(** ** Totals over the recorded pairs *)

(** What a pair contributes to a total over the executed ones. *)
Definition weight (f : ExecutionMetrics -> N) (outcome : PairOutcome) : N :=
  match outcome with Executed metrics => f metrics | Skipped _ => 0 end.
Definition skip_weight (reason : PairSkipReason) (outcome : PairOutcome) : N :=
  match outcome with Executed _ => 0 | Skipped r => if decide (r = reason) then 1 else 0 end.

Lemma map_sum_len (m : gmap PairKey PairOutcome) : map_sum (fun _ => 1) m = map_len m.
Proof. apply map_sum_one. Qed.

(** The number of executed pairs, as the receipt counts it. *)
Lemma executed_count m :
  len (List.filter is_executed (map_values m)) = map_sum (weight (fun _ => 1)) m.
Proof.
  assert (forall l : list (PairKey * PairOutcome), NoDup l.*1 ->
    len (List.filter is_executed l.*2) = map_sum (weight (fun _ => 1)) (list_to_map l)) as Hl.
  { induction l as [|[k o] l IH]; cbn; [by rewrite map_sum_empty|]. intros [Hk Hn]%NoDup_cons.
    rewrite map_sum_insert by (by apply not_elem_of_list_to_map_1). rewrite <- IH by done.
    unfold len. destruct o; cbn; lia. }
  unfold map_values. rewrite Hl by apply map_iter_NoDup. f_equal.
  apply map_eq. intros k. apply option_eq. intros o.
  rewrite <- elem_of_list_to_map by apply map_iter_NoDup. apply elem_of_map_iter.
Qed.

(** ** Pairs within a scope *)

Definition in_scope (endpoints rules : gset str) (m : gmap PairKey PairOutcome) : Prop :=
  forall k o, m !! k = Some o -> pk_endpoint_sha256 k ∈ endpoints /\ pk_rule_id k ∈ rules.

(** All pairs of a scope. *)
Definition scope_pairs (endpoints rules : gset str) : list (str * str) :=
  list_prod (elements endpoints) (elements rules).
Definition recorded_pairs (m : gmap PairKey PairOutcome) : list (str * str) :=
  map (fun kv => (pk_endpoint_sha256 kv.1, pk_rule_id kv.1)) (map_to_list m).

Lemma scope_pairs_length endpoints rules :
  len (scope_pairs endpoints rules) = set_len endpoints * set_len rules.
Proof. unfold scope_pairs, set_len, len. rewrite length_prod. unfold size, set_size. cbn. lia. Qed.

Lemma list_prod_NoDup {A B} (l : list A) (l' : list B) :
  List.NoDup l -> List.NoDup l' -> List.NoDup (list_prod l l').
Proof.
  intros Hl Hl'. induction Hl as [|a l Ha _ IH]; cbn; [constructor|]. apply List.NoDup_app; [|done|].
  - apply NoDup_ListNoDup, NoDup_fmap_2; [by intros x y [= ->]|by apply NoDup_ListNoDup].
  - intros [x y] Hx Hy. apply in_map_iff in Hx as (z & [= -> ->] & _). by apply in_prod_iff in Hy as [? _].
Qed.
Lemma scope_pairs_NoDup endpoints rules : List.NoDup (scope_pairs endpoints rules).
Proof. apply list_prod_NoDup; apply NoDup_ListNoDup, NoDup_elements. Qed.

Lemma recorded_pairs_NoDup m : NoDup (recorded_pairs m).
Proof.
  unfold recorded_pairs.
  assert (map (fun kv : PairKey * PairOutcome => (pk_endpoint_sha256 kv.1, pk_rule_id kv.1)) (map_to_list m)
    = (fun k => (pk_endpoint_sha256 k, pk_rule_id k)) <$> (map_to_list m).*1) as ->
    by (rewrite <- list_fmap_compose; done).
  apply NoDup_fmap_2; [intros [] []; cbn; congruence|]. apply NoDup_fst_map_to_list.
Qed.

Lemma recorded_pairs_elem m e r :
  In (e, r) (recorded_pairs m) <-> is_Some (m !! {| pk_endpoint_sha256 := e; pk_rule_id := r |}).
Proof.
  unfold recorded_pairs. rewrite in_map_iff. split.
  - intros ([[e' r'] o] & Heq & Hin). cbn in Heq. simplify_eq.
    apply list_elem_of_In, elem_of_map_to_list in Hin. eauto.
  - intros [o Ho]. exists ({| pk_endpoint_sha256 := e; pk_rule_id := r |}, o).
    split; [done|]. by apply list_elem_of_In, elem_of_map_to_list.
Qed.

(** There are no more recorded pairs than pairs in scope, and as many
    just when every pair is recorded. *)
Lemma scope_bound endpoints rules m :
  in_scope endpoints rules m ->
  map_len m <= set_len endpoints * set_len rules
  /\ (map_len m = set_len endpoints * set_len rules <->
      forall e r, e ∈ endpoints -> r ∈ rules -> is_Some (m !! {| pk_endpoint_sha256 := e; pk_rule_id := r |})).
Proof.
  intros Hs.
  assert (len (recorded_pairs m) = map_len m) as Hl
    by (unfold recorded_pairs, len, map_len; rewrite length_map, length_map_to_list; done).
  assert (List.NoDup (recorded_pairs m)) as Hn by (apply NoDup_ListNoDup, recorded_pairs_NoDup).
  assert (incl (recorded_pairs m) (scope_pairs endpoints rules)) as Hi.
  { intros [e r] [o Ho]%recorded_pairs_elem. apply Hs in Ho as [He Hr]. cbn in *.
    apply in_prod; by apply list_elem_of_In, elem_of_elements. }
  assert (length (recorded_pairs m) <= length (scope_pairs endpoints rules))%nat as Hle
    by (by apply NoDup_incl_length).
  rewrite <- scope_pairs_length, <- Hl. unfold len. split; [lia|split].
  - intros Heq e r He Hr. apply recorded_pairs_elem.
    apply (NoDup_length_incl (l' := scope_pairs endpoints rules) Hn); [lia|done|].
    apply in_prod; by apply list_elem_of_In, elem_of_elements.
  - intros Hall. enough (length (scope_pairs endpoints rules) <= length (recorded_pairs m))%nat by lia.
    apply NoDup_incl_length; [apply scope_pairs_NoDup|].
    intros [e r] [He Hr]%in_prod_iff. apply recorded_pairs_elem, Hall; by apply elem_of_elements, list_elem_of_In.
Qed.

(** ** The invariant *)

Definition sat (n : N) : N := N.min n u64_max.
Lemma saturating_add_sat a b : saturating_add (sat a) b = sat (b + a).
Proof. unfold saturating_add, sat. generalize u64_max. intros. lia. Qed.

(** The checks in closed windows. *)
Definition window_checks (windows : list SaturationWindow) : N :=
  foldr (fun w sum => sw_completed_checks w + sum) 0 windows.
Definition low_yield (policy : SaturationPolicy) (w : SaturationWindow) : Prop :=
  sw_new_unique_findings w * sp_yield_threshold_denominator policy
  < sw_completed_checks w * sp_yield_threshold_numerator policy.

(** A window holds as many checks as the policy says and is flagged by its yield. *)
Definition window_ok (policy : SaturationPolicy) (w : SaturationWindow) : Prop :=
  sw_completed_checks w = sp_checks_per_window policy
  /\ (sw_below_yield_threshold w = true <-> low_yield policy w).

(** When the run counts as saturated: nothing is waiting, enough checks were made and
    the last windows all had a low yield. *)
Definition saturated (c : CoverageTracker) : Prop :=
  let policy := cv_saturation_policy c in
  let windows := cv_saturation_windows c in
  let required := sp_required_consecutive_low_yield_windows policy in
  cv_queue_telemetry c = {| qt_high_priority_unexplored_pairs := 0; qt_validation_queue := 0; qt_cleanup_queue := 0 |}
  /\ sp_minimum_completed_checks policy <= window_checks windows
  /\ required <= len windows
  /\ Forall (fun w => sw_below_yield_threshold w = true) (take (N.to_nat required) (rev windows)).

(** When every pair in scope has an outcome. *)
Definition all_recorded (c : CoverageTracker) : Prop :=
  0 < set_len (cv_admitted_endpoints c) * set_len (cv_enabled_rules c)
  /\ forall e r, e ∈ cv_admitted_endpoints c -> r ∈ cv_enabled_rules c ->
       is_Some (cv_pair_outcomes c !! {| pk_endpoint_sha256 := e; pk_rule_id := r |}).

(** Nothing waits for validation or cleanup. *)
Definition queues_idle (c : CoverageTracker) : Prop :=
  qt_validation_queue (cv_queue_telemetry c) = 0 /\ qt_cleanup_queue (cv_queue_telemetry c) = 0.

(** The counters are the totals over the recorded pairs. *)
Definition findings_total (m : gmap PairKey PairOutcome) : FindingCounts :=
  {| fc_unique := sat (map_sum (weight em_unique_findings) m);
     fc_duplicate := sat (map_sum (weight em_duplicate_findings) m);
     fc_validated := sat (map_sum (weight em_validated_findings) m);
     fc_rejected := sat (map_sum (weight em_rejected_findings) m);
     fc_inconclusive := sat (map_sum (weight em_inconclusive_findings) m) |}.
Definition resources_total (m : gmap PairKey PairOutcome) : ResourceUse :=
  let used f := sat (map_sum (weight (fun metrics => f (em_resource_delta metrics))) m) in
  {| ru_accounted_memory_bytes := used ru_accounted_memory_bytes; ru_evidence_bytes := used ru_evidence_bytes;
     ru_disk_bytes := used ru_disk_bytes; ru_requests := used ru_requests;
     ru_elapsed_milliseconds := used ru_elapsed_milliseconds |}.

(** What holds whether the run is stopped or not. *)
Record coverage_core (c : CoverageTracker) : Prop := {
  cc_limits : cl_maximum_recorded_pairs (cv_limits c) <= MAX_COVERAGE_PAIRS;
  cc_scope_limits : cl_maximum_endpoints (cv_limits c) <= MAX_COVERAGE_ENDPOINTS
                    /\ cl_maximum_rules (cv_limits c) <= MAX_COVERAGE_RULES;
  cc_required : 0 < sp_required_consecutive_low_yield_windows (cv_saturation_policy c);
  cc_bounds : set_len (cv_admitted_endpoints c) <= cl_maximum_endpoints (cv_limits c)
              /\ set_len (cv_enabled_rules c) <= cl_maximum_rules (cv_limits c)
              /\ set_len (cv_admitted_endpoints c) * set_len (cv_enabled_rules c)
                 <= cl_maximum_recorded_pairs (cv_limits c);
  cc_scope : in_scope (cv_admitted_endpoints c) (cv_enabled_rules c) (cv_pair_outcomes c);
  cc_considered : forall e, e ∈ cv_considered_endpoints c
                    <-> exists k o, cv_pair_outcomes c !! k = Some o /\ pk_endpoint_sha256 k = e;
  cc_analyzed : forall e, e ∈ cv_analyzed_endpoints c
                    <-> exists k m, cv_pair_outcomes c !! k = Some (Executed m) /\ pk_endpoint_sha256 k = e;
  cc_skipped : forall r, default 0 (cv_skipped_by_reason c !! r) = map_sum (skip_weight r) (cv_pair_outcomes c);
  cc_findings : cv_findings c = findings_total (cv_pair_outcomes c);
  cc_resources : cv_resource_use c = resources_total (cv_pair_outcomes c);
  cc_budget : first_exceeded (cv_budget c) (cv_resource_use c) = None;
  cc_checks : window_checks (cv_saturation_windows c) + cv_current_window_checks c
              = map_sum (weight (fun _ => 1)) (cv_pair_outcomes c);
  cc_windows : Forall (window_ok (cv_saturation_policy c)) (cv_saturation_windows c);
  cc_window_count : len (cv_saturation_windows c) <= cl_maximum_windows (cv_limits c);
  cc_widths : cv_current_window_unique_findings c <= u64_max
           /\ sp_yield_threshold_denominator (cv_saturation_policy c) <= u64_max
           /\ sp_yield_threshold_numerator (cv_saturation_policy c) <= u64_max
}.

Definition stop_ok (c : CoverageTracker) : Prop :=
  (cv_stop_reason c = Some RsSaturated <-> saturated c)
  /\ (cv_stop_reason c = Some RsCompleted -> all_recorded c /\ queues_idle c).

Lemma running_stop_ok c : cv_stop_reason c = None -> ~ saturated c -> stop_ok c.
Proof. intros Hn Hs. unfold stop_ok. rewrite Hn. naive_solver. Qed.
Lemma stop_ok_running c : cv_stop_reason c = None -> stop_ok c -> ~ saturated c.
Proof. intros Hn [Hs _] H. apply Hs in H. congruence. Qed.

(** Stopping for a reason other than saturation. *)
Lemma stop_ok_with_stop reason c :
  reason <> RsSaturated -> (reason = RsCompleted -> all_recorded c /\ queues_idle c) ->
  ~ saturated c -> stop_ok (with_stop reason c).
Proof.
  intros Hne Hc Hs. split; cbn; [|by intros [= ->]; apply Hc].
  split; [by intros [= ?]|intros H; by destruct Hs].
Qed.
Lemma stop_ok_saturated c : saturated c -> stop_ok (with_stop RsSaturated c).
Proof. intros Hs. by split. Qed.

Definition coverage_ok (c : CoverageTracker) : Prop := coverage_core c /\ stop_ok c.

(** The recorded pairs are few enough for exact counting. *)
Lemma core_recorded c : coverage_core c -> map_len (cv_pair_outcomes c) <= MAX_COVERAGE_PAIRS.
Proof.
  intros [Hl _ _ (_ & _ & Hp) Hs]. destruct (scope_bound _ _ _ Hs) as [Hb _].
  etransitivity; [exact Hb|]. by etransitivity.
Qed.

Lemma map_sum_bounded w (m : gmap PairKey PairOutcome) : (forall o, w o <= 1) -> map_sum w m <= map_len m.
Proof. intros Hw. rewrite <- map_sum_len. by apply map_sum_le. Qed.

Lemma core_checks_small c : coverage_core c ->
  window_checks (cv_saturation_windows c) + cv_current_window_checks c <= MAX_COVERAGE_PAIRS.
Proof.
  intros Hc. pose proof (core_recorded c Hc). rewrite (cc_checks c Hc).
  pose proof (map_sum_bounded (weight (fun _ => 1)) (cv_pair_outcomes c)) as Ht.
  etransitivity; [apply Ht; intros []; cbn; lia|done].
Qed.

Lemma MAX_PAIRS_u64 : MAX_COVERAGE_PAIRS < u64_max.
Proof. reflexivity. Qed.

Lemma completed_checks_exact windows :
  window_checks windows <= u64_max -> completed_checks windows = window_checks windows.
Proof.
  unfold completed_checks.
  assert (forall acc, acc + window_checks windows <= u64_max ->
    foldl (fun sum w => saturating_add sum (sw_completed_checks w)) acc windows = acc + window_checks windows) as H.
  { induction windows as [|w windows IH]; intros acc Hacc; cbn in *; [lia|]. fold (window_checks windows) in *.
    rewrite (saturating_add_small _ _ u64_max) by lia. rewrite IH by lia. lia. }
  intros Hw. by rewrite H.
Qed.

(** ** Every operation keeps the invariant *)

Lemma core_with_stop reason c : coverage_core c -> coverage_core (with_stop reason c).
Proof. intros []. by constructor. Qed.
Lemma core_with_telemetry t c : coverage_core c -> coverage_core (with_telemetry t c).
Proof. intros []. by constructor. Qed.

(** Saturation is evaluated exactly. *)
Lemma evaluate_saturation_spec c : coverage_core c -> cv_stop_reason c = None ->
  (evaluate_saturation c = with_stop RsSaturated c /\ saturated c)
  \/ (evaluate_saturation c = c /\ ~ saturated c).
Proof.
  intros Hc Hn. unfold evaluate_saturation, saturated. rewrite Hn.
  rewrite (bool_decide_eq_false_2 (is_Some None)) by (by intros [? ?]). cbn [orb].
  rewrite completed_checks_exact by (pose proof (core_checks_small c Hc); pose proof MAX_PAIRS_u64; lia).
  destruct (cv_queue_telemetry c) as [q1 q2 q3]. cbn.
  destruct (q1 =? 0) eqn:E1, (q2 =? 0) eqn:E2, (q3 =? 0) eqn:E3; cbn; bools;
    try (right; split; [done|]; intros (H & _); by simplify_eq).
  destruct (_ <? sp_minimum_completed_checks _) eqn:E4; cbn; bools; [right; split; [done|]; intros (_ & H & _); lia|].
  destruct (_ <? sp_required_consecutive_low_yield_windows _) eqn:E5; cbn; bools;
    [right; split; [done|]; intros (_ & _ & H & _); lia|].
  destruct (forallb _ _) eqn:E6.
  - left. split; [done|]. subst. split_and!; auto. apply Forall_forall. intros w Hw.
    rewrite forallb_elem in E6. by apply E6.
  - right. split; [done|]. intros (_ & _ & _ & H). rewrite Forall_forall in H.
    assert (forallb sw_below_yield_threshold (take (N.to_nat (sp_required_consecutive_low_yield_windows
      (cv_saturation_policy c))) (rev (cv_saturation_windows c))) = true); [|congruence].
    apply forallb_elem. apply H.
Qed.

Section Insert.
Context (m : gmap PairKey PairOutcome) (key : PairKey) (outcome : PairOutcome) (Hfresh : m !! key = None).

Lemma in_scope_insert endpoints rules :
  in_scope endpoints rules m -> pk_endpoint_sha256 key ∈ endpoints -> pk_rule_id key ∈ rules ->
  in_scope endpoints rules (<[key := outcome]> m).
Proof. intros Hs He Hr k o [[<- <-]|[_ Hk]]%lookup_insert_Some; eauto. Qed.

Lemma considered_insert (considered : gset str) :
  (forall e, e ∈ considered <-> exists k o, m !! k = Some o /\ pk_endpoint_sha256 k = e) ->
  forall e, e ∈ {[pk_endpoint_sha256 key]} ∪ considered
    <-> exists k o, <[key := outcome]> m !! k = Some o /\ pk_endpoint_sha256 k = e.
Proof.
  intros Hc e. rewrite elem_of_union, elem_of_singleton, Hc. setoid_rewrite lookup_insert_Some. split.
  - intros [->|(k & o & Hk & He)]; [naive_solver|]. exists k, o. split; [|done]. right. split; [|done].
    by intros ->; rewrite Hk in Hfresh.
  - intros (k & o & [[<- _]|[_ Hk]] & He); [by left|right; eauto].
Qed.

Lemma analyzed_insert (analyzed : gset str) :
  (forall e, e ∈ analyzed <-> exists k x, m !! k = Some (Executed x) /\ pk_endpoint_sha256 k = e) ->
  forall e, e ∈ (if is_executed outcome then {[pk_endpoint_sha256 key]} ∪ analyzed else analyzed)
    <-> exists k x, <[key := outcome]> m !! k = Some (Executed x) /\ pk_endpoint_sha256 k = e.
Proof.
  intros Hc e. setoid_rewrite lookup_insert_Some. split.
  - intros He. assert ((exists x, outcome = Executed x /\ pk_endpoint_sha256 key = e) \/ e ∈ analyzed) as [(x & -> & <-)|Ha]
      by (destruct outcome; cbn in He; set_solver).
    + exists key, x. auto.
    + apply Hc in Ha as (k & x & Hk & He'). exists k, x. split; [|done]. right. split; [|done].
      by intros ->; rewrite Hk in Hfresh.
  - intros (k & x & [[<- ->]|[_ Hk]] & He); cbn; [set_solver|].
    assert (e ∈ analyzed) by (apply Hc; eauto). destruct (is_executed outcome); set_solver.
Qed.
End Insert.

(** A recorded pair is counted. *)
Lemma core_with_execution key metrics c :
  coverage_core c -> cv_pair_outcomes c !! key = None ->
  pk_endpoint_sha256 key ∈ cv_admitted_endpoints c -> pk_rule_id key ∈ cv_enabled_rules c ->
  first_exceeded (cv_budget c) (resource_add (cv_resource_use c) (em_resource_delta metrics)) = None ->
  coverage_core (with_execution key metrics (resource_add (cv_resource_use c) (em_resource_delta metrics)) c).
Proof.
  intros Hc Hf He Hr Hx. pose proof (core_checks_small c Hc) as Hsmall. pose proof MAX_PAIRS_u64. destruct Hc.
  constructor; cbn; auto.
  - by apply in_scope_insert.
  - by apply considered_insert.
  - by apply (analyzed_insert _ _ (Executed metrics)).
  - intros r. rewrite map_sum_insert by done. cbn. by rewrite cc_skipped0.
  - rewrite cc_findings0. unfold count_findings, findings_total. cbn. rewrite !map_sum_insert by done.
    by rewrite !saturating_add_sat.
  - rewrite cc_resources0. unfold resource_add, resources_total. cbn. rewrite !map_sum_insert by done.
    by rewrite !saturating_add_sat.
  - fold (window_checks (cv_saturation_windows c)). rewrite map_sum_insert by done. cbn [weight].
    rewrite (saturating_add_small _ _ u64_max) by lia. lia.
  - destruct cc_widths0 as (_ & ? & ?). split_and!; auto. apply saturating_add_le.
Qed.

Lemma core_with_skip key reason c :
  coverage_core c -> cv_pair_outcomes c !! key = None ->
  pk_endpoint_sha256 key ∈ cv_admitted_endpoints c -> pk_rule_id key ∈ cv_enabled_rules c ->
  coverage_core (with_skip key reason c).
Proof.
  intros Hc Hf He Hr. pose proof (core_recorded c Hc) as Hrec. pose proof MAX_PAIRS_u64. destruct Hc.
  constructor; cbn; auto.
  - by apply in_scope_insert.
  - by apply considered_insert.
  - by apply (analyzed_insert _ _ (Skipped reason)).
  - intros r. rewrite map_sum_insert by done. cbn. destruct (decide (reason = r)) as [<-|Hne].
    + rewrite lookup_insert_eq. cbn. rewrite cc_skipped0.
      assert (map_sum (skip_weight reason) (cv_pair_outcomes c) <= map_len (cv_pair_outcomes c)) as Hb
        by (apply map_sum_bounded; intros []; cbn; [lia|case_decide; lia]).
      rewrite (saturating_add_small _ _ u64_max) by lia. lia.
    + rewrite lookup_insert_ne by done. by rewrite cc_skipped0.
  - rewrite cc_findings0. unfold findings_total. by rewrite !map_sum_insert by done.
  - rewrite cc_resources0. unfold resources_total. by rewrite !map_sum_insert by done.
  - rewrite map_sum_insert by done. done.
Qed.

Lemma window_checks_app l k : window_checks (l ++ k) = window_checks l + window_checks k.
Proof. induction l as [|w l IH]; cbn; [done|]. fold (window_checks (l ++ k)) (window_checks l). lia. Qed.

Lemma u128_mul_exact a b : a <= u64_max -> b <= u64_max -> u128_saturating_mul a b = a * b.
Proof.
  intros Ha Hb. unfold u128_saturating_mul. apply N.min_l. etransitivity; [apply N.mul_le_mono; [exact Ha|exact Hb]|].
  by vm_compute.
Qed.

Lemma close_saturation_window_ok c r c' :
  coverage_core c -> cv_current_window_checks c = sp_checks_per_window (cv_saturation_policy c) ->
  close_saturation_window c = (r, c') ->
  coverage_core c' /\ cv_stop_reason c' = cv_stop_reason c
  /\ (r <> Ok tt -> c' = c /\ len (cv_saturation_windows c) = cl_maximum_windows (cv_limits c)).
Proof.
  intros Hc Hw. unfold close_saturation_window. destruct (_ <=? _) eqn:El; intros [= <- <-]; bools.
  { split_and!; auto. intros _. split; [done|]. pose proof (cc_window_count c Hc). lia. }
  pose proof (core_checks_small c Hc). pose proof MAX_PAIRS_u64. destruct Hc. split_and!; auto; [|done].
  destruct cc_widths0 as (? & ? & ?). constructor; cbn -[window_checks]; auto.
  - rewrite window_checks_app. unfold window_checks at 2. cbn -[window_checks]. lia.
  - apply Forall_app. split; [done|]. repeat constructor; cbn; [done|..]; unfold low_yield; cbn;
      rewrite !u128_mul_exact by lia; [by intros ?%N.ltb_lt|by intros ?%N.ltb_lt].
  - rewrite len_app. unfold len in *. cbn. lia.
  - split_and!; auto. lia.
Qed.

Lemma execution_checks_ok endpoint rule metrics c key :
  execution_checks endpoint rule metrics c = Ok key ->
  cv_stop_reason c = None /\ key = {| pk_endpoint_sha256 := endpoint; pk_rule_id := rule |}
  /\ endpoint ∈ cv_admitted_endpoints c /\ rule ∈ cv_enabled_rules c /\ cv_pair_outcomes c !! key = None.
Proof.
  unfold execution_checks, ensure_running, validate_pair, pair_key_new, preflight_new_pair. intros H.
  destruct (cv_stop_reason c) as [|] eqn:Es; [done|]. repeat step_in H. simplify_eq. bools.
  split_and!; auto. apply eq_None_not_Some. done.
Qed.

Lemma record_execution_ok endpoint rule metrics c :
  coverage_ok c -> coverage_ok (record_execution endpoint rule metrics c).2.
Proof.
  intros [Hc Hs]. unfold record_execution.
  destruct (execution_checks _ _ _ _) as [key|] eqn:Ek; [|done].
  apply execution_checks_ok in Ek as (Hn & -> & He & Hr & Hf).
  destruct (first_exceeded _ _) as [reason|] eqn:Ex.
  { split; [by apply core_with_stop|]. apply stop_ok_with_stop; [..|by apply stop_ok_running];
      unfold first_exceeded in Ex; repeat step_in Ex; by simplify_eq. }
  match goal with |- context [with_execution ?k ?m ?u c] =>
    pose proof (core_with_execution k m c Hc Hf He Hr Ex) as Hc1; set (c1 := with_execution k m u c) in * end.
  assert (cv_stop_reason c1 = None) as Hn1 by done.
  destruct (if cv_current_window_checks c1 =? _ then _ else _) as [closed c2] eqn:Ew.
  assert (coverage_core c2 /\ cv_stop_reason c2 = None
    /\ (closed <> Ok tt -> c2 = c1)) as (Hc2 & Hn2 & Hclosed).
  { destruct (_ =? _) eqn:Eq in Ew; bools; [|by simplify_eq].
    destruct (close_saturation_window_ok c1 closed c2 Hc1 Eq Ew) as (? & ? & Hx). split_and!; auto; [congruence|].
    intros Hne. by apply Hx. }
  destruct closed as [[]|error].
  - destruct (evaluate_saturation_spec c2 Hc2 Hn2) as [[-> Hsat]|[-> Hsat]].
    + split; [by apply core_with_stop|]. by apply stop_ok_saturated.
    + split; [done|]. by apply running_stop_ok.
  - rewrite Hclosed by done. split; [done|]. by apply running_stop_ok, (stop_ok_running c).
Qed.

Lemma record_skip_ok endpoint rule reason c : coverage_ok c -> coverage_ok (record_skip endpoint rule reason c).2.
Proof.
  intros [Hc Hs]. unfold record_skip. destruct (let? _ := ensure_running c in _) as [key|] eqn:Ek; [|done].
  unfold ensure_running, validate_pair, pair_key_new, preflight_new_pair in Ek.
  destruct (cv_stop_reason c) as [|] eqn:Es; [done|]. repeat step_in Ek. simplify_eq. bools.
  split; [apply core_with_skip; auto; apply eq_None_not_Some; done|].
  by apply running_stop_ok, (stop_ok_running c).
Qed.

(** The scope grows within its limits. *)
Lemma core_with_scope endpoints rules c :
  coverage_core c -> cv_admitted_endpoints c ⊆ endpoints -> cv_enabled_rules c ⊆ rules ->
  set_len endpoints <= cl_maximum_endpoints (cv_limits c) -> set_len rules <= cl_maximum_rules (cv_limits c) ->
  set_len endpoints * set_len rules <= cl_maximum_recorded_pairs (cv_limits c) ->
  coverage_core (with_scope endpoints rules c).
Proof.
  intros [] He Hr H1 H2 H3. constructor; cbn -[window_checks]; auto.
  intros k o Hk. apply cc_scope0 in Hk as [? ?]. split; set_solver.
Qed.

Lemma preflight_theoretical_ok a b c :
  coverage_core c -> preflight_theoretical_pairs a b c = Ok tt -> a * b <= cl_maximum_recorded_pairs (cv_limits c).
Proof.
  intros Hc. unfold preflight_theoretical_pairs, saturating_mul. destruct (_ <? _) eqn:El; [done|]. intros _. bools.
  pose proof (cc_limits c Hc). pose proof MAX_PAIRS_u64. lia.
Qed.

Lemma ensure_running_ok c : ensure_running c = Ok tt -> cv_stop_reason c = None.
Proof. unfold ensure_running. by destruct (cv_stop_reason c). Qed.

(** A running tracker stays well stopped when only its scope changes. *)
Lemma stop_ok_with_scope endpoints rules c :
  cv_stop_reason c = None -> stop_ok c -> stop_ok (with_scope endpoints rules c).
Proof. intros Hn Hs. by apply running_stop_ok, (stop_ok_running c). Qed.

Lemma scope_limits_u64 : MAX_COVERAGE_ENDPOINTS < u64_max /\ MAX_COVERAGE_RULES < u64_max.
Proof. done. Qed.

Lemma admit_endpoint_ok e c : coverage_ok c -> coverage_ok (admit_endpoint e c).2.
Proof.
  intros [Hc Hs]. unfold admit_endpoint. destruct (admit_endpoint_checks e c) as [[]|] eqn:Ea; [|done..].
  unfold admit_endpoint_checks in Ea. repeat step_in Ea. simplify_eq. bools.
  repeat match goal with u : () |- _ => destruct u end.
  match goal with H : preflight_theoretical_pairs _ _ _ = _ |- _ =>
    apply (preflight_theoretical_ok _ _ _ Hc) in H; rename H into Hp end.
  pose proof (cc_bounds c Hc) as (H1 & H2 & H3). pose proof (cc_scope_limits c Hc) as [H4 _].
  pose proof scope_limits_u64 as [H5 _]. rewrite (saturating_add_small _ _ u64_max) in Hp by lia.
  split; [|apply stop_ok_with_scope; auto using ensure_running_ok].
  apply core_with_scope; auto; [set_solver|..]; rewrite set_len_insert by done; [lia|done].
Qed.

Lemma enable_rule_ok r c : coverage_ok c -> coverage_ok (enable_rule r c).2.
Proof.
  intros [Hc Hs]. unfold enable_rule. destruct (enable_rule_checks r c) as [[]|] eqn:Ea; [|done..].
  unfold enable_rule_checks in Ea. repeat step_in Ea. simplify_eq. bools.
  repeat match goal with u : () |- _ => destruct u end.
  match goal with H : preflight_theoretical_pairs _ _ _ = _ |- _ =>
    apply (preflight_theoretical_ok _ _ _ Hc) in H; rename H into Hp end.
  pose proof (cc_bounds c Hc) as (H1 & H2 & H3). pose proof (cc_scope_limits c Hc) as [_ H4].
  pose proof scope_limits_u64 as [_ H5]. rewrite (saturating_add_small _ _ u64_max) in Hp by lia.
  split; [|apply stop_ok_with_scope; auto using ensure_running_ok].
  apply core_with_scope; auto; [set_solver|..]; rewrite set_len_insert by done; [lia|done].
Qed.

Lemma set_queue_telemetry_ok t c : coverage_ok c -> coverage_ok (set_queue_telemetry t c).2.
Proof.
  intros [Hc Hs]. unfold set_queue_telemetry. destruct (ensure_running c) as [[]|] eqn:Er; [|done].
  apply ensure_running_ok in Er. apply (core_with_telemetry t) in Hc.
  destruct (evaluate_saturation_spec _ Hc Er) as [[-> Hsat]|[-> Hsat]].
  - split; [by apply core_with_stop|]. by apply stop_ok_saturated.
  - split; [done|]. by apply running_stop_ok.
Qed.

(** Completion is accepted exactly for a running tracker with every pair recorded. *)
Lemma mark_completed_spec c : coverage_core c ->
  (cv_stop_reason c = None /\ all_recorded c /\ queues_idle c /\ mark_completed c = (Ok tt, with_stop RsCompleted c))
  \/ (~ (cv_stop_reason c = None /\ all_recorded c /\ queues_idle c)
      /\ exists error, mark_completed c = (Err error, c)).
Proof.
  intros Hc. unfold mark_completed, ensure_running, theoretical_pairs, saturating_mul.
  pose proof (cc_bounds c Hc) as (_ & _ & Hp). pose proof (cc_limits c Hc). pose proof MAX_PAIRS_u64.
  rewrite N.min_l by lia. destruct (scope_bound _ _ _ (cc_scope c Hc)) as [_ Hall].
  destruct (cv_stop_reason c) as [r|] eqn:Er; [right; split; [naive_solver|eauto]|].
  unfold all_recorded, queues_idle. rewrite <- Hall. destruct (_ || _) eqn:Eb; [right; split; [|eauto]|left].
  - rewrite !orb_true_iff, !negb_true_iff in Eb. rewrite ?N.eqb_eq, ?N.eqb_neq in Eb. intros (_ & [? ?] & [? ?]). lia.
  - bools. split_and!; auto. lia.
Qed.

Lemma mark_completed_ok c : coverage_ok c -> coverage_ok (mark_completed c).2.
Proof.
  intros [Hc Hs]. destruct (mark_completed_spec c Hc) as [(Hn & Ha & Hq & ->)|(_ & e & ->)]; [|done].
  split; [by apply core_with_stop|]. apply stop_ok_with_stop; auto. by apply stop_ok_running.
Qed.

Lemma tracker_stop_ok c : coverage_ok c ->
  coverage_ok (tracker_cancel c).2 /\ coverage_ok (tracker_emergency_stop c).2.
Proof.
  intros [Hc Hs]. unfold tracker_cancel, tracker_emergency_stop.
  destruct (ensure_running c) as [[]|] eqn:Er; [|done]. apply ensure_running_ok, stop_ok_running in Er; [|done].
  split; (split; [by apply core_with_stop|by apply stop_ok_with_stop]).
Qed.

(** ** Histories *)

(** The trackers of a run, along every sequence of calls. *)
Inductive tracks (limits : CoverageLimits) (budget : CoverageResourceBudget) (policy : SaturationPolicy)
    : CoverageTracker -> Prop :=
  | tr_new c : tracker_new limits budget policy = Ok c -> tracks limits budget policy c
  | tr_admit e c : tracks limits budget policy c -> tracks limits budget policy (admit_endpoint e c).2
  | tr_enable r c : tracks limits budget policy c -> tracks limits budget policy (enable_rule r c).2
  | tr_telemetry t c : tracks limits budget policy c -> tracks limits budget policy (set_queue_telemetry t c).2
  | tr_execution e r m c :
      tracks limits budget policy c -> tracks limits budget policy (record_execution e r m c).2
  | tr_skip e r reason c :
      tracks limits budget policy c -> tracks limits budget policy (record_skip e r reason c).2
  | tr_completed c : tracks limits budget policy c -> tracks limits budget policy (mark_completed c).2
  | tr_cancel c : tracks limits budget policy c -> tracks limits budget policy (tracker_cancel c).2
  | tr_stop c : tracks limits budget policy c -> tracks limits budget policy (tracker_emergency_stop c).2.

(** The thresholds of a policy are [u64]. *)
Definition policy_widths (policy : SaturationPolicy) : Prop :=
  sp_yield_threshold_denominator policy <= u64_max /\ sp_yield_threshold_numerator policy <= u64_max.

Lemma tracker_new_ok limits budget policy c :
  policy_widths policy -> tracker_new limits budget policy = Ok c -> coverage_ok c.
Proof.
  intros [Hw1 Hw2] Hn. unfold tracker_new in Hn.
  destruct (coverage_limits_validate limits) as [l|] eqn:El; [|done].
  destruct (coverage_budget_validate budget) as [b|] eqn:Eb; [|done].
  destruct (saturation_policy_validate _ policy) as [q|] eqn:Ep; [|done]. injection Hn as <-.
  unfold coverage_limits_validate in El. destruct (_ || _) eqn:E1 in El; [done|]. simplify_eq. bools.
  unfold saturation_policy_validate in Ep. destruct (_ || _) eqn:E2 in Ep; [done|]. simplify_eq. bools.
  split.
  - constructor; cbn -[window_checks u64_max]; rewrite ?map_sum_empty; auto; try lia.
    + unfold set_len. rewrite size_empty. lia.
    + done.
    + set_solver.
    + set_solver.
    + unfold first_exceeded. cbn. by rewrite !(proj2 (N.ltb_ge _ 0)) by lia.
    + unfold len. cbn. lia.
  - apply running_stop_ok; [done|]. unfold saturated. cbn. intros (_ & _ & Hl & _). unfold len in Hl. cbn in Hl. lia.
Qed.

Lemma tracks_ok limits budget policy c : policy_widths policy -> tracks limits budget policy c -> coverage_ok c.
Proof.
  intros Hw. induction 1; eauto using tracker_new_ok, admit_endpoint_ok, enable_rule_ok, set_queue_telemetry_ok,
    record_execution_ok, record_skip_ok, mark_completed_ok; by apply tracker_stop_ok.
Qed.

(** ** Receipts *)

Definition all_skip_reasons : list PairSkipReason :=
  [NotApplicable; CapabilityDenied; MethodDenied; RateLimited; DependencyUnavailable; ResourceBudgetReached;
   PairCancelled; PairEmergencyStop].

(** The skips, summed over the reasons. *)
Definition skipped_sum (counts : gmap PairSkipReason N) : N :=
  foldr (fun r sum => default 0 (counts !! r) + sum) 0 all_skip_reasons.

Lemma skipped_sum_total c : coverage_core c ->
  map_sum (weight (fun _ => 1)) (cv_pair_outcomes c) + skipped_sum (cv_skipped_by_reason c)
  = map_len (cv_pair_outcomes c).
Proof.
  intros Hc. unfold skipped_sum. cbn. rewrite !(cc_skipped c Hc). rewrite <- map_sum_len, N.add_0_r.
  rewrite <- !map_sum_add. apply map_sum_ext. intros [m|[]]; reflexivity.
Qed.

Section Receipt.
Context {S : Sha256Lib} {JS : JsonLib (gset str)} {JP : JsonLib (list (PairKey * PairOutcome))}
  {JR : JsonLib CoverageReceipt}.
Context {TS : JsonTotal (gset str)} {TP : JsonTotal (list (PairKey * PairOutcome))} {TR : JsonTotal CoverageReceipt}.

Lemma coverage_hash_total {A} {JA : JsonLib A} {TA : JsonTotal A} (value : A) :
  exists h, coverage_hash value = Ok h.
Proof. unfold coverage_hash. destruct (to_vec_total value) as [b ->]. cbn. eauto. Qed.

Lemma coverage_receipt_total c :
  exists h1 h2 h3 h, coverage_receipt c = Ok (receipt_draft h1 h2 h3 h c)
    /\ coverage_receipt_verify (receipt_draft h1 h2 h3 h c) = Ok tt.
Proof.
  unfold coverage_receipt. destruct (coverage_hash_total (cv_admitted_endpoints c)) as [h1 ->].
  destruct (coverage_hash_total (cv_enabled_rules c)) as [h2 ->].
  destruct (coverage_hash_total (map_iter (cv_pair_outcomes c))) as [h3 ->].
  destruct (coverage_hash_total (receipt_draft h1 h2 h3 [] c)) as [h Hh]. rewrite Hh.
  exists h1, h2, h3, h. split; [done|]. unfold coverage_receipt_verify.
  change (receipt_material (receipt_draft h1 h2 h3 h c)) with (receipt_draft h1 h2 h3 [] c).
  rewrite Hh. cbn [receipt_draft cr_receipt_sha256]. by rewrite bool_decide_eq_true_2.
Qed.

(** A stopped run never changes again. *)
Definition halted (c : CoverageTracker) : Prop :=
  (forall e, admit_endpoint e c = (Err CvRunStopped, c)) /\ (forall r, enable_rule r c = (Err CvRunStopped, c))
  /\ (forall t, set_queue_telemetry t c = (Err CvRunStopped, c))
  /\ (forall e r m, record_execution e r m c = (Err CvRunStopped, c))
  /\ (forall e r reason, record_skip e r reason c = (Err CvRunStopped, c))
  /\ mark_completed c = (Err CvRunStopped, c) /\ tracker_cancel c = (Err CvRunStopped, c)
  /\ tracker_emergency_stop c = (Err CvRunStopped, c).

Lemma stopped_halted c reason : cv_stop_reason c = Some reason -> halted c.
Proof.
  intros Hs. assert (ensure_running c = Err CvRunStopped) as He by (unfold ensure_running; by rewrite Hs).
  unfold halted, admit_endpoint, admit_endpoint_checks, enable_rule, enable_rule_checks, set_queue_telemetry,
    record_execution, execution_checks, record_skip, mark_completed, tracker_cancel, tracker_emergency_stop.
  rewrite He. split_and!; done.
Qed.

End Receipt.

(** ** A small run *)

Definition toy_set_json : JsonLib (gset str) := {| to_vec s := Ok (decimal (N.of_nat (size s))) |}.
Definition toy_outcomes_json : JsonLib (list (PairKey * PairOutcome)) := {| to_vec l := Ok (decimal (len l)) |}.
Definition toy_coverage_receipt_json : JsonLib CoverageReceipt :=
  {| to_vec r := Ok (cr_endpoint_set_sha256 r ++ decimal (cr_executed_pairs r)) |}.

Definition small_limits : CoverageLimits :=
  {| cl_maximum_endpoints := 4; cl_maximum_rules := 4; cl_maximum_recorded_pairs := 8; cl_maximum_windows := 1 |}.
Definition small_budget : CoverageResourceBudget :=
  {| rb_memory_budget_bytes := 100; rb_evidence_budget_bytes := 100; rb_disk_budget_bytes := 100;
     rb_request_budget := 100; rb_time_budget_milliseconds := 100 |}.
Definition small_policy : SaturationPolicy :=
  {| sp_checks_per_window := 1; sp_minimum_completed_checks := 1; sp_required_consecutive_low_yield_windows := 1;
     sp_yield_threshold_numerator := 1; sp_yield_threshold_denominator := 2 |}.
Definition check_metrics (unique : N) : ExecutionMetrics :=
  {| em_unique_findings := unique; em_duplicate_findings := 0; em_validated_findings := 0;
     em_rejected_findings := 0; em_inconclusive_findings := 0;
     em_resource_delta := {| ru_accounted_memory_bytes := 1; ru_evidence_bytes := 1; ru_disk_bytes := 1;
                             ru_requests := 1; ru_elapsed_milliseconds := 1 |} |}.
Definition endpoint_of (c : byte) : str := replicate 64 c.
Definition empty_tracker : CoverageTracker :=
  {| cv_limits := small_limits; cv_budget := small_budget; cv_saturation_policy := small_policy;
     cv_admitted_endpoints := ∅; cv_considered_endpoints := ∅; cv_analyzed_endpoints := ∅;
     cv_enabled_rules := ∅; cv_pair_outcomes := ∅; cv_skipped_by_reason := ∅;
     cv_findings := {| fc_unique := 0; fc_duplicate := 0; fc_validated := 0; fc_rejected := 0; fc_inconclusive := 0 |};
     cv_resource_use := resource_default;
     cv_queue_telemetry := {| qt_high_priority_unexplored_pairs := 0; qt_validation_queue := 0; qt_cleanup_queue := 0 |};
     cv_saturation_windows := []; cv_current_window_checks := 0; cv_current_window_unique_findings := 0;
     cv_stop_reason := None |}.
(** Two endpoints and one rule, one finding at the first. *)
Definition explored_tracker : CoverageTracker :=
  (record_execution (endpoint_of "a") "rule" (check_metrics 1)
     (enable_rule "rule" (admit_endpoint (endpoint_of "b") (admit_endpoint (endpoint_of "a") empty_tracker).2).2).2).2.

Lemma explored_tracks : tracks small_limits small_budget small_policy explored_tracker.
Proof. apply tr_execution, tr_enable, tr_admit, tr_admit, tr_new. vm_compute. reflexivity. Qed.


(** ** Unintended behaviours *)

(** When the windows are used up, an execution is recorded and yet refused; and since
    the open window is then past its size, no window is ever closed again: later
    executions are accepted and the run can never become saturated. *)
Lemma exhausted_windows_stay_open :
  let second := record_execution (endpoint_of "b") "rule" (check_metrics 0) explored_tracker in
  let third := record_execution (endpoint_of "a") "rule-2" (check_metrics 0) (enable_rule "rule-2" second.2).2 in
  second.1 = Err (CvInvalidConfig "saturation window budget was exhausted")
  /\ is_Some (cv_pair_outcomes second.2 !! {| pk_endpoint_sha256 := endpoint_of "b"; pk_rule_id := "rule" |})
  /\ third.1 = Ok tt /\ len (cv_saturation_windows third.2) = 1 /\ cv_current_window_checks third.2 = 2.
Proof. vm_compute. split_and!; eauto. Qed.
