(* ===== verification/Scheduler.v ===== *)
(** * The adaptive scheduler ([crates/nxb-passive-analyzers], [adaptive_scheduler])

    Authorised work items are queued per endpoint-rule pair, ranked by what their rule
    has found so far and at what cost, and leased one at a time within reservations
    and authorisation times. *)

From S2P Require Import Prelude ByteStr BTree HashChain Validation Coverage.
Local Open Scope N_scope.

(** ** Model *)

Definition SCHEDULER_SCORE_SCALE : N := 1000000000.
Definition MAX_SCHEDULER_RULES : N := 100000.
Definition MAX_SCHEDULER_PAIRS : N := 10000000.
Definition MAX_SCHEDULER_IN_FLIGHT : N := 1000000.
Definition MAX_RULE_WEIGHT : N := 10000.
Definition MAX_ITEM_COST : N := 1000000000000.
Definition MAX_LEASE_SECONDS : Z := 86400.

Inductive SchedulerError : Type :=
  | SeInvalidConfig (message : str)
  | SeInvalidInput (message : str)
  | SeRuleUnknown
  | SePairDuplicate
  | SeQueueBudget
  | SeRequestReservationBudget
  | SeMutationReservationBudget
  | SeInFlightBudget
  | SeAuthorizationExpired
  | SeRunStopped (reason : RunStopReason)
  | SeNoWork
  | SeLeaseUnknown
  | SeLeaseExpired
  | SeMetricMismatch
  | SeSerialization (message : str)
  | SeReceiptDigest.

Inductive WorkFailureReason : Type :=
  | WfCapabilityDenied | WfResourceDenied | WfDependencyUnavailable | WfCancelled | WfEmergencyStop.

Record SchedulerLimits : Type := {
  sl_maximum_rules : N;
  sl_maximum_known_pairs : N;
  sl_maximum_queued_pairs : N;
  sl_maximum_in_flight : N;
  sl_maximum_outstanding_request_reservations : N;
  sl_maximum_outstanding_mutation_reservations : N;
  sl_lease_seconds : Z
}.

Record RuleProfile : Type := {
  rp_rule_id : str;
  rp_severity_weight : N;
  rp_confidence_weight : N;
  rp_base_priority_weight : N;
  rp_minimum_cost_units : N
}.

#[export] Instance RuleProfile_eq_dec : EqDecision RuleProfile.
Proof. solve_decision. Defined.

Record RuleMetrics : Type := {
  rm_completed_checks : N;
  rm_unique_findings : N;
  rm_duplicate_findings : N;
  rm_validated_findings : N;
  rm_rejected_findings : N;
  rm_inconclusive_findings : N;
  rm_requests : N;
  rm_evidence_bytes : N;
  rm_elapsed_milliseconds : N;
  rm_cost_units : N
}.

Record RuleObservation : Type := {
  ro_unique_findings : N;
  ro_duplicate_findings : N;
  ro_validated_findings : N;
  ro_rejected_findings : N;
  ro_inconclusive_findings : N;
  ro_requests : N;
  ro_evidence_bytes : N;
  ro_elapsed_milliseconds : N;
  ro_cost_units : N
}.

Record AuthorizedWorkItem : Type := {
  wi_pair : PairKey;
  wi_plan_sha256 : str;
  wi_capability_sha256 : str;
  wi_authorization_sha256 : str;
  wi_authorization_expires_at_epoch_seconds : Z;
  wi_estimated_requests : N;
  wi_estimated_mutations : N;
  wi_estimated_cost_units : N;
  wi_item_priority_weight : N
}.

Record RuleScore : Type := {
  sc_fixed_point_score : N;
  sc_useful_reward_units : N;
  sc_penalty_units : N;
  sc_accounted_cost_units : N;
  sc_exploration_numerator : N;
  sc_exploration_denominator : N
}.

Record RankedWorkItem : Type := {
  rw_pair : PairKey;
  rw_score : RuleScore;
  rw_authorization_sha256 : str
}.

Record ScheduleLease : Type := {
  sle_lease_id : str;
  sle_pair : PairKey;
  sle_plan_sha256 : str;
  sle_capability_sha256 : str;
  sle_authorization_sha256 : str;
  sle_score : RuleScore;
  sle_issued_at_epoch_seconds : Z;
  sle_expires_at_epoch_seconds : Z
}.

Record SchedulerLeaseState : Type := {
  sls_item : AuthorizedWorkItem;
  sls_score : RuleScore;
  sls_expires_at_epoch_seconds : Z
}.

Record SchedulerReceipt : Type := {
  sr_registered_rules : N;
  sr_known_pairs : N;
  sr_queued_pairs : N;
  sr_in_flight_pairs : N;
  sr_completed_pairs : N;
  sr_failed_pairs : N;
  sr_expired_authorizations : N;
  sr_outstanding_request_reservations : N;
  sr_outstanding_mutation_reservations : N;
  sr_stop_reason : option RunStopReason;
  sr_profiles_sha256 : str;
  sr_metrics_sha256 : str;
  sr_queue_sha256 : str;
  sr_in_flight_sha256 : str;
  sr_terminal_pairs_sha256 : str;
  sr_receipt_sha256 : str
}.

Record AdaptiveRuleScheduler : Type := {
  as_limits : SchedulerLimits;
  as_profiles : gmap str RuleProfile;
  as_metrics : gmap str RuleMetrics;
  as_queued : gmap PairKey AuthorizedWorkItem;
  as_in_flight : gmap str SchedulerLeaseState;
  as_known_pairs : gset PairKey;
  as_completed_pairs : gset PairKey;
  as_failed_pairs : gmap PairKey WorkFailureReason;
  as_expired_pairs : gset PairKey;
  as_outstanding_request_reservations : N;
  as_outstanding_mutation_reservations : N;
  as_next_lease_sequence : N;
  as_stop_reason : option RunStopReason
}.

(** The tuples that are serialised for hashing. *)
Definition LeaseTuple : Type := N * PairKey * str * Z * Z.
Definition QueueMaterial : Type := list (PairKey * AuthorizedWorkItem).
Definition InFlightMaterial : Type := list (str * AuthorizedWorkItem * RuleScore * Z).
Definition TerminalMaterial : Type := gset PairKey * list (PairKey * WorkFailureReason) * gset PairKey.

(** ** Validation *)

Definition adaptive_limits_validate (self : SchedulerLimits) : Result SchedulerLimits SchedulerError :=
  if (sl_maximum_rules self =? 0) || (MAX_SCHEDULER_RULES <? sl_maximum_rules self)
     || (sl_maximum_known_pairs self =? 0) || (MAX_SCHEDULER_PAIRS <? sl_maximum_known_pairs self)
     || (sl_maximum_queued_pairs self =? 0) || (sl_maximum_known_pairs self <? sl_maximum_queued_pairs self)
     || (sl_maximum_in_flight self =? 0) || (MAX_SCHEDULER_IN_FLIGHT <? sl_maximum_in_flight self)
     || (sl_maximum_outstanding_request_reservations self =? 0)
     || (sl_maximum_outstanding_mutation_reservations self =? 0)
     || (sl_lease_seconds self <=? 0)%Z || (MAX_LEASE_SECONDS <? sl_lease_seconds self)%Z
  then Err (SeInvalidConfig "one or more scheduler limits are outside policy")
  else Ok self.

Definition validate_scheduler_sha256 (value name : str) : Result unit SchedulerError :=
  if negb (is_lower_hex_sha256 value) then Err (SeInvalidInput name) else Ok tt.

Definition validate_scheduler_rule_id (value : str) : Result unit SchedulerError :=
  if bool_decide (value = []) || (192 <? len value) || negb (forallb is_identifier_byte value)
  then Err (SeInvalidInput "rule_id") else Ok tt.

Definition rule_profile_validate (self : RuleProfile) : Result unit SchedulerError :=
  let? _ := validate_scheduler_rule_id (rp_rule_id self) in
  if (rp_severity_weight self =? 0) || (MAX_RULE_WEIGHT <? rp_severity_weight self)
     || (rp_confidence_weight self =? 0) || (MAX_RULE_WEIGHT <? rp_confidence_weight self)
     || (rp_base_priority_weight self =? 0) || (MAX_RULE_WEIGHT <? rp_base_priority_weight self)
     || (rp_minimum_cost_units self =? 0) || (MAX_ITEM_COST <? rp_minimum_cost_units self)
  then Err (SeInvalidInput "rule profile bounds") else Ok tt.

Definition rule_observation_validate (self : RuleObservation) : Result RuleObservation SchedulerError :=
  let classified := saturating_add (saturating_add (ro_validated_findings self) (ro_rejected_findings self))
                      (ro_inconclusive_findings self) in
  if (ro_unique_findings self <? classified) || (ro_requests self =? 0) || (ro_cost_units self =? 0)
     || (MAX_ITEM_COST <? ro_cost_units self)
  then Err SeMetricMismatch else Ok self.

Definition rule_metrics_default : RuleMetrics :=
  {| rm_completed_checks := 0; rm_unique_findings := 0; rm_duplicate_findings := 0;
     rm_validated_findings := 0; rm_rejected_findings := 0; rm_inconclusive_findings := 0;
     rm_requests := 0; rm_evidence_bytes := 0; rm_elapsed_milliseconds := 0; rm_cost_units := 0 |}.

Definition metrics_apply (observation : RuleObservation) (self : RuleMetrics) : RuleMetrics :=
  {| rm_completed_checks := saturating_add (rm_completed_checks self) 1;
     rm_unique_findings := saturating_add (rm_unique_findings self) (ro_unique_findings observation);
     rm_duplicate_findings := saturating_add (rm_duplicate_findings self) (ro_duplicate_findings observation);
     rm_validated_findings := saturating_add (rm_validated_findings self) (ro_validated_findings observation);
     rm_rejected_findings := saturating_add (rm_rejected_findings self) (ro_rejected_findings observation);
     rm_inconclusive_findings :=
       saturating_add (rm_inconclusive_findings self) (ro_inconclusive_findings observation);
     rm_requests := saturating_add (rm_requests self) (ro_requests observation);
     rm_evidence_bytes := saturating_add (rm_evidence_bytes self) (ro_evidence_bytes observation);
     rm_elapsed_milliseconds :=
       saturating_add (rm_elapsed_milliseconds self) (ro_elapsed_milliseconds observation);
     rm_cost_units := saturating_add (rm_cost_units self) (ro_cost_units observation) |}.

Definition authorized_item_validate (self : AuthorizedWorkItem) : Result unit SchedulerError :=
  let? _ := validate_scheduler_sha256 (wi_plan_sha256 self) "plan_sha256" in
  let? _ := validate_scheduler_sha256 (wi_capability_sha256 self) "capability_sha256" in
  let? _ := validate_scheduler_sha256 (wi_authorization_sha256 self) "authorization_sha256" in
  if (wi_authorization_expires_at_epoch_seconds self <=? 0)%Z || (wi_estimated_requests self =? 0)
     || (MAX_ITEM_COST <? wi_estimated_requests self) || (MAX_ITEM_COST <? wi_estimated_mutations self)
     || (wi_estimated_cost_units self =? 0) || (MAX_ITEM_COST <? wi_estimated_cost_units self)
     || (wi_item_priority_weight self =? 0) || (MAX_RULE_WEIGHT <? wi_item_priority_weight self)
  then Err (SeInvalidInput "work item bounds") else Ok tt.

(** ** The scheduler with changed fields *)

Definition with_rules (profiles : gmap str RuleProfile) (metrics : gmap str RuleMetrics)
    (self : AdaptiveRuleScheduler) : AdaptiveRuleScheduler :=
  {| as_limits := as_limits self; as_profiles := profiles; as_metrics := metrics;
     as_queued := as_queued self; as_in_flight := as_in_flight self; as_known_pairs := as_known_pairs self;
     as_completed_pairs := as_completed_pairs self; as_failed_pairs := as_failed_pairs self;
     as_expired_pairs := as_expired_pairs self;
     as_outstanding_request_reservations := as_outstanding_request_reservations self;
     as_outstanding_mutation_reservations := as_outstanding_mutation_reservations self;
     as_next_lease_sequence := as_next_lease_sequence self; as_stop_reason := as_stop_reason self |}.

Definition with_queue (queued : gmap PairKey AuthorizedWorkItem) (in_flight : gmap str SchedulerLeaseState)
    (self : AdaptiveRuleScheduler) : AdaptiveRuleScheduler :=
  {| as_limits := as_limits self; as_profiles := as_profiles self; as_metrics := as_metrics self;
     as_queued := queued; as_in_flight := in_flight; as_known_pairs := as_known_pairs self;
     as_completed_pairs := as_completed_pairs self; as_failed_pairs := as_failed_pairs self;
     as_expired_pairs := as_expired_pairs self;
     as_outstanding_request_reservations := as_outstanding_request_reservations self;
     as_outstanding_mutation_reservations := as_outstanding_mutation_reservations self;
     as_next_lease_sequence := as_next_lease_sequence self; as_stop_reason := as_stop_reason self |}.

Definition with_terminal (completed : gset PairKey) (failed : gmap PairKey WorkFailureReason)
    (expired : gset PairKey) (self : AdaptiveRuleScheduler) : AdaptiveRuleScheduler :=
  {| as_limits := as_limits self; as_profiles := as_profiles self; as_metrics := as_metrics self;
     as_queued := as_queued self; as_in_flight := as_in_flight self; as_known_pairs := as_known_pairs self;
     as_completed_pairs := completed; as_failed_pairs := failed; as_expired_pairs := expired;
     as_outstanding_request_reservations := as_outstanding_request_reservations self;
     as_outstanding_mutation_reservations := as_outstanding_mutation_reservations self;
     as_next_lease_sequence := as_next_lease_sequence self; as_stop_reason := as_stop_reason self |}.

Definition with_reservations (known : gset PairKey) (requests mutations : N) (self : AdaptiveRuleScheduler)
    : AdaptiveRuleScheduler :=
  {| as_limits := as_limits self; as_profiles := as_profiles self; as_metrics := as_metrics self;
     as_queued := as_queued self; as_in_flight := as_in_flight self; as_known_pairs := known;
     as_completed_pairs := as_completed_pairs self; as_failed_pairs := as_failed_pairs self;
     as_expired_pairs := as_expired_pairs self; as_outstanding_request_reservations := requests;
     as_outstanding_mutation_reservations := mutations;
     as_next_lease_sequence := as_next_lease_sequence self; as_stop_reason := as_stop_reason self |}.

Definition with_sequence (sequence : N) (stop : option RunStopReason) (self : AdaptiveRuleScheduler)
    : AdaptiveRuleScheduler :=
  {| as_limits := as_limits self; as_profiles := as_profiles self; as_metrics := as_metrics self;
     as_queued := as_queued self; as_in_flight := as_in_flight self; as_known_pairs := as_known_pairs self;
     as_completed_pairs := as_completed_pairs self; as_failed_pairs := as_failed_pairs self;
     as_expired_pairs := as_expired_pairs self;
     as_outstanding_request_reservations := as_outstanding_request_reservations self;
     as_outstanding_mutation_reservations := as_outstanding_mutation_reservations self;
     as_next_lease_sequence := sequence; as_stop_reason := stop |}.

(** ** Operations *)

Definition scheduler_new (limits : SchedulerLimits) : Result AdaptiveRuleScheduler SchedulerError :=
  let? limits := adaptive_limits_validate limits in
  Ok {| as_limits := limits; as_profiles := ∅; as_metrics := ∅; as_queued := ∅; as_in_flight := ∅;
        as_known_pairs := ∅; as_completed_pairs := ∅; as_failed_pairs := ∅; as_expired_pairs := ∅;
        as_outstanding_request_reservations := 0; as_outstanding_mutation_reservations := 0;
        as_next_lease_sequence := 1; as_stop_reason := None |}.

Definition scheduler_running (self : AdaptiveRuleScheduler) : Result unit SchedulerError :=
  match as_stop_reason self with Some reason => Err (SeRunStopped reason) | None => Ok tt end.

Definition register_rule (profile : RuleProfile) (self : AdaptiveRuleScheduler)
    : Result bool SchedulerError * AdaptiveRuleScheduler :=
  match (let? _ := scheduler_running self in rule_profile_validate profile) with
  | Err error => (Err error, self)
  | Ok _ =>
      match as_profiles self !! rp_rule_id profile with
      | Some existing =>
          if bool_decide (existing = profile) then (Ok false, self)
          else (Err (SeInvalidInput "rule profile cannot change after registration"), self)
      | None =>
          if sl_maximum_rules (as_limits self) <=? map_len (as_profiles self) then (Err SeQueueBudget, self)
          else (Ok true, with_rules (<[rp_rule_id profile := profile]> (as_profiles self))
                           (<[rp_rule_id profile := rule_metrics_default]> (as_metrics self)) self)
      end
  end.

(** The checks of [enqueue]: the reservations after it. *)
Definition enqueue_checks (item : AuthorizedWorkItem) (now_epoch_seconds : Z) (self : AdaptiveRuleScheduler)
    : Result (N * N) SchedulerError :=
  let limits := as_limits self in
  let? _ := scheduler_running self in
  let? _ := authorized_item_validate item in
  if negb (bool_decide (is_Some (as_profiles self !! pk_rule_id (wi_pair item)))) then Err SeRuleUnknown
  else if (wi_authorization_expires_at_epoch_seconds item <=? now_epoch_seconds)%Z
  then Err SeAuthorizationExpired
  else if bool_decide (wi_pair item ∈ as_known_pairs self) then Err SePairDuplicate
  else if (sl_maximum_known_pairs limits <=? set_len (as_known_pairs self))
          || (sl_maximum_queued_pairs limits <=? map_len (as_queued self))
  then Err SeQueueBudget
  else
  let next_requests := saturating_add (as_outstanding_request_reservations self) (wi_estimated_requests item) in
  if sl_maximum_outstanding_request_reservations limits <? next_requests
  then Err SeRequestReservationBudget
  else
  let next_mutations :=
    saturating_add (as_outstanding_mutation_reservations self) (wi_estimated_mutations item) in
  if sl_maximum_outstanding_mutation_reservations limits <? next_mutations
  then Err SeMutationReservationBudget
  else Ok (next_requests, next_mutations).

Definition enqueue_work (item : AuthorizedWorkItem) (now_epoch_seconds : Z) (self : AdaptiveRuleScheduler)
    : Result unit SchedulerError * AdaptiveRuleScheduler :=
  match enqueue_checks item now_epoch_seconds self with
  | Err error => (Err error, self)
  | Ok (next_requests, next_mutations) =>
      (Ok tt, with_queue (<[wi_pair item := item]> (as_queued self)) (as_in_flight self)
                (with_reservations ({[wi_pair item]} ∪ as_known_pairs self) next_requests next_mutations self))
  end.

Definition score_item (item : AuthorizedWorkItem) (self : AdaptiveRuleScheduler)
    : Result RuleScore SchedulerError :=
  match as_profiles self !! pk_rule_id (wi_pair item) with
  | None => Err SeRuleUnknown
  | Some profile =>
      let metrics := default rule_metrics_default (as_metrics self !! pk_rule_id (wi_pair item)) in
      let classified :=
        saturating_add (saturating_add (rm_validated_findings metrics) (rm_rejected_findings metrics))
          (rm_inconclusive_findings metrics) in
      let unclassified := rm_unique_findings metrics - classified in
      let useful_reward_units :=
        saturating_add (saturating_add (saturating_add 1 (saturating_mul (rm_validated_findings metrics) 4))
          (saturating_mul unclassified 2)) (rm_inconclusive_findings metrics) in
      let penalty_units :=
        saturating_add (saturating_add 1 (saturating_mul (rm_rejected_findings metrics) 4))
          (rm_duplicate_findings metrics) in
      let accounted_cost_units :=
        saturating_add (saturating_add (rp_minimum_cost_units profile) (rm_cost_units metrics))
          (wi_estimated_cost_units item) in
      let exploration_numerator := saturating_add (rm_completed_checks metrics) 4 in
      let exploration_denominator := saturating_add (rm_completed_checks metrics) 1 in
      let numerator :=
        u128_saturating_mul
          (u128_saturating_mul
            (u128_saturating_mul
              (u128_saturating_mul
                (u128_saturating_mul
                  (u128_saturating_mul useful_reward_units (rp_severity_weight profile))
                  (rp_confidence_weight profile))
                (rp_base_priority_weight profile))
              (wi_item_priority_weight item))
            exploration_numerator)
          SCHEDULER_SCORE_SCALE in
      let denominator :=
        u128_saturating_mul (u128_saturating_mul penalty_units (N.max accounted_cost_units 1))
          exploration_denominator in
      let fixed := numerator / N.max denominator 1 in
      Ok {| sc_fixed_point_score := N.min fixed u64_max; sc_useful_reward_units := useful_reward_units;
            sc_penalty_units := penalty_units; sc_accounted_cost_units := accounted_cost_units;
            sc_exploration_numerator := exploration_numerator;
            sc_exploration_denominator := exploration_denominator |}
  end.

(** The order of the ranking: by descending score, then pair, then authorisation. *)
Definition rank_leb (left right : RankedWorkItem) : bool :=
  let l := sc_fixed_point_score (rw_score left) in
  let r := sc_fixed_point_score (rw_score right) in
  if r <? l then true
  else if l <? r then false
  else ord_leb (rw_pair left, rw_authorization_sha256 left) (rw_pair right, rw_authorization_sha256 right).
Definition rank_le (left right : RankedWorkItem) : Prop := rank_leb left right = true.
#[export] Instance rank_le_dec left right : Decision (rank_le left right).
Proof. unfold rank_le. apply _. Defined.

Definition rank_item (self : AdaptiveRuleScheduler) (item : AuthorizedWorkItem)
    : Result RankedWorkItem SchedulerError :=
  let? score := score_item item self in
  Ok {| rw_pair := wi_pair item; rw_score := score; rw_authorization_sha256 := wi_authorization_sha256 item |}.

Definition is_current (now_epoch_seconds : Z) (item : AuthorizedWorkItem) : bool :=
  (now_epoch_seconds <? wi_authorization_expires_at_epoch_seconds item)%Z.

Definition ranking_snapshot (now_epoch_seconds : Z) (self : AdaptiveRuleScheduler)
    : Result (list RankedWorkItem) SchedulerError :=
  let? _ := scheduler_running self in
  let? ranked := collect_results (rank_item self)
                   (List.filter (is_current now_epoch_seconds) (map_values (as_queued self))) in
  Ok (merge_sort rank_le ranked).

Definition release_reservations (item : AuthorizedWorkItem) (self : AdaptiveRuleScheduler)
    : AdaptiveRuleScheduler :=
  with_reservations (as_known_pairs self)
    (as_outstanding_request_reservations self - wi_estimated_requests item)
    (as_outstanding_mutation_reservations self - wi_estimated_mutations item) self.

(** [self.release_reservations(&item); self.expired_pairs.insert(item.pair);] *)
Definition retire_item (item : AuthorizedWorkItem) (self : AdaptiveRuleScheduler) : AdaptiveRuleScheduler :=
  let self := release_reservations item self in
  with_terminal (as_completed_pairs self) (as_failed_pairs self)
    ({[wi_pair item]} ∪ as_expired_pairs self) self.

(** The loop over the expired pairs. *)
Fixpoint expire_pairs (pairs : list PairKey) (self : AdaptiveRuleScheduler) : AdaptiveRuleScheduler :=
  match pairs with
  | [] => self
  | key :: rest =>
      expire_pairs rest
        match as_queued self !! key with
        | None => self
        | Some item =>
            let self := release_reservations item (with_queue (delete key (as_queued self)) (as_in_flight self) self) in
            with_terminal (as_completed_pairs self) (as_failed_pairs self) ({[key]} ∪ as_expired_pairs self) self
        end
  end.

Definition expire_authorizations (now_epoch_seconds : Z) (self : AdaptiveRuleScheduler)
    : list PairKey * AdaptiveRuleScheduler :=
  let expired := (List.filter (fun kv : PairKey * AuthorizedWorkItem => negb (is_current now_epoch_seconds kv.2))
                    (map_iter (as_queued self))).*1 in
  (expired, expire_pairs expired self).

(** The loop over the expired leases. *)
Fixpoint expire_flights (lease_ids : list str) (self : AdaptiveRuleScheduler) : AdaptiveRuleScheduler :=
  match lease_ids with
  | [] => self
  | lease_id :: rest =>
      expire_flights rest
        match as_in_flight self !! lease_id with
        | None => self
        | Some state =>
            retire_item (sls_item state) (with_queue (as_queued self) (delete lease_id (as_in_flight self)) self)
        end
  end.

Definition expire_leases (now_epoch_seconds : Z) (self : AdaptiveRuleScheduler)
    : list str * AdaptiveRuleScheduler :=
  let expired :=
    (List.filter (fun kv : str * SchedulerLeaseState => (sls_expires_at_epoch_seconds kv.2 <=? now_epoch_seconds)%Z)
       (map_iter (as_in_flight self))).*1 in
  (expired, expire_flights expired self).

Section Scheduler.
Context {S : Sha256Lib} {JL : JsonLib LeaseTuple} {JPr : JsonLib (gmap str RuleProfile)}
  {JMe : JsonLib (gmap str RuleMetrics)} {JQ : JsonLib QueueMaterial} {JF : JsonLib InFlightMaterial}
  {JT : JsonLib TerminalMaterial} {JR : JsonLib SchedulerReceipt}.

Definition scheduler_hash {A} {JA : JsonLib A} (value : A) : Result str SchedulerError :=
  let? bytes := map_err SeSerialization (to_vec value) in Ok (to_lower_hex (sha256 bytes)).

(** The lease of an item that was taken from the queue. *)
Definition grant_lease (item : AuthorizedWorkItem) (score : RuleScore) (now expires : Z)
    (self : AdaptiveRuleScheduler) : Run (Result ScheduleLease SchedulerError * AdaptiveRuleScheduler) :=
  let sequence := as_next_lease_sequence self in
  let self := with_sequence (saturating_add sequence 1) (as_stop_reason self) self in
  match scheduler_hash ((sequence, wi_pair item, wi_authorization_sha256 item, now, expires) : LeaseTuple) with
  | Err error => Done (Err error, self)
  | Ok lease_hash =>
      let! suffix := str_prefix 16 lease_hash in
      let lease_id := ("lease-" : str) ++ decimal020 sequence ++ ("-" : str) ++ suffix in
      let state := {| sls_item := item; sls_score := score; sls_expires_at_epoch_seconds := expires |} in
      Done (Ok {| sle_lease_id := lease_id; sle_pair := wi_pair item; sle_plan_sha256 := wi_plan_sha256 item;
                  sle_capability_sha256 := wi_capability_sha256 item;
                  sle_authorization_sha256 := wi_authorization_sha256 item; sle_score := score;
                  sle_issued_at_epoch_seconds := now; sle_expires_at_epoch_seconds := expires |},
            with_queue (as_queued self) (<[lease_id := state]> (as_in_flight self)) self)
  end.

Definition schedule_next (now_epoch_seconds : Z) (self : AdaptiveRuleScheduler)
    : Run (Result ScheduleLease SchedulerError * AdaptiveRuleScheduler) :=
  match scheduler_running self with
  | Err error => Done (Err error, self)
  | Ok _ =>
      let self := (expire_authorizations now_epoch_seconds self).2 in
      let self := (expire_leases now_epoch_seconds self).2 in
      if sl_maximum_in_flight (as_limits self) <=? map_len (as_in_flight self)
      then Done (Err SeInFlightBudget, self)
      else match ranking_snapshot now_epoch_seconds self with
      | Err error => Done (Err error, self)
      | Ok [] => Done (Err SeNoWork, self)
      | Ok (selected :: _) =>
          match as_queued self !! rw_pair selected with
          | None => Done (Err SeNoWork, self)
          | Some item =>
              let self := with_queue (delete (rw_pair selected) (as_queued self)) (as_in_flight self) self in
              let expires := Z.min (wi_authorization_expires_at_epoch_seconds item)
                (i64_saturating_add now_epoch_seconds (sl_lease_seconds (as_limits self))) in
              if (expires <=? now_epoch_seconds)%Z
              then Done (Err SeAuthorizationExpired, retire_item item self)
              else grant_lease item (rw_score selected) now_epoch_seconds expires self
          end
      end
  end.

Definition complete_lease (lease_id : str) (observation : RuleObservation) (now_epoch_seconds : Z)
    (self : AdaptiveRuleScheduler) : Result unit SchedulerError * AdaptiveRuleScheduler :=
  match (let? _ := scheduler_running self in rule_observation_validate observation) with
  | Err error => (Err error, self)
  | Ok observation =>
      match as_in_flight self !! lease_id with
      | None => (Err SeLeaseUnknown, self)
      | Some state =>
          let self := with_queue (as_queued self) (delete lease_id (as_in_flight self)) self in
          if (sls_expires_at_epoch_seconds state <=? now_epoch_seconds)%Z
          then (Err SeLeaseExpired, retire_item (sls_item state) self)
          else
            let self := release_reservations (sls_item state) self in
            let rule_id := pk_rule_id (wi_pair (sls_item state)) in
            match as_metrics self !! rule_id with
            | None => (Err SeRuleUnknown, self)
            | Some metrics =>
                let self := with_rules (as_profiles self)
                              (<[rule_id := metrics_apply observation metrics]> (as_metrics self)) self in
                (Ok tt, with_terminal ({[wi_pair (sls_item state)]} ∪ as_completed_pairs self)
                          (as_failed_pairs self) (as_expired_pairs self) self)
            end
      end
  end.

Definition fail_lease (lease_id : str) (reason : WorkFailureReason) (now_epoch_seconds : Z)
    (self : AdaptiveRuleScheduler) : Result unit SchedulerError * AdaptiveRuleScheduler :=
  match scheduler_running self with
  | Err error => (Err error, self)
  | Ok _ =>
      match as_in_flight self !! lease_id with
      | None => (Err SeLeaseUnknown, self)
      | Some state =>
          let self := with_queue (as_queued self) (delete lease_id (as_in_flight self)) self in
          if (sls_expires_at_epoch_seconds state <=? now_epoch_seconds)%Z
          then (Err SeLeaseExpired, retire_item (sls_item state) self)
          else
            let self := release_reservations (sls_item state) self in
            (Ok tt, with_terminal (as_completed_pairs self)
                      (<[wi_pair (sls_item state) := reason]> (as_failed_pairs self)) (as_expired_pairs self) self)
      end
  end.

Definition apply_run_stop (reason : RunStopReason) (self : AdaptiveRuleScheduler)
    : Result unit SchedulerError * AdaptiveRuleScheduler :=
  match scheduler_running self with
  | Err error => (Err error, self)
  | Ok _ => (Ok tt, with_sequence (as_next_lease_sequence self) (Some reason) self)
  end.

(** *** Receipts *)

Definition scheduler_receipt_draft (profiles metrics queue in_flight terminal receipt_sha256 : str)
    (self : AdaptiveRuleScheduler) : SchedulerReceipt :=
  {| sr_registered_rules := map_len (as_profiles self); sr_known_pairs := set_len (as_known_pairs self);
     sr_queued_pairs := map_len (as_queued self); sr_in_flight_pairs := map_len (as_in_flight self);
     sr_completed_pairs := set_len (as_completed_pairs self);
     sr_failed_pairs := map_len (as_failed_pairs self);
     sr_expired_authorizations := set_len (as_expired_pairs self);
     sr_outstanding_request_reservations := as_outstanding_request_reservations self;
     sr_outstanding_mutation_reservations := as_outstanding_mutation_reservations self;
     sr_stop_reason := as_stop_reason self; sr_profiles_sha256 := profiles; sr_metrics_sha256 := metrics;
     sr_queue_sha256 := queue; sr_in_flight_sha256 := in_flight; sr_terminal_pairs_sha256 := terminal;
     sr_receipt_sha256 := receipt_sha256 |}.

Definition scheduler_receipt (self : AdaptiveRuleScheduler) : Result SchedulerReceipt SchedulerError :=
  let in_flight_material : InFlightMaterial :=
    map (fun kv => (kv.1, sls_item kv.2, sls_score kv.2, sls_expires_at_epoch_seconds kv.2))
      (map_iter (as_in_flight self)) in
  let terminal_material : TerminalMaterial :=
    (as_completed_pairs self, map_iter (as_failed_pairs self), as_expired_pairs self) in
  let? profiles := scheduler_hash (as_profiles self) in
  let? metrics := scheduler_hash (as_metrics self) in
  let? queue := scheduler_hash (map_iter (as_queued self) : QueueMaterial) in
  let? in_flight := scheduler_hash in_flight_material in
  let? terminal := scheduler_hash terminal_material in
  let? receipt_sha256 :=
    scheduler_hash (scheduler_receipt_draft profiles metrics queue in_flight terminal [] self) in
  Ok (scheduler_receipt_draft profiles metrics queue in_flight terminal receipt_sha256 self).

Definition scheduler_receipt_verify (self : SchedulerReceipt) : Result unit SchedulerError :=
  let material :=
    {| sr_registered_rules := sr_registered_rules self; sr_known_pairs := sr_known_pairs self;
       sr_queued_pairs := sr_queued_pairs self; sr_in_flight_pairs := sr_in_flight_pairs self;
       sr_completed_pairs := sr_completed_pairs self; sr_failed_pairs := sr_failed_pairs self;
       sr_expired_authorizations := sr_expired_authorizations self;
       sr_outstanding_request_reservations := sr_outstanding_request_reservations self;
       sr_outstanding_mutation_reservations := sr_outstanding_mutation_reservations self;
       sr_stop_reason := sr_stop_reason self; sr_profiles_sha256 := sr_profiles_sha256 self;
       sr_metrics_sha256 := sr_metrics_sha256 self; sr_queue_sha256 := sr_queue_sha256 self;
       sr_in_flight_sha256 := sr_in_flight_sha256 self;
       sr_terminal_pairs_sha256 := sr_terminal_pairs_sha256 self; sr_receipt_sha256 := [] |} in
  let? expected := scheduler_hash material in
  if negb (bool_decide (expected = sr_receipt_sha256 self)) then Err SeReceiptDigest else Ok tt.

End Scheduler.
