(* ===== verification/SchedulerFacts.v ===== *)
(** * What the adaptive scheduler guarantees

    Along every history each pair is in exactly one place and leased at most once,
    reservations are exactly those of the open work, and a lease goes to the best
    current item. *)

From S2P Require Import Prelude ByteStr BTree HashChain HttpSyntax Validation ValidationFacts Coverage Scheduler.
Local Open Scope N_scope.

(** ** The invariant *)

(** One where [P] holds. *)
Definition ind (P : Prop) `{Decision P} : N := if decide P then 1 else 0.

Lemma ind_true (P : Prop) `{Decision P} : P -> ind P = 1.
Proof. intros. unfold ind. by rewrite decide_True. Qed.
Lemma ind_false (P : Prop) `{Decision P} : ~ P -> ind P = 0.
Proof. intros. unfold ind. by rewrite decide_False. Qed.
Lemma ind_eq (P Q : Prop) `{Decision P, Decision Q} : (P <-> Q) -> ind P = ind Q.
Proof. intros. unfold ind. repeat case_decide; tauto. Qed.

Definition lease_pair (state : SchedulerLeaseState) : PairKey := wi_pair (sls_item state).

(** In how many places the pair is. *)
Definition occupancy (p : PairKey) (s : AdaptiveRuleScheduler) : N :=
  ind (is_Some (as_queued s !! p)) + map_sum (fun state => ind (lease_pair state = p)) (as_in_flight s)
  + ind (p ∈ as_completed_pairs s) + ind (is_Some (as_failed_pairs s !! p)) + ind (p ∈ as_expired_pairs s).

(** What the open work has reserved. *)
Definition reserved (f : AuthorizedWorkItem -> N) (s : AdaptiveRuleScheduler) : N :=
  map_sum f (as_queued s) + map_sum (fun state => f (sls_item state)) (as_in_flight s).

Definition lease_id_of_sequence (n : N) (suffix : str) : str :=
  ("lease-" : str) ++ decimal020 n ++ ("-" : str) ++ suffix.

Lemma lease_id_inj n n' suffix suffix' :
  n <= u64_max -> n' <= u64_max -> lease_id_of_sequence n suffix = lease_id_of_sequence n' suffix' -> n = n'.
Proof.
  intros Hn Hn' He. unfold lease_id_of_sequence in He. apply (inj (app _)) in He.
  apply app_inj_1 in He as [He _]; [|by rewrite !decimal020_length].
  rewrite <- (decimal020_value n), <- (decimal020_value n'). by f_equal.
Qed.

Record scheduler_ok (s : AdaptiveRuleScheduler) : Prop := {
  so_limits : adaptive_limits_validate (as_limits s) = Ok (as_limits s);
  so_metrics : forall r, is_Some (as_profiles s !! r) <-> is_Some (as_metrics s !! r);
  so_queued : forall p item, as_queued s !! p = Some item ->
                wi_pair item = p /\ is_Some (as_profiles s !! pk_rule_id p);
  so_flight : forall id state, as_in_flight s !! id = Some state ->
                is_Some (as_profiles s !! pk_rule_id (lease_pair state))
                /\ (sls_expires_at_epoch_seconds state
                    <= wi_authorization_expires_at_epoch_seconds (sls_item state))%Z
                /\ exists n suffix, n < as_next_lease_sequence s /\ id = lease_id_of_sequence n suffix;
  so_occupancy : forall p, occupancy p s = ind (p ∈ as_known_pairs s);
  so_requests : as_outstanding_request_reservations s = reserved wi_estimated_requests s
                /\ as_outstanding_request_reservations s
                   <= sl_maximum_outstanding_request_reservations (as_limits s);
  so_mutations : as_outstanding_mutation_reservations s = reserved wi_estimated_mutations s
                 /\ as_outstanding_mutation_reservations s
                    <= sl_maximum_outstanding_mutation_reservations (as_limits s);
  so_bounds : map_len (as_in_flight s) <= sl_maximum_in_flight (as_limits s)
              /\ map_len (as_queued s) <= sl_maximum_queued_pairs (as_limits s)
              /\ set_len (as_known_pairs s) <= sl_maximum_known_pairs (as_limits s);
  so_sequence : 1 <= as_next_lease_sequence s
                /\ as_next_lease_sequence s + map_len (as_queued s) <= set_len (as_known_pairs s) + 1;
  so_count : set_len (as_known_pairs s)
             = map_len (as_queued s) + map_len (as_in_flight s) + set_len (as_completed_pairs s)
               + map_len (as_failed_pairs s) + set_len (as_expired_pairs s)
}.

Lemma adaptive_limits_bounds l :
  adaptive_limits_validate l = Ok l ->
  sl_maximum_known_pairs l <= MAX_SCHEDULER_PAIRS /\ (0 < sl_lease_seconds l)%Z.
Proof. unfold adaptive_limits_validate. destruct (_ || _) eqn:E; [done|]. intros _. bools. lia. Qed.

Lemma MAX_SCHEDULER_u64 : MAX_SCHEDULER_PAIRS + 1 < u64_max.
Proof. reflexivity. Qed.

(** The lease counter never saturates. *)
Lemma sequence_small s : scheduler_ok s -> as_next_lease_sequence s < u64_max.
Proof.
  intros []. destruct (adaptive_limits_bounds _ so_limits0) as [Hl _]. destruct so_bounds0 as (_ & _ & Hk).
  destruct so_sequence0 as [_ Hs]. pose proof MAX_SCHEDULER_u64. lia.
Qed.

Lemma scheduler_new_ok limits s : scheduler_new limits = Ok s -> scheduler_ok s.
Proof.
  unfold scheduler_new. destruct (adaptive_limits_validate limits) as [l|] eqn:El; [|done]. intros [= <-].
  assert (l = limits) as -> by (unfold adaptive_limits_validate in El; by step_in El; simplify_eq).
  constructor; cbn; auto.
  - intros r. by rewrite !lookup_empty.
  - intros p item Hp. by rewrite lookup_empty in Hp.
  - intros id state Hs. by rewrite lookup_empty in Hs.
  - unfold reserved. cbn. rewrite !map_sum_empty. lia.
  - unfold reserved. cbn. rewrite !map_sum_empty. lia.
  - unfold map_len, set_len. rewrite !map_size_empty, size_empty. lia.
Qed.

(** ** Moving a pair *)

Lemma ind_le (P : Prop) `{Decision P} : ind P <= 1.
Proof. unfold ind. case_decide; lia. Qed.

(** A queued pair is nowhere else. *)
Lemma queued_alone s p item :
  scheduler_ok s -> as_queued s !! p = Some item ->
  p ∈ as_known_pairs s /\ (p ∉ as_completed_pairs s) /\ as_failed_pairs s !! p = None /\ (p ∉ as_expired_pairs s)
  /\ map_sum (fun state => ind (lease_pair state = p)) (as_in_flight s) = 0.
Proof.
  intros Hok Hq. pose proof (so_occupancy s Hok p) as Ho. unfold occupancy in Ho.
  rewrite (ind_true (is_Some (as_queued s !! p))) in Ho by eauto.
  generalize dependent (map_sum (fun state => ind (lease_pair state = p)) (as_in_flight s)). intros flights Ho.
  unfold ind in Ho. repeat case_decide; try lia. split_and!; auto; [|lia]. by apply eq_None_not_Some.
Qed.

(** A leased pair is nowhere else. *)
Lemma flying_alone s id state :
  scheduler_ok s -> as_in_flight s !! id = Some state ->
  lease_pair state ∈ as_known_pairs s /\ as_queued s !! lease_pair state = None
  /\ (lease_pair state ∉ as_completed_pairs s) /\ as_failed_pairs s !! lease_pair state = None
  /\ (lease_pair state ∉ as_expired_pairs s)
  /\ map_sum (fun st => ind (lease_pair st = lease_pair state)) (delete id (as_in_flight s)) = 0.
Proof.
  intros Hok Hf. pose proof (so_occupancy s Hok (lease_pair state)) as Ho. unfold occupancy in Ho.
  rewrite (map_sum_delete _ _ id state Hf), (ind_true (lease_pair state = lease_pair state)) in Ho by done.
  generalize dependent (map_sum (fun st => ind (lease_pair st = lease_pair state)) (delete id (as_in_flight s))).
  intros flights Ho. unfold ind in Ho.
  repeat case_decide; try lia; split_and!; auto; try lia; by apply eq_None_not_Some.
Qed.

Lemma ind_queued_delete (m : gmap PairKey AuthorizedWorkItem) p q :
  p <> q -> ind (is_Some (delete p m !! q)) = ind (is_Some (m !! q)).
Proof. intros. apply ind_eq. by rewrite lookup_delete_ne. Qed.

Lemma ind_insert_set (X : gset PairKey) p q : p <> q -> ind (q ∈ {[p]} ∪ X) = ind (q ∈ X).
Proof. intros. apply ind_eq. set_solver. Qed.

(** A queued item whose authorisation ran out. *)
Lemma queue_to_expired s p item :
  scheduler_ok s -> as_queued s !! p = Some item ->
  scheduler_ok (retire_item item (with_queue (delete p (as_queued s)) (as_in_flight s) s)).
Proof.
  intros Hok Hq. destruct (queued_alone s p item Hok Hq) as (Hk & Hc & Hf & He & Hn).
  destruct (so_queued s Hok p item Hq) as [Hp _]. pose proof (map_len_delete _ _ _ Hq) as Hl.
  destruct Hok. constructor; cbn; auto.
  - intros q i [Hne Hi]%lookup_delete_Some. by apply so_queued0.
  - intros q. specialize (so_occupancy0 q). unfold occupancy in *. cbn. rewrite Hp.
    destruct (decide (p = q)) as [<-|Hne].
    + rewrite lookup_delete_eq, (ind_false (is_Some None)), (ind_true (p ∈ {[p]} ∪ _)) by (set_solver || by intros [? ?]).
      rewrite (ind_true (is_Some (as_queued s !! p))), (ind_false (p ∈ as_expired_pairs s)) in so_occupancy0 by eauto.
      lia.
    + by rewrite ind_queued_delete, ind_insert_set.
  - unfold reserved in *. cbn. rewrite (map_sum_delete _ _ p item Hq) in so_requests0. lia.
  - unfold reserved in *. cbn. rewrite (map_sum_delete _ _ p item Hq) in so_mutations0. lia.
  - lia.
  - lia.
  - rewrite Hp, set_len_insert by done. lia.
Qed.

(** A lease that is over, whatever becomes of its pair. *)
Lemma flight_over s id state metrics completed failed expired :
  scheduler_ok s -> as_in_flight s !! id = Some state ->
  (forall r, is_Some (as_metrics s !! r) <-> is_Some (metrics !! r)) ->
  (forall q, ind (q ∈ completed) + ind (is_Some (failed !! q)) + ind (q ∈ expired)
             = ind (lease_pair state = q) + ind (q ∈ as_completed_pairs s)
               + ind (is_Some (as_failed_pairs s !! q)) + ind (q ∈ as_expired_pairs s)) ->
  set_len completed + map_len failed + set_len expired
    = set_len (as_completed_pairs s) + map_len (as_failed_pairs s) + set_len (as_expired_pairs s) + 1 ->
  scheduler_ok (with_terminal completed failed expired (with_rules (as_profiles s) metrics
    (release_reservations (sls_item state) (with_queue (as_queued s) (delete id (as_in_flight s)) s)))).
Proof.
  intros Hok Hf Hm Hplace Hsize. pose proof (map_len_delete _ _ _ Hf) as Hl. destruct Hok. constructor; cbn; auto.
  - intros r. by rewrite so_metrics0.
  - intros i st [Hne Hi]%lookup_delete_Some. by apply so_flight0.
  - intros q. specialize (so_occupancy0 q). specialize (Hplace q). unfold occupancy in *. cbn.
    rewrite (map_sum_delete _ _ id state Hf) in so_occupancy0. lia.
  - unfold reserved in *. cbn. rewrite (map_sum_delete _ (as_in_flight s) id state Hf) in so_requests0. lia.
  - unfold reserved in *. cbn. rewrite (map_sum_delete _ (as_in_flight s) id state Hf) in so_mutations0. lia.
  - lia.
  - lia.
Qed.

(** The pair becomes expired, completed or failed. *)
Lemma place_expired s id state :
  scheduler_ok s -> as_in_flight s !! id = Some state -> forall q,
  ind (q ∈ {[lease_pair state]} ∪ as_expired_pairs s) = ind (lease_pair state = q) + ind (q ∈ as_expired_pairs s).
Proof.
  intros Hok Hf q. destruct (flying_alone s id state Hok Hf) as (_ & _ & _ & _ & He & _).
  destruct (decide (lease_pair state = q)) as [<-|Hne].
  - rewrite (ind_true (_ = _)), (ind_true (_ ∈ _)), (ind_false (_ ∈ _)) by set_solver. done.
  - rewrite ind_insert_set, (ind_false (_ = _)) by done. done.
Qed.

Lemma place_completed s id state :
  scheduler_ok s -> as_in_flight s !! id = Some state -> forall q,
  ind (q ∈ {[lease_pair state]} ∪ as_completed_pairs s) = ind (lease_pair state = q) + ind (q ∈ as_completed_pairs s).
Proof.
  intros Hok Hf q. destruct (flying_alone s id state Hok Hf) as (_ & _ & Hc & _).
  destruct (decide (lease_pair state = q)) as [<-|Hne].
  - rewrite (ind_true (_ = _)), (ind_true (_ ∈ _)), (ind_false (_ ∈ _)) by set_solver. done.
  - rewrite ind_insert_set, (ind_false (_ = _)) by done. done.
Qed.

Lemma place_failed s id state reason :
  scheduler_ok s -> as_in_flight s !! id = Some state -> forall q,
  ind (is_Some (<[lease_pair state := reason]> (as_failed_pairs s) !! q))
  = ind (lease_pair state = q) + ind (is_Some (as_failed_pairs s !! q)).
Proof.
  intros Hok Hf q. destruct (flying_alone s id state Hok Hf) as (_ & _ & _ & Hn & _).
  destruct (decide (lease_pair state = q)) as [<-|Hne].
  - rewrite lookup_insert_eq, Hn, (ind_true (_ = _)), (ind_true (is_Some (Some _))), (ind_false (is_Some None))
      by (eauto || by intros [? ?]). done.
  - rewrite lookup_insert_ne, (ind_false (_ = _)) by done. done.
Qed.

(** ** Every operation keeps the invariant *)

(** What later states keep: known pairs stay known, pairs that left the queue stay out
    of it, lease numbers grow and the limits stay. *)
Definition frame (s s' : AdaptiveRuleScheduler) : Prop :=
  as_limits s' = as_limits s /\ as_known_pairs s ⊆ as_known_pairs s'
  /\ (forall p, p ∈ as_known_pairs s -> as_queued s !! p = None -> as_queued s' !! p = None)
  /\ as_next_lease_sequence s <= as_next_lease_sequence s'.

#[global] Instance frame_refl : Reflexive frame.
Proof. intros s. unfold frame. split_and!; auto; lia. Qed.
#[global] Instance frame_trans : Transitive frame.
Proof.
  intros s1 s2 s3 (A1 & A2 & A3 & A4) (B1 & B2 & B3 & B4). unfold frame. split_and!; [congruence|set_solver| |lia].
  intros p Hp Hq. apply B3; [set_solver|]. by apply A3.
Qed.

Lemma scheduler_running_ok s : scheduler_running s = Ok tt -> as_stop_reason s = None.
Proof. unfold scheduler_running. by destruct (as_stop_reason s). Qed.

Lemma register_rule_ok profile s :
  scheduler_ok s -> scheduler_ok (register_rule profile s).2 /\ frame s (register_rule profile s).2.
Proof.
  intros Hok. unfold register_rule. destruct (let? _ := _ in _) as [u|]; [|done].
  destruct (as_profiles s !! rp_rule_id profile) as [existing|] eqn:Ep; [by case_bool_decide|].
  destruct (_ <=? _); [done|]. split; [|unfold frame; cbn; split_and!; auto; lia].
  assert (forall r, is_Some (as_profiles s !! r) -> is_Some (<[rp_rule_id profile := profile]> (as_profiles s) !! r)) as Hm
    by (intros r Hr; destruct (decide (rp_rule_id profile = r)) as [->|];
        [rewrite lookup_insert_eq; eauto|by rewrite lookup_insert_ne]).
  destruct Hok. constructor; cbn; auto.
  - intros r. destruct (decide (rp_rule_id profile = r)) as [->|]; [rewrite !lookup_insert_eq; split; eauto|].
    by rewrite !lookup_insert_ne.
  - intros p item Hi. destruct (so_queued0 p item Hi). auto.
  - intros id st Hi. destruct (so_flight0 id st Hi) as (? & ? & ?). auto.
Qed.

Lemma enqueue_checks_ok item now s requests mutations :
  enqueue_checks item now s = Ok (requests, mutations) ->
  as_stop_reason s = None /\ is_Some (as_profiles s !! pk_rule_id (wi_pair item))
  /\ (wi_pair item ∉ as_known_pairs s)
  /\ set_len (as_known_pairs s) < sl_maximum_known_pairs (as_limits s)
  /\ map_len (as_queued s) < sl_maximum_queued_pairs (as_limits s)
  /\ requests = saturating_add (as_outstanding_request_reservations s) (wi_estimated_requests item)
  /\ requests <= sl_maximum_outstanding_request_reservations (as_limits s)
  /\ mutations = saturating_add (as_outstanding_mutation_reservations s) (wi_estimated_mutations item)
  /\ mutations <= sl_maximum_outstanding_mutation_reservations (as_limits s).
Proof.
  unfold enqueue_checks. intros H. destruct (scheduler_running s) as [[]|] eqn:Er; [|done].
  apply scheduler_running_ok in Er. destruct (authorized_item_validate item) as [[]|]; [|done].
  repeat step_in H. simplify_eq. bools. split_and!; auto.
Qed.

(** The maximal reservations are below the width of the counters. *)
Definition limits_widths (l : SchedulerLimits) : Prop :=
  sl_maximum_outstanding_request_reservations l < u64_max
  /\ sl_maximum_outstanding_mutation_reservations l < u64_max.

Lemma enqueue_work_ok item now s :
  limits_widths (as_limits s) -> scheduler_ok s ->
  scheduler_ok (enqueue_work item now s).2 /\ frame s (enqueue_work item now s).2.
Proof.
  intros [Hw1 Hw2] Hok. unfold enqueue_work. destruct (enqueue_checks item now s) as [[requests mutations]|] eqn:Ec; [|done].
  apply enqueue_checks_ok in Ec as (Hst & Hp & Hn & Hk & Hq & -> & Hr & -> & Hm).
  assert (as_queued s !! wi_pair item = None) as Hfresh.
  { apply eq_None_not_Some. intros [i Hi]. by destruct (queued_alone s _ _ Hok Hi) as [? _]. }
  split; [|unfold frame; cbn; split_and!; auto; [set_solver|]].
  2: { intros p Hin Hnone. rewrite lookup_insert_ne; [done|]. by intros <-. }
  apply (saturating_add_exact _ _ _) in Hr as Er; [|done]. apply (saturating_add_exact _ _ _) in Hm as Em; [|done].
  rewrite Er, Em in *.
  pose proof (set_len_insert _ _ Hn) as Hsk. pose proof (map_len_insert _ _ item Hfresh) as Hsq.
  destruct Hok. constructor; cbn; auto.
  - intros p i [[<- <-]|[_ Hi]]%lookup_insert_Some; [done|]. by apply so_queued0.
  - intros q. specialize (so_occupancy0 q). unfold occupancy in *. cbn.
    destruct (decide (wi_pair item = q)) as [<-|Hne].
    + rewrite lookup_insert_eq, (ind_true (is_Some (Some item))), (ind_true (_ ∈ {[_]} ∪ _)) by (eauto || set_solver).
      rewrite Hfresh, (ind_false (is_Some None)), (ind_false (_ ∈ as_known_pairs s)) in so_occupancy0
        by (done || by intros [? ?]). lia.
    + by rewrite lookup_insert_ne, ind_insert_set.
  - unfold reserved in *. cbn. rewrite map_sum_insert by done. lia.
  - unfold reserved in *. cbn. rewrite map_sum_insert by done. lia.
  - lia.
  - lia.
  - lia.
Qed.

Lemma frame_shrink s s' :
  as_limits s' = as_limits s -> as_known_pairs s' = as_known_pairs s ->
  (forall p, as_queued s !! p = None -> as_queued s' !! p = None) ->
  as_next_lease_sequence s' = as_next_lease_sequence s -> frame s s'.
Proof. intros H1 H2 H3 H4. unfold frame. rewrite H1, H2, H4. split_and!; auto. Qed.

Lemma expire_pairs_ok pairs s :
  scheduler_ok s ->
  scheduler_ok (expire_pairs pairs s) /\ frame s (expire_pairs pairs s)
  /\ as_stop_reason (expire_pairs pairs s) = as_stop_reason s
  /\ as_profiles (expire_pairs pairs s) = as_profiles s /\ as_metrics (expire_pairs pairs s) = as_metrics s
  /\ as_in_flight (expire_pairs pairs s) = as_in_flight s
  /\ (forall p, as_queued (expire_pairs pairs s) !! p = if decide (p ∈ pairs) then None else as_queued s !! p).
Proof.
  revert s. induction pairs as [|p pairs IH]; intros s Hok; cbn [expire_pairs].
  { split_and!; auto; reflexivity. }
  destruct (as_queued s !! p) as [item|] eqn:Hq.
  2: { destruct (IH s Hok) as (H1 & H2 & H3 & H4 & H5 & H6 & H7). split_and!; auto. intros q. rewrite H7.
       repeat case_decide; try set_solver; destruct (decide (q = p)) as [->|]; set_solver. }
  pose proof (queue_to_expired s p item Hok Hq) as Hok1. unfold retire_item in Hok1. cbn in Hok1.
  destruct (so_queued s Hok p item Hq) as [Hp _]. rewrite Hp in Hok1.
  match type of Hok1 with scheduler_ok ?x => set (s1 := x) in Hok1 end.
  destruct (IH s1 Hok1) as (H1 & H2 & H3 & H4 & H5 & H6 & H7).
  change (with_terminal _ _ _ _) with s1.
  assert (frame s s1) as Hf.
  { apply frame_shrink; try done. intros q Hn. cbn. by rewrite lookup_delete_None; right. }
  split_and!; [exact H1|by etransitivity|exact H3|exact H4|exact H5|exact H6|].
  intros q. rewrite H7. cbn. destruct (decide (q = p)) as [->|Hne].
  - rewrite lookup_delete_eq. case_decide; [|rewrite decide_True by set_solver]; [rewrite decide_True by set_solver|]; done.
  - rewrite lookup_delete_ne by done. repeat case_decide; set_solver.
Qed.

Lemma retire_item_ok id state s :
  scheduler_ok s -> as_in_flight s !! id = Some state ->
  scheduler_ok (retire_item (sls_item state) (with_queue (as_queued s) (delete id (as_in_flight s)) s)).
Proof.
  intros Hok Hf. pose proof (flight_over s id state (as_metrics s) (as_completed_pairs s) (as_failed_pairs s)
    ({[lease_pair state]} ∪ as_expired_pairs s) Hok Hf) as H. apply H; [done|..].
  - intros q. rewrite (place_expired s id state Hok Hf q). lia.
  - destruct (flying_alone s id state Hok Hf) as (_ & _ & _ & _ & He & _). rewrite set_len_insert by done. lia.
Qed.

Lemma expire_flights_ok ids s :
  scheduler_ok s ->
  scheduler_ok (expire_flights ids s) /\ frame s (expire_flights ids s)
  /\ as_stop_reason (expire_flights ids s) = as_stop_reason s
  /\ as_profiles (expire_flights ids s) = as_profiles s /\ as_metrics (expire_flights ids s) = as_metrics s
  /\ as_queued (expire_flights ids s) = as_queued s
  /\ (forall i, as_in_flight (expire_flights ids s) !! i = if decide (i ∈ ids) then None else as_in_flight s !! i).
Proof.
  revert s. induction ids as [|id ids IH]; intros s Hok; cbn [expire_flights].
  { split_and!; auto; reflexivity. }
  destruct (as_in_flight s !! id) as [state|] eqn:Hf.
  2: { destruct (IH s Hok) as (H1 & H2 & H3 & H4 & H5 & H6 & H7). split_and!; auto. intros i. rewrite H7.
       repeat case_decide; try set_solver; destruct (decide (i = id)) as [->|]; set_solver. }
  pose proof (retire_item_ok id state s Hok Hf) as Hok1.
  match type of Hok1 with scheduler_ok ?x => set (s1 := x) in * end.
  destruct (IH s1 Hok1) as (H1 & H2 & H3 & H4 & H5 & H6 & H7).
  assert (frame s s1) as Hfr by (by apply frame_shrink).
  split_and!; [exact H1|by etransitivity|exact H3|exact H4|exact H5|exact H6|].
  intros i. rewrite H7. cbn. destruct (decide (i = id)) as [->|Hne].
  - rewrite lookup_delete_eq. case_decide; [|rewrite decide_True by set_solver]; [rewrite decide_True by set_solver|]; done.
  - rewrite lookup_delete_ne by done. repeat case_decide; set_solver.
Qed.

Lemma complete_lease_ok id observation now s :
  scheduler_ok s -> scheduler_ok (complete_lease id observation now s).2
  /\ frame s (complete_lease id observation now s).2.
Proof.
  intros Hok. unfold complete_lease. destruct (let? _ := _ in _) as [o|]; [|done].
  destruct (as_in_flight s !! id) as [state|] eqn:Hf; [|done].
  destruct (_ <=? _)%Z; [split; [by apply retire_item_ok|by apply frame_shrink]|].
  cbn -[release_reservations with_rules with_terminal].
  destruct (so_flight s Hok id state Hf) as (Hp & _). apply (so_metrics s Hok) in Hp as [m Hm].
  unfold lease_pair in Hm. change (as_metrics (release_reservations _ _)) with (as_metrics s). rewrite Hm.
  split; [|by apply frame_shrink].
  apply (flight_over s id state _ ({[lease_pair state]} ∪ as_completed_pairs s) (as_failed_pairs s)
    (as_expired_pairs s) Hok Hf).
  - intros r. destruct (decide (pk_rule_id (wi_pair (sls_item state)) = r)) as [<-|Hne].
    + rewrite lookup_insert_eq, Hm. split; eauto.
    + by rewrite lookup_insert_ne.
  - intros q. rewrite (place_completed s id state Hok Hf q). lia.
  - destruct (flying_alone s id state Hok Hf) as (_ & _ & Hc & _). rewrite set_len_insert by done. lia.
Qed.

Lemma fail_lease_ok id reason now s :
  scheduler_ok s -> scheduler_ok (fail_lease id reason now s).2 /\ frame s (fail_lease id reason now s).2.
Proof.
  intros Hok. unfold fail_lease. destruct (scheduler_running s) as [o|]; [|done].
  destruct (as_in_flight s !! id) as [state|] eqn:Hf; [|done].
  destruct (_ <=? _)%Z; [split; [by apply retire_item_ok|by apply frame_shrink]|].
  split; [|by apply frame_shrink].
  apply (flight_over s id state (as_metrics s) (as_completed_pairs s)
    (<[lease_pair state := reason]> (as_failed_pairs s)) (as_expired_pairs s) Hok Hf); [done|..].
  - intros q. rewrite (place_failed s id state reason Hok Hf q). lia.
  - destruct (flying_alone s id state Hok Hf) as (_ & _ & _ & Hn & _). rewrite map_len_insert by done. lia.
Qed.

Lemma apply_run_stop_ok reason s :
  scheduler_ok s -> scheduler_ok (apply_run_stop reason s).2 /\ frame s (apply_run_stop reason s).2.
Proof.
  intros Hok. unfold apply_run_stop. destruct (scheduler_running s); [|done].
  split; [by destruct Hok; constructor|by apply frame_shrink].
Qed.

(** ** The ranking *)

#[global] Instance rank_le_total : Total rank_le.
Proof.
  intros x y. unfold rank_le, rank_leb.
  destruct (N.ltb_spec (sc_fixed_point_score (rw_score y)) (sc_fixed_point_score (rw_score x))); [by left|].
  destruct (N.ltb_spec (sc_fixed_point_score (rw_score x)) (sc_fixed_point_score (rw_score y))); [by right|].
  apply ord_leb_total.
Qed.

#[global] Instance rank_le_trans : Transitive rank_le.
Proof.
  intros x y z. unfold rank_le, rank_leb.
  repeat match goal with |- context [N.ltb ?a ?b] => destruct (N.ltb_spec a b) end; try done; try lia.
  apply ord_leb_trans.
Qed.

Lemma rank_le_score x y : rank_le x y -> sc_fixed_point_score (rw_score y) <= sc_fixed_point_score (rw_score x).
Proof.
  unfold rank_le, rank_leb.
  repeat match goal with |- context [N.ltb ?a ?b] => destruct (N.ltb_spec a b) end; try done; lia.
Qed.

Lemma score_item_total item s : is_Some (as_profiles s !! pk_rule_id (wi_pair item)) -> exists sc, score_item item s = Ok sc.
Proof. intros [p Hp]. unfold score_item. rewrite Hp. eauto. Qed.

Lemma score_item_frame item s s' :
  as_profiles s' = as_profiles s -> as_metrics s' = as_metrics s -> score_item item s' = score_item item s.
Proof. intros H1 H2. unfold score_item. by rewrite H1, H2. Qed.

Lemma filter_elem_list {A} (f : A -> bool) l x : x ∈ List.filter f l <-> x ∈ l /\ f x = true.
Proof. rewrite !list_elem_of_In. apply filter_In. Qed.

(** The ranking holds exactly the current items, the best first. *)
Lemma ranking_snapshot_spec now s :
  scheduler_ok s -> as_stop_reason s = None ->
  exists ranked, ranking_snapshot now s = Ok ranked /\ StronglySorted rank_le ranked
    /\ forall rw, rw ∈ ranked <-> exists p item, as_queued s !! p = Some item /\ is_current now item = true
                                     /\ rank_item s item = Ok rw.
Proof.
  intros Hok Hst. unfold ranking_snapshot, scheduler_running. rewrite Hst.
  set (items := List.filter _ _).
  assert (forall item, item ∈ items <-> exists p, as_queued s !! p = Some item /\ is_current now item = true) as Hitems.
  { intros item. unfold items. rewrite filter_elem_list, elem_of_map_values. naive_solver. }
  assert (exists ys, collect_results (rank_item s) items = Ok ys) as [ys Hys].
  { clear -Hitems Hok. assert (forall item, item ∈ items -> exists rw, rank_item s item = Ok rw) as Hall.
    { intros item (p & Hq & _)%Hitems. destruct (so_queued s Hok p item Hq) as [<- Hp].
      destruct (score_item_total item s Hp) as [sc Hsc]. unfold rank_item. rewrite Hsc. eauto. }
    clear Hitems. induction items as [|x l IH]; [by exists []|]. cbn.
    destruct (Hall x) as [y ->]; [left|]. destruct IH as [ys ->]; [intros item Hin; apply Hall; by right|]. eauto. }
  rewrite Hys. apply collect_results_ok in Hys.
  exists (merge_sort rank_le ys). split_and!; [done|apply StronglySorted_merge_sort; apply _|].
  intros rw. rewrite (merge_sort_Permutation rank_le ys). split.
  - intros Hin. apply list_elem_of_lookup in Hin as [i Hi].
    destruct (Forall2_lookup_r _ _ _ _ _ Hys Hi) as (item & Hit & Hr).
    apply list_elem_of_lookup_2, Hitems in Hit as (p & Hq & Hc). eauto.
  - intros (p & item & Hq & Hc & Hr). assert (item ∈ items) as Hin by (apply Hitems; eauto).
    apply list_elem_of_lookup in Hin as [i Hi]. destruct (Forall2_lookup_l _ _ _ _ _ Hys Hi) as (rw' & Hrw & Hr').
    rewrite Hr in Hr'. simplify_eq. by eapply list_elem_of_lookup_2.
Qed.

(** ** Leasing *)

(** The scheduler once the authorisations and leases that ran out are retired. *)
Definition swept (now : Z) (s : AdaptiveRuleScheduler) : AdaptiveRuleScheduler :=
  (expire_leases now (expire_authorizations now s).2).2.

Definition is_open (now : Z) (state : SchedulerLeaseState) : bool := (now <? sls_expires_at_epoch_seconds state)%Z.

(** What is left when the entries that [f] selects are removed. *)
Lemma without_expired {K V} `{Countable K} `{Ord K} (f : V -> bool) (m : gmap K V) k v :
  (if decide (k ∈ (List.filter (fun kv : K * V => f kv.2) (map_iter m)).*1) then None else m !! k) = Some v
  <-> m !! k = Some v /\ f v = false.
Proof.
  assert (k ∈ (List.filter (fun kv : K * V => f kv.2) (map_iter m)).*1
          <-> exists w, m !! k = Some w /\ f w = true) as He.
  { rewrite list_elem_of_fmap. split.
    - intros ([k' w] & -> & [Hi Hf]%filter_elem_list). apply elem_of_map_iter in Hi. eauto.
    - intros (w & Hw & Hf). exists (k, w). split; [done|]. apply filter_elem_list.
      split; [by apply elem_of_map_iter|done]. }
  case_decide as Hd; rewrite He in Hd; clear He.
  - destruct Hd as (w & Hw & Hf). split; [done|]. intros [Hv Hv']. congruence.
  - split; [|by intros []]. intros Hv. split; [done|]. destruct (f v) eqn:Ef; [|done]. destruct Hd. eauto.
Qed.

Lemma expire_pairs_sequence pairs s :
  as_next_lease_sequence (expire_pairs pairs s) = as_next_lease_sequence s.
Proof.
  revert s. induction pairs as [|p l IH]; intros s; [done|]. cbn [expire_pairs]. rewrite IH.
  by destruct (as_queued s !! p).
Qed.

Lemma expire_flights_sequence ids s :
  as_next_lease_sequence (expire_flights ids s) = as_next_lease_sequence s.
Proof.
  revert s. induction ids as [|i l IH]; intros s; [done|]. cbn [expire_flights]. rewrite IH.
  by destruct (as_in_flight s !! i).
Qed.

Lemma swept_spec now s :
  scheduler_ok s ->
  scheduler_ok (swept now s) /\ frame s (swept now s) /\ as_stop_reason (swept now s) = as_stop_reason s
  /\ as_profiles (swept now s) = as_profiles s /\ as_metrics (swept now s) = as_metrics s
  /\ as_next_lease_sequence (swept now s) = as_next_lease_sequence s
  /\ (forall p item, as_queued (swept now s) !! p = Some item
        <-> as_queued s !! p = Some item /\ is_current now item = true)
  /\ (forall id state, as_in_flight (swept now s) !! id = Some state
        <-> as_in_flight s !! id = Some state /\ is_open now state = true).
Proof.
  intros Hok. unfold swept, expire_authorizations, expire_leases. cbn [fst snd].
  set (pairs := (List.filter _ (map_iter (as_queued s))).*1).
  destruct (expire_pairs_ok pairs s Hok) as (A1 & A2 & A3 & A4 & A5 & A6 & A7).
  pose proof (expire_pairs_sequence pairs s) as A8.
  set (ids := (List.filter _ (map_iter (as_in_flight (expire_pairs pairs s)))).*1).
  destruct (expire_flights_ok ids _ A1) as (B1 & B2 & B3 & B4 & B5 & B6 & B7).
  pose proof (expire_flights_sequence ids (expire_pairs pairs s)) as B8.
  split_and!; [exact B1|by etransitivity|congruence..| |].
  - intros p item. rewrite B6, A7. unfold pairs.
    rewrite (without_expired (fun v => negb (is_current now v))), negb_false_iff. done.
  - intros id state. rewrite B7. unfold ids. rewrite A6.
    rewrite (without_expired (fun v => (sls_expires_at_epoch_seconds v <=? now)%Z)).
    unfold is_open. rewrite Z.leb_gt, Z.ltb_lt. done.
Qed.

Section Leases.
Context {S : Sha256Lib} {SL : Sha256Laws} {JL : JsonLib LeaseTuple} {JLT : JsonTotal LeaseTuple}.

(** The lease over an item, with the number it was given. *)
Definition granted_lease (item : AuthorizedWorkItem) (score : RuleScore) (now expires : Z) (sequence : N)
    (suffix : str) : ScheduleLease :=
  {| sle_lease_id := lease_id_of_sequence sequence suffix; sle_pair := wi_pair item;
     sle_plan_sha256 := wi_plan_sha256 item; sle_capability_sha256 := wi_capability_sha256 item;
     sle_authorization_sha256 := wi_authorization_sha256 item; sle_score := score;
     sle_issued_at_epoch_seconds := now; sle_expires_at_epoch_seconds := expires |}.

Lemma grant_lease_done item score now expires s :
  as_next_lease_sequence s < u64_max ->
  exists suffix,
    grant_lease item score now expires s
    = Done (Ok (granted_lease item score now expires (as_next_lease_sequence s) suffix),
            with_sequence (as_next_lease_sequence s + 1) (as_stop_reason s)
              (with_queue (as_queued s)
                (<[lease_id_of_sequence (as_next_lease_sequence s) suffix :=
                     {| sls_item := item; sls_score := score; sls_expires_at_epoch_seconds := expires |}]>
                   (as_in_flight s)) s)).
Proof.
  intros Hs. unfold grant_lease, scheduler_hash.
  destruct (to_vec_total ((as_next_lease_sequence s, wi_pair item, wi_authorization_sha256 item, now, expires) : LeaseTuple))
    as [bytes Hb]. rewrite Hb. cbn [map_err].
  rewrite (str_prefix_sha256 16); [|apply to_lower_hex_sha256; pose proof (sha256_length bytes); unfold len in *; lia|lia].
  cbn -[granted_lease].
  eexists. unfold saturating_add. rewrite N.min_l by lia. reflexivity.
Qed.

(** Granting the lease of a queued item. *)
Lemma grant_keeps s p item score expires suffix :
  scheduler_ok s -> as_queued s !! p = Some item -> map_len (as_in_flight s) < sl_maximum_in_flight (as_limits s) ->
  (expires <= wi_authorization_expires_at_epoch_seconds item)%Z ->
  scheduler_ok (with_sequence (as_next_lease_sequence s + 1) (as_stop_reason s)
    (with_queue (delete p (as_queued s))
      (<[lease_id_of_sequence (as_next_lease_sequence s) suffix :=
           {| sls_item := item; sls_score := score; sls_expires_at_epoch_seconds := expires |}]>
         (as_in_flight s)) s)).
Proof.
  intros Hok Hq Hlen Hexp. pose proof (sequence_small s Hok) as Hsmall.
  destruct (so_queued s Hok p item Hq) as [Hp Hprof]. pose proof (map_len_delete _ _ _ Hq) as Hl.
  assert (as_in_flight s !! lease_id_of_sequence (as_next_lease_sequence s) suffix = None) as Hfresh.
  { apply eq_None_not_Some. intros [st Hst]. destruct (so_flight s Hok _ _ Hst) as (_ & _ & n & suf & Hn & He).
    apply lease_id_inj in He; lia. }
  destruct Hok. constructor; cbn; auto.
  - intros q i [Hne Hi]%lookup_delete_Some. by apply so_queued0.
  - intros id st [[<- <-]|[_ Hi]]%lookup_insert_Some.
    + unfold lease_pair. cbn. rewrite Hp. split_and!; auto. eexists _, _. split; [|reflexivity]. lia.
    + destruct (so_flight0 id st Hi) as (? & ? & n & suf & ? & ?). split_and!; auto. exists n, suf. split; [lia|done].
  - intros q. specialize (so_occupancy0 q). unfold occupancy in *. cbn. rewrite map_sum_insert by done.
    destruct (decide (p = q)) as [<-|Hne].
    + rewrite lookup_delete_eq, (ind_false (is_Some None)), (ind_true (lease_pair _ = p)) by (done || by intros [? ?]).
      rewrite (ind_true (is_Some (as_queued s !! p))) in so_occupancy0 by eauto. lia.
    + rewrite ind_queued_delete, (ind_false (lease_pair {| sls_item := item |} = q)) by (done || by rewrite <- Hp in Hne). lia.
  - unfold reserved in *. cbn. rewrite map_sum_insert by done. cbn.
    rewrite (map_sum_delete _ _ p item Hq) in so_requests0. lia.
  - unfold reserved in *. cbn. rewrite map_sum_insert by done. cbn.
    rewrite (map_sum_delete _ _ p item Hq) in so_mutations0. lia.
  - rewrite map_len_insert by done. lia.
  - lia.
  - rewrite map_len_insert by done. lia.
Qed.

(** The rank of an item. *)
Definition rank_of (item : AuthorizedWorkItem) (score : RuleScore) : RankedWorkItem :=
  {| rw_pair := wi_pair item; rw_score := score; rw_authorization_sha256 := wi_authorization_sha256 item |}.

(** The item is queued, current and comes before every other such item. *)
Definition best_current (now : Z) (s : AdaptiveRuleScheduler) (item : AuthorizedWorkItem) (score : RuleScore) : Prop :=
  as_queued s !! wi_pair item = Some item /\ is_current now item = true /\ score_item item s = Ok score
  /\ forall p other score', as_queued s !! p = Some other -> is_current now other = true ->
       score_item other s = Ok score' -> rank_le (rank_of item score) (rank_of other score').

Definition open_leases (now : Z) (s : AdaptiveRuleScheduler) : gmap str SchedulerLeaseState :=
  as_in_flight (swept now s).

(** The outcomes of a call. *)
Definition next_outcome (now : Z) (s : AdaptiveRuleScheduler) (r : Result ScheduleLease SchedulerError)
    (s' : AdaptiveRuleScheduler) : Prop :=
  match r with
  | Ok lease =>
      as_stop_reason s = None /\ exists item score expires suffix,
        lease = granted_lease item score now expires (as_next_lease_sequence s) suffix
        /\ best_current now s item score /\ (now < expires)%Z
        /\ expires = Z.min (wi_authorization_expires_at_epoch_seconds item)
             (i64_saturating_add now (sl_lease_seconds (as_limits s)))
        /\ as_queued s' !! wi_pair item = None /\ as_next_lease_sequence s' = as_next_lease_sequence s + 1
        /\ as_in_flight s'
           = <[sle_lease_id lease :=
                {| sls_item := item; sls_score := score; sls_expires_at_epoch_seconds := expires |}]>
               (open_leases now s)
  | Err SeNoWork =>
      as_stop_reason s = None /\ forall p item, as_queued s !! p = Some item -> is_current now item = false
  | Err SeInFlightBudget =>
      as_stop_reason s = None /\ map_len (open_leases now s) = sl_maximum_in_flight (as_limits s)
  | Err (SeRunStopped reason) => as_stop_reason s = Some reason /\ s' = s
  | Err _ => False
  end.

Lemma schedule_next_spec now s :
  scheduler_ok s -> (i64_min <= now < i64_max)%Z ->
  exists r s', schedule_next now s = Done (r, s') /\ scheduler_ok s' /\ frame s s' /\ next_outcome now s r s'.
Proof.
  intros Hok Hnow. unfold schedule_next. unfold scheduler_running at 1.
  destruct (as_stop_reason s) as [reason|] eqn:Hst; [by eexists _, _; split_and!|].
  fold (swept now s). destruct (swept_spec now s Hok) as (Hok1 & Hfr & Hst1 & Hpr & Hme & Hsq & Hqu & Hfl).
  unfold open_leases. set (s1 := swept now s) in *. rewrite Hst in Hst1.
  destruct (N.leb_spec (sl_maximum_in_flight (as_limits s1)) (map_len (as_in_flight s1))) as [Hle|Hlt].
  { eexists _, _. split_and!; [done..|]. cbn. split; [done|]. fold s1. destruct Hfr as [<- _].
    pose proof (so_bounds s1 Hok1). unfold open_leases. fold s1. lia. }
  destruct (ranking_snapshot_spec now s1 Hok1 Hst1) as (ranked & -> & Hsort & Hranked).
  destruct ranked as [|selected rest].
  { eexists _, _. split_and!; [done..|]. cbn. split; [done|]. intros p item Hq.
    destruct (is_current now item) eqn:Hc; [|done]. exfalso.
    assert (as_queued s1 !! p = Some item) as Hq1 by (by apply Hqu).
    destruct (so_queued s1 Hok1 p item Hq1) as [<- Hp]. destruct (score_item_total item s1 Hp) as [sc Hsc].
    assert (rank_of item sc ∈ ([] : list RankedWorkItem)) as Hin; [|by apply not_elem_of_nil in Hin].
    apply Hranked. exists (wi_pair item), item. split_and!; auto. unfold rank_item. by rewrite Hsc. }
  destruct (proj1 (Hranked selected) ltac:(left)) as (p & item & Hq1 & Hc & Hr).
  unfold rank_item in Hr. destruct (score_item item s1) as [sc|] eqn:Hsc; [|done]. injection Hr as <-. cbn [rw_pair rw_score].
  destruct (so_queued s1 Hok1 p item Hq1) as [<- Hp]. rewrite Hq1. cbn zeta.
  set (expires := Z.min _ _).
  assert (now < expires)%Z as Hexp.
  { change (as_limits (with_queue _ _ s1)) with (as_limits s1) in expires.
    unfold expires, i64_saturating_add. apply Z.ltb_lt in Hc. destruct (adaptive_limits_bounds _ (so_limits s1 Hok1)) as [_ Hls].
    lia. }
  destruct (Z.leb_spec expires now); [lia|].
  match goal with |- context [grant_lease _ _ _ _ ?x] =>
    destruct (grant_lease_done item sc now expires x (sequence_small s1 Hok1)) as [suffix ->] end.
  eexists _, _. split; [reflexivity|].
  pose proof (grant_keeps s1 _ item sc expires suffix Hok1 Hq1 Hlt ltac:(unfold expires; lia)) as Hok2.
  split; [exact Hok2|]. split.
  { etransitivity; [exact Hfr|]. unfold frame. cbn. split_and!; auto; [|lia].
    intros q _ Hn. by rewrite lookup_delete_None; right. }
  unfold next_outcome, open_leases. fold s1. clearbody s1. cbn.
  split; [done|]. exists item, sc, expires, suffix. rewrite Hsq.
  split_and!; auto; [| |by rewrite lookup_delete_eq].
  - apply Hqu in Hq1 as [Hq _]. unfold best_current. split_and!; auto.
    { by rewrite <- (score_item_frame item s s1). }
    intros q other sc' Hoq Hoc Hosc. apply StronglySorted_inv in Hsort as [_ Hall].
    rewrite <- (score_item_frame other s s1) in Hosc by done.
    assert (rank_of other sc' ∈ rank_of item sc :: rest) as [He|Hin]%elem_of_cons.
    { apply Hranked. exists q, other. split_and!; [by apply Hqu|done|]. unfold rank_item. by rewrite Hosc. }
    + rewrite He. destruct (rank_le_total (rank_of item sc) (rank_of item sc)); done.
    + rewrite Forall_forall in Hall. by apply Hall.
  - unfold expires. cbn. by destruct Hfr as [-> _].
Qed.
End Leases.

(** ** Histories *)

(** Work that was done, or given up, was leased. *)
Definition worked (s : AdaptiveRuleScheduler) (p : PairKey) : Prop :=
  p ∈ as_completed_pairs s \/ is_Some (as_failed_pairs s !! p).

Definition settles (s s' : AdaptiveRuleScheduler) : Prop :=
  as_in_flight s' ⊆ as_in_flight s
  /\ forall p, worked s' p ->
       worked s p \/ exists id state, as_in_flight s !! id = Some state /\ lease_pair state = p.

Lemma settles_same s s' :
  as_in_flight s' ⊆ as_in_flight s -> as_completed_pairs s' = as_completed_pairs s ->
  as_failed_pairs s' = as_failed_pairs s -> settles s s'.
Proof. intros H1 H2 H3. split; [done|]. intros p. unfold worked. rewrite H2, H3. by left. Qed.

Lemma expire_pairs_done pairs s :
  as_completed_pairs (expire_pairs pairs s) = as_completed_pairs s
  /\ as_failed_pairs (expire_pairs pairs s) = as_failed_pairs s.
Proof.
  revert s. induction pairs as [|p l IH]; intros s; [done|]. cbn [expire_pairs].
  rewrite (proj1 (IH _)), (proj2 (IH _)). by destruct (as_queued s !! p).
Qed.

Lemma expire_flights_done ids s :
  as_completed_pairs (expire_flights ids s) = as_completed_pairs s
  /\ as_failed_pairs (expire_flights ids s) = as_failed_pairs s.
Proof.
  revert s. induction ids as [|i l IH]; intros s; [done|]. cbn [expire_flights].
  rewrite (proj1 (IH _)), (proj2 (IH _)). by destruct (as_in_flight s !! i).
Qed.

Lemma expire_pairs_settles pairs s : settles s (expire_pairs pairs s).
Proof.
  apply settles_same; [|apply expire_pairs_done..]. revert s. induction pairs as [|p l IH]; intros s; [done|].
  cbn [expire_pairs]. etransitivity; [apply IH|]. by destruct (as_queued s !! p).
Qed.

Lemma expire_flights_settles ids s : settles s (expire_flights ids s).
Proof.
  apply settles_same; [|apply expire_flights_done..]. revert s. induction ids as [|i l IH]; intros s; [done|].
  cbn [expire_flights]. etransitivity; [apply IH|].
  destruct (as_in_flight s !! i); [|done]. cbn. apply delete_subseteq.
Qed.

Lemma complete_lease_settles id observation now s : settles s (complete_lease id observation now s).2.
Proof.
  unfold complete_lease. destruct (let? _ := _ in _); [|by apply settles_same].
  destruct (as_in_flight s !! id) as [state|] eqn:Hf; [|by apply settles_same].
  destruct (_ <=? _)%Z; [apply settles_same; try done; cbn; apply delete_subseteq|]. cbn.
  destruct (as_metrics s !! _); [|apply settles_same; try done; cbn; apply delete_subseteq].
  split; [apply delete_subseteq|]. unfold worked. cbn. intros p [[->%elem_of_singleton|]%elem_of_union|]; eauto.
Qed.

Lemma fail_lease_settles id reason now s : settles s (fail_lease id reason now s).2.
Proof.
  unfold fail_lease. destruct (scheduler_running s); [|by apply settles_same].
  destruct (as_in_flight s !! id) as [state|] eqn:Hf; [|by apply settles_same].
  destruct (_ <=? _)%Z; [apply settles_same; try done; cbn; apply delete_subseteq|].
  split; [apply delete_subseteq|]. unfold worked. cbn. intros p [|[r Hr]]; [by left; left|].
  apply lookup_insert_Some in Hr as [[<- _]|[_ Hr]]; eauto.
Qed.

Section History.
Context {S : Sha256Lib} {SL : Sha256Laws} {JL : JsonLib LeaseTuple} {JLT : JsonTotal LeaseTuple}.

(** A scheduler with the leases it has given, the latest first. *)
Inductive schedules (limits : SchedulerLimits) : list ScheduleLease -> AdaptiveRuleScheduler -> Prop :=
  | sc_new s : scheduler_new limits = Ok s -> schedules limits [] s
  | sc_register leases s profile : schedules limits leases s -> schedules limits leases (register_rule profile s).2
  | sc_enqueue leases s item now : schedules limits leases s -> schedules limits leases (enqueue_work item now s).2
  | sc_lease leases s s' now lease :
      schedules limits leases s -> (i64_min <= now < i64_max)%Z ->
      schedule_next now s = Done (Ok lease, s') -> schedules limits (lease :: leases) s'
  | sc_refuse leases s s' now error :
      schedules limits leases s -> (i64_min <= now < i64_max)%Z ->
      schedule_next now s = Done (Err error, s') -> schedules limits leases s'
  | sc_complete leases s id observation now :
      schedules limits leases s -> schedules limits leases (complete_lease id observation now s).2
  | sc_fail leases s id reason now :
      schedules limits leases s -> schedules limits leases (fail_lease id reason now s).2
  | sc_authorizations leases s now :
      schedules limits leases s -> schedules limits leases (expire_authorizations now s).2
  | sc_leases leases s now : schedules limits leases s -> schedules limits leases (expire_leases now s).2
  | sc_stop leases s reason : schedules limits leases s -> schedules limits leases (apply_run_stop reason s).2.

(** How the leases given relate to the state. *)
Record given_leases_ok (leases : list ScheduleLease) (s : AdaptiveRuleScheduler) : Prop := {
  lo_pairs : NoDup (sle_pair <$> leases);
  lo_ids : NoDup (sle_lease_id <$> leases);
  lo_gone : forall lease, lease ∈ leases -> sle_pair lease ∈ as_known_pairs s /\ as_queued s !! sle_pair lease = None;
  lo_numbers : forall lease, lease ∈ leases -> exists n suffix,
                 n < as_next_lease_sequence s /\ sle_lease_id lease = lease_id_of_sequence n suffix;
  lo_flight : forall id state, as_in_flight s !! id = Some state -> exists lease,
                lease ∈ leases /\ sle_lease_id lease = id /\ sle_pair lease = lease_pair state
                /\ sle_expires_at_epoch_seconds lease = sls_expires_at_epoch_seconds state;
  lo_worked : forall p, worked s p -> p ∈ sle_pair <$> leases
}.

Lemma leases_keep leases s s' : given_leases_ok leases s -> frame s s' -> settles s s' -> given_leases_ok leases s'.
Proof.
  intros [] (_ & Hk & Hq & Hn) [Hf Hw]. constructor; auto.
  - intros lease Hin. destruct (lo_gone0 lease Hin). split; [set_solver|]. by apply Hq.
  - intros lease Hin. destruct (lo_numbers0 lease Hin) as (n & suffix & ? & ?). exists n, suffix. split; [lia|done].
  - intros id state Hst. apply lo_flight0. by eapply lookup_weaken.
  - intros p [|(id & state & Hst & <-)]%Hw; [auto|]. destruct (lo_flight0 id state Hst) as (lease & Hin & _ & <- & _).
    by apply list_elem_of_fmap_2.
Qed.

Lemma swept_done now s :
  as_completed_pairs (swept now s) = as_completed_pairs s /\ as_failed_pairs (swept now s) = as_failed_pairs s
  /\ as_in_flight (swept now s) ⊆ as_in_flight s.
Proof.
  unfold swept, expire_leases, expire_authorizations. cbn [fst snd].
  match goal with |- context [expire_pairs ?l s] =>
    destruct (expire_pairs_done l s) as [A1 A2]; destruct (expire_pairs_settles l s) as [A3 _];
    generalize dependent (expire_pairs l s); intros s1 A1 A2 A3 end.
  match goal with |- context [expire_flights ?l s1] =>
    destruct (expire_flights_done l s1) as [B1 B2]; destruct (expire_flights_settles l s1) as [B3 _] end.
  split_and!; [congruence..|by etransitivity].
Qed.

Lemma schedule_next_done now s r s' :
  schedule_next now s = Done (r, s') ->
  as_completed_pairs s' = as_completed_pairs s /\ as_failed_pairs s' = as_failed_pairs s
  /\ forall error, r = Err error -> as_in_flight s' ⊆ as_in_flight s.
Proof.
  unfold schedule_next. destruct (scheduler_running s) as [[]|]; [|by intros [= <- <-]].
  fold (swept now s). destruct (swept_done now s) as (A1 & A2 & A3). generalize dependent (swept now s). intros s1 A1 A2 A3.
  destruct (_ <=? _); [by intros [= <- <-]|].
  destruct (ranking_snapshot now s1) as [[|selected rest]|]; [by intros [= <- <-]| |by intros [= <- <-]].
  destruct (as_queued s1 !! rw_pair selected) as [item|]; [|by intros [= <- <-]].
  cbn zeta. destruct (_ <=? _)%Z; [by intros [= <- <-]|].
  unfold grant_lease. destruct (scheduler_hash _); [|by intros [= <- <-]].
  destruct (str_prefix 16 _); [|done..]. by intros [= <- <-].
Qed.

Lemma lease_keeps leases s s' now lease :
  scheduler_ok s -> given_leases_ok leases s -> schedule_next now s = Done (Ok lease, s') ->
  frame s s' -> next_outcome now s (Ok lease) s' -> given_leases_ok (lease :: leases) s'.
Proof.
  intros Hok [] Hs (_ & Hk & Hq & _) (_ & item & score & expires & suffix & -> & (Hqi & _) & _ & _ & Hgone & Hnext & Hfl).
  apply schedule_next_done in Hs as (Hc & Hf & _). destruct (queued_alone s _ _ Hok Hqi) as (Hknown & _).
  pose proof (sequence_small s Hok) as Hsmall.
  constructor; cbn [fmap list_fmap granted_lease sle_pair sle_lease_id] in *.
  - apply NoDup_cons. split; [|done]. intros (old & He & Hin)%list_elem_of_fmap.
    destruct (lo_gone0 old Hin) as [_ Hnone]. rewrite He, Hnone in Hqi. done.
  - apply NoDup_cons. split; [|done]. intros (old & He & Hin)%list_elem_of_fmap.
    destruct (lo_numbers0 old Hin) as (n & suf & Hn & He'). rewrite He' in He. apply lease_id_inj in He; lia.
  - intros l [->|Hin]%elem_of_cons; [split; [by apply Hk|done]|].
    destruct (lo_gone0 l Hin). split; [by apply Hk|]. by apply Hq.
  - intros l [->|Hin]%elem_of_cons; [eexists _, _; split; [|reflexivity]; lia|].
    destruct (lo_numbers0 l Hin) as (n & suf & ? & ?). exists n, suf. split; [lia|done].
  - intros id state. rewrite Hfl. intros [[<- <-]|[_ Hst]]%lookup_insert_Some.
    + eexists. split; [left|]. done.
    + assert (as_in_flight s !! id = Some state) as Hst'
        by (eapply lookup_weaken; [exact Hst|apply swept_done]).
      destruct (lo_flight0 id state Hst') as (l & Hin & Hl). exists l. split; [by right|exact Hl].
  - intros p Hw. right. apply lo_worked0. unfold worked in *. by rewrite Hc, Hf in Hw.
Qed.

Lemma scheduler_new_limits limits s : scheduler_new limits = Ok s -> as_limits s = limits.
Proof.
  unfold scheduler_new, adaptive_limits_validate. intros H. repeat step_in H. by simplify_eq.
Qed.

Lemma step_keeps limits leases s s' :
  as_limits s = limits -> given_leases_ok leases s -> scheduler_ok s' -> frame s s' -> settles s s' ->
  as_limits s' = limits /\ scheduler_ok s' /\ given_leases_ok leases s'.
Proof. intros Hl Hls Hok Hf Hs. split_and!; auto; [by destruct Hf as [-> _]|by eapply leases_keep]. Qed.

Lemma register_rule_settles profile s : settles s (register_rule profile s).2.
Proof.
  unfold register_rule. destruct (let? _ := _ in _); [|by apply settles_same].
  destruct (as_profiles s !! _); [case_bool_decide; by apply settles_same|].
  destruct (_ <=? _); by apply settles_same.
Qed.

Lemma enqueue_work_settles item now s : settles s (enqueue_work item now s).2.
Proof. unfold enqueue_work. destruct (enqueue_checks item now s) as [[]|]; by apply settles_same. Qed.

Lemma schedules_ok limits leases s :
  limits_widths limits -> schedules limits leases s ->
  as_limits s = limits /\ scheduler_ok s /\ given_leases_ok leases s.
Proof.
  intros Hw. induction 1 as [s Hn|? s ? _ IH|? s ? ? _ IH|? s ? ? ? _ IH Hnow Hs|? s ? ? ? _ IH Hnow Hs|? s ? ? ? _ IH|
    ? s ? ? ? _ IH|? s ? _ IH|? s ? _ IH|? s ? _ IH]; try destruct IH as (Hlim & Hok & Hls).
  - pose proof (scheduler_new_limits _ _ Hn) as Hlim. pose proof (scheduler_new_ok _ _ Hn) as Hok.
    unfold scheduler_new in Hn. step_in Hn. injection Hn as <-. split_and!; auto. constructor; cbn; try apply NoDup_nil_2.
    + intros lease Hin. by apply not_elem_of_nil in Hin.
    + intros lease Hin. by apply not_elem_of_nil in Hin.
    + intros id st Hst. by rewrite lookup_empty in Hst.
    + intros p [Hp|[r Hp]]; cbn in Hp; [set_solver|by rewrite lookup_empty in Hp].
  - apply (step_keeps _ _ s); auto; [by apply register_rule_ok..|]. apply register_rule_settles.
  - apply (step_keeps _ _ s); auto; [apply enqueue_work_ok; by rewrite ?Hlim..|]. apply enqueue_work_settles.
  - destruct (schedule_next_spec _ s Hok Hnow) as (r & s1 & Hs' & Hok' & Hfr & Ho). rewrite Hs in Hs'. injection Hs' as <- <-.
    split; [by destruct Hfr as [-> _]|]. split; [done|]. exact (lease_keeps _ _ _ _ _ Hok Hls Hs Hfr Ho).
  - destruct (schedule_next_spec _ s Hok Hnow) as (r & s1 & Hs' & Hok' & Hfr & _). rewrite Hs in Hs'. injection Hs' as <- <-.
    apply (step_keeps _ _ s); auto. apply schedule_next_done in Hs as (? & ? & ?). apply settles_same; eauto.
  - apply (step_keeps _ _ s); auto; [by apply complete_lease_ok..|]. apply complete_lease_settles.
  - apply (step_keeps _ _ s); auto; [by apply fail_lease_ok..|]. apply fail_lease_settles.
  - apply (step_keeps _ _ s); auto; [by apply expire_pairs_ok..|]. apply expire_pairs_settles.
  - apply (step_keeps _ _ s); auto; [by apply expire_flights_ok..|]. apply expire_flights_settles.
  - apply (step_keeps _ _ s); auto; [by apply apply_run_stop_ok..|].
    apply settles_same; unfold apply_run_stop; by destruct (scheduler_running s).
Qed.

Context {JPr : JsonLib (gmap str RuleProfile)} {JMe : JsonLib (gmap str RuleMetrics)} {JQ : JsonLib QueueMaterial}
  {JF : JsonLib InFlightMaterial} {JT : JsonLib TerminalMaterial} {JR : JsonLib SchedulerReceipt}.
Context {TPr : JsonTotal (gmap str RuleProfile)} {TMe : JsonTotal (gmap str RuleMetrics)}
  {TQ : JsonTotal QueueMaterial} {TF : JsonTotal InFlightMaterial} {TT : JsonTotal TerminalMaterial}
  {TR : JsonTotal SchedulerReceipt}.

Lemma scheduler_hash_total {A} {JA : JsonLib A} {TA : JsonTotal A} (a : A) : exists h, scheduler_hash a = Ok h.
Proof. unfold scheduler_hash. destruct (to_vec_total a) as [bytes ->]. by eexists. Qed.

Lemma scheduler_receipt_total s :
  exists h1 h2 h3 h4 h5 h,
    scheduler_receipt s = Ok (scheduler_receipt_draft h1 h2 h3 h4 h5 h s)
    /\ scheduler_receipt_verify (scheduler_receipt_draft h1 h2 h3 h4 h5 h s) = Ok tt.
Proof.
  unfold scheduler_receipt.
  destruct (scheduler_hash_total (as_profiles s)) as [h1 ->].
  destruct (scheduler_hash_total (as_metrics s)) as [h2 ->].
  destruct (scheduler_hash_total (map_iter (as_queued s) : QueueMaterial)) as [h3 ->].
  match goal with |- context [scheduler_hash (map ?f ?l)] =>
    destruct (scheduler_hash_total (map f l : InFlightMaterial)) as [h4 ->] end.
  match goal with |- context [@scheduler_hash _ TerminalMaterial _ ?a] =>
    destruct (scheduler_hash_total (a : TerminalMaterial)) as [h5 ->] end.
  destruct (scheduler_hash_total (scheduler_receipt_draft h1 h2 h3 h4 h5 [] s)) as [h Hh]. rewrite Hh.
  do 6 eexists. split; [reflexivity|]. unfold scheduler_receipt_verify.
  unfold scheduler_receipt_draft in Hh. cbn. rewrite Hh.
  cbn. by rewrite bool_decide_true.
Qed.

(** C27: along every history of calls the scheduler loses no work and does none twice:
    every known pair is in exactly one place (queued, leased, completed, failed or
    expired) and no other pair is anywhere; its receipt can be made, verifies, and its
    counts add up to the known pairs; the outstanding reservations are the sums over
    queued and leased work and within the limits, as are the sizes of the queue, of the
    leases and of the known pairs; no pair and no lease id is ever leased twice; what is
    in flight is a lease that was given, for its pair and until its time; and work that
    was completed or failed was leased before. *)
Theorem scheduler_conserves_work limits leases s :
  limits_widths limits -> schedules limits leases s ->
  (forall p, occupancy p s = ind (p ∈ as_known_pairs s))
  /\ (exists receipt, scheduler_receipt s = Ok receipt /\ scheduler_receipt_verify receipt = Ok tt
       /\ sr_known_pairs receipt
          = sr_queued_pairs receipt + sr_in_flight_pairs receipt + sr_completed_pairs receipt
            + sr_failed_pairs receipt + sr_expired_authorizations receipt
       /\ sr_outstanding_request_reservations receipt = reserved wi_estimated_requests s
       /\ sr_outstanding_mutation_reservations receipt = reserved wi_estimated_mutations s
       /\ sr_outstanding_request_reservations receipt <= sl_maximum_outstanding_request_reservations limits
       /\ sr_outstanding_mutation_reservations receipt <= sl_maximum_outstanding_mutation_reservations limits
       /\ sr_in_flight_pairs receipt <= sl_maximum_in_flight limits
       /\ sr_queued_pairs receipt <= sl_maximum_queued_pairs limits
       /\ sr_known_pairs receipt <= sl_maximum_known_pairs limits)
  /\ NoDup (sle_pair <$> leases) /\ NoDup (sle_lease_id <$> leases)
  /\ (forall id state, as_in_flight s !! id = Some state -> exists lease,
        lease ∈ leases /\ sle_lease_id lease = id /\ sle_pair lease = lease_pair state
        /\ sle_expires_at_epoch_seconds lease = sls_expires_at_epoch_seconds state
        /\ (sle_expires_at_epoch_seconds lease
             <= wi_authorization_expires_at_epoch_seconds (sls_item state))%Z)
  /\ (forall p, worked s p -> p ∈ sle_pair <$> leases).
Proof.
  intros Hw Hs. apply schedules_ok in Hs as (<- & Hok & Hls); [|done].
  split_and!; [by apply so_occupancy| |by apply (lo_pairs leases s)|by apply (lo_ids leases s)| |by apply (lo_worked leases s)].
  - destruct (scheduler_receipt_total s) as (h1 & h2 & h3 & h4 & h5 & h & Hr & Hv).
    eexists. split; [exact Hr|]. split; [exact Hv|]. cbn.
    destruct (so_requests s Hok), (so_mutations s Hok), (so_bounds s Hok) as (? & ? & ?). pose proof (so_count s Hok).
    split_and!; auto.
  - intros id state Hst. destruct (lo_flight leases s Hls id state Hst) as (lease & Hin & Hid & Hp & He).
    destruct (so_flight s Hok id state Hst) as (_ & Hexp & _). exists lease. rewrite He. split_and!; auto.
Qed.

(** C28: asking for work always gives an answer, and the right one. A lease goes to a
    queued item whose authorisation is current and which comes first among all such
    items: no other has a higher score, and ties are broken by the pair; the lease
    names that item, carries its score and the next number, ends when the
    authorisation does or the lease time has passed, whichever is first, and the item
    moves from the queue to the leases. Work is refused only because the run is stopped
    (and then nothing changes), the open leases are as many as the limit, or no queued
    item is current: otherwise a lease is given. *)
Theorem lease_goes_to_the_best limits leases s now :
  limits_widths limits -> schedules limits leases s -> (i64_min <= now < i64_max)%Z ->
  exists r s', schedule_next now s = Done (r, s') /\ next_outcome now s r s'
    /\ (as_stop_reason s = None -> map_len (open_leases now s) < sl_maximum_in_flight limits ->
        (exists p item, as_queued s !! p = Some item /\ is_current now item = true) ->
        exists lease, r = Ok lease
          /\ forall p other score, as_queued s !! p = Some other -> is_current now other = true ->
                score_item other s = Ok score ->
                sc_fixed_point_score score <= sc_fixed_point_score (sle_score lease)).
Proof.
  intros Hw Hs Hnow. apply schedules_ok in Hs as (<- & Hok & _); [|done].
  destruct (schedule_next_spec now s Hok Hnow) as (r & s' & Hr & _ & _ & Ho). exists r, s'. split_and!; auto.
  intros Hrun Hroom (p & item & Hq & Hc). destruct r as [lease|e].
  - exists lease. split; [done|]. intros q other score Hoq Hoc Hos.
    destruct Ho as (_ & i & sc & ex & suf & -> & (_ & _ & _ & Hbest) & _).
    exact (rank_le_score _ _ (Hbest q other score Hoq Hoc Hos)).
  - exfalso. destruct e; cbn in Ho; try done.
    + lia.
    + destruct Ho as [Hr' _]. by rewrite Hrun in Hr'.
    + destruct Ho as [_ Hno]. by rewrite (Hno p item Hq) in Hc.
Qed.
End History.

(** ** A small run *)

Definition toy_lease_tuple_json : JsonLib LeaseTuple :=
  {| to_vec t := let '(n, key, auth, _, _) := t in Ok (decimal n ++ pk_rule_id key ++ auth) |}.
Definition toy_profiles_json : JsonLib (gmap str RuleProfile) := {| to_vec m := Ok (decimal (map_len m)) |}.
Definition toy_metrics_json : JsonLib (gmap str RuleMetrics) := {| to_vec m := Ok (decimal (map_len m)) |}.
Definition toy_queue_json : JsonLib QueueMaterial := {| to_vec l := Ok (decimal (len l)) |}.
Definition toy_flight_json : JsonLib InFlightMaterial := {| to_vec l := Ok (decimal (len l)) |}.
Definition toy_terminal_json : JsonLib TerminalMaterial := {| to_vec t := Ok (decimal (set_len t.1.1)) |}.
Definition toy_scheduler_receipt_json : JsonLib SchedulerReceipt := {| to_vec r := Ok (decimal (sr_known_pairs r)) |}.

Definition demo_scheduler_limits : SchedulerLimits :=
  {| sl_maximum_rules := 4; sl_maximum_known_pairs := 8; sl_maximum_queued_pairs := 8; sl_maximum_in_flight := 2;
     sl_maximum_outstanding_request_reservations := 100; sl_maximum_outstanding_mutation_reservations := 100;
     sl_lease_seconds := 60 |}.
Definition demo_rule (rule : str) (severity : N) : RuleProfile :=
  {| rp_rule_id := rule; rp_severity_weight := severity; rp_confidence_weight := 1; rp_base_priority_weight := 1;
     rp_minimum_cost_units := 1 |}.
Definition demo_item (endpoint : byte) (rule : str) : AuthorizedWorkItem :=
  {| wi_pair := {| pk_endpoint_sha256 := replicate 64 endpoint; pk_rule_id := rule |};
     wi_plan_sha256 := replicate 64 endpoint; wi_capability_sha256 := replicate 64 endpoint;
     wi_authorization_sha256 := replicate 64 endpoint; wi_authorization_expires_at_epoch_seconds := 1000;
     wi_estimated_requests := 3; wi_estimated_mutations := 1; wi_estimated_cost_units := 5;
     wi_item_priority_weight := 1 |}.
Definition demo_empty : AdaptiveRuleScheduler :=
  {| as_limits := demo_scheduler_limits; as_profiles := ∅; as_metrics := ∅; as_queued := ∅; as_in_flight := ∅;
     as_known_pairs := ∅; as_completed_pairs := ∅; as_failed_pairs := ∅; as_expired_pairs := ∅;
     as_outstanding_request_reservations := 0; as_outstanding_mutation_reservations := 0;
     as_next_lease_sequence := 1; as_stop_reason := None |}.
(** Two rules, the second graver, with one endpoint each. *)
Definition demo_queued : AdaptiveRuleScheduler :=
  (enqueue_work (demo_item "b" "grave") 10 (enqueue_work (demo_item "a" "mild") 10
     (register_rule (demo_rule "grave" 9) (register_rule (demo_rule "mild" 1) demo_empty).2).2).2).2.
Definition demo_next : Result ScheduleLease SchedulerError * AdaptiveRuleScheduler :=
  match schedule_next (S := toy_sha256) (JL := toy_lease_tuple_json) 20 demo_queued with
  | Done x => x | _ => (Err SeNoWork, demo_queued) end.
Definition demo_lease : ScheduleLease :=
  match demo_next.1 with
  | Ok lease => lease
  | Err _ => granted_lease (demo_item "a" "mild") {| sc_fixed_point_score := 0; sc_useful_reward_units := 0;
               sc_penalty_units := 0; sc_accounted_cost_units := 0; sc_exploration_numerator := 0;
               sc_exploration_denominator := 0 |} 0 0 0 []
  end.

Lemma run_pair_inj {A B} (x x' : A) (y y' : B) : Done (x, y) = Done (x', y') -> x = x' /\ y = y'.
Proof. by intros [= <- <-]. Qed.

Lemma demo_next_run :
  schedule_next (S := toy_sha256) (JL := toy_lease_tuple_json) 20 demo_queued = Done (Ok demo_lease, demo_next.2).
Proof.
  assert (match schedule_next (S := toy_sha256) (JL := toy_lease_tuple_json) 20 demo_queued with
          | Done (Ok _, _) => true | _ => false end = true) as H by (vm_compute; reflexivity).
  unfold demo_lease, demo_next. destruct (schedule_next 20 demo_queued) as [[[l|e] s']|]; done.
Qed.

Lemma demo_queued_schedules : schedules (S := toy_sha256) (JL := toy_lease_tuple_json) demo_scheduler_limits [] demo_queued.
Proof. apply sc_enqueue, sc_enqueue, sc_register, sc_register, sc_new. vm_compute. reflexivity. Qed.

Lemma demo_next_schedules : schedules (S := toy_sha256) (JL := toy_lease_tuple_json) demo_scheduler_limits [demo_lease] demo_next.2.
Proof. eapply sc_lease; [exact demo_queued_schedules| |exact demo_next_run]. vm_compute. split; [discriminate|done]. Qed.

Lemma demo_limits_widths : limits_widths demo_scheduler_limits.
Proof. by split; vm_compute. Qed.

Lemma scheduler_conserves_work_witness :
  NoDup (sle_pair <$> [demo_lease])
  /\ (exists receipt,
        @scheduler_receipt toy_sha256 toy_profiles_json toy_metrics_json toy_queue_json toy_flight_json
          toy_terminal_json toy_scheduler_receipt_json demo_next.2 = Ok receipt
        /\ sr_known_pairs receipt = 2 /\ sr_queued_pairs receipt = 1 /\ sr_in_flight_pairs receipt = 1
        /\ sr_outstanding_request_reservations receipt = reserved wi_estimated_requests demo_next.2).
Proof.
  assert (@JsonTotal LeaseTuple toy_lease_tuple_json) as T1 by (constructor; intros [[[[? ?] ?] ?] ?]; by eexists).
  assert (@JsonTotal (gmap str RuleProfile) toy_profiles_json) as T2 by (constructor; intros; by eexists).
  assert (@JsonTotal (gmap str RuleMetrics) toy_metrics_json) as T3 by (constructor; intros; by eexists).
  assert (@JsonTotal QueueMaterial toy_queue_json) as T4 by (constructor; intros; by eexists).
  assert (@JsonTotal InFlightMaterial toy_flight_json) as T5 by (constructor; intros; by eexists).
  assert (@JsonTotal TerminalMaterial toy_terminal_json) as T6 by (constructor; intros; by eexists).
  assert (@JsonTotal SchedulerReceipt toy_scheduler_receipt_json) as T7 by (constructor; intros; by eexists).
  destruct (@scheduler_conserves_work toy_sha256 toy_sha256_laws toy_lease_tuple_json T1 toy_profiles_json toy_metrics_json
    toy_queue_json toy_flight_json toy_terminal_json toy_scheduler_receipt_json T2 T3 T4 T5 T6 T7
    demo_scheduler_limits [demo_lease] demo_next.2 demo_limits_widths demo_next_schedules)
    as (_ & (receipt & Hr & _ & _ & Hres & _) & Hnd & _).
  split; [exact Hnd|]. exists receipt. split; [exact Hr|].
  vm_compute in Hr. injection Hr as <-. split; [reflexivity|]. split; [reflexivity|]. split; [reflexivity|exact Hres].
Defined.

Lemma lease_goes_to_the_best_witness :
  exists lease s', schedule_next (S := toy_sha256) (JL := toy_lease_tuple_json) 20 demo_queued = Done (Ok lease, s')
    /\ next_outcome 20 demo_queued (Ok lease) s' /\ pk_rule_id (sle_pair lease) = ("grave" : str)
    /\ sle_expires_at_epoch_seconds lease = 80%Z.
Proof.
  assert (@JsonTotal LeaseTuple toy_lease_tuple_json) as T1 by (constructor; intros [[[[? ?] ?] ?] ?]; by eexists).
  destruct (@lease_goes_to_the_best toy_sha256 toy_sha256_laws toy_lease_tuple_json T1 demo_scheduler_limits [] demo_queued 20%Z
    demo_limits_widths demo_queued_schedules) as (r & s' & Hr & Ho & _);
    [split; [discriminate|reflexivity]|].
  rewrite demo_next_run in Hr. apply run_pair_inj in Hr as [<- <-]. exists demo_lease, demo_next.2.
  split; [exact demo_next_run|]. split; [exact Ho|]. split; vm_compute; reflexivity.
Defined.
