(* ===== verification/Disk.v ===== *)
(** * Disk: the files of a directory ([std::fs])

    The stores of [crates/nxb-passive-analyzers] keep their files in one directory.
    A disk is what that directory holds, with the outcomes of the calls to come: any
    call may fail, and a write that fails may have written some of its bytes. Names are
    names in that directory: paths that lead out of it, and entries that are not
    files, are not modelled. *)

From S2P Require Import Prelude ByteStr BTree HashChain HttpSyntax.
Local Open Scope N_scope.

(** ** Model *)

(** How a call fails: its message, and the bytes a write has written by then. *)
Record Fault : Type := { ft_written : N; ft_message : str }.

(** [dk_faults] are the outcomes of the next calls, which succeed once it is used up. *)
Record Disk : Type := { dk_files : gmap str str; dk_faults : list (option Fault) }.

(** The messages of the errors that the state of the disk causes. *)
Inductive IoKind : Type := NotFound | AlreadyExists | UnexpectedEof | InvalidData.
Class OsLib : Type := { os_message : IoKind -> str }.

(** Code that uses the disk and may return early. *)
Definition Fs (E A : Type) : Type := Disk -> Result A E * Disk.

Definition fs_ret {E A} (a : A) : Fs E A := fun d => (Ok a, d).
Definition fs_lift {E A} (r : Result A E) : Fs E A := fun d => (r, d).
Definition fs_bind {E A B} (m : Fs E A) (k : A -> Fs E B) : Fs E B :=
  fun d => match m d with (Ok a, d) => k a d | (Err e, d) => (Err e, d) end.
Definition fs_map_err {E F A} (f : E -> F) (m : Fs E A) : Fs F A :=
  fun d => let '(r, d) := m d in (map_err f r, d).

Notation "'fs!' x ':=' m 'in' k" := (fs_bind m (fun x => k))
  (at level 10, x pattern, m at level 100, k at level 200) : rust_scope.

Definition with_files (files : gmap str str) (d : Disk) : Disk :=
  {| dk_files := files; dk_faults := dk_faults d |}.

(** The outcome of the next call. *)
Definition next_fault (d : Disk) : option Fault * Disk :=
  match dk_faults d with
  | [] => (None, d)
  | f :: rest => (f, {| dk_files := dk_files d; dk_faults := rest |})
  end.

(** A call without a result: [create_dir_all], [sync_all], a seek. *)
Definition fs_call : Fs str unit := fun d =>
  match next_fault d with
  | (Some f, d) => (Err (ft_message f), d)
  | (None, d) => (Ok tt, d)
  end.

Section Files.
Context {OS : OsLib}.

Definition fs_lookup (name : str) : Fs str str := fun d =>
  match dk_files d !! name with
  | Some bytes => (Ok bytes, d)
  | None => (Err (os_message NotFound), d)
  end.

(** [fs::read], and [File::open] of a file to be read, as far as it fails. *)
Definition fs_read (name : str) : Fs str str := fs! _ := fs_call in fs_lookup name.

(** [fs::read_to_string]. *)
Definition fs_read_to_string (name : str) : Fs str str :=
  fs! bytes := fs_read name in
  if from_utf8_ok bytes then fs_ret bytes else fs_lift (Err (os_message InvalidData)).

(** [Path::exists] and [Path::is_file], which are false when the call fails. *)
Definition fs_exists {E} (name : str) : Fs E bool := fun d =>
  match next_fault d with
  | (Some _, d) => (Ok false, d)
  | (None, d) => (Ok (bool_decide (is_Some (dk_files d !! name))), d)
  end.

(** [File::create], which empties a file that exists. *)
Definition fs_create (name : str) : Fs str unit :=
  fs! _ := fs_call in fun d => (Ok tt, with_files (<[name := []]> (dk_files d)) d).

(** [OpenOptions::new().create_new(true)]. *)
Definition fs_create_new (name : str) : Fs str unit :=
  fs! _ := fs_call in
  fun d => match dk_files d !! name with
           | Some _ => (Err (os_message AlreadyExists), d)
           | None => (Ok tt, with_files (<[name := []]> (dk_files d)) d)
           end.

(** [OpenOptions::new().append(true)]. *)
Definition fs_open_append (name : str) : Fs str unit := fs! _ := fs_read name in fs_ret tt.

(** [write_all] at the end of the file. *)
Definition fs_write (name bytes : str) : Fs str unit := fun d =>
  let '(fault, d) := next_fault d in
  let old := default [] (dk_files d !! name) in
  match fault with
  | None => (Ok tt, with_files (<[name := old ++ bytes]> (dk_files d)) d)
  | Some f =>
      (Err (ft_message f), with_files (<[name := old ++ take (N.to_nat (ft_written f)) bytes]> (dk_files d)) d)
  end.

Definition fs_rename (from to : str) : Fs str unit :=
  fs! _ := fs_call in
  fs! bytes := fs_lookup from in
  fun d => (Ok tt, with_files (<[to := bytes]> (delete from (dk_files d))) d).

(** [File::open(directory)] and [sync_all]. *)
Definition fs_sync_directory : Fs str unit := fs! _ := fs_call in fs_call.

(** [metadata(path).len()]. *)
Definition fs_metadata_len (name : str) : Fs str N := fs! bytes := fs_read name in fs_ret (len bytes).

(** [seek(Start(offset))] and [read_exact] into [n] bytes. *)
Definition fs_read_at (bytes : str) (offset n : N) : Fs str str :=
  fs! _ := fs_call in
  fs! _ := fs_call in
  if len bytes <? offset + n then fs_lift (Err (os_message UnexpectedEof))
  else fs_ret (take (N.to_nat n) (drop (N.to_nat offset) bytes)).

(** [read_dir], whose order is not specified: here that of the names. *)
Definition fs_read_dir : Fs str (list str) :=
  fs! _ := fs_call in fun d => (Ok (map_keys (dk_files d)), d).

End Files.

(** The directory entries, one call each, with a check that may return early. *)
Fixpoint fs_for {E A} (body : A -> Fs E unit) (l : list A) : Fs E unit :=
  match l with
  | [] => fs_ret tt
  | x :: rest => fs! _ := body x in fs_for body rest
  end.

(** [text.lines()]: a line ends with a line feed, with or without a carriage return
    before it; what is left at the end is a line unless it is empty. *)
Definition strip_carriage_return (line : str) : str := default line (strip_suffix line [ascii_of_N 13]).
Fixpoint lines_of_pieces (pieces : list str) : list str :=
  match pieces with
  | [] => []
  | [last] => match last with [] => [] | _ => [last] end
  | piece :: rest => strip_carriage_return piece :: lines_of_pieces rest
  end.
Definition text_lines (text : str) : list str := lines_of_pieces (split_byte 10 text).

(** [serde_json::from_str] and [from_slice]. *)
Class JsonParse (A : Type) : Type := { from_str : str -> Result A str }.

(** Reading back what was written gives the value. A struct is written as an object
    in UTF-8 without control characters, which are escaped. *)
Class JsonLines (A : Type) `{JsonLib A} `{JsonParse A} : Prop := {
  from_str_to_vec : forall (a : A) bytes, to_vec a = Ok bytes -> from_str bytes = Ok a;
  to_vec_text : forall (a : A) bytes, to_vec a = Ok bytes -> from_utf8_ok bytes = true;
  to_vec_printable : forall (a : A) bytes,
    to_vec a = Ok bytes -> forallb (fun c => negb (is_ascii_control c)) bytes = true;
  to_vec_object : forall (a : A) bytes,
    to_vec a = Ok bytes -> exists body, bytes = ("{" : str) ++ body ++ ("}" : str)
}.

(** ** Lines *)

Lemma from_utf8_ok_app s t : from_utf8_ok s = true -> from_utf8_ok (s ++ t) = from_utf8_ok t.
Proof.
  remember (length s) as n eqn:Hn. revert s Hn. induction (lt_wf n) as [n _ IH]. intros s ->.
  assert (forall r, (length r < length s)%nat -> from_utf8_ok r = true -> from_utf8_ok (r ++ t) = from_utf8_ok t)
    as IHs by (intros r Hr; by apply (IH (length r))). clear IH.
  destruct s as [|a s1]; [done|]. cbn [app from_utf8_ok]. destruct (in_range 0 127 a).
  { apply IHs. cbn. lia. }
  destruct s1 as [|b s2]; [done|]. cbn [app]. destruct (in_range 194 223 a).
  { intros [-> Hr]%andb_true_iff. apply IHs; [cbn; lia|done]. }
  destruct s2 as [|c s3]; [done|]. cbn [app]. destruct (in_range 224 239 a).
  { intros [[-> ->]%andb_true_iff Hr]%andb_true_iff. apply IHs; [cbn; lia|done]. }
  destruct s3 as [|e s4]; [done|]. cbn [app].
  intros [[[[-> ->]%andb_true_iff ->]%andb_true_iff ->]%andb_true_iff Hr]%andb_true_iff. apply IHs; [cbn; lia|done].
Qed.

Definition no_newline (line : str) : Prop := contains_byte 10 line = false.

Lemma split_byte_line line rest :
  no_newline line -> split_byte 10 (line ++ ascii_of_N 10 :: rest) = line :: split_byte 10 rest.
Proof.
  unfold no_newline, contains_byte. induction line as [|c line IH]; [done|]. cbn [app split_byte existsb]. intros Hn.
  apply orb_false_iff in Hn as [Hc Hl]. rewrite Hc. by rewrite IH.
Qed.

Lemma split_byte_ne n s : split_byte n s <> [].
Proof. destruct s as [|c s]; [done|]. cbn. destruct (is_byte n c); [done|]. by destruct (split_byte n s). Qed.

Lemma text_lines_cons line rest :
  no_newline line -> strip_carriage_return line = line ->
  text_lines (line ++ ascii_of_N 10 :: rest) = line :: text_lines rest.
Proof.
  intros Hn Hs. unfold text_lines. rewrite split_byte_line by done. cbn [lines_of_pieces].
  destruct (split_byte 10 rest) eqn:E; [by apply split_byte_ne in E|]. by rewrite Hs.
Qed.

Section Lines.
Context {A : Type} {J : JsonLib A} {P : JsonParse A} {L : JsonLines A}.

(** A written struct is one line. *)
Lemma json_line (a : A) bytes :
  to_vec a = Ok bytes -> no_newline bytes /\ strip_carriage_return bytes = bytes /\ trim bytes <> [].
Proof.
  intros Ha. pose proof (to_vec_printable a bytes Ha) as Hp. destruct (to_vec_object a bytes Ha) as [body ->].
  set (bytes := ("{" : str) ++ body ++ ("}" : str)) in *. split_and!.
  - unfold no_newline, contains_byte. destruct (existsb _ bytes) eqn:E; [|done].
    apply existsb_exists in E as (c & Hin & Hc). rewrite forallb_forall in Hp. specialize (Hp c Hin). exfalso.
    revert Hc Hp. clear. byte_cases c.
  - unfold strip_carriage_return. destruct (strip_suffix bytes _) as [p|] eqn:E; [|done].
    apply strip_suffix_spec in E. unfold bytes in E. rewrite app_assoc in E. by apply app_inj_tail in E as [_ E].
  - assert (trim bytes = bytes) as ->; [|done].
    apply trim_id; [by destruct body as [|? []]|]. unfold bytes. rewrite app_assoc, reverse_app.
    generalize (reverse (("{" : str) ++ body)). intros [|c [|e r]]; cbn; unfold ws2, ws3; rewrite ?andb_false_r; cbn; rewrite ?andb_false_r; done.
Qed.

(** The lines of a file of written structs. *)
Lemma text_lines_structs (l : list A) lines :
  Forall2 (fun a line => to_vec a = Ok line) l lines ->
  text_lines (flat_map (fun line => line ++ [ascii_of_N 10]) lines) = lines
  /\ from_utf8_ok (flat_map (fun line => line ++ [ascii_of_N 10]) lines) = true.
Proof.
  induction 1 as [|a line l lines Ha _ [IH1 IH2]]; [done|]. cbn [flat_map].
  destruct (json_line a line Ha) as (Hn & Hs & _). rewrite <- app_assoc. split.
  - cbn [app]. rewrite text_lines_cons by done. by rewrite IH1.
  - rewrite from_utf8_ok_app by (by eapply to_vec_text). cbn. exact IH2.
Qed.
End Lines.
