(* ===== verification/Dedup.v ===== *)
(** * The exact deduplication index ([crates/nxb-passive-analyzers], [exact_dedup])

    Finding identifiers are collected in memory and written out as sorted runs of
    fixed-size records, which are searched on disk; a manifest chains the runs. *)

From S2P Require Import Prelude ByteStr BTree HashChain HttpSyntax Coverage Disk.
Local Open Scope N_scope.

(** ** Model *)

Definition FINDING_ID_HEX_BYTES : N := 64.
Definition FIXED_RECORD_BYTES : N := 65.
Definition MAX_HOT_SET_ENTRIES : N := 1000000.
Definition MAX_RUN_ENTRIES : N := 1000000.
Definition MAX_RUNS : N := 4096.

Inductive ExactDedupError : Type :=
  | DdInvalidConfig (message : str)
  | DdInvalidFindingId
  | DdIo (message : str)
  | DdSerialization (message : str)
  | DdDiskBudget
  | DdRunLimit
  | DdManifestChain (record_index : N)
  | DdManifestRecordHash (record_index : N)
  | DdMissingRun (file_name : str)
  | DdRunHash (file_name : str)
  | DdRunStructure (file_name : str)
  | DdOrphanRun (file_name : str).

Record ExactDedupConfig : Type := {
  ec_root : str;
  ec_hot_set_max_entries : N;
  ec_run_max_entries : N;
  ec_disk_budget_bytes : N
}.

Record DedupRunRecord : Type := {
  dr_sequence : N;
  dr_previous_hash : str;
  dr_file_name : str;
  dr_file_sha256 : str;
  dr_first_finding_id : str;
  dr_last_finding_id : str;
  dr_entry_count : N;
  dr_file_bytes : N;
  dr_record_hash : str
}.

#[export] Instance DedupRunRecord_eq_dec : EqDecision DedupRunRecord.
Proof. solve_decision. Defined.

Inductive ExactDedupOutcome : Type := Unique | Duplicate.

Record ExactDedupCheckpoint : Type := {
  ek_index_id : str;
  ek_committed_runs : N;
  ek_committed_unique_ids : N;
  ek_pending_unique_ids : N;
  ek_duplicate_observations : N;
  ek_disk_bytes : N;
  ek_manifest_tail_sha256 : str
}.

Record DiskBackedExactDedupIndex : Type := {
  dx_config : ExactDedupConfig;
  dx_index_id : str;
  dx_hot_set : gset str;
  dx_runs : list DedupRunRecord;
  dx_manifest_tail : str;
  dx_committed_unique_ids : N;
  dx_duplicate_observations : N;
  dx_disk_bytes : N
}.

(** What is hashed of a record. *)
Definition RunTuple : Type := N * str * str * str * str * str * N * N.

Definition MANIFEST : str := "dedup-manifest.jsonl".

(** ** Validation *)

Definition dedup_config_validate (self : ExactDedupConfig) : Result unit ExactDedupError :=
  if bool_decide (ec_root self = []) then Err (DdInvalidConfig "root path is empty")
  else if (ec_hot_set_max_entries self =? 0) || (MAX_HOT_SET_ENTRIES <? ec_hot_set_max_entries self)
          || (ec_run_max_entries self =? 0) || (MAX_RUN_ENTRIES <? ec_run_max_entries self)
  then Err (DdInvalidConfig "hot-set or run bound is outside policy")
  else
    let minimum_run_bytes :=
      saturating_mul (N.min (ec_run_max_entries self) (ec_hot_set_max_entries self)) FIXED_RECORD_BYTES in
    if ec_disk_budget_bytes self <? saturating_add minimum_run_bytes 4096
    then Err (DdInvalidConfig "disk budget cannot hold one configured run")
    else Ok tt.

Definition validate_index_identifier (value : str) : Result unit ExactDedupError :=
  if bool_decide (value = []) || (192 <? len value) || negb (forallb is_identifier_byte value)
  then Err (DdInvalidConfig "index_id") else Ok tt.

Definition validate_finding_id (value : str) : Result unit ExactDedupError :=
  if negb (is_lower_hex_sha256 value) then Err DdInvalidFindingId else Ok tt.

(** ** Runs *)

Fixpoint encode_ids (previous : option str) (ids : list str) (bytes : str) : Result str ExactDedupError :=
  match ids with
  | [] => Ok bytes
  | id :: rest =>
      let? _ := validate_finding_id id in
      if match previous with Some value => str_leb id value | None => false end
      then Err (DdRunStructure "run identifiers are not strictly sorted")
      else encode_ids (Some id) rest (bytes ++ id ++ [ascii_of_N 10])
  end.

Definition encode_fixed_run (ids : list str) : Result str ExactDedupError :=
  if bool_decide (ids = []) || (MAX_RUN_ENTRIES <? len ids)
  then Err (DdRunStructure "run entry count is outside policy")
  else encode_ids None ids [].

(** The bytes of a record, and [chunks_exact]. *)
Definition chunk_id (chunk : str) : str := take 64 chunk.
Definition chunk_ends (chunk : str) : bool :=
  match chunk !! 64%nat with Some c => is_byte 10 c | None => false end.
Fixpoint chunks_exact (fuel : nat) (bytes : str) : list str :=
  match fuel with
  | O => []
  | Datatypes.S fuel =>
      if len bytes <? FIXED_RECORD_BYTES then []
      else take 65 bytes :: chunks_exact fuel (drop 65 bytes)
  end.

(** The records are identifiers in strictly increasing order. *)
Fixpoint chunks_sorted (previous : option str) (chunks : list str) : bool :=
  match chunks with
  | [] => true
  | chunk :: rest =>
      chunk_ends chunk
      && forallb (fun c => is_ascii_digit c || in_range 97 102 c) (chunk_id chunk)
      && negb match previous with Some value => str_leb (chunk_id chunk) value | None => false end
      && chunks_sorted (Some (chunk_id chunk)) rest
  end.

Section Dedup.
Context {S : Sha256Lib} {OS : OsLib} {JT : JsonLib RunTuple} {JR : JsonLib DedupRunRecord}
  {JP : JsonParse DedupRunRecord}.

Definition dedup_hash (bytes : str) : str := to_lower_hex (sha256 bytes).

Definition run_tuple (record : DedupRunRecord) : RunTuple :=
  (dr_sequence record, dr_previous_hash record, dr_file_name record, dr_file_sha256 record,
   dr_first_finding_id record, dr_last_finding_id record, dr_entry_count record, dr_file_bytes record).

Definition dedup_manifest_record_hash (record : DedupRunRecord) : Result str ExactDedupError :=
  map_err DdSerialization (let? bytes := to_vec (run_tuple record) in Ok (dedup_hash bytes)).

Definition io {A} (m : Fs str A) : Fs ExactDedupError A := fs_map_err DdIo m.

(** The search between [low] and [high]. *)
Fixpoint search_run (fuel : nat) (bytes : str) (record : DedupRunRecord) (finding_id : str) (low high : N)
    : Fs ExactDedupError bool :=
  match fuel with
  | O => fs_ret false
  | Datatypes.S fuel =>
      if high <=? low then fs_ret false
      else
        let midpoint := low + (high - low) / 2 in
        fs! buffer := io (fs_read_at bytes (saturating_mul midpoint FIXED_RECORD_BYTES) FIXED_RECORD_BYTES) in
        if negb (chunk_ends buffer) then fs_lift (Err (DdRunStructure (dr_file_name record)))
        else if negb (from_utf8_ok (chunk_id buffer)) then fs_lift (Err (DdRunStructure (os_message InvalidData)))
        else if bool_decide (chunk_id buffer = finding_id) then fs_ret true
        else if str_leb (chunk_id buffer) finding_id
        then search_run fuel bytes record finding_id (saturating_add midpoint 1) high
        else search_run fuel bytes record finding_id low midpoint
  end.

Definition run_contains_exact (record : DedupRunRecord) (finding_id : str) : Fs ExactDedupError bool :=
  fs! bytes := io (fs_read (dr_file_name record)) in
  search_run (Datatypes.S (N.to_nat (dr_entry_count record))) bytes record finding_id 0 (dr_entry_count record).

(** The checks of a run before its file is looked at. *)
Definition run_record_checks (record : DedupRunRecord) : Result unit ExactDedupError :=
  if (dr_entry_count record =? 0) || (MAX_RUN_ENTRIES <? dr_entry_count record)
  then Err (DdRunStructure (dr_file_name record))
  else
    let? _ := validate_finding_id (dr_first_finding_id record) in
    let? _ := validate_finding_id (dr_last_finding_id record) in
    if negb (str_leb (dr_first_finding_id record) (dr_last_finding_id record))
    then Err (DdRunStructure (dr_file_name record)) else Ok tt.

(** The checks of its bytes. Their length was compared with the entry count, which is
    not zero, so that the slices are in range. *)
Definition run_bytes_checks (record : DedupRunRecord) (bytes : str) : Result unit ExactDedupError :=
  if negb (bool_decide (dedup_hash bytes = dr_file_sha256 record)) then Err (DdRunHash (dr_file_name record))
  else if negb (chunks_sorted None (chunks_exact (length bytes) bytes))
  then Err (DdRunStructure (dr_file_name record))
  else
    let first := take 64 bytes in
    let last_offset := saturating_mul (dr_entry_count record - 1) FIXED_RECORD_BYTES in
    let last := take 64 (drop (N.to_nat last_offset) bytes) in
    if negb (from_utf8_ok first) || negb (from_utf8_ok last)
    then Err (DdRunStructure (os_message InvalidData))
    else if negb (bool_decide (first = dr_first_finding_id record))
            || negb (bool_decide (last = dr_last_finding_id record))
    then Err (DdRunStructure (dr_file_name record)) else Ok tt.

Definition verify_dedup_run (record : DedupRunRecord) : Fs ExactDedupError unit :=
  fs! _ := fs_lift (run_record_checks record) in
  fs! is_file := fs_exists (dr_file_name record) in
  if negb is_file then fs_lift (Err (DdMissingRun (dr_file_name record)))
  else
    fs! length := io (fs_metadata_len (dr_file_name record)) in
    let expected_bytes := saturating_mul (dr_entry_count record) FIXED_RECORD_BYTES in
    if negb (length =? expected_bytes) || negb (dr_file_bytes record =? expected_bytes)
    then fs_lift (Err (DdRunStructure (dr_file_name record)))
    else
      fs! bytes := io (fs_read (dr_file_name record)) in
      fs_lift (run_bytes_checks record bytes).

(** ** The manifest *)

Definition dedup_genesis (index_id : str) : str := dedup_hash (("nxb-exact-dedup:" : str) ++ index_id).

Fixpoint load_lines (index : N) (previous_hash : str) (records : list DedupRunRecord) (lines : list str)
    : Fs ExactDedupError (list DedupRunRecord) :=
  match lines with
  | [] => fs_ret records
  | line :: rest =>
      if bool_decide (trim line = []) then load_lines (index + 1) previous_hash records rest
      else
        fs! record := fs_lift (map_err DdSerialization (from_str line)) in
        if negb (dr_sequence record =? len records + 1)
           || negb (bool_decide (dr_previous_hash record = previous_hash))
        then fs_lift (Err (DdManifestChain index))
        else
          fs! expected := fs_lift (dedup_manifest_record_hash record) in
          if negb (bool_decide (dr_record_hash record = expected))
          then fs_lift (Err (DdManifestRecordHash index))
          else
            fs! _ := verify_dedup_run record in
            load_lines (index + 1) (dr_record_hash record) (records ++ [record]) rest
  end.

Definition load_and_verify_dedup_manifest (index_id : str) : Fs ExactDedupError (list DedupRunRecord) :=
  fs! content := io (fs_read_to_string MANIFEST) in
  load_lines 0 (dedup_genesis index_id) [] (text_lines content).

Definition is_orphan (referenced : gset str) (name : str) : bool :=
  ends_with name ".tmp"
  || (starts_with name "dedup-run-" && ends_with name ".idx" && negb (bool_decide (name ∈ referenced))).

Definition reject_orphan_runs (records : list DedupRunRecord) : Fs ExactDedupError unit :=
  let referenced : gset str := list_to_set (map dr_file_name records) in
  fs! entries := io fs_read_dir in
  fs_for (fun name =>
            fs! _ := io fs_call in
            if is_orphan referenced name then fs_lift (Err (DdOrphanRun name)) else fs_ret tt)
    entries.

Fixpoint sum_bytes (total : N) (entries : list str) : Fs ExactDedupError N :=
  match entries with
  | [] => fs_ret total
  | name :: rest =>
      fs! _ := io fs_call in
      fs! _ := io fs_call in
      fs! length := io (fs_metadata_len name) in
      sum_bytes (saturating_add total length) rest
  end.

Definition dedup_directory_bytes : Fs ExactDedupError N :=
  fs! entries := io fs_read_dir in sum_bytes 0 entries.

(** ** Writing *)

Definition atomic_write_dedup_run (file_name bytes : str) : Fs ExactDedupError unit :=
  fs! exists_ := fs_exists file_name in
  if (exists_ : bool) then fs_lift (Err (DdIo "append-only dedup run already exists"))
  else
    let temporary := file_name ++ (".tmp" : str) in
    fs! _ := io (fs_create_new temporary) in
    fs! _ := io (fs_write temporary bytes) in
    fs! _ := io fs_call in
    fs! _ := io (fs_rename temporary file_name) in
    io fs_sync_directory.

Definition append_dedup_manifest_line (line : str) : Fs ExactDedupError unit :=
  fs! _ := io (fs_open_append MANIFEST) in
  fs! _ := io (fs_write MANIFEST line) in
  fs! _ := io fs_call in
  io fs_sync_directory.

(** ** The index *)

Definition dedup_open (config : ExactDedupConfig) (index_id : str) : Fs ExactDedupError DiskBackedExactDedupIndex :=
  fs! _ := fs_lift (dedup_config_validate config) in
  fs! _ := fs_lift (validate_index_identifier index_id) in
  fs! _ := io fs_call in
  fs! exists_ := fs_exists MANIFEST in
  fs! _ := (if (exists_ : bool) then fs_ret tt
            else fs! _ := io (fs_create MANIFEST) in io fs_call) in
  fs! runs := load_and_verify_dedup_manifest index_id in
  fs! _ := reject_orphan_runs runs in
  if MAX_RUNS <? len runs then fs_lift (Err DdRunLimit)
  else
    let manifest_tail :=
      match last runs with Some record => dr_record_hash record | None => dedup_genesis index_id end in
    let committed := fold_left (fun sum record => saturating_add sum (dr_entry_count record)) runs 0 in
    fs! disk_bytes := dedup_directory_bytes in
    if ec_disk_budget_bytes config <? disk_bytes then fs_lift (Err DdDiskBudget)
    else fs_ret {| dx_config := config; dx_index_id := index_id; dx_hot_set := ∅; dx_runs := runs;
                   dx_manifest_tail := manifest_tail; dx_committed_unique_ids := committed;
                   dx_duplicate_observations := 0; dx_disk_bytes := disk_bytes |}.

(** The runs that may hold the identifier, the latest first. *)
Fixpoint search_runs (runs : list DedupRunRecord) (finding_id : str) : Fs ExactDedupError bool :=
  match runs with
  | [] => fs_ret false
  | run :: rest =>
      if str_leb (dr_first_finding_id run) finding_id && str_leb finding_id (dr_last_finding_id run)
      then fs! found := run_contains_exact run finding_id in
           if (found : bool) then fs_ret true else search_runs rest finding_id
      else search_runs rest finding_id
  end.

Definition dedup_contains (finding_id : str) (self : DiskBackedExactDedupIndex) : Fs ExactDedupError bool :=
  fs! _ := fs_lift (validate_finding_id finding_id) in
  if bool_decide (finding_id ∈ dx_hot_set self) then fs_ret true
  else search_runs (reverse (dx_runs self)) finding_id.

Definition run_file_name (sequence : N) : str :=
  ("dedup-run-" : str) ++ decimal020 sequence ++ (".idx" : str).

(** The record of a run of the hot set, and the bytes of its file and line. *)
Definition draft_run (self : DiskBackedExactDedupIndex) (ids : list str)
    : Result (DedupRunRecord * str * str) ExactDedupError :=
  let? run_bytes := encode_fixed_run ids in
  let sequence := len (dx_runs self) + 1 in
  match head ids, last ids with
  | Some first, Some last =>
      let draft record_hash :=
        {| dr_sequence := sequence; dr_previous_hash := dx_manifest_tail self;
           dr_file_name := run_file_name sequence; dr_file_sha256 := dedup_hash run_bytes;
           dr_first_finding_id := first; dr_last_finding_id := last; dr_entry_count := len ids;
           dr_file_bytes := len run_bytes; dr_record_hash := record_hash |} in
      let? record_hash := dedup_manifest_record_hash (draft []) in
      let record := draft record_hash in
      let? line := map_err DdSerialization (to_vec record) in
      Ok (record, run_bytes, line ++ [ascii_of_N 10])
  | _, _ => Err (DdRunStructure "run unexpectedly empty")
  end.

(** The index once a run is committed. *)
Definition with_run (record : DedupRunRecord) (ids : list str) (line : str) (self : DiskBackedExactDedupIndex)
    : DiskBackedExactDedupIndex :=
  {| dx_config := dx_config self; dx_index_id := dx_index_id self;
     dx_hot_set := dx_hot_set self ∖ list_to_set ids; dx_runs := dx_runs self ++ [record];
     dx_manifest_tail := dr_record_hash record;
     dx_committed_unique_ids := saturating_add (dx_committed_unique_ids self) (len ids);
     dx_duplicate_observations := dx_duplicate_observations self;
     dx_disk_bytes := saturating_add (saturating_add (dx_disk_bytes self) (dr_file_bytes record)) (len line) |}.

Definition flush_one_run (self : DiskBackedExactDedupIndex) (d : Disk)
    : Result N ExactDedupError * DiskBackedExactDedupIndex * Disk :=
  if bool_decide (dx_hot_set self = ∅) then (Ok 0, self, d)
  else if MAX_RUNS <=? len (dx_runs self) then (Err DdRunLimit, self, d)
  else
    let ids := take (N.to_nat (ec_run_max_entries (dx_config self))) (btree_iter (dx_hot_set self)) in
    match draft_run self ids with
    | Err error => (Err error, self, d)
    | Ok (record, run_bytes, line) =>
        let required := saturating_add (saturating_add (dr_file_bytes record) (len line)) 4096 in
        if ec_disk_budget_bytes (dx_config self) <? saturating_add (dx_disk_bytes self) required
        then (Err DdDiskBudget, self, d)
        else
          match (fs! _ := atomic_write_dedup_run (dr_file_name record) run_bytes in
                 append_dedup_manifest_line line) d with
          | (Err error, d) => (Err error, self, d)
          | (Ok _, d) => (Ok (len ids), with_run record ids line self, d)
          end
    end.

(** [while !self.hot_set.is_empty()]. *)
Fixpoint flush_loop (fuel : nat) (committed : N) (self : DiskBackedExactDedupIndex) (d : Disk)
    : Result N ExactDedupError * DiskBackedExactDedupIndex * Disk :=
  match fuel with
  | O => (Ok committed, self, d)
  | Datatypes.S fuel =>
      if bool_decide (dx_hot_set self = ∅) then (Ok committed, self, d)
      else match flush_one_run self d with
           | (Err error, self, d) => (Err error, self, d)
           | (Ok n, self, d) => flush_loop fuel (saturating_add committed n) self d
           end
  end.

Definition dedup_flush (self : DiskBackedExactDedupIndex) (d : Disk)
    : Result N ExactDedupError * DiskBackedExactDedupIndex * Disk :=
  flush_loop (size (dx_hot_set self)) 0 self d.

Definition with_duplicate (self : DiskBackedExactDedupIndex) : DiskBackedExactDedupIndex :=
  {| dx_config := dx_config self; dx_index_id := dx_index_id self; dx_hot_set := dx_hot_set self;
     dx_runs := dx_runs self; dx_manifest_tail := dx_manifest_tail self;
     dx_committed_unique_ids := dx_committed_unique_ids self;
     dx_duplicate_observations := saturating_add (dx_duplicate_observations self) 1;
     dx_disk_bytes := dx_disk_bytes self |}.

Definition with_hot (finding_id : str) (self : DiskBackedExactDedupIndex) : DiskBackedExactDedupIndex :=
  {| dx_config := dx_config self; dx_index_id := dx_index_id self;
     dx_hot_set := {[finding_id]} ∪ dx_hot_set self;
     dx_runs := dx_runs self; dx_manifest_tail := dx_manifest_tail self;
     dx_committed_unique_ids := dx_committed_unique_ids self;
     dx_duplicate_observations := dx_duplicate_observations self; dx_disk_bytes := dx_disk_bytes self |}.

Definition classify_and_insert (finding_id : str) (self : DiskBackedExactDedupIndex) (d : Disk)
    : Result ExactDedupOutcome ExactDedupError * DiskBackedExactDedupIndex * Disk :=
  match (fs! _ := fs_lift (validate_finding_id finding_id) in dedup_contains finding_id self) d with
  | (Err error, d) => (Err error, self, d)
  | (Ok true, d) => (Ok Duplicate, with_duplicate self, d)
  | (Ok false, d) =>
      if ec_hot_set_max_entries (dx_config self) <=? set_len (dx_hot_set self)
      then match flush_one_run self d with
           | (Err error, self, d) => (Err error, self, d)
           | (Ok _, self, d) => (Ok Unique, with_hot finding_id self, d)
           end
      else (Ok Unique, with_hot finding_id self, d)
  end.

Definition dedup_checkpoint (self : DiskBackedExactDedupIndex) : ExactDedupCheckpoint :=
  {| ek_index_id := dx_index_id self; ek_committed_runs := len (dx_runs self);
     ek_committed_unique_ids := dx_committed_unique_ids self;
     ek_pending_unique_ids := set_len (dx_hot_set self);
     ek_duplicate_observations := dx_duplicate_observations self; ek_disk_bytes := dx_disk_bytes self;
     ek_manifest_tail_sha256 := dx_manifest_tail self |}.

Definition dedup_verify (self : DiskBackedExactDedupIndex) : Fs ExactDedupError unit :=
  fs! verified := load_and_verify_dedup_manifest (dx_index_id self) in
  if negb (bool_decide (verified = dx_runs self)) then fs_lift (Err (DdManifestChain 0))
  else reject_orphan_runs verified.

Definition dedup_finish (self : DiskBackedExactDedupIndex) (d : Disk)
    : Result ExactDedupCheckpoint ExactDedupError * Disk :=
  match dedup_flush self d with
  | (Err error, _, d) => (Err error, d)
  | (Ok _, self, d) =>
      match dedup_verify self d with
      | (Err error, d) => (Err error, d)
      | (Ok _, d) => (Ok (dedup_checkpoint self), d)
      end
  end.

End Dedup.
