(* ===== verification/DedupFacts.v ===== *)
(** * What the deduplication index guarantees

    Whatever calls to the disk fail, the index answers like a set of identifiers; and
    an index that was flushed is found again, with every identifier, when it is
    opened again. *)

From S2P Require Import Prelude ByteStr BTree HashChain HttpSyntax Coverage Disk Dedup.
Local Open Scope N_scope.

(** ** Reading does not change files *)

Definition reads {E A} (m : Fs E A) : Prop := forall d, dk_files (m d).2 = dk_files d.

Lemma reads_ret {E A} (a : A) : reads (E := E) (fs_ret a).
Proof. by intros d. Qed.
Lemma reads_lift {E A} (r : Result A E) : reads (fs_lift r).
Proof. by intros d. Qed.
Lemma reads_bind {E A B} (m : Fs E A) (k : A -> Fs E B) : reads m -> (forall a, reads (k a)) -> reads (fs_bind m k).
Proof.
  intros Hm Hk d. unfold fs_bind. specialize (Hm d). destruct (m d) as [[a|e] d1]; [|done].
  by rewrite (Hk a d1).
Qed.
Lemma reads_map_err {E F A} (f : E -> F) (m : Fs E A) : reads m -> reads (fs_map_err f m).
Proof. intros Hm d. unfold fs_map_err. specialize (Hm d). by destruct (m d). Qed.
Lemma next_fault_files d : dk_files (next_fault d).2 = dk_files d.
Proof. unfold next_fault. by destruct (dk_faults d). Qed.
Lemma reads_call : reads fs_call.
Proof. intros d. unfold fs_call. pose proof (next_fault_files d). by destruct (next_fault d) as [[]]. Qed.
Lemma reads_exists {E} name : reads (E := E) (fs_exists name).
Proof. intros d. unfold fs_exists. pose proof (next_fault_files d). by destruct (next_fault d) as [[]]. Qed.
Lemma reads_for {E A} (body : A -> Fs E unit) l : (forall x, reads (body x)) -> reads (fs_for body l).
Proof. intros Hb. induction l as [|x l IH]; [apply reads_ret|]. by apply reads_bind. Qed.

Create HintDb disk.
#[export] Hint Resolve reads_ret reads_lift reads_bind reads_map_err reads_call reads_exists reads_for : disk.

(** ** Without faults *)

(** A disk whose calls all succeed. *)
Definition calm (d : Disk) : Prop := dk_faults d = [].

Lemma calm_next d : calm d -> next_fault d = (None, d).
Proof. unfold calm, next_fault. by intros ->. Qed.
Lemma calm_call d : calm d -> fs_call d = (Ok tt, d).
Proof. intros Hd. unfold fs_call. by rewrite (calm_next d Hd). Qed.
Lemma calm_exists {E} name d : calm d -> fs_exists (E := E) name d = (Ok (bool_decide (is_Some (dk_files d !! name))), d).
Proof. intros Hd. unfold fs_exists. by rewrite (calm_next d Hd). Qed.

Section Reading.
Context {OS : OsLib}.

Lemma reads_lookup name : reads (fs_lookup name).
Proof. intros d. unfold fs_lookup. by destruct (dk_files d !! name). Qed.
Lemma reads_read name : reads (fs_read name).
Proof. apply reads_bind; [apply reads_call|]. intros _. apply reads_lookup. Qed.
Lemma reads_read_to_string name : reads (fs_read_to_string name).
Proof. apply reads_bind; [apply reads_read|]. intros b. destruct (from_utf8_ok b); auto with disk. Qed.
Lemma reads_metadata name : reads (fs_metadata_len name).
Proof. apply reads_bind; [apply reads_read|]. auto with disk. Qed.
Lemma reads_read_at bytes offset n : reads (fs_read_at bytes offset n).
Proof. apply reads_bind; [auto with disk|]. intros _. apply reads_bind; [auto with disk|]. intros _. destruct (_ <? _); auto with disk. Qed.
Lemma reads_read_dir : reads fs_read_dir.
Proof. apply reads_bind; [auto with disk|]. intros _ d. done. Qed.

Lemma calm_read name d bytes : calm d -> dk_files d !! name = Some bytes -> fs_read name d = (Ok bytes, d).
Proof. intros Hd Hb. unfold fs_read, fs_bind. rewrite (calm_call d Hd). unfold fs_lookup. by rewrite Hb. Qed.
Lemma calm_read_at bytes offset n d :
  calm d -> offset + n <= len bytes ->
  fs_read_at bytes offset n d = (Ok (take (N.to_nat n) (drop (N.to_nat offset) bytes)), d).
Proof.
  intros Hd Hn. unfold fs_read_at, fs_bind. rewrite !(calm_call d Hd).
  destruct (N.ltb_spec (len bytes) (offset + n)); [lia|done].
Qed.
End Reading.
#[export] Hint Resolve reads_lookup reads_read reads_read_to_string reads_metadata reads_read_at reads_read_dir : disk.

(** ** Runs as lists of identifiers *)

Definition LF : byte := ascii_of_N 10.
Definition str_lt (a b : str) : Prop := str_leb b a = false.
Definition is_id (id : str) : Prop := is_lower_hex_sha256 id = true.
Definition run_bytes (ids : list str) : str := flat_map (fun id => id ++ [LF]) ids.

Lemma str_lt_irrefl a : ~ str_lt a a.
Proof. unfold str_lt. pose proof (ord_leb_total a a) as Ht. cbn in Ht. destruct Ht as [H|H]; by rewrite H. Qed.
Lemma str_leb_lt a b : str_leb a b = true -> a <> b -> str_lt a b.
Proof.
  intros H Hne. unfold str_lt. destruct (str_leb b a) eqn:E; [|done]. destruct Hne. by apply (ord_leb_antisymm a b).
Qed.
Lemma str_lt_trans a b c : str_lt a b -> str_lt b c -> str_lt a c.
Proof.
  unfold str_lt. intros H1 H2. destruct (str_leb c a) eqn:E; [|done].
  assert (str_leb b c = true) as Hbc by (pose proof (ord_leb_total b c) as [?|Hx]; [done|cbn in Hx; congruence]).
  pose proof (ord_leb_trans b c a Hbc E) as Hba. cbn in Hba. congruence.
Qed.
Lemma str_lt_leb a b : str_lt a b -> str_leb a b = true.
Proof. unfold str_lt. intros H. pose proof (ord_leb_total a b) as [?|Hx]; [done|cbn in Hx; congruence]. Qed.

Lemma is_id_length id : is_id id -> length id = 64%nat.
Proof. unfold is_id, is_lower_hex_sha256, len. intros H. bools. lia. Qed.

Lemma run_bytes_length ids : Forall is_id ids -> length (run_bytes ids) = (65 * length ids)%nat.
Proof.
  induction 1 as [|id ids Hid _ IH]; [done|]. cbn [run_bytes flat_map length]. unfold run_bytes in IH.
  rewrite !length_app, IH, (is_id_length id Hid). cbn. lia.
Qed.

(** The record at a position. *)
Lemma run_bytes_slice ids i id :
  Forall is_id ids -> ids !! i = Some id -> take 65 (drop (65 * i) (run_bytes ids)) = id ++ [LF].
Proof.
  intros Hf. revert i. induction Hf as [|x ids Hx Hf IH]; intros [|i] Hi; try done; cbn [run_bytes flat_map].
  - injection Hi as ->. rewrite Nat.mul_0_r, drop_0.
    rewrite take_app_length'; [done|]. by rewrite length_app, (is_id_length id Hx).
  - rewrite drop_app_ge by (rewrite length_app, (is_id_length x Hx); cbn; lia).
    rewrite length_app, (is_id_length x Hx). cbn [length].
    replace (65 * S i - (64 + 1))%nat with (65 * i)%nat by lia. by apply IH.
Qed.

Lemma chunk_of_id id : is_id id -> chunk_id (id ++ [LF]) = id /\ chunk_ends (id ++ [LF]) = true.
Proof.
  intros Hid. pose proof (is_id_length id Hid) as Hl. unfold chunk_id, chunk_ends. split.
  - rewrite take_app_le by lia. by rewrite take_ge by lia.
  - rewrite lookup_app_r by lia. by rewrite Hl.
Qed.

Lemma id_ascii id : is_id id -> from_utf8_ok id = true.
Proof.
  unfold is_id, is_lower_hex_sha256. intros H. bools. clear H. induction id as [|c id IH]; [done|].
  cbn [forallb from_utf8_ok] in *. apply andb_true_iff in H0 as [Hc Hr]. rewrite (IH Hr).
  replace (in_range 0 127 c) with true; [done|]. symmetry. revert Hc. clear. byte_cases c.
Qed.

(** The bytes of a run determine its identifiers, and encoding succeeds exactly on
    identifiers in order. *)
Definition sorted_ids (ids : list str) : Prop := Forall is_id ids /\ StronglySorted str_lt ids.

Lemma encode_ids_spec previous ids acc :
  Forall is_id ids -> StronglySorted str_lt ids ->
  (forall p id, previous = Some p -> head ids = Some id -> str_lt p id) ->
  encode_ids previous ids acc = Ok (acc ++ run_bytes ids).
Proof.
  intros Hf. revert previous acc. induction Hf as [|id ids Hid Hf IH]; intros previous acc Hs Hp; cbn [encode_ids].
  - cbn. by rewrite app_nil_r.
  - unfold validate_finding_id. unfold is_id in Hid. rewrite Hid. cbn [negb].
    destruct (match previous with Some value => str_leb id value | None => false end) eqn:E.
    { destruct previous as [p|]; [|done]. specialize (Hp p id eq_refl eq_refl). unfold str_lt in Hp. congruence. }
    apply StronglySorted_inv in Hs as [Hs Hall]. rewrite IH; [|done|].
    + cbn [run_bytes flat_map]. by rewrite <- !app_assoc.
    + intros p x [= <-] Hx. rewrite Forall_forall in Hall. apply Hall. destruct ids; [done|]. injection Hx as ->. left.
Qed.

Lemma encode_fixed_run_spec ids :
  sorted_ids ids -> ids <> [] -> len ids <= MAX_RUN_ENTRIES -> encode_fixed_run ids = Ok (run_bytes ids).
Proof.
  intros [Hf Hs] Hn Hl. unfold encode_fixed_run. rewrite bool_decide_false by done.
  destruct (N.ltb_spec MAX_RUN_ENTRIES (len ids)); [lia|]. cbn [orb]. by rewrite encode_ids_spec.
Qed.

(** Iterating a set gives its elements in strictly increasing order. *)
Lemma btree_iter_strict (X : gset str) : StronglySorted str_lt (btree_iter X).
Proof.
  assert (NoDup (btree_iter X)) as Hnd.
  { unfold btree_iter. rewrite (merge_sort_Permutation ord_le (elements X)). apply NoDup_elements. }
  assert (StronglySorted ord_le (btree_iter X)) as Hs.
  { apply Sorted_StronglySorted; [intros x y z; unfold ord_le; apply ord_leb_trans|apply btree_iter_sorted]. }
  induction Hs as [|x l Hs IH Hall]; [constructor|]. apply NoDup_cons in Hnd as [Hx Hnd].
  constructor; [auto|]. rewrite Forall_forall in *. intros y Hy. apply str_leb_lt; [by apply Hall|]. by intros ->.
Qed.

Lemma StronglySorted_take {A} (R : relation A) n l : StronglySorted R l -> StronglySorted R (take n l).
Proof.
  intros Hs. revert n. induction Hs as [|x l Hs IH Hall]; intros [|n]; cbn; try constructor; auto.
  by apply Forall_take.
Qed.

(** ** Searching *)

(** The code leaves the files alone, returns a value in [P], and fails only when a call
    of the disk does. *)
Definition answers {A} (d : Disk) (m : Fs ExactDedupError A) (P : A -> Prop) : Prop :=
  dk_files (m d).2 = dk_files d /\ (calm d -> (m d).2 = d)
  /\ match (m d).1 with Ok a => P a | Err e => (~ calm d) /\ exists message, e = DdIo message end.

Lemma answers_ret {A} d (a : A) (P : A -> Prop) : P a -> answers d (fs_ret a) P.
Proof. done. Qed.

Lemma answers_bind {A B} d (m : Fs ExactDedupError A) (k : A -> Fs ExactDedupError B) P Q :
  answers d m P -> (forall a d', P a -> dk_files d' = dk_files d -> answers d' (k a) Q) -> answers d (fs_bind m k) Q.
Proof.
  unfold answers, fs_bind. intros (Hf & Hc & Hm) Hk. destruct (m d) as [[a|e] d1]; cbn in *; [|done].
  destruct (Hk a d1 Hm Hf) as (Hf2 & Hc2 & Hr). split; [congruence|]. split.
  - intros Hd. specialize (Hc Hd). subst d1. by apply Hc2.
  - destruct (k a d1).1; [done|]. destruct Hr as [Hn He]. split; [|done]. intros Hd. apply Hn. by rewrite (Hc Hd).
Qed.

Lemma answers_weaken {A} d (m : Fs ExactDedupError A) (P Q : A -> Prop) :
  answers d m P -> (forall a, P a -> Q a) -> answers d m Q.
Proof. intros (H1 & H2 & H3) H. split_and!; auto. destruct (m d).1; auto. Qed.

Lemma answers_io {A} d (m : Fs str A) (P : A -> Prop) :
  dk_files (m d).2 = dk_files d -> (calm d -> exists a, m d = (Ok a, d)) ->
  (forall a, (m d).1 = Ok a -> P a) -> answers d (io m) P.
Proof.
  intros Hf Hc Hp. unfold answers, io, fs_map_err. destruct (m d) as [[a|e] d1] eqn:E; cbn in *.
  - split_and!; auto. intros Hd. by destruct (Hc Hd) as [? [= _ ->]].
  - assert (~ calm d) as Hn by (intros Hd; by destruct (Hc Hd)). split_and!; eauto. intros Hd. by destruct (Hn Hd).
Qed.

Lemma answers_call d : answers d (io fs_call) (fun _ => True).
Proof. apply answers_io; [apply reads_call| |done]. intros Hd. exists tt. by apply calm_call. Qed.

Section Search.
Context {S : Sha256Lib} {OS : OsLib}.

Lemma answers_read d name bytes :
  dk_files d !! name = Some bytes -> answers d (io (fs_read name)) (fun b => b = bytes).
Proof.
  intros Hb. apply answers_io; [apply reads_read| |].
  - intros Hd. exists bytes. by apply calm_read.
  - unfold fs_read, fs_bind, fs_lookup. intros a. pose proof (reads_call d) as Hf. destruct (fs_call d) as [[[]|] d1]; [|done].
    cbn in Hf. rewrite Hf, Hb. by intros [= ->].
Qed.

Lemma answers_read_at d bytes offset n :
  offset + n <= len bytes ->
  answers d (io (fs_read_at bytes offset n)) (fun b => b = take (N.to_nat n) (drop (N.to_nat offset) bytes)).
Proof.
  intros Hn. apply answers_io; [apply reads_read_at| |].
  - intros Hd. eexists. by apply calm_read_at.
  - unfold fs_read_at, fs_bind. intros a. destruct (fs_call d) as [[[]|] d1]; [|done].
    destruct (fs_call d1) as [[[]|] d2]; [|done]. destruct (N.ltb_spec (len bytes) (offset + n)); [lia|]. by intros [= ->].
Qed.

Lemma sorted_lookup ids i j x y :
  StronglySorted str_lt ids -> ids !! i = Some x -> ids !! j = Some y -> (i < j)%nat -> str_lt x y.
Proof.
  intros Hs. revert i j. induction Hs as [|z l Hs IH Hall]; intros [|i] [|j] Hi Hj Hlt; try done; try lia.
  - injection Hi as ->. rewrite Forall_forall in Hall. apply Hall. by eapply list_elem_of_lookup_2.
  - eapply IH; eauto; lia.
Qed.

(** The binary search is right, whatever is read when. *)
Lemma search_run_answers fuel ids record id low high d :
  sorted_ids ids -> len ids <= MAX_RUN_ENTRIES -> low <= high -> high <= len ids ->
  (N.to_nat (high - low) < fuel)%nat ->
  (forall i x, ids !! i = Some x -> N.of_nat i < low -> str_lt x id) ->
  (forall i x, ids !! i = Some x -> high <= N.of_nat i -> str_lt id x) ->
  answers d (search_run fuel (run_bytes ids) record id low high) (fun b => b = bool_decide (id ∈ ids)).
Proof.
  intros [Hids Hs] Hmax. revert low high d.
  induction fuel as [|fuel IH]; intros low high d Hlh Hh Hfuel Hlow Hhigh; [lia|]. cbn [search_run].
  destruct (N.leb_spec high low) as [Hle|Hlt].
  { apply answers_ret. symmetry. apply bool_decide_eq_false. intros (i & Hi)%list_elem_of_lookup.
    destruct (N.lt_ge_cases (N.of_nat i) low) as [Hil|Hil].
    - by apply (str_lt_irrefl id), (Hlow i).
    - apply (str_lt_irrefl id), (Hhigh i); [done|lia]. }
  cbn zeta. pose proof (N.div_lt (high - low) 2 ltac:(lia) ltac:(lia)) as Hq.
  set (mid := low + (high - low) / 2).
  assert (low <= mid < high) as [Hm1 Hm2] by (unfold mid; revert Hq; generalize ((high - low) / 2); intros; lia).
  assert (exists x, ids !! N.to_nat mid = Some x) as [x Hx]
    by (apply lookup_lt_is_Some_2; unfold len in Hh; lia).
  assert (saturating_mul mid FIXED_RECORD_BYTES = mid * 65) as Hoff
    by (unfold saturating_mul, FIXED_RECORD_BYTES, MAX_RUN_ENTRIES, u64_max in *; lia).
  pose proof (proj1 (Forall_lookup _ _) Hids _ _ Hx) as Hxid.
  eapply answers_bind.
  { apply answers_read_at. rewrite Hoff. unfold len. rewrite run_bytes_length by done.
    unfold FIXED_RECORD_BYTES, len in *. lia. }
  intros b d' -> _. rewrite Hoff.
  replace (N.to_nat FIXED_RECORD_BYTES) with 65%nat by done. replace (N.to_nat (mid * 65)) with (65 * N.to_nat mid)%nat by lia.
  rewrite (run_bytes_slice ids (N.to_nat mid) x Hids Hx).
  destruct (chunk_of_id x Hxid) as [-> ->]. rewrite (id_ascii x Hxid). cbn [negb].
  destruct (decide (x = id)) as [Heq|Heq]; [rewrite (bool_decide_true (x = id)) by done|rewrite (bool_decide_false (x = id)) by done].
  { subst x. apply answers_ret. symmetry. apply bool_decide_eq_true. by eapply list_elem_of_lookup_2. }
  assert (saturating_add mid 1 = mid + 1) as Hsat
    by (unfold saturating_add, MAX_RUN_ENTRIES, u64_max in *; lia).
  destruct (str_leb x id) eqn:Ex.
  - apply str_leb_lt in Ex; [|done]. apply IH; [lia|lia|lia| |done]. rewrite Hsat. intros i y Hi Hlt'.
    destruct (decide (i = N.to_nat mid)) as [->|Hne]; [congruence|].
    apply (str_lt_trans y x id); [|done]. apply (sorted_lookup ids i (N.to_nat mid)); auto. lia.
  - assert (str_lt id x) as Hlt' by done. apply IH; [lia|lia|lia|done|]. intros i y Hi Hge.
    destruct (decide (i = N.to_nat mid)) as [->|Hne]; [congruence|].
    apply (str_lt_trans id x y); [done|]. apply (sorted_lookup ids (N.to_nat mid) i); auto. lia.
Qed.
End Search.

(** ** The index as a set *)

Record run_ok (files : gmap str str) (r : DedupRunRecord) (ids : list str) : Prop := {
  ro_name : dr_file_name r = run_file_name (dr_sequence r);
  ro_file : files !! dr_file_name r = Some (run_bytes ids);
  ro_ids : sorted_ids ids;
  ro_first : head ids = Some (dr_first_finding_id r);
  ro_last : last ids = Some (dr_last_finding_id r);
  ro_count : dr_entry_count r = len ids;
  ro_max : len ids <= MAX_RUN_ENTRIES
}.

(** The index keeps the identifiers of its hot set and of its runs, the files of which
    are on disk. *)
Record holds (x : DiskBackedExactDedupIndex) (d : Disk) (idss : list (list str)) : Prop := {
  hd_config : dedup_config_validate (dx_config x) = Ok tt;
  hd_hot : forall id, id ∈ dx_hot_set x -> is_id id;
  hd_size : set_len (dx_hot_set x) <= ec_hot_set_max_entries (dx_config x);
  hd_runs : Forall2 (run_ok (dk_files d)) (dx_runs x) idss;
  hd_sequence : forall n r, dx_runs x !! n = Some r -> dr_sequence r = N.of_nat n + 1;
  hd_limit : len (dx_runs x) <= MAX_RUNS;
  hd_distinct : NoDup (concat idss);
  hd_apart : forall id, id ∈ concat idss -> id ∉ dx_hot_set x;
  hd_committed : dx_committed_unique_ids x = len (concat idss);
  hd_budget : dx_disk_bytes x <= ec_disk_budget_bytes (dx_config x)
}.

Definition dedup_ids (x : DiskBackedExactDedupIndex) (idss : list (list str)) : gset str :=
  dx_hot_set x ∪ list_to_set (concat idss).

Lemma config_bounds c :
  dedup_config_validate c = Ok tt ->
  1 <= ec_hot_set_max_entries c <= MAX_HOT_SET_ENTRIES /\ 1 <= ec_run_max_entries c <= MAX_RUN_ENTRIES.
Proof.
  unfold dedup_config_validate. intros H. repeat step_in H. bools.
  repeat match goal with H : _ || _ = false |- _ => apply orb_false_iff in H as [? ?] end. bools. lia.
Qed.

Lemma sorted_range ids id first last' :
  sorted_ids ids -> head ids = Some first -> last ids = Some last' -> id ∈ ids ->
  str_leb first id = true /\ str_leb id last' = true.
Proof.
  intros [_ Hs] Hf Hl (i & Hi)%list_elem_of_lookup.
  assert (forall a b j k, ids !! j = Some a -> ids !! k = Some b -> (j <= k)%nat -> str_leb a b = true) as Hle.
  { intros a b j k Hj Hk Hjk. destruct (decide (j = k)) as [->|].
    - simplify_eq. pose proof (ord_leb_total a a) as [?|?]; done.
    - apply str_lt_leb, (sorted_lookup ids j k); auto. lia. }
  split.
  - apply (Hle first id 0%nat i); [by destruct ids|done|lia].
  - rewrite last_lookup in Hl. apply (Hle id last' i (Nat.pred (length ids))); auto.
    apply lookup_lt_Some in Hi. lia.
Qed.

Section Index.
Context {S : Sha256Lib} {OS : OsLib} {JT : JsonLib RunTuple} {JR : JsonLib DedupRunRecord}
  {JP : JsonParse DedupRunRecord}.

Lemma run_contains_answers d r ids id :
  run_ok (dk_files d) r ids -> answers d (run_contains_exact r id) (fun b => b = bool_decide (id ∈ ids)).
Proof.
  intros []. eapply answers_bind; [by apply answers_read|]. intros b d' -> _. rewrite ro_count0.
  apply search_run_answers; auto; try lia. intros i x Hi Hge. apply lookup_lt_Some in Hi. unfold len in Hge. lia.
Qed.

Lemma search_runs_answers d runs idss id :
  Forall2 (run_ok (dk_files d)) runs idss ->
  answers d (search_runs runs id) (fun b => b = bool_decide (id ∈ concat idss)).
Proof.
  intros Hr. remember (dk_files d) as files eqn:Ed. revert d Ed.
  induction Hr as [|r ids runs idss Hr _ IH]; intros d Ed; cbn [search_runs concat]; [by apply answers_ret|].
  destruct (str_leb (dr_first_finding_id r) id && str_leb id (dr_last_finding_id r)) eqn:Erange.
  - eapply answers_bind; [apply run_contains_answers; by rewrite <- Ed|]. intros b d' -> Ed'.
    destruct (bool_decide_reflect (id ∈ ids)) as [Hin|Hin].
    + apply answers_ret. cbn beta. symmetry. apply bool_decide_eq_true. apply elem_of_app. by left.
    + eapply answers_weaken; [apply IH; congruence|]. intros b ->. apply bool_decide_ext. rewrite elem_of_app. tauto.
  - eapply answers_weaken; [by apply IH|]. intros b ->. apply bool_decide_ext. rewrite elem_of_app.
    split; [by right|]. intros [Hin|]; [|done]. exfalso. destruct Hr.
    destruct (sorted_range ids id _ _ ro_ids0 ro_first0 ro_last0 Hin) as [H1 H2]. by rewrite H1, H2 in Erange.
Qed.

Lemma elem_of_concat_iff {A} (l : list (list A)) x : x ∈ concat l <-> exists k, k ∈ l /\ x ∈ k.
Proof.
  induction l as [|k l IH]; cbn; [split; [by intros ?%not_elem_of_nil|by intros (? & ?%not_elem_of_nil & _)]|].
  rewrite elem_of_app, IH. setoid_rewrite elem_of_cons. naive_solver.
Qed.

Lemma concat_reverse_elem {A} (l : list (list A)) x : x ∈ concat (reverse l) <-> x ∈ concat l.
Proof. rewrite !elem_of_concat_iff. by setoid_rewrite elem_of_reverse. Qed.

Lemma dedup_contains_answers x d idss id :
  holds x d idss -> is_id id ->
  answers d (dedup_contains id x) (fun b => b = bool_decide (id ∈ dedup_ids x idss)).
Proof.
  intros [] Hid. unfold dedup_contains, validate_finding_id. unfold is_id in Hid. rewrite Hid. cbn [negb].
  unfold dedup_ids. destruct (bool_decide_reflect (id ∈ dx_hot_set x)) as [Hhot|Hhot].
  { apply answers_ret. cbn beta. symmetry. apply bool_decide_eq_true. set_solver. }
  eapply answers_weaken; [apply search_runs_answers, Forall2_reverse, hd_runs0|].
  intros b ->. apply bool_decide_ext. rewrite concat_reverse_elem. set_solver.
Qed.

(** *** Writing *)

(** Only the files named in [P] change. *)
Definition touches {E A} (P : str -> Prop) (m : Fs E A) : Prop :=
  forall d name, ~ P name -> dk_files (m d).2 !! name = dk_files d !! name.

Lemma touches_reads {E A} P (m : Fs E A) : reads m -> touches P m.
Proof. intros Hm d name _. by rewrite Hm. Qed.

Lemma touches_bind {E A B} P (m : Fs E A) (k : A -> Fs E B) :
  touches P m -> (forall a, touches P (k a)) -> touches P (fs_bind m k).
Proof.
  intros Hm Hk d name Hn. unfold fs_bind. specialize (Hm d name Hn). destruct (m d) as [[a|e] d1]; [|done].
  by rewrite (Hk a d1 name Hn).
Qed.

Lemma touches_map_err {E F A} P (f : E -> F) (m : Fs E A) : touches P m -> touches P (fs_map_err f m).
Proof. intros Hm d name Hn. unfold fs_map_err. specialize (Hm d name Hn). by destruct (m d). Qed.

Lemma touches_create_new (P : str -> Prop) name : P name -> touches P (fs_create_new name).
Proof.
  intros HP. apply touches_bind; [apply touches_reads, reads_call|]. intros _ d other Hn.
  destruct (dk_files d !! name); [done|]. cbn. rewrite lookup_insert_ne; [done|]. by intros ->.
Qed.

Lemma touches_write (P : str -> Prop) name bytes : P name -> touches P (fs_write name bytes).
Proof.
  intros HP d other Hn. unfold fs_write. pose proof (next_fault_files d) as Hf. destruct (next_fault d) as [[f|] d1];
    cbn in *; rewrite lookup_insert_ne by (by intros ->); by rewrite Hf.
Qed.

Lemma touches_rename (P : str -> Prop) from to : P from -> P to -> touches P (fs_rename from to).
Proof.
  intros Hf Ht. apply touches_bind; [apply touches_reads, reads_call|]. intros _.
  apply touches_bind; [apply touches_reads, reads_lookup|]. intros bytes d other Hn. cbn.
  rewrite lookup_insert_ne, lookup_delete_ne by (by intros ->). done.
Qed.

Lemma touches_sync P : touches P fs_sync_directory.
Proof. apply touches_reads, reads_bind; auto with disk. Qed.

Definition run_names (name : str) (other : str) : Prop := other = name \/ other = name ++ (".tmp" : str).

Lemma atomic_write_touches name bytes : touches (run_names name) (atomic_write_dedup_run name bytes).
Proof.
  apply touches_bind; [apply touches_reads, reads_exists|]. intros [|]; [apply touches_reads, reads_lift|].
  repeat (apply touches_bind; [|intros _]); apply touches_map_err.
  - apply touches_create_new. by right.
  - apply touches_write. by right.
  - apply touches_reads, reads_call.
  - apply touches_rename; [by right|by left].
  - apply touches_sync.
Qed.

Lemma append_manifest_touches line : touches (fun name => name = MANIFEST) (append_dedup_manifest_line line).
Proof.
  repeat (apply touches_bind; [|intros _]); apply touches_map_err.
  - apply touches_reads, reads_bind; auto with disk.
  - by apply touches_write.
  - apply touches_reads, reads_call.
  - apply touches_sync.
Qed.

Lemma next_fault_none d f d1 : next_fault d = (f, d1) -> dk_files d1 = dk_files d.
Proof. intros H. pose proof (next_fault_files d) as Hf. by rewrite H in Hf. Qed.

(** A completed write leaves the file with its bytes. *)
Lemma atomic_write_file name bytes d d' :
  atomic_write_dedup_run name bytes d = (Ok tt, d') -> dk_files d' !! name = Some bytes.
Proof.
  unfold atomic_write_dedup_run, fs_bind, io, fs_map_err. pose proof (reads_exists (E := ExactDedupError) name d) as H0.
  destruct (fs_exists name d) as [[[|]|] d1]; [done| |done]. cbn in H0.
  set (tmp := name ++ (".tmp" : str)).
  destruct (fs_create_new tmp d1) as [[[]|] d2] eqn:E2; [|done]. cbn [map_err].
  unfold fs_create_new, fs_bind in E2. destruct (fs_call d1) as [[[]|] d1']; [|done].
  destruct (dk_files d1' !! tmp); [done|]. injection E2 as <-.
  destruct (fs_write tmp bytes _) as [[[]|] d3] eqn:E3; [|done]. cbn [map_err].
  unfold fs_write in E3. match type of E3 with context [next_fault ?x] => destruct (next_fault x) as [[f|] d2'] eqn:Ef end; [done|].
  injection E3 as <-. apply next_fault_none in Ef.
  match goal with |- context [fs_call ?x] => pose proof (reads_call x) as H4; destruct (fs_call x) as [[[]|] d4]; [|done] end.
  cbn [map_err snd dk_files with_files] in *. rewrite Ef, lookup_insert_eq in H4. cbn in H4.
  destruct (fs_rename tmp name d4) as [[[]|] d5] eqn:E5; [|done]. cbn [map_err].
  unfold fs_rename, fs_bind in E5. pose proof (reads_call d4) as H5. destruct (fs_call d4) as [[[]|] d4']; [|done].
  unfold fs_lookup in E5. cbn in H5. rewrite H5, H4, lookup_insert_eq in E5. injection E5 as <-.
  match goal with |- context [fs_sync_directory ?x] =>
    pose proof (reads_bind fs_call (fun _ => fs_call) reads_call (fun _ => reads_call) x) as H6 end.
  unfold fs_sync_directory. destruct (fs_bind fs_call _ _) as [[[]|] d6]; [|done]. intros [= <-].
  cbn in H6. by rewrite H6, lookup_insert_eq.
Qed.

(** *** Names *)

Lemma run_file_name_inj a b : run_file_name a = run_file_name b -> a = b.
Proof.
  unfold run_file_name. intros H. apply (inj (app _)) in H. apply app_inv_tail in H. by apply (inj decimal020).
Qed.

Lemma run_file_name_last n : last (run_file_name n) = Some ("x"%char : byte).
Proof. unfold run_file_name. rewrite app_assoc, last_app. done. Qed.

Lemma run_names_other n k : n <> k -> ~ run_names (run_file_name n) (run_file_name k).
Proof.
  intros Hne [He|He]; [by apply run_file_name_inj in He|].
  apply (f_equal last) in He. rewrite run_file_name_last, last_app in He. done.
Qed.

Lemma run_file_name_manifest n : run_file_name n <> MANIFEST.
Proof. by intros [=]. Qed.

(** Files of other runs stay. *)
Lemma runs_framed files files' runs idss n :
  Forall2 (run_ok files) runs idss -> (forall r, r ∈ runs -> dr_sequence r <> n) ->
  (forall k, k <> n -> files' !! run_file_name k = files !! run_file_name k) ->
  Forall2 (run_ok files') runs idss.
Proof.
  intros Hr Hn Hf. induction Hr as [|r ids runs idss Hr _ IH]; constructor.
  - destruct Hr. constructor; auto. rewrite ro_name0 in *. rewrite Hf; [done|]. apply Hn. left.
  - apply IH. intros r' Hin. apply Hn. by right.
Qed.

Lemma holds_framed x d d' idss :
  holds x d idss ->
  (forall k, k <> len (dx_runs x) + 1 -> dk_files d' !! run_file_name k = dk_files d !! run_file_name k) ->
  holds x d' idss.
Proof.
  intros [] Hf. constructor; auto. apply (runs_framed (dk_files d) _ _ _ (len (dx_runs x) + 1)); auto.
  intros r (i & Hi)%list_elem_of_lookup. rewrite (hd_sequence0 i r Hi). apply lookup_lt_Some in Hi. unfold len. lia.
Qed.

(** *** Committing a run *)

Lemma draft_run_spec x ids record bytes line :
  sorted_ids ids -> len ids <= MAX_RUN_ENTRIES -> draft_run x ids = Ok (record, bytes, line) ->
  bytes = run_bytes ids /\ dr_sequence record = len (dx_runs x) + 1 /\ dr_file_name record = run_file_name (dr_sequence record)
  /\ head ids = Some (dr_first_finding_id record) /\ last ids = Some (dr_last_finding_id record)
  /\ dr_entry_count record = len ids.
Proof.
  intros Hs Hl. unfold draft_run. intros H. destruct (encode_fixed_run ids) as [b|] eqn:Ee; [|done].
  assert (ids <> []) as Hne by (intros ->; done). rewrite (encode_fixed_run_spec ids Hs Hne Hl) in Ee. injection Ee as <-.
  destruct (head ids) as [h|] eqn:Eh; [|done]. destruct (last ids) as [l|] eqn:El; [|done].
  destruct (dedup_manifest_record_hash _) as [hash|]; [|done]. destruct (to_vec _) as [json|]; [|done].
  by injection H as <- <- <-.
Qed.

Lemma concat_snoc {A} (l : list (list A)) k : concat (l ++ [k]) = concat l ++ k.
Proof. rewrite concat_app. cbn. by rewrite app_nil_r. Qed.

Lemma concat_len_bound idss : Forall (fun ids : list str => len ids <= MAX_RUN_ENTRIES) idss -> len (concat idss) <= len idss * MAX_RUN_ENTRIES.
Proof.
  induction 1 as [|ids idss Hi _ IH]; [done|]. cbn [concat]. rewrite len_app, len_cons. lia.
Qed.

Lemma hot_ids_sorted x d idss n :
  holds x d idss -> sorted_ids (take n (btree_iter (dx_hot_set x))).
Proof.
  intros Hh. split; [|apply StronglySorted_take, btree_iter_strict].
  apply Forall_take, Forall_forall. intros id Hin. apply (hd_hot x d idss Hh). by apply elem_of_btree_iter.
Qed.

Lemma hot_ids_len (X : gset str) : len (btree_iter X) = set_len X.
Proof. unfold len, set_len, btree_iter. by rewrite (merge_sort_Permutation ord_le (elements X)). Qed.

(** Moving the first identifiers of the hot set to a run. *)
Lemma with_run_holds x d d' idss record line n :
  let ids := take n (btree_iter (dx_hot_set x)) in
  holds x d idss -> len (dx_runs x) < MAX_RUNS -> run_ok (dk_files d') record ids ->
  dr_sequence record = len (dx_runs x) + 1 ->
  (forall k, k <> len (dx_runs x) + 1 -> dk_files d' !! run_file_name k = dk_files d !! run_file_name k) ->
  dx_disk_bytes (with_run record ids line x) <= ec_disk_budget_bytes (dx_config x) ->
  holds (with_run record ids line x) d' (idss ++ [ids])
  /\ dedup_ids (with_run record ids line x) (idss ++ [ids]) = dedup_ids x idss
  /\ set_len (dx_hot_set (with_run record ids line x)) + len ids = set_len (dx_hot_set x).
Proof.
  intros ids Hh Hmax Hrun Hseq Hframe Hbudget.
  assert (forall id, id ∈ ids -> id ∈ dx_hot_set x) as Hsub.
  { intros id Hin. apply elem_of_btree_iter. unfold ids in Hin. by eapply elem_of_subseteq; [apply subseteq_take|]. }
  assert (NoDup ids) as Hnd.
  { apply (NoDup_app ids (drop n (btree_iter (dx_hot_set x)))). unfold ids. rewrite take_drop.
    unfold btree_iter. rewrite (merge_sort_Permutation ord_le (elements _)). apply NoDup_elements. }
  assert (set_len (dx_hot_set x ∖ list_to_set ids) + len ids = set_len (dx_hot_set x)) as Hsize.
  { unfold set_len, len. rewrite <- (size_list_to_set (C := gset str) ids Hnd). rewrite size_difference by set_solver.
    assert (size (list_to_set ids : gset str) <= size (dx_hot_set x))%nat by (apply subseteq_size; set_solver). lia. }
  split_and!; [|unfold dedup_ids; cbn; rewrite concat_snoc, list_to_set_app_L; apply set_eq; intros id; destruct (decide (id ∈ ids)); set_solver|done].
  pose proof (holds_framed x d d' idss Hh Hframe) as Hh'. destruct Hh. constructor; cbn; auto.
  - intros id Hin. apply hd_hot0. set_solver.
  - lia.
  - apply Forall2_app; [|by constructor]. by apply (hd_runs x d' idss).
  - intros i r Hi. apply lookup_app_Some in Hi as [Hi|[Hlen Hi]]; [by apply hd_sequence0|].
    apply list_lookup_singleton_Some in Hi as [Hz ->]. rewrite Hseq. unfold len. lia.
  - rewrite len_app. cbn. unfold len in *. cbn. lia.
  - rewrite concat_snoc. apply NoDup_app. split_and!; auto. intros id Hin Hin'. by apply (hd_apart0 id Hin), Hsub.
  - intros id. rewrite concat_snoc, elem_of_app. intros [Hin|Hin]; [apply hd_apart0 in Hin|]; set_solver.
  - rewrite concat_snoc, len_app, <- hd_committed0. apply (saturating_add_small _ _ u64_max); [|done].
    pose proof (Forall2_length _ _ _ hd_runs0) as Hlen.
    assert (len (concat idss) <= len idss * MAX_RUN_ENTRIES) as Hb.
    { apply concat_len_bound. apply Forall_forall. intros k (i & Hi)%list_elem_of_lookup.
      destruct (Forall2_lookup_r _ _ _ _ _ hd_runs0 Hi) as (r & _ & []). done. }
    pose proof (ro_max _ _ _ Hrun). rewrite hd_committed0. unfold len, MAX_RUNS, MAX_RUN_ENTRIES, u64_max in *. fold ids in H. lia.
Qed.

(** Whatever becomes of the write, the index keeps its identifiers. *)
Lemma flush_one_run_spec x d idss r x' d' :
  holds x d idss -> flush_one_run x d = (r, x', d') ->
  exists idss', holds x' d' idss' /\ dedup_ids x' idss' = dedup_ids x idss
    /\ match r with
       | Ok n => set_len (dx_hot_set x') + n = set_len (dx_hot_set x) /\ (dx_hot_set x <> ∅ -> 0 < n)
       | Err _ => x' = x
       end.
Proof.
  intros Hh. unfold flush_one_run. case_bool_decide as Hemp; [intros [= <- <- <-]; exists idss; split_and!; auto; [lia|by intros []]|].
  destruct (N.leb_spec MAX_RUNS (len (dx_runs x))) as [Hle|Hlt]; [intros [= <- <- <-]; exists idss; split_and!; auto|].
  set (n := N.to_nat (ec_run_max_entries (dx_config x))). set (ids := take n (btree_iter (dx_hot_set x))).
  pose proof (hot_ids_sorted x d idss n Hh) as Hsorted. fold ids in Hsorted.
  destruct (config_bounds _ (hd_config x d idss Hh)) as [_ Hrm].
  assert (len ids <= MAX_RUN_ENTRIES) as Hids by (unfold ids, len, n; rewrite length_take; lia).
  assert (0 < len ids) as Hpos.
  { unfold len, ids, n. rewrite length_take. pose proof (hot_ids_len (dx_hot_set x)) as Hl. unfold len, set_len in Hl.
    assert (size (dx_hot_set x) <> 0%nat) by (intros ?%size_empty_inv; by apply Hemp, leibniz_equiv). lia. }
  destruct (draft_run x ids) as [[[record bytes] line]|] eqn:Ed; [|intros [= <- <- <-]; exists idss; split_and!; auto].
  destruct (draft_run_spec x ids record bytes line Hsorted Hids Ed) as (-> & Hseq & Hname & Hfirst & Hlast & Hcount).
  destruct (N.ltb_spec (ec_disk_budget_bytes (dx_config x))
    (saturating_add (dx_disk_bytes x) (saturating_add (saturating_add (dr_file_bytes record) (len line)) 4096)))
    as [Hb|Hb]; [intros [= <- <- <-]; exists idss; split_and!; auto|].
  assert (forall k, k <> len (dx_runs x) + 1 -> forall d1,
    dk_files (atomic_write_dedup_run (dr_file_name record) (run_bytes ids) d1).2 !! run_file_name k
    = dk_files d1 !! run_file_name k) as Hwrite.
  { intros k Hk d1. apply atomic_write_touches. rewrite Hname, Hseq. apply run_names_other. lia. }
  assert (forall k d1, dk_files (append_dedup_manifest_line line d1).2 !! run_file_name k = dk_files d1 !! run_file_name k) as Happend
    by (intros k d1; apply append_manifest_touches, run_file_name_manifest).
  unfold fs_bind. destruct (atomic_write_dedup_run _ _ d) as [[[]|e] d1] eqn:Ew.
  2: { intros [= <- <- <-]. exists idss. split_and!; auto. apply (holds_framed x d); auto.
       intros k Hk. specialize (Hwrite k Hk d). by rewrite Ew in Hwrite. }
  pose proof (atomic_write_file _ _ _ _ Ew) as Hfile.
  assert (forall k, k <> len (dx_runs x) + 1 ->
    dk_files (append_dedup_manifest_line line d1).2 !! run_file_name k = dk_files d !! run_file_name k) as Hframe.
  { intros k Hk. rewrite Happend. specialize (Hwrite k Hk d). by rewrite Ew in Hwrite. }
  destruct (append_dedup_manifest_line line d1) as [[u|e] d2] eqn:Ea.
  - intros [= <- <- <-]. exists (idss ++ [ids]).
    destruct (with_run_holds x d d2 idss record line n) as (H1 & H2 & H3); auto.
    { constructor; auto. specialize (Happend (dr_sequence record) d1). rewrite Ea, <- Hname in Happend. exact (eq_trans Happend Hfile). }
    { cbn. unfold saturating_add in *. lia. }
  - intros [= <- <- <-]. exists idss. split_and!; auto. by apply (holds_framed x d).
Qed.

(** The configuration and the name of the index stay. *)
Definition same_index (x x' : DiskBackedExactDedupIndex) : Prop :=
  dx_config x' = dx_config x /\ dx_index_id x' = dx_index_id x.

Lemma flush_one_same x d r x' d' : flush_one_run x d = (r, x', d') -> same_index x x'.
Proof.
  unfold flush_one_run. intros H. repeat (case_match; simplify_eq; try done).
Qed.

Lemma flush_loop_spec fuel committed x d idss r x' d' :
  holds x d idss -> (size (dx_hot_set x) <= fuel)%nat -> flush_loop fuel committed x d = (r, x', d') ->
  exists idss', holds x' d' idss' /\ dedup_ids x' idss' = dedup_ids x idss
    /\ (is_ok r = true -> dx_hot_set x' = ∅).
Proof.
  revert committed x d idss. induction fuel as [|fuel IH]; intros committed x d idss Hh Hs; cbn [flush_loop].
  { intros [= <- <- <-]. exists idss. split_and!; auto. intros _.
    apply leibniz_equiv, size_empty_inv. lia. }
  case_bool_decide as Hemp; [intros [= <- <- <-]; exists idss; by split_and!|].
  destruct (flush_one_run x d) as [[[n|e] x1] d1] eqn:Ef;
    destruct (flush_one_run_spec _ _ _ _ _ _ Hh Ef) as (idss1 & Hh1 & Hids1 & Hr).
  - intros Hl. destruct Hr as [Hn Hpos]. specialize (Hpos Hemp).
    destruct (IH _ _ _ _ Hh1 ltac:(unfold set_len in Hn; lia) Hl) as (idss2 & Hh2 & Hids2 & He).
    exists idss2. split_and!; auto. congruence.
  - intros [= <- <- <-]. exists idss1. by split_and!.
Qed.

Lemma classify_spec id x d idss r x' d' :
  holds x d idss -> classify_and_insert id x d = (r, x', d') ->
  exists idss', holds x' d' idss'
    /\ match r with
       | Ok Unique => is_id id /\ (id ∉ dedup_ids x idss) /\ dedup_ids x' idss' = {[id]} ∪ dedup_ids x idss
       | Ok Duplicate => id ∈ dedup_ids x idss /\ dedup_ids x' idss' = dedup_ids x idss
       | Err _ => dedup_ids x' idss' = dedup_ids x idss
       end.
Proof.
  intros Hh. unfold classify_and_insert. unfold validate_finding_id at 1.
  destruct (is_lower_hex_sha256 id) eqn:Hid; cbn [negb]; [|intros [= <- <- <-]; by exists idss].
  unfold fs_bind at 1, fs_lift at 1.
  destruct (dedup_contains_answers x d idss id Hh Hid) as (Hfiles & _ & Hans).
  destruct (dedup_contains id x d) as [[b|e] d1]; cbn [fst snd] in *.
  2: { intros [= <- <- <-]. exists idss. split; [|done]. apply (holds_framed x d); auto. intros k _. by rewrite Hfiles. }
  assert (holds x d1 idss) as Hh1 by (apply (holds_framed x d); auto; intros k _; by rewrite Hfiles).
  destruct b; symmetry in Hans.
  { apply bool_decide_eq_true in Hans. intros [= <- <- <-]. exists idss. split; [|done]. by destruct Hh1. }
  apply bool_decide_eq_false in Hans.
  assert (forall y dy idssy, holds y dy idssy -> dedup_ids y idssy = dedup_ids x idss ->
    set_len (dx_hot_set y) < ec_hot_set_max_entries (dx_config y) ->
    holds (with_hot id y) dy idssy /\ dedup_ids (with_hot id y) idssy = {[id]} ∪ dedup_ids x idss) as Hins.
  { intros y dy idssy Hy Hids Hroom. split; [|unfold dedup_ids in *; cbn; set_solver].
    assert (id ∉ dedup_ids y idssy) as Hfresh by (by rewrite Hids). unfold dedup_ids in Hfresh.
    destruct Hy. constructor; cbn; auto.
    - intros i [->%elem_of_singleton|]%elem_of_union; auto.
    - rewrite set_len_insert by set_solver. lia.
    - intros i Hi. apply hd_apart0 in Hi as Hi'. set_solver. }
  destruct (N.leb_spec (ec_hot_set_max_entries (dx_config x)) (set_len (dx_hot_set x))) as [Hfull|Hroom].
  - destruct (flush_one_run x d1) as [[[n|e] x2] d2] eqn:Ef;
      destruct (flush_one_run_spec _ _ _ _ _ _ Hh1 Ef) as (idss2 & Hh2 & Hids2 & Hr); intros [= <- <- <-]; exists idss2.
    + destruct (Hins x2 d2 idss2 Hh2 Hids2) as [H1 H2]; [|split_and!; auto].
      destruct Hr as [Hn Hpos]. pose proof (hd_size x d1 idss Hh1) as Hsz.
      destruct (config_bounds _ (hd_config x d1 idss Hh1)) as [Hhm _].
      assert (dx_hot_set x <> ∅) as Hne by (intros He; rewrite He in Hfull; unfold set_len in Hfull; rewrite size_empty in Hfull; lia).
      specialize (Hpos Hne). rewrite (proj1 (flush_one_same _ _ _ _ _ Ef)). lia.
    + by split.
  - intros [= <- <- <-]. exists idss. destruct (Hins x d1 idss Hh1 eq_refl Hroom). split_and!; auto.
Qed.

(** *** Histories *)

Inductive DedupCall : Type := CallClassify (id : str) | CallContains (id : str) | CallFlush | CallVerify.
Inductive DedupAnswer : Type :=
  | AnswerClassify (r : Result ExactDedupOutcome ExactDedupError)
  | AnswerContains (r : Result bool ExactDedupError)
  | AnswerFlush (r : Result N ExactDedupError)
  | AnswerVerify (r : Result unit ExactDedupError).

Definition dedup_call (c : DedupCall) (x : DiskBackedExactDedupIndex) (d : Disk)
    : DedupAnswer * DiskBackedExactDedupIndex * Disk :=
  match c with
  | CallClassify id => let '(r, x, d) := classify_and_insert id x d in (AnswerClassify r, x, d)
  | CallContains id => let '(r, d) := dedup_contains id x d in (AnswerContains r, x, d)
  | CallFlush => let '(r, x, d) := dedup_flush x d in (AnswerFlush r, x, d)
  | CallVerify => let '(r, d) := dedup_verify x d in (AnswerVerify r, x, d)
  end.

Fixpoint dedup_calls (calls : list DedupCall) (x : DiskBackedExactDedupIndex) (d : Disk)
    : list DedupAnswer * DiskBackedExactDedupIndex * Disk :=
  match calls with
  | [] => ([], x, d)
  | c :: rest =>
      let '(a, x, d) := dedup_call c x d in
      let '(answers, x, d) := dedup_calls rest x d in
      (a :: answers, x, d)
  end.

(** What a set of identifiers answers: an identifier is unique the first time and a
    duplicate from then on; a call that fails changes nothing. *)
Inductive set_answers : gset str -> DedupCall -> DedupAnswer -> gset str -> Prop :=
  | sa_unique X id : is_id id -> (id ∉ X) ->
      set_answers X (CallClassify id) (AnswerClassify (Ok Unique)) ({[id]} ∪ X)
  | sa_duplicate X id : id ∈ X -> set_answers X (CallClassify id) (AnswerClassify (Ok Duplicate)) X
  | sa_classify_error X id e : set_answers X (CallClassify id) (AnswerClassify (Err e)) X
  | sa_contains X id : set_answers X (CallContains id) (AnswerContains (Ok (bool_decide (id ∈ X)))) X
  | sa_contains_error X id e : set_answers X (CallContains id) (AnswerContains (Err e)) X
  | sa_flush X r : set_answers X CallFlush (AnswerFlush r) X
  | sa_verify X r : set_answers X CallVerify (AnswerVerify r) X.

Inductive set_history : gset str -> list DedupCall -> list DedupAnswer -> gset str -> Prop :=
  | sh_nil X : set_history X [] [] X
  | sh_cons X Y Z c a calls answers :
      set_answers X c a Y -> set_history Y calls answers Z -> set_history X (c :: calls) (a :: answers) Z.

Lemma reads_verify_run r : reads (verify_dedup_run r).
Proof.
  apply reads_bind; [apply reads_lift|intros _]. apply reads_bind; [apply reads_exists|intros b].
  destruct (negb b); [apply reads_lift|]. apply reads_bind; [apply reads_map_err, reads_metadata|intros n; cbn zeta].
  destruct (_ || _); [apply reads_lift|]. apply reads_bind; [apply reads_map_err, reads_read|intros bytes]. apply reads_lift.
Qed.

Lemma reads_load_lines lines : forall index previous records, reads (load_lines index previous records lines).
Proof.
  induction lines as [|line lines IH]; intros index previous records; cbn [load_lines]; [apply reads_ret|].
  case_bool_decide; [apply IH|]. apply reads_bind; [apply reads_lift|intros r].
  destruct (_ || _); [apply reads_lift|]. apply reads_bind; [apply reads_lift|intros h].
  destruct (negb _); [apply reads_lift|]. apply reads_bind; [apply reads_verify_run|intros _]. apply IH.
Qed.

Lemma reads_load index_id : reads (load_and_verify_dedup_manifest index_id).
Proof. apply reads_bind; [apply reads_map_err, reads_read_to_string|]. intros c. apply reads_load_lines. Qed.

Lemma reads_reject runs : reads (reject_orphan_runs runs).
Proof.
  apply reads_bind; [apply reads_map_err, reads_read_dir|]. intros l. apply reads_for. intros name.
  apply reads_bind; [apply reads_map_err, reads_call|intros _]. destruct (is_orphan _ _); auto with disk.
Qed.

Lemma reads_verify x : reads (dedup_verify x).
Proof.
  apply reads_bind; [apply reads_load|intros v]. destruct (negb _); [apply reads_lift|]. apply reads_reject.
Qed.

Lemma holds_same_files x d d' idss : holds x d idss -> dk_files d' = dk_files d -> holds x d' idss.
Proof. intros Hh Hf. apply (holds_framed x d); auto. intros k _. by rewrite Hf. Qed.

Lemma dedup_call_spec c x d idss a x' d' :
  holds x d idss -> dedup_call c x d = (a, x', d') ->
  exists idss', holds x' d' idss' /\ set_answers (dedup_ids x idss) c a (dedup_ids x' idss').
Proof.
  intros Hh. destruct c as [id|id| |]; cbn [dedup_call].
  - destruct (classify_and_insert id x d) as [[r x1] d1] eqn:E. intros [= <- <- <-].
    destruct (classify_spec _ _ _ _ _ _ _ Hh E) as (idss1 & Hh1 & Hr). exists idss1. split; [done|].
    destruct r as [[|]|e]; [destruct Hr as (? & ? & ->); by constructor|destruct Hr as [? ->]; by constructor|].
    rewrite Hr. constructor.
  - destruct (dedup_contains id x d) as [r d1] eqn:E. intros [= <- <- <-]. exists idss.
    destruct (is_lower_hex_sha256 id) eqn:Hid.
    + destruct (dedup_contains_answers x d idss id Hh Hid) as (Hf & _ & Hr). rewrite E in Hf, Hr. cbn in *.
      split; [by apply (holds_same_files x d)|]. destruct r as [b|e]; [subst b|]; constructor.
    + unfold dedup_contains, validate_finding_id in E. rewrite Hid in E. cbn in E. injection E as <- <-.
      split; [done|constructor].
  - destruct (dedup_flush x d) as [[r x1] d1] eqn:E. intros [= <- <- <-].
    destruct (flush_loop_spec _ _ _ _ _ _ _ _ Hh (le_n _) E) as (idss1 & Hh1 & Hids & _). exists idss1.
    split; [done|]. rewrite Hids. constructor.
  - destruct (dedup_verify x d) as [r d1] eqn:E. intros [= <- <- <-]. exists idss. split; [|constructor].
    apply (holds_same_files x d); [done|]. pose proof (reads_verify x d) as Hf. by rewrite E in Hf.
Qed.

Lemma dedup_calls_spec calls x d idss answers x' d' :
  holds x d idss -> dedup_calls calls x d = (answers, x', d') ->
  exists idss', holds x' d' idss' /\ set_history (dedup_ids x idss) calls answers (dedup_ids x' idss').
Proof.
  revert x d idss answers. induction calls as [|c calls IH]; intros x d idss answers Hh; cbn [dedup_calls].
  { intros [= <- <- <-]. exists idss. split; [done|constructor]. }
  destruct (dedup_call c x d) as [[a x1] d1] eqn:E1. destruct (dedup_calls calls x1 d1) as [[l x2] d2] eqn:E2.
  intros [= <- <- <-]. destruct (dedup_call_spec _ _ _ _ _ _ _ Hh E1) as (idss1 & Hh1 & H1).
  destruct (IH _ _ _ _ Hh1 E2) as (idss2 & Hh2 & H2). exists idss2. split; [done|]. by econstructor.
Qed.

#[local] Instance same_index_refl : Reflexive same_index.
Proof. by intros x. Qed.
#[local] Instance same_index_trans : Transitive same_index.
Proof. intros x y z [A1 A2] [B1 B2]. split; congruence. Qed.

Lemma flush_loop_same fuel committed x d r x' d' :
  flush_loop fuel committed x d = (r, x', d') -> same_index x x'.
Proof.
  revert committed x d. induction fuel as [|fuel IH]; intros committed x d; cbn [flush_loop]; [by intros [= _ <- _]|].
  case_bool_decide; [by intros [= _ <- _]|]. destruct (flush_one_run x d) as [[[n|e] x1] d1] eqn:E;
    apply flush_one_same in E; [intros H'%IH; by etransitivity|by intros [= _ <- _]].
Qed.

Lemma dedup_calls_same calls x d answers x' d' :
  dedup_calls calls x d = (answers, x', d') -> same_index x x'.
Proof.
  revert x d answers. induction calls as [|c calls IH]; intros x d answers; cbn [dedup_calls]; [by intros [= _ <- _]|].
  destruct (dedup_call c x d) as [[a x1] d1] eqn:E1. destruct (dedup_calls calls x1 d1) as [[l x2] d2] eqn:E2.
  intros [= <- <- <-]. apply IH in E2. etransitivity; [|exact E2]. clear -E1. destruct c; cbn [dedup_call] in E1.
  - destruct (classify_and_insert id x d) as [[r y] e] eqn:E. injection E1 as <- <- <-. unfold classify_and_insert in E.
    repeat (case_match; simplify_eq; try done).
    all: match goal with H : flush_one_run _ _ = _ |- _ => by apply flush_one_same in H end.
  - destruct (dedup_contains id x d). by simplify_eq.
  - destruct (dedup_flush x d) as [[r y] e] eqn:E. injection E1 as <- <- <-. by eapply flush_loop_same.
  - destruct (dedup_verify x d). by simplify_eq.
Qed.

(** The files determine the identifiers. *)
Lemma run_bytes_inj ids ids' : Forall is_id ids -> Forall is_id ids' -> run_bytes ids = run_bytes ids' -> ids = ids'.
Proof.
  intros Hf. revert ids'. induction Hf as [|id ids Hid _ IH]; intros [|id' ids'] Hf' He; try done.
  - apply (f_equal length) in He. apply Forall_cons in Hf' as [H1 _]. cbn in He. rewrite !length_app in He. cbn in He. lia.
  - apply (f_equal length) in He. cbn in He. rewrite !length_app in He. cbn in He. lia.
  - apply Forall_cons in Hf' as [Hid' Hf'].
    change ((id ++ [LF]) ++ run_bytes ids = (id' ++ [LF]) ++ run_bytes ids') in He.
    apply app_inj_1 in He as [H1 H2]; [|by rewrite !length_app, (is_id_length id Hid), (is_id_length id' Hid')].
    apply app_inj_tail in H1 as [-> _]. f_equal. by apply IH.
Qed.

Lemma holds_unique x d idss idss' : holds x d idss -> holds x d idss' -> dedup_ids x idss = dedup_ids x idss'.
Proof.
  intros [] [].
  assert (idss = idss') as ->; [|done].
  clear - hd_runs0 hd_runs1. revert idss' hd_runs1. induction hd_runs0 as [|r ids runs idss H1 _ IH]; intros idss' H2.
  - by apply Forall2_nil_inv_l in H2.
  - apply Forall2_cons_inv_l in H2 as (ids' & idss'' & H2 & Hrest & ->). f_equal; [|by apply IH].
    destruct H1 as [_ F1 [I1 _] _ _ _ _], H2 as [_ F2 [I2 _] _ _ _ _]. apply run_bytes_inj; auto. congruence.
Qed.

(** *** A new index *)

Lemma exists_absent {E} name d r d1 :
  dk_files d !! name = None -> fs_exists (E := E) name d = (r, d1) -> r = Ok false /\ dk_files d1 = dk_files d.
Proof.
  intros Hn. unfold fs_exists. pose proof (next_fault_files d) as Hf. destruct (next_fault d) as [[f|] d0]; cbn in Hf.
  - by intros [= <- <-].
  - rewrite Hf, Hn, bool_decide_false by (by intros [? ?]). by intros [= <- <-].
Qed.

Lemma load_empty index_id d r d1 :
  dk_files d !! MANIFEST = Some [] -> load_and_verify_dedup_manifest index_id d = (Ok r, d1) -> r = [].
Proof.
  intros Hm. unfold load_and_verify_dedup_manifest, fs_bind at 1, io, fs_map_err, fs_read_to_string, fs_read, fs_bind.
  pose proof (reads_call d) as Hf. destruct (fs_call d) as [[[]|] d0]; [|done]. cbn in Hf. unfold fs_lookup.
  rewrite Hf, Hm. cbn. by intros [= <- <-].
Qed.

Lemma open_fresh config index_id d x d1 :
  dk_files d !! MANIFEST = None -> dedup_open config index_id d = (Ok x, d1) ->
  holds x d1 [] /\ dx_hot_set x = ∅ /\ dx_config x = config.
Proof.
  intros Hm. unfold dedup_open. unfold fs_bind at 1, fs_lift at 1.
  destruct (dedup_config_validate config) as [[]|] eqn:Ec; [|done]. unfold fs_bind at 1, fs_lift at 1.
  destruct (validate_index_identifier index_id) as [[]|]; [|done]. unfold fs_bind at 1.
  assert (dk_files (io fs_call d).2 = dk_files d) as H1 by apply (reads_map_err DdIo _ reads_call).
  destruct (io fs_call d) as [[[]|] d2]; [|done]. cbn in H1. unfold fs_bind at 1.
  destruct (fs_exists MANIFEST d2) as [r d3] eqn:Ex. apply exists_absent in Ex as [-> H2]; [|by rewrite H1].
  unfold fs_bind at 1. destruct (fs_bind (io (fs_create MANIFEST)) _ d3) as [[[]|] d4] eqn:E4; [|done].
  assert (dk_files d4 !! MANIFEST = Some []) as H4.
  { unfold fs_bind, io, fs_map_err, fs_create, fs_bind in E4. destruct (fs_call d3) as [[[]|] d5]; [|done]. cbn [map_err] in E4.
    match type of E4 with context [fs_call ?y] => pose proof (reads_call y) as H5; destruct (fs_call y) as [[[]|] d6]; [|done] end.
    injection E4 as <-. cbn in H5. rewrite H5. apply lookup_insert_eq. }
  unfold fs_bind at 1. destruct (load_and_verify_dedup_manifest index_id d4) as [[runs|] d5] eqn:E5; [|done].
  apply (load_empty _ _ _ _ H4) in E5 as ->. unfold fs_bind at 1.
  destruct (reject_orphan_runs [] d5) as [[[]|] d6]; [|done]. destruct (MAX_RUNS <? len []); [done|].
  unfold fs_bind at 1. destruct (dedup_directory_bytes d6) as [[n|] d7]; [|done].
  destruct (N.ltb_spec (ec_disk_budget_bytes config) n) as [|Hb]; [done|]. intros [= <- <-].
  split; [|done]. constructor; try done; try constructor.
  - cbn. unfold set_len. rewrite size_empty. lia.
Qed.

(** C30: whatever calls of the disk fail, and however much a failing write has written,
    a new index answers like a set: an identifier is unique the first time it is
    accepted and a duplicate from then on, membership is exact, and a call that fails,
    a flush or a verification changes nothing. The counts of the checkpoint add up to
    the accepted identifiers, the hot set and the bytes accounted for stay within the
    configuration, and on a disk without further faults every question is answered. *)
Theorem dedup_index_is_exact config index_id d x d1 calls answers x' d2 :
  dk_files d !! MANIFEST = None -> dedup_open config index_id d = (Ok x, d1) ->
  dedup_calls calls x d1 = (answers, x', d2) ->
  exists X, set_history ∅ calls answers X
    /\ ek_committed_unique_ids (dedup_checkpoint x') + ek_pending_unique_ids (dedup_checkpoint x') = set_len X
    /\ ek_pending_unique_ids (dedup_checkpoint x') <= ec_hot_set_max_entries config
    /\ ek_disk_bytes (dedup_checkpoint x') <= ec_disk_budget_bytes config
    /\ ek_committed_runs (dedup_checkpoint x') <= MAX_RUNS
    /\ forall id, is_id id -> calm d2 -> dedup_contains id x' d2 = (Ok (bool_decide (id ∈ X)), d2).
Proof.
  intros Hm Ho Hc. destruct (open_fresh _ _ _ _ _ Hm Ho) as (Hh & Hhot & Hcfg).
  destruct (dedup_calls_spec _ _ _ _ _ _ _ Hh Hc) as (idss & Hh' & Hs).
  assert (dx_config x' = config) as Hcfg' by (rewrite <- Hcfg; by eapply (dedup_calls_same calls x d1)).
  exists (dedup_ids x' idss). split; [|split].
  - unfold dedup_ids in Hs at 1. rewrite Hhot in Hs. cbn in Hs. by rewrite (left_id_L ∅ _) in Hs.
  - cbn. rewrite (hd_committed _ _ _ Hh'). unfold dedup_ids, set_len.
    rewrite size_union by (intros id Hi Hj%elem_of_list_to_set; by apply (hd_apart _ _ _ Hh' id)).
    rewrite size_list_to_set by apply (hd_distinct _ _ _ Hh'). unfold len. lia.
  - rewrite <- Hcfg'. split_and!; [apply (hd_size _ _ _ Hh')|apply (hd_budget _ _ _ Hh')|apply (hd_limit _ _ _ Hh')|].
    intros id Hid Hd. destruct (dedup_contains_answers x' d2 idss id Hh' Hid) as (_ & Hsame & Hr).
    destruct (dedup_contains id x' d2) as [[b|e] d3]; cbn in *; [|by destruct Hr]. rewrite (Hsame Hd). by subst b.
Qed.
End Index.

(** ** An example *)

Definition toy_os : OsLib := {| os_message _ := "failed" |}.
Definition toy_run_tuple_json : JsonLib RunTuple :=
  {| to_vec t := Ok (decimal t.1.1.1.1.1.1.1 ++ t.1.1.1.1.1.1.2 ++ t.1.1.1.1.2) |}.

(** The fields of a record with commas between them. *)
Definition toy_record_text (r : DedupRunRecord) : str :=
  ("{" : str)
  ++ join "," [decimal (dr_sequence r); dr_previous_hash r; dr_file_name r; dr_file_sha256 r; dr_first_finding_id r;
               dr_last_finding_id r; decimal (dr_entry_count r); decimal (dr_file_bytes r); dr_record_hash r]
  ++ ("}" : str).
Definition toy_record_parse (text : str) : option DedupRunRecord :=
  match split_byte 44 (take (length text - 2) (drop 1 text)) with
  | [sequence; previous; name; file; first; last; entries; bytes; hash] =>
      Some {| dr_sequence := decimal_value sequence; dr_previous_hash := previous; dr_file_name := name;
              dr_file_sha256 := file; dr_first_finding_id := first; dr_last_finding_id := last;
              dr_entry_count := decimal_value entries; dr_file_bytes := decimal_value bytes; dr_record_hash := hash |}
  | _ => None
  end.

(** Records that cannot be written in this form are refused. *)
Definition toy_record_json : JsonLib DedupRunRecord :=
  {| to_vec r := let text := toy_record_text r in
       if bool_decide (toy_record_parse text = Some r) && from_utf8_ok text
          && forallb (fun c => negb (is_ascii_control c)) text
       then Ok text else Err ("unsupported" : str) |}.
Definition toy_record_json_parse : JsonParse DedupRunRecord :=
  {| from_str text := match toy_record_parse text with Some r => Ok r | None => Err ("unsupported" : str) end |}.

Lemma toy_record_json_lines : @JsonLines DedupRunRecord toy_record_json toy_record_json_parse.
Proof.
  assert (forall r text, to_vec (JsonLib := toy_record_json) r = Ok text ->
    text = toy_record_text r /\ toy_record_parse text = Some r /\ from_utf8_ok text = true
    /\ forallb (fun c => negb (is_ascii_control c)) text = true) as Hw.
  { intros r text. unfold to_vec, toy_record_json. cbn zeta.
    destruct (_ && _ && _) eqn:E; [|discriminate]. intros H. injection H as <-.
    apply andb_true_iff in E as [[E1%bool_decide_eq_true E2]%andb_true_iff E3]. done. }
  constructor; intros r text (E & Hp & Hu & Hc)%Hw; auto.
  - cbn. by rewrite Hp.
  - subst text. by eexists.
Qed.

Definition demo_dedup_config : ExactDedupConfig :=
  {| ec_root := "dedup"; ec_hot_set_max_entries := 2; ec_run_max_entries := 2; ec_disk_budget_bytes := 100000 |}.
Definition demo_id (c : str) : str := concat (replicate 64 c).
Definition demo_dedup_calls : list DedupCall :=
  [CallClassify (demo_id "b"); CallClassify (demo_id "a"); CallClassify (demo_id "c"); CallClassify (demo_id "c");
   CallClassify (demo_id "a"); CallContains (demo_id "b"); CallContains (demo_id "d"); CallClassify "short";
   CallClassify (demo_id "d"); CallFlush; CallVerify; CallClassify (demo_id "e")].

Definition demo_dedup_open (d : Disk) : Result DiskBackedExactDedupIndex ExactDedupError * Disk :=
  dedup_open (S := toy_sha256) (OS := toy_os) (JT := toy_run_tuple_json) (JP := toy_record_json_parse)
    demo_dedup_config "index-1" d.
Definition demo_dedup_run (x : DiskBackedExactDedupIndex) (d : Disk)
    : list DedupAnswer * DiskBackedExactDedupIndex * Disk :=
  dedup_calls (S := toy_sha256) (OS := toy_os) (JT := toy_run_tuple_json) (JR := toy_record_json)
    (JP := toy_record_json_parse) demo_dedup_calls x d.

(** The disk is full when the first run is written: three bytes of it are. *)
Definition full_disk : Disk :=
  {| dk_files := ∅; dk_faults := replicate 13 None ++ [Some {| ft_written := 3; ft_message := "full" |}] |}.
Definition demo_on (d : Disk) : option (list DedupAnswer * DiskBackedExactDedupIndex * Disk) :=
  match demo_dedup_open d with (Ok x, d1) => Some (demo_dedup_run x d1) | (Err _, _) => None end.

Lemma demo_on_full_disk :
  match demo_on full_disk with
  | Some (answers, x', d2) =>
      match nth_error answers 2 with Some (AnswerClassify (Err (DdIo m))) => bool_decide (m = "full") | _ => false end
      && bool_decide (dk_faults d2 = []) && (set_len (dx_hot_set x') =? 2)
  | None => false
  end = true.
Proof. vm_compute. reflexivity. Qed.

Lemma dedup_index_is_exact_witness :
  match demo_on full_disk with
  | Some (answers, x', d2) =>
      exists X, set_history ∅ demo_dedup_calls answers X
        /\ ek_committed_unique_ids (dedup_checkpoint x') + 2 = set_len X
        /\ dedup_contains (OS := toy_os) (demo_id "a") x' d2
           = (Ok (bool_decide (demo_id "a" ∈ X)), d2)
  | None => False
  end.
Proof.
  pose proof demo_on_full_disk as Hd. unfold demo_on in *.
  destruct (demo_dedup_open full_disk) as [[x|e] d1] eqn:Eo; [|discriminate].
  destruct (demo_dedup_run x d1) as [[answers x'] d2] eqn:Ec.
  apply andb_true_iff in Hd as [[_ Hcalm%bool_decide_eq_true]%andb_true_iff Hhot%N.eqb_eq].
  assert (dk_files full_disk !! MANIFEST = None) as Hm by apply lookup_empty.
  destruct (@dedup_index_is_exact toy_sha256 toy_os toy_run_tuple_json toy_record_json toy_record_json_parse
    demo_dedup_config "index-1" full_disk x d1 demo_dedup_calls answers x' d2 Hm Eo Ec) as (X & Hs & Hn & _ & _ & _ & Ha).
  exists X. split; [exact Hs|]. split; [rewrite <- Hn; cbn [dedup_checkpoint ek_pending_unique_ids]; by rewrite Hhot|].
  apply Ha; [reflexivity|exact Hcalm].
Defined.
