(* ===== verification/DedupRestart.v ===== *)
(** * Opening a deduplication index again

    On a disk whose calls succeed, the manifest and the runs on disk always describe
    the index: verification succeeds, and opening the directory again gives an index
    with the same identifiers. *)

From S2P Require Import Prelude ByteStr BTree HashChain HttpSyntax Coverage Disk Dedup DedupFacts.
Local Open Scope N_scope.

(** ** Calls that succeed *)

Lemma calm_with_files files d : calm d -> calm (with_files files d).
Proof. done. Qed.

Section Calm.
Context {S : Sha256Lib} {OS : OsLib} {JT : JsonLib RunTuple} {JR : JsonLib DedupRunRecord}
  {JP : JsonParse DedupRunRecord}.

Lemma calm_io_call d : calm d -> io fs_call d = (Ok tt, d).
Proof. intros Hd. unfold io, fs_map_err. by rewrite (calm_call d Hd). Qed.
Lemma calm_io_read name bytes d : calm d -> dk_files d !! name = Some bytes -> io (fs_read name) d = (Ok bytes, d).
Proof. intros Hd Hb. unfold io, fs_map_err. by rewrite (calm_read name d bytes Hd Hb). Qed.
Lemma calm_io_len name bytes d :
  calm d -> dk_files d !! name = Some bytes -> io (fs_metadata_len name) d = (Ok (len bytes), d).
Proof. intros Hd Hb. unfold io, fs_map_err, fs_metadata_len, fs_bind. by rewrite (calm_read name d bytes Hd Hb). Qed.
Lemma calm_io_sync d : calm d -> io fs_sync_directory d = (Ok tt, d).
Proof. intros Hd. unfold io, fs_map_err, fs_sync_directory, fs_bind. by rewrite !(calm_call d Hd). Qed.
Lemma calm_io_create_new name d :
  calm d -> dk_files d !! name = None ->
  io (fs_create_new name) d = (Ok tt, with_files (<[name := []]> (dk_files d)) d).
Proof. intros Hd Hn. unfold io, fs_map_err, fs_create_new, fs_bind. by rewrite (calm_call d Hd), Hn. Qed.
Lemma calm_io_write name bytes d :
  calm d ->
  io (fs_write name bytes) d
  = (Ok tt, with_files (<[name := default [] (dk_files d !! name) ++ bytes]> (dk_files d)) d).
Proof. intros Hd. unfold io, fs_map_err, fs_write. by rewrite (calm_next d Hd). Qed.
Lemma calm_io_rename from to bytes d :
  calm d -> dk_files d !! from = Some bytes ->
  io (fs_rename from to) d = (Ok tt, with_files (<[to := bytes]> (delete from (dk_files d))) d).
Proof.
  intros Hd Hb. unfold io, fs_map_err, fs_rename, fs_bind. rewrite (calm_call d Hd). unfold fs_lookup. by rewrite Hb.
Qed.
Lemma calm_io_append name bytes d :
  calm d -> dk_files d !! name = Some bytes -> io (fs_open_append name) d = (Ok tt, d).
Proof. intros Hd Hb. unfold io, fs_map_err, fs_open_append, fs_bind. by rewrite (calm_read name d bytes Hd Hb). Qed.

Lemma calm_atomic_write name bytes d :
  calm d -> dk_files d !! name = None -> dk_files d !! (name ++ (".tmp" : str)) = None ->
  atomic_write_dedup_run name bytes d = (Ok tt, with_files (<[name := bytes]> (dk_files d)) d).
Proof.
  intros Hd Hn Ht. unfold atomic_write_dedup_run. set (tmp := name ++ (".tmp" : str)) in *.
  unfold fs_bind at 1. rewrite (calm_exists name d Hd), Hn. rewrite bool_decide_false by (by intros [? ?]).
  unfold fs_bind at 1. rewrite (calm_io_create_new tmp d Hd Ht).
  unfold fs_bind at 1. rewrite calm_io_write by (by apply calm_with_files).
  unfold fs_bind at 1. rewrite calm_io_call by (by apply calm_with_files).
  cbn [dk_files with_files]. rewrite lookup_insert_eq. cbn [default app].
  unfold fs_bind at 1. erewrite calm_io_rename; [|by apply calm_with_files|cbn; apply lookup_insert_eq].
  rewrite calm_io_sync by (by apply calm_with_files). cbn [dk_files with_files].
  f_equal. unfold with_files. cbn. f_equal. f_equal. cbn.
  rewrite insert_insert_eq, delete_insert_eq. apply delete_id. done.
Qed.

Lemma calm_append_manifest line old d :
  calm d -> dk_files d !! MANIFEST = Some old ->
  append_dedup_manifest_line line d = (Ok tt, with_files (<[MANIFEST := old ++ line]> (dk_files d)) d).
Proof.
  intros Hd Ho. unfold append_dedup_manifest_line.
  unfold fs_bind at 1. rewrite (calm_io_append MANIFEST old d Hd Ho).
  unfold fs_bind at 1. rewrite (calm_io_write MANIFEST line d Hd), Ho.
  unfold fs_bind at 1. rewrite calm_io_call by (by apply calm_with_files). by rewrite calm_io_sync.
Qed.

(** ** A run on disk verifies *)

Lemma chunks_exact_run ids fuel :
  Forall is_id ids -> (length ids <= fuel)%nat -> chunks_exact fuel (run_bytes ids) = map (fun id => id ++ [LF]) ids.
Proof.
  intros Hf. revert fuel. induction Hf as [|id ids Hid Hf IH]; intros fuel Hl.
  { destruct fuel; [done|]. cbn. done. }
  destruct fuel as [|fuel]; [cbn in Hl; lia|]. cbn [chunks_exact].
  pose proof (run_bytes_length (id :: ids) ltac:(by constructor)) as Hlen.
  destruct (N.ltb_spec (len (run_bytes (id :: ids))) FIXED_RECORD_BYTES) as [Hlt|_].
  { unfold len, FIXED_RECORD_BYTES in Hlt. rewrite Hlen in Hlt. cbn in Hlt. lia. }
  change (run_bytes (id :: ids)) with ((id ++ [LF]) ++ run_bytes ids).
  assert (length (id ++ [LF]) = 65%nat) as H65 by (rewrite length_app, (is_id_length id Hid); done).
  rewrite take_app_length', drop_app_length' by done. cbn [map]. f_equal. apply IH. cbn in Hl. lia.
Qed.

Lemma chunks_sorted_run previous ids :
  sorted_ids ids -> (forall p id, previous = Some p -> head ids = Some id -> str_lt p id) ->
  chunks_sorted previous (map (fun id => id ++ [LF]) ids) = true.
Proof.
  intros [Hf Hs]. revert previous Hs. induction Hf as [|id ids Hid Hf IH]; intros previous Hs Hp; [done|].
  cbn [map chunks_sorted]. destruct (chunk_of_id id Hid) as [-> ->].
  assert (forallb (fun c => is_ascii_digit c || in_range 97 102 c) id = true) as ->
    by (unfold is_id, is_lower_hex_sha256 in Hid; by bools).
  apply StronglySorted_inv in Hs as [Hs Hall]. rewrite IH; auto.
  - destruct previous as [p|]; [|done]. specialize (Hp p id eq_refl eq_refl). unfold str_lt in Hp. by rewrite Hp.
  - intros p x [= <-] Hx. rewrite Forall_forall in Hall. apply Hall. destruct ids; [done|]. injection Hx as ->. left.
Qed.

(** The record agrees with the bytes of the run. *)
Definition run_hashed (r : DedupRunRecord) (ids : list str) : Prop :=
  dr_file_sha256 r = dedup_hash (run_bytes ids) /\ dr_file_bytes r = len (run_bytes ids).

Lemma run_slice_id ids i id :
  Forall is_id ids -> ids !! i = Some id -> take 64 (drop (65 * i) (run_bytes ids)) = id.
Proof.
  intros Hf Hi. pose proof (run_bytes_slice ids i id Hf Hi) as Hs.
  pose proof (is_id_length id (proj1 (Forall_lookup _ _) Hf _ _ Hi)) as Hl.
  transitivity (take 64 (take 65 (drop (65 * i) (run_bytes ids)))); [by rewrite take_take|].
  rewrite Hs, take_app_le by lia. by rewrite take_ge by lia.
Qed.

Lemma run_ids_nonempty files r ids :
  run_ok files r ids ->
  0 < len ids /\ is_id (dr_first_finding_id r) /\ is_id (dr_last_finding_id r)
  /\ ids !! 0%nat = Some (dr_first_finding_id r) /\ ids !! Nat.pred (length ids) = Some (dr_last_finding_id r).
Proof.
  intros []. destruct ro_ids as [Hf Hs]. rewrite last_lookup in ro_last. rewrite Forall_lookup in Hf.
  assert (ids !! 0%nat = Some (dr_first_finding_id r)) as H0 by (by destruct ids).
  split_and!; eauto. apply lookup_lt_Some in H0. unfold len. lia.
Qed.

Lemma run_record_checks_ok files r ids : run_ok files r ids -> run_record_checks r = Ok tt.
Proof.
  intros Hr. destruct (run_ids_nonempty files r ids Hr) as (Hpos & H1 & H2 & H3 & H4). destruct Hr.
  unfold run_record_checks, validate_finding_id. unfold is_id in H1, H2. rewrite H1, H2, ro_count.
  assert (str_leb (dr_first_finding_id r) (dr_last_finding_id r) = true) as ->.
  { apply (sorted_range ids (dr_last_finding_id r) _ (dr_last_finding_id r)); auto. by eapply list_elem_of_lookup_2. }
  destruct (N.eqb_spec (len ids) 0); [lia|]. by destruct (N.ltb_spec MAX_RUN_ENTRIES (len ids)); [lia|].
Qed.

Lemma run_length files r ids :
  run_ok files r ids ->
  saturating_mul (dr_entry_count r) FIXED_RECORD_BYTES = len (run_bytes ids)
  /\ N.to_nat (saturating_mul (dr_entry_count r - 1) FIXED_RECORD_BYTES) = (65 * Nat.pred (length ids))%nat.
Proof.
  intros []. destruct ro_ids as [Hf _]. unfold len in *. rewrite run_bytes_length by done. rewrite ro_count.
  unfold saturating_mul, FIXED_RECORD_BYTES, MAX_RUN_ENTRIES, u64_max in *. lia.
Qed.

Lemma run_bytes_checks_ok files r ids :
  run_ok files r ids -> run_hashed r ids -> run_bytes_checks r (run_bytes ids) = Ok tt.
Proof.
  intros Hr [Hsha _]. destruct (run_ids_nonempty files r ids Hr) as (_ & H1 & H2 & H3 & H4).
  destruct (run_length files r ids Hr) as [_ Hoff]. destruct Hr. pose proof ro_ids as [Hf _]. unfold run_bytes_checks.
  rewrite bool_decide_true by done. cbn [negb].
  rewrite chunks_exact_run; [|done|rewrite run_bytes_length by done; lia]. rewrite chunks_sorted_run by done.
  cbn [negb]. rewrite Hoff, (run_slice_id ids _ _ Hf H4).
  pose proof (run_slice_id ids 0 _ Hf H3) as Hfirst. rewrite Nat.mul_0_r, drop_0 in Hfirst. rewrite Hfirst.
  rewrite !id_ascii by done. by rewrite !bool_decide_true.
Qed.

Lemma verify_run_ok r ids d :
  calm d -> run_ok (dk_files d) r ids -> run_hashed r ids -> verify_dedup_run r d = (Ok tt, d).
Proof.
  intros Hd Hr Hh. destruct (run_length _ r ids Hr) as [Hlen _]. pose proof (ro_file _ r ids Hr) as Hfile.
  unfold verify_dedup_run. unfold fs_bind at 1, fs_lift at 1. rewrite (run_record_checks_ok _ r ids Hr).
  unfold fs_bind at 1. rewrite (calm_exists _ d Hd), Hfile. rewrite bool_decide_true by eauto. cbn [negb].
  unfold fs_bind at 1. rewrite (calm_io_len _ _ d Hd Hfile). cbn zeta.
  rewrite Hlen, (proj2 Hh), !N.eqb_refl. cbn [negb orb].
  unfold fs_bind at 1. rewrite (calm_io_read _ _ d Hd Hfile). unfold fs_lift.
  by rewrite (run_bytes_checks_ok _ r ids Hr Hh).
Qed.

(** ** The disk describes the index *)

(** The records of a manifest, after [n] others that end with the hash [h]. *)
Fixpoint chained (n : N) (h : str) (runs : list DedupRunRecord) : Prop :=
  match runs with
  | [] => True
  | r :: rest =>
      dr_sequence r = n + 1 /\ dr_previous_hash r = h
      /\ dedup_manifest_record_hash r = Ok (dr_record_hash r) /\ chained (n + 1) (dr_record_hash r) rest
  end.

Definition chain_end (h : str) (runs : list DedupRunRecord) : str :=
  match last runs with Some r => dr_record_hash r | None => h end.

Lemma chain_end_cons h r runs : chain_end h (r :: runs) = chain_end (dr_record_hash r) runs.
Proof. unfold chain_end. rewrite last_cons. by destruct (last runs). Qed.

Lemma chained_snoc n h runs r :
  chained n h runs -> dr_sequence r = n + len runs + 1 -> dr_previous_hash r = chain_end h runs ->
  dedup_manifest_record_hash r = Ok (dr_record_hash r) -> chained n h (runs ++ [r]).
Proof.
  revert n h. induction runs as [|x runs IH]; intros n h; cbn [chained app].
  { intros _ Hs Hp Hh. rewrite len_nil in Hs. split_and!; auto; lia. }
  intros (H1 & H2 & H3 & H4) Hs Hp Hh. rewrite len_cons in Hs. split_and!; auto.
  apply IH; auto; [lia|]. by rewrite Hp, chain_end_cons.
Qed.

Definition manifest_text (lines : list str) : str := flat_map (fun line => line ++ [ascii_of_N 10]) lines.

Record intact (x : DiskBackedExactDedupIndex) (d : Disk) (lines : list str) (idss : list (list str)) : Prop := {
  in_holds : holds x d idss;
  in_calm : calm d;
  in_id : validate_index_identifier (dx_index_id x) = Ok tt;
  in_width : ec_disk_budget_bytes (dx_config x) < u64_max;
  in_lines : Forall2 (fun r line => to_vec r = Ok line) (dx_runs x) lines;
  in_manifest : dk_files d !! MANIFEST = Some (manifest_text lines);
  in_chain : chained 0 (dedup_genesis (dx_index_id x)) (dx_runs x);
  in_tail : dx_manifest_tail x = chain_end (dedup_genesis (dx_index_id x)) (dx_runs x);
  in_hashed : Forall2 run_hashed (dx_runs x) idss;
  in_names : forall name, is_Some (dk_files d !! name) ->
               is_orphan (list_to_set (map dr_file_name (dx_runs x))) name = false;
  in_bytes : dx_disk_bytes x = map_sum len (dk_files d)
}.

(** Reading the manifest gives the records. *)
Lemma load_lines_ok {JLn : JsonLines DedupRunRecord} lines runs idss d index h acc :
  calm d -> Forall2 (fun r line => to_vec r = Ok line) runs lines -> Forall2 (run_ok (dk_files d)) runs idss ->
  Forall2 run_hashed runs idss -> chained (len acc) h runs ->
  load_lines index h acc lines d = (Ok (acc ++ runs), d).
Proof.
  intros Hd Hl. revert idss index h acc. induction Hl as [|r line runs lines Hline _ IH]; intros idss index h acc Hr Hh Hc.
  { cbn. by rewrite app_nil_r. }
  apply Forall2_cons_inv_l in Hr as (ids & idss' & Hr & Hrs & ->). apply Forall2_cons in Hh as [Hh Hhs].
  destruct Hc as (Hseq & Hprev & Hhash & Hc). destruct (json_line r line Hline) as (_ & _ & Htrim).
  cbn [load_lines]. rewrite bool_decide_false by done.
  unfold fs_bind at 1, fs_lift at 1. rewrite (from_str_to_vec r line Hline). cbn [map_err].
  rewrite Hseq, N.eqb_refl, bool_decide_true by done. cbn [negb orb].
  unfold fs_bind at 1, fs_lift at 1. rewrite Hhash, bool_decide_true by done. cbn [negb].
  unfold fs_bind at 1. rewrite (verify_run_ok r ids d Hd Hr Hh).
  rewrite (IH idss'); auto; [by rewrite <- app_assoc|]. by rewrite len_app.
Qed.

Lemma load_ok {JLn : JsonLines DedupRunRecord} x d lines idss :
  intact x d lines idss -> load_and_verify_dedup_manifest (dx_index_id x) d = (Ok (dx_runs x), d).
Proof.
  intros [Hh Hd _ _ Hl Hm Hc _ Hs _ _]. unfold load_and_verify_dedup_manifest. unfold fs_bind at 1.
  unfold io, fs_map_err, fs_read_to_string, fs_bind. rewrite (calm_read _ d _ Hd Hm).
  destruct (text_lines_structs _ _ Hl) as [Ht Hu]. unfold manifest_text. rewrite Hu. cbn [map_err fs_ret]. rewrite Ht.
  exact (load_lines_ok lines (dx_runs x) idss d 0 _ [] Hd Hl (hd_runs x d idss Hh) Hs Hc).
Qed.

Lemma calm_io_read_dir d : calm d -> io fs_read_dir d = (Ok (map_keys (dk_files d)), d).
Proof. intros Hd. unfold io, fs_map_err, fs_read_dir, fs_bind. by rewrite (calm_call d Hd). Qed.

Lemma reject_ok x d lines idss : intact x d lines idss -> reject_orphan_runs (dx_runs x) d = (Ok tt, d).
Proof.
  intros Hi. unfold reject_orphan_runs. unfold fs_bind at 1. rewrite (calm_io_read_dir d (in_calm _ _ _ _ Hi)).
  assert (forall name, name ∈ map_keys (dk_files d) ->
    is_orphan (list_to_set (map dr_file_name (dx_runs x))) name = false) as Hno.
  { intros name Hin%elem_of_map_keys. by apply (in_names _ _ _ _ Hi). }
  induction (map_keys (dk_files d)) as [|name l IH]; [done|]. cbn [fs_for]. unfold fs_bind at 1 2.
  rewrite (calm_io_call d (in_calm _ _ _ _ Hi)), (Hno name) by left. cbn. apply IH. intros n Hn. apply Hno. by right.
Qed.

(** Verification succeeds. *)
Lemma verify_ok {JLn : JsonLines DedupRunRecord} x d lines idss :
  intact x d lines idss -> dedup_verify x d = (Ok tt, d).
Proof.
  intros Hi. unfold dedup_verify. unfold fs_bind at 1. rewrite (load_ok x d lines idss Hi), bool_decide_true by done.
  by apply (reject_ok x d lines idss).
Qed.

(** ** Committing keeps the description *)

Lemma draft_run_chained x ids record bytes line :
  sorted_ids ids -> len ids <= MAX_RUN_ENTRIES -> draft_run x ids = Ok (record, bytes, line) ->
  run_hashed record ids /\ dr_previous_hash record = dx_manifest_tail x
  /\ dedup_manifest_record_hash record = Ok (dr_record_hash record)
  /\ exists json, to_vec record = Ok json /\ line = json ++ [ascii_of_N 10].
Proof.
  intros Hs Hl H. unfold draft_run in H. destruct (encode_fixed_run ids) as [b|] eqn:Ee; [|done].
  assert (ids <> []) as Hne by (intros ->; done). rewrite (encode_fixed_run_spec ids Hs Hne Hl) in Ee. injection Ee as <-.
  destruct (head ids) as [h|]; [|done]. destruct (last ids) as [l|]; [|done].
  destruct (dedup_manifest_record_hash _) as [hash|] eqn:Eh; [|done]. destruct (to_vec _) as [json|] eqn:Ej; [|done].
  injection H as <- <- <-. split_and!; try done. eauto.
Qed.

Lemma is_orphan_mono (X Y : gset str) name : X ⊆ Y -> is_orphan X name = false -> is_orphan Y name = false.
Proof.
  intros HXY. unfold is_orphan. rewrite !orb_false_iff. intros [-> H]. split; [done|].
  destruct (starts_with name _ && ends_with name _); [|done]. cbn in *.
  apply negb_false_iff, bool_decide_eq_true in H. apply negb_false_iff, bool_decide_eq_true. set_solver.
Qed.

Lemma ends_with_last s t c : ends_with s (t ++ [c]) = true -> last s = Some c.
Proof. intros (p & ->)%ends_with_spec. by rewrite app_assoc, last_app. Qed.

Lemma run_name_no_tmp n : ends_with (run_file_name n) ".tmp" = false.
Proof.
  destruct (ends_with _ _) eqn:E; [|done]. apply (ends_with_last _ ".tm" "p"%char) in E. by rewrite run_file_name_last in E.
Qed.

Lemma run_name_orphan X n : (run_file_name n ∉ X) -> is_orphan X (run_file_name n) = true.
Proof.
  intros Hn. unfold is_orphan. rewrite run_name_no_tmp. cbn [orb].
  assert (starts_with (run_file_name n) "dedup-run-" = true) as -> by (apply starts_with_spec; by eexists).
  assert (ends_with (run_file_name n) ".idx" = true) as ->
    by (apply ends_with_spec; unfold run_file_name; rewrite app_assoc; by eexists).
  by rewrite bool_decide_false.
Qed.

Lemma tmp_orphan X name : is_orphan X (name ++ (".tmp" : str)) = true.
Proof. unfold is_orphan. assert (ends_with (name ++ (".tmp" : str)) ".tmp" = true) as ->; [|done]. apply ends_with_spec. by eexists. Qed.

Lemma runs_named x d idss name :
  holds x d idss -> name ∈ (list_to_set (map dr_file_name (dx_runs x)) : gset str) ->
  exists k, name = run_file_name k /\ k <= len (dx_runs x).
Proof.
  intros Hh. rewrite elem_of_list_to_set, list_elem_of_fmap. intros (r & -> & (i & Hi)%list_elem_of_lookup).
  destruct (Forall2_lookup_l _ _ _ _ _ (hd_runs x d idss Hh) Hi) as (ids & _ & Hr).
  exists (dr_sequence r). split; [exact (ro_name _ _ _ Hr)|]. rewrite (hd_sequence x d idss Hh i r Hi).
  apply lookup_lt_Some in Hi. unfold len. lia.
Qed.

Lemma map_sum_replace {K V} `{Countable K} (f : V -> N) (m : gmap K V) k v w :
  m !! k = Some v -> map_sum f (<[k := w]> m) + f v = map_sum f m + f w.
Proof.
  intros Hk. rewrite <- insert_delete_eq, map_sum_insert by apply lookup_delete_eq.
  rewrite (map_sum_delete f m k v Hk). lia.
Qed.

Lemma flush_one_intact x d lines idss r x' d' :
  intact x d lines idss -> flush_one_run x d = (r, x', d') ->
  exists lines' idss', intact x' d' lines' idss' /\ dedup_ids x' idss' = dedup_ids x idss.
Proof.
  intros Hi. pose proof (in_holds _ _ _ _ Hi) as Hh. unfold flush_one_run.
  assert (exists lines' idss', intact x d lines' idss' /\ dedup_ids x idss' = dedup_ids x idss) as Hsame by eauto.
  case_bool_decide as Hemp; [by intros [= <- <- <-]|].
  destruct (N.leb_spec MAX_RUNS (len (dx_runs x))) as [_|Hlt]; [by intros [= <- <- <-]|].
  set (n := N.to_nat (ec_run_max_entries (dx_config x))). set (ids := take n (btree_iter (dx_hot_set x))).
  pose proof (hot_ids_sorted x d idss n Hh) as Hsorted. fold ids in Hsorted.
  destruct (config_bounds _ (hd_config x d idss Hh)) as [_ Hrm].
  assert (len ids <= MAX_RUN_ENTRIES) as Hids by (unfold ids, len, n; rewrite length_take; lia).
  destruct (draft_run x ids) as [[[record bytes] line]|] eqn:Ed; [|by intros [= <- <- <-]].
  destruct (draft_run_spec x ids record bytes line Hsorted Hids Ed) as (-> & Hseq & Hname & Hfirst & Hlast & Hcount).
  destruct (draft_run_chained x ids record _ line Hsorted Hids Ed) as (Hhashed & Hprev & Hhash & json & Hjson & ->).
  set (line := json ++ [ascii_of_N 10]).
  destruct (N.ltb_spec (ec_disk_budget_bytes (dx_config x))
    (saturating_add (dx_disk_bytes x) (saturating_add (saturating_add (dr_file_bytes record) (len line)) 4096)))
    as [_|Hb]; [by intros [= <- <- <-]|]. clear Hsame.
  destruct Hi as [_ Hd Hid Hwidth Hl Hm Hc Ht Hhs Hn Hbytes].
  set (names := list_to_set (map dr_file_name (dx_runs x)) : gset str) in *.
  assert (dr_file_name record ∉ names) as Hnew.
  { intros Hin. destruct (runs_named x d idss _ Hh Hin) as (k & Hk & Hle). rewrite Hname in Hk.
    apply run_file_name_inj in Hk. lia. }
  assert (dk_files d !! dr_file_name record = None) as Hfree.
  { apply eq_None_not_Some. intros Hs. apply Hn in Hs. rewrite Hname in Hs, Hnew. by rewrite run_name_orphan in Hs. }
  assert (dk_files d !! (dr_file_name record ++ (".tmp" : str)) = None) as Htmp.
  { apply eq_None_not_Some. intros Hs. apply Hn in Hs. by rewrite tmp_orphan in Hs. }
  unfold fs_bind. rewrite (calm_atomic_write _ (run_bytes ids) d Hd Hfree Htmp).
  assert (dr_file_name record <> MANIFEST) as Hnm by (rewrite Hname; apply run_file_name_manifest).
  erewrite calm_append_manifest; [|done|cbn; rewrite lookup_insert_ne by done; exact Hm].
  intros [= <- <- <-]. cbn [dk_files with_files].
  exists (lines ++ [json]), (idss ++ [ids]).
  match goal with |- intact _ ?D _ _ /\ _ => set (d' := D) end.
  assert (saturating_add (saturating_add (dx_disk_bytes x) (dr_file_bytes record)) (len line)
          = dx_disk_bytes x + dr_file_bytes record + len line
          /\ dx_disk_bytes x + dr_file_bytes record + len line <= ec_disk_budget_bytes (dx_config x)) as [Hsum Hle]
    by (unfold saturating_add in *; lia).
  destruct (with_run_holds x d d' idss record line n) as (H1 & H2 & _); auto.
  - constructor; auto. cbn. rewrite lookup_insert_ne by done. by rewrite lookup_insert_eq.
  - intros k Hk. cbn. rewrite lookup_insert_ne by (symmetry; apply run_file_name_manifest).
    rewrite lookup_insert_ne; [done|]. rewrite Hname. intros He%run_file_name_inj. lia.
  - cbn. fold line. by rewrite Hsum.
  - split; [|exact H2]. constructor; cbn [dx_index_id dx_config dx_runs with_run dx_manifest_tail dx_disk_bytes]; auto.
    + apply Forall2_app; [done|]. by constructor.
    + cbn. rewrite lookup_insert_eq. unfold manifest_text. rewrite flat_map_app. cbn. by rewrite app_nil_r.
    + apply chained_snoc; auto; first [lia|congruence].
    + unfold chain_end. by rewrite last_snoc.
    + apply Forall2_app; [done|]. by constructor.
    + intros name. cbn. rewrite map_app, list_to_set_app_L. fold names. cbn.
      intros [v Hv]. destruct (decide (name = dr_file_name record)) as [->|Hne].
      * unfold is_orphan. rewrite Hname, run_name_no_tmp. rewrite bool_decide_true by set_solver. by rewrite andb_false_r.
      * apply (is_orphan_mono names); [set_solver|]. apply Hn. destruct (decide (name = MANIFEST)) as [->|Hne']; [eauto|].
        rewrite !lookup_insert_ne in Hv by done. eauto.
    + unfold d'. cbn [dk_files with_files]. rewrite Hsum.
      assert (<[dr_file_name record := run_bytes ids]> (dk_files d) !! MANIFEST = Some (manifest_text lines)) as Hm'
        by (by rewrite lookup_insert_ne).
      pose proof (map_sum_replace len _ MANIFEST _ (manifest_text lines ++ line) Hm') as Hrep.
      rewrite (map_sum_insert len _ _ _ Hfree), len_app in Hrep. rewrite Hbytes, (proj2 Hhashed).
      lia.
Qed.

(** Only the hot set and the count of duplicates changed. *)
Lemma intact_memory x y d lines idss :
  intact x d lines idss -> holds y d idss -> dx_config y = dx_config x -> dx_index_id y = dx_index_id x ->
  dx_runs y = dx_runs x -> dx_manifest_tail y = dx_manifest_tail x -> dx_disk_bytes y = dx_disk_bytes x ->
  intact y d lines idss.
Proof. intros [] Hy E1 E2 E3 E4 E5. constructor; rewrite ?E1, ?E2, ?E3, ?E4, ?E5; auto. Qed.

Lemma flush_loop_intact fuel committed x d lines idss r x' d' :
  intact x d lines idss -> flush_loop fuel committed x d = (r, x', d') ->
  exists lines' idss', intact x' d' lines' idss' /\ dedup_ids x' idss' = dedup_ids x idss.
Proof.
  revert committed x d lines idss. induction fuel as [|fuel IH]; intros committed x d lines idss Hi; cbn [flush_loop].
  { intros [= <- <- <-]. eauto. }
  case_bool_decide; [intros [= <- <- <-]; eauto|].
  destruct (flush_one_run x d) as [[[n|e] x1] d1] eqn:Ef;
    destruct (flush_one_intact _ _ _ _ _ _ _ Hi Ef) as (lines1 & idss1 & Hi1 & Hids1).
  - intros Hl. destruct (IH _ _ _ _ _ Hi1 Hl) as (lines2 & idss2 & Hi2 & Hids2). exists lines2, idss2. split; [done|congruence].
  - intros [= <- <- <-]. eauto.
Qed.

Lemma intact_hot x d lines idss id :
  intact x d lines idss -> is_id id -> (id ∉ dedup_ids x idss) ->
  set_len (dx_hot_set x) < ec_hot_set_max_entries (dx_config x) -> intact (with_hot id x) d lines idss.
Proof.
  intros Hi Hid Hnew Hroom. apply (intact_memory x); auto. unfold dedup_ids in Hnew.
  destruct (in_holds _ _ _ _ Hi). constructor; cbn; auto.
  - intros i [->%elem_of_singleton|]%elem_of_union; auto.
  - rewrite set_len_insert by set_solver. lia.
  - intros i Hin. apply hd_apart in Hin as Hin'. set_solver.
Qed.

Lemma classify_intact id x d lines idss r x' d' :
  intact x d lines idss -> classify_and_insert id x d = (r, x', d') ->
  exists lines' idss', intact x' d' lines' idss'.
Proof.
  intros Hi. pose proof (in_holds _ _ _ _ Hi) as Hh. pose proof (in_calm _ _ _ _ Hi) as Hd.
  unfold classify_and_insert. unfold validate_finding_id at 1.
  destruct (is_lower_hex_sha256 id) eqn:Hid; cbn [negb]; [|intros [= <- <- <-]; eauto].
  unfold fs_bind at 1, fs_lift at 1.
  destruct (dedup_contains_answers x d idss id Hh Hid) as (_ & Hsame & Hans).
  destruct (dedup_contains id x d) as [[b|e] d1]; cbn [fst snd] in *; [|by destruct Hans].
  rewrite (Hsame Hd). destruct b; symmetry in Hans.
  { intros [= <- <- <-]. exists lines, idss. apply (intact_memory x); auto. by destruct Hh. }
  apply bool_decide_eq_false in Hans.
  destruct (N.leb_spec (ec_hot_set_max_entries (dx_config x)) (set_len (dx_hot_set x))) as [Hfull|Hroom].
  - destruct (flush_one_run x d) as [[[n|e] x2] d2] eqn:Ef;
      destruct (flush_one_intact _ _ _ _ _ _ _ Hi Ef) as (lines2 & idss2 & Hi2 & Hids2); intros [= <- <- <-];
      exists lines2, idss2; [|done].
    apply intact_hot; auto; [by rewrite Hids2|].
    destruct (flush_one_run_spec _ _ _ _ _ _ Hh Ef) as (_ & _ & _ & Hn & Hpos).
    pose proof (hd_size x d idss Hh). destruct (config_bounds _ (hd_config x d idss Hh)) as [Hhm _].
    assert (dx_hot_set x <> ∅) as Hne by (intros He; rewrite He in Hfull; unfold set_len in Hfull; rewrite size_empty in Hfull; lia).
    specialize (Hpos Hne). rewrite (proj1 (flush_one_same _ _ _ _ _ Ef)). lia.
  - intros [= <- <- <-]. exists lines, idss. by apply intact_hot.
Qed.

Lemma dedup_calls_intact {JLn : JsonLines DedupRunRecord} calls x d lines idss answers x' d' :
  intact x d lines idss -> dedup_calls calls x d = (answers, x', d') ->
  exists lines' idss', intact x' d' lines' idss'.
Proof.
  revert x d lines idss answers. induction calls as [|c calls IH]; intros x d lines idss answers Hi; cbn [dedup_calls].
  { intros [= <- <- <-]. eauto. }
  destruct (dedup_call c x d) as [[a x1] d1] eqn:E1. destruct (dedup_calls calls x1 d1) as [[l x2] d2] eqn:E2.
  intros [= <- <- <-].
  assert (exists lines1 idss1, intact x1 d1 lines1 idss1) as (lines1 & idss1 & Hi1); [|by eapply IH].
  destruct c as [id|id| |]; cbn [dedup_call] in E1.
  - destruct (classify_and_insert id x d) as [[r y] e] eqn:E. injection E1 as <- <- <-. by eapply classify_intact.
  - destruct (dedup_contains id x d) as [r e] eqn:E. injection E1 as <- <- <-. exists lines, idss.
    destruct (is_lower_hex_sha256 id) eqn:Hid.
    + destruct (dedup_contains_answers x d idss id (in_holds _ _ _ _ Hi) Hid) as (_ & Hsame & _). rewrite E in Hsame. cbn in Hsame.
      by rewrite Hsame by exact (in_calm _ _ _ _ Hi).
    + unfold dedup_contains, validate_finding_id in E. rewrite Hid in E. cbn in E. by injection E as <- <-.
  - destruct (dedup_flush x d) as [[r y] e] eqn:E. injection E1 as <- <- <-.
    destruct (flush_loop_intact _ _ _ _ _ _ _ _ _ Hi E) as (l1 & i1 & H1 & _). eauto.
  - rewrite (verify_ok x d lines idss Hi) in E1. injection E1 as <- <- <-. eauto.
Qed.

(** ** Opening *)

Definition names_sum (files : gmap str str) (names : list str) : N :=
  foldr (fun name sum => len (default [] (files !! name)) + sum) 0 names.

Lemma names_sum_map files names :
  NoDup names -> (forall name, name ∈ names <-> is_Some (files !! name)) -> names_sum files names = map_sum len files.
Proof.
  intros Hnd. revert files. induction Hnd as [|name names Hn _ IH]; intros files Hf.
  - assert (files = ∅) as ->; [|by rewrite map_sum_empty]. apply map_empty. intros name.
    apply eq_None_not_Some. intros Hs%Hf. by apply not_elem_of_nil in Hs.
  - destruct (proj1 (Hf name) ltac:(left)) as [bytes Hb]. cbn [names_sum foldr]. rewrite Hb. cbn [from_option id].
    rewrite (map_sum_delete len files name bytes Hb). f_equal. rewrite <- (IH (delete name files)).
    + unfold names_sum. clear -Hn. induction names as [|x l IH]; [done|]. cbn.
      apply not_elem_of_cons in Hn as [Hne Hn]. rewrite lookup_delete_ne by done. by rewrite IH.
    + intros x. destruct (decide (x = name)) as [->|Hne].
      * rewrite lookup_delete_eq. split; [done|by intros [? ?]].
      * rewrite lookup_delete_ne by done. rewrite <- Hf, elem_of_cons. naive_solver.
Qed.

Lemma sum_bytes_ok names total d :
  calm d -> (forall name, name ∈ names -> is_Some (dk_files d !! name)) -> total + names_sum (dk_files d) names <= u64_max ->
  sum_bytes total names d = (Ok (total + names_sum (dk_files d) names), d).
Proof.
  intros Hd. revert total. induction names as [|name names IH]; intros total Hn Hb; cbn [sum_bytes names_sum foldr] in *.
  { unfold fs_ret. by rewrite N.add_0_r. }
  destruct (Hn name ltac:(left)) as [bytes Hbytes]. rewrite Hbytes in *. cbn [from_option id] in *.
  unfold fs_bind. rewrite !(calm_io_call d Hd), (calm_io_len name bytes d Hd Hbytes).
  fold (names_sum (dk_files d) names) in *. unfold saturating_add. rewrite N.min_l by lia.
  rewrite IH; [by rewrite N.add_assoc|intros x Hx; apply Hn; by right|lia].
Qed.

Lemma directory_bytes_ok d :
  calm d -> map_sum len (dk_files d) <= u64_max -> dedup_directory_bytes d = (Ok (map_sum len (dk_files d)), d).
Proof.
  intros Hd Hb. unfold dedup_directory_bytes, fs_bind. rewrite (calm_io_read_dir d Hd).
  assert (names_sum (dk_files d) (map_keys (dk_files d)) = map_sum len (dk_files d)) as Hs
    by (apply names_sum_map; [apply map_keys_NoDup|intros name; apply elem_of_map_keys]).
  rewrite sum_bytes_ok; rewrite ?Hs; auto. intros name. apply elem_of_map_keys.
Qed.

(** The index as it is opened again. *)
Definition reopened (x : DiskBackedExactDedupIndex) : DiskBackedExactDedupIndex :=
  {| dx_config := dx_config x; dx_index_id := dx_index_id x; dx_hot_set := ∅; dx_runs := dx_runs x;
     dx_manifest_tail := dx_manifest_tail x; dx_committed_unique_ids := dx_committed_unique_ids x;
     dx_duplicate_observations := 0; dx_disk_bytes := dx_disk_bytes x |}.

Lemma committed_fold files runs idss acc :
  Forall2 (run_ok files) runs idss -> acc + len (concat idss) <= u64_max ->
  fold_left (fun sum record => saturating_add sum (dr_entry_count record)) runs acc = acc + len (concat idss).
Proof.
  intros Hr. revert acc. induction Hr as [|r ids runs idss Hr _ IH]; intros acc Hb; cbn [fold_left concat] in *.
  { rewrite len_nil. lia. }
  rewrite len_app in *. rewrite (ro_count _ _ _ Hr).
  rewrite (saturating_add_small acc (len ids) u64_max) by lia. rewrite IH by lia. lia.
Qed.

Lemma committed_small x d idss : holds x d idss -> len (concat idss) <= u64_max.
Proof.
  intros []. pose proof (Forall2_length _ _ _ hd_runs) as Hlen.
  assert (len (concat idss) <= len idss * MAX_RUN_ENTRIES) as Hb.
  { apply concat_len_bound, Forall_forall. intros k (i & Hi)%list_elem_of_lookup.
    by destruct (Forall2_lookup_r _ _ _ _ _ hd_runs Hi) as (r & _ & []). }
  unfold len, MAX_RUNS, MAX_RUN_ENTRIES, u64_max in *. lia.
Qed.

Lemma open_intact {JLn : JsonLines DedupRunRecord} x d lines idss :
  intact x d lines idss -> dedup_open (dx_config x) (dx_index_id x) d = (Ok (reopened x), d).
Proof.
  intros Hi. pose proof (in_holds _ _ _ _ Hi) as Hh. pose proof (in_calm _ _ _ _ Hi) as Hd.
  unfold dedup_open. unfold fs_bind at 1, fs_lift at 1. rewrite (hd_config x d idss Hh).
  unfold fs_bind at 1, fs_lift at 1. rewrite (in_id _ _ _ _ Hi).
  unfold fs_bind at 1. rewrite (calm_io_call d Hd).
  unfold fs_bind at 1. rewrite (calm_exists MANIFEST d Hd), (in_manifest _ _ _ _ Hi), bool_decide_true by eauto.
  unfold fs_bind at 1, fs_ret at 1. unfold fs_bind at 1. rewrite (load_ok x d lines idss Hi).
  unfold fs_bind at 1. rewrite (reject_ok x d lines idss Hi).
  pose proof (hd_limit x d idss Hh). destruct (N.ltb_spec MAX_RUNS (len (dx_runs x))); [lia|]. cbn zeta.
  pose proof (in_bytes _ _ _ _ Hi) as Hb. pose proof (hd_budget x d idss Hh). pose proof (in_width _ _ _ _ Hi).
  unfold fs_bind at 1. rewrite (directory_bytes_ok d Hd) by lia. rewrite <- Hb.
  destruct (N.ltb_spec (ec_disk_budget_bytes (dx_config x)) (dx_disk_bytes x)); [lia|]. unfold fs_ret, reopened.
  rewrite (committed_fold _ _ _ 0 (hd_runs x d idss Hh)) by (pose proof (committed_small x d idss Hh); lia).
  rewrite (in_tail _ _ _ _ Hi), (hd_committed x d idss Hh). done.
Qed.

Lemma reopened_holds x d idss : holds x d idss -> holds (reopened x) d idss.
Proof.
  intros []. constructor; cbn; auto.
  - intros id Hin. by apply not_elem_of_empty in Hin.
  - unfold set_len. rewrite size_empty. lia.
  - intros id _. apply not_elem_of_empty.
Qed.

Lemma list_singleton_of {A} (l : list A) x : NoDup l -> (forall y, y ∈ l <-> y = x) -> l = [x].
Proof.
  intros Hnd Hl. apply (Permutation_singleton_r l x). apply NoDup_Permutation; [done|apply NoDup_singleton|].
  intros y. rewrite Hl. by rewrite list_elem_of_singleton.
Qed.

(** A new directory. *)
Definition new_disk : Disk := {| dk_files := ∅; dk_faults := [] |}.

Lemma open_new config index_id x d :
  ec_disk_budget_bytes config < u64_max -> dedup_open config index_id new_disk = (Ok x, d) ->
  dx_config x = config /\ dx_index_id x = index_id /\ intact x d [] [] /\ dx_hot_set x = ∅.
Proof.
  intros Hw. unfold dedup_open. unfold fs_bind at 1, fs_lift at 1.
  destruct (dedup_config_validate config) as [[]|] eqn:Ec; [|done]. unfold fs_bind at 1, fs_lift at 1.
  destruct (validate_index_identifier index_id) as [[]|] eqn:Ei; [|done].
  assert (calm new_disk) as Hd by done. unfold fs_bind at 1. rewrite (calm_io_call _ Hd).
  unfold fs_bind at 1. rewrite (calm_exists MANIFEST _ Hd). rewrite bool_decide_false by (by intros [? ?]).
  set (d0 := {| dk_files := <[MANIFEST := []]> ∅; dk_faults := [] |}).
  assert (fs_bind (io (fs_create MANIFEST)) (fun _ => io fs_call) new_disk = (Ok tt, d0)) as Hcreate by done.
  assert (dk_files d0 = <[MANIFEST := []]> ∅) as Hfiles by done. assert (calm d0) as Hd0 by done. clearbody d0.
  unfold fs_bind at 1. rewrite Hcreate.
  assert (dk_files d0 !! MANIFEST = Some []) as Hman by (rewrite Hfiles; apply lookup_insert_eq).
  assert (load_and_verify_dedup_manifest index_id d0 = (Ok [], d0)) as Hload.
  { unfold load_and_verify_dedup_manifest, fs_bind at 1, io, fs_map_err, fs_read_to_string, fs_bind.
    by rewrite (calm_read MANIFEST d0 []). }
  unfold fs_bind at 1. rewrite Hload.
  assert (map_keys (dk_files d0) = [MANIFEST]) as Hkeys.
  { apply list_singleton_of; [apply map_keys_NoDup|]. intros name. rewrite elem_of_map_keys, Hfiles.
    destruct (decide (name = MANIFEST)) as [->|Hne].
    - rewrite lookup_insert_eq. split; eauto.
    - rewrite lookup_insert_ne, lookup_empty by done. split; [by intros [? ?]|done]. }
  assert (reject_orphan_runs [] d0 = (Ok tt, d0)) as Hreject.
  { unfold reject_orphan_runs. unfold fs_bind at 1. rewrite (calm_io_read_dir d0 Hd0), Hkeys. cbn [fs_for].
    unfold fs_bind at 1 2. by rewrite (calm_io_call d0 Hd0). }
  unfold fs_bind at 1. rewrite Hreject. destruct (MAX_RUNS <? len []) eqn:E0; [done|].
  assert (map_sum len (dk_files d0) = 0) as Hz by (rewrite Hfiles, map_sum_insert by apply lookup_empty; by rewrite map_sum_empty).
  unfold fs_bind at 1. rewrite (directory_bytes_ok d0 Hd0) by (rewrite Hz; done). rewrite Hz. intros H.
  destruct (ec_disk_budget_bytes config <? 0) eqn:E1; [done|]. injection H as <- <-.
  split; [done|]. split; [done|]. split; [|done]. constructor; try done; try constructor; try done.
  - cbn. unfold set_len. rewrite size_empty. lia.
  - constructor.
  - cbn. lia.
  - intros name [v Hv]. rewrite Hfiles in Hv.
    apply lookup_insert_Some in Hv as [[<- _]|[_ Hv]]; [reflexivity|by rewrite lookup_empty in Hv].
Qed.

(** C31: an index whose disk has no faults is found again. After any calls on a new
    directory and a flush, finishing gives the checkpoint of the index; opening the
    directory again succeeds, gives the same runs and the same end of the manifest,
    verifies, counts every identifier that was accepted, and answers exactly as the
    set of them does. *)
Theorem dedup_survives_restart {JLn : JsonLines DedupRunRecord} config index_id x d calls answers x' d' n x'' d'' :
  ec_disk_budget_bytes config < u64_max ->
  dedup_open config index_id new_disk = (Ok x, d) -> dedup_calls calls x d = (answers, x', d') ->
  dedup_flush x' d' = (Ok n, x'', d'') ->
  dedup_finish x' d' = (Ok (dedup_checkpoint x''), d'')
  /\ exists X y, set_history ∅ calls answers X
    /\ dedup_open config index_id d'' = (Ok y, d'') /\ dedup_verify y d'' = (Ok tt, d'')
    /\ dx_runs y = dx_runs x'' /\ dx_manifest_tail y = dx_manifest_tail x''
    /\ ek_committed_unique_ids (dedup_checkpoint y) = set_len X
    /\ forall id, is_id id -> dedup_contains id y d'' = (Ok (bool_decide (id ∈ X)), d'').
Proof.
  intros Hw Ho Hc Hf. destruct (open_new _ _ _ _ Hw Ho) as (Hcfg & Hid & Hi & Hhot).
  destruct (dedup_calls_intact _ _ _ _ _ _ _ _ Hi Hc) as (lines' & idss' & Hi').
  destruct (dedup_calls_spec _ _ _ _ _ _ _ (in_holds _ _ _ _ Hi) Hc) as (idss1 & Hh1 & Hs).
  destruct (flush_loop_intact _ _ _ _ _ _ _ _ _ Hi' Hf) as (lines2 & idss2 & Hi2 & Hids2).
  destruct (flush_loop_spec _ _ _ _ _ _ _ _ (in_holds _ _ _ _ Hi') (le_n _) Hf) as (_ & _ & _ & Hempty).
  specialize (Hempty eq_refl).
  assert (dx_config x'' = config /\ dx_index_id x'' = index_id) as [Hcfg'' Hid''].
  { destruct (flush_loop_same _ _ _ _ _ _ _ Hf) as [-> ->]. by destruct (dedup_calls_same _ _ _ _ _ _ Hc) as [-> ->]. }
  assert (dedup_ids x' idss1 = dedup_ids x'' idss2) as Hsame.
  { rewrite Hids2. by eapply holds_unique; [exact Hh1|exact (in_holds _ _ _ _ Hi')]. }
  pose proof (in_holds _ _ _ _ Hi2) as Hh2. split.
  { unfold dedup_finish. by rewrite Hf, (verify_ok x'' d'' lines2 idss2 Hi2). }
  exists (dedup_ids x'' idss2), (reopened x''). split_and!; try done.
  - rewrite <- Hsame. unfold dedup_ids in Hs at 1. rewrite Hhot in Hs. cbn in Hs. by rewrite (left_id_L ∅ _) in Hs.
  - rewrite <- Hcfg'', <- Hid''. by apply (open_intact x'' d'' lines2 idss2).
  - apply (verify_ok (reopened x'') d'' lines2 idss2). apply (intact_memory x''); auto. by apply reopened_holds.
  - cbn. rewrite (hd_committed _ _ _ Hh2). unfold dedup_ids, set_len. rewrite Hempty, (left_id_L ∅ _).
    rewrite size_list_to_set by apply (hd_distinct _ _ _ Hh2). done.
  - intros id Hv. pose proof (reopened_holds _ _ _ Hh2) as Hr.
    destruct (dedup_contains_answers _ _ _ id Hr Hv) as (_ & Hd & Ha).
    destruct (dedup_contains id (reopened x'') d'') as [[b|e] d3]; cbn in *; [|by destruct Ha; destruct H; apply (in_calm _ _ _ _ Hi2)].
    rewrite (Hd (in_calm _ _ _ _ Hi2)). subst b. unfold dedup_ids. cbn. by rewrite Hempty.
Qed.
End Calm.

(** ** An example *)

Definition demo_finished (d : Disk) : option (list DedupAnswer * DiskBackedExactDedupIndex * Disk
    * (Result N ExactDedupError * DiskBackedExactDedupIndex * Disk)) :=
  match demo_on d with
  | Some (answers, x', d') =>
      Some (answers, x', d', dedup_flush (S := toy_sha256) (JT := toy_run_tuple_json) (OS := toy_os)
                               (JR := toy_record_json) x' d')
  | None => None
  end.

(** Five identifiers are accepted, in three runs. *)
Lemma demo_finished_ok :
  match demo_finished new_disk with
  | Some (answers, x', _, (Ok _, x'', _)) =>
      (length (dx_runs x'') =? 3)%nat && (dx_committed_unique_ids x'' =? 5)
  | _ => false
  end = true.
Proof. vm_compute. reflexivity. Qed.

Lemma dedup_survives_restart_witness :
  match demo_finished new_disk with
  | Some (answers, x', d', (Ok _, x'', d'')) =>
      dedup_finish (S := toy_sha256) (OS := toy_os) (JT := toy_run_tuple_json) (JR := toy_record_json)
        (JP := toy_record_json_parse) x' d' = (Ok (dedup_checkpoint x''), d'')
      /\ exists X y, set_history ∅ demo_dedup_calls answers X /\ demo_dedup_open d'' = (Ok y, d'')
        /\ length (dx_runs y) = 3%nat
        /\ dedup_contains (OS := toy_os) (demo_id "e") y d''
           = (Ok (bool_decide (demo_id "e" ∈ X)), d'')
  | _ => False
  end.
Proof.
  pose proof demo_finished_ok as Hd. unfold demo_finished, demo_on in *.
  destruct (demo_dedup_open new_disk) as [[x|e] d] eqn:Eo; [|discriminate].
  destruct (demo_dedup_run x d) as [[answers x'] d'] eqn:Ec.
  destruct (dedup_flush x' d') as [[[n|e] x''] d''] eqn:Ef; [|discriminate].
  apply andb_true_iff in Hd as [Hruns%Nat.eqb_eq _].
  destruct (@dedup_survives_restart toy_sha256 toy_os toy_run_tuple_json toy_record_json toy_record_json_parse
    toy_record_json_lines demo_dedup_config "index-1" x d demo_dedup_calls answers x' d' n x'' d'' eq_refl Eo Ec Ef)
    as (Hfin & X & y & Hs & Hy & _ & Hr & _ & _ & Ha).
  split; [exact Hfin|]. exists X, y. split; [exact Hs|]. split; [exact Hy|]. split; [by rewrite Hr|].
  apply Ha. reflexivity.
Defined.

(** When the check whether the manifest exists fails, opening an index that has runs
    empties the manifest, and the index cannot be opened from then on. *)
Lemma failed_check_empties_manifest :
  match demo_finished new_disk with
  | Some (_, _, _, (Ok _, _, d'')) =>
      let failing := {| dk_files := dk_files d''; dk_faults := [None; Some {| ft_written := 0; ft_message := "eio" |}] |} in
      match demo_dedup_open failing with
      | (Err (DdOrphanRun _), d) =>
          bool_decide (dk_files d !! MANIFEST = Some []) && bool_decide (dk_faults d = [])
          && match demo_dedup_open d with (Err (DdOrphanRun _), _) => true | _ => false end
      | _ => false
      end
  | _ => false
  end = true.
Proof. vm_compute. reflexivity. Qed.
